(* ===== verification/_CoqProject ===== *)
-Q . S2P
Prelude.v
Events.v
Hash.v
CacheLog.v
CacheProofs.v
TableLifecycle.v
LifecycleStore.v
Scheduler.v
SchemaHistory.v
TargetStore.v
BinlogConsumer.v
Replayer.v
Dispatch.v
Buffers.v
Pipeline.v
Tasks.v
FlowControl.v
Scope.v
Strings.v
Filters.v
Routing.v
Chunks.v
OracleDML.v
LogMiner.v
Offsets.v
Cluster.v
SQLSink.v
PgOutput.v
EtcdCoordinator.v
Errors.v
MySQLRows.v
DDLApply.v
BinlogSyncer.v
MySQLConnector.v
MariaDBSyncer.v
DocumentSinks.v
RedisSink.v
ElasticSink.v
MongoSink.v
KafkaSink.v
SinkMetrics.v
SQLServerReader.v
SQLServerConnector.v
MongoSource.v
PgConnector.v
OracleConnector.v
ParseTree.v
MySQLVisitor.v
OracleVisitor.v
SQLServerVisitor.v
PostgresVisitor.v
TaskApi.v
TableApi.v
LifecyclePipeline.v
BinlogSetup.v
SQLSinkSetup.v
Config.v
CacheSize.v
StatsRegistry.v
