(* ===== verification/Prelude.v ===== *)
(** * DataStream, a change-data-capture platform: verification of its core

    DataStream reads row changes and DDL from source databases, takes snapshots of
    tables, caches the log while a snapshot runs, replays the cache, and then streams
    changes to sinks.  This library models the parts of src/ that carry that logic as
    executable definitions and proves what makes them correct.

    ** The parts and where they are modelled

    - Prelude.v: machine integers (64-bit [int], [uint32], [uint64] with their
      wrap-around), times and durations, Go errors and results, the state monad [ST]
      for methods that mutate their receiver (the state handed back on an error is
      the mutated one, as in Go), bytes, strings, labelled step sequences ([runs]),
      JSON codecs ([JSONCodec], [JSONLaws]) and iteration over Go maps ([GoRange], any
      permutation of the entries).
    - Events.v: pkg/event.  Change events, rows, table metadata, positions and their
      comparison.  Hash.v: pkg/utils/hash.go and the CRC of the cache records.
    - CacheLog.v, CacheProofs.v: internal/cache.  The local backend writes framed
      records to one file per table, over a model of files and open handles
      ([LocalBackend]); [BinlogCacheBackend] is the interface its clients use.
      CacheSize.v: cache_size.go, the configured size and the level of the cache over
      binary64 numbers.
    - TableLifecycle.v: internal/source/table_lifecycle.go and
      global_min_position.go, the state machine of one table and the position up to
      which the source may be purged.  LifecycleStore.v:
      internal/source/lifecycle_store.go, a store of shared objects (a heap, since
      [Get] hands out pointers).  Scheduler.v:
      internal/lifecycle/snapshot_scheduler.go over both.
    - SchemaHistory.v: internal/schema, the table definitions, the DDL record manager
      and the history file.  TargetStore.v: internal/store, the MySQL store at the
      level of its statements, and the history kept there.
    - BinlogConsumer.v: internal/lifecycle/binlog_consumer.go, the routing of row and
      DDL events by the state of their table.  Replayer.v:
      internal/lifecycle/catching_up_replayer.go, cache reader and replayer as
      concurrent steps.  LifecyclePipeline.v:
      internal/lifecycle/pipeline_integration.go, source, router and [Stop] as concurrent
      steps around the consumer.
    - Dispatch.v: internal/sink, row identifiers, hash dispatch and the batching
      workers as concurrent steps.
    - Buffers.v, Pipeline.v, Tasks.v: internal/pipeline.  Buffers (in memory, in
      batches, persistent), the pipeline with its loop and control operations as
      concurrent steps and its dispatchers, tasks with their manager and the
      coordinator of a single node.
    - Scope.v: internal/source/sync_scope.go, table_manager.go, discovery.go and
      database_discovery.go: which databases and tables are synchronised, and how new
      ones are found ([Regexp] stands for the standard library's regular
      expressions, [TableAdder] for the connector).
    - FlowControl.v: internal/pipeline/backpressure.go, pkg/errors/circuit_breaker.go
      and pkg/utils/retry.go.
    - Strings.v: the functions of Go's strings package the files below use.
    - Filters.v: internal/filter, chains, rule filters and expression filters with
      their parser.  Routing.v: internal/router and internal/transform.
    - Chunks.v: internal/lifecycle/hash_chunker.go, internal/source/snapshot_config.go
      and snapshot_coordinator.go; generator, workers and result handler are
      concurrent steps.
    - OracleDML.v, LogMiner.v, OracleConnector.v: internal/source/oracle, the parser of
      redo statements, the rows of LogMiner as change events, and polling; the connector
      with its DDL handling, schema cache and recovery.
    - PgOutput.v, PgConnector.v: internal/source/postgres, the messages of pgoutput as
      change events, receiving them and confirming positions; the connector with its
      configuration, schema queries, start, loop and recovery.
    - DDLApply.v: pkg/parser, what a parsed DDL statement does to table definitions.
      ParseTree.v: the trees that the generated parsers build, with the accessors of
      their contexts and the functions on texts that the visitors share.  MySQLVisitor.v,
      OracleVisitor.v, SQLServerVisitor.v, PostgresVisitor.v: the visitors and [Parse] of
      pkg/parser/mysql, oracle, sqlserver and postgres; the tree of a text is a
      parameter, and the trees of statements follow the grammars.
      MySQLRows.v, BinlogSyncer.v, MySQLConnector.v: internal/source/mysql.  Wildcards,
      the cache of definitions and the conversion of rows; the events of the binary log
      and what they do to the syncer; the connector with its recovery and restarts.
      MariaDBSyncer.v: the syncer of internal/source/mariadb where it differs.
      BinlogSetup.v: the configuration of both, how they are set up, where they begin and
      how they resume.
    - SQLServerReader.v, SQLServerConnector.v: internal/source/sqlserver.  LSNs, the rows
      of a change table and the polls of one reader; the polls over all readers, the
      detection of DDL and restarts.
    - MongoSource.v: internal/source/mongodb, change documents as events, the loop over
      the stream and resuming it.
    - SQLSink.v: internal/sink/mysql, postgres, oracle and sqlserver, the statement of
      an event and the transactional [Write].  SQLSinkSetup.v: their configuration, data
      source names and set-up, the operations around [Write], and the COPY writer.
    - DocumentSinks.v: what the sinks for documents and messages share, with the
      correspondence of a table and its documents.  RedisSink.v, ElasticSink.v,
      MongoSink.v, KafkaSink.v: internal/sink/redis, elasticsearch, mongodb and kafka.
      SinkMetrics.v: internal/sink/decorator, the wrapper that counts.
    - Offsets.v: internal/offset, positions in memory, in a file and in etcd.
    - EtcdCoordinator.v: internal/coordinator, tasks, positions, nodes and leadership on
      etcd.  Cluster.v: internal/pipeline/cluster.go, registration, heartbeats and the
      leader's rebalancing, against the interface of a coordinator.
    - Errors.v: pkg/errors, classification and alerters, and internal/ratelimit.
    - TaskApi.v, TableApi.v: internal/api and internal/app, the handlers of the requests on
      tasks, nodes, tables and DDL over the manager, the coordinator and the life-cycle
      store, and how the application puts them together.  Config.v: pkg/config, the
      configuration of the application, and the coordinator it chooses.  StatsRegistry.v:
      pkg/metrics/collector_runtime.go and internal/connector, the collector of connector
      statistics and how tasks are registered with it.

    Operations keep the names of the source; where two types of one file have a method
    of the same name, the type is a prefix ([Task_Start], [bb_Get]).  Fields carry a
    short prefix of their record.

    ** Interfaces

    Code outside src/ and the interfaces between components are type classes, with the
    laws the code relies on in a class of their own and at least one instance that
    satisfies them: [JSONCodec]/[JSONLaws] (encoding/json), [KVStore]/[KVLaws]
    (badger), [TargetStore]/[DDLStateLaws], [SchemaHistory]/[SchemaHistoryLaws],
    [Coordinator]/[CoordinatorLaws], [EventSink], [DDLParser], [SinkConnector],
    [SourceConnector], [PipelineOps], [Regexp], [TableAdder], [Storage]/[StorageLaws]
    and [StorageAnswers] (storages whose calls succeed),
    [EtcdClient]/[EtcdLaws]/[EtcdFaults] and [EtcdElection]/[ElectionLaws] (etcd's
    client; an election is a queue of candidates whose first leads), [ClusterCoordinator]/[ClusterLaws], [SQLConn]/[SQLLaws] (database/sql),
    [MySQLTable] (what MySQL does with its own statements on one table, whatever wrote
    their text),
    [PipelineView] and [NodeRegistry] (what the API reads of a pipeline and of the nodes),
    [HistoryRowsLaws], [PendingLaws] and [CurrentPositionLaws] (what recovery relies on
    of a target store; [observed_store] has the calls that saved history rows, with their
    answers, and [FailingStore] fails), [RedisClient]/[RedisLaws] (go-redis), [ESClient]/[ESLaws]
    (Elasticsearch), [MongoClient]/[MongoLaws] (the MongoDB driver),
    [KafkaWriter]/[KafkaLaws] (kafka-go),
    [SnapshotReader], [rate_Limiter] (golang.org/x/time/rate) and [Fmt].  The clients'
    theorems are proved against the classes; the instances are the models of the
    repository's own implementations where it has them.

    ** What the theorems show

    - Life cycle and scheduling: the transition table and reachability of every state
      (a table streams only after a snapshot and its catch-up), pause and resume, the
      global minimum position, and a refinement: the scheduler over the shared-object
      store implements its specification on a map of life cycles.
    - Scopes: the answers of a scope, its agreement with the table manager, and that
      the events of discovery are enough to follow it.
    - Routing: where every event goes on every branch, what a DDL does to definitions,
      history and DDL state whether it succeeds or fails, and the bound on its retries.
    - Cache and history files: write/read round trips per table, reads that deliver
      only intact records, torn tails, failed batches, tail recovery; recovery of the
      schema history and of the target store.
    - Concurrency: in every interleaving the replayer delivers the cache in order and
      terminates, the concurrent writer keeps the order of every row, a pipeline that is
      started once processes the events of its source in order and a pause holds, and the life-cycle
      pipeline routes what the source sent in order ([lifecycle_routes_in_order]).
    - Buffers, tasks, dispatch, backpressure, circuit breaker and retries: queue
      order and bounds, recovery of the persistent buffer, agreement of manager and
      coordinator, the exact thresholds of the breaker, and the number of attempts.
    - Filters and routing: an expression filter decides what the conditions written in its
      text mean, a rule
      filter agrees with its reference definition, partitions are in range.
    - Snapshots in parallel: the chunks of a table partition its keys, no task is lost
      or counted twice in any interleaving, and the coordinator finishes.
    - Sources: printing a redo statement and parsing it gives the row back, the parser
      answers on every update and delete (an insert can keep it in a loop), a redo row
      becomes the event of its change; the records of relation messages that were written
      recover the definitions, binary integers round-trip.  The MySQL syncer sends the
      events of the log in order, a rows event with the values of its rows; a restart keeps
      the definitions whose history rows were saved and fails the statements it
      interrupted; the captured tables follow the requests; a connector that is set up
      again on the offsets that were kept begins at the last position saved
      ([mysql_restart_resumes], [maria_restart_resumes]).  A reader of a SQL Server change
      table reads its changes in order and once, but for those at the next LSN
      ([cdc_polls_read]); the Oracle connector goes on at the number it had reached, with
      the definitions that were saved.  The MongoDB source and the PostgreSQL connector
      resume under conditions that the program does not meet by itself
      ([mongo_restart_resumes], [pg_restart_resumes]; see [positions_not_kept] and
      [pg_started_sends_nothing]).
    - DDL: a visitor reads what was written, for the statements of MySQL but an ALTER TABLE
      that adds several columns in one part; an ALTER TABLE of any of the four dialects does to a definition what its parts do, one
      after the other ([mysql_alter_applied], [oracle_alter_applied],
      [sqlserver_alter_applied], [postgres_alter_applied]), a CREATE TABLE gives the
      columns as they are written, and PostgreSQL types are found in the text
      ([pg_type_found]) but for the last column ([pg_last_column_type]).
    - Document sinks: the documents of Redis, Elasticsearch and MongoDB mirror the table
      whose changes were written (in Elasticsearch when no document was refused), a bulk body is read back as its actions, retries are
      bounded, the metrics decorator is transparent; the Kafka sink fails every write.
    - Relational sinks: a batch is applied whole or not at all, the target mirrors the changes that
      were written and writing them again changes nothing, and every placeholder gets
      the value of its column.
    - Offsets and coordination: the file storage survives a crash at every point of a
      flush, the coordinator on etcd refines a map of tasks, and at most one of the nodes
      on one etcd is told that it leads a task.
    - The application: what requests do to tasks is what operations of the manager do
      ([api_refines_manager]), a drain and a shutdown stop every task, skipping and retrying
      an error refine what they say of one table ([skip_error_refines]); but no task of the
      application has a pipeline, so that none can be started ([api_tasks_never_run]).  Defaults are filled in once, an accepted
      configuration has what the application asks of it, and the memory coordinator needs
      its name twice ([memory_needs_both]).  Sizes with a unit are the product, and the
      levels are exact on thousandths.  Unregistering a task removes its source and its
      first sixteen sinks ([unregister_task]).
    - Where the code does not do what it says, the theorem states what it does
      ([ddl_retry_limit_unreachable], [scheduler_never_snapshots],
      [Truncate_erases_intact_log], [paused_task_runs_on], ...).

    ** Bounds and fuel

    Loops are structural recursion where the source's are: over the events, items,
    retries or tables they visit.  Reading a file recurses on fuel, the length of the
    file plus one, which is enough because every record consumes bytes
    ([read_loop_enough], [recover_enough]).  A flush or a retry recurses on its number
    of attempts.  The redo parser recurses on a number of rounds, the length of the
    text plus one for updates and deletes, since every round that does not end consumes
    a byte ([parse_terminates]); for an insert no number may be enough
    ([insert_parse_diverges]); the parser of filter expressions recurses on its depth, and
    the generator of chunks on the number of chunks still to come.  The copy of the
    PostgreSQL sink calls itself without end: it runs on a stack depth, and overflows
    every one ([pg_copy_recursion]).  Steps of concurrent components need no fuel;
    termination is a measure ([replay_terminates]).  Counters wrap at 64 bits where they are stored;
    theorems that speak of their values bound the length of the history.

    ** What is not modelled

    The protocols of the databases, which the drivers speak; the lexers and parsers
    generated from grammars; the routing of HTTP requests and the command line, the decoding
    of configuration files, metric vectors and logs.  A statement of the MySQL store either fails without an effect or has the
    effect of its SQL.  [time.Now] is an argument of each call, read once.  A [select]
    takes any ready case.  Random jitter of delays is left out. *)
From Stdlib Require Import ZArith Lia.
From Stdlib Require Ascii String Strings.Byte.
From stdpp Require Import prelude countable gmap strings list fin_maps.

Declare Scope go_scope.
Delimit Scope go_scope with go.

(** ** Automation *)

Create HintDb datastream discriminated.

(** Case analysis on the scrutinee of a [match] or [if] anywhere in the goal
    or the hypotheses, keeping the equation. *)
Ltac break_match :=
  match goal with
  | |- context [ match ?x with _ => _ end ] => destruct x eqn:?
  | H : context [ match ?x with _ => _ end ] |- _ => destruct x eqn:?
  end.

(** Normalises boolean tests of the code into propositions. *)
Ltac propify :=
  repeat match goal with
  | H : bool_decide _ = true |- _ => apply bool_decide_eq_true_1 in H
  | H : bool_decide _ = false |- _ => apply bool_decide_eq_false_1 in H
  | H : andb _ _ = true |- _ => apply andb_true_iff in H; destruct H
  | H : orb _ _ = false |- _ => apply orb_false_iff in H; destruct H
  | H : negb _ = true |- _ => apply negb_true_iff in H
  | H : negb _ = false |- _ => apply negb_false_iff in H
  | H : Z.leb _ _ = true |- _ => apply Z.leb_le in H
  | H : Z.leb _ _ = false |- _ => apply Z.leb_gt in H
  | H : Z.ltb _ _ = true |- _ => apply Z.ltb_lt in H
  | H : Z.ltb _ _ = false |- _ => apply Z.ltb_ge in H
  | H : Z.eqb _ _ = true |- _ => apply Z.eqb_eq in H
  | H : Z.eqb _ _ = false |- _ => apply Z.eqb_neq in H
  end.

(** The case split used on the handlers: break every branch, drop the
    impossible ones, substitute. *)
Ltac crush := repeat (break_match; simplify_eq/=); propify; eauto with datastream; try lia.

(** ** Machine integers

    Go's [int] and [int64] are 64-bit two's complement, [uint32] and [uint64]
    wrap modulo a power of two.  Values are kept as [Z]; the arithmetic that
    can overflow goes through these functions. *)

Definition u32 (z : Z) : Z := z mod 2 ^ 32.
Definition u64 (z : Z) : Z := z mod 2 ^ 64.
Definition i64 (z : Z) : Z := (z + 2 ^ 63) mod 2 ^ 64 - 2 ^ 63.

Definition max_int64 : Z := 2 ^ 63 - 1.
Definition min_int64 : Z := - 2 ^ 63.

Lemma u32_range z : (0 <= u32 z < 2 ^ 32)%Z.
Proof. apply Z.mod_pos_bound. lia. Qed.

Lemma u32_small z : (0 <= z < 2 ^ 32)%Z → u32 z = z.
Proof. apply Z.mod_small. Qed.

Lemma u64_range z : (0 <= u64 z < 2 ^ 64)%Z.
Proof. apply Z.mod_pos_bound. lia. Qed.

Lemma u64_small z : (0 <= z < 2 ^ 64)%Z → u64 z = z.
Proof. apply Z.mod_small. Qed.

Lemma i64_range z : (min_int64 <= i64 z <= max_int64)%Z.
Proof.
  unfold i64, min_int64, max_int64.
  pose proof (Z.mod_pos_bound (z + 2 ^ 63) (2 ^ 64)). lia.
Qed.

Lemma i64_small z : (min_int64 <= z <= max_int64)%Z → i64 z = z.
Proof.
  unfold i64, min_int64, max_int64. intros H. rewrite Z.mod_small; lia.
Qed.

Lemma i64_add_l a b : i64 (i64 a + b) = i64 (a + b).
Proof.
  unfold i64.
  replace ((a + 2 ^ 63) mod 2 ^ 64 - 2 ^ 63 + b + 2 ^ 63)%Z
    with ((a + 2 ^ 63) mod 2 ^ 64 + b)%Z by lia.
  rewrite Zplus_mod_idemp_l. do 2 f_equal. lia.
Qed.

(** [time.Time] is the number of nanoseconds since the zero time, so that
    [IsZero] is the test for [0]; [Sub] saturates at the bounds of
    [time.Duration] as the Go method does. *)
Definition time := Z.
Definition duration := Z.

Definition time_IsZero (t : time) : bool := Z.eqb t 0.
Definition time_Before (a b : time) : bool := Z.ltb a b.
Definition time_After (a b : time) : bool := Z.ltb b a.
Definition time_Sub (a b : time) : duration :=
  Z.max min_int64 (Z.min max_int64 (a - b)).

(** ** Errors

    A Go [error] is a value: a sentinel with an RFC code (pingcap [errors]),
    possibly with arguments, a formatted message, a message that wraps a cause
    ([%w]), or one of the sentinels of [context] and [io]. *)
Inductive goerror :=
  | ErrCode (code : string)
  | ErrCodeArgs (code args : string)
  | ErrNew (msg : string)
  | ErrWrapf (msg : string) (cause : goerror)
  | CtxCanceled
  | CtxDeadlineExceeded
  | IoEOF
  | IoUnexpectedEOF
  (* not an error value: a run-time panic, which no caller below handles *)
  | Panic (msg : string).

#[export] Instance goerror_eq_dec : EqDecision goerror.
Proof. solve_decision. Defined.

(** [errors.Is] against a sentinel: walks the [%w] chain. *)
Fixpoint errors_Is (e target : goerror) : bool :=
  bool_decide (e = target) ||
  match e with
  | ErrWrapf _ c => errors_Is c target
  | _ => false
  end.

(** ** Results and the state monad

    A Go function that returns [(T, error)] returns a [result T].  A method
    that also mutates its receiver is an [ST S T]: the state that is handed
    back is the mutated one on the error paths too, since Go does not roll
    back. *)
Inductive result (A : Type) :=
  | Ok (a : A)
  | Err (e : goerror).
Arguments Ok {_} _.
Arguments Err {_} _.

#[export] Instance result_eq_dec `{EqDecision A} : EqDecision (result A).
Proof. solve_decision. Defined.

#[export] Instance result_ret : MRet result := λ A a, Ok a.
#[export] Instance result_bind : MBind result := λ A B f m,
  match m with Ok a => f a | Err e => Err e end.

Definition is_ok {A} (r : result A) : bool :=
  match r with Ok _ => true | Err _ => false end.

Definition ok_or_none {A} (r : result A) : option A :=
  match r with Ok a => Some a | Err _ => None end.

(** The text of an [error], as [Error()] prints it. *)
Fixpoint error_string (e : goerror) : string :=
  match e with
  | ErrCode c => c
  | ErrCodeArgs c a => c +:+ ": " +:+ a
  | ErrNew m => m
  | ErrWrapf m c => m +:+ ": " +:+ error_string c
  | CtxCanceled => "context canceled"
  | CtxDeadlineExceeded => "context deadline exceeded"
  | IoEOF => "EOF"
  | IoUnexpectedEOF => "unexpected EOF"
  | Panic m => "panic: " +:+ m
  end.

Definition ST (S A : Type) : Type := S → S * result A.

#[export] Instance ST_ret {S} : MRet (ST S) := λ A a s, (s, Ok a).
#[export] Instance ST_bind {S} : MBind (ST S) := λ A B f m s,
  match m s with
  | (s', Ok a) => f a s'
  | (s', Err e) => (s', Err e)
  end.

Definition st_fail {S A} (e : goerror) : ST S A := λ s, (s, Err e).
Definition st_get {S} : ST S S := λ s, (s, Ok s).
Definition st_modify {S} (f : S → S) : ST S unit := λ s, (f s, Ok tt).
(** A result computed without touching the state. *)
Definition st_lift {S A} (r : result A) : ST S A := λ s, (s, r).
(** [if err := m; err != nil { return fmt.Errorf("msg: %w", err) }] *)
Definition st_wrap {S A} (msg : string) (m : ST S A) : ST S A := λ s,
  match m s with
  | (s', Err (Panic p)) => (s', Err (Panic p))
  | (s', Err e) => (s', Err (ErrWrapf msg e))
  | r => r
  end.
(** [x, err := m]: the error becomes a value the caller branches on. *)
Definition st_try {S A} (m : ST S A) : ST S (result A) := λ s,
  match m s with
  | (s', Err (Panic p)) => (s', Err (Panic p))
  | (s', r) => (s', Ok r)
  end.
(** [_ = m]: the error is discarded, the effect is kept. *)
Definition st_ignore {S A} (m : ST S A) : ST S unit := λ s,
  match m s with
  | (s', Err (Panic p)) => (s', Err (Panic p))
  | (s', _) => (s', Ok tt)
  end.

Lemma bind_ok {S A B} (m : ST S A) (k : A → ST S B) s s' a :
  m s = (s', Ok a) → (m ≫= k) s = k a s'.
Proof. intros H. unfold mbind, ST_bind. by rewrite H. Qed.

Lemma bind_err {S A B} (m : ST S A) (k : A → ST S B) s s' e :
  m s = (s', Err e) → (m ≫= k) s = (s', Err e).
Proof. intros H. unfold mbind, ST_bind. by rewrite H. Qed.

Lemma st_wrap_ok {S A} msg (m : ST S A) s s' a : m s = (s', Ok a) → st_wrap msg m s = (s', Ok a).
Proof. intros H. unfold st_wrap. by rewrite H. Qed.

Lemma st_wrap_not_ok {S A} msg (m : ST S A) s s' e :
  m s = (s', Err e) → ∃ e', st_wrap msg m s = (s', Err e').
Proof. intros H. unfold st_wrap. rewrite H. destruct e; eauto. Qed.

(** ** Bytes *)

Definition byte_to_Z (b : Byte.byte) : Z := Z.of_N (Byte.to_N b).

Definition byte_of_Z (z : Z) : Byte.byte :=
  match Byte.of_N (Z.to_N (z mod 256)) with
  | Some b => b
  | None => Byte.x00
  end.

Lemma byte_to_Z_range b : (0 <= byte_to_Z b < 256)%Z.
Proof. destruct b; vm_compute; split; congruence. Qed.

Lemma byte_to_of_Z z : byte_to_Z (byte_of_Z z) = (z mod 256)%Z.
Proof.
  unfold byte_to_Z, byte_of_Z.
  pose proof (Z.mod_pos_bound z 256 eq_refl) as Hb.
  destruct (Byte.of_N (Z.to_N (z mod 256))) as [b|] eqn:E.
  - apply Byte.to_of_N in E. rewrite E, Z2N.id; lia.
  - apply Byte.of_N_None_iff in E. lia.
Qed.

#[export] Instance byte_eq_dec : EqDecision Byte.byte := Byte.byte_eq_dec.
#[export] Program Instance byte_countable : Countable Byte.byte :=
  inj_countable Byte.to_N Byte.of_N _.
Next Obligation. apply Byte.of_to_N. Qed.

(** [binary.BigEndian.PutUint32] and [binary.BigEndian.Uint32]. *)
Definition put_be32 (z : Z) : list Byte.byte :=
  [byte_of_Z (z / 2 ^ 24); byte_of_Z (z / 2 ^ 16);
   byte_of_Z (z / 2 ^ 8); byte_of_Z z].

Definition get_be32 (l : list Byte.byte) : Z :=
  match l with
  | b0 :: b1 :: b2 :: b3 :: _ =>
      byte_to_Z b0 * 2 ^ 24 + byte_to_Z b1 * 2 ^ 16 +
      byte_to_Z b2 * 2 ^ 8 + byte_to_Z b3
  | _ => 0
  end.

Lemma put_be32_length z : length (put_be32 z) = 4.
Proof. reflexivity. Qed.

Lemma get_put_be32_app z l : get_be32 (put_be32 z ++ l) = u32 z.
Proof.
  unfold put_be32, get_be32, u32. cbn [app]. rewrite !byte_to_of_Z.
  replace (2 ^ 32)%Z with (256 * (256 * (256 * 256)))%Z by reflexivity.
  change (2 ^ 24)%Z with (256 * (256 * 256))%Z.
  change (2 ^ 16)%Z with (256 * 256)%Z. change (2 ^ 8)%Z with 256%Z.
  rewrite !Z.rem_mul_r, <- !Z.div_div by lia. lia.
Qed.

Lemma get_put_be32 z : (0 <= z < 2 ^ 32)%Z → get_be32 (put_be32 z) = z.
Proof.
  intros H. rewrite <- (app_nil_r (put_be32 z)), get_put_be32_app.
  by apply u32_small.
Qed.

Lemma byte_of_to_Z b : byte_of_Z (byte_to_Z b) = b.
Proof. by destruct b. Qed.

Lemma put_get_be32 l : length l = 4 → put_be32 (get_be32 l) = l.
Proof.
  destruct l as [|b0 [|b1 [|b2 [|b3 [|]]]]]; try done. intros _.
  unfold put_be32, get_be32.
  pose proof (byte_to_Z_range b0). pose proof (byte_to_Z_range b1).
  pose proof (byte_to_Z_range b2). pose proof (byte_to_Z_range b3).
  assert (Hb : ∀ z b q, z = (256 * q + byte_to_Z b)%Z → byte_of_Z z = b).
  { intros z b q ->. rewrite <- (byte_of_to_Z b) at 2. unfold byte_of_Z.
    by rewrite Z.add_comm, Z.mul_comm, Z_mod_plus_full. }
  change (2 ^ 24)%Z with 16777216%Z. change (2 ^ 16)%Z with 65536%Z. change (2 ^ 8)%Z with 256%Z.
  set (x0 := byte_to_Z b0) in *. set (x1 := byte_to_Z b1) in *.
  set (x2 := byte_to_Z b2) in *. set (x3 := byte_to_Z b3) in *.
  set (v := (x0 * 16777216 + x1 * 65536 + x2 * 256 + x3)%Z).
  rewrite (Hb (v / 16777216)%Z b0 0%Z), (Hb (v / 65536)%Z b1 x0),
    (Hb (v / 256)%Z b2 (x0 * 256 + x1)%Z), (Hb v b3 (x0 * 65536 + x1 * 256 + x2)%Z); [done|..].
  all: subst v; fold x0 x1 x2 x3; Z.to_euclidean_division_equations; lia.
Qed.

Lemma get_be32_range l : (0 <= get_be32 l < 2 ^ 32)%Z.
Proof.
  unfold get_be32. destruct l as [|b0 [|b1 [|b2 [|b3 ?]]]]; try lia.
  pose proof (byte_to_Z_range b0). pose proof (byte_to_Z_range b1).
  pose proof (byte_to_Z_range b2). pose proof (byte_to_Z_range b3). lia.
Qed.

(** ** Strings

    A Go [string] is a sequence of bytes, as [String.string] is; [len] counts
    bytes. *)

Definition is_blank_char (c : Ascii.ascii) : bool :=
  let n := Ascii.N_of_ascii c in
  (N.eqb n 32 || (N.leb 9 n && N.leb n 13))%bool.

(** [len] of a string and of a slice, as the 64-bit [int] it is. *)
Definition slen (s : string) : Z := Z.of_nat (String.length s).
Definition zlen {A} (l : list A) : Z := Z.of_nat (length l).

Fixpoint has_prefix (p s : string) : bool :=
  match p, s with
  | EmptyString, _ => true
  | String a p', String b s' => bool_decide (a = b) && has_prefix p' s'
  | String _ _, EmptyString => false
  end.

(** [strings.SplitN(s, sep, 2)] for a one-byte separator: the text before and
    after its first occurrence, [None] when there is none. *)
Fixpoint split_first (sep : Ascii.ascii) (s : string) : option (string * string) :=
  match s with
  | EmptyString => None
  | String a s' =>
      if bool_decide (a = sep) then Some (EmptyString, s')
      else match split_first sep s' with
           | Some (l, r) => Some (String a l, r)
           | None => None
           end
  end.

Fixpoint has_char (c : Ascii.ascii) (s : string) : bool :=
  match s with
  | EmptyString => false
  | String a s' => bool_decide (a = c) || has_char c s'
  end.

Lemma string_app_cons x (a b : string) : String x a +:+ b = String x (a +:+ b).
Proof. reflexivity. Qed.

Lemma string_app_nil_l (a : string) : EmptyString +:+ a = a.
Proof. reflexivity. Qed.

Lemma string_app_assoc (a b c : string) : (a +:+ b) +:+ c = a +:+ (b +:+ c).
Proof. induction a as [|x a IH]; [done|]. by rewrite !string_app_cons, IH. Qed.

Lemma string_app_nil_r (a : string) : a +:+ EmptyString = a.
Proof. induction a as [|x a IH]; [done|]. by rewrite string_app_cons, IH. Qed.

Lemma string_app_cancel_l (p a b : string) : p +:+ a = p +:+ b → a = b.
Proof.
  induction p as [|x p IH]; [done|]. rewrite !string_app_cons.
  intros H. simplify_eq. auto.
Qed.

Lemma split_first_app sep l r :
  has_char sep l = false →
  split_first sep (l +:+ String sep r) = Some (l, r).
Proof.
  induction l as [|a l IH].
  - rewrite string_app_nil_l. cbn. by rewrite bool_decide_eq_true_2.
  - rewrite string_app_cons. cbn.
    intros [Ha Hl]%orb_false_iff. apply bool_decide_eq_false_1 in Ha.
    rewrite bool_decide_eq_false_2 by done. by rewrite IH.
Qed.

Lemma split_first_inv sep s l r :
  split_first sep s = Some (l, r) →
  s = l +:+ String sep r ∧ has_char sep l = false.
Proof.
  revert l r. induction s as [|a s IH]; cbn; intros l r H; [done|].
  case_bool_decide; simplify_eq; [done|].
  destruct (split_first sep s) as [[l' r']|] eqn:E; simplify_eq.
  destruct (IH _ _ eq_refl) as [-> Hl]. cbn.
  by rewrite bool_decide_eq_false_2, Hl.
Qed.

(** Joining with a separator determines the first component when that
    component does not contain the separator. *)
Lemma sep_join_inj sep l1 r1 l2 r2 :
  has_char sep l1 = false → has_char sep l2 = false →
  l1 +:+ String sep r1 = l2 +:+ String sep r2 → l1 = l2 ∧ r1 = r2.
Proof.
  intros H1 H2 E.
  pose proof (split_first_app sep l1 r1 H1) as E1.
  pose proof (split_first_app sep l2 r2 H2) as E2.
  rewrite E in E1. rewrite E1 in E2. by simplify_eq.
Qed.

(** [strings.Join]. *)
Fixpoint join (sep : string) (l : list string) : string :=
  match l with
  | [] => EmptyString
  | [x] => x
  | x :: l' => x +:+ sep +:+ join sep l'
  end.

(** ** Step relations *)

Section Closure.
Context {S L : Type} (step : S → L → S → Prop).

(** Finite runs of a labelled step relation, with the list of labels. *)
Inductive runs : S → list L → S → Prop :=
  | runs_nil s : runs s [] s
  | runs_cons s l s' ls s'' : step s l s' → runs s' ls s'' → runs s (l :: ls) s''.

Lemma runs_app s ls1 s' ls2 s'' :
  runs s ls1 s' → runs s' ls2 s'' → runs s (ls1 ++ ls2) s''.
Proof. induction 1; cbn; eauto using runs. Qed.

Lemma runs_snoc_inv s ls l s'' :
  runs s (ls ++ [l]) s'' → ∃ s', runs s ls s' ∧ step s' l s''.
Proof.
  revert s. induction ls as [|x ls IH]; cbn; intros s H.
  - inversion H; subst.
    match goal with H : runs _ [] _ |- _ => inversion H; subst end.
    eauto using runs.
  - inversion H; subst. edestruct IH as (s1 & ? & ?); eauto using runs.
Qed.

(** An invariant of the steps holds at the end of every run. *)
Lemma runs_invariant (I : S → Prop) :
  (∀ s l s', I s → step s l s' → I s') →
  ∀ s ls s', runs s ls s' → I s → I s'.
Proof. intros Hstep s ls s' H. induction H; eauto. Qed.
End Closure.

#[export] Hint Constructors runs : datastream.

(** ** Lists *)

Lemma eta_pair {A B} (p : A * B) b : p.2 = b → p = (p.1, b).
Proof. by destruct p; intros <-. Qed.

Lemma Forall_snoc {A} (P : A → Prop) l x : Forall P l → P x → Forall P (l ++ [x]).
Proof. intros. apply Forall_app; auto. Qed.

Lemma take_length_app_eq {A} (l k : list A) n : n = length l → take n (l ++ k) = l.
Proof. intros ->. by rewrite take_app_length. Qed.

Lemma drop_length_app_eq {A} (l k : list A) n : n = length l → drop n (l ++ k) = k.
Proof. intros ->. by rewrite drop_app_length. Qed.

(** ** Serialisation

    What the code relies on of [encoding/json] for the types it stores: values
    of the type marshal without an error, and unmarshalling the bytes gives the
    value back, for the values that satisfy [json_wf] (encoding/json replaces
    invalid UTF-8, so [json_wf] has to exclude such strings). *)
Class JSONCodec (A : Type) := {
  json_Marshal : A → result (list Byte.byte);
  json_Unmarshal : list Byte.byte → result A
}.

Class JSONLaws (A : Type) `{!JSONCodec A} := {
  json_wf : A → Prop;
  json_roundtrip : ∀ a, json_wf a →
    ∃ data, json_Marshal a = Ok data ∧ json_Unmarshal data = Ok a
}.

(** A codec that satisfies the laws for every countable type, used to
    instantiate the interface: the bits of stdpp's encoding, one per byte,
    closed by a terminator. *)
Fixpoint pos_bytes (p : positive) : list Byte.byte :=
  match p with
  | xH => [Byte.x02]
  | xO p => Byte.x00 :: pos_bytes p
  | xI p => Byte.x01 :: pos_bytes p
  end.

Fixpoint bytes_pos (l : list Byte.byte) : option positive :=
  match l with
  | [Byte.x02] => Some xH
  | Byte.x00 :: l => xO <$> bytes_pos l
  | Byte.x01 :: l => xI <$> bytes_pos l
  | _ => None
  end.

Lemma bytes_pos_bytes p : bytes_pos (pos_bytes p) = Some p.
Proof. induction p as [p IH|p IH|]; cbn; [by rewrite IH..|done]. Qed.

Definition countable_codec (A : Type) `{Countable A} : JSONCodec A := {|
  json_Marshal a := Ok (pos_bytes (encode a));
  json_Unmarshal l :=
    match bytes_pos l ≫= decode with
    | Some a => Ok a
    | None => Err (ErrNew "invalid character")
    end
|}.

Program Definition countable_codec_laws (A : Type) `{Countable A} :
    @JSONLaws A (countable_codec A) := {| json_wf _ := True |}.
Next Obligation.
  intros A ?? a _. eexists. split; [reflexivity|].
  cbn. rewrite bytes_pos_bytes. cbn. by rewrite decode_encode.
Qed.

(** ** Map iteration

    [range] over a Go map visits every entry exactly once in an order the
    language leaves unspecified: the order is a parameter, and all that is
    known of it is that it is a permutation of the entries. *)
Class GoRange (K V : Type) `{Countable K} := {
  go_range : gmap K V → list (K * V);
  go_range_perm m : go_range m ≡ₚ map_to_list m
}.

Program Definition sorted_range (K V : Type) `{Countable K} : GoRange K V := {|
  go_range := map_to_list |}.
Next Obligation. done. Qed.

Section Range.
Context `{Countable K} {V : Type} `{!GoRange K V}.

Lemma go_range_lookup (m : gmap K V) k v : (k, v) ∈ go_range m ↔ m !! k = Some v.
Proof. rewrite go_range_perm. apply elem_of_map_to_list. Qed.

Lemma go_range_NoDup (m : gmap K V) : NoDup (go_range m).*1.
Proof. rewrite go_range_perm. apply NoDup_fst_map_to_list. Qed.
End Range.
