(* ===== verification/Events.v ===== *)
(** The unified event model of pkg/event: change events, positions, rows,
    table and schema metadata, transactions and the schema-history records.
    A Go pointer that may be nil is an [option]; a Go map that may be nil is an
    [option] of a [gmap]. *)
From Stdlib Require Import ZArith Lia SpecFloat.
From Stdlib Require Ascii String Strings.Byte.
From stdpp Require Import prelude countable gmap strings list fin_maps.
From S2P Require Import Prelude.
Local Open Scope Z_scope.

(** ** float64 *)

Definition float64_of_int (z : Z) : spec_float := binary_normalize 53 1024 z 0 false.
Definition float64_mul : spec_float → spec_float → spec_float := SFmul 53 1024.
Definition float64_div : spec_float → spec_float → spec_float := SFdiv 53 1024.

(** [int64(f)]: truncation; out of range the language leaves the value to the
    implementation, which on amd64 is the smallest integer. *)
Definition int_of_float64 (f : spec_float) : Z :=
  match f with
  | S754_zero _ => 0
  | S754_finite s m e =>
      let a := if 0 <=? e then Z.pos m * 2 ^ e else Z.pos m / 2 ^ (- e) in
      let v := if s then - a else a in
      if (min_int64 <=? v) && (v <=? max_int64) then v else min_int64
  | _ => min_int64
  end.

(** ** Dynamic values

    The [interface{}] of a column value, by the dynamic types the code tells
    apart. *)
#[export] Instance spec_float_eq_dec : EqDecision spec_float.
Proof. solve_decision. Defined.

Inductive value :=
  | VNil
  | VString (s : string)
  | VBytes (b : list Byte.byte)
  | VBool (b : bool)
  | VInt (z : Z)
  | VInt32 (z : Z)
  | VInt64 (z : Z)
  | VFloat32 (f : spec_float)      (* its value, which float64 represents too *)
  | VFloat64 (f : spec_float)
  | VTime (t : time)
  | VOther (typ text : string).    (* any other dynamic type, and how it prints *)

#[export] Instance value_eq_dec : EqDecision value.
Proof. solve_decision. Defined.

(** ** change_event.go: event types *)

Inductive EventType :=
  | EventTypeInsert
  | EventTypeUpdate
  | EventTypeDelete
  | EventTypeTruncate
  | EventTypeDDL
  | EventTypeHeartbeat
  | EventTypeTombstone
  | EventTypeRaw (s : string).   (* the Go type is a string: any other value *)

#[export] Instance EventType_eq_dec : EqDecision EventType.
Proof. solve_decision. Defined.

(** ** source_info.go *)

Record SourceInfo := mkSourceInfo {
  si_Connector : string;
  si_Host : string;
  si_Port : Z;
  si_Database : string;
  si_ClusterName : string;
  si_ServerName : string;
  si_Snapshot : bool
}.

#[export] Instance SourceInfo_eq_dec : EqDecision SourceInfo.
Proof. solve_decision. Defined.

Definition SourceInfo_zero : SourceInfo := mkSourceInfo "" "" 0 "" "" "" false.

(** ** position.go *)

Inductive SourceType :=
  | SourceTypeUnspecified
  | SourceTypeMySQLGTID
  | SourceTypeMySQLFilePos
  | SourceTypePostgres
  | SourceTypeOracle
  | SourceTypeSQLServer
  | SourceTypeMongoDB
  | SourceTypeOther (n : Z).     (* the Go type is an int: any other value *)

#[export] Instance SourceType_eq_dec : EqDecision SourceType.
Proof. solve_decision. Defined.

Record Position := mkPosition {
  pos_BinlogFile : string;
  pos_BinlogPos : Z;             (* uint32 *)
  pos_LSN : Z;                   (* uint64 *)
  pos_SCN : Z;                   (* uint64 *)
  pos_Timestamp : Z;             (* uint64 *)
  pos_Order : Z;
  pos_ResumeToken : option (list Byte.byte);
  pos_ChangeLsn : string;
  pos_SeqVal : string;
  pos_CommitTime : time;
  pos_TxID : string;
  pos_SeqNo : Z;
  pos_Total : Z
}.

#[export] Instance Position_eq_dec : EqDecision Position.
Proof. solve_decision. Defined.

#[export] Program Instance Position_countable : Countable Position :=
  inj_countable'
    (λ p, (pos_BinlogFile p, pos_BinlogPos p, pos_LSN p, pos_SCN p, pos_Timestamp p, pos_Order p,
           pos_ResumeToken p, (pos_ChangeLsn p, pos_SeqVal p, pos_CommitTime p : Z, pos_TxID p, pos_SeqNo p,
           pos_Total p)))
    (λ '(a, b, c, d, e, f, g, (h, i, j, k, l, m)), mkPosition a b c d e f g h i j k l m) _.
Next Obligation. by intros []. Qed.

Definition Position_zero : Position := mkPosition "" 0 0 0 0 0 None "" "" 0 "" 0 0.

Definition compareUint64 (a b : Z) : Z :=
  if Z.ltb a b then -1 else if Z.ltb b a then 1 else 0.

(** [strings.Compare]: lexicographic on bytes. *)
Definition strings_Compare (a b : string) : Z :=
  match String.compare a b with Lt => -1 | Eq => 0 | Gt => 1 end.

Definition Compare (p other : Position) (sourceType : SourceType) : result Z :=
  match sourceType with
  | SourceTypePostgres => Ok (compareUint64 (pos_LSN p) (pos_LSN other))
  | SourceTypeOracle => Ok (compareUint64 (pos_SCN p) (pos_SCN other))
  | SourceTypeSQLServer =>
      let c := strings_Compare (pos_ChangeLsn p) (pos_ChangeLsn other) in
      if negb (Z.eqb c 0) then Ok c
      else Ok (strings_Compare (pos_SeqVal p) (pos_SeqVal other))
  | SourceTypeMySQLFilePos =>
      let c := strings_Compare (pos_BinlogFile p) (pos_BinlogFile other) in
      if negb (Z.eqb c 0) then Ok c
      else Ok (compareUint64 (u64 (pos_BinlogPos p)) (u64 (pos_BinlogPos other)))
  | SourceTypeMySQLGTID =>
      Err (ErrNew "MySQL GTID mode does not use Compare(); use gtid_set membership instead")
  | SourceTypeMongoDB =>
      Err (ErrNew "MongoDB does not use Compare(); use SetResumeAfter() instead")
  | SourceTypeUnspecified | SourceTypeOther _ =>
      Err (ErrNew "unsupported source type for comparison")
  end.

Definition Position_IsZero (p : Position) : bool :=
  time_IsZero (pos_CommitTime p) && bool_decide (pos_BinlogFile p = "") &&
  Z.eqb (pos_LSN p) 0 && Z.eqb (pos_SCN p) 0 && Z.eqb (pos_Timestamp p) 0 &&
  bool_decide (pos_ChangeLsn p = "") && bool_decide (pos_SeqVal p = "") &&
  match pos_ResumeToken p with None | Some [] => true | Some _ => false end.

Definition Position_Clone (p : Position) : Position :=
  let rt := match pos_ResumeToken p with
            | None => None
            | Some b => Some b
            end in
  mkPosition (pos_BinlogFile p) (pos_BinlogPos p) (pos_LSN p) (pos_SCN p)
    (pos_Timestamp p) (pos_Order p) rt (pos_ChangeLsn p) (pos_SeqVal p)
    (pos_CommitTime p) (pos_TxID p) (pos_SeqNo p) (pos_Total p).

(** ** row_data.go *)

Record Field := mkField {
  f_Name : string;
  f_Value : value;
  f_Type : string;
  f_Null : bool
}.

#[export] Instance Field_eq_dec : EqDecision Field.
Proof. solve_decision. Defined.

Record RowData := mkRowData { rd_Fields : option (gmap string Field) }.

#[export] Instance RowData_eq_dec : EqDecision RowData.
Proof. solve_decision. Defined.

(** The zero [RowData] of a struct field: a nil map. *)
Definition RowData_zero : RowData := mkRowData None.
Definition NewRowData : RowData := mkRowData (Some ∅).

(** Reading a nil map finds nothing. *)
Definition rd_lookup (r : RowData) (name : string) : option Field :=
  rd_Fields r ≫= lookup name.

(** [len(r.Fields)] *)
Definition rd_len (r : RowData) : nat := from_option size 0%nat (rd_Fields r).

(** The methods take a pointer: [None] is a nil receiver. *)
Definition RowData_Get (r : option RowData) (name : string) : option value :=
  f ← r ≫= (λ r, rd_lookup r name); Some (f_Value f).

Definition RowData_GetField (r : option RowData) (name : string) : option Field :=
  r ≫= (λ r, rd_lookup r name).

(** Writing to a nil map panics: the result is [None]. *)
Definition RowData_Set (r : RowData) (name : string) (v : value) (typ : string) : option RowData :=
  m ← rd_Fields r;
  Some (mkRowData (Some (<[name := mkField name v typ (bool_decide (v = VNil))]> m))).

Definition RowData_SetNull (r : RowData) (name typ : string) : option RowData :=
  m ← rd_Fields r;
  Some (mkRowData (Some (<[name := mkField name VNil typ true]> m))).

(** [Clone] allocates a map, also for a nil one. *)
Definition RowData_Clone (r : option RowData) : option RowData :=
  r ← r; Some (mkRowData (Some (default ∅ (rd_Fields r)))).

Definition RowData_IsEmpty (r : option RowData) : bool :=
  match r with
  | None => true
  | Some r => Nat.eqb (rd_len r) 0
  end.

(** The order of a Go map iteration is unspecified: [ColumnNames] returns some
    enumeration of the keys; this is one of them. *)
Definition RowData_ColumnNames (r : option RowData) : list string :=
  match r with
  | None => []
  | Some r => (map_to_list (default ∅ (rd_Fields r))).*1
  end.

(** ** table_info.go *)

Record ColumnInfo := mkColumnInfo {
  ci_Name : string;
  ci_Type : string;
  ci_Nullable : bool;
  ci_Length : Z;
  ci_Scale : Z
}.

#[export] Instance ColumnInfo_eq_dec : EqDecision ColumnInfo.
Proof. solve_decision. Defined.

Record TableInfo := mkTableInfo {
  ti_Database : string;
  ti_Schema : string;
  ti_Table : string;
  ti_PrimaryKeyColumns : list string;
  ti_UniqueKeyColumns : list string;
  ti_Columns : list ColumnInfo
}.

#[export] Instance TableInfo_eq_dec : EqDecision TableInfo.
Proof. solve_decision. Defined.

#[export] Program Instance ColumnInfo_countable : Countable ColumnInfo :=
  inj_countable' (λ c, (ci_Name c, ci_Type c, ci_Nullable c, ci_Length c, ci_Scale c))
    (λ '(a, b, c, d, e), mkColumnInfo a b c d e) _.
Next Obligation. by intros []. Qed.

#[export] Program Instance TableInfo_countable : Countable TableInfo :=
  inj_countable'
    (λ t, (ti_Database t, ti_Schema t, ti_Table t, ti_PrimaryKeyColumns t, ti_UniqueKeyColumns t, ti_Columns t))
    (λ '(a, b, c, d, e, f), mkTableInfo a b c d e f) _.
Next Obligation. by intros []. Qed.

Definition TableInfo_zero : TableInfo := mkTableInfo "" "" "" [] [] [].

Definition TableInfo_String (t : TableInfo) : string :=
  if bool_decide (ti_Schema t ≠ "")
  then ti_Database t +:+ "." +:+ ti_Schema t +:+ "." +:+ ti_Table t
  else ti_Database t +:+ "." +:+ ti_Table t.

Definition HasPrimaryKey (t : TableInfo) : bool :=
  match ti_PrimaryKeyColumns t with [] => false | _ => true end.

Definition HasUniqueKey (t : TableInfo) : bool :=
  match ti_UniqueKeyColumns t with [] => false | _ => true end.

Definition GetKeyColumns (t : TableInfo) : list string :=
  match ti_PrimaryKeyColumns t with
  | [] => ti_UniqueKeyColumns t
  | pk => pk
  end.

Definition TableInfo_GetColumn (t : TableInfo) (name : string) : option ColumnInfo :=
  snd <$> list_find (λ c, ci_Name c = name) (ti_Columns t).

(** ** schema_info.go *)

Record ColumnSchema := mkColumnSchema {
  cs_Name : string;
  cs_Type : string;
  cs_Optional : bool;
  cs_Default : value
}.

Record SchemaInfo := mkSchemaInfo {
  sch_Version : Z;
  sch_Columns : list ColumnSchema;
  sch_PrimaryKey : list string
}.

#[export] Instance ColumnSchema_eq_dec : EqDecision ColumnSchema.
Proof. solve_decision. Defined.
#[export] Instance SchemaInfo_eq_dec : EqDecision SchemaInfo.
Proof. solve_decision. Defined.

Definition SchemaInfo_GetColumn (s : SchemaInfo) (name : string) : option ColumnSchema :=
  snd <$> list_find (λ c, cs_Name c = name) (sch_Columns s).

(** The map built by [IsCompatible]: the last column of a name wins. *)
Definition columnMap (cols : list ColumnSchema) : gmap string ColumnSchema :=
  foldl (λ m c, <[cs_Name c := c]> m) ∅ cols.

Definition IsCompatible (s other : option SchemaInfo) : bool :=
  match s, other with
  | Some s, Some other =>
      let otherCols := columnMap (sch_Columns other) in
      forallb (λ c,
        match otherCols !! cs_Name c with
        | None => false
        | Some oc => bool_decide (cs_Type c = cs_Type oc)
        end) (sch_Columns s)
  | _, _ => false
  end.

(** ** transaction.go *)

Record TransactionInfo := mkTransactionInfo {
  tx_ID : string;
  tx_TotalEvents : Z;
  tx_EventIndex : Z;
  tx_BeginTime : time;
  tx_CommitTime : time
}.

#[export] Instance TransactionInfo_eq_dec : EqDecision TransactionInfo.
Proof. solve_decision. Defined.

Definition IsBegin (t : option TransactionInfo) : bool :=
  match t with Some t => Z.eqb (tx_EventIndex t) 0 | None => false end.

Definition IsEnd (t : option TransactionInfo) : bool :=
  match t with
  | Some t => Z.eqb (tx_EventIndex t) (i64 (tx_TotalEvents t - 1))
  | None => false
  end.

Definition IsSingleEvent (t : option TransactionInfo) : bool :=
  match t with Some t => Z.eqb (tx_TotalEvents t) 1 | None => false end.

(** ** change_event.go *)

Record ChangeEvent := mkChangeEvent {
  ev_ID : string;
  ev_Source : SourceInfo;
  ev_Type : EventType;
  ev_Position : Position;
  ev_Table : TableInfo;
  ev_Before : RowData;
  ev_After : RowData;
  ev_Timestamp : time;
  ev_Transaction : option TransactionInfo;
  ev_Schema : option SchemaInfo;
  ev_Metadata : option (gmap string string)
}.

#[export] Instance ChangeEvent_eq_dec : EqDecision ChangeEvent.
Proof. solve_decision. Defined.

Definition ChangeEvent_zero : ChangeEvent :=
  mkChangeEvent "" SourceInfo_zero (EventTypeRaw "") Position_zero TableInfo_zero
    RowData_zero RowData_zero 0 None None None.

Definition IsSnapshot (e : ChangeEvent) : bool := si_Snapshot (ev_Source e).
Definition IsDDL (e : ChangeEvent) : bool := bool_decide (ev_Type e = EventTypeDDL).
Definition IsHeartbeat (e : ChangeEvent) : bool :=
  bool_decide (ev_Type e = EventTypeHeartbeat).
Definition IsDataEvent (e : ChangeEvent) : bool :=
  bool_decide (ev_Type e = EventTypeInsert) ||
  bool_decide (ev_Type e = EventTypeUpdate) ||
  bool_decide (ev_Type e = EventTypeDelete).

(** Reading [e.Metadata[key]]: the empty string for an absent key or a nil map. *)
Definition metadata_get (e : ChangeEvent) (key : string) : string :=
  default "" (ev_Metadata e ≫= lookup key).

Definition estimateValueSize (v : value) : Z :=
  match v with
  | VNil => 0
  | VString s => slen s
  | VBytes b => zlen b
  | _ => 16
  end.

Definition fields_size (r : RowData) : Z :=
  map_fold (λ name f n, n + (slen name + estimateValueSize (f_Value f)))%Z 0%Z
    (default ∅ (rd_Fields r)).

Definition Size (e : option ChangeEvent) : Z :=
  match e with
  | None => 0
  | Some e =>
      slen (si_Database (ev_Source e)) + slen (ti_Database (ev_Table e)) +
      slen (ti_Table (ev_Table e)) + 64 +
      fields_size (ev_Before e) + fields_size (ev_After e)
  end.

(** ** schema_history.go *)

Inductive DDLStatus :=
  | DDLStatusPending
  | DDLStatusApplying
  | DDLStatusCompleted
  | DDLStatusFailed
  | DDLStatusSkipped.

#[export] Instance DDLStatus_eq_dec : EqDecision DDLStatus.
Proof. solve_decision. Defined.

Record DDLRecord := mkDDLRecord {
  dr_ID : string;
  dr_Position : option Position;
  dr_Database : string;
  dr_Table : string;
  dr_DDL : string;
  dr_NewTableInfo : option TableInfo;
  dr_Status : DDLStatus;
  dr_AppliedAt : option time;
  dr_CompletedAt : option time;
  dr_Error : string;
  dr_RetryCount : Z;
  dr_CreatedAt : time
}.

Record SchemaHistoryRecord := mkSchemaHistoryRecord {
  shr_Position : Position;
  shr_Database : string;
  shr_Schema : string;
  shr_Table : string;
  shr_DDL : string;
  shr_TableInfo : option TableInfo;
  shr_ChangeType : string;
  shr_DDLStatus : DDLStatus;
  shr_Timestamp : time
}.

(** ** Lemmas *)

Lemma compareUint64_antisym a b : compareUint64 b a = (- compareUint64 a b)%Z.
Proof. unfold compareUint64. crush. Qed.

Lemma compareUint64_le_trans a b c :
  (compareUint64 a b <= 0)%Z → (compareUint64 b c <= 0)%Z → (compareUint64 a c <= 0)%Z.
Proof. unfold compareUint64. crush. Qed.

Lemma compareUint64_eq a b : compareUint64 a b = 0%Z ↔ a = b.
Proof. unfold compareUint64. split; crush. Qed.

Lemma strings_Compare_antisym a b : strings_Compare b a = (- strings_Compare a b)%Z.
Proof. unfold strings_Compare. rewrite String.compare_antisym. by destruct (String.compare a b). Qed.

Lemma strings_Compare_eq a b : strings_Compare a b = 0%Z ↔ a = b.
Proof.
  unfold strings_Compare. split.
  - destruct (String.compare a b) eqn:E; [|done..].
    intros _. by apply String.compare_eq_iff.
  - intros ->. pose proof (String.compare_antisym b b) as H.
    by destruct (String.compare b b).
Qed.

Lemma string_compare_trans a b c :
  String.compare a b = Lt → String.compare b c = Lt → String.compare a c = Lt.
Proof.
  revert b c. induction a as [|x a IH]; intros [|y b] [|z c]; cbn; try done.
  unfold Ascii.compare.
  destruct (N.compare_spec (Ascii.N_of_ascii x) (Ascii.N_of_ascii y)) as [Hxy|Hxy|Hxy]; try done;
  destruct (N.compare_spec (Ascii.N_of_ascii y) (Ascii.N_of_ascii z)) as [Hyz|Hyz|Hyz]; try done;
  intros H1 H2.
  - rewrite Hxy, Hyz, N.compare_refl. eauto.
  - rewrite Hxy. by rewrite (proj2 (N.compare_lt_iff _ _)).
  - rewrite <- Hyz. by rewrite (proj2 (N.compare_lt_iff _ _)).
  - rewrite (proj2 (N.compare_lt_iff _ _)); [done|]. by etrans.
Qed.

Lemma strings_Compare_le_trans a b c :
  (strings_Compare a b <= 0)%Z → (strings_Compare b c <= 0)%Z → (strings_Compare a c <= 0)%Z.
Proof.
  unfold strings_Compare.
  destruct (String.compare a b) eqn:E1; intros H1; [| |lia].
  - apply String.compare_eq_iff in E1 as ->. done.
  - destruct (String.compare b c) eqn:E2; intros H2; [| |lia].
    + apply String.compare_eq_iff in E2 as <-. by rewrite E1.
    + by rewrite (string_compare_trans _ _ _ E1 E2).
Qed.

Lemma RowData_IsEmpty_spec r :
  RowData_IsEmpty (Some r) = true ↔ ∀ name, rd_lookup r name = None.
Proof.
  unfold RowData_IsEmpty, rd_len, rd_lookup. rewrite Nat.eqb_eq.
  destruct (rd_Fields r) as [m|]; cbn; [|done].
  rewrite map_size_empty_iff. split; [by intros -> ?; rewrite lookup_empty|].
  intros H. by apply map_empty.
Qed.

Lemma columnMap_spec cols name :
  columnMap cols !! name = snd <$> list_find (λ c, cs_Name c = name) (rev cols).
Proof.
  unfold columnMap. induction cols as [|c cols IH] using rev_ind; [done|].
  rewrite foldl_app, rev_unit. cbn. rewrite lookup_insert.
  case_decide; [done|]. rewrite IH.
  by destruct (list_find _ (rev cols)) as [[]|].
Qed.

(** Lexicographic combination of two three-way comparisons, the shape of the
    two-field branches of [Compare]. *)
Definition lex (c d : Z) : Z := if negb (Z.eqb c 0) then c else d.

Lemma lex_antisym c d : lex (- c) (- d) = - lex c d.
Proof. unfold lex. crush. Qed.

Lemma lex_le_trans (c1 c2 c3 d1 d2 d3 : Z) :
  (c1 <= 0 → c2 <= 0 → c3 <= 0) →
  (c3 = 0 → c1 <= 0 → c2 <= 0 → c1 = 0 ∧ c2 = 0) →
  (c1 = 0 → c2 = 0 → c3 = 0) →
  (d1 <= 0 → d2 <= 0 → d3 <= 0) →
  lex c1 d1 <= 0 → lex c2 d2 <= 0 → lex c3 d3 <= 0.
Proof.
  unfold lex. intros Hc Hz Heq Hd.
  destruct (Z.eqb_spec c1 0), (Z.eqb_spec c2 0), (Z.eqb_spec c3 0); cbn; lia.
Qed.

Lemma strings_Compare_eq_squeeze a b c :
  strings_Compare a c = 0 → strings_Compare a b <= 0 → strings_Compare b c <= 0 →
  strings_Compare a b = 0 ∧ strings_Compare b c = 0.
Proof.
  intros ->%strings_Compare_eq. rewrite (strings_Compare_antisym b c). lia.
Qed.

Lemma strings_Compare_eq_trans a b c :
  strings_Compare a b = 0 → strings_Compare b c = 0 → strings_Compare a c = 0.
Proof. rewrite !strings_Compare_eq. congruence. Qed.

#[export] Hint Resolve compareUint64_le_trans strings_Compare_le_trans
  strings_Compare_eq_squeeze strings_Compare_eq_trans lex_le_trans : datastream.

(** The source types whose positions are ordered. *)
Definition comparable (st : SourceType) : bool :=
  match st with
  | SourceTypePostgres | SourceTypeOracle | SourceTypeSQLServer | SourceTypeMySQLFilePos => true
  | _ => false
  end.

(** The order [Compare] computes, without the error branch. *)
Definition position_cmp (st : SourceType) (p q : Position) : Z :=
  match st with
  | SourceTypePostgres => compareUint64 (pos_LSN p) (pos_LSN q)
  | SourceTypeOracle => compareUint64 (pos_SCN p) (pos_SCN q)
  | SourceTypeSQLServer =>
      lex (strings_Compare (pos_ChangeLsn p) (pos_ChangeLsn q))
          (strings_Compare (pos_SeqVal p) (pos_SeqVal q))
  | SourceTypeMySQLFilePos =>
      lex (strings_Compare (pos_BinlogFile p) (pos_BinlogFile q))
          (compareUint64 (u64 (pos_BinlogPos p)) (u64 (pos_BinlogPos q)))
  | _ => 0
  end.

Lemma Compare_position_cmp p q st :
  comparable st = true → Compare p q st = Ok (position_cmp st p q).
Proof. by destruct st; cbn; unfold lex; try done; intros _; case_match. Qed.

Lemma position_cmp_antisym st p q : position_cmp st q p = - position_cmp st p q.
Proof.
  destruct st; cbn; rewrite <- ?lex_antisym, <- ?strings_Compare_antisym,
    <- ?compareUint64_antisym; done.
Qed.

Lemma position_cmp_trans st p q r :
  position_cmp st p q <= 0 → position_cmp st q r <= 0 → position_cmp st p r <= 0.
Proof. destruct st; cbn; try lia; eauto with datastream; apply lex_le_trans; eauto with datastream. Qed.

(** [Position.Compare] is a total preorder on the positions of every
    ordered source (PostgreSQL LSN, Oracle SCN, SQL Server change LSN and
    seqval, MySQL file and offset): it always answers, swapping the arguments
    negates the answer, and "not after" is transitive.  On every other source
    type it returns an error for every pair of positions. *)
Theorem Compare_total_preorder (st : SourceType) (p q r : Position) :
  if comparable st then
    ∃ a b c, Compare p q st = Ok a ∧ Compare q r st = Ok b ∧ Compare p r st = Ok c ∧
      Compare q p st = Ok (- a) ∧ (a <= 0 → b <= 0 → c <= 0)
  else ∃ e, Compare p q st = Err e.
Proof.
  destruct (comparable st) eqn:Hst.
  - exists (position_cmp st p q), (position_cmp st q r), (position_cmp st p r).
    rewrite !Compare_position_cmp by done. repeat split; try done.
    + f_equal. apply position_cmp_antisym.
    + apply position_cmp_trans.
  - destruct st; try done; eauto.
Qed.

Definition binlog_at (file : string) (off : Z) : Position :=
  mkPosition file off 0 0 0 0 None "" "" 0 "" 0 0.

Lemma string_compare_prefix p a b : String.compare (p +:+ a) (p +:+ b) = String.compare a b.
Proof.
  induction p as [|x p IH]; [done|]. rewrite !string_app_cons. cbn.
  unfold Ascii.compare. by rewrite N.compare_refl.
Qed.

(** MySQL binlog files are ordered by name: inside one number width the
    order is that of the numbers, but when the sequence number outgrows six
    digits (MySQL goes on with [.1000000] after [.999999]) the newer file
    compares as older, whatever the base name and the offsets. *)
Theorem Compare_binlog_rollover (base : string) (off1 off2 : Z) :
  Compare (binlog_at (base +:+ ".999999") off1) (binlog_at (base +:+ ".1000000") off2)
    SourceTypeMySQLFilePos = Ok 1 ∧
  Compare (binlog_at (base +:+ ".000009") off1) (binlog_at (base +:+ ".000010") off2)
    SourceTypeMySQLFilePos = Ok (-1).
Proof.
  unfold Compare, strings_Compare. cbn [pos_BinlogFile binlog_at].
  by rewrite !string_compare_prefix.
Qed.
