(* ===== verification/Hash.v ===== *)
(** The hash functions the code routes and checks data with: FNV-1a on 32 and
    64 bits (pkg/utils/hash.go and its copy in internal/sink/hash_dispatcher.go)
    and the CRC-32 (IEEE) of the standard library that the cache records
    carry. *)
From Stdlib Require Import ZArith Lia.
From Stdlib Require Ascii String Strings.Byte.
From stdpp Require Import prelude strings list.
From S2P Require Import Prelude.
Local Open Scope Z_scope.

(** ** pkg/utils/hash.go *)

Definition fnv32Offset : Z := 2166136261.
Definition fnv32Prime : Z := 16777619.
Definition fnv64Offset : Z := 14695981039346656037.
Definition fnv64Prime : Z := 1099511628211.

Definition fnv32_step (h : Z) (b : Byte.byte) : Z :=
  u32 (Z.lxor h (byte_to_Z b) * fnv32Prime).

Definition FNV32 (s : string) : Z :=
  foldl fnv32_step fnv32Offset (String.list_byte_of_string s).

Definition fnv64_step (h : Z) (b : Byte.byte) : Z :=
  u64 (Z.lxor h (byte_to_Z b) * fnv64Prime).

Definition FNV64 (s : string) : Z :=
  foldl fnv64_step fnv64Offset (String.list_byte_of_string s).

(** ** internal/sink/hash_dispatcher.go: the package's own copy *)

Definition fnv32 (key : string) : Z :=
  let offset32 := 2166136261 in
  let prime32 := 16777619 in
  foldl (λ h b, u32 (Z.lxor h (byte_to_Z b) * prime32)) offset32
    (String.list_byte_of_string key).

Lemma FNV32_range s : 0 <= FNV32 s < 2 ^ 32.
Proof.
  unfold FNV32. destruct (String.list_byte_of_string s) as [|b l] using rev_ind;
    [unfold fnv32Offset; cbn; lia|].
  rewrite foldl_app. cbn. apply u32_range.
Qed.

Lemma fnv32_FNV32 s : fnv32 s = FNV32 s.
Proof. reflexivity. Qed.

(** ** hash/crc32, IEEE polynomial *)

Definition crc32_poly : Z := 3988292384.   (* 0xEDB88320 *)

Definition crc32_bit (c : Z) : Z :=
  if Z.testbit c 0 then Z.lxor (Z.shiftr c 1) crc32_poly else Z.shiftr c 1.

Definition crc32_byte (c : Z) (b : Byte.byte) : Z :=
  Nat.iter 8 crc32_bit (Z.lxor c (byte_to_Z b)).

Definition ChecksumIEEE (data : list Byte.byte) : Z :=
  Z.lxor (foldl crc32_byte 4294967295 data) 4294967295.

(** The check value of the CRC-32/IEEE catalogue entry. *)
Example ChecksumIEEE_check :
  ChecksumIEEE (String.list_byte_of_string "123456789") = 3421780262.
Proof. reflexivity. Qed.

Lemma lxor_u32 a b : 0 <= a < 2 ^ 32 → 0 <= b < 2 ^ 32 → 0 <= Z.lxor a b < 2 ^ 32.
Proof.
  intros Ha Hb. split; [apply Z.lxor_nonneg; lia|].
  destruct (Z.eq_dec (Z.lxor a b) 0) as [->|Hne]; [lia|].
  assert (Hpos : 0 < Z.lxor a b).
  { pose proof (proj2 (Z.lxor_nonneg a b)). lia. }
  apply Z.log2_lt_pow2; [done|].
  pose proof (Z.log2_lxor a b ltac:(lia) ltac:(lia)).
  assert (Hlog : ∀ x, 0 <= x < 2 ^ 32 → Z.log2 x < 32).
  { intros x Hx. destruct (Z.eq_dec x 0) as [->|]; [done|]. apply Z.log2_lt_pow2; lia. }
  pose proof (Hlog a Ha). pose proof (Hlog b Hb). lia.
Qed.

Lemma shiftr1_u32 c : 0 <= c < 2 ^ 32 → 0 <= Z.shiftr c 1 < 2 ^ 32.
Proof.
  intros H. rewrite Z.shiftr_div_pow2 by lia. change (2 ^ 1) with 2.
  pose proof (Z.div_pos c 2). pose proof (Z.div_le_upper_bound c 2 c). lia.
Qed.

Lemma crc32_bit_range c : 0 <= c < 2 ^ 32 → 0 <= crc32_bit c < 2 ^ 32.
Proof.
  intros H. unfold crc32_bit. case_match; [apply lxor_u32|]; try by apply shiftr1_u32.
  unfold crc32_poly. lia.
Qed.

Lemma crc32_byte_range c b : 0 <= c < 2 ^ 32 → 0 <= crc32_byte c b < 2 ^ 32.
Proof.
  intros H. unfold crc32_byte.
  assert (Hx : 0 <= Z.lxor c (byte_to_Z b) < 2 ^ 32).
  { apply lxor_u32; [done|]. pose proof (byte_to_Z_range b). lia. }
  revert Hx. generalize (Z.lxor c (byte_to_Z b)). intros d. generalize 8%nat.
  intros n Hd. induction n as [|n IH]; cbn; [done|]. by apply crc32_bit_range.
Qed.

(** The checksum fits the four bytes it is stored in. *)
Lemma ChecksumIEEE_range data : 0 <= ChecksumIEEE data < 2 ^ 32.
Proof.
  unfold ChecksumIEEE. apply lxor_u32; [|lia].
  assert (Hc : 0 <= 4294967295 < 2 ^ 32) by lia. revert Hc.
  generalize 4294967295. induction data as [|b l IH]; cbn; [done|].
  intros c Hc. by apply IH, crc32_byte_range.
Qed.
