(* ===== verification/CacheLog.v ===== *)
(** The binlog cache (internal/cache): the on-disk record format of
    [LocalBackend], its append, streaming-read, delete and tail-recovery
    operations, and the cache event it stores.

    The file system under [baseDir] is explicit: a directory from file names to
    inodes, inode contents, and the table of open append handles.  A handle
    refers to an inode, so that removing a path leaves an open handle writing
    to an unlinked file, as the kernel does.  The outcome of each system call
    is an argument ([io]), so a failed or short write is part of the model. *)
From Stdlib Require Import ZArith Lia.
From Stdlib Require Ascii String Strings.Byte.
From stdpp Require Import prelude countable gmap strings list fin_maps.
From S2P Require Import Prelude Events Hash.
Local Open Scope Z_scope.

(** ** cache_event.go *)

Record CacheEvent := mkCacheEvent {
  ce_SourceType : Z;
  ce_Position : list Byte.byte;
  ce_TxID : string;
  ce_EventSeq : Z;
  ce_IsBegin : bool;
  ce_IsCommit : bool;
  ce_Payload : list Byte.byte;
  ce_TimestampMs : Z;
  ce_ByteOffset : Z;
  ce_SeqVal : string
}.

#[export] Instance CacheEvent_eq_dec : EqDecision CacheEvent.
Proof. solve_decision. Defined.

#[export] Program Instance CacheEvent_countable : Countable CacheEvent :=
  inj_countable'
    (λ e, (ce_SourceType e, ce_Position e, ce_TxID e, ce_EventSeq e, ce_IsBegin e,
           ce_IsCommit e, ce_Payload e, ce_TimestampMs e, ce_ByteOffset e, ce_SeqVal e))
    (λ '(a, b, c, d, e, f, g, h, i, j), mkCacheEvent a b c d e f g h i j) _.
Next Obligation. by intros []. Qed.

(** ** backend.go *)

Inductive SyncMode := SyncModeEvery | SyncModeBatch | SyncModeNone | SyncModeRaw (s : string).

#[export] Instance SyncMode_eq_dec : EqDecision SyncMode.
Proof. solve_decision. Defined.

(** ** local_backend.go: names *)

(** Width in bytes of the first rune of a byte sequence, as
    [utf8.DecodeRuneInString] computes it (1 for an invalid sequence). *)
Definition cont (lo hi : Z) (b : Byte.byte) : bool :=
  (lo <=? byte_to_Z b) && (byte_to_Z b <=? hi).

Definition rune_width (l : list Byte.byte) : nat :=
  match l with
  | b0 :: rest =>
      let c := byte_to_Z b0 in
      if c <? 194 then 1%nat
      else if c <=? 223 then
        match rest with b1 :: _ => if cont 128 191 b1 then 2%nat else 1%nat | _ => 1%nat end
      else if c <=? 239 then
        let lo := if c =? 224 then 160 else 128 in
        let hi := if c =? 237 then 159 else 191 in
        match rest with
        | b1 :: b2 :: _ => if cont lo hi b1 && cont 128 191 b2 then 3%nat else 1%nat
        | _ => 1%nat
        end
      else if c <=? 244 then
        let lo := if c =? 240 then 144 else 128 in
        let hi := if c =? 244 then 143 else 191 in
        match rest with
        | b1 :: b2 :: b3 :: _ =>
            if cont lo hi b1 && cont 128 191 b2 && cont 128 191 b3 then 4%nat else 1%nat
        | _ => 1%nat
        end
      else 1%nat
  | [] => 0%nat
  end.

(** The class [[a-zA-Z0-9_]] of [sanitizeRe]. *)
Definition name_char (b : Byte.byte) : bool :=
  let c := byte_to_Z b in
  ((97 <=? c) && (c <=? 122)) || ((65 <=? c) && (c <=? 90)) ||
  ((48 <=? c) && (c <=? 57)) || (c =? 95).

(** [ReplaceAllString]: every rune outside the class becomes one underscore. *)
Fixpoint sanitize_bytes (fuel : nat) (l : list Byte.byte) : list Byte.byte :=
  match fuel, l with
  | _, [] | O, _ => []
  | S fuel, b :: rest =>
      if name_char b then b :: sanitize_bytes fuel rest
      else Byte.x5f :: sanitize_bytes fuel (drop (rune_width l) l)
  end.

Definition sanitizeTableID (tableID : string) : string :=
  let l := String.list_byte_of_string tableID in
  String.string_of_list_byte (sanitize_bytes (length l) l).

(** The file name below [baseDir]. *)
Definition filePath (tableID : string) : string := sanitizeTableID tableID +:+ ".binlog".

(** ** local_backend.go: state and system calls *)

Record LocalBackend := mkLocalBackend {
  lb_syncMode : SyncMode;
  lb_files : gmap string nat;               (* tableID → open append handle *)
  lb_dir : gmap string nat;                 (* file name → inode *)
  lb_inodes : gmap nat (list Byte.byte);    (* inode → contents *)
  lb_next : nat                             (* next unused inode *)
}.

Definition NewLocalBackend (syncMode : SyncMode) : LocalBackend :=
  mkLocalBackend syncMode ∅ ∅ ∅ 0.

(** The outcome of a [write(2)]: complete, or [n] bytes and an error. *)
Inductive io_write := WriteOk | WriteShort (n : nat) (e : goerror).

Record io := mkIO {
  io_open : option goerror;
  io_writes : nat → io_write;               (* by index of the write in the call *)
  io_sync : option goerror;
  io_remove : option goerror;
  io_truncate : option goerror
}.

Definition io_ok : io := mkIO None (λ _, WriteOk) None None None.

Definition MaxRecordSize : Z := 64 * 1024 * 1024.
Definition recordOverhead : Z := 12.

Definition inode_contents (st : LocalBackend) (i : nat) : list Byte.byte :=
  default [] (lb_inodes st !! i).

(** The contents [os.Open] of the table's path would read. *)
Definition file_of (st : LocalBackend) (tableID : string) : option (list Byte.byte) :=
  inode_contents st <$> lb_dir st !! filePath tableID.

Definition set_inode (i : nat) (c : list Byte.byte) (st : LocalBackend) : LocalBackend :=
  mkLocalBackend (lb_syncMode st) (lb_files st) (lb_dir st) (<[i := c]> (lb_inodes st)) (lb_next st).

Definition set_handle (t : string) (i : nat) (st : LocalBackend) : LocalBackend :=
  mkLocalBackend (lb_syncMode st) (<[t := i]> (lb_files st)) (lb_dir st) (lb_inodes st) (lb_next st).

Definition drop_handle (t : string) (st : LocalBackend) : LocalBackend :=
  mkLocalBackend (lb_syncMode st) (delete t (lb_files st)) (lb_dir st) (lb_inodes st) (lb_next st).

Definition create_file (path : string) (st : LocalBackend) : LocalBackend :=
  mkLocalBackend (lb_syncMode st) (lb_files st) (<[path := lb_next st]> (lb_dir st))
    (<[lb_next st := []]> (lb_inodes st)) (S (lb_next st)).

(** [getFile]: the cached handle, or [OpenFile(O_APPEND|O_CREATE)]. *)
Definition getFile (w : io) (tableID : string) : ST LocalBackend nat := λ st,
  match lb_files st !! tableID with
  | Some i => (st, Ok i)
  | None =>
      match io_open w with
      | Some e => (st, Err (ErrWrapf ("open file for table " +:+ tableID) e))
      | None =>
          let path := filePath tableID in
          match lb_dir st !! path with
          | Some i => (set_handle tableID i st, Ok i)
          | None => (set_handle tableID (lb_next st) (create_file path st), Ok (lb_next st))
          end
      end
  end.

Definition f_Write (o : io_write) (fd : nat) (buf : list Byte.byte) : ST LocalBackend unit := λ st,
  match o with
  | WriteOk => (set_inode fd (inode_contents st fd ++ buf) st, Ok tt)
  | WriteShort n e => (set_inode fd (inode_contents st fd ++ take n buf) st, Err e)
  end.

(** ** local_backend.go: the record format

    [[4B len][4B CRC32][payload][4B len]], the checksum over the length and
    the payload.  The slice expressions are out of range when the 32-bit
    length arithmetic wraps. *)
Definition encode_record (payload : list Byte.byte) : result (list Byte.byte) :=
  let payloadLen := u32 (zlen payload) in
  let totalLen := u32 (payloadLen + recordOverhead) in
  let lenBuf := put_be32 payloadLen in
  let crc := ChecksumIEEE (lenBuf ++ payload) in
  if totalLen <? payloadLen + recordOverhead then Err (Panic "slice bounds out of range")
  else Ok (put_be32 payloadLen ++ put_be32 crc ++ take (Z.to_nat payloadLen) payload
           ++ put_be32 payloadLen).

Section Codec.
Context `{!JSONCodec CacheEvent} `{!JSONCodec Position}.

Definition marshalAndWrite (o : io_write) (fd : nat) (ev : CacheEvent) : ST LocalBackend unit :=
  payload ← st_wrap "marshal event" (st_lift (json_Marshal ev));
  buf ← st_lift (encode_record payload);
  st_wrap "write record" (f_Write o fd buf).

Definition f_Sync (w : io) : ST LocalBackend unit :=
  st_lift (match io_sync w with Some e => Err e | None => Ok tt end).

Definition maybeSync (w : io) : ST LocalBackend unit :=
  st ← st_get;
  if bool_decide (lb_syncMode st = SyncModeEvery) then f_Sync w else mret tt.

Definition Write (w : io) (tableID : string) (ev : CacheEvent) : ST LocalBackend unit :=
  fd ← getFile w tableID;
  marshalAndWrite (io_writes w 0) fd ev ≫= λ _, maybeSync w.

(** The loop of [WriteBatch]; [k] is the index of the next write. *)
Fixpoint write_events (w : io) (k : nat) (fd : nat) (events : list CacheEvent) : ST LocalBackend unit :=
  match events with
  | [] => mret tt
  | ev :: events =>
      marshalAndWrite (io_writes w k) fd ev ≫= λ _, write_events w (S k) fd events
  end.

Definition WriteBatch (w : io) (tableID : string) (events : list CacheEvent) : ST LocalBackend unit :=
  fd ← getFile w tableID;
  write_events w 0 fd events ≫= λ _,
  st ← st_get;
  if bool_decide (lb_syncMode st ≠ SyncModeNone) then f_Sync w else mret tt.

(** ** local_backend.go: Read *)

(** [io.ReadFull] of [n] bytes. *)
Inductive read_full := RFOk (data rest : list Byte.byte) | RFErr (e : goerror).

Definition ReadFull (n : Z) (f : list Byte.byte) : read_full :=
  if n <=? 0 then RFOk [] f
  else if zlen f =? 0 then RFErr IoEOF
  else if zlen f <? n then RFErr IoUnexpectedEOF
  else RFOk (take (Z.to_nat n) f) (drop (Z.to_nat n) f).

(** One iteration of the loop: the stream ends, quietly or with an error, or
    one event has been read. *)
Inductive read_step := ReadEnd (err : option goerror) | ReadEvent (ev : CacheEvent) (rest : list Byte.byte).

Definition read_record (f : list Byte.byte) : read_step :=
  match ReadFull 4 f with
  | RFErr _ => ReadEnd None       (* EOF and ErrUnexpectedEOF end the stream quietly *)
  | RFOk lenBuf f =>
      let payloadLen := get_be32 lenBuf in
      if MaxRecordSize <? payloadLen then ReadEnd (Some (ErrNew "record too large"))
      else
      match ReadFull 4 f with
      | RFErr e => ReadEnd (Some (ErrWrapf "read crc" e))
      | RFOk crcBuf f =>
      match ReadFull payloadLen f with
      | RFErr e => ReadEnd (Some (ErrWrapf "read payload" e))
      | RFOk payload f =>
      match ReadFull 4 f with
      | RFErr e => ReadEnd (Some (ErrWrapf "read tail length" e))
      | RFOk tailBuf f =>
          let tailLen := get_be32 tailBuf in
          if negb (tailLen =? payloadLen) then ReadEnd (Some (ErrNew "tail length mismatch"))
          else if negb (get_be32 crcBuf =? ChecksumIEEE (lenBuf ++ payload))
          then ReadEnd (Some (ErrNew "CRC32 mismatch"))
          else match json_Unmarshal payload with
               | Err e => ReadEnd (Some (ErrWrapf "unmarshal event" e))
               | Ok ev => ReadEvent ev f
               end
      end
      end
      end
  end.

(** The loop.  [budget] is the number of iterations the context allows: when
    it is cancelled the stream ends without an error. *)
Fixpoint read_loop (budget : nat) (fromTxID : string) (fromEventSeq : Z) (emitting : bool)
    (f : list Byte.byte) : list CacheEvent * option goerror :=
  match budget with
  | O => ([], None)
  | S budget =>
      match read_record f with
      | ReadEnd err => ([], err)
      | ReadEvent ev f =>
          let emitting :=
            emitting || (bool_decide (ce_TxID ev = fromTxID) && (fromEventSeq <=? ce_EventSeq ev)) in
          let '(evs, err) := read_loop budget fromTxID fromEventSeq emitting f in
          (if emitting then ev :: evs else evs, err)
      end
  end.

Definition read_file (budget : nat) (fromTxID : string) (fromEventSeq : Z) (f : list Byte.byte) :=
  read_loop budget fromTxID fromEventSeq (bool_decide (fromTxID = "")) f.

(** [Read] under a context that is cancelled after [budget] iterations. *)
Definition Read_ctx (budget : nat) (st : LocalBackend) (tableID fromTxID : string)
    (fromEventSeq : Z) : list CacheEvent * option goerror :=
  match file_of st tableID with
  | None => ([], None)
  | Some f => read_file budget fromTxID fromEventSeq f
  end.

(** [Read] under a context that is never cancelled: every iteration consumes
    at least four bytes, so the length of the file bounds their number
    ([read_loop_enough]). *)
Definition Read (st : LocalBackend) (tableID fromTxID : string) (fromEventSeq : Z) :
    list CacheEvent * option goerror :=
  match file_of st tableID with
  | None => ([], None)
  | Some f => read_file (S (length f)) fromTxID fromEventSeq f
  end.

(** ** local_backend.go: Delete, Size, Exists, TotalSize, Sync, Close *)

Definition Delete (w : io) (tableID : string) : ST LocalBackend unit := λ st,
  let st := drop_handle tableID st in
  match lb_dir st !! filePath tableID with
  | None => (st, Ok tt)
  | Some _ =>
      match io_remove w with
      | Some e => (st, Err (ErrWrapf ("remove file for table " +:+ tableID) e))
      | None =>
          (mkLocalBackend (lb_syncMode st) (lb_files st) (delete (filePath tableID) (lb_dir st))
             (lb_inodes st) (lb_next st), Ok tt)
      end
  end.

Definition FileSize (st : LocalBackend) (tableID : string) : result Z :=
  match file_of st tableID with
  | Some f => Ok (zlen f)
  | None => Err (ErrNew ("stat file for table " +:+ tableID))
  end.

Definition Exists (st : LocalBackend) (tableID : string) : bool :=
  bool_decide (is_Some (file_of st tableID)).

Definition TotalSize (st : LocalBackend) : Z :=
  map_fold (λ _ i n, n + zlen (inode_contents st i)) 0 (lb_dir st).

Definition Sync (w : io) (tableID : string) : ST LocalBackend unit := λ st,
  match lb_files st !! tableID with
  | None => (st, Ok tt)
  | Some _ => f_Sync w st
  end.

Definition Close (st : LocalBackend) : LocalBackend :=
  mkLocalBackend (lb_syncMode st) ∅ (lb_dir st) (lb_inodes st) (lb_next st).

(** ** local_backend.go: TruncateToLastComplete *)

Definition SetPosition (ev : CacheEvent) (pos : Position) : CacheEvent * option goerror :=
  match json_Marshal pos with
  | Err e => (ev, Some e)
  | Ok data =>
      (mkCacheEvent (ce_SourceType ev) data (ce_TxID ev) (ce_EventSeq ev) (ce_IsBegin ev)
         (ce_IsCommit ev) (ce_Payload ev) (ce_TimestampMs ev) (ce_ByteOffset ev) (ce_SeqVal ev),
       None)
  end.

Definition GetPosition (ev : CacheEvent) : result (option Position) :=
  match ce_Position ev with
  | [] => Ok None
  | data => match json_Unmarshal data with Ok p => Ok (Some p) | Err e => Err e end
  end.

(** [f.ReadAt(buf, off)] for a range inside the file. *)
Definition slice (f : list Byte.byte) (off len : nat) : list Byte.byte := take len (drop off f).

(** One iteration of the backward scan at [fileSize = n]: [Some pos] when the
    bytes that end at [n] pass every check of the loop body. *)
Definition tail_candidate (f : list Byte.byte) (n : nat) : option (option Position) :=
  let payloadLen := get_be32 (slice f (n - 4) 4) in
  if MaxRecordSize <? payloadLen then None
  else
    let recordSize := payloadLen + recordOverhead in
    if Z.of_nat n <? recordSize then None
    else
      let recordStart := (n - Z.to_nat recordSize)%nat in
      let headerLen := get_be32 (slice f recordStart 4) in
      if negb (headerLen =? payloadLen) then None
      else
        let recordBuf := slice f recordStart (Z.to_nat recordSize) in
        let storedCRC := get_be32 (slice recordBuf 4 4) in
        let actualCRC := ChecksumIEEE (take (Z.to_nat (4 + payloadLen)) recordBuf) in
        if negb (storedCRC =? actualCRC) then None
        else
          let payload := slice recordBuf 8 (Z.to_nat payloadLen) in
          match json_Unmarshal payload with
          | Err _ => None
          | Ok ev => Some (match GetPosition ev with Ok p => p | Err _ => None end)
          end.

(** The loop: the largest [fileSize] that holds a candidate. *)
Fixpoint tail_scan (f : list Byte.byte) (n : nat) : option (nat * option Position) :=
  match n with
  | O => None
  | S m =>
      if Z.of_nat n <? recordOverhead then None
      else match tail_candidate f n with
           | Some pos => Some (n, pos)
           | None => tail_scan f m
           end
  end.

Definition TruncateToLastComplete (w : io) (tableID : string) : ST LocalBackend (option Position) := λ st,
  match lb_dir st !! filePath tableID with
  | None => (st, Ok None)
  | Some i =>
      match io_open w with
      | Some e => (st, Err (ErrWrapf "open file" e))
      | None =>
      let f := inode_contents st i in
      match f with
      | [] => (st, Ok None)
      | _ =>
          match tail_scan f (length f), io_truncate w with
          | Some _, Some e => (st, Err (ErrWrapf "truncate" e))
          | Some (validEnd, pos), None =>
              (drop_handle tableID (set_inode i (take validEnd f) st), Ok pos)
          | None, Some e => (st, Err e)
          | None, None => (set_inode i [] st, Ok None)
          end
      end
      end
  end.

End Codec.

(** ** backend.go: the interface

    What the scheduler, the consumer and the replayer use of a cache backend;
    [LocalBackend] implements it for given outcomes of its system calls. *)
Class BinlogCacheBackend (C : Type) := {
  cache_Write : string → CacheEvent → ST C unit;
  cache_Read : C → string → string → Z → list CacheEvent * option goerror;
  cache_Delete : string → ST C unit
}.

Definition LocalBackend_cache `{!JSONCodec CacheEvent} (w : io) : BinlogCacheBackend LocalBackend := {|
  cache_Write := Write w;
  cache_Read := Read;
  cache_Delete := Delete w
|}.
