(* ===== verification/CacheProofs.v ===== *)
(** Correctness of the binlog cache: the record format round trips, a read
    delivers only intact records and survives a torn tail, writes append and
    are isolated by file name, and what the batch write and the tail recovery
    really guarantee. *)
From Stdlib Require Import ZArith Lia.
From Stdlib Require Ascii String Strings.Byte.
From stdpp Require Import prelude countable gmap strings list fin_maps.
From S2P Require Import Prelude Events Hash CacheLog.
Local Open Scope Z_scope.

(** ** The record format *)

(** The bytes of a record whose payload fits the length field. *)
Definition record_bytes (p : list Byte.byte) : list Byte.byte :=
  put_be32 (zlen p) ++ put_be32 (ChecksumIEEE (put_be32 (zlen p) ++ p)) ++ p ++ put_be32 (zlen p).

Lemma zlen_nonneg {A} (l : list A) : 0 <= zlen l.
Proof. unfold zlen. lia. Qed.

Lemma zlen_app {A} (l k : list A) : zlen (l ++ k) = zlen l + zlen k.
Proof. unfold zlen. rewrite length_app. lia. Qed.

Lemma record_bytes_length p : zlen (record_bytes p) = zlen p + 12.
Proof. unfold record_bytes. rewrite !zlen_app. unfold zlen. rewrite !put_be32_length. lia. Qed.

Lemma encode_record_fits p :
  zlen p + 12 < 2 ^ 32 → encode_record p = Ok (record_bytes p).
Proof.
  intros H. pose proof (zlen_nonneg p).
  unfold encode_record, recordOverhead, record_bytes.
  rewrite (u32_small (zlen p)), (u32_small (zlen p + 12)) by lia.
  rewrite (proj2 (Z.ltb_ge _ _)) by lia. f_equal. f_equal. f_equal. f_equal.
  apply take_ge. unfold zlen. lia.
Qed.

Lemma encode_record_small p :
  zlen p <= MaxRecordSize → encode_record p = Ok (record_bytes p).
Proof. unfold MaxRecordSize. intros H. apply encode_record_fits. lia. Qed.

Lemma ReadFull_app n l rest : n = zlen l → ReadFull n (l ++ rest) = RFOk l rest.
Proof.
  intros ->. unfold ReadFull. pose proof (zlen_nonneg l). pose proof (zlen_nonneg rest).
  rewrite zlen_app. destruct (Z.leb_spec (zlen l) 0).
  - assert (l = []) as -> by (destruct l; unfold zlen in *; cbn in *; [done|lia]). done.
  - rewrite (proj2 (Z.eqb_neq _ _)), (proj2 (Z.ltb_ge _ _)) by lia.
    unfold zlen. rewrite Nat2Z.id, take_app_length, drop_app_length. done.
Qed.

Lemma ReadFull_ok n f d rest : ReadFull n f = RFOk d rest → 0 <= n → f = d ++ rest ∧ zlen d = n.
Proof.
  unfold ReadFull. destruct (Z.leb_spec n 0); intros H1 H2; simplify_eq/=.
  - split; [done|]. unfold zlen. cbn. lia.
  - repeat case_match; simplify_eq. propify. split; [by rewrite take_drop|].
    unfold zlen in *. rewrite length_take. lia.
Qed.

Lemma ReadFull_short n f : 0 < n → zlen f < n → ∃ e, ReadFull n f = RFErr e.
Proof.
  intros Hn Hf. unfold ReadFull. rewrite (proj2 (Z.leb_gt _ _)) by done.
  case_match; [by eauto|]. rewrite (proj2 (Z.ltb_lt _ _)) by done. eauto.
Qed.

(** ** Payload sequences *)

Definition log_bytes (ps : list (list Byte.byte)) : list Byte.byte := concat (record_bytes <$> ps).

Section Log.
Context `{!JSONCodec CacheEvent} `{!JSONCodec Position}.

Lemma read_record_app p ev rest :
  zlen p <= MaxRecordSize → json_Unmarshal p = Ok ev →
  read_record (record_bytes p ++ rest) = ReadEvent ev rest.
Proof.
  intros Hp Hu. pose proof (zlen_nonneg p). unfold MaxRecordSize in *.
  assert (Hl : get_be32 (put_be32 (zlen p)) = zlen p) by (apply get_put_be32; lia).
  unfold read_record, record_bytes. rewrite <- !app_assoc, ReadFull_app by done.
  rewrite Hl, (proj2 (Z.ltb_ge _ _)) by (unfold MaxRecordSize; lia).
  rewrite !ReadFull_app by done. rewrite Hl, Z.eqb_refl. cbn [negb].
  rewrite get_put_be32 by apply ChecksumIEEE_range. rewrite Z.eqb_refl. cbn [negb].
  by rewrite Hu.
Qed.

(** What a successful iteration has read is an intact record. *)
Lemma read_record_inv f ev rest :
  read_record f = ReadEvent ev rest →
  ∃ p, f = record_bytes p ++ rest ∧ json_Unmarshal p = Ok ev ∧ zlen p <= MaxRecordSize.
Proof.
  unfold read_record. intros H.
  destruct (ReadFull 4 f) as [lenBuf f1|] eqn:E1; [|done].
  case_match; [done|]. pose proof (get_be32_range lenBuf) as Hr.
  destruct (ReadFull 4 f1) as [crcBuf f2|] eqn:E2; [|done].
  destruct (ReadFull (get_be32 lenBuf) f2) as [p f3|] eqn:E3; [|done].
  destruct (ReadFull 4 f3) as [tailBuf f4|] eqn:E4; [|done].
  apply ReadFull_ok in E1 as [-> H1], E2 as [-> H2], E3 as [-> H3], E4 as [-> H4]; [|lia..].
  repeat (case_match; simplify_eq). propify. exists p.
  split; [|split; [done|lia]].
  assert (Hput : ∀ l, zlen l = 4 → put_be32 (get_be32 l) = l).
  { intros l Hl. apply put_get_be32. unfold zlen in Hl. lia. }
  match goal with H : get_be32 tailBuf = _ |- _ => rename H into Htail end.
  match goal with H : get_be32 crcBuf = _ |- _ => rename H into Hcrc end.
  assert (tailBuf = lenBuf) as ->.
  { rewrite <- (Hput tailBuf), <- (Hput lenBuf), Htail by done. by rewrite Hput. }
  unfold record_bytes. rewrite H3, (Hput lenBuf), <- Hcrc, (Hput crcBuf) by done.
  by rewrite <- !app_assoc.
Qed.

Lemma read_record_header f : zlen f < 4 → read_record f = ReadEnd None.
Proof. intros H. unfold read_record. destruct (ReadFull_short 4 f) as [e ->]; [lia..|done]. Qed.

(** A record that is cut after its header ends the stream with an error. *)
Lemma read_record_torn f :
  4 <= zlen f → zlen f < get_be32 (take 4 f) + 12 →
  ∃ e, read_record f = ReadEnd (Some e).
Proof.
  intros H4 Hlt. pose proof (get_be32_range (take 4 f)) as Hr.
  assert (Ht : zlen (take 4 f) = 4) by (unfold zlen in *; rewrite length_take; lia).
  pose proof (take_drop 4 f) as Hf. revert Hr Hlt Ht Hf.
  generalize (take 4 f) (drop 4 f). intros h g Hr Hlt Ht <-.
  rewrite zlen_app in Hlt. unfold read_record. rewrite ReadFull_app by done.
  case_match; [by eauto|]. rename Hlt into Hg.
  destruct (ReadFull 4 g) as [c g1|e] eqn:E1; [|by eauto].
  apply ReadFull_ok in E1 as [-> Hc]; [|lia]. rewrite zlen_app in Hg.
  destruct (ReadFull (get_be32 h) g1) as [d g2|e] eqn:E2; [|by eauto].
  apply ReadFull_ok in E2 as [-> Hd]; [|lia]. rewrite zlen_app in Hg.
  destruct (ReadFull_short 4 g2) as [e ->]; [lia..|eauto].
Qed.

(** ** The read loop on a log *)

Definition starts_at (tx : string) (seq : Z) (ev : CacheEvent) : bool :=
  bool_decide (ce_TxID ev = tx) && (seq <=? ce_EventSeq ev).

(** Specification of the resume point: everything from the first event of
    transaction [tx] whose sequence number is at least [seq]. *)
Fixpoint resume (tx : string) (seq : Z) (emitting : bool) (evs : list CacheEvent) : list CacheEvent :=
  match evs with
  | [] => []
  | ev :: evs' => if emitting || starts_at tx seq ev then ev :: evs' else resume tx seq false evs'
  end.

Lemma resume_true tx seq evs : resume tx seq true evs = evs.
Proof. by destruct evs. Qed.

Definition decodes (p : list Byte.byte) (ev : CacheEvent) : Prop :=
  json_Unmarshal p = Ok ev ∧ zlen p <= MaxRecordSize.

Lemma read_loop_log tx seq ps evs :
  Forall2 decodes ps evs →
  ∀ em budget tail,
  read_loop (length evs + budget) tx seq em (log_bytes ps ++ tail) =
    let '(es, err) := read_loop budget tx seq (em || existsb (starts_at tx seq) evs) tail in
    (resume tx seq em evs ++ es, err).
Proof.
  induction 1 as [|p ev ps evs [Hu Hp] Hall IH]; intros em budget tail; cbn -[log_bytes].
  - rewrite orb_false_r. cbn. by destruct (read_loop _ _ _ _ _).
  - unfold log_bytes. cbn [fmap list_fmap concat]. rewrite <- app_assoc.
    erewrite read_record_app by done. fold (starts_at tx seq ev). fold (log_bytes ps).
    rewrite IH. rewrite (orb_assoc em).
    destruct (em || starts_at tx seq ev) eqn:E; cbn.
    + rewrite resume_true. by destruct (read_loop _ _ _ _ _).
    + apply orb_false_iff in E as [? ?]. subst em. by destruct (read_loop _ _ _ _ _).
Qed.

Lemma read_record_shrinks f ev rest :
  read_record f = ReadEvent ev rest → (length rest < length f)%nat.
Proof.
  intros (p & -> & _)%read_record_inv. rewrite length_app.
  pose proof (record_bytes_length p). unfold zlen in *. lia.
Qed.

(** The length of the file bounds the number of iterations: the budget of
    [Read] is enough, and a larger one changes nothing. *)
Lemma read_loop_enough tx seq b1 : ∀ f em b2,
  (length f < b1)%nat → (length f < b2)%nat →
  read_loop b1 tx seq em f = read_loop b2 tx seq em f.
Proof.
  induction b1 as [|b1 IH]; intros f em [|b2] H1 H2; try lia. cbn.
  destruct (read_record f) as [|ev rest] eqn:E; [done|].
  pose proof (read_record_shrinks _ _ _ E). by rewrite (IH rest _ b2) by lia.
Qed.

Lemma log_bytes_length ps : (length ps <= length (log_bytes ps))%nat.
Proof.
  induction ps as [|p ps IH]; cbn; [lia|]. rewrite length_app.
  pose proof (record_bytes_length p). unfold zlen, log_bytes in *. lia.
Qed.

(** Reading a log followed by arbitrary bytes. *)
Lemma read_file_log tx seq ps evs tail :
  Forall2 decodes ps evs →
  read_file (S (length (log_bytes ps ++ tail))) tx seq (log_bytes ps ++ tail) =
    let em := bool_decide (tx = "") in
    let '(es, err) := read_loop (S (length tail)) tx seq (em || existsb (starts_at tx seq) evs) tail in
    (resume tx seq em evs ++ es, err).
Proof.
  intros Hall. unfold read_file. pose proof (log_bytes_length ps) as Hb.
  pose proof (Forall2_length _ _ _ Hall) as Hl.
  replace (S (length (log_bytes ps ++ tail))) with
    (length evs + (S (length (log_bytes ps ++ tail)) - length evs))%nat
    by (rewrite length_app; lia).
  rewrite read_loop_log by done. rewrite length_app.
  by rewrite (read_loop_enough _ _ _ _ _ (S (length tail))) by lia.
Qed.

(** Every event the loop has emitted comes from a prefix of intact records. *)
Lemma read_loop_sound tx seq budget : ∀ em f evs err,
  read_loop budget tx seq em f = (evs, err) →
  ∃ ps all tail, f = log_bytes ps ++ tail ∧ Forall2 decodes ps all ∧
    evs = resume tx seq em all.
Proof.
  induction budget as [|b IH]; intros em f evs err H; cbn in H.
  { simplify_eq. exists [], [], f. repeat split; constructor. }
  destruct (read_record f) as [|ev rest] eqn:E; simplify_eq.
  { exists [], [], f. repeat split; constructor. }
  apply read_record_inv in E as (p & -> & Hu & Hp). fold (starts_at tx seq ev) in H.
  destruct (read_loop b _ _ _ rest) as [es err'] eqn:Er. apply IH in Er as (ps & all & tail & -> & Hall & ->).
  exists (p :: ps), (ev :: all), tail. split; [|split].
  - unfold log_bytes. cbn. by rewrite app_assoc.
  - constructor; [done|]. done.
  - cbn. destruct (em || starts_at tx seq ev); simplify_eq; [by rewrite resume_true|done].
Qed.

(** Whatever is on disk (a torn, truncated or corrupted file included) and
    whenever the reader is cancelled, [Read] only ever delivers events that
    are decoded from intact records: the file starts with a sequence of
    well-formed records (lengths agree, CRC-32 matches) whose payloads decode
    to [all], and the delivered events are those of [all] from the resume
    point on, in order and without gaps. *)
Theorem Read_only_intact_records (budget : nat) (st : LocalBackend) (tableID tx : string)
    (seq : Z) (f : list Byte.byte) (evs : list CacheEvent) (err : option goerror)
    (Hfile : file_of st tableID = Some f)
    (Hread : Read_ctx budget st tableID tx seq = (evs, err)) :
  ∃ ps all tail, f = log_bytes ps ++ tail ∧ Forall2 decodes ps all ∧
    evs = resume tx seq (bool_decide (tx = "")) all.
Proof.
  unfold Read_ctx, read_file in Hread. rewrite Hfile in Hread.
  by eapply read_loop_sound.
Qed.

Lemma decodes_app ps evs ps' evs' :
  Forall2 decodes ps evs → Forall2 decodes ps' evs' → Forall2 decodes (ps ++ ps') (evs ++ evs').
Proof. apply Forall2_app. Qed.

Lemma log_bytes_app ps ps' : log_bytes (ps ++ ps') = log_bytes ps ++ log_bytes ps'.
Proof. unfold log_bytes. by rewrite fmap_app, concat_app. Qed.

Lemma log_bytes_snoc ps p : log_bytes (ps ++ [p]) = log_bytes ps ++ record_bytes p.
Proof. rewrite log_bytes_app. unfold log_bytes at 2. cbn. by rewrite app_nil_r. Qed.

(** A file holds a log of the given events. *)
Definition holds (st : LocalBackend) (tableID : string) (evs : list CacheEvent) : Prop :=
  ∃ ps, default [] (file_of st tableID) = log_bytes ps ∧ Forall2 decodes ps evs.

Lemma Read_holds st t tx seq evs :
  holds st t evs → Read st t tx seq = (resume tx seq (bool_decide (tx = "")) evs, None).
Proof.
  intros (ps & Hf & Hall). unfold Read. destruct (file_of st t) as [f|] eqn:Ef; cbn in Hf.
  - subst f. rewrite <- (app_nil_r (log_bytes ps)). rewrite (read_file_log _ _ _ evs) by done.
    cbn [length read_loop]. by rewrite read_record_header, app_nil_r.
  - destruct Hall as [|p ev ps evs ??]; [done|]. apply (f_equal length) in Hf.
    unfold log_bytes in Hf. cbn in Hf. rewrite length_app in Hf.
    pose proof (record_bytes_length p). unfold zlen in *. lia.
Qed.

(** Crash in the middle of an append: when the last record of a log was
    cut anywhere, [Read] delivers exactly the events of the complete records;
    the cut is reported as an error unless fewer than the four bytes of the
    length field reached the disk, in which case the stream ends quietly. *)
Theorem Read_torn_tail (st : LocalBackend) (tableID : string) (ps : list (list Byte.byte))
    (evs : list CacheEvent) (p : list Byte.byte) (n : nat)
    (Hall : Forall2 decodes ps evs) (Hp : zlen p <= MaxRecordSize)
    (Hcut : Z.of_nat n < zlen (record_bytes p))
    (Hfile : file_of st tableID = Some (log_bytes ps ++ take n (record_bytes p))) :
  ∃ err, Read st tableID "" 0 = (evs, err) ∧ (err = None ↔ (n < 4)%nat).
Proof.
  unfold Read. rewrite Hfile, (read_file_log _ _ _ evs) by done.
  rewrite bool_decide_eq_true_2 by done. cbn [orb]. rewrite resume_true.
  rewrite record_bytes_length in Hcut. pose proof (zlen_nonneg p).
  assert (Hn : zlen (take n (record_bytes p)) = Z.of_nat n).
  { pose proof (record_bytes_length p). unfold zlen in *. rewrite length_take. lia. }
  cbn [read_loop]. destruct (decide (n < 4)%nat) as [Hlt|Hge].
  - rewrite read_record_header by lia. exists None. by rewrite app_nil_r.
  - assert (Hh : get_be32 (take 4 (take n (record_bytes p))) = zlen p).
    { rewrite take_take, Nat.min_l by lia. unfold record_bytes.
      rewrite take_length_app_eq by done. apply get_put_be32.
      unfold MaxRecordSize in Hp. lia. }
    destruct (read_record_torn (take n (record_bytes p))) as [e ->]; [lia..|].
    exists (Some e). rewrite app_nil_r. split; [done|]. split; [done|lia].
Qed.

(** ** The backend state *)

(** Open handles point at the file their table's path names, two paths never
    share an inode, and inode numbers are fresh. *)
Record lb_wf (st : LocalBackend) : Prop := {
  wf_handle t i : lb_files st !! t = Some i → lb_dir st !! filePath t = Some i;
  wf_inj p1 p2 i : lb_dir st !! p1 = Some i → lb_dir st !! p2 = Some i → p1 = p2;
  wf_fresh p i : lb_dir st !! p = Some i → (i < lb_next st)%nat
}.

Lemma NewLocalBackend_wf m : lb_wf (NewLocalBackend m).
Proof. split; cbn; intros *; by rewrite lookup_empty. Qed.

Definition same_other_files (t : string) (st st' : LocalBackend) : Prop :=
  ∀ t', filePath t' ≠ filePath t → file_of st' t' = file_of st t'.

Lemma getFile_spec w t st :
  lb_wf st → io_open w = None →
  ∃ st' fd, getFile w t st = (st', Ok fd) ∧ lb_wf st' ∧
    lb_dir st' !! filePath t = Some fd ∧ lb_syncMode st' = lb_syncMode st ∧
    inode_contents st' fd = default [] (file_of st t) ∧ same_other_files t st st'.
Proof.
  intros [Hh Hi Hf] Hw. unfold getFile. rewrite Hw.
  destruct (lb_files st !! t) as [i|] eqn:Et.
  { exists st, i. specialize (Hh _ _ Et) as Hd. unfold file_of. rewrite Hd.
    split_and!; done. }
  destruct (lb_dir st !! filePath t) as [i|] eqn:Ed.
  - exists (set_handle t i st), i. split_and!; try done; [|by unfold file_of; rewrite Ed].
    split; cbn; eauto. intros t' i'. rewrite lookup_insert. case_decide; naive_solver.
  - exists (set_handle t (lb_next st) (create_file (filePath t) st)), (lb_next st).
    split; [done|]. split; [split; cbn|split; [|split; [done|]]].
    + intros t' i'. rewrite lookup_insert. case_decide; [intros; simplify_eq; apply lookup_insert_eq|].
      intros Ht'%Hh. rewrite lookup_insert_ne; [done|]. intros E. congruence.
    + intros p1 p2 i. rewrite !lookup_insert. repeat case_decide; try naive_solver;
        intros; simplify_eq; match goal with H : lb_dir st !! _ = Some _ |- _ => apply Hf in H; lia end.
    + intros p i. rewrite lookup_insert. case_decide; intros Hpi; simplify_eq; [lia|].
      apply Hf in Hpi. lia.
    + cbn. apply lookup_insert_eq.
    + split.
      * unfold inode_contents, file_of. cbn. by rewrite lookup_insert_eq, Ed.
      * intros t' Hne. unfold file_of, inode_contents. cbn. rewrite lookup_insert_ne by done.
        destruct (lb_dir st !! filePath t') as [i|] eqn:E; cbn; [|done].
        apply Hf in E. by rewrite lookup_insert_ne by lia.
Qed.

Lemma set_inode_wf i c st : lb_wf st → lb_wf (set_inode i c st).
Proof. intros [Hh Hi Hf]. split; cbn; eauto. Qed.

Lemma set_inode_file t fd c st :
  lb_dir st !! filePath t = Some fd → file_of (set_inode fd c st) t = Some c.
Proof.
  intros H. unfold file_of, inode_contents. cbn. rewrite H. cbn. by rewrite lookup_insert_eq.
Qed.

Lemma set_inode_other t fd c st :
  lb_wf st → lb_dir st !! filePath t = Some fd → same_other_files t st (set_inode fd c st).
Proof.
  intros [Hh Hi Hf] H t' Hne. unfold file_of, inode_contents. cbn.
  destruct (lb_dir st !! filePath t') as [i|] eqn:E; cbn; [|done].
  rewrite lookup_insert_ne; [done|]. intros ->. apply Hne. by eapply Hi.
Qed.

Lemma same_other_trans t st1 st2 st3 :
  same_other_files t st1 st2 → same_other_files t st2 st3 → same_other_files t st1 st3.
Proof. intros H1 H2 t' Hne. rewrite H2, H1; done. Qed.

(** An event the backend can store: it marshals, the payload is within the
    record size, and the codec gives it back. *)
Definition storable (ev : CacheEvent) : Prop :=
  ∃ p, json_Marshal ev = Ok p ∧ json_Unmarshal p = Ok ev ∧ zlen p <= MaxRecordSize.

Lemma marshalAndWrite_ok fd ev st p :
  json_Marshal ev = Ok p → zlen p + 12 < 2 ^ 32 →
  marshalAndWrite WriteOk fd ev st =
    (set_inode fd (inode_contents st fd ++ record_bytes p) st, Ok tt).
Proof.
  intros Hm Hp. unfold marshalAndWrite, mbind, ST_bind, st_wrap, st_lift. rewrite Hm.
  by rewrite encode_record_fits.
Qed.

Lemma small_fits (p : list Byte.byte) : zlen p <= MaxRecordSize → zlen p + 12 < 2 ^ 32.
Proof. unfold MaxRecordSize. lia. Qed.
#[local] Hint Resolve small_fits : core.

(** [Write] appends one record to the table's file. *)
Lemma Write_appends t ev st p :
  lb_wf st → json_Marshal ev = Ok p → zlen p + 12 < 2 ^ 32 →
  ∃ st', Write io_ok t ev st = (st', Ok tt) ∧ lb_wf st' ∧ same_other_files t st st' ∧
    file_of st' t = Some (default [] (file_of st t) ++ record_bytes p).
Proof.
  intros Hwf Hm Hp.
  destruct (getFile_spec io_ok t st Hwf eq_refl) as (st1 & fd & Hg & Hwf1 & Hd & Hs & Hc & Ho).
  unfold Write, mbind, ST_bind. rewrite Hg. cbn [io_writes io_ok].
  rewrite (marshalAndWrite_ok _ _ _ p) by done.
  eexists. split; [unfold maybeSync, mbind, ST_bind, st_get; cbn; by case_bool_decide|].
  split; [by apply set_inode_wf|]. split.
  - eapply same_other_trans; [done|]. by apply set_inode_other.
  - by rewrite set_inode_file, Hc.
Qed.

(** A successful [Write]: the record is appended to the table's file, the
    invariant is kept and every other file is untouched. *)
Lemma Write_spec t ev st :
  lb_wf st → storable ev →
  ∃ st', Write io_ok t ev st = (st', Ok tt) ∧ lb_wf st' ∧ same_other_files t st st' ∧
    ∀ evs, holds st t evs → holds st' t (evs ++ [ev]).
Proof.
  intros Hwf (p & Hm & Hu & Hp).
  destruct (Write_appends t ev st p) as (st' & Hw & Hwf' & Ho & Hf); auto.
  exists st'. split_and!; try done. intros evs (ps & Hps & Hall). exists (ps ++ [p]).
  rewrite Hf. cbn. rewrite Hps, log_bytes_snoc. split; [done|].
  apply Forall2_app; [done|]. by repeat constructor.
Qed.

(** A sequence of single writes, each to its own table. *)
Fixpoint write_all (ops : list (string * CacheEvent)) : ST LocalBackend unit :=
  match ops with
  | [] => mret tt
  | (t, ev) :: ops => Write io_ok t ev ≫= λ _, write_all ops
  end.

(** The events of [ops] whose table shares a file with [t]. *)
Definition same_file (t : string) (ops : list (string * CacheEvent)) : list CacheEvent :=
  (List.filter (λ op, bool_decide (filePath op.1 = filePath t)) ops).*2.

Lemma file_of_path st t t' : filePath t = filePath t' → file_of st t = file_of st t'.
Proof. unfold file_of. by intros ->. Qed.

Lemma holds_path st t t' evs : filePath t = filePath t' → holds st t evs → holds st t' evs.
Proof. unfold holds. intros E. by rewrite (file_of_path _ _ _ E). Qed.

Lemma write_all_spec ops : ∀ st (H : lb_wf st),
  Forall (λ op, storable op.2) ops →
  ∃ st', write_all ops st = (st', Ok tt) ∧ lb_wf st' ∧
    ∀ t evs, holds st t evs → holds st' t (evs ++ same_file t ops).
Proof.
  induction ops as [|[t ev] ops IH]; intros st Hwf Hops.
  - exists st. split_and!; try done. intros t evs. by rewrite app_nil_r.
  - apply Forall_cons in Hops as [Hev Hops]. cbn in Hev.
    destruct (Write_spec t ev st Hwf Hev) as (st1 & Hw & Hwf1 & Ho & Hh).
    destruct (IH st1 Hwf1 Hops) as (st2 & Hw2 & Hwf2 & Hh2).
    exists st2. cbn. unfold mbind, ST_bind. rewrite Hw. split_and!; try done.
    intros t' evs Hevs. unfold same_file. cbn.
    case_bool_decide as E.
    + cbn. rewrite cons_middle, app_assoc. apply Hh2.
      apply (holds_path _ t); [done|]. apply Hh. by apply (holds_path _ t').
    + apply Hh2. unfold holds in *. by rewrite Ho.
Qed.

(** C5. Round trip of the cache: after any sequence of writes to any tables of
    a fresh backend, reading a table from the start returns exactly the events
    written to its file, in the order they were written, with no error; and a
    read that resumes from a transaction returns the suffix that starts there.
    (Tables whose names sanitise to the same file share it.) *)
Theorem Write_Read_roundtrip (m : SyncMode) (ops : list (string * CacheEvent)) (t tx : string) (seq : Z)
    (Hops : Forall (λ op, storable op.2) ops) :
  ∃ st, write_all ops (NewLocalBackend m) = (st, Ok tt) ∧
    Read st t "" 0 = (same_file t ops, None) ∧
    (tx ≠ "" → Read st t tx seq = (resume tx seq false (same_file t ops), None)).
Proof.
  destruct (write_all_spec ops _ (NewLocalBackend_wf m) Hops) as (st & Hw & _ & Hh).
  exists st. split; [done|]. specialize (Hh t []).
  assert (H0 : holds (NewLocalBackend m) t []) by (exists []; split; [done|constructor]).
  split; [|intros Htx]; rewrite (Read_holds _ _ _ _ _ (Hh H0)).
  - rewrite bool_decide_eq_true_2 by done. by rewrite resume_true.
  - by rewrite bool_decide_eq_false_2 by done.
Qed.

(** ** Limits of the guarantees *)

Lemma read_record_too_large p rest :
  MaxRecordSize < zlen p → zlen p + 12 < 2 ^ 32 →
  read_record (record_bytes p ++ rest) = ReadEnd (Some (ErrNew "record too large")).
Proof.
  intros H1 H2. pose proof (zlen_nonneg p). unfold read_record, record_bytes.
  rewrite <- !app_assoc, ReadFull_app by done. rewrite get_put_be32 by lia.
  by rewrite (proj2 (Z.ltb_lt _ _)).
Qed.

(** The size limit is enforced when reading and not when writing: an event
    whose payload exceeds [MaxRecordSize] is accepted by [Write], and from then
    on every [Read] of the table stops at it with an error, whatever has been
    written after it; the events before it are still delivered. *)
Theorem Write_oversize_poisons (st st' : LocalBackend) (t : string) (evs : list CacheEvent)
    (ev : CacheEvent) (p rest : list Byte.byte)
    (Hwf : lb_wf st) (Hevs : holds st t evs) (Hm : json_Marshal ev = Ok p)
    (Hbig : MaxRecordSize < zlen p) (Hfits : zlen p + 12 < 2 ^ 32) :
  ∃ st1, Write io_ok t ev st = (st1, Ok tt) ∧
    (file_of st' t = Some (default [] (file_of st1 t) ++ rest) →
     Read st' t "" 0 = (evs, Some (ErrNew "record too large"))).
Proof.
  destruct (Write_appends t ev st p) as (st1 & Hw & _ & _ & Hf); [done..|].
  exists st1. split; [done|]. intros Hf'. rewrite Hf in Hf'. unfold default in Hf' at 1. cbn [id] in Hf'.
  destruct Hevs as (ps & Hps & Hall). rewrite Hps, <- app_assoc in Hf'.
  unfold Read. rewrite Hf', (read_file_log _ _ _ evs) by done.
  rewrite bool_decide_eq_true_2 by done. cbn [orb read_loop].
  by rewrite read_record_too_large, app_nil_r, resume_true.
Qed.

Lemma f_Write_short0 fd buf st e :
  f_Write (WriteShort 0 e) fd buf st = (set_inode fd (inode_contents st fd) st, Err e).
Proof. cbn. by rewrite app_nil_r. Qed.

Lemma write_events_until w fd t : ∀ events k j st evs e,
  lb_wf st → lb_dir st !! filePath t = Some fd → holds st t evs →
  Forall storable events → (j < length events)%nat →
  (∀ i, (i < j)%nat → io_writes w (k + i) = WriteOk) → io_writes w (k + j) = WriteShort 0 e →
  ∃ st' e', write_events w k fd events st = (st', Err e') ∧
    holds st' t (evs ++ take j events).
Proof.
  induction events as [|ev events IH]; intros k j st evs e Hwf Hd Hevs Hst Hj Hok Hfail; cbn in Hj; [lia|].
  apply Forall_cons in Hst as [(p & Hm & Hu & Hp) Hst]. cbn [write_events]. unfold mbind, ST_bind.
  destruct j as [|j].
  - rewrite Nat.add_0_r in Hfail. rewrite Hfail.
    unfold marshalAndWrite, mbind, ST_bind, st_wrap, st_lift.
    rewrite Hm, encode_record_small, f_Write_short0 by done.
    destruct e; eexists _, _; (split; [reflexivity|]); rewrite take_0, app_nil_r.
    all: unfold holds; rewrite set_inode_file by done; cbn.
    all: destruct Hevs as (ps & Hps & Hall); unfold file_of in Hps; rewrite Hd in Hps; by exists ps.
  - rewrite <- (Nat.add_0_r k), (Hok 0%nat) by lia.
    rewrite (marshalAndWrite_ok _ _ _ p) by auto.
    destruct (IH (S (k + 0)) j (set_inode fd (inode_contents st fd ++ record_bytes p) st)
      (evs ++ [ev]) e) as (st' & e' & Hw & Hh); try done.
    + by apply set_inode_wf.
    + destruct Hevs as (ps & Hps & Hall). exists (ps ++ [p]). rewrite set_inode_file by done.
      unfold file_of in Hps. rewrite Hd in Hps. cbn in *. rewrite Hps, log_bytes_snoc.
      split; [done|]. apply Forall2_app; [done|]. by repeat constructor.
    + lia.
    + intros i Hi. replace (S (k + 0) + i)%nat with (k + S i)%nat by lia. apply Hok. lia.
    + replace (S (k + 0) + j)%nat with (k + S j)%nat by lia. done.
    + exists st', e'. split; [done|]. cbn. by rewrite cons_middle, app_assoc.
Qed.

(** [WriteBatch] is not atomic, contrary to its interface comment: when
    the write of the [j]-th event of a batch fails, the call returns an error
    and the first [j] events of the batch stay in the file, where the next
    [Read] delivers them. *)
Theorem WriteBatch_failure_keeps_prefix (w : io) (st : LocalBackend) (t : string)
    (evs events : list CacheEvent) (j : nat) (e : goerror)
    (Hwf : lb_wf st) (Hevs : holds st t evs) (Hst : Forall storable events)
    (Hj : (j < length events)%nat) (Hopen : io_open w = None)
    (Hok : ∀ i, (i < j)%nat → io_writes w i = WriteOk)
    (Hfail : io_writes w j = WriteShort 0 e) :
  ∃ st' e', WriteBatch w t events st = (st', Err e') ∧
    Read st' t "" 0 = (evs ++ take j events, None).
Proof.
  destruct (getFile_spec w t st Hwf Hopen) as (st1 & fd & Hg & Hwf1 & Hd & Hs & Hc & Ho).
  assert (Hevs1 : holds st1 t evs).
  { destruct Hevs as (ps & Hps & Hall). exists ps. unfold file_of at 1. rewrite Hd. cbn.
    by rewrite Hc. }
  destruct (write_events_until w fd t events 0 j st1 evs e) as (st' & e' & Hw & Hh); try done.
  exists st', e'. unfold WriteBatch, mbind, ST_bind. rewrite Hg, Hw. split; [done|].
  rewrite (Read_holds _ _ _ _ _ Hh). rewrite bool_decide_eq_true_2 by done. by rewrite resume_true.
Qed.

(** ** Delete *)

Lemma Delete_spec t st :
  ∃ st', Delete io_ok t st = (st', Ok tt) ∧ file_of st' t = None ∧
    lb_files st' = delete t (lb_files st) ∧ lb_dir st' = delete (filePath t) (lb_dir st) ∧
    lb_inodes st' = lb_inodes st ∧ lb_syncMode st' = lb_syncMode st.
Proof.
  unfold Delete. cbn [lb_dir drop_handle io_remove io_ok].
  destruct (lb_dir st !! filePath t) as [i|] eqn:E; eexists; (split; [done|]); cbn; unfold file_of; cbn.
  - by rewrite lookup_delete_eq.
  - rewrite E. split_and!; try done. by rewrite delete_id.
Qed.

(** [Delete] removes the cache of its table and of no other file.  When
    two table IDs sanitise to the same file name, however, deleting the cache
    of one makes the cache of the other unreadable, and what is written to the
    other afterwards through its open handle is acknowledged and lost: it goes
    to the unlinked file. *)
Theorem Delete_isolation_and_aliasing (a b : string) (ev : CacheEvent) (st : LocalBackend)
    (Hwf : lb_wf st) (Hev : storable ev) :
  ∃ st1, Delete io_ok a st = (st1, Ok tt) ∧ Read st1 a "" 0 = ([], None) ∧
    (filePath a ≠ filePath b → ∀ tx seq, Read st1 b tx seq = Read st b tx seq) ∧
    (a ≠ b → filePath a = filePath b → is_Some (lb_files st !! b) →
     ∃ st2, Write io_ok b ev st1 = (st2, Ok tt) ∧ Read st2 b "" 0 = ([], None)).
Proof.
  destruct (Delete_spec a st) as (st1 & Hd & Hf & Hfiles & Hdir & Hino & Hm).
  exists st1. split_and!; [done|unfold Read; by rewrite Hf|..].
  - intros Hne tx seq. unfold Read, file_of, inode_contents.
    by rewrite Hdir, Hino, lookup_delete_ne.
  - intros Hab Hp [i Hi]. destruct Hev as (p & Hmar & _ & Hp').
    assert (Hb : lb_files st1 !! b = Some i) by (by rewrite Hfiles, lookup_delete_ne).
    unfold Write, mbind, ST_bind, getFile. rewrite Hb. cbn [io_writes io_ok].
    rewrite (marshalAndWrite_ok _ _ _ p) by auto.
    eexists. split; [unfold maybeSync, mbind, ST_bind, st_get; cbn; by case_bool_decide|].
    unfold Read, file_of. cbn. by rewrite Hdir, Hp, lookup_delete_eq.
Qed.

(** ** TruncateToLastComplete *)

Lemma tail_scan_spec f n m pos :
  tail_scan f n = Some (m, pos) → (m <= n)%nat ∧ tail_candidate f m = Some pos.
Proof.
  induction n as [|n IH]; cbn [tail_scan]; [done|].
  case_match; [done|]. destruct (tail_candidate f (S n)) eqn:E; intros; simplify_eq; [by split|].
  destruct IH; auto.
Qed.

Lemma tail_scan_none f n m :
  tail_scan f n = None → (12 <= m <= n)%nat → tail_candidate f m = None.
Proof.
  induction n as [|n IH]; cbn [tail_scan]; intros H Hm; [lia|]. unfold recordOverhead in H.
  rewrite (proj2 (Z.ltb_ge _ _)) in H by lia.
  destruct (tail_candidate f (S n)) eqn:E; [done|].
  destruct (decide (m = S n)) as [->|]; [done|]. apply IH; [done|lia].
Qed.

(** The tail recovery terminates on every file and only ever shortens the
    table's own file: what is left is a prefix of what was there, and when it
    returns a position the bytes at the cut pass the scan's own checks; the
    cut is the longest such prefix, and the file is emptied only when no
    prefix passes them.  Other tables are not touched. *)
Theorem Truncate_longest_checked_prefix (st : LocalBackend) (t : string) (f : list Byte.byte)
    (Hwf : lb_wf st) (Hf : file_of st t = Some f) :
  ∃ st' r n, TruncateToLastComplete io_ok t st = (st', Ok r) ∧
    file_of st' t = Some (take n f) ∧ same_other_files t st st' ∧
    (∀ m, (n < m <= length f)%nat → (12 <= m)%nat → tail_candidate f m = None) ∧
    (n = 0%nat ∧ r = None ∨ tail_candidate f n = Some r).
Proof.
  unfold file_of in Hf. destruct (lb_dir st !! filePath t) as [i|] eqn:Ed; simplify_eq/=.
  unfold TruncateToLastComplete. rewrite Ed. cbn [io_open io_truncate io_ok].
  destruct (inode_contents st i) as [|b f'] eqn:Ei.
  - exists st, None, 0%nat. split_and!; try done.
    + unfold file_of. rewrite Ed. cbn. by rewrite Ei.
    + cbn. lia.
    + by left.
  - rewrite <- Ei in *. set (f := inode_contents st i) in *.
    destruct (tail_scan f (length f)) as [[n pos]|] eqn:Es.
    + exists (drop_handle t (set_inode i (take n f) st)), pos, n. split_and!; try done.
      * change (file_of (set_inode i (take n f) st) t = Some (take n f)). by apply set_inode_file.
      * intros t' Hne. change (file_of (set_inode i (take n f) st) t' = file_of st t').
        by apply (set_inode_other t).
      * intros m Hm Hm12. revert Es Hm Hm12. generalize (length f). intros k Hk.
        induction k as [|k IH]; cbn [tail_scan] in Hk; [done|]. intros Hm Hm12.
        unfold recordOverhead in Hk. rewrite (proj2 (Z.ltb_ge _ _)) in Hk by lia.
        destruct (tail_candidate f (S k)) eqn:E; simplify_eq; [lia|].
        destruct (decide (m = S k)) as [->|]; [done|]. apply IH; [done|lia|lia].
      * right. by apply tail_scan_spec in Es as [_ ?].
    + exists (set_inode i [] st), None, 0%nat. split_and!; try done.
      * by apply set_inode_file.
      * by apply set_inode_other.
      * intros m Hm Hm12. apply (tail_scan_none _ (length f)); [done|lia].
      * by left.
Qed.

(** A cache event and the JSON text encoding/json gives it. *)
Definition sample_event : CacheEvent :=
  mkCacheEvent 1 [] "t1" 1 false false [] 0 0 "".
Definition sample_json : list Byte.byte :=
  String.list_byte_of_string
    (let q := String (Ascii.ascii_of_nat 34) "" in
     "{" +:+ q +:+ "source_type" +:+ q +:+ ":1," +:+ q +:+ "tx_id" +:+ q +:+ ":" +:+ q +:+ "t1"
     +:+ q +:+ "," +:+ q +:+ "event_seq" +:+ q +:+ ":1," +:+ q +:+ "timestamp_ms" +:+ q +:+ ":0}").

Lemma sample_scan : tail_scan (record_bytes sample_json) (length (record_bytes sample_json)) = None.
Proof. vm_compute. reflexivity. Qed.

Lemma sample_small : zlen sample_json <= MaxRecordSize.
Proof. vm_compute. discriminate. Qed.

(** The tail recovery checks a different checksum from the one the writer
    stores (its CRC-32 covers the length, the stored checksum and a truncated
    payload, instead of the length and the payload), so it rejects intact
    records: a cache file that holds one complete event, which [Read] delivers
    without an error, is emptied by [TruncateToLastComplete]. *)
Theorem Truncate_erases_intact_log (m : SyncMode) (t : string)
    (Hm : json_Marshal sample_event = Ok sample_json)
    (Hu : json_Unmarshal sample_json = Ok sample_event) :
  ∃ st st', Write io_ok t sample_event (NewLocalBackend m) = (st, Ok tt) ∧
    Read st t "" 0 = ([sample_event], None) ∧
    TruncateToLastComplete io_ok t st = (st', Ok None) ∧ Read st' t "" 0 = ([], None).
Proof.
  destruct (Write_appends t sample_event (NewLocalBackend m) sample_json) as (st & Hw & Hwf & _ & Hf);
    [apply NewLocalBackend_wf|done|apply small_fits, sample_small|].
  assert (Hh : holds st t [sample_event]).
  { exists [sample_json]. rewrite Hf. split; [unfold log_bytes; cbn [fmap list_fmap concat]; by rewrite app_nil_r|].
    constructor; [|constructor]. split; [done|apply sample_small]. }
  exists st. destruct (lb_dir st !! filePath t) as [i|] eqn:Ed;
    [|unfold file_of in Hf; by rewrite Ed in Hf].
  assert (Hi : inode_contents st i = record_bytes sample_json).
  { assert (Hf' := Hf). unfold file_of at 1 in Hf'. rewrite Ed in Hf'. exact (inj Some _ _ Hf'). }
  exists (set_inode i [] st). split_and!; [done|..].
  - rewrite (Read_holds _ _ _ _ _ Hh). done.
  - unfold TruncateToLastComplete. rewrite Ed. cbn [io_open io_truncate io_ok].
    rewrite Hi, sample_scan. unfold record_bytes, put_be32. reflexivity.
  - unfold Read. by rewrite set_inode_file.
Qed.

End Log.

(** ** Concrete runs *)

Module CacheRuns.

(** [encoding/json] on the events of the runs: the text of the sample event,
    and for the others any encoding that gives the value back. *)
Definition event_json : JSONCodec CacheEvent := {|
  json_Marshal ev :=
    if decide (ev = sample_event) then Ok sample_json
    else @json_Marshal _ (countable_codec CacheEvent) ev;
  json_Unmarshal l :=
    if decide (l = sample_json) then Ok sample_event
    else @json_Unmarshal _ (countable_codec CacheEvent) l
|}.
#[local] Existing Instance event_json.

Definition no_positions : JSONCodec Position := {|
  json_Marshal _ := Err (ErrNew "unsupported");
  json_Unmarshal _ := Err (ErrNew "unexpected end of JSON input")
|}.
#[local] Existing Instance no_positions.

Definition one_event : LocalBackend :=
  (Write io_ok "app.users" sample_event (NewLocalBackend SyncModeEvery)).1.

Lemma sample_storable : storable sample_event.
Proof. exists sample_json. split_and!; [by vm_compute..|apply sample_small]. Qed.

Lemma empty_holds m t : holds (NewLocalBackend m) t [].
Proof. exists []. split; [done|constructor]. Qed.

Lemma Read_only_intact_records_witness :
  ∃ ps all tail, default [] (file_of one_event "app.users") = log_bytes ps ++ tail ∧
    Forall2 decodes ps all ∧ [sample_event] = resume "t1" 1 (bool_decide ("t1" = "")) all.
Proof.
  apply (Read_only_intact_records 5 one_event "app.users" "t1" 1 _ [sample_event] None);
    vm_compute; reflexivity.
Defined.

Lemma Read_torn_tail_witness :
  ∃ err, Read (set_inode 0 (take 20 (record_bytes sample_json)) one_event) "app.users" "" 0 = ([], err)
    ∧ (err = None ↔ (20 < 4)%nat).
Proof.
  apply (Read_torn_tail _ "app.users" [] [] sample_json 20).
  - constructor.
  - apply sample_small.
  - vm_compute. reflexivity.
  - vm_compute. reflexivity.
Defined.

Lemma Write_Read_roundtrip_witness :
  ∃ st, write_all [("app.users", sample_event); ("app.orders", sample_event)]
      (NewLocalBackend SyncModeEvery) = (st, Ok tt) ∧
    Read st "app.users" "" 0 =
      (same_file "app.users" [("app.users", sample_event); ("app.orders", sample_event)], None) ∧
    ("t1" ≠ "" → Read st "app.users" "t1" 2 =
      (resume "t1" 2 false
         (same_file "app.users" [("app.users", sample_event); ("app.orders", sample_event)]), None)).
Proof.
  apply (Write_Read_roundtrip SyncModeEvery [("app.users", sample_event); ("app.orders", sample_event)]
    "app.users" "t1" 2).
  repeat constructor; apply sample_storable.
Defined.

Lemma WriteBatch_failure_keeps_prefix_witness :
  ∃ st' e',
    WriteBatch (mkIO None (λ i, if decide (i = 1%nat) then WriteShort 0 (ErrNew "ENOSPC") else WriteOk)
      None None None) "app.users" [sample_event; sample_event] (NewLocalBackend SyncModeEvery)
      = (st', Err e') ∧
    Read st' "app.users" "" 0 = ([] ++ take 1 [sample_event; sample_event], None).
Proof.
  apply (WriteBatch_failure_keeps_prefix _ _ _ _ _ _ (ErrNew "ENOSPC")).
  - apply NewLocalBackend_wf.
  - apply empty_holds.
  - repeat constructor; apply sample_storable.
  - cbn. lia.
  - reflexivity.
  - intros i Hi. cbn. by rewrite decide_False by lia.
  - reflexivity.
Defined.

Definition two_tables : LocalBackend :=
  (write_all [("db.s.t", sample_event); ("db.s_t", sample_event)] (NewLocalBackend SyncModeEvery)).1.

Lemma two_tables_wf : lb_wf two_tables.
Proof.
  destruct (write_all_spec [("db.s.t", sample_event); ("db.s_t", sample_event)]
    (NewLocalBackend SyncModeEvery)) as (st & Hw & Hwf & _).
  - apply NewLocalBackend_wf.
  - repeat constructor; apply sample_storable.
  - unfold two_tables. by rewrite Hw.
Qed.

Lemma Delete_isolation_and_aliasing_witness :
  ∃ st1, Delete io_ok "db.s.t" two_tables = (st1, Ok tt) ∧
    ∃ st2, Write io_ok "db.s_t" sample_event st1 = (st2, Ok tt) ∧ Read st2 "db.s_t" "" 0 = ([], None).
Proof.
  destruct (Delete_isolation_and_aliasing "db.s.t" "db.s_t" sample_event two_tables
    two_tables_wf sample_storable) as (st1 & Hd & _ & _ & Halias).
  exists st1. split; [exact Hd|]. apply Halias; [done|by vm_compute|].
  exists 0%nat. by vm_compute.
Defined.

Lemma Truncate_longest_checked_prefix_witness :
  ∃ st' r n, TruncateToLastComplete io_ok "app.users" one_event = (st', Ok r) ∧
    file_of st' "app.users" = Some (take n (record_bytes sample_json)) ∧
    same_other_files "app.users" one_event st' ∧
    (∀ m, (n < m <= length (record_bytes sample_json))%nat → (12 <= m)%nat →
      tail_candidate (record_bytes sample_json) m = None) ∧
    (n = 0%nat ∧ r = None ∨ tail_candidate (record_bytes sample_json) n = Some r).
Proof.
  apply (Truncate_longest_checked_prefix one_event "app.users" (record_bytes sample_json)).
  - unfold one_event. destruct (Write_spec "app.users" sample_event (NewLocalBackend SyncModeEvery))
      as (st & Hw & Hwf & _); [apply NewLocalBackend_wf|apply sample_storable|]. by rewrite Hw.
  - vm_compute. reflexivity.
Defined.

Lemma Truncate_erases_intact_log_witness :
  ∃ st st', Write io_ok "app.users" sample_event (NewLocalBackend SyncModeEvery) = (st, Ok tt) ∧
    Read st "app.users" "" 0 = ([sample_event], None) ∧
    TruncateToLastComplete io_ok "app.users" st = (st', Ok None) ∧ Read st' "app.users" "" 0 = ([], None).
Proof. apply (Truncate_erases_intact_log SyncModeEvery "app.users"); reflexivity. Defined.

End CacheRuns.

Module OversizeRun.

(** A codec whose text for every event is one byte over the record limit. *)
Definition big_json : list Byte.byte := replicate (Z.to_nat (MaxRecordSize + 1)) Byte.x20.

Lemma big_json_length : zlen big_json = MaxRecordSize + 1.
Proof. unfold big_json, zlen. rewrite length_replicate. unfold MaxRecordSize. lia. Qed.

#[local] Opaque big_json.

#[local] Instance big_events : JSONCodec CacheEvent := {|
  json_Marshal _ := Ok big_json; json_Unmarshal _ := Ok sample_event |}.

Lemma Write_oversize_poisons_witness :
  ∃ st1, Write io_ok "app.users" sample_event (NewLocalBackend SyncModeNone) = (st1, Ok tt) ∧
    (file_of st1 "app.users" = Some (default [] (file_of st1 "app.users") ++ []) →
     Read st1 "app.users" "" 0 = ([], Some (ErrNew "record too large"))).
Proof.
  pose proof big_json_length as Hl. unfold MaxRecordSize in Hl.
  destruct (Write io_ok "app.users" sample_event (NewLocalBackend SyncModeNone)) as [s r] eqn:EW.
  destruct (Write_oversize_poisons (NewLocalBackend SyncModeNone) s
    "app.users" [] sample_event big_json []) as (st1 & Hw & Hread).
  - apply NewLocalBackend_wf.
  - exists []. split; [exact eq_refl|constructor].
  - exact eq_refl.
  - unfold MaxRecordSize. lia.
  - lia.
  - rewrite EW in Hw. injection Hw as -> ->. exists st1. split; [exact eq_refl|exact Hread].
Defined.

End OversizeRun.
