(* ===== verification/TableLifecycle.v ===== *)
(** The per-table life cycle (internal/source/table_lifecycle.go) and the
    earliest position over a set of tables (global_min_position.go).

    [TableLifecycle] is the record of the code; its methods take the time
    [time.Now()] returned as an argument.  The operations are also the labels
    of a step relation, over which the invariants of the state machine are
    proved. *)
From Stdlib Require Import ZArith Lia.
From Stdlib Require Ascii.
From stdpp Require Import prelude countable gmap strings list fin_maps.
From S2P Require Import Prelude Events.
Local Open Scope Z_scope.

(** ** Table identifiers (table_manager.go) *)

Record TableID := mkTableID { Database : string; Schema : string; Table : string }.

#[export] Instance TableID_eq_dec : EqDecision TableID.
Proof. solve_decision. Defined.
#[export] Program Instance TableID_countable : Countable TableID :=
  inj_countable' (λ t, (Database t, Schema t, Table t)) (λ '(d, s, t), mkTableID d s t) _.
Next Obligation. by intros []. Qed.

Definition TableID_String (t : TableID) : string :=
  if bool_decide (Schema t ≠ "") then Database t +:+ "." +:+ Schema t +:+ "." +:+ Table t
  else Database t +:+ "." +:+ Table t.

(** ** The state machine *)

(** A [TableState] is a string: one of the six constants or any other text. *)
Inductive TableState :=
  | TableStatePending
  | TableStateSnapshotting
  | TableStateCatchingUp
  | TableStateStreaming
  | TableStateError
  | TableStatePaused
  | TableStateRaw (s : string).

#[export] Instance TableState_eq_dec : EqDecision TableState.
Proof. solve_decision. Defined.

Definition TableState_string (s : TableState) : string :=
  match s with
  | TableStatePending => "pending"
  | TableStateSnapshotting => "snapshotting"
  | TableStateCatchingUp => "catching_up"
  | TableStateStreaming => "streaming"
  | TableStateError => "error"
  | TableStatePaused => "paused"
  | TableStateRaw s => s
  end.

(** [%q], for states without characters that are escaped. *)
Definition quoted_state (s : TableState) : string :=
  let quote := String (Ascii.ascii_of_nat 34) "" in quote +:+ TableState_string s +:+ quote.

Definition validTransitions (s : TableState) : option (list TableState) :=
  match s with
  | TableStatePending => Some [TableStateSnapshotting]
  | TableStateSnapshotting => Some [TableStateCatchingUp; TableStateError]
  | TableStateCatchingUp =>
      Some [TableStateStreaming; TableStateCatchingUp; TableStateError; TableStatePaused]
  | TableStateStreaming => Some [TableStateError; TableStatePaused]
  | _ => None
  end.

Record CatchingUpProgress := mkCatchingUpProgress {
  cp_CurrentGTID : string;
  cp_EventSeq : Z;
  cp_FileOffset : Z;
  cp_UpsertUntil : time
}.

Record TableLifecycle := mkTableLifecycle {
  tl_TableID : TableID;
  tl_State : TableState;
  tl_PreviousState : TableState;
  tl_SnapshotPosition : option Position;
  tl_StreamPosition : option Position;
  tl_CatchingUpProgress : CatchingUpProgress;
  tl_RetryCount : Z;
  tl_MaxRetries : Z;
  tl_LastError : string;
  tl_LastStateChange : time
}.

Definition CatchingUpProgress_zero : CatchingUpProgress := mkCatchingUpProgress "" 0 0 0.

Definition NewTableLifecycle (now : time) (tableID : TableID) : TableLifecycle :=
  mkTableLifecycle tableID TableStatePending (TableStateRaw "") None None
    CatchingUpProgress_zero 0 3 "" now.

(** Field assignments. *)
Definition set_states (prev cur : TableState) (now : time) (tl : TableLifecycle) : TableLifecycle :=
  mkTableLifecycle (tl_TableID tl) cur prev (tl_SnapshotPosition tl) (tl_StreamPosition tl)
    (tl_CatchingUpProgress tl) (tl_RetryCount tl) (tl_MaxRetries tl) (tl_LastError tl) now.

Definition set_SnapshotPosition (p : option Position) (tl : TableLifecycle) : TableLifecycle :=
  mkTableLifecycle (tl_TableID tl) (tl_State tl) (tl_PreviousState tl) p (tl_StreamPosition tl)
    (tl_CatchingUpProgress tl) (tl_RetryCount tl) (tl_MaxRetries tl) (tl_LastError tl)
    (tl_LastStateChange tl).

Definition set_StreamPosition (p : option Position) (tl : TableLifecycle) : TableLifecycle :=
  mkTableLifecycle (tl_TableID tl) (tl_State tl) (tl_PreviousState tl) (tl_SnapshotPosition tl) p
    (tl_CatchingUpProgress tl) (tl_RetryCount tl) (tl_MaxRetries tl) (tl_LastError tl)
    (tl_LastStateChange tl).

Definition set_LastError (msg : string) (tl : TableLifecycle) : TableLifecycle :=
  mkTableLifecycle (tl_TableID tl) (tl_State tl) (tl_PreviousState tl) (tl_SnapshotPosition tl)
    (tl_StreamPosition tl) (tl_CatchingUpProgress tl) (tl_RetryCount tl) (tl_MaxRetries tl) msg
    (tl_LastStateChange tl).

Definition set_RetryCount (n : Z) (tl : TableLifecycle) : TableLifecycle :=
  mkTableLifecycle (tl_TableID tl) (tl_State tl) (tl_PreviousState tl) (tl_SnapshotPosition tl)
    (tl_StreamPosition tl) (tl_CatchingUpProgress tl) n (tl_MaxRetries tl) (tl_LastError tl)
    (tl_LastStateChange tl).

Definition TransitionTo (now : time) (newState : TableState) (pos : option Position) :
    ST TableLifecycle unit := λ tl,
  match validTransitions (tl_State tl) with
  | None => (tl, Err (ErrNew ("no transitions defined from state " +:+ quoted_state (tl_State tl))))
  | Some allowed =>
      if bool_decide (newState ∈ allowed) then
        let tl1 := set_states (tl_State tl) newState now tl in
        let tl2 := if bool_decide (newState = TableStateSnapshotting ∧ pos ≠ None)
                   then set_SnapshotPosition pos tl1 else tl1 in
        (if bool_decide (pos ≠ None) then set_StreamPosition pos tl2 else tl2, Ok tt)
      else (tl, Err (ErrNew ("invalid transition from " +:+ quoted_state (tl_State tl)
                               +:+ " to " +:+ quoted_state newState)))
  end.

Definition SetError (now : time) (msg : string) (tl : TableLifecycle) : TableLifecycle :=
  set_LastError msg (set_states (tl_State tl) TableStateError now tl).

Definition ResetToPending (now : time) (newSnapshotPos : option Position) : ST TableLifecycle unit := λ tl,
  if bool_decide (tl_State tl ≠ TableStateError)
  then (tl, Err (ErrNew ("ResetToPending only allowed from error state, current state: "
                           +:+ quoted_state (tl_State tl))))
  else
    let tl1 := set_SnapshotPosition newSnapshotPos tl in
    let tl2 := set_states (tl_State tl1) TableStatePending now tl1 in
    let tl3 := set_LastError "" tl2 in
    (set_RetryCount (i64 (tl_RetryCount tl3 + 1)) tl3, Ok tt).

Definition Pause (now : time) : ST TableLifecycle unit := λ tl,
  if bool_decide (tl_State tl ≠ TableStateCatchingUp ∧ tl_State tl ≠ TableStateStreaming)
  then (tl, Err (ErrNew ("Pause only allowed from catching_up or streaming, current state: "
                           +:+ quoted_state (tl_State tl))))
  else (set_states (tl_State tl) TableStatePaused now tl, Ok tt).

Definition Resume (now : time) : ST TableLifecycle unit := λ tl,
  if bool_decide (tl_State tl ≠ TableStatePaused)
  then (tl, Err (ErrNew ("Resume only allowed from paused state, current state: "
                           +:+ quoted_state (tl_State tl))))
  else (set_states TableStatePaused (tl_PreviousState tl) now tl, Ok tt).

Definition GetState (tl : TableLifecycle) : TableState := tl_State tl.

Definition UpdateStreamPosition (pos : option Position) (tl : TableLifecycle) : TableLifecycle :=
  set_StreamPosition pos tl.

Definition UpdateCatchingUpProgress (progress : CatchingUpProgress) (tl : TableLifecycle) : TableLifecycle :=
  mkTableLifecycle (tl_TableID tl) (tl_State tl) (tl_PreviousState tl) (tl_SnapshotPosition tl)
    (tl_StreamPosition tl) progress (tl_RetryCount tl) (tl_MaxRetries tl) (tl_LastError tl)
    (tl_LastStateChange tl).

(** ** global_min_position.go *)

Definition effectivePosition (tl : TableLifecycle) : option Position :=
  match tl_State tl with
  | TableStatePending => None
  | TableStateSnapshotting | TableStateError => tl_SnapshotPosition tl
  | TableStateCatchingUp | TableStateStreaming | TableStatePaused =>
      match tl_StreamPosition tl with Some p => Some p | None => tl_SnapshotPosition tl end
  | TableStateRaw _ => None
  end.

(** One iteration of the loop. *)
Definition min_step (minPos : option Position) (tl : TableLifecycle) : option Position :=
  match effectivePosition tl with
  | None => minPos
  | Some pos =>
      match minPos with
      | None => Some pos
      | Some m => if time_Before (pos_CommitTime pos) (pos_CommitTime m) then Some pos else minPos
      end
  end.

Definition ComputeGlobalMinPosition (tables : list TableLifecycle) : option Position :=
  foldl min_step None tables.

(** ** Operations as labels *)

Inductive lc_op :=
  | OpTransition (now : time) (s : TableState) (pos : option Position)
  | OpSetError (now : time) (msg : string)
  | OpReset (now : time) (pos : option Position)
  | OpPause (now : time)
  | OpResume (now : time)
  | OpStreamPosition (pos : option Position)
  | OpProgress (p : CatchingUpProgress).

Definition run_op (op : lc_op) : ST TableLifecycle unit :=
  match op with
  | OpTransition now s pos => TransitionTo now s pos
  | OpSetError now msg => st_modify (SetError now msg)
  | OpReset now pos => ResetToPending now pos
  | OpPause now => Pause now
  | OpResume now => Resume now
  | OpStreamPosition pos => st_modify (UpdateStreamPosition pos)
  | OpProgress p => st_modify (UpdateCatchingUpProgress p)
  end.

(** The state change a call asks for: [None] for the setters. *)
Definition op_target (op : lc_op) (tl : TableLifecycle) : option TableState :=
  match op with
  | OpTransition _ s _ => Some s
  | OpSetError _ _ => Some TableStateError
  | OpReset _ _ => Some TableStatePending
  | OpPause _ => Some TableStatePaused
  | OpResume _ => Some (tl_PreviousState tl)
  | _ => None
  end.

(** One call of a method: the operation, its outcome and, when it moved the
    state machine, the state it entered. *)
Record lc_label := mkLabel {
  lab_op : lc_op; lab_result : result unit; lab_entered : option TableState }.

Definition lc_step (tl : TableLifecycle) (l : lc_label) (tl' : TableLifecycle) : Prop :=
  run_op (lab_op l) tl = (tl', lab_result l) ∧
  lab_entered l = (if is_ok (lab_result l) then (λ _, tl_State tl') <$> op_target (lab_op l) tl else None).

(** The states entered by a run, in order. *)
Definition entered (ls : list lc_label) : list TableState := omap lab_entered ls.

Definition is_reset (l : lc_label) : bool :=
  match l with mkLabel (OpReset _ _) (Ok _) _ => true | _ => false end.

(** The documented edges of the state machine, by operation. *)
Definition edge (op : lc_op) (s : TableState) : bool :=
  match op with
  | OpTransition _ TableStateSnapshotting _ => bool_decide (s = TableStatePending)
  | OpTransition _ TableStateCatchingUp _ =>
      bool_decide (s = TableStateSnapshotting ∨ s = TableStateCatchingUp)
  | OpTransition _ TableStateStreaming _ => bool_decide (s = TableStateCatchingUp)
  | OpTransition _ TableStateError _ =>
      bool_decide (s = TableStateSnapshotting ∨ s = TableStateCatchingUp ∨ s = TableStateStreaming)
  | OpTransition _ TableStatePaused _ | OpPause _ =>
      bool_decide (s = TableStateCatchingUp ∨ s = TableStateStreaming)
  | OpTransition _ _ _ => false
  | OpReset _ _ => bool_decide (s = TableStateError)
  | OpResume _ => bool_decide (s = TableStatePaused)
  | OpSetError _ _ | OpStreamPosition _ | OpProgress _ => true
  end.

(** ** The transition table *)

Lemma TransitionTo_valid now s pos tl :
  s ∈ default [] (validTransitions (tl_State tl)) →
  ∃ tl', TransitionTo now s pos tl = (tl', Ok tt) ∧ tl_State tl' = s ∧
    tl_PreviousState tl' = tl_State tl ∧ tl_RetryCount tl' = tl_RetryCount tl ∧
    tl_MaxRetries tl' = tl_MaxRetries tl ∧ tl_TableID tl' = tl_TableID tl.
Proof.
  intros H. unfold TransitionTo. destruct (validTransitions (tl_State tl)) as [al|]; [|set_solver].
  rewrite bool_decide_eq_true_2 by done. eexists. split; [done|].
  by repeat case_bool_decide.
Qed.

Lemma TransitionTo_invalid now s pos tl :
  s ∉ default [] (validTransitions (tl_State tl)) → ∃ e, TransitionTo now s pos tl = (tl, Err e).
Proof.
  intros H. unfold TransitionTo. destruct (validTransitions (tl_State tl)) as [al|]; [|eauto].
  rewrite bool_decide_eq_false_2 by done. eauto.
Qed.

Lemma edge_valid now s pos st :
  edge (OpTransition now s pos) st = bool_decide (s ∈ default [] (validTransitions st)).
Proof. by destruct s, st. Qed.

(** What every call does to the fields the state machine is made of. *)
Lemma run_op_spec op tl :
  (edge op (tl_State tl) = true ∧
   ∃ tl', run_op op tl = (tl', Ok tt) ∧
     tl_State tl' = default (tl_State tl) (op_target op tl) ∧
     tl_PreviousState tl' =
       match op_target op tl with Some _ => tl_State tl | None => tl_PreviousState tl end ∧
     tl_RetryCount tl' =
       (match op with OpReset _ _ => i64 (tl_RetryCount tl + 1) | _ => tl_RetryCount tl end) ∧
     tl_MaxRetries tl' = tl_MaxRetries tl ∧ tl_TableID tl' = tl_TableID tl)
  ∨ (edge op (tl_State tl) = false ∧ ∃ e, run_op op tl = (tl, Err e)).
Proof.
  destruct op as [now s pos|now msg|now pos|now|now|pos|p]; cbn [run_op].
  - rewrite edge_valid. case_bool_decide as H.
    + left. destruct (TransitionTo_valid now s pos tl H) as (tl' & -> & ? & ? & ? & ? & ?). eauto 10.
    + right. split; [done|]. by apply TransitionTo_invalid.
  - left. split; [done|]. eexists. split; [done|]. done.
  - unfold ResetToPending. cbn [edge]. case_bool_decide as H1; case_bool_decide as H2; try done.
    + left. split; [done|]. eexists. split; [done|]. cbn. done.
    + right. eauto.
  - unfold Pause. cbn [edge]. case_bool_decide as H1; case_bool_decide as H2; try tauto.
    + left. split; [done|]. eexists. split; [done|]. done.
    + right. eauto.
  - unfold Resume. cbn [edge]. case_bool_decide as H1; case_bool_decide as H2; try done.
    + left. split; [done|]. eexists. split; [done|]. cbn. by rewrite H1.
    + right. eauto.
  - left. split; [done|]. eexists. split; [done|]. done.
  - left. split; [done|]. eexists. split; [done|]. done.
Qed.

(** The state machine of a table: an operation takes effect exactly on the
    edges of the documented diagram, where it enters the state it names
    ([Resume] the state before the pause) and leaves identity and retry limit
    alone; everywhere else it returns an error and changes nothing. *)
Theorem lifecycle_transition_table (op : lc_op) (tl : TableLifecycle) :
  if edge op (tl_State tl) then
    ∃ tl', run_op op tl = (tl', Ok tt) ∧
      tl_State tl' = default (tl_State tl) (op_target op tl) ∧
      tl_TableID tl' = tl_TableID tl ∧ tl_MaxRetries tl' = tl_MaxRetries tl
  else ∃ e, run_op op tl = (tl, Err e).
Proof.
  destruct (run_op_spec op tl) as [(-> & tl' & ? & ? & _ & _ & ? & ?)|(-> & ?)]; eauto 10.
Qed.

(** ** Runs *)

(** A step either enters a state along an edge or leaves the state alone. *)
Lemma lc_step_inv tl l tl' :
  lc_step tl l tl' →
  (∃ s, lab_entered l = Some s ∧ op_target (lab_op l) tl = Some s ∧ edge (lab_op l) (tl_State tl) = true ∧
     tl_State tl' = s ∧ tl_PreviousState tl' = tl_State tl)
  ∨ (lab_entered l = None ∧ tl_State tl' = tl_State tl ∧ tl_PreviousState tl' = tl_PreviousState tl).
Proof.
  destruct l as [op r en]. unfold lc_step. cbn [lab_op lab_result lab_entered]. intros [Hr ->].
  destruct (run_op_spec op tl) as [(He & tl1 & H1 & Hs & Hp & _)|(He & e & H1)];
    rewrite H1 in Hr; simplify_eq; cbn [is_ok].
  - destruct (op_target op tl) as [s|]; cbn in *; [left|right]; eauto.
    exists s. by rewrite Hs.
  - right. eauto.
Qed.

Lemma lc_step_retry tl l tl' :
  lc_step tl l tl' →
  tl_MaxRetries tl' = tl_MaxRetries tl ∧
  tl_RetryCount tl' = (if is_reset l then i64 (tl_RetryCount tl + 1) else tl_RetryCount tl).
Proof.
  destruct l as [op r en]. intros [Hr _]. cbn [lab_op lab_result] in Hr.
  destruct (run_op_spec op tl) as [(He & tl1 & H1 & _ & _ & Hc & Hm & _)|(He & e & H1)];
    rewrite H1 in Hr; simplify_eq; unfold is_reset; [|by destruct op].
  split; [done|]. by destruct op.
Qed.

(** What the run has to have been through in each state. *)
Definition through_snapshot (tr b : list TableState) : Prop :=
  (∃ a, tr = a ++ [TableStateSnapshotting; TableStateCatchingUp] ++ b) ∧
  Forall (λ s, s ∈ [TableStateCatchingUp; TableStateStreaming; TableStatePaused]) b.

Definition lc_trace_inv (tr : list TableState) (st prev : TableState) : Prop :=
  match st with
  | TableStatePending | TableStateError => True
  | TableStateSnapshotting => ∃ a, tr = a ++ [TableStateSnapshotting]
  | TableStateCatchingUp => ∃ b, through_snapshot tr b
  | TableStateStreaming => ∃ b, through_snapshot tr b ∧ TableStateStreaming ∈ b
  | TableStatePaused =>
      ∃ b, through_snapshot tr b ∧
        (prev = TableStateCatchingUp ∨ prev = TableStateStreaming ∧ TableStateStreaming ∈ b)
  | TableStateRaw _ => False
  end.

Lemma through_snapshot_snoc tr b s :
  through_snapshot tr b →
  s ∈ [TableStateCatchingUp; TableStateStreaming; TableStatePaused] →
  through_snapshot (tr ++ [s]) (b ++ [s]).
Proof.
  intros [[a ->] Hb] Hs. split; [|by apply Forall_snoc].
  exists a. by rewrite <- !app_assoc.
Qed.

Lemma through_snapshot_enter tr :
  (∃ a, tr = a ++ [TableStateSnapshotting]) →
  through_snapshot (tr ++ [TableStateCatchingUp]) [].
Proof. intros [a ->]. split; [|constructor]. exists a. by rewrite <- !app_assoc. Qed.

(** Entering a state of the replay phase extends the trace. *)
Lemma lc_trace_replay tr b s :
  through_snapshot tr b →
  s ∈ [TableStateCatchingUp; TableStateStreaming; TableStatePaused] →
  through_snapshot (tr ++ [s]) (b ++ [s]) ∧ s ∈ b ++ [s].
Proof.
  intros. split; [by apply through_snapshot_snoc|]. apply elem_of_app. right. by apply list_elem_of_singleton.
Qed.

Lemma lc_trace_pause tr st prev :
  lc_trace_inv tr st prev → st = TableStateCatchingUp ∨ st = TableStateStreaming →
  lc_trace_inv (tr ++ [TableStatePaused]) TableStatePaused st.
Proof.
  intros Hinv [->| ->].
  - destruct Hinv as [b Hb]. exists (b ++ [TableStatePaused]).
    split; [apply lc_trace_replay; [done|set_solver]|by left].
  - destruct Hinv as (b & Hb & Hin). exists (b ++ [TableStatePaused]).
    split; [apply lc_trace_replay; [done|set_solver]|]. right. split; [done|]. apply elem_of_app. by left.
Qed.

Lemma lc_trace_step tl op s tr :
  lc_trace_inv tr (tl_State tl) (tl_PreviousState tl) →
  op_target op tl = Some s → edge op (tl_State tl) = true →
  lc_trace_inv (tr ++ [s]) s (tl_State tl).
Proof.
  intros Hinv Ht He.
  destruct op as [now s' pos|now msg|now pos|now|now|pos|p]; cbn in Ht; simplify_eq; try done.
  - destruct s; cbn in He; try done; apply bool_decide_eq_true_1 in He; cbn [lc_trace_inv].
    + eauto.
    + destruct He as [He|He]; rewrite He in Hinv; cbn in Hinv.
      * exists []. by apply through_snapshot_enter.
      * destruct Hinv as [b Hb]. exists (b ++ [TableStateCatchingUp]).
        apply lc_trace_replay; [done|set_solver].
    + rewrite He in Hinv. destruct Hinv as [b Hb]. exists (b ++ [TableStateStreaming]).
      apply lc_trace_replay; [done|set_solver].
    + by eapply lc_trace_pause.
  - cbn in He. apply bool_decide_eq_true_1 in He. by eapply lc_trace_pause.
  - cbn in He. apply bool_decide_eq_true_1 in He. rewrite He in Hinv.
    destruct Hinv as (b & Hb & [->|[-> Hin]]).
    + exists (b ++ [TableStateCatchingUp]). apply lc_trace_replay; [done|set_solver].
    + exists (b ++ [TableStateStreaming]). apply lc_trace_replay; [done|set_solver].
Qed.

Lemma lc_trace_invariant now id ls tl' :
  runs lc_step (NewTableLifecycle now id) ls tl' →
  lc_trace_inv (entered ls) (tl_State tl') (tl_PreviousState tl').
Proof.
  revert tl'. induction ls as [|l ls IH] using rev_ind; intros tl' H.
  - inversion H; subst. done.
  - apply runs_snoc_inv in H as (tl & Hruns & Hstep). specialize (IH _ Hruns).
    unfold entered. rewrite omap_app. cbn [omap list_omap].
    destruct (lc_step_inv _ _ _ Hstep) as [(s & -> & Ht & He & Hs & Hp)|(-> & -> & ->)].
    + rewrite Hs, Hp. by eapply lc_trace_step.
    + by rewrite app_nil_r.
Qed.

(** C1. No operation sequence skips the initial load: when a table is
    streaming, the states it has entered end in snapshotting, catching_up and
    then only catching_up, paused and streaming, so that since its last reset
    it has been snapshotted, has caught up, and has had no error; the state is
    always one of the six named ones. *)
Theorem streaming_only_after_snapshot (now : time) (id : TableID) (ls : list lc_label) (tl : TableLifecycle)
    (Hrun : runs lc_step (NewTableLifecycle now id) ls tl) :
  (∀ s, tl_State tl ≠ TableStateRaw s) ∧
  (tl_State tl = TableStateStreaming →
   ∃ a b, entered ls = a ++ [TableStateSnapshotting; TableStateCatchingUp] ++ b ∧
     TableStateStreaming ∈ b ∧
     Forall (λ s, s ∈ [TableStateCatchingUp; TableStateStreaming; TableStatePaused]) b).
Proof.
  apply lc_trace_invariant in Hrun. split.
  - intros s Hs. by rewrite Hs in Hrun.
  - intros Hs. rewrite Hs in Hrun. destruct Hrun as (b & [[a Ha] Hall] & Hin). eauto.
Qed.

(** A paused table always resumes where it was: in every reachable paused
    state [Resume] succeeds and returns to catching_up or streaming, and a
    pause followed by a resume restores the state. *)
Theorem pause_resume (now now' now'' : time) (id : TableID) (ls : list lc_label) (tl : TableLifecycle)
    (Hrun : runs lc_step (NewTableLifecycle now id) ls tl) :
  (tl_State tl = TableStatePaused →
   ∃ tl', Resume now' tl = (tl', Ok tt) ∧
     (tl_State tl' = TableStateCatchingUp ∨ tl_State tl' = TableStateStreaming)) ∧
  (∀ tl1, Pause now' tl = (tl1, Ok tt) →
   ∃ tl2, Resume now'' tl1 = (tl2, Ok tt) ∧ tl_State tl2 = tl_State tl ∧
     tl_StreamPosition tl2 = tl_StreamPosition tl ∧ tl_SnapshotPosition tl2 = tl_SnapshotPosition tl).
Proof.
  apply lc_trace_invariant in Hrun. split.
  - intros Hs. rewrite Hs in Hrun. unfold Resume. rewrite bool_decide_eq_false_2 by (rewrite Hs; tauto).
    eexists. split; [done|]. cbn. destruct Hrun as (b & _ & [?|[? _]]); auto.
  - intros tl1. unfold Pause. case_bool_decide; intros; simplify_eq. by eexists.
Qed.

Lemma retry_count_runs tl ls tl' :
  runs lc_step tl ls tl' →
  tl_MaxRetries tl' = tl_MaxRetries tl ∧
  (min_int64 <= tl_RetryCount tl <= max_int64 →
   tl_RetryCount tl' = i64 (tl_RetryCount tl + zlen (List.filter is_reset ls))).
Proof.
  induction 1 as [|tl l tl1 ls tl' Hstep Hruns [IHm IHc]].
  - split; [done|]. intros H. unfold zlen. cbn. rewrite Z.add_0_r. by rewrite i64_small.
  - destruct (lc_step_retry _ _ _ Hstep) as [Hm Hc]. split; [congruence|]. intros Hr.
    cbn [List.filter]. rewrite Hc in IHc. destruct (is_reset l).
    + rewrite IHc by apply i64_range. unfold zlen. cbn [length].
      rewrite i64_add_l. f_equal. lia.
    + by apply IHc.
Qed.

Definition reset_cycle : list lc_label :=
  [mkLabel (OpSetError 0 "snapshot failed") (Ok tt) (Some TableStateError);
   mkLabel (OpReset 0 None) (Ok tt) (Some TableStatePending)].

Lemma reset_cycle_run tl :
  ∃ tl', runs lc_step tl reset_cycle tl' ∧ tl_State tl' = TableStatePending.
Proof.
  eexists. split; [|shelve]. eapply runs_cons; [split; reflexivity|].
  eapply runs_cons; [split; reflexivity|]. constructor.
  Unshelve. reflexivity.
Qed.

Lemma reset_cycles_run n : ∀ tl, ∃ ls tl', runs lc_step tl ls tl' ∧
  length (List.filter is_reset ls) = n.
Proof.
  induction n as [|n IH]; intros tl; [by exists [], tl; split; [constructor|]|].
  destruct (reset_cycle_run tl) as (tl1 & H1 & _). destruct (IH tl1) as (ls & tl' & H2 & Hf).
  exists (reset_cycle ++ ls), tl'. split; [by eapply runs_app|].
  rewrite List.filter_app, length_app, Hf. done.
Qed.

(** [RetryCount] counts the successful resets of a table, as a 64-bit
    integer, and [MaxRetries] stays 3; nothing compares the two, so that a
    table is reset any number of times. *)
Theorem retry_count_is_resets (now : time) (id : TableID) :
  (∀ ls tl, runs lc_step (NewTableLifecycle now id) ls tl →
     tl_RetryCount tl = i64 (zlen (List.filter is_reset ls)) ∧ tl_MaxRetries tl = 3) ∧
  (∀ n : nat, Z.of_nat n <= max_int64 →
     ∃ ls tl, runs lc_step (NewTableLifecycle now id) ls tl ∧ tl_RetryCount tl = Z.of_nat n).
Proof.
  split.
  - intros ls tl H. apply retry_count_runs in H as [Hm Hc]. split; [|done].
    apply Hc. vm_compute. by split.
  - intros n Hn. destruct (reset_cycles_run n (NewTableLifecycle now id)) as (ls & tl & H & Hf).
    exists ls, tl. split; [done|]. apply retry_count_runs in H as [_ Hc].
    rewrite Hc by (vm_compute; by split). unfold zlen. rewrite Hf. cbn [NewTableLifecycle tl_RetryCount].
    rewrite Z.add_0_l. apply i64_small. unfold min_int64. lia.
Qed.

(** ** The earliest position *)

Definition commit_le (p q : Position) : Prop := pos_CommitTime p <= pos_CommitTime q.

Lemma commit_le_trans p q r : commit_le p q → commit_le q r → commit_le p r.
Proof. unfold commit_le. lia. Qed.

Lemma min_step_spec acc tl :
  match min_step acc tl with
  | None => acc = None ∧ effectivePosition tl = None
  | Some m =>
      (acc = Some m ∨ effectivePosition tl = Some m) ∧
      (∀ p, acc = Some p ∨ effectivePosition tl = Some p → commit_le m p)
  end.
Proof.
  unfold min_step, commit_le, time_Before. destruct (effectivePosition tl) as [p|], acc as [q|]; try done.
  - destruct (Z.ltb_spec (pos_CommitTime p) (pos_CommitTime q)); naive_solver lia.
  - naive_solver lia.
  - naive_solver lia.
Qed.

Lemma min_fold_spec tables : ∀ acc,
  match foldl min_step acc tables with
  | None => acc = None ∧ Forall (λ tl, effectivePosition tl = None) tables
  | Some m =>
      (acc = Some m ∨ ∃ tl, tl ∈ tables ∧ effectivePosition tl = Some m) ∧
      (∀ p, acc = Some p ∨ (∃ tl, tl ∈ tables ∧ effectivePosition tl = Some p) → commit_le m p)
  end.
Proof.
  induction tables as [|tl tables IH]; intros acc; cbn [foldl].
  - destruct acc; [|done]. unfold commit_le. split; [by left|].
    intros p' [[= ->]|(tl & Hin & _)]; [lia|]. by apply not_elem_of_nil in Hin.
  - specialize (IH (min_step acc tl)). pose proof (min_step_spec acc tl) as Hs.
    destruct (foldl min_step (min_step acc tl) tables) as [m|].
    + destruct IH as [Hfrom Hmin]. setoid_rewrite elem_of_cons.
      destruct (min_step acc tl) as [q|]; [|naive_solver]. destruct Hs as [Hq Hqmin].
      assert (commit_le m q) by auto. split; [naive_solver|].
      intros p [Hp|(tl' & [->|Hin] & Hp)]; [eauto using commit_le_trans..|]. eauto.
    + destruct IH as [Ha Hall]. rewrite Ha in Hs. destruct Hs. by split; [|constructor].
Qed.

(** [ComputeGlobalMinPosition] is the minimum by commit time of the
    effective positions: it is the effective position of one of the tables, no
    table's effective position commits earlier, and there is none exactly when
    no table has one.  The commit time does not depend on the order of the
    tables. *)
Theorem global_min_is_minimum (tables tables' : list TableLifecycle) (Hperm : tables ≡ₚ tables') :
  match ComputeGlobalMinPosition tables with
  | None => ∀ tl, tl ∈ tables → effectivePosition tl = None
  | Some m =>
      (∃ tl, tl ∈ tables ∧ effectivePosition tl = Some m ∧ tl_State tl ≠ TableStatePending) ∧
      (∀ tl p, tl ∈ tables → effectivePosition tl = Some p → pos_CommitTime m <= pos_CommitTime p)
  end ∧
  pos_CommitTime <$> ComputeGlobalMinPosition tables =
  pos_CommitTime <$> ComputeGlobalMinPosition tables'.
Proof.
  unfold ComputeGlobalMinPosition.
  pose proof (min_fold_spec tables None) as H1. pose proof (min_fold_spec tables' None) as H2.
  unfold commit_le in *.
  destruct (foldl min_step None tables) as [m|], (foldl min_step None tables') as [m'|]; cbn.
  - destruct H1 as [[?|(tl & Hin & Hm)] Hmin]; [done|]. destruct H2 as [[?|(tl' & Hin' & Hm')] Hmin']; [done|].
    split; [split; [|eauto]|].
    + exists tl. split_and!; [done..|]. intros Hs. unfold effectivePosition in Hm. by rewrite Hs in Hm.
    + assert (pos_CommitTime m <= pos_CommitTime m').
      { apply Hmin. right. exists tl'. by rewrite Hperm. }
      assert (pos_CommitTime m' <= pos_CommitTime m).
      { apply Hmin'. right. exists tl. by rewrite <- Hperm. }
      f_equal. lia.
  - destruct H1 as [[?|(tl & Hin & Hm)] _]; [done|]. destruct H2 as [_ H2].
    rewrite Forall_forall in H2. rewrite Hperm in Hin. by rewrite (H2 _ Hin) in Hm.
  - destruct H2 as [[?|(tl & Hin & Hm)] _]; [done|]. destruct H1 as [_ H1].
    rewrite Forall_forall in H1. rewrite <- Hperm in Hin. by rewrite (H1 _ Hin) in Hm.
  - destruct H1 as [_ H1]. rewrite Forall_forall in H1. eauto.
Qed.

(** ** Concrete runs *)

Module LifecycleRuns.

Definition users : TableID := mkTableID "app" "" "users".
Definition at_time (t : time) : Position :=
  mkPosition "" 0 0 0 0 0 None "" "" t "" 0 0.

Definition to_streaming : list lc_label :=
  [mkLabel (OpTransition 1 TableStateSnapshotting (Some (at_time 5))) (Ok tt) (Some TableStateSnapshotting);
   mkLabel (OpTransition 2 TableStateCatchingUp None) (Ok tt) (Some TableStateCatchingUp);
   mkLabel (OpTransition 3 TableStateStreaming None) (Ok tt) (Some TableStateStreaming)].

Definition streaming_users : TableLifecycle :=
  mkTableLifecycle users TableStateStreaming TableStateCatchingUp (Some (at_time 5)) (Some (at_time 5))
    CatchingUpProgress_zero 0 3 "" 3.

Lemma to_streaming_run : runs lc_step (NewTableLifecycle 0 users) to_streaming streaming_users.
Proof. repeat (eapply runs_cons; [split; reflexivity|]). constructor. Qed.

Lemma streaming_only_after_snapshot_witness :
  ∃ a b, entered to_streaming = a ++ [TableStateSnapshotting; TableStateCatchingUp] ++ b ∧
     TableStateStreaming ∈ b ∧
     Forall (λ s, s ∈ [TableStateCatchingUp; TableStateStreaming; TableStatePaused]) b.
Proof.
  apply (streaming_only_after_snapshot 0 users to_streaming streaming_users to_streaming_run).
  reflexivity.
Defined.

Lemma pause_resume_witness :
  ∃ tl1 tl2, Pause 4 streaming_users = (tl1, Ok tt) ∧ Resume 5 tl1 = (tl2, Ok tt) ∧
    tl_State tl2 = TableStateStreaming.
Proof.
  destruct (pause_resume 0 4 5 users to_streaming streaming_users to_streaming_run) as [_ H].
  destruct (H (set_states TableStateStreaming TableStatePaused 4 streaming_users) eq_refl)
    as (tl2 & H1 & H2 & _).
  eexists _, tl2. split; [reflexivity|]. split; [exact H1|exact H2].
Defined.

Lemma global_min_is_minimum_witness :
  pos_CommitTime <$> ComputeGlobalMinPosition [streaming_users; NewTableLifecycle 0 users] = Some 5.
Proof.
  destruct (global_min_is_minimum [NewTableLifecycle 0 users; streaming_users]
    [streaming_users; NewTableLifecycle 0 users] (Permutation_swap _ _ [])) as [_ <-].
  reflexivity.
Defined.

End LifecycleRuns.
