(* ===== verification/LifecycleStore.v ===== *)
(** The in-memory life-cycle store (internal/source/lifecycle_store.go).

    The store maps task and table to a pointer, [Get] and [List] hand the
    pointers out and their callers mutate the objects in place, so the objects
    live in an explicit heap.  [store_wf] says that the pointers of a store are
    allocated, that an object is filed under its own table, and that no object
    is filed twice; under it the store behaves as a finite map from tables to
    life cycles ([store_view]). *)
From Stdlib Require Import ZArith Lia.
From stdpp Require Import prelude countable gmap strings list fin_maps.
From S2P Require Import Prelude Events TableLifecycle.

Definition loc := nat.

(** [MemoryLifecycleStore] together with the heap its pointers lead to. *)
Record MemoryLifecycleStore := mkStore {
  ms_data : gmap string (gmap TableID loc);
  ms_heap : gmap loc TableLifecycle;
  ms_next : loc
}.

Definition NewMemoryLifecycleStore : MemoryLifecycleStore := mkStore ∅ ∅ 0.

(** ** Objects *)

(** [&TableLifecycle{...}] *)
Definition alloc (lc : TableLifecycle) : ST MemoryLifecycleStore loc := λ s,
  (mkStore (ms_data s) (<[ms_next s := lc]> (ms_heap s)) (S (ms_next s)), Ok (ms_next s)).

Definition deref (l : loc) : ST MemoryLifecycleStore TableLifecycle := λ s,
  match ms_heap s !! l with
  | Some lc => (s, Ok lc)
  | None => (s, Err (Panic "nil pointer dereference"))
  end.

(** A method call [l.m(...)] that mutates the object. *)
Definition call {A} (l : loc) (m : ST TableLifecycle A) : ST MemoryLifecycleStore A := λ s,
  match ms_heap s !! l with
  | Some lc =>
      let '(lc', r) := m lc in (mkStore (ms_data s) (<[l := lc']> (ms_heap s)) (ms_next s), r)
  | None => (s, Err (Panic "nil pointer dereference"))
  end.

(** ** Operations *)

Definition Save (taskID : string) (l : loc) : ST MemoryLifecycleStore unit :=
  lc ← deref l;
  st_modify (λ s,
    let tables := default ∅ (ms_data s !! taskID) in
    mkStore (<[taskID := <[tl_TableID lc := l]> tables]> (ms_data s)) (ms_heap s) (ms_next s)).

Definition Get (taskID : string) (tableID : TableID) : ST MemoryLifecycleStore loc := λ s,
  match ms_data s !! taskID with
  | None => (s, Err (ErrNew ("task " +:+ taskID +:+ " not found")))
  | Some tables =>
      match tables !! tableID with
      | None => (s, Err (ErrNew ("table " +:+ TableID_String tableID +:+ " not found in task " +:+ taskID)))
      | Some l => (s, Ok l)
      end
  end.

Definition DeleteTable (taskID : string) (tableID : TableID) : ST MemoryLifecycleStore unit := λ s,
  match ms_data s !! taskID with
  | None => (s, Ok tt)
  | Some tables =>
      (mkStore (<[taskID := delete tableID tables]> (ms_data s)) (ms_heap s) (ms_next s), Ok tt)
  end.

Section Listing.
Context `{!GoRange TableID loc}.

(** The loops over [tables]: the pointers whose object passes the test. *)
Definition select (f : TableLifecycle → bool) (s : MemoryLifecycleStore) (tables : gmap TableID loc) : list loc :=
  List.filter (λ l, from_option f false (ms_heap s !! l)) (go_range tables).*2.

Definition List_ (taskID : string) : ST MemoryLifecycleStore (list loc) := λ s,
  match ms_data s !! taskID with
  | None => (s, Ok [])
  | Some tables => (s, Ok (go_range tables).*2)
  end.

(** The common body of [ListByState] and [ListBySchema]. *)
Definition list_where (f : TableLifecycle → bool) (taskID : string) : ST MemoryLifecycleStore (list loc) := λ s,
  match ms_data s !! taskID with
  | None => (s, Ok [])
  | Some tables => (s, Ok (select f s tables))
  end.

Definition ListByState (taskID : string) (state : TableState) : ST MemoryLifecycleStore (list loc) :=
  list_where (λ lc, bool_decide (GetState lc = state)) taskID.

Definition ListBySchema (taskID : string) (schema : string) : ST MemoryLifecycleStore (list loc) :=
  list_where (λ lc, bool_decide (Database (tl_TableID lc) = schema)) taskID.
End Listing.

(** ** Specification: a map from tables to life cycles, per task *)

Definition task_tables (s : MemoryLifecycleStore) (taskID : string) : gmap TableID loc :=
  default ∅ (ms_data s !! taskID).

Definition store_view (s : MemoryLifecycleStore) (taskID : string) : gmap TableID TableLifecycle :=
  omap (λ l, ms_heap s !! l) (task_tables s taskID).

Record store_wf (s : MemoryLifecycleStore) : Prop := {
  swf_filed task id l : task_tables s task !! id = Some l →
    ∃ lc, ms_heap s !! l = Some lc ∧ tl_TableID lc = id;
  swf_once t1 id1 t2 id2 l : task_tables s t1 !! id1 = Some l → task_tables s t2 !! id2 = Some l →
    t1 = t2 ∧ id1 = id2;
  swf_fresh l lc : ms_heap s !! l = Some lc → (l < ms_next s)%nat
}.

Lemma NewMemoryLifecycleStore_wf : store_wf NewMemoryLifecycleStore.
Proof. split; cbn; intros *; unfold task_tables; cbn; rewrite ?lookup_empty; done. Qed.

Lemma New_view task : store_view NewMemoryLifecycleStore task = ∅.
Proof.
  unfold store_view, task_tables, NewMemoryLifecycleStore. cbn [ms_data].
  rewrite lookup_empty. apply omap_empty.
Qed.

Lemma view_lookup s task id :
  store_view s task !! id = task_tables s task !! id ≫= λ l, ms_heap s !! l.
Proof. unfold store_view. by rewrite lookup_omap. Qed.

Lemma view_Some s task id l :
  store_wf s → task_tables s task !! id = Some l →
  ∃ lc, ms_heap s !! l = Some lc ∧ store_view s task !! id = Some lc ∧ tl_TableID lc = id.
Proof.
  intros Hwf Hl. destruct (swf_filed _ Hwf _ _ _ Hl) as (lc & Hlc & Hid).
  exists lc. rewrite view_lookup, Hl. done.
Qed.

Lemma view_None s task id :
  store_wf s → store_view s task !! id = None ↔ task_tables s task !! id = None.
Proof.
  intros Hwf. split; intros H.
  - destruct (task_tables s task !! id) as [l|] eqn:E; [|done].
    destruct (view_Some _ _ _ _ Hwf E) as (lc & _ & Hv & _). congruence.
  - by rewrite view_lookup, H.
Qed.

(** *** Refinement lemmas *)

Lemma Get_spec s task id :
  store_wf s →
  match store_view s task !! id with
  | Some lc => ∃ l, Get task id s = (s, Ok l) ∧ task_tables s task !! id = Some l ∧ ms_heap s !! l = Some lc
  | None => ∃ e, Get task id s = (s, Err (ErrNew e))
  end.
Proof.
  intros Hwf. unfold Get.
  destruct (store_view s task !! id) as [lc|] eqn:Ev.
  - rewrite view_lookup in Ev. unfold task_tables in *.
    destruct (ms_data s !! task) as [tables|]; cbn in *; [|by rewrite lookup_empty in Ev].
    destruct (tables !! id) as [l|]; simplify_eq/=. eauto.
  - apply view_None in Ev; [|done]. unfold task_tables in Ev.
    destruct (ms_data s !! task) as [tables|]; cbn in *; [rewrite Ev|]; eauto.
Qed.

(** Mutating an object changes the one entry it is filed under. *)
Definition update_obj (l : loc) (lc : TableLifecycle) (s : MemoryLifecycleStore) : MemoryLifecycleStore :=
  mkStore (ms_data s) (<[l := lc]> (ms_heap s)) (ms_next s).

Lemma update_obj_spec s task id l lc lc' :
  store_wf s → task_tables s task !! id = Some l → ms_heap s !! l = Some lc → tl_TableID lc' = id →
  store_wf (update_obj l lc' s) ∧
  ∀ t, store_view (update_obj l lc' s) t =
       if decide (t = task) then <[id := lc']> (store_view s t) else store_view s t.
Proof.
  intros Hwf Hl Hlc Hid. split.
  - split.
    + intros t i l' Hl'. change (task_tables s t !! i = Some l') in Hl'. cbn.
      destruct (decide (l' = l)) as [->|Hne].
      * destruct (swf_once _ Hwf _ _ _ _ _ Hl Hl') as [-> ->]. rewrite lookup_insert_eq. eauto.
      * rewrite lookup_insert_ne by done. by apply (swf_filed _ Hwf t).
    + apply (swf_once _ Hwf).
    + intros l' lc'' Hl'. cbn in *. apply lookup_insert_Some in Hl' as [[<- _]|[_ Hl']];
        by eapply swf_fresh.
  - intros t. apply map_eq. intros i. rewrite view_lookup.
    change (task_tables (update_obj l lc' s)) with (task_tables s). cbn.
    destruct (task_tables s t !! i) as [l'|] eqn:Et; cbn.
    + destruct (decide (l' = l)) as [->|Hne].
      * destruct (swf_once _ Hwf _ _ _ _ _ Hl Et) as [<- <-].
        rewrite decide_True by done. by rewrite !lookup_insert_eq.
      * rewrite lookup_insert_ne by done.
        destruct (decide (t = task)) as [->|]; [|by rewrite view_lookup, Et].
        rewrite lookup_insert_ne by congruence. by rewrite view_lookup, Et.
    + destruct (decide (t = task)) as [->|]; [|by rewrite view_lookup, Et].
      rewrite lookup_insert_ne by congruence. by rewrite view_lookup, Et.
Qed.

Lemma call_spec {A} s l lc (m : ST TableLifecycle A) lc' r :
  ms_heap s !! l = Some lc → m lc = (lc', r) → call l m s = (update_obj l lc' s, r).
Proof. intros Hl Hm. unfold call. by rewrite Hl, Hm. Qed.

(** Saving an object that is already filed changes nothing. *)
Lemma Save_filed s task id l :
  store_wf s → task_tables s task !! id = Some l → Save task l s = (s, Ok tt).
Proof.
  intros Hwf Hl. destruct (swf_filed _ Hwf _ _ _ Hl) as (lc & Hlc & Hid).
  unfold Save, mbind, ST_bind, deref. rewrite Hlc, Hid. unfold st_modify.
  unfold task_tables in Hl. destruct (ms_data s !! task) as [tables|] eqn:E; cbn in Hl |- *;
    [|by rewrite lookup_empty in Hl].
  rewrite (insert_id tables), (insert_id (ms_data s)) by done. by destruct s.
Qed.

(** Filing a newly allocated object: the entry of its table is replaced. *)
Lemma alloc_Save_spec s task lc :
  store_wf s →
  ∃ s', (alloc lc ≫= Save task) s = (s', Ok tt) ∧ store_wf s' ∧
    ∀ t, store_view s' t =
         if decide (t = task) then <[tl_TableID lc := lc]> (store_view s t) else store_view s t.
Proof.
  intros Hwf. unfold mbind, ST_bind, alloc, Save, deref, st_modify, mbind, ST_bind.
  cbn [ms_heap ms_data ms_next]. rewrite lookup_insert_eq. cbn [ms_heap ms_data ms_next]. eexists. split; [done|].
  assert (Hold : ∀ t i l', task_tables s t !! i = Some l' → (l' < ms_next s)%nat).
  { intros t i l' H. destruct (swf_filed _ Hwf _ _ _ H) as (? & Hh & _). by eapply swf_fresh. }
  assert (Htt : ∀ t, task_tables (mkStore (<[task := <[tl_TableID lc := ms_next s]>
      (default ∅ (ms_data s !! task))]> (ms_data s)) (<[ms_next s := lc]> (ms_heap s)) (S (ms_next s))) t
    = if decide (t = task) then <[tl_TableID lc := ms_next s]> (task_tables s t) else task_tables s t).
  { intros t. unfold task_tables. cbn. destruct (decide (t = task)) as [->|].
    - by rewrite lookup_insert_eq.
    - by rewrite lookup_insert_ne. }
  assert (Hin : ∀ t i l', (if decide (t = task) then <[tl_TableID lc := ms_next s]> (task_tables s t)
      else task_tables s t) !! i = Some l' →
      t = task ∧ i = tl_TableID lc ∧ l' = ms_next s ∨ task_tables s t !! i = Some l').
  { intros t i l'. destruct (decide (t = task)); [|by right].
    intros [(? & ?)|(? & ?)]%lookup_insert_Some; [by left|by right]. }
  split.
  - split.
    + intros t i l'. rewrite Htt. intros [(-> & -> & ->)|Hl']%Hin; cbn.
      * rewrite lookup_insert_eq. eauto.
      * rewrite lookup_insert_ne by (apply Hold in Hl'; lia). by apply (swf_filed _ Hwf t).
    + intros t1 i1 t2 i2 l'. rewrite !Htt. intros [(-> & -> & ->)|H1]%Hin [(-> & -> & E)|H2]%Hin; try done.
      * apply Hold in H2. lia.
      * apply Hold in H1. lia.
      * by eapply swf_once.
    + intros l' lc'. cbn. intros [[<- _]|[_ Hl']]%lookup_insert_Some; [lia|].
      apply (swf_fresh _ Hwf) in Hl'. lia.
  - intros t. apply map_eq. intros i. rewrite view_lookup, Htt. cbn.
    assert (Hv : (task_tables s t !! i ≫= λ l, <[ms_next s := lc]> (ms_heap s) !! l) = store_view s t !! i).
    { rewrite view_lookup. destruct (task_tables s t !! i) as [l'|] eqn:E; cbn; [|done].
      apply Hold in E. by rewrite lookup_insert_ne by lia. }
    destruct (decide (t = task)) as [->|]; [|done].
    destruct (decide (i = tl_TableID lc)) as [->|].
    + rewrite !lookup_insert_eq. cbn. by rewrite lookup_insert_eq.
    + by rewrite !lookup_insert_ne by congruence.
Qed.

(** *** Listing *)

Section ListingSpec.
Context `{!GoRange TableID loc}.

(** [ids] and [ls] are the tables and objects of a task that pass a test, each
    exactly once. *)
Definition lists_exactly (s : MemoryLifecycleStore) (task : string) (f : TableLifecycle → bool)
    (ids : list TableID) (ls : list loc) : Prop :=
  NoDup ids ∧
  Forall2 (λ id l, task_tables s task !! id = Some l) ids ls ∧
  (∀ id, id ∈ ids ↔ ∃ lc, store_view s task !! id = Some lc ∧ f lc = true).

Lemma select_spec s task f :
  store_wf s → ∃ ids, lists_exactly s task f ids (select f s (task_tables s task)).
Proof.
  intros Hwf. set (p := λ kl : TableID * loc, from_option f false (ms_heap s !! kl.2)).
  set (kls := List.filter p (go_range (task_tables s task))).
  assert (Hin : ∀ k l, (k, l) ∈ kls ↔ task_tables s task !! k = Some l ∧ from_option f false (ms_heap s !! l) = true).
  { intros k l. subst kls. rewrite list_elem_of_In, filter_In, <- list_elem_of_In, go_range_lookup. done. }
  exists kls.*1. split_and!.
  - subst kls p. pose proof (go_range_NoDup (task_tables s task)) as Hnd. revert Hnd.
    generalize (go_range (task_tables s task)). intros l. induction l as [|[k x] l IH]; cbn; [constructor|].
    intros [Hk Hl]%NoDup_cons. destruct (from_option f false (ms_heap s !! x)); cbn; [|auto].
    apply NoDup_cons. split; [|auto]. intros Hk'. apply Hk.
    apply list_elem_of_fmap in Hk' as ([k' x'] & -> & Hk'). apply list_elem_of_fmap. exists (k', x').
    split; [done|]. rewrite list_elem_of_In, filter_In in Hk'. apply list_elem_of_In. tauto.
  - replace (select f s (task_tables s task)) with kls.*2.
    + apply Forall2_fmap. apply Forall_Forall2_diag. apply Forall_forall. intros [k l] Hkl.
      by apply Hin in Hkl as [? _].
    + subst kls p. unfold select. generalize (go_range (task_tables s task)). intros l.
      induction l as [|[k x] l IH]; cbn; [done|].
      destruct (from_option f false (ms_heap s !! x)); cbn; congruence.
  - intros id. rewrite list_elem_of_fmap. split.
    + intros ([k l] & -> & [Hl Hf]%Hin). destruct (view_Some _ _ _ _ Hwf Hl) as (lc & Hh & Hv & _).
      exists lc. rewrite Hh in Hf. done.
    + intros (lc & Hv & Hf). rewrite view_lookup in Hv.
      destruct (task_tables s task !! id) as [l|] eqn:E; cbn in Hv; [|done].
      exists (id, l). split; [done|]. apply Hin. by rewrite Hv.
Qed.

Lemma list_where_spec s task f :
  store_wf s → ∃ ids ls, list_where f task s = (s, Ok ls) ∧ lists_exactly s task f ids ls.
Proof.
  intros Hwf. unfold list_where. destruct (select_spec s task f Hwf) as [ids Hids].
  destruct (ms_data s !! task) as [tables|] eqn:E.
  - exists ids. eexists. split; [done|]. unfold task_tables in Hids at 1. by rewrite E in Hids.
  - exists [], []. split_and!; [done|]. split_and!; [constructor|constructor|].
    intros id. unfold store_view, task_tables. rewrite E. cbn. rewrite omap_empty.
    setoid_rewrite lookup_empty. set_solver.
Qed.

(** The objects behind the pointers of a map are the values of its image. *)
Lemma objects_of_map (h : gmap loc TableLifecycle) (tables : gmap TableID loc) (ls : list loc) :
  (∀ id l, tables !! id = Some l → is_Some (h !! l)) → ls ≡ₚ (map_to_list tables).*2 →
  ∃ lcs, Forall2 (λ l lc, h !! l = Some lc) ls lcs ∧
    lcs ≡ₚ (map_to_list (omap (λ l, h !! l) tables)).*2.
Proof.
  revert ls. induction tables as [|id l m Hid IH] using map_ind; intros ls Ht Hls.
  - rewrite map_to_list_empty in Hls. apply Permutation_nil_r in Hls as ->.
    exists []. rewrite omap_empty, map_to_list_empty. split; constructor.
  - destruct (IH (map_to_list m).*2) as (lcs & Hlcs & Hp); [|done|].
    { intros id' l' H'. apply (Ht id'). rewrite lookup_insert_ne; congruence. }
    destruct (Ht id l) as [lc Hlc]; [by rewrite lookup_insert_eq|].
    rewrite map_to_list_insert in Hls by done.
    destruct (Permutation_Forall2 (P := λ l lc, h !! l = Some lc) (symmetry Hls) (l2 := lc :: lcs))
      as (lcs' & Hp' & Hlcs'); [by constructor|].
    exists lcs'. split; [done|]. rewrite <- Hp', Hp.
    rewrite (omap_insert_Some _ m id l lc) by done.
    rewrite map_to_list_insert; [done|]. by rewrite lookup_omap, Hid.
Qed.

Lemma List_spec s task :
  store_wf s → ∃ ls lcs, List_ task s = (s, Ok ls) ∧
    Forall2 (λ l lc, ms_heap s !! l = Some lc) ls lcs ∧ lcs ≡ₚ (map_to_list (store_view s task)).*2.
Proof.
  intros Hwf. destruct (objects_of_map (ms_heap s) (task_tables s task) (go_range (task_tables s task)).*2)
    as (lcs & Hlcs & Hp).
  - intros id l Hl. destruct (swf_filed _ Hwf _ _ _ Hl) as (lc & ? & _). eauto.
  - by rewrite go_range_perm.
  - unfold List_, store_view, task_tables in *. destruct (ms_data s !! task) as [tables|]; [eauto|].
    exists [], []. split_and!; [done|constructor|]. cbn. by rewrite omap_empty, map_to_list_empty.
Qed.
End ListingSpec.
