(* ===== verification/Scheduler.v ===== *)
(** The snapshot scheduler (internal/lifecycle/snapshot_scheduler.go): the
    operations that move tables through their life cycle.

    The scheduler works on a life-cycle store, whose objects it mutates through
    the pointers [Get] returns, and on a cache backend, of which it only uses
    [Delete].  [spec_op] describes the operations on the map from tables to
    life cycles; [scheduler_refines] shows that the code implements it. *)
From Stdlib Require Import ZArith Lia.
From stdpp Require Import prelude countable gmap strings list fin_maps.
From S2P Require Import Prelude Events CacheLog TableLifecycle LifecycleStore.

Section Scheduler.
Context {C : Type} `{!BinlogCacheBackend C} `{!GoRange TableID loc}.

(** The scheduler's fields: the store, the cache and the task it serves. *)
Record SnapshotScheduler := mkScheduler {
  ss_store : MemoryLifecycleStore;
  ss_cache : C;
  ss_taskID : string
}.

Definition on_store {A} (m : ST MemoryLifecycleStore A) : ST SnapshotScheduler A := λ s,
  let '(st, r) := m (ss_store s) in (mkScheduler st (ss_cache s) (ss_taskID s), r).

Definition on_cache {A} (m : ST C A) : ST SnapshotScheduler A := λ s,
  let '(c, r) := m (ss_cache s) in (mkScheduler (ss_store s) c (ss_taskID s), r).

Definition AddTable (now : time) (tableID : TableID) (snapshotPos : option Position) :
    ST SnapshotScheduler unit :=
  s ← st_get;
  on_store (alloc (set_SnapshotPosition snapshotPos (NewTableLifecycle now tableID))
              ≫= Save (ss_taskID s)).

(** [lc, err := s.store.Get(...)] with the error wrapped. *)
Definition get_table (tableID : TableID) : ST SnapshotScheduler loc :=
  s ← st_get;
  st_wrap ("get table " +:+ TableID_String tableID) (on_store (Get (ss_taskID s) tableID)).

Definition save_table (l : loc) : ST SnapshotScheduler unit :=
  s ← st_get; on_store (Save (ss_taskID s) l).

Definition OnSnapshotComplete (now : time) (tableID : TableID) : ST SnapshotScheduler unit :=
  lc ← get_table tableID;
  st_wrap ("transition " +:+ TableID_String tableID +:+ " to catching_up")
    (on_store (call lc (TransitionTo now TableStateCatchingUp None))) ≫= λ _,
  save_table lc.

Definition OnSnapshotError (now : time) (tableID : TableID) (errMsg : string) : ST SnapshotScheduler unit :=
  lc ← get_table tableID;
  on_store (call lc (st_modify (SetError now errMsg))) ≫= λ _,
  save_table lc.

Definition delete_cache (tableID : TableID) : ST SnapshotScheduler unit :=
  st_wrap ("delete cache for " +:+ TableID_String tableID) (on_cache (cache_Delete (TableID_String tableID))).

Definition OnCaughtUp (now : time) (tableID : TableID) : ST SnapshotScheduler unit :=
  lc ← get_table tableID;
  st_wrap ("transition " +:+ TableID_String tableID +:+ " to streaming")
    (on_store (call lc (TransitionTo now TableStateStreaming None))) ≫= λ _,
  st_wrap ("save table " +:+ TableID_String tableID) (save_table lc) ≫= λ _,
  delete_cache tableID.

(** The part [RestartTable] and [RestartSchema] share: set an error unless the
    table is in one, reset, save and drop the cached events. *)
Definition restart_object (now : time) (lc : loc) (tableID : TableID) (state : TableState)
    (newPos : option Position) : ST SnapshotScheduler unit :=
  (if bool_decide (state ≠ TableStateError)
   then on_store (call lc (st_modify (SetError now "restart requested"))) else mret tt) ≫= λ _,
  st_wrap ("reset table " +:+ TableID_String tableID +:+ " to pending")
    (on_store (call lc (ResetToPending now newPos))) ≫= λ _,
  st_wrap ("save table " +:+ TableID_String tableID) (save_table lc) ≫= λ _,
  delete_cache tableID.

Definition RestartTable (now : time) (tableID : TableID) (newPos : option Position) (force : bool) :
    ST SnapshotScheduler unit :=
  lc ← get_table tableID;
  obj ← on_store (deref lc);
  let state := GetState obj in
  if negb force && bool_decide (state = TableStateStreaming)
  then st_fail (ErrNew ("table " +:+ TableID_String tableID +:+ " is streaming, use force=true to restart"))
  else restart_object now lc tableID state newPos.

(** The loop of [RestartSchema]: the tables restarted so far, and the error
    that stopped it.  Go returns both. *)
Fixpoint restart_all (now : time) (newPos : option Position) (force : bool) (tables : list loc)
    (restarted : list TableID) : ST SnapshotScheduler (list TableID * option goerror) :=
  match tables with
  | [] => mret (restarted, None)
  | lc :: tables =>
      obj ← on_store (deref lc);
      let tableID := tl_TableID obj in
      let state := GetState obj in
      if negb force && bool_decide (state = TableStateStreaming)
      then restart_all now newPos force tables restarted
      else
        r ← st_try (restart_object now lc tableID state newPos);
        match r with
        | Ok _ => restart_all now newPos force tables (restarted ++ [tableID])
        | Err e => mret (restarted, Some e)
        end
  end.

Definition RestartSchema (now : time) (schema : string) (newPos : option Position) (force : bool) :
    ST SnapshotScheduler (list TableID * option goerror) :=
  s ← st_get;
  tables ← st_wrap ("list tables by schema " +:+ schema) (on_store (ListBySchema (ss_taskID s) schema));
  restart_all now newPos force tables [].

Definition PauseTable (now : time) (tableID : TableID) : ST SnapshotScheduler unit :=
  lc ← get_table tableID;
  st_wrap ("pause table " +:+ TableID_String tableID) (on_store (call lc (Pause now))) ≫= λ _,
  save_table lc.

Definition ResumeTable (now : time) (tableID : TableID) : ST SnapshotScheduler unit :=
  lc ← get_table tableID;
  st_wrap ("resume table " +:+ TableID_String tableID) (on_store (call lc (Resume now))) ≫= λ _,
  save_table lc.

(** [ComputeGlobalMinPosition] over the objects; a nil pointer among them would
    be a panic. *)
Definition GetGlobalMinPosition : ST SnapshotScheduler (option Position) :=
  s ← st_get;
  tables ← on_store (List_ (ss_taskID s));
  match mapM (λ l, ms_heap (ss_store s) !! l) tables with
  | Some lcs => mret (ComputeGlobalMinPosition lcs)
  | None => st_fail (Panic "nil pointer dereference")
  end.

Definition ListErrors : ST SnapshotScheduler (list loc) :=
  s ← st_get; on_store (ListByState (ss_taskID s) TableStateError).

(** ** Specification *)

Inductive sched_op :=
  | SAdd (now : time) (id : TableID) (pos : option Position)
  | SSnapshotComplete (now : time) (id : TableID)
  | SSnapshotError (now : time) (id : TableID) (msg : string)
  | SCaughtUp (now : time) (id : TableID)
  | SRestart (now : time) (id : TableID) (pos : option Position) (force : bool)
  | SPause (now : time) (id : TableID)
  | SResume (now : time) (id : TableID).

Definition run_sched (op : sched_op) : ST SnapshotScheduler unit :=
  match op with
  | SAdd now id pos => AddTable now id pos
  | SSnapshotComplete now id => OnSnapshotComplete now id
  | SSnapshotError now id msg => OnSnapshotError now id msg
  | SCaughtUp now id => OnCaughtUp now id
  | SRestart now id pos force => RestartTable now id pos force
  | SPause now id => PauseTable now id
  | SResume now id => ResumeTable now id
  end.

(** The life cycle an operation leaves behind, [None] when it is rejected. *)
Definition restarted_as (now : time) (pos : option Position) (lc : TableLifecycle) : TableLifecycle :=
  let lc := if bool_decide (GetState lc ≠ TableStateError) then SetError now "restart requested" lc else lc in
  (ResetToPending now pos lc).1.

Definition accepted {A} (r : TableLifecycle * result A) : option TableLifecycle :=
  match r with (lc, Ok _) => Some lc | (_, Err _) => None end.

Definition spec_table (op : sched_op) (cur : option TableLifecycle) : option TableLifecycle :=
  match op with
  | SAdd now id pos => Some (set_SnapshotPosition pos (NewTableLifecycle now id))
  | SSnapshotComplete now _ => cur ≫= λ lc, accepted (TransitionTo now TableStateCatchingUp None lc)
  | SSnapshotError now _ msg => SetError now msg <$> cur
  | SCaughtUp now _ => cur ≫= λ lc, accepted (TransitionTo now TableStateStreaming None lc)
  | SRestart now _ pos force =>
      cur ≫= λ lc, if negb force && bool_decide (GetState lc = TableStateStreaming)
                   then None else Some (restarted_as now pos lc)
  | SPause now _ => cur ≫= λ lc, accepted (Pause now lc)
  | SResume now _ => cur ≫= λ lc, accepted (Resume now lc)
  end.

Definition op_table (op : sched_op) : TableID :=
  match op with
  | SAdd _ id _ | SSnapshotComplete _ id | SSnapshotError _ id _ | SCaughtUp _ id
  | SRestart _ id _ _ | SPause _ id | SResume _ id => id
  end.

(** The operations that end with the deletion of the table's cached events. *)
Definition drops_cache (op : sched_op) : bool :=
  match op with SCaughtUp _ _ | SRestart _ _ _ _ => true | _ => false end.

(** The map of tables after the operation, and whether it was accepted. *)
Definition spec_op (op : sched_op) (m : gmap TableID TableLifecycle) : gmap TableID TableLifecycle * bool :=
  match spec_table op (m !! op_table op) with
  | Some lc => (<[op_table op := lc]> m, true)
  | None => (m, false)
  end.

(** ** The operations on one table *)

Definition view (s : SnapshotScheduler) : gmap TableID TableLifecycle :=
  store_view (ss_store s) (ss_taskID s).

Definition filed (s : SnapshotScheduler) (id : TableID) (l : loc) (lc : TableLifecycle) : Prop :=
  task_tables (ss_store s) (ss_taskID s) !! id = Some l ∧ ms_heap (ss_store s) !! l = Some lc.

Definition upd (l : loc) (lc : TableLifecycle) (s : SnapshotScheduler) : SnapshotScheduler :=
  mkScheduler (update_obj l lc (ss_store s)) (ss_cache s) (ss_taskID s).

Definition same_other_tasks (s s' : SnapshotScheduler) : Prop :=
  ss_taskID s' = ss_taskID s ∧
  ∀ t, t ≠ ss_taskID s → store_view (ss_store s') t = store_view (ss_store s) t.

Lemma with_table {A} id (k : loc → ST SnapshotScheduler A) s :
  store_wf (ss_store s) →
  match view s !! id with
  | Some lc => ∃ l, filed s id l lc ∧ (get_table id ≫= k) s = k l s
  | None => ∃ e, (get_table id ≫= k) s = (s, Err e)
  end.
Proof.
  intros Hwf. pose proof (Get_spec _ (ss_taskID s) id Hwf) as Hg. unfold view.
  unfold mbind, ST_bind, get_table, st_get, mbind, ST_bind, st_wrap, on_store.
  destruct (store_view (ss_store s) (ss_taskID s) !! id) as [lc|].
  - destruct Hg as (l & -> & Hl & Hlc). exists l. split; [done|]. by destruct s.
  - destruct Hg as (e & ->). eexists. by destruct s.
Qed.

Lemma upd_spec s id l lc lc' :
  store_wf (ss_store s) → filed s id l lc → tl_TableID lc' = id →
  store_wf (ss_store (upd l lc' s)) ∧ view (upd l lc' s) = <[id := lc']> (view s) ∧
  same_other_tasks s (upd l lc' s) ∧ filed (upd l lc' s) id l lc'.
Proof.
  intros Hwf [Hl Hlc] Hid. destruct (update_obj_spec _ _ _ _ _ _ Hwf Hl Hlc Hid) as [Hwf' Hv].
  split_and!; [done|..].
  - unfold view. cbn. by rewrite Hv, decide_True.
  - split; [done|]. intros t Ht. cbn. by rewrite Hv, decide_False.
  - split; [done|]. cbn. by rewrite lookup_insert_eq.
Qed.

Lemma call_ok {A} s id l lc lc' (m : ST TableLifecycle A) r :
  filed s id l lc → m lc = (lc', r) → on_store (call l m) s = (upd l lc' s, r).
Proof. intros [_ Hlc] Hm. unfold on_store. by rewrite (call_spec _ _ _ _ _ _ Hlc Hm). Qed.

Lemma upd_same s id l lc : filed s id l lc → upd l lc s = s.
Proof.
  intros [_ Hlc]. unfold upd, update_obj. rewrite insert_id by done. by destruct s as [[] ? ?].
Qed.

Lemma save_filed s id l lc :
  store_wf (ss_store s) → filed s id l lc → save_table l s = (s, Ok tt).
Proof.
  intros Hwf [Hl _]. unfold save_table, mbind, ST_bind, st_get, on_store.
  rewrite (Save_filed _ _ _ _ Hwf Hl). by destruct s.
Qed.

Lemma save_step s id l lc :
  store_wf (ss_store s) → filed s id l lc →
  ∃ r c, save_table l s = (mkScheduler (ss_store s) c (ss_taskID s), r) ∧ c = ss_cache s ∧ r = Ok tt.
Proof.
  intros Hwf Hf. rewrite (save_filed _ _ _ _ Hwf Hf). exists (Ok tt), (ss_cache s). by destruct s.
Qed.

Lemma deref_filed s id l lc : filed s id l lc → on_store (deref l) s = (s, Ok lc).
Proof. intros [_ Hlc]. unfold on_store, deref. rewrite Hlc. by destruct s. Qed.

(** The pattern of the handlers: look the table up, call a method that either
    rejects without an effect or yields a life cycle of the same table, save,
    and go on with [k]. *)
Definition handler (id : TableID) (msg : string) (m : ST TableLifecycle unit)
    (k : loc → ST SnapshotScheduler unit) : ST SnapshotScheduler unit :=
  lc ← get_table id; st_wrap msg (on_store (call lc m)) ≫= λ _, k lc.

Definition method_ok (m : ST TableLifecycle unit) : Prop :=
  ∀ lc, (∃ lc', m lc = (lc', Ok tt) ∧ tl_TableID lc' = tl_TableID lc) ∨ (∃ e, m lc = (lc, Err e)).

Lemma run_op_method_ok op : method_ok (run_op op).
Proof.
  intros lc. destruct (run_op_spec op lc) as [(_ & lc' & H & _ & _ & _ & _ & Hid)|(_ & e & H)]; eauto.
Qed.

Lemma handler_spec id msg m k s :
  store_wf (ss_store s) → method_ok m →
  match view s !! id ≫= λ lc, accepted (m lc) with
  | Some lc' =>
      ∃ l s1, handler id msg m k s = k l s1 ∧ store_wf (ss_store s1) ∧ filed s1 id l lc' ∧
        view s1 = <[id := lc']> (view s) ∧ same_other_tasks s s1 ∧ ss_cache s1 = ss_cache s
  | None => ∃ e, handler id msg m k s = (s, Err e)
  end.
Proof.
  intros Hwf Hm. unfold handler.
  pose proof (with_table id (λ lc, st_wrap msg (on_store (call lc m)) ≫= λ _, k lc) s Hwf) as H.
  destruct (view s !! id) as [lc|] eqn:Ev; cbn; [|exact H].
  destruct H as (l & Hf & ->).
  assert (Hid : tl_TableID lc = id).
  { destruct Hf as [Hl Hlc]. destruct (swf_filed _ Hwf _ _ _ Hl) as (lc1 & Hlc1 & ?).
    rewrite Hlc in Hlc1. by simplify_eq. }
  destruct (Hm lc) as [(lc' & Hr & Hid')|(e & Hr)]; rewrite Hr; cbn.
  - destruct (upd_spec s id l lc lc') as (Hwf1 & Hv1 & Hs1 & Hf1); [done..|congruence|].
    exists l, (upd l lc' s). split_and!; try done.
    unfold mbind, ST_bind. by rewrite (st_wrap_ok _ _ _ _ _ (call_ok _ _ _ _ _ _ _ Hf Hr)).
  - pose proof (call_ok _ _ _ _ _ _ _ Hf Hr) as Hc. rewrite (upd_same _ _ _ _ Hf) in Hc.
    destruct (st_wrap_not_ok msg _ _ _ _ Hc) as [e' He']. exists e'.
    unfold mbind, ST_bind. by rewrite He'.
Qed.

(** A result that reports the error of a call in its own words. *)
Definition same_outcome (r r' : result unit) : Prop :=
  is_ok r = is_ok r' ∧ ∀ p, r = Err (Panic p) → r' = Err (Panic p).

(** What an operation has to establish for a table map [m'] and an acceptance
    flag given by the specification. *)
Definition implements (op : sched_op) (s s' : SnapshotScheduler) (r : result unit) : Prop :=
  store_wf (ss_store s') ∧ same_other_tasks s s' ∧
  let '(m', ok) := spec_op op (view s) in
  view s' = m' ∧
  if ok then
    if drops_cache op
    then ss_cache s' = (cache_Delete (TableID_String (op_table op)) (ss_cache s)).1 ∧
         same_outcome r (cache_Delete (TableID_String (op_table op)) (ss_cache s)).2
    else ss_cache s' = ss_cache s ∧ r = Ok tt
  else ss_cache s' = ss_cache s ∧ is_ok r = false.

Lemma delete_cache_spec id s :
  ∃ r, delete_cache id s =
       (mkScheduler (ss_store s) (cache_Delete (TableID_String id) (ss_cache s)).1 (ss_taskID s), r) ∧
    same_outcome r (cache_Delete (TableID_String id) (ss_cache s)).2.
Proof.
  unfold delete_cache, st_wrap, on_cache.
  destruct (cache_Delete (TableID_String id) (ss_cache s)) as [c [[]|e]]; cbn.
  - by eexists.
  - destruct e; eexists; split; done.
Qed.

Lemma save_then_delete id l lc s :
  store_wf (ss_store s) → filed s id l lc →
  ∃ r, (st_wrap ("save table " +:+ TableID_String id) (save_table l) ≫= λ _, delete_cache id) s =
       (mkScheduler (ss_store s) (cache_Delete (TableID_String id) (ss_cache s)).1 (ss_taskID s), r) ∧
    same_outcome r (cache_Delete (TableID_String id) (ss_cache s)).2.
Proof.
  intros Hwf Hf. unfold mbind, ST_bind.
  rewrite (st_wrap_ok _ _ _ _ _ (save_filed _ _ _ _ Hwf Hf)). apply delete_cache_spec.
Qed.

Lemma same_other_refl s : same_other_tasks s s.
Proof. done. Qed.

Lemma handler_implements op id msg m k s :
  store_wf (ss_store s) → method_ok m → op_table op = id →
  (∀ cur, spec_table op cur = cur ≫= λ lc, accepted (m lc)) →
  (∀ l lc' s1, store_wf (ss_store s1) → filed s1 id l lc' →
     ∃ r c, k l s1 = (mkScheduler (ss_store s1) c (ss_taskID s1), r) ∧
       if drops_cache op
       then c = (cache_Delete (TableID_String id) (ss_cache s1)).1 ∧
            same_outcome r (cache_Delete (TableID_String id) (ss_cache s1)).2
       else c = ss_cache s1 ∧ r = Ok tt) →
  ∃ s' r, handler id msg m k s = (s', r) ∧ implements op s s' r.
Proof.
  intros Hwf Hm Hid Hspec Hk. pose proof (handler_spec id msg m k s Hwf Hm) as H.
  unfold implements, spec_op. rewrite Hid, Hspec.
  destruct (view s !! id ≫= λ lc, accepted (m lc)) as [lc'|].
  - destruct H as (l & s1 & -> & Hwf1 & Hf1 & Hv1 & Hs1 & Hc1).
    destruct (Hk _ _ _ Hwf1 Hf1) as (r & c & -> & Hr). rewrite Hc1 in Hr.
    do 2 eexists. split; [done|]. split_and!; [done|done|done|]. cbn. by destruct (drops_cache op).
  - destruct H as (e & ->). do 2 eexists. split; [done|]. done.
Qed.

Lemma upd_upd l lc1 lc2 s : upd l lc2 (upd l lc1 s) = upd l lc2 s.
Proof. unfold upd, update_obj. cbn. by rewrite insert_insert_eq. Qed.

Lemma reset_error now pos lc :
  tl_State lc = TableStateError →
  ResetToPending now pos lc = ((ResetToPending now pos lc).1, Ok tt).
Proof. intros H. unfold ResetToPending. rewrite bool_decide_eq_false_2; [done|tauto]. Qed.

Lemma restarted_as_id now pos lc : tl_TableID (restarted_as now pos lc) = tl_TableID lc.
Proof. unfold restarted_as, ResetToPending. by repeat (case_bool_decide; cbn). Qed.

Lemma restarted_as_state now pos lc :
  tl_State (restarted_as now pos lc) = TableStatePending ∧
  tl_SnapshotPosition (restarted_as now pos lc) = pos.
Proof.
  unfold restarted_as, ResetToPending, GetState. destruct (decide (tl_State lc = TableStateError)) as [E|E].
  - rewrite (bool_decide_eq_false_2 (tl_State lc ≠ _)) by tauto. by rewrite bool_decide_eq_false_2 by tauto.
  - rewrite (bool_decide_eq_true_2 (tl_State lc ≠ _)) by done. by rewrite bool_decide_eq_false_2 by (cbn; tauto).
Qed.

(** Restarting a table: the object is reset and saved, then its cached events
    are deleted; an error of the deletion comes after the reset. *)
Lemma restart_object_spec now l id lc pos s :
  store_wf (ss_store s) → filed s id l lc → tl_TableID lc = id →
  ∃ r, restart_object now l id (GetState lc) pos s =
       (mkScheduler (update_obj l (restarted_as now pos lc) (ss_store s))
          (cache_Delete (TableID_String id) (ss_cache s)).1 (ss_taskID s), r) ∧
    same_outcome r (cache_Delete (TableID_String id) (ss_cache s)).2.
Proof.
  intros Hwf Hf Hid.
  set (lc1 := if bool_decide (GetState lc ≠ TableStateError)
              then SetError now "restart requested" lc else lc).
  assert (Hs1 : (if bool_decide (GetState lc ≠ TableStateError)
      then on_store (call l (st_modify (SetError now "restart requested"))) else mret tt) s
    = (upd l lc1 s, Ok tt)).
  { subst lc1. case_bool_decide.
    - by apply (call_ok _ _ _ _ _ _ _ Hf).
    - by rewrite (upd_same _ _ _ _ Hf). }
  assert (Hst1 : tl_State lc1 = TableStateError).
  { subst lc1. unfold GetState. destruct (decide (tl_State lc = TableStateError)) as [E|E].
    - by rewrite bool_decide_eq_false_2 by tauto.
    - by rewrite bool_decide_eq_true_2. }
  assert (Hid1 : tl_TableID lc1 = id) by (subst lc1; by case_bool_decide).
  destruct (upd_spec s id l lc lc1 Hwf Hf Hid1) as (Hwf1 & _ & _ & Hf1).
  pose proof (call_ok _ _ _ _ _ _ _ Hf1 (reset_error now pos lc1 Hst1)) as Hreset.
  rewrite upd_upd in Hreset. change (ResetToPending now pos lc1).1 with (restarted_as now pos lc) in Hreset.
  destruct (upd_spec s id l lc (restarted_as now pos lc) Hwf Hf) as (Hwf2 & _ & _ & Hf2);
    [by rewrite restarted_as_id|].
  unfold restart_object. rewrite (bind_ok _ _ _ _ _ Hs1).
  rewrite (bind_ok _ _ _ _ _ (st_wrap_ok _ _ _ _ _ Hreset)). by apply (save_then_delete id l _ _ Hwf2 Hf2).
Qed.

Lemma RestartTable_implements now id pos force s :
  store_wf (ss_store s) →
  ∃ s' r, RestartTable now id pos force s = (s', r) ∧ implements (SRestart now id pos force) s s' r.
Proof.
  intros Hwf. unfold RestartTable.
  match goal with |- context [(get_table id ≫= ?k) s] => pose proof (with_table id k s Hwf) as H end.
  unfold implements, spec_op. cbn [op_table spec_table drops_cache].
  destruct (view s !! id) as [lc|] eqn:Ev; cbn [mbind option_bind].
  - destruct H as (l & Hf & ->). assert (Hf' := Hf). destruct Hf' as [Hl Hlc].
    assert (Hid : tl_TableID lc = id).
    { destruct (swf_filed _ Hwf _ _ _ Hl) as (lc1 & Hlc1 & ?). rewrite Hlc in Hlc1. by simplify_eq. }
    rewrite (bind_ok _ _ _ _ _ (deref_filed _ _ _ _ Hf)). cbn zeta. destruct (negb force && bool_decide (GetState lc = TableStateStreaming)).
    + do 2 eexists. split; [reflexivity|]. split_and!; done.
    + destruct (restart_object_spec now l id lc pos s Hwf Hf Hid) as (r & -> & Hr).
      do 2 eexists. split; [reflexivity|].
      destruct (upd_spec s id l lc (restarted_as now pos lc) Hwf Hf) as (Hwf2 & Hv2 & Hs2 & Hf2);
        [by rewrite restarted_as_id|].
      split_and!; [done..|]. done.
  - destruct H as (e & ->). do 2 eexists. split; [reflexivity|]. done.
Qed.

Lemma OnSnapshotError_handler now id msg s :
  OnSnapshotError now id msg s = handler id "" (st_modify (SetError now msg)) save_table s.
Proof.
  unfold OnSnapshotError, handler, mbind, ST_bind. destruct (get_table id s) as [s1 [l|e]]; [|done].
  unfold st_wrap, on_store, call, st_modify. by destruct (ms_heap (ss_store s1) !! l).
Qed.

Lemma scheduler_refines_lemma op s :
  store_wf (ss_store s) → ∃ s' r, run_sched op s = (s', r) ∧ implements op s s' r.
Proof.
  intros Hwf.
  destruct op as [now id pos|now id|now id msg|now id|now id pos force|now id|now id]; cbn [run_sched].
  - destruct (alloc_Save_spec (ss_store s) (ss_taskID s)
      (set_SnapshotPosition pos (NewTableLifecycle now id)) Hwf) as (st & Hs & Hwf' & Hv).
    unfold AddTable, mbind at 1, ST_bind at 1, st_get, on_store. rewrite Hs. do 2 eexists. split; [done|].
    unfold implements, spec_op, same_other_tasks, view. cbn [ss_store ss_taskID ss_cache op_table
      spec_table drops_cache]. rewrite !Hv, decide_True by done.
    split_and!; try done. intros t Ht. by rewrite Hv, decide_False.
  - apply (handler_implements (SSnapshotComplete now id) id _ _ save_table);
      [done|apply (run_op_method_ok (OpTransition now _ None))|done|done|].
    intros ???. apply save_step.
  - rewrite OnSnapshotError_handler.
    eapply handler_implements; [done|apply (run_op_method_ok (OpSetError now msg))|done|by intros []|].
    intros ???. apply save_step.
  - eapply (handler_implements (SCaughtUp now id) id _ _
      (λ l, st_wrap ("save table " +:+ TableID_String id) (save_table l) ≫= λ _, delete_cache id));
      [done|apply (run_op_method_ok (OpTransition now _ None))|done|done|].
    intros l lc s1 H1 H2. destruct (save_then_delete id l lc s1 H1 H2) as (r & -> & Hr).
    by exists r, (cache_Delete (TableID_String id) (ss_cache s1)).1.
  - by apply RestartTable_implements.
  - apply (handler_implements (SPause now id) id _ _ save_table);
      [done|apply (run_op_method_ok (OpPause now))|done|done|].
    intros ???. apply save_step.
  - apply (handler_implements (SResume now id) id _ _ save_table);
      [done|apply (run_op_method_ok (OpResume now))|done|done|].
    intros ???. apply save_step.
Qed.

(** ** RestartSchema *)

Definition restartable (force : bool) (lc : TableLifecycle) : bool :=
  negb (negb force && bool_decide (GetState lc = TableStateStreaming)).

(** The map of tables after the given ones have been restarted. *)
Definition restart_ids (now : time) (pos : option Position) (ids : list TableID)
    (m : gmap TableID TableLifecycle) : gmap TableID TableLifecycle :=
  map_imap (λ id lc, Some (if bool_decide (id ∈ ids) then restarted_as now pos lc else lc)) m.

Lemma restart_ids_nil now pos m : restart_ids now pos [] m = m.
Proof.
  apply map_eq. intros id. unfold restart_ids. rewrite map_lookup_imap.
  destruct (m !! id); cbn; [|done]. by rewrite bool_decide_eq_false_2 by apply not_elem_of_nil.
Qed.

Lemma restart_ids_cons now pos id ids m lc :
  id ∉ ids → m !! id = Some lc →
  restart_ids now pos ids (<[id := restarted_as now pos lc]> m) = restart_ids now pos (id :: ids) m.
Proof.
  intros Hid Hm. apply map_eq. intros i. unfold restart_ids. rewrite !map_lookup_imap.
  destruct (decide (i = id)) as [->|Hne].
  - rewrite lookup_insert_eq, Hm. cbn.
    rewrite bool_decide_eq_false_2 by done. rewrite bool_decide_eq_true_2 by (apply elem_of_cons; by left). done.
  - rewrite lookup_insert_ne by done. destruct (m !! i); cbn; [|done].
    rewrite (bool_decide_ext (i ∈ id :: ids) (i ∈ ids)); [done|]. rewrite elem_of_cons. tauto.
Qed.

Definition can_restart (force : bool) (m : gmap TableID TableLifecycle) (id : TableID) : bool :=
  from_option (restartable force) false (m !! id).

Lemma filter_can_restart_insert force m id lc ids :
  id ∉ ids →
  List.filter (can_restart force (<[id := lc]> m)) ids = List.filter (can_restart force m) ids.
Proof.
  induction ids as [|i ids IH]; cbn; [done|]. intros [Hne Hid]%not_elem_of_cons.
  rewrite IH by done. unfold can_restart at 1 3. by rewrite lookup_insert_ne.
Qed.

(** The caches of the given tables deleted, one after the other. *)
Definition drop_caches (ids : list TableID) (c : C) : C :=
  foldl (λ c id, (cache_Delete (TableID_String id) c).1) c ids.

(** The loop restarts a prefix of the tables it may restart; it stops early
    only at a table whose cache cannot be deleted, which is reset but not
    reported. *)
Lemma restart_all_spec now pos force
    (Hpanic : ∀ t c p, (cache_Delete t c).2 ≠ Err (Panic p)) ids : ∀ ls s acc,
  store_wf (ss_store s) → NoDup ids →
  Forall2 (λ id l, task_tables (ss_store s) (ss_taskID s) !! id = Some l) ids ls →
  ∃ s' done failed err, restart_all now pos force ls acc s = (s', Ok (acc ++ done, err)) ∧
    store_wf (ss_store s') ∧ same_other_tasks s s' ∧
    view s' = restart_ids now pos (done ++ option_list failed) (view s) ∧
    ss_cache s' = drop_caches (done ++ option_list failed) (ss_cache s) ∧
    (∃ rest, List.filter (can_restart force (view s)) ids = done ++ option_list failed ++ rest ∧
       (err = None → failed = None ∧ rest = [])) ∧
    (is_Some err → is_Some failed) ∧
    ((∀ t c, is_ok (cache_Delete t c).2 = true) → err = None).
Proof.
  induction ids as [|id ids IH]; intros ls s acc Hwf Hnd Hls; inversion Hls as [|? l ? ls' Hl Htl]; subst.
  - exists s, [], None, None. cbn. rewrite app_nil_r. split_and!; try done.
    + by rewrite restart_ids_nil.
    + by exists [].
  - apply NoDup_cons in Hnd as [Hid Hnd].
    destruct (view_Some _ _ _ _ Hwf Hl) as (lc & Hlc & Hv & Htid). fold (view s) in Hv.
    assert (Hf : filed s id l lc) by done. cbn [restart_all].
    rewrite (bind_ok _ _ _ _ _ (deref_filed _ _ _ _ Hf)). cbn zeta. rewrite Htid.
    assert (Hcan : can_restart force (view s) id = restartable force lc)
      by (unfold can_restart; by rewrite Hv).
    cbn [List.filter]. rewrite Hcan. unfold restartable.
    destruct (negb force && bool_decide (GetState lc = TableStateStreaming)); cbn [negb].
    { by apply IH. }
    destruct (restart_object_spec now l id lc pos s Hwf Hf Htid) as (r & Hr & Hok).
    destruct (upd_spec s id l lc (restarted_as now pos lc) Hwf Hf) as (Hwf2 & Hv2 & Hs2 & _);
      [by rewrite restarted_as_id|].
    set (s2 := mkScheduler _ _ _) in Hr. change (view (upd l (restarted_as now pos lc) s)) with (view s2) in Hv2.
    assert (Htry : st_try (restart_object now l id (GetState lc) pos) s = (s2, Ok r)).
    { unfold st_try. rewrite Hr. destruct r as [|e]; [done|]. destruct e as [| | | | | | | |p]; try done.
      destruct Hok as [_ Hp]. by destruct (Hpanic _ _ _ (Hp p eq_refl)). }
    rewrite (bind_ok _ _ _ _ _ Htry).
    assert (Htl2 : Forall2 (λ id l, task_tables (ss_store s2) (ss_taskID s2) !! id = Some l) ids ls') by done.
    destruct r as [[]|e].
    + destruct (IH ls' s2 (acc ++ [id]) Hwf2 Hnd Htl2)
        as (s' & done & failed & err & Hrun & Hwf' & Hs' & Hv' & Hc' & (rest & Hrest & Herr) & Hf' & Hall).
      rewrite Hv2, filter_can_restart_insert in Hrest by done.
      assert (Hid' : id ∉ done ++ option_list failed).
      { intros Hin. apply Hid. assert (Hin' : id ∈ List.filter (can_restart force (view s)) ids)
          by (rewrite Hrest, app_assoc; apply elem_of_app; by left).
        apply list_elem_of_In, filter_In in Hin' as [? _]. by apply list_elem_of_In. }
      exists s', (id :: done), failed, err. rewrite Hrun, <- app_assoc. split_and!; try done.
      * destruct Hs2 as [E2 Ho2], Hs' as [E' Ho']. split; [exact E'|]. intros t Ht.
        rewrite Ho' by exact Ht. by apply Ho2.
      * rewrite Hv', Hv2. by apply restart_ids_cons.
      * exists rest. cbn. by rewrite Hrest.
    + exists s2, [], (Some id), (Some e). cbn. rewrite app_nil_r. split_and!; try done.
      * rewrite <- (restart_ids_cons now pos id [] (view s) lc), restart_ids_nil; [done|apply not_elem_of_nil|done].
      * eexists. done.
      * intros Hall. destruct Hok as [Hok _]. by rewrite Hall in Hok.
Qed.

(** What restarting a schema does: the tables of the schema that may be restarted (all of
    them with [force], the ones that are not streaming without), in the order of the
    store's map and each at most once, are back to pending at the new position with their
    caches deleted, and no other table or task changes.  Where deleting a cache fails the
    restarts end there: that table has been reset, and is not returned. *)
Definition implements_schema (now : time) (schema : string) (pos : option Position) (force : bool)
    (s s' : SnapshotScheduler) (restarted : list TableID) (err : option goerror) : Prop :=
  store_wf (ss_store s') ∧ same_other_tasks s s' ∧
  ∃ ids failed rest,
    NoDup ids ∧ (∀ id, id ∈ ids ↔ is_Some (view s !! id) ∧ Database id = schema) ∧
    List.filter (can_restart force (view s)) ids = restarted ++ option_list failed ++ rest ∧
    view s' = restart_ids now pos (restarted ++ option_list failed) (view s) ∧
    ss_cache s' = drop_caches (restarted ++ option_list failed) (ss_cache s) ∧
    (err = None → failed = None ∧ rest = []) ∧ (is_Some err → is_Some failed) ∧
    ((∀ t c, is_ok (cache_Delete t c).2 = true) → err = None).

Lemma RestartSchema_implements (now : time) (schema : string) (pos : option Position) (force : bool)
    (s : SnapshotScheduler) (Hwf : store_wf (ss_store s))
    (Hpanic : ∀ t c p, (cache_Delete t c).2 ≠ Err (Panic p)) :
  ∃ s' restarted err,
    RestartSchema now schema pos force s = (s', Ok (restarted, err)) ∧
    implements_schema now schema pos force s s' restarted err.
Proof.
  destruct (list_where_spec (ss_store s) (ss_taskID s)
    (λ lc, bool_decide (Database (tl_TableID lc) = schema)) Hwf) as (ids & ls & Hl & Hnd & Hall & Hids).
  destruct (restart_all_spec now pos force Hpanic ids ls s [] Hwf Hnd Hall)
    as (s' & done & failed & err & Hrun & Hwf' & Hs' & Hv' & Hc' & (rest & Hrest & Herr) & Hf' & Hok).
  exists s', done, err. split.
  - unfold RestartSchema. rewrite (bind_ok _ _ s s s) by done.
    rewrite (bind_ok _ _ s s ls); [exact Hrun|]. apply st_wrap_ok. unfold on_store, ListBySchema.
    rewrite Hl. by destruct s.
  - split_and!; [done..|]. exists ids, failed, rest. split_and!; try done.
    assert (Htid : ∀ id lc, view s !! id = Some lc → tl_TableID lc = id).
    { intros id lc Hv. unfold view in Hv. rewrite view_lookup in Hv.
      destruct (task_tables _ _ !! id) as [l|] eqn:E; [|done]. cbn in Hv.
      destruct (swf_filed _ Hwf _ _ _ E) as (lc' & Hlc' & <-). by rewrite Hv in Hlc'; simplify_eq. }
    intros id. rewrite Hids. unfold is_Some. split.
    + intros (lc & Hv & Hd%bool_decide_eq_true_1). rewrite (Htid _ _ Hv) in Hd. split; [by exists lc|done].
    + intros [(lc & Hv) Hd]. exists lc. split; [done|]. apply bool_decide_eq_true_2. by rewrite (Htid _ _ Hv).
Qed.


(** ** Reachable tables *)

Definition sched_step (s : SnapshotScheduler) (l : sched_op * result unit) (s' : SnapshotScheduler) : Prop :=
  run_sched l.1 s = (s', l.2).

Definition idle (lc : TableLifecycle) : Prop :=
  tl_State lc = TableStatePending ∨ tl_State lc = TableStateError.

Lemma spec_table_idle op cur lc :
  (∀ lc0, cur = Some lc0 → idle lc0) → spec_table op cur = Some lc → idle lc.
Proof.
  intros Hcur H. unfold idle in *. destruct op; cbn in H.
  all: try (destruct cur as [lc0|]; cbn in H; [|done]; specialize (Hcur _ eq_refl)).
  - simplify_eq. by left.
  - unfold TransitionTo in H. by destruct Hcur as [E|E]; rewrite E in H.
  - simplify_eq. by right.
  - unfold TransitionTo in H. by destruct Hcur as [E|E]; rewrite E in H.
  - case_match; simplify_eq. left. apply restarted_as_state.
  - unfold Pause in H. by destruct Hcur as [E|E]; rewrite E in H.
  - unfold Resume in H. by destruct Hcur as [E|E]; rewrite E in H.
Qed.

Definition sched_inv (s : SnapshotScheduler) : Prop :=
  store_wf (ss_store s) ∧ ∀ id lc, view s !! id = Some lc → idle lc.

Lemma sched_inv_step s l s' : sched_inv s → sched_step s l s' → sched_inv s'.
Proof.
  intros [Hwf Hidle] Hstep. destruct l as [op r].
  destruct (scheduler_refines_lemma op s Hwf) as (s1 & r1 & Hrun & Hwf1 & _ & Himp).
  unfold sched_step in Hstep. cbn in Hstep. rewrite Hrun in Hstep. simplify_eq.
  split; [done|]. intros id lc Hv. unfold spec_op in Himp.
  destruct (spec_table op (view s !! op_table op)) as [lc1|] eqn:E; destruct Himp as [Hm _]; rewrite Hm in Hv; [|eauto].
  apply lookup_insert_Some in Hv as [[_ <-]|[_ Hv]]; [|eauto].
  eapply spec_table_idle; [|exact E]. eauto.
Qed.

(** No sequence of scheduler operations ever starts a snapshot: from an
    empty store every table stays in pending or error, because nothing moves a
    pending table to snapshotting.  The notifications of a completed snapshot
    or of a finished replay, and pausing and resuming, are then rejected. *)
Theorem scheduler_never_snapshots (task : string) (c : C) (ls : list (sched_op * result unit))
    (s : SnapshotScheduler)
    (Hrun : runs sched_step (mkScheduler NewMemoryLifecycleStore c task) ls s) :
  (∀ id lc, view s !! id = Some lc → tl_State lc = TableStatePending ∨ tl_State lc = TableStateError) ∧
  (∀ now id op, op ∈ [SSnapshotComplete now id; SCaughtUp now id; SPause now id; SResume now id] →
     ∃ s' e, run_sched op s = (s', Err e) ∧ view s' = view s).
Proof.
  assert (Hinv : sched_inv s).
  { eapply (runs_invariant sched_step sched_inv); [apply sched_inv_step|exact Hrun|].
    split; [apply NewMemoryLifecycleStore_wf|]. intros id lc H. unfold view in H.
    cbn [ss_store ss_taskID] in H. by rewrite New_view, lookup_empty in H. }
  destruct Hinv as [Hwf Hidle]. split; [exact Hidle|]. intros now id op Hop.
  destruct (scheduler_refines_lemma op s Hwf) as (s' & r & Hr & _ & _ & Himp).
  assert (Hrej : spec_table op (view s !! op_table op) = None).
  { assert (op_table op = id) as -> by (set_unfold; naive_solver).
    destruct (view s !! id) as [lc|] eqn:E; [|set_unfold; naive_solver].
    apply Hidle in E. unfold idle in E. set_unfold.
    destruct Hop as [->|[->|[->|[->|[]]]]]; cbn; unfold TransitionTo, Pause, Resume;
      by destruct E as [E|E]; rewrite E. }
  unfold spec_op in Himp. rewrite Hrej in Himp. destruct Himp as (Hv & _ & Hok).
  destruct r as [|e]; [done|]. eauto.
Qed.

(** ** The earliest position *)

Lemma GetGlobalMinPosition_spec s :
  store_wf (ss_store s) →
  ∃ lcs, GetGlobalMinPosition s = (s, Ok (ComputeGlobalMinPosition lcs)) ∧
    lcs ≡ₚ (map_to_list (view s)).*2.
Proof.
  intros Hwf. destruct (List_spec (ss_store s) (ss_taskID s) Hwf) as (ls & lcs & Hl & Hh & Hp).
  exists lcs. split; [|done]. unfold GetGlobalMinPosition. rewrite (bind_ok _ _ s s s) by done.
  rewrite (bind_ok _ _ s s ls) by (unfold on_store; rewrite Hl; by destruct s).
  apply mapM_Some_2 in Hh. by rewrite Hh.
Qed.

(** The earliest position ignores a restarted table: after a restart at
    position [p] the table is pending with [p] as its snapshot position, and
    [GetGlobalMinPosition] still returns the position of some other table (or
    none), however early [p] is. *)
Theorem restart_not_in_global_min (now : time) (id : TableID) (p : Position) (lc : TableLifecycle)
    (s : SnapshotScheduler) (Hwf : store_wf (ss_store s)) (Hlc : view s !! id = Some lc) :
  ∃ s' r lc' m, RestartTable now id (Some p) true s = (s', r) ∧
    view s' !! id = Some lc' ∧ tl_SnapshotPosition lc' = Some p ∧
    GetGlobalMinPosition s' = (s', Ok m) ∧
    (∀ q, m = Some q → ∃ other lco, other ≠ id ∧ view s !! other = Some lco ∧ effectivePosition lco = Some q).
Proof.
  destruct (scheduler_refines_lemma (SRestart now id (Some p) true) s Hwf) as (s' & r & Hr & Hwf' & _ & Hv).
  unfold spec_op in Hv. cbn [op_table spec_table] in Hv. rewrite Hlc in Hv. cbn in Hv. destruct Hv as [Hv _].
  destruct (GetGlobalMinPosition_spec s' Hwf') as (lcs & Hm & Hp).
  exists s', r, (restarted_as now (Some p) lc), (ComputeGlobalMinPosition lcs).
  split_and!; [exact Hr|by rewrite Hv, lookup_insert_eq|apply restarted_as_state|done|].
  intros q Hq. pose proof (min_fold_spec lcs None) as Hmin. unfold ComputeGlobalMinPosition in Hq.
  rewrite Hq in Hmin. destruct Hmin as [[?|(tl & Hin & Heff)] _]; [done|].
  rewrite Hp, list_elem_of_fmap in Hin. destruct Hin as ([other lco] & -> & Hin).
  apply elem_of_map_to_list in Hin. rewrite Hv in Hin. cbn in Heff.
  apply lookup_insert_Some in Hin as [[<- <-]|[Hne Hin]]; [|eauto].
  unfold effectivePosition in Heff. by destruct (restarted_as_state now (Some p) lc) as [E _]; rewrite E in Heff.
Qed.

End Scheduler.

Arguments SnapshotScheduler : clear implicits.
Arguments mkScheduler {_} _ _ _.

(** ** Concrete runs *)

Module SchedulerRuns.
Local Open Scope Z_scope.

#[local] Instance demo_events : JSONCodec CacheEvent := countable_codec CacheEvent.
#[local] Instance demo_cache : BinlogCacheBackend LocalBackend := LocalBackend_cache io_ok.
#[local] Instance demo_range : GoRange TableID loc := sorted_range TableID loc.

Definition users : TableID := mkTableID "app" "" "users".
Definition orders : TableID := mkTableID "app" "" "orders".

Definition empty : SnapshotScheduler LocalBackend :=
  mkScheduler NewMemoryLifecycleStore (NewLocalBackend SyncModeEvery) "task1".

Definition two_added : SnapshotScheduler LocalBackend :=
  ((AddTable 1 users None ≫= λ _, AddTable 2 orders None) empty).1.

Lemma two_added_wf : store_wf (ss_store two_added).
Proof.
  destruct (scheduler_refines_lemma (SAdd 1 users None) empty) as (s1 & r1 & H1 & Hwf1 & _ & Hv1);
    [apply NewMemoryLifecycleStore_wf|].
  destruct (scheduler_refines_lemma (SAdd 2 orders None) s1 Hwf1) as (s2 & r2 & H2 & Hwf2 & _).
  unfold two_added. destruct Hv1 as (_ & _ & ->). cbn [run_sched] in *.
  rewrite (bind_ok _ _ _ _ _ H1), H2. done.
Qed.

Lemma no_panic t c p : (cache_Delete (C := LocalBackend) t c).2 ≠ Err (Panic p).
Proof. cbn. unfold Delete. by repeat case_match. Qed.


Lemma two_added_run : runs sched_step empty [(SAdd 1 users None, Ok tt); (SAdd 2 orders None, Ok tt)] two_added.
Proof. repeat (eapply runs_cons; [vm_compute; reflexivity|]). constructor. Qed.

Lemma scheduler_never_snapshots_witness :
  ∃ s' e, run_sched (SSnapshotComplete 3 users) two_added = (s', Err e) ∧ view s' = view two_added.
Proof.
  apply (scheduler_never_snapshots "task1" (NewLocalBackend SyncModeEvery)
    [(SAdd 1 users None, Ok tt); (SAdd 2 orders None, Ok tt)] two_added two_added_run) with (now := 3%Z) (id := users).
  left.
Defined.

Lemma restart_not_in_global_min_witness :
  ∃ s' r m, RestartTable 3 users (Some Position_zero) true two_added = (s', r) ∧
    GetGlobalMinPosition s' = (s', Ok m).
Proof.
  destruct (restart_not_in_global_min 3 users Position_zero (NewTableLifecycle 1 users) two_added
    two_added_wf) as (s' & r & lc' & m & H1 & _ & _ & H2 & _).
  - vm_compute. reflexivity.
  - exists s', r, m. split; [exact H1|exact H2].
Defined.

End SchedulerRuns.
