(* ===== verification/SchemaHistory.v ===== *)
(** Table definitions and their history (internal/schema): the in-memory
    [Tables], the DDL records that update them, the [SchemaHistory] interface
    and its file implementation.

    A history is replayed into [Tables] when a task restarts.  The interface is
    a type class with its laws; the manager of the DDL records is verified
    against the laws, the file implementation discharges them. *)
From Stdlib Require Import ZArith Lia Sorted.
From Stdlib Require Strings.Byte.
From stdpp Require Import prelude countable gmap strings list fin_maps.
From S2P Require Import Prelude Events CacheLog CacheProofs.
Local Open Scope Z_scope.

(** ** tables.go *)

Notation Tables := (gmap string TableInfo) (only parsing).

Definition NewTables : Tables := ∅.

Definition tableKey (database table : string) : string := database +:+ "." +:+ table.

Definition Tables_Put (info : TableInfo) (t : Tables) : Tables :=
  <[tableKey (ti_Database info) (ti_Table info) := info]> t.

Definition Tables_Get (t : Tables) (database table : string) : option TableInfo :=
  t !! tableKey database table.

Definition Tables_Remove (database table : string) (t : Tables) : Tables :=
  delete (tableKey database table) t.

Definition Tables_All (t : Tables) : gmap string TableInfo := t.

Definition Tables_Count (t : Tables) : Z := Z.of_nat (size t).

(** ** Replaying a history *)

Definition apply_record (t : Tables) (tableInfo : option TableInfo) (changeType db tbl : string) : Tables :=
  match tableInfo with
  | Some info => Tables_Put info t
  | None => if bool_decide (changeType = "DROP") then Tables_Remove db tbl t else t
  end.

(** The stop condition of [Recover]. *)
Definition past_offset (offset : option Position) (pos : Position) : bool :=
  match offset with
  | None => false
  | Some o => negb (Position_IsZero o) && time_After (pos_CommitTime pos) (pos_CommitTime o)
  end.

Definition apply_history (t : Tables) (rec : SchemaHistoryRecord) : Tables :=
  apply_record t (shr_TableInfo rec) (shr_ChangeType rec) (shr_Database rec) (shr_Table rec).

Fixpoint replay (offset : option Position) (recs : list SchemaHistoryRecord) (t : Tables) : Tables :=
  match recs with
  | [] => t
  | rec :: recs =>
      if past_offset offset (shr_Position rec) then t else replay offset recs (apply_history t rec)
  end.

(** ** schema_history.go: the interface *)

Class SchemaHistory (H : Type) := {
  hist_Record : SchemaHistoryRecord → ST H unit;
  hist_Recover : option Position → H → ST Tables unit
}.

Class SchemaHistoryLaws (H : Type) `{!SchemaHistory H} := {
  hist_holds : H → list SchemaHistoryRecord → Prop;
  hist_ok : SchemaHistoryRecord → Prop;
  hist_Record_appends h h' recs rec :
    hist_holds h recs → hist_ok rec → hist_Record rec h = (h', Ok tt) → hist_holds h' (recs ++ [rec]);
  hist_Recover_replays h recs offset t :
    hist_holds h recs → hist_Recover offset h t = (replay offset recs t, Ok tt)
}.

(** ** ddl_record.go *)

Section Manager.
Context {H : Type} `{!SchemaHistory H} `{!GoRange string DDLRecord}.

Record DDLRecordManager := mkDDLRecordManager {
  dm_records : gmap string DDLRecord;
  dm_tables : Tables;
  dm_history : H
}.

Definition NewDDLRecordManager (tables : Tables) (history : H) : DDLRecordManager :=
  mkDDLRecordManager ∅ tables history.

Definition set_record (rec : DDLRecord) (m : DDLRecordManager) : DDLRecordManager :=
  mkDDLRecordManager (<[dr_ID rec := rec]> (dm_records m)) (dm_tables m) (dm_history m).

Definition set_tables (t : Tables) (m : DDLRecordManager) : DDLRecordManager :=
  mkDDLRecordManager (dm_records m) t (dm_history m).

(** Field assignments of a record. *)
Definition dr_set (st : DDLStatus) (applied completed : option time) (err : string) (created : time)
    (r : DDLRecord) : DDLRecord :=
  mkDDLRecord (dr_ID r) (dr_Position r) (dr_Database r) (dr_Table r) (dr_DDL r) (dr_NewTableInfo r) st
    applied completed err (dr_RetryCount r) created.

Definition Create (now : time) (record : DDLRecord) : ST DDLRecordManager unit :=
  st_modify (set_record (dr_set DDLStatusPending (dr_AppliedAt record) (dr_CompletedAt record)
    (dr_Error record) now record)).

Definition ErrDDLRecordNotFound : goerror := ErrNew "ddl record not found".

(** [rec, ok := m.records[id]] *)
Definition find_record (id : string) : ST DDLRecordManager DDLRecord := λ m,
  match dm_records m !! id with
  | Some rec => (m, Ok rec)
  | None => (m, Err (ErrWrapf id ErrDDLRecordNotFound))
  end.

(** A record is stored under its own ID, so writing its fields back is an
    update of that entry ([records_keyed]). *)
Definition put_record (id : string) (rec : DDLRecord) : ST DDLRecordManager unit :=
  st_modify (λ m, mkDDLRecordManager (<[id := rec]> (dm_records m)) (dm_tables m) (dm_history m)).

Definition MarkApplying (now : time) (id : string) : ST DDLRecordManager unit :=
  rec ← find_record id;
  put_record id (dr_set DDLStatusApplying (Some now) (dr_CompletedAt rec) (dr_Error rec) (dr_CreatedAt rec) rec).

Definition changeTypeFromDDL (tables : Tables) (rec : DDLRecord) : string :=
  match dr_NewTableInfo rec with
  | None => "DROP"
  | Some _ =>
      match Tables_Get tables (dr_Database rec) (dr_Table rec) with
      | Some _ => "ALTER"
      | None => "CREATE"
      end
  end.

(** The history record [MarkCompleted] writes; [*rec.Position] panics on nil. *)
Definition history_record (now : time) (changeType : string) (rec : DDLRecord) : result SchemaHistoryRecord :=
  match dr_Position rec with
  | None => Err (Panic "nil pointer dereference")
  | Some pos =>
      Ok (mkSchemaHistoryRecord pos (dr_Database rec)
            (match dr_NewTableInfo rec with Some info => ti_Schema info | None => "" end)
            (dr_Table rec) (dr_DDL rec) (dr_NewTableInfo rec) changeType DDLStatusCompleted now)
  end.

Definition on_history {A} (op : ST H A) : ST DDLRecordManager A := λ m,
  let '(h, r) := op (dm_history m) in (mkDDLRecordManager (dm_records m) (dm_tables m) h, r).

Definition MarkCompleted (now : time) (id : string) : ST DDLRecordManager unit :=
  rec ← find_record id;
  let rec := dr_set DDLStatusCompleted (dr_AppliedAt rec) (Some now) (dr_Error rec) (dr_CreatedAt rec) rec in
  put_record id rec ≫= λ _,
  m ← st_get;
  let changeType := changeTypeFromDDL (dm_tables m) rec in
  st_modify (set_tables
    (match dr_NewTableInfo rec with
     | Some info => Tables_Put info (dm_tables m)
     | None => Tables_Remove (dr_Database rec) (dr_Table rec) (dm_tables m)
     end)) ≫= λ _,
  histRec ← st_lift (history_record now changeType rec);
  on_history (hist_Record histRec).

Definition MarkFailed (id errStr : string) : ST DDLRecordManager unit :=
  rec ← find_record id;
  put_record id (dr_set DDLStatusFailed (dr_AppliedAt rec) (dr_CompletedAt rec) errStr (dr_CreatedAt rec) rec).

Definition MarkSkipped (id : string) : ST DDLRecordManager unit :=
  rec ← find_record id;
  put_record id (dr_set DDLStatusSkipped (dr_AppliedAt rec) (dr_CompletedAt rec) (dr_Error rec) (dr_CreatedAt rec) rec).

Definition GetRecord (id : string) : ST DDLRecordManager DDLRecord := find_record id.

Definition PendingRecords (m : DDLRecordManager) : list DDLRecord :=
  List.filter (λ rec, bool_decide (dr_Status rec = DDLStatusPending)) (go_range (dm_records m)).*2.

End Manager.

Arguments DDLRecordManager : clear implicits.
Arguments mkDDLRecordManager {_} _ _ _.

(** ** local_history.go

    An append-only file of [[4B length][JSON]] records. *)
Record LocalSchemaHistory := mkLocalHistory { lh_file : option (list Byte.byte) }.

Definition NewLocalSchemaHistory (existing : option (list Byte.byte)) : LocalSchemaHistory :=
  mkLocalHistory (Some (default [] existing)).

Section LocalHistory.
Context `{!JSONCodec SchemaHistoryRecord}.

Definition append_file (o : io_write) (buf : list Byte.byte) : ST LocalSchemaHistory unit := λ h,
  match o with
  | WriteOk => (mkLocalHistory (Some (default [] (lh_file h) ++ buf)), Ok tt)
  | WriteShort n e => (mkLocalHistory (Some (default [] (lh_file h) ++ take n buf)), Err e)
  end.

Definition LocalRecord (w : io) (record : SchemaHistoryRecord) : ST LocalSchemaHistory unit :=
  data ← st_wrap "marshal record" (st_lift (json_Marshal record));
  st_wrap "write length" (append_file (io_writes w 0) (put_be32 (u32 (zlen data)))) ≫= λ _,
  st_wrap "write data" (append_file (io_writes w 1) data) ≫= λ _,
  st_lift (match io_sync w with Some e => Err e | None => Ok tt end).

(** One iteration of the loop of [Recover]. *)
Inductive hist_step := HistEnd (r : result unit) | HistRecord (rec : SchemaHistoryRecord) (rest : list Byte.byte).

Definition read_history_record (f : list Byte.byte) : hist_step :=
  match ReadFull 4 f with
  | RFErr IoEOF => HistEnd (Ok tt)
  | RFErr e => HistEnd (Err (ErrWrapf "read length" e))
  | RFOk lenBuf f =>
      let dataLen := get_be32 lenBuf in
      match ReadFull dataLen f with
      | RFErr e => HistEnd (Err (ErrWrapf "read data" e))
      | RFOk data f =>
          match json_Unmarshal data with
          | Err e => HistEnd (Err (ErrWrapf "unmarshal record" e))
          | Ok rec => HistRecord rec f
          end
      end
  end.

(** The loop; [budget] is the number of iterations before the context is
    cancelled. *)
Fixpoint recover_loop (budget : nat) (offset : option Position) (f : list Byte.byte) : ST Tables unit := λ t,
  match budget with
  | O => (t, Err CtxCanceled)
  | S budget =>
      match read_history_record f with
      | HistEnd r => (t, r)
      | HistRecord rec f =>
          if past_offset offset (shr_Position rec) then (t, Ok tt)
          else recover_loop budget offset f (apply_history t rec)
      end
  end.

(** Without cancellation the length of the file bounds the iterations: each one
    consumes at least the four bytes of the length. *)
Definition LocalRecover (offset : option Position) (h : LocalSchemaHistory) : ST Tables unit :=
  match lh_file h with
  | None => mret tt
  | Some f => recover_loop (S (length f)) offset f
  end.

Definition LocalExists (h : LocalSchemaHistory) : bool :=
  match lh_file h with Some (_ :: _) => true | _ => false end.

End LocalHistory.

(** ** Replaying: which records count *)

Lemma replay_app recs1 recs2 t :
  replay None (recs1 ++ recs2) t = replay None recs2 (replay None recs1 t).
Proof. revert t. induction recs1 as [|r recs1 IH]; intros t; cbn; [done|apply IH]. Qed.

Definition stops (offset : option Position) (recs : list SchemaHistoryRecord) : bool :=
  existsb (λ r, past_offset offset (shr_Position r)) recs.

(** Committed in order, as the binlog delivers them. *)
Definition committed_in_order (recs : list SchemaHistoryRecord) : Prop :=
  StronglySorted (λ r1 r2, pos_CommitTime (shr_Position r1) <= pos_CommitTime (shr_Position r2)) recs.

Lemma past_offset_mono offset p q :
  pos_CommitTime p <= pos_CommitTime q → past_offset offset p = true → past_offset offset q = true.
Proof.
  destruct offset as [o|]; cbn; [|done]. unfold time_After.
  intros Hpq [Hz Hp]%andb_true_iff. rewrite Hz. apply Z.ltb_lt in Hp. apply Z.ltb_lt. lia.
Qed.

Lemma replay_all_past offset recs t :
  Forall (λ r, past_offset offset (shr_Position r) = true) recs → replay offset recs t = t.
Proof. destruct 1 as [|r recs Hr _]; [done|]. cbn. by rewrite Hr. Qed.

Lemma filter_all_past offset recs :
  Forall (λ r, past_offset offset (shr_Position r) = true) recs →
  List.filter (λ r, negb (past_offset offset (shr_Position r))) recs = [].
Proof. induction 1 as [|r recs Hr _ IH]; cbn; [done|]. by rewrite Hr. Qed.

(** Recovery up to an offset applies exactly the history records at or
    before it, in order, when the history is in commit order (in general it
    applies the records up to the first one past the offset). *)
Theorem replay_is_filtered_fold (offset : option Position) (recs : list SchemaHistoryRecord) (t : Tables)
    (Hsorted : committed_in_order recs) :
  replay offset recs t =
  foldl apply_history t (List.filter (λ r, negb (past_offset offset (shr_Position r))) recs).
Proof.
  revert t. induction Hsorted as [|r recs _ IH Hall]; intros t; cbn; [done|].
  destruct (past_offset offset (shr_Position r)) eqn:E; cbn; [|apply IH].
  rewrite filter_all_past; [done|]. eapply Forall_impl; [exact Hall|].
  intros r' Hle. exact (past_offset_mono _ _ _ Hle E).
Qed.

(** ** The file format *)

Section LocalHistoryProofs.
Context `{!JSONCodec SchemaHistoryRecord}.

Definition hist_frame (p : list Byte.byte) : list Byte.byte := put_be32 (zlen p) ++ p.
Definition hist_bytes (ps : list (list Byte.byte)) : list Byte.byte := concat (hist_frame <$> ps).

Definition hist_decodes (p : list Byte.byte) (rec : SchemaHistoryRecord) : Prop :=
  json_Unmarshal p = Ok rec ∧ zlen p < 2 ^ 32.

Lemma hist_frame_length p : zlen (hist_frame p) = zlen p + 4.
Proof. unfold hist_frame. rewrite zlen_app. unfold zlen at 1. rewrite put_be32_length. lia. Qed.

Lemma hist_bytes_snoc ps p : hist_bytes (ps ++ [p]) = hist_bytes ps ++ hist_frame p.
Proof. unfold hist_bytes. rewrite fmap_app, concat_app. cbn. by rewrite app_nil_r. Qed.

Lemma read_frame p rec rest :
  hist_decodes p rec → read_history_record (hist_frame p ++ rest) = HistRecord rec rest.
Proof.
  intros [Hu Hlen]. unfold read_history_record, hist_frame. rewrite <- app_assoc.
  rewrite ReadFull_app by done. rewrite get_put_be32 by (unfold zlen in *; lia).
  rewrite ReadFull_app by done. by rewrite Hu.
Qed.

Lemma recover_log offset ps recs :
  Forall2 hist_decodes ps recs → ∀ budget tail t,
  recover_loop (length recs + budget) offset (hist_bytes ps ++ tail) t =
  if stops offset recs then (replay offset recs t, Ok tt)
  else recover_loop budget offset tail (replay offset recs t).
Proof.
  induction 1 as [|p rec ps recs Hd _ IH]; intros budget tail t; [done|].
  unfold hist_bytes. cbn [fmap list_fmap concat length Nat.add recover_loop].
  rewrite <- app_assoc, (read_frame p rec) by done. unfold stops. cbn [existsb replay].
  destruct (past_offset offset (shr_Position rec)); [done|]. cbn [orb]. apply IH.
Qed.

(** The budget the recovery uses is enough whatever the file holds. *)
Lemma read_history_shrinks f rec rest :
  read_history_record f = HistRecord rec rest → (length rest < length f)%nat.
Proof.
  unfold read_history_record. intros H. destruct (ReadFull 4 f) as [lb f1|[]] eqn:E1; try done.
  destruct (ReadFull_ok _ _ _ _ E1) as [-> Hl1]; [lia|].
  destruct (ReadFull (get_be32 lb) f1) as [d f2|] eqn:E2; [|done].
  destruct (ReadFull_ok _ _ _ _ E2) as [-> _]; [apply get_be32_range|].
  destruct (json_Unmarshal d); simplify_eq. unfold zlen in Hl1. rewrite !length_app. lia.
Qed.

Lemma recover_enough offset b1 : ∀ b2 f t,
  (length f < b1)%nat → (length f < b2)%nat → recover_loop b1 offset f t = recover_loop b2 offset f t.
Proof.
  induction b1 as [|b1 IH]; intros b2 f t H1 H2; [lia|]. destruct b2 as [|b2]; [lia|]. cbn.
  destruct (read_history_record f) as [|rec rest] eqn:E; [done|].
  apply read_history_shrinks in E. destruct (past_offset offset (shr_Position rec)); [done|].
  apply IH; lia.
Qed.

Lemma hist_bytes_length ps : (length ps <= length (hist_bytes ps))%nat.
Proof.
  induction ps as [|p ps IH]; [done|]. unfold hist_bytes in *. cbn [fmap list_fmap concat].
  rewrite length_app. pose proof (hist_frame_length p). unfold zlen in *. cbn [length]. lia.
Qed.

Lemma LocalRecover_file offset f ps recs tail t :
  f = hist_bytes ps ++ tail → Forall2 hist_decodes ps recs →
  recover_loop (S (length f)) offset f t =
  if stops offset recs then (replay offset recs t, Ok tt)
  else recover_loop (S (length tail)) offset tail (replay offset recs t).
Proof.
  intros -> Hall.
  rewrite (recover_enough offset (S (length (hist_bytes ps ++ tail)))
    (length recs + S (length (hist_bytes ps ++ tail)))) by lia.
  rewrite (recover_log _ _ _ Hall). destruct (stops offset recs); [done|].
  apply recover_enough; [|lia]. rewrite length_app. lia.
Qed.

Lemma stops_replay offset recs t :
  recover_loop 1 offset [] (replay offset recs t) = (replay offset recs t, Ok tt).
Proof. done. Qed.

Definition file_history (w : io) : SchemaHistory LocalSchemaHistory := {|
  hist_Record := LocalRecord w; hist_Recover := LocalRecover |}.

Lemma LocalRecord_ok w h h' rec :
  LocalRecord w rec h = (h', Ok tt) →
  ∃ p, json_Marshal rec = Ok p ∧
    lh_file h' = Some (default [] (lh_file h) ++ put_be32 (u32 (zlen p)) ++ p).
Proof.
  unfold LocalRecord, st_lift. destruct (json_Marshal rec) as [p|e] eqn:Em.
  - rewrite (bind_ok _ _ h h p) by done. unfold mbind, ST_bind, st_wrap, append_file.
    destruct (io_writes w 0); [|by destruct e]. destruct (io_writes w 1); [|by destruct e].
    intros H. destruct (io_sync w); simplify_eq. exists p. split; [done|]. cbn. by rewrite <- app_assoc.
  - intros H. unfold mbind, ST_bind, st_wrap in H. by destruct e.
Qed.

#[program]
Definition file_history_laws (w : io) : @SchemaHistoryLaws LocalSchemaHistory (file_history w) := {|
  hist_holds h recs := ∃ ps, lh_file h = Some (hist_bytes ps) ∧ Forall2 hist_decodes ps recs;
  hist_ok rec := ∃ p, json_Marshal rec = Ok p ∧ json_Unmarshal p = Ok rec ∧ zlen p < 2 ^ 32
|}.
Next Obligation.
  cbn. intros w h h' recs rec (ps & Hf & Hall) (p & Hm & Hu & Hlen) Hrec.
  apply LocalRecord_ok in Hrec as (p' & Hm' & Hf'). rewrite Hm in Hm'. injection Hm' as <-. exists (ps ++ [p]).
  rewrite Hf in Hf'. cbn [default from_option id] in Hf'. split.
  - rewrite Hf', hist_bytes_snoc. unfold hist_frame.
    rewrite (u32_small (zlen p)) by (split; [apply zlen_nonneg|done]). done.
  - apply Forall2_app; [done|]. by repeat constructor.
Qed.
Next Obligation.
  cbn. intros w h recs offset t (ps & Hf & Hall). unfold LocalRecover. rewrite Hf.
  rewrite (LocalRecover_file offset _ ps recs []) by (by rewrite ?app_nil_r).
  by destruct (stops offset recs).
Qed.

(** What [json.Marshal] has to give for a record to be readable again. *)
Definition recordable (rec : SchemaHistoryRecord) : Prop :=
  ∃ p, json_Marshal rec = Ok p ∧ json_Unmarshal p = Ok rec ∧ zlen p < 2 ^ 32.

Fixpoint record_all (recs : list SchemaHistoryRecord) : ST LocalSchemaHistory unit :=
  match recs with
  | [] => mret tt
  | rec :: recs => LocalRecord io_ok rec ≫= λ _, record_all recs
  end.

Lemma LocalRecord_io_ok h rec p :
  json_Marshal rec = Ok p →
  LocalRecord io_ok rec h =
  (mkLocalHistory (Some (default [] (lh_file h) ++ put_be32 (u32 (zlen p)) ++ p)), Ok tt).
Proof.
  intros Hm. unfold LocalRecord, st_lift. rewrite Hm.
  unfold mbind, ST_bind, st_wrap, append_file. cbn [io_writes io_sync io_ok lh_file default from_option id].
  by rewrite <- app_assoc.
Qed.

Lemma record_all_spec recs : ∀ h ps recs0,
  Forall recordable recs → lh_file h = Some (hist_bytes ps) → Forall2 hist_decodes ps recs0 →
  ∃ h' ps', record_all recs h = (h', Ok tt) ∧ lh_file h' = Some (hist_bytes ps') ∧
    Forall2 hist_decodes ps' (recs0 ++ recs).
Proof.
  induction recs as [|rec recs IH]; intros h ps recs0 Hrec Hf Hall.
  - exists h, ps. by rewrite app_nil_r.
  - apply Forall_cons in Hrec as [(p & Hm & Hu & Hlen) Hrec]. cbn [record_all].
    rewrite (bind_ok _ _ _ _ _ (LocalRecord_io_ok h rec p Hm)).
    destruct (IH (mkLocalHistory (Some (default [] (lh_file h) ++ put_be32 (u32 (zlen p)) ++ p)))
      (ps ++ [p]) (recs0 ++ [rec])) as (h' & ps' & Hr & Hf' & Hall'); [done|..].
    + rewrite Hf. cbn [lh_file default from_option id]. rewrite hist_bytes_snoc. unfold hist_frame.
      rewrite (u32_small (zlen p)) by (split; [apply zlen_nonneg|done]). done.
    + apply Forall2_app; [done|]. by repeat constructor.
    + exists h', ps'. rewrite <- app_assoc in Hall'. done.
Qed.

(** Round trip of the history file: records written to a new file are
    recovered, for every offset, as the replay of exactly that list, and the
    recovery returns without an error. *)
Theorem history_file_roundtrip (recs : list SchemaHistoryRecord) (offset : option Position) (t : Tables)
    (Hrec : Forall recordable recs) :
  ∃ h, record_all recs (NewLocalSchemaHistory None) = (h, Ok tt) ∧
    LocalRecover offset h t = (replay offset recs t, Ok tt).
Proof.
  destruct (record_all_spec recs (NewLocalSchemaHistory None) [] []) as (h & ps & Hr & Hf & Hall);
    [done|done|constructor|].
  exists h. split; [done|]. unfold LocalRecover. rewrite Hf.
  rewrite (LocalRecover_file offset _ ps recs []) by (rewrite ?app_nil_r; done). by destruct (stops offset recs).
Qed.

(** A torn last record: when the file ends inside a record (a crash
    between or inside the two writes of [Record]), recovery without an offset
    applies every complete record and then returns an error, where the cache
    log ends quietly. *)
Theorem history_file_torn (ps : list (list Byte.byte)) (recs : list SchemaHistoryRecord)
    (p : list Byte.byte) (n : nat) (t : Tables)
    (Hall : Forall2 hist_decodes ps recs) (Hp : zlen p < 2 ^ 32)
    (Hn : 0 < Z.of_nat n < zlen (hist_frame p)) :
  ∃ e, LocalRecover None (mkLocalHistory (Some (hist_bytes ps ++ take n (hist_frame p)))) t =
       (replay None recs t, Err e).
Proof.
  unfold LocalRecover. cbn [lh_file]. rewrite (LocalRecover_file None _ ps recs (take n (hist_frame p))) by done.
  assert (Hs : stops None recs = false) by (clear; induction recs; done). rewrite Hs. cbn [recover_loop].
  rewrite hist_frame_length in Hn. pose proof (hist_frame_length p) as Hfl.
  assert (Hlen : zlen (take n (hist_frame p)) = Z.of_nat n) by (unfold zlen in *; rewrite length_take; lia).
  unfold read_history_record, ReadFull at 1. cbn [Z.leb Z.compare].
  rewrite Hlen, (proj2 (Z.eqb_neq _ _)) by lia.
  destruct (Z.ltb_spec (Z.of_nat n) 4) as [Hlt|Hge]; [eauto|].
  assert (Hh : take 4 (take n (hist_frame p)) = put_be32 (zlen p)).
  { rewrite take_take, Nat.min_l by lia. unfold hist_frame. by rewrite take_length_app_eq. }
  assert (Hd : drop 4 (take n (hist_frame p)) = take (n - 4) p).
  { unfold hist_frame. rewrite skipn_firstn_comm. by rewrite drop_length_app_eq. }
  change (Z.to_nat 4) with 4%nat. rewrite Hh, Hd, get_put_be32 by (pose proof (zlen_nonneg p); lia).
  destruct (ReadFull_short (zlen p) (take (n - 4) p)) as [e He]; [|unfold zlen in *; rewrite length_take; lia|].
  { unfold zlen in *. lia. }
  rewrite He. eauto.
Qed.

End LocalHistoryProofs.

(** ** The manager keeps the tables and the history in step *)

Section ManagerProofs.
Context {H : Type} `{!SchemaHistory H} `{!SchemaHistoryLaws H}.

Inductive mgr_op :=
  | MCreate (now : time) (rec : DDLRecord)
  | MApplying (now : time) (id : string)
  | MCompleted (now : time) (id : string)
  | MFailed (id err : string)
  | MSkipped (id : string).

Definition run_mgr (op : mgr_op) : ST (DDLRecordManager H) unit :=
  match op with
  | MCreate now rec => Create now rec
  | MApplying now id => MarkApplying now id
  | MCompleted now id => MarkCompleted now id
  | MFailed id err => MarkFailed id err
  | MSkipped id => MarkSkipped id
  end.

(** The history record a completion writes. *)
Definition completion_of (m : DDLRecordManager H) (now : time) (rec : DDLRecord) : result SchemaHistoryRecord :=
  history_record now (changeTypeFromDDL (dm_tables m) rec) rec.

Lemma MarkCompleted_spec now id m rec hr :
  dm_records m !! id = Some rec → completion_of m now rec = Ok hr →
  ∃ recs', MarkCompleted now id m =
    (mkDDLRecordManager recs' (apply_history (dm_tables m) hr) (hist_Record hr (dm_history m)).1,
     (hist_Record hr (dm_history m)).2).
Proof.
  intros Hid Hhr. unfold MarkCompleted. rewrite (bind_ok _ _ m m rec) by (unfold find_record; by rewrite Hid).
  unfold completion_of, history_record in Hhr. destruct (dr_Position rec) as [pos|] eqn:Ep; simplify_eq.
  unfold mbind, ST_bind, put_record, st_modify, st_get, st_lift, on_history, history_record, dr_set.
  cbn [dr_Position dr_NewTableInfo dr_Database dr_Table dr_DDL dm_tables dm_history set_tables].
  rewrite Ep. unfold changeTypeFromDDL. cbn [dr_Position dr_NewTableInfo dr_Database dr_Table dr_DDL dm_tables].
  destruct (hist_Record _ _) as [h r]. eexists. f_equal. f_equal.
  unfold apply_history, apply_record. cbn. by destruct (dr_NewTableInfo rec).
Qed.

Lemma MarkCompleted_nil_position now id m rec e :
  dm_records m !! id = Some rec → completion_of m now rec = Err e →
  ∀ m', MarkCompleted now id m ≠ (m', Ok tt).
Proof.
  intros Hid Hhr m'. unfold MarkCompleted. rewrite (bind_ok _ _ m m rec) by (unfold find_record; by rewrite Hid).
  unfold completion_of, history_record in Hhr. destruct (dr_Position rec) as [pos|] eqn:Ep; [done|].
  unfold mbind, ST_bind, put_record, st_modify, st_get, st_lift, history_record, dr_set.
  cbn [dr_Position]. by rewrite Ep.
Qed.

Definition mgr_step (m : DDLRecordManager H) (l : mgr_op * result unit) (m' : DDLRecordManager H) : Prop :=
  run_mgr l.1 m = (m', l.2).

(** Where a call completes a known record, it succeeds, and what it writes can be read
    back by the history.  Other calls are not constrained. *)
Definition recorded (m : DDLRecordManager H) (l : mgr_op * result unit) : Prop :=
  match l.1 with
  | MCompleted now id =>
      ∀ rec, dm_records m !! id = Some rec →
        l.2 = Ok tt ∧ ∀ hr, completion_of m now rec = Ok hr → hist_ok hr
  | _ => True
  end.

Definition mgr_inv (m : DDLRecordManager H) : Prop :=
  ∃ recs, hist_holds (dm_history m) recs ∧ dm_tables m = replay None recs NewTables.

Lemma find_put_tables (m : DDLRecordManager H) id f m' r :
  (find_record id ≫= λ rec, put_record id (f rec)) m = (m', r) →
  dm_tables m' = dm_tables m ∧ dm_history m' = dm_history m.
Proof.
  unfold mbind, ST_bind, find_record, put_record, st_modify.
  by destruct (dm_records m !! id); intros; simplify_eq.
Qed.

Lemma mgr_inv_step m l m' : mgr_inv m → mgr_step m l m' ∧ recorded m l → mgr_inv m'.
Proof.
  intros (recs & Hh & Ht) [Hrun Hok]. unfold mgr_step, recorded in *. destruct l as [op r]. cbn [fst snd] in *.
  assert (Hframe : dm_tables m' = dm_tables m ∧ dm_history m' = dm_history m → mgr_inv m').
  { intros [E1 E2]. exists recs. by rewrite E1, E2. }
  destruct op as [now rec|now id|now id|id err|id]; cbn [run_mgr] in Hrun.
  - apply Hframe. unfold Create, st_modify in Hrun. by simplify_eq.
  - apply Hframe. by apply find_put_tables in Hrun.
  - destruct (dm_records m !! id) as [rec|] eqn:Eid.
    + destruct (Hok rec eq_refl) as [-> Hhr].
      destruct (completion_of m now rec) as [hr|e] eqn:Ehr.
      * destruct (MarkCompleted_spec now id m rec hr Eid Ehr) as [recs' Hm]. rewrite Hm in Hrun.
        destruct (hist_Record hr (dm_history m)) as [h r1] eqn:Erec. simplify_eq/=.
        exists (recs ++ [hr]). cbn. split; [eapply hist_Record_appends; eauto|].
        rewrite replay_app, <- Ht. done.
      * by destruct (MarkCompleted_nil_position now id m rec e Eid Ehr m').
    + apply Hframe. unfold MarkCompleted in Hrun.
      rewrite (bind_err _ _ m m (ErrWrapf id ErrDDLRecordNotFound)) in Hrun
        by (unfold find_record; by rewrite Eid). by simplify_eq.
  - apply Hframe. by apply find_put_tables in Hrun.
  - apply Hframe. by apply find_put_tables in Hrun.
Qed.

(** C15. The tables and the history stay in step as long as the history takes the
    completions: after any sequence of manager operations in which every completion of a
    known record succeeded and wrote what can be read back, recovering the history into
    empty tables gives exactly the tables the manager holds.  Creating, marking, failing and
    skipping records, and calls for unknown ones, leave both alone. *)
Theorem manager_history_recovers_tables (h0 : H) (ls : list (mgr_op * result unit)) (m : DDLRecordManager H)
    (Hempty : hist_holds h0 [])
    (Hrun : runs (λ m l m', mgr_step m l m' ∧ recorded m l) (NewDDLRecordManager NewTables h0) ls m) :
  hist_Recover None (dm_history m) NewTables = (dm_tables m, Ok tt).
Proof.
  assert (Hinv : mgr_inv m).
  { eapply (runs_invariant _ mgr_inv); [apply mgr_inv_step|exact Hrun|]. by exists []. }
  destruct Hinv as (recs & Hh & ->). by apply hist_Recover_replays.
Qed.

(** A history failure splits the two: when [Record] fails, a completion
    returns the error after the tables have been updated, and nothing undoes
    it. *)
Theorem manager_history_failure_diverges (now : time) (id : string) (m : DDLRecordManager H)
    (rec : DDLRecord) (pos : Position) (info : TableInfo) (e : goerror)
    (Hid : dm_records m !! id = Some rec) (Hpos : dr_Position rec = Some pos)
    (Hinfo : dr_NewTableInfo rec = Some info)
    (Hfail : ∀ hr, (hist_Record hr (dm_history m)).2 = Err e) :
  ∃ m', MarkCompleted now id m = (m', Err e) ∧ dm_tables m' = Tables_Put info (dm_tables m).
Proof.
  assert (Hc : ∃ hr, completion_of m now rec = Ok hr ∧ shr_TableInfo hr = Some info).
  { unfold completion_of, history_record. rewrite Hpos. eexists. split; [done|]. done. }
  destruct Hc as (hr & Hc & Hti). destruct (MarkCompleted_spec now id m rec hr Hid Hc) as [recs' Hm].
  rewrite Hm, Hfail. eexists. split; [done|]. cbn. unfold apply_history, apply_record. by rewrite Hti.
Qed.

End ManagerProofs.

(** ** Concrete runs *)

Module HistoryRuns.

Definition users_info : TableInfo := mkTableInfo "app" "" "users" ["id"] [] [].

Definition created (ts : time) : SchemaHistoryRecord :=
  mkSchemaHistoryRecord Position_zero "app" "" "users" "CREATE TABLE users (id INT PRIMARY KEY)"
    (Some users_info) "CREATE" DDLStatusCompleted ts.

(** A codec for these records: one byte, the timestamp. *)
#[local] Instance created_json : JSONCodec SchemaHistoryRecord := {|
  json_Marshal r := Ok [byte_of_Z (shr_Timestamp r)];
  json_Unmarshal l :=
    match l with [b] => Ok (created (byte_to_Z b)) | _ => Err (ErrNew "unexpected end of JSON input") end
|}.
#[local] Instance run_history : SchemaHistory LocalSchemaHistory := file_history io_ok.
#[local] Instance run_laws : SchemaHistoryLaws LocalSchemaHistory := file_history_laws io_ok.

Lemma replay_is_filtered_fold_witness :
  replay (Some Position_zero) [created 1; created 2] NewTables =
  foldl apply_history NewTables
    (List.filter (λ r, negb (past_offset (Some Position_zero) (shr_Position r))) [created 1; created 2]).
Proof.
  apply (replay_is_filtered_fold (Some Position_zero) [created 1; created 2] NewTables).
  repeat constructor; cbn; lia.
Defined.

Lemma history_file_roundtrip_witness :
  ∃ h, record_all [created 1; created 2] (NewLocalSchemaHistory None) = (h, Ok tt) ∧
    LocalRecover None h NewTables = (replay None [created 1; created 2] NewTables, Ok tt).
Proof.
  apply (history_file_roundtrip [created 1; created 2] None NewTables).
  repeat constructor; (eexists; split; [reflexivity|split; [reflexivity|vm_compute; reflexivity]]).
Defined.

Lemma history_file_torn_witness :
  ∃ e, LocalRecover None
      (mkLocalHistory (Some (hist_bytes [[byte_of_Z 1]] ++ take 2 (hist_frame [byte_of_Z 2])))) NewTables =
    (replay None [created 1] NewTables, Err e).
Proof.
  apply (history_file_torn [[byte_of_Z 1]] [created 1] [byte_of_Z 2] 2 NewTables).
  - repeat constructor.
  - vm_compute. reflexivity.
  - vm_compute. split; reflexivity.
Defined.

Definition users_ddl : DDLRecord :=
  mkDDLRecord "1" (Some Position_zero) "app" "users" "CREATE TABLE users (id INT PRIMARY KEY)"
    (Some users_info) DDLStatusPending None None "" 0 0.

Definition after_create : DDLRecordManager LocalSchemaHistory :=
  (run_mgr (MCreate 5 users_ddl) (NewDDLRecordManager NewTables (NewLocalSchemaHistory None))).1.
Definition after_completed : DDLRecordManager LocalSchemaHistory :=
  (run_mgr (MCompleted 7 "1") after_create).1.

Lemma manager_run :
  runs (λ m l m', mgr_step m l m' ∧ recorded m l) (NewDDLRecordManager NewTables (NewLocalSchemaHistory None))
    [(MCreate 5 users_ddl, Ok tt); (MCompleted 7 "1", Ok tt)] after_completed.
Proof.
  apply (runs_cons _ _ _ after_create); [split; [vm_compute; reflexivity|done]|].
  apply (runs_cons _ _ _ after_completed); [|constructor].
  split; [vm_compute; reflexivity|]. cbn [fst snd]. intros rec Hrec. split; [reflexivity|]. intros hr Hhr.
  vm_compute in Hrec. injection Hrec as <-. vm_compute in Hhr. injection Hhr as <-.
  eexists. split; [reflexivity|]. split; [vm_compute; reflexivity|vm_compute; reflexivity].
Qed.

Lemma manager_history_recovers_tables_witness :
  hist_Recover None (dm_history after_completed) NewTables = (dm_tables after_completed, Ok tt).
Proof.
  apply (manager_history_recovers_tables (NewLocalSchemaHistory None)
    [(MCreate 5 users_ddl, Ok tt); (MCompleted 7 "1", Ok tt)] after_completed).
  - exists []. split; [reflexivity|constructor].
  - exact manager_run.
Defined.

Definition full_disk : io := mkIO None (λ _, WriteShort 0 (ErrNew "ENOSPC")) None None None.

Lemma manager_history_failure_diverges_witness :
  ∃ m', @MarkCompleted _ (file_history full_disk) 7 "1" after_create =
      (m', Err (ErrWrapf "write length" (ErrNew "ENOSPC"))) ∧
    dm_tables m' = Tables_Put users_info (dm_tables after_create).
Proof.
  apply (@manager_history_failure_diverges _ (file_history full_disk)
    7 "1" after_create (dr_set DDLStatusPending None None "" 5 users_ddl) Position_zero users_info).
  - vm_compute. reflexivity.
  - reflexivity.
  - reflexivity.
  - intros hr. vm_compute. reflexivity.
Defined.

End HistoryRuns.
