(* ===== verification/TargetStore.v ===== *)
(** Task metadata in the target database (internal/store): the [TargetStore]
    interface, its MySQL implementation and the no-op one, and the adapters
    that use a store as a schema history (internal/schema/store_history.go and
    target_store_history.go).

    The MySQL store is modelled at the level of its statements: the five tables
    of [InitDatabase] with their keys, [INSERT ... ON DUPLICATE KEY UPDATE] as an
    update of the row with that key, [AUTO_INCREMENT] and [ORDER BY id] as an
    append-only list.  A JSON column may give back the text in another form,
    [json_column]; timestamps the server fills in are left out.  Whether the
    [USE] and the statement of a call fail is an argument ([sqlio]). *)
From Stdlib Require Import ZArith Lia.
From Stdlib Require Strings.Byte Ascii String.
From stdpp Require Import prelude countable gmap strings list fin_maps.
From S2P Require Import Prelude Events CacheLog SchemaHistory.
Local Open Scope Z_scope.

(** ** store.go *)

Record TableLifecycleRow := mkTableLifecycleRow {
  lr_DBName : string;
  lr_TableName : string;
  lr_State : string;
  lr_SnapshotPosition : option Position;
  lr_ErrorMsg : string
}.

Record SchemaHistoryRow := mkSchemaHistoryRow {
  sr_ID : Z;
  sr_Position : Position;
  sr_DBName : string;
  sr_TableName : string;
  sr_DDL : string;
  sr_TableInfo : option TableInfo;
  sr_ChangeType : string
}.

Record DDLStateRow := mkDDLStateRow {
  ds_DBName : string;
  ds_TableName : string;
  ds_DDL : string;
  ds_LastSuccessInfo : option TableInfo;
  ds_Status : string;
  ds_ErrorMsg : string;
  ds_RetryCount : Z
}.

Class TargetStore (S : Type) := {
  SaveFlushedPosition : option Position → ST S unit;
  SaveCurrentPosition : option Position → ST S unit;
  LoadPositions : ST S (option Position * option Position);
  SaveTableLifecycle : string → string → string → option Position → string → ST S unit;
  LoadTableLifecycles : ST S (list TableLifecycleRow);
  DeleteTableLifecycle : string → string → ST S unit;
  SaveSchemaHistory : SchemaHistoryRow → ST S unit;
  LoadSchemaHistory : ST S (list SchemaHistoryRow);
  SaveDDLState : DDLStateRow → ST S unit;
  LoadDDLState : string → string → ST S (option DDLStateRow);
  LoadPendingDDLStates : ST S (list DDLStateRow);
  DeleteDDLState : string → string → ST S unit;
  SaveCommittedPosition : string → ST S unit;
  LoadCommittedPosition : ST S string
}.

(** ** noop_store.go *)

Definition NoopStore : TargetStore unit := {|
  SaveFlushedPosition _ := mret tt;
  SaveCurrentPosition _ := mret tt;
  LoadPositions := mret (None, None);
  SaveTableLifecycle _ _ _ _ _ := mret tt;
  LoadTableLifecycles := mret [];
  DeleteTableLifecycle _ _ := mret tt;
  SaveSchemaHistory _ := mret tt;
  LoadSchemaHistory := mret [];
  SaveDDLState _ := mret tt;
  LoadDDLState _ _ := mret None;
  LoadPendingDDLStates := mret [];
  DeleteDDLState _ _ := mret tt;
  SaveCommittedPosition _ := mret tt;
  LoadCommittedPosition := mret ""
|}.

(** ** mysql_store.go *)

(** [sanitizeTaskID] ranges over runes: a multi-byte rune gives one
    underscore. *)
Definition sanitizeTaskID (id : string) : string := sanitizeTableID id.

Definition store_dbName (taskID : string) : string := "ds_" +:+ sanitizeTaskID taskID.

Record lifecycle_cols := mkLifecycleCols {
  lcol_state : string; lcol_position : option (list Byte.byte); lcol_error : string }.
Record history_cols := mkHistoryCols {
  hcol_id : Z; hcol_position : list Byte.byte; hcol_db : string; hcol_tbl : string; hcol_ddl : string;
  hcol_info : list Byte.byte; hcol_change : string }.
Record ddl_cols := mkDDLCols {
  dcol_ddl : string; dcol_info : option (list Byte.byte); dcol_status : string; dcol_error : string;
  dcol_retry : Z }.

Record MySQLDB := mkMySQLDB {
  my_task_position : option (list Byte.byte * list Byte.byte);   (* flushed, current *)
  my_table_lifecycle : gmap (string * string) lifecycle_cols;
  my_schema_history : list history_cols;
  my_ddl_state : gmap (string * string) ddl_cols;
  my_committed : option string
}.

Definition InitDatabase : MySQLDB := mkMySQLDB None ∅ [] ∅ None.

(** The outcome of [USE] and of the statement of one call. *)
Record sqlio := mkSQLIO { sql_use : option goerror; sql_exec : option goerror }.
Definition sql_ok : sqlio := mkSQLIO None None.

(** The JSON text of a nil pointer. *)
Definition null_json : list Byte.byte := String.list_byte_of_string "null".

Section MySQL.
Context `{!JSONCodec Position} `{!JSONCodec TableInfo} (json_column : list Byte.byte → list Byte.byte)
  `{!GoRange (string * string) lifecycle_cols} `{!GoRange (string * string) ddl_cols}.

Definition marshalJSON {A} `{!JSONCodec A} (v : option A) : result (list Byte.byte) :=
  match v with Some a => json_Marshal a | None => Ok null_json end.

Definition unmarshalPosition (data : list Byte.byte) : result (option Position) :=
  match data with [] => Ok None | _ => p ← json_Unmarshal data; Ok (Some p) end.

Definition unmarshalTableInfo (data : list Byte.byte) : result (option TableInfo) :=
  match data with [] => Ok None | _ => t ← json_Unmarshal data; Ok (Some t) end.

Definition useDB (w : sqlio) : ST MySQLDB unit :=
  st_lift (match sql_use w with Some e => Err e | None => Ok tt end).

Definition exec (w : sqlio) (f : MySQLDB → MySQLDB) : ST MySQLDB unit := λ d,
  match sql_exec w with Some e => (d, Err e) | None => (f d, Ok tt) end.

Definition query {A} (w : sqlio) (f : MySQLDB → result A) : ST MySQLDB A := λ d,
  match sql_exec w with Some e => (d, Err e) | None => (d, f d) end.

Definition my_SaveFlushedPosition (w : sqlio) (pos : option Position) : ST MySQLDB unit :=
  useDB w ≫= λ _,
  data ← st_lift (marshalJSON pos);
  exec w (λ d, mkMySQLDB
    (match my_task_position d with
     | None => Some (json_column data, json_column data)
     | Some (_, current) => Some (json_column data, current)
     end) (my_table_lifecycle d) (my_schema_history d) (my_ddl_state d) (my_committed d)).

Definition my_SaveCurrentPosition (w : sqlio) (pos : option Position) : ST MySQLDB unit :=
  useDB w ≫= λ _,
  data ← st_lift (marshalJSON pos);
  exec w (λ d, mkMySQLDB
    (match my_task_position d with
     | None => None
     | Some (flushed, _) => Some (flushed, json_column data)
     end) (my_table_lifecycle d) (my_schema_history d) (my_ddl_state d) (my_committed d)).

Definition my_LoadPositions (w : sqlio) : ST MySQLDB (option Position * option Position) :=
  useDB w ≫= λ _,
  query w (λ d,
    match my_task_position d with
    | None => Ok (None, None)
    | Some (f, c) =>
        flushed ← unmarshalPosition f;
        current ← unmarshalPosition c;
        Ok (flushed, current)
    end).

Definition my_SaveTableLifecycle (w : sqlio) (db tbl state : string) (snapshotPos : option Position)
    (errMsg : string) : ST MySQLDB unit :=
  useDB w ≫= λ _,
  posData ← st_lift (match snapshotPos with
                     | None => Ok None
                     | Some p => data ← json_Marshal p; Ok (Some (json_column data))
                     end);
  exec w (λ d, mkMySQLDB (my_task_position d)
    (<[(db, tbl) := mkLifecycleCols state posData errMsg]> (my_table_lifecycle d))
    (my_schema_history d) (my_ddl_state d) (my_committed d)).

Definition my_LoadTableLifecycles (w : sqlio) : ST MySQLDB (list TableLifecycleRow) :=
  useDB w ≫= λ _,
  query w (λ d, Ok ((λ '((db, tbl), c),
    mkTableLifecycleRow db tbl (lcol_state c)
      (match unmarshalPosition (default [] (lcol_position c)) with Ok p => p | Err _ => None end)
      (lcol_error c)) <$> go_range (my_table_lifecycle d))).

Definition my_DeleteTableLifecycle (w : sqlio) (db tbl : string) : ST MySQLDB unit :=
  useDB w ≫= λ _,
  exec w (λ d, mkMySQLDB (my_task_position d) (delete (db, tbl) (my_table_lifecycle d))
    (my_schema_history d) (my_ddl_state d) (my_committed d)).

Definition my_SaveSchemaHistory (w : sqlio) (rec : SchemaHistoryRow) : ST MySQLDB unit :=
  useDB w ≫= λ _,
  posData ← st_lift (json_Marshal (sr_Position rec));
  tiData ← st_lift (marshalJSON (sr_TableInfo rec));
  exec w (λ d, mkMySQLDB (my_task_position d) (my_table_lifecycle d)
    (my_schema_history d ++
       [mkHistoryCols (zlen (my_schema_history d) + 1) (json_column posData) (sr_DBName rec) (sr_TableName rec)
          (sr_DDL rec) (json_column tiData) (sr_ChangeType rec)])
    (my_ddl_state d) (my_committed d)).

Definition history_row (c : history_cols) : SchemaHistoryRow :=
  mkSchemaHistoryRow (hcol_id c)
    (match unmarshalPosition (hcol_position c) with Ok (Some p) => p | _ => Position_zero end)
    (hcol_db c) (hcol_tbl c) (hcol_ddl c)
    (match unmarshalTableInfo (hcol_info c) with Ok t => t | Err _ => None end)
    (hcol_change c).

Definition my_LoadSchemaHistory (w : sqlio) : ST MySQLDB (list SchemaHistoryRow) :=
  useDB w ≫= λ _, query w (λ d, Ok (history_row <$> my_schema_history d)).

Definition my_SaveDDLState (w : sqlio) (rec : DDLStateRow) : ST MySQLDB unit :=
  useDB w ≫= λ _,
  lastData ← st_lift (match ds_LastSuccessInfo rec with
                      | None => Ok None
                      | Some t => data ← json_Marshal t; Ok (Some (json_column data))
                      end);
  exec w (λ d, mkMySQLDB (my_task_position d) (my_table_lifecycle d) (my_schema_history d)
    (<[(ds_DBName rec, ds_TableName rec) :=
         mkDDLCols (ds_DDL rec) lastData (ds_Status rec) (ds_ErrorMsg rec) (ds_RetryCount rec)]>
       (my_ddl_state d)) (my_committed d)).

Definition ddl_row (k : string * string) (c : ddl_cols) : DDLStateRow :=
  mkDDLStateRow k.1 k.2 (dcol_ddl c)
    (match unmarshalTableInfo (default [] (dcol_info c)) with Ok t => t | Err _ => None end)
    (dcol_status c) (dcol_error c) (dcol_retry c).

Definition my_LoadDDLState (w : sqlio) (db tbl : string) : ST MySQLDB (option DDLStateRow) :=
  useDB w ≫= λ _, query w (λ d, Ok (ddl_row (db, tbl) <$> my_ddl_state d !! (db, tbl))).

Definition my_LoadPendingDDLStates (w : sqlio) : ST MySQLDB (list DDLStateRow) :=
  useDB w ≫= λ _,
  query w (λ d, Ok ((λ '(k, c), ddl_row k c) <$>
    List.filter (λ kc, bool_decide (dcol_status kc.2 = "applying")) (go_range (my_ddl_state d)))).

Definition my_DeleteDDLState (w : sqlio) (db tbl : string) : ST MySQLDB unit :=
  useDB w ≫= λ _,
  exec w (λ d, mkMySQLDB (my_task_position d) (my_table_lifecycle d) (my_schema_history d)
    (delete (db, tbl) (my_ddl_state d)) (my_committed d)).

Definition my_SaveCommittedPosition (w : sqlio) (gtidSet : string) : ST MySQLDB unit :=
  useDB w ≫= λ _,
  exec w (λ d, mkMySQLDB (my_task_position d) (my_table_lifecycle d) (my_schema_history d)
    (my_ddl_state d) (Some gtidSet)).

Definition my_LoadCommittedPosition (w : sqlio) : ST MySQLDB string :=
  useDB w ≫= λ _, query w (λ d, Ok (default "" (my_committed d))).

Definition MySQLStore (w : sqlio) : TargetStore MySQLDB := {|
  SaveFlushedPosition := my_SaveFlushedPosition w;
  SaveCurrentPosition := my_SaveCurrentPosition w;
  LoadPositions := my_LoadPositions w;
  SaveTableLifecycle := my_SaveTableLifecycle w;
  LoadTableLifecycles := my_LoadTableLifecycles w;
  DeleteTableLifecycle := my_DeleteTableLifecycle w;
  SaveSchemaHistory := my_SaveSchemaHistory w;
  LoadSchemaHistory := my_LoadSchemaHistory w;
  SaveDDLState := my_SaveDDLState w;
  LoadDDLState := my_LoadDDLState w;
  LoadPendingDDLStates := my_LoadPendingDDLStates w;
  DeleteDDLState := my_DeleteDDLState w;
  SaveCommittedPosition := my_SaveCommittedPosition w;
  LoadCommittedPosition := my_LoadCommittedPosition w
|}.
End MySQL.

(** ** The adapters *)

Section Adapter.
Context {S : Type} `{!TargetStore S}.

(** [TargetStoreSchemaHistory] and [StoreSchemaHistory] differ only in the
    creation time they set, which the store ignores. *)
Definition row_of (record : SchemaHistoryRecord) : SchemaHistoryRow :=
  mkSchemaHistoryRow 0 (shr_Position record) (shr_Database record) (shr_Table record) (shr_DDL record)
    (shr_TableInfo record) (shr_ChangeType record).

Definition TargetStoreRecord (record : SchemaHistoryRecord) : ST S unit := SaveSchemaHistory (row_of record).

Definition apply_row (t : Tables) (row : SchemaHistoryRow) : Tables :=
  apply_record t (sr_TableInfo row) (sr_ChangeType row) (sr_DBName row) (sr_TableName row).

Fixpoint replay_rows (offset : option Position) (rows : list SchemaHistoryRow) (t : Tables) : Tables :=
  match rows with
  | [] => t
  | row :: rows =>
      if past_offset offset (sr_Position row) then t else replay_rows offset rows (apply_row t row)
  end.

Definition TargetStoreRecover (offset : option Position) (s : S) : ST Tables unit := λ t,
  match (LoadSchemaHistory s).2 with
  | Err e => (t, Err e)
  | Ok rows => (replay_rows offset rows t, Ok tt)
  end.

Definition TargetStoreExists : ST S bool :=
  rows ← LoadSchemaHistory; mret (bool_decide (rows ≠ [])).

#[export] Instance target_store_history : SchemaHistory S := {|
  hist_Record := TargetStoreRecord; hist_Recover := TargetStoreRecover |}.
End Adapter.

(** ** Stores that fail, and what was asked of a store *)

Definition on_first {S X A} (m : ST S A) : ST (S * X) A := λ '(s, x), let '(s', r) := m s in ((s', x), r).

(** A store with the calls that saved a row of the history, and their answers. *)
Definition observed (S : Type) : Type := S * list (SchemaHistoryRow * result unit).

Definition observed_store {S} `{!TargetStore S} : TargetStore (observed S) := {|
  SaveFlushedPosition p := on_first (SaveFlushedPosition p);
  SaveCurrentPosition p := on_first (SaveCurrentPosition p);
  LoadPositions := on_first LoadPositions;
  SaveTableLifecycle db tbl state p e := on_first (SaveTableLifecycle db tbl state p e);
  LoadTableLifecycles := on_first LoadTableLifecycles;
  DeleteTableLifecycle db tbl := on_first (DeleteTableLifecycle db tbl);
  SaveSchemaHistory row := λ '(s, calls), let '(s', r) := SaveSchemaHistory row s in ((s', calls ++ [(row, r)]), r);
  LoadSchemaHistory := on_first LoadSchemaHistory;
  SaveDDLState row := on_first (SaveDDLState row);
  LoadDDLState db tbl := on_first (LoadDDLState db tbl);
  LoadPendingDDLStates := on_first LoadPendingDDLStates;
  DeleteDDLState db tbl := on_first (DeleteDDLState db tbl);
  SaveCommittedPosition g := on_first (SaveCommittedPosition g);
  LoadCommittedPosition := on_first LoadCommittedPosition
|}.

Section Failing.
Context `{!JSONCodec Position} `{!JSONCodec TableInfo} `{!JSONLaws Position} `{!JSONLaws TableInfo}
  (json_column : list Byte.byte → list Byte.byte)
  `{!GoRange (string * string) lifecycle_cols} `{!GoRange (string * string) ddl_cols}.

(** The MySQL store over a database whose statements may fail: the answers of the next
    ones, after which they succeed. *)
Definition failing_call {A} (f : TargetStore MySQLDB → ST MySQLDB A) : ST (MySQLDB * list sqlio) A := λ '(d, ws),
  let '(d', r) := f (MySQLStore json_column (default sql_ok (head ws))) d in ((d', tail ws), r).

Definition FailingStore : TargetStore (MySQLDB * list sqlio) := {|
  SaveFlushedPosition p := failing_call (λ _, SaveFlushedPosition p);
  SaveCurrentPosition p := failing_call (λ _, SaveCurrentPosition p);
  LoadPositions := failing_call (λ _, LoadPositions);
  SaveTableLifecycle db tbl state p e := failing_call (λ _, SaveTableLifecycle db tbl state p e);
  LoadTableLifecycles := failing_call (λ _, LoadTableLifecycles);
  DeleteTableLifecycle db tbl := failing_call (λ _, DeleteTableLifecycle db tbl);
  SaveSchemaHistory row := failing_call (λ _, SaveSchemaHistory row);
  LoadSchemaHistory := failing_call (λ _, LoadSchemaHistory);
  SaveDDLState row := failing_call (λ _, SaveDDLState row);
  LoadDDLState db tbl := failing_call (λ _, LoadDDLState db tbl);
  LoadPendingDDLStates := failing_call (λ _, LoadPendingDDLStates);
  DeleteDDLState db tbl := failing_call (λ _, DeleteDDLState db tbl);
  SaveCommittedPosition g := failing_call (λ _, SaveCommittedPosition g);
  LoadCommittedPosition := failing_call (λ _, LoadCommittedPosition)
|}.
End Failing.

(** ** What the consumer relies on: the DDL states form a map *)

Class DDLStateLaws (S : Type) `{!TargetStore S} := {
  ddl_view : S → gmap (string * string) DDLStateRow;
  ddl_storable : DDLStateRow → Prop;
  Load_law s db tbl : LoadDDLState db tbl s = (s, Ok (ddl_view s !! (db, tbl)));
  Save_law s row : ddl_storable row →
    ∃ s', SaveDDLState row s = (s', Ok tt) ∧
      ddl_view s' = <[(ds_DBName row, ds_TableName row) := row]> (ddl_view s);
  Delete_law s db tbl :
    ∃ s', DeleteDDLState db tbl s = (s', Ok tt) ∧ ddl_view s' = delete (db, tbl) (ddl_view s);
  History_law s row s' r : SaveSchemaHistory row s = (s', r) → ddl_view s' = ddl_view s
}.

(** What the MySQL store relies on of JSON columns and of [encoding/json]: the
    column keeps the value (not the text), JSON text is never empty, and a
    value that marshals is given back. *)
Class JSONColumn `{!JSONCodec Position} `{!JSONCodec TableInfo}
    (json_column : list Byte.byte → list Byte.byte) := {
  column_nonempty d : d ≠ [] → json_column d ≠ [];
  column_position d : d ≠ [] → json_Unmarshal (A := Position) (json_column d) = json_Unmarshal d;
  column_info d : d ≠ [] → json_Unmarshal (A := TableInfo) (json_column d) = json_Unmarshal d;
  text_position (p : Position) d : json_Marshal p = Ok d → d ≠ [];
  text_info (t : TableInfo) d : json_Marshal t = Ok d → d ≠ []
}.

Section MySQLProofs.
Context `{!JSONCodec Position} `{!JSONCodec TableInfo} `{!JSONLaws Position} `{!JSONLaws TableInfo}
  (json_column : list Byte.byte → list Byte.byte) `{!JSONColumn json_column}
  `{!GoRange (string * string) lifecycle_cols} `{!GoRange (string * string) ddl_cols}.

#[local] Instance my_store : TargetStore MySQLDB := MySQLStore json_column sql_ok.

Lemma load_position (p : Position) d :
  json_Marshal p = Ok d → json_Unmarshal d = Ok p → unmarshalPosition (json_column d) = Ok (Some p).
Proof.
  intros Hm Hu. pose proof (text_position _ _ Hm) as Hne. unfold unmarshalPosition.
  destruct (json_column d) as [|b l] eqn:E; [by destruct (column_nonempty d)|].
  rewrite <- E, column_position by done. by rewrite Hu.
Qed.

Lemma load_info (t : TableInfo) d :
  json_Marshal t = Ok d → json_Unmarshal d = Ok t → unmarshalTableInfo (json_column d) = Ok (Some t).
Proof.
  intros Hm Hu. pose proof (text_info _ _ Hm) as Hne. unfold unmarshalTableInfo.
  destruct (json_column d) as [|b l] eqn:E; [by destruct (column_nonempty d)|].
  rewrite <- E, column_info by done. by rewrite Hu.
Qed.

(** *** DDL states *)

Definition my_ddl_view (d : MySQLDB) : gmap (string * string) DDLStateRow :=
  map_imap (λ k c, Some (ddl_row k c)) (my_ddl_state d).

Lemma my_ddl_view_lookup d k : my_ddl_view d !! k = ddl_row k <$> my_ddl_state d !! k.
Proof. unfold my_ddl_view. rewrite map_lookup_imap. by destruct (my_ddl_state d !! k). Qed.

Definition my_ddl_storable (row : DDLStateRow) : Prop :=
  match ds_LastSuccessInfo row with Some t => json_wf t | None => True end.

Lemma my_Save_spec d row :
  my_ddl_storable row →
  ∃ d', my_SaveDDLState json_column sql_ok row d = (d', Ok tt) ∧
    my_ddl_view d' = <[(ds_DBName row, ds_TableName row) := row]> (my_ddl_view d).
Proof.
  intros Hst. unfold my_SaveDDLState, my_ddl_storable in *.
  destruct row as [db tbl ddl last status err retry]; cbn in *.
  assert (Hinfo : ∃ ld, (match last with
      | Some t => data ← json_Marshal t; Ok (Some (json_column data)) | None => Ok None end) = Ok ld ∧
      unmarshalTableInfo (default [] ld) = Ok last).
  { destruct last as [t|]; [|by exists None]. destruct (json_roundtrip t Hst) as (data & Hm & Hu).
    exists (Some (json_column data)). rewrite Hm. split; [done|]. cbn. by apply load_info. }
  destruct Hinfo as (ld & Hld & Hun).
  unfold mbind, ST_bind, useDB, st_lift, exec. cbn [sql_use sql_exec sql_ok]. unfold mbind in Hld. rewrite Hld.
  eexists. split; [done|]. apply map_eq. intros k. rewrite my_ddl_view_lookup. cbn.
  destruct (decide (k = (db, tbl))) as [->|Hne].
  - rewrite !lookup_insert_eq. cbn. unfold ddl_row. cbn. by rewrite Hun.
  - rewrite !lookup_insert_ne by done. by rewrite my_ddl_view_lookup.
Qed.

#[program]
Definition my_ddl_laws : DDLStateLaws MySQLDB := {|
  ddl_view := my_ddl_view; ddl_storable := my_ddl_storable |}.
Next Obligation.
  intros d db tbl. cbn. unfold my_LoadDDLState, mbind, ST_bind, useDB, st_lift, query. cbn [sql_use sql_exec sql_ok].
  by rewrite my_ddl_view_lookup.
Qed.
Next Obligation. intros d row. apply my_Save_spec. Qed.
Next Obligation.
  intros d db tbl. cbn. unfold my_DeleteDDLState, mbind, ST_bind, useDB, st_lift, exec. cbn [sql_use sql_exec sql_ok].
  eexists. split; [done|]. apply map_eq. intros k. rewrite my_ddl_view_lookup. cbn.
  destruct (decide (k = (db, tbl))) as [->|Hne].
  - by rewrite !lookup_delete_eq.
  - rewrite !lookup_delete_ne by done. by rewrite my_ddl_view_lookup.
Qed.
Next Obligation.
  intros d row d' r. cbn. unfold my_SaveSchemaHistory, mbind, ST_bind, useDB, st_lift, exec. cbn [sql_use sql_exec sql_ok].
  repeat case_match; intros; by simplify_eq.
Qed.

(** *** Schema history *)

Lemma my_SaveSchemaHistory_ok d rec d' :
  json_wf (shr_Position rec) → (∃ t, shr_TableInfo rec = Some t ∧ json_wf t) →
  TargetStoreRecord rec d = (d', Ok tt) →
  ∃ c, my_schema_history d' = my_schema_history d ++ [c] ∧
    history_row c = mkSchemaHistoryRow (hcol_id c) (shr_Position rec) (shr_Database rec) (shr_Table rec)
      (shr_DDL rec) (shr_TableInfo rec) (shr_ChangeType rec).
Proof.
  intros Hp (t & Ht & Hwf). destruct (json_roundtrip _ Hp) as (pd & Hpm & Hpu).
  destruct (json_roundtrip _ Hwf) as (td & Htm & Htu).
  unfold TargetStoreRecord. cbn. unfold my_SaveSchemaHistory, mbind, ST_bind, useDB, st_lift, exec.
  cbn [sql_use sql_exec sql_ok sr_Position row_of sr_TableInfo marshalJSON]. rewrite Hpm, Ht. cbn [marshalJSON].
  rewrite Htm. intros; simplify_eq/=. eexists. split; [done|]. unfold history_row. cbn.
  by rewrite (load_position _ _ Hpm Hpu), (load_info _ _ Htm Htu).
Qed.

Definition row_matches (c : history_cols) (rec : SchemaHistoryRecord) : Prop :=
  sr_Position (history_row c) = shr_Position rec ∧
  ∀ t, apply_row t (history_row c) = apply_history t rec.

Lemma replay_rows_matches offset cs recs t :
  Forall2 row_matches cs recs → replay_rows offset (history_row <$> cs) t = replay offset recs t.
Proof.
  intros Hall. revert t. induction Hall as [|c rec cs recs (Hp & Ha) _ IH]; intros t; [done|].
  cbn [fmap list_fmap replay_rows replay].
  rewrite Hp. destruct (past_offset offset (shr_Position rec)); [done|]. by rewrite Ha, IH.
Qed.

#[program]
Definition my_history_laws : SchemaHistoryLaws MySQLDB := {|
  hist_holds d recs := Forall2 row_matches (my_schema_history d) recs;
  hist_ok rec := json_wf (shr_Position rec) ∧ ∃ t, shr_TableInfo rec = Some t ∧ json_wf t
|}.
Next Obligation.
  cbn. intros d d' recs rec Hall [Hp Ht] Hrec.
  destruct (my_SaveSchemaHistory_ok d rec d' Hp Ht Hrec) as (c & -> & Hc).
  apply Forall2_app; [done|]. constructor; [|constructor]. unfold row_matches, apply_row. rewrite Hc. done.
Qed.
Next Obligation.
  intros d recs offset t Hall. cbn [hist_Recover target_store_history]. unfold TargetStoreRecover.
  assert (E : (LoadSchemaHistory d).2 = Ok (history_row <$> my_schema_history d)) by reflexivity.
  rewrite E. by rewrite (replay_rows_matches offset _ recs t Hall).
Qed.

(** *** Positions *)

(** The saves a task issues: [true] for a flushed position, [false] for a
    current one. *)
Definition save_position (op : bool * Position) : ST MySQLDB unit :=
  if op.1 then SaveFlushedPosition (Some op.2) else SaveCurrentPosition (Some op.2).

Fixpoint save_positions (ops : list (bool * Position)) : ST MySQLDB unit :=
  match ops with
  | [] => mret tt
  | op :: ops => save_position op ≫= λ _, save_positions ops
  end.

Definition position_step (st : option (Position * Position)) (op : bool * Position) : option (Position * Position) :=
  match op, st with
  | (true, p), None => Some (p, p)
  | (true, p), Some (_, c) => Some (p, c)
  | (false, _), None => None
  | (false, p), Some (f, _) => Some (f, p)
  end.

Definition positions_are (d : MySQLDB) (st : option (Position * Position)) : Prop :=
  match my_task_position d, st with
  | None, None => True
  | Some (f, c), Some (p, q) => unmarshalPosition f = Ok (Some p) ∧ unmarshalPosition c = Ok (Some q)
  | _, _ => False
  end.

Lemma save_position_spec op d st :
  json_wf op.2 → positions_are d st →
  ∃ d', save_position op d = (d', Ok tt) ∧ positions_are d' (position_step st op).
Proof.
  destruct op as [[] p]; cbn [fst snd]; intros Hwf Hd; destruct (json_roundtrip p Hwf) as (data & Hm & Hu);
    pose proof (load_position p data Hm Hu) as Hl; unfold save_position; cbn [fst snd].
  all: cbn [SaveFlushedPosition SaveCurrentPosition my_store MySQLStore].
  all: unfold my_SaveFlushedPosition, my_SaveCurrentPosition, mbind, ST_bind, useDB, st_lift, exec;
    cbn [sql_use sql_exec sql_ok marshalJSON]; rewrite Hm; eexists; (split; [reflexivity|]).
  all: unfold positions_are in *; cbn [my_task_position position_step].
  all: destruct (my_task_position d) as [[f c]|], st as [[p' q']|]; try done; cbn; tauto.
Qed.

Lemma save_positions_spec ops : ∀ d st,
  Forall (λ op, json_wf op.2) ops → positions_are d st →
  ∃ d', save_positions ops d = (d', Ok tt) ∧ positions_are d' (foldl position_step st ops).
Proof.
  induction ops as [|op ops IH]; intros d st Hwf Hd; [by exists d|].
  apply Forall_cons in Hwf as [Hop Hwf]. cbn [save_positions foldl].
  destruct (save_position_spec op d st Hop Hd) as (d1 & H1 & Hd1).
  rewrite (bind_ok _ _ _ _ _ H1). by apply IH.
Qed.

(** The stored task positions: [LoadPositions] gives back the last flushed
    and the last current position saved; the first flush also sets the current
    position, and a current position saved before any flush is lost without an
    error. *)
Theorem positions_roundtrip (ops : list (bool * Position)) (Hwf : Forall (λ op, json_wf op.2) ops) :
  ∃ d, save_positions ops InitDatabase = (d, Ok tt) ∧
    LoadPositions d = (d, Ok (match foldl position_step None ops with
                              | Some (f, c) => (Some f, Some c)
                              | None => (None, None)
                              end)).
Proof.
  destruct (save_positions_spec ops InitDatabase None Hwf) as (d & Hd & Hp); [done|].
  exists d. split; [done|].
  assert (E : LoadPositions d = (d, match my_task_position d with
    | None => Ok (None, None)
    | Some (f, c) =>
        flushed ← unmarshalPosition f; current ← unmarshalPosition c; Ok (flushed, current)
    end)) by reflexivity.
  rewrite E. unfold positions_are in Hp.
  destruct (my_task_position d) as [[f c]|], (foldl position_step None ops) as [[p q]|]; try done.
  destruct Hp as [-> ->]. done.
Qed.

(** A DROP does not survive the MySQL store: its nil table definition is
    stored as the JSON [null] and read back as an empty definition, which is not
    nil, so that recovery keeps the dropped table and adds a table without a
    name, where replaying the two records leaves no table. *)
Theorem drop_not_replayed (create drop : SchemaHistoryRecord) (info : TableInfo)
    (Hnull : json_Unmarshal null_json = Ok TableInfo_zero)
    (Hp1 : json_wf (shr_Position create)) (Hp2 : json_wf (shr_Position drop))
    (Hinfo : shr_TableInfo create = Some info) (Hwf : json_wf info)
    (Hnamed : tableKey (ti_Database info) (ti_Table info) ≠ ".")
    (Hdrop : shr_TableInfo drop = None ∧ shr_ChangeType drop = "DROP" ∧
             shr_Database drop = ti_Database info ∧ shr_Table drop = ti_Table info) :
  ∃ d t, (hist_Record create ≫= λ _, hist_Record drop) InitDatabase = (d, Ok tt) ∧
    hist_Recover None d NewTables = (t, Ok tt) ∧
    Tables_Get t (ti_Database info) (ti_Table info) = Some info ∧
    Tables_Get t "" "" = Some TableInfo_zero ∧
    replay None [create; drop] NewTables = NewTables.
Proof.
  destruct (json_roundtrip _ Hp1) as (pd1 & Hm1 & Hu1). destruct (json_roundtrip _ Hp2) as (pd2 & Hm2 & Hu2).
  destruct (json_roundtrip _ Hwf) as (td & Htm & Htu).
  cbn [hist_Record target_store_history]. unfold TargetStoreRecord. cbn [SaveSchemaHistory my_store MySQLStore].
  unfold my_SaveSchemaHistory, mbind, ST_bind, useDB, st_lift, exec.
  cbn [sql_use sql_exec sql_ok row_of sr_Position sr_TableInfo]. rewrite Hm1, Hinfo. cbn [marshalJSON].
  destruct Hdrop as (Hdrop & Hct & Hdb & Htb).
  rewrite Htm, Hm2, Hdrop. cbn [marshalJSON].
  eexists _, (Tables_Put TableInfo_zero (Tables_Put info NewTables)). split_and!; [reflexivity|..].
  - cbn [hist_Recover target_store_history]. unfold TargetStoreRecover.
    assert (E : ∀ d, (LoadSchemaHistory d).2 = Ok (history_row <$> my_schema_history d)) by reflexivity.
    rewrite E. cbn [my_schema_history InitDatabase app]. cbn [fmap list_fmap replay_rows past_offset].
    unfold apply_row, history_row.
    cbn [sr_TableInfo sr_ChangeType sr_DBName sr_TableName hcol_info hcol_position].
    rewrite (load_info _ _ Htm Htu). unfold unmarshalTableInfo.
    destruct (json_column null_json) as [|b l] eqn:En; [by destruct (column_nonempty null_json)|].
    rewrite <- En, column_info, Hnull by done. done.
  - unfold Tables_Get, Tables_Put. rewrite lookup_insert_ne by (symmetry; exact Hnamed).
    by rewrite lookup_insert_eq.
  - apply lookup_insert_eq.
  - cbn [replay past_offset]. unfold apply_history. rewrite Hinfo, Hdrop, Hct, Hdb, Htb. cbn [apply_record].
    rewrite bool_decide_eq_true_2 by done. unfold Tables_Remove, Tables_Put. by rewrite delete_insert_eq.
Qed.

End MySQLProofs.

(** ** Concrete runs *)

Module StoreRuns.

#[export] Instance position_json : JSONCodec Position := countable_codec Position.
#[export] Instance position_json_laws : JSONLaws Position := countable_codec_laws Position.

(** [null] unmarshals to the zero value, every other text as the encoding. *)
#[export] Instance info_json : JSONCodec TableInfo := {|
  json_Marshal := @json_Marshal _ (countable_codec TableInfo);
  json_Unmarshal l :=
    if decide (l = null_json) then Ok TableInfo_zero else @json_Unmarshal _ (countable_codec TableInfo) l
|}.

Lemma pos_bytes_cons p : ∃ b l, pos_bytes p = b :: l ∧ b ≠ Byte.x6e.
Proof. destruct p; cbn; eauto. Qed.

#[export] Program Instance info_json_laws : JSONLaws TableInfo := {| json_wf _ := True |}.
Next Obligation.
  intros t _. eexists. split; [reflexivity|]. cbn.
  destruct (pos_bytes_cons (encode t)) as (b & l & E & Hb).
  rewrite decide_False.
  - by rewrite bytes_pos_bytes; cbn; rewrite decode_encode.
  - rewrite E. intros [= ->]. done.
Qed.

#[export] Program Instance column_id : JSONColumn (λ d, d).
Next Obligation. done. Qed.
Next Obligation. done. Qed.
Next Obligation. done. Qed.
Next Obligation.
  intros p d H. cbn in H. injection H as <-. destruct (pos_bytes_cons (encode p)) as (b & l & -> & _). done.
Qed.
Next Obligation.
  intros t d H. cbn in H. injection H as <-. destruct (pos_bytes_cons (encode t)) as (b & l & -> & _). done.
Qed.

#[export] Instance lifecycle_range : GoRange (string * string) lifecycle_cols := sorted_range _ _.
#[export] Instance ddl_range : GoRange (string * string) ddl_cols := sorted_range _ _.
#[export] Instance run_store : TargetStore MySQLDB := MySQLStore (λ d, d) sql_ok.

Lemma positions_roundtrip_witness :
  ∃ d, save_positions (λ d, d) [(false, Position_zero); (true, Position_zero)] InitDatabase = (d, Ok tt) ∧
    LoadPositions d = (d, Ok (Some Position_zero, Some Position_zero)).
Proof.
  apply (positions_roundtrip (λ d, d) [(false, Position_zero); (true, Position_zero)]).
  repeat constructor.
Defined.

Definition users_info : TableInfo := mkTableInfo "app" "" "users" ["id"] [] [].
Definition create_users : SchemaHistoryRecord :=
  mkSchemaHistoryRecord Position_zero "app" "" "users" "CREATE TABLE users (id INT PRIMARY KEY)"
    (Some users_info) "CREATE" DDLStatusCompleted 1.
Definition drop_users : SchemaHistoryRecord :=
  mkSchemaHistoryRecord Position_zero "app" "" "users" "DROP TABLE users" None "DROP" DDLStatusCompleted 2.

Lemma drop_not_replayed_witness :
  ∃ d t, (hist_Record create_users ≫= λ _, hist_Record drop_users) InitDatabase = (d, Ok tt) ∧
    hist_Recover None d NewTables = (t, Ok tt) ∧
    Tables_Get t "app" "users" = Some users_info ∧
    Tables_Get t "" "" = Some TableInfo_zero ∧
    replay None [create_users; drop_users] NewTables = NewTables.
Proof.
  apply (drop_not_replayed (λ d, d) create_users drop_users users_info); try done.
Defined.

End StoreRuns.
