(* ===== verification/BinlogConsumer.v ===== *)
(** The binlog consumer (internal/lifecycle/binlog_consumer.go): it routes each
    change event by the life-cycle state of its table, and handles DDL
    synchronously with a state row per table in the target store.

    The consumer is written against interfaces: the target store, the cache
    backend, the sink and the DDL parser are classes.  Their calls happen in the
    order of the code, and the state they leave on an error path is kept. *)
From Stdlib Require Import ZArith Lia.
From Stdlib Require Strings.Byte.
From stdpp Require Import prelude countable gmap strings list fin_maps.
From S2P Require Import Prelude Events CacheLog TableLifecycle LifecycleStore SchemaHistory TargetStore.
Local Open Scope Z_scope.

(** ** Collaborators *)

(** [EventSink] *)
Class EventSink (K : Type) := { sink_Write : list ChangeEvent → ST K unit }.

(** The part of [parser.DDLResult] and [parser.DDLParser] the consumer uses. *)
Record DDLResult := mkDDLResult { NewTableInfo : option TableInfo }.
Class DDLParser := { ApplyDDL : option TableInfo → string → result DDLResult }.

Definition maxDDLRetries : Z := 3.

(** [Time.UnixMilli]: milliseconds since 1970, rounded down. *)
Definition unix_epoch : time := 62135596800 * 1000000000.
Definition UnixMilli (t : time) : Z := i64 ((t - unix_epoch) / 1000000).

Section Consumer.
Context {S C K : Type} `{!TargetStore S} `{!BinlogCacheBackend C} `{!EventSink K} {parser : DDLParser}
  `{!JSONCodec ChangeEvent} `{!JSONCodec Position}.

(** What [NewBinlogConsumer] fixes: the task, the source type, and which of the
    optional dependencies are set ([ddlDeps] for parser, tables and DDL
    records, [ddlStoreSet] for the store of the DDL states). *)
Record ConsumerConfig := mkConsumerConfig {
  cc_taskID : string;
  cc_sourceType : Z;
  cc_ddlDeps : bool;
  cc_ddlStoreSet : bool
}.
Context (cfg : ConsumerConfig).

Record BinlogConsumer := mkConsumer {
  bc_store : MemoryLifecycleStore;
  bc_cache : C;
  bc_sink : K;
  bc_tables : Tables;
  bc_ddlStore : S;
  bc_pending : Z                    (* pendingWg *)
}.

Definition with_store {A} (m : ST MemoryLifecycleStore A) : ST BinlogConsumer A := λ c,
  let '(x, r) := m (bc_store c) in
  (mkConsumer x (bc_cache c) (bc_sink c) (bc_tables c) (bc_ddlStore c) (bc_pending c), r).
Definition with_cache {A} (m : ST C A) : ST BinlogConsumer A := λ c,
  let '(x, r) := m (bc_cache c) in
  (mkConsumer (bc_store c) x (bc_sink c) (bc_tables c) (bc_ddlStore c) (bc_pending c), r).
Definition with_sink {A} (m : ST K A) : ST BinlogConsumer A := λ c,
  let '(x, r) := m (bc_sink c) in
  (mkConsumer (bc_store c) (bc_cache c) x (bc_tables c) (bc_ddlStore c) (bc_pending c), r).
Definition with_ddl {A} (m : ST S A) : ST BinlogConsumer A := λ c,
  let '(x, r) := m (bc_ddlStore c) in
  (mkConsumer (bc_store c) (bc_cache c) (bc_sink c) (bc_tables c) x (bc_pending c), r).
Definition set_tables_to (t : Tables) : ST BinlogConsumer unit :=
  st_modify (λ c, mkConsumer (bc_store c) (bc_cache c) (bc_sink c) t (bc_ddlStore c) (bc_pending c)).
Definition add_pending (n : Z) : ST BinlogConsumer unit :=
  st_modify (λ c, mkConsumer (bc_store c) (bc_cache c) (bc_sink c) (bc_tables c) (bc_ddlStore c) (bc_pending c + n)).

(** [pendingWg.Wait()]: events are routed one at a time, so a counter above
    zero would never come down. *)
Definition flushPending : ST BinlogConsumer unit := λ c,
  if bc_pending c =? 0 then (c, Ok tt) else (c, Err (Panic "all goroutines are asleep")).

Definition inferChangeType (result : DDLResult) (oldTable : option TableInfo) : string :=
  match NewTableInfo result with
  | None => "DROP"
  | Some _ => match oldTable with Some _ => "ALTER" | None => "CREATE" end
  end.

Definition eventToCacheEvent (ev : ChangeEvent) (sourceType : Z) : CacheEvent :=
  let payload := match json_Marshal ev with Ok d => d | Err _ => [] end in
  let ce := mkCacheEvent sourceType [] "" (pos_SeqNo (ev_Position ev)) false false payload
              (UnixMilli (ev_Timestamp ev)) 0 "" in
  let ce := (SetPosition ce (ev_Position ev)).1 in
  mkCacheEvent (ce_SourceType ce) (ce_Position ce) (pos_TxID (ev_Position ev)) (ce_EventSeq ce) (ce_IsBegin ce)
    (ce_IsCommit ce) (ce_Payload ce) (ce_TimestampMs ce) (ce_ByteOffset ce) (ce_SeqVal ce).

(** [_ = lc.Pause()] and [_ = lc.Resume()] followed by [_ = store.Save]. *)
Definition move_and_save (lc : loc) (m : ST TableLifecycle unit) : ST BinlogConsumer unit :=
  st_ignore (with_store (call lc m)) ≫= λ _, st_ignore (with_store (Save (cc_taskID cfg) lc)).

Definition handleDDLFailure (now : time) (db tbl ddl : string) (lastSuccessInfo : option TableInfo)
    (applyErr : goerror) : ST BinlogConsumer unit :=
  existing ← st_try (with_ddl (LoadDDLState db tbl));
  let retryCount := match existing with Ok (Some row) => ds_RetryCount row | _ => 0 end in
  let retryCount := i64 (retryCount + 1) in
  st_wrap "save ddl state (failed)"
    (with_ddl (SaveDDLState (mkDDLStateRow db tbl ddl lastSuccessInfo "failed" (error_string applyErr) retryCount)))
    ≫= λ _,
  lc ← st_try (with_store (Get (cc_taskID cfg) (mkTableID db "" tbl)));
  (match lc with Ok lc => move_and_save lc (Pause now) | Err _ => mret tt end) ≫= λ _,
  st_fail (ErrWrapf ("DDL failed for " +:+ db +:+ "." +:+ tbl) applyErr).

Definition handleDDL (now : time) (ev : ChangeEvent) : ST BinlogConsumer unit :=
  if negb (cc_ddlDeps cfg && cc_ddlStoreSet cfg) then mret tt
  else
    let db := ti_Database (ev_Table ev) in
    let tbl := ti_Table (ev_Table ev) in
    let ddl := metadata_get ev "ddl" in
    if bool_decide (ddl = "") then st_fail (ErrNew "DDL event missing 'ddl' metadata")
    else
      flushPending ≫= λ _,
      c ← st_get;
      let lastSuccessInfo := Tables_Get (bc_tables c) db tbl in
      st_wrap "save ddl state (applying)"
        (with_ddl (SaveDDLState (mkDDLStateRow db tbl ddl lastSuccessInfo "applying" "" 0))) ≫= λ _,
      c ← st_get;
      let oldTable := Tables_Get (bc_tables c) db tbl in
      match ApplyDDL oldTable ddl with
      | Err e => handleDDLFailure now db tbl ddl lastSuccessInfo e
      | Ok result =>
          w ← st_try (with_sink (sink_Write [ev]));
          match w with
          | Err e => handleDDLFailure now db tbl ddl lastSuccessInfo e
          | Ok _ =>
              c ← st_get;
              set_tables_to (match NewTableInfo result with
                             | Some info => Tables_Put info (bc_tables c)
                             | None => Tables_Remove db tbl (bc_tables c)
                             end) ≫= λ _,
              st_wrap "save schema history"
                (with_ddl (SaveSchemaHistory (mkSchemaHistoryRow 0 (ev_Position ev) db tbl ddl
                   (NewTableInfo result) (inferChangeType result oldTable)))) ≫= λ _,
              st_wrap "delete ddl state" (with_ddl (DeleteDDLState db tbl))
          end
      end.

(** The synthetic event of a retry. *)
Definition retry_event (db tbl ddl : string) : ChangeEvent :=
  mkChangeEvent "" SourceInfo_zero EventTypeDDL Position_zero (mkTableInfo db "" tbl [] [] [])
    RowData_zero RowData_zero 0 None None (Some {["ddl" := ddl]}).

Definition checkDDLState (now : time) (db tbl : string) : ST BinlogConsumer bool :=
  if negb (cc_ddlStoreSet cfg) then mret false
  else
    r ← st_try (with_ddl (LoadDDLState db tbl));
    match r with
    | Err _ | Ok None => mret false
    | Ok (Some ddlState) =>
        if bool_decide (ds_Status ddlState ≠ "failed") then mret true
        else if maxDDLRetries <=? ds_RetryCount ddlState then mret true
        else
          lc ← st_try (with_store (Get (cc_taskID cfg) (mkTableID db "" tbl)));
          match lc with
          | Err _ => mret true
          | Ok lc =>
              move_and_save lc (Resume now) ≫= λ _,
              st_ignore (handleDDL now (retry_event db tbl (ds_DDL ddlState))) ≫= λ _,
              mret true
          end
    end.

Definition event_table (ev : ChangeEvent) : TableID :=
  mkTableID (ti_Database (ev_Table ev)) (ti_Schema (ev_Table ev)) (ti_Table (ev_Table ev)).

Definition Route (now : time) (ev : ChangeEvent) : ST BinlogConsumer unit :=
  if IsDDL ev then handleDDL now ev
  else
    let tableID := event_table ev in
    blocked ← checkDDLState now (Database tableID) (Table tableID);
    if (blocked : bool) then mret tt
    else
      r ← st_try (with_store (Get (cc_taskID cfg) tableID));
      match r with
      | Err _ => mret tt
      | Ok lc =>
          obj ← with_store (deref lc);
          match GetState obj with
          | TableStateSnapshotting =>
              with_cache (cache_Write (TableID_String tableID) (eventToCacheEvent ev (cc_sourceType cfg)))
          | TableStateCatchingUp | TableStateStreaming =>
              add_pending 1 ≫= λ _,
              err ← st_try (with_sink (sink_Write [ev]));
              add_pending (-1) ≫= λ _,
              st_lift err
          | _ => mret tt
          end
      end.

(** [LifecyclePipeline.routeEvents]: every event of the source in order, the
    error of each discarded. *)
Fixpoint routeEvents (now : time) (events : list ChangeEvent) : ST BinlogConsumer unit :=
  match events with
  | [] => mret tt
  | ev :: events => st_ignore (Route now ev) ≫= λ _, routeEvents now events
  end.

(** ** The collaborators seen from the consumer *)

Context `{!DDLStateLaws S}.

Definition ddls (c : BinlogConsumer) : gmap (string * string) DDLStateRow := ddl_view (bc_ddlStore c).
Definition lifecycles (c : BinlogConsumer) : gmap TableID TableLifecycle :=
  store_view (bc_store c) (cc_taskID cfg).

Definition set_ddlStore (s : S) (c : BinlogConsumer) : BinlogConsumer :=
  mkConsumer (bc_store c) (bc_cache c) (bc_sink c) (bc_tables c) s (bc_pending c).
Definition set_store (s : MemoryLifecycleStore) (c : BinlogConsumer) : BinlogConsumer :=
  mkConsumer s (bc_cache c) (bc_sink c) (bc_tables c) (bc_ddlStore c) (bc_pending c).
Definition set_sink (k : K) (c : BinlogConsumer) : BinlogConsumer :=
  mkConsumer (bc_store c) (bc_cache c) k (bc_tables c) (bc_ddlStore c) (bc_pending c).

Lemma load_spec db tbl c : with_ddl (LoadDDLState db tbl) c = (c, Ok (ddls c !! (db, tbl))).
Proof. unfold with_ddl. rewrite Load_law. by destruct c. Qed.

Lemma try_ok {A} (m : ST BinlogConsumer A) c c' a : m c = (c', Ok a) → st_try m c = (c', Ok (Ok a)).
Proof. intros H. unfold st_try. by rewrite H. Qed.

Lemma save_spec row c :
  ddl_storable row →
  ∃ s', with_ddl (SaveDDLState row) c = (set_ddlStore s' c, Ok tt) ∧
    ddl_view s' = <[(ds_DBName row, ds_TableName row) := row]> (ddls c).
Proof.
  intros Hst. destruct (Save_law (bc_ddlStore c) row Hst) as (s' & Hs & Hv).
  exists s'. split; [|done]. unfold with_ddl. by rewrite Hs.
Qed.

(** Looking a table up, whatever the outcome, changes nothing. *)
Lemma get_spec id c :
  store_wf (bc_store c) →
  match lifecycles c !! id with
  | Some lc => ∃ l, st_try (with_store (Get (cc_taskID cfg) id)) c = (c, Ok (Ok l)) ∧
      task_tables (bc_store c) (cc_taskID cfg) !! id = Some l ∧ ms_heap (bc_store c) !! l = Some lc
  | None => ∃ e, st_try (with_store (Get (cc_taskID cfg) id)) c = (c, Ok (Err e))
  end.
Proof.
  intros Hwf. pose proof (Get_spec _ (cc_taskID cfg) id Hwf) as Hg. unfold lifecycles.
  unfold st_try, with_store.
  destruct (store_view (bc_store c) (cc_taskID cfg) !! id) as [lc|].
  - destruct Hg as (l & -> & ? & ?). exists l. by destruct c.
  - destruct Hg as (e & ->). exists (ErrNew e). by destruct c.
Qed.

(** A method that either yields a life cycle of the same table or rejects with
    a plain error and no effect. *)
Definition quiet (m : ST TableLifecycle unit) : Prop :=
  ∀ lc, (∃ lc', m lc = (lc', Ok tt) ∧ tl_TableID lc' = tl_TableID lc) ∨ (∃ msg, m lc = (lc, Err (ErrNew msg))).

Lemma Pause_quiet now : quiet (Pause now).
Proof. intros lc. unfold Pause. case_bool_decide; eauto. Qed.

Lemma Resume_quiet now : quiet (Resume now).
Proof. intros lc. unfold Resume. case_bool_decide; eauto. Qed.

Lemma move_and_save_spec id l lc m c :
  store_wf (bc_store c) → task_tables (bc_store c) (cc_taskID cfg) !! id = Some l →
  ms_heap (bc_store c) !! l = Some lc → quiet m →
  ∃ s', move_and_save l m c = (set_store s' c, Ok tt) ∧ store_wf s' ∧
    store_view s' (cc_taskID cfg) = <[id := (m lc).1]> (lifecycles c).
Proof.
  intros Hwf Hl Hlc Hm. set (s' := update_obj l (m lc).1 (bc_store c)).
  assert (Hid : tl_TableID lc = id).
  { destruct (swf_filed _ Hwf _ _ _ Hl) as (lc1 & Hlc1 & ?). rewrite Hlc in Hlc1. by simplify_eq. }
  assert (Hid' : tl_TableID (m lc).1 = id).
  { destruct (Hm lc) as [(lc' & -> & ?)|(msg & ->)]; cbn; congruence. }
  destruct (update_obj_spec _ _ _ _ _ _ Hwf Hl Hlc Hid') as [Hwf' Hv].
  exists s'. split_and!; [|done|by rewrite Hv, decide_True].
  unfold move_and_save.
  assert (Hc : st_ignore (with_store (call l m)) c = (set_store s' c, Ok tt)).
  { unfold st_ignore, with_store. destruct (m lc) as [lc' r] eqn:E.
    rewrite (call_spec _ _ _ _ _ _ Hlc E). subst s'. cbn [fst].
    destruct (Hm lc) as [(lc1 & E1 & _)|(msg & E1)]; rewrite E in E1; simplify_eq; done. }
  rewrite (bind_ok _ _ _ _ _ Hc). unfold st_ignore, with_store.
  cbn [set_store bc_store].
  rewrite (Save_filed s' (cc_taskID cfg) id l); [done|done|exact Hl].
Qed.

(** ** DDL *)

(** The state rows can all be stored, the sink and the other calls do not
    panic. *)
Definition all_storable : Prop := ∀ row, ddl_storable (S := S) row.
Definition sink_no_panic : Prop := ∀ evs k p, (sink_Write (K := K) evs k).2 ≠ Err (Panic p).
Definition store_no_panic : Prop := ∀ row s p, (SaveSchemaHistory (S := S) row s).2 ≠ Err (Panic p).
Definition no_panic {A} (r : result A) : Prop := ∀ p, r ≠ Err (Panic p).

(** The life cycles after the table of a failed DDL has been paused. *)
Definition pause_table (now : time) (id : TableID) (m : gmap TableID TableLifecycle) : gmap TableID TableLifecycle :=
  match m !! id with Some lc => <[id := (Pause now lc).1]> m | None => m end.

Lemma failure_spec now db tbl ddl last e c row0 :
  ddl_storable (S := S) (mkDDLStateRow db tbl ddl last "failed" (error_string e) (i64 (ds_RetryCount row0 + 1))) →
  store_wf (bc_store c) → ddls c !! (db, tbl) = Some row0 →
  ∃ c', handleDDLFailure now db tbl ddl last e c =
      (c', Err (ErrWrapf ("DDL failed for " +:+ db +:+ "." +:+ tbl) e)) ∧
    ddls c' = <[(db, tbl) := mkDDLStateRow db tbl ddl last "failed" (error_string e)
                               (i64 (ds_RetryCount row0 + 1))]> (ddls c) ∧
    lifecycles c' = pause_table now (mkTableID db "" tbl) (lifecycles c) ∧ store_wf (bc_store c') ∧
    bc_cache c' = bc_cache c ∧ bc_sink c' = bc_sink c ∧ bc_tables c' = bc_tables c ∧ bc_pending c' = bc_pending c.
Proof.
  intros Hst Hwf Hrow. unfold handleDDLFailure.
  rewrite (bind_ok _ _ _ _ _ (try_ok _ _ _ _ (load_spec db tbl c))), Hrow. cbn zeta.
  destruct (save_spec (mkDDLStateRow db tbl ddl last "failed" (error_string e) (i64 (ds_RetryCount row0 + 1))) c
    Hst) as (s1 & Hs1 & Hv1).
  rewrite (bind_ok _ _ _ _ _ (st_wrap_ok _ _ _ _ _ Hs1)).
  pose proof (get_spec (mkTableID db "" tbl) (set_ddlStore s1 c) Hwf) as Hg.
  unfold pause_table. change (lifecycles (set_ddlStore s1 c)) with (lifecycles c) in Hg.
  destruct (lifecycles c !! mkTableID db "" tbl) as [lc|] eqn:El.
  - destruct Hg as (l & Hg & Hl & Hlc). rewrite (bind_ok _ _ _ _ _ Hg).
    destruct (move_and_save_spec (mkTableID db "" tbl) l lc (Pause now) (set_ddlStore s1 c) Hwf Hl Hlc (Pause_quiet now))
      as (s2 & Hs2 & Hwf2 & Hv2).
    rewrite (bind_ok _ _ _ _ _ Hs2). eexists. split; [done|]. split_and!; done.
  - destruct Hg as (e' & Hg). rewrite (bind_ok _ _ _ _ _ Hg).
    eexists. split; [done|]. split_and!; done.
Qed.

Definition ev_db (ev : ChangeEvent) : string := ti_Database (ev_Table ev).
Definition ev_tbl (ev : ChangeEvent) : string := ti_Table (ev_Table ev).
Definition ev_ddl (ev : ChangeEvent) : string := metadata_get ev "ddl".
Definition ev_key (ev : ChangeEvent) : string * string := (ev_db ev, ev_tbl ev).

Definition table_before (ev : ChangeEvent) (c : BinlogConsumer) : option TableInfo :=
  Tables_Get (bc_tables c) (ev_db ev) (ev_tbl ev).

(** Whether the DDL can be applied: parsed, and accepted by the sink. *)
Definition ddl_error (ev : ChangeEvent) (c : BinlogConsumer) : option goerror :=
  match ApplyDDL (table_before ev c) (ev_ddl ev) with
  | Err e => Some e
  | Ok _ => match (sink_Write [ev] (bc_sink c)).2 with Err e => Some e | Ok _ => None end
  end.

Definition failed_row (ev : ChangeEvent) (c : BinlogConsumer) (e : goerror) : DDLStateRow :=
  mkDDLStateRow (ev_db ev) (ev_tbl ev) (ev_ddl ev) (table_before ev c) "failed" (error_string e) 1.
Definition applying_row (ev : ChangeEvent) (c : BinlogConsumer) : DDLStateRow :=
  mkDDLStateRow (ev_db ev) (ev_tbl ev) (ev_ddl ev) (table_before ev c) "applying" "" 0.

(** The state rows of the statement can be stored. *)
Definition event_storable (ev : ChangeEvent) (c : BinlogConsumer) : Prop :=
  ddl_storable (S := S) (applying_row ev c) ∧ ∀ e, ddl_storable (S := S) (failed_row ev c e).

(** A failed DDL: the table is paused, the state row says so with a retry count
    of one, the table definitions are as before. *)
Definition ddl_failed (now : time) (ev : ChangeEvent) (c c' : BinlogConsumer) (e : goerror) : Prop :=
  ddls c' = <[ev_key ev := failed_row ev c e]> (ddls c) ∧
  lifecycles c' = pause_table now (mkTableID (ev_db ev) "" (ev_tbl ev)) (lifecycles c) ∧
  bc_tables c' = bc_tables c.

Definition tables_after (ev : ChangeEvent) (c : BinlogConsumer) : Tables :=
  match ApplyDDL (table_before ev c) (ev_ddl ev) with
  | Ok (mkDDLResult (Some info)) => Tables_Put info (bc_tables c)
  | _ => Tables_Remove (ev_db ev) (ev_tbl ev) (bc_tables c)
  end.

(** The row of the history for the statement. *)
Definition applied_row (ev : ChangeEvent) (c : BinlogConsumer) : SchemaHistoryRow :=
  let res := match ApplyDDL (table_before ev c) (ev_ddl ev) with Ok res => res | Err _ => mkDDLResult None end in
  mkSchemaHistoryRow 0 (ev_Position ev) (ev_db ev) (ev_tbl ev) (ev_ddl ev) (NewTableInfo res) (inferChangeType res (table_before ev c)).

(** An applied DDL: the definitions are updated; the state row is gone, unless
    the history could not be written, when the row stays "applying". *)
Definition ddl_applied (ev : ChangeEvent) (c c' : BinlogConsumer) (r : result unit) : Prop :=
  bc_tables c' = tables_after ev c ∧ lifecycles c' = lifecycles c ∧
  bc_sink c' = (sink_Write [ev] (bc_sink c)).1 ∧
  (r = Ok tt ∧ ddls c' = delete (ev_key ev) (ddls c) ∨
   is_ok r = false ∧ (∃ s, is_ok (SaveSchemaHistory (S := S) (applied_row ev c) s).2 = false) ∧
   ddls c' = <[ev_key ev := applying_row ev c]> (ddls c)).

Definition configured : Prop := cc_ddlDeps cfg = true ∧ cc_ddlStoreSet cfg = true.

Lemma bind_get {A} (k : BinlogConsumer → ST BinlogConsumer A) c : (st_get ≫= k) c = k c c.
Proof. done. Qed.

Lemma try_sink ev c :
  sink_no_panic →
  st_try (with_sink (sink_Write [ev])) c =
  (set_sink (sink_Write [ev] (bc_sink c)).1 c, Ok (sink_Write [ev] (bc_sink c)).2).
Proof.
  intros Hnp. unfold st_try, with_sink. specialize (Hnp [ev] (bc_sink c)).
  destruct (sink_Write [ev] (bc_sink c)) as [k [[]|e]]; [done|]. cbn in Hnp.
  destruct e as [| | | | | | | |p]; try done. by destruct (Hnp p).
Qed.

Lemma st_wrap_no_panic {A} msg (m : ST BinlogConsumer A) c c' e :
  m c = (c', Err e) → no_panic (A := A) (Err e) →
  ∃ e', st_wrap msg m c = (c', Err e') ∧ no_panic (A := unit) (Err e').
Proof.
  intros Hm Hnp. unfold st_wrap. rewrite Hm. destruct e as [| | | | | | | |p]; try (by eexists).
  by destruct (Hnp p).
Qed.

Lemma handleDDL_start now ev c :
  configured → bc_pending c = 0 → ev_ddl ev ≠ "" → event_storable ev c →
  ∃ s1, ddl_view s1 = <[ev_key ev := applying_row ev c]> (ddls c) ∧
  handleDDL now ev c =
  match ApplyDDL (table_before ev c) (ev_ddl ev) with
  | Err e => handleDDLFailure now (ev_db ev) (ev_tbl ev) (ev_ddl ev) (table_before ev c) e (set_ddlStore s1 c)
  | Ok res =>
      (w ← st_try (with_sink (sink_Write [ev]));
       match w with
       | Err e => handleDDLFailure now (ev_db ev) (ev_tbl ev) (ev_ddl ev) (table_before ev c) e
       | Ok _ =>
           c1 ← st_get;
           set_tables_to (match NewTableInfo res with
                          | Some info => Tables_Put info (bc_tables c1)
                          | None => Tables_Remove (ev_db ev) (ev_tbl ev) (bc_tables c1)
                          end) ≫= λ _,
           st_wrap "save schema history"
             (with_ddl (SaveSchemaHistory (mkSchemaHistoryRow 0 (ev_Position ev) (ev_db ev) (ev_tbl ev) (ev_ddl ev)
                (NewTableInfo res) (inferChangeType res (table_before ev c))))) ≫= λ _,
           st_wrap "delete ddl state" (with_ddl (DeleteDDLState (ev_db ev) (ev_tbl ev)))
       end) (set_ddlStore s1 c)
  end.
Proof.
  intros [Hd Hs] Hpend Hddl Hst. destruct (save_spec (applying_row ev c) c (proj1 Hst)) as (s1 & Hs1 & Hv1).
  exists s1. split; [exact Hv1|]. unfold handleDDL. rewrite Hd, Hs. cbn [negb andb].
  rewrite bool_decide_eq_false_2 by exact Hddl.
  rewrite (bind_ok _ _ c c tt) by (unfold flushPending; by rewrite Hpend).
  rewrite bind_get. rewrite (bind_ok _ _ _ _ _ (st_wrap_ok _ _ _ _ _ Hs1)). rewrite bind_get.
  cbn [set_ddlStore bc_tables].
  change (Tables_Get (bc_tables c) (ti_Database (ev_Table ev)) (ti_Table (ev_Table ev))) with (table_before ev c).
  change (metadata_get ev "ddl") with (ev_ddl ev). by destruct (ApplyDDL (table_before ev c) (ev_ddl ev)).
Qed.

(** The failure branch, from the state in which the row says "applying". *)
Lemma failure_from_applying now ev c c1 e :
  event_storable ev c → store_wf (bc_store c1) → ddls c1 = <[ev_key ev := applying_row ev c]> (ddls c) →
  bc_tables c1 = bc_tables c → lifecycles c1 = lifecycles c →
  ∃ c' e', handleDDLFailure now (ev_db ev) (ev_tbl ev) (ev_ddl ev) (table_before ev c) e c1 = (c', Err e') ∧
    no_panic (A := unit) (Err e') ∧ ddl_failed now ev c c' e ∧ store_wf (bc_store c') ∧
    bc_cache c' = bc_cache c1 ∧ bc_pending c' = bc_pending c1 ∧ bc_sink c' = bc_sink c1.
Proof.
  intros Hst Hwf Hd Ht Hl.
  destruct (failure_spec now (ev_db ev) (ev_tbl ev) (ev_ddl ev) (table_before ev c) e c1 (applying_row ev c))
    as (c' & Hrun & Hd' & Hl' & Hwf' & Hc' & Hk' & Ht' & Hp'); [apply Hst|done|rewrite Hd; apply lookup_insert_eq|].
  exists c'. eexists. split; [exact Hrun|]. unfold ddl_failed. split_and!; try done.
  - rewrite Hd', Hd. unfold ev_key. by rewrite insert_insert_eq.
  - by rewrite Hl', Hl.
  - by rewrite Ht', Ht.
Qed.

Lemma handleDDL_spec now ev c :
  configured → bc_pending c = 0 → ev_ddl ev ≠ "" → event_storable ev c → sink_no_panic → store_no_panic →
  store_wf (bc_store c) →
  ∃ c' r, handleDDL now ev c = (c', r) ∧ no_panic r ∧ store_wf (bc_store c') ∧ bc_cache c' = bc_cache c ∧ bc_pending c' = 0 ∧
    match ddl_error ev c with
    | Some e => is_ok r = false ∧ ddl_failed now ev c c' e
    | None => ddl_applied ev c c' r
    end.
Proof.
  intros Hcfg Hpend Hddl Hst Hnp Hsnp Hwf.
  destruct (handleDDL_start now ev c Hcfg Hpend Hddl Hst) as (s1 & Hv1 & ->). unfold ddl_error, ddl_applied, tables_after, applied_row.
  destruct (ApplyDDL (table_before ev c) (ev_ddl ev)) as [[info]|e].
  - rewrite (bind_ok _ _ _ _ _ (try_sink ev _ Hnp)). cbn [set_ddlStore bc_sink].
    set (k := (sink_Write [ev] (bc_sink c)).1). destruct (sink_Write [ev] (bc_sink c)).2 as [[]|e].
    + rewrite bind_get. set (row := mkSchemaHistoryRow _ _ _ _ _ _ _).
      set (t' := match info with
                 | Some info => Tables_Put info (bc_tables c)
                 | None => Tables_Remove (ev_db ev) (ev_tbl ev) (bc_tables c)
                 end).
      set (c2 := mkConsumer (bc_store c) (bc_cache c) k t' s1 (bc_pending c)).
      rewrite (bind_ok _ _ _ c2 tt) by reflexivity.
      destruct (SaveSchemaHistory row s1) as [s2 r2] eqn:E2. pose proof (History_law _ _ _ _ E2) as Hv2.
      assert (Hh : with_ddl (SaveSchemaHistory row) c2 = (set_ddlStore s2 c2, r2))
        by (unfold with_ddl; subst c2; cbn [bc_ddlStore]; by rewrite E2).
      destruct r2 as [[]|e2].
      * rewrite (bind_ok _ _ _ _ _ (st_wrap_ok _ _ _ _ _ Hh)).
        destruct (Delete_law s2 (ev_db ev) (ev_tbl ev)) as (s3 & Hs3 & Hv3).
        assert (Hdel : with_ddl (DeleteDDLState (ev_db ev) (ev_tbl ev)) (set_ddlStore s2 c2) = (set_ddlStore s3 c2, Ok tt))
          by (unfold with_ddl; cbn [set_ddlStore bc_ddlStore]; by rewrite Hs3).
        rewrite (st_wrap_ok _ _ _ _ _ Hdel). do 2 eexists. split; [done|]. split_and!; try done.
        left. split; [done|]. unfold ddls at 1. cbn. rewrite Hv3, Hv2, Hv1. unfold ev_key.
        by rewrite delete_insert_eq.
      * destruct (st_wrap_no_panic "save schema history" _ _ _ _ Hh) as (e' & He' & Hnp').
        { intros p. specialize (Hsnp row s1 p). by rewrite E2 in Hsnp. }
        rewrite (bind_err _ _ _ _ _ He'). do 2 eexists. split; [done|]. split_and!; try done.
        right. split_and!; [done|exists s1; fold row; by rewrite E2|]. unfold ddls at 1. cbn. by rewrite Hv2.
    + destruct (failure_from_applying now ev c (set_sink k (set_ddlStore s1 c)) e)
        as (c' & e' & -> & Hnp' & Hf & Hwf' & Hc' & Hp' & _); try done.
      do 2 eexists. split; [done|]. split_and!; try done. by rewrite Hp'.
  - destruct (failure_from_applying now ev c (set_ddlStore s1 c) e)
      as (c' & e' & -> & Hnp' & Hf & Hwf' & Hc' & Hp' & _); try done.
    do 2 eexists. split; [done|]. split_and!; try done. by rewrite Hp'.
Qed.

(** ** Blocking *)

Lemma check_none now db tbl c :
  ddls c !! (db, tbl) = None → checkDDLState now db tbl c = (c, Ok false).
Proof.
  intros Hnone. unfold checkDDLState. destruct (negb (cc_ddlStoreSet cfg)); [done|].
  by rewrite (bind_ok _ _ _ _ _ (try_ok _ _ _ _ (load_spec db tbl c))), Hnone.
Qed.

(** A row that blocks the table without a retry. *)
Definition blocks (row : DDLStateRow) : bool :=
  bool_decide (ds_Status row ≠ "failed") || (maxDDLRetries <=? ds_RetryCount row).

Lemma check_blocked now db tbl c row :
  cc_ddlStoreSet cfg = true → ddls c !! (db, tbl) = Some row → blocks row = true →
  checkDDLState now db tbl c = (c, Ok true).
Proof.
  intros Hs Hrow Hb. unfold checkDDLState. rewrite Hs. cbn [negb].
  rewrite (bind_ok _ _ _ _ _ (try_ok _ _ _ _ (load_spec db tbl c))), Hrow. unfold blocks in Hb.
  destruct (bool_decide (ds_Status row ≠ "failed")); [done|]. cbn in Hb. by rewrite Hb.
Qed.

(** The consumer with a table resumed for a retry. *)
Lemma check_retry now db tbl c row :
  cc_ddlStoreSet cfg = true → store_wf (bc_store c) → ddls c !! (db, tbl) = Some row → blocks row = false →
  match lifecycles c !! mkTableID db "" tbl with
  | None => checkDDLState now db tbl c = (c, Ok true)
  | Some lc =>
      ∃ s', store_wf s' ∧ store_view s' (cc_taskID cfg) = <[mkTableID db "" tbl := (Resume now lc).1]> (lifecycles c) ∧
        checkDDLState now db tbl c =
        (st_ignore (handleDDL now (retry_event db tbl (ds_DDL row))) ≫= λ _, mret true) (set_store s' c)
  end.
Proof.
  intros Hs Hwf Hrow Hb. unfold checkDDLState. rewrite Hs. cbn [negb].
  rewrite (bind_ok _ _ _ _ _ (try_ok _ _ _ _ (load_spec db tbl c))), Hrow.
  unfold blocks in Hb. apply orb_false_iff in Hb as [Hb1 Hb2]. rewrite Hb1, Hb2.
  pose proof (get_spec (mkTableID db "" tbl) c Hwf) as Hg.
  destruct (lifecycles c !! mkTableID db "" tbl) as [lc|].
  - destruct Hg as (l & Hg & Hl & Hlc). rewrite (bind_ok _ _ _ _ _ Hg).
    destruct (move_and_save_spec _ l lc (Resume now) c Hwf Hl Hlc (Resume_quiet now)) as (s' & Hm & Hwf' & Hv').
    exists s'. split_and!; [done..|]. by rewrite (bind_ok _ _ _ _ _ Hm).
  - destruct Hg as (e & Hg). by rewrite (bind_ok _ _ _ _ _ Hg).
Qed.

(** ** Routing *)

(** The consumer between two events: a well-formed store and no write in
    flight. *)
Definition consumer_ok (c : BinlogConsumer) : Prop := store_wf (bc_store c) ∧ bc_pending c = 0.

(** What the theorems assume of the configuration and of the collaborators: DDL
    handling is set up, every state row can be stored, and no call panics. *)
Lemma all_event_storable ev c : all_storable → event_storable ev c.
Proof. intros H. split; [apply H|]. intros e. apply H. Qed.

Definition env_ok : Prop := configured ∧ all_storable ∧ sink_no_panic ∧ store_no_panic.

(** The effect of an event on an unblocked table, by its life-cycle state. *)
Definition deliver (ev : ChangeEvent) (c : BinlogConsumer) : BinlogConsumer * result unit :=
  match tl_State <$> lifecycles c !! event_table ev with
  | Some TableStateSnapshotting =>
      let '(x, r) := cache_Write (TableID_String (event_table ev)) (eventToCacheEvent ev (cc_sourceType cfg)) (bc_cache c) in
      (mkConsumer (bc_store c) x (bc_sink c) (bc_tables c) (bc_ddlStore c) (bc_pending c), r)
  | Some TableStateCatchingUp | Some TableStateStreaming =>
      let '(k, r) := sink_Write [ev] (bc_sink c) in (set_sink k c, r)
  | _ => (c, Ok tt)
  end.

Lemma Route_unblocked now ev c :
  sink_no_panic → store_wf (bc_store c) → IsDDL ev = false → ddls c !! ev_key ev = None →
  Route now ev c = deliver ev c.
Proof.
  intros Hnp Hwf Hev Hrow. unfold Route, deliver. rewrite Hev. cbn zeta.
  rewrite (bind_ok _ _ _ _ _ (check_none now (ev_db ev) (ev_tbl ev) c Hrow)).
  pose proof (get_spec (event_table ev) c Hwf) as Hg.
  destruct (lifecycles c !! event_table ev) as [lc|]; cbn [fmap option_fmap option_map].
  - destruct Hg as (l & Hg & Hl & Hlc). rewrite (bind_ok _ _ _ _ _ Hg).
    rewrite (bind_ok _ _ c c lc) by (unfold with_store, deref; rewrite Hlc; by destruct c).
    unfold GetState. destruct (tl_State lc); try done.
    all: unfold add_pending; rewrite (bind_ok _ _ _ _ tt) by reflexivity;
      rewrite (bind_ok _ _ _ _ _ (try_sink ev _ Hnp)); rewrite (bind_ok _ _ _ _ tt) by reflexivity;
      cbn [set_sink bc_sink bc_pending bc_store bc_cache bc_tables bc_ddlStore];
      destruct (sink_Write [ev] (bc_sink c)) as [k r]; unfold st_lift, set_sink; cbn [fst snd];
      replace (bc_pending c + 1 + -1) with (bc_pending c) by lia; done.
  - destruct Hg as (e & Hg). by rewrite (bind_ok _ _ _ _ _ Hg).
Qed.

(** C3. Routing by life-cycle state: an event of a table without a DDL state
    goes to the cache while the table is being snapshotted, to the sink while it
    catches up or streams, and is dropped otherwise (pending, paused, error or
    unknown); nothing else changes, and the error of the write is returned. *)
Theorem Route_by_state (now : time) (ev : ChangeEvent) (c : BinlogConsumer)
    (Henv : env_ok) (Hc : consumer_ok c) (Hev : IsDDL ev = false) (Hrow : ddls c !! ev_key ev = None) :
  Route now ev c = deliver ev c ∧ consumer_ok (Route now ev c).1 ∧
  ddls (Route now ev c).1 = ddls c ∧ lifecycles (Route now ev c).1 = lifecycles c.
Proof.
  destruct Henv as (_ & _ & Hnp & _), Hc as [Hwf Hp]. rewrite (Route_unblocked now ev c) by done.
  split; [done|]. unfold deliver, consumer_ok.
  destruct (tl_State <$> lifecycles c !! event_table ev) as [[]|]; try done.
  - by destruct (cache_Write _ _ _).
  - by destruct (sink_Write _ _).
  - by destruct (sink_Write _ _).
Qed.

(** A table whose DDL is being applied, or has used up its retries, is
    blocked: its row events change nothing at all, in particular neither the
    cache nor the sink, and no error is reported. *)
Theorem Route_blocked_table (now : time) (ev : ChangeEvent) (c : BinlogConsumer) (row : DDLStateRow)
    (Henv : env_ok) (Hev : IsDDL ev = false) (Hrow : ddls c !! ev_key ev = Some row)
    (Hblocks : ds_Status row ≠ "failed" ∨ maxDDLRetries <= ds_RetryCount row) :
  Route now ev c = (c, Ok tt).
Proof.
  destruct Henv as ([_ Hs] & _). unfold Route. rewrite Hev. cbn zeta.
  assert (Hb : blocks row = true).
  { unfold blocks. destruct Hblocks as [Hb|Hb].
    - by rewrite bool_decide_eq_true_2.
    - rewrite (proj2 (Z.leb_le _ _) Hb). by rewrite orb_true_r. }
  by rewrite (bind_ok _ _ _ _ _ (check_blocked now (ev_db ev) (ev_tbl ev) c row Hs Hrow Hb)).
Qed.


(** ** Retries *)

Definition retries_low (c : BinlogConsumer) : Prop :=
  ∀ k row, ddls c !! k = Some row → ds_RetryCount row <= 1.

Lemma retries_low_insert c c' k row :
  retries_low c → ds_RetryCount row <= 1 → ddls c' = <[k := row]> (ddls c) → retries_low c'.
Proof.
  intros Hlow Hrow Hd k' row' Hk. rewrite Hd in Hk. apply lookup_insert_Some in Hk as [[_ <-]|[_ Hk]]; eauto.
Qed.

Lemma retries_low_delete c c' k :
  retries_low c → ddls c' = delete k (ddls c) → retries_low c'.
Proof. intros Hlow Hd k' row' Hk. rewrite Hd in Hk. apply lookup_delete_Some in Hk as [_ Hk]. eauto. Qed.

Definition retry_inv (c : BinlogConsumer) : Prop := consumer_ok c ∧ retries_low c.

Lemma handleDDL_retries now ev c :
  env_ok → retry_inv c →
  ∃ c' r, handleDDL now ev c = (c', r) ∧ no_panic r ∧ retry_inv c'.
Proof.
  intros (Hcfg & Hst & Hnp & Hsnp) [[Hwf Hp] Hlow].
  destruct (decide (ev_ddl ev = "")) as [E|Hddl].
  - exists c. eexists. split; [|split; [|done]].
    + unfold handleDDL. destruct Hcfg as [-> ->]. cbn [negb andb]. by rewrite bool_decide_eq_true_2.
    + done.
  - destruct (handleDDL_spec now ev c) as (c' & r & Hrun & Hr & Hwf' & Hc' & Hp' & Hout); try done.
    exists c', r. split; [done|]. split; [done|]. split; [done|]. destruct (ddl_error ev c) as [e|].
    + destruct Hout as (_ & Hd & _). eapply retries_low_insert; [exact Hlow| |exact Hd]. cbn. lia.
    + destruct Hout as (_ & _ & _ & [[_ Hd]|(_ & _ & Hd)]); [by apply (retries_low_delete c c' (ev_key ev))|].
      eapply retries_low_insert; [exact Hlow| |exact Hd]. cbn. lia.
Qed.

Lemma check_retries now db tbl c :
  env_ok → retry_inv c →
  ∃ c' b, checkDDLState now db tbl c = (c', Ok b) ∧ retry_inv c' ∧
    (b = false → c' = c ∧ ddls c !! (db, tbl) = None).
Proof.
  intros Henv Hinv. assert (Hinv' := Hinv). destruct Hinv' as [[Hwf Hp] Hlow].
  assert (Henv' := Henv). destruct Henv' as ([_ Hs] & _).
  destruct (ddls c !! (db, tbl)) as [row|] eqn:Erow; [|by exists c, false; rewrite check_none].
  destruct (blocks row) eqn:Eb.
  { exists c, true. by rewrite (check_blocked now db tbl c row). }
  pose proof (check_retry now db tbl c row Hs Hwf Erow Eb) as Hr.
  destruct (lifecycles c !! mkTableID db "" tbl) as [lc|]; [|by exists c, true].
  destruct Hr as (s' & Hwf' & Hv' & ->).
  destruct (handleDDL_retries now (retry_event db tbl (ds_DDL row)) (set_store s' c) Henv)
    as (c' & r & Hrun & Hnp & Hinv'); [done|].
  exists c', true. split_and!; [|done|done].
  rewrite (bind_ok _ _ _ c' tt); [done|]. unfold st_ignore. rewrite Hrun.
  destruct r as [|e]; [done|]. destruct e as [| | | | | | | |p]; try done. by destruct (Hnp p).
Qed.

Lemma Route_retries now ev c :
  env_ok → retry_inv c → retry_inv (Route now ev c).1.
Proof.
  intros Henv Hinv. destruct (IsDDL ev) eqn:Ed.
  - unfold Route. rewrite Ed. by destruct (handleDDL_retries now ev c Henv Hinv) as (c' & r & -> & _ & ?).
  - destruct (check_retries now (ev_db ev) (ev_tbl ev) c Henv Hinv) as (c' & b & Hck & Hinv' & Hb).
    destruct b.
    + unfold Route. rewrite Ed. cbn zeta. by rewrite (bind_ok _ _ _ _ _ Hck).
    + destruct (Hb eq_refl) as [-> Hnone]. assert (Henv' := Henv). destruct Henv' as (_ & _ & Hnp & _).
      rewrite Route_unblocked by (done || apply Hinv). destruct Hinv as [[Hwf Hp] Hlow].
      unfold deliver, retry_inv, consumer_ok.
      destruct (tl_State <$> lifecycles c !! event_table ev) as [[]|]; try done.
      * by destruct (cache_Write _ _ _).
      * by destruct (sink_Write _ _).
      * by destruct (sink_Write _ _).
Qed.

(** The states a sequence of events leads through. *)
Definition route_step (c : BinlogConsumer) (l : time * ChangeEvent) (c' : BinlogConsumer) : Prop :=
  (Route l.1 l.2 c).1 = c'.

(** The retry limit of a failed DDL is never reached: handling a DDL first
    overwrites the state row with a retry count of zero, so that a failure always
    counts as the first one.  Whatever events arrive, every state row has a count
    of at most one, which is below [maxDDLRetries]; a failing DDL is retried on
    every row event of its table, for ever. *)
Theorem ddl_retry_limit_unreachable (c c' : BinlogConsumer) (ls : list (time * ChangeEvent))
    (Henv : env_ok) (Hc : consumer_ok c) (Hempty : ddls c = ∅) (Hrun : runs route_step c ls c') :
  ∀ k row, ddls c' !! k = Some row → ds_RetryCount row <= 1 < maxDDLRetries.
Proof.
  assert (Hinv : retry_inv c').
  { eapply (runs_invariant route_step retry_inv); [|exact Hrun|].
    - intros s l s' Hs Hstep. unfold route_step in Hstep. subst s'. by apply Route_retries.
    - split; [done|]. intros k row Hk. rewrite Hempty in Hk. by rewrite lookup_empty in Hk. }
  intros k row Hk. destruct Hinv as [_ Hlow]. specialize (Hlow k row Hk). unfold maxDDLRetries. lia.
Qed.

(** The row event that triggers a successful retry is lost: the retried DDL
    is applied, its state row removed and the table resumed, and the sink has
    received the DDL event only; the routed event itself is dropped without an
    error. *)
Theorem retry_success_drops_event (now : time) (ev : ChangeEvent) (c : BinlogConsumer) (row : DDLStateRow)
    (lc : TableLifecycle) (retry : ChangeEvent)
    (Henv : env_ok) (Hc : consumer_ok c) (Hev : IsDDL ev = false)
    (Hrow : ddls c !! ev_key ev = Some row) (Hfailed : ds_Status row = "failed")
    (Hretry : ds_RetryCount row < maxDDLRetries) (Hddl : ds_DDL row ≠ "")
    (Hlc : lifecycles c !! mkTableID (ev_db ev) "" (ev_tbl ev) = Some lc)
    (Hretry_ev : retry = retry_event (ev_db ev) (ev_tbl ev) (ds_DDL row))
    (Happly : ddl_error retry c = None) (Hhist : ∀ row s, (SaveSchemaHistory (S := S) row s).2 = Ok tt) :
  ∃ c', Route now ev c = (c', Ok tt) ∧
    bc_sink c' = (sink_Write [retry] (bc_sink c)).1 ∧ bc_cache c' = bc_cache c ∧
    ddls c' !! ev_key ev = None ∧
    lifecycles c' = <[mkTableID (ev_db ev) "" (ev_tbl ev) := (Resume now lc).1]> (lifecycles c).
Proof.
  destruct Henv as (Hcfg & Hst & Hnp & Hsnp), Hc as [Hwf Hp]. assert (Hs : cc_ddlStoreSet cfg = true) by apply Hcfg.
  assert (Hb : blocks row = false).
  { unfold blocks. rewrite bool_decide_eq_false_2 by (rewrite Hfailed; tauto). by apply Z.leb_gt. }
  pose proof (check_retry now (ev_db ev) (ev_tbl ev) c row Hs Hwf Hrow Hb) as Hck. rewrite Hlc, <- Hretry_ev in Hck.
  destruct Hck as (s' & Hwf' & Hv' & Hck).
  destruct (handleDDL_spec now retry (set_store s' c)) as (c' & r & Hrun & Hr & Hwf2 & Hc2 & Hp2 & Hout);
    try done; [by rewrite Hretry_ev|].
  change (ddl_error retry (set_store s' c)) with (ddl_error retry c) in Hout. rewrite Happly in Hout.
  destruct Hout as (_ & Hlf & Hk & Hd).
  assert (r = Ok tt ∧ ddls c' = delete (ev_key ev) (ddls c)) as [-> Hd'].
  { assert (Hkey : ev_key retry = ev_key ev) by (by rewrite Hretry_ev). rewrite Hkey in Hd.
    destruct Hd as [?|(_ & (s & Hbad) & _)]; [done|]. by rewrite Hhist in Hbad. }
  exists c'. split_and!; [|exact Hk|exact Hc2|by rewrite Hd', lookup_delete_eq|by rewrite Hlf].
  unfold Route. rewrite Hev. cbn zeta. rewrite (bind_ok _ _ c c' true); [done|].
  change (checkDDLState now (ev_db ev) (ev_tbl ev) c = (c', Ok true)).
  rewrite Hck. rewrite (bind_ok _ _ _ c' tt); [done|]. unfold st_ignore. by rewrite Hrun.
Qed.

End Consumer.

Arguments BinlogConsumer : clear implicits.
Arguments mkConsumer {_ _ _} _ _ _ _ _ _.

(** ** Concrete runs *)

Module ConsumerRuns.
Import StoreRuns.

#[local] Instance demo_events : JSONCodec CacheEvent := countable_codec CacheEvent.
#[local] Instance demo_cache : BinlogCacheBackend LocalBackend := LocalBackend_cache io_ok.
#[local] Instance demo_change_json : JSONCodec ChangeEvent := {|
  json_Marshal _ := Ok []; json_Unmarshal _ := Err (ErrNew "unexpected end of JSON input") |}.
#[local] Instance demo_laws : DDLStateLaws MySQLDB := my_ddl_laws (λ d, d).

(** A sink that keeps what it is given, and a parser that knows one table. *)
#[local] Instance demo_sink : EventSink (list ChangeEvent) := {| sink_Write evs k := (k ++ evs, Ok tt) |}.
#[local] Instance demo_parser : DDLParser := {| ApplyDDL _ _ := Ok (mkDDLResult (Some users_info)) |}.

Definition cfg : ConsumerConfig := mkConsumerConfig "task1" 1 true true.

Definition users : TableID := mkTableID "app" "" "users".
Definition users_in (s : TableState) (prev : TableState) : TableLifecycle :=
  mkTableLifecycle users s prev None None CatchingUpProgress_zero 0 3 "" 0.
Definition store_with (lc : TableLifecycle) : MemoryLifecycleStore :=
  ((alloc lc ≫= Save "task1") NewMemoryLifecycleStore).1.

Definition consumer (lc : TableLifecycle) (d : MySQLDB) : BinlogConsumer MySQLDB LocalBackend (list ChangeEvent) :=
  mkConsumer (store_with lc) (NewLocalBackend SyncModeEvery) [] NewTables d 0.

Lemma consumer_is_ok lc d : consumer_ok (consumer lc d).
Proof.
  split; [|done]. cbn. unfold store_with.
  destruct (alloc_Save_spec NewMemoryLifecycleStore "task1" lc NewMemoryLifecycleStore_wf) as (s & -> & Hwf & _).
  done.
Qed.

Lemma env_is_ok : env_ok (S := MySQLDB) (K := list ChangeEvent) cfg.
Proof.
  split; [done|]. split; [intros [? ? ? [] ? ? ?]; done|]. split; [intros evs k p; done|].
  intros row s p. cbn. unfold my_SaveSchemaHistory, mbind, ST_bind, useDB, st_lift, TargetStore.exec.
  cbn. by destruct (sr_TableInfo row).
Qed.

Definition row_event (db tbl : string) : ChangeEvent :=
  mkChangeEvent "e1" SourceInfo_zero EventTypeInsert Position_zero (mkTableInfo db "" tbl [] [] [])
    RowData_zero RowData_zero 0 None None None.

Definition streaming : TableLifecycle := users_in TableStateStreaming TableStateCatchingUp.
Definition paused : TableLifecycle := users_in TableStatePaused TableStateStreaming.

Lemma Route_by_state_witness :
  Route cfg 1 (row_event "app" "users") (consumer streaming InitDatabase) =
    (set_sink [row_event "app" "users"] (consumer streaming InitDatabase), Ok tt).
Proof.
  destruct (Route_by_state cfg 1 (row_event "app" "users") (consumer streaming InitDatabase) env_is_ok
    (consumer_is_ok _ _)) as [-> _]; vm_compute; reflexivity.
Defined.

Definition with_row (status : string) (n : Z) : MySQLDB :=
  (SaveDDLState (mkDDLStateRow "app" "users" "ALTER TABLE users ADD c INT" None status "" n) InitDatabase).1.

Lemma Route_blocked_table_witness :
  Route cfg 1 (row_event "app" "users") (consumer streaming (with_row "applying" 0)) =
    (consumer streaming (with_row "applying" 0), Ok tt).
Proof.
  apply (Route_blocked_table cfg 1 (row_event "app" "users") _
    (mkDDLStateRow "app" "users" "ALTER TABLE users ADD c INT" None "applying" "" 0) env_is_ok).
  - reflexivity.
  - vm_compute. reflexivity.
  - left. discriminate.
Defined.

Definition ddl_event : ChangeEvent := retry_event "app" "users" "ALTER TABLE users ADD c INT".


(** A parser that rejects the statement: the DDL event and every retry fail. *)
Definition bad_parser : DDLParser := {| ApplyDDL _ _ := Err (ErrNew "syntax error") |}.
Definition route_bad := Route (parser := bad_parser) cfg.

Definition after_retries : BinlogConsumer MySQLDB LocalBackend (list ChangeEvent) :=
  (route_bad 3 (row_event "app" "users") (route_bad 2 (row_event "app" "users")
    (route_bad 1 ddl_event (consumer streaming InitDatabase)).1).1).1.

Lemma ddl_retry_limit_unreachable_witness :
  ∃ row, ddls after_retries !! ("app", "users") = Some row ∧ ds_RetryCount row <= 1 < maxDDLRetries.
Proof.
  eexists. split; [vm_compute; reflexivity|].
  apply (ddl_retry_limit_unreachable (parser := bad_parser) cfg (consumer streaming InitDatabase) after_retries
    [(1, ddl_event); (2, row_event "app" "users"); (3, row_event "app" "users")] env_is_ok (consumer_is_ok _ _))
    with (k := ("app", "users")).
  - vm_compute. reflexivity.
  - repeat (eapply runs_cons; [reflexivity|]). constructor.
  - vm_compute. reflexivity.
Defined.

Lemma retry_success_drops_event_witness :
  ∃ c', Route cfg 1 (row_event "app" "users") (consumer paused (with_row "failed" 1)) = (c', Ok tt) ∧
    bc_sink c' = [ddl_event] ∧ ddls c' !! ("app", "users") = None.
Proof.
  destruct (retry_success_drops_event cfg 1 (row_event "app" "users") (consumer paused (with_row "failed" 1))
    (mkDDLStateRow "app" "users" "ALTER TABLE users ADD c INT" None "failed" "" 1) paused ddl_event
    env_is_ok (consumer_is_ok _ _)) as (c' & H1 & H2 & _ & H3 & _).
  - reflexivity.
  - vm_compute. reflexivity.
  - reflexivity.
  - reflexivity.
  - discriminate.
  - vm_compute. reflexivity.
  - reflexivity.
  - reflexivity.
  - intros row s. cbn. unfold my_SaveSchemaHistory, mbind, ST_bind, useDB, st_lift, TargetStore.exec.
    cbn. by destruct (sr_TableInfo row).
  - exists c'. split; [exact H1|split; [exact H2|exact H3]].
Defined.

End ConsumerRuns.
