(* ===== verification/Replayer.v ===== *)
(** Replay of a table's cached events (internal/lifecycle/catching_up_replayer.go)
    against the reader goroutine of the cache (internal/cache/local_backend.go,
    [Read]).

    The two run concurrently: the reader pushes events into a channel of 64,
    sends at most one error and closes the error channel, then the event
    channel; the replayer selects among the context, the error channel and the
    event channel.  They are a step relation on the two channels, so that every
    interleaving and every choice of [select] is covered. *)
From Stdlib Require Import ZArith Lia.
From stdpp Require Import prelude countable gmap strings list fin_maps.
From S2P Require Import Prelude Events CacheLog BinlogConsumer.
Local Open Scope Z_scope.

Record ReplayResult := mkReplayResult {
  rr_CaughtUp : bool;
  rr_LastGTID : string;
  rr_LastEventSeq : Z;
  rr_EventsApplied : Z
}.

Definition ReplayResult_zero : ReplayResult := mkReplayResult false "" 0 0.

(** How far the reader's deferred closes have come. *)
Inductive phase := Reading | ErrSent | ErrClosed | AllClosed.

Definition event_chan_cap : nat := 64.

Section Replay.
Context {K : Type} `{!EventSink K} `{!JSONCodec ChangeEvent}.

Record rstate := mkRState {
  rs_script : list CacheEvent;          (* events the reader has yet to send *)
  rs_err : option goerror;              (* the error it ends with *)
  rs_phase : phase;
  rs_buf : list CacheEvent;             (* the event channel *)
  rs_errq : option goerror;             (* the error channel *)
  rs_cancelled : bool;                  (* ctx *)
  rs_result : ReplayResult;
  rs_sink : K;
  rs_applied : list CacheEvent;         (* the events the sink has accepted; see [sink_has] *)
  rs_outcome : option (option goerror)  (* the replayer has returned, with this error *)
}.

(** [deserializePayload] *)
Definition deserializePayload (payload : list Byte.byte) : result ChangeEvent := json_Unmarshal payload.

(** The [_write_mode] mark. *)
Definition mark_upsert (ev : ChangeEvent) : ChangeEvent :=
  mkChangeEvent (ev_ID ev) (ev_Source ev) (ev_Type ev) (ev_Position ev) (ev_Table ev) (ev_Before ev) (ev_After ev)
    (ev_Timestamp ev) (ev_Transaction ev) (ev_Schema ev)
    (Some (<["_write_mode" := "upsert"]> (default ∅ (ev_Metadata ev)))).

(** The body of the event branch, at the time [now]. *)
Definition apply_event (now upsertUntil : time) (ev : CacheEvent) (s : rstate) : rstate :=
  match deserializePayload (ce_Payload ev) with
  | Err e =>
      mkRState (rs_script s) (rs_err s) (rs_phase s) (rs_buf s) (rs_errq s) (rs_cancelled s) (rs_result s)
        (rs_sink s) (rs_applied s) (Some (Some e))
  | Ok changeEvent =>
      let changeEvent := if time_Before now upsertUntil then mark_upsert changeEvent else changeEvent in
      match sink_Write [changeEvent] (rs_sink s) with
      | (k, Err e) =>
          mkRState (rs_script s) (rs_err s) (rs_phase s) (rs_buf s) (rs_errq s) (rs_cancelled s) (rs_result s)
            k (rs_applied s) (Some (Some e))
      | (k, Ok _) =>
          mkRState (rs_script s) (rs_err s) (rs_phase s) (rs_buf s) (rs_errq s) (rs_cancelled s)
            (mkReplayResult (rr_CaughtUp (rs_result s)) (ce_TxID ev) (ce_EventSeq ev)
               (i64 (rr_EventsApplied (rs_result s) + 1)))
            k (rs_applied s ++ [ev]) None
      end
  end.

Definition pop_buf (rest : list CacheEvent) (s : rstate) : rstate :=
  mkRState (rs_script s) (rs_err s) (rs_phase s) rest (rs_errq s) (rs_cancelled s) (rs_result s) (rs_sink s)
    (rs_applied s) (rs_outcome s).

Definition finish (caughtUp : bool) (err : option goerror) (s : rstate) : rstate :=
  mkRState (rs_script s) (rs_err s) (rs_phase s) (rs_buf s) (rs_errq s) (rs_cancelled s)
    (mkReplayResult caughtUp (rr_LastGTID (rs_result s)) (rr_LastEventSeq (rs_result s))
       (rr_EventsApplied (rs_result s)))
    (rs_sink s) (rs_applied s) (Some err).

Definition to_phase (p : phase) (errq : option goerror) (s : rstate) : rstate :=
  mkRState (rs_script s) (rs_err s) p (rs_buf s) errq (rs_cancelled s) (rs_result s) (rs_sink s) (rs_applied s)
    (rs_outcome s).

(** Which step was taken; [LSpin] is the receive from the closed error channel,
    which changes nothing. *)
Inductive label := LReader | LCancel | LReplayer | LSpin.

Inductive rstep (upsertUntil : time) : rstate → label → rstate → Prop :=
  (* the reader *)
  | step_send s ev rest :
      rs_phase s = Reading → rs_script s = ev :: rest → (length (rs_buf s) < event_chan_cap)%nat →
      rstep upsertUntil s LReader
        (mkRState rest (rs_err s) Reading (rs_buf s ++ [ev]) (rs_errq s) (rs_cancelled s) (rs_result s)
           (rs_sink s) (rs_applied s) (rs_outcome s))
  | step_end s :
      rs_phase s = Reading → rs_script s = [] →
      rstep upsertUntil s LReader (to_phase ErrSent (rs_err s) s)
  | step_reader_cancelled s :
      rs_phase s = Reading → rs_cancelled s = true →
      rstep upsertUntil s LReader
        (mkRState [] None ErrSent (rs_buf s) None (rs_cancelled s) (rs_result s) (rs_sink s) (rs_applied s)
           (rs_outcome s))
  | step_close_err s :
      rs_phase s = ErrSent → rstep upsertUntil s LReader (to_phase ErrClosed (rs_errq s) s)
  | step_close s :
      rs_phase s = ErrClosed → rstep upsertUntil s LReader (to_phase AllClosed (rs_errq s) s)
  (* the environment *)
  | step_cancel s :
      rs_cancelled s = false →
      rstep upsertUntil s LCancel
        (mkRState (rs_script s) (rs_err s) (rs_phase s) (rs_buf s) (rs_errq s) true (rs_result s) (rs_sink s)
           (rs_applied s) (rs_outcome s))
  (* the select of the replayer *)
  | step_ctx s :
      rs_outcome s = None → rs_cancelled s = true →
      rstep upsertUntil s LReplayer (finish false (Some CtxCanceled) s)
  | step_error s e :
      rs_outcome s = None → rs_errq s = Some e →
      rstep upsertUntil s LReplayer (finish (rr_CaughtUp (rs_result s)) (Some e) s)
  | step_spin s :
      rs_outcome s = None → rs_errq s = None → rs_phase s = ErrClosed ∨ rs_phase s = AllClosed →
      rstep upsertUntil s LSpin s
  | step_event now s ev rest :
      rs_outcome s = None → rs_buf s = ev :: rest →
      rstep upsertUntil s LReplayer (apply_event now upsertUntil ev (pop_buf rest s))
  | step_closed s :
      rs_outcome s = None → rs_buf s = [] → rs_phase s = AllClosed →
      rstep upsertUntil s LReplayer (finish true None s).

(** [Replay] starts on the stream [Read] produces. *)
Definition start_replay (stream : list CacheEvent * option goerror) (k : K) : rstate :=
  mkRState stream.1 stream.2 Reading [] None false ReplayResult_zero k [] None.

(** ** Invariant *)

(** The result counts what was applied. *)
Definition result_matches (s : rstate) : Prop :=
  rr_EventsApplied (rs_result s) = i64 (zlen (rs_applied s)) ∧
  match last (rs_applied s) with
  | Some ev => rr_LastGTID (rs_result s) = ce_TxID ev ∧ rr_LastEventSeq (rs_result s) = ce_EventSeq ev
  | None => rr_LastGTID (rs_result s) = "" ∧ rr_LastEventSeq (rs_result s) = 0
  end.

(** [evs] is what the reader set out to deliver.  While the replayer runs,
    applied, buffered and unsent events make it up; a cancelled reader drops the
    rest. *)
Record replay_inv (evs : list CacheEvent) (s : rstate) : Prop := {
  inv_prefix : ∃ d, evs = rs_applied s ++ d;
  inv_running : rs_outcome s = None →
    ∃ d, evs = rs_applied s ++ rs_buf s ++ rs_script s ++ d ∧
      (rs_phase s = Reading ∨ rs_cancelled s = false → d = []);
  inv_script : rs_phase s ≠ Reading → rs_script s = [];
  inv_caught : rr_CaughtUp (rs_result s) = true → rs_outcome s = Some None;
  inv_done : rs_outcome s = Some None →
    rr_CaughtUp (rs_result s) = true ∧ (rs_cancelled s = false → rs_applied s = evs);
  inv_result : result_matches s
}.

Lemma start_inv stream k : replay_inv stream.1 (start_replay stream k).
Proof.
  split; try done; cbn; [by exists stream.1|]. intros _. exists []. by rewrite app_nil_r.
Qed.

Lemma result_matches_snoc s ev k :
  result_matches s →
  result_matches (mkRState (rs_script s) (rs_err s) (rs_phase s) (rs_buf s) (rs_errq s) (rs_cancelled s)
    (mkReplayResult (rr_CaughtUp (rs_result s)) (ce_TxID ev) (ce_EventSeq ev)
       (i64 (rr_EventsApplied (rs_result s) + 1))) k (rs_applied s ++ [ev]) None).
Proof.
  intros [Hn _]. unfold result_matches. cbn. rewrite last_snoc. split; [|done].
  rewrite Hn, i64_add_l. f_equal. unfold zlen. rewrite length_app. cbn. lia.
Qed.

Lemma apply_event_inv now until ev evs rest s :
  rs_outcome s = None → rs_buf s = ev :: rest → replay_inv evs s →
  replay_inv evs (apply_event now until ev (pop_buf rest s)).
Proof.
  intros Hout Hbuf Hinv. destruct Hinv as [[d Hd] Hrun Hscript Hcaught Hdone Hres].
  destruct (Hrun Hout) as (d' & Hd' & Hd0).
  assert (Hnot : rr_CaughtUp (rs_result s) = true → False) by (intros H; by rewrite Hcaught in Hout).
  unfold apply_event. cbn [pop_buf rs_sink rs_script rs_err rs_phase rs_buf rs_errq rs_cancelled rs_result rs_applied].
  destruct (deserializePayload (ce_Payload ev)) as [che|e].
  - destruct (sink_Write _ (rs_sink s)) as [k [[]|e]].
    + split; cbn; try done.
      * exists (rest ++ rs_script s ++ d'). rewrite Hd', Hbuf. by rewrite <- !app_assoc.
      * intros _. exists d'. split; [|done]. rewrite Hd', Hbuf. by rewrite <- !app_assoc.
      * exact (result_matches_snoc (pop_buf rest s) ev k Hres).
    + split; cbn; try done. by exists d.
  - split; cbn; try done. by exists d.
Qed.

Lemma rstep_inv until evs s l s' : replay_inv evs s → rstep until s l s' → replay_inv evs s'.
Proof.
  intros Hinv Hstep. assert (Hinv0 := Hinv). destruct Hinv as [[d Hd] Hrun Hscript Hcaught Hdone Hres].
  destruct Hstep as [s ev rest Hp Hs Hb|s Hp Hs|s Hp Hc|s Hp|s Hp|s Hc|s Ho Hc|s e Ho He|s|now s ev rest Ho Hb|s Ho Hb Hp];
    [..|exact Hinv0|by apply apply_event_inv|].
  - split; cbn; try done; [by exists d|]. intros Ho. destruct (Hrun Ho) as (d' & -> & Hd').
    exists d'. split; [|tauto]. rewrite Hs. by rewrite <- !app_assoc.
  - split; cbn; try done; [by exists d|]. intros Ho. destruct (Hrun Ho) as (d' & E & Hd').
    exists d'. split; [done|]. intros _. apply Hd'. by left.
  - split; cbn; try done; [by exists d|].
    intros Ho. destruct (Hrun Ho) as (d' & E & Hd'). exists (rs_script s ++ d'). split; [done|].
    intros [?|Hf]; [done|congruence].
  - split; cbn; try done; [by exists d| |].
    + intros Ho. destruct (Hrun Ho) as (d' & E & Hd'). exists d'. split; [done|]. intros [?|?]; [done|auto].
    + intros _. apply Hscript. by rewrite Hp.
  - split; cbn; try done; [by exists d| |].
    + intros Ho. destruct (Hrun Ho) as (d' & E & Hd'). exists d'. split; [done|]. intros [?|?]; [done|auto].
    + intros _. apply Hscript. by rewrite Hp.
  - split; cbn; try done; [by exists d| |].
    + intros Ho. destruct (Hrun Ho) as (d' & E & Hd'). exists d'. split; [done|]. intros [?|?]; [auto|done].
    + intros Ho. by destruct (Hdone Ho).
  - split; cbn; try done. by exists d.
  - split; cbn; try done; [by exists d|]. intros H. by rewrite Hcaught in Ho.
  - split; cbn; try done; [by exists d|]. intros _. split; [done|]. intros Hc.
    destruct (Hrun Ho) as (d' & -> & Hd'). rewrite Hd' by auto. rewrite Hb, Hscript by (by rewrite Hp).
    by rewrite !app_nil_r.
Qed.

(** *** What the sink is given *)

(** The change event that a cached event holds, marked or not. *)
Definition delivered_as (ce : CacheEvent) (w : ChangeEvent) : Prop :=
  ∃ che, deserializePayload (ce_Payload ce) = Ok che ∧ (w = che ∨ w = mark_upsert che).

(** The sink after it has accepted the events, one call for each. *)
Inductive sink_writes (k : K) : list ChangeEvent → K → Prop :=
  | writes_nil : sink_writes k [] k
  | writes_snoc ws w k1 k2 : sink_writes k ws k1 → sink_Write [w] k1 = (k2, Ok tt) → sink_writes k (ws ++ [w]) k2.

(** The sink has accepted the applied events; it may have refused the next one, which ends
    the replay. *)
Definition sink_has (k : K) (evs : list CacheEvent) (s : rstate) : Prop :=
  ∃ ws, Forall2 delivered_as (rs_applied s) ws ∧
    (sink_writes k ws (rs_sink s) ∨
     ∃ k1 ce rest w e, sink_writes k ws k1 ∧ evs = rs_applied s ++ ce :: rest ∧ delivered_as ce w ∧
       sink_Write [w] k1 = (rs_sink s, Err e) ∧ rs_outcome s = Some (Some e)).

Lemma rstep_sink until k evs s l s' :
  replay_inv evs s → sink_has k evs s → rstep until s l s' → sink_has k evs s'.
Proof.
  intros Hinv Hs Hstep. assert (Hrunning : rs_outcome s = None → ∃ ws, Forall2 delivered_as (rs_applied s) ws ∧ sink_writes k ws (rs_sink s)).
  { intros Ho. destruct Hs as (ws & Hws & [Hw|(k1 & ce & rest & w & e & _ & _ & _ & _ & Ho')]); [by exists ws|congruence]. }
  destruct Hstep as [s ev rest Hp Hsc Hb|s Hp Hsc|s Hp Hc|s Hp|s Hp|s Hc|s Ho Hc|s e Ho He|s|now s ev rest Ho Hb|s Ho Hb Hp]; try exact Hs;
    try (destruct (Hrunning Ho) as (ws & Hws & Hw)).
  - exists ws. split; [done|by left].
  - exists ws. split; [done|by left].
  - destruct (inv_running _ _ Hinv Ho) as (d & Hd & _). rewrite Hb in Hd. unfold apply_event.
    cbn [pop_buf rs_sink rs_script rs_err rs_phase rs_buf rs_errq rs_cancelled rs_result rs_applied].
    destruct (deserializePayload (ce_Payload ev)) as [che|e] eqn:Ede; [|exists ws; split; [done|by left]].
    set (w := if time_Before now until then mark_upsert che else che).
    assert (Hdel : delivered_as ev w) by (exists che; split; [done|]; subst w; destruct (time_Before now until); auto).
    destruct (sink_Write [w] (rs_sink s)) as [k2 [[]|e]] eqn:Ew.
    + exists (ws ++ [w]). cbn. split; [apply Forall2_app; [done|by constructor]|]. left. by econstructor.
    + exists ws. cbn. split; [done|]. right. by exists (rs_sink s), ev, (rest ++ rs_script s ++ d), w, e.
  - exists ws. split; [done|by left].
Qed.

(** The result names the last of the events and their number. *)
Definition result_of (done : list CacheEvent) (r : ReplayResult) : Prop :=
  rr_EventsApplied r = i64 (zlen done) ∧
  match last done with
  | Some ev => rr_LastGTID r = ce_TxID ev ∧ rr_LastEventSeq r = ce_EventSeq ev
  | None => rr_LastGTID r = "" ∧ rr_LastEventSeq r = 0
  end.

(** C9. Replay is faithful: in every interleaving of the reader and the replayer, the sink
    has been given the change events of a prefix of the cached events, one write for each,
    in order and each once, and has accepted them; a write that it refused is that of the
    next cached event and ends the replay with its error.  The result names the last event
    that was accepted and their number.  The replay reports that it has caught up exactly
    when it ends without an error, and, unless it was cancelled, only after every event of
    the cache has been accepted. *)
Theorem replay_in_order (upsertUntil : time) (stream : list CacheEvent * option goerror) (k : K)
    (ls : list label) (s : rstate) (Hrun : runs (rstep upsertUntil) (start_replay stream k) ls s) :
  ∃ done rest ws, stream.1 = done ++ rest ∧ Forall2 delivered_as done ws ∧
    (sink_writes k ws (rs_sink s) ∨
     ∃ k1 ce rest' w e, sink_writes k ws k1 ∧ rest = ce :: rest' ∧ delivered_as ce w ∧
       sink_Write [w] k1 = (rs_sink s, Err e) ∧ rs_outcome s = Some (Some e)) ∧
    result_of done (rs_result s) ∧
    (rr_CaughtUp (rs_result s) = true ↔ rs_outcome s = Some None) ∧
    (rs_outcome s = Some None → rs_cancelled s = false → rest = []).
Proof.
  assert (Hinv : replay_inv stream.1 s ∧ sink_has k stream.1 s).
  { eapply (runs_invariant (rstep upsertUntil) (λ s, replay_inv stream.1 s ∧ sink_has k stream.1 s)); [|exact Hrun|].
    - intros s1 l s2 [H1 H2] Hst. split; [by eapply rstep_inv|by eapply rstep_sink].
    - split; [apply start_inv|]. exists []. split; [constructor|]. left. constructor. }
  destruct Hinv as [[[rest Hp] _ _ Hc Hd Hr] (ws & Hws & Hsink)].
  exists (rs_applied s), rest, ws. split_and!; try done.
  - destruct Hsink as [?|(k1 & ce & rest' & w & e & ? & Hev & ?)]; [by left|right]. exists k1, ce, rest', w, e.
    split; [done|]. split; [|done]. rewrite Hp in Hev. by apply app_inv_head in Hev.
  - split; [done|]. intros Ho. by apply Hd.
  - intros Ho Hcan. destruct (Hd Ho) as [_ Happ]. specialize (Happ Hcan). rewrite <- Happ in Hp at 1.
    apply (f_equal length) in Hp. rewrite length_app in Hp. apply length_zero_iff_nil. lia.
Qed.

(** ** Termination *)

Definition phase_rank (p : phase) : nat :=
  match p with Reading => 4 | ErrSent => 3 | ErrClosed => 2 | AllClosed => 1 end.

Definition measure (s : rstate) : nat :=
  2 * length (rs_script s) + length (rs_buf s) + phase_rank (rs_phase s) +
  (match rs_outcome s with None => 1 | Some _ => 0 end) + (if rs_cancelled s then 0 else 1).

Definition busy (l : label) : bool := match l with LSpin => false | _ => true end.

Lemma rstep_measure until s l s' :
  rstep until s l s' → if busy l then (measure s' < measure s)%nat else s' = s.
Proof.
  destruct 1 as [s ev rest Hp Hs Hb|s Hp Hs|s Hp Hc|s Hp|s Hp|s Hc|s Ho Hc|s e Ho He|s|now s ev rest Ho Hb|s Ho Hb Hp];
    unfold measure; cbn [busy finish to_phase rs_script rs_buf rs_phase rs_outcome rs_cancelled phase_rank]; try done.
  - rewrite Hs, Hp, length_app. cbn. lia.
  - rewrite Hp. cbn. lia.
  - rewrite Hp. cbn. lia.
  - rewrite Hp. cbn. lia.
  - rewrite Hp. cbn. lia.
  - rewrite Hc. lia.
  - rewrite Ho. lia.
  - rewrite Ho. lia.
  - unfold apply_event. cbn [pop_buf rs_sink]. rewrite Hb, Ho.
    destruct (deserializePayload (ce_Payload ev)) as [che|e]; [destruct (sink_Write _ (rs_sink s)) as [k [[]|e]]|];
      cbn; lia.
  - rewrite Ho. lia.
Qed.

Lemma busy_steps_bounded until s ls s' :
  runs (rstep until) s ls s' → (length (List.filter busy ls) + measure s' <= measure s)%nat.
Proof.
  induction 1 as [|s l s1 ls s' Hstep _ IH]; cbn [List.filter length]; [lia|].
  apply rstep_measure in Hstep. destruct (busy l); cbn [length]; [lia|]. by subst s1.
Qed.

Lemma replayer_progress until s :
  (rs_phase s ≠ Reading → rs_script s = []) → rs_outcome s = None → ∃ l s', busy l = true ∧ rstep until s l s'.
Proof.
  intros Hscript Ho. destruct (rs_phase s) eqn:Hp.
  - destruct (rs_script s) as [|ev rest] eqn:Hs; [by do 2 eexists; split; [|by apply step_end]|].
    destruct (rs_buf s) as [|ev' rest'] eqn:Hb.
    + do 2 eexists. split; [|apply (step_send _ s ev rest Hp Hs)]; [done|]. rewrite Hb. unfold event_chan_cap. cbn. lia.
    + do 2 eexists. split; [|apply (step_event _ 0 s ev' rest' Ho Hb)]. done.
  - do 2 eexists. split; [|by apply step_close_err]. done.
  - do 2 eexists. split; [|by apply step_close]. done.
  - destruct (rs_buf s) as [|ev' rest'] eqn:Hb.
    + do 2 eexists. split; [|by apply step_closed]. done.
    + do 2 eexists. split; [|apply (step_event _ 0 s ev' rest' Ho Hb)]. done.
Qed.

(** C10. Replay terminates: in every run the steps other than the idle receive
    from the closed error channel number at most twice the cached events plus
    six, and as long as the replayer has not returned such a step is possible,
    so there is no deadlock between the reader and the replayer. *)
Theorem replay_terminates (upsertUntil : time) (stream : list CacheEvent * option goerror) (k : K)
    (ls : list label) (s : rstate) (Hrun : runs (rstep upsertUntil) (start_replay stream k) ls s) :
  (length (List.filter busy ls) <= 2 * length stream.1 + 6)%nat ∧
  (rs_outcome s = None → ∃ l s', busy l = true ∧ rstep upsertUntil s l s').
Proof.
  split.
  - apply busy_steps_bounded in Hrun. unfold measure at 2 in Hrun. cbn in Hrun. lia.
  - apply replayer_progress. assert (Hinv : replay_inv stream.1 s).
    { eapply (runs_invariant (rstep upsertUntil) (replay_inv stream.1)); [|exact Hrun|apply start_inv].
      intros. by eapply rstep_inv. }
    by destruct Hinv.
Qed.

(** A read error can be lost: when the reader fails, both the error and the
    close of the event channel are ready, and [select] may take the close; the
    replay then returns no error and reports that it has caught up. *)
Theorem replay_can_lose_error (upsertUntil : time) (e : goerror) (k : K) :
  ∃ ls s, runs (rstep upsertUntil) (start_replay ([], Some e) k) ls s ∧
    rs_errq s = Some e ∧ rs_outcome s = Some None ∧ rr_CaughtUp (rs_result s) = true.
Proof.
  exists [LReader; LReader; LReader; LReplayer]. eexists. split.
  - eapply runs_cons; [by apply step_end|]. eapply runs_cons; [by apply step_close_err|].
    eapply runs_cons; [by apply step_close|]. eapply runs_cons; [by apply step_closed|]. constructor.
  - done.
Qed.

End Replay.

Arguments rstate : clear implicits.
Arguments mkRState {_} _ _ _ _ _ _ _ _ _ _.

(** ** A concrete run *)

Module ReplayRuns.

#[local] Instance run_sink : EventSink nat := {| sink_Write evs k := ((k + length evs)%nat, Ok tt) |}.
#[local] Instance run_json : JSONCodec ChangeEvent := {|
  json_Marshal _ := Ok []; json_Unmarshal _ := Ok ChangeEvent_zero |}.

Definition cached (n : Z) : CacheEvent := mkCacheEvent 1 [] "tx" n false false [] 0 0 "".

Definition one_applied : rstate nat :=
  apply_event 5 10 (cached 1)
    (mkRState [cached 2] None Reading [] None false ReplayResult_zero 0%nat [] None).

Lemma one_event_run :
  runs (rstep 10) (start_replay ([cached 1; cached 2], None) 0%nat) [LReader; LReplayer] one_applied.
Proof.
  eapply runs_cons; [apply (step_send _ _ (cached 1) [cached 2]); [done|done|cbn; unfold event_chan_cap; lia]|].
  eapply runs_cons; [apply (step_event _ 5 _ (cached 1) []); done|]. constructor.
Qed.

Lemma replay_in_order_witness :
  ∃ done rest ws, [cached 1; cached 2] = done ++ rest ∧ Forall2 delivered_as done ws ∧
    sink_writes 0%nat ws (rs_sink one_applied) ∧ result_of done (rs_result one_applied).
Proof.
  destruct (replay_in_order 10 ([cached 1; cached 2], None) 0%nat [LReader; LReplayer] one_applied one_event_run)
    as (dn & rest & ws & H1 & H2 & [H3|(k1 & ce & rest' & w & e & _ & _ & _ & _ & H3)] & H4 & _); [|discriminate H3].
  exists dn, rest, ws. split; [exact H1|]. split; [exact H2|]. split; [exact H3|exact H4].
Defined.

Lemma replay_terminates_witness : (length (List.filter busy [LReader; LReplayer]) <= 2 * 2 + 6)%nat.
Proof.
  apply (replay_terminates 10 ([cached 1; cached 2], None) 0%nat [LReader; LReplayer] one_applied one_event_run).
Defined.

End ReplayRuns.
