(* ===== verification/Dispatch.v ===== *)
(** Concurrent writing to a sink (internal/sink): row identifiers
    (row_identifier.go), the hash dispatcher (hash_dispatcher.go) and the
    workers that batch, retry and write (concurrent_writer.go).

    The dispatcher and the workers run concurrently over bounded channels; they
    are a step relation, and the ordering theorem covers every interleaving. *)
From Stdlib Require Import ZArith Lia.
From Stdlib Require Ascii String.
From stdpp Require Import prelude countable gmap strings list fin_maps sorting.
From S2P Require Import Prelude Events Hash.
Local Open Scope Z_scope.

(** ** row_identifier.go *)

Inductive RowKeyType := KeyTypePrimaryKey | KeyTypeUniqueIndex | KeyTypeFullRow.

Record RowIdentifier := mkRowIdentifier {
  ri_Schema : string;
  ri_Database : string;
  ri_Table : string;
  ri_PrimaryKeyValues : string;
  ri_KeyType : RowKeyType
}.

(** Byte order on strings, as [sort.Strings] uses it. *)
Definition string_le (a b : string) : Prop := strings_Compare a b <= 0.
#[export] Instance string_le_dec a b : Decision (string_le a b) := Z_le_dec _ _.

Section Identify.
(** The [%v] verb of [fmt] on a column value. *)
Context (fmt_v : value → string).

Definition key_part (row : RowData) (col : string) : string :=
  col +:+ "=" +:+ fmt_v (default VNil (RowData_Get (Some row) col)).

Definition extractKeyValues (row : RowData) (columns : list string) : string :=
  join "," (key_part row <$> columns).

Definition extractFullRow (row : RowData) : string :=
  if RowData_IsEmpty (Some row) then ""
  else join "," (key_part row <$> merge_sort string_le (RowData_ColumnNames (Some row))).

Definition BuildRowIdentifier (e : ChangeEvent) (schema : TableInfo) : RowIdentifier :=
  let row := if RowData_IsEmpty (Some (ev_After e)) then ev_Before e else ev_After e in
  if HasPrimaryKey schema then
    mkRowIdentifier (ti_Schema schema) (ti_Database schema) (ti_Table schema)
      (extractKeyValues row (ti_PrimaryKeyColumns schema)) KeyTypePrimaryKey
  else if HasUniqueKey schema then
    mkRowIdentifier (ti_Schema schema) (ti_Database schema) (ti_Table schema)
      (extractKeyValues row (ti_UniqueKeyColumns schema)) KeyTypeUniqueIndex
  else
    mkRowIdentifier (ti_Schema schema) (ti_Database schema) (ti_Table schema)
      (extractFullRow row) KeyTypeFullRow.

Definition HashKey (r : RowIdentifier) : string :=
  ri_Schema r +:+ "." +:+ ri_Database r +:+ "." +:+ ri_Table r +:+ ":" +:+ ri_PrimaryKeyValues r.

(** ** hash_dispatcher.go *)

Definition NoPKStrategySingle : string := "single".
Definition NoPKStrategyTable : string := "table".

Record DispatcherConfig := mkDispatcherConfig {
  dc_WorkerCount : Z;
  dc_BufferSize : Z;
  dc_NoPKTableStrategy : string
}.

Definition DefaultDispatcherConfig : DispatcherConfig := mkDispatcherConfig 4 1024 NoPKStrategyTable.

(** The defaults [NewHashDispatcher] fills in. *)
Definition NewHashDispatcher (config : option DispatcherConfig) : DispatcherConfig :=
  let c := default DefaultDispatcherConfig config in
  mkDispatcherConfig
    (if dc_WorkerCount c <=? 0 then 4 else dc_WorkerCount c)
    (if dc_BufferSize c <=? 0 then 1024 else dc_BufferSize c)
    (if bool_decide (dc_NoPKTableStrategy c = "") then NoPKStrategyTable else dc_NoPKTableStrategy c).

Definition dispatch_tableKey (schema : TableInfo) : string :=
  ti_Schema schema +:+ "." +:+ ti_Database schema +:+ "." +:+ ti_Table schema.

(** [calculateWorkerID] with the table pins ([tableWorkerMap]) as state. *)
Definition calculateWorkerID (cfg : DispatcherConfig) (e : ChangeEvent) (schema : TableInfo)
    (pins : gmap string Z) : gmap string Z * Z :=
  let rid := BuildRowIdentifier e schema in
  match ri_KeyType rid with
  | KeyTypePrimaryKey | KeyTypeUniqueIndex => (pins, Z.rem (fnv32 (HashKey rid)) (dc_WorkerCount cfg))
  | KeyTypeFullRow =>
      if bool_decide (dc_NoPKTableStrategy cfg = NoPKStrategySingle) then (pins, 0)
      else
        let tableKey := dispatch_tableKey schema in
        match pins !! tableKey with
        | Some id => (pins, id)
        | None =>
            let workerID := Z.rem (fnv32 tableKey) (dc_WorkerCount cfg) in
            (<[tableKey := workerID]> pins, workerID)
        end
  end.

(** The worker an event goes to, whatever has been pinned before. *)
Definition worker_of (cfg : DispatcherConfig) (e : ChangeEvent) (schema : TableInfo) : Z :=
  (calculateWorkerID cfg e schema ∅).2.

Definition pins_ok (cfg : DispatcherConfig) (pins : gmap string Z) : Prop :=
  ∀ k w, pins !! k = Some w → w = Z.rem (fnv32 k) (dc_WorkerCount cfg).

Lemma calculateWorkerID_stable cfg e schema pins :
  pins_ok cfg pins →
  (calculateWorkerID cfg e schema pins).2 = worker_of cfg e schema ∧
  pins_ok cfg (calculateWorkerID cfg e schema pins).1.
Proof.
  intros Hpins. unfold worker_of, calculateWorkerID.
  destruct (ri_KeyType (BuildRowIdentifier e schema)); try done.
  case_bool_decide; [done|]. rewrite lookup_empty.
  destruct (pins !! dispatch_tableKey schema) as [w|] eqn:E; cbn.
  - split; [by apply Hpins|done].
  - split; [done|]. intros k w. rewrite lookup_insert_Some. intros [[<- <-]|[_ Hk]]; [done|by apply Hpins].
Qed.

Lemma NewHashDispatcher_ok config :
  0 < dc_WorkerCount (NewHashDispatcher config) ∧ 0 < dc_BufferSize (NewHashDispatcher config).
Proof.
  unfold NewHashDispatcher. cbn.
  destruct (Z.leb_spec (dc_WorkerCount (default DefaultDispatcherConfig config)) 0);
  destruct (Z.leb_spec (dc_BufferSize (default DefaultDispatcherConfig config)) 0); lia.
Qed.

Lemma fnv32_range s : 0 <= fnv32 s.
Proof. rewrite fnv32_FNV32. apply FNV32_range. Qed.

Lemma worker_of_range config e schema :
  0 <= worker_of (NewHashDispatcher config) e schema < dc_WorkerCount (NewHashDispatcher config).
Proof.
  set (cfg := NewHashDispatcher config). destruct (NewHashDispatcher_ok config) as [Hw _]. fold cfg in Hw.
  assert (Hrem : ∀ s, 0 <= Z.rem (fnv32 s) (dc_WorkerCount cfg) < dc_WorkerCount cfg).
  { intros s. apply Z.rem_bound_pos; [apply fnv32_range|done]. }
  unfold worker_of, calculateWorkerID. destruct (ri_KeyType _); try apply Hrem.
  case_bool_decide; cbn [snd]; [lia|]. rewrite lookup_empty. apply Hrem.
Qed.

Lemma worker_of_same_row cfg e1 e2 schema :
  BuildRowIdentifier e1 schema = BuildRowIdentifier e2 schema →
  worker_of cfg e1 schema = worker_of cfg e2 schema.
Proof. intros E. unfold worker_of, calculateWorkerID. by rewrite E. Qed.

(** ** concurrent_writer.go: flush *)

Definition maxDelay : duration := 30 * 1000000000.

(** [delay = time.Duration(float64(delay) * 2.0)], capped; exact for the delays
    below the cap. *)
Definition next_delay (delay : duration) : duration :=
  if maxDelay <? 2 * delay then maxDelay else 2 * delay.

(** The retry loop of [flush]: [writes n] is the outcome of the attempt number
    [n]; the waits before the retries are returned (without the jitter). *)
Fixpoint flush_loop (writes : nat → option goerror) (attempts attempt : nat) (delay : duration)
    (lastErr : option goerror) (waits : list duration) : option goerror * bool * list duration :=
  match attempts with
  | O => (lastErr, false, waits)
  | S attempts =>
      let waits := if (0 <? Z.of_nat attempt)%Z then waits ++ [delay] else waits in
      let delay := if (0 <? Z.of_nat attempt)%Z then next_delay delay else delay in
      match writes attempt with
      | None => (None, true, waits)
      | Some e => flush_loop writes attempts (S attempt) delay (Some e) waits
      end
  end.

(** [flush] of a non-empty batch: the error it returns, whether the batch was
    written, and the waits.  A negative [maxRetry] makes no attempt. *)
Definition flush (maxRetry : Z) (retryBackoff : duration) (writes : nat → option goerror) :
    option goerror * bool * list duration :=
  flush_loop writes (Z.to_nat (maxRetry + 1)) 0 retryBackoff None [].

Lemma flush_loop_spec writes attempts : ∀ attempt delay lastErr waits,
  let '(err, ok, waits') := flush_loop writes attempts attempt delay lastErr waits in
  (ok = true ↔ ∃ n, (attempt <= n < attempt + attempts)%nat ∧ writes n = None) ∧
  (ok = true → err = None) ∧
  (ok = false → (attempts ≠ 0)%nat → err = writes (attempt + attempts - 1)%nat) ∧
  (ok = false → attempts = 0%nat → err = lastErr) ∧
  (length waits' <= length waits + attempts)%nat.
Proof.
  induction attempts as [|attempts IH]; intros attempt delay lastErr waits; cbn [flush_loop].
  - split_and!; try done; [|lia]. split; [done|]. intros (n & ? & _). lia.
  - set (w := if (0 <? Z.of_nat attempt)%Z then waits ++ [delay] else waits).
    set (d := if (0 <? Z.of_nat attempt)%Z then next_delay delay else delay).
    assert (Hw : (length w <= length waits + 1)%nat) by (subst w; case_match; rewrite ?length_app; cbn; lia).
    destruct (writes attempt) as [e|] eqn:Ea.
    + specialize (IH (S attempt) d (Some e) w).
      destruct (flush_loop writes attempts (S attempt) d (Some e) w) as [[err ok] waits'].
      destruct IH as (H1 & H2 & H3 & H4 & H5). split_and!; try done; [..|lia].
      * rewrite H1. split; intros (n & Hn & Hw'); exists n; (split; [|done]); [lia|].
        destruct (decide (n = attempt)) as [->|]; [congruence|lia].
      * intros Hok _. destruct attempts as [|a].
        -- rewrite H4 by done. replace (attempt + 1 - 1)%nat with attempt by lia. done.
        -- rewrite H3 by done. f_equal. lia.
    + split_and!; try done; [|lia]. split; [|done]. intros _. exists attempt. split; [lia|done].
Qed.

(** [flush] makes at most [maxRetry] + 1 attempts and stops at the first
    success: the batch is written exactly when one of them succeeds, and
    otherwise the last error is returned. *)
Theorem flush_attempts (maxRetry : Z) (backoff : duration) (writes : nat → option goerror)
    (Hmax : 0 <= maxRetry) :
  let '(err, ok, waits) := flush maxRetry backoff writes in
  (ok = true ↔ ∃ n, Z.of_nat n <= maxRetry ∧ writes n = None) ∧
  (ok = true → err = None) ∧
  (ok = false → err = writes (Z.to_nat maxRetry) ∧ is_Some err) ∧
  Z.of_nat (length waits) <= maxRetry + 1.
Proof.
  unfold flush. pose proof (flush_loop_spec writes (Z.to_nat (maxRetry + 1)) 0 backoff None []) as Hs.
  destruct (flush_loop writes (Z.to_nat (maxRetry + 1)) 0 backoff None []) as [[err ok] waits].
  destruct Hs as (H1 & H2 & H3 & H4 & H5). split_and!; [|done|..].
  - rewrite H1. split; intros (n & Hn & Hw); exists n; (split; [lia|done]).
  - intros Hok. assert (err = writes (Z.to_nat maxRetry)) as ->.
    { rewrite H3; [f_equal; lia|done|lia]. }
    split; [done|]. destruct (writes (Z.to_nat maxRetry)) eqn:E; [done|]. exfalso.
    destruct ok; [done|]. assert (false = true); [|done]. apply H1. exists (Z.to_nat maxRetry). split; [lia|done].
  - cbn in H5. lia.
Qed.

(** ** concurrent_writer.go: the workers *)

Record ConcurrentSinkConfig := mkConcurrentSinkConfig {
  csc_WorkerCount : Z;
  csc_BatchSize : Z;
  csc_FlushInterval : duration;
  csc_MaxRetry : Z;
  csc_RetryBackoff : duration
}.

Definition DefaultConcurrentSinkConfig : ConcurrentSinkConfig :=
  mkConcurrentSinkConfig 4 100 500000000 3 100000000.

(** The defaults [NewConcurrentSinkWriter] fills in. *)
Definition NewConcurrentSinkWriter (config : option ConcurrentSinkConfig) : ConcurrentSinkConfig :=
  let c := default DefaultConcurrentSinkConfig config in
  mkConcurrentSinkConfig
    (if csc_WorkerCount c <=? 0 then 4 else csc_WorkerCount c)
    (if csc_BatchSize c <=? 0 then 100 else csc_BatchSize c)
    (if csc_FlushInterval c <=? 0 then 500000000 else csc_FlushInterval c)
    (csc_MaxRetry c) (csc_RetryBackoff c).

Definition dispatcher_config (c : ConcurrentSinkConfig) : DispatcherConfig :=
  NewHashDispatcher (Some (mkDispatcherConfig (csc_WorkerCount c) (i64 (csc_BatchSize c * 4)) NoPKStrategyTable)).

(** An event with the table definition it was dispatched with. *)
Definition item : Type := ChangeEvent * TableInfo.

(** The writer: channels and buffers by worker, the table pins, and the batches
    handed to the sink in the order of their last attempt, with their fate.
    [ws_sent] is a ghost: what has been dispatched. *)
Record wstate := mkWState {
  ws_input : list item;                 (* calls of Write still to come *)
  ws_pins : gmap string Z;
  ws_chan : Z → list item;
  ws_closed : bool;
  ws_buf : Z → list item;
  ws_log : list (Z * list item * bool);
  ws_sent : list item
}.

Definition upd_at (f : Z → list item) (w : Z) (l : list item) : Z → list item :=
  λ v, if decide (v = w) then l else f v.

(** [flush] of the buffer of worker [w]; nothing happens to an empty one. *)
Definition flush_worker (cfg : ConcurrentSinkConfig) (writes : nat → option goerror) (w : Z) (s : wstate) : wstate :=
  match ws_buf s w with
  | [] => s
  | batch =>
      let '(_, ok, _) := flush (csc_MaxRetry cfg) (csc_RetryBackoff cfg) writes in
      mkWState (ws_input s) (ws_pins s) (ws_chan s) (ws_closed s) (upd_at (ws_buf s) w [])
        (ws_log s ++ [(w, batch, ok)]) (ws_sent s)
  end.

(** The worker takes the event [x] from its channel: it is buffered, and a full
    buffer is flushed. *)
Definition worker_recv (cfg : ConcurrentSinkConfig) (writes : nat → option goerror) (w : Z) (x : item)
    (rest : list item) (s : wstate) : wstate :=
  let s' := mkWState (ws_input s) (ws_pins s) (upd_at (ws_chan s) w rest) (ws_closed s)
              (upd_at (ws_buf s) w (ws_buf s w ++ [x])) (ws_log s) (ws_sent s) in
  if csc_BatchSize cfg <=? zlen (ws_buf s' w) then flush_worker cfg writes w s' else s'.

Inductive wlabel := WDispatch | WRefuse | WClose | WRecv | WTick | WExit.

#[export] Instance wlabel_eq_dec : EqDecision wlabel.
Proof. solve_decision. Defined.

(** [WDispatch] and [WRefuse] are the two branches of the [select] of
    [Dispatch]: the event is sent when its channel has room, or the caller's
    context is done.  [WClose] is [Close]; [WRecv], [WTick] and [WExit] are the
    branches of the [select] of [Run].  The workers' own context is cancelled only
    after all of them have exited, so its branch is never taken before. *)
Inductive wstep (cfg : ConcurrentSinkConfig) : wstate → wlabel → wstate → Prop :=
  | wstep_dispatch s e schema rest pins w :
      ws_input s = (e, schema) :: rest → ws_closed s = false →
      calculateWorkerID (dispatcher_config cfg) e schema (ws_pins s) = (pins, w) →
      Z.of_nat (length (ws_chan s w)) < dc_BufferSize (dispatcher_config cfg) →
      wstep cfg s WDispatch
        (mkWState rest pins (upd_at (ws_chan s) w (ws_chan s w ++ [(e, schema)])) false (ws_buf s) (ws_log s)
           (ws_sent s ++ [(e, schema)]))
  | wstep_refuse s e schema rest pins w :
      ws_input s = (e, schema) :: rest →
      calculateWorkerID (dispatcher_config cfg) e schema (ws_pins s) = (pins, w) →
      wstep cfg s WRefuse
        (mkWState rest pins (ws_chan s) (ws_closed s) (ws_buf s) (ws_log s) (ws_sent s))
  | wstep_close s :
      ws_input s = [] → ws_closed s = false →
      wstep cfg s WClose
        (mkWState [] (ws_pins s) (ws_chan s) true (ws_buf s) (ws_log s) (ws_sent s))
  | wstep_recv s w x rest writes :
      ws_chan s w = x :: rest →
      wstep cfg s WRecv (worker_recv cfg writes w x rest s)
  | wstep_tick s w writes :
      wstep cfg s WTick (flush_worker cfg writes w s)
  | wstep_exit s w writes :
      ws_closed s = true → ws_chan s w = [] →
      wstep cfg s WExit (flush_worker cfg writes w s).

Definition start_writer (input : list item) : wstate :=
  mkWState input ∅ (λ _, []) false (λ _, []) [] [].

(** The events of the batches that were written, in the order of the sink. *)
Definition written (s : wstate) : list item :=
  concat ((λ x, x.1.2) <$> List.filter (λ x, x.2) (ws_log s)).

(** ** Lists *)

Definition of_worker (cfg : ConcurrentSinkConfig) (w : Z) (x : item) : bool :=
  worker_of (dispatcher_config cfg) x.1 x.2 =? w.

(** Every batch of a worker, written or not. *)
Definition handled (w : Z) (log : list (Z * list item * bool)) : list item :=
  concat ((λ x, x.1.2) <$> List.filter (λ x, x.1.1 =? w) log).

Definition written_by (w : Z) (log : list (Z * list item * bool)) : list item :=
  concat ((λ x, x.1.2) <$> List.filter (λ x, x.2) (List.filter (λ x, x.1.1 =? w) log)).

Lemma handled_snoc w log w' b ok :
  handled w (log ++ [(w', b, ok)]) = handled w log ++ (if w' =? w then b else []).
Proof.
  unfold handled. rewrite List.filter_app. cbn. destruct (w' =? w); cbn; rewrite ?app_nil_r; [|done].
  rewrite fmap_app, concat_app. cbn. by rewrite app_nil_r.
Qed.

Lemma sublist_filter {A} (p : A → bool) l k : l `sublist_of` k → List.filter p l `sublist_of` List.filter p k.
Proof.
  induction 1 as [|x l k _ IH|x l k _ IH]; cbn; [done|..]; destruct (p x); [by apply sublist_skip|done|by apply sublist_cons|done].
Qed.

Lemma filter_filter_implied {A} (p q : A → bool) l :
  (∀ x, p x = true → q x = true) → List.filter p (List.filter q l) = List.filter p l.
Proof.
  intros Hpq. induction l as [|x l IH]; cbn; [done|]. destruct (q x) eqn:Eq; cbn; [by rewrite IH|].
  destruct (p x) eqn:Ep; [|done]. by rewrite (Hpq x Ep) in Eq.
Qed.

Lemma filter_none {A} (p : A → bool) l : Forall (λ x, p x = false) l → List.filter p l = [].
Proof. induction 1 as [|x l Hx _ IH]; cbn; [done|]. by rewrite Hx. Qed.

Lemma written_by_sublist w log : written_by w log `sublist_of` handled w log.
Proof.
  unfold written_by, handled. induction (List.filter (λ x, x.1.1 =? w) log) as [|x l IH]; cbn; [done|].
  destruct (x.2); cbn; [by apply sublist_app|]. by apply sublist_inserts_l.
Qed.

Lemma written_by_all w log :
  Forall (λ x, x.1.1 = w → x.2 = true) log → written_by w log = handled w log.
Proof.
  unfold written_by, handled. induction 1 as [|[[v b] ok] log Hx _ IH]; [done|]. cbn in *.
  destruct (Z.eqb_spec v w) as [->|]; [|done]. cbn. rewrite Hx by done. cbn. by rewrite IH.
Qed.

(** A property that only events of worker [w] have selects from the whole log
    what it selects from the batches of [w]. *)
Lemma filter_written (p : item → bool) w log :
  Forall (λ x : Z * list item * bool, x.1.1 ≠ w → Forall (λ i, p i = false) x.1.2) log →
  List.filter p (concat ((λ x, x.1.2) <$> List.filter (λ x, x.2) log)) = List.filter p (written_by w log).
Proof.
  unfold written_by. induction 1 as [|[[w' b] ok] log Hx _ IH]; cbn; [done|]. cbn in Hx.
  destruct (Z.eqb_spec w' w) as [->|Hne]; cbn.
  - destruct ok; cbn; [|done]. by rewrite !List.filter_app, IH.
  - destruct ok; cbn; [|done]. by rewrite List.filter_app, (filter_none p b), IH by auto.
Qed.

(** ** Per-row order *)

#[export] Instance RowKeyType_eq_dec : EqDecision RowKeyType.
Proof. solve_decision. Defined.
#[export] Instance RowIdentifier_eq_dec : EqDecision RowIdentifier.
Proof. solve_decision. Defined.

(** The events of one row. *)
Definition same_row (rid : RowIdentifier) (x : item) : bool :=
  bool_decide (BuildRowIdentifier x.1 x.2 = rid).

(** The worker of a row, read off its identifier. *)
Definition worker_of_row (cfg : DispatcherConfig) (rid : RowIdentifier) : Z :=
  match ri_KeyType rid with
  | KeyTypePrimaryKey | KeyTypeUniqueIndex => Z.rem (fnv32 (HashKey rid)) (dc_WorkerCount cfg)
  | KeyTypeFullRow =>
      if bool_decide (dc_NoPKTableStrategy cfg = NoPKStrategySingle) then 0
      else Z.rem (fnv32 (ri_Schema rid +:+ "." +:+ ri_Database rid +:+ "." +:+ ri_Table rid)) (dc_WorkerCount cfg)
  end.

Lemma worker_of_by_row cfg e schema :
  worker_of cfg e schema = worker_of_row cfg (BuildRowIdentifier e schema).
Proof.
  unfold worker_of, calculateWorkerID, worker_of_row.
  assert (Hid : dispatch_tableKey schema =
    ri_Schema (BuildRowIdentifier e schema) +:+ "." +:+ ri_Database (BuildRowIdentifier e schema) +:+ "."
      +:+ ri_Table (BuildRowIdentifier e schema)).
  { unfold BuildRowIdentifier, dispatch_tableKey. by destruct (HasPrimaryKey schema), (HasUniqueKey schema). }
  destruct (ri_KeyType _); [done..|]. case_bool_decide; [done|]. by rewrite lookup_empty, <- Hid.
Qed.

Lemma same_row_worker cfg rid x :
  same_row rid x = true → of_worker cfg (worker_of_row (dispatcher_config cfg) rid) x = true.
Proof.
  unfold same_row, of_worker. intros Hx%bool_decide_eq_true_1. rewrite worker_of_by_row, Hx. apply Z.eqb_refl.
Qed.

(** What every worker has flushed, buffers and still has in its channel is, in
    that order, what has been dispatched to it. *)
Record winv (cfg : ConcurrentSinkConfig) (input : list item) (s : wstate) : Prop := {
  winv_pins : pins_ok (dispatcher_config cfg) (ws_pins s);
  winv_fifo w : List.filter (of_worker cfg w) (ws_sent s) = handled w (ws_log s) ++ ws_buf s w ++ ws_chan s w;
  winv_sent : ws_sent s ++ ws_input s `sublist_of` input
}.

Lemma upd_at_same f w l : upd_at f w l w = l.
Proof. unfold upd_at. by rewrite decide_True. Qed.

Lemma upd_at_other f w l v : v ≠ w → upd_at f w l v = f v.
Proof. intros Hne. unfold upd_at. by rewrite decide_False. Qed.

Lemma flush_worker_inv cfg input writes w s : winv cfg input s → winv cfg input (flush_worker cfg writes w s).
Proof.
  intros [Hp Hf Hs]. unfold flush_worker. destruct (ws_buf s w) as [|x b] eqn:Eb; [by split|].
  destruct (flush _ _ _) as [[? ok] ?]. split; cbn [ws_pins ws_sent ws_log ws_buf ws_chan ws_input]; [done| |done].
  intros v. rewrite Hf, handled_snoc. destruct (Z.eqb_spec w v) as [<-|Hne].
  - by rewrite Eb, upd_at_same, app_assoc.
  - by rewrite upd_at_other, app_nil_r by done.
Qed.

Lemma worker_recv_inv cfg input writes w x rest s :
  ws_chan s w = x :: rest → winv cfg input s → winv cfg input (worker_recv cfg writes w x rest s).
Proof.
  intros Hc [Hp Hf Hs]. unfold worker_recv.
  assert (Hmid : winv cfg input (mkWState (ws_input s) (ws_pins s) (upd_at (ws_chan s) w rest) (ws_closed s)
                   (upd_at (ws_buf s) w (ws_buf s w ++ [x])) (ws_log s) (ws_sent s))).
  { split; cbn [ws_pins ws_sent ws_log ws_buf ws_chan ws_input]; [done| |done]. intros v. rewrite Hf. destruct (decide (v = w)) as [->|Hne].
    - by rewrite !upd_at_same, Hc, <- !app_assoc.
    - by rewrite !upd_at_other. }
  case_match; [by apply flush_worker_inv|done].
Qed.

Lemma wstep_inv cfg input s l s' : winv cfg input s → wstep cfg s l s' → winv cfg input s'.
Proof.
  intros Hinv Hst. inversion Hst; subst; [| | |by apply worker_recv_inv|by apply flush_worker_inv|by apply flush_worker_inv].
  - match goal with H : calculateWorkerID _ _ _ _ = _ |- _ => rename H into Hw end.
    destruct Hinv as [Hp Hf Hs]. destruct (calculateWorkerID_stable _ e schema _ Hp) as [Hwid Hpins].
    rewrite Hw in Hwid, Hpins. cbn in Hwid, Hpins. split; cbn; [done|..].
    + intros v. rewrite List.filter_app, Hf. cbn. unfold of_worker at 1. cbn [fst snd]. rewrite <- Hwid.
      destruct (Z.eqb_spec w v) as [<-|Hne].
      * by rewrite upd_at_same, <- !app_assoc.
      * by rewrite upd_at_other, app_nil_r by done.
    + match goal with H : ws_input _ = _ |- _ => rewrite H in Hs end. by rewrite <- app_assoc.
  - match goal with H : calculateWorkerID _ _ _ _ = _ |- _ => rename H into Hw end.
    destruct Hinv as [Hp Hf Hs]. destruct (calculateWorkerID_stable _ e schema _ Hp) as [_ Hpins].
    rewrite Hw in Hpins. split; cbn; [done|done|].
    etrans; [|apply Hs]. apply sublist_app; [done|].
    match goal with H : ws_input _ = _ |- _ => rewrite H end. by apply sublist_cons.
  - destruct Hinv as [Hp Hf Hs]. split; cbn; [done|done|].
    by match goal with H : ws_input _ = _ |- _ => rewrite H in Hs end.
Qed.

Lemma start_writer_inv cfg input : winv cfg input (start_writer input).
Proof. split; cbn; [by intros k w|done|done]. Qed.

(** The ghost of what was sent is everything, when nothing was refused. *)
Lemma flush_worker_sent cfg writes w s :
  ws_sent (flush_worker cfg writes w s) = ws_sent s ∧ ws_input (flush_worker cfg writes w s) = ws_input s.
Proof. unfold flush_worker. destruct (ws_buf s w); [done|]. by destruct (flush _ _ _) as [[? ?] ?]. Qed.

Lemma runs_sent cfg s ls s' :
  runs (wstep cfg) s ls s' → WRefuse ∉ ls → ws_sent s' ++ ws_input s' = ws_sent s ++ ws_input s.
Proof.
  induction 1 as [|s l s1 ls s2 Hst _ IH]; intros Hnr; [done|].
  rewrite not_elem_of_cons in Hnr. destruct Hnr as [Hl Hls]. rewrite (IH Hls).
  inversion Hst; subst; cbn; try done.
  - rewrite <- app_assoc. cbn. by match goal with H : ws_input _ = _ |- _ => rewrite H end.
  - by match goal with H : ws_input _ = _ |- _ => rewrite H end.
  - unfold worker_recv. case_match; [|done].
    by rewrite (proj1 (flush_worker_sent _ _ _ _)), (proj2 (flush_worker_sent _ _ _ _)).
  - by rewrite (proj1 (flush_worker_sent _ _ _ _)), (proj2 (flush_worker_sent _ _ _ _)).
  - by rewrite (proj1 (flush_worker_sent _ _ _ _)), (proj2 (flush_worker_sent _ _ _ _)).
Qed.

(** The batches of the other workers hold no event of a row. *)
Lemma log_other_worker cfg input s rid :
  winv cfg input s →
  Forall (λ x : Z * list item * bool, x.1.1 ≠ worker_of_row (dispatcher_config cfg) rid →
            Forall (λ i, same_row rid i = false) x.1.2) (ws_log s).
Proof.
  intros Hinv. apply Forall_forall. intros [[w b] ok] Hin Hne. cbn in *. apply Forall_forall. intros i Hi.
  apply not_true_iff_false. intros Hsame%(same_row_worker cfg). apply Hne.
  assert (Hh : In i (List.filter (of_worker cfg w) (ws_sent s))).
  { rewrite (winv_fifo _ _ _ Hinv). apply in_or_app. left. unfold handled. apply in_concat. exists b.
    split; [|by apply list_elem_of_In]. apply list_elem_of_In, list_elem_of_fmap. exists (w, b, ok). split; [done|].
    apply list_elem_of_In, filter_In. split; [by apply list_elem_of_In|]. apply Z.eqb_refl. }
  apply filter_In in Hh as [_ Hh]. unfold of_worker in *. apply Z.eqb_eq in Hh, Hsame. by rewrite <- Hh, Hsame.
Qed.

(** C14. Per-row order of the concurrent writer: under every interleaving of the
    dispatcher and the workers, and whatever attempts fail, the events of a row
    reach the sink in the order they were dispatched; and once the channel and the
    buffer of the row's worker are drained, with no event refused and no batch of
    that worker given up, they reach it exactly as dispatched. *)
Theorem concurrent_writer_row_order cfg input ls s (rid : RowIdentifier)
    (Hrun : runs (wstep cfg) (start_writer input) ls s) :
  List.filter (same_row rid) (written s) `sublist_of` List.filter (same_row rid) input ∧
  (let w := worker_of_row (dispatcher_config cfg) rid in
   WRefuse ∉ ls → ws_input s = [] → ws_buf s w = [] → ws_chan s w = [] →
   Forall (λ b, b.1.1 = w → b.2 = true) (ws_log s) →
   List.filter (same_row rid) (written s) = List.filter (same_row rid) input).
Proof.
  assert (Hinv : winv cfg input s).
  { eapply (runs_invariant (wstep cfg) (winv cfg input)); [apply wstep_inv|done|apply start_writer_inv]. }
  set (w := worker_of_row (dispatcher_config cfg) rid).
  assert (Hrow : ∀ l, List.filter (same_row rid) (List.filter (of_worker cfg w) l) = List.filter (same_row rid) l).
  { intros l. apply filter_filter_implied. intros x. apply same_row_worker. }
  assert (Hwr : List.filter (same_row rid) (written s) = List.filter (same_row rid) (written_by w (ws_log s))).
  { apply filter_written. by eapply log_other_worker. }
  rewrite Hwr. split.
  - rewrite <- (Hrow input). apply sublist_filter. trans (handled w (ws_log s)); [apply written_by_sublist|].
    trans (List.filter (of_worker cfg w) (ws_sent s)).
    + rewrite (winv_fifo _ _ _ Hinv). by apply sublist_inserts_r.
    + apply sublist_filter. trans (ws_sent s ++ ws_input s); [by apply sublist_inserts_r|apply Hinv].
  - cbn zeta. fold w. intros Hnr Hin Hb Hc Hok. pose proof (runs_sent _ _ _ _ Hrun Hnr) as Hs.
    rewrite Hin, app_nil_r in Hs. cbn in Hs. rewrite <- Hs, <- (Hrow (ws_sent s)), (winv_fifo _ _ _ Hinv).
    by rewrite Hb, Hc, !app_nil_r, written_by_all.
Qed.
End Identify.

(** ** Concrete runs *)

Module DispatchRuns.

Definition fmt_text (v : value) : string := match v with VString s => s | _ => "" end.

Definition users : TableInfo := mkTableInfo "db" "public" "users" ["id"] [] [].
Definition row (id name : string) : RowData :=
  mkRowData (Some (<["id" := mkField "id" (VString id) "" false]> (<["name" := mkField "name" (VString name) "" false]> ∅))).
Definition row_change (typ : EventType) (before after : RowData) : ChangeEvent :=
  mkChangeEvent "" SourceInfo_zero typ Position_zero users before after 0 None None None.

Definition cfg1 : ConcurrentSinkConfig := NewConcurrentSinkWriter (Some (mkConcurrentSinkConfig 4 1 0 3 0)).
Definition first_retry : nat → option goerror := λ n, if decide (n = 0%nat) then Some (ErrNew "busy") else None.

Lemma flush_attempts_witness :
  let '(err, ok, waits) := flush 3 100 first_retry in
  (ok = true ↔ ∃ n, Z.of_nat n <= 3 ∧ first_retry n = None) ∧
  (ok = true → err = None) ∧
  (ok = false → err = first_retry (Z.to_nat 3) ∧ is_Some err) ∧
  Z.of_nat (length waits) <= 3 + 1.
Proof. apply (flush_attempts 3 100 first_retry). lia. Defined.

(** Moves row 1 to key 2, then inserts a new row 1. *)
Definition move_row : item := (row_change EventTypeUpdate (row "1" "ann") (row "2" "ann"), users).
Definition reuse_key : item := (row_change EventTypeInsert RowData_zero (row "1" "bob"), users).
Definition insert_a : item := (row_change EventTypeInsert RowData_zero (row "1" "a"), users).
Definition update_b : item := (row_change EventTypeUpdate (row "1" "a") (row "1" "b"), users).

(** The steps of a schedule: the next event is dispatched, a worker receives. *)
Inductive action := ADispatch | ARecv (w : Z).
Definition label_of (a : action) : wlabel := match a with ADispatch => WDispatch | ARecv _ => WRecv end.

Definition perform (s : wstate) (a : action) : option wstate :=
  match a with
  | ADispatch =>
      match ws_input s, ws_closed s with
      | x :: rest, false =>
          let '(pins, w) := calculateWorkerID fmt_text (dispatcher_config cfg1) x.1 x.2 (ws_pins s) in
          if Z.of_nat (length (ws_chan s w)) <? dc_BufferSize (dispatcher_config cfg1) then
            Some (mkWState rest pins (upd_at (ws_chan s) w (ws_chan s w ++ [x])) false (ws_buf s) (ws_log s)
              (ws_sent s ++ [x]))
          else None
      | _, _ => None
      end
  | ARecv w =>
      match ws_chan s w with
      | x :: rest => Some (worker_recv cfg1 first_retry w x rest s)
      | [] => None
      end
  end.

Definition perform_all (acts : list action) (s : wstate) : option wstate :=
  foldl (λ s a, s ≫= λ s, perform s a) (Some s) acts.

Lemma perform_step s a s' : perform s a = Some s' → wstep fmt_text cfg1 s (label_of a) s'.
Proof.
  destruct a as [|w]; cbn.
  - destruct (ws_input s) as [|[e schema] rest] eqn:Ei, (ws_closed s) eqn:Ec; try done.
    cbn. destruct (calculateWorkerID _ _ _ _) as [pins w] eqn:Ew. case_match eqn:El; [|done].
    intros [= <-]. econstructor; eauto. by apply Z.ltb_lt.
  - destruct (ws_chan s w) as [|x rest] eqn:Ec; [done|]. intros [= <-]. by constructor.
Qed.

Lemma perform_all_runs acts : ∀ s s',
  perform_all acts s = Some s' → runs (wstep fmt_text cfg1) s (label_of <$> acts) s'.
Proof.
  unfold perform_all. induction acts as [|a acts IH]; cbn; intros s s'.
  - intros [= <-]. constructor.
  - destruct (perform s a) as [s1|] eqn:E; [intros Hs; econstructor; [by apply perform_step|by apply IH]|].
    assert (Hn : foldl (λ s a, s ≫= λ s, perform s a) None acts = None) by (clear; by induction acts).
    by rewrite Hn.
Qed.

Definition same_row_acts : list action := [ADispatch; ADispatch; ARecv 3; ARecv 3].
Definition same_row_end : wstate :=
  default (start_writer []) (perform_all same_row_acts (start_writer [insert_a; update_b])).

Lemma concurrent_writer_row_order_witness :
  List.filter (same_row fmt_text (BuildRowIdentifier fmt_text insert_a.1 users)) (written same_row_end)
  = List.filter (same_row fmt_text (BuildRowIdentifier fmt_text insert_a.1 users)) [insert_a; update_b].
Proof.
  apply (concurrent_writer_row_order fmt_text cfg1 [insert_a; update_b] (label_of <$> same_row_acts) same_row_end).
  - apply perform_all_runs. vm_compute. reflexivity.
  - apply (bool_decide_unpack _). vm_compute. exact I.
  - vm_compute. reflexivity.
  - vm_compute. reflexivity.
  - vm_compute. reflexivity.
  - vm_compute. repeat constructor.
Defined.

Definition moved_end : wstate :=
  default (start_writer [])
    (perform_all [ADispatch; ADispatch; ARecv 3; ARecv 2] (start_writer [move_row; reuse_key])).

(** The order is per key after the change, not per row of the sink: an update
    that moves a row to another key and a later insert of the old key have
    different identifiers, go to different workers, and can reach the sink in the
    reverse order. *)
Theorem key_change_can_reorder :
  ∃ ls s, runs (wstep fmt_text cfg1) (start_writer [move_row; reuse_key]) ls s ∧
    WRefuse ∉ ls ∧ Forall (λ b, b.2 = true) (ws_log s) ∧
    written s = [reuse_key; move_row].
Proof.
  exists (label_of <$> [ADispatch; ADispatch; ARecv 3; ARecv 2]), moved_end. split_and!.
  - apply perform_all_runs. vm_compute. reflexivity.
  - apply (bool_decide_unpack _). vm_compute. exact I.
  - vm_compute. repeat constructor.
  - vm_compute. reflexivity.
Qed.

End DispatchRuns.
