(* ===== verification/Buffers.v ===== *)
(** Event buffers (internal/pipeline): the in-memory channel buffer and the batch
    buffer over it (buffer.go), and the buffer that also persists every event in
    an ordered key-value store (persistent_buffer.go).

    A [select] over several ready cases picks any of them: the choice is an
    argument.  A [Get] of the batch buffer blocks, so it is run against a schedule
    of what happens while it waits. *)
From Stdlib Require Import ZArith Lia.
From Stdlib Require Ascii String.
From stdpp Require Import prelude countable gmap strings list fin_maps sorting.
From S2P Require Import Prelude Events.
Local Open Scope Z_scope.

Definition ErrBufferFull : goerror := ErrCode "DS:Pipeline:BufferFull".
Definition ErrBufferClosed : goerror := ErrNew "buffer is closed".

(** ** MemoryBuffer *)

Record MemoryBuffer := mkMemoryBuffer {
  mb_events : list ChangeEvent;         (* the channel, oldest first *)
  mb_capacity : Z;
  mb_closed : bool
}.

(** [make(chan, n)] panics when [n] is negative. *)
Definition NewMemoryBuffer (capacity : Z) : result MemoryBuffer :=
  if capacity <? 0 then Err (Panic "makechan: size out of range")
  else Ok (mkMemoryBuffer [] capacity false).

Definition mb_enqueue (e : ChangeEvent) (b : MemoryBuffer) : MemoryBuffer :=
  mkMemoryBuffer (mb_events b ++ [e]) (mb_capacity b) (mb_closed b).

Definition mb_drop (n : nat) (b : MemoryBuffer) : MemoryBuffer :=
  mkMemoryBuffer (drop n (mb_events b)) (mb_capacity b) (mb_closed b).

(** [ctx] is the error of a context that is done; [pick] tells which of the two
    ready cases the [select] takes (true: the context). *)
Definition Put (ctx : option goerror) (pick : bool) (e : ChangeEvent) : ST MemoryBuffer unit := λ b,
  if mb_closed b then (b, Err ErrBufferFull)
  else
    match ctx, zlen (mb_events b) <? mb_capacity b with
    | None, true => (mb_enqueue e b, Ok tt)
    | Some err, true => if pick then (b, Err err) else (mb_enqueue e b, Ok tt)
    | Some err, false => (b, Err err)
    | None, false => (b, Err ErrBufferFull)
    end.

(** [Get] with the events collected so far; [ctx i] and [pick i] are the context
    and the choice at the iteration [i].  A receive is ready when an event is
    buffered or the channel is closed. *)
Fixpoint Get_loop (ctx : nat → option goerror) (pick : nat → bool) (i n : nat) (events : list ChangeEvent)
    (b : MemoryBuffer) : MemoryBuffer * (list ChangeEvent * option goerror) :=
  match n with
  | O => (b, (events, None))
  | S n =>
      match mb_events b with
      | e :: _ =>
          match ctx i with
          | Some err =>
              if pick i then (b, (events, Some err))
              else Get_loop ctx pick (S i) n (events ++ [e]) (mb_drop 1 b)
          | None => Get_loop ctx pick (S i) n (events ++ [e]) (mb_drop 1 b)
          end
      | [] =>
          match ctx i with
          | Some err => if mb_closed b && negb (pick i) then (b, (events, None)) else (b, (events, Some err))
          | None => (b, (events, None))
          end
      end
  end.

(** [make([]T, 0, batchSize)] panics on a negative size. *)
Definition Get (ctx : nat → option goerror) (pick : nat → bool) (batchSize : Z) (b : MemoryBuffer) :
    MemoryBuffer * result (list ChangeEvent * option goerror) :=
  if batchSize <? 0 then (b, Err (Panic "makeslice: cap out of range"))
  else let '(b', r) := Get_loop ctx pick 0 (Z.to_nat batchSize) [] b in (b', Ok r).

Definition mb_Close (b : MemoryBuffer) : MemoryBuffer := mkMemoryBuffer (mb_events b) (mb_capacity b) true.
Definition mb_Len (b : MemoryBuffer) : Z := zlen (mb_events b).
Definition mb_Cap (b : MemoryBuffer) : Z := mb_capacity b.

(** *** Behaviour *)

Lemma Get_loop_spec ctx pick n : ∀ i events b b' out err,
  Get_loop ctx pick i n events b = (b', (out, err)) →
  ∃ k, (k <= n)%nat ∧ (k <= length (mb_events b))%nat ∧ out = events ++ take k (mb_events b) ∧ b' = mb_drop k b.
Proof.
  induction n as [|n IH]; intros i events b b' out err; cbn [Get_loop].
  - intros [= <- <- <-]. exists 0%nat. rewrite app_nil_r. split_and!; [lia|lia|done|by destruct b].
  - assert (Hnone : ∀ b0 out0 err0, (b, (events, err0)) = (b', (out, err)) → b0 = b → out0 = out →
      ∃ k, (k <= S n)%nat ∧ (k <= length (mb_events b))%nat ∧ out = events ++ take k (mb_events b) ∧ b' = mb_drop k b).
    { intros _ _ err0 [= <- <- <-] _ _. exists 0%nat. cbn. rewrite app_nil_r.
      split_and!; [lia|lia|done|by destruct b]. }
    assert (Hrec : ∀ e l, mb_events b = e :: l →
      Get_loop ctx pick (S i) n (events ++ [e]) (mb_drop 1 b) = (b', (out, err)) →
      ∃ k, (k <= S n)%nat ∧ (k <= length (mb_events b))%nat ∧ out = events ++ take k (mb_events b) ∧ b' = mb_drop k b).
    { intros e l E Hr. destruct (IH _ _ _ _ _ _ Hr) as (k & Hk & Hl & -> & ->). exists (S k).
      unfold mb_drop in *. cbn in *. rewrite E in *. cbn in *. rewrite drop_0 in *.
      split_and!; [lia|lia|by rewrite <- app_assoc|done]. }
    destruct (mb_events b) as [|e l] eqn:E.
    + rewrite <- E in *. destruct (ctx i); [destruct (mb_closed b && negb (pick i))|]; intros Hr; eapply Hnone; eauto.
    + rewrite <- E in *. destruct (ctx i); [destruct (pick i)|]; intros Hr; [eapply Hnone; eauto|eapply Hrec; eauto..].
Qed.

(** Without a context error a [Get] returns as much as there is, up to the batch
    size. *)
Lemma Get_loop_full pick n : ∀ i events b,
  Get_loop (λ _, None) pick i n events b =
    (mb_drop (min n (length (mb_events b))) b, (events ++ take n (mb_events b), None)).
Proof.
  induction n as [|n IH]; intros i events b; cbn [Get_loop].
  - rewrite app_nil_r. by destruct b.
  - destruct (mb_events b) as [|e l] eqn:E; cbn.
    + rewrite app_nil_r. f_equal. destruct b. cbn in *. by subst.
    + rewrite IH. unfold mb_drop. cbn. rewrite E. cbn. by rewrite drop_0, <- app_assoc.
Qed.

(** The operations of a buffer, in any order. *)
Inductive mb_op :=
  | OpPut (ctx : option goerror) (pick : bool) (e : ChangeEvent)
  | OpGet (ctx : nat → option goerror) (pick : nat → bool) (batchSize : Z)
  | OpClose.

(** A buffer with the history of what it accepted and what it gave out. *)
Record mb_history := mkMbHistory {
  mh_buffer : MemoryBuffer;
  mh_accepted : list ChangeEvent;
  mh_delivered : list ChangeEvent
}.

Definition mb_perform (h : mb_history) (op : mb_op) : mb_history :=
  match op with
  | OpPut ctx pick e =>
      match Put ctx pick e (mh_buffer h) with
      | (b, Ok _) => mkMbHistory b (mh_accepted h ++ [e]) (mh_delivered h)
      | (b, Err _) => mkMbHistory b (mh_accepted h) (mh_delivered h)
      end
  | OpGet ctx pick n =>
      match Get ctx pick n (mh_buffer h) with
      | (b, Ok (out, _)) => mkMbHistory b (mh_accepted h) (mh_delivered h ++ out)
      | (b, Err _) => mkMbHistory b (mh_accepted h) (mh_delivered h)
      end
  | OpClose => mkMbHistory (mb_Close (mh_buffer h)) (mh_accepted h) (mh_delivered h)
  end.

Definition mb_inv (capacity : Z) (h : mb_history) : Prop :=
  mb_capacity (mh_buffer h) = capacity ∧
  mh_accepted h = mh_delivered h ++ mb_events (mh_buffer h) ∧
  zlen (mb_events (mh_buffer h)) <= capacity.

Lemma Put_spec ctx pick e b b' r :
  Put ctx pick e b = (b', r) →
  (r = Ok tt ∧ b' = mb_enqueue e b ∧ mb_closed b = false ∧ zlen (mb_events b) < mb_capacity b) ∨
  (is_ok r = false ∧ b' = b).
Proof.
  unfold Put. destruct (mb_closed b) eqn:Ec; [intros [= <- <-]; by right|].
  destruct ctx as [err|], (Z.ltb_spec (zlen (mb_events b)) (mb_capacity b)); [destruct pick|..];
    intros [= <- <-]; first [by left|by right].
Qed.

Lemma mb_perform_inv capacity h op : mb_inv capacity h → mb_inv capacity (mb_perform h op).
Proof.
  intros (Hc & Ha & Hl). destruct op as [ctx pick e|ctx pick n|]; cbn [mb_perform].
  - destruct (Put ctx pick e (mh_buffer h)) as [b r] eqn:E.
    destruct (Put_spec _ _ _ _ _ _ E) as [(-> & -> & _ & Hroom)|[Hr ->]]; [|by destruct r].
    split; cbn; [done|]. rewrite Ha, app_assoc. split; [done|].
    unfold zlen in *. rewrite length_app. cbn. lia.
  - unfold Get. destruct (n <? 0); [done|].
    destruct (Get_loop ctx pick 0 (Z.to_nat n) [] (mh_buffer h)) as [b [out err]] eqn:E.
    destruct (Get_loop_spec _ _ _ _ _ _ _ _ _ E) as (k & _ & Hk & -> & ->). cbn. split; cbn; [done|].
    rewrite Ha, <- app_assoc, take_drop. split; [done|]. unfold zlen in *. rewrite length_drop. lia.
  - done.
Qed.

(** The memory buffer is a bounded first-in first-out queue: after any
    sequence of puts, gets and closes, whatever contexts and choices, the events
    delivered followed by the events buffered are the events whose put succeeded,
    in order, and no more than the capacity are buffered. *)
Theorem memory_buffer_fifo (capacity : Z) (b : MemoryBuffer) (ops : list mb_op)
    (Hnew : NewMemoryBuffer capacity = Ok b) :
  let h := foldl mb_perform (mkMbHistory b [] []) ops in
  mh_accepted h = mh_delivered h ++ mb_events (mh_buffer h) ∧
  mb_Len (mh_buffer h) <= mb_Cap (mh_buffer h) ∧ mb_Cap (mh_buffer h) = capacity.
Proof.
  assert (Hinv : mb_inv capacity (mkMbHistory b [] [])).
  { unfold NewMemoryBuffer in Hnew. destruct (Z.ltb_spec capacity 0); [done|].
    injection Hnew as <-. split; cbn; [done|split; [done|]]. unfold zlen. cbn. lia. }
  clear Hnew. cbn zeta. revert Hinv. generalize (mkMbHistory b [] []).
  induction ops as [|op ops IH]; intros h Hinv; cbn [foldl].
  - destruct Hinv as (Hc & Ha & Hl). unfold mb_Len, mb_Cap. rewrite Hc. done.
  - apply IH. by apply mb_perform_inv.
Qed.

(** ** BatchBuffer *)

Record BatchBuffer := mkBatchBuffer {
  bb_buffer : MemoryBuffer;
  bb_batchSize : Z;
  bb_timeout : duration;
  bb_pending : list ChangeEvent
}.

Definition NewBatchBuffer (capacity batchSize timeoutMs : Z) : result BatchBuffer :=
  match NewMemoryBuffer capacity with
  | Ok b =>
      if batchSize <? 0 then Err (Panic "makeslice: cap out of range")
      else Ok (mkBatchBuffer b batchSize (i64 (timeoutMs * 1000000)) [])
  | Err e => Err e
  end.

Definition bb_with_buffer (b : BatchBuffer) (m : MemoryBuffer) : BatchBuffer :=
  mkBatchBuffer m (bb_batchSize b) (bb_timeout b) (bb_pending b).

Definition bb_Put (ctx : option goerror) (pick : bool) (e : ChangeEvent) : ST BatchBuffer unit := λ b,
  let '(m, r) := Put ctx pick e (bb_buffer b) in (bb_with_buffer b m, r).

(** What can happen while [Get] waits in its [select]: a producer puts an event or
    closes the buffer, or one of the three cases fires.  A receive fires only when
    an event is buffered or the channel is closed. *)
Inductive wait_event :=
  | WPut (ctx : option goerror) (pick : bool) (e : ChangeEvent)
  | WCloseBuf
  | WReceive
  | WTimeout
  | WDone (err : goerror).

(** The loop of [Get]; [None] when it still waits at the end of the schedule. *)
Fixpoint bb_Get_loop (batchSize : Z) (events : list ChangeEvent) (m : MemoryBuffer) (sched : list wait_event) :
    option (MemoryBuffer * (list ChangeEvent * option goerror)) :=
  if batchSize <=? zlen events then Some (m, (events, None))
  else
    match sched with
    | [] => None
    | WPut ctx pick e :: sched => bb_Get_loop batchSize events (Put ctx pick e m).1 sched
    | WCloseBuf :: sched => bb_Get_loop batchSize events (mb_Close m) sched
    | WReceive :: sched =>
        match mb_events m with
        | e :: _ => bb_Get_loop batchSize (events ++ [e]) (mb_drop 1 m) sched
        | [] => if mb_closed m then Some (m, (events, None)) else bb_Get_loop batchSize events m sched
        end
    | WTimeout :: sched =>
        if 0 <? zlen events then Some (m, (events, None)) else bb_Get_loop batchSize events m sched
    | WDone err :: _ => Some (m, (events, Some err))
    end.

Definition bb_Get (batchSize : Z) (sched : list wait_event) (b : BatchBuffer) :
    option (BatchBuffer * (list ChangeEvent * option goerror)) :=
  let n := if batchSize <=? 0 then bb_batchSize b else batchSize in
  match bb_Get_loop n [] (bb_buffer b) sched with
  | Some (m, r) => Some (bb_with_buffer b m, r)
  | None => None
  end.

(** [Flush] moves what is buffered to [pending]. *)
Definition bb_Flush (b : BatchBuffer) : BatchBuffer :=
  mkBatchBuffer (mb_drop (length (mb_events (bb_buffer b))) (bb_buffer b)) (bb_batchSize b) (bb_timeout b)
    (bb_pending b ++ mb_events (bb_buffer b)).

Definition bb_Close (b : BatchBuffer) : BatchBuffer := bb_with_buffer b (mb_Close (bb_buffer b)).
Definition bb_Len (b : BatchBuffer) : Z := mb_Len (bb_buffer b).
Definition bb_Cap (b : BatchBuffer) : Z := mb_Cap (bb_buffer b).

Record BufferConfig := mkBufferConfig { bc_Size : Z; bc_BatchSize : Z; bc_FlushTimeout : Z }.

Definition NewBuffer (c : BufferConfig) : result (BatchBuffer + MemoryBuffer) :=
  if 0 <? bc_BatchSize c then
    match NewBatchBuffer (bc_Size c) (bc_BatchSize c) (bc_FlushTimeout c) with Ok b => Ok (inl b) | Err e => Err e end
  else match NewMemoryBuffer (bc_Size c) with Ok b => Ok (inr b) | Err e => Err e end.

(** The events accepted while waiting. *)
Fixpoint accepted_during (m : MemoryBuffer) (sched : list wait_event) : list ChangeEvent :=
  match sched with
  | [] => []
  | WPut ctx pick e :: sched =>
      let '(m', r) := Put ctx pick e m in (if is_ok r then [e] else []) ++ accepted_during m' sched
  | WCloseBuf :: sched => accepted_during (mb_Close m) sched
  | WReceive :: sched => accepted_during (mb_drop 1 m) sched
  | _ :: sched => accepted_during m sched
  end.

(** The reason a [Get] returned. *)
Definition get_reason (n : Z) (m : MemoryBuffer) (sched : list wait_event) (out : list ChangeEvent)
    (err : option goerror) : Prop :=
  match err with
  | Some e => WDone e ∈ sched
  | None => n <= zlen out ∨ (WTimeout ∈ sched ∧ out ≠ []) ∨ (mb_closed m = true ∧ mb_events m = [])
  end.

Lemma bb_Get_loop_spec n sched : ∀ events m m' out err,
  0 <= n → zlen events <= n →
  bb_Get_loop n events m sched = Some (m', (out, err)) →
  (∃ got rest, out = events ++ got ∧ got ++ mb_events m' = mb_events m ++ rest ∧
     rest `prefix_of` accepted_during m sched) ∧
  zlen out <= n ∧ get_reason n m' sched out err.
Proof.
  induction sched as [|w sched IH]; intros events m m' out err Hn Hev; cbn [bb_Get_loop];
    destruct (Z.leb_spec n (zlen events)) as [Hle|Hlt]; try done.
  1,2: intros [= <- <- <-]; split_and!; [|done|by left]; exists [], []; rewrite !app_nil_r;
    split_and!; [done|done|apply prefix_nil].
  assert (Hweak : ∀ m1 out1 err1, get_reason n m1 sched out1 err1 → get_reason n m1 (w :: sched) out1 err1).
  { intros m1 out1 [e1|]; cbn; [apply list_elem_of_further|].
    intros [?|[[? ?]|?]]; [by left|right; left; split; [by apply list_elem_of_further|done]|by right; right]. }
  destruct w as [ctx pick e| | | |err0].
  - intros Hr. destruct (Put ctx pick e m) as [m1 r] eqn:Ep. cbn in Hr.
    destruct (IH _ _ _ _ _ Hn Hev Hr) as ((got & rest & -> & Hg & Hp) & Hz & Hreason). split_and!; [|done|auto].
    cbn [accepted_during]. rewrite Ep.
    destruct (Put_spec _ _ _ _ _ _ Ep) as [(-> & -> & _ & _)|[Hno ->]].
    + exists got, (e :: rest). cbn in *. rewrite Hg, <- app_assoc. split_and!; [done|done|by apply prefix_cons].
    + exists got, rest. rewrite Hno. done.
  - intros Hr. destruct (IH _ _ _ _ _ Hn Hev Hr) as ((got & rest & -> & Hg & Hp) & Hz & Hreason).
    split_and!; [|done|auto]. by exists got, rest.
  - destruct (mb_events m) as [|e l] eqn:Em.
    + destruct (mb_closed m) eqn:Ec.
      * intros [= <- <- <-]. split_and!; [|done|by right; right]. exists [], []. rewrite !app_nil_r.
        split_and!; [done|done|apply prefix_nil].
      * intros Hr. destruct (IH _ _ _ _ _ Hn Hev Hr) as ((got & rest & -> & Hg & Hp) & Hz & Hreason).
        split_and!; [|done|auto]. exists got, rest. rewrite Em in Hg. cbn [accepted_during].
        replace (mb_drop 1 m) with m by (destruct m; cbn in *; by subst). done.
    + intros Hr. assert (Hev' : zlen (events ++ [e]) <= n).
      { unfold zlen in *. rewrite length_app. cbn. lia. }
      destruct (IH _ _ _ _ _ Hn Hev' Hr) as ((got & rest & -> & Hg & Hp) & Hz & Hreason).
      split_and!; [|done|auto]. exists (e :: got), rest. rewrite <- app_assoc. cbn in *. rewrite Em in Hg. cbn in Hg.
      rewrite drop_0 in Hg. by rewrite Hg.
  - destruct (Z.ltb_spec 0 (zlen events)).
    + intros [= <- <- <-]. split_and!; [|done|].
      * exists [], []. rewrite !app_nil_r. split_and!; [done|done|apply prefix_nil].
      * right; left. split; [apply list_elem_of_here|]. intros ->. unfold zlen in *. cbn in *. lia.
    + intros Hr. destruct (IH _ _ _ _ _ Hn Hev Hr) as ((got & rest & -> & Hg & Hp) & Hz & Hreason).
      split_and!; [|done|auto]. by exists got, rest.
  - intros [= <- <- <-]. split_and!; [|done|apply list_elem_of_here]. exists [], []. rewrite !app_nil_r.
    split_and!; [done|done|apply prefix_nil].
Qed.

(** A batch that [BatchBuffer.Get] returns is made of the oldest events, in
    order, and nothing is lost between the batch and the buffer; it has at most the
    batch size, and it is short only after a timeout with at least one event, on a
    closed and drained buffer, or with the error of the context. *)
Theorem batch_get_spec (batchSize : Z) (sched : list wait_event) (b b' : BatchBuffer)
    (out : list ChangeEvent) (err : option goerror)
    (Hsize : 0 <= bb_batchSize b)
    (Hget : bb_Get batchSize sched b = Some (b', (out, err))) :
  let n := if batchSize <=? 0 then bb_batchSize b else batchSize in
  (∃ rest, out ++ mb_events (bb_buffer b') = mb_events (bb_buffer b) ++ rest ∧
     rest `prefix_of` accepted_during (bb_buffer b) sched) ∧
  zlen out <= n ∧ get_reason n (bb_buffer b') sched out err ∧ bb_pending b' = bb_pending b.
Proof.
  unfold bb_Get in Hget. set (n := if batchSize <=? 0 then bb_batchSize b else batchSize) in *. cbn zeta.
  assert (Hn : 0 <= n) by (subst n; destruct (Z.leb_spec batchSize 0); lia).
  destruct (bb_Get_loop n [] (bb_buffer b) sched) as [[m [out0 err0]]|] eqn:E; [|done].
  injection Hget as <- <- <-.
  destruct (bb_Get_loop_spec n sched [] (bb_buffer b) m out0 err0) as ((got & rest & -> & Hg & Hp) & Hz & Hr);
    [lia|unfold zlen; cbn; lia|done|].
  split_and!; [by exists rest|done|done|done].
Qed.

(** What [Flush] moves to [pending] no [Get] returns: the next batch is made of the
    events put after it. *)
Theorem flush_hides_events (batchSize : Z) (sched : list wait_event) (b b' : BatchBuffer)
    (out : list ChangeEvent) (err : option goerror)
    (Hsize : 0 <= bb_batchSize b)
    (Hget : bb_Get batchSize sched (bb_Flush b) = Some (b', (out, err))) :
  ∃ rest, out ++ mb_events (bb_buffer b') = rest ∧
    rest `prefix_of` accepted_during (bb_buffer (bb_Flush b)) sched ∧
    bb_pending b' = bb_pending b ++ mb_events (bb_buffer b).
Proof.
  unfold bb_Get in Hget. set (n := if batchSize <=? 0 then _ else batchSize) in *.
  assert (Hn : 0 <= n) by (subst n; cbn; destruct (Z.leb_spec batchSize 0); lia).
  destruct (bb_Get_loop n [] (bb_buffer (bb_Flush b)) sched) as [[m [out0 err0]]|] eqn:E; [|done].
  injection Hget as <- <- <-.
  destruct (bb_Get_loop_spec n sched [] (bb_buffer (bb_Flush b)) m out0 err0) as ((got & rest & -> & Hg & Hp) & _);
    [lia|unfold zlen; cbn; lia|done|].
  exists rest. cbn in *. rewrite drop_all in Hg. done.
Qed.

(** ** PersistentBuffer

    The key-value store is badger, a library: the model takes its operations and
    what the code relies on.  A write either fails and changes nothing or sets the
    key; iteration visits every key once, in byte order. *)
Class KVStore (D : Type) := {
  kv_Set : string → list Byte.byte → ST D unit;
  kv_Items : D → list (string * list Byte.byte);
  kv_DropAll : ST D unit
}.

Definition string_lt (a b : string) : Prop := strings_Compare a b < 0.

Class KVLaws (D : Type) `{!KVStore D} := {
  kv_contents : D → gmap string (list Byte.byte);
  kv_set_ok k v d d' : kv_Set k v d = (d', Ok tt) → kv_contents d' = <[k := v]> (kv_contents d);
  kv_set_err k v d d' e : kv_Set k v d = (d', Err e) → kv_contents d' = kv_contents d;
  kv_items_sorted d : StronglySorted string_lt (kv_Items d).*1;
  kv_items_lookup d k v : (k, v) ∈ kv_Items d ↔ kv_contents d !! k = Some v
}.

(** [n] as [k] decimal digits, the [%020d] of a number below [10^20]. *)
Definition digit (n : Z) : Ascii.ascii := Ascii.ascii_of_N (Z.to_N (48 + n)).

Fixpoint digits (k : nat) (n : Z) : string :=
  match k with
  | O => EmptyString
  | S k => String (digit (n / 10 ^ Z.of_nat k)) (digits k (n mod 10 ^ Z.of_nat k))
  end.

Section Persistent.
Context {D : Type} `{KV : !KVStore D} `{JE : !JSONCodec ChangeEvent}.

Record PersistentBuffer := mkPersistentBuffer {
  pb_mem : MemoryBuffer;
  pb_db : D;
  pb_closed : bool;
  pb_seq : Z
}.

(** Opening the database of a directory keeps what it holds. *)
Definition NewPersistentBuffer (capacity : Z) (db : D) : PersistentBuffer :=
  mkPersistentBuffer (mkMemoryBuffer [] (if capacity <=? 0 then 10000 else capacity) false) db false 0.

(** [now] is the time of the call as [makeKey] formats it. *)
Definition makeKey (seq : Z) (now : string) (e : ChangeEvent) : string :=
  digits 20 seq +:+ "_" +:+ now +:+ "_" +:+ ti_Database (ev_Table e) +:+ "_" +:+ ti_Table (ev_Table e).

Definition nextSeq (b : PersistentBuffer) : PersistentBuffer * Z :=
  let seq := u64 (pb_seq b + 1) in (mkPersistentBuffer (pb_mem b) (pb_db b) (pb_closed b) seq, seq).

Definition pb_Put (now : string) (ctx : option goerror) (pick : bool) (e : ChangeEvent) : ST PersistentBuffer unit := λ b,
  if pb_closed b then (b, Err ErrBufferFull)
  else
    let '(b, seq) := nextSeq b in
    let key := makeKey seq now e in
    match json_Marshal e with
    | Err err => (b, Err (ErrWrapf "failed to marshal event" err))
    | Ok data =>
        match kv_Set key data (pb_db b) with
        | (db, Err err) => (mkPersistentBuffer (pb_mem b) db (pb_closed b) (pb_seq b), Err (ErrWrapf "failed to persist event" err))
        | (db, Ok _) =>
            let '(m, r) := Put ctx pick e (pb_mem b) in
            (mkPersistentBuffer m db (pb_closed b) (pb_seq b), r)
        end
    end.

Definition pb_Get (ctx : nat → option goerror) (pick : nat → bool) (batchSize : Z) (b : PersistentBuffer) :
    PersistentBuffer * result (list ChangeEvent * option goerror) :=
  let '(m, r) := Get ctx pick batchSize (pb_mem b) in
  (mkPersistentBuffer m (pb_db b) (pb_closed b) (pb_seq b), r).

(** The errors of the final sync and of closing the database are only logged. *)
Definition pb_Close (b : PersistentBuffer) : PersistentBuffer :=
  if pb_closed b then b else mkPersistentBuffer (mb_Close (pb_mem b)) (pb_db b) true (pb_seq b).

(** The iteration of [Replay]; [ctx i] is the context before the item [i], and a
    put of a replayed event sees the same context. *)
Fixpoint replay_items (ctx : nat → option goerror) (pick : nat → bool) (i : nat)
    (items : list (string * list Byte.byte)) (m : MemoryBuffer) (count : Z) :
    MemoryBuffer * (Z * option goerror) :=
  match items with
  | [] => (m, (count, None))
  | (_, val) :: items =>
      match ctx i with
      | Some err => (m, (count, Some err))
      | None =>
          match json_Unmarshal val with
          | Err _ => replay_items ctx pick (S i) items m count
          | Ok e =>
              match Put None (pick i) e m with
              | (m, Err err) => (m, (count, Some err))
              | (m, Ok _) => replay_items ctx pick (S i) items m (count + 1)
              end
          end
      end
  end.

Definition pb_Replay (ctx : nat → option goerror) (pick : nat → bool) (b : PersistentBuffer) :
    PersistentBuffer * (Z * option goerror) :=
  if pb_closed b then (b, (0, Some ErrBufferClosed))
  else
    let '(m, (count, err)) := replay_items ctx pick 0 (kv_Items (pb_db b)) (pb_mem b) 0 in
    (mkPersistentBuffer m (pb_db b) (pb_closed b) (pb_seq b),
     (count, match err with Some e => Some (ErrWrapf "replay failed" e) | None => None end)).

Definition pb_Clear : ST PersistentBuffer unit := λ b,
  let '(db, r) := kv_DropAll (pb_db b) in (mkPersistentBuffer (pb_mem b) db (pb_closed b) (pb_seq b), r).

Record PersistentBufferStats := mkStats { ps_PersistedCount : Z; ps_InMemoryCount : Z; ps_Capacity : Z }.

Definition pb_Stats (b : PersistentBuffer) : PersistentBufferStats :=
  mkStats (zlen (kv_Items (pb_db b))) (mb_Len (pb_mem b)) (mb_Cap (pb_mem b)).

End Persistent.
Arguments PersistentBuffer : clear implicits.

(** *** Keys in byte order *)

Lemma digit_compare x y : 0 <= x < 10 → 0 <= y < 10 → Ascii.compare (digit x) (digit y) = (x ?= y).
Proof.
  intros Hx Hy. unfold digit, Ascii.compare. rewrite !Ascii.N_ascii_embedding by lia.
  rewrite <- N2Z.inj_compare, !Z2N.id by lia. apply Z.add_compare_mono_l.
Qed.

Lemma digits_compare k : ∀ a b r r',
  0 <= a → a < b → b < 10 ^ Z.of_nat k →
  String.compare (digits k a +:+ r) (digits k b +:+ r') = Lt.
Proof.
  induction k as [|k IH]; intros a b r r' Ha Hab Hb; [cbn in Hb; lia|].
  cbn [digits]. rewrite !string_app_cons. cbn [String.compare].
  rewrite Nat2Z.inj_succ, Z.pow_succ_r in Hb by lia.
  set (p := 10 ^ Z.of_nat k) in *. assert (Hp : 0 < p) by (subst p; lia).
  assert (Hqa : 0 <= a / p < 10) by (split; [apply Z.div_pos; lia|apply Z.div_lt_upper_bound; lia]).
  assert (Hqb : 0 <= b / p < 10) by (split; [apply Z.div_pos; lia|apply Z.div_lt_upper_bound; lia]).
  assert (Hle : a / p <= b / p) by (apply Z.div_le_mono; lia).
  rewrite digit_compare by done. destruct (Z.compare_spec (a / p) (b / p)) as [Heq|Hlt|Hgt]; [|done|lia].
  pose proof (Z.mod_pos_bound a p Hp). pose proof (Z.mod_pos_bound b p Hp).
  apply IH; [lia| |lia]. rewrite (Z.div_mod a p), (Z.div_mod b p) in Hab by lia. rewrite Heq in Hab. lia.
Qed.

Lemma key_lt a b r r' : 0 <= a → a < b → b < 2 ^ 64 → string_lt (digits 20 a +:+ r) (digits 20 b +:+ r').
Proof. intros. unfold string_lt, strings_Compare. rewrite digits_compare; lia. Qed.

#[export] Instance string_lt_irreflexive : Irreflexive string_lt.
Proof. intros s. unfold complement, string_lt. rewrite (proj2 (strings_Compare_eq s s)); [lia|done]. Qed.

Lemma string_lt_not_le a b : string_lt a b → ¬ string_lt b a.
Proof. unfold string_lt. rewrite (strings_Compare_antisym a b). lia. Qed.

(** Two lists of pairs in strict key order with the same elements are the same. *)
Lemma sorted_items_unique (l k : list (string * list Byte.byte)) :
  StronglySorted string_lt l.*1 → StronglySorted string_lt k.*1 → (∀ x, x ∈ l ↔ x ∈ k) → l = k.
Proof.
  assert (Hnd : ∀ q : list (string * list Byte.byte), StronglySorted string_lt q.*1 → NoDup q).
  { intros q Hq. apply NoDup_fmap_1 with fst. induction Hq as [|x q' _ IH Hx]; constructor; [|done].
    intros Hin. rewrite Forall_forall in Hx. by apply (string_lt_irreflexive x), Hx. }
  assert (Hpair : ∀ q : list (string * list Byte.byte), StronglySorted string_lt q.*1 →
    StronglySorted (λ x y, string_lt x.1 y.1) q).
  { induction q as [|x q IH]; intros Hq; [constructor|]. inversion Hq as [|? ? Hs Hf]; subst.
    constructor; [by apply IH|]. by rewrite Forall_fmap in Hf. }
  intros Hl Hk Hlk.
  apply (StronglySorted_unique_strong (λ x y : string * list Byte.byte, string_lt x.1 y.1)).
  - intros x1 x2 _ _ H1 H2. by apply string_lt_not_le in H1.
  - by apply Hpair.
  - by apply Hpair.
  - by apply NoDup_Permutation; [apply Hnd|apply Hnd|].
Qed.

(** *** Sessions *)

Section Sessions.
Context {D : Type} `{KV : !KVStore D} `{KL : !KVLaws D} `{JE : !JSONCodec ChangeEvent}.

Inductive pb_op :=
  | PPut (now : string) (ctx : option goerror) (pick : bool) (e : ChangeEvent)
  | PGet (ctx : nat → option goerror) (pick : nat → bool) (batchSize : Z).

(** A buffer with the events the database has accepted and those whose put
    returned without an error. *)
Record pb_history := mkPbHistory {
  ph_buffer : PersistentBuffer D;
  ph_persisted : list ChangeEvent;
  ph_acked : list ChangeEvent
}.

Definition persists (now : string) (e : ChangeEvent) (b : PersistentBuffer D) : bool :=
  match pb_closed b, json_Marshal e with
  | false, Ok data => is_ok (kv_Set (makeKey (u64 (pb_seq b + 1)) now e) data (pb_db b)).2
  | _, _ => false
  end.

Definition pb_perform (h : pb_history) (op : pb_op) : pb_history :=
  match op with
  | PPut now ctx pick e =>
      let '(b, r) := pb_Put now ctx pick e (ph_buffer h) in
      mkPbHistory b (ph_persisted h ++ (if persists now e (ph_buffer h) then [e] else []))
        (ph_acked h ++ (if is_ok r then [e] else []))
  | PGet ctx pick n => mkPbHistory (pb_Get ctx pick n (ph_buffer h)).1 (ph_persisted h) (ph_acked h)
  end.

(** What an event is after it was written as JSON and read back: an integer column is a
    floating-point number then, for one. *)
Definition json_form (e e' : ChangeEvent) : Prop := ∃ data, json_Marshal e = Ok data ∧ json_Unmarshal data = Ok e'.

(** What is written can be read back. *)
Definition op_wf (op : pb_op) : Prop :=
  match op with PPut _ _ _ e => ∀ data, json_Marshal e = Ok data → is_ok (json_Unmarshal (A := ChangeEvent) data) = true | PGet _ _ _ => True end.

(** The database holds the accepted events under keys in the order of their
    sequence numbers. *)
Record pinv (n : Z) (h : pb_history) : Prop := {
  pinv_open : pb_closed (ph_buffer h) = false;
  pinv_seq : 0 <= pb_seq (ph_buffer h) <= n;
  pinv_acked : ph_acked h `sublist_of` ph_persisted h;
  pinv_items : ∃ items : list (Z * (string * list Byte.byte)),
    StronglySorted Z.lt items.*1 ∧
    Forall (λ it, 0 <= it.1 <= pb_seq (ph_buffer h) ∧ ∃ r, it.2.1 = digits 20 it.1 +:+ r) items ∧
    (∀ k v, kv_contents (pb_db (ph_buffer h)) !! k = Some v ↔ (k, v) ∈ items.*2) ∧
    Forall2 (λ it e, json_Marshal e = Ok it.2.2 ∧ is_ok (json_Unmarshal (A := ChangeEvent) it.2.2) = true) items (ph_persisted h)
}.

(** The keys of such items are in strict byte order. *)
Lemma items_keys_sorted (n : Z) (items : list (Z * (string * list Byte.byte))) :
  n < 2 ^ 64 → StronglySorted Z.lt items.*1 →
  Forall (λ it, 0 <= it.1 <= n ∧ ∃ r, it.2.1 = digits 20 it.1 +:+ r) items →
  StronglySorted string_lt items.*2.*1.
Proof.
  intros Hn. induction items as [|[z [k v]] items IH]; intros Hs Hf; [constructor|].
  cbn [fmap list_fmap fst snd] in *. inversion Hs as [|? ? Hs' Hlt]; subst.
  inversion Hf as [|? ? [Hz [r Hk]] Hf']; subst.
  constructor; [by apply IH|]. cbn [fst snd] in *. rewrite Forall_fmap, Forall_fmap.
  apply Forall_forall. intros [z' [k' v']] Hin. rewrite Forall_fmap in Hlt. rewrite Forall_forall in Hlt, Hf'.
  destruct (Hf' _ Hin) as [Hz' [r' Hk']]. pose proof (Hlt _ Hin) as Hzz. cbn [fst snd compose] in *. subst.
  apply key_lt; lia.
Qed.

Lemma StronglySorted_snoc {A} (R : A → A → Prop) l x :
  StronglySorted R l → Forall (λ y, R y x) l → StronglySorted R (l ++ [x]).
Proof.
  induction 1 as [|y l Hs IH Hy]; cbn; intros Hf; [repeat constructor|].
  inversion Hf; subst. constructor; [by apply IH|]. by apply Forall_snoc.
Qed.

(** A put: what it does to the database and to the sequence number. *)
Lemma pb_Put_spec now ctx pick e b b' r :
  pb_closed b = false → op_wf (PPut now ctx pick e) → 0 <= pb_seq b → pb_seq b + 1 < 2 ^ 64 →
  pb_Put now ctx pick e b = (b', r) →
  pb_closed b' = false ∧ pb_seq b' = pb_seq b + 1 ∧
  (if persists now e b then
     ∃ data, (json_Marshal e = Ok data ∧ is_ok (json_Unmarshal (A := ChangeEvent) data) = true) ∧
       kv_contents (pb_db b') = <[makeKey (pb_seq b + 1) now e := data]> (kv_contents (pb_db b))
   else is_ok r = false ∧ kv_contents (pb_db b') = kv_contents (pb_db b)).
Proof.
  intros Hc Hwf H0 Hs. unfold pb_Put, persists, nextSeq. rewrite Hc.
  assert (Hu : u64 (pb_seq b + 1) = pb_seq b + 1) by (apply u64_small; lia). rewrite Hu. cbn [pb_db pb_mem pb_closed pb_seq].
  cbn in Hwf. destruct (json_Marshal e) as [data|err0] eqn:Hm.
  2: { intros [= <- <-]. cbn [pb_db pb_closed pb_seq]. by split_and!. }
  specialize (Hwf data eq_refl).
  destruct (kv_Set (makeKey (pb_seq b + 1) now e) data (pb_db b)) as [db [[]|err]] eqn:Ek; cbn [snd is_ok].
  - destruct (Put ctx pick e (pb_mem b)) as [m r0]. intros [= <- <-]. cbn [pb_db pb_closed pb_seq].
    split_and!; [done|done|]. exists data. split; [done|]. by apply kv_set_ok.
  - intros [= <- <-]. cbn [pb_db pb_closed pb_seq]. split_and!; [done|done|done|]. by eapply kv_set_err.
Qed.

Lemma pb_perform_inv n h op :
  n + 1 < 2 ^ 64 → op_wf op → pinv n h → pinv (n + 1) (pb_perform h op).
Proof.
  intros Hn Hwf [Hopen Hseq Hack (items & Hs & Hf & Hc & Hd)].
  destruct op as [now ctx pick e|ctx pick k]; cbn [pb_perform op_wf] in *.
  2: { unfold pb_Get. destruct (Get ctx pick k (pb_mem (ph_buffer h))) as [m r]. cbn [fst].
       split; cbn [ph_buffer ph_persisted ph_acked pb_closed pb_seq pb_db]; [done|lia|done|]. by exists items. }
  destruct (pb_Put now ctx pick e (ph_buffer h)) as [b' r] eqn:Ep.
  destruct (pb_Put_spec _ _ _ _ _ _ _ Hopen Hwf (proj1 Hseq) ltac:(lia) Ep) as (Hopen' & Hseq' & Hput).
  assert (Hle : Forall (λ it : Z * (string * list Byte.byte), it.1 < pb_seq b') items).
  { eapply Forall_impl; [exact Hf|]. intros it [? _]. lia. }
  destruct (persists now e (ph_buffer h)).
  - destruct Hput as (data & Hum & Hcont).
    split; cbn [ph_buffer ph_persisted ph_acked]; [done|lia| |].
    + apply sublist_app; [done|]. destruct r; [done|apply sublist_nil_l].
    + exists (items ++ [(pb_seq b', (makeKey (pb_seq b') now e, data))]). rewrite !fmap_app. split_and!.
      * apply StronglySorted_snoc; [done|]. by rewrite Forall_fmap.
      * apply Forall_snoc; [|split; [cbn [fst]; lia|eexists; reflexivity]].
        eapply Forall_impl; [exact Hf|]. intros it [? ?]. split; [lia|done].
      * intros k v. rewrite Hcont, <- Hseq'. cbn [fmap list_fmap snd].
        rewrite lookup_insert_Some, elem_of_app, list_elem_of_singleton, <- Hc.
        split; [intros [[<- <-]|[_ Hk]]; [by right|by left]|].
        intros [Hk|[= <- <-]]; [right|by left]. split; [|done]. intros Heq.
        apply Hc, list_elem_of_fmap in Hk as ([z [k' v']] & [= -> ->] & Hin).
        rewrite Forall_forall in Hf, Hle. destruct (Hf _ Hin) as [Hz [rest Hk]]. pose proof (Hle _ Hin) as Hlt.
        cbn [fst snd] in *. apply (string_lt_irreflexive k'). rewrite Hk at 1. rewrite <- Heq. unfold makeKey.
        apply key_lt; lia.
      * apply Forall2_app; [done|]. by constructor; [|constructor].
  - destruct Hput as [Hr Hcont]. rewrite Hr, !app_nil_r.
    split; cbn [ph_buffer ph_persisted ph_acked]; [done|lia|done|].
    exists items. split_and!; [done| |by rewrite Hcont|done].
    eapply Forall_impl; [exact Hf|]. intros it [? ?]. split; [lia|done].
Qed.

Lemma session_inv ops : ∀ n h,
  n + zlen ops < 2 ^ 64 → Forall op_wf ops → pinv n h → pinv (n + zlen ops) (foldl pb_perform h ops).
Proof.
  induction ops as [|op ops IH]; intros n h Hn Hwf Hinv; cbn [foldl].
  - unfold zlen. cbn. by rewrite Z.add_0_r.
  - inversion Hwf; subst. assert (Hz : zlen (op :: ops) = zlen ops + 1) by (unfold zlen; cbn [length]; lia).
    rewrite Hz in Hn |- *. replace (n + (zlen ops + 1)) with (n + 1 + zlen ops) by lia.
    apply IH; [lia|done|]. apply pb_perform_inv; [unfold zlen in *; lia|done|done].
Qed.

Lemma items_decode items persisted :
  Forall2 (λ (it : Z * (string * list Byte.byte)) e, json_Marshal e = Ok it.2.2 ∧ is_ok (json_Unmarshal (A := ChangeEvent) it.2.2) = true) items persisted →
  ∃ es, Forall2 (λ it e, json_Unmarshal it.2 = Ok e) items.*2 es ∧ Forall2 json_form persisted es.
Proof.
  induction 1 as [|[z [k v]] e items persisted [Hm Hu] _ (es & H1 & H2)]; [by exists []|]. cbn in *.
  destruct (json_Unmarshal v) as [e'|] eqn:E; [|done]. exists (e' :: es). split; constructor; try done. by exists v.
Qed.

(** Replaying items that decode to [es] into a buffer with room for them. *)
Lemma replay_items_all pick items : ∀ es i m count,
  Forall2 (λ it e, json_Unmarshal it.2 = Ok e) items es →
  mb_closed m = false → zlen (mb_events m) + zlen es <= mb_capacity m →
  replay_items (λ _, None) pick i items m count =
    (mkMemoryBuffer (mb_events m ++ es) (mb_capacity m) false, (count + zlen es, None)).
Proof.
  induction items as [|[k v] items IH]; intros es i m count Hf Hc Hroom; inversion Hf; subst; cbn [replay_items].
  - unfold zlen. cbn. rewrite app_nil_r, Z.add_0_r. destruct m. cbn in *. by subst.
  - match goal with H : json_Unmarshal _ = _ |- _ => cbn in H; rewrite H end.
    unfold Put. rewrite Hc. unfold zlen in *. cbn [length] in Hroom.
    rewrite (proj2 (Z.ltb_lt _ _)) by lia.
    erewrite IH; [|done|done|cbn; rewrite length_app; cbn; lia].
    cbn [mb_events mb_capacity mb_enqueue length]. rewrite <- app_assoc. do 2 f_equal. lia.
Qed.

(** C21. Recovery of the persistent buffer: after the first session of puts and gets on a
    new database, reopening it and replaying with enough capacity delivers the events the
    database accepted, each as JSON reads it back, all of them and in the order of the puts
    -- also the ones that had been taken out -- and every acknowledged event is among them. *)
Theorem persistent_replay (db : D) (capacity capacity' : Z) (ops : list pb_op) (pick : nat → bool)
    (Hempty : kv_contents db = ∅) (Hlen : zlen ops < 2 ^ 64) (Hwf : Forall op_wf ops)
    (Hroom : zlen (ph_persisted (foldl pb_perform (mkPbHistory (NewPersistentBuffer capacity db) [] []) ops))
             <= mb_capacity (pb_mem (NewPersistentBuffer capacity' db))) :
  let h := foldl pb_perform (mkPbHistory (NewPersistentBuffer capacity db) [] []) ops in
  let '(b', r) := pb_Replay (λ _, None) pick (NewPersistentBuffer capacity' (pb_db (ph_buffer h))) in
  r = (zlen (ph_persisted h), None) ∧ Forall2 json_form (ph_persisted h) (mb_events (pb_mem b')) ∧
  ph_acked h `sublist_of` ph_persisted h.
Proof.
  cbn zeta. set (h := foldl _ _ _) in *.
  assert (Hinv : pinv (0 + zlen ops) h).
  { apply session_inv; [lia|done|]. split; cbn; [done|lia|done|].
    exists []. split_and!; [constructor|constructor| |constructor].
    intros k v. rewrite Hempty, lookup_empty, elem_of_nil. done. }
  clearbody h. destruct Hinv as [_ [_ Hseq] Hack (items & Hs & Hf & Hc & Hd)].
  destruct (items_decode items _ Hd) as (es & He & Hform). pose proof (Forall2_length _ _ _ Hform) as Hes.
  assert (Hitems : kv_Items (pb_db (ph_buffer h)) = items.*2).
  { apply sorted_items_unique; [apply kv_items_sorted|eapply items_keys_sorted; [|done|exact Hf]; lia|].
    intros [k v]. rewrite <- Hc. apply kv_items_lookup. }
  unfold pb_Replay. cbn [NewPersistentBuffer pb_closed pb_db pb_mem pb_seq]. rewrite Hitems.
  rewrite (replay_items_all pick _ es); [|done|done|cbn in *; unfold zlen in *; cbn; lia].
  cbn. unfold zlen in *. rewrite Hes. done.
Qed.
End Sessions.

(** ** A key-value store, and concrete runs *)

Module BufferRuns.

Definition DB : Type := gmap string (list Byte.byte).

Definition key_le (x y : string * list Byte.byte) : Prop := strings_Compare x.1 y.1 <= 0.
#[local] Instance key_le_dec x y : Decision (key_le x y) := Z_le_dec _ _.
#[local] Instance key_le_trans : Transitive key_le.
Proof. intros x y z. unfold key_le. apply strings_Compare_le_trans. Qed.
#[local] Instance key_le_total : Total key_le.
Proof. intros x y. unfold key_le. rewrite (strings_Compare_antisym x.1 y.1). lia. Qed.

#[export] Instance db_store : KVStore DB := {|
  kv_Set k v d := (<[k := v]> d, Ok tt);
  kv_Items d := merge_sort key_le (map_to_list d);
  kv_DropAll d := (∅, Ok tt)
|}.

Lemma sorted_strict (l : list (string * list Byte.byte)) :
  NoDup l.*1 → StronglySorted key_le l → StronglySorted string_lt l.*1.
Proof.
  intros Hnd Hs. induction Hs as [|x l Hs IH Hx]; cbn in *; [constructor|].
  apply NoDup_cons in Hnd as [Hnin Hnd]. constructor; [by apply IH|].
  apply Forall_forall. intros k Hk. apply list_elem_of_fmap in Hk as (y & -> & Hy).
  rewrite Forall_forall in Hx. specialize (Hx y Hy). unfold key_le, string_lt in *.
  destruct (decide (strings_Compare x.1 y.1 = 0)) as [Heq%strings_Compare_eq|]; [|lia].
  exfalso. apply Hnin. rewrite Heq. by apply list_elem_of_fmap_2.
Qed.

#[export] Program Instance db_laws : KVLaws DB := {| kv_contents d := d |}.
Next Obligation. by intros ???? [= <-]. Qed.
Next Obligation. by intros ????? [=]. Qed.
Next Obligation.
  intros d. cbn. apply sorted_strict.
  - rewrite (fmap_Permutation fst _ _ (merge_sort_Permutation key_le (map_to_list d))). apply NoDup_fst_map_to_list.
  - apply StronglySorted_merge_sort; apply _.
Qed.
Next Obligation. intros d k v. cbn. rewrite merge_sort_Permutation. apply elem_of_map_to_list. Qed.

(** Events told apart by their identifier. *)
Definition event_of (id : string) : ChangeEvent :=
  mkChangeEvent id SourceInfo_zero EventTypeInsert Position_zero (mkTableInfo "app" "" "users" [] [] [])
    RowData_zero RowData_zero 0 None None None.

#[export] Instance id_json : JSONCodec ChangeEvent := {|
  json_Marshal e := json_Marshal (JSONCodec := countable_codec string) (ev_ID e);
  json_Unmarshal d :=
    match json_Unmarshal (JSONCodec := countable_codec string) d with
    | Ok id => Ok (event_of id)
    | Err e => Err e
    end
|}.

Definition day1 : string := "20240101000000".
Definition day2 : string := "20240102000000".

Lemma memory_buffer_fifo_witness :
  let h := foldl mb_perform (mkMbHistory (mkMemoryBuffer [] 1 false) [] [])
    [OpPut None false (event_of "a"); OpPut None false (event_of "b"); OpGet (λ _, None) (λ _, false) 5;
     OpPut None false (event_of "c")] in
  mh_accepted h = mh_delivered h ++ mb_events (mh_buffer h) ∧
  mb_Len (mh_buffer h) <= mb_Cap (mh_buffer h) ∧ mb_Cap (mh_buffer h) = 1.
Proof. apply memory_buffer_fifo. reflexivity. Defined.

Definition batching : BatchBuffer := mkBatchBuffer (mkMemoryBuffer [event_of "a"] 10 false) 2 1000 [].
Definition waiting : list wait_event := [WTimeout; WReceive; WPut None false (event_of "b"); WReceive].

Lemma batch_get_spec_witness :
  zlen [event_of "a"; event_of "b"] <= 2 ∧
  get_reason 2 (mkMemoryBuffer [] 10 false) waiting [event_of "a"; event_of "b"] None.
Proof.
  destruct (batch_get_spec 0 waiting batching (mkBatchBuffer (mkMemoryBuffer [] 10 false) 2 1000 [])
    [event_of "a"; event_of "b"] None) as (_ & H1 & H2 & _).
  - vm_compute. discriminate.
  - vm_compute. reflexivity.
  - split; [exact H1|exact H2].
Defined.

(** Two puts; the first event is taken out before the restart. *)
Definition first_session : list pb_op :=
  [PPut day1 None false (event_of "a"); PGet (λ _, None) (λ _, false) 1; PPut day1 None false (event_of "b")].

Lemma persistent_replay_witness :
  let h := foldl pb_perform (mkPbHistory (NewPersistentBuffer 10 (∅ : DB)) [] []) first_session in
  let '(b', r) := pb_Replay (λ _, None) (λ _, false) (NewPersistentBuffer 10 (pb_db (ph_buffer h))) in
  r = (zlen (ph_persisted h), None) ∧ Forall2 json_form (ph_persisted h) (mb_events (pb_mem b')) ∧
  ph_acked h `sublist_of` ph_persisted h.
Proof.
  apply (persistent_replay (∅ : DB) 10 10 first_session (λ _, false)).
  - reflexivity.
  - vm_compute. reflexivity.
  - repeat constructor; intros data [= <-]; vm_compute; reflexivity.
  - vm_compute. discriminate.
Defined.

(** The sequence number starts again at every opening, so that the order of a
    replay is lost across restarts: the event put in the second session comes
    between the two of the first one. *)
Theorem persistent_restart_reorders :
  let h1 := foldl pb_perform (mkPbHistory (NewPersistentBuffer 10 (∅ : DB)) [] [])
              [PPut day1 None false (event_of "a"); PPut day1 None false (event_of "b")] in
  let h2 := foldl pb_perform (mkPbHistory (NewPersistentBuffer 10 (pb_db (ph_buffer h1))) [] [])
              [PPut day2 None false (event_of "c")] in
  mb_events (pb_mem (pb_Replay (λ _, None) (λ _, false) (NewPersistentBuffer 10 (pb_db (ph_buffer h2)))).1)
    = [event_of "a"; event_of "c"; event_of "b"].
Proof. vm_compute. reflexivity. Qed.

End BufferRuns.
