(* ===== verification/Pipeline.v ===== *)
(** The data pipeline (internal/pipeline/pipeline.go) and its dispatchers
    (dispatcher.go): control operations, the event loop and what it hands to the
    sinks.

    The control operations and the loops run concurrently: they are a step
    relation whose steps are the critical sections of the code.  Metrics and logs
    are left out. *)
From Stdlib Require Import ZArith Lia.
From Stdlib Require Ascii String.
From stdpp Require Import prelude countable gmap strings list fin_maps pretty.
From S2P Require Import Prelude Events Hash.
Local Open Scope Z_scope.

Definition ErrAlreadyRunning : goerror := ErrCode "DS:Pipeline:AlreadyRunning".
Definition ErrInvalidState : goerror := ErrCode "DS:Pipeline:InvalidState".
Definition ErrNoSource : goerror := ErrCode "DS:Pipeline:NoSource".
Definition ErrNoSink : goerror := ErrCode "DS:Pipeline:NoSink".

(** What the pipeline uses of a sink connector and of a source connector. *)
Class SinkConnector (K : Type) := {
  snk_Write : list ChangeEvent → ST K unit;
  snk_Start : ST K unit;
  snk_Stop : ST K unit
}.

Class SourceConnector (S : Type) := {
  src_Start : ST S unit;
  src_Stop : ST S unit
}.

(** ** dispatcher.go *)

Inductive Dispatcher :=
  | RoundRobinDispatcher (counter : Z)
  | HashDispatcher (hashKey : string)
  | BroadcastDispatcher.

#[export] Instance Dispatcher_eq_dec : EqDecision Dispatcher.
Proof. solve_decision. Defined.

Record DispatcherConfig := mkDispatcherConfig {
  dc_Type : string;
  dc_HashKey : string;
  dc_Workers : Z;
  dc_QueueLen : Z
}.

Definition NewDispatcher (c : DispatcherConfig) : Dispatcher :=
  if bool_decide (dc_Type c = "round-robin") then RoundRobinDispatcher 0
  else if bool_decide (dc_Type c = "hash") then HashDispatcher (dc_HashKey c)
  else if bool_decide (dc_Type c = "broadcast") then BroadcastDispatcher
  else RoundRobinDispatcher 0.

Section Dispatching.
Context {K : Type} `{SK : !SinkConnector K}.

(** [sinks[idx].Write(ctx, []*event.ChangeEvent{e})] *)
Definition write_at (idx : Z) (e : ChangeEvent) : ST (list K) unit := λ sinks,
  match sinks !! Z.to_nat idx with
  | Some k => let '(k', r) := snk_Write [e] k in (<[Z.to_nat idx := k']> sinks, r)
  | None => (sinks, Err (Panic "index out of range"))
  end.

(** Writes to every sink, in order; the last error is the result. *)
Fixpoint write_all (e : ChangeEvent) (sinks : list K) (lastErr : result unit) : list K * result unit :=
  match sinks with
  | [] => ([], lastErr)
  | k :: sinks =>
      let '(k', r) := snk_Write [e] k in
      let '(sinks', r') := write_all e sinks (match r with Ok _ => lastErr | Err err => Err err end) in
      (k' :: sinks', r')
  end.

(** The key [HashDispatcher] hashes: the decimal hash of the key column of a row
    event when that column is there, and else the table name.  The value of the
    column has to be a string. *)
Definition hash_key (hashKey : string) (e : ChangeEvent) : result string :=
  let row :=
    if IsDataEvent e then
      if negb (RowData_IsEmpty (Some (ev_After e))) then Some (ev_After e)
      else if negb (RowData_IsEmpty (Some (ev_Before e))) then Some (ev_Before e)
      else None
    else None in
  match row with
  | Some r =>
      match RowData_Get (Some r) hashKey with
      | Some (VString s) => Ok (pretty (Z.to_N (FNV32 s)))
      | Some _ => Err (Panic "interface conversion: interface {} is not string")
      | None => Ok (ti_Table (ev_Table e))
      end
  | None => Ok (ti_Table (ev_Table e))
  end.

Definition Dispatch (e : ChangeEvent) (d : Dispatcher) (sinks : list K) : Dispatcher * (list K * result unit) :=
  if zlen sinks =? 0 then (d, (sinks, Err ErrNoSink))
  else
    match d with
    | RoundRobinDispatcher counter =>
        (RoundRobinDispatcher (u64 (counter + 1)), write_at (counter mod zlen sinks) e sinks)
    | HashDispatcher hashKey =>
        match hash_key hashKey e with
        | Ok keyVal => (d, write_at (FNV32 keyVal mod zlen sinks) e sinks)
        | Err err => (d, (sinks, Err err))
        end
    | BroadcastDispatcher => (d, write_all e sinks (Ok tt))
    end.

(** The sink an event goes to, by the dispatcher. *)
Definition dispatch_index (d : Dispatcher) (n : Z) (e : ChangeEvent) : option Z :=
  match d with
  | RoundRobinDispatcher counter => Some (counter mod n)
  | HashDispatcher hashKey =>
      match hash_key hashKey e with Ok keyVal => Some (FNV32 keyVal mod n) | Err _ => None end
  | BroadcastDispatcher => None
  end.

Lemma write_all_lookup e sinks : ∀ lastErr i,
  (write_all e sinks lastErr).1 !! i = (λ k, (snk_Write [e] k).1) <$> (sinks !! i).
Proof.
  induction sinks as [|k sinks IH]; intros lastErr i; [done|]. cbn.
  destruct (snk_Write [e] k) as [k' r] eqn:E. specialize (IH (match r with Ok _ => lastErr | Err err => Err err end)).
  destruct (write_all _ sinks _) as [sinks' r']. destruct i as [|i]; cbn; [by rewrite E|apply IH].
Qed.

Lemma write_all_err e sinks : ∀ lastErr,
  is_ok (write_all e sinks lastErr).2 = true ↔ is_ok lastErr = true ∧ Forall (λ k, is_ok (snk_Write [e] k).2 = true) sinks.
Proof.
  induction sinks as [|k sinks IH]; intros lastErr; cbn [write_all].
  - split; [intros ?; by split|by intros [? _]].
  - destruct (snk_Write [e] k) as [k' r] eqn:E.
    specialize (IH (match r with Ok _ => lastErr | Err err => Err err end)).
    destruct (write_all _ sinks _) as [sinks' r']. cbn [snd] in *. rewrite IH, Forall_cons, E. cbn [snd].
    destruct r; cbn; naive_solver.
Qed.

Lemma dispatch_index_range d n e i : 0 < n → dispatch_index d n e = Some i → 0 <= i < n.
Proof.
  intros Hn. unfold dispatch_index. destruct d as [c|k|]; [intros [= <-]; by apply Z.mod_pos_bound| |done].
  destruct (hash_key k e); [intros [= <-]; by apply Z.mod_pos_bound|done].
Qed.

(** Every dispatcher over at least one sink: broadcasting writes the event to
    every sink once, even after a failed write, and fails exactly when one of them
    does; the others write it to exactly one sink, chosen by the rotation or by the
    hash of the key column, and leave the rest alone. *)
Theorem Dispatch_spec (d : Dispatcher) (e : ChangeEvent) (sinks : list K) (Hne : sinks ≠ []) :
  let '(d', (sinks', r)) := Dispatch e d sinks in
  length sinks' = length sinks ∧
  match d with
  | BroadcastDispatcher =>
      (∀ i, sinks' !! i = (λ k, (snk_Write [e] k).1) <$> (sinks !! i)) ∧
      (is_ok r = true ↔ Forall (λ k, is_ok (snk_Write [e] k).2 = true) sinks)
  | _ =>
      match dispatch_index d (zlen sinks) e with
      | Some i =>
          0 <= i < zlen sinks ∧
          ∃ k, sinks !! Z.to_nat i = Some k ∧ r = (snk_Write [e] k).2 ∧
            sinks' = <[Z.to_nat i := (snk_Write [e] k).1]> sinks
      | None => sinks' = sinks ∧ is_ok r = false
      end
  end.
Proof.
  assert (Hz : 0 < zlen sinks) by (destruct sinks; [done|unfold zlen; cbn; lia]).
  assert (Hwr : ∀ i, 0 <= i < zlen sinks → ∃ k, sinks !! Z.to_nat i = Some k ∧
    write_at i e sinks = (<[Z.to_nat i := (snk_Write [e] k).1]> sinks, (snk_Write [e] k).2)).
  { intros i Hi. destruct (lookup_lt_is_Some_2 sinks (Z.to_nat i)) as [k Hk]; [unfold zlen in *; lia|].
    exists k. split; [done|]. unfold write_at. rewrite Hk. by destruct (snk_Write [e] k). }
  unfold Dispatch. rewrite (proj2 (Z.eqb_neq _ _)) by lia. destruct d as [c|h|]; cbn [dispatch_index].
  - pose proof (Z.mod_pos_bound c (zlen sinks) Hz) as Hi. destruct (Hwr _ Hi) as (k & Hk & ->). cbn.
    rewrite length_insert. split; [done|]. split; [done|]. by exists k.
  - destruct (hash_key h e) as [key|err]; [|done].
    pose proof (Z.mod_pos_bound (FNV32 key) (zlen sinks) Hz) as Hi. destruct (Hwr _ Hi) as (k & Hk & ->). cbn.
    rewrite length_insert. split; [done|]. split; [done|]. by exists k.
  - pose proof (write_all_lookup e sinks (Ok tt)) as Hl. pose proof (write_all_err e sinks (Ok tt)) as He.
    destruct (write_all e sinks (Ok tt)) as [sinks' r]. cbn [fst snd] in *. split; [|split; [done|]].
    + assert (sinks' = (λ k, (snk_Write [e] k).1) <$> sinks) as ->; [|by rewrite length_fmap].
      apply list_eq. intros i. by rewrite list_lookup_fmap.
    + rewrite He. naive_solver.
Qed.
End Dispatching.

(** ** pipeline.go *)

Inductive State :=
  | StateCreated | StateStarting | StateRunning | StatePausing | StatePaused
  | StateResuming | StateStopping | StateStopped | StateError.

#[export] Instance State_eq_dec : EqDecision State.
Proof. solve_decision. Defined.

Record Statistics := mkStatistics {
  st_EventsRead : Z;
  st_EventsWritten : Z;
  st_EventsFailed : Z;
  st_LastEventTime : time
}.

(** One goroutine of [run]: at its [select]; holding an event while the pipeline is
    paused, with the resume channel it read; past the check of the pause, about to
    process an event; or returned, with the event it held and did not process. *)
Inductive loop :=
  | LIdle
  | LHold (e : ChangeEvent) (resumeCh : option nat)
  | LProc (e : ChangeEvent)
  | LExited (dropped : option ChangeEvent).

(** Where a call of [Start] is: past its first critical section; told by the source that it
    failed; starting the sinks, this many of them done; past its second critical section;
    or with its loop launched, before [updateState]. *)
Inductive start_call := SBegun | SFailed (err : goerror) | SSinks (n : nat) | SOpen | SLaunched.

Section Pipelines.
Context {K S : Type} `{SK : !SinkConnector K} `{SS : !SourceConnector S}.

(** The fields of [Pipeline] the operations use, with the channel of the source's
    events and errors, the resume channels that are closed, and the running
    loops.  [p_emitted] and [p_processed] are histories. *)
Record Pipeline := mkPipeline {
  p_source : option S;
  p_sinks : list K;
  p_dispatcher : option Dispatcher;
  p_state : State;
  p_message : string;
  p_StartedAt : time;
  p_StoppedAt : time;
  p_stats : Statistics;
  p_stopClosed : bool;
  p_pauseClosed : option bool;          (* None before the first start: a nil channel *)
  p_resumeCh : option nat;
  p_nextCh : nat;
  p_closedCh : list nat;
  p_starting : list start_call;         (* calls of Start that have not returned *)
  p_loops : list loop;
  p_events : list ChangeEvent;
  p_eventsClosed : bool;
  p_errors : list goerror;
  p_emitted : list ChangeEvent;
  p_processed : list ChangeEvent
}.

Definition New (source : option S) (sinks : list K) (dispatcher : option Dispatcher) : Pipeline :=
  mkPipeline source sinks dispatcher StateCreated "" 0 0 (mkStatistics 0 0 0 0) false None None 0 [] [] []
    [] false [] [] [].

(** *** Field updates *)

Definition set_state (st : State) (p : Pipeline) : Pipeline :=
  mkPipeline (p_source p) (p_sinks p) (p_dispatcher p) st (p_message p) (p_StartedAt p) (p_StoppedAt p) (p_stats p)
    (p_stopClosed p) (p_pauseClosed p) (p_resumeCh p) (p_nextCh p) (p_closedCh p) (p_starting p) (p_loops p)
    (p_events p) (p_eventsClosed p) (p_errors p) (p_emitted p) (p_processed p).

Definition set_connectors (source : option S) (sinks : list K) (p : Pipeline) : Pipeline :=
  mkPipeline source sinks (p_dispatcher p) (p_state p) (p_message p) (p_StartedAt p) (p_StoppedAt p) (p_stats p)
    (p_stopClosed p) (p_pauseClosed p) (p_resumeCh p) (p_nextCh p) (p_closedCh p) (p_starting p) (p_loops p)
    (p_events p) (p_eventsClosed p) (p_errors p) (p_emitted p) (p_processed p).

Definition set_loops (loops : list loop) (events : list ChangeEvent) (p : Pipeline) : Pipeline :=
  mkPipeline (p_source p) (p_sinks p) (p_dispatcher p) (p_state p) (p_message p) (p_StartedAt p) (p_StoppedAt p)
    (p_stats p) (p_stopClosed p) (p_pauseClosed p) (p_resumeCh p) (p_nextCh p) (p_closedCh p) (p_starting p) loops
    events (p_eventsClosed p) (p_errors p) (p_emitted p) (p_processed p).

Definition set_stats (stats : Statistics) (errors : list goerror) (p : Pipeline) : Pipeline :=
  mkPipeline (p_source p) (p_sinks p) (p_dispatcher p) (p_state p) (p_message p) (p_StartedAt p) (p_StoppedAt p)
    stats (p_stopClosed p) (p_pauseClosed p) (p_resumeCh p) (p_nextCh p) (p_closedCh p) (p_starting p) (p_loops p)
    (p_events p) (p_eventsClosed p) errors (p_emitted p) (p_processed p).

Definition set_calls (calls : list start_call) (p : Pipeline) : Pipeline :=
  mkPipeline (p_source p) (p_sinks p) (p_dispatcher p) (p_state p) (p_message p) (p_StartedAt p) (p_StoppedAt p)
    (p_stats p) (p_stopClosed p) (p_pauseClosed p) (p_resumeCh p) (p_nextCh p) (p_closedCh p) calls (p_loops p)
    (p_events p) (p_eventsClosed p) (p_errors p) (p_emitted p) (p_processed p).

(** *** Control operations *)

(** The sinks are started in order; a sink that fails is logged and kept. *)
Definition start_sinks (sinks : list K) : list K := (λ k, (snk_Start k).1) <$> sinks.
Definition stop_sinks (sinks : list K) : list K := (λ k, (snk_Stop k).1) <$> sinks.

(** The parts of [Start]: the first critical section, the call of the source, what is done
    when it fails, the call of one sink, the second critical section, the launch of the loop
    and [updateState]. *)
Definition begin_start (now : time) (p : Pipeline) : Pipeline :=
  mkPipeline (p_source p) (p_sinks p) (p_dispatcher p) StateStarting (p_message p) now (p_StoppedAt p)
    (p_stats p) (p_stopClosed p) (p_pauseClosed p) (p_resumeCh p) (p_nextCh p) (p_closedCh p) (p_starting p) (p_loops p)
    (p_events p) (p_eventsClosed p) (p_errors p) (p_emitted p) (p_processed p).

Definition start_source : ST Pipeline unit := λ p,
  match p_source p with
  | None => (p, Err (Panic "nil source"))
  | Some src => let '(src', r) := src_Start src in (set_connectors (Some src') (p_sinks p) p, r)
  end.

Definition fail_start (err : goerror) (p : Pipeline) : Pipeline :=
  mkPipeline (p_source p) (p_sinks p) (p_dispatcher p) StateError (error_string err) (p_StartedAt p) (p_StoppedAt p)
    (p_stats p) (p_stopClosed p) (p_pauseClosed p) (p_resumeCh p) (p_nextCh p) (p_closedCh p) (p_starting p) (p_loops p)
    (p_events p) (p_eventsClosed p) (p_errors p) (p_emitted p) (p_processed p).

(** A sink that fails to start is logged and kept. *)
Definition start_sink (n : nat) (p : Pipeline) : Pipeline :=
  set_connectors (p_source p) (alter (λ k, (snk_Start k).1) n (p_sinks p)) p.

Definition open_channels (p : Pipeline) : Pipeline :=
  mkPipeline (p_source p) (p_sinks p) (p_dispatcher p) StateRunning (p_message p) (p_StartedAt p) (p_StoppedAt p)
    (p_stats p) (p_stopClosed p) (Some false) (Some (p_nextCh p)) (p_nextCh p + 1)%nat (p_closedCh p) (p_starting p)
    (p_loops p) (p_events p) (p_eventsClosed p) (p_errors p) (p_emitted p) (p_processed p).

Definition launch (p : Pipeline) : Pipeline := set_loops (p_loops p ++ [LIdle]) (p_events p) p.

Definition updateState_running (p : Pipeline) : Pipeline := set_state StateRunning p.

(** A call of [Start] by itself. *)
Definition Start (now : time) : ST Pipeline unit := λ p,
  if bool_decide (p_state p = StateRunning) then (p, Err ErrAlreadyRunning)
  else
    match start_source (begin_start now p) with
    | (p, Err (Panic m)) => (p, Err (Panic m))
    | (p, Err err) => (fail_start err p, Err err)
    | (p, Ok _) =>
        let p := set_connectors (p_source p) (start_sinks (p_sinks p)) p in
        (updateState_running (launch (open_channels p)), Ok tt)
    end.

(** [Stop] up to the wait for the loops: a stopped pipeline is left alone. *)
Definition Stop_signal (p : Pipeline) : Pipeline :=
  if bool_decide (p_state p = StateStopped) then p
  else
    mkPipeline (p_source p) (p_sinks p) (p_dispatcher p) StateStopping (p_message p) (p_StartedAt p) (p_StoppedAt p)
      (p_stats p) true (p_pauseClosed p) (p_resumeCh p) (p_nextCh p) (p_closedCh p) (p_starting p) (p_loops p)
      (p_events p) (p_eventsClosed p) (p_errors p) (p_emitted p) (p_processed p).

(** The rest of [Stop], when every loop has returned. *)
Definition Stop_finish (now : time) (p : Pipeline) : Pipeline :=
  mkPipeline ((λ src, (src_Stop src).1) <$> p_source p) (stop_sinks (p_sinks p)) (p_dispatcher p) StateStopped
    (p_message p) (p_StartedAt p) now (p_stats p) (p_stopClosed p) (p_pauseClosed p) (p_resumeCh p) (p_nextCh p)
    (p_closedCh p) (p_starting p) (p_loops p) (p_events p) (p_eventsClosed p) (p_errors p) (p_emitted p)
    (p_processed p).

(** Closing a nil or closed channel panics. *)
Definition Pause : ST Pipeline unit := λ p,
  if negb (bool_decide (p_state p = StateRunning)) then (p, Err ErrInvalidState)
  else
    match p_pauseClosed p with
    | Some false =>
        (mkPipeline (p_source p) (p_sinks p) (p_dispatcher p) StatePaused (p_message p) (p_StartedAt p) (p_StoppedAt p)
           (p_stats p) (p_stopClosed p) (Some true) (p_resumeCh p) (p_nextCh p) (p_closedCh p) (p_starting p)
           (p_loops p) (p_events p) (p_eventsClosed p) (p_errors p) (p_emitted p) (p_processed p), Ok tt)
    | Some true => (set_state StatePaused p, Err (Panic "close of closed channel"))
    | None => (set_state StatePaused p, Err (Panic "close of nil channel"))
    end.

Definition Resume : ST Pipeline unit := λ p,
  if negb (bool_decide (p_state p = StatePaused)) then (p, Err ErrInvalidState)
  else
    match p_resumeCh p with
    | None => (set_state StateRunning p, Err (Panic "close of nil channel"))
    | Some ch =>
        (mkPipeline (p_source p) (p_sinks p) (p_dispatcher p) StateRunning (p_message p) (p_StartedAt p)
           (p_StoppedAt p) (p_stats p) (p_stopClosed p) (Some false) (Some (p_nextCh p)) (p_nextCh p + 1)%nat
           (ch :: p_closedCh p) (p_starting p) (p_loops p) (p_events p) (p_eventsClosed p) (p_errors p) (p_emitted p)
           (p_processed p), Ok tt)
    end.

(** *** The event loop *)

(** The writes of [processEvent], with the dispatcher and the sinks. *)
Definition deliver (e : ChangeEvent) (d : option Dispatcher) (sinks : list K) :
    option Dispatcher * (list K * result unit) :=
  match d with
  | Some d => let '(d', r) := Dispatch e d sinks in (Some d', r)
  | None => if IsHeartbeat e then (None, (sinks, Ok tt)) else (None, write_all e sinks (Ok tt))
  end.

(** A heartbeat without a dispatcher is counted as read only. *)
Definition skipped (d : option Dispatcher) (e : ChangeEvent) : bool :=
  IsHeartbeat e && bool_decide (d = None).

Definition count_event (now : time) (skip : bool) (r : result unit) (st : Statistics) : Statistics :=
  let read := i64 (st_EventsRead st + 1) in
  if skip then mkStatistics read (st_EventsWritten st) (st_EventsFailed st) now
  else
    match r with
    | Ok _ => mkStatistics read (i64 (st_EventsWritten st + 1)) (st_EventsFailed st) now
    | Err _ => mkStatistics read (st_EventsWritten st) (i64 (st_EventsFailed st + 1)) now
    end.

Definition processEvent (now : time) (e : ChangeEvent) : ST Pipeline unit := λ p,
  let '(d', (sinks', r)) := deliver e (p_dispatcher p) (p_sinks p) in
  let p' :=
    mkPipeline (p_source p) sinks' d' (p_state p) (p_message p) (p_StartedAt p) (p_StoppedAt p)
      (count_event now (skipped (p_dispatcher p) e) r (p_stats p)) (p_stopClosed p) (p_pauseClosed p) (p_resumeCh p)
      (p_nextCh p) (p_closedCh p) (p_starting p) (p_loops p) (p_events p) (p_eventsClosed p) (p_errors p)
      (p_emitted p) (p_processed p ++ [e]) in
  (p', match r with Err (Panic m) => Err (Panic m) | _ => Ok tt end).

Inductive plabel :=
  | PStart | PStartRefused | PStartSource | PStartFails | PStartSink | POpen | PLaunch | PStarted | PStop | PStopped | PPause | PResume
  | PEmit | PCloseEvents | PEmitError
  | PRecv | PRelease | PProcess | PExit | PCtxDone | PDrained | PSourceError.

#[export] Instance plabel_eq_dec : EqDecision plabel.
Proof. solve_decision. Defined.

(** The source sends an event on its channel. *)
Definition emit (e : ChangeEvent) (p : Pipeline) : Pipeline :=
  mkPipeline (p_source p) (p_sinks p) (p_dispatcher p) (p_state p) (p_message p) (p_StartedAt p) (p_StoppedAt p)
    (p_stats p) (p_stopClosed p) (p_pauseClosed p) (p_resumeCh p) (p_nextCh p) (p_closedCh p) (p_starting p)
    (p_loops p) (p_events p ++ [e]) (p_eventsClosed p) (p_errors p) (p_emitted p ++ [e]) (p_processed p).

(** A loop that leaves at its [select], or while it holds an event. *)
Definition leave (l : loop) : option loop :=
  match l with
  | LIdle => Some (LExited None)
  | LHold e _ => Some (LExited (Some e))
  | _ => None
  end.

(** A step: a part of a control operation (as long as it does not panic), an event or error of
    the source, or one loop.  [PRecv] takes an event and checks the pause; a held
    event is released when the channel it waits on is closed; [PExit] and
    [PCtxDone] are the [stopCh] and [ctx.Done] branches. *)
Inductive pstep : Pipeline → plabel → Pipeline → Prop :=
  | pstep_start now p :
      p_state p ≠ StateRunning → pstep p PStart (set_calls (p_starting p ++ [SBegun]) (begin_start now p))
  | pstep_start_refused p : p_state p = StateRunning → pstep p PStartRefused p
  | pstep_start_source p i p' r :
      p_starting p !! i = Some SBegun → start_source p = (p', r) → (∀ m, r ≠ Err (Panic m)) →
      pstep p PStartSource
        (set_calls (<[i := match r with Ok _ => SSinks 0 | Err err => SFailed err end]> (p_starting p)) p')
  | pstep_start_fails p i err :
      p_starting p !! i = Some (SFailed err) →
      pstep p PStartFails (set_calls (delete i (p_starting p)) (fail_start err p))
  | pstep_start_sink p i n :
      p_starting p !! i = Some (SSinks n) → (n < length (p_sinks p))%nat →
      pstep p PStartSink (set_calls (<[i := SSinks (n + 1)]> (p_starting p)) (start_sink n p))
  | pstep_open p i n :
      p_starting p !! i = Some (SSinks n) → (length (p_sinks p) <= n)%nat →
      pstep p POpen (set_calls (<[i := SOpen]> (p_starting p)) (open_channels p))
  | pstep_launch p i :
      p_starting p !! i = Some SOpen → pstep p PLaunch (set_calls (<[i := SLaunched]> (p_starting p)) (launch p))
  | pstep_started p i :
      p_starting p !! i = Some SLaunched →
      pstep p PStarted (set_calls (delete i (p_starting p)) (updateState_running p))
  | pstep_stop p : pstep p PStop (Stop_signal p)
  | pstep_stopped now p :
      p_state p = StateStopping → p_stopClosed p = true → Forall (λ l, ∃ d, l = LExited d) (p_loops p) →
      pstep p PStopped (Stop_finish now p)
  | pstep_pause p p' : Pause p = (p', Ok tt) → pstep p PPause p'
  | pstep_resume p p' : Resume p = (p', Ok tt) → pstep p PResume p'
  | pstep_emit p e :
      p_eventsClosed p = false →
      pstep p PEmit (emit e p)
  | pstep_close_events p :
      pstep p PCloseEvents
        (mkPipeline (p_source p) (p_sinks p) (p_dispatcher p) (p_state p) (p_message p) (p_StartedAt p) (p_StoppedAt p)
           (p_stats p) (p_stopClosed p) (p_pauseClosed p) (p_resumeCh p) (p_nextCh p) (p_closedCh p) (p_starting p)
           (p_loops p) (p_events p) true (p_errors p) (p_emitted p) (p_processed p))
  | pstep_emit_error p err : pstep p PEmitError (set_stats (p_stats p) (p_errors p ++ [err]) p)
  | pstep_recv p i e rest :
      p_loops p !! i = Some LIdle → p_events p = e :: rest →
      pstep p PRecv
        (set_loops (<[i := if bool_decide (p_state p = StatePaused) then LHold e (p_resumeCh p) else LProc e]> (p_loops p))
           rest p)
  | pstep_release p i e ch :
      p_loops p !! i = Some (LHold e (Some ch)) → ch ∈ p_closedCh p →
      pstep p PRelease (set_loops (<[i := LProc e]> (p_loops p)) (p_events p) p)
  | pstep_process now p p' i e :
      p_loops p !! i = Some (LProc e) → processEvent now e p = (p', Ok tt) →
      pstep p PProcess (set_loops (<[i := LIdle]> (p_loops p')) (p_events p') p')
  | pstep_exit p i l l' :
      p_loops p !! i = Some l → leave l = Some l' → p_stopClosed p = true →
      pstep p PExit (set_loops (<[i := l']> (p_loops p)) (p_events p) p)
  | pstep_ctx_done p i l l' :
      p_loops p !! i = Some l → leave l = Some l' →
      pstep p PCtxDone (set_loops (<[i := l']> (p_loops p)) (p_events p) p)
  | pstep_drained p i :
      p_loops p !! i = Some LIdle → p_events p = [] → p_eventsClosed p = true →
      pstep p PDrained (set_loops (<[i := LExited None]> (p_loops p)) (p_events p) p)
  | pstep_source_error p i err rest :
      p_loops p !! i = Some LIdle → p_errors p = err :: rest →
      pstep p PSourceError
        (set_stats (mkStatistics (st_EventsRead (p_stats p)) (st_EventsWritten (p_stats p))
           (i64 (st_EventsFailed (p_stats p) + 1)) (st_LastEventTime (p_stats p))) rest p).

(** ** One loop: order and delivery *)

(** The event the loop has taken and not finished. *)
Definition in_loop (l : loop) : list ChangeEvent :=
  match l with
  | LIdle => []
  | LHold e _ | LProc e => [e]
  | LExited d => option_list d
  end.

(** Delivering a sequence of events from given sinks. *)
Definition deliver_all (es : list ChangeEvent) (d : option Dispatcher) (sinks : list K) : option Dispatcher * list K :=
  foldl (λ ds e, let '(d', (sinks', _)) := deliver e ds.1 ds.2 in (d', sinks')) (d, sinks) es.

(** The statistics a sequence of processed events leaves. *)
Definition count_read (es : list ChangeEvent) : Z := i64 (zlen es).

Lemma deliver_all_snoc es e d sinks :
  deliver_all (es ++ [e]) d sinks =
    let ds := deliver_all es d sinks in
    let '(d', (sinks', _)) := deliver e ds.1 ds.2 in (d', sinks').
Proof. unfold deliver_all. by rewrite foldl_app. Qed.

(** Since its only start launched its loop: every event of the source is processed, in
    the loop or still in the channel, in that order, and the sinks have received
    the processed ones. *)
Record single (p0 p : Pipeline) : Prop := {
  single_loop : ∃ l, p_loops p = [l] ∧
    p_emitted p = p_processed p ++ in_loop l ++ p_events p;
  single_sinks : (p_dispatcher p, p_sinks p) = deliver_all (p_processed p) (p_dispatcher p0) (p_sinks p0);
  single_read : st_EventsRead (p_stats p) = count_read (p_processed p);
  single_calls : Forall (eq SLaunched) (p_starting p)
}.

Definition internal (l : plabel) : bool :=
  negb (bool_decide (l = PStart) || bool_decide (l = PStopped)).

Lemma single_process now p0 p p' e :
  single p0 p → p_loops p = [LProc e] → processEvent now e p = (p', Ok tt) →
  single p0 (set_loops [LIdle] (p_events p') p').
Proof.
  intros [(l & Hl & Hem) Hs Hr Hcl] Hp. unfold processEvent.
  destruct (deliver e (p_dispatcher p) (p_sinks p)) as [d' [sinks' r]] eqn:Ed. intros [= <- _].
  rewrite Hl in Hp. injection Hp as ->. split; cbn [set_loops p_loops p_emitted p_processed p_events p_dispatcher p_sinks p_stats].
  - exists LIdle. split; [done|]. rewrite Hem. cbn. by rewrite <- app_assoc.
  - rewrite deliver_all_snoc, <- Hs. cbn [fst snd]. by rewrite Ed.
  - unfold count_event, count_read in *. rewrite Hr.
    assert (Hz : i64 (i64 (zlen (p_processed p)) + 1) = i64 (zlen (p_processed p ++ [e]))).
    { rewrite i64_add_l. f_equal. unfold zlen. rewrite length_app. cbn. lia. }
    destruct (skipped _ e); [done|]. by destruct r.
  - done.
Qed.

Lemma lookup_singleton_loop (l l' : loop) i : [l] !! i = Some l' → i = 0%nat ∧ l = l'.
Proof. destruct i as [|i]; [by intros [= ->]|done]. Qed.

(** A step that moves the loop and the channel only. *)
Lemma single_set_loops p0 p l l' events :
  single p0 p → p_loops p = [l] → in_loop l' ++ events = in_loop l ++ p_events p →
  single p0 (set_loops [l'] events p).
Proof.
  intros [(l0 & Hl & Hem) Hs Hr Hcl] Hp Heq. rewrite Hl in Hp. injection Hp as ->.
  split; cbn [set_loops p_loops p_emitted p_processed p_events p_dispatcher p_sinks p_stats]; [|done|done|done].
  exists l'. split; [done|]. by rewrite Heq.
Qed.

Lemma leave_in_loop l l' : leave l = Some l' → in_loop l' = in_loop l.
Proof. destruct l; cbn; intros [= <-]; done. Qed.

Ltac one_loop Hl :=
  match goal with H : p_loops ?p !! _ = Some _ |- _ =>
    rewrite Hl in H; apply lookup_singleton_loop in H as [-> ->] end.

Lemma single_step p0 p l p' : internal l = true → single p0 p → pstep p l p' → single p0 p'.
Proof.
  intros Hint Hinv Hst. pose proof Hinv as [(lp & Hl & Hem) Hs Hr Hcl].
  inversion Hst; subst; try discriminate Hint.
  all: try (match goal with H : p_starting _ !! _ = Some _ |- _ => pose proof (Forall_lookup_1 _ _ _ _ Hcl H); discriminate end).
  - done.
  - split; [by exists lp|done..|]. by apply Forall_delete.
  - unfold Stop_signal. case_bool_decide; [done|]. by split; [exists lp|..].
  - match goal with H : Pause _ = _ |- _ => unfold Pause in H; destruct (negb _), (p_pauseClosed p) as [[]|]; simplify_eq end.
    by split; [exists lp|..].
  - match goal with H : Resume _ = _ |- _ => unfold Resume in H; destruct (negb _), (p_resumeCh p); simplify_eq end.
    by split; [exists lp|..].
  - split; cbn; [|done..]. exists lp. split; [done|]. by rewrite Hem, <- !app_assoc.
  - by split; [exists lp|..].
  - by split; [exists lp|..].
  - one_loop Hl. rewrite Hl. cbn. eapply single_set_loops; [done..|]. cbn.
    match goal with H : p_events p = _ |- _ => rewrite H end. by case_bool_decide.
  - one_loop Hl. rewrite Hl. cbn. by eapply single_set_loops.
  - one_loop Hl. match goal with H : processEvent _ _ _ = _ |- _ => rename H into Hproc end.
    assert (Hloops : p_loops p'0 = p_loops p).
    { unfold processEvent in Hproc. destruct (deliver _ _ _) as [? [? ?]]. by injection Hproc as <- _. }
    rewrite Hloops, Hl. cbn. by eapply single_process.
  - one_loop Hl. rewrite Hl. cbn. eapply single_set_loops; [done..|]. by erewrite leave_in_loop.
  - one_loop Hl. rewrite Hl. cbn. eapply single_set_loops; [done..|]. by erewrite leave_in_loop.
  - one_loop Hl. rewrite Hl. cbn. by eapply single_set_loops.
  - by split; [exists lp|..].
Qed.

(** A pipeline that has just been started: one idle loop, nothing processed. *)
Record fresh (p : Pipeline) : Prop := {
  fresh_loops : p_loops p = [LIdle];
  fresh_processed : p_processed p = [];
  fresh_emitted : p_emitted p = p_events p;
  fresh_read : st_EventsRead (p_stats p) = 0;
  fresh_calls : Forall (eq SLaunched) (p_starting p)
}.

Lemma runs_internal p0 q ls p :
  runs pstep q ls p → forallb internal ls = true → single p0 q → single p0 p.
Proof.
  induction 1 as [|q l q1 ls q2 Hst _ IH]; cbn; [done|]. intros [H1 H2]%andb_true_iff Hsq.
  apply IH; [done|by eapply single_step].
Qed.

Lemma fresh_single p : fresh p → single p p.
Proof.
  intros [Hl Hp He Hr Hc]. split; [exists LIdle|..]; rewrite ?Hp, ?Hr; [by rewrite He|done..].
Qed.

(** C11. The order of a pipeline that is started once: from the launch of its loop, as long
    as [Start] is not called again with an effect and until [Stop] has waited for the loop,
    in every interleaving, pauses, resumes and stops included,
    the loop processes the events of the source in order, one at a time: the
    processed events followed by the one in the loop and those in the channel are
    the events of the source; the sinks and the dispatcher are where delivering
    the processed events one by one takes them; and [EventsRead] counts them. *)
Theorem pipeline_in_order (p0 p : Pipeline) (ls : list plabel)
    (Hfresh : fresh p0) (Hrun : runs pstep p0 ls p) (Hint : forallb internal ls = true) :
  ∃ l, p_loops p = [l] ∧
    p_emitted p = p_processed p ++ in_loop l ++ p_events p ∧
    (p_dispatcher p, p_sinks p) = deliver_all (p_processed p) (p_dispatcher p0) (p_sinks p0) ∧
    st_EventsRead (p_stats p) = i64 (zlen (p_processed p)).
Proof.
  destruct (runs_internal p0 p0 ls p Hrun Hint (fresh_single p0 Hfresh)) as [(l & Hl & He) Hs Hr _]. by exists l.
Qed.

(** ** Pausing *)

(** The loops that will process the event they have even while the pipeline is
    paused: past the check, or released by an earlier resume. *)
Definition committed (closed : list nat) (l : loop) : bool :=
  match l with
  | LProc _ => true
  | LHold _ (Some ch) => bool_decide (ch ∈ closed)
  | _ => false
  end.

Definition pending (p : Pipeline) : nat := length (List.filter (committed (p_closedCh p)) (p_loops p)).

(** Resume channels are fresh, and the current one is open. *)
Definition chan_wf (p : Pipeline) : Prop :=
  Forall (λ c, (c < p_nextCh p)%nat) (p_closedCh p) ∧
  (∀ c, p_resumeCh p = Some c → (c < p_nextCh p)%nat ∧ c ∉ p_closedCh p).

Lemma count_insert {A} (f : A → bool) (l : list A) : ∀ i x y,
  l !! i = Some x →
  (length (List.filter f (<[i := y]> l)) + (if f x then 1 else 0) = length (List.filter f l) + (if f y then 1 else 0))%nat.
Proof.
  induction l as [|z l IH]; intros i x y; [done|]. destruct i as [|i].
  - intros [= ->]. cbn. destruct (f x), (f y); cbn; lia.
  - intros Hl. specialize (IH i x y Hl). change (<[Datatypes.S i := y]> (z :: l)) with (z :: <[i := y]> l).
    cbn [List.filter]. destruct (f z); cbn [length]; lia.
Qed.

Lemma chan_wf_fresh p : chan_wf p → p_nextCh p ∉ p_closedCh p.
Proof. intros [Hc _] Hin. rewrite Forall_forall in Hc. specialize (Hc _ Hin). cbn in Hc. lia. Qed.

Lemma chan_wf_step p l p' : chan_wf p → pstep p l p' → chan_wf p'.
Proof.
  intros Hwf Hst. pose proof (chan_wf_fresh p Hwf) as Hfresh. pose proof Hwf as [Hc Hr].
  assert (Hup : Forall (λ c, (c < p_nextCh p + 1)%nat) (p_closedCh p)).
  { eapply Forall_impl; [exact Hc|]. intros c Hlt. cbn in Hlt. lia. }
  inversion Hst; subst; try done.
  - match goal with H : start_source _ = _ |- _ => unfold start_source in H end.
    destruct (p_source p); [|by simplify_eq]. destruct (src_Start _). by simplify_eq.
  - split; [done|]. intros c [= <-]. split; [cbn; lia|done].
  - unfold Stop_signal. case_bool_decide; [done|]. done.
  - match goal with H : Pause _ = _ |- _ => unfold Pause in H; destruct (negb _), (p_pauseClosed p) as [[]|]; simplify_eq end.
    done.
  - match goal with H : Resume _ = _ |- _ => unfold Resume in H; destruct (negb _), (p_resumeCh p) as [ch|] eqn:Ech; simplify_eq end.
    destruct (Hr _ eq_refl) as [Hlt Hnin]. split; cbn.
    + constructor; [lia|done].
    + intros c [= <-]. split; [lia|]. rewrite not_elem_of_cons. split; [lia|done].
  - match goal with H : processEvent _ _ _ = _ |- _ => unfold processEvent in H end.
    destruct (deliver _ _ _) as [? [? ?]]. simplify_eq. done.
Qed.

Lemma chan_wf_run p ls p' : chan_wf p → runs pstep p ls p' → chan_wf p'.
Proof. intros Hwf Hrun. eapply (runs_invariant pstep chan_wf); [apply chan_wf_step|done|done]. Qed.

(** The steps that do not end the pause. *)
Definition quiet (l : plabel) : bool :=
  negb (bool_decide (l ∈ [PStart; PResume; PStop; PStopped])).

Lemma paused_step p l p' :
  quiet l = true → chan_wf p → p_state p = StatePaused → p_starting p = [] → pstep p l p' →
  p_state p' = StatePaused ∧ p_starting p' = [] ∧ length (p_loops p') = length (p_loops p) ∧
  (length (p_processed p') + pending p' <= length (p_processed p) + pending p)%nat.
Proof.
  intros Hq Hwf Hp H0 Hst.
  assert (Hset : ∀ i x y events, p_loops p !! i = Some x →
    (if committed (p_closedCh p) y then 1 else 0) <= (if committed (p_closedCh p) x then 1 else 0) →
    (length (p_processed p) + pending (set_loops (<[i := y]> (p_loops p)) events p) <= length (p_processed p) + pending p)%nat).
  { intros i x y events Hx Hxy. unfold pending. cbn [p_closedCh p_loops set_loops].
    pose proof (count_insert (committed (p_closedCh p)) _ i x y Hx). destruct (committed _ x), (committed _ y); lia. }
  inversion Hst; subst; try discriminate Hq; try congruence;
    try (match goal with H : p_starting _ !! _ = Some _ |- _ => rewrite H0 in H; discriminate H end); cbn [set_loops set_stats p_state p_starting p_loops p_processed];
    rewrite ?length_insert; try (split_and!; [done..|unfold pending; done]).
  - match goal with H : Pause _ = _ |- _ => unfold Pause in H; rewrite Hp in H; cbn in H; simplify_eq end.
  - split_and!; [done..|]. eapply Hset; [done|]. rewrite bool_decide_eq_true_2 by done.
    cbn [committed]. destruct (p_resumeCh p) as [ch|] eqn:Ech; [|done].
    rewrite bool_decide_eq_false_2; [done|]. by apply Hwf.
  - split_and!; [done..|]. eapply Hset; [done|]. cbn [committed]. by rewrite bool_decide_eq_true_2.
  - match goal with H : processEvent _ _ _ = _ |- _ => unfold processEvent in H end.
    destruct (deliver _ _ _) as [? [? ?]]. simplify_eq. cbn [p_state p_starting p_loops p_processed p_events].
    rewrite ?length_insert, length_app. split_and!; [done..|]. unfold pending. cbn [set_loops p_closedCh p_loops length].
    match goal with H : p_loops p !! _ = Some (LProc _) |- _ =>
      pose proof (count_insert (committed (p_closedCh p)) _ _ _ LIdle H) as Hcnt end.
    cbn [committed] in Hcnt. lia.
  - split_and!; [done..|]. eapply Hset; [done|]. destruct l0 as [|e [ch|]|e|d]; cbn in *; simplify_eq; cbn; [done| |done].
    by destruct (bool_decide _).
  - split_and!; [done..|]. eapply Hset; [done|]. destruct l0 as [|e [ch|]|e|d]; cbn in *; simplify_eq; cbn; [done| |done].
    by destruct (bool_decide _).
  - split_and!; [done..|]. by eapply Hset.
Qed.

(** C13. A pause takes effect: in every state reached from a new pipeline that is
    paused, with no start still returning, at most one event per loop -- the one it
    had already committed to -- is processed before the pipeline is resumed,
    started or stopped, whatever the source emits. *)
Theorem pause_holds (source : option S) (sinks : list K) (d : option Dispatcher) (ls ls' : list plabel) (p p' : Pipeline)
    (Hreach : runs pstep (New source sinks d) ls p)
    (Hpaused : p_state p = StatePaused) (Hstarted : p_starting p = [])
    (Hrun : runs pstep p ls' p') (Hquiet : forallb quiet ls' = true) :
  p_state p' = StatePaused ∧
  (length (p_processed p') <= length (p_processed p) + pending p)%nat ∧ (pending p <= length (p_loops p))%nat.
Proof.
  assert (Hwf : chan_wf p).
  { eapply chan_wf_run; [|exact Hreach]. split; [constructor|done]. }
  assert (Hgen : p_state p' = StatePaused ∧
    (length (p_processed p') + pending p' <= length (p_processed p) + pending p)%nat).
  { clear Hreach ls. induction Hrun as [|p l p1 ls p2 Hst _ IH]; [split; [done|lia]|].
    cbn in Hquiet. apply andb_true_iff in Hquiet as [Hq Hqs].
    destruct (paused_step _ _ _ Hq Hwf Hpaused Hstarted Hst) as (Hp1 & Hs1 & _ & Hle).
    destruct IH as [Hp2 Hle2]; [done|done|done|by eapply chan_wf_step|]. split; [done|lia]. }
  destruct Hgen as [Hp' Hle]. split_and!; [done|lia|]. unfold pending. apply List.filter_length_le.
Qed.
End Pipelines.
Arguments Pipeline : clear implicits.

(** ** Concrete runs *)

Module PipelineRuns.

(** A sink that collects what it is given, and a source with nothing to start. *)
#[export] Instance collect : SinkConnector (list ChangeEvent) := {|
  snk_Write evs k := (k ++ evs, Ok tt);
  snk_Start k := (k, Ok tt);
  snk_Stop k := (k, Ok tt)
|}.
#[export] Instance plain_source : SourceConnector unit := {|
  src_Start s := (s, Ok tt);
  src_Stop s := (s, Ok tt)
|}.

Definition event_of (id : string) : ChangeEvent :=
  mkChangeEvent id SourceInfo_zero EventTypeInsert Position_zero TableInfo_zero RowData_zero RowData_zero 0 None None None.

Definition demo : Pipeline (list ChangeEvent) unit := New (Some tt) [[]; []] None.
Definition started : Pipeline (list ChangeEvent) unit := (Start 1 demo).1.
Definition received : Pipeline (list ChangeEvent) unit := set_loops [LProc (event_of "a")] [] (emit (event_of "a") started).
Definition processed : Pipeline (list ChangeEvent) unit :=
  let p := (processEvent 2 (event_of "a") received).1 in set_loops [LIdle] (p_events p) p.

(** The labels of a start with two sinks. *)
Definition starting : list plabel := [PStart; PStartSource; PStartSink; PStartSink; POpen; PLaunch].

(** A start of a pipeline with two sinks that is not running, up to its last section. *)
Ltac run_starting now :=
  eapply runs_cons; [apply (pstep_start now); discriminate|];
  eapply runs_cons; [eapply (pstep_start_source _ 0); [reflexivity|reflexivity|discriminate]|];
  eapply runs_cons; [apply (pstep_start_sink _ 0 0); [reflexivity|vm_compute; lia]|];
  eapply runs_cons; [apply (pstep_start_sink _ 0 1); [reflexivity|vm_compute; lia]|];
  eapply runs_cons; [apply (pstep_open _ 0 2); [reflexivity|vm_compute; lia]|];
  eapply runs_cons; [apply (pstep_launch _ 0); reflexivity|].

Lemma runs_started : runs pstep demo (starting ++ [PStarted]) started.
Proof. cbn [starting app]. run_starting 1. eapply runs_cons; [apply (pstep_started _ 0); reflexivity|]. constructor. Qed.

Lemma runs_processed : runs pstep started [PEmit; PRecv; PProcess] processed.
Proof.
  eapply runs_cons; [apply (pstep_emit _ (event_of "a")); reflexivity|].
  eapply runs_cons; [apply (pstep_recv _ 0 (event_of "a") []); reflexivity|].
  eapply runs_cons; [eapply (pstep_process 2 _ _ 0 (event_of "a")); [reflexivity|vm_compute; reflexivity]|].
  constructor.
Qed.

Lemma Dispatch_spec_witness :
  let '(d', (sinks', r)) := Dispatch (event_of "a") (RoundRobinDispatcher 3) [[]; []] in
  length sinks' = 2%nat ∧
  0 <= 1 < 2 ∧ ∃ k, [[]; []] !! 1%nat = Some k ∧ r = (snk_Write [event_of "a"] k).2 ∧
    sinks' = <[1%nat := (snk_Write [event_of "a"] k).1]> [[]; []].
Proof. exact (Dispatch_spec (RoundRobinDispatcher 3) (event_of "a") [[]; []] ltac:(discriminate)). Defined.

Lemma pipeline_in_order_witness :
  ∃ l, p_loops processed = [l] ∧
    p_emitted processed = p_processed processed ++ in_loop l ++ p_events processed ∧
    (p_dispatcher processed, p_sinks processed)
      = deliver_all (p_processed processed) (p_dispatcher started) (p_sinks started) ∧
    st_EventsRead (p_stats processed) = i64 (zlen (p_processed processed)).
Proof.
  apply (pipeline_in_order started processed [PEmit; PRecv; PProcess]).
  - split; try reflexivity. constructor.
  - exact runs_processed.
  - reflexivity.
Defined.

Definition paused : Pipeline (list ChangeEvent) unit := (Pause started).1.
Definition held : Pipeline (list ChangeEvent) unit :=
  set_loops [LHold (event_of "a") (Some 0%nat)] [] (emit (event_of "a") paused).

Lemma pause_holds_witness :
  p_state held = StatePaused ∧
  (length (p_processed held) <= length (p_processed paused) + pending paused)%nat ∧
  (pending paused <= length (p_loops paused))%nat.
Proof.
  apply (pause_holds (Some tt) [[]; []] None ((starting ++ [PStarted]) ++ [PPause]) [PEmit; PRecv] paused held).
  - eapply runs_app; [exact runs_started|]. eapply runs_cons; [apply pstep_pause; vm_compute; reflexivity|]. constructor.
  - reflexivity.
  - reflexivity.
  - eapply runs_cons; [apply (pstep_emit _ (event_of "a")); reflexivity|].
    eapply runs_cons; [apply (pstep_recv _ 0 (event_of "a") []); reflexivity|]. constructor.
  - reflexivity.
Defined.

(** A stopped pipeline cannot be restarted: the stop channel stays closed, so
    that after a second start, reported as running, the new loop can return at once
    and leave the events of the source unprocessed. *)
Theorem restart_can_stall :
  ∃ ls (p : Pipeline (list ChangeEvent) unit),
    runs pstep demo ls p ∧ PCtxDone ∉ ls ∧ p_state p = StateRunning ∧
    Forall (λ l, ∃ d, l = LExited d) (p_loops p) ∧ p_processed p = [] ∧ p_events p = [event_of "a"].
Proof.
  exists ((starting ++ [PStarted]) ++ [PStop; PExit; PStopped] ++ (starting ++ [PStarted; PExit; PEmit])). eexists. split.
  - eapply runs_app; [exact runs_started|]. cbn [starting app].
    eapply runs_cons; [apply pstep_stop|].
    eapply runs_cons; [apply (pstep_exit _ 0 LIdle (LExited None)); reflexivity|].
    eapply runs_cons; [apply (pstep_stopped 3); [reflexivity|reflexivity|repeat constructor; by eexists]|].
    run_starting 4.
    eapply runs_cons; [apply (pstep_started _ 0); reflexivity|].
    eapply runs_cons; [apply (pstep_exit _ 1 LIdle (LExited None)); reflexivity|].
    eapply runs_cons; [apply (pstep_emit _ (event_of "a")); reflexivity|]. constructor.
  - split_and!; [apply (bool_decide_unpack _); vm_compute; exact I|reflexivity| |reflexivity|reflexivity].
    repeat constructor; by eexists.
Qed.

(** A pause between the launch of the loop and the return of [Start] is undone
    by [Start] without a new pause channel, and the next pause panics. *)
Theorem pause_during_start_panics :
  ∃ ls (p : Pipeline (list ChangeEvent) unit),
    runs pstep demo ls p ∧ p_state p = StateRunning ∧ (Pause p).2 = Err (Panic "close of closed channel").
Proof.
  exists (starting ++ [PPause; PStarted]). eexists. split.
  - cbn [starting app]. run_starting 1.
    eapply runs_cons; [apply pstep_pause; vm_compute; reflexivity|].
    eapply runs_cons; [apply (pstep_started _ 0); reflexivity|]. constructor.
  - split; reflexivity.
Qed.

(** A pipeline that is started while it is paused has two loops, which may process two
    events in the other order. *)
Theorem second_start_reorders :
  ∃ ls (p : Pipeline (list ChangeEvent) unit),
    runs pstep demo ls p ∧ p_emitted p = [event_of "a"; event_of "b"] ∧ p_processed p = [event_of "b"; event_of "a"].
Proof.
  exists ((starting ++ [PStarted]) ++ [PPause] ++ (starting ++ [PStarted; PEmit; PEmit; PRecv; PRecv; PProcess; PProcess])). eexists. split.
  - eapply runs_app; [exact runs_started|]. cbn [starting app].
    eapply runs_cons; [apply pstep_pause; vm_compute; reflexivity|].
    run_starting 4.
    eapply runs_cons; [apply (pstep_started _ 0); reflexivity|].
    eapply runs_cons; [apply (pstep_emit _ (event_of "a")); reflexivity|].
    eapply runs_cons; [apply (pstep_emit _ (event_of "b")); reflexivity|].
    eapply runs_cons; [apply (pstep_recv _ 0 (event_of "a") [event_of "b"]); reflexivity|].
    eapply runs_cons; [apply (pstep_recv _ 1 (event_of "b") []); reflexivity|].
    eapply runs_cons; [eapply (pstep_process 5 _ _ 1 (event_of "b")); [reflexivity|vm_compute; reflexivity]|].
    eapply runs_cons; [eapply (pstep_process 6 _ _ 0 (event_of "a")); [reflexivity|vm_compute; reflexivity]|]. constructor.
  - split; reflexivity.
Qed.

End PipelineRuns.
