(* ===== verification/Tasks.v ===== *)
(** Tasks and their manager (internal/pipeline/task.go) and the coordinator of a
    single node (coordinator.go).

    Tasks are shared by pointer between the manager and its callers: they live in a
    heap, and the manager maps identifiers to locations.  The calls of the manager
    are serialised; [time.Now] is an argument, read once per call. *)
From Stdlib Require Import ZArith Lia.
From Stdlib Require Ascii String.
From stdpp Require Import prelude countable gmap strings list fin_maps pretty.
From S2P Require Import Prelude Events Pipeline.
Local Open Scope Z_scope.

Definition ErrTaskExists : goerror := ErrCode "DS:Task:Exists".
Definition ErrTaskNotFound : goerror := ErrCode "DS:Task:NotFound".

(** ** task.go: Task *)

Inductive TaskStatus :=
  | TaskStatusCreated | TaskStatusStarting | TaskStatusRunning | TaskStatusPaused
  | TaskStatusStopping | TaskStatusStopped | TaskStatusError.

#[export] Instance TaskStatus_eq_dec : EqDecision TaskStatus.
Proof. solve_decision. Defined.

(** What a task needs of its pipeline. *)
Class PipelineOps (P : Type) := {
  pipe_Start : time → ST P unit;
  pipe_Stop : time → ST P unit
}.

Section Task.
Context {P Cfg : Type} `{PO : !PipelineOps P}.

Record Task := mkTask {
  t_ID : string;
  t_Name : string;
  t_Status : TaskStatus;
  t_Config : option Cfg;
  t_Pipeline : option P;
  t_Position : option Position;
  t_CreatedAt : time;
  t_UpdatedAt : time;
  t_StartedAt : option time;
  t_StoppedAt : option time
}.

Definition NewTask (now : time) (id name : string) (config : option Cfg) : Task :=
  mkTask id name TaskStatusCreated config None None now now None None.

Definition with_status (st : TaskStatus) (pipe : option P) (t : Task) : Task :=
  mkTask (t_ID t) (t_Name t) st (t_Config t) pipe (t_Position t) (t_CreatedAt t) (t_UpdatedAt t) (t_StartedAt t)
    (t_StoppedAt t).

Definition Task_Start (now : time) : ST Task unit := λ t,
  if bool_decide (t_Status t = TaskStatusRunning) then (t, Err ErrAlreadyRunning)
  else
    match t_Pipeline t with
    | None => (with_status TaskStatusError None t, Err ErrNoSource)
    | Some p =>
        match pipe_Start now p with
        | (p', Err err) => (with_status TaskStatusError (Some p') t, Err err)
        | (p', Ok _) =>
            (mkTask (t_ID t) (t_Name t) TaskStatusRunning (t_Config t) (Some p') (t_Position t) (t_CreatedAt t) now
               (Some now) (t_StoppedAt t), Ok tt)
        end
    end.

(** An error of the pipeline's [Stop] is only logged. *)
Definition Task_Stop (now : time) : ST Task unit := λ t,
  if bool_decide (t_Status t = TaskStatusStopped) then (t, Ok tt)
  else
    let pipe := (λ p, (pipe_Stop now p).1) <$> t_Pipeline t in
    (mkTask (t_ID t) (t_Name t) TaskStatusStopped (t_Config t) pipe (t_Position t) (t_CreatedAt t) now (t_StartedAt t)
       (Some now), Ok tt).

Definition touch (now : time) (st : TaskStatus) (t : Task) : Task :=
  mkTask (t_ID t) (t_Name t) st (t_Config t) (t_Pipeline t) (t_Position t) (t_CreatedAt t) now (t_StartedAt t)
    (t_StoppedAt t).

Definition Task_Pause (now : time) : ST Task unit := λ t,
  if negb (bool_decide (t_Status t = TaskStatusRunning)) then (t, Err ErrInvalidState)
  else (touch now TaskStatusPaused t, Ok tt).

Definition Task_Resume (now : time) : ST Task unit := λ t,
  if negb (bool_decide (t_Status t = TaskStatusPaused)) then (t, Err ErrInvalidState)
  else (touch now TaskStatusRunning t, Ok tt).

Definition Task_GetPosition (t : Task) : option Position := Position_Clone <$> t_Position t.

Definition Task_SetPosition (now : time) (pos : Position) (t : Task) : Task :=
  mkTask (t_ID t) (t_Name t) (t_Status t) (t_Config t) (t_Pipeline t) (Some (Position_Clone pos)) (t_CreatedAt t) now
    (t_StartedAt t) (t_StoppedAt t).

Definition Task_Update (now : time) (name : string) (config : option Cfg) (t : Task) : Task :=
  mkTask (t_ID t) (if bool_decide (name = "") then t_Name t else name) (t_Status t)
    (match config with Some c => Some c | None => t_Config t end) (t_Pipeline t) (t_Position t) (t_CreatedAt t) now
    (t_StartedAt t) (t_StoppedAt t).

End Task.
Arguments Task : clear implicits.

(** ** task.go: intToStr *)

(** The digits are written from the end of a four-byte array; a fifth one panics. *)
Fixpoint int_digits (i : nat) (n : Z) (buf : string) : result string :=
  if 0 <? n then
    match i with
    | O => Err (Panic "index out of range [-1]")
    | S i => int_digits i (Z.quot n 10) (String (Ascii.ascii_of_N (Z.to_N (48 + Z.rem n 10))) buf)
    end
  else Ok buf.

Definition intToStr (n : Z) : result string := if n =? 0 then Ok "0" else int_digits 4 n "".

(** ** Coordinator *)

Definition loc := nat.

Class Coordinator (T C : Type) := {
  coord_SaveTask : string → loc → T → ST C unit;
  coord_DeleteTask : string → ST C unit
}.

(** What the manager relies on: a call that fails changes nothing. *)
Class CoordinatorLaws (T C : Type) `{!Coordinator T C} := {
  coord_ids : C → gset string;
  coord_save_ok id l t c c' : coord_SaveTask id l t c = (c', Ok tt) → coord_ids c' = {[id]} ∪ coord_ids c;
  coord_save_err id l t c c' e : coord_SaveTask id l t c = (c', Err e) → coord_ids c' = coord_ids c;
  coord_delete_ok id c c' : coord_DeleteTask id c = (c', Ok tt) → coord_ids c' = coord_ids c ∖ {[id]};
  coord_delete_err id c c' e : coord_DeleteTask id c = (c', Err e) → coord_ids c' = coord_ids c
}.

(** ** coordinator.go: MemoryCoordinator *)

Record NodeInfo := mkNodeInfo {
  ni_ID : string;
  ni_Address : string;
  ni_Hostname : string;
  ni_StartedAt : Z;
  ni_LastSeen : Z;
  ni_Labels : gmap string string;
  ni_Tasks : list string
}.

Record MemoryCoordinator := mkMemoryCoordinator {
  mc_tasks : gmap string loc;
  mc_positions : gmap string Position;
  mc_nodes : gmap string NodeInfo;
  mc_leaders : gmap string string;
  mc_thisNode : string;
  mc_watchers : gmap string nat         (* how many channels watch a task *)
}.

Definition NewMemoryCoordinator (nodeID : string) : MemoryCoordinator := mkMemoryCoordinator ∅ ∅ ∅ ∅ nodeID ∅.

Definition with_tasks (ts : gmap string loc) (ps : gmap string Position) (ls : gmap string string) (c : MemoryCoordinator) :
    MemoryCoordinator := mkMemoryCoordinator ts ps (mc_nodes c) ls (mc_thisNode c) (mc_watchers c).

Definition with_nodes (ns : gmap string NodeInfo) (c : MemoryCoordinator) : MemoryCoordinator :=
  mkMemoryCoordinator (mc_tasks c) (mc_positions c) ns (mc_leaders c) (mc_thisNode c) (mc_watchers c).

Definition mc_SaveTask (id : string) (l : loc) : ST MemoryCoordinator unit := λ c,
  (with_tasks (<[id := l]> (mc_tasks c)) (mc_positions c) (mc_leaders c) c, Ok tt).

Definition mc_GetTask (id : string) (c : MemoryCoordinator) : result loc :=
  match mc_tasks c !! id with Some l => Ok l | None => Err ErrTaskNotFound end.

Definition mc_DeleteTask (id : string) : ST MemoryCoordinator unit := λ c,
  (with_tasks (delete id (mc_tasks c)) (delete id (mc_positions c)) (delete id (mc_leaders c)) c, Ok tt).

Definition mc_SavePosition (taskID : string) (pos : Position) : ST MemoryCoordinator unit := λ c,
  (with_tasks (mc_tasks c) (<[taskID := Position_Clone pos]> (mc_positions c)) (mc_leaders c) c, Ok tt).

Definition mc_GetPosition (taskID : string) (c : MemoryCoordinator) : option Position :=
  Position_Clone <$> mc_positions c !! taskID.

Definition mc_AcquireLeadership (taskID : string) (c : MemoryCoordinator) : MemoryCoordinator * bool :=
  match mc_leaders c !! taskID with
  | Some leader => (c, bool_decide (leader = mc_thisNode c))
  | None => (with_tasks (mc_tasks c) (mc_positions c) (<[taskID := mc_thisNode c]> (mc_leaders c)) c, true)
  end.

Definition mc_ReleaseLeadership (taskID : string) (c : MemoryCoordinator) : MemoryCoordinator :=
  with_tasks (mc_tasks c) (mc_positions c) (delete taskID (mc_leaders c)) c.

Definition mc_IsLeader (taskID : string) (c : MemoryCoordinator) : bool :=
  match mc_leaders c !! taskID with Some leader => bool_decide (leader = mc_thisNode c) | None => false end.

Definition mc_WatchLeadership (taskID : string) (c : MemoryCoordinator) : MemoryCoordinator :=
  mkMemoryCoordinator (mc_tasks c) (mc_positions c) (mc_nodes c) (mc_leaders c) (mc_thisNode c)
    (<[taskID := (default 0 (mc_watchers c !! taskID) + 1)%nat]> (mc_watchers c)).

Definition mc_RegisterNode (nodeID : string) (info : NodeInfo) (c : MemoryCoordinator) : MemoryCoordinator :=
  with_nodes (<[nodeID := info]> (mc_nodes c)) c.

Definition mc_UnregisterNode (nodeID : string) (c : MemoryCoordinator) : MemoryCoordinator :=
  with_nodes (delete nodeID (mc_nodes c)) c.

(** [nowMilli] is [time.Now().UnixMilli()]. *)
Definition mc_Heartbeat (nowMilli : Z) (nodeID : string) (c : MemoryCoordinator) : MemoryCoordinator :=
  match mc_nodes c !! nodeID with
  | Some n =>
      with_nodes (<[nodeID := mkNodeInfo (ni_ID n) (ni_Address n) (ni_Hostname n) (ni_StartedAt n) nowMilli
        (ni_Labels n) (ni_Tasks n)]> (mc_nodes c)) c
  | None => c
  end.

#[export] Instance memory_coordinator T : Coordinator T MemoryCoordinator := {|
  coord_SaveTask id l _ := mc_SaveTask id l;
  coord_DeleteTask := mc_DeleteTask
|}.

#[export] Program Instance memory_coordinator_laws T : CoordinatorLaws T MemoryCoordinator := {|
  coord_ids c := dom (mc_tasks c) |}.
Next Obligation. intros T id l t c c' [= <-]. cbn. apply leibniz_equiv, dom_insert. Qed.
Next Obligation. by intros T id l t c c' e [=]. Qed.
Next Obligation. intros T id c c' [= <-]. cbn. apply leibniz_equiv, dom_delete. Qed.
Next Obligation. by intros T id c c' e [=]. Qed.

(** ** task.go: TaskManager *)

Section Manager.
Context {P Cfg C : Type} `{PO : !PipelineOps P} `{CO : !Coordinator (Task P Cfg) C} `{CL : !CoordinatorLaws (Task P Cfg) C}.
Context `{GR : !GoRange string loc}.

Record TaskManager := mkTaskManager {
  tm_tasks : gmap string loc;
  tm_heap : list (Task P Cfg);
  tm_coordinator : option C
}.

Definition NewTaskManager (c : option C) : TaskManager := mkTaskManager ∅ [] c.

Definition set_task (l : loc) (t : Task P Cfg) (m : TaskManager) : TaskManager :=
  mkTaskManager (tm_tasks m) (<[l := t]> (tm_heap m)) (tm_coordinator m).

Definition Create (now : time) (id name : string) (config : option Cfg) : ST TaskManager loc := λ m,
  match tm_tasks m !! id with
  | Some _ => (m, Err ErrTaskExists)
  | None =>
      let task := NewTask now id name config in
      let l := length (tm_heap m) in
      let heap := tm_heap m ++ [task] in
      match tm_coordinator m with
      | None => (mkTaskManager (<[id := l]> (tm_tasks m)) heap None, Ok l)
      | Some c =>
          match coord_SaveTask id l task c with
          | (c', Err err) => (mkTaskManager (delete id (<[id := l]> (tm_tasks m))) heap (Some c'), Err err)
          | (c', Ok _) => (mkTaskManager (<[id := l]> (tm_tasks m)) heap (Some c'), Ok l)
          end
      end
  end.

(** The task of an identifier. *)
Definition find_task (id : string) (m : TaskManager) : option (loc * Task P Cfg) :=
  l ← tm_tasks m !! id; t ← tm_heap m !! l; Some (l, t).

Definition Manager_Get (id : string) (m : TaskManager) : result loc :=
  match tm_tasks m !! id with Some l => Ok l | None => Err ErrTaskNotFound end.

Definition Manager_List (m : TaskManager) : list loc := (go_range (tm_tasks m)).*2.

(** A method of the task an identifier names. *)
Definition on_task (id : string) (f : ST (Task P Cfg) unit) : ST TaskManager unit := λ m,
  match find_task id m with
  | None => (m, Err ErrTaskNotFound)
  | Some (l, t) => let '(t', r) := f t in (set_task l t' m, r)
  end.

Definition Manager_Start (now : time) (id : string) : ST TaskManager unit := on_task id (Task_Start now).
Definition Manager_Stop (now : time) (id : string) : ST TaskManager unit := on_task id (Task_Stop now).

Definition Delete (now : time) (id : string) : ST TaskManager unit := λ m,
  match find_task id m with
  | None => (m, Err ErrTaskNotFound)
  | Some (l, t) =>
      let '(t', r) := if bool_decide (t_Status t = TaskStatusRunning) then Task_Stop now t else (t, Ok tt) in
      let m := set_task l t' m in
      match r with
      | Err err => (m, Err err)
      | Ok _ =>
          match tm_coordinator m with
          | None => (mkTaskManager (delete id (tm_tasks m)) (tm_heap m) None, Ok tt)
          | Some c =>
              match coord_DeleteTask id c with
              | (c', Err err) => (mkTaskManager (tm_tasks m) (tm_heap m) (Some c'), Err err)
              | (c', Ok _) => (mkTaskManager (delete id (tm_tasks m)) (tm_heap m) (Some c'), Ok tt)
              end
          end
      end
  end.

Definition is_running (m : TaskManager) (l : loc) : bool :=
  match tm_heap m !! l with Some t => bool_decide (t_Status t = TaskStatusRunning) | None => false end.

(** [Task_Stop] of a task by location. *)
Definition stop_at (now : time) (m : TaskManager) (l : loc) : TaskManager :=
  match tm_heap m !! l with Some t => set_task l (Task_Stop now t).1 m | None => m end.

Definition StopAll (now : time) (m : TaskManager) : TaskManager :=
  foldl (stop_at now) m (List.filter (is_running m) (Manager_List m)).

(** What the manager and the holders of its tasks can do. *)
Inductive tm_op :=
  | OpCreate (now : time) (id name : string) (config : option Cfg)
  | OpDelete (now : time) (id : string)
  | OpStart (now : time) (id : string)
  | OpStop (now : time) (id : string)
  | OpStopAll (now : time)
  | OpPause (now : time) (id : string)
  | OpResume (now : time) (id : string)
  | OpSetPosition (now : time) (id : string) (pos : Position)
  | OpUpdate (now : time) (id name : string) (config : option Cfg)
  | OpSetPipeline (id : string) (p : P).

Definition tm_perform (m : TaskManager) (op : tm_op) : TaskManager :=
  match op with
  | OpCreate now id name config => (Create now id name config m).1
  | OpDelete now id => (Delete now id m).1
  | OpStart now id => (Manager_Start now id m).1
  | OpStop now id => (Manager_Stop now id m).1
  | OpStopAll now => StopAll now m
  | OpPause now id => (on_task id (Task_Pause now) m).1
  | OpResume now id => (on_task id (Task_Resume now) m).1
  | OpSetPosition now id pos => (on_task id (λ t, (Task_SetPosition now pos t, Ok tt)) m).1
  | OpUpdate now id name config => (on_task id (λ t, (Task_Update now name config t, Ok tt)) m).1
  | OpSetPipeline id p => (on_task id (λ t, (with_status (t_Status t) (Some p) t, Ok tt)) m).1
  end.

(** The manager's map and the coordinator know the same tasks, and every entry
    points to the task with that identifier. *)
Record tm_inv (m : TaskManager) : Prop := {
  tmi_coord c : tm_coordinator m = Some c → coord_ids c = dom (tm_tasks m);
  tmi_heap id l : tm_tasks m !! id = Some l → ∃ t, tm_heap m !! l = Some t ∧ t_ID t = id
}.

Lemma find_task_Some id m l t : find_task id m = Some (l, t) ↔ tm_tasks m !! id = Some l ∧ tm_heap m !! l = Some t.
Proof.
  unfold find_task. destruct (tm_tasks m !! id) as [l'|] eqn:E; cbn; [|naive_solver].
  destruct (tm_heap m !! l') as [t'|] eqn:Eh; cbn; naive_solver.
Qed.

Lemma set_task_inv m l t t' :
  tm_inv m → tm_heap m !! l = Some t → t_ID t' = t_ID t → tm_inv (set_task l t' m).
Proof.
  intros [Hc Hh] Hl Hid. split; cbn; [done|]. intros id k Hk. destruct (Hh id k Hk) as (u & Hu & Hiu).
  destruct (decide (k = l)) as [->|Hne].
  - exists t'. split; [apply list_lookup_insert_eq; by eapply lookup_lt_Some|]. congruence.
  - exists u. by rewrite list_lookup_insert_ne.
Qed.

Lemma on_task_inv id f m :
  (∀ t, t_ID (f t).1 = t_ID t) → tm_inv m → tm_inv (on_task id f m).1.
Proof.
  intros Hf Hinv. unfold on_task. destruct (find_task id m) as [[l t]|] eqn:E; [|done].
  apply find_task_Some in E as [_ Hl]. specialize (Hf t). destruct (f t) as [t' r]. cbn in *. by eapply set_task_inv.
Qed.

Lemma Task_Stop_ID now (t : Task P Cfg) : t_ID (Task_Stop now t).1 = t_ID t.
Proof. unfold Task_Stop. by case_bool_decide. Qed.

Lemma Task_Start_ID now (t : Task P Cfg) : t_ID (Task_Start now t).1 = t_ID t.
Proof.
  unfold Task_Start. case_bool_decide; [done|]. destruct (t_Pipeline t) as [p|]; [|done].
  by destruct (pipe_Start now p) as [p' [[]|]].
Qed.

Lemma Task_PauseResume_ID now (t : Task P Cfg) :
  t_ID (Task_Pause now t).1 = t_ID t ∧ t_ID (Task_Resume now t).1 = t_ID t.
Proof. unfold Task_Pause, Task_Resume. by destruct (negb _), (negb _). Qed.

Lemma Create_inv now id name config m : tm_inv m → tm_inv (Create now id name config m).1.
Proof.
  intros [Hc Hh]. unfold Create. destruct (tm_tasks m !! id) eqn:Eid; [done|].
  set (task := NewTask now id name config). set (l := length (tm_heap m)).
  assert (Hold : ∀ id' l', tm_tasks m !! id' = Some l' → ∃ t, (tm_heap m ++ [task]) !! l' = Some t ∧ t_ID t = id').
  { intros id' l' Hl'. destruct (Hh _ _ Hl') as (t & Ht & Hid). exists t. split; [by apply lookup_app_l_Some|done]. }
  assert (Hnew : ∀ id' l', <[id := l]> (tm_tasks m) !! id' = Some l' →
    ∃ t, (tm_heap m ++ [task]) !! l' = Some t ∧ t_ID t = id').
  { intros id' l'. rewrite lookup_insert_Some. intros [[<- <-]|[_ Hl']]; [|by apply Hold].
    exists task. split; [|done]. rewrite lookup_app_r by lia. by rewrite Nat.sub_diag. }
  destruct (tm_coordinator m) as [c|] eqn:Ec; [|by split].
  destruct (coord_SaveTask id l task c) as [c' [[]|err]] eqn:Es; split; cbn.
  - intros c'' [= <-]. apply coord_save_ok in Es. rewrite Es, (Hc _ eq_refl). symmetry. apply leibniz_equiv, dom_insert.
  - done.
  - intros c'' [= <-]. apply coord_save_err in Es. by rewrite Es, (Hc _ eq_refl), delete_insert_id.
  - intros id' l'. rewrite delete_insert_id by done. apply Hold.
Qed.

Lemma Delete_inv now id m : tm_inv m → tm_inv (Delete now id m).1.
Proof.
  intros Hinv. unfold Delete. destruct (find_task id m) as [[l t]|] eqn:E; [|done].
  apply find_task_Some in E as [Hid Hl].
  set (tr := if bool_decide (t_Status t = TaskStatusRunning) then Task_Stop now t else (t, Ok tt)).
  assert (Htr : tr.2 = Ok tt ∧ t_ID tr.1 = t_ID t).
  { subst tr. case_bool_decide; [|done]. split; [|apply Task_Stop_ID]. unfold Task_Stop. by case_bool_decide. }
  destruct tr as [t' r]. destruct Htr as [Hr Hidt]. cbn in Hr, Hidt. subst r.
  pose proof (set_task_inv m l t t' Hinv Hl Hidt) as Hinv'. remember (set_task l t' m) as m' eqn:Hm'.
  destruct Hinv' as [Hc Hh].
  assert (Hdel : ∀ id' l', delete id (tm_tasks m') !! id' = Some l' → ∃ u, tm_heap m' !! l' = Some u ∧ t_ID u = id').
  { intros id' l' [_ Hl']%lookup_delete_Some. by apply Hh. }
  destruct (tm_coordinator m') as [c|] eqn:Ec; [|by split].
  destruct (coord_DeleteTask id c) as [c' [[]|err]] eqn:Ed; split; cbn; try done.
  - intros c'' [= <-]. apply coord_delete_ok in Ed. rewrite Ed, (Hc _ eq_refl). symmetry. apply leibniz_equiv, dom_delete.
  - intros c'' [= <-]. apply coord_delete_err in Ed. by rewrite Ed, (Hc _ eq_refl).
Qed.

Lemma StopAll_inv now m : tm_inv m → tm_inv (StopAll now m).
Proof.
  unfold StopAll. generalize (List.filter (is_running m) (Manager_List m)) as ls.
  intros ls. revert m. induction ls as [|l ls IH]; intros m Hinv; cbn; [done|]. apply IH.
  unfold stop_at. destruct (tm_heap m !! l) as [t|] eqn:E; [|done].
  eapply set_task_inv; [done|done|apply Task_Stop_ID].
Qed.

Lemma tm_perform_inv m op : tm_inv m → tm_inv (tm_perform m op).
Proof.
  intros Hinv. destruct op; cbn [tm_perform].
  - by apply Create_inv.
  - by apply Delete_inv.
  - by apply on_task_inv; [apply Task_Start_ID|].
  - by apply on_task_inv; [apply Task_Stop_ID|].
  - by apply StopAll_inv.
  - by apply on_task_inv; [intros t; apply (Task_PauseResume_ID now t)|].
  - by apply on_task_inv; [intros t; apply (Task_PauseResume_ID now t)|].
  - by apply on_task_inv.
  - by apply on_task_inv.
  - by apply on_task_inv.
Qed.

(** After any sequence of operations on a new manager, with a coordinator whose
    calls may fail, the manager and the coordinator know the same tasks, and every
    identifier names the task that was created with it. *)
Theorem task_manager_consistent (c0 : option C) (ops : list tm_op)
    (Hempty : ∀ c, c0 = Some c → coord_ids c = ∅) :
  let m := foldl tm_perform (NewTaskManager c0) ops in
  (∀ c, tm_coordinator m = Some c → coord_ids c = dom (tm_tasks m)) ∧
  (∀ id l, Manager_Get id m = Ok l → ∃ t, tm_heap m !! l = Some t ∧ t_ID t = id).
Proof.
  cbn zeta. assert (Hinv : tm_inv (foldl tm_perform (NewTaskManager c0) ops)).
  { assert (H0 : tm_inv (NewTaskManager c0)).
    { split; cbn; [|done]. intros c Hc. by rewrite (Hempty c Hc), dom_empty_L. }
    revert H0. generalize (NewTaskManager c0). induction ops as [|op ops IH]; intros m Hm; cbn; [done|].
    apply IH. by apply tm_perform_inv. }
  destruct Hinv as [Hc Hh]. split; [done|]. intros id l. unfold Manager_Get.
  destruct (tm_tasks _ !! id) eqn:E; [|done]. intros [= ->]. by apply Hh.
Qed.
End Manager.
Arguments TaskManager : clear implicits.

(** ** The pipeline as the task calls it *)

Section PipelineCalls.
Context {K S : Type} `{SK : !SinkConnector K} `{SS : !SourceConnector S}.

(** What waiting for the loops does: each finishes the event it processes, and
    drops the one it holds. *)
Definition drain_loop (now : time) (p : Pipeline K S) (i : nat) : Pipeline K S :=
  match p_loops p !! i with
  | Some (LProc e) =>
      let p' := (processEvent now e p).1 in set_loops (<[i := LExited None]> (p_loops p')) (p_events p') p'
  | Some l =>
      match leave l with Some l' => set_loops (<[i := l']> (p_loops p)) (p_events p) p | None => p end
  | None => p
  end.

Definition Pipeline_Stop (now : time) : ST (Pipeline K S) unit := λ p,
  if bool_decide (p_state p = StateStopped) then (p, Ok tt)
  else
    let p := Stop_signal p in
    (Stop_finish now (foldl (drain_loop now) p (seq 0 (length (p_loops p)))), Ok tt).

#[export] Instance pipeline_ops : PipelineOps (Pipeline K S) := {|
  pipe_Start := Start;
  pipe_Stop := Pipeline_Stop
|}.

Context {Cfg : Type}.

(** Pausing a task does not reach its pipeline, which goes on running; a start
    of the paused task is refused by the running pipeline and leaves the task in
    error; a resume brings the task back. *)
Theorem paused_task_runs_on (now : time) (t : Task (Pipeline K S) Cfg) (p : Pipeline K S)
    (Hstatus : t_Status t = TaskStatusRunning) (Hpipe : t_Pipeline t = Some p) (Hrun : p_state p = StateRunning) :
  ∃ t1 t2, Task_Pause now t = (t1, Ok tt) ∧ t_Status t1 = TaskStatusPaused ∧ t_Pipeline t1 = Some p ∧
    Task_Start now t1 = (t2, Err ErrAlreadyRunning) ∧ t_Status t2 = TaskStatusError ∧ t_Pipeline t2 = Some p ∧
    Task_Resume now t1 = (touch now TaskStatusRunning t, Ok tt).
Proof.
  exists (touch now TaskStatusPaused t), (with_status TaskStatusError (Some p) (touch now TaskStatusPaused t)).
  unfold Task_Pause, Task_Start, Task_Resume. cbn [pipe_Start pipeline_ops]. rewrite Hstatus. cbn.
  rewrite Hpipe. unfold Start. by rewrite Hrun.
Qed.

(** Deleting a task that is not running -- a paused one -- removes it from the
    manager without stopping its pipeline: the task, still in the heap with the
    pipeline it had, is no longer found. *)
Theorem delete_paused_leaks (now : time) (id : string) (l : loc) (t : Task (Pipeline K S) Cfg)
    (m : TaskManager (Pipeline K S) Cfg MemoryCoordinator)
    (Hfind : find_task id m = Some (l, t)) (Hpaused : t_Status t = TaskStatusPaused) :
  ∃ m', Delete now id m = (m', Ok tt) ∧ Manager_Get id m' = Err ErrTaskNotFound ∧
    tm_heap m' !! l = Some t ∧
    (∀ c, tm_coordinator m' = Some c → mc_GetTask id c = Err ErrTaskNotFound).
Proof.
  unfold Delete. rewrite Hfind, Hpaused. cbn [bool_decide]. rewrite bool_decide_eq_false_2 by done.
  apply find_task_Some in Hfind as [Hid Hl]. cbn [tm_coordinator set_task].
  assert (Hlen : (l < length (tm_heap m))%nat) by (by eapply lookup_lt_Some).
  destruct (tm_coordinator m) as [c|]; eexists; (split; [reflexivity|]); split_and!.
  - unfold Manager_Get. cbn. by rewrite lookup_delete_eq.
  - by apply list_lookup_insert_eq.
  - intros c' [= <-]. unfold mc_GetTask. cbn. by rewrite lookup_delete_eq.
  - unfold Manager_Get. cbn. by rewrite lookup_delete_eq.
  - by apply list_lookup_insert_eq.
  - done.
Qed.
End PipelineCalls.

(** ** Leadership and statistics keys *)

(** On a single node every leader is the node itself. *)
Definition leaders_self (c : MemoryCoordinator) : Prop := ∀ k v, mc_leaders c !! k = Some v → v = mc_thisNode c.

Lemma AcquireLeadership_self taskID c :
  leaders_self c →
  let '(c', ok) := mc_AcquireLeadership taskID c in
  ok = true ∧ mc_IsLeader taskID c' = true ∧ leaders_self c'.
Proof.
  intros Hs. unfold mc_AcquireLeadership, mc_IsLeader. destruct (mc_leaders c !! taskID) as [v|] eqn:E.
  - rewrite E, (Hs _ _ E), !bool_decide_eq_true_2 by done. done.
  - cbn. rewrite lookup_insert_eq, bool_decide_eq_true_2 by done. split_and!; [done..|].
    intros k v. cbn. rewrite lookup_insert_Some. intros [[_ <-]|[_ Hk]]; [done|exact (Hs k v Hk)].
Qed.

Lemma int_digits_overflow i : ∀ n buf, 10 ^ Z.of_nat i <= n → ∃ msg, int_digits i n buf = Err (Panic msg).
Proof.
  induction i as [|i IH]; intros n buf Hn; cbn [int_digits].
  - rewrite (proj2 (Z.ltb_lt _ _)) by (cbn in Hn; lia). by eexists.
  - rewrite Nat2Z.inj_succ, Z.pow_succ_r in Hn by lia. assert (0 < 10 ^ Z.of_nat i) by lia.
    rewrite (proj2 (Z.ltb_lt _ _)) by lia. apply IH. rewrite Z.quot_div_nonneg by lia.
    apply Z.div_le_lower_bound; lia.
Qed.

(** [intToStr] prints the numbers of up to four digits and panics on larger ones. *)
Lemma intToStr_spec n :
  (0 <= n < 10000 → intToStr n = Ok (pretty (Z.to_N n))) ∧
  (10000 <= n → ∃ msg, intToStr n = Err (Panic msg)).
Proof.
  split.
  - intros Hn.
    assert (Hall : forallb (λ k : nat, bool_decide (intToStr (Z.of_nat k) = Ok (pretty (Z.to_N (Z.of_nat k)))))
                     (seq 0 (Z.to_nat 10000)) = true) by (vm_compute; reflexivity).
    rewrite forallb_forall in Hall. specialize (Hall (Z.to_nat n)).
    rewrite Z2Nat.id in Hall by lia. apply (bool_decide_eq_true_1 _), Hall. apply in_seq. lia.
  - intros Hn. unfold intToStr. rewrite (proj2 (Z.eqb_neq _ _)) by lia. apply int_digits_overflow. cbn. lia.
Qed.

(** ** Concrete runs *)

Module TaskRuns.
Import PipelineRuns.

Definition M : Type := TaskManager (Pipeline (list ChangeEvent) unit) unit MemoryCoordinator.
#[local] Instance task_range : GoRange string loc := sorted_range string loc.

Definition ops : list (tm_op (P := Pipeline (list ChangeEvent) unit) (Cfg := unit)) :=
  [OpCreate 1 "t1" "first" None; OpCreate 1 "t2" "second" None; OpSetPipeline "t1" demo; OpStart 2 "t1"; OpPause 3 "t1"].
Definition manager : M := foldl tm_perform (NewTaskManager (Some (NewMemoryCoordinator "n1"))) ops.

Lemma task_manager_consistent_witness :
  (∀ c, tm_coordinator manager = Some c → coord_ids (T := Task (Pipeline (list ChangeEvent) unit) unit) c = dom (tm_tasks manager)) ∧
  (∀ id l, Manager_Get id manager = Ok l → ∃ t, tm_heap manager !! l = Some t ∧ t_ID t = id).
Proof.
  apply (task_manager_consistent (Some (NewMemoryCoordinator "n1")) ops). intros c [= <-]. reflexivity.
Defined.

Definition running_task : Task (Pipeline (list ChangeEvent) unit) unit :=
  mkTask "t1" "first" TaskStatusRunning None (Some started) None 1 2 (Some 2) None.

Lemma paused_task_runs_on_witness :
  ∃ t1 t2, Task_Pause 3 running_task = (t1, Ok tt) ∧ t_Status t1 = TaskStatusPaused ∧ t_Pipeline t1 = Some started ∧
    Task_Start 3 t1 = (t2, Err ErrAlreadyRunning) ∧ t_Status t2 = TaskStatusError ∧ t_Pipeline t2 = Some started ∧
    Task_Resume 3 t1 = (touch 3 TaskStatusRunning running_task, Ok tt).
Proof. apply (paused_task_runs_on 3 running_task started); reflexivity. Defined.

Definition paused_task : Task (Pipeline (list ChangeEvent) unit) unit := (Task_Pause 3 (touch 2 TaskStatusRunning
  (mkTask "t1" "first" TaskStatusRunning None (Some (Start 2 demo).1) None 1 2 (Some 2) None))).1.

Lemma delete_paused_leaks_witness :
  ∃ m', Delete 4 "t1" manager = (m', Ok tt) ∧ Manager_Get "t1" m' = Err ErrTaskNotFound ∧
    tm_heap m' !! 0%nat = Some paused_task ∧
    (∀ c, tm_coordinator m' = Some c → mc_GetTask "t1" c = Err ErrTaskNotFound).
Proof. apply (delete_paused_leaks 4 "t1" 0%nat paused_task manager); vm_compute; reflexivity. Defined.

End TaskRuns.
