(* ===== verification/FlowControl.v ===== *)
(** Flow control and fault tolerance: the backpressure controller
    (internal/pipeline/backpressure.go), the circuit breaker
    (pkg/errors/circuit_breaker.go) and retries with backoff (pkg/utils/retry.go).

    Floating point is IEEE 754 binary64, through the Standard Library's
    [SpecFloat].  The time of a call is an argument. *)
From Stdlib Require Import ZArith Lia SpecFloat.
From Stdlib Require Ascii String.
From stdpp Require Import prelude strings list.
From S2P Require Import Prelude Events.
Local Open Scope Z_scope.

(** ** backpressure.go *)

Record BackpressureConfig := mkBackpressureConfig {
  bc_EnableBackpressure : bool;
  bc_HighWatermark : Z;
  bc_LowWatermark : Z;
  bc_MaxLatency : duration;
  bc_CheckInterval : duration
}.

Definition DefaultBackpressureConfig : BackpressureConfig := mkBackpressureConfig true 80 50 5000000000 100000000.

Inductive BackpressureState := BackpressureStateNormal | BackpressureStateWarning | BackpressureStatePaused.

#[export] Instance BackpressureState_eq_dec : EqDecision BackpressureState.
Proof. solve_decision. Defined.

(** The notification channels hold at most one token.  [bp_calls] is the history of
    the callbacks: [true] for [onPause]. *)
Record BackpressureController := mkController {
  bp_config : BackpressureConfig;
  bp_queueSize : Z;
  bp_maxQueueSize : Z;
  bp_latency : duration;
  bp_state : BackpressureState;
  bp_pauseCh : bool;
  bp_resumeCh : bool;
  bp_calls : list bool
}.

Definition NewBackpressureController (c : BackpressureConfig) : BackpressureController :=
  mkController c 0 0 0 BackpressureStateNormal false false [].

Definition usagePercent (b : BackpressureController) : Z :=
  if 0 <? bp_maxQueueSize b then
    int_of_float64 (float64_mul (float64_div (float64_of_int (bp_queueSize b)) (float64_of_int (bp_maxQueueSize b)))
      (float64_of_int 100))
  else 0.

Definition set_bp (st : BackpressureState) (pauseCh resumeCh : bool) (calls : list bool) (b : BackpressureController) :
    BackpressureController :=
  mkController (bp_config b) (bp_queueSize b) (bp_maxQueueSize b) (bp_latency b) st pauseCh resumeCh calls.

(** A full channel drops the notification; the callback is called all the same. *)
Definition notifyPause (b : BackpressureController) : BackpressureController :=
  set_bp (bp_state b) true (bp_resumeCh b) (bp_calls b ++ [true]) b.

Definition notifyResume (b : BackpressureController) : BackpressureController :=
  set_bp (bp_state b) (bp_pauseCh b) true (bp_calls b ++ [false]) b.

Definition with_bp_state (st : BackpressureState) (b : BackpressureController) : BackpressureController :=
  set_bp st (bp_pauseCh b) (bp_resumeCh b) (bp_calls b) b.

Definition over_limit (b : BackpressureController) : bool :=
  (bc_HighWatermark (bp_config b) <=? usagePercent b) || (bc_MaxLatency (bp_config b) <? bp_latency b).

Definition may_resume (b : BackpressureController) : bool :=
  (usagePercent b <=? bc_LowWatermark (bp_config b)) && (bp_latency b <=? bc_MaxLatency (bp_config b)).

Definition check (b : BackpressureController) : BackpressureController :=
  if negb (bc_EnableBackpressure (bp_config b)) then b
  else
    match bp_state b with
    | BackpressureStateNormal | BackpressureStateWarning =>
        if over_limit b then notifyPause (with_bp_state BackpressureStatePaused b)
        else if bc_LowWatermark (bp_config b) <=? usagePercent b then with_bp_state BackpressureStateWarning b
        else b
    | BackpressureStatePaused =>
        if may_resume b then notifyResume (with_bp_state BackpressureStateNormal b) else b
    end.

Definition UpdateMetrics (queueSize maxQueueSize : Z) (latency : duration) (b : BackpressureController) : BackpressureController :=
  mkController (bp_config b) queueSize maxQueueSize latency (bp_state b) (bp_pauseCh b) (bp_resumeCh b) (bp_calls b).

Definition ShouldPause (b : BackpressureController) : bool := bool_decide (bp_state b = BackpressureStatePaused).

(** One round of [WaitWhilePaused]: [None] when the timer fires and the loop goes
    round.  [ctx] is the error of a context that is done and [pick] chooses between
    ready cases. *)
Definition WaitWhilePaused (ctx : option goerror) (pick : bool) (b : BackpressureController) :
    option (BackpressureController * result unit) :=
  if negb (ShouldPause b) then Some (b, Ok tt)
  else
    match ctx, bp_resumeCh b with
    | Some err, true =>
        if pick then Some (b, Err err) else Some (set_bp (bp_state b) (bp_pauseCh b) false (bp_calls b) b, Ok tt)
    | Some err, false => Some (b, Err err)
    | None, true => Some (set_bp (bp_state b) (bp_pauseCh b) false (bp_calls b) b, Ok tt)
    | None, false => None
    end.

Inductive bp_op := BUpdate (queueSize maxQueueSize : Z) (latency : duration) | BCheck.

Definition bp_perform (b : BackpressureController) (op : bp_op) : BackpressureController :=
  match op with BUpdate q m l => UpdateMetrics q m l b | BCheck => check b end.

(** Pauses and resumes in turn, beginning with a pause. *)
Fixpoint alternating (next : bool) (l : list bool) : bool :=
  match l with
  | [] => true
  | x :: l => Bool.eqb x next && alternating (negb next) l
  end.

(** The call that is due next. *)
Definition due (l : list bool) : bool := Nat.even (length l).
Arguments due : simpl never.

Lemma alternating_snoc l : ∀ next, alternating next l = true →
  alternating next (l ++ [if Nat.even (length l) then next else negb next]) = true.
Proof.
  induction l as [|x l IH]; intros next; [cbn; by rewrite Bool.eqb_reflx|].
  cbn [alternating app]. intros [Hx Hl]%andb_true_iff. rewrite Hx. cbn [andb].
  specialize (IH _ Hl). cbn [length]. rewrite Nat.even_succ, <- Nat.negb_even.
  destruct (Nat.even (length l)); cbn [negb] in *; [done|]. by rewrite negb_involutive in IH.
Qed.

Definition bp_inv (b : BackpressureController) : Prop :=
  alternating true (bp_calls b) = true ∧ due (bp_calls b) = negb (ShouldPause b).

Lemma due_snoc l x : due (l ++ [x]) = negb (due l).
Proof. unfold due. rewrite length_app. cbn. by rewrite Nat.add_1_r, Nat.even_succ, <- Nat.negb_even. Qed.

Lemma bp_perform_inv b op : bp_inv b → bp_inv (bp_perform b op).
Proof.
  intros [Ha Hd]. destruct op; cbn [bp_perform]; [done|]. unfold check.
  pose proof (alternating_snoc _ _ Ha) as Hs. unfold due in Hd.
  destruct (negb (bc_EnableBackpressure _)); [done|]. unfold ShouldPause in Hd.
  destruct (bp_state b) eqn:E; cbn in Hd; rewrite Hd in Hs.
  - destruct (over_limit b).
    + split; cbn; [done|]. rewrite due_snoc. unfold due. by rewrite Hd.
    + destruct (_ <=? _); split; try done; unfold ShouldPause; cbn; rewrite ?E; done.
  - destruct (over_limit b).
    + split; cbn; [done|]. rewrite due_snoc. unfold due. by rewrite Hd.
    + destruct (_ <=? _); split; try done; unfold ShouldPause; cbn; rewrite ?E; done.
  - destruct (may_resume b).
    + split; cbn; [done|]. rewrite due_snoc. unfold due. by rewrite Hd.
    + split; [done|]. unfold ShouldPause. by rewrite E.
Qed.

(** Whatever the metrics do, the callbacks alternate, beginning with a pause, and
    the controller is paused exactly when the last call was a pause. *)
Theorem backpressure_alternates (c : BackpressureConfig) (ops : list bp_op) :
  let b := foldl bp_perform (NewBackpressureController c) ops in
  alternating true (bp_calls b) = true ∧ ShouldPause b = negb (Nat.even (length (bp_calls b))).
Proof.
  cbn zeta. assert (H : bp_inv (foldl bp_perform (NewBackpressureController c) ops)).
  { assert (H0 : bp_inv (NewBackpressureController c)) by done. revert H0. generalize (NewBackpressureController c).
    induction ops as [|op ops IH]; intros b Hb; [done|]. cbn. by apply IH, bp_perform_inv. }
  destruct H as [Ha Hd]. split; [done|]. unfold due in Hd. by rewrite Hd, negb_involutive.
Qed.

(** The warning state is left only through a pause. *)
Lemma warning_is_sticky b op :
  bp_state b = BackpressureStateWarning →
  bp_state (bp_perform b op) = BackpressureStateWarning ∨ bp_state (bp_perform b op) = BackpressureStatePaused.
Proof.
  intros Hw. destruct op; cbn [bp_perform]; [by left|]. unfold check. destruct (negb _); [by left|]. rewrite Hw.
  destruct (over_limit b); [by right|]. destruct (_ <=? _); by left.
Qed.

(** A resume that nobody waited for leaves its token: after the next pause a
    waiter returns at once although the controller is paused. *)
Theorem stale_resume_token :
  ∃ ops, let b := foldl bp_perform (NewBackpressureController DefaultBackpressureConfig) ops in
    ShouldPause b = true ∧
    ∃ b', WaitWhilePaused None false b = Some (b', Ok tt) ∧ ShouldPause b' = true.
Proof.
  exists [BUpdate 90 100 0; BCheck; BUpdate 10 100 0; BCheck; BUpdate 90 100 0; BCheck].
  vm_compute. split; [done|]. eexists. split; [reflexivity|done].
Qed.

(** ** circuit_breaker.go *)

Inductive CircuitState := CircuitClosed | CircuitOpen | CircuitHalfOpen.

#[export] Instance CircuitState_eq_dec : EqDecision CircuitState.
Proof. solve_decision. Defined.

Record CircuitBreakerConfig := mkCircuitBreakerConfig {
  cc_FailureThreshold : Z;
  cc_SuccessThreshold : Z;
  cc_ResetTimeout : duration
}.

Record CircuitBreaker := mkCircuitBreaker {
  cb_config : CircuitBreakerConfig;
  cb_state : CircuitState;
  cb_failures : Z;
  cb_successes : Z;
  cb_lastFailure : time;
  cb_probeInFlight : bool
}.

Definition NewCircuitBreaker (c : CircuitBreakerConfig) : CircuitBreaker :=
  let c := mkCircuitBreakerConfig (cc_FailureThreshold c)
             (if cc_SuccessThreshold c <=? 0 then 1 else cc_SuccessThreshold c) (cc_ResetTimeout c) in
  mkCircuitBreaker c CircuitClosed 0 0 0 false.

(** [time.Since(lastFailure) > ResetTimeout] *)
Definition timed_out (now : time) (cb : CircuitBreaker) : bool :=
  cc_ResetTimeout (cb_config cb) <? time_Sub now (cb_lastFailure cb).

Definition Allow (now : time) (cb : CircuitBreaker) : CircuitBreaker * bool :=
  match cb_state cb with
  | CircuitClosed => (cb, true)
  | CircuitOpen =>
      if timed_out now cb then
        (mkCircuitBreaker (cb_config cb) CircuitHalfOpen (cb_failures cb) 0 (cb_lastFailure cb) true, true)
      else (cb, false)
  | CircuitHalfOpen =>
      if cb_probeInFlight cb then (cb, false)
      else (mkCircuitBreaker (cb_config cb) CircuitHalfOpen (cb_failures cb) (cb_successes cb) (cb_lastFailure cb) true, true)
  end.

Definition RecordSuccess (cb : CircuitBreaker) : CircuitBreaker :=
  match cb_state cb with
  | CircuitHalfOpen =>
      let successes := i64 (cb_successes cb + 1) in
      if cc_SuccessThreshold (cb_config cb) <=? successes then
        mkCircuitBreaker (cb_config cb) CircuitClosed 0 0 (cb_lastFailure cb) false
      else mkCircuitBreaker (cb_config cb) CircuitHalfOpen 0 successes (cb_lastFailure cb) false
  | st => mkCircuitBreaker (cb_config cb) st 0 (cb_successes cb) (cb_lastFailure cb) false
  end.

Definition RecordFailure (now : time) (cb : CircuitBreaker) : CircuitBreaker :=
  let failures := i64 (cb_failures cb + 1) in
  match cb_state cb with
  | CircuitHalfOpen => mkCircuitBreaker (cb_config cb) CircuitOpen 0 0 now false
  | CircuitClosed =>
      if cc_FailureThreshold (cb_config cb) <=? failures then
        mkCircuitBreaker (cb_config cb) CircuitOpen failures (cb_successes cb) now false
      else mkCircuitBreaker (cb_config cb) CircuitClosed failures (cb_successes cb) now false
  | CircuitOpen => mkCircuitBreaker (cb_config cb) CircuitOpen failures (cb_successes cb) now false
  end.

Definition cb_State (now : time) (cb : CircuitBreaker) : CircuitState :=
  if bool_decide (cb_state cb = CircuitOpen) && timed_out now cb then CircuitHalfOpen else cb_state cb.

(** *** When it opens *)

(** The outcome of a call: a success, or a failure at a time. *)
Inductive outcome := Success | Failure (now : time).

Definition record (cb : CircuitBreaker) (o : outcome) : CircuitBreaker :=
  match o with Success => RecordSuccess cb | Failure now => RecordFailure now cb end.

(** The number of failures at the end of a sequence of outcomes. *)
Definition trailing (os : list outcome) : Z :=
  foldl (λ n o, match o with Success => 0 | Failure _ => n + 1 end) 0 os.

Lemma trailing_snoc os o :
  trailing (os ++ [o]) = match o with Success => 0 | Failure _ => trailing os + 1 end.
Proof. unfold trailing. rewrite foldl_app. by destruct o. Qed.

Lemma trailing_bound os : 0 <= trailing os <= zlen os.
Proof.
  induction os as [|o os IH] using rev_ind; [done|]. rewrite trailing_snoc. unfold zlen in *. rewrite length_app. cbn.
  destruct o; lia.
Qed.

(** Some prefix of the outcomes ends in [n] failures in a row. *)
Definition tripped (n : Z) (os : list outcome) : Prop := ∃ k, n <= trailing (take k os).

Lemma tripped_snoc n os o : tripped n (os ++ [o]) ↔ tripped n os ∨ n <= trailing (os ++ [o]).
Proof.
  split.
  - intros [k Hk]. destruct (decide (k <= length os)%nat).
    + left. exists k. by rewrite take_app_le in Hk.
    + right. by rewrite take_ge in Hk by (rewrite length_app; cbn; lia).
  - intros [[k Hk]|Ht].
    + exists (min k (length os)). rewrite take_app_le by lia. destruct (decide (k <= length os)%nat).
      * by rewrite Nat.min_l.
      * rewrite Nat.min_r by lia. rewrite take_ge in Hk by lia. by rewrite take_ge.
    + exists (length (os ++ [o])). by rewrite take_ge.
Qed.

(** The breaker as the outcomes leave it, while nobody asks for permission. *)
Lemma record_spec c os :
  zlen os <= max_int64 →
  let cb := foldl record (NewCircuitBreaker c) os in
  let n := Z.max 1 (cc_FailureThreshold c) in
  cb_config cb = cb_config (NewCircuitBreaker c) ∧
  (cb_state cb = CircuitClosed ∧ cb_failures cb = trailing os ∧ ¬ tripped n os ∨
   cb_state cb = CircuitOpen ∧ tripped n os).
Proof.
  induction os as [|o os IH] using rev_ind; intros Hlen; cbn zeta in *.
  - split; [done|]. left. split_and!; [done|done|]. intros [k Hk]. rewrite take_nil in Hk. cbn in Hk. lia.
  - unfold zlen in *. rewrite length_app in Hlen. cbn in Hlen. destruct IH as [Hc IH]; [unfold max_int64 in *; lia|].
    rewrite foldl_app. cbn [foldl]. set (cb := foldl record _ os) in *.
    rewrite tripped_snoc, trailing_snoc. pose proof (trailing_bound os) as Hb. unfold zlen in Hb.
    destruct IH as [(Hst & Hf & Hnt)|[Hst Ht]].
    + destruct o as [|now]; cbn [record].
      * unfold RecordSuccess. rewrite Hst. cbn. split; [done|]. left. split_and!; [done|done|]. intros [?|?]; [done|lia].
      * unfold RecordFailure. rewrite Hst, Hc, Hf. cbn [cb_config NewCircuitBreaker cc_FailureThreshold].
        rewrite i64_small by (unfold min_int64, max_int64 in *; lia).
        destruct (Z.leb_spec (cc_FailureThreshold c) (trailing os + 1)); cbn; (split; [done|]).
        -- right. split; [done|]. right. lia.
        -- left. split_and!; [done|done|]. intros [?|?]; [done|lia].
    + assert (cb_state (record cb o) = CircuitOpen ∧ cb_config (record cb o) = cb_config cb) as [Hs' Hc'].
      { destruct o; cbn [record]; unfold RecordSuccess, RecordFailure; by rewrite Hst. }
      rewrite Hs', Hc'. split; [done|]. right. split; [done|by left].
Qed.

(** From a new breaker, the outcomes of the calls open it exactly when
    [FailureThreshold] of them (at least one) in a row were failures; until then it
    allows every call. *)
Theorem circuit_opens_on_consecutive_failures (c : CircuitBreakerConfig) (os : list outcome) (now : time)
    (Hlen : zlen os <= max_int64) :
  let cb := foldl record (NewCircuitBreaker c) os in
  (cb_state cb = CircuitOpen ↔ tripped (Z.max 1 (cc_FailureThreshold c)) os) ∧
  (¬ tripped (Z.max 1 (cc_FailureThreshold c)) os → Allow now cb = (cb, true)).
Proof.
  pose proof (record_spec c os Hlen) as [_ H]. cbn zeta in *. destruct H as [(Hst & _ & Hnt)|[Hst Ht]].
  - split; [split; [congruence|done]|]. intros _. unfold Allow. by rewrite Hst.
  - split; [done|]. done.
Qed.

(** *** Recovery *)

(** A probe that succeeds: it is allowed and its success recorded. *)
Definition good_probe (cb : CircuitBreaker) (now : time) : CircuitBreaker := RecordSuccess (Allow now cb).1.

Lemma good_probes_half_open cb times : ∀ k,
  cb_state cb = CircuitHalfOpen → cb_probeInFlight cb = false → cb_successes cb = k → 0 <= k →
  k + zlen times < cc_SuccessThreshold (cb_config cb) <= max_int64 →
  let cb' := foldl good_probe cb times in
  cb_state cb' = CircuitHalfOpen ∧ cb_probeInFlight cb' = false ∧ cb_successes cb' = k + zlen times ∧
  cb_config cb' = cb_config cb.
Proof.
  revert cb. induction times as [|now times IH]; intros cb k Hst Hp Hs Hk Hlt; cbn [foldl].
  - unfold zlen. cbn. split_and!; [done|done|lia|done].
  - unfold zlen in *. cbn [length] in Hlt.
    assert (Hstep : good_probe cb now =
      mkCircuitBreaker (cb_config cb) CircuitHalfOpen 0 (k + 1) (cb_lastFailure cb) false).
    { unfold good_probe, Allow. rewrite Hst, Hp. unfold RecordSuccess. cbn. rewrite Hs.
      rewrite i64_small by (unfold min_int64, max_int64 in *; lia).
      by rewrite (proj2 (Z.leb_gt _ _)) by lia. }
    rewrite Hstep.
    edestruct (IH (mkCircuitBreaker (cb_config cb) CircuitHalfOpen 0 (k + 1) (cb_lastFailure cb) false) (k + 1))
      as (H1 & H2 & H3 & H4); [done|done|done|lia|cbn; lia|].
    split_and!; [done|done|rewrite H3; cbn [length]; lia|by rewrite H4].
Qed.

(** Recovery of an open breaker.  Before the reset timeout it refuses every call
    and does not change; after it, one call is let through and every other one is
    refused until its outcome is known; a failure opens it again, and it closes
    after exactly [SuccessThreshold] successful probes. *)
Theorem circuit_recovery (cb : CircuitBreaker) (now : time) (times : list time)
    (Hopen : cb_state cb = CircuitOpen)
    (Hthr : 1 <= cc_SuccessThreshold (cb_config cb) <= max_int64) :
  (timed_out now cb = false → Allow now cb = (cb, false)) ∧
  (timed_out now cb = true →
   let '(probing, ok) := Allow now cb in
   ok = true ∧ (∀ t, Allow t probing = (probing, false)) ∧
   (∀ t, cb_state (RecordFailure t probing) = CircuitOpen ∧ cb_lastFailure (RecordFailure t probing) = t) ∧
   (1 + zlen times < cc_SuccessThreshold (cb_config cb) →
    cb_state (foldl good_probe (RecordSuccess probing) times) = CircuitHalfOpen) ∧
   (1 + zlen times = cc_SuccessThreshold (cb_config cb) →
    cb_state (foldl good_probe (RecordSuccess probing) times) = CircuitClosed)).
Proof.
  assert (Hallow : Allow now cb = if timed_out now cb then
    (mkCircuitBreaker (cb_config cb) CircuitHalfOpen (cb_failures cb) 0 (cb_lastFailure cb) true, true) else (cb, false)).
  { unfold Allow. by rewrite Hopen. }
  rewrite Hallow. split; [by intros ->|]. intros ->. cbv beta iota.
  set (probing := mkCircuitBreaker _ CircuitHalfOpen _ _ _ _). split_and!; [done|by intros t|by intros t|..].
  - intros Hlt. assert (Hfirst : RecordSuccess probing =
      mkCircuitBreaker (cb_config cb) CircuitHalfOpen 0 1 (cb_lastFailure cb) false).
    { unfold RecordSuccess. cbn [probing cb_state cb_successes cb_config cb_lastFailure].
      change (i64 (0 + 1)) with 1. rewrite (proj2 (Z.leb_gt _ _)); [done|]. unfold zlen in *. lia. }
    rewrite Hfirst. eapply (good_probes_half_open _ times 1); [done|done|done|lia|cbn [cb_config]; lia].
  - intros Heq. destruct times as [|t times _] using rev_ind.
    + unfold zlen in Heq. cbn in Heq. unfold RecordSuccess. cbn [probing cb_state cb_successes cb_config cb_lastFailure foldl].
      change (i64 (0 + 1)) with 1. by rewrite (proj2 (Z.leb_le _ _)) by lia.
    + unfold zlen in *. rewrite length_app in Heq. cbn in Heq.
      assert (Hfirst : RecordSuccess probing =
        mkCircuitBreaker (cb_config cb) CircuitHalfOpen 0 1 (cb_lastFailure cb) false).
      { unfold RecordSuccess. cbn [probing cb_state cb_successes cb_config cb_lastFailure].
        change (i64 (0 + 1)) with 1. rewrite (proj2 (Z.leb_gt _ _)); [done|]. lia. }
      rewrite Hfirst, foldl_app. cbn [foldl].
      destruct (good_probes_half_open
        (mkCircuitBreaker (cb_config cb) CircuitHalfOpen 0 1 (cb_lastFailure cb) false) times 1)
        as (H1 & H2 & H3 & H4); [done|done|done|lia|cbn; unfold zlen; lia|].
      unfold good_probe at 1, Allow. rewrite H1, H2. unfold RecordSuccess. cbn. rewrite H3, H4. cbn. unfold zlen.
      rewrite i64_small by (unfold min_int64, max_int64 in *; lia).
      by rewrite (proj2 (Z.leb_le _ _)) by lia.
Qed.

(** ** retry.go *)

Record RetryConfig := mkRetryConfig {
  rc_MaxRetries : Z;
  rc_InitialDelay : duration;
  rc_MaxDelay : duration;
  rc_Multiplier : spec_float
}.

Definition DefaultRetryConfig : RetryConfig :=
  mkRetryConfig 3 100000000 10000000000 (float64_of_int 2).

(** No error of the repository has a [Retryable] method, so that only the context
    errors are not retried. *)
Definition IsRetryableError (err : option goerror) : bool :=
  match err with
  | None => false
  | Some e => negb (errors_Is e CtxCanceled || errors_Is e CtxDeadlineExceeded)
  end.

(** What happens during a call: the state of the context before the attempt [i] and
    while waiting after it, and the result of the attempt. *)
Record retry_env := mkRetryEnv {
  re_before : nat → option goerror;
  re_wait : nat → option goerror;
  re_fn : nat → option goerror
}.

Definition retry_delay (cfg : RetryConfig) (delay : duration) : duration :=
  let delay := int_of_float64 (float64_mul (float64_of_int delay) (rc_Multiplier cfg)) in
  if (0 <? rc_MaxDelay cfg) && (rc_MaxDelay cfg <? delay) then rc_MaxDelay cfg else delay.

(** The loop, [attempts] iterations from the iteration [i]: the result, the number
    of calls of [fn] and the delays. *)
Fixpoint Retry_loop (cfg : RetryConfig) (env : retry_env) (attempts i : nat) (delay : duration) (err : option goerror)
    (calls : nat) (delays : list duration) : option goerror * nat * list duration :=
  match attempts with
  | O => (err, calls, delays)
  | S attempts =>
      match re_before env i with
      | Some e => (Some e, calls, delays)
      | None =>
          match re_fn env i with
          | None => (None, S calls, delays)
          | Some e =>
              if negb (IsRetryableError (Some e)) then (Some e, S calls, delays)
              else if Z.of_nat i =? rc_MaxRetries cfg then (Some e, S calls, delays)
              else
                match re_wait env i with
                | Some e' => (Some e', S calls, delays ++ [delay])
                | None => Retry_loop cfg env attempts (S i) (retry_delay cfg delay) (Some e) (S calls) (delays ++ [delay])
                end
          end
      end
  end.

Definition Retry (cfg : RetryConfig) (env : retry_env) : option goerror * nat * list duration :=
  Retry_loop cfg env (Z.to_nat (rc_MaxRetries cfg + 1)) 0 (rc_InitialDelay cfg) None 0 [].

(** The attempt at which a call without context errors stops: the first that
    succeeds or fails for good, or the last one. *)
Definition stops (env : retry_env) (i : nat) : bool := negb (IsRetryableError (re_fn env i)).

Lemma Retry_loop_spec cfg env attempts : ∀ i delay err calls delays n,
  re_before env = (λ _, None) → re_wait env = (λ _, None) →
  Z.of_nat (i + attempts) = rc_MaxRetries cfg + 1 →
  (i <= n < i + attempts)%nat → (∀ j, (i <= j < n)%nat → stops env j = false) →
  (stops env n = true ∨ Z.of_nat n = rc_MaxRetries cfg) →
  ∃ delays', Retry_loop cfg env attempts i delay err calls delays
    = (re_fn env n, (calls + (n - i) + 1)%nat, delays ++ delays') ∧
    length delays' = (n - i)%nat ∧
    (0 < rc_MaxDelay cfg → Forall (λ d, d <= rc_MaxDelay cfg) (tail delays')) ∧
    (0 < rc_MaxDelay cfg → delay <= rc_MaxDelay cfg → Forall (λ d, d <= rc_MaxDelay cfg) delays').
Proof.
  induction attempts as [|attempts IH]; intros i delay err calls delays n Hb Hw Hat Hn Hbefore Hstop; [lia|].
  cbn [Retry_loop]. rewrite Hb.
  assert (Hcap : 0 < rc_MaxDelay cfg → retry_delay cfg delay <= rc_MaxDelay cfg).
  { intros Hm. unfold retry_delay. rewrite (proj2 (Z.ltb_lt _ _) Hm).
    match goal with |- context [rc_MaxDelay cfg <? ?x] => destruct (Z.ltb_spec (rc_MaxDelay cfg) x) end; cbn; lia. }
  destruct (decide (n = i)) as [->|Hne].
  - exists []. rewrite app_nil_r, Nat.sub_diag, Nat.add_0_r, Nat.add_1_r. split_and!; [|done|done|done].
    unfold stops in Hstop. destruct (re_fn env i) as [e|] eqn:Ef; [|done].
    destruct Hstop as [->|Hlast]; [done|]. destruct (negb _); [done|]. by rewrite (proj2 (Z.eqb_eq _ _)).
  - pose proof (Hbefore i ltac:(lia)) as Hi. unfold stops in Hi.
    destruct (re_fn env i) as [e|] eqn:Ef; [|done]. rewrite Hi, (proj2 (Z.eqb_neq _ _)), Hw by lia.
    destruct (IH (S i) (retry_delay cfg delay) (Some e) (S calls) (delays ++ [delay]) n)
      as (delays' & Heq & Hl & Ht & Hf); [done|done|lia|lia|intros j Hj; apply Hbefore; lia|done|].
    exists (delay :: delays'). rewrite Heq, <- app_assoc. cbn [app length tail]. split_and!.
    + do 2 f_equal. lia.
    + lia.
    + auto.
    + intros Hm Hd. constructor; [done|auto].
Qed.

(** A retry that no context interrupts calls the function up to and including the
    first attempt that succeeds or fails for good, at most [MaxRetries] + 1 times,
    returns what that attempt returned, and waits once between attempts; all delays
    but the first are capped by [MaxDelay].  With a negative [MaxRetries] it reports
    success without a call. *)
Theorem Retry_spec (cfg : RetryConfig) (env : retry_env) (n : nat)
    (Hbefore : re_before env = (λ _, None)) (Hwait : re_wait env = (λ _, None))
    (Hn : Z.of_nat n <= rc_MaxRetries cfg) (Hfirst : ∀ j, (j < n)%nat → stops env j = false)
    (Hstop : stops env n = true ∨ Z.of_nat n = rc_MaxRetries cfg) :
  (∃ delays, Retry cfg env = (re_fn env n, S n, delays) ∧ length delays = n ∧
     (0 < rc_MaxDelay cfg → Forall (λ d, d <= rc_MaxDelay cfg) (tail delays))) ∧
  Retry (mkRetryConfig (-1) (rc_InitialDelay cfg) (rc_MaxDelay cfg) (rc_Multiplier cfg)) env = (None, 0%nat, []).
Proof.
  split; [|done]. unfold Retry.
  destruct (Retry_loop_spec cfg env (Z.to_nat (rc_MaxRetries cfg + 1)) 0 (rc_InitialDelay cfg) None 0 [] n)
    as (delays & Heq & Hl & Ht & _); [done|done|lia|lia|intros j Hj; apply Hfirst; lia|done|].
  exists delays. rewrite Heq. cbn [app]. split_and!; [|lia|done]. do 2 f_equal. lia.
Qed.

(** ** Concrete runs *)

Module FlowRuns.

Definition breaker_config : CircuitBreakerConfig := mkCircuitBreakerConfig 3 2 30.
Definition three_failures : list outcome := [Failure 1; Failure 2; Success; Failure 3; Failure 4; Failure 5].

Lemma circuit_opens_on_consecutive_failures_witness :
  cb_state (foldl record (NewCircuitBreaker breaker_config) three_failures) = CircuitOpen ∧
  tripped 3 three_failures.
Proof.
  assert (Ht : tripped 3 three_failures) by (exists 6%nat; vm_compute; discriminate).
  split; [|exact Ht].
  apply (circuit_opens_on_consecutive_failures breaker_config three_failures 6); [vm_compute; discriminate|exact Ht].
Defined.

Definition open_breaker : CircuitBreaker := foldl record (NewCircuitBreaker breaker_config) three_failures.

Lemma circuit_recovery_witness :
  timed_out 100 open_breaker = true ∧ 1 + zlen [101] = cc_SuccessThreshold (cb_config open_breaker) ∧
  let '(probing, ok) := Allow 100 open_breaker in
  ok = true ∧ cb_state (foldl good_probe (RecordSuccess probing) [101]) = CircuitClosed.
Proof.
  destruct (circuit_recovery open_breaker 100 [101]) as [_ H].
  - reflexivity.
  - split; vm_compute; discriminate.
  - split; [reflexivity|]. split; [reflexivity|].
    destruct (Allow 100 open_breaker) as [probing ok]. destruct (H eq_refl) as (H1 & _ & _ & _ & H2).
    split; [exact H1|]. apply H2. reflexivity.
Defined.

(** The third attempt succeeds. *)
Definition third_time : retry_env :=
  mkRetryEnv (λ _, None) (λ _, None) (λ i, if decide (i < 2)%nat then Some (ErrNew "busy") else None).

Lemma Retry_spec_witness :
  (∃ delays, Retry DefaultRetryConfig third_time = (None, 3%nat, delays) ∧ length delays = 2%nat ∧
     (0 < rc_MaxDelay DefaultRetryConfig → Forall (λ d, d <= rc_MaxDelay DefaultRetryConfig) (tail delays))) ∧
  Retry (mkRetryConfig (-1) (rc_InitialDelay DefaultRetryConfig) (rc_MaxDelay DefaultRetryConfig)
    (rc_Multiplier DefaultRetryConfig)) third_time = (None, 0%nat, []).
Proof.
  apply (Retry_spec DefaultRetryConfig third_time 2); [reflexivity|reflexivity|vm_compute; discriminate| |left; reflexivity].
  intros j Hj. unfold stops. cbn. by rewrite decide_True by lia.
Defined.

End FlowRuns.
