(* ===== verification/Scope.v ===== *)
(** Which tables are synchronised (internal/source): scope expressions
    (sync_scope.go), the table manager (table_manager.go) and the discovery of
    databases and tables from DDL (discovery.go, database_discovery.go).

    Regular expressions are those of the standard library's [regexp]: compiling may
    fail, and a compiled one decides strings; nothing else of them matters here. *)
From Stdlib Require Import ZArith Lia.
From Stdlib Require Ascii String.
From stdpp Require Import prelude countable gmap strings list fin_maps.
From S2P Require Import Prelude Events TableLifecycle.
Local Open Scope Z_scope.

Class Regexp := {
  regexp : Type;
  regexp_Compile : string → result regexp;
  MatchString : regexp → string → bool
}.

Definition ErrInvalidSyncScope : goerror := ErrCode "DS:Source:InvalidSyncScope".

(** ** sync_scope.go *)

Section Scopes.
Context `{RX : Regexp}.

Record DatabaseScope := mkDatabaseScope {
  ds_Names : list string;
  ds_EnableDDL : bool;
  ds_TableFilter : list string;
  ds_IgnoreTables : list string;
  ds_tableFilterPatterns : list regexp;
  ds_ignoreTablePatterns : list regexp;
  ds_compiled : bool
}.

Record TableScope := mkTableScope { ts_Names : list string; ts_EnableDDL : bool }.

Inductive SyncLevel := SyncLevelDatabase | SyncLevelTable | SyncLevelOther (s : string).

Record SyncScope := mkSyncScope {
  ss_Level : SyncLevel;
  ss_Databases : DatabaseScope;
  ss_Tables : TableScope
}.

Definition IsWildcardDatabase (d : DatabaseScope) : bool :=
  match ds_Names d with [n] => bool_decide (n = "*") | _ => false end.

(** Compiles patterns one by one onto [acc] until one fails. *)
Fixpoint compile_onto (patterns : list string) (acc : list regexp) : list regexp * option goerror :=
  match patterns with
  | [] => (acc, None)
  | p :: patterns =>
      match regexp_Compile p with
      | Ok re => compile_onto patterns (acc ++ [re])
      | Err e => (acc, Some e)
      end
  end.

Definition with_patterns (filter ignore : list regexp) (compiled : bool) (d : DatabaseScope) : DatabaseScope :=
  mkDatabaseScope (ds_Names d) (ds_EnableDDL d) (ds_TableFilter d) (ds_IgnoreTables d) filter ignore compiled.

Definition compilePatterns : ST DatabaseScope unit := λ d,
  if ds_compiled d then (d, Ok tt)
  else
    match compile_onto (ds_TableFilter d) (ds_tableFilterPatterns d) with
    | (fs, Some e) => (with_patterns fs (ds_ignoreTablePatterns d) false d, Err e)
    | (fs, None) =>
        match compile_onto (ds_IgnoreTables d) (ds_ignoreTablePatterns d) with
        | (gs, Some e) => (with_patterns fs gs false d, Err e)
        | (gs, None) => (with_patterns fs gs true d, Ok tt)
        end
    end.

Definition ShouldSyncDatabase (d : DatabaseScope) (dbName : string) : bool :=
  IsWildcardDatabase d || existsb (λ n, bool_decide (n = dbName)) (ds_Names d).

(** The patterns are compiled at the first use. *)
Definition ShouldSyncTable (dbName tableName : string) (d : DatabaseScope) : DatabaseScope * bool :=
  if negb (ShouldSyncDatabase d dbName) then (d, false)
  else
    let '(d, r) := compilePatterns d in
    match r with
    | Err _ => (d, false)
    | Ok _ =>
        let fullName := dbName +:+ "." +:+ tableName in
        if existsb (λ re, MatchString re fullName) (ds_ignoreTablePatterns d) then (d, false)
        else
          match ds_tableFilterPatterns d with
          | [] => (d, true)
          | ps => (d, existsb (λ re, MatchString re fullName) ps)
          end
    end.

Record TableScopeEntry := mkTableScopeEntry { te_Database : string; te_Table : string }.

Definition dot : Ascii.ascii := Ascii.ascii_of_N 46.

Definition ParseTableNames (t : TableScope) : list TableScopeEntry :=
  omap (λ name, match split_first dot name with Some (d, tb) => Some (mkTableScopeEntry d tb) | None => None end)
    (ts_Names t).

Definition TableScope_ShouldSyncTable (t : TableScope) (dbName tableName : string) : bool :=
  existsb (λ n, bool_decide (n = dbName +:+ "." +:+ tableName)) (ts_Names t).

Definition DefaultSyncScope : SyncScope :=
  mkSyncScope SyncLevelDatabase (mkDatabaseScope ["*"] true [] [] [] [] false) (mkTableScope [] true).

(** A deep copy, without the compiled patterns. *)
Definition SyncScope_Clone (s : SyncScope) : SyncScope :=
  mkSyncScope (ss_Level s) (with_patterns [] [] false (ss_Databases s)) (ss_Tables s).

Definition Validate : ST SyncScope unit := λ s,
  match ss_Level s with
  | SyncLevelDatabase =>
      match ds_Names (ss_Databases s) with
      | [] => (s, Err ErrInvalidSyncScope)
      | _ =>
          let '(d, r) := compilePatterns (ss_Databases s) in (mkSyncScope (ss_Level s) d (ss_Tables s), r)
      end
  | SyncLevelTable =>
      match ts_Names (ss_Tables s) with [] => (s, Err ErrInvalidSyncScope) | _ => (s, Ok tt) end
  | SyncLevelOther _ => (s, Err ErrInvalidSyncScope)
  end.

(** *** Compiling at first use is transparent *)

(** The patterns of a list, when all of them compile. *)
Definition compiled_as (patterns : list string) (res : list regexp) : Prop :=
  Forall2 (λ p re, regexp_Compile p = Ok re) patterns res.

Definition compiles (d : DatabaseScope) : Prop :=
  ∃ fs gs, compiled_as (ds_TableFilter d) fs ∧ compiled_as (ds_IgnoreTables d) gs.

(** What a scope says of a table, by its configuration alone. *)
Definition table_in_scope (d : DatabaseScope) (dbName tableName : string) : Prop :=
  let fullName := dbName +:+ "." +:+ tableName in
  (IsWildcardDatabase d = true ∨ dbName ∈ ds_Names d) ∧ compiles d ∧
  (∀ p re, p ∈ ds_IgnoreTables d → regexp_Compile p = Ok re → MatchString re fullName = false) ∧
  (ds_TableFilter d = [] ∨ ∃ p re, p ∈ ds_TableFilter d ∧ regexp_Compile p = Ok re ∧ MatchString re fullName = true).

(** The states a scope goes through: fresh, compiled, or never compiling. *)
Definition scope_ok (d : DatabaseScope) : Prop :=
  if ds_compiled d then
    compiled_as (ds_TableFilter d) (ds_tableFilterPatterns d) ∧ compiled_as (ds_IgnoreTables d) (ds_ignoreTablePatterns d)
  else compiles d → ds_tableFilterPatterns d = [] ∧ ds_ignoreTablePatterns d = [].

Definition same_config (d d' : DatabaseScope) : Prop :=
  ds_Names d' = ds_Names d ∧ ds_TableFilter d' = ds_TableFilter d ∧ ds_IgnoreTables d' = ds_IgnoreTables d.

Lemma compile_onto_spec patterns : ∀ acc acc' r,
  compile_onto patterns acc = (acc', r) →
  match r with
  | None => ∃ res, compiled_as patterns res ∧ acc' = acc ++ res
  | Some _ => ¬ ∃ res, compiled_as patterns res
  end.
Proof.
  induction patterns as [|p patterns IH]; intros acc acc' r; cbn.
  - intros [= <- <-]. exists []. rewrite app_nil_r. by split; [constructor|].
  - destruct (regexp_Compile p) as [re|e] eqn:E.
    + intros Hc. specialize (IH _ _ _ Hc). destruct r as [e|].
      * intros (res & Hres). inversion Hres; subst. apply IH. by eexists.
      * destruct IH as (res & Hres & ->). exists (re :: res). rewrite <- app_assoc. by split; [constructor|].
    + intros [= <- <-] (res & Hres). inversion Hres; subst. congruence.
Qed.

Lemma compilePatterns_spec d d' r :
  scope_ok d → compilePatterns d = (d', r) →
  same_config d d' ∧ scope_ok d' ∧
  match r with
  | Ok _ => compiled_as (ds_TableFilter d) (ds_tableFilterPatterns d') ∧
            compiled_as (ds_IgnoreTables d) (ds_ignoreTablePatterns d')
  | Err _ => ¬ compiles d
  end.
Proof.
  unfold compilePatterns, scope_ok at 1. destruct (ds_compiled d) eqn:Ec.
  - intros Hok [= <- <-]. unfold scope_ok. rewrite Ec. by split.
  - intros Hok. destruct (compile_onto (ds_TableFilter d) _) as [fs r1] eqn:E1.
    apply compile_onto_spec in E1. destruct r1 as [e|].
    + intros [= <- <-]. assert (Hn : ¬ compiles d) by (intros (f & g & Hf & _); apply E1; by exists f).
      split_and!; [done..|]. done.
    + destruct E1 as (f & Hf & ->). destruct (compile_onto (ds_IgnoreTables d) _) as [gs r2] eqn:E2.
      apply compile_onto_spec in E2. destruct r2 as [e|]; intros [= <- <-].
      * assert (Hn : ¬ compiles d) by (intros (? & g & _ & Hg); apply E2; by exists g). split_and!; [done..|]. done.
      * destruct E2 as (g & Hg & ->). destruct Hok as [-> ->]; [by exists f, g|]. cbn. by split_and!.
Qed.

Lemma existsb_bool_decide (l : list string) s : existsb (λ n, bool_decide (n = s)) l = true ↔ s ∈ l.
Proof.
  rewrite existsb_exists. split.
  - intros (x & Hx & ->%bool_decide_eq_true_1). by apply list_elem_of_In.
  - intros Hs. exists s. split; [by apply list_elem_of_In|by apply bool_decide_eq_true_2].
Qed.

Lemma ShouldSyncDatabase_spec d db :
  ShouldSyncDatabase d db = true ↔ IsWildcardDatabase d = true ∨ db ∈ ds_Names d.
Proof. unfold ShouldSyncDatabase. by rewrite orb_true_iff, existsb_bool_decide. Qed.

Lemma existsb_compiled patterns res name :
  compiled_as patterns res →
  existsb (λ re, MatchString re name) res = true ↔
  ∃ p re, p ∈ patterns ∧ regexp_Compile p = Ok re ∧ MatchString re name = true.
Proof.
  induction 1 as [|p re patterns res Hp _ IH]; cbn.
  - split; [done|]. by intros (? & ? & ?%elem_of_nil & _).
  - rewrite orb_true_iff, IH. split.
    + intros [Hm|(p' & re' & Hin & Hc & Hm)]; [exists p, re|exists p', re']; (split; [|done]).
      * apply list_elem_of_here.
      * by apply list_elem_of_further.
    + intros (p' & re' & [->|Hin]%elem_of_cons & Hc & Hm); [left; congruence|right; by exists p', re'].
Qed.

Lemma ShouldSyncTable_spec d db tb d' b :
  scope_ok d → ShouldSyncTable db tb d = (d', b) →
  same_config d d' ∧ scope_ok d' ∧ (b = true ↔ table_in_scope d db tb).
Proof.
  intros Hok. unfold ShouldSyncTable, table_in_scope. pose proof (ShouldSyncDatabase_spec d db) as Hdb.
  destruct (ShouldSyncDatabase d db); cbn [negb].
  2: { intros [= <- <-]. split_and!; [done|done|]. split; [done|]. intros (Hin & _). by apply Hdb. }
  destruct (compilePatterns d) as [d1 r] eqn:Ec. destruct (compilePatterns_spec _ _ _ Hok Ec) as (Hsame & Hok1 & Hr).
  destruct r as [[]|e].
  2: { intros [= <- <-]. split_and!; [done|done|]. split; [done|]. by intros (_ & Hcomp & _). }
  destruct Hr as [Hf Hg]. set (full := db +:+ "." +:+ tb).
  pose proof (existsb_compiled _ _ full Hf) as Hexf. pose proof (existsb_compiled _ _ full Hg) as Hexg.
  assert (Hcomp : compiles d) by (by exists (ds_tableFilterPatterns d1), (ds_ignoreTablePatterns d1)).
  destruct (existsb _ (ds_ignoreTablePatterns d1)).
  - intros [= <- <-]. split_and!; [done|done|]. split; [done|]. intros (_ & _ & Hno & _).
    destruct (proj1 Hexg eq_refl) as (p & re & Hin & Hc & Hm). rewrite (Hno p re Hin Hc) in Hm. done.
  - assert (Hno : ∀ p re, p ∈ ds_IgnoreTables d → regexp_Compile p = Ok re → MatchString re full = false).
    { intros p re Hin Hc. apply not_true_iff_false. intros Hm. assert (false = true); [|done]. apply Hexg. by exists p, re. }
    destruct (ds_tableFilterPatterns d1) as [|re res] eqn:Efp; intros [= <- <-]; (split_and!; [done|done|]).
    + split; [|done]. intros _. split_and!; [by apply Hdb|done|done|left]. by inversion Hf.
    + rewrite Hexf. split.
      * intros Hex. split_and!; [by apply Hdb|done|done|by right].
      * intros (_ & _ & _ & [Hnil|Hex]); [|done]. rewrite Hnil in Hf. inversion Hf.
Qed.

(** The answers to a sequence of questions to one scope. *)
Fixpoint ask_all (qs : list (string * string)) (d : DatabaseScope) : DatabaseScope * list bool :=
  match qs with
  | [] => (d, [])
  | q :: qs =>
      let '(d, b) := ShouldSyncTable q.1 q.2 d in
      let '(d, bs) := ask_all qs d in (d, b :: bs)
  end.

Lemma table_in_scope_config d d' db tb : same_config d d' → table_in_scope d' db tb ↔ table_in_scope d db tb.
Proof.
  intros (Hn & Hf & Hi). unfold table_in_scope, compiles, IsWildcardDatabase. by rewrite Hn, Hf, Hi.
Qed.

Lemma ask_all_spec qs : ∀ d d' bs,
  scope_ok d → ask_all qs d = (d', bs) →
  Forall2 (λ q b, b = true ↔ table_in_scope d q.1 q.2) qs bs.
Proof.
  induction qs as [|q qs IH]; intros d d' bs Hok; cbn; [intros [= <- <-]; constructor|].
  destruct (ShouldSyncTable q.1 q.2 d) as [d1 b] eqn:E1. destruct (ask_all qs d1) as [d2 bs2] eqn:E2.
  intros [= <- <-]. destruct (ShouldSyncTable_spec _ _ _ _ _ Hok E1) as (Hsame & Hok1 & Hb).
  constructor; [done|]. eapply Forall2_impl; [by eapply IH|]. intros q' b' Hq'. cbn in Hq'.
  by rewrite Hq', table_in_scope_config.
Qed.

(** The scope of a database-level synchronisation, asked any number of times:
    every answer is the one its configuration gives -- the database is listed or all
    are, no ignore pattern matches, and a filter matches if there are any -- although
    the patterns are compiled at the first question; with a pattern that does not
    compile nothing is in scope. *)
Theorem scope_answers (names filters ignores : list string) (ddl : bool) (qs : list (string * string)) :
  let d := mkDatabaseScope names ddl filters ignores [] [] false in
  Forall2 (λ q b, b = true ↔ table_in_scope d q.1 q.2) qs (ask_all qs d).2.
Proof.
  cbn zeta. set (d := mkDatabaseScope _ _ _ _ _ _ _). destruct (ask_all qs d) as [d' bs] eqn:E.
  cbn [snd]. eapply ask_all_spec; [|exact E]. by intros _.
Qed.

(** ** table_manager.go *)

Definition tableKey (database table : string) : string := database +:+ "." +:+ table.

(** The error carries the code of [ErrInvalidConfig]. *)
Definition parseTableName (name : string) : result (string * string) :=
  match split_first dot name with
  | Some (d, t) =>
      if bool_decide (d = "") || bool_decide (t = "") then Err (ErrCodeArgs "DS:Source:InvalidConfig" name) else Ok (d, t)
  | None => Err (ErrCodeArgs "DS:Source:InvalidConfig" name)
  end.

Inductive TableOperationType := TableOpAdd | TableOpRemove | TableOpPause | TableOpResume.

Record TableOperationEvent := mkTableOperationEvent {
  to_Operation : TableOperationType;
  to_TableID : TableID;
  to_Schema : option TableInfo;
  to_Timestamp : time
}.

Inductive TableSyncStatus :=
  TableStatusPending | TableStatusSnapshot | TableStatusStreaming | TableStatusPaused | TableStatusError.

#[export] Instance TableSyncStatus_eq_dec : EqDecision TableSyncStatus.
Proof. solve_decision. Defined.

Record TableSyncState := mkTableSyncState {
  tss_TableID : TableID;
  tss_Status : TableSyncStatus;
  tss_Schema : option TableInfo;
  tss_AddedAt : time;
  tss_SyncStarted : time;
  tss_PausedAt : time
}.

(** [tm_eventCh] is what has been sent, when there is a channel. *)
Record TableManager := mkTableManager {
  tm_scope : option TableScope;
  tm_eventCh : option (list TableOperationEvent);
  tm_syncTables : gmap string TableSyncState
}.

Definition NewTableManager (now : time) (scope : option TableScope) (eventCh : option (list TableOperationEvent)) :
    TableManager :=
  mkTableManager scope eventCh
    (match scope with
     | Some s =>
         foldl (λ m en, <[tableKey (te_Database en) (te_Table en) :=
             mkTableSyncState (mkTableID (te_Database en) "" (te_Table en)) TableStatusPending None now 0 0]> m)
           ∅ (ParseTableNames s)
     | None => ∅
     end).

(** Sending the events one by one; [ctx i] is the error of the context when the send
    of the event [i] has to give up. *)
Fixpoint send_events (ctx : nat → option goerror) (i : nat) (events : list TableOperationEvent)
    (sent : list TableOperationEvent) : list TableOperationEvent * result unit :=
  match events with
  | [] => (sent, Ok tt)
  | ev :: events =>
      match ctx i with
      | Some e => (sent, Err e)
      | None => send_events ctx (S i) events (sent ++ [ev])
      end
  end.

Definition emit_events (ctx : nat → option goerror) (events : list TableOperationEvent) : ST TableManager unit := λ tm,
  match tm_eventCh tm with
  | None => (tm, Ok tt)
  | Some sent =>
      let '(sent', r) := send_events ctx 0 events sent in
      (mkTableManager (tm_scope tm) (Some sent') (tm_syncTables tm), r)
  end.

Section Fetch.
(** The schema fetcher, when there is one. *)
Context (fetch : option (string → string → result TableInfo)).

Definition fetch_schema (database table : string) : result (option TableInfo) :=
  match fetch with
  | None => Ok None
  | Some f => match f database table with Ok i => Ok (Some i) | Err e => Err e end
  end.

(** The critical section of [AddTables]: the tables are added until one fails; the
    events collected so far are then lost. *)
Fixpoint add_tables (now : time) (tables : list string) (events : list TableOperationEvent) (tm : TableManager) :
    TableManager * result (list TableOperationEvent) :=
  match tables with
  | [] => (tm, Ok events)
  | name :: tables =>
      match parseTableName name with
      | Err e => (tm, Err e)
      | Ok (database, table) =>
          let key := tableKey database table in
          match tm_syncTables tm !! key with
          | Some _ => (tm, Err (ErrCodeArgs "DS:Source:TableAlreadyExists" name))
          | None =>
              match fetch_schema database table with
              | Err e => (tm, Err e)
              | Ok schema =>
                  let tableID := mkTableID database "" table in
                  let tm :=
                    mkTableManager
                      ((λ s, mkTableScope (ts_Names s ++ [name]) (ts_EnableDDL s)) <$> tm_scope tm)
                      (tm_eventCh tm)
                      (<[key := mkTableSyncState tableID TableStatusPending schema now 0 0]> (tm_syncTables tm)) in
                  let events :=
                    match tm_eventCh tm with
                    | Some _ => events ++ [mkTableOperationEvent TableOpAdd tableID schema now]
                    | None => events
                    end in
                  add_tables now tables events tm
              end
          end
      end
  end.

Definition AddTables (now : time) (ctx : nat → option goerror) (tables : list string) : ST TableManager unit := λ tm,
  match add_tables now tables [] tm with
  | (tm, Err e) => (tm, Err e)
  | (tm, Ok events) => emit_events ctx events tm
  end.
End Fetch.

Fixpoint remove_tables (now : time) (tables : list string) (events : list TableOperationEvent) (tm : TableManager) :
    TableManager * result (list TableOperationEvent) :=
  match tables with
  | [] => (tm, Ok events)
  | name :: tables =>
      match parseTableName name with
      | Err e => (tm, Err e)
      | Ok (database, table) =>
          let key := tableKey database table in
          match tm_syncTables tm !! key with
          | None => (tm, Err (ErrCodeArgs "DS:Source:TableNotFound" name))
          | Some state =>
              let tm :=
                mkTableManager
                  ((λ s, mkTableScope (List.filter (λ n, negb (bool_decide (n = name))) (ts_Names s)) (ts_EnableDDL s))
                     <$> tm_scope tm)
                  (tm_eventCh tm) (delete key (tm_syncTables tm)) in
              let events :=
                match tm_eventCh tm with
                | Some _ => events ++ [mkTableOperationEvent TableOpRemove (tss_TableID state) (tss_Schema state) now]
                | None => events
                end in
              remove_tables now tables events tm
          end
      end
  end.

Definition RemoveTables (now : time) (ctx : nat → option goerror) (tables : list string) : ST TableManager unit := λ tm,
  match remove_tables now tables [] tm with
  | (tm, Err e) => (tm, Err e)
  | (tm, Ok events) => emit_events ctx events tm
  end.

Definition HasTable (tm : TableManager) (database table : string) : bool :=
  bool_decide (is_Some (tm_syncTables tm !! tableKey database table)).

Definition GetTableState (tm : TableManager) (database table : string) : result TableSyncState :=
  match tm_syncTables tm !! tableKey database table with
  | Some st => Ok st
  | None => Err (ErrCodeArgs "DS:Source:TableNotFound" (tableKey database table))
  end.

Definition update_state (database table : string) (f : TableSyncState → TableSyncState) : ST TableManager unit := λ tm,
  let key := tableKey database table in
  match tm_syncTables tm !! key with
  | None => (tm, Err (ErrCodeArgs "DS:Source:TableNotFound" key))
  | Some st => (mkTableManager (tm_scope tm) (tm_eventCh tm) (<[key := f st]> (tm_syncTables tm)), Ok tt)
  end.

Definition UpdateTableStatus (now : time) (database table : string) (status : TableSyncStatus) : ST TableManager unit :=
  update_state database table (λ st,
    mkTableSyncState (tss_TableID st) status (tss_Schema st) (tss_AddedAt st)
      (if bool_decide (status = TableStatusStreaming) && time_IsZero (tss_SyncStarted st) then now else tss_SyncStarted st)
      (tss_PausedAt st)).

Definition PauseTable (now : time) (ctx : nat → option goerror) (database table : string) : ST TableManager unit :=
  update_state database table (λ st,
    mkTableSyncState (tss_TableID st) TableStatusPaused (tss_Schema st) (tss_AddedAt st) (tss_SyncStarted st) now) ≫= λ _,
  emit_events ctx [mkTableOperationEvent TableOpPause (mkTableID database "" table) None now].

Definition ResumeTable (now : time) (ctx : nat → option goerror) (database table : string) : ST TableManager unit :=
  update_state database table (λ st,
    mkTableSyncState (tss_TableID st) TableStatusPending (tss_Schema st) (tss_AddedAt st) (tss_SyncStarted st) 0) ≫= λ _,
  emit_events ctx [mkTableOperationEvent TableOpResume (mkTableID database "" table) None now].

(** *** The scope and the manager agree *)

Inductive tm_op :=
  | OpAdd (fetch : option (string → string → result TableInfo)) (now : time) (ctx : nat → option goerror) (tables : list string)
  | OpRemove (now : time) (ctx : nat → option goerror) (tables : list string)
  | OpStatus (now : time) (database table : string) (status : TableSyncStatus)
  | OpPause (now : time) (ctx : nat → option goerror) (database table : string)
  | OpResume (now : time) (ctx : nat → option goerror) (database table : string).

Definition tm_perform (tm : TableManager) (op : tm_op) : TableManager :=
  match op with
  | OpAdd fetch now ctx tables => (AddTables fetch now ctx tables tm).1
  | OpRemove now ctx tables => (RemoveTables now ctx tables tm).1
  | OpStatus now d t st => (UpdateTableStatus now d t st tm).1
  | OpPause now ctx d t => (PauseTable now ctx d t tm).1
  | OpResume now ctx d t => (ResumeTable now ctx d t tm).1
  end.

(** A name with a dot is in the scope exactly when it is in the map. *)
Definition agree (tm : TableManager) : Prop :=
  ∃ s, tm_scope tm = Some s ∧
  ∀ name, has_char dot name = true → (name ∈ ts_Names s ↔ is_Some (tm_syncTables tm !! name)).

Lemma has_char_split name : has_char dot name = true → ∃ d t, split_first dot name = Some (d, t).
Proof.
  induction name as [|a name IH]; cbn [has_char split_first]; [done|]. case_bool_decide; cbn [orb]; [by intros _; eexists _, _|].
  intros Hn. destruct (IH Hn) as (d & t & ->). by eexists _, _.
Qed.

Lemma split_tableKey name d t : split_first dot name = Some (d, t) → tableKey d t = name.
Proof. intros H%split_first_inv. by destruct H as [-> _]. Qed.

Lemma tableKey_dot d t : has_char dot (tableKey d t) = true.
Proof.
  unfold tableKey. induction d as [|a d IH].
  - done.
  - rewrite string_app_cons. cbn [has_char]. by rewrite IH, orb_true_r.
Qed.

Lemma parseTableName_key name d t : parseTableName name = Ok (d, t) → tableKey d t = name ∧ has_char dot name = true.
Proof.
  unfold parseTableName. destruct (split_first dot name) as [[d' t']|] eqn:E; [|done].
  destruct (_ || _); [done|]. intros [= -> ->]. split; [by apply split_tableKey|].
  rewrite <- (split_tableKey _ _ _ E). apply tableKey_dot.
Qed.

Lemma emit_events_agree ctx events tm : agree tm → agree (emit_events ctx events tm).1.
Proof.
  unfold emit_events. destruct (tm_eventCh tm); [|done]. destruct (send_events _ _ _ _) as [sent r]. done.
Qed.

Lemma add_tables_agree fetch now tables : ∀ events tm, agree tm → agree (add_tables fetch now tables events tm).1.
Proof.
  induction tables as [|name tables IH]; intros events tm Ha; cbn [add_tables]; [done|].
  destruct (parseTableName name) as [[d t]|e] eqn:Ep; [|done]. destruct (parseTableName_key _ _ _ Ep) as [Hk _].
  rewrite Hk. destruct (tm_syncTables tm !! name); [done|]. destruct (fetch_schema fetch d t); [|done].
  apply IH. destruct Ha as (s & Es & Ha). cbn. rewrite Es. eexists. split; [reflexivity|]. intros n Hn. cbn.
  rewrite elem_of_app, list_elem_of_singleton, (Ha n Hn), lookup_insert_is_Some.
  destruct (decide (name = n)); naive_solver.
Qed.

Lemma remove_tables_agree now tables : ∀ events tm, agree tm → agree (remove_tables now tables events tm).1.
Proof.
  induction tables as [|name tables IH]; intros events tm Ha; cbn [remove_tables]; [done|].
  destruct (parseTableName name) as [[d t]|e] eqn:Ep; [|done]. destruct (parseTableName_key _ _ _ Ep) as [Hk _].
  rewrite Hk. destruct (tm_syncTables tm !! name) as [state|]; [|done].
  apply IH. destruct Ha as (s & Es & Ha). cbn. rewrite Es. eexists. split; [reflexivity|]. intros n Hn. cbn.
  rewrite list_elem_of_In, filter_In, <- list_elem_of_In, negb_true_iff, bool_decide_eq_false, (Ha n Hn).
  rewrite lookup_delete_is_Some. naive_solver.
Qed.

Lemma update_state_agree d t f tm : agree tm → agree (update_state d t f tm).1.
Proof.
  intros Ha. unfold update_state. destruct (tm_syncTables tm !! tableKey d t) as [st|] eqn:E; [|done].
  destruct Ha as (s & Es & Ha). exists s. split; [done|]. intros n Hn. cbn. rewrite (Ha n Hn), lookup_insert_is_Some.
  destruct (decide (tableKey d t = n)) as [<-|]; [rewrite E|]; naive_solver.
Qed.

Lemma tm_perform_agree tm op : agree tm → agree (tm_perform tm op).
Proof.
  intros Ha. destruct op as [fetch now ctx tables|now ctx tables|now d t st|now ctx d t|now ctx d t]; cbn [tm_perform].
  - unfold AddTables. pose proof (add_tables_agree fetch now tables [] tm Ha) as H.
    destruct (add_tables _ _ _ _ _) as [tm' [evs|e]]; [by apply emit_events_agree|done].
  - unfold RemoveTables. pose proof (remove_tables_agree now tables [] tm Ha) as H.
    destruct (remove_tables _ _ _ _) as [tm' [evs|e]]; [by apply emit_events_agree|done].
  - by apply update_state_agree.
  - unfold PauseTable, mbind, ST_bind. match goal with |- context [update_state d t ?f tm] =>
      pose proof (update_state_agree d t f tm Ha) as H; destruct (update_state d t f tm) as [tm' [[]|e]] end;
      [by apply emit_events_agree|done].
  - unfold ResumeTable, mbind, ST_bind. match goal with |- context [update_state d t ?f tm] =>
      pose proof (update_state_agree d t f tm Ha) as H; destruct (update_state d t f tm) as [tm' [[]|e]] end;
      [by apply emit_events_agree|done].
Qed.

Lemma NewTableManager_agree now scope ch : agree (NewTableManager now (Some scope) ch).
Proof.
  exists scope. split; [done|]. intros name Hn. cbn [NewTableManager tm_syncTables].
  set (entry := λ m en, <[tableKey (te_Database en) (te_Table en) :=
     mkTableSyncState (mkTableID (te_Database en) "" (te_Table en)) TableStatusPending None now 0 0]> m).
  assert (Hfold : ∀ ens m, is_Some (foldl entry m ens !! name) ↔
    is_Some (m !! name) ∨ ∃ en, en ∈ ens ∧ tableKey (te_Database en) (te_Table en) = name).
  { induction ens as [|en ens IH]; intros m; cbn [foldl].
    - split; [by left|]. intros [?|(? & ?%elem_of_nil & _)]; done.
    - rewrite IH. subst entry. cbn beta. rewrite lookup_insert_is_Some. setoid_rewrite elem_of_cons. split.
      + intros [[?|[_ ?]]|(en' & ? & ?)]; [right; exists en; eauto|by left|right; exists en'; eauto].
      + intros [?|(en' & [->|?] & ?)]; [|left; by left|right; eauto].
        destruct (decide (tableKey (te_Database en) (te_Table en) = name)); left; [by left|by right]. }
  rewrite Hfold, lookup_empty. unfold ParseTableNames. setoid_rewrite list_elem_of_omap. split.
  - intros Hin. right. destruct (has_char_split _ Hn) as (d & t & E). exists (mkTableScopeEntry d t). split.
    + exists name. split; [done|]. cbv beta. by rewrite E.
    + by apply split_tableKey.
  - intros [[]%is_Some_None|(en & (n & Hin & E) & Hk)].
    destruct (split_first dot n) as [[d t]|] eqn:Es; [|done]. injection E as <-. cbn in Hk.
    rewrite (split_tableKey _ _ _ Es) in Hk. by subst.
Qed.

(** The table manager keeps the scope of a table-level synchronisation and its
    own map in step: after any sequence of operations, also ones that fail half way,
    a table is in the scope exactly when the manager has it. *)
Theorem table_manager_scope (now : time) (scope : TableScope) (ch : option (list TableOperationEvent)) (ops : list tm_op) :
  let tm := foldl tm_perform (NewTableManager now (Some scope) ch) ops in
  ∃ s, tm_scope tm = Some s ∧ ∀ d t, TableScope_ShouldSyncTable s d t = HasTable tm d t.
Proof.
  cbn zeta. assert (Ha : agree (foldl tm_perform (NewTableManager now (Some scope) ch) ops)).
  { pose proof (NewTableManager_agree now scope ch) as H0. revert H0. generalize (NewTableManager now (Some scope) ch).
    induction ops as [|op ops IH]; intros tm Ha; [done|]. cbn. by apply IH, tm_perform_agree. }
  destruct Ha as (s & Hs & Ha). exists s. split; [done|]. intros d t. specialize (Ha _ (tableKey_dot d t)).
  unfold TableScope_ShouldSyncTable, HasTable.
  apply eq_true_iff_eq. by rewrite existsb_bool_decide, bool_decide_eq_true, <- Ha.
Qed.

(** ** discovery.go and database_discovery.go *)

(** [parser.DDLType] is a string type. *)
Definition DDLTypeCreateDatabase : string := "create_database".
Definition DDLTypeDropDatabase : string := "drop_database".
Definition DDLTypeCreateTable : string := "create_table".
Definition DDLTypeDropTable : string := "drop_table".
Definition DDLTypeAlterTable : string := "alter_table".

Inductive DiscoveryType :=
  | DiscoveryTypeDatabaseCreated | DiscoveryTypeDatabaseDropped
  | DiscoveryTypeTableCreated | DiscoveryTypeTableDropped | DiscoveryTypeTableAltered.

Record DiscoveryEvent := mkDiscoveryEvent {
  de_Type : DiscoveryType;
  de_Database : string;
  de_Table : string;
  de_Timestamp : time
}.

(** *** discovery.go *)

Record DDLEvent := mkDDLEvent { ddl_Database : string; ddl_Table : string; ddl_Type : string }.

(** [dx_sent] is what has been sent, when there is a channel. *)
Record DDLDiscovery := mkDDLDiscovery {
  dx_scope : DatabaseScope;
  dx_knownDBs : gset string;
  dx_knownTables : gset string;
  dx_sent : option (list DiscoveryEvent)
}.

Definition NewDDLDiscovery (scope : DatabaseScope) (initialDBs initialTables : gset string)
    (ch : option (list DiscoveryEvent)) : DDLDiscovery := mkDDLDiscovery scope initialDBs initialTables ch.

Definition dx_emit (now : time) (room : bool) (typ : DiscoveryType) (db tb : string) (dbs tables : gset string)
    (d : DDLDiscovery) : DDLDiscovery :=
  mkDDLDiscovery (dx_scope d) dbs tables
    ((λ sent, if room then sent ++ [mkDiscoveryEvent typ db tb now] else sent) <$> dx_sent d).

Definition HandleDDL (now : time) (room : bool) (e : DDLEvent) (d : DDLDiscovery) : DDLDiscovery :=
  let db := ddl_Database e in
  let key := db +:+ "." +:+ ddl_Table e in
  let t := ddl_Type e in
  if bool_decide (t = DDLTypeCreateDatabase) then
    if negb (IsWildcardDatabase (dx_scope d)) then d
    else if bool_decide (db ∈ dx_knownDBs d) then d
    else dx_emit now room DiscoveryTypeDatabaseCreated db "" ({[db]} ∪ dx_knownDBs d) (dx_knownTables d) d
  else if bool_decide (t = DDLTypeDropDatabase) then
    if bool_decide (db ∈ dx_knownDBs d) then
      dx_emit now room DiscoveryTypeDatabaseDropped db "" (dx_knownDBs d ∖ {[db]}) (dx_knownTables d) d
    else d
  else if bool_decide (t = DDLTypeCreateTable) then
    if negb (ShouldSyncDatabase (dx_scope d) db) then d
    else if bool_decide (key ∈ dx_knownTables d) then d
    else dx_emit now room DiscoveryTypeTableCreated db (ddl_Table e) (dx_knownDBs d) ({[key]} ∪ dx_knownTables d) d
  else if bool_decide (t = DDLTypeDropTable) then
    if negb (ShouldSyncDatabase (dx_scope d) db) then d
    else if bool_decide (key ∈ dx_knownTables d) then
      dx_emit now room DiscoveryTypeTableDropped db (ddl_Table e) (dx_knownDBs d) (dx_knownTables d ∖ {[key]}) d
    else d
  else if bool_decide (t = DDLTypeAlterTable) then
    if negb (ShouldSyncDatabase (dx_scope d) db) then d
    else dx_emit now room DiscoveryTypeTableAltered db (ddl_Table e) (dx_knownDBs d) (dx_knownTables d) d
  else d.

(** The tables announced so far, and those known. *)
Definition announces (d : DDLDiscovery) (e : DiscoveryEvent) : Prop :=
  de_Type e = DiscoveryTypeTableCreated ∧ ∃ sent, dx_sent d = Some sent ∧ e ∈ sent.

(** A DDL on a database announces no table and leaves the known ones. *)
Lemma HandleDDL_database now room db tb t d :
  t = DDLTypeDropDatabase ∨ t = DDLTypeCreateDatabase →
  dx_knownTables (HandleDDL now room (mkDDLEvent db tb t) d) = dx_knownTables d ∧
  ∀ e, announces (HandleDDL now room (mkDDLEvent db tb t) d) e → announces d e.
Proof.
  intros [-> | ->]; unfold HandleDDL; cbn [ddl_Type]; rewrite ?bool_decide_eq_false_2, ?bool_decide_eq_true_2 by done;
    repeat case_match; (split; [done|]); try done; intros e (Ht & sent & Hs & He); (split; [done|]);
    cbn [dx_emit dx_sent] in Hs; destruct (dx_sent d) as [s0|]; simplify_eq/=; exists s0; (split; [done|]);
    destruct room; [|done| |done]; apply elem_of_app in He as [He|He]; try done;
    apply list_elem_of_singleton in He as ->; discriminate Ht.
Qed.

Lemma HandleDDL_known_table now room db tb d :
  tableKey db tb ∈ dx_knownTables d → HandleDDL now room (mkDDLEvent db tb DDLTypeCreateTable) d = d.
Proof.
  intros Hk. unfold HandleDDL. cbn [ddl_Type ddl_Database ddl_Table].
  rewrite !(bool_decide_eq_false_2 (DDLTypeCreateTable = _)), (bool_decide_eq_true_2 (_ = DDLTypeCreateTable)) by done.
  rewrite (bool_decide_eq_true_2 _ Hk). by destruct (negb _).
Qed.

(** This discovery keeps the tables of a dropped database: when the database and the
    table come back, the table is not announced. *)
Theorem recreated_table_not_announced (now : time) (d : DDLDiscovery) (db tb : string) :
  tableKey db tb ∈ dx_knownTables d →
  let d' := foldl (λ d t, HandleDDL now true (mkDDLEvent db tb t) d) d
              [DDLTypeDropDatabase; DDLTypeCreateDatabase; DDLTypeCreateTable] in
  ∀ e, announces d' e → announces d e.
Proof.
  intros Hk. cbn [foldl].
  destruct (HandleDDL_database now true db tb DDLTypeDropDatabase d) as [K1 A1]; [by left|].
  destruct (HandleDDL_database now true db tb DDLTypeCreateDatabase
              (HandleDDL now true (mkDDLEvent db tb DDLTypeDropDatabase) d)) as [K2 A2]; [by right|].
  rewrite HandleDDL_known_table by (by rewrite K2, K1). auto.
Qed.

(** *** database_discovery.go *)

(** What discovery asks of the connector. *)
Class TableAdder (C : Type) := { connector_AddTables : list string → ST C unit }.

Section Discovery.
Context {C : Type} `{TA : !TableAdder C}.

(** [dd_sent] is what has been sent on the event channel. *)
Record DatabaseDiscovery := mkDiscovery {
  dd_scope : DatabaseScope;
  dd_connector : option C;
  dd_knownDBs : gset string;
  dd_knownTables : gset string;
  dd_sent : list DiscoveryEvent;
  dd_closed : bool;
  dd_running : bool
}.

Definition NewDatabaseDiscovery (scope : DatabaseScope) (c : option C) : DatabaseDiscovery :=
  mkDiscovery scope c ∅ ∅ [] false false.

Definition Discovery_Start : ST DatabaseDiscovery unit := λ d,
  if dd_running d then (d, Err (ErrCode "DS:Source:AlreadyRunning"))
  else (mkDiscovery (dd_scope d) (dd_connector d) (dd_knownDBs d) (dd_knownTables d) (dd_sent d) (dd_closed d) true, Ok tt).

(** Closing a channel that is closed panics. *)
Definition Discovery_Stop : ST DatabaseDiscovery unit := λ d,
  if negb (dd_running d) then (d, Ok tt)
  else
    (mkDiscovery (dd_scope d) (dd_connector d) (dd_knownDBs d) (dd_knownTables d) (dd_sent d) true false,
     if dd_closed d then Err (Panic "close of closed channel") else Ok tt).

(** [emit] does not block: without room in the channel the event is lost. *)
Definition emit (now : time) (room : bool) (typ : DiscoveryType) (db tb : string) (d : DatabaseDiscovery) : DatabaseDiscovery :=
  if dd_closed d then d
  else
    mkDiscovery (dd_scope d) (dd_connector d) (dd_knownDBs d) (dd_knownTables d)
      (if room then dd_sent d ++ [mkDiscoveryEvent typ db tb now] else dd_sent d) (dd_closed d) (dd_running d).

Definition set_known (dbs tables : gset string) (d : DatabaseDiscovery) : DatabaseDiscovery :=
  mkDiscovery (dd_scope d) (dd_connector d) dbs tables (dd_sent d) (dd_closed d) (dd_running d).

Definition without_prefix (prefix : string) (s : gset string) : gset string :=
  filter (λ k, has_prefix prefix k = false) s.

(** In wildcard mode a new table that the filters let through is handed to the
    connector; its error is only logged. *)
Definition auto_add (db tb : string) (d : DatabaseDiscovery) : DatabaseDiscovery :=
  if negb (IsWildcardDatabase (dd_scope d)) then d
  else
    let '(scope, b) := ShouldSyncTable db tb (dd_scope d) in
    let connector :=
      if b && dd_running d then
        match dd_connector d with Some c => Some (connector_AddTables [tableKey db tb] c).1 | None => None end
      else dd_connector d in
    mkDiscovery scope connector (dd_knownDBs d) (dd_knownTables d) (dd_sent d) (dd_closed d) (dd_running d).

Definition resolveDDLType (e : ChangeEvent) : option string := ev_Metadata e ≫= lookup "ddl_type".

Definition OnDDLEvent (now : time) (room : bool) (e : ChangeEvent) (d : DatabaseDiscovery) : DatabaseDiscovery :=
  if negb (IsDDL e) then d
  else
    let db := ti_Database (ev_Table e) in
    let tb := ti_Table (ev_Table e) in
    let key := tableKey db tb in
    match resolveDDLType e with
    | None => d
    | Some t =>
        if bool_decide (t = DDLTypeCreateDatabase) then
          if negb (IsWildcardDatabase (dd_scope d)) then d
          else if bool_decide (db ∈ dd_knownDBs d) then d
          else emit now room DiscoveryTypeDatabaseCreated db "" (set_known ({[db]} ∪ dd_knownDBs d) (dd_knownTables d) d)
        else if bool_decide (t = DDLTypeDropDatabase) then
          if bool_decide (db ∈ dd_knownDBs d) then
            emit now room DiscoveryTypeDatabaseDropped db ""
              (set_known (dd_knownDBs d ∖ {[db]}) (without_prefix (db +:+ ".") (dd_knownTables d)) d)
          else d
        else if bool_decide (t = DDLTypeCreateTable) then
          if negb (ShouldSyncDatabase (dd_scope d) db) then d
          else if bool_decide (key ∈ dd_knownTables d) then d
          else
            auto_add db tb
              (emit now room DiscoveryTypeTableCreated db tb (set_known (dd_knownDBs d) ({[key]} ∪ dd_knownTables d) d))
        else if bool_decide (t = DDLTypeDropTable) then
          if negb (ShouldSyncDatabase (dd_scope d) db) then d
          else if bool_decide (key ∈ dd_knownTables d) then
            emit now room DiscoveryTypeTableDropped db tb (set_known (dd_knownDBs d) (dd_knownTables d ∖ {[key]}) d)
          else d
        else if bool_decide (t = DDLTypeAlterTable) then
          if negb (ShouldSyncDatabase (dd_scope d) db) then d
          else emit now room DiscoveryTypeTableAltered db tb d
        else d
    end.

(** A listener that keeps its own sets from the events. *)
Definition listen (k : gset string * gset string) (e : DiscoveryEvent) : gset string * gset string :=
  let '(dbs, tables) := k in
  match de_Type e with
  | DiscoveryTypeDatabaseCreated => ({[de_Database e]} ∪ dbs, tables)
  | DiscoveryTypeDatabaseDropped => (dbs ∖ {[de_Database e]}, without_prefix (de_Database e +:+ ".") tables)
  | DiscoveryTypeTableCreated => (dbs, {[tableKey (de_Database e) (de_Table e)]} ∪ tables)
  | DiscoveryTypeTableDropped => (dbs, tables ∖ {[tableKey (de_Database e) (de_Table e)]})
  | DiscoveryTypeTableAltered => (dbs, tables)
  end.

Definition follows (d : DatabaseDiscovery) : Prop :=
  foldl listen (∅, ∅) (dd_sent d) = (dd_knownDBs d, dd_knownTables d).

Lemma emit_follows now typ db tb d dbs tables :
  dd_closed d = false → follows d →
  listen (dd_knownDBs d, dd_knownTables d) (mkDiscoveryEvent typ db tb now) = (dbs, tables) →
  let d' := emit now true typ db tb (set_known dbs tables d) in
  follows d' ∧ dd_closed d' = false ∧ dd_scope d' = dd_scope d.
Proof.
  intros Hc Hf Hl. unfold emit, set_known. cbn. rewrite Hc. split_and!; [|done|done].
  unfold follows in *. cbn. rewrite foldl_app, Hf. cbn [foldl]. exact Hl.
Qed.

Lemma auto_add_follows db tb d :
  scope_ok (dd_scope d) → follows d ∧ dd_closed d = false →
  follows (auto_add db tb d) ∧ dd_closed (auto_add db tb d) = false ∧ scope_ok (dd_scope (auto_add db tb d)).
Proof.
  intros Hok [Hf Hc]. unfold auto_add. destruct (negb _); [done|].
  destruct (ShouldSyncTable db tb (dd_scope d)) as [scope b] eqn:E.
  destruct (ShouldSyncTable_spec _ _ _ _ _ Hok E) as (_ & Hok' & _). done.
Qed.

Lemma OnDDLEvent_follows now e d :
  scope_ok (dd_scope d) → follows d ∧ dd_closed d = false →
  let d' := OnDDLEvent now true e d in
  follows d' ∧ dd_closed d' = false ∧ scope_ok (dd_scope d').
Proof.
  intros Hok [Hf Hc]. cbn zeta. unfold OnDDLEvent. destruct (negb (IsDDL e)); [done|].
  destruct (resolveDDLType e) as [t|]; [|done].
  assert (Hemit : ∀ typ db tb dbs tables,
    listen (dd_knownDBs d, dd_knownTables d) (mkDiscoveryEvent typ db tb now) = (dbs, tables) →
    let d' := emit now true typ db tb (set_known dbs tables d) in
    follows d' ∧ dd_closed d' = false ∧ scope_ok (dd_scope d')).
  { intros typ db tb dbs tables Hl. destruct (emit_follows now typ db tb d dbs tables Hc Hf Hl) as (H1 & H2 & H3).
    cbn zeta. by rewrite H3. }
  repeat (case_bool_decide || case_match); try done; try by apply Hemit.
  - edestruct (Hemit DiscoveryTypeTableCreated (ti_Database (ev_Table e)) (ti_Table (ev_Table e)))
      as (Hx1 & Hx2 & Hx3); [reflexivity|]. by apply auto_add_follows.
  - destruct (Hemit DiscoveryTypeTableAltered (ti_Database (ev_Table e)) (ti_Table (ev_Table e))
      (dd_knownDBs d) (dd_knownTables d) eq_refl) as (Hx1 & Hx2 & Hx3). by destruct d.
Qed.

(** As long as the channel has room and is open, the events discovery sends are
    enough to follow it: a listener that applies them has exactly the databases and
    tables that discovery knows. *)
Theorem discovery_events_suffice (names filters ignores : list string) (ddl : bool) (c : option C)
    (events : list (time * ChangeEvent)) :
  let d := foldl (λ d x, OnDDLEvent x.1 true x.2 d)
             (NewDatabaseDiscovery (mkDatabaseScope names ddl filters ignores [] [] false) c) events in
  foldl listen (∅, ∅) (dd_sent d) = (dd_knownDBs d, dd_knownTables d).
Proof.
  cbn zeta. set (d0 := NewDatabaseDiscovery _ c).
  assert (H : ∀ d, scope_ok (dd_scope d) → follows d ∧ dd_closed d = false →
    follows (foldl (λ d x, OnDDLEvent x.1 true x.2 d) d events)).
  { induction events as [|x events IH]; intros d Hok Hf; [by destruct Hf|]. cbn.
    destruct (OnDDLEvent_follows x.1 x.2 d Hok Hf) as (H1 & H2 & H3). by apply IH. }
  apply H; [by intros _|by split].
Qed.
End Discovery.
End Scopes.
