(* ===== verification/Strings.v ===== *)
(** The functions of the standard library's [strings] package that the parsers,
    filters and storages use: searching, cutting, splitting, trimming and comparing
    without case; decimal numbers.  Strings are byte sequences; the functions that look at runes
    ([TrimSpace]) know the UTF-8 encodings of the Unicode white space. *)
From Stdlib Require Import ZArith Lia.
From Stdlib Require Import Ascii.
From Stdlib Require String.
From stdpp Require Import prelude strings list pretty.
From S2P Require Import Prelude.
Local Open Scope Z_scope.

(** ** Cutting and splitting *)

(** Drops the bytes of [p] from [s], which starts with them. *)
Fixpoint drop_prefix (p s : string) : string :=
  match p, s with
  | String _ p', String _ s' => drop_prefix p' s'
  | _, _ => s
  end.

(** [strings.Cut]: what precedes and follows the first occurrence of [sep]. *)
Fixpoint strings_Cut (sep s : string) : option (string * string) :=
  if has_prefix sep s then Some (EmptyString, drop_prefix sep s)
  else match s with
       | EmptyString => None
       | String a s' =>
           match strings_Cut sep s' with
           | Some (l, r) => Some (String a l, r)
           | None => None
           end
       end.

Definition strings_Contains (s sep : string) : bool :=
  match strings_Cut sep s with Some _ => true | None => false end.

(** [strings.Split] for a separator that is not empty: one round per occurrence, so
    that a round for each byte of the text is enough. *)
Fixpoint split_rounds (n : nat) (sep s : string) : list string :=
  match n with
  | O => [s]
  | S n =>
      match strings_Cut sep s with
      | Some (l, r) => l :: split_rounds n sep r
      | None => [s]
      end
  end.

Definition strings_Split (s sep : string) : list string := split_rounds (String.length s) sep s.

Lemma string_length_app (a b : string) : String.length (a +:+ b) = (String.length a + String.length b)%nat.
Proof. induction a as [|x a IH]; [done|]. rewrite string_app_cons. cbn. by rewrite IH. Qed.

Lemma has_prefix_app p s : has_prefix p (p +:+ s) = true.
Proof.
  induction p as [|x p IH]; [done|]. rewrite string_app_cons. cbn. rewrite IH, bool_decide_eq_true_2; done.
Qed.

Lemma has_prefix_inv p s : has_prefix p s = true → s = p +:+ drop_prefix p s.
Proof.
  revert s. induction p as [|x p IH]; intros s H; [by destruct s|].
  destruct s as [|y s]; cbn in H; [done|].
  apply andb_true_iff in H as [->%bool_decide_eq_true_1 H].
  cbn. rewrite string_app_cons. f_equal. auto.
Qed.

Lemma drop_prefix_app p s : drop_prefix p (p +:+ s) = s.
Proof. induction p as [|x p IH]; [by destruct s|done]. Qed.

Lemma has_prefix_mono p s b : has_prefix p s = true → has_prefix p (s +:+ b) = true.
Proof. intros H. rewrite (has_prefix_inv _ _ H), string_app_assoc. apply has_prefix_app. Qed.

Lemma strings_Cut_inv sep s l r : strings_Cut sep s = Some (l, r) → s = l +:+ sep +:+ r.
Proof.
  revert l r. induction s as [|a s IH]; intros l r; cbn;
    (destruct (has_prefix sep _) eqn:Hp; [intros [= <- <-]; rewrite string_app_nil_l; by apply has_prefix_inv|]); [done|].
  destruct (strings_Cut sep s) as [[l' r']|] eqn:E; [|done]. intros [= <- <-].
  rewrite string_app_cons. f_equal. auto.
Qed.

(** Text around an occurrence keeps it an occurrence. *)
Lemma strings_Contains_app_r s b sep : strings_Contains s sep = true → strings_Contains (s +:+ b) sep = true.
Proof.
  unfold strings_Contains. induction s as [|a s IH].
  - cbn. destruct (has_prefix sep "") eqn:Hp; [|done]. intros _. rewrite string_app_nil_l.
    apply (has_prefix_mono _ _ b) in Hp. rewrite string_app_nil_l in Hp. destruct b; cbn in *; by rewrite Hp.
  - rewrite string_app_cons. cbn [strings_Cut]. destruct (has_prefix sep (String a s)) eqn:Hp.
    + apply (has_prefix_mono _ _ b) in Hp. rewrite string_app_cons in Hp. by rewrite Hp.
    + destruct (has_prefix sep (String a (s +:+ b))); [done|].
      destruct (strings_Cut sep s) as [[]|] eqn:E; [|done]. intros _. specialize (IH eq_refl).
      by destruct (strings_Cut sep (s +:+ b)) as [[]|].
Qed.

Lemma strings_Contains_app_l a s sep : strings_Contains s sep = true → strings_Contains (a +:+ s) sep = true.
Proof.
  intros H. induction a as [|x a IH]; [done|]. rewrite string_app_cons. unfold strings_Contains in *.
  cbn. destruct (has_prefix _ _); [done|]. by destruct (strings_Cut sep (a +:+ s)) as [[]|].
Qed.

(** No occurrence lies before the one that is cut at. *)
Lemma strings_Cut_first sep s l r : sep ≠ "" → strings_Cut sep s = Some (l, r) → strings_Contains l sep = false.
Proof.
  intros Hsep. revert l r. induction s as [|a s IH]; intros l r; cbn [strings_Cut].
  - destruct sep; done.
  - destruct (has_prefix sep (String a s)) eqn:Hp; [intros [= <- <-]; by destruct sep|].
    destruct (strings_Cut sep s) as [[l' r']|] eqn:E; [|done]. intros [= <- <-].
    specialize (IH _ _ eq_refl). unfold strings_Contains in *. cbn [strings_Cut].
    destruct (has_prefix sep (String a l')) eqn:Hp'.
    + apply strings_Cut_inv in E as ->. apply (has_prefix_mono _ _ (sep +:+ r')) in Hp'.
      rewrite string_app_cons in Hp'. congruence.
    + by destruct (strings_Cut sep l') as [[]|].
Qed.

Lemma strings_Cut_shorter sep s l r :
  sep ≠ "" → strings_Cut sep s = Some (l, r) → (String.length r < String.length s)%nat.
Proof.
  intros Hsep ->%strings_Cut_inv. rewrite !string_length_app. destruct sep; [done|]. cbn. lia.
Qed.

(** A text without the first byte of the separator is cut at its end. *)
Lemma strings_Cut_app c sep l r :
  has_char c l = false → strings_Cut (String c sep) (l +:+ String c sep +:+ r) = Some (l, r).
Proof.
  induction l as [|a l IH]; intros H.
  - rewrite string_app_nil_l. rewrite string_app_cons. cbn [strings_Cut].
    rewrite <- string_app_cons, has_prefix_app, drop_prefix_app. done.
  - rewrite string_app_cons. cbn in H |- *. apply orb_false_iff in H as [Ha H].
    rewrite bool_decide_eq_false_2 by (apply bool_decide_eq_false_1 in Ha; congruence).
    cbn. by rewrite (IH H).
Qed.

Lemma has_char_no_sep c sep s : has_char c s = false → strings_Cut (String c sep) s = None.
Proof.
  induction s as [|a s IH]; [done|]. cbn. intros [Ha H]%orb_false_iff.
  rewrite bool_decide_eq_false_2 by (apply bool_decide_eq_false_1 in Ha; congruence).
  cbn. by rewrite (IH H).
Qed.

Lemma has_char_app c a b : has_char c (a +:+ b) = has_char c a || has_char c b.
Proof. induction a as [|x a IH]; [done|]. rewrite string_app_cons. cbn. by rewrite IH, orb_assoc. Qed.

(** The search goes past a byte that starts no occurrence, and past a text without the
    separator's first byte. *)
Lemma strings_Cut_cons sep a s :
  has_prefix sep (String a s) = false →
  strings_Cut sep (String a s) = (λ '(l, r), (String a l, r)) <$> strings_Cut sep s.
Proof. intros H. cbn [strings_Cut]. rewrite H. by destruct (strings_Cut sep s) as [[]|]. Qed.

Lemma strings_Cut_here sep s :
  has_prefix sep s = true → strings_Cut sep s = Some (EmptyString, drop_prefix sep s).
Proof. intros H. destruct s; cbn [strings_Cut]; by rewrite H. Qed.

Lemma strings_Cut_skip c sep l s :
  has_char c l = false →
  strings_Cut (String c sep) (l +:+ s) = (λ '(a, b), (l +:+ a, b)) <$> strings_Cut (String c sep) s.
Proof.
  induction l as [|x l IH]; intros H.
  - rewrite string_app_nil_l. by destruct (strings_Cut _ s) as [[]|].
  - cbn in H. apply orb_false_iff in H as [Hx%bool_decide_eq_false_1 H]. rewrite string_app_cons.
    rewrite strings_Cut_cons by (cbn; by rewrite bool_decide_eq_false_2 by congruence).
    rewrite (IH H). by destruct (strings_Cut _ s) as [[]|].
Qed.

(** *** Splitting *)

Lemma split_rounds_none n sep s : strings_Cut sep s = None → split_rounds n sep s = [s].
Proof. intros H. destruct n; cbn; [done|by rewrite H]. Qed.

Lemma split_rounds_no_sep n sep s :
  sep ≠ "" → (String.length s <= n)%nat → Forall (λ p, strings_Contains p sep = false) (split_rounds n sep s).
Proof.
  intros Hsep. revert s. induction n as [|n IH]; intros s Hn; cbn.
  - constructor; [|constructor]. destruct s; [by destruct sep|cbn in Hn; lia].
  - destruct (strings_Cut sep s) as [[l r]|] eqn:E.
    + constructor; [by eapply strings_Cut_first|]. apply IH.
      pose proof (strings_Cut_shorter _ _ _ _ Hsep E). lia.
    + constructor; [|constructor]. unfold strings_Contains. by rewrite E.
Qed.

(** The parts of a split do not contain the separator ... *)
Lemma strings_Split_no_sep s sep :
  sep ≠ "" → Forall (λ p, strings_Contains p sep = false) (strings_Split s sep).
Proof. intros. by apply split_rounds_no_sep. Qed.

Lemma split_rounds_nonempty n sep s : split_rounds n sep s ≠ [].
Proof. destruct n; cbn; [done|]. by destruct (strings_Cut sep s) as [[]|]. Qed.

Lemma join_split_rounds n sep s : join sep (split_rounds n sep s) = s.
Proof.
  revert s. induction n as [|n IH]; intros s; [done|]. cbn [split_rounds].
  destruct (strings_Cut sep s) as [[l r]|] eqn:E; [|done].
  pose proof (split_rounds_nonempty n sep r) as Hne. pose proof (IH r) as Hr.
  destruct (split_rounds n sep r) as [|p ps] eqn:Es; [done|].
  change (join sep (l :: p :: ps)) with (l +:+ sep +:+ join sep (p :: ps)).
  rewrite Hr. symmetry. by apply strings_Cut_inv.
Qed.

(** ... joining them gives the text back ... *)
Lemma join_Split s sep : join sep (strings_Split s sep) = s.
Proof. apply join_split_rounds. Qed.

Lemma split_rounds_join n c sep ps :
  ps ≠ [] → (length ps <= n + 1)%nat → Forall (λ p, has_char c p = false) ps →
  split_rounds n (String c sep) (join (String c sep) ps) = ps.
Proof.
  revert n. induction ps as [|p ps IH]; intros n Hne Hn Hps; [done|].
  inversion Hps as [|? ? Hp Hps']; subst.
  destruct ps as [|q ps]; [apply split_rounds_none; by apply has_char_no_sep|].
  destruct n as [|n]; [cbn in Hn; lia|]. cbn [split_rounds].
  change (join (String c sep) (p :: q :: ps)) with (p +:+ String c sep +:+ join (String c sep) (q :: ps)).
  rewrite strings_Cut_app by done. f_equal. apply IH; [done|cbn in *; lia|done].
Qed.

Lemma join_length c sep ps : (length ps <= String.length (join (String c sep) ps) + 1)%nat.
Proof.
  induction ps as [|p ps IH]; [cbn; lia|]. destruct ps as [|q ps]; [cbn; lia|].
  change (join (String c sep) (p :: q :: ps)) with (p +:+ String c sep +:+ join (String c sep) (q :: ps)).
  rewrite !string_length_app. cbn [length String.length] in *. lia.
Qed.

(** ... and parts without the separator's first byte are recovered from their join. *)
Lemma Split_join c sep ps :
  ps ≠ [] → Forall (λ p, has_char c p = false) ps →
  strings_Split (join (String c sep) ps) (String c sep) = ps.
Proof. intros. apply split_rounds_join; [done| |done]. pose proof (join_length c sep ps). lia. Qed.

(** ** White space *)

Definition byte1 (a : nat) : string := String (Ascii.ascii_of_nat a) EmptyString.
Definition byte2 (a b : nat) : string := String (Ascii.ascii_of_nat a) (byte1 b).
Definition byte3 (a b c : nat) : string := String (Ascii.ascii_of_nat a) (byte2 b c).

(** The UTF-8 encodings of the runes [unicode.IsSpace] accepts. *)
Definition space_runes : list string :=
  (byte1 <$> [9; 10; 11; 12; 13; 32]%nat) ++
  [byte2 194 133; byte2 194 160; byte3 225 154 128] ++
  (byte3 226 128 <$> [128; 129; 130; 131; 132; 133; 134; 135; 136; 137; 138; 168; 169; 175]%nat) ++
  [byte3 226 129 159; byte3 227 128 128].

Fixpoint string_rev_onto (s acc : string) : string :=
  match s with
  | EmptyString => acc
  | String a s' => string_rev_onto s' (String a acc)
  end.

Definition string_rev (s : string) : string := string_rev_onto s EmptyString.

Definition strip_one (ps : list string) (s : string) : option string :=
  match list_find (λ p, has_prefix p s = true) ps with
  | Some (_, p) => Some (drop_prefix p s)
  | None => None
  end.

Fixpoint strip_rounds (n : nat) (ps : list string) (s : string) : string :=
  match n with
  | O => s
  | S n =>
      match strip_one ps s with
      | Some s' => strip_rounds n ps s'
      | None => s
      end
  end.

Definition TrimLeft_space (s : string) : string := strip_rounds (String.length s) space_runes s.
Definition TrimRight_space (s : string) : string :=
  string_rev (strip_rounds (String.length s) (string_rev <$> space_runes) (string_rev s)).
Definition strings_TrimSpace (s : string) : string := TrimRight_space (TrimLeft_space s).

Lemma substring_middle a s b n :
  String.length s = n → String.substring 1 n (String a (s +:+ b)) = s.
Proof.
  intros <-. cbn. induction s as [|c s IH]; [by destruct b|]. rewrite string_app_cons. cbn. by rewrite IH.
Qed.

(** *** Lemmas on trimming *)

Lemma string_rev_onto_app s acc : string_rev_onto s acc = string_rev s +:+ acc.
Proof.
  unfold string_rev. revert acc. induction s as [|a s IH]; intros acc; [done|].
  cbn. rewrite (IH (String a acc)), (IH (String a EmptyString)), string_app_assoc. done.
Qed.

Lemma string_rev_cons a s : string_rev (String a s) = string_rev s +:+ String a EmptyString.
Proof. unfold string_rev. cbn. apply string_rev_onto_app. Qed.

Lemma string_rev_app a b : string_rev (a +:+ b) = string_rev b +:+ string_rev a.
Proof.
  induction a as [|x a IH]; [by rewrite string_app_nil_l, string_app_nil_r|].
  by rewrite string_app_cons, !string_rev_cons, IH, string_app_assoc.
Qed.

Lemma string_rev_involutive s : string_rev (string_rev s) = s.
Proof.
  induction s as [|a s IH]; [done|]. rewrite string_rev_cons, string_rev_app, IH. done.
Qed.

Lemma string_rev_length s : String.length (string_rev s) = String.length s.
Proof.
  induction s as [|a s IH]; [done|]. rewrite string_rev_cons, string_length_app, IH. cbn. lia.
Qed.

Lemma strip_one_inv ps s s' : strip_one ps s = Some s' → ∃ p, p ∈ ps ∧ s = p +:+ s'.
Proof.
  unfold strip_one. destruct (list_find _ ps) as [[i p]|] eqn:E; [|done]. intros [= <-].
  apply list_find_Some in E as (Hi & Hp & _). exists p. split; [by eapply list_elem_of_lookup_2|].
  by apply has_prefix_inv.
Qed.

Lemma strip_rounds_suffix n ps s : ∃ a, s = a +:+ strip_rounds n ps s.
Proof.
  revert s. induction n as [|n IH]; intros s; cbn; [by exists ""|].
  destruct (strip_one ps s) as [s'|] eqn:E; [|by exists ""].
  destruct (strip_one_inv _ _ _ E) as (p & _ & ->). destruct (IH s') as [a Ha].
  exists (p +:+ a). rewrite string_app_assoc. by rewrite <- Ha.
Qed.

(** Trimming takes text off the two ends only. *)
Lemma TrimSpace_infix s : ∃ a b, s = a +:+ strings_TrimSpace s +:+ b.
Proof.
  unfold strings_TrimSpace, TrimLeft_space, TrimRight_space.
  destruct (strip_rounds_suffix (String.length s) space_runes s) as [a Ha].
  set (t := strip_rounds _ _ s) in *.
  destruct (strip_rounds_suffix (String.length t) (string_rev <$> space_runes) (string_rev t)) as [b Hb].
  exists a, (string_rev b). rewrite <- string_rev_app, <- Hb, string_rev_involutive. done.
Qed.

Lemma Contains_TrimSpace s sep : strings_Contains s sep = false → strings_Contains (strings_TrimSpace s) sep = false.
Proof.
  intros H. destruct (strings_Contains (strings_TrimSpace s) sep) eqn:E; [|done].
  destruct (TrimSpace_infix s) as (a & b & Hs). rewrite <- H, Hs. symmetry.
  by apply strings_Contains_app_l, strings_Contains_app_r.
Qed.

(** Visible ASCII: neither white space nor a byte of a longer encoding. *)
Definition visible (c : Ascii.ascii) : bool :=
  let n := Ascii.N_of_ascii c in N.leb 33 n && N.leb n 126.

Definition visible_head (s : string) : bool :=
  match s with String a _ => visible a | EmptyString => false end.

(** Text that starts and ends with a visible character. *)
Definition neat (s : string) : bool := visible_head s && visible_head (string_rev s).

Fixpoint blanks (n : nat) : string :=
  match n with O => EmptyString | S n => String " "%char (blanks n) end.

Lemma blanks_length n : String.length (blanks n) = n.
Proof. induction n; cbn; congruence. Qed.

Lemma blanks_snoc n : blanks n +:+ " " = blanks (S n).
Proof. induction n as [|n IH]; [done|]. cbn [blanks]. rewrite string_app_cons, IH. done. Qed.

Lemma string_rev_blanks n : string_rev (blanks n) = blanks n.
Proof. induction n as [|n IH]; [done|]. cbn [blanks]. rewrite string_rev_cons, IH. apply blanks_snoc. Qed.

Lemma strip_one_visible ps s :
  Forall (λ p, visible_head p = false ∧ p ≠ "") ps → visible_head s = true → strip_one ps s = None.
Proof.
  intros Hps Hs. destruct (strip_one ps s) as [s'|] eqn:E; [|done].
  destruct (strip_one_inv _ _ _ E) as (p & Hp & ->). rewrite Forall_forall in Hps.
  destruct (Hps p Hp) as [Hv Hne]. destruct p as [|a p]; [done|].
  rewrite string_app_cons in Hs. cbn in Hs, Hv. congruence.
Qed.

Lemma space_runes_hidden : Forall (λ p, visible_head p = false ∧ p ≠ "") space_runes.
Proof. apply (bool_decide_unpack _). by vm_compute. Qed.

Lemma space_runes_rev_hidden : Forall (λ p, visible_head p = false ∧ p ≠ "") (string_rev <$> space_runes).
Proof. apply (bool_decide_unpack _). by vm_compute. Qed.

Lemma strip_rounds_visible n ps s :
  Forall (λ p, visible_head p = false ∧ p ≠ "") ps → visible_head s = true → strip_rounds n ps s = s.
Proof. intros Hps Hs. destruct n; [done|]. cbn. by rewrite strip_one_visible. Qed.

Lemma strip_rounds_blanks n i ps s :
  (∀ s, strip_one ps (String " "%char s) = Some s) →
  Forall (λ p, visible_head p = false ∧ p ≠ "") ps → visible_head s = true → (i <= n)%nat →
  strip_rounds n ps (blanks i +:+ s) = s.
Proof.
  intros Hb Hps Hs. revert n. induction i as [|i IH]; intros n Hn.
  - rewrite string_app_nil_l. by apply strip_rounds_visible.
  - destruct n as [|n]; [lia|]. cbn [blanks]. rewrite string_app_cons. cbn [strip_rounds].
    rewrite Hb. apply IH. lia.
Qed.

Lemma strip_one_blank s : strip_one space_runes (String " "%char s) = Some s.
Proof. unfold strip_one. cbn. by destruct s. Qed.

Lemma strip_one_blank_rev s : strip_one (string_rev <$> space_runes) (String " "%char s) = Some s.
Proof. unfold strip_one. cbn. by destruct s. Qed.

Lemma TrimLeft_blanks i s : visible_head s = true → TrimLeft_space (blanks i +:+ s) = s.
Proof.
  intros. apply strip_rounds_blanks; [apply strip_one_blank|apply space_runes_hidden|done|].
  rewrite string_length_app, blanks_length. lia.
Qed.

Lemma TrimRight_blanks j s : visible_head (string_rev s) = true → TrimRight_space (s +:+ blanks j) = s.
Proof.
  intros. unfold TrimRight_space. rewrite string_rev_app, string_rev_blanks.
  rewrite strip_rounds_blanks; [apply string_rev_involutive|apply strip_one_blank_rev|apply space_runes_rev_hidden|done|].
  rewrite string_length_app, blanks_length. lia.
Qed.

Lemma visible_head_app a b : visible_head a = true → visible_head (a +:+ b) = true.
Proof. by destruct a. Qed.

(** Blanks around a neat text are taken off, and nothing else. *)
Lemma TrimSpace_blanks i j s : neat s = true → strings_TrimSpace (blanks i +:+ s +:+ blanks j) = s.
Proof.
  intros [Hh Ht]%andb_true_iff. unfold strings_TrimSpace.
  rewrite TrimLeft_blanks by by apply visible_head_app. by apply TrimRight_blanks.
Qed.

Lemma TrimSpace_neat s : neat s = true → strings_TrimSpace s = s.
Proof.
  intros H. pose proof (TrimSpace_blanks 0 0 s H) as E. cbn [blanks] in E.
  by rewrite string_app_nil_l, string_app_nil_r in E.
Qed.

Lemma neat_app a b : neat a = true → neat b = true → ∀ m, neat (a +:+ m +:+ b) = true.
Proof.
  intros [Ha _]%andb_true_iff [_ Hb]%andb_true_iff m. unfold neat.
  rewrite visible_head_app by done. rewrite !string_rev_app, string_app_assoc. by apply visible_head_app.
Qed.

(** ** Case

    [strings.ToLower] on ASCII, and [strings.EqualFold] against an ASCII text of the
    same byte length (where only ASCII letters can fold into ASCII letters). *)
Definition lower_char (c : Ascii.ascii) : Ascii.ascii :=
  let n := Ascii.N_of_ascii c in
  if N.leb 65 n && N.leb n 90 then Ascii.ascii_of_N (n + 32) else c.

Fixpoint strings_ToLower (s : string) : string :=
  match s with EmptyString => EmptyString | String a s' => String (lower_char a) (strings_ToLower s') end.

(** [strings.ToUpper] on ASCII: other bytes are kept. *)
Definition upper_char (c : Ascii.ascii) : Ascii.ascii :=
  let n := Ascii.N_of_ascii c in
  if N.leb 97 n && N.leb n 122 then Ascii.ascii_of_N (n - 32) else c.

Fixpoint strings_ToUpper (s : string) : string :=
  match s with EmptyString => EmptyString | String a s' => String (upper_char a) (strings_ToUpper s') end.

Definition strings_EqualFold (a b : string) : bool := bool_decide (strings_ToLower a = strings_ToLower b).

(** *** Texts joined with blanks around the separator *)

Lemma neat_join c sep ps : ps ≠ [] → Forall (λ p, neat p = true) ps → neat (join (String c sep) ps) = true.
Proof.
  induction ps as [|p ps IH]; intros Hne Hps; [done|]. inversion Hps; subst.
  destruct ps as [|q ps]; [done|].
  change (join (String c sep) (p :: q :: ps)) with (p +:+ String c sep +:+ join (String c sep) (q :: ps)).
  apply neat_app; [done|]. by apply IH.
Qed.

Lemma has_char_blanks c n : c ≠ " "%char → has_char c (blanks n) = false.
Proof. intros Hc. induction n as [|n IH]; cbn; [done|]. by rewrite IH, bool_decide_eq_false_2. Qed.

Lemma blank_join sep ps i :
  ps ≠ [] → Forall (λ p, neat p = true) ps →
  ∃ qs, blanks i +:+ join (" " +:+ sep +:+ " ") ps = join sep qs ∧ strings_TrimSpace <$> qs = ps ∧
    ∀ c, c ≠ " "%char → Forall (λ p, has_char c p = false) ps → Forall (λ p, has_char c p = false) qs.
Proof.
  revert i. induction ps as [|p ps IH]; intros i Hne Hps; [done|]. inversion Hps as [|? ? Hp Hps']; subst.
  destruct ps as [|q ps].
  - exists [blanks i +:+ p]. split_and!; [done| |].
    + cbn. pose proof (TrimSpace_blanks i 0 p Hp) as E. cbn [blanks] in E. rewrite string_app_nil_r in E. by rewrite E.
    + intros c Hc H. inversion H; subst. constructor; [|done]. rewrite has_char_app, has_char_blanks by done. done.
  - destruct (IH 1%nat ltac:(done) Hps') as (qs & Ej & Et & Hc).
    exists ((blanks i +:+ p +:+ blanks 1) :: qs). split_and!.
    + change (join (" " +:+ sep +:+ " ") (p :: q :: ps))
        with (p +:+ (" " +:+ sep +:+ " ") +:+ join (" " +:+ sep +:+ " ") (q :: ps)).
      destruct qs as [|q' qs]; [done|].
      change (join sep (?x :: q' :: qs)) with (x +:+ sep +:+ join sep (q' :: qs)).
      rewrite <- Ej. cbn [blanks]. by rewrite !string_app_assoc.
    + cbn [fmap list_fmap]. by rewrite TrimSpace_blanks, Et.
    + intros c Hb H. inversion H; subst. constructor; [|by apply Hc].
      rewrite !has_char_app, !has_char_blanks by done. by rewrite orb_false_r.
Qed.

(** Splitting such a text and trimming the parts gives the texts back. *)
Lemma Split_blank_join c sep ps :
  c ≠ " "%char → ps ≠ [] → Forall (λ p, neat p = true ∧ has_char c p = false) ps →
  strings_TrimSpace <$> strings_Split (join (" " +:+ String c sep +:+ " ") ps) (String c sep) = ps.
Proof.
  intros Hb Hne Hps.
  destruct (blank_join (String c sep) ps 0 Hne) as (qs & Ej & Et & Hc); [eapply Forall_impl; [done|by intros ? []]|].
  cbn [blanks] in Ej. rewrite string_app_nil_l in Ej. rewrite Ej, Split_join; [done| |].
  - by intros ->.
  - apply Hc; [done|]. eapply Forall_impl; [done|by intros ? []].
Qed.

(** ** Decimal numbers

    Numbers are printed by stdpp's [pretty], which is [%d]. *)

Definition is_digit (c : ascii) : bool :=
  let n := N_of_ascii c in N.leb 48 n && N.leb n 57.

Definition digit_val (c : ascii) : Z := Z.of_N (N_of_ascii c) - 48.

(** The longest run of digits, as a number, and how long it is. *)
Fixpoint scan_digits (s : string) (acc : Z) (n : nat) : Z * nat :=
  match s with
  | String c s' => if is_digit c then scan_digits s' (acc * 10 + digit_val c) (S n) else (acc, n)
  | EmptyString => (acc, n)
  end.

Lemma scan_char x acc n s :
  (x < 10)%N → scan_digits (String (pretty_N_char x) s) acc n = scan_digits s (acc * 10 + Z.of_N x) (S n).
Proof.
  intros Hx. assert (x = 0 ∨ x = 1 ∨ x = 2 ∨ x = 3 ∨ x = 4 ∨ x = 5 ∨ x = 6 ∨ x = 7 ∨ x = 8 ∨ x = 9)%N by lia.
  destruct_or! H; subst x; reflexivity.
Qed.

(** Scanning past the digits of a number adds the number. *)
Lemma scan_pretty_go x :
  ∃ k, ((0 < x)%N → k ≠ O) ∧
    ∀ s acc n, scan_digits (pretty_N_go x s) acc n = scan_digits s (acc * 10 ^ Z.of_nat k + Z.of_N x) (n + k).
Proof.
  induction (N.lt_wf_0 x) as [x _ IH].
  destruct (decide (0 < x)%N) as [Hx|Hx].
  - destruct (IH (x `div` 10)%N) as (k & _ & Hk); [by apply N.div_lt|].
    exists (S k). split; [done|]. intros s acc n. rewrite pretty_N_go_step, Hk by done.
    rewrite scan_char by (apply N.mod_lt; done). f_equal; [|lia].
    pose proof (N.div_mod x 10 ltac:(done)). rewrite Nat2Z.inj_succ, Z.pow_succ_r by lia. lia.
  - assert (x = 0%N) as -> by lia. exists O. split; [lia|]. intros s acc n. rewrite pretty_N_go_0. f_equal; cbn; lia.
Qed.

Lemma pretty_go_app x : ∃ p, ∀ s, pretty_N_go x s = p +:+ s.
Proof.
  induction (N.lt_wf_0 x) as [x _ IH]. destruct (decide (0 < x)%N) as [Hx|Hx].
  - destruct (IH (x `div` 10)%N) as [p Hp]; [by apply N.div_lt|].
    exists (p +:+ String (pretty_N_char (x `mod` 10)) ""). intros s.
    rewrite pretty_N_go_step, Hp, string_app_assoc by done. done.
  - assert (x = 0%N) as -> by lia. exists "". intros s. by rewrite pretty_N_go_0.
Qed.

Lemma pretty_char_visible x : visible (pretty_N_char x) = true.
Proof. unfold pretty_N_char. by repeat case_match. Qed.

Lemma pretty_char_digit x c : is_digit c = false → bool_decide (pretty_N_char x = c) = false.
Proof. intros H. apply bool_decide_eq_false_2. intros <-. revert H. unfold pretty_N_char. by repeat case_match. Qed.

Lemma has_char_pretty_go c x s : is_digit c = false → has_char c (pretty_N_go x s) = has_char c s.
Proof.
  intros Hc. revert s. induction (N.lt_wf_0 x) as [x _ IH]; intros s. destruct (decide (0 < x)%N) as [Hx|Hx].
  - rewrite pretty_N_go_step, IH by (done || by apply N.div_lt). cbn. by rewrite pretty_char_digit.
  - assert (x = 0%N) as -> by lia. by rewrite pretty_N_go_0.
Qed.

Lemma visible_head_pretty_go x s : (0 < x)%N ∨ visible_head s = true → visible_head (pretty_N_go x s) = true.
Proof.
  revert s. induction (N.lt_wf_0 x) as [x _ IH]; intros s H. destruct (decide (0 < x)%N) as [Hx|Hx].
  - rewrite pretty_N_go_step by done. apply IH; [by apply N.div_lt|]. right. apply pretty_char_visible.
  - assert (x = 0%N) as -> by lia. rewrite pretty_N_go_0. destruct H; [lia|done].
Qed.

(** A printed natural number: its value, its shape and the characters it lacks. *)
Lemma scan_pretty x : ∃ k, scan_digits (pretty x) 0 0 = (Z.of_N x, S k).
Proof.
  unfold pretty, pretty_N. case_decide as E; [subst; by exists O|].
  destruct (scan_pretty_go x) as (k & Hk & H). rewrite H. destruct k; [lia|]. exists k. done.
Qed.

Lemma neat_pretty (x : N) : neat (pretty x) = true.
Proof.
  unfold pretty, pretty_N. case_decide as E; [done|]. unfold neat.
  rewrite visible_head_pretty_go by lia. rewrite pretty_N_go_step by lia.
  destruct (pretty_go_app (x `div` 10)) as [p Hp]. rewrite Hp, string_rev_app. apply pretty_char_visible.
Qed.

Lemma has_char_pretty c (x : N) : is_digit c = false → has_char c (pretty x) = false.
Proof.
  intros Hc. unfold pretty, pretty_N. case_decide; [|by rewrite has_char_pretty_go].
  cbn. rewrite bool_decide_eq_false_2; [done|]. by intros <-.
Qed.

Lemma pretty_head (x : N) : ∃ c s, pretty x = String c s ∧ is_digit c = true.
Proof.
  destruct (scan_pretty x) as [k Hk]. destruct (pretty x) as [|c s]; [done|]. exists c, s. split; [done|].
  cbn in Hk. by destruct (is_digit c).
Qed.

(** An optional sign in front of digits. *)
Definition split_sign (s : string) : bool * string :=
  match s with
  | String "-" s' => (true, s')
  | String "+" s' => (false, s')
  | _ => (false, s)
  end%char.

Lemma split_sign_minus s : split_sign (String "-" s) = (true, s).
Proof. done. Qed.

Lemma split_sign_digit c s : is_digit c = true → split_sign (String c s) = (false, String c s).
Proof. intros Hc. destruct c as [[] [] [] [] [] [] [] []]; done. Qed.

Lemma scan_digits_all s acc n :
  (∀ c, has_char c s = true → is_digit c = true) → (scan_digits s acc n).2 = (n + String.length s)%nat.
Proof.
  revert acc n. induction s as [|c s IH]; intros acc n H; cbn; [lia|].
  rewrite (H c) by (cbn; by rewrite bool_decide_eq_true_2). rewrite IH; [lia|].
  intros a Ha. apply H. cbn. by rewrite Ha, orb_true_r.
Qed.

Lemma pretty_digits (x : N) c : has_char c (pretty x) = true → is_digit c = true.
Proof. intros H. destruct (is_digit c) eqn:E; [done|]. by rewrite has_char_pretty in H. Qed.

(** A printed integer: a sign where it is negative, and the digits of its magnitude. *)
Lemma pretty_Z_sign (z : Z) :
  ∃ neg (x : N), z = (if neg : bool then - Z.of_N x else Z.of_N x) ∧
    pretty z = if neg then String "-" (pretty x) else pretty x.
Proof.
  destruct z as [|p|p]; [exists false, 0%N|exists false, (N.pos p)|exists true, (N.pos p)]; by split.
Qed.

Lemma neat_pretty_Z (z : Z) : neat (pretty z) = true.
Proof.
  destruct (pretty_Z_sign z) as (neg & x & _ & ->). pose proof (neat_pretty x) as N. destruct neg; [|done].
  unfold neat in *. propify. rewrite string_rev_cons. rewrite visible_head_app; done.
Qed.

Lemma pretty_Z_chars (z : Z) c : has_char c (pretty z) = true → is_digit c = true ∨ c = "-"%char.
Proof.
  destruct (pretty_Z_sign z) as (neg & x & _ & ->). destruct neg.
  - cbn. intros [H%bool_decide_eq_true_1|H]%orb_true_iff; [by right|left; by eapply pretty_digits].
  - intros H. left. by eapply pretty_digits.
Qed.

Lemma pretty_Z_head (z : Z) : ∃ c s, pretty z = String c s ∧ (is_digit c = true ∨ c = "-"%char).
Proof.
  destruct (pretty_Z_sign z) as (neg & x & _ & ->). destruct (pretty_head x) as (c & s & -> & Hc).
  destruct neg; eauto 10.
Qed.

(** The sign and the digits give the number back. *)
Lemma scan_pretty_Z (z : Z) :
  ∃ neg body k v, split_sign (pretty z) = (neg, body) ∧ scan_digits body 0 0 = (v, S k) ∧
    S k = String.length body ∧ z = if neg : bool then - v else v.
Proof.
  destruct (pretty_Z_sign z) as (neg & x & Hz & Hp). destruct (scan_pretty x) as [k Hk].
  exists neg, (pretty x), k, (Z.of_N x). split_and!; [|done| |done].
  - rewrite Hp. destruct neg; [done|]. destruct (pretty_head x) as (c & s & -> & Hc). by apply split_sign_digit.
  - pose proof (scan_digits_all (pretty x) 0 0 (pretty_digits x)) as E. by rewrite Hk in E.
Qed.
