(* ===== verification/Filters.v ===== *)
(** Event filters (internal/filter): chains, rule filters over table and database
    patterns and event types, and expression filters with their parser.

    Regular expressions are those of [Scope].  [fmt.Sscanf] with [%d] is written out;
    with [%f] it is a parameter, as is the [%v] verb on column values. *)
From Stdlib Require Import ZArith Lia SpecFloat Ascii.
From Stdlib Require String.
From stdpp Require Import prelude countable gmap strings list fin_maps pretty.
From S2P Require Import Prelude Events Strings TableLifecycle Scope.
Local Open Scope Z_scope.

(** [fmt], as far as expressions use it. *)
Class Fmt := {
  fmt_v : value → string;
  Sscanf_f : string → result spec_float
}.

(** [string(e.Type)] *)
Definition EventType_string (t : EventType) : string :=
  match t with
  | EventTypeInsert => "insert"
  | EventTypeUpdate => "update"
  | EventTypeDelete => "delete"
  | EventTypeTruncate => "truncate"
  | EventTypeDDL => "ddl"
  | EventTypeHeartbeat => "heartbeat"
  | EventTypeTombstone => "tombstone"
  | EventTypeRaw s => s
  end.

(** What a compiled filter does to an event. *)
Definition Evaluator : Type := ChangeEvent → result bool.

Section Filters.
Context `{RX : Regexp} `{FM : Fmt}.

(** ** rule.go *)

(** The two maps hold [true] at every key: they are sets of event types. *)
Record RuleFilter := mkRuleFilter {
  rf_includeTables : list regexp;
  rf_excludeTables : list regexp;
  rf_includeDatabases : list regexp;
  rf_excludeDatabases : list regexp;
  rf_includeTypes : gset string;
  rf_excludeTypes : gset string
}.

Record RuleConfig := mkRuleConfig {
  rc_IncludeTables : list string;
  rc_ExcludeTables : list string;
  rc_IncludeDatabases : list string;
  rc_ExcludeDatabases : list string;
  rc_IncludeTypes : list EventType;
  rc_ExcludeTypes : list EventType
}.

(** One of the four compile loops: the first pattern that does not compile ends it. *)
Fixpoint compile_all (patterns : list string) : result (list regexp) :=
  match patterns with
  | [] => Ok []
  | p :: ps => re ← regexp_Compile p; res ← compile_all ps; Ok (re :: res)
  end.

Definition types_set (ts : list EventType) : gset string := list_to_set (EventType_string <$> ts).

Definition NewRuleFilter (cfg : RuleConfig) : result RuleFilter :=
  includeTables ← compile_all (rc_IncludeTables cfg);
  excludeTables ← compile_all (rc_ExcludeTables cfg);
  includeDatabases ← compile_all (rc_IncludeDatabases cfg);
  excludeDatabases ← compile_all (rc_ExcludeDatabases cfg);
  Ok (mkRuleFilter includeTables excludeTables includeDatabases excludeDatabases
        (types_set (rc_IncludeTypes cfg)) (types_set (rc_ExcludeTypes cfg))).

(** The inner loops: does one of the patterns match? *)
Definition any_match (res : list regexp) (s : string) : bool := existsb (λ re, MatchString re s) res.

Definition RuleFilter_Filter (rf : RuleFilter) : Evaluator := λ e,
  let t := EventType_string (ev_Type e) in
  if bool_decide (rf_excludeTypes rf ≠ ∅) && bool_decide (t ∈ rf_excludeTypes rf) then Ok false
  else if bool_decide (rf_includeTypes rf ≠ ∅) && negb (bool_decide (t ∈ rf_includeTypes rf)) then Ok false
  else if (0 <? zlen (rf_excludeDatabases rf)) && any_match (rf_excludeDatabases rf) (ti_Database (ev_Table e)) then Ok false
  else if (0 <? zlen (rf_includeDatabases rf)) && negb (any_match (rf_includeDatabases rf) (ti_Database (ev_Table e))) then Ok false
  else
    let tableName := ti_Database (ev_Table e) +:+ "." +:+ ti_Table (ev_Table e) in
    if (0 <? zlen (rf_excludeTables rf)) && any_match (rf_excludeTables rf) tableName then Ok false
    else if (0 <? zlen (rf_includeTables rf)) && negb (any_match (rf_includeTables rf) tableName) then Ok false
    else Ok true.

Definition AddIncludeTable (pattern : string) : ST RuleFilter unit :=
  re ← st_lift (regexp_Compile pattern);
  st_modify (λ rf, mkRuleFilter (rf_includeTables rf ++ [re]) (rf_excludeTables rf) (rf_includeDatabases rf)
                     (rf_excludeDatabases rf) (rf_includeTypes rf) (rf_excludeTypes rf)).

Definition AddExcludeTable (pattern : string) : ST RuleFilter unit :=
  re ← st_lift (regexp_Compile pattern);
  st_modify (λ rf, mkRuleFilter (rf_includeTables rf) (rf_excludeTables rf ++ [re]) (rf_includeDatabases rf)
                     (rf_excludeDatabases rf) (rf_includeTypes rf) (rf_excludeTypes rf)).

Definition AddIncludeType (t : EventType) : ST RuleFilter unit :=
  st_modify (λ rf, mkRuleFilter (rf_includeTables rf) (rf_excludeTables rf) (rf_includeDatabases rf)
                     (rf_excludeDatabases rf) ({[EventType_string t]} ∪ rf_includeTypes rf) (rf_excludeTypes rf)).

Definition AddExcludeType (t : EventType) : ST RuleFilter unit :=
  st_modify (λ rf, mkRuleFilter (rf_includeTables rf) (rf_excludeTables rf) (rf_includeDatabases rf)
                     (rf_excludeDatabases rf) (rf_includeTypes rf) ({[EventType_string t]} ∪ rf_excludeTypes rf)).

(** ** expression.go: values *)

(** [fmt.Sscanf(s, "%d", &i)] on a text without leading space: an optional sign and
    at least one digit; what follows is not looked at, and a number out of the range
    of [int64] is an error. *)
Definition Sscanf_d (s : string) : option Z :=
  let '(neg, body) := split_sign s in
  match scan_digits body 0 0 with
  | (_, O) => None
  | (v, S _) =>
      let z := if neg then - v else v in
      if (min_int64 <=? z) && (z <=? max_int64) then Some z else None
  end.

Definition is_quote (c : ascii) : bool := bool_decide (c = "'"%char) || bool_decide (c = "034"%char).

Definition parseValue (s : string) : result value :=
  let s := strings_TrimSpace s in
  if (2 <=? slen s) && (match s with String c _ => is_quote c | EmptyString => false end)
  then Ok (VString (String.substring 1 (String.length s - 2) s))
  else if bool_decide (s = "true") then Ok (VBool true)
  else if bool_decide (s = "false") then Ok (VBool false)
  else if bool_decide (s = "null") || bool_decide (s = "nil") then Ok VNil
  else if strings_Contains s "." then f ← Sscanf_f s; Ok (VFloat64 f)
  else match Sscanf_d s with
       | Some i => Ok (VInt64 i)
       | None => Ok (VString s)
       end.

(** A column of one side of the event, or nil. *)
Definition side_value (row : RowData) (col : string) : value :=
  if RowData_IsEmpty (Some row) then VNil
  else match rd_lookup row col with Some f => f_Value f | None => VNil end.

Definition getFieldValue (e : ChangeEvent) (field : string) : result value :=
  let parts := strings_Split field "." in
  match parts with
  | [] => Err (Panic "index out of range")
  | p0 :: rest =>
      if bool_decide (p0 = "table") then Ok (VString (ti_Table (ev_Table e)))
      else if bool_decide (p0 = "database") then Ok (VString (ti_Database (ev_Table e)))
      else if bool_decide (p0 = "schema") then Ok (VString (ti_Schema (ev_Table e)))
      else if bool_decide (p0 = "operation") || bool_decide (p0 = "op") then Ok (VString (EventType_string (ev_Type e)))
      else if bool_decide (p0 = "before") then
        match rest with
        | [] => Err (ErrNew "before.* requires a field name")
        | p1 :: _ => Ok (side_value (ev_Before e) p1)
        end
      else if bool_decide (p0 = "after") then
        match rest with
        | [] => Err (ErrNew "after.* requires a field name")
        | p1 :: _ => Ok (side_value (ev_After e) p1)
        end
      else
        match (if RowData_IsEmpty (Some (ev_After e)) then None else rd_lookup (ev_After e) p0) with
        | Some f => Ok (f_Value f)
        | None =>
            match (if RowData_IsEmpty (Some (ev_Before e)) then None else rd_lookup (ev_Before e) p0) with
            | Some f => Ok (f_Value f)
            | None => Err (ErrNew ("unknown field: " +:+ field))
            end
        end
  end.

(** ** expression.go: comparisons *)

(** [reflect.DeepEqual] of two column values: the same dynamic type and the same
    value, where floating-point numbers are compared with [==]. *)
Definition DeepEqual (a b : value) : bool :=
  match a, b with
  | VFloat32 x, VFloat32 y | VFloat64 x, VFloat64 y => SFeqb x y
  | _, _ => bool_decide (a = b)
  end.

Definition toFloat64 (v : value) : result spec_float :=
  match v with
  | VInt z | VInt32 z | VInt64 z => Ok (float64_of_int z)
  | VFloat32 f | VFloat64 f => Ok f
  | _ => Err (ErrNew "cannot convert to float64")
  end.

Definition compareNumbers (left : value) (op : string) (right : value) : result bool :=
  leftNum ← toFloat64 left;
  rightNum ← toFloat64 right;
  if bool_decide (op = ">=") then Ok (SFleb rightNum leftNum)
  else if bool_decide (op = "<=") then Ok (SFleb leftNum rightNum)
  else if bool_decide (op = ">") then Ok (SFltb rightNum leftNum)
  else if bool_decide (op = "<") then Ok (SFltb leftNum rightNum)
  else Err (ErrNew ("unknown operator: " +:+ op)).

(** The two regular-expression operators compile the pattern at each event. *)
Definition match_pattern (left right : value) : result bool :=
  match right with
  | VString pattern =>
      match regexp_Compile pattern with
      | Ok re => Ok (MatchString re (fmt_v left))
      | Err err => Err (ErrWrapf "invalid regex" err)
      end
  | _ => Err (ErrNew "regex pattern must be string")
  end.

Definition compareValues (left : value) (op : string) (right : value) : result bool :=
  if bool_decide (op = "==") then Ok (DeepEqual left right)
  else if bool_decide (op = "!=") then Ok (negb (DeepEqual left right))
  else if bool_decide (op ∈ [">="; "<="; ">"; "<"]) then compareNumbers left op right
  else if bool_decide (op = "=~") then match_pattern left right
  else if bool_decide (op = "!~") then b ← match_pattern left right; Ok (negb b)
  else Err (ErrNew ("unknown operator: " +:+ op)).

Definition createComparisonEvaluator (left op right : string) : result Evaluator :=
  rightValue ← parseValue right;
  Ok (λ e, leftVal ← getFieldValue e left; compareValues leftVal op rightValue).

Definition operators : list string := ["=="; "!="; ">="; "<="; ">"; "<"; "=~"; "!~"].

(** The loop over the operators: the first one the text contains anywhere. *)
Fixpoint comparison_loop (ops : list string) (expr : string) : result Evaluator :=
  match ops with
  | [] => Err (ErrNew ("no valid operator found in expression: " +:+ expr))
  | op :: ops =>
      match strings_Cut op expr with
      | Some (l, r) => createComparisonEvaluator (strings_TrimSpace l) op (strings_TrimSpace r)
      | None => comparison_loop ops expr
      end
  end.

Definition parseComparison (expr : string) : result Evaluator := comparison_loop operators expr.

(** ** expression.go: logic *)

Fixpoint eval_and (evaluators : list Evaluator) (e : ChangeEvent) : result bool :=
  match evaluators with
  | [] => Ok true
  | ev :: evs => r ← ev e; if (r : bool) then eval_and evs e else Ok false
  end.

Fixpoint eval_or (evaluators : list Evaluator) (e : ChangeEvent) : result bool :=
  match evaluators with
  | [] => Ok false
  | ev :: evs => r ← ev e; if (r : bool) then Ok true else eval_or evs e
  end.

Fixpoint parse_parts (parse : string → result Evaluator) (parts : list string) : result (list Evaluator) :=
  match parts with
  | [] => Ok []
  | p :: ps => ev ← parse (strings_TrimSpace p); evs ← parse_parts parse ps; Ok (ev :: evs)
  end.

Definition parseAndExpression (parse : string → result Evaluator) (expr : string) : result Evaluator :=
  evaluators ← parse_parts parse (strings_Split expr "&&"); Ok (eval_and evaluators).

Definition parseOrExpression (parse : string → result Evaluator) (expr : string) : result Evaluator :=
  evaluators ← parse_parts parse (strings_Split expr "||"); Ok (eval_or evaluators).

(** The mutual recursion of the three functions, [n] calls deep; [stuck] stands for
    the calls that are deeper. *)
Fixpoint parse_depth (stuck : result Evaluator) (n : nat) (expr : string) : result Evaluator :=
  match n with
  | O => stuck
  | S n =>
      let expr := strings_TrimSpace expr in
      if bool_decide (expr = "") then Ok (λ _, Ok true)
      else if strings_Contains expr "&&" then parseAndExpression (parse_depth stuck n) expr
      else if strings_Contains expr "||" then parseOrExpression (parse_depth stuck n) expr
      else parseComparison expr
  end.

(** Three calls deep is as deep as the recursion goes ([parse_depth_enough]). *)
Definition parseExpression (expr : string) : result Evaluator :=
  parse_depth (Err (ErrNew "unreachable")) 3 expr.

Record ExpressionFilter := mkExpressionFilter {
  ef_expression : string;
  ef_evaluator : Evaluator
}.

Definition NewExpressionFilter (expression : string) : result ExpressionFilter :=
  match parseExpression expression with
  | Ok ev => Ok (mkExpressionFilter expression ev)
  | Err err => Err (ErrWrapf "failed to parse expression" err)
  end.

(** ** filter.go *)

(** The implementations of the [Filter] interface. *)
Inductive AnyFilter :=
  | PassAllFilter
  | BlockAllFilter
  | FilterOfRules (rf : RuleFilter)
  | FilterOfExpression (ef : ExpressionFilter)
  | FilterChain (filters : list AnyFilter).

Fixpoint Filter (f : AnyFilter) (e : ChangeEvent) : result bool :=
  match f with
  | PassAllFilter => Ok true
  | BlockAllFilter => Ok false
  | FilterOfRules rf => RuleFilter_Filter rf e
  | FilterOfExpression ef => ef_evaluator ef e
  | FilterChain fs =>
      (fix loop (fs : list AnyFilter) : result bool :=
         match fs with
         | [] => Ok true
         | f :: fs => pass ← Filter f e; if (pass : bool) then loop fs else Ok false
         end) fs
  end.

(** [FilterChain.Add]: only chains have the method. *)
Definition FilterChain_Add (f : AnyFilter) (chain : AnyFilter) : AnyFilter :=
  match chain with FilterChain fs => FilterChain (fs ++ [f]) | other => other end.

(** ** Rule filters *)

(** What a configuration means, without the compiled filter: a pattern matches a name
    when it compiles and the compiled expression matches. *)
Definition matches (p s : string) : Prop := ∃ re, regexp_Compile p = Ok re ∧ MatchString re s = true.

(** Nothing excludes the name, and something includes it unless there is no inclusion. *)
Definition selected (include exclude : list string) (s : string) : Prop :=
  (∀ p, p ∈ exclude → ¬ matches p s) ∧ (include = [] ∨ ∃ p, p ∈ include ∧ matches p s).

Definition allowed (cfg : RuleConfig) (e : ChangeEvent) : Prop :=
  let t := EventType_string (ev_Type e) in
  let db := ti_Database (ev_Table e) in
  (t ∉ EventType_string <$> rc_ExcludeTypes cfg) ∧
  (rc_IncludeTypes cfg = [] ∨ t ∈ EventType_string <$> rc_IncludeTypes cfg) ∧
  selected (rc_IncludeDatabases cfg) (rc_ExcludeDatabases cfg) db ∧
  selected (rc_IncludeTables cfg) (rc_ExcludeTables cfg) (db +:+ "." +:+ ti_Table (ev_Table e)).

Lemma compile_all_Forall2 ps res :
  compile_all ps = Ok res ↔ Forall2 (λ p re, regexp_Compile p = Ok re) ps res.
Proof.
  revert res. induction ps as [|p ps IH]; intros res; cbn.
  - split; [by intros [= <-]|by inversion 1].
  - unfold mbind, result_bind. split.
    + destruct (regexp_Compile p) as [re|] eqn:E; [|done].
      destruct (compile_all ps) as [res'|] eqn:E'; [|done]. intros [= <-]. constructor; [done|]. by apply IH.
    + inversion 1 as [|? re ? res' Hp Hps]; subst. rewrite Hp. apply IH in Hps as ->. done.
Qed.

Lemma any_match_spec ps res s :
  compile_all ps = Ok res → any_match res s = true ↔ ∃ p, p ∈ ps ∧ matches p s.
Proof.
  rewrite compile_all_Forall2. unfold any_match. intros H. rewrite existsb_exists. split.
  - intros (re & Hre & Hm). apply list_elem_of_In, list_elem_of_lookup_1 in Hre as [i Hi].
    destruct (Forall2_lookup_r _ _ _ _ _ H Hi) as (p & Hp & Hc).
    exists p. split; [by eapply list_elem_of_lookup_2|]. by exists re.
  - intros (p & Hp & re & Hc & Hm). apply list_elem_of_lookup_1 in Hp as [i Hi].
    destruct (Forall2_lookup_l _ _ _ _ _ H Hi) as (re' & Hre & Hc').
    exists re'. split; [by eapply list_elem_of_In, list_elem_of_lookup_2|]. congruence.
Qed.

(** The pair of tests the filter makes of one kind of name. *)
Lemma selected_spec inc exc rinc rexc s :
  compile_all inc = Ok rinc → compile_all exc = Ok rexc →
  selected inc exc s ↔
  ((0 <? zlen rexc) && any_match rexc s = false ∧ (0 <? zlen rinc) && negb (any_match rinc s) = false).
Proof.
  intros Hi He. pose proof (any_match_spec _ _ s Hi) as Mi. pose proof (any_match_spec _ _ s He) as Me.
  pose proof (Forall2_length _ _ _ (proj1 (compile_all_Forall2 _ _) Hi)) as Li.
  unfold selected. match goal with |- (?A ∧ ?B) ↔ (?C ∧ ?D) => enough ((A ↔ C) ∧ (B ↔ D)) by tauto; split end.
  - destruct (any_match rexc s) eqn:E.
    + destruct rexc; [done|]. cbn. split; [|done]. intros H. destruct (proj1 Me eq_refl) as (p & Hp & Hm). by destruct (H p Hp).
    + rewrite andb_false_r. split; [done|]. intros _ p Hp Hm.
      assert (false = true) by (apply Me; eauto). done.
  - destruct (any_match rinc s) eqn:E; cbn.
    + rewrite andb_false_r. split; [done|]. intros _. right. by apply Mi.
    + destruct rinc, inc; cbn in *; try lia; [split; auto|]. split; [|done].
      intros [?|H]; [done|]. apply Mi in H. done.
Qed.

Lemma types_set_empty ts : types_set ts = ∅ ↔ ts = [].
Proof. destruct ts; cbn; [done|]. split; [set_solver|done]. Qed.

Lemma elem_of_types_set t ts : t ∈ types_set ts ↔ t ∈ EventType_string <$> ts.
Proof. unfold types_set. by rewrite elem_of_list_to_set. Qed.

Lemma NewRuleFilter_inv cfg rf :
  NewRuleFilter cfg = Ok rf ↔
  compile_all (rc_IncludeTables cfg) = Ok (rf_includeTables rf) ∧
  compile_all (rc_ExcludeTables cfg) = Ok (rf_excludeTables rf) ∧
  compile_all (rc_IncludeDatabases cfg) = Ok (rf_includeDatabases rf) ∧
  compile_all (rc_ExcludeDatabases cfg) = Ok (rf_excludeDatabases rf) ∧
  rf_includeTypes rf = types_set (rc_IncludeTypes cfg) ∧ rf_excludeTypes rf = types_set (rc_ExcludeTypes cfg).
Proof.
  unfold NewRuleFilter, mbind, result_bind. split.
  - repeat (case_match; [|done]). intros [= <-]. done.
  - intros (-> & -> & -> & -> & Hi & He). destruct rf; cbn in *. by subst.
Qed.

Lemma exclude_test ts t :
  bool_decide (types_set ts ≠ ∅) && bool_decide (t ∈ types_set ts) = false ↔ t ∉ EventType_string <$> ts.
Proof. rewrite <- elem_of_types_set. repeat case_bool_decide; cbn; set_solver. Qed.

Lemma include_test ts t :
  bool_decide (types_set ts ≠ ∅) && negb (bool_decide (t ∈ types_set ts)) = false ↔
  ts = [] ∨ t ∈ EventType_string <$> ts.
Proof.
  rewrite <- elem_of_types_set, <- types_set_empty.
  destruct (decide (types_set ts = ∅)); repeat case_bool_decide; cbn; set_solver.
Qed.

(** A rule filter built from a configuration never fails, and lets an event pass
    exactly when the configuration allows it: its type is not excluded and is included
    if any inclusion is given, and the same for the database and the qualified table. *)
Theorem rule_filter_spec cfg rf e :
  NewRuleFilter cfg = Ok rf → ∃ b, RuleFilter_Filter rf e = Ok b ∧ (b = true ↔ allowed cfg e).
Proof.
  intros (Hit & Het & Hid & Hed & Ht & Hx)%NewRuleFilter_inv. unfold allowed. cbn zeta.
  set (t := EventType_string (ev_Type e)). set (db := ti_Database (ev_Table e)). set (tn := _ +:+ _).
  pose proof (selected_spec _ _ _ _ db Hid Hed) as Sd. pose proof (selected_spec _ _ _ _ tn Hit Het) as St.
  pose proof (exclude_test (rc_ExcludeTypes cfg) t) as Se. pose proof (include_test (rc_IncludeTypes cfg) t) as Si.
  unfold RuleFilter_Filter. fold t db tn. cbn zeta. rewrite Ht, Hx.
  repeat match goal with |- context [if ?x && ?y then _ else _] => destruct (x && y) in * end;
    (eexists; split; [reflexivity|]); rewrite Sd, St, <- Se, <- Si;
    (split; [intros; split_and!; done|intros; destruct_and!; done]).
Qed.

(** The configurations with one more entry that the [Add] methods stand for. *)
Definition cfg_add_tables (inc exc : list string) (cfg : RuleConfig) : RuleConfig :=
  mkRuleConfig (rc_IncludeTables cfg ++ inc) (rc_ExcludeTables cfg ++ exc) (rc_IncludeDatabases cfg)
    (rc_ExcludeDatabases cfg) (rc_IncludeTypes cfg) (rc_ExcludeTypes cfg).

Definition cfg_add_types (inc exc : list EventType) (cfg : RuleConfig) : RuleConfig :=
  mkRuleConfig (rc_IncludeTables cfg) (rc_ExcludeTables cfg) (rc_IncludeDatabases cfg)
    (rc_ExcludeDatabases cfg) (inc ++ rc_IncludeTypes cfg) (exc ++ rc_ExcludeTypes cfg).

Lemma compile_all_snoc ps res p re :
  compile_all ps = Ok res → regexp_Compile p = Ok re → compile_all (ps ++ [p]) = Ok (res ++ [re]).
Proof. rewrite !compile_all_Forall2. intros. apply Forall2_app; [done|]. by repeat constructor. Qed.

(** The [Add] methods keep a filter the one of a configuration with the added entry;
    a pattern that does not compile leaves the filter as it is. *)
Theorem rule_filter_add cfg rf p t :
  NewRuleFilter cfg = Ok rf →
  (∀ re, regexp_Compile p = Ok re →
     (∃ rf', AddIncludeTable p rf = (rf', Ok tt) ∧ NewRuleFilter (cfg_add_tables [p] [] cfg) = Ok rf') ∧
     (∃ rf', AddExcludeTable p rf = (rf', Ok tt) ∧ NewRuleFilter (cfg_add_tables [] [p] cfg) = Ok rf')) ∧
  (∀ err, regexp_Compile p = Err err → AddIncludeTable p rf = (rf, Err err) ∧ AddExcludeTable p rf = (rf, Err err)) ∧
  (∃ rf', AddIncludeType t rf = (rf', Ok tt) ∧ NewRuleFilter (cfg_add_types [t] [] cfg) = Ok rf') ∧
  (∃ rf', AddExcludeType t rf = (rf', Ok tt) ∧ NewRuleFilter (cfg_add_types [] [t] cfg) = Ok rf').
Proof.
  intros (Hit & Het & Hid & Hed & Ht & Hx)%NewRuleFilter_inv.
  unfold AddIncludeTable, AddExcludeTable, AddIncludeType, AddExcludeType, st_lift, st_modify, mbind, ST_bind.
  split; [intros re Hre; rewrite !Hre|split; [by intros err ->|]]; split; (eexists; split; [reflexivity|]);
    apply NewRuleFilter_inv; cbn; rewrite ?app_nil_r, ?Ht, ?Hx; split_and!; try done; by apply compile_all_snoc.
Qed.

(** ** The parser of expressions *)

Lemma parse_parts_ext f g ps :
  Forall (λ p, f (strings_TrimSpace p) = g (strings_TrimSpace p)) ps → parse_parts f ps = parse_parts g ps.
Proof. induction 1 as [|p ps Hp Hps IH]; cbn; [done|]. by rewrite Hp, IH. Qed.

Lemma Forall_TrimSpace_no_sep s sep :
  sep ≠ "" → Forall (λ p, strings_Contains (strings_TrimSpace p) sep = false) (strings_Split s sep).
Proof.
  intros Hsep. eapply Forall_impl; [by apply strings_Split_no_sep|]. intros p Hp. by apply Contains_TrimSpace.
Qed.

(** The parts of a split contain nothing the whole does not contain. *)
Lemma split_rounds_infix n sep s p : p ∈ split_rounds n sep s → ∃ a b, s = a +:+ p +:+ b.
Proof.
  revert s. induction n as [|n IH]; intros s; cbn.
  - intros ->%list_elem_of_singleton. exists "", "". by rewrite string_app_nil_l, string_app_nil_r.
  - destruct (strings_Cut sep s) as [[l r]|] eqn:E.
    + apply strings_Cut_inv in E. intros [->|H]%elem_of_cons.
      * exists "", (sep +:+ r). by rewrite string_app_nil_l.
      * destruct (IH _ H) as (a & b & ->). exists (l +:+ sep +:+ a), b. by rewrite E, !string_app_assoc.
    + intros ->%list_elem_of_singleton. exists "", "". by rewrite string_app_nil_l, string_app_nil_r.
Qed.

Lemma Split_keeps_absent s sep sep' :
  strings_Contains s sep' = false →
  Forall (λ p, strings_Contains (strings_TrimSpace p) sep' = false) (strings_Split s sep).
Proof.
  intros H. apply Forall_forall. intros p (a & b & Hs)%split_rounds_infix. apply Contains_TrimSpace.
  destruct (strings_Contains p sep') eqn:E; [|done]. rewrite <- H, Hs. symmetry.
  by apply strings_Contains_app_l, strings_Contains_app_r.
Qed.

(** A text without logical operators is parsed at depth one, one without [&&] at depth two. *)
Lemma parse_depth_one st st' n n' expr :
  strings_Contains expr "&&" = false → strings_Contains expr "||" = false →
  parse_depth st (S n) expr = parse_depth st' (S n') expr.
Proof. intros Ha Ho. cbn. by rewrite (Contains_TrimSpace _ _ Ha), (Contains_TrimSpace _ _ Ho). Qed.

Lemma parse_depth_two st st' n n' expr :
  strings_Contains expr "&&" = false → parse_depth st (S (S n)) expr = parse_depth st' (S (S n')) expr.
Proof.
  intros Ha. cbn [parse_depth]. rewrite (Contains_TrimSpace _ _ Ha).
  destruct (bool_decide _); [done|]. destruct (strings_Contains (strings_TrimSpace expr) "||"); [|done].
  unfold parseOrExpression. f_equal. apply parse_parts_ext. set (t := strings_TrimSpace expr).
  apply Forall_forall. intros p Hp. apply parse_depth_one.
  - pose proof (Split_keeps_absent t "||" "&&" (Contains_TrimSpace _ _ Ha)) as H. rewrite Forall_forall in H. auto.
  - pose proof (Forall_TrimSpace_no_sep t "||" ltac:(done)) as H. rewrite Forall_forall in H. auto.
Qed.

(** The recursion of the expression parser ends: a depth of three calls is enough
    for every text, and what lies deeper is never reached. *)
Theorem parse_depth_enough st st' n n' expr :
  (3 <= n)%nat → (3 <= n')%nat → parse_depth st n expr = parse_depth st' n' expr.
Proof.
  intros Hn Hn'. destruct n as [|[|[|n]]]; [lia..|]. destruct n' as [|[|[|n']]]; [lia..|].
  set (m := S (S n)). set (m' := S (S n')). cbn [parse_depth].
  destruct (bool_decide _); [done|]. destruct (strings_Contains (strings_TrimSpace expr) "&&") eqn:Ha.
  - unfold parseAndExpression. f_equal. apply parse_parts_ext.
    eapply Forall_impl; [by apply Forall_TrimSpace_no_sep|]. intros p Hp. by apply parse_depth_two.
  - destruct (strings_Contains (strings_TrimSpace expr) "||"); [|done].
    unfold parseOrExpression. f_equal. apply parse_parts_ext.
    pose proof (Split_keeps_absent _ "||" _ Ha) as H. eapply Forall_impl; [exact H|].
    intros p Hp. by apply parse_depth_two.
Qed.

(** ** What expressions mean

    A comparison, as it is written: a field, an operator and a literal. *)
Record comparison := mkComparison { cmp_left : string; cmp_op : string; cmp_right : string }.

Definition print_comparison (c : comparison) : string :=
  cmp_left c +:+ " " +:+ cmp_op c +:+ " " +:+ cmp_right c.

Definition eval_comparison (c : comparison) : Evaluator := λ e,
  v ← parseValue (cmp_right c); leftVal ← getFieldValue e (cmp_left c); compareValues leftVal (cmp_op c) v.

(** Operands without the characters operators are made of. *)
Definition plain (s : string) : bool :=
  forallb (λ c, negb (has_char c s)) ["="; "!"; "<"; ">"; "&"; "|"]%char.

Definition good_comparison (c : comparison) : bool :=
  neat (cmp_left c) && plain (cmp_left c) && bool_decide (cmp_op c ∈ operators) &&
  neat (cmp_right c) && plain (cmp_right c) && is_ok (parseValue (cmp_right c)).

(** A conjunction of disjunctions. *)
Definition print_clause (cl : list comparison) : string := join " || " (print_comparison <$> cl).
Definition print_cnf (cnf : list (list comparison)) : string := join " && " (print_clause <$> cnf).

Definition good_cnf (cnf : list (list comparison)) : Prop :=
  cnf ≠ [] ∧ Forall (λ cl, cl ≠ [] ∧ Forall (λ c, good_comparison c = true) cl) cnf.

Lemma plain_has_char s c :
  plain s = true → c ∈ ["="; "!"; "<"; ">"; "&"; "|"]%char → has_char c s = false.
Proof.
  unfold plain. intros H Hc. rewrite forallb_forall in H. apply negb_true_iff, H. by apply list_elem_of_In.
Qed.

(** Goes past the left operand and the bytes that do not match, to the right operand. *)
Local Ltac search_op :=
  rewrite strings_Cut_skip by (apply plain_has_char; [done|set_solver]);
  repeat rewrite strings_Cut_cons by reflexivity;
  first [rewrite has_char_no_sep by (apply plain_has_char; [done|set_solver])
        |rewrite strings_Cut_here by reflexivity];
  cbn [fmap option_fmap option_map comparison_loop drop_prefix].

Lemma parse_comparison_text c :
  good_comparison c = true →
  parseComparison (print_comparison c) = createComparisonEvaluator (cmp_left c) (cmp_op c) (cmp_right c).
Proof.
  destruct c as [l op r]. unfold good_comparison. cbn [cmp_left cmp_op cmp_right]. intros H.
  repeat match goal with H : _ && _ = true |- _ => apply andb_true_iff in H as [H ?] end.
  match goal with H : bool_decide _ = true |- _ => apply bool_decide_eq_true_1 in H; rename H into Hop end.
  assert (El : strings_TrimSpace (l +:+ " ") = l) by (by apply (TrimSpace_blanks 0 1)).
  assert (Er : strings_TrimSpace (String " " r) = r).
  { pose proof (TrimSpace_blanks 1 0 r ltac:(done)) as E. cbn [blanks] in E. by rewrite string_app_nil_r in E. }
  unfold parseComparison, print_comparison, operators in *. cbn [cmp_left cmp_op cmp_right].
  rewrite !elem_of_cons in Hop. rewrite elem_of_nil in Hop.
  destruct_or! Hop; subst op; try done;
    rewrite ?string_app_cons, ?string_app_nil_l; cbn [comparison_loop].
  all: repeat search_op; by rewrite Er, ?string_app_nil_r, ?El.
Qed.

(** Evaluators that agree on every event. *)
Definition agree (ev ev' : Evaluator) : Prop := ∀ e, ev e = ev' e.

Lemma eval_or_agree evs evs' e : Forall2 agree evs evs' → eval_or evs e = eval_or evs' e.
Proof. induction 1 as [|ev ev' evs evs' H Hs IH]; cbn; [done|]. by rewrite H, IH. Qed.

Lemma eval_and_agree evs evs' e : Forall2 agree evs evs' → eval_and evs e = eval_and evs' e.
Proof. induction 1 as [|ev ev' evs evs' H Hs IH]; cbn; [done|]. by rewrite H, IH. Qed.

(** A conjunction and a disjunction of one part are that part. *)
Lemma eval_or_one ev e : eval_or [ev] e = ev e.
Proof. cbn. unfold mbind, result_bind. by destruct (ev e) as [[]|]. Qed.

Lemma eval_and_one ev e : eval_and [ev] e = ev e.
Proof. cbn. unfold mbind, result_bind. by destruct (ev e) as [[]|]. Qed.

(** The parts of a text parse to evaluators that agree with those of the texts. *)
Lemma parse_parts_texts {A} f (text : A → string) (sem : A → Evaluator) (xs : list A) qs :
  strings_TrimSpace <$> qs = text <$> xs →
  Forall (λ x, ∃ ev, f (text x) = Ok ev ∧ agree ev (sem x)) xs →
  ∃ evs, parse_parts f qs = Ok evs ∧ Forall2 agree evs (sem <$> xs).
Proof.
  revert xs. induction qs as [|q qs IH]; intros [|x xs] E H; cbn in E; simplify_eq; [by exists []; repeat constructor|].
  inversion H as [|? ? (ev & Hev & Ha) Hs]; subst.
  destruct (IH xs) as (evs & Hevs & Has); [done..|]. exists (ev :: evs). split; [|by constructor].
  cbn. by rewrite H0, Hev, Hevs.
Qed.

Lemma good_comparison_inv c :
  good_comparison c = true →
  neat (cmp_left c) = true ∧ plain (cmp_left c) = true ∧ cmp_op c ∈ operators ∧
  neat (cmp_right c) = true ∧ plain (cmp_right c) = true ∧ ∃ v, parseValue (cmp_right c) = Ok v.
Proof.
  unfold good_comparison. intros H. propify. split_and!; try done.
  destruct (parseValue _); [eauto|done].
Qed.

Lemma comparison_text_facts c :
  good_comparison c = true →
  neat (print_comparison c) = true ∧ has_char "&" (print_comparison c) = false ∧
  has_char "|" (print_comparison c) = false.
Proof.
  intros (Hl & Pl & Hop & Hr & Pr & _)%good_comparison_inv. unfold print_comparison.
  assert (Ho : has_char "&" (cmp_op c) = false ∧ has_char "|" (cmp_op c) = false).
  { unfold operators in Hop. rewrite !elem_of_cons, elem_of_nil in Hop. destruct_or! Hop; try done; by rewrite Hop. }
  split; [|rewrite !has_char_app, !(plain_has_char (cmp_left c)), !(plain_has_char (cmp_right c)) by (done || set_solver);
           destruct Ho as [-> ->]; done].
  pose proof (neat_app _ _ Hl Hr (" " +:+ cmp_op c +:+ " ")) as N. by rewrite !string_app_assoc in N.
Qed.

Lemma parse_one_comparison st n c :
  good_comparison c = true →
  ∃ ev, parse_depth st (S n) (print_comparison c) = Ok ev ∧ agree ev (eval_comparison c).
Proof.
  intros Hc. destruct (comparison_text_facts c Hc) as (Hn & Ha & Ho).
  destruct (good_comparison_inv c Hc) as (_ & _ & _ & _ & _ & v & Hv).
  cbn [parse_depth]. rewrite (TrimSpace_neat _ Hn), bool_decide_eq_false_2 by (intros E; rewrite E in Hn; done).
  unfold strings_Contains. rewrite !has_char_no_sep by done. rewrite parse_comparison_text by done.
  unfold createComparisonEvaluator, eval_comparison. rewrite Hv. cbn. by eexists.
Qed.

Lemma clause_text_facts cl :
  cl ≠ [] → Forall (λ c, good_comparison c = true) cl →
  neat (print_clause cl) = true ∧ has_char "&" (print_clause cl) = false.
Proof.
  intros Hne Hcl. unfold print_clause. split.
  - apply neat_join; [by destruct cl|]. apply Forall_fmap. eapply Forall_impl; [exact Hcl|].
    intros c Hc. by apply comparison_text_facts.
  - clear Hne. induction Hcl as [|c cl Hc Hcl IH]; [done|].
    destruct (comparison_text_facts c Hc) as (_ & Ha & _). destruct cl as [|c' cl]; [done|].
    change (join " || " (print_comparison <$> c :: c' :: cl))
      with (print_comparison c +:+ " || " +:+ join " || " (print_comparison <$> c' :: cl)).
    by rewrite !has_char_app, Ha, IH.
Qed.

Lemma parse_clause st n cl :
  cl ≠ [] → Forall (λ c, good_comparison c = true) cl →
  ∃ ev, parse_depth st (S (S n)) (print_clause cl) = Ok ev ∧ agree ev (eval_or (eval_comparison <$> cl)).
Proof.
  intros Hne Hcl. destruct cl as [|c [|c' cl]]; [done| |].
  - inversion Hcl; subst. destruct (parse_one_comparison st (S n) c) as (ev & Hev & Ha); [done|].
    exists ev. split; [done|]. intros e. rewrite Ha. symmetry. apply eval_or_one.
  - set (cs := c :: c' :: cl) in *. destruct (clause_text_facts cs ltac:(done) Hcl) as [Hn Ha].
    pose proof (Split_blank_join "|" "|" (print_comparison <$> cs)) as Hsp.
    destruct (parse_parts_texts (parse_depth st (S n)) print_comparison eval_comparison cs
                (strings_Split (print_clause cs) "||")) as (evs & Hevs & Hag).
    { apply Hsp; [done..|]. apply Forall_fmap. eapply Forall_impl; [exact Hcl|].
      intros d Hd. destruct (comparison_text_facts d Hd) as (? & ? & ?). done. }
    { eapply Forall_impl; [exact Hcl|]. intros d Hd. by apply parse_one_comparison. }
    exists (eval_or evs). split; [|intros e; by apply eval_or_agree].
    set (m := S n) in *. cbn [parse_depth]. rewrite (TrimSpace_neat _ Hn), bool_decide_eq_false_2 by (intros E; rewrite E in Hn; done).
    unfold strings_Contains. rewrite has_char_no_sep by done.
    assert (strings_Contains (print_clause cs) "||" = true) as Hor.
    { change (print_clause cs) with (print_comparison c +:+ (" " +:+ ("||" +:+ " " +:+ print_clause (c' :: cl)))).
      do 2 apply strings_Contains_app_l. apply strings_Contains_app_r. reflexivity. }
    unfold strings_Contains in Hor. rewrite Hor. unfold parseOrExpression. by rewrite Hevs.
Qed.

Lemma parse_cnf st n cnf :
  good_cnf cnf →
  ∃ ev, parse_depth st (S (S (S n))) (print_cnf cnf) = Ok ev ∧
    agree ev (eval_and ((λ cl, eval_or (eval_comparison <$> cl)) <$> cnf)).
Proof.
  intros [Hne Hcnf]. destruct cnf as [|cl [|cl' cnf]]; [done| |].
  - inversion Hcnf as [|? ? [Hcl Hgood] _]; subst.
    destruct (parse_clause st (S n) cl) as (ev & Hev & Ha); [done..|].
    exists ev. split; [done|]. intros e. rewrite Ha. symmetry.
    apply (eval_and_one (eval_or (eval_comparison <$> cl))).
  - set (cs := cl :: cl' :: cnf) in *.
    assert (Hfacts : Forall (λ cl, neat (print_clause cl) = true ∧ has_char "&" (print_clause cl) = false) cs).
    { eapply Forall_impl; [exact Hcnf|]. intros d [? ?]. by apply clause_text_facts. }
    assert (Hn : neat (print_cnf cs) = true).
    { apply neat_join; [done|]. apply Forall_fmap. eapply Forall_impl; [exact Hfacts|]. by intros ? []. }
    destruct (parse_parts_texts (parse_depth st (S (S n))) print_clause (λ cl, eval_or (eval_comparison <$> cl)) cs
                (strings_Split (print_cnf cs) "&&")) as (evs & Hevs & Hag).
    { apply (Split_blank_join "&" "&" (print_clause <$> cs)); [done..|]. by apply Forall_fmap. }
    { eapply Forall_impl; [exact Hcnf|]. intros d [? ?]. by apply parse_clause. }
    exists (eval_and evs). split; [|intros e; by apply eval_and_agree].
    set (m := S (S n)) in *. cbn [parse_depth].
    rewrite (TrimSpace_neat _ Hn), bool_decide_eq_false_2 by (intros E; rewrite E in Hn; done).
    assert (strings_Contains (print_cnf cs) "&&" = true) as ->.
    { change (print_cnf cs) with (print_clause cl +:+ (" " +:+ ("&&" +:+ " " +:+ print_cnf (cl' :: cnf)))).
      do 2 apply strings_Contains_app_l. apply strings_Contains_app_r. reflexivity. }
    unfold parseAndExpression. by rewrite Hevs.
Qed.

(** An expression written as a conjunction of disjunctions of comparisons parses,
    and the filter evaluates them from left to right with short circuits. *)
Lemma parsed_comparisons cnf :
  good_cnf cnf →
  ∃ ef, NewExpressionFilter (print_cnf cnf) = Ok ef ∧ ∀ e,
    Filter (FilterOfExpression ef) e = eval_and ((λ cl, eval_or (eval_comparison <$> cl)) <$> cnf) e.
Proof.
  intros Hcnf. destruct (parse_cnf (Err (ErrNew "unreachable")) 0 cnf Hcnf) as (ev & Hev & Ha).
  exists (mkExpressionFilter (print_cnf cnf) ev). unfold NewExpressionFilter, parseExpression. rewrite Hev.
  split; [done|]. intros e. cbn. by rewrite Ha.
Qed.

(** ** Literals *)

(** A number as it is printed: what the tests of [parseValue] see of it. *)
Lemma parseValue_number z : min_int64 <= z <= max_int64 → parseValue (pretty z) = Ok (VInt64 z).
Proof.
  intros Hz. unfold parseValue. rewrite TrimSpace_neat by apply neat_pretty_Z.
  assert (Hscan : Sscanf_d (pretty z) = Some z).
  { destruct (scan_pretty_Z z) as (neg & body & k & v & Hs & Hd & _ & E). unfold Sscanf_d. rewrite Hs, Hd.
    cbn zeta. rewrite <- E. by rewrite (proj2 (Z.leb_le _ _)), (proj2 (Z.leb_le _ _)) by lia. }
  assert (Hdot : has_char "." (pretty z) = false).
  { destruct (has_char "." (pretty z)) eqn:E; [|done]. apply pretty_Z_chars in E as [E|E]; done. }
  unfold strings_Contains. rewrite has_char_no_sep by done. rewrite Hscan.
  destruct (pretty_Z_head z) as (c & s & -> & Hc).
  assert (is_quote c = false ∧ c ≠ "t"%char ∧ c ≠ "f"%char ∧ c ≠ "n"%char) as (Hq & Ht & Hf & Hn).
  { unfold is_quote. destruct Hc as [Hc| ->]; [|done]. split_and!; try (intros ->; done).
    apply orb_false_iff; split; apply bool_decide_eq_false_2; intros ->; done. }
  rewrite Hq, andb_false_r. rewrite !bool_decide_eq_false_2 by congruence. done.
Qed.

(** Literals mean what they print: a text between quotes is that text, and the
    decimal notation of an [int64] is that number. *)
Theorem literal_roundtrip :
  (∀ s, parseValue ("'" +:+ s +:+ "'") = Ok (VString s)) ∧
  (∀ z, min_int64 <= z <= max_int64 → parseValue (pretty z) = Ok (VInt64 z)).
Proof.
  split.
  - intros s. assert (Hn : neat ("'" +:+ s +:+ "'") = true) by by apply neat_app.
    unfold parseValue. rewrite TrimSpace_neat by done.
    assert (2 <=? slen ("'" +:+ s +:+ "'") = true) as ->.
    { unfold slen. rewrite !string_length_app. apply Z.leb_le. cbn. lia. }
    cbn [andb is_quote]. rewrite string_app_cons, string_app_nil_l.
    assert (is_quote "'" = true) as -> by done. do 2 f_equal. apply substring_middle.
    cbn [String.length]. rewrite string_length_app. cbn. lia.
  - apply parseValue_number.
Qed.

(** Equality with an integer literal holds of the columns that arrive as [int64]
    only: an [int], an [int32] or a floating-point column with the same number is
    not equal to it. *)
Theorem integer_equality_is_typed n v :
  compareValues v "==" (VInt64 n) = Ok (bool_decide (v = VInt64 n)) ∧
  (∀ z, v = VInt z ∨ v = VInt32 z ∨ (∃ f, v = VFloat64 f) → compareValues v "==" (VInt64 n) = Ok false).
Proof.
  split; [by destruct v|]. by intros z [->|[->|[f ->]]].
Qed.

(** ** The language of expressions

    Expressions as they are meant, with a meaning of their own: a comparison names a part of
    the event, an operator and a literal. *)
Inductive field_ref := FTable | FDatabase | FSchema | FOperation | FBefore (c : string) | FAfter (c : string) | FColumn (c : string).
Inductive literal := LString (s : string) | LInt (z : Z) | LBool (b : bool) | LNull.
Inductive cmp := CEq | CNe | CGe | CLe | CGt | CLt | CMatch | CNotMatch.
Record condition := mkCondition { cd_field : field_ref; cd_cmp : cmp; cd_literal : literal }.

(** How they are written. *)
Definition field_text (f : field_ref) : string :=
  match f with
  | FTable => "table" | FDatabase => "database" | FSchema => "schema" | FOperation => "operation"
  | FBefore c => "before" +:+ "." +:+ c | FAfter c => "after" +:+ "." +:+ c | FColumn c => c
  end.
Definition literal_text (l : literal) : string :=
  match l with LString s => "'" +:+ s +:+ "'" | LInt z => pretty z | LBool true => "true" | LBool false => "false" | LNull => "null" end.
Definition cmp_text (o : cmp) : string :=
  match o with
  | CEq => "==" | CNe => "!=" | CGe => ">=" | CLe => "<=" | CGt => ">" | CLt => "<" | CMatch => "=~" | CNotMatch => "!~"
  end.
Definition condition_text (c : condition) : string :=
  field_text (cd_field c) +:+ " " +:+ cmp_text (cd_cmp c) +:+ " " +:+ literal_text (cd_literal c).
Definition formula_text (cnf : list (list condition)) : string :=
  join " && " ((λ cl, join " || " (condition_text <$> cl)) <$> cnf).

(** What they mean, [None] where the filter reports an error: a column that is nowhere, an
    order of what is not a number, a pattern that does not compile. *)
Definition image (r : RowData) (c : string) : option value := f_Value <$> (default ∅ (rd_Fields r) : gmap string Field) !! c.

Definition field_meaning (e : ChangeEvent) (f : field_ref) : option value :=
  match f with
  | FTable => Some (VString (ti_Table (ev_Table e)))
  | FDatabase => Some (VString (ti_Database (ev_Table e)))
  | FSchema => Some (VString (ti_Schema (ev_Table e)))
  | FOperation => Some (VString (EventType_string (ev_Type e)))
  | FBefore c => Some (default VNil (image (ev_Before e) c))
  | FAfter c => Some (default VNil (image (ev_After e) c))
  | FColumn c => match image (ev_After e) c with Some v => Some v | None => image (ev_Before e) c end
  end.

Definition literal_meaning (l : literal) : value :=
  match l with LString s => VString s | LInt z => VInt64 z | LBool b => VBool b | LNull => VNil end.

Definition number (v : value) : option spec_float :=
  match v with
  | VInt z | VInt32 z | VInt64 z => Some (float64_of_int z)
  | VFloat32 f | VFloat64 f => Some f
  | VNil | VString _ | VBytes _ | VBool _ | VTime _ | VOther _ _ => None
  end.

Definition in_order (rel : spec_float → spec_float → bool) (v w : value) : option bool :=
  x ← number v; y ← number w; Some (rel x y).

Definition pattern_matches (v : value) (l : literal) : option bool :=
  match l with LString p => (λ re, MatchString re (fmt_v v)) <$> ok_or_none (regexp_Compile p) | _ => None end.

Definition condition_meaning (c : condition) (e : ChangeEvent) : option bool :=
  v ← field_meaning e (cd_field c);
  let l := cd_literal c in
  match cd_cmp c with
  | CEq => Some (bool_decide (v = literal_meaning l))
  | CNe => Some (bool_decide (v ≠ literal_meaning l))
  | CGe => in_order (λ x y, SFleb y x) v (literal_meaning l)
  | CLe => in_order SFleb v (literal_meaning l)
  | CGt => in_order (λ x y, SFltb y x) v (literal_meaning l)
  | CLt => in_order SFltb v (literal_meaning l)
  | CMatch => pattern_matches v l
  | CNotMatch => negb <$> pattern_matches v l
  end.

(** A clause asks its conditions in order until one holds, a formula its clauses until one
    does not. *)
Fixpoint clause_meaning (cl : list condition) (e : ChangeEvent) : option bool :=
  match cl with
  | [] => Some false
  | c :: cl => b ← condition_meaning c e; if (b : bool) then Some true else clause_meaning cl e
  end.
Fixpoint formula_meaning (cnf : list (list condition)) (e : ChangeEvent) : option bool :=
  match cnf with
  | [] => Some true
  | cl :: cnf => b ← clause_meaning cl e; if (b : bool) then formula_meaning cnf e else Some false
  end.

(** What the parser can read: names of columns without dots, space around them and the
    characters of operators, none of them a keyword; literals without those characters;
    numbers of 64 bits. *)
Definition column_ok (c : string) : bool := neat c && plain c && negb (has_char "." c).
Definition keywords : list string := ["table"; "database"; "schema"; "operation"; "op"; "before"; "after"].
Definition condition_ok (c : condition) : bool :=
  match cd_field c with
  | FBefore c | FAfter c => column_ok c
  | FColumn c => column_ok c && bool_decide (c ∉ keywords)
  | _ => true
  end &&
  match cd_literal c with LString s => plain s | LInt z => (min_int64 <=? z) && (z <=? max_int64) | _ => true end.
Definition formula_ok (cnf : list (list condition)) : Prop :=
  cnf ≠ [] ∧ Forall (λ cl, cl ≠ [] ∧ Forall (λ c, condition_ok c = true) cl) cnf.

Definition as_written (c : condition) : comparison :=
  mkComparison (field_text (cd_field c)) (cmp_text (cd_cmp c)) (literal_text (cd_literal c)).

Definition all_written (cnf : list (list condition)) : list (list comparison) := (λ cl : list condition, as_written <$> cl) <$> cnf.

Lemma plain_app a b : plain (a +:+ b) = plain a && plain b.
Proof.
  unfold plain. induction ["="; "!"; "<"; ">"; "&"; "|"]%char as [|c l IH]; [done|]. cbn. rewrite IH, has_char_app.
  destruct (has_char c a), (has_char c b), (forallb _ l), (forallb _ l); done.
Qed.

Lemma plain_pretty (z : Z) : plain (pretty z) = true.
Proof.
  unfold plain. apply forallb_forall. intros c Hc. destruct (has_char c (pretty z)) eqn:E; [|done].
  apply list_elem_of_In in Hc. apply pretty_Z_chars in E. exfalso. set_unfold.
  destruct E as [E| ->]; [|naive_solver]. destruct Hc as [->|[->|[->|[->|[->|[->|[]]]]]]]; done.
Qed.

Lemma literal_parsed l :
  match l with LString s => plain s | LInt z => (min_int64 <=? z) && (z <=? max_int64) | _ => true end = true →
  parseValue (literal_text l) = Ok (literal_meaning l) ∧ neat (literal_text l) = true ∧ plain (literal_text l) = true.
Proof.
  destruct literal_roundtrip as [Hs Hz]. destruct l as [s|z|[]|]; cbn [literal_text literal_meaning]; [..|done|done|done].
  - intros Hp. split; [apply Hs|]. split; [by apply neat_app|]. by rewrite !plain_app, Hp.
  - intros [H1%Z.leb_le H2%Z.leb_le]%andb_true_iff. split; [by apply Hz|]. split; [apply neat_pretty_Z|apply plain_pretty].
Qed.

Lemma side_value_image r c : side_value r c = default VNil (image r c).
Proof.
  unfold side_value, image, RowData_IsEmpty, rd_len, rd_lookup. destruct r as [[m|]]; [|done]. cbn.
  destruct (Nat.eqb_spec (size m) 0) as [H|H].
  - apply map_size_empty_iff in H as ->. by rewrite lookup_empty.
  - by destruct (m !! c).
Qed.

Lemma lookup_image r c : f_Value <$> (if RowData_IsEmpty (Some r) then None else rd_lookup r c) = image r c.
Proof.
  unfold image, RowData_IsEmpty, rd_len, rd_lookup. destruct r as [[m|]]; [|done]. cbn.
  destruct (Nat.eqb_spec (size m) 0) as [H|H]; [|done]. apply map_size_empty_iff in H as ->. by rewrite lookup_empty.
Qed.

Lemma field_read e f :
  match f with
  | FBefore c | FAfter c => column_ok c
  | FColumn c => column_ok c && bool_decide (c ∉ keywords)
  | _ => true
  end = true →
  ok_or_none (getFieldValue e (field_text f)) = field_meaning e f ∧ neat (field_text f) = true ∧ plain (field_text f) = true.
Proof.
  unfold column_ok. destruct f as [| | | |c|c|c]; cbn [field_text field_meaning]; try done.
  - intros [[Hn Hp]%andb_true_iff Hd%negb_true_iff]%andb_true_iff. split; [|split; [by apply (neat_app "before" c)|by rewrite !plain_app, Hp]].
    unfold getFieldValue. change ("before" +:+ "." +:+ c) with (join "." ["before"; c]). rewrite (Split_join "." "" ["before"; c]) by repeat (constructor || done).
    repeat (rewrite bool_decide_eq_false_2 by done). rewrite bool_decide_eq_true_2 by done. cbn [orb ok_or_none]. by rewrite side_value_image.
  - intros [[Hn Hp]%andb_true_iff Hd%negb_true_iff]%andb_true_iff. split; [|split; [by apply (neat_app "after" c)|by rewrite !plain_app, Hp]].
    unfold getFieldValue. change ("after" +:+ "." +:+ c) with (join "." ["after"; c]). rewrite (Split_join "." "" ["after"; c]) by repeat (constructor || done).
    repeat (rewrite bool_decide_eq_false_2 by done). rewrite bool_decide_eq_true_2 by done. cbn [orb ok_or_none]. by rewrite side_value_image.
  - intros [[[Hn Hp]%andb_true_iff Hd%negb_true_iff]%andb_true_iff Hk%bool_decide_eq_true]%andb_true_iff. split; [|done].
    unfold getFieldValue. change (strings_Split c ".") with (strings_Split (join "." [c]) "."). rewrite (Split_join "." "" [c]) by repeat (constructor || done).
    unfold keywords in Hk. rewrite !not_elem_of_cons in Hk. destruct Hk as (H1 & H2 & H3 & H4 & H5 & H6 & H7 & _).
    rewrite !bool_decide_eq_false_2 by done. cbn [orb].
    rewrite <- (lookup_image (ev_After e)), <- (lookup_image (ev_Before e)).
    by destruct (if RowData_IsEmpty (Some (ev_After e)) then _ else _), (if RowData_IsEmpty (Some (ev_Before e)) then _ else _).
Qed.

Lemma DeepEqual_literal v l : DeepEqual v (literal_meaning l) = bool_decide (v = literal_meaning l).
Proof. by destruct v, l. Qed.

Lemma number_toFloat64 v : number v = ok_or_none (toFloat64 v).
Proof. by destruct v. Qed.

Lemma compare_meaning v o l :
  ok_or_none (compareValues v (cmp_text o) (literal_meaning l)) =
  match o with
  | CEq => Some (bool_decide (v = literal_meaning l))
  | CNe => Some (bool_decide (v ≠ literal_meaning l))
  | CGe => in_order (λ x y, SFleb y x) v (literal_meaning l)
  | CLe => in_order SFleb v (literal_meaning l)
  | CGt => in_order (λ x y, SFltb y x) v (literal_meaning l)
  | CLt => in_order SFltb v (literal_meaning l)
  | CMatch => pattern_matches v l
  | CNotMatch => negb <$> pattern_matches v l
  end.
Proof.
  destruct o; unfold compareValues; cbn [cmp_text].
  - by rewrite bool_decide_eq_true_2, DeepEqual_literal by done.
  - rewrite bool_decide_eq_false_2, bool_decide_eq_true_2, DeepEqual_literal by done. cbn. f_equal. by rewrite bool_decide_not.
  - unfold compareNumbers, in_order. rewrite !number_toFloat64. cbn. by destruct (toFloat64 v), (toFloat64 (literal_meaning l)).
  - unfold compareNumbers, in_order. rewrite !number_toFloat64. cbn. by destruct (toFloat64 v), (toFloat64 (literal_meaning l)).
  - unfold compareNumbers, in_order. rewrite !number_toFloat64. cbn. by destruct (toFloat64 v), (toFloat64 (literal_meaning l)).
  - unfold compareNumbers, in_order. rewrite !number_toFloat64. cbn. by destruct (toFloat64 v), (toFloat64 (literal_meaning l)).
  - unfold match_pattern, pattern_matches. destruct l as [s|z|b|]; [|done..]. cbn. by destruct (regexp_Compile s).
  - unfold match_pattern, pattern_matches. destruct l as [s|z|b|]; [|done..]. cbn. by destruct (regexp_Compile s).
Qed.

Lemma condition_read c e : condition_ok c = true →
  good_comparison (as_written c) = true ∧ ok_or_none (eval_comparison (as_written c) e) = condition_meaning c e.
Proof.
  intros [Hf Hl]%andb_true_iff. destruct (field_read e _ Hf) as (Hget & Hn & Hp). destruct (literal_parsed _ Hl) as (Hpv & Hn' & Hp').
  split.
  - unfold good_comparison, as_written. cbn [cmp_left cmp_op cmp_right]. rewrite Hn, Hp, Hn', Hp', Hpv.
    rewrite bool_decide_eq_true_2; [done|]. unfold operators. destruct (cd_cmp c); set_solver.
  - unfold eval_comparison, as_written, condition_meaning. cbn [cmp_left cmp_op cmp_right]. rewrite Hpv. cbn.
    rewrite <- Hget. destruct (getFieldValue e (field_text (cd_field c))) as [v|]; [|done]. cbn. by rewrite compare_meaning.
Qed.

Lemma formula_text_comparisons cnf : formula_text cnf = print_cnf (all_written cnf).
Proof.
  unfold formula_text, print_cnf, all_written. f_equal. rewrite <- list_fmap_compose. apply list_fmap_ext. intros _ cl _. cbn.
  unfold print_clause. f_equal. by rewrite <- list_fmap_compose.
Qed.

Lemma clause_meaning_eval cl e : Forall (λ c, condition_ok c = true) cl →
  ok_or_none (eval_or (eval_comparison <$> (as_written <$> cl)) e) = clause_meaning cl e.
Proof.
  induction 1 as [|c cl Hc _ IH]; [done|]. cbn [fmap list_fmap eval_or clause_meaning].
  destruct (condition_read c e Hc) as [_ <-]. destruct (eval_comparison (as_written c) e) as [[]|]; [done|exact IH|done].
Qed.

Lemma formula_meaning_eval cnf e : Forall (λ cl, cl ≠ [] ∧ Forall (λ c, condition_ok c = true) cl) cnf →
  ok_or_none (eval_and ((λ cl, eval_or (eval_comparison <$> cl)) <$> (all_written cnf)) e) = formula_meaning cnf e.
Proof.
  induction 1 as [|cl cnf [_ Hcl] _ IH]; [done|]. cbn [all_written fmap list_fmap eval_and formula_meaning].
  rewrite <- (clause_meaning_eval cl e Hcl). destruct (eval_or _ e) as [[]|]; [exact IH|done|done].
Qed.

(** C16. An expression decides what it means: a conjunction of disjunctions of comparisons,
    written as a text, parses, and the filter answers the value of the formula, asked from
    left to right with short circuits, or reports an error exactly where the formula has no
    value.  [||] binds tighter than [&&].  Names and literals are without the characters
    operators are made of, which the parser splits at even inside quotes. *)
Theorem expression_semantics cnf :
  formula_ok cnf →
  ∃ ef, NewExpressionFilter (formula_text cnf) = Ok ef ∧
    ∀ e, ok_or_none (Filter (FilterOfExpression ef) e) = formula_meaning cnf e.
Proof.
  intros [Hne Hok]. rewrite formula_text_comparisons.
  destruct (parsed_comparisons (all_written cnf)) as (ef & Hef & Hev).
  { split; [by destruct cnf|]. apply Forall_fmap. eapply Forall_impl; [exact Hok|]. intros cl [Hcl Hcs]. split; [by destruct cl|].
    apply Forall_fmap. eapply Forall_impl; [exact Hcs|]. intros c Hc. by apply (condition_read c ChangeEvent_zero). }
  exists ef. split; [done|]. intros e. rewrite Hev. by apply formula_meaning_eval.
Qed.

(** ** Chains *)

(** A chain answers with its first filter that does not let the event pass: an event
    passes when all do, and the filters behind one that blocks or fails are not asked. *)
Theorem chain_first_not_passing fs e :
  Filter (FilterChain fs) e =
    match list_find (λ f, Filter f e ≠ Ok true) fs with
    | Some (_, f) => Filter f e
    | None => Ok true
    end ∧
  (Filter (FilterChain fs) e = Ok true ↔ ∀ f, f ∈ fs → Filter f e = Ok true).
Proof.
  induction fs as [|f fs [IH IHp]]; [cbn; split; [done|set_solver]|].
  assert (E : Filter (FilterChain (f :: fs)) e =
              (pass ← Filter f e; if (pass : bool) then Filter (FilterChain fs) e else Ok false)) by done.
  rewrite E. cbn [list_find].
  unfold mbind, result_bind. destruct (Filter f e) as [[]|err] eqn:Ef.
  - rewrite decide_False by (intros H; by apply H). split.
    + rewrite IH. by destruct (list_find _ fs) as [[]|].
    + rewrite IHp. split; [intros H g [->|Hg]%elem_of_cons; auto|intros H g Hg; apply H; by right].
  - rewrite decide_True by done. rewrite Ef. split; [done|]. split; [done|].
    intros H. specialize (H f ltac:(left)). congruence.
  - rewrite decide_True by done. rewrite Ef. split; [done|]. split; [done|].
    intros H. specialize (H f ltac:(left)). congruence.
Qed.
End Filters.

(** ** Concrete runs *)

Module FilterRuns.

(** Patterns that are plain substrings; a leading star is not a pattern. *)
Definition substring_regexp : Regexp := {|
  regexp := string;
  regexp_Compile := λ p, if has_prefix "*" p then Err (ErrNew "missing argument to repetition operator") else Ok p;
  MatchString := λ re s, strings_Contains s re
|}.
#[local] Existing Instance substring_regexp.

Definition plain_fmt : Fmt := {|
  fmt_v := λ v, match v with VString s => s | VInt64 z => pretty z | _ => "" end;
  Sscanf_f := λ s, Err (ErrNew "no number")
|}.
#[local] Existing Instance plain_fmt.

Definition users_insert : ChangeEvent :=
  mkChangeEvent "1" SourceInfo_zero EventTypeInsert Position_zero
    (mkTableInfo "shop" "" "users" ["id"] [] []) RowData_zero
    (mkRowData (Some {["id" := mkField "id" (VInt64 7) "bigint" false;
                       "age" := mkField "age" (VInt32 18) "int" false]}))
    0 None None None.

Definition users_rules : RuleConfig :=
  mkRuleConfig ["shop.users"] ["archive"] ["shop"] [] [] [EventTypeDelete].

Definition users_filter : RuleFilter := mkRuleFilter ["shop.users"] ["archive"] ["shop"] [] ∅ {["delete"]}.

Lemma rule_filter_spec_witness :
  NewRuleFilter users_rules = Ok users_filter ∧
  ∃ b, RuleFilter_Filter users_filter users_insert = Ok b ∧ (b = true ↔ allowed users_rules users_insert).
Proof. split; [reflexivity|]. apply (rule_filter_spec users_rules users_filter users_insert). reflexivity. Defined.

Example users_pass : RuleFilter_Filter users_filter users_insert = Ok true.
Proof. reflexivity. Qed.

Lemma parse_depth_enough_witness :
  parse_depth (Ok (λ _, Ok true)) 3 "a == 1 && b == 2 || c == 3" =
  parse_depth (Err IoEOF) 9 "a == 1 && b == 2 || c == 3".
Proof. apply (parse_depth_enough (Ok (λ _, Ok true)) (Err IoEOF) 3 9); lia. Defined.

(** [table == 'users' || operation == 'delete' && after.id > 5] *)
Definition or_and : list (list condition) :=
  [[mkCondition FTable CEq (LString "users"); mkCondition FOperation CEq (LString "delete")]; [mkCondition (FAfter "id") CGt (LInt 5)]].

Lemma or_and_ok : formula_ok or_and.
Proof. split; [done|]. repeat constructor; done. Defined.

Lemma expression_semantics_witness :
  formula_ok or_and ∧
  ∃ ef, NewExpressionFilter "table == 'users' || operation == 'delete' && after.id > 5" = Ok ef ∧
    ok_or_none (Filter (FilterOfExpression ef) users_insert) = Some true.
Proof.
  split; [apply or_and_ok|].
  destruct (expression_semantics or_and or_and_ok) as (ef & Hef & Hsem).
  exists ef. split; [exact Hef|]. rewrite Hsem. vm_compute. reflexivity.
Defined.

(** A conjunction that a usual reading takes first is taken last: the two readings
    differ on an insert into [users] with [id] 7 and the literal 9. *)
Example or_binds_tighter :
  (ev ← parseExpression "table == 'users' || op == 'delete' && after.id > 9"; ev users_insert) = Ok false.
Proof. vm_compute. reflexivity. Qed.

(** Quotes do not protect operators: a literal that contains one is cut in two. *)
Example quoted_operator_splits :
  parseExpression "after.name == 'a && b'" = Err (ErrNew "no valid operator found in expression: b'").
Proof. vm_compute. reflexivity. Qed.

Lemma literal_roundtrip_witness :
  parseValue "'O''Brien'" = Ok (VString "O''Brien") ∧ parseValue "-9223372036854775808" = Ok (VInt64 (- 2 ^ 63)).
Proof.
  destruct literal_roundtrip as [Hs Hz]. split; [apply (Hs "O''Brien")|].
  apply (Hz (- 2 ^ 63)). unfold min_int64, max_int64. lia.
Defined.

Lemma integer_equality_is_typed_witness :
  compareValues (VInt32 18) "==" (VInt64 18) = Ok false.
Proof. destruct (integer_equality_is_typed 18 (VInt32 18)) as [_ H]. apply (H 18). auto. Defined.
End FilterRuns.
