(* ===== verification/Routing.v ===== *)
(** Routing and transforming events: the table and partition routers
    (internal/router) and the transformers (internal/transform): chains, field
    mappings, the built-in transformers and their registry.

    A [*event.ChangeEvent] that may be nil is an [option]; [rand.Intn] is an argument
    of the call that draws.  A transformer changes the event it is given and returns
    it: the event a caller goes on with is the one that is returned. *)
From Stdlib Require Import ZArith Lia Ascii.
From Stdlib Require String.
From stdpp Require Import prelude countable gmap strings list fin_maps pretty.
From S2P Require Import Prelude Events Hash Strings.
Local Open Scope Z_scope.

(** ** router.go, table.go *)

Definition PartitionByTable : string := "table".
Definition PartitionByPK : string := "pk".
Definition PartitionByField : string := "field".
Definition PartitionRandom : string := "random".

Record RouterConfig := mkRouterConfig {
  rcf_TableMapping : gmap string string;
  rcf_DefaultSink : string;
  rcf_PartitionStrategy : string;
  rcf_PartitionCount : Z;
  rcf_PartitionKey : list string
}.

Record TableRouter := mkTableRouter { tr_tableMapping : gmap string string; tr_defaultSink : string }.

Definition NewTableRouter (cfg : RouterConfig) : TableRouter :=
  mkTableRouter (rcf_TableMapping cfg) (rcf_DefaultSink cfg).

Definition TableRouter_Route (tr : TableRouter) (e : ChangeEvent) : result string :=
  let tableName := ti_Database (ev_Table e) +:+ "." +:+ ti_Table (ev_Table e) in
  match tr_tableMapping tr !! tableName with
  | Some sinkID => Ok sinkID
  | None => Ok (tr_defaultSink tr)
  end.

(** ** partition.go *)

Record PartitionRouter := mkPartitionRouter {
  pr_strategy : string;
  pr_partitionCount : Z;
  pr_partitionKey : list string
}.

Definition NewPartitionRouter (cfg : RouterConfig) : PartitionRouter :=
  mkPartitionRouter (rcf_PartitionStrategy cfg) (rcf_PartitionCount cfg) (rcf_PartitionKey cfg).

Section Routers.
(** The [%v] verb of [fmt], and the number [rand.Intn(n)] draws when [n] is positive. *)
Context (fmt_v : value → string) (Intn : Z → Z).

(** The two loops that build a key from columns of [After]. *)
Definition append_column (row : RowData) (key col : string) : string :=
  match RowData_GetField (Some row) col with
  | Some field => key +:+ fmt_v (f_Value field) +:+ "|"
  | None => key
  end.

Definition columns_key (row : RowData) (cols : list string) : string := foldl (append_column row) "" cols.

Definition partition_key (pr : PartitionRouter) (e : ChangeEvent) : string :=
  if bool_decide (pr_strategy pr = PartitionByTable) then ti_Database (ev_Table e) +:+ "." +:+ ti_Table (ev_Table e)
  else if bool_decide (pr_strategy pr = PartitionByPK) then columns_key (ev_After e) (ti_PrimaryKeyColumns (ev_Table e))
  else if bool_decide (pr_strategy pr = PartitionByField) then columns_key (ev_After e) (pr_partitionKey pr)
  else "".

Definition PartitionRouter_Route (pr : PartitionRouter) (e : ChangeEvent) : result string :=
  if bool_decide (pr_strategy pr = PartitionRandom) then
    if pr_partitionCount pr <=? 0 then Err (Panic "invalid argument to Intn")
    else Ok (pretty (Intn (pr_partitionCount pr)))
  else
    let count := u32 (pr_partitionCount pr) in
    if count =? 0 then Err (Panic "integer divide by zero")
    else Ok (pretty (FNV32 (partition_key pr e) mod count)).

(** ** Routers *)

Lemma columns_key_ext row row' cols :
  (∀ c, c ∈ cols → RowData_GetField (Some row') c = RowData_GetField (Some row) c) →
  columns_key row' cols = columns_key row cols.
Proof.
  unfold columns_key. generalize "". induction cols as [|c cols IH]; intros k H; cbn [foldl]; [done|].
  unfold append_column at 2 4. rewrite (H c) by left. apply IH. intros c' Hc'. apply H. by right.
Qed.

(** A partition router with a positive number of partitions (that fits [uint32])
    always answers, with the decimal notation of a partition below that number; the
    strategies by table and by key depend on nothing but the table's name and on
    nothing but the key columns of the new row.  Without partitions it panics. *)
Theorem partition_in_range pr e :
  (∀ n, 0 < n → 0 <= Intn n < n) →
  (0 < pr_partitionCount pr < 2 ^ 32 →
    ∃ p, PartitionRouter_Route pr e = Ok (pretty p) ∧ 0 <= p < pr_partitionCount pr) ∧
  (pr_partitionCount pr = 0 → ∃ msg, PartitionRouter_Route pr e = Err (Panic msg)) ∧
  (pr_strategy pr = PartitionByTable → ∀ e',
    ti_Database (ev_Table e') = ti_Database (ev_Table e) → ti_Table (ev_Table e') = ti_Table (ev_Table e) →
    PartitionRouter_Route pr e' = PartitionRouter_Route pr e) ∧
  (pr_strategy pr = PartitionByPK → ∀ e',
    ti_PrimaryKeyColumns (ev_Table e') = ti_PrimaryKeyColumns (ev_Table e) →
    (∀ c, c ∈ ti_PrimaryKeyColumns (ev_Table e) →
       RowData_GetField (Some (ev_After e')) c = RowData_GetField (Some (ev_After e)) c) →
    PartitionRouter_Route pr e' = PartitionRouter_Route pr e).
Proof.
  intros Hi. unfold PartitionRouter_Route. split_and!.
  - intros Hc. case_bool_decide.
    + rewrite (proj2 (Z.leb_gt _ _)) by lia. eexists. split; [done|]. apply Hi. lia.
    + cbn zeta. rewrite u32_small by lia. rewrite (proj2 (Z.eqb_neq _ _)) by lia.
      eexists. split; [done|]. apply Z.mod_pos_bound. lia.
  - intros ->. case_bool_decide; eauto.
  - intros Hs e' Hd Ht. unfold partition_key. rewrite Hs, Hd, Ht. done.
  - intros Hs e' Hpk Hcols. unfold partition_key. rewrite Hs. cbn. rewrite Hpk. cbn.
    by rewrite (columns_key_ext _ _ _ Hcols).
Qed.

Lemma columns_key_empty row cols : RowData_IsEmpty (Some row) = true → columns_key row cols = "".
Proof.
  intros H. unfold columns_key. induction cols as [|c cols IH]; [done|]. cbn [foldl].
  unfold append_column at 2. assert (RowData_GetField (Some row) c = None) as ->; [|done].
  unfold RowData_IsEmpty, rd_len in H. apply Nat.eqb_eq in H. cbn. unfold rd_lookup.
  destruct (rd_Fields row) as [m|]; [|done]. cbn in *. apply map_size_empty_inv in H. by subst.
Qed.

(** A delete has no new row: partitioning by key sends the deletes of all rows to
    one partition, that of the empty key, whatever partition their inserts and
    updates went to. *)
Theorem deletes_share_a_partition pr e :
  pr_strategy pr = PartitionByPK → RowData_IsEmpty (Some (ev_After e)) = true → u32 (pr_partitionCount pr) ≠ 0 →
  PartitionRouter_Route pr e = Ok (pretty (fnv32Offset mod u32 (pr_partitionCount pr))).
Proof.
  intros Hs He Hc. unfold PartitionRouter_Route, partition_key. rewrite Hs. cbn.
  rewrite columns_key_empty by done. by rewrite (proj2 (Z.eqb_neq _ _)).
Qed.
End Routers.

(** ** transform.go *)

Definition TransformFunc : Type := option ChangeEvent → result (option ChangeEvent).

(** A function that dereferences the event it is given. *)
Definition on_event (f : ChangeEvent → result ChangeEvent) : TransformFunc := λ oe,
  match oe with
  | None => Err (Panic "nil pointer dereference")
  | Some e => e' ← f e; Ok (Some e')
  end.

Definition with_rows (before after : RowData) (e : ChangeEvent) : ChangeEvent :=
  mkChangeEvent (ev_ID e) (ev_Source e) (ev_Type e) (ev_Position e) (ev_Table e) before after
    (ev_Timestamp e) (ev_Transaction e) (ev_Schema e) (ev_Metadata e).

(** ** custom.go *)

Record CustomTransformer := mkCustomTransformer { ct_name : string; ct_transformFn : option TransformFunc }.

Record CustomTransformerConfig := mkCustomTransformerConfig {
  ctc_Name : string;
  ctc_Type : string;
  ctc_Script : string;
  ctc_TransformFunc : option TransformFunc
}.

Definition NewCustomTransformer (config : CustomTransformerConfig) : result CustomTransformer :=
  if bool_decide (ctc_Type config = "native") then
    match ctc_TransformFunc config with
    | None => Err (ErrNew "native transformer requires TransformFunc")
    | Some f => Ok (mkCustomTransformer (ctc_Name config) (Some f))
    end
  else if bool_decide (ctc_Type config = "lua") then Err (ErrNew "lua transformer not yet implemented")
  else if bool_decide (ctc_Type config = "wasm") then Err (ErrNew "wasm transformer not yet implemented")
  else Err (ErrNew ("unknown transformer type: " +:+ ctc_Type config)).

Definition CustomTransformer_Transform (t : CustomTransformer) : TransformFunc := λ e,
  match ct_transformFn t with
  | None => Ok e
  | Some f => f e
  end.

Definition ScriptTransformerRegistry : Type := gmap string CustomTransformer.
Definition NewScriptTransformerRegistry : ScriptTransformerRegistry := ∅.
Definition Registry_Register (name : string) (t : CustomTransformer) (r : ScriptTransformerRegistry) :
  ScriptTransformerRegistry := <[name := t]> r.
Definition Registry_Get (r : ScriptTransformerRegistry) (name : string) : option CustomTransformer := r !! name.
Definition Registry_Remove (name : string) (r : ScriptTransformerRegistry) : ScriptTransformerRegistry := delete name r.
Definition Registry_List `{!GoRange string CustomTransformer} (r : ScriptTransformerRegistry) : list string :=
  (go_range r).*1.

(** The fields of a row that is not empty, with [f] applied. *)
Definition update_row (f : gmap string Field → gmap string Field) (row : RowData) : RowData :=
  if RowData_IsEmpty (Some row) then row
  else match rd_Fields row with
       | None => row
       | Some m => mkRowData (Some (f m))
       end.

(** [e.After.Fields[name] = Field{...}] of a row that is not empty. *)
Definition put_field (name : string) (v : value) (typ : string) (row : RowData) : RowData :=
  update_row (λ m, <[name := mkField name v typ false]> m) row.

Definition NewAddFieldTransformer (fieldName : string) (v : value) : CustomTransformer :=
  mkCustomTransformer ("add-field-" +:+ fieldName)
    (Some (on_event (λ e, Ok (with_rows (ev_Before e) (put_field fieldName v "string" (ev_After e)) e)))).

Definition NewRemoveFieldTransformer (fieldName : string) : CustomTransformer :=
  mkCustomTransformer ("remove-field-" +:+ fieldName)
    (Some (on_event (λ e, Ok (with_rows (update_row (delete fieldName) (ev_Before e))
                                        (update_row (delete fieldName) (ev_After e)) e)))).

(** Taking a field out and putting it back under another name. *)
Definition rename_field (oldName newName : string) (m : gmap string Field) : gmap string Field :=
  match m !! oldName with
  | Some v => <[newName := mkField newName (f_Value v) (f_Type v) (f_Null v)]> (delete oldName m)
  | None => m
  end.

Definition NewRenameFieldTransformer (oldName newName : string) : CustomTransformer :=
  mkCustomTransformer ("rename-field-" +:+ oldName)
    (Some (on_event (λ e, Ok (with_rows (update_row (rename_field oldName newName) (ev_Before e))
                                        (update_row (rename_field oldName newName) (ev_After e)) e)))).

Definition NewTimestampTransformer (fieldName : string) : CustomTransformer :=
  mkCustomTransformer ("timestamp-" +:+ fieldName)
    (Some (on_event (λ e, Ok (with_rows (ev_Before e)
                                (put_field fieldName (VTime (ev_Timestamp e)) "timestamp" (ev_After e)) e)))).

(** ** mapper.go *)

(** [(interface{}, error)]: [None] is an error. *)
Definition FieldConverter : Type := value → option value.

Record MappingTransformer := mkMappingTransformer {
  mt_fieldMapping : gmap string string;
  mt_fieldConverters : gmap string FieldConverter;
  mt_staticFields : gmap string value
}.

(** The configuration's maps are copied; without one the maps are empty. *)
Definition NewMappingTransformer (cfg : option MappingTransformer) : MappingTransformer :=
  default (mkMappingTransformer ∅ ∅ ∅) cfg.

Definition AddFieldMapping (src dst : string) (mt : MappingTransformer) : MappingTransformer :=
  mkMappingTransformer (<[src := dst]> (mt_fieldMapping mt)) (mt_fieldConverters mt) (mt_staticFields mt).
Definition AddFieldConverter (name : string) (c : FieldConverter) (mt : MappingTransformer) : MappingTransformer :=
  mkMappingTransformer (mt_fieldMapping mt) (<[name := c]> (mt_fieldConverters mt)) (mt_staticFields mt).
Definition AddStaticField (name : string) (v : value) (mt : MappingTransformer) : MappingTransformer :=
  mkMappingTransformer (mt_fieldMapping mt) (mt_fieldConverters mt) (<[name := v]> (mt_staticFields mt)).

(** The body of the loop: the entry that [name, field] becomes. *)
Definition map_entry (mt : MappingTransformer) (nf : string * Field) : string * Field :=
  let '(name, field) := nf in
  let targetName := default name (mt_fieldMapping mt !! name) in
  match mt_fieldConverters mt !! name with
  | Some converter =>
      match converter (f_Value field) with
      | None => (name, field)
      | Some v => (targetName, mkField targetName v (f_Type field) (f_Null field))
      end
  | None => (targetName, mkField targetName (f_Value field) (f_Type field) (f_Null field))
  end.

Arguments map_entry : simpl never.

Section Mapping.
Context `{!GoRange string Field} `{!GoRange string value}.

Definition transformRowData (mt : MappingTransformer) (row : RowData) : RowData :=
  if RowData_IsEmpty (Some row) then row
  else mkRowData (Some (foldl (λ m nf, let '(k, f) := map_entry mt nf in <[k := f]> m) ∅
                          (go_range (default ∅ (rd_Fields row))))).

(** The loop over the static fields writes into the map of [After]. *)
Fixpoint add_static (entries : list (string * value)) (row : RowData) : result RowData :=
  match entries with
  | [] => Ok row
  | (name, v) :: entries =>
      match rd_Fields row with
      | None => Err (Panic "assignment to entry in nil map")
      | Some m => add_static entries (mkRowData (Some (<[name := mkField name v "static" false]> m)))
      end
  end.

Definition has_mapping (mt : MappingTransformer) : bool :=
  bool_decide (mt_fieldMapping mt ≠ ∅) || (0 <? Z.of_nat (size (mt_fieldConverters mt))).

Definition MappingTransformer_Transform (mt : MappingTransformer) : TransformFunc :=
  on_event (λ e,
    let after := if has_mapping mt then transformRowData mt (ev_After e) else ev_After e in
    let before := if (0 <? Z.of_nat (rd_len (ev_Before e))) && has_mapping mt
                  then transformRowData mt (ev_Before e) else ev_Before e in
    after ← add_static (go_range (mt_staticFields mt)) after;
    Ok (with_rows before after e)).

(** The implementations of the [Transformer] interface. *)
Inductive AnyTransformer :=
  | IdentityTransformer
  | TransformerCustom (t : CustomTransformer)
  | TransformerMapping (mt : MappingTransformer)
  | TransformChain (ts : list AnyTransformer).

Fixpoint Transform (t : AnyTransformer) (e : option ChangeEvent) : result (option ChangeEvent) :=
  match t with
  | IdentityTransformer => Ok e
  | TransformerCustom ct => CustomTransformer_Transform ct e
  | TransformerMapping mt => MappingTransformer_Transform mt e
  | TransformChain ts =>
      (fix loop (ts : list AnyTransformer) (e : option ChangeEvent) : result (option ChangeEvent) :=
         match ts with
         | [] => Ok e
         | t :: ts => e' ← Transform t e; loop ts e'
         end) ts e
  end.

Definition TransformChain_Add (t : AnyTransformer) (chain : AnyTransformer) : AnyTransformer :=
  match chain with TransformChain ts => TransformChain (ts ++ [t]) | other => other end.

(** ** Mappings *)

Lemma foldl_insert_entries (g : string * Field → string * Field) (l : list (string * Field)) (m : gmap string Field) k :
  NoDup (fst <$> (g <$> l)) →
  foldl (λ m nf, let '(k, f) := g nf in <[k := f]> m) m l !! k =
  match list_find (λ nf, (g nf).1 = k) l with
  | Some (_, nf) => Some (g nf).2
  | None => m !! k
  end.
Proof.
  revert m. induction l as [|x l IH]; intros m Hnd; [done|]. cbn [foldl list_find fmap list_fmap] in *.
  apply NoDup_cons in Hnd as [Hx Hnd]. destruct (g x) as [kx fx] eqn:Ex. rewrite IH by done. cbn in *.
  destruct (list_find (λ nf, (g nf).1 = k) l) as [[i y]|] eqn:E; cbn.
  - apply list_find_Some in E as (Hy & Hk & _). rewrite decide_False; [done|]. intros ->. apply Hx.
    rewrite <- Hk. apply list_elem_of_fmap. eexists; split; [done|]. apply list_elem_of_fmap.
    eexists; split; [done|]. by eapply list_elem_of_lookup_2.
  - case_decide; [subst; by rewrite Ex, lookup_insert_eq|by rewrite lookup_insert_ne].
Qed.

(** The columns a mapping gives the row, without collisions. *)
Definition no_collision (mt : MappingTransformer) (fields : gmap string Field) : Prop :=
  ∀ n1 f1 n2 f2, fields !! n1 = Some f1 → fields !! n2 = Some f2 →
    (map_entry mt (n1, f1)).1 = (map_entry mt (n2, f2)).1 → n1 = n2.

Lemma no_collision_NoDup mt fields :
  no_collision mt fields → NoDup (fst <$> (map_entry mt <$> go_range fields)).
Proof.
  intros H. rewrite <- list_fmap_compose. apply NoDup_fmap_2_strong.
  - intros [n1 f1] [n2 f2] H1%go_range_lookup H2%go_range_lookup E. cbn in E.
    pose proof (H _ _ _ _ H1 H2 E) as ->. congruence.
  - eapply NoDup_fmap_1. apply go_range_NoDup.
Qed.

(** A mapping whose targets do not collide on a row turns it into the row with
    exactly the mapped fields, in whatever order the map is visited: a field is under
    its target name (its own where there is none, or where its converter fails) with
    its converted value. *)
Theorem transformRowData_spec mt row fields k f :
  rd_Fields row = Some fields → fields ≠ ∅ → no_collision mt fields →
  rd_lookup (transformRowData mt row) k = Some f ↔
  ∃ name field, fields !! name = Some field ∧ map_entry mt (name, field) = (k, f).
Proof.
  intros Hrow Hne Hnc. unfold transformRowData, RowData_IsEmpty, rd_len, rd_lookup. rewrite Hrow. cbn.
  rewrite (proj2 (Nat.eqb_neq _ _)) by (by intros ?%map_size_empty_inv). cbn.
  rewrite foldl_insert_entries by by apply no_collision_NoDup.
  destruct (list_find _ _) as [[i nf]|] eqn:E.
  - apply list_find_Some in E as (Hi & Hk & _). apply list_elem_of_lookup_2 in Hi. destruct nf as [n0 f0].
    apply go_range_lookup in Hi. split.
    + intros [= <-]. exists n0, f0. split; [done|]. rewrite <- Hk. apply surjective_pairing.
    + intros (n1 & f1 & H1 & E1). assert (n1 = n0) as -> by (apply (Hnc n1 f1 n0 f0); [done..|]; rewrite E1; by rewrite Hk).
      assert (f1 = f0) as -> by congruence. by rewrite E1.
  - rewrite lookup_empty. split; [done|]. intros (n1 & f1 & H1 & E1).
    apply list_find_None in E. rewrite Forall_forall in E. apply go_range_lookup, E in H1. by rewrite E1 in H1.
Qed.

(** Static fields cannot be added to an event without a new row: on a delete, whose
    row has no map, the transformer panics. *)
Theorem static_fields_need_a_row mt e :
  mt_staticFields mt ≠ ∅ → rd_Fields (ev_After e) = None →
  Transform (TransformerMapping mt) (Some e) = Err (Panic "assignment to entry in nil map").
Proof.
  intros Hs Ha. cbn. unfold MappingTransformer_Transform, on_event.
  assert (transformRowData mt (ev_After e) = ev_After e) as E.
  { unfold transformRowData, RowData_IsEmpty, rd_len. by rewrite Ha. }
  destruct (go_range (mt_staticFields mt)) as [|[n v] l] eqn:Er.
  - destruct Hs. pose proof (go_range_perm (mt_staticFields mt)) as P. rewrite Er in P. symmetry in P.
    apply Permutation_nil_r in P. by apply map_to_list_empty_iff in P.
  - destruct (has_mapping mt); rewrite ?E; cbn; by rewrite Ha.
Qed.

(** ** Chains and built-in transformers *)

Lemma chain_cons t ts e : Transform (TransformChain (t :: ts)) e = (e' ← Transform t e; Transform (TransformChain ts) e').
Proof. done. Qed.

(** A chain runs its transformers in order, each on the event the one before it
    returned, and stops at the first error; a chain of chains is the chain of their
    transformers. *)
Theorem chain_composes ts us e :
  Transform (TransformChain (ts ++ us)) e =
    (e' ← Transform (TransformChain ts) e; Transform (TransformChain us) e') ∧
  Transform (TransformChain (ts ++ [TransformChain us])) e = Transform (TransformChain (ts ++ us)) e.
Proof.
  assert (H : ∀ ts us e, Transform (TransformChain (ts ++ us)) e =
    (e' ← Transform (TransformChain ts) e; Transform (TransformChain us) e')).
  { clear. intros ts us. induction ts as [|t ts IH]; intros e; [done|]. cbn [app]. rewrite !chain_cons.
    unfold mbind, result_bind in *. destruct (Transform t e) as [e'|]; [|done]. apply IH. }
  split; [apply H|]. rewrite !H. unfold mbind, result_bind.
  destruct (Transform (TransformChain ts) e) as [e'|]; [|done]. rewrite chain_cons.
  unfold mbind, result_bind. by destruct (Transform (TransformChain us) e').
Qed.

Lemma rename_field_inverse a b m f :
  m !! a = Some f → f_Name f = a → m !! b = None → rename_field b a (rename_field a b m) = m.
Proof.
  intros Ha Hn Hb. assert (a ≠ b) as Hab by congruence. unfold rename_field. rewrite Ha, lookup_insert_eq. cbn.
  rewrite delete_insert_id by (by rewrite lookup_delete_ne). rewrite insert_delete_id; [done|].
  rewrite Ha. destruct f. cbn in *. congruence.
Qed.

Lemma update_row_rename_inverse a b row :
  (∀ m, rd_Fields row = Some m → m !! b = None ∧ ∀ f, m !! a = Some f → f_Name f = a) →
  update_row (rename_field b a) (update_row (rename_field a b) row) = row.
Proof.
  intros H. destruct row as [[m|]]; [|done]. destruct (H m eq_refl) as [Hb Ha]. unfold update_row.
  destruct (RowData_IsEmpty (Some (mkRowData (Some m)))) eqn:Em; [by rewrite Em|]. cbn [rd_Fields].
  assert (RowData_IsEmpty (Some (mkRowData (Some (rename_field a b m)))) = false) as ->.
  { unfold RowData_IsEmpty, rd_len in *. cbn in *. apply Nat.eqb_neq in Em. apply Nat.eqb_neq.
    unfold rename_field. destruct (m !! a); [|done]. rewrite map_size_insert_None; [done|].
    rewrite lookup_delete_None. by right. }
  do 2 f_equal. destruct (m !! a) as [f|] eqn:E; [by apply (rename_field_inverse _ _ _ f); auto|].
  unfold rename_field. rewrite E. by rewrite Hb.
Qed.

(** Renaming a column to a fresh name and back leaves the event as it was. *)
Theorem rename_roundtrip a b e :
  (∀ row m, row ∈ [ev_Before e; ev_After e] → rd_Fields row = Some m →
     m !! b = None ∧ ∀ f, m !! a = Some f → f_Name f = a) →
  Transform (TransformChain [TransformerCustom (NewRenameFieldTransformer a b);
                             TransformerCustom (NewRenameFieldTransformer b a)]) (Some e) = Ok (Some e).
Proof.
  intros H. cbn. unfold with_rows. cbn.
  rewrite !update_row_rename_inverse by (intros m Hm; eapply H; [|exact Hm]; set_solver). by destruct e.
Qed.
End Mapping.

(** ** Concrete runs *)

Module RoutingRuns.
#[local] Instance fields_range : GoRange string Field := sorted_range string Field.
#[local] Instance values_range : GoRange string value := sorted_range string value.

Definition print_value (v : value) : string :=
  match v with VString s => s | VInt64 z => pretty z | _ => "" end.

Definition row_of (l : list (string * value)) : RowData :=
  mkRowData (Some (list_to_map ((λ nv, (nv.1, mkField nv.1 nv.2 "t" false)) <$> l))).

Definition user_event (typ : EventType) (before after : RowData) : ChangeEvent :=
  mkChangeEvent "1" SourceInfo_zero typ Position_zero (mkTableInfo "shop" "" "users" ["id"] [] []) before after
    0 None None None.

Definition user7 : RowData := row_of [("id", VInt64 7); ("name", VString "Ann")].
Definition by_pk : PartitionRouter := mkPartitionRouter PartitionByPK 4 [].
Definition insert7 : ChangeEvent := user_event EventTypeInsert RowData_zero user7.
Definition delete7 : ChangeEvent := user_event EventTypeDelete user7 RowData_zero.

Lemma partition_in_range_witness :
  ∃ p, PartitionRouter_Route print_value (λ n, n - 1) by_pk insert7 = Ok (pretty p) ∧ 0 <= p < 4.
Proof.
  destruct (partition_in_range print_value (λ n, n - 1) by_pk insert7) as (H & _).
  - intros n Hn. lia.
  - apply H. cbn. lia.
Defined.

Lemma deletes_share_a_partition_witness :
  PartitionRouter_Route print_value (λ n, n - 1) by_pk delete7 = Ok "1" ∧
  PartitionRouter_Route print_value (λ n, n - 1) by_pk insert7 = Ok "2".
Proof.
  split; [|vm_compute; reflexivity].
  assert (E := deletes_share_a_partition print_value (λ n, n - 1) by_pk delete7 eq_refl eq_refl ltac:(done)).
  rewrite E. vm_compute. reflexivity.
Defined.

(** [name] becomes [full_name], [id] keeps its name and is converted. *)
Definition mapping : MappingTransformer :=
  mkMappingTransformer {["name" := "full_name"]}
    {["id" := λ v, match v with VInt64 z => Some (VString (pretty z)) | _ => None end]} ∅.

Lemma mapping_no_collision : no_collision mapping (default ∅ (rd_Fields user7)).
Proof.
  intros n1 f1 n2 f2 H1 H2 E.
  assert (H : ∀ n f, default ∅ (rd_Fields user7) !! n = Some f →
    n = "id" ∧ f = mkField "id" (VInt64 7) "t" false ∨ n = "name" ∧ f = mkField "name" (VString "Ann") "t" false).
  { intros n f Hf. cbn in Hf. rewrite !lookup_insert_Some, lookup_empty in Hf. naive_solver. }
  destruct (H _ _ H1) as [[-> ->]|[-> ->]], (H _ _ H2) as [[-> ->]|[-> ->]]; try done; vm_compute in E; done.
Defined.

Lemma transformRowData_spec_witness :
  rd_lookup (transformRowData mapping user7) "full_name" = Some (mkField "full_name" (VString "Ann") "t" false).
Proof.
  apply (transformRowData_spec mapping user7 (default ∅ (rd_Fields user7))); [reflexivity|done|apply mapping_no_collision|].
  exists "name", (mkField "name" (VString "Ann") "t" false). split; vm_compute; reflexivity.
Defined.

(** Mapping [name] onto the existing [id]: one of the two columns is lost, and which
    one depends on the order the map is visited in. *)
Definition colliding : MappingTransformer := mkMappingTransformer {["name" := "id"]} ∅ ∅.

Program Definition reverse_range : GoRange string Field := {| go_range := λ m, reverse (map_to_list m) |}.
Next Obligation. intros m. apply reverse_Permutation. Qed.

Example collision_depends_on_order :
  rd_lookup (transformRowData colliding user7) "id" ≠
  rd_lookup (@transformRowData reverse_range colliding user7) "id".
Proof. vm_compute. discriminate. Qed.

Lemma static_fields_need_a_row_witness :
  Transform (TransformerMapping (mkMappingTransformer ∅ ∅ {["source" := VString "shop"]})) (Some delete7)
  = Err (Panic "assignment to entry in nil map").
Proof. apply static_fields_need_a_row; [done|reflexivity]. Defined.

Lemma rename_roundtrip_witness :
  Transform (TransformChain [TransformerCustom (NewRenameFieldTransformer "name" "nick");
                             TransformerCustom (NewRenameFieldTransformer "nick" "name")]) (Some insert7)
  = Ok (Some insert7).
Proof.
  apply (rename_roundtrip "name" "nick" insert7). intros row m Hrow Hm.
  apply elem_of_cons in Hrow as [->|Hrow]; [done|]. apply list_elem_of_singleton in Hrow as ->.
  cbn in Hm. injection Hm as <-. split; [vm_compute; reflexivity|]. intros f Hf. vm_compute in Hf.
  injection Hf as <-. reflexivity.
Defined.
End RoutingRuns.
