(* ===== verification/Chunks.v ===== *)
(** Parallel snapshots: splitting a table into chunks by hash
    (internal/lifecycle/hash_chunker.go) and by key range, the concurrency plan
    (internal/source/snapshot_config.go) and the coordinator with its workers
    (internal/source/snapshot_coordinator.go).

    The reader that runs the queries is a source connector: it is a parameter.  The
    generator, the workers and the result handler run concurrently over bounded
    channels; they are a step relation. *)
From Stdlib Require Import ZArith Lia SpecFloat Ascii.
From Stdlib Require String.
From stdpp Require Import prelude countable gmap strings list fin_maps pretty.
From S2P Require Import Prelude Events Strings TableLifecycle.
Local Open Scope Z_scope.

(** ** hash_chunker.go *)

Record HashChunker := mkHashChunker { hc_workers : Z }.
Definition NewHashChunker (workers : Z) : HashChunker := mkHashChunker workers.

(** What a chunk query says, before it is printed: the table, the hash expression, the
    number of workers and the worker the rows are for. *)
Inductive Dialect := DialectMySQL | DialectPostgres | DialectOracle | DialectSQLServer.

Definition quote_with (l r : string) (col : string) : string := l +:+ col +:+ r.
Definition bq : string := "`".
Definition dq : string := String "034"%char "".

(** [hashExpr] of PostgreSQL and Oracle: a single part is not joined. *)
Definition join_parts (parts : list string) : string :=
  match parts with [p] => p | _ => join " || " parts end.

Definition buildMySQL (c : HashChunker) (schema table : string) (pkCols : list string) (workerID : Z) : string :=
  let concat := join "," (quote_with bq bq <$> pkCols) in
  "SELECT * FROM " +:+ quote_with bq bq schema +:+ "." +:+ quote_with bq bq table +:+
  " WHERE MOD(CRC32(CONCAT(" +:+ concat +:+ ")), " +:+ pretty (hc_workers c) +:+ ") = " +:+ pretty workerID.

Definition buildPostgres (c : HashChunker) (schema table : string) (pkCols : list string) (workerID : Z) : string :=
  let parts := quote_with dq (dq +:+ "::text") <$> pkCols in
  "SELECT * FROM " +:+ quote_with dq dq schema +:+ "." +:+ quote_with dq dq table +:+
  " WHERE MOD(hashtext(" +:+ join_parts parts +:+ "), " +:+ pretty (hc_workers c) +:+ ") = " +:+ pretty workerID.

Definition buildOracle (c : HashChunker) (schema table : string) (pkCols : list string) (workerID : Z) : string :=
  let quoted := quote_with dq dq <$> pkCols in
  "SELECT * FROM " +:+ quote_with dq dq schema +:+ "." +:+ quote_with dq dq table +:+
  " WHERE MOD(ORA_HASH(" +:+ join_parts quoted +:+ "), " +:+ pretty (hc_workers c) +:+ ") = " +:+ pretty workerID.

Definition buildSQLServer (c : HashChunker) (schema table : string) (pkCols : list string) (workerID : Z) : string :=
  let checksum := join "," (quote_with "[" "]" <$> pkCols) in
  "SELECT * FROM " +:+ quote_with "[" "]" schema +:+ "." +:+ quote_with "[" "]" table +:+
  " WHERE ABS(CHECKSUM(" +:+ checksum +:+ ")) % " +:+ pretty (hc_workers c) +:+ " = " +:+ pretty workerID.

Definition dialect_of (dbType : string) : option Dialect :=
  let t := strings_ToLower dbType in
  if bool_decide (t ∈ ["mysql"; "mariadb"]) then Some DialectMySQL
  else if bool_decide (t = "postgres") then Some DialectPostgres
  else if bool_decide (t = "oracle") then Some DialectOracle
  else if bool_decide (t = "sqlserver") then Some DialectSQLServer
  else None.

Definition BuildChunkSQL (c : HashChunker) (schema table : string) (pkCols : list string) (workerID : Z)
    (dbType : string) : string :=
  match dialect_of dbType with
  | Some DialectMySQL => buildMySQL c schema table pkCols workerID
  | Some DialectPostgres => buildPostgres c schema table pkCols workerID
  | Some DialectOracle => buildOracle c schema table pkCols workerID
  | Some DialectSQLServer => buildSQLServer c schema table pkCols workerID
  | None => ""
  end.

(** *** The rows a chunk query selects

    The hash functions of the databases by their documented ranges, and the condition
    as the database evaluates it: [MOD] and [%] take the sign of the dividend, and the
    absolute value of the smallest [int] of SQL Server does not exist. *)
Definition hash_range (d : Dialect) (h : Z) : Prop :=
  match d with
  | DialectMySQL | DialectOracle => 0 <= h < 2 ^ 32
  | DialectPostgres | DialectSQLServer => - 2 ^ 31 <= h < 2 ^ 31
  end.

Definition selects (d : Dialect) (workers workerID h : Z) : bool :=
  match d with
  | DialectMySQL | DialectPostgres | DialectOracle => Z.rem h workers =? workerID
  | DialectSQLServer => negb (h =? - 2 ^ 31) && (Z.rem (Z.abs h) workers =? workerID)
  end.

(** ** snapshot_config.go *)

Record SnapshotConcurrencyConfig := mkSnapshotConfig {
  sc_MaxTableThreads : Z;
  sc_EnableChunkParallel : bool;
  sc_MaxChunkThreads : Z;
  sc_ChunkThreshold : Z;
  sc_BatchSize : Z;
  sc_ChunkSize : Z;
  sc_TaskQueueSize : Z;
  sc_EventBufferSize : Z
}.

Definition DefaultSnapshotConcurrencyConfig : SnapshotConcurrencyConfig :=
  mkSnapshotConfig 4 true 4 100000 1000 10000 1000 10000.

Definition SnapshotConfig_Validate (c : SnapshotConcurrencyConfig) : result unit :=
  if (sc_MaxTableThreads c <? 1) || (16 <? sc_MaxTableThreads c)
  then Err (ErrNew "max-table-threads must be between 1 and 16")
  else if (sc_MaxChunkThreads c <? 1) || (8 <? sc_MaxChunkThreads c)
  then Err (ErrNew "max-chunk-threads must be between 1 and 8")
  else if (sc_BatchSize c <? 100) || (10000 <? sc_BatchSize c)
  then Err (ErrNew "batch-size must be between 100 and 10000")
  else if sc_ChunkSize c <? 1000
  then Err (ErrNew "chunk-size must be at least 1000")
  else Ok tt.

Inductive ConcurrencyMode := ConcurrencyModeSingle | ConcurrencyModeChunkParallel.

Record TableConcurrencyPlan := mkTablePlan {
  tp_TableID : TableID;
  tp_Mode : ConcurrencyMode;
  tp_ChunkThreads : Z;
  tp_ChunkSize : Z;
  tp_BatchSize : Z
}.

(** The [source.TableInfo] of planning. *)
Record PlanTable := mkPlanTable { pt_TableID : TableID; pt_EstimatedRows : Z }.

Definition plan_table (c : SnapshotConcurrencyConfig) (t : PlanTable) : TableConcurrencyPlan :=
  if sc_EnableChunkParallel c && (sc_ChunkThreshold c <=? pt_EstimatedRows t)
  then mkTablePlan (pt_TableID t) ConcurrencyModeChunkParallel (sc_MaxChunkThreads c) (sc_ChunkSize c) (sc_BatchSize c)
  else mkTablePlan (pt_TableID t) ConcurrencyModeSingle 0 (sc_ChunkSize c) (sc_BatchSize c).

Definition PlanConcurrency (c : SnapshotConcurrencyConfig) (tables : list PlanTable) :
  gmap string TableConcurrencyPlan :=
  foldl (λ plan t, <[TableID_String (pt_TableID t) := plan_table c t]> plan) ∅ tables.

(** ** snapshot_coordinator.go: tasks *)

Record ChunkRange := mkChunkRange { cr_StartKey : value; cr_EndKey : value }.

Record SnapshotTask := mkSnapshotTask {
  st_TableID : TableID;
  st_Schema : TableInfo;
  st_ChunkID : Z;
  st_ChunkRange : option ChunkRange;
  st_Priority : Z
}.

#[export] Instance ChunkRange_eq_dec : EqDecision ChunkRange.
Proof. solve_decision. Defined.
#[export] Instance SnapshotTask_eq_dec : EqDecision SnapshotTask.
Proof. solve_decision. Defined.

Class SnapshotReader := {
  ReadSnapshot : SnapshotTask → result (list ChangeEvent);
  GetKeyRange : TableInfo → result (value * value)
}.

Definition table_id_of (t : TableInfo) : TableID := mkTableID (ti_Database t) (ti_Schema t) (ti_Table t).

Definition single_task (t : TableInfo) : SnapshotTask := mkSnapshotTask (table_id_of t) t 0 None 0.

(** The loop over the key range, with the 64-bit arithmetic of its counters; [None]
    when [n] rounds are not enough.  [mk] makes a key of the counter's type. *)
Fixpoint chunk_loop (n : nat) (mk : Z → value) (t : TableInfo) (size max start chunkID : Z) : option (list SnapshotTask) :=
  match n with
  | O => None
  | S n =>
      if max <? start then Some []
      else
        let end1 := i64 (i64 (start + size) - 1) in
        let end2 := if max <? end1 then max else end1 in
        tasks ← chunk_loop n mk t size max (i64 (start + size)) (i64 (chunkID + 1));
        Some (mkSnapshotTask (table_id_of t) t chunkID (Some (mkChunkRange (mk start) (mk end2))) chunkID :: tasks)
  end.

Section Coordinator.
Context `{RD : SnapshotReader}.

(** [None]: the loop does not end within [n] rounds. *)
Definition generateTableTasks (n : nat) (c : SnapshotConcurrencyConfig) (t : TableInfo) : option (result (list SnapshotTask)) :=
  match GetKeyRange t with
  | Err _ => Some (Ok [single_task t])
  | Ok (VInt min, VInt max) => Ok <$> chunk_loop n VInt t (sc_ChunkSize c) max min 0
  | Ok (VInt64 min, VInt64 max) => Ok <$> chunk_loop n VInt64 t (sc_ChunkSize c) max min 0
  | Ok (VInt _, _) | Ok (VInt64 _, _) => Some (Err (Panic "interface conversion"))
  | Ok _ => Some (Ok [single_task t])
  end.
End Coordinator.

(** ** Key ranges *)

Definition int_key (v : value) : option Z :=
  match v with VInt z | VInt64 z => Some z | _ => None end.

(** Is key [k] in the range of the task? *)
Definition covers (task : SnapshotTask) (k : Z) : bool :=
  match st_ChunkRange task with
  | Some r =>
      match int_key (cr_StartKey r), int_key (cr_EndKey r) with
      | Some a, Some b => (a <=? k) && (k <=? b)
      | _, _ => false
      end
  | None => true
  end.

Lemma chunk_loop_spec n mk t size max : ∀ start id,
  (∀ z, int_key (mk z) = Some z) →
  1 <= size → min_int64 <= start → 0 <= id → start <= max + size → max + size <= max_int64 → id + max - start + 1 <= max_int64 →
  max - start + 1 <= (Z.of_nat n - 1) * size → (0 < n)%nat →
  ∃ tasks, chunk_loop n mk t size max start id = Some tasks ∧
    Z.of_nat (length tasks) = Z.max 0 ((max - start + size) / size) ∧
    (∀ i task, tasks !! i = Some task →
       st_ChunkID task = id + Z.of_nat i ∧
       ∀ k, covers task k = bool_decide (start + Z.of_nat i * size <= k < start + (Z.of_nat i + 1) * size ∧ k <= max)).
Proof.
  induction n as [|n IH]; intros start id Hmk Hs Hmin Hid Hmax Hov Hidm Hn Hpos; [lia|]. cbn [chunk_loop].
  destruct (Z.ltb_spec max start) as [Hlt|Hle].
  - exists []. split_and!; [done| |intros i task Hi; by rewrite lookup_nil in Hi]. cbn.
    assert ((max - start + size) / size <= 0); [|lia].
    apply Z.lt_succ_r. apply Z.div_lt_upper_bound; lia.
  - unfold min_int64 in *. rewrite (i64_small (start + size)) by (unfold min_int64; lia).
    rewrite (i64_small (start + size - 1)) by (unfold min_int64; lia). rewrite (i64_small (id + 1)) by (unfold min_int64; lia).
    destruct (IH (start + size) (id + 1)) as (tasks & Htasks & Hlen & Hcov); [done|lia..|destruct n; lia|].
    rewrite Htasks. eexists. split_and!; [done| |].
    + cbn [length]. rewrite Nat2Z.inj_succ, Hlen.
      replace (max - start + size) with (max - (start + size) + size + 1 * size) by lia.
      rewrite Z.div_add by lia.
      assert (0 <= (max - (start + size) + size) / size) by (apply Z.div_pos; lia). lia.
    + intros [|i] task Hi; cbn in Hi.
      * injection Hi as <-. split; [cbn; lia|]. intros k. unfold covers. cbn. rewrite !Hmk.
        destruct (Z.ltb_spec max (start + size - 1)); case_bool_decide; lia.
      * destruct (Hcov i task Hi) as [Hc Hk]. split; [lia|]. intros k. rewrite Hk.
        apply bool_decide_ext. rewrite Nat2Z.inj_succ. split; intros [? ?]; split; lia.
Qed.

(** The loop never ends when the largest key is the largest [int64], since no counter
    exceeds it, nor with a chunk size of zero. *)
Lemma chunk_loop_diverges n mk t size max : ∀ start id,
  min_int64 <= start <= max_int64 → max = max_int64 ∨ (size = 0 ∧ start <= max) →
  chunk_loop n mk t size max start id = None.
Proof.
  induction n as [|n IH]; intros start id Hr H; [done|]. cbn [chunk_loop].
  assert (Hle : start <= max) by (destruct H as [->|[_ H]]; lia).
  rewrite (proj2 (Z.ltb_ge _ _)) by done. rewrite IH; [done|apply i64_range|].
  destruct H as [H|[-> H]]; [by left|right]. split; [done|]. by rewrite Z.add_0_r, i64_small.
Qed.

Section Partition.
Context `{RD : SnapshotReader}.

(** C19. A table whose reader knows its key range is split into chunks that partition the
    range: as many as the range has chunk sizes, numbered from zero, every key in
    exactly one of them and no key outside the range in any.  The bound on the number of
    rounds is the number of chunks plus one. *)
Theorem chunks_partition_keys n c t min max :
  GetKeyRange t = Ok (VInt64 min, VInt64 max) →
  1 <= sc_ChunkSize c → min_int64 <= min → min <= max →
  max + sc_ChunkSize c <= max_int64 → max - min + 1 <= max_int64 →
  (max - min + sc_ChunkSize c) / sc_ChunkSize c < Z.of_nat n →
  ∃ tasks, generateTableTasks n c t = Some (Ok tasks) ∧
    Z.of_nat (length tasks) = (max - min + sc_ChunkSize c) / sc_ChunkSize c ∧
    (∀ i task, tasks !! i = Some task → st_ChunkID task = Z.of_nat i) ∧
    (∀ k, min <= k <= max →
       ∃ i task, tasks !! i = Some task ∧ covers task k = true ∧
         ∀ j task', tasks !! j = Some task' → covers task' k = true → j = i) ∧
    (∀ k i task, tasks !! i = Some task → covers task k = true → min <= k <= max).
Proof.
  intros Hrange Hs Hmin Hle Hov Hid Hn. unfold generateTableTasks. rewrite Hrange.
  set (size := sc_ChunkSize c) in *. set (q := (max - min + size) / size) in *.
  assert (Hq : size * q <= max - min + size < size * q + size).
  { pose proof (Z.div_mod (max - min + size) size ltac:(lia)).
    pose proof (Z.mod_pos_bound (max - min + size) size ltac:(lia)). subst q. lia. }
  destruct (chunk_loop_spec n VInt64 t size max min 0) as (tasks & Htasks & Hlen & Hcov); [done|lia..|nia|nia|].
  exists tasks. rewrite Htasks. fold q in Hlen. split_and!; [done| | | |].
  - assert (0 <= q) by nia. lia.
  - intros i task Hi. destruct (Hcov i task Hi). lia.
  - intros k Hk. set (i := (k - min) / size).
    assert (Hi : size * i <= k - min < size * i + size).
    { pose proof (Z.div_mod (k - min) size ltac:(lia)).
      pose proof (Z.mod_pos_bound (k - min) size ltac:(lia)). subst i. lia. }
    assert (0 <= i) by (apply Z.div_pos; lia).
    destruct (lookup_lt_is_Some_2 tasks (Z.to_nat i)) as [task Ht]; [assert (i < q) by nia; lia|].
    exists (Z.to_nat i), task. split; [done|]. destruct (Hcov _ _ Ht) as [_ Hc]. rewrite Hc, Z2Nat.id by lia. split.
    + apply bool_decide_eq_true_2. lia.
    + intros j task' Hj Hcj. destruct (Hcov _ _ Hj) as [_ Hc']. rewrite Hc' in Hcj.
      apply bool_decide_eq_true_1 in Hcj. assert (Z.of_nat j = i) by nia. lia.
  - intros k i task Hi Hk. destruct (Hcov _ _ Hi) as [_ Hc]. rewrite Hc in Hk.
    apply bool_decide_eq_true_1 in Hk. nia.
Qed.

(** The generator never finishes a table whose largest key is the largest [int64],
    nor any table when the configured chunk size is zero: no number of rounds of its
    loop is enough. *)
Theorem chunking_diverges n c t min max :
  GetKeyRange t = Ok (VInt64 min, VInt64 max) → min_int64 <= min <= max → max <= max_int64 →
  max = max_int64 ∨ sc_ChunkSize c = 0 →
  generateTableTasks n c t = None.
Proof.
  intros Hrange Hmin Hmax H. unfold generateTableTasks. rewrite Hrange, chunk_loop_diverges; [done|lia|].
  destruct H; [by left|right; lia].
Qed.
End Partition.

(** ** Hash chunks *)

(** In MySQL, Oracle and SQL Server every row of a table goes to exactly one of the
    workers, and different workers run different queries (SQL Server fails on the one
    hash value whose absolute value does not exist). *)
Theorem hash_chunks_partition d workers h :
  0 < workers → hash_range d h → d ≠ DialectPostgres → (d = DialectSQLServer → h ≠ - 2 ^ 31) →
  ∃ w, 0 <= w < workers ∧ selects d workers w h = true ∧
    ∀ w', selects d workers w' h = true → w' = w.
Proof.
  intros Hw Hh Hd Hmin. set (h' := match d with DialectSQLServer => Z.abs h | _ => h end).
  assert (Hh' : 0 <= h') by (subst h'; destruct d; [cbn in *; lia|done|cbn in *; lia|lia]).
  exists (h' mod workers). split; [by apply Z.mod_pos_bound|].
  assert (E : ∀ w, selects d workers w h = (h' mod workers =? w)).
  { intros w. rewrite <- Z.rem_mod_nonneg by done. destruct d; try done. cbn.
    by rewrite (proj2 (Z.eqb_neq _ _)) by auto. }
  rewrite E, Z.eqb_refl. split; [done|]. intros w'. rewrite E. intros ->%Z.eqb_eq. done.
Qed.

(** In PostgreSQL a row whose hash is negative is read by no worker, unless the hash
    is a multiple of the number of workers: [MOD] of a negative number is not positive. *)
Theorem postgres_chunks_lose_rows workers h :
  0 < workers →
  (∃ w, 0 <= w < workers ∧ selects DialectPostgres workers w h = true) ↔ 0 <= h ∨ Z.rem h workers = 0.
Proof.
  intros Hw. cbn. split.
  - intros (w & Hr & Hs%Z.eqb_eq). destruct (Z.le_gt_cases 0 h) as [|Hneg]; [by left|right].
    pose proof (Z.rem_bound_pos_neg h workers ltac:(lia) ltac:(lia)). lia.
  - intros H. exists (Z.rem h workers). rewrite Z.eqb_refl. split; [|done].
    destruct H as [H| ->]; [apply Z.rem_bound_pos; lia|lia].
Qed.

Lemma BuildChunkSQL_worker_inj c schema table pk db w1 w2 :
  dialect_of db ≠ None → BuildChunkSQL c schema table pk w1 db = BuildChunkSQL c schema table pk w2 db → w1 = w2.
Proof.
  intros Hd. unfold BuildChunkSQL. destruct (dialect_of db) as [[]|]; [| | | |done];
    unfold buildMySQL, buildPostgres, buildOracle, buildSQLServer; cbn zeta;
    rewrite <- !string_app_assoc; intros E; repeat rewrite string_app_assoc in E;
    repeat apply string_app_cancel_l in E; by apply pretty_Z_inj in E.
Qed.

(** ** snapshot_coordinator.go: the coordinator *)

Record SnapshotResult := mkSnapshotResult {
  sr_TableID : TableID;
  sr_ChunkID : Z;
  sr_Events : list ChangeEvent;
  sr_Error : option goerror
}.

Record SnapshotProgress := mkSnapshotProgress {
  sp_TotalTables : Z;
  sp_CompletedTable : Z;
  sp_StartTime : time
}.

Definition TotalChunks (p : SnapshotProgress) : Z := sp_TotalTables p.
Definition CompletedChunks (p : SnapshotProgress) : Z := sp_CompletedTable p.

(** [float64(completed) / float64(total) * 100] *)
Definition Progress (p : SnapshotProgress) : spec_float :=
  if sp_TotalTables p =? 0 then S754_zero false
  else float64_mul (float64_div (float64_of_int (sp_CompletedTable p)) (float64_of_int (sp_TotalTables p)))
         (float64_of_int 100).

(** A worker waits for a task, waits to send a result, or has returned. *)
Inductive worker := WIdle | WSending (r : SnapshotResult) | WStopped.

(** The goroutines and channels of a running coordinator: what the generator has still
    to send, whether it has closed the task channel, the two channels, the workers and
    whether the result handler runs.  [co_handled] is the history of the results the
    handler took. *)
Record Coordinator := mkCoordinator {
  co_todo : list SnapshotTask;
  co_closed : bool;
  co_taskCh : list SnapshotTask;
  co_workers : list worker;
  co_resultCh : list SnapshotResult;
  co_handling : bool;
  co_handled : list SnapshotResult;
  co_progress : SnapshotProgress;
  co_cancelled : bool
}.

Section Run.
Context `{RD : SnapshotReader} (c : SnapshotConcurrencyConfig).

(** The result a worker makes of a task. *)
Definition run_task (t : SnapshotTask) : SnapshotResult :=
  match ReadSnapshot t with
  | Ok events => mkSnapshotResult (st_TableID t) (st_ChunkID t) events None
  | Err e => mkSnapshotResult (st_TableID t) (st_ChunkID t) [] (Some e)
  end.

Fixpoint all_tasks (n : nat) (tables : list TableInfo) : option (result (list SnapshotTask)) :=
  match tables with
  | [] => Some (Ok [])
  | t :: tables =>
      rt ← generateTableTasks n c t;
      rts ← all_tasks n tables;
      Some (ts ← rt; tss ← rts; Ok (ts ++ tss))
  end.

(** [Start]: the counters of the progress, the workers, and the generator with the tasks
    of the tables to send. *)
Definition Start (now : time) (tables : list TableInfo) (tasks : list SnapshotTask) : Coordinator :=
  mkCoordinator tasks false [] (replicate (Z.to_nat (sc_MaxTableThreads c)) WIdle) [] true []
    (mkSnapshotProgress (zlen tables) 0 now) false.

(** The result handler: a failed result is logged, any other counts. *)
Definition handle_result (r : SnapshotResult) (p : SnapshotProgress) : SnapshotProgress :=
  match sr_Error r with
  | Some _ => p
  | None => mkSnapshotProgress (sp_TotalTables p) (i64 (sp_CompletedTable p + 1)) (sp_StartTime p)
  end.

Inductive co_label := LGenSend | LGenClose | LGenStop | LTake (w : nat) | LWorkerStop (w : nat)
  | LSend (w : nat) | LHandle | LHandlerStop | LCancel.

(** One step of one goroutine; the channels have the capacities of the configuration. *)
Inductive co_step : Coordinator → co_label → Coordinator → Prop :=
  | step_gen_send t ts q ws rs h hd p x :
      zlen q < sc_TaskQueueSize c →
      co_step (mkCoordinator (t :: ts) false q ws rs h hd p x) LGenSend
              (mkCoordinator ts false (q ++ [t]) ws rs h hd p x)
  | step_gen_close q ws rs h hd p x :
      co_step (mkCoordinator [] false q ws rs h hd p x) LGenClose (mkCoordinator [] true q ws rs h hd p x)
  | step_gen_stop ts q ws rs h hd p :
      co_step (mkCoordinator ts false q ws rs h hd p true) LGenStop (mkCoordinator ts true q ws rs h hd p true)
  | step_take ts cl t q ws rs h hd p x w :
      ws !! w = Some WIdle →
      co_step (mkCoordinator ts cl (t :: q) ws rs h hd p x) (LTake w)
              (mkCoordinator ts cl q (<[w := WSending (run_task t)]> ws) rs h hd p x)
  | step_worker_stop ts cl q ws rs h hd p x w :
      ws !! w = Some WIdle → x = true ∨ (cl = true ∧ q = []) →
      co_step (mkCoordinator ts cl q ws rs h hd p x) (LWorkerStop w)
              (mkCoordinator ts cl q (<[w := WStopped]> ws) rs h hd p x)
  | step_send ts cl q ws rs h hd p x w r :
      ws !! w = Some (WSending r) → zlen rs < sc_EventBufferSize c →
      co_step (mkCoordinator ts cl q ws rs h hd p x) (LSend w)
              (mkCoordinator ts cl q (<[w := WIdle]> ws) (rs ++ [r]) h hd p x)
  | step_handle ts cl q ws r rs hd p x :
      co_step (mkCoordinator ts cl q ws (r :: rs) true hd p x) LHandle
              (mkCoordinator ts cl q ws rs true (hd ++ [r]) (handle_result r p) x)
  | step_handler_stop ts cl q ws rs hd p :
      co_step (mkCoordinator ts cl q ws rs true hd p true) LHandlerStop
              (mkCoordinator ts cl q ws rs false hd p true)
  | step_cancel ts cl q ws rs h hd p x :
      co_step (mkCoordinator ts cl q ws rs h hd p x) LCancel (mkCoordinator ts cl q ws rs h hd p true).

(** The results the workers hold. *)
Definition held (ws : list worker) : list SnapshotResult :=
  omap (λ w, match w with WSending r => Some r | _ => None end) ws.

(** Every task, as its result, wherever it is. *)
Definition tracked (s : Coordinator) : list SnapshotResult :=
  (run_task <$> co_todo s) ++ (run_task <$> co_taskCh s) ++ held (co_workers s) ++ co_resultCh s ++ co_handled s.

Lemma held_insert ws w old new :
  ws !! w = Some old → held [old] ++ held (<[w := new]> ws) ≡ₚ held [new] ++ held ws.
Proof.
  intros Hw. unfold held. rewrite <- !omap_app.
  rewrite <- (take_drop_middle ws w old Hw) at 2. rewrite insert_take_drop by (by eapply lookup_lt_Some).
  rewrite !omap_app. cbn. destruct old, new; cbn; rewrite ?app_nil_r; solve_Permutation.
Qed.

Definition succeeded (r : SnapshotResult) : bool := match sr_Error r with None => true | Some _ => false end.

Record co_inv (tasks : list SnapshotTask) (total : Z) (s : Coordinator) : Prop := {
  inv_tracked : tracked s ≡ₚ run_task <$> tasks;
  inv_total : sp_TotalTables (co_progress s) = total;
  inv_completed : sp_CompletedTable (co_progress s) = i64 (zlen (filter (λ r, succeeded r = true) (co_handled s)));
  inv_workers : length (co_workers s) = Z.to_nat (sc_MaxTableThreads c)
}.

Lemma filter_succeeded_snoc r l :
  filter (λ r, succeeded r = true) (l ++ [r]) =
  filter (λ r, succeeded r = true) l ++ (if succeeded r then [r] else []).
Proof.
  rewrite filter_app. f_equal. destruct (succeeded r) eqn:E.
  - by rewrite filter_cons_True.
  - by rewrite filter_cons_False by congruence.
Qed.

Lemma co_inv_step tasks total s l s' : co_inv tasks total s → co_step s l s' → co_inv tasks total s'.
Proof.
  intros [Ht Hn Hc Hw] Hstep.
  inversion Hstep; subst; unfold tracked in *; cbn in *; constructor; unfold tracked; cbn;
    try done; rewrite ?length_insert; try done.
  - rewrite <- Ht, fmap_app. cbn. solve_Permutation.
  - rewrite <- Ht. pose proof (held_insert ws w WIdle (WSending (run_task t)) ltac:(done)) as P. cbn in P.
    rewrite P. solve_Permutation.
  - rewrite <- Ht. pose proof (held_insert ws w WIdle WStopped ltac:(done)) as P. cbn in P. by rewrite P.
  - rewrite <- Ht. pose proof (held_insert ws w (WSending r) WIdle ltac:(done)) as P. cbn in P.
    rewrite <- P. solve_Permutation.
  - rewrite <- Ht. solve_Permutation.
  - unfold handle_result. by destruct (sr_Error r).
  - rewrite filter_succeeded_snoc. unfold handle_result, succeeded, zlen in *.
    destruct (sr_Error r); cbn; rewrite length_app; cbn; rewrite Hc; [f_equal; lia|].
    rewrite i64_add_l. f_equal. lia.
Qed.

Lemma held_idle n : held (replicate n WIdle) = [].
Proof. induction n; [done|by cbn]. Qed.

Lemma co_inv_start now tables tasks : co_inv tasks (zlen tables) (Start now tables tasks).
Proof.
  constructor; [|done|done|by apply length_replicate].
  unfold tracked, Start. cbn [co_todo co_taskCh co_workers co_resultCh co_handled]. by rewrite held_idle, !app_nil_r.
Qed.

(** No task is lost and none is run twice, under every interleaving of the
    generator, the workers, the handler and a cancellation: each task of the tables is
    at any time in exactly one place (not yet sent, queued, held by a worker, sent back
    or handled), and the progress counts the handled results without an error. *)
Theorem coordinator_tracks_tasks now tables tasks ls s :
  runs co_step (Start now tables tasks) ls s →
  tracked s ≡ₚ run_task <$> tasks ∧
  sp_TotalTables (co_progress s) = zlen tables ∧
  sp_CompletedTable (co_progress s) = i64 (zlen (filter (λ r, succeeded r = true) (co_handled s))).
Proof.
  intros H. destruct (runs_invariant _ (co_inv tasks (zlen tables)) (co_inv_step _ _) _ _ _ H) as [Ht Hn Hc _].
  - apply co_inv_start.
  - done.
Qed.

(** *** Runs that are not cancelled *)

Record running (s : Coordinator) : Prop := {
  run_not_cancelled : co_cancelled s = false;
  run_handling : co_handling s = true;
  run_closed : co_closed s = true → co_todo s = [];
  run_stopped : WStopped ∈ co_workers s → co_closed s = true ∧ co_taskCh s = []
}.

Definition worker_weight (w : worker) : nat := match w with WIdle => 1 | WSending _ => 3 | WStopped => 0 end.

Definition co_measure (s : Coordinator) : nat :=
  4 * length (co_todo s) + 3 * length (co_taskCh s) + sum_list_with worker_weight (co_workers s) +
  length (co_resultCh s) + (if co_closed s then 0 else 1).

Lemma weight_insert ws w old new :
  ws !! w = Some old →
  (sum_list_with worker_weight (<[w := new]> ws) + worker_weight old = sum_list_with worker_weight ws + worker_weight new)%nat.
Proof.
  revert w. induction ws as [|x ws IH]; intros [|w] H; [done..| |].
  - injection H as ->. cbn [sum_list_with insert list_insert]. lia.
  - specialize (IH w H). change (<[S w := new]> (x :: ws)) with (x :: <[w := new]> ws).
    cbn [sum_list_with]. lia.
Qed.

Lemma elem_of_insert_worker (ws : list worker) (w : nat) new x : x ∈ <[w := new]> ws → x = new ∨ x ∈ ws.
Proof.
  intros [i Hi]%list_elem_of_lookup_1. destruct (decide (i = w)) as [->|Hne].
  - left. rewrite list_lookup_insert_eq in Hi; [congruence|]. apply lookup_lt_Some in Hi. by rewrite length_insert in Hi.
  - rewrite list_lookup_insert_ne in Hi by done. right. by eapply list_elem_of_lookup_2.
Qed.

Lemma running_step s l s' :
  running s → l ≠ LCancel → co_step s l s' → running s' ∧ (co_measure s' < co_measure s)%nat.
Proof.
  intros [Hx Hh Hcl Hst] Hl Hstep.
  inversion Hstep; subst; unfold co_measure; cbn in *; try done;
    repeat match goal with H : _ !! _ = Some _ |- context [sum_list_with worker_weight (<[?w := ?n]> _)] =>
      pose proof (weight_insert _ _ _ n H); cbn in *; revert H end; intros;
    rewrite ?length_app; cbn; (split; [|lia]); constructor; cbn; try done.
  - intros H'. by destruct (Hst H').
  - intros H'. by destruct (Hst H').
  - intros [H'|H']%elem_of_insert_worker; [done|]. by destruct (Hst H').
  - intros [H'|H']%elem_of_insert_worker; [|by auto]. match goal with H : _ ∨ _ |- _ => destruct H; [congruence|done] end.
  - intros [H'|H']%elem_of_insert_worker; [done|]. by auto.
Qed.

Lemma running_start now tables tasks : running (Start now tables tasks).
Proof.
  constructor; try done. intros H. exfalso. cbn in H. by apply elem_of_replicate in H as [? _].
Qed.

(** A run without a cancellation stays so, and its steps use up the measure. *)
Lemma running_runs s ls s' :
  runs co_step s ls s' → running s → LCancel ∉ ls → running s' ∧ (length ls + co_measure s' <= co_measure s)%nat.
Proof.
  induction 1 as [|s l s1 ls s2 Hstep Hruns IH]; intros Hrun Hls; [cbn; split; [done|lia]|].
  apply not_elem_of_cons in Hls as [Hl Hls].
  destruct (running_step _ _ _ Hrun ltac:(done) Hstep) as [Hrun1 Hm]. destruct (IH Hrun1 Hls) as [? ?].
  split; [done|]. cbn [length]. lia.
Qed.

(** Where nothing can move, everything is done. *)
Lemma quiescent_done tasks total s :
  co_inv tasks total s → running s →
  1 <= sc_MaxTableThreads c → 1 <= sc_TaskQueueSize c → 1 <= sc_EventBufferSize c →
  (∀ l s', co_step s l s' → l = LCancel) →
  co_handled s ≡ₚ run_task <$> tasks ∧ Forall (eq WStopped) (co_workers s).
Proof.
  intros [Ht _ _ Hw] [Hx Hh Hcl Hst] Hth Htq Hrq Hq.
  destruct s as [ts cl q ws rs h hd p x]. unfold tracked in Ht.
  cbn [co_todo co_closed co_taskCh co_workers co_resultCh co_handling co_handled co_progress co_cancelled] in *. subst x h.
  assert (rs = []) as ->.
  { destruct rs as [|r rs]; [done|]. by pose proof (Hq LHandle _ ltac:(apply step_handle)). }
  assert (Hns : ∀ w r, ws !! w ≠ Some (WSending r)).
  { intros w r Hwr. pose proof (Hq (LSend w) _ ltac:(eapply step_send; [done|unfold zlen; cbn; lia])). done. }
  assert (Hidle : ∀ w, ws !! w = Some WIdle → q = [] ∧ cl = false).
  { intros w Hwi. split.
    - destruct q as [|t q]; [done|]. by pose proof (Hq (LTake w) _ ltac:(by eapply step_take)).
    - destruct cl; [|done]. destruct q as [|t q]; [|by pose proof (Hq (LTake w) _ ltac:(by eapply step_take))].
      by pose proof (Hq (LWorkerStop w) _ ltac:(eapply step_worker_stop; [done|auto])). }
  assert (Hcls : cl = true).
  { destruct cl; [done|]. destruct ts as [|t ts]; [by pose proof (Hq LGenClose _ ltac:(apply step_gen_close))|].
    destruct ws as [|w ws]; [cbn in Hw; lia|]. destruct w as [|r|]; [|by destruct (Hns 0%nat r)|].
    - destruct (Hidle 0%nat eq_refl) as [-> _].
      by pose proof (Hq LGenSend _ ltac:(eapply step_gen_send; unfold zlen; cbn; lia)).
    - by destruct (Hst ltac:(left)). }
  subst cl. rewrite (Hcl eq_refl) in Ht.
  assert (Hall : Forall (eq WStopped) ws).
  { apply Forall_forall. intros w [i Hi]%list_elem_of_lookup_1. destruct w as [|r|]; [|by destruct (Hns i r)|done].
    by destruct (Hidle i Hi). }
  split; [|done]. assert (q = []) as ->.
  { destruct ws as [|w ws]; [cbn in Hw; lia|]. inversion Hall; subst. by destruct (Hst ltac:(left)). }
  assert (held ws = []) as E.
  { clear -Hall. induction Hall as [|w ws <- _ IH]; [done|]. exact IH. }
  rewrite E in Ht. exact Ht.
Qed.

(** C20. A snapshot that is not cancelled finishes: its runs have bounded length, and a
    run that can go no further has handled the result of every task exactly once and
    stopped every worker. *)
Theorem coordinator_completes now tables tasks ls s :
  1 <= sc_MaxTableThreads c → 1 <= sc_TaskQueueSize c → 1 <= sc_EventBufferSize c →
  runs co_step (Start now tables tasks) ls s → LCancel ∉ ls →
  (length ls <= 4 * length tasks + Z.to_nat (sc_MaxTableThreads c) + 1)%nat ∧
  ((∀ l s', co_step s l s' → l = LCancel) →
     co_handled s ≡ₚ run_task <$> tasks ∧ Forall (eq WStopped) (co_workers s)).
Proof.
  intros Hth Htq Hrq Hruns Hls.
  destruct (running_runs _ _ _ Hruns (running_start _ _ _) Hls) as [Hrun Hlen]. split.
  - assert (co_measure (Start now tables tasks) = 4 * length tasks + Z.to_nat (sc_MaxTableThreads c) + 1)%nat; [|lia].
    unfold co_measure, Start. cbn -[Nat.mul].
    assert (∀ n, sum_list_with worker_weight (replicate n WIdle) = n) as ->; [|lia].
    induction n; cbn; congruence.
  - apply (quiescent_done tasks (zlen tables)); try done.
    eapply runs_invariant; [|done|apply co_inv_start]. apply co_inv_step.
Qed.

(** A worker that waits to send while the handler has returned and the channel is full. *)
Definition blocked (w : nat) (r : SnapshotResult) (s : Coordinator) : Prop :=
  co_workers s !! w = Some (WSending r) ∧ co_handling s = false ∧ sc_EventBufferSize c <= zlen (co_resultCh s).

Lemma blocked_step w r s l s' : blocked w r s → co_step s l s' → blocked w r s'.
Proof.
  intros (Hw & Hh & Hf) Hstep. unfold blocked.
  inversion Hstep; subst; cbn in *; try done; split_and!; try done; try lia;
    (destruct (decide (w = w0)) as [->|]; [congruence|by rewrite list_lookup_insert_ne]).
Qed.

(** Once a worker waits for room in the result channel and the handler has returned,
    the worker waits for ever, and [Stop], which waits for the workers, does not
    return. *)
Theorem stop_hangs_when_blocked w r s ls s' :
  blocked w r s → runs co_step s ls s' → co_workers s' !! w = Some (WSending r).
Proof.
  intros Hb Hruns. destruct (runs_invariant _ (blocked w r) (blocked_step w r) _ _ _ Hruns Hb) as [? _]. done.
Qed.
End Run.

(** ** Concrete runs *)

Module ChunkRuns.

(** A reader that knows the key range of every table and reads empty chunks. *)
Definition range_reader (min max : Z) : SnapshotReader := {|
  ReadSnapshot := λ _, Ok [];
  GetKeyRange := λ _, Ok (VInt64 min, VInt64 max)
|}.

Definition orders : TableInfo := mkTableInfo "shop" "" "orders" ["id"] [] [].
Definition small : SnapshotConcurrencyConfig := mkSnapshotConfig 1 true 4 100000 1000 1000 10 1.

Lemma chunks_partition_keys_witness :
  ∃ tasks, @generateTableTasks (range_reader 1 2500) 4 small orders = Some (Ok tasks) ∧ length tasks = 3%nat.
Proof.
  destruct (@chunks_partition_keys (range_reader 1 2500) 4 small orders 1 2500) as (tasks & Ht & Hl & _);
    [reflexivity|vm_compute; congruence..|].
  exists tasks. split; [exact Ht|]. apply Nat2Z.inj. rewrite Hl. vm_compute. reflexivity.
Defined.

Lemma chunking_diverges_witness :
  @generateTableTasks (range_reader 0 max_int64) 1000 small orders = None.
Proof.
  apply (@chunking_diverges (range_reader 0 max_int64) 1000 small orders 0 max_int64);
    [reflexivity|unfold min_int64, max_int64; lia|lia|by left].
Defined.

Lemma hash_chunks_partition_witness :
  ∃ w, 0 <= w < 4 ∧ selects DialectSQLServer 4 w (-7) = true.
Proof.
  destruct (hash_chunks_partition DialectSQLServer 4 (-7)) as (w & Hw & Hs & _); [lia|cbn; lia|done|done|]. eauto.
Defined.

Lemma postgres_chunks_lose_rows_witness :
  ¬ ∃ w, 0 <= w < 4 ∧ selects DialectPostgres 4 w (-7) = true.
Proof.
  intros H. apply (postgres_chunks_lose_rows 4 (-7)) in H; [|lia]. destruct H as [H|H]; [lia|]. vm_compute in H. discriminate H.
Defined.

Section OneThread.
#[local] Instance reader : SnapshotReader := range_reader 1 2000.

Definition t1 : SnapshotTask := mkSnapshotTask (table_id_of orders) orders 0 (Some (mkChunkRange (VInt64 1) (VInt64 1000))) 0.
Definition t2 : SnapshotTask := mkSnapshotTask (table_id_of orders) orders 1 (Some (mkChunkRange (VInt64 1001) (VInt64 2000))) 1.

Example orders_tasks : all_tasks small 10 [orders] = Some (Ok [t1; t2]).
Proof. reflexivity. Qed.

(** One step of a concrete run. *)
Local Ltac next := eapply runs_cons; [econstructor; first [reflexivity | unfold zlen; cbn; lia]|cbn].

Definition two_chunks : list co_label :=
  [LGenSend; LGenSend; LGenClose; LTake 0; LSend 0; LHandle; LTake 0; LSend 0; LHandle].

Definition two_chunks_done : Coordinator :=
  mkCoordinator [] true [] [WIdle] [] true [run_task t1; run_task t2] (mkSnapshotProgress 1 2 0) false.

Lemma two_chunks_run : runs (co_step small) (Start small 0 [orders] [t1; t2]) two_chunks two_chunks_done.
Proof.
  unfold two_chunks, Start. cbn. next. next. eapply runs_cons; [econstructor|]. do 2 next.
  eapply runs_cons; [econstructor|cbn]. do 2 next. eapply runs_cons; [econstructor|cbn]. apply runs_nil.
Defined.

Lemma coordinator_tracks_tasks_witness : tracked two_chunks_done ≡ₚ run_task <$> [t1; t2].
Proof. apply (coordinator_tracks_tasks small 0 [orders] [t1; t2] two_chunks two_chunks_done two_chunks_run). Defined.

Lemma coordinator_completes_witness : (length two_chunks <= 4 * 2 + 1 + 1)%nat.
Proof.
  destruct (coordinator_completes small 0 [orders] [t1; t2] two_chunks two_chunks_done) as [H _];
    [cbn; lia..|exact two_chunks_run| |exact H].
  unfold two_chunks. rewrite !elem_of_cons, elem_of_nil. intros H. destruct_or! H; discriminate || done.
Defined.

(** The table count is compared with a count of chunks: two chunks of one table are
    200 percent. *)
Example progress_exceeds_100 : Progress (co_progress two_chunks_done) = float64_of_int 200.
Proof. reflexivity. Qed.

Definition hung : Coordinator :=
  mkCoordinator [] false [] [WSending (run_task t2)] [run_task t1] false [] (mkSnapshotProgress 1 0 0) true.

(** The worker has its second result when the snapshot is stopped and the handler returns. *)
Lemma hung_reachable :
  runs (co_step small) (Start small 0 [orders] [t1; t2])
    [LGenSend; LGenSend; LTake 0; LSend 0; LTake 0; LCancel; LHandlerStop] hung.
Proof.
  unfold Start. cbn. do 5 next. eapply runs_cons; [econstructor|]. eapply runs_cons; [econstructor|]. apply runs_nil.
Defined.

Lemma stop_hangs_when_blocked_witness :
  runs (co_step small) (Start small 0 [orders] [t1; t2])
    [LGenSend; LGenSend; LTake 0; LSend 0; LTake 0; LCancel; LHandlerStop] hung ∧
  ∀ ls s, runs (co_step small) hung ls s → co_workers s !! 0%nat = Some (WSending (run_task t2)).
Proof.
  split; [exact hung_reachable|]. intros ls s. apply (stop_hangs_when_blocked small 0 (run_task t2) hung ls s).
  split; [reflexivity|]. split; [reflexivity|]. unfold zlen. cbn. lia.
Defined.
End OneThread.
End ChunkRuns.
