(* ===== verification/OracleDML.v ===== *)
(** The parser of LogMiner's redo statements (internal/source/oracle/dml_parser.go).

    The position of the parser is the text that remains; a slice of the statement is
    the text between two positions.  A read beyond the end of the statement panics, as
    in the code.  Loops whose rounds may consume nothing are given a number of rounds,
    and answer [None] when it is not enough; error messages leave out positions. *)
From Stdlib Require Import ZArith Lia Ascii.
From Stdlib Require String.
From stdpp Require Import prelude countable gmap strings list fin_maps.
From S2P Require Import Prelude Strings.
Local Open Scope Z_scope.

Inductive DmlType := DmlInsert | DmlUpdate | DmlDelete.

Record DmlEntry := mkDmlEntry {
  de_Type : DmlType;
  de_NewValues : gmap string string;
  de_OldValues : gmap string string
}.

Definition dquote : ascii := "034"%char.
Definition squote : ascii := "'"%char.

(** ** Scanning *)

Fixpoint skipSpaces (s : string) : string :=
  match s with String " " s' => skipSpaces s' | _ => s end.

Definition is_space4 (c : ascii) : bool :=
  bool_decide (c = " "%char) || bool_decide (c = "009"%char) || bool_decide (c = "010"%char) || bool_decide (c = "013"%char).

Fixpoint skipWhitespace (s : string) : string :=
  match s with String c s' => if is_space4 c then skipWhitespace s' else s | EmptyString => s end.

(** [hasPrefix]: the next bytes are [p], without regard to case. *)
Fixpoint hasPrefix (p s : string) : bool :=
  match p, s with
  | EmptyString, _ => true
  | String a p', String b s' => bool_decide (lower_char a = lower_char b) && hasPrefix p' s'
  | String _ _, EmptyString => false
  end.

Definition expect (p s : string) : result string :=
  if hasPrefix p s then Ok (drop_prefix p s) else Err (ErrNew ("expected " +:+ p)).

Fixpoint skipTableName (inQuote : bool) (s : string) : string :=
  match s with
  | EmptyString => s
  | String c s' =>
      if bool_decide (c = dquote) then skipTableName (negb inQuote) s'
      else if negb inQuote && (bool_decide (c = "("%char) || bool_decide (c = " "%char)) then s
      else skipTableName inQuote s'
  end.

(** Up to a closing quote, which is consumed, or to the end. *)
Fixpoint until_dquote (s : string) : string * string :=
  match s with
  | EmptyString => (EmptyString, EmptyString)
  | String c s' =>
      if bool_decide (c = dquote) then (EmptyString, s')
      else let '(name, rest) := until_dquote s' in (String c name, rest)
  end.

Definition readQuotedName (s : string) : string * string :=
  let s := skipSpaces s in
  match s with
  | String c s' => if bool_decide (c = dquote) then until_dquote s' else (EmptyString, s)
  | EmptyString => (EmptyString, s)
  end.

(** The body of a quoted string, from behind its opening quote: the text up to and with
    the closing quote, what remains, and whether there was a closing quote. *)
Fixpoint scan_quoted (s : string) : string * string * bool :=
  match s with
  | EmptyString => (EmptyString, EmptyString, false)
  | String c s' =>
      if bool_decide (c = squote) then
        match s' with
        | String c' s'' =>
            if bool_decide (c' = squote)
            then let '(t, r, closed) := scan_quoted s'' in (String c (String c' t), r, closed)
            else (String c EmptyString, s', true)
        | EmptyString => (String c EmptyString, s', true)
        end
      else let '(t, r, closed) := scan_quoted s' in (String c t, r, closed)
  end.

(** The loop for function calls and unquoted values; [skipping] holds behind a
    concatenation operator, while blanks are passed over. *)
Fixpoint scan_plain (nested : nat) (inQuote skipping : bool) (s : string) : string * string :=
  match s with
  | EmptyString => (EmptyString, EmptyString)
  | String c s' =>
      let take nested inQuote skipping := let '(t, r) := scan_plain nested inQuote skipping s' in (String c t, r) in
      let stop := (EmptyString, s) in
      if skipping && bool_decide (c = " "%char) then take nested inQuote true
      else if inQuote then
        if bool_decide (c = squote) then
          match s' with
          | String c' s'' =>
              if bool_decide (c' = squote)
              then let '(t, r) := scan_plain nested true false s'' in (String c (String c' t), r)
              else take nested false false
          | EmptyString => take nested false false
          end
        else take nested true false
      else if bool_decide (c = squote) then take nested true false
      else if bool_decide (c = "("%char) then take (S nested) false false
      else if bool_decide (c = ")"%char) then
        match nested with
        | S nested => take nested false false
        | O => stop
        end
      else
        match nested with
        | S _ => take nested false false
        | O =>
            let next := match s' with String c' _ => Some c' | EmptyString => None end in
            if bool_decide (c = " "%char) && bool_decide (next = Some "|"%char) then take O false false
            else if bool_decide (c = "|"%char) && bool_decide (next = Some "|"%char) then
              match s' with
              | String c' s'' => let '(t, r) := scan_plain O false true s'' in (String c (String c' t), r)
              | EmptyString => stop
              end
            else if bool_decide (c = ","%char) || bool_decide (c = ";"%char) then stop
            else if bool_decide (c = " "%char) && (hasPrefix " and " s || hasPrefix " where " s || hasPrefix " set " s)
            then stop
            else take O false false
        end
  end.

(** The loop behind [Unsupported]. *)
Fixpoint scan_unsupported (s : string) : string * string :=
  match s with
  | EmptyString => (EmptyString, EmptyString)
  | String c s' =>
      if bool_decide (c = ","%char) || bool_decide (c = ";"%char) || bool_decide (c = ")"%char) ||
         hasPrefix " and " s || hasPrefix " where " s
      then (EmptyString, s)
      else let '(t, r) := scan_unsupported s' in (String c t, r)
  end.

(** ** Values *)

(** Does a concatenation operator come next?  Then what is behind it. *)
Definition after_concat (s : string) : option string :=
  match skipSpaces s with
  | String c (String c' s') =>
      if bool_decide (c = "|"%char) && bool_decide (c' = "|"%char) then Some (skipSpaces s') else None
  | _ => None
  end.

(** [readValue] and [readQuotedString], which call each other once for each
    concatenation operator. *)
Fixpoint read_value (n : nat) (s : string) : string * string :=
  match n with
  | O => (EmptyString, s)
  | S n =>
      let s := skipSpaces s in
      match s with
      | EmptyString => (EmptyString, EmptyString)
      | String c s' =>
          if bool_decide (c = squote) then
            let '(t, r, closed) := scan_quoted s' in
            let text := String c t in
            if closed : bool then
              match after_concat r with
              | Some s'' => let '(rest, r') := read_value n s'' in (text +:+ " || " +:+ rest, r')
              | None => (text, r)
              end
            else (text, r)
          else if hasPrefix "NULL" s then ("NULL", drop_prefix "NULL" s)
          else if hasPrefix "Unsupported Type" s then ("Unsupported Type", drop_prefix "Unsupported Type" s)
          else if hasPrefix "Unsupported" s then
            let '(t, r) := scan_unsupported s in (strings_TrimSpace t, r)
          else
            let '(t, r) := scan_plain 0 false false s in (strings_TrimSpace t, r)
      end
  end.

(** A round per byte that remains is enough ([read_value_enough]). *)
Definition readValue (s : string) : string * string := read_value (S (String.length s)) s.

(** ** Statements *)

Definition index_panic {A} : result A := Err (Panic "index out of range").

(** The loop of [parseColumnList]. *)
Fixpoint column_loop (n : nat) (s : string) : option (result (list string * string)) :=
  match n with
  | O => None
  | S n =>
      if bool_decide (s = "") then Some (Ok ([], ""))
      else
        let s := skipSpaces s in
        match s with
        | EmptyString => Some index_panic
        | String c r =>
            if bool_decide (c = ")"%char) then Some (Ok ([], r))
            else if bool_decide (c = ","%char) then column_loop n r
            else
              let '(name, r) := readQuotedName s in
              if bool_decide (name = "") then Some (Err (ErrNew "expected column name"))
              else
                res ← column_loop n r;
                Some ('(cols, r) ← res; Ok (name :: cols, r))
        end
  end.

Definition open_paren (s : string) : result string :=
  match skipSpaces s with
  | String c r => if bool_decide (c = "("%char) then Ok r else Err (ErrNew "expected '('")
  | EmptyString => Err (ErrNew "expected '('")
  end.

Definition parseColumnList (n : nat) (s : string) : option (result (list string * string)) :=
  match open_paren s with
  | Err e => Some (Err e)
  | Ok r => column_loop n r
  end.

(** The loop of [parseValueList]. *)
Fixpoint value_loop (n : nat) (s : string) : option (result (list string * string)) :=
  match n with
  | O => None
  | S n =>
      if bool_decide (s = "") then Some (Ok ([], ""))
      else
        let s := skipSpaces s in
        match s with
        | EmptyString => Some index_panic
        | String c r =>
            if bool_decide (c = ")"%char) then Some (Ok ([], r))
            else
              let s := if bool_decide (c = ","%char) then skipSpaces r else s in
              let '(val, r) := readValue s in
              res ← value_loop n r;
              Some ('(vals, r) ← res; Ok (val :: vals, r))
        end
  end.

Definition parseValueList (n numCols : nat) (s : string) : option (result (list string * string)) :=
  match open_paren s with
  | Err e => Some (Err e)
  | Ok r =>
      res ← value_loop n r;
      Some ('(vals, r) ← res;
            if bool_decide (length vals = numCols) then Ok (vals, r)
            else Err (ErrNew "column/value count mismatch"))
  end.

Definition Unsupported : string := "Unsupported Type".

(** Values the redo log does not carry are left out. *)
Definition put_value (col val : string) (m : gmap string string) : gmap string string :=
  if bool_decide (val = Unsupported) then m else <[col := val]> m.

Definition skip_char (c : ascii) (s : string) : string :=
  match s with String a r => if bool_decide (a = c) then r else s | EmptyString => s end.

(** The loop of [parseSetClause]. *)
Fixpoint set_loop (n : nat) (s : string) (m : gmap string string) : option (result (gmap string string * string)) :=
  match n with
  | O => None
  | S n =>
      if bool_decide (s = "") then Some (Ok (m, ""))
      else
        let s := skipSpaces s in
        if hasPrefix "where " s then Some (Ok (m, s))
        else
          match s with
          | EmptyString => Some index_panic
          | String c _ =>
              if bool_decide (c = ";"%char) then Some (Ok (m, s))
              else
                let '(col, r) := readQuotedName s in
                if bool_decide (col = "") then Some (Ok (m, r))
                else
                  let r := skipSpaces (skip_char "=" (skipSpaces r)) in
                  let '(val, r) := readValue r in
                  set_loop n (skip_char "," (skipSpaces r)) (put_value col val m)
          end
  end.

Definition parseSetClause (n : nat) (s : string) : option (result (gmap string string * string)) :=
  match expect "set " (skipSpaces s) with
  | Err e => Some (Err e)
  | Ok r => set_loop n r ∅
  end.

(** [and ] or [or ] behind a condition. *)
Definition skip_connective (s : string) : string :=
  if hasPrefix "and " s then drop_prefix "and " s
  else if hasPrefix "or " s then drop_prefix "or " s
  else s.

(** The loop of [parseWhereClause]. *)
Fixpoint where_loop (n : nat) (s : string) (m : gmap string string) : option (result (gmap string string * string)) :=
  match n with
  | O => None
  | S n =>
      if bool_decide (s = "") then Some (Ok (m, ""))
      else
        let s := skipSpaces s in
        match s with
        | EmptyString => Some index_panic
        | String c _ =>
            if bool_decide (c = ";"%char) then Some (Ok (m, s))
            else
              let '(col, r) := readQuotedName s in
              if bool_decide (col = "") then Some (Ok (m, r))
              else
                let r := skipSpaces r in
                if hasPrefix "IS NULL" r then
                  where_loop n (skip_connective (skipSpaces (drop_prefix "IS NULL" r))) (<[col := "NULL"]> m)
                else
                  let r := skipSpaces (skip_char "=" r) in
                  let '(val, r) := readValue r in
                  where_loop n (skip_connective (skipSpaces r)) (put_value col val m)
        end
  end.

Definition parseWhereClause (n : nat) (s : string) : option (result (gmap string string * string)) :=
  match expect "where " s with
  | Err e => Some (Err e)
  | Ok r => where_loop n r ∅
  end.

Definition parseInsert (n : nat) (s : string) : option (result DmlEntry) :=
  match expect "insert into " s with
  | Err e => Some (Err e)
  | Ok s =>
      rcols ← parseColumnList n (skipTableName false s);
      match rcols with
      | Err e => Some (Err e)
      | Ok (cols, s) =>
          match expect "values " (skipSpaces s) with
          | Err e => Some (Err e)
          | Ok s =>
              rvals ← parseValueList n (length cols) s;
              Some ('(vals, _) ← rvals;
                    Ok (mkDmlEntry DmlInsert (foldl (λ m cv, put_value cv.1 cv.2 m) ∅ (zip cols vals)) ∅))
          end
      end
  end.

Definition parseUpdate (n : nat) (s : string) : option (result DmlEntry) :=
  match expect "update " s with
  | Err e => Some (Err e)
  | Ok s =>
      rset ← parseSetClause n (skipTableName false s);
      match rset with
      | Err e => Some (Err e)
      | Ok (newValues, s) =>
          let s := skipSpaces s in
          if hasPrefix "where " s then
            rwhere ← parseWhereClause n s;
            Some ('(oldValues, _) ← rwhere; Ok (mkDmlEntry DmlUpdate newValues oldValues))
          else Some (Ok (mkDmlEntry DmlUpdate newValues ∅))
      end
  end.

Definition parseDelete (n : nat) (s : string) : option (result DmlEntry) :=
  match expect "delete from " s with
  | Err e => Some (Err e)
  | Ok s =>
      rwhere ← parseWhereClause n (skipSpaces (skipTableName false s));
      Some ('(oldValues, _) ← rwhere; Ok (mkDmlEntry DmlDelete ∅ oldValues))
  end.

(** [c | 0x20] *)
Definition lower_bit (c : ascii) : N := N.lor (N_of_ascii c) 32.

Definition Parse (n : nat) (sql : string) : option (result DmlEntry) :=
  if bool_decide (sql = "") then Some (Err (ErrNew "empty SQL"))
  else
    let s := skipWhitespace sql in
    match s with
    | EmptyString => Some (Err (ErrNew "empty SQL after trimming whitespace"))
    | String c _ =>
        if N.eqb (lower_bit c) (N_of_ascii "i") then parseInsert n s
        else if N.eqb (lower_bit c) (N_of_ascii "u") then parseUpdate n s
        else if N.eqb (lower_bit c) (N_of_ascii "d") then parseDelete n s
        else Some (Err (ErrNew ("unsupported DML: " +:+ sql)))
    end.

(** ** Examples *)

Definition qs (s : string) : string := String dquote s +:+ String dquote "".

Example parse_insert_example :
  Parse 40 ("insert into " +:+ qs "HR" +:+ "." +:+ qs "EMP" +:+ "(" +:+ qs "ID" +:+ "," +:+ qs "NAME" +:+ ") values (1,'O''Neil');")
  = Some (Ok (mkDmlEntry DmlInsert {["ID" := "1"; "NAME" := "'O''Neil'"]} ∅)).
Proof. vm_compute. reflexivity. Qed.

(** ** Scanning consumes text *)

Notation slength := String.length.

Lemma skipSpaces_length s : (slength (skipSpaces s) <= slength s)%nat.
Proof.
  induction s as [|c s IH]; [done|]. destruct c as [[] [] [] [] [] [] [] []]; cbn in *; lia.
Qed.

Lemma skipSpaces_cons c s : c ≠ " "%char → skipSpaces (String c s) = String c s.
Proof. intros Hc. destruct c as [[] [] [] [] [] [] [] []]; done. Qed.

Lemma skipWhitespace_length s : (slength (skipWhitespace s) <= slength s)%nat.
Proof. induction s as [|c s IH]; cbn; [done|]. destruct (is_space4 c); cbn; lia. Qed.

Lemma drop_prefix_length p s : (slength (drop_prefix p s) <= slength s)%nat.
Proof. revert s. induction p as [|a p IH]; intros [|b s]; cbn; try lia. specialize (IH s). lia. Qed.

Lemma drop_prefix_hasPrefix p s :
  hasPrefix p s = true → (slength p + slength (drop_prefix p s) = slength s)%nat.
Proof.
  revert s. induction p as [|a p IH]; intros s H; [by destruct s|]. destruct s as [|b s]; [done|].
  cbn in *. apply andb_true_iff in H as [_ H]. rewrite (IH s H). done.
Qed.

Lemma skipTableName_length q s : (slength (skipTableName q s) <= slength s)%nat.
Proof.
  revert q. induction s as [|c s IH]; intros q; cbn; [done|].
  destruct (bool_decide _); [pose proof (IH (negb q)); lia|]. destruct (negb q && _); cbn; [lia|]. pose proof (IH q). lia.
Qed.

Lemma until_dquote_length s : (slength (until_dquote s).2 <= slength s)%nat.
Proof.
  induction s as [|c s IH]; cbn; [done|]. destruct (bool_decide _); cbn; [lia|].
  destruct (until_dquote s); cbn in *. lia.
Qed.

Lemma readQuotedName_length s name r :
  readQuotedName s = (name, r) → (slength r <= slength s)%nat ∧ (name ≠ "" → (slength r < slength s)%nat).
Proof.
  unfold readQuotedName. pose proof (skipSpaces_length s) as Hl. destruct (skipSpaces s) as [|c s'] eqn:E.
  - intros [= <- <-]. cbn in *. split; [lia|done].
  - destruct (bool_decide _).
    + intros H. pose proof (until_dquote_length s') as Hu. rewrite H in Hu. cbn in *. lia.
    + intros [= <- <-]. split; [lia|done].
Qed.

Lemma scan_quoted_length s : (slength (scan_quoted s).1.2 <= slength s)%nat.
Proof.
  remember (slength s) as n eqn:Hn. assert (H : (slength s <= n)%nat) by lia. clear Hn. revert s H.
  induction n as [|n IH]; intros [|c s] H; cbn in *; try lia.
  destruct (bool_decide (c = squote)).
  - destruct s as [|c' s]; cbn; [lia|]. destruct (bool_decide _); [|cbn in *; lia].
    pose proof (IH s) as Hs. destruct (scan_quoted s) as [[t r] b]. cbn in *. lia.
  - pose proof (IH s) as Hs. destruct (scan_quoted s) as [[t r] b]. cbn in *. lia.
Qed.

Lemma scan_unsupported_length s : (slength (scan_unsupported s).2 <= slength s)%nat.
Proof.
  induction s as [|c s IH]; [done|]. cbn [scan_unsupported].
  destruct (_ || _); [done|]. destruct (scan_unsupported s). cbn in *. lia.
Qed.

Lemma scan_plain_length s : ∀ nested q sk, (slength (scan_plain nested q sk s).2 <= slength s)%nat.
Proof.
  remember (slength s) as n eqn:Hn. assert (H : (slength s <= n)%nat) by lia. clear Hn. revert s H.
  induction n as [|n IH]; intros [|c s] H nested q sk; cbn [scan_plain]; try (cbn in *; lia).
  destruct s as [|c' s']; repeat match goal with
  | |- context [scan_plain ?a ?b ?d ?x] =>
      pose proof (IH x ltac:(cbn in *; lia) a b d); destruct (scan_plain a b d x); cbn [snd] in *
  | |- context [if ?x then _ else _] => destruct x
  | |- context [match nested with _ => _ end] => destruct nested
  end; cbn in *; lia.
Qed.

Lemma after_concat_length s s' : after_concat s = Some s' → (slength s' < slength s)%nat.
Proof.
  unfold after_concat. pose proof (skipSpaces_length s). destruct (skipSpaces s) as [|c [|c' r]]; [done..|].
  destruct (_ && _); [|done]. intros [= <-]. pose proof (skipSpaces_length r). cbn in *. lia.
Qed.

Lemma read_value_length n s : (slength (read_value n s).2 <= slength s)%nat.
Proof.
  revert s. induction n as [|n IH]; intros s; cbn [read_value]; [done|].
  pose proof (skipSpaces_length s) as Hs. destruct (skipSpaces s) as [|c s'] eqn:E; [cbn; lia|].
  destruct (bool_decide _).
  { pose proof (scan_quoted_length s') as Hq. destruct (scan_quoted s') as [[t r] closed]. cbn in Hq, Hs.
    destruct closed; [|cbn; lia]. destruct (after_concat r) as [s''|] eqn:Ea; [|cbn; lia].
    pose proof (after_concat_length _ _ Ea). pose proof (IH s''). destruct (read_value n s''). cbn in *. lia. }
  destruct (hasPrefix "NULL" _); [pose proof (drop_prefix_length "NULL" (String c s')); cbn [snd]; lia|].
  destruct (hasPrefix "Unsupported Type" _);
    [pose proof (drop_prefix_length "Unsupported Type" (String c s')); cbn [snd]; lia|].
  destruct (hasPrefix "Unsupported" _).
  - pose proof (scan_unsupported_length (String c s')). destruct (scan_unsupported _). cbn [snd] in *. lia.
  - pose proof (scan_plain_length (String c s') 0 false false). destruct (scan_plain _ _ _ _). cbn [snd] in *. lia.
Qed.

(** The rounds [readValue] allows are enough. *)
Lemma read_value_enough n m s : (slength s < n)%nat → (slength s < m)%nat → read_value n s = read_value m s.
Proof.
  revert m s. induction n as [|n IH]; intros [|m] s Hn Hm; try lia. cbn [read_value].
  pose proof (skipSpaces_length s) as Hs. destruct (skipSpaces s) as [|c s']; [done|].
  destruct (bool_decide _); [|done].
  pose proof (scan_quoted_length s') as Hq. destruct (scan_quoted s') as [[t r] []]; [|done]. cbn in Hq, Hs.
  destruct (after_concat r) as [s''|] eqn:Ea; [|done]. apply after_concat_length in Ea.
  rewrite (IH m s''); [done|lia..].
Qed.

Lemma readValue_length s val r : readValue s = (val, r) → (slength r <= slength s)%nat.
Proof. unfold readValue. intros E. pose proof (read_value_length (S (slength s)) s) as H. by rewrite E in H. Qed.

Lemma skip_char_length c s : (slength (skip_char c s) <= slength s)%nat.
Proof. destruct s as [|a s]; cbn; [done|]. destruct (bool_decide _); cbn; lia. Qed.

Lemma skip_connective_length s : (slength (skip_connective s) <= slength s)%nat.
Proof.
  unfold skip_connective. destruct (hasPrefix _ _); [apply drop_prefix_length|].
  destruct (hasPrefix _ _); [apply drop_prefix_length|done].
Qed.

(** ** Termination *)

Lemma where_loop_total n s m : (slength s < n)%nat → ∃ r, where_loop n s m = Some r.
Proof.
  revert s m. induction n as [|n IH]; intros s m Hn; [lia|]. cbn [where_loop].
  destruct (bool_decide (s = "")); [eauto|]. pose proof (skipSpaces_length s) as Hs.
  destruct (skipSpaces s) as [|c s'] eqn:E; [eauto|]. destruct (bool_decide (c = ";"%char)); [eauto|].
  destruct (readQuotedName (String c s')) as [col r] eqn:Er.
  destruct (readQuotedName_length _ _ _ Er) as [_ Hr]. case_bool_decide as Hc; [eauto|]. specialize (Hr Hc).
  pose proof (skipSpaces_length r) as Hr'. destruct (hasPrefix "IS NULL" (skipSpaces r)).
  - apply IH. pose proof (skip_connective_length (skipSpaces (drop_prefix "IS NULL" (skipSpaces r)))).
    pose proof (skipSpaces_length (drop_prefix "IS NULL" (skipSpaces r))).
    pose proof (drop_prefix_length "IS NULL" (skipSpaces r)). lia.
  - destruct (readValue _) as [val r2] eqn:Ev. apply readValue_length in Ev. apply IH.
    pose proof (skipSpaces_length (skip_char "=" (skipSpaces r))). pose proof (skip_char_length "=" (skipSpaces r)).
    pose proof (skip_connective_length (skipSpaces r2)). pose proof (skipSpaces_length r2). lia.
Qed.

Lemma set_loop_total n s m :
  (slength s < n)%nat →
  ∃ r, set_loop n s m = Some r ∧ ∀ m' s', r = Ok (m', s') → (slength s' <= slength s)%nat.
Proof.
  revert s m. induction n as [|n IH]; intros s m Hn; [lia|]. cbn [set_loop].
  case_bool_decide as E0; [eexists; split; [done|]; intros ? ? [= _ <-]; cbn; lia|]. pose proof (skipSpaces_length s) as Hs.
  destruct (hasPrefix "where " _); [eexists; split; [done|]; by intros ? ? [= _ <-]|].
  destruct (skipSpaces s) as [|c s'] eqn:E; [eexists; split; [done|]; done|].
  destruct (bool_decide (c = ";"%char)); [eexists; split; [done|]; intros ? ? [= _ <-]; lia|].
  destruct (readQuotedName (String c s')) as [col r] eqn:Er.
  destruct (readQuotedName_length _ _ _ Er) as [Hr0 Hr].
  case_bool_decide as Hc; [eexists; split; [done|]; intros ? ? [= _ <-]; lia|]. specialize (Hr Hc).
  destruct (readValue _) as [val r2] eqn:Ev. apply readValue_length in Ev.
  pose proof (skipSpaces_length (skip_char "=" (skipSpaces r))). pose proof (skip_char_length "=" (skipSpaces r)).
  pose proof (skipSpaces_length r). pose proof (skip_char_length "," (skipSpaces r2)). pose proof (skipSpaces_length r2).
  destruct (IH (skip_char "," (skipSpaces r2)) (put_value col val m)) as (res & Hres & Hlen); [lia|].
  exists res. split; [done|]. intros m' s'' Hr'. specialize (Hlen _ _ Hr'). lia.
Qed.

Lemma expect_length p s r : expect p s = Ok r → (slength r <= slength s)%nat.
Proof. unfold expect. destruct (hasPrefix p s); [|done]. intros [= <-]. apply drop_prefix_length. Qed.

Lemma parseWhereClause_total n s : (slength s < n)%nat → ∃ r, parseWhereClause n s = Some r.
Proof.
  intros Hn. unfold parseWhereClause. destruct (expect "where " s) as [r|] eqn:E; [|eauto].
  apply expect_length in E. apply where_loop_total. lia.
Qed.

Lemma parseUpdate_total n s : (slength s < n)%nat → ∃ r, parseUpdate n s = Some r.
Proof.
  intros Hn. unfold parseUpdate, parseSetClause. destruct (expect "update " s) as [r|] eqn:E; [|eauto].
  apply expect_length in E. destruct (expect "set " _) as [r1|] eqn:E1; [|cbn; eauto]. apply expect_length in E1.
  pose proof (skipTableName_length false r). pose proof (skipSpaces_length (skipTableName false r)).
  destruct (set_loop_total n r1 ∅) as (res & -> & Hlen); [lia|]. cbn [mbind option_bind].
  destruct res as [[m s']|]; [|eauto]. specialize (Hlen _ _ eq_refl). pose proof (skipSpaces_length s').
  destruct (hasPrefix "where " _); [|eauto].
  destruct (parseWhereClause_total n (skipSpaces s')) as [rw ->]; [lia|]. cbn [mbind option_bind]. eauto.
Qed.

Lemma parseDelete_total n s : (slength s < n)%nat → ∃ r, parseDelete n s = Some r.
Proof.
  intros Hn. unfold parseDelete. destruct (expect "delete from " s) as [r|] eqn:E; [|eauto]. apply expect_length in E.
  pose proof (skipTableName_length false r). pose proof (skipSpaces_length (skipTableName false r)).
  destruct (parseWhereClause_total n (skipSpaces (skipTableName false r))) as [rw ->]; [lia|]. cbn [mbind option_bind]. eauto.
Qed.

(** C18. The parser answers on every text that is not an insert: as many rounds of its
    loops as the text has bytes, plus one, are enough. *)
Theorem parse_terminates n sql :
  (slength sql < n)%nat →
  (∀ c s, skipWhitespace sql = String c s → lower_bit c ≠ N_of_ascii "i") →
  ∃ r, Parse n sql = Some r.
Proof.
  intros Hn Hi. unfold Parse. case_bool_decide; [eauto|]. pose proof (skipWhitespace_length sql) as Hl.
  destruct (skipWhitespace sql) as [|c s] eqn:E; [eauto|].
  rewrite (proj2 (N.eqb_neq _ _)) by by eapply Hi.
  destruct (N.eqb _ _); [apply parseUpdate_total; lia|]. destruct (N.eqb _ _); [apply parseDelete_total; lia|]. eauto.
Qed.

(** A semicolon where a value should be: nothing is consumed, and the loop goes round. *)
Lemma value_loop_semicolon n s : value_loop n (String ";" s) = None.
Proof.
  induction n as [|n IH]; [done|]. cbn [value_loop]. rewrite bool_decide_eq_false_2 by done.
  rewrite skipSpaces_cons by done. rewrite !bool_decide_eq_false_2 by done.
  assert (readValue (String ";" s) = ("", String ";" s)) as ->; [|by rewrite IH].
  unfold readValue. cbn [read_value]. rewrite skipSpaces_cons by done. done.
Qed.

(** An insert whose list of values has a semicolon in place of a comma is parsed for
    ever: no number of rounds ends the loop over the values. *)
Theorem insert_parse_diverges n : Parse n ("insert into T(" +:+ qs "A" +:+ ") values (1;2)") = None.
Proof.
  destruct n as [|[|n]]; [reflexivity..|].
  assert (E : Parse (S (S n)) ("insert into T(" +:+ qs "A" +:+ ") values (1;2)") =
    (rvals ← parseValueList (S (S n)) 1 "(1;2)";
     Some ('(vals, _) ← rvals; Ok (mkDmlEntry DmlInsert (foldl (λ m cv, put_value cv.1 cv.2 m) ∅ (zip ["A"] vals)) ∅))))
    by reflexivity.
  rewrite E. unfold parseValueList. change (open_paren "(1;2)") with (Ok "1;2)"). cbv beta iota.
  assert (value_loop (S (S n)) "1;2)" = None) as ->; [|done].
  change (value_loop (S (S n)) "1;2)") with
    (res ← value_loop (S n) ";2)"; Some ('(vals, r) ← res; Ok ("1" :: vals, r))).
  by rewrite value_loop_semicolon.
Qed.

(** ** Statements as LogMiner writes them *)

(** A quoted string by its contents, a null, a token such as a number, and a call such
    as [TO_DATE('...', '...')]. *)
Inductive sqlval := SQuoted (body : string) | SNull | SPlain (tok : string) | SCall (f : string) (args : list string).

#[export] Instance sqlval_eq_dec : EqDecision sqlval.
Proof. solve_decision. Defined.

(** Quotes within a string are doubled. *)
Fixpoint escape (s : string) : string :=
  match s with
  | EmptyString => EmptyString
  | String c s' => if bool_decide (c = squote) then String c (String c (escape s')) else String c (escape s')
  end.

Definition quoted (body : string) : string := String squote (escape body +:+ String squote "").

Definition print_val (v : sqlval) : string :=
  match v with
  | SQuoted body => quoted body
  | SNull => "NULL"
  | SPlain tok => tok
  | SCall f args => f +:+ "(" +:+ join ", " (quoted <$> args) +:+ ")"
  end.

Definition plain_char (c : ascii) : bool :=
  visible c && negb (bool_decide (c ∈ ["'"; "("; ")"; ","; ";"; "|"; "034"]%char)).

Fixpoint plain_chars (s : string) : bool :=
  match s with EmptyString => true | String c s' => plain_char c && plain_chars s' end.

Definition plain_token (s : string) : bool :=
  negb (bool_decide (s = "")) && plain_chars s && negb (hasPrefix "NULL" s) && negb (hasPrefix "Unsupported" s).

Definition good_val (v : sqlval) : bool :=
  match v with
  | SQuoted _ | SNull => true
  | SPlain tok => plain_token tok
  | SCall f _ => plain_token f
  end.

(** What may follow a value. *)
Inductive ends : string → Prop :=
  | ends_nil : ends ""
  | ends_char c r : c ∈ [","; ")"; ";"]%char → ends (String c r)
  | ends_and r : ends (" and " +:+ r)
  | ends_where r : ends (" where " +:+ r).

Lemma plain_char_inv c :
  plain_char c = true →
  visible c = true ∧ c ≠ "'"%char ∧ c ≠ "("%char ∧ c ≠ ")"%char ∧ c ≠ ","%char ∧ c ≠ ";"%char ∧ c ≠ "|"%char ∧
  c ≠ "034"%char ∧ c ≠ " "%char.
Proof.
  unfold plain_char. intros H. propify. split_and!; try done; intros ->; set_solver.
Qed.

(** Decides the tests on the bytes that the hypotheses and computation settle. *)
Local Ltac chars :=
  repeat match goal with
  | |- context [bool_decide (?a = ?b)] =>
      first [rewrite (bool_decide_eq_false_2 (a = b)) by (unfold squote, dquote in *; congruence)
            |rewrite (bool_decide_eq_true_2 (a = b)) by (unfold squote, dquote in *; congruence)]
  end; cbn [andb orb negb].

Definition starts_quote (s : string) : bool := match s with String c _ => bool_decide (c = squote) | "" => false end.

Lemma scan_plain_token t s :
  plain_chars t = true → scan_plain 0 false false (t +:+ s) = let '(a, r) := scan_plain 0 false false s in (t +:+ a, r).
Proof.
  induction t as [|c t IH]; intros H; [rewrite !string_app_nil_l; by destruct (scan_plain 0 false false s)|].
  cbn in H. apply andb_true_iff in H as [Hc H]. apply plain_char_inv in Hc as (_ & ? & ? & ? & ? & ? & ? & ? & ?).
  rewrite !string_app_cons. cbn [scan_plain]. chars. rewrite (IH H). by destruct (scan_plain 0 false false s).
Qed.

Lemma scan_plain_ends r : ends r → scan_plain 0 false false r = ("", r).
Proof.
  intros []; [done| |reflexivity|reflexivity].
  rewrite !elem_of_cons, elem_of_nil in H. destruct_or! H; subst; done.
Qed.

Lemma scan_plain_quote n b s :
  starts_quote s = false →
  scan_plain n true false (escape b +:+ String squote s) =
  let '(a, r) := scan_plain n false false s in (escape b +:+ String squote a, r).
Proof.
  intros Hs. induction b as [|c b IH].
  - cbn [escape]. rewrite !string_app_nil_l. cbn [scan_plain andb]. chars.
    destruct s as [|c s]; [done|]. cbn in Hs. rewrite Hs. by destruct (scan_plain n false false (String c s)).
  - cbn [escape]. case_bool_decide as Hc.
    + subst c. rewrite !string_app_cons. cbn [scan_plain andb]. chars. rewrite IH.
      by destruct (scan_plain n false false s).
    + rewrite !string_app_cons. cbn [scan_plain andb]. chars. rewrite IH. by destruct (scan_plain n false false s).
Qed.

Lemma scan_plain_quoted n b s :
  starts_quote s = false →
  scan_plain n false false (quoted b +:+ s) = let '(a, r) := scan_plain n false false s in (quoted b +:+ a, r).
Proof.
  intros Hs. unfold quoted. rewrite string_app_cons, string_app_assoc, !string_app_cons, string_app_nil_l.
  cbn [scan_plain andb]. chars. rewrite scan_plain_quote by done.
  destruct (scan_plain n false false s). by rewrite string_app_cons, string_app_assoc.
Qed.

(** The arguments of a call, up to its closing parenthesis. *)
Lemma scan_plain_args args s :
  ends s →
  scan_plain 1 false false (join ", " (quoted <$> args) +:+ ")" +:+ s) = (join ", " (quoted <$> args) +:+ ")", s).
Proof.
  intros He. assert (Hp : scan_plain 1 false false (")" +:+ s) = (")", s)).
  { rewrite string_app_cons, string_app_nil_l. cbn [scan_plain andb]. chars. by rewrite scan_plain_ends. }
  induction args as [|b args IH]; [exact Hp|]. destruct args as [|b' args].
  - cbn [fmap list_fmap join]. rewrite scan_plain_quoted by done. by rewrite Hp.
  - change (join ", " (quoted <$> b :: b' :: args)) with (quoted b +:+ ", " +:+ join ", " (quoted <$> b' :: args)).
    rewrite !string_app_assoc, scan_plain_quoted by done.
    set (rest := join ", " (quoted <$> b' :: args)) in *.
    change (", " +:+ rest +:+ ")" +:+ s) with (String "," (String " " (rest +:+ ")" +:+ s))).
    cbn [scan_plain andb]. chars. rewrite IH. done.
Qed.

Lemma scan_quoted_body b s :
  starts_quote s = false → scan_quoted (escape b +:+ String squote s) = (escape b +:+ String squote "", s, true).
Proof.
  intros Hs. induction b as [|c b IH].
  - cbn [escape]. rewrite !string_app_nil_l. cbn [scan_quoted]. chars.
    destruct s as [|c s]; [done|]. cbn in Hs. by rewrite Hs.
  - cbn [escape]. case_bool_decide as Hc.
    + subst c. rewrite !string_app_cons. cbn [scan_quoted]. chars. by rewrite IH.
    + rewrite !string_app_cons. cbn [scan_quoted]. chars. by rewrite IH.
Qed.

Lemma ends_facts r : ends r → starts_quote r = false ∧ after_concat r = None.
Proof.
  intros []; [done| |split; reflexivity|split; reflexivity].
  rewrite !elem_of_cons, elem_of_nil in H. destruct_or! H; subst; split; try done;
    unfold after_concat; rewrite skipSpaces_cons by done; by destruct r0.
Qed.

(** *** Prefixes without regard to case *)

Lemma hasPrefix_exact p s : hasPrefix p (p +:+ s) = true.
Proof. induction p as [|a p IH]; [done|]. rewrite string_app_cons. cbn. rewrite (bool_decide_eq_true_2 _ eq_refl). exact IH. Qed.

Lemma hasPrefix_weaken p q s : hasPrefix p s = false → hasPrefix (p +:+ q) s = false.
Proof.
  revert s. induction p as [|a p IH]; intros s H; [done|]. rewrite string_app_cons.
  destruct s as [|b s]; [done|]. cbn in *. destruct (bool_decide _); [|done]. by apply IH.
Qed.

(** Does no byte of [p] match [c]? *)
Fixpoint lacks (c : ascii) (p : string) : bool :=
  match p with EmptyString => true | String a p' => negb (bool_decide (lower_char a = lower_char c)) && lacks c p' end.

Lemma hasPrefix_delimited p t c r :
  lacks c p = true → hasPrefix p t = false → hasPrefix p (t +:+ String c r) = false.
Proof.
  revert t. induction p as [|a p IH]; intros t Hl H; [done|]. cbn in Hl. apply andb_true_iff in Hl as [Hc Hl].
  destruct t as [|b t].
  - rewrite string_app_nil_l. cbn. apply negb_true_iff in Hc. by rewrite Hc.
  - rewrite string_app_cons. cbn [hasPrefix] in *. destruct (bool_decide (lower_char a = lower_char b)); [|done]. by apply IH.
Qed.

(** *** Values *)

Lemma plain_chars_visible s : plain_chars s = true → s ≠ "" → neat s = true.
Proof.
  intros H Hne. unfold neat. apply andb_true_iff. split.
  - destruct s as [|c s]; [done|]. cbn in *. apply andb_true_iff in H as [Hc _]. by apply plain_char_inv in Hc as [? _].
  - revert Hne. induction s as [|c s IH]; intros Hne; [done|]. cbn in H. apply andb_true_iff in H as [Hc H].
    rewrite string_rev_cons. destruct s as [|c' s].
    + cbn. by apply plain_char_inv in Hc as [? _].
    + apply visible_head_app. by apply IH.
Qed.

Lemma plain_token_inv t :
  plain_token t = true →
  t ≠ "" ∧ plain_chars t = true ∧ hasPrefix "NULL" t = false ∧ hasPrefix "Unsupported" t = false.
Proof. unfold plain_token. intros H. propify. done. Qed.

(** A text that begins with a token and is read by the general loop. *)
Lemma read_value_plain n t u a r :
  plain_token t = true → (∀ p, p ∈ ["NULL"; "Unsupported"] → hasPrefix p (t +:+ u) = false) →
  scan_plain 0 false false (t +:+ u) = (a, r) → read_value (S n) (t +:+ u) = (strings_TrimSpace a, r).
Proof.
  intros (Hne & Hp & _ & _)%plain_token_inv Hpre Hs.
  destruct t as [|c t]; [done|]. cbn in Hp. apply andb_true_iff in Hp as [Hc _].
  apply plain_char_inv in Hc as (_ & ? & _ & _ & _ & _ & _ & _ & ?).
  cbn [read_value]. rewrite string_app_cons in *. rewrite skipSpaces_cons by done.
  rewrite (bool_decide_eq_false_2 (c = squote)) by (unfold squote; congruence).
  rewrite (Hpre "NULL") by set_solver. pose proof (Hpre "Unsupported" ltac:(set_solver)) as Hu.
  pose proof (hasPrefix_weaken "Unsupported" " Type" _ Hu) as Hu'.
  change ("Unsupported" +:+ " Type") with "Unsupported Type" in Hu'. rewrite Hu', Hu, Hs. done.
Qed.

Lemma ends_prefix p t r :
  p ∈ ["NULL"; "Unsupported"] → ends r → hasPrefix p t = false → hasPrefix p (t +:+ r) = false.
Proof.
  intros Hp He Ht. rewrite !elem_of_cons, elem_of_nil in Hp.
  destruct He as [|c r Hc|r|r]; [by rewrite string_app_nil_r| |rewrite string_app_cons|rewrite string_app_cons];
    apply hasPrefix_delimited; try done;
    [rewrite !elem_of_cons, elem_of_nil in Hc; destruct_or! Hc; subst| |];
    destruct_or! Hp; subst; done.
Qed.

(** Reading a printed value gives its text back and stops behind it. *)
Lemma readValue_print v r : good_val v = true → ends r → readValue (print_val v +:+ r) = (print_val v, r).
Proof.
  intros Hv He. unfold readValue. generalize (slength (print_val v +:+ r)). intros n.
  destruct (ends_facts r He) as [Hq Hc]. destruct v as [b| |t|f args]; cbn [print_val good_val] in *.
  - unfold quoted. rewrite string_app_cons, string_app_assoc, !string_app_cons, string_app_nil_l.
    cbn [read_value]. rewrite skipSpaces_cons by done. rewrite bool_decide_eq_true_2 by done.
    rewrite scan_quoted_body by done. by rewrite Hc.
  - reflexivity.
  - rewrite (read_value_plain n t r t r); [|done| |].
    + destruct (plain_token_inv t Hv) as (? & ? & _). by rewrite TrimSpace_neat by by apply plain_chars_visible.
    + intros p Hp. apply ends_prefix; [done..|]. destruct (plain_token_inv t Hv) as (_ & _ & ? & ?).
      rewrite !elem_of_cons, elem_of_nil in Hp. by destruct_or! Hp; subst.
    + destruct (plain_token_inv t Hv) as (_ & ? & _). rewrite scan_plain_token by done.
      rewrite scan_plain_ends by done. by rewrite string_app_nil_r.
  - set (inner := join ", " (quoted <$> args)). rewrite !string_app_assoc.
    destruct (plain_token_inv f Hv) as (Hne & Hpl & Hn & Hu).
    rewrite (read_value_plain n f ("(" +:+ inner +:+ ")" +:+ r) (f +:+ "(" +:+ inner +:+ ")") r Hv).
    + rewrite TrimSpace_neat; [done|]. pose proof (neat_app f ")" (plain_chars_visible f Hpl Hne) ltac:(done) ("(" +:+ inner)) as N.
      by rewrite string_app_assoc in N.
    + intros p Hp. rewrite string_app_cons. apply hasPrefix_delimited;
        rewrite !elem_of_cons, elem_of_nil in Hp; by destruct_or! Hp; subst.
    + rewrite scan_plain_token by done. rewrite string_app_cons, string_app_nil_l. cbn [scan_plain andb]. chars.
      unfold inner. rewrite scan_plain_args by done. done.
Qed.

(** The first byte of a printed value starts no blank, comma or parenthesis. *)
Lemma print_val_head v :
  good_val v = true → ∃ c s, print_val v = String c s ∧ c ≠ " "%char ∧ c ≠ ","%char ∧ c ≠ ")"%char.
Proof.
  intros Hv. assert (H : ∀ t, plain_token t = true → ∃ c s, t = String c s ∧ c ≠ " "%char ∧ c ≠ ","%char ∧ c ≠ ")"%char).
  { intros t (Hne & Hp & _)%plain_token_inv. destruct t as [|c t]; [done|]. cbn in Hp. apply andb_true_iff in Hp as [Hc _].
    apply plain_char_inv in Hc as (_ & ? & ? & ? & ? & ? & ? & ? & ?). eauto 10. }
  destruct v as [b| |t|f args]; cbn in *.
  - by exists squote, (escape b +:+ String squote "").
  - by exists "N"%char, "ULL".
  - by apply H.
  - destruct (H f Hv) as (c & s & -> & ?). rewrite string_app_cons. eauto.
Qed.

Lemma print_val_supported v : good_val v = true → print_val v ≠ Unsupported.
Proof.
  intros Hv E. destruct v as [b| |t|f args]; cbn in *; [done|done| |].
  - apply plain_token_inv in Hv as (_ & _ & _ & Hu). by rewrite E in Hu.
  - apply plain_token_inv in Hv as (_ & _ & _ & Hu).
    pose proof (hasPrefix_delimited "Unsupported" f "(" (join ", " (quoted <$> args) +:+ ")") eq_refl Hu) as H.
    rewrite string_app_cons, string_app_nil_l in E. by rewrite E in H.
Qed.

Lemma skipSpaces_print v r : good_val v = true → skipSpaces (print_val v +:+ r) = print_val v +:+ r.
Proof.
  intros (c & s & -> & Hc & _)%print_val_head. rewrite string_app_cons. by apply skipSpaces_cons.
Qed.

(** *** Names *)

Definition good_name (s : string) : bool := negb (bool_decide (s = "")) && negb (has_char dquote s).

Lemma until_dquote_name s r : has_char dquote s = false → until_dquote (s +:+ String dquote r) = (s, r).
Proof.
  induction s as [|c s IH]; intros H.
  - rewrite string_app_nil_l. cbn [until_dquote]. by chars.
  - cbn in H. apply orb_false_iff in H as [Hc H]. rewrite string_app_cons. cbn [until_dquote]. by rewrite Hc, IH.
Qed.

Lemma qs_app s r : qs s +:+ r = String dquote (s +:+ String dquote r).
Proof. unfold qs. by rewrite string_app_assoc. Qed.

Lemma readQuotedName_qs s r : good_name s = true → readQuotedName (qs s +:+ r) = (s, r).
Proof.
  unfold good_name. intros H. propify. unfold readQuotedName. rewrite qs_app, skipSpaces_cons by done.
  rewrite bool_decide_eq_true_2 by done. by apply until_dquote_name.
Qed.

Lemma skipTableName_in_quote s r : has_char dquote s = false → skipTableName true (s +:+ String dquote r) = skipTableName false r.
Proof.
  induction s as [|c s IH]; intros H.
  - rewrite string_app_nil_l. cbn [skipTableName]. by chars.
  - cbn in H. apply orb_false_iff in H as [Hc H]. rewrite string_app_cons. cbn [skipTableName]. rewrite Hc. cbn [negb andb]. by apply IH.
Qed.

Lemma skipTableName_qs s r : has_char dquote s = false → skipTableName false (qs s +:+ r) = skipTableName false r.
Proof. intros H. rewrite qs_app. cbn [skipTableName]. rewrite bool_decide_eq_true_2 by done. by apply skipTableName_in_quote. Qed.

(** *** Lists of columns and values *)

Lemma join_cons2 sep x y l : join sep (x :: y :: l) = x +:+ sep +:+ join sep (y :: l).
Proof. done. Qed.

Lemma column_loop_name n name r :
  good_name name = true →
  column_loop (S n) (qs name +:+ r) = (res ← column_loop n r; Some ('(cols, r) ← res; Ok (name :: cols, r))).
Proof.
  intros H. cbn [column_loop]. pose proof (readQuotedName_qs name r H) as E.
  rewrite qs_app in *. rewrite bool_decide_eq_false_2 by done. rewrite skipSpaces_cons by done. chars. rewrite E.
  unfold good_name in H. propify. by rewrite bool_decide_eq_false_2.
Qed.

Lemma column_loop_print n cols r :
  cols ≠ [] → Forall (λ c, good_name c = true) cols → (2 * length cols <= n)%nat →
  column_loop n (join "," (qs <$> cols) +:+ ")" +:+ r) = Some (Ok (cols, r)).
Proof.
  revert n. induction cols as [|c cols IH]; intros n Hne Hc Hn; [done|]. inversion Hc as [|? ? Hg Hgs]; subst.
  destruct n as [|[|n]]; cbn [length] in Hn; [lia..|]. destruct cols as [|c' cols].
  - cbn [fmap list_fmap join]. rewrite column_loop_name by done. reflexivity.
  - change (qs <$> c :: c' :: cols) with (qs c :: qs c' :: (qs <$> cols)). rewrite join_cons2.
    rewrite !string_app_assoc, column_loop_name by done.
    rewrite (string_app_cons "," ""), string_app_nil_l. cbn [column_loop]. rewrite bool_decide_eq_false_2 by done.
    rewrite skipSpaces_cons by done. chars.
    change (qs c' :: (qs <$> cols)) with (qs <$> c' :: cols). rewrite IH; [done|done|done|cbn [length] in *; lia].
Qed.

Lemma value_loop_value n v r :
  good_val v = true → ends r →
  value_loop (S n) (print_val v +:+ r) = (res ← value_loop n r; Some ('(vals, r) ← res; Ok (print_val v :: vals, r))) ∧
  value_loop (S n) ("," +:+ print_val v +:+ r) = (res ← value_loop n r; Some ('(vals, r) ← res; Ok (print_val v :: vals, r))).
Proof.
  intros Hv He. pose proof (readValue_print v r Hv He) as E. pose proof (skipSpaces_print v r Hv) as Es.
  destruct (print_val_head v Hv) as (c & s & Ev & H1 & H2 & H3). cbn [value_loop]. split.
  - rewrite Es. rewrite Ev in *. rewrite string_app_cons in *. rewrite bool_decide_eq_false_2 by done. chars. by rewrite E.
  - rewrite string_app_cons, string_app_nil_l. rewrite bool_decide_eq_false_2 by done. rewrite skipSpaces_cons by done.
    chars. by rewrite Es, E.
Qed.

Lemma value_loop_print n vs r :
  vs ≠ [] → Forall (λ v, good_val v = true) vs → (length vs < n)%nat →
  value_loop n (join "," (print_val <$> vs) +:+ ")" +:+ r) = Some (Ok (print_val <$> vs, r)) ∧
  value_loop n ("," +:+ join "," (print_val <$> vs) +:+ ")" +:+ r) = Some (Ok (print_val <$> vs, r)).
Proof.
  revert n. induction vs as [|v vs IH]; intros n Hne Hv Hn; [done|]. inversion Hv as [|? ? Hg Hgs]; subst.
  destruct n as [|[|n]]; cbn [length] in Hn; [lia..|]. destruct vs as [|v' vs].
  - cbn [fmap list_fmap join].
    destruct (value_loop_value (S n) v (")" +:+ r) Hg) as [-> ->]; [|split; reflexivity].
    rewrite string_app_cons. apply ends_char. set_solver.
  - change (print_val <$> v :: v' :: vs) with (print_val v :: print_val v' :: (print_val <$> vs)). rewrite join_cons2.
    rewrite !string_app_assoc. change (print_val v' :: (print_val <$> vs)) with (print_val <$> v' :: vs).
    set (tl := join "," (print_val <$> v' :: vs) +:+ ")" +:+ r).
    destruct (value_loop_value (S n) v ("," +:+ tl) Hg) as [-> ->].
    { rewrite string_app_cons. apply ends_char. set_solver. }
    destruct (IH (S n)) as [_ E]; [done|done|cbn [length] in *; lia|]. fold tl in E. by rewrite E.
Qed.

(** *** Assignments and conditions *)

Definition assignment (cv : string * sqlval) : string := qs cv.1 +:+ " = " +:+ print_val cv.2.

Definition condition (cv : string * sqlval) : string :=
  match cv.2 with
  | SNull => qs cv.1 +:+ " IS NULL"
  | v => qs cv.1 +:+ " = " +:+ print_val v
  end.

Definition good_pair (cv : string * sqlval) : bool := good_name cv.1 && good_val cv.2.

(** The map of the texts, a later column overriding an earlier one. *)
Definition put_all (cvs : list (string * sqlval)) (m : gmap string string) : gmap string string :=
  foldl (λ m cv, <[cv.1 := print_val cv.2]> m) m cvs.

Lemma put_value_print c v m : good_val v = true → put_value c (print_val v) m = <[c := print_val v]> m.
Proof. intros H. unfold put_value. by rewrite bool_decide_eq_false_2 by by apply print_val_supported. Qed.

(** One round of the loop over assignments. *)
Lemma set_loop_assignment n cv r m :
  good_pair cv = true → ends r →
  set_loop (S n) (assignment cv +:+ r) m = set_loop n (skip_char "," (skipSpaces r)) (<[cv.1 := print_val cv.2]> m) ∧
  set_loop (S n) (" " +:+ assignment cv +:+ r) m = set_loop n (skip_char "," (skipSpaces r)) (<[cv.1 := print_val cv.2]> m).
Proof.
  intros [Hn Hv]%andb_true_iff He. destruct cv as [c v]. cbn [fst snd] in *. unfold assignment. cbn [fst snd].
  rewrite !string_app_assoc. set (tl := " = " +:+ print_val v +:+ r).
  pose proof (readQuotedName_qs c tl Hn) as E. assert (Hne : c ≠ "") by (unfold good_name in Hn; by propify).
  assert (Etl : skipSpaces (skip_char "=" (skipSpaces tl)) = print_val v +:+ r).
  { unfold tl. etrans; [|by apply skipSpaces_print]. reflexivity. }
  rewrite qs_app in *. cbn [set_loop]. split; rewrite bool_decide_eq_false_2 by done;
    [rewrite skipSpaces_cons by done
    |assert (skipSpaces (" " +:+ String dquote (c +:+ String dquote tl)) = String dquote (c +:+ String dquote tl)) as -> by done];
    rewrite E; chars;
    rewrite Etl, readValue_print by done; rewrite put_value_print by done; reflexivity.
Qed.

Lemma set_loop_print n sets rest m :
  sets ≠ [] → Forall (λ cv, good_pair cv = true) sets → (length sets < n)%nat →
  (∃ r, rest = String ";" r) ∨ (∃ r, rest = " where " +:+ r) →
  set_loop n (join ", " (assignment <$> sets) +:+ rest) m = Some (Ok (put_all sets m, skipSpaces rest)) ∧
  set_loop n (" " +:+ join ", " (assignment <$> sets) +:+ rest) m = Some (Ok (put_all sets m, skipSpaces rest)).
Proof.
  intros Hne Hs Hn Hrest. assert (He : ends rest).
  { destruct Hrest as [[r ->]|[r ->]]; [apply ends_char; set_solver|apply ends_where]. }
  revert n m Hn. induction sets as [|cv sets IH]; intros n m Hn; [done|]. inversion Hs as [|? ? Hg Hgs]; subst.
  destruct n as [|[|n]]; cbn [length] in Hn; [lia..|]. destruct sets as [|cv' sets].
  - cbn [fmap list_fmap join put_all foldl].
    destruct (set_loop_assignment (S n) cv rest m Hg He) as [-> ->].
    destruct Hrest as [[r ->]|[r ->]]; split; reflexivity.
  - change (assignment <$> cv :: cv' :: sets) with (assignment cv :: assignment cv' :: (assignment <$> sets)).
    rewrite join_cons2, !string_app_assoc. change (assignment cv' :: (assignment <$> sets)) with (assignment <$> cv' :: sets).
    set (tl := join ", " (assignment <$> cv' :: sets) +:+ rest).
    destruct (set_loop_assignment (S n) cv (", " +:+ tl) m Hg) as [-> ->].
    { rewrite string_app_cons. apply ends_char. set_solver. }
    change (skip_char "," (skipSpaces (", " +:+ tl))) with (" " +:+ tl).
    destruct (IH ltac:(done) Hgs (S n) (<[cv.1 := print_val cv.2]> m)) as [_ E]; [cbn [length] in *; lia|].
    fold tl in E. rewrite E. done.
Qed.

Lemma condition_assignment c v : v ≠ SNull → condition (c, v) = assignment (c, v).
Proof. by destruct v. Qed.

(** One round of the loop over conditions. *)
Lemma where_loop_condition n cv r m :
  good_pair cv = true → ends r →
  where_loop (S n) (condition cv +:+ r) m = where_loop n (skip_connective (skipSpaces r)) (<[cv.1 := print_val cv.2]> m).
Proof.
  intros [Hn Hv]%andb_true_iff He. destruct cv as [c v]. cbn [fst snd] in *.
  assert (Hne : c ≠ "") by (unfold good_name in Hn; by propify).
  destruct (decide (v = SNull)) as [->|Hnull].
  - unfold condition. cbn [fst snd]. rewrite string_app_assoc. pose proof (readQuotedName_qs c (" IS NULL" +:+ r) Hn) as E.
    rewrite qs_app in *. cbn [where_loop]. rewrite bool_decide_eq_false_2 by done. rewrite skipSpaces_cons by done.
    chars. rewrite E. rewrite (bool_decide_eq_false_2 (c = "")) by done. reflexivity.
  - rewrite condition_assignment by done. unfold assignment. cbn [fst snd].
    rewrite !string_app_assoc. set (tl := " = " +:+ print_val v +:+ r).
    pose proof (readQuotedName_qs c tl Hn) as E.
    assert (Etl : skipSpaces (skip_char "=" (skipSpaces tl)) = print_val v +:+ r).
    { unfold tl. etrans; [|by apply skipSpaces_print]. reflexivity. }
    assert (Hi : hasPrefix "IS NULL" (skipSpaces tl) = false) by reflexivity.
    rewrite qs_app in *. cbn [where_loop]. rewrite bool_decide_eq_false_2 by done. rewrite skipSpaces_cons by done.
    chars. rewrite E, (bool_decide_eq_false_2 (c = "")) by done. rewrite Hi, Etl, readValue_print by done.
    by rewrite put_value_print.
Qed.

Lemma where_loop_print n conds r m :
  conds ≠ [] → Forall (λ cv, good_pair cv = true) conds → (length conds < n)%nat →
  where_loop n (join " and " (condition <$> conds) +:+ String ";" r) m = Some (Ok (put_all conds m, String ";" r)).
Proof.
  revert n m. induction conds as [|cv conds IH]; intros n m Hne Hc Hn; [done|]. inversion Hc as [|? ? Hg Hgs]; subst.
  destruct n as [|[|n]]; cbn [length] in Hn; [lia..|]. destruct conds as [|cv' conds].
  - cbn [fmap list_fmap join put_all foldl]. rewrite where_loop_condition; [reflexivity|done|apply ends_char; set_solver].
  - change (condition <$> cv :: cv' :: conds) with (condition cv :: condition cv' :: (condition <$> conds)).
    rewrite join_cons2, !string_app_assoc. change (condition cv' :: (condition <$> conds)) with (condition <$> cv' :: conds).
    set (tl := join " and " (condition <$> cv' :: conds) +:+ String ";" r).
    rewrite where_loop_condition by (done || apply ends_and).
    change (skip_connective (skipSpaces (" and " +:+ tl))) with tl.
    unfold tl. rewrite IH; [done|done|done|cbn [length] in *; lia].
Qed.

(** *** Statements *)

Inductive statement :=
  | StInsert (values : list (string * sqlval))
  | StUpdate (sets conds : list (string * sqlval))
  | StDelete (conds : list (string * sqlval)).

Definition table_text (owner table : string) : string := qs owner +:+ "." +:+ qs table.

Definition where_text (conds : list (string * sqlval)) : string := " where " +:+ join " and " (condition <$> conds) +:+ ";".

Definition print_statement (owner table : string) (st : statement) : string :=
  match st with
  | StInsert cvs =>
      "insert into " +:+ table_text owner table +:+ "(" +:+ join "," (qs <$> cvs.*1) +:+ ")" +:+
      " values (" +:+ join "," (print_val <$> cvs.*2) +:+ ")" +:+ ";"
  | StUpdate sets conds =>
      "update " +:+ table_text owner table +:+ " set " +:+ join ", " (assignment <$> sets) +:+
      match conds with [] => ";" | _ => where_text conds end
  | StDelete conds => "delete from " +:+ table_text owner table +:+ where_text conds
  end.

Definition entry_of (st : statement) : DmlEntry :=
  match st with
  | StInsert cvs => mkDmlEntry DmlInsert (put_all cvs ∅) ∅
  | StUpdate sets conds => mkDmlEntry DmlUpdate (put_all sets ∅) (put_all conds ∅)
  | StDelete conds => mkDmlEntry DmlDelete ∅ (put_all conds ∅)
  end.

Definition good_statement (st : statement) : Prop :=
  match st with
  | StInsert cvs => cvs ≠ [] ∧ Forall (λ cv, good_pair cv = true) cvs
  | StUpdate sets conds => sets ≠ [] ∧ Forall (λ cv, good_pair cv = true) (sets ++ conds)
  | StDelete conds => conds ≠ [] ∧ Forall (λ cv, good_pair cv = true) conds
  end.

Definition statement_size (st : statement) : nat :=
  match st with
  | StInsert cvs => length cvs
  | StUpdate sets conds => length sets + length conds
  | StDelete conds => length conds
  end.

Lemma expect_exact p s : expect p (p +:+ s) = Ok s.
Proof. unfold expect. by rewrite hasPrefix_exact, drop_prefix_app. Qed.

Lemma skipTableName_table owner table s :
  has_char dquote owner = false → has_char dquote table = false →
  skipTableName false (table_text owner table +:+ s) = skipTableName false s.
Proof.
  intros Ho Ht. unfold table_text. rewrite !string_app_assoc, skipTableName_qs by done.
  etrans; [|by apply (skipTableName_qs table)]. reflexivity.
Qed.

Lemma put_all_zip cvs m :
  Forall (λ cv, good_pair cv = true) cvs →
  foldl (λ m cv, put_value cv.1 cv.2 m) m (zip cvs.*1 (print_val <$> cvs.*2)) = put_all cvs m.
Proof.
  intros H. revert m. induction H as [|[c v] cvs [Hn Hv]%andb_true_iff _ IH]; intros m; [done|].
  cbn [fmap list_fmap zip zip_with foldl put_all fst snd]. rewrite put_value_print by done. apply IH.
Qed.

Lemma good_pairs_names cvs : Forall (λ cv, good_pair cv = true) cvs → Forall (λ c, good_name c = true) cvs.*1.
Proof. intros H. apply Forall_fmap. eapply Forall_impl; [exact H|]. by intros [] [? ?]%andb_true_iff. Qed.

Lemma good_pairs_vals cvs : Forall (λ cv, good_pair cv = true) cvs → Forall (λ v, good_val v = true) cvs.*2.
Proof. intros H. apply Forall_fmap. eapply Forall_impl; [exact H|]. by intros [] [? ?]%andb_true_iff. Qed.

Lemma parseInsert_print n owner table cvs :
  has_char dquote owner = false → has_char dquote table = false → good_statement (StInsert cvs) →
  (2 * length cvs < n)%nat →
  parseInsert n (print_statement owner table (StInsert cvs)) = Some (Ok (entry_of (StInsert cvs))).
Proof.
  intros Ho Ht [Hne Hg] Hn. cbn [print_statement]. unfold parseInsert. rewrite expect_exact.
  rewrite skipTableName_table by done. set (vals := print_val <$> cvs.*2).
  set (tl := " values (" +:+ join "," vals +:+ ")" +:+ ";").
  change (skipTableName false ("(" +:+ ?x)) with ("(" +:+ x). unfold parseColumnList.
  change (open_paren ("(" +:+ ?x)) with (Ok x). cbv beta iota.
  rewrite column_loop_print; [|by destruct cvs|by apply good_pairs_names|rewrite length_fmap; lia].
  cbn [mbind option_bind]. change (skipSpaces tl) with ("values " +:+ ("(" +:+ join "," vals +:+ ")" +:+ ";")).
  rewrite expect_exact. unfold parseValueList. change (open_paren ("(" +:+ ?x)) with (Ok x). cbv beta iota.
  destruct (value_loop_print n cvs.*2 ";") as [E _]; [by destruct cvs|by apply good_pairs_vals|rewrite length_fmap; lia|].
  fold vals in E. rewrite E. cbn [mbind option_bind result_bind].
  rewrite bool_decide_eq_true_2 by (unfold vals; by rewrite !length_fmap).
  unfold mbind, result_bind, vals. by rewrite put_all_zip.
Qed.

Lemma parseWhereClause_print n conds :
  conds ≠ [] → Forall (λ cv, good_pair cv = true) conds → (length conds < n)%nat →
  parseWhereClause n (skipSpaces (where_text conds)) = Some (Ok (put_all conds ∅, ";")).
Proof.
  intros Hne Hg Hn. unfold where_text.
  change (skipSpaces (" where " +:+ ?x)) with ("where " +:+ x). unfold parseWhereClause. rewrite expect_exact.
  by apply where_loop_print.
Qed.

Lemma parseUpdate_print n owner table sets conds :
  has_char dquote owner = false → has_char dquote table = false → good_statement (StUpdate sets conds) →
  (length sets + length conds < n)%nat →
  parseUpdate n (print_statement owner table (StUpdate sets conds)) = Some (Ok (entry_of (StUpdate sets conds))).
Proof.
  intros Ho Ht [Hne [Hs Hc]%Forall_app] Hn. cbn [print_statement]. unfold parseUpdate, parseSetClause.
  rewrite expect_exact, skipTableName_table by done.
  change (skipTableName false (" set " +:+ ?x)) with (" set " +:+ x).
  change (skipSpaces (" set " +:+ ?x)) with ("set " +:+ x). rewrite expect_exact.
  set (rest := match conds with [] => ";" | _ => where_text conds end).
  destruct (set_loop_print n sets rest ∅ Hne Hs ltac:(lia)) as [-> _].
  { unfold rest. destruct conds; [left; by exists ""|right; by eexists]. }
  cbn [mbind option_bind]. unfold rest. destruct conds as [|cv conds]; [reflexivity|].
  assert (E : hasPrefix "where " (skipSpaces (skipSpaces (where_text (cv :: conds)))) = true) by reflexivity.
  rewrite E. assert (E2 : skipSpaces (skipSpaces (where_text (cv :: conds))) = skipSpaces (where_text (cv :: conds))) by reflexivity.
  rewrite E2, parseWhereClause_print by (done || lia). done.
Qed.

Lemma parseDelete_print n owner table conds :
  has_char dquote owner = false → has_char dquote table = false → good_statement (StDelete conds) →
  (length conds < n)%nat →
  parseDelete n (print_statement owner table (StDelete conds)) = Some (Ok (entry_of (StDelete conds))).
Proof.
  intros Ho Ht [Hne Hg] Hn. cbn [print_statement]. unfold parseDelete.
  rewrite expect_exact, skipTableName_table by done.
  assert (E : skipSpaces (skipTableName false (where_text conds)) = skipSpaces (where_text conds)) by reflexivity.
  rewrite E, parseWhereClause_print by done. done.
Qed.

Lemma Parse_statement n owner table st :
  has_char dquote owner = false → has_char dquote table = false → good_statement st →
  (2 * statement_size st < n)%nat →
  Parse n (print_statement owner table st) = Some (Ok (entry_of st)).
Proof.
  intros Ho Ht Hg Hn. destruct st as [cvs|sets conds|conds]; cbn [statement_size] in Hn.
  - by apply parseInsert_print.
  - rewrite <- (parseUpdate_print n owner table sets conds) by (done || lia). reflexivity.
  - rewrite <- (parseDelete_print n owner table conds) by (done || lia). reflexivity.
Qed.

(** C17. The redo statements are read back: parsing an insert, update or delete written
    the way LogMiner writes them (quoted names; strings with doubled quotes, numbers,
    nulls and calls as values) gives the columns and the texts of their values, in the
    new values of an insert, the new and old ones of an update and the old ones of a
    delete. *)
Theorem parse_print n owner table st :
  has_char dquote owner = false → has_char dquote table = false → good_statement st →
  (2 * statement_size st < n)%nat →
  Parse n (print_statement owner table st) = Some (Ok (entry_of st)).
Proof. apply Parse_statement. Qed.

(** ** Concrete runs *)

Module DmlRuns.

Definition emp_update : statement :=
  StUpdate [("NAME", SQuoted "O'Neil"); ("HIRED", SCall "TO_DATE" ["2024-01-02"; "YYYY-MM-DD"])]
           [("ID", SPlain "7"); ("BOSS", SNull)].

Lemma parse_print_witness :
  Parse 20 (print_statement "HR" "EMP" emp_update) =
  Some (Ok (mkDmlEntry DmlUpdate
    {["NAME" := "'O''Neil'"; "HIRED" := "TO_DATE('2024-01-02', 'YYYY-MM-DD')"]} {["ID" := "7"; "BOSS" := "NULL"]})).
Proof.
  rewrite (parse_print 20 "HR" "EMP" emp_update); [vm_compute; reflexivity|reflexivity|reflexivity| |cbn; lia].
  split; [done|]. repeat constructor.
Defined.

Lemma parse_terminates_witness : ∃ r, Parse 30 "update T set where" = Some r.
Proof.
  apply (parse_terminates 30 "update T set where"); [cbn; lia|].
  intros c s [= <- <-]. vm_compute. discriminate.
Defined.

(** A statement that ends in blanks is read beyond its end. *)
Example trailing_blank_panics : Parse 40 "delete from T where  " = Some index_panic.
Proof. vm_compute. reflexivity. Qed.
End DmlRuns.
