(* ===== verification/LogMiner.v ===== *)
(** Reading Oracle's redo log (internal/source/oracle/logminer.go, and the polling of
    connector.go): rows of V$LOGMNR_CONTENTS become change events, and the system change
    number the reader goes on from.

    The database is a parameter: its current number, whether a mining session starts,
    and the rows a query returns.  [strconv.ParseFloat], the format of timestamps and
    what the connector does with DDL are parameters too. *)
From Stdlib Require Import ZArith Lia SpecFloat Ascii.
From Stdlib Require String.
From stdpp Require Import prelude countable gmap strings list fin_maps pretty.
From S2P Require Import Prelude Events Strings OracleDML.
Local Open Scope Z_scope.

(** ** Values *)

(** [strings.ReplaceAll(s, "''", "'")] *)
Fixpoint unescape (s : string) : string :=
  match s with
  | EmptyString => EmptyString
  | String c s' =>
      if bool_decide (c = squote) then
        match s' with
        | String c' s'' => if bool_decide (c' = squote) then String c (unescape s'') else String c (unescape s')
        | EmptyString => String c EmptyString
        end
      else String c (unescape s')
  end.

(** [strconv.ParseInt(s, 10, 64)]: a sign and digits, and nothing else. *)
Definition strconv_ParseInt (s : string) : option Z :=
  let '(neg, body) := split_sign s in
  match scan_digits body 0 0 with
  | (v, k) =>
      let z := if neg : bool then - v else v in
      if bool_decide (k = 0%nat) || negb (bool_decide (k = String.length body)) then None
      else if (min_int64 <=? z) && (z <=? max_int64) then Some z else None
  end.

(** The last byte of a text. *)
Definition last_byte (s : string) : option ascii :=
  match string_rev s with String c _ => Some c | EmptyString => None end.

(** A row of V$LOGMNR_CONTENTS; a null statement scans as the empty text. *)
Record redo_row := mkRedoRow {
  rr_scn : Z;                      (* uint64 *)
  rr_sqlRedo : string;
  rr_opCode : Z;
  rr_tableName : string;
  rr_segOwner : string;
  rr_ts : time
}.

Section LogMiner.
Context (ParseFloat : string → option spec_float) (format_ts : time → string).

Definition parseValue (raw : string) : value :=
  let raw := strings_TrimSpace raw in
  if strings_EqualFold raw "NULL" then VNil
  else if (2 <=? slen raw) && has_prefix "'" raw && bool_decide (last_byte raw = Some squote)
  then VString (unescape (String.substring 1 (String.length raw - 2) raw))
  else match strconv_ParseInt raw with
       | Some i => VInt64 i
       | None => match ParseFloat raw with Some f => VFloat64 f | None => VString raw end
       end.

(** ** Events *)

(** The columns are distinct keys, so that their order does not matter. *)
Definition entryToRowData (vals : gmap string string) : RowData :=
  mkRowData (Some (map_imap (λ col raw, let v := parseValue raw in Some (mkField col v "" (bool_decide (v = VNil)))) vals)).

(** The conditions' columns that are not set keep their values. *)
Definition mergeUpdateValues (entry : DmlEntry) : DmlEntry :=
  mkDmlEntry (de_Type entry) (de_NewValues entry ∪ de_OldValues entry) (de_OldValues entry).

Definition GenerateEventID (source : SourceInfo) (timestamp : time) (seqNo : Z) : string :=
  si_Connector source +:+ ":" +:+ si_Database source +:+ ":" +:+ format_ts timestamp +:+ ":" +:+ pretty seqNo.

Definition oracle_source (serviceName : string) : SourceInfo := mkSourceInfo "oracle" "" 0 serviceName "" "" false.

Definition row_position (r : redo_row) : Position :=
  mkPosition "" 0 0 (rr_scn r) 0 0 None "" "" (rr_ts r) "" 0 0.

(** The event of a row, but for its identifier, type, rows and metadata. *)
Definition mk_event (src : SourceInfo) (seqNo : Z) (r : redo_row) (typ : EventType) (before after : RowData)
    (meta : option (gmap string string)) : ChangeEvent :=
  mkChangeEvent (GenerateEventID src (rr_ts r) seqNo) src typ (row_position r)
    (mkTableInfo (rr_segOwner r) (rr_segOwner r) (rr_tableName r) [] [] []) before after (rr_ts r) None None meta.

(** The body of the loop over the rows: [None] when the parser does not answer within
    [n] rounds, no event for a statement that does not parse, and a panic is one. *)
Definition row_event (n : nat) (src : SourceInfo) (seqNo : Z) (r : redo_row) : option (result (option ChangeEvent)) :=
  let parsed (k : DmlEntry → ChangeEvent) : option (result (option ChangeEvent)) :=
    res ← Parse n (rr_sqlRedo r);
    Some (match res with
          | Ok entry => Ok (Some (k entry))
          | Err (Panic msg) => Err (Panic msg)
          | Err _ => Ok None
          end) in
  if rr_opCode r =? 1 then
    parsed (λ entry, mk_event src seqNo r EventTypeInsert RowData_zero (entryToRowData (de_NewValues entry)) None)
  else if rr_opCode r =? 2 then
    parsed (λ entry, mk_event src seqNo r EventTypeDelete (entryToRowData (de_OldValues entry)) RowData_zero None)
  else if rr_opCode r =? 3 then
    parsed (λ entry,
      let entry := mergeUpdateValues entry in
      mk_event src seqNo r EventTypeUpdate (entryToRowData (de_OldValues entry)) (entryToRowData (de_NewValues entry)) None)
  else if rr_opCode r =? 5 then
    Some (Ok (Some (mk_event src seqNo r EventTypeDDL RowData_zero RowData_zero (Some {["sql" := rr_sqlRedo r]}))))
  else Some (Ok None).

(** [rows.Scan] may fail on each row, and the iteration at its end. *)
Fixpoint parse_rows (n : nat) (src : SourceInfo) (seqNo : Z) (rows : list (result redo_row)) (iterErr : option goerror) :
  option (result (list ChangeEvent)) :=
  match rows with
  | [] => Some (match iterErr with
                | Some e => Err (ErrWrapf "LogMiner row iteration error" e)
                | None => Ok []
                end)
  | Err e :: _ => Some (Err (ErrWrapf "failed to scan LogMiner row" e))
  | Ok r :: rows =>
      rev ← row_event n src (i64 (seqNo + 1)) r;
      match rev with
      | Err e => Some (Err e)
      | Ok oe =>
          revs ← parse_rows n src (i64 (seqNo + 1)) rows iterErr;
          Some (evs ← revs; Ok (match oe with Some e => e :: evs | None => evs end))
      end
  end.

Definition parseRows (n : nat) (serviceName : string) (rows : list (result redo_row)) (iterErr : option goerror) :
  option (result (list ChangeEvent)) :=
  parse_rows n (oracle_source serviceName) 0 rows iterErr.

(** ** Reading changes *)

(** The database of a call: its current number, whether the session starts, and the rows
    of the query for changes behind a number. *)
Record LogMinerDB := mkLogMinerDB {
  db_currentSCN : result Z;
  db_startMining : Z → result unit;
  db_query : Z → result (list (result redo_row) * option goerror)
}.

(** [GetSCN] and [SetSCN] read and write [scn], the reader's only state. *)
Definition queryChanges (n : nat) (serviceName : string) (db : LogMinerDB) (startSCN : Z) : option (result (list ChangeEvent)) :=
  match db_query db startSCN with
  | Err e => Some (Err (ErrWrapf "failed to query LogMiner contents" e))
  | Ok (rows, iterErr) => parseRows n serviceName rows iterErr
  end.

Definition ReadChanges (n : nat) (serviceName : string) (db : LogMinerDB) (scn : Z) : option (result (list ChangeEvent * Z)) :=
  match db_currentSCN db with
  | Err e => Some (Err (ErrWrapf "failed to get current SCN" e))
  | Ok currentSCN =>
      let startSCN := if (scn =? 0) && (0 <? currentSCN) then currentSCN - 1 else scn in
      if currentSCN <=? startSCN then Some (Ok ([], currentSCN))
      else
        match db_startMining db startSCN with
        | Err e => Some (Err (ErrWrapf "failed to start LogMiner" e))
        | Ok _ =>
            changes ← queryChanges n serviceName db startSCN;
            Some (evs ← changes; Ok (evs, currentSCN))
        end
  end.

(** ** connector.go: polling *)

(** What polling changes: the reader's number, the connector's position and the events
    sent.  [D] is the rest of the connector and its stores. *)
Record poller (D : Type) := mkPoller {
  po_scn : Z;
  po_position : option Position;
  po_sent : list ChangeEvent;
  po_rest : D
}.

(** What the loop calls on the rest: the handling of a DDL event, saving the position of
    an event to the store, and saving a position to the offset storage. *)
Context {D : Type} (handleDDLEvent : ChangeEvent → D → D) (SaveCurrentPosition Save : Position → D → D).

(** One event of the loop, up to the point where it is sent. *)
Definition arrive (p : poller D) (e : ChangeEvent) : poller D :=
  let d := if bool_decide (ev_Type e = EventTypeDDL) then handleDDLEvent e (po_rest _ p) else po_rest _ p in
  mkPoller D (po_scn _ p) (po_position _ p) (po_sent _ p) (SaveCurrentPosition (ev_Position e) d).

Definition send_event (p : poller D) (e : ChangeEvent) : poller D :=
  let p := arrive p e in
  mkPoller D (po_scn _ p) (po_position _ p) (po_sent _ p ++ [e]) (po_rest _ p).

(** [pollChanges]; [stop] is how many events are sent when the connector is found stopped
    at the next one, if it is. *)
Definition pollChanges (n : nat) (serviceName : string) (now : time) (stop : option nat) (db : LogMinerDB)
    (p : poller D) : option (poller D) :=
  match ReadChanges n serviceName db (po_scn _ p) with
  | None => None
  | Some (Err _) => Some p
  | Some (Ok (changes, lastSCN)) =>
      match stop ≫= (λ k, changes !! k ≫= λ e, Some (k, e)) with
      | Some (k, e) => Some (arrive (foldl send_event p (take k changes)) e)
      | None =>
          let p := foldl send_event p changes in
          if 0 <? lastSCN then
            let pos := mkPosition "" 0 0 lastSCN 0 0 None "" "" now "" 0 0 in
            Some (mkPoller D lastSCN (Some pos) (po_sent _ p) (Save pos (po_rest _ p)))
          else Some p
      end
  end.

(** ** The values of events *)

Lemma unescape_escape b : unescape (escape b) = b.
Proof.
  induction b as [|c b IH]; [done|]. cbn [escape]. case_bool_decide as Hc.
  - subst c. cbn [unescape]. rewrite !bool_decide_eq_true_2 by done. by rewrite IH.
  - cbn [unescape]. rewrite bool_decide_eq_false_2 by done. by rewrite IH.
Qed.

Lemma parseValue_quoted b : parseValue (quoted b) = VString b.
Proof.
  assert (Hn : neat (quoted b) = true).
  { unfold quoted. exact (neat_app "'" "'" eq_refl eq_refl (escape b)). }
  unfold parseValue. rewrite TrimSpace_neat by done.
  assert (strings_EqualFold (quoted b) "NULL" = false) as ->.
  { unfold strings_EqualFold. by apply bool_decide_eq_false_2. }
  assert (2 <=? slen (quoted b) = true) as ->.
  { unfold slen, quoted. cbn [String.length]. rewrite string_length_app. cbn [String.length]. apply Z.leb_le. lia. }
  assert (last_byte (quoted b) = Some squote) as ->.
  { unfold last_byte, quoted. rewrite string_rev_cons, string_rev_app. done. }
  rewrite bool_decide_eq_true_2 by done. change (has_prefix "'" (quoted b)) with true. cbn [andb]. f_equal.
  unfold quoted. cbn [String.length]. rewrite string_length_app. cbn [String.length].
  replace (S (String.length (escape b) + 1) - 2)%nat with (String.length (escape b)) by lia.
  rewrite substring_middle by done. apply unescape_escape.
Qed.

Lemma parseValue_int z : min_int64 <= z <= max_int64 → parseValue (pretty z) = VInt64 z.
Proof.
  intros Hz. unfold parseValue. rewrite TrimSpace_neat by apply neat_pretty_Z.
  assert (Hi : strconv_ParseInt (pretty z) = Some z).
  { destruct (scan_pretty_Z z) as (neg & body & k & v & Hs & Hd & Hl & E). unfold strconv_ParseInt. rewrite Hs, Hd.
    cbn zeta. rewrite <- E, bool_decide_eq_false_2, (bool_decide_eq_true_2 (S k = _)) by done. cbn [orb negb].
    by rewrite (proj2 (Z.leb_le _ _)), (proj2 (Z.leb_le _ _)) by lia. }
  rewrite Hi. destruct (pretty_Z_head z) as (c & s & -> & Hc).
  assert (Hq : c ≠ "'"%char ∧ lower_char c ≠ "n"%char).
  { destruct Hc as [Hc| ->]; [|done]. split; [intros ->; done|]. destruct c as [[] [] [] [] [] [] [] []]; done. }
  destruct Hq as [Hq Hn].
  assert (strings_EqualFold (String c s) "NULL" = false) as ->.
  { unfold strings_EqualFold. apply bool_decide_eq_false_2. cbn [strings_ToLower]. intros [= E]. done. }
  assert (has_prefix "'" (String c s) = false) as ->; [|by rewrite andb_false_r].
  cbn. rewrite bool_decide_eq_false_2; [done|congruence].
Qed.

(** The values a column can hold that arrive as they are: strings, integers, nulls. *)
Inductive cell := CString (s : string) | CInt (z : Z) | CNull.

Definition cell_sql (c : cell) : sqlval :=
  match c with CString s => SQuoted s | CInt z => SPlain (pretty z) | CNull => SNull end.

Definition cell_value (c : cell) : value :=
  match c with CString s => VString s | CInt z => VInt64 z | CNull => VNil end.

Definition cell_ok (c : cell) : Prop := match c with CInt z => min_int64 <= z <= max_int64 | _ => True end.

Lemma parseValue_cell c : cell_ok c → parseValue (print_val (cell_sql c)) = cell_value c.
Proof. destruct c; cbn [cell_sql print_val cell_value]; intros H; [apply parseValue_quoted|by apply parseValue_int|done]. Qed.

Lemma plain_chars_digits s :
  (∀ c, has_char c s = true → is_digit c = true ∨ c = "-"%char) → plain_chars s = true.
Proof.
  induction s as [|c s IH]; intros H; [done|]. cbn. apply andb_true_iff. split.
  - destruct (H c) as [Hc| ->]; [cbn; by rewrite bool_decide_eq_true_2| |done].
    unfold plain_char. destruct c as [[] [] [] [] [] [] [] []]; done.
  - apply IH. intros a Ha. apply H. cbn. by rewrite Ha, orb_true_r.
Qed.

Lemma good_cell c : good_val (cell_sql c) = true.
Proof.
  destruct c as [s|z|]; [done| |done]. cbn [cell_sql good_val]. unfold plain_token.
  rewrite plain_chars_digits by (intros; by eapply pretty_Z_chars).
  destruct (pretty_Z_head z) as (c & s & -> & Hc).
  assert (Hn : lower_char c ≠ "n"%char ∧ lower_char c ≠ "u"%char).
  { destruct Hc as [Hc| ->]; [|done]. destruct c as [[] [] [] [] [] [] [] []]; done. }
  destruct Hn as [Hn Hu]. rewrite bool_decide_eq_false_2 by done. cbn [hasPrefix].
  change (lower_char "N") with "n"%char. change (lower_char "U") with "u"%char.
  by rewrite !bool_decide_eq_false_2 by congruence.
Qed.

(** A row of cells: distinct columns with names a statement can quote. *)
Definition good_cells (cells : list (string * cell)) : Prop :=
  NoDup cells.*1 ∧ Forall (λ nc, good_name nc.1 = true ∧ cell_ok nc.2) cells.

Definition cells_sql (cells : list (string * cell)) : list (string * sqlval) := prod_map id cell_sql <$> cells.

Lemma cells_good_pairs cells :
  Forall (λ nc, good_name nc.1 = true ∧ cell_ok nc.2) cells → Forall (λ cv, good_pair cv = true) (cells_sql cells).
Proof.
  intros H. apply Forall_fmap. eapply Forall_impl; [exact H|]. intros [n c] [Hn _]. unfold good_pair. cbn in *.
  by rewrite Hn, good_cell.
Qed.

(** The map of the texts is that of the list, for distinct columns. *)
Lemma put_all_list_to_map cvs m :
  NoDup cvs.*1 → put_all cvs m = list_to_map (prod_map id print_val <$> cvs) ∪ m.
Proof.
  revert m. induction cvs as [|[c v] cvs IH]; intros m Hnd; [cbn; by rewrite (left_id_L ∅ (∪))|].
  cbn [fmap list_fmap] in Hnd. apply NoDup_cons in Hnd as [Hc Hnd]. unfold put_all in *. cbn [foldl fst snd]. rewrite IH by done.
  cbn. rewrite <- insert_union_l, <- insert_union_r; [done|]. apply not_elem_of_list_to_map.
  rewrite <- list_fmap_compose. exact Hc.
Qed.

(** The columns of the row data are the cells, each with its value. *)
Definition row_of_cells (cells : list (string * cell)) : RowData :=
  mkRowData (Some (list_to_map ((λ nc, (nc.1, mkField nc.1 (cell_value nc.2) "" (bool_decide (cell_value nc.2 = VNil)))) <$> cells))).

Lemma entryToRowData_ok cells :
  Forall (λ nc, good_name nc.1 = true ∧ cell_ok nc.2) cells →
  entryToRowData (list_to_map (prod_map id print_val <$> cells_sql cells)) = row_of_cells cells.
Proof.
  intros Hok. unfold entryToRowData, row_of_cells, cells_sql. do 2 f_equal.
  induction Hok as [|[n c] cells [Hn Hc] _ IH]; [done|].
  cbn [fmap list_fmap list_to_map foldr prod_map fst snd id uncurry] in *.
  rewrite map_imap_insert, parseValue_cell by done. cbn in *. by rewrite IH.
Qed.

Lemma entryToRowData_cells cells :
  good_cells cells → entryToRowData (list_to_map (prod_map id print_val <$> cells_sql cells)) = row_of_cells cells.
Proof. intros [_ H]. by apply entryToRowData_ok. Qed.

(** A change of a row, as the database logs it. *)
Inductive redo_change :=
  | RInsert (row : list (string * cell))
  | RUpdate (sets conds : list (string * cell))
  | RDelete (conds : list (string * cell)).

Definition change_op (c : redo_change) : Z := match c with RInsert _ => 1 | RDelete _ => 2 | RUpdate _ _ => 3 end.

Definition change_statement (c : redo_change) : statement :=
  match c with
  | RInsert row => StInsert (cells_sql row)
  | RUpdate sets conds => StUpdate (cells_sql sets) (cells_sql conds)
  | RDelete conds => StDelete (cells_sql conds)
  end.

Definition good_change (c : redo_change) : Prop :=
  match c with
  | RInsert row => row ≠ [] ∧ good_cells row
  | RUpdate sets conds => sets ≠ [] ∧ good_cells sets ∧ good_cells conds
  | RDelete conds => conds ≠ [] ∧ good_cells conds
  end.

(** The event a change should become: an update has the set columns over those of its
    conditions, before it the latter. *)
Definition change_event (src : SourceInfo) (seqNo : Z) (r : redo_row) (c : redo_change) : ChangeEvent :=
  match c with
  | RInsert row => mk_event src seqNo r EventTypeInsert RowData_zero (row_of_cells row) None
  | RUpdate sets conds => mk_event src seqNo r EventTypeUpdate (row_of_cells conds) (row_of_cells (sets ++ conds)) None
  | RDelete conds => mk_event src seqNo r EventTypeDelete (row_of_cells conds) RowData_zero None
  end.

Lemma cells_sql_names cells : (cells_sql cells).*1 = cells.*1.
Proof. unfold cells_sql. rewrite <- list_fmap_compose. by apply list_fmap_ext. Qed.

Lemma put_all_cells cells :
  good_cells cells → put_all (cells_sql cells) ∅ = list_to_map (prod_map id print_val <$> cells_sql cells).
Proof.
  intros [Hnd _]. rewrite put_all_list_to_map by by rewrite cells_sql_names. apply (right_id_L ∅ (∪)).
Qed.

Lemma good_change_statement c : good_change c → good_statement (change_statement c).
Proof.
  assert (Hne : ∀ cells, cells ≠ [] → cells_sql cells ≠ []) by (intros [|? ?]; done).
  destruct c as [row|sets conds|conds]; cbn; intros H; destruct_and!; split; auto.
  - apply cells_good_pairs. by destruct H1.
  - apply Forall_app. split; apply cells_good_pairs; [by destruct H|by destruct H2].
  - apply cells_good_pairs. by destruct H1.
Qed.

Lemma merged_cells sets conds :
  good_cells sets → good_cells conds →
  entryToRowData (put_all (cells_sql sets) ∅ ∪ put_all (cells_sql conds) ∅) = row_of_cells (sets ++ conds).
Proof.
  intros Hs Hc. rewrite !put_all_cells by done. rewrite <- list_to_map_app, <- fmap_app.
  unfold cells_sql. rewrite <- fmap_app. fold (cells_sql (sets ++ conds)). apply entryToRowData_ok.
  apply Forall_app. split; [apply Hs|apply Hc].
Qed.

(** Changes survive the redo log: the row of V$LOGMNR_CONTENTS that carries the
    statement of an insert, update or delete of strings, integers and nulls becomes the
    event with exactly those columns and values: the new row of an insert, the old and
    the merged new row of an update, the old row of a delete. *)
Theorem redo_change_event n src seqNo r owner table c :
  has_char dquote owner = false → has_char dquote table = false → good_change c →
  rr_opCode r = change_op c → rr_sqlRedo r = print_statement owner table (change_statement c) →
  (2 * statement_size (change_statement c) < n)%nat →
  row_event n src seqNo r = Some (Ok (Some (change_event src seqNo r c))).
Proof.
  intros Ho Ht Hg Hop Hsql Hn. pose proof (Parse_statement n owner table (change_statement c) Ho Ht
    (good_change_statement c Hg) Hn) as HP.
  unfold row_event. cbn zeta. rewrite Hop, Hsql, HP. destruct c as [row|sets conds|conds]; cbn in Hg; destruct_and! Hg;
    cbn [change_op Z.eqb Pos.eqb mbind option_bind change_statement entry_of mergeUpdateValues
         de_NewValues de_OldValues de_Type change_event].
  - by rewrite put_all_cells, entryToRowData_cells.
  - rewrite merged_cells by done. by rewrite put_all_cells, entryToRowData_cells.
  - by rewrite put_all_cells, entryToRowData_cells.
Qed.

(** ** Polling *)

(** The answer of a database to the query of [queryChanges]: the rows behind a number,
    of the four operations, in order, and at most [batch] of them. *)
Definition changes_after (scn : Z) (log : list redo_row) : list redo_row :=
  filter (λ r, scn < rr_scn r ∧ rr_opCode r ∈ [1; 2; 3; 5]) log.

Definition db_of (log : list redo_row) (cur : Z) (batch : nat) : LogMinerDB :=
  mkLogMinerDB (Ok cur) (λ _, Ok tt) (λ start, Ok (Ok <$> take batch (changes_after start log), None)).

Lemma foldl_send p evs :
  po_sent _ (foldl send_event p evs) = po_sent _ p ++ evs ∧ po_scn _ (foldl send_event p evs) = po_scn _ p.
Proof.
  revert p. induction evs as [|e evs IH]; intros p; cbn [foldl]; [by rewrite app_nil_r|].
  destruct (IH (send_event p e)) as [-> ->]. unfold send_event, arrive. cbn. by rewrite <- app_assoc.
Qed.

(** A poll that is not stopped sends the events of the rows of one batch and goes on
    from the database's current number: when the batch holds all the changes nothing is
    missed, but the changes that did not fit into the batch lie behind that number, and
    no later query returns them. *)
Theorem poll_skips_beyond_batch n serviceName now log cur batch evs (p : poller D) :
  0 < po_scn _ p < cur →
  parseRows n serviceName (Ok <$> take batch (changes_after (po_scn _ p) log)) None = Some (Ok evs) →
  ∃ p', pollChanges n serviceName now None (db_of log cur batch) p = Some p' ∧
    po_sent _ p' = po_sent _ p ++ evs ∧ po_scn _ p' = cur ∧
    ((length (changes_after (po_scn _ p) log) <= batch)%nat →
       take batch (changes_after (po_scn _ p) log) = changes_after (po_scn _ p) log) ∧
    (∀ r, r ∈ drop batch (changes_after (po_scn _ p) log) → rr_scn r <= cur →
       ∀ log' batch', r ∉ take batch' (changes_after (po_scn _ p') log')).
Proof.
  intros Hscn Hp. unfold pollChanges, ReadChanges. cbn [db_of db_currentSCN db_startMining db_query].
  rewrite (proj2 (Z.eqb_neq _ _)) by lia. cbn [andb]. rewrite (proj2 (Z.leb_gt _ _)) by lia.
  unfold queryChanges. cbn [db_of db_query]. rewrite Hp. cbn [mbind option_bind result_bind].
  rewrite (proj2 (Z.ltb_lt 0 cur)) by lia. eexists. split; [reflexivity|]. cbn [po_sent po_scn].
  destruct (foldl_send p evs) as [-> _]. split_and!; [done|done|by apply take_ge|].
  intros r Hr Hcur log' batch' Hin. apply elem_of_take in Hin as (i & Hi & _). apply list_elem_of_lookup_2 in Hi.
  apply list_elem_of_filter in Hi as [[Hlt _] _]. lia.
Qed.
End LogMiner.

(** ** Concrete runs *)

Module LogMinerRuns.

Definition no_floats (s : string) : option spec_float := None.
Definition no_format (t : time) : string := "".

Definition emp_insert (id : Z) : redo_change := RInsert [("ID", CInt id); ("NAME", CString "O'Neil"); ("BOSS", CNull)].

Definition emp_row (scn id : Z) : redo_row :=
  mkRedoRow scn (print_statement "HR" "EMP" (change_statement (emp_insert id))) 1 "EMP" "HR" 0.

Lemma redo_change_event_witness :
  row_event no_floats no_format 20 (oracle_source "ORCL") 1 (emp_row 100 7) =
  Some (Ok (Some (change_event no_format (oracle_source "ORCL") 1 (emp_row 100 7) (emp_insert 7)))).
Proof.
  apply (redo_change_event no_floats no_format 20 (oracle_source "ORCL") 1 (emp_row 100 7) "HR" "EMP" (emp_insert 7));
    [reflexivity|reflexivity| |reflexivity|reflexivity|cbn; lia].
  split; [done|]. split; [apply (bool_decide_unpack _); vm_compute; exact I|].
  repeat constructor; vm_compute; congruence.
Defined.

(** Three changes and a batch of two: the third is behind the number the reader goes on
    from. *)
Definition log3 : list redo_row := [emp_row 11 1; emp_row 12 2; emp_row 13 3].

Definition log3_events : list ChangeEvent :=
  [change_event no_format (oracle_source "ORCL") 1 (emp_row 11 1) (emp_insert 1);
   change_event no_format (oracle_source "ORCL") 2 (emp_row 12 2) (emp_insert 2)].

Lemma poll_skips_beyond_batch_witness :
  ∃ p', pollChanges no_floats no_format (λ _ d, d) (λ _ d, d) (λ _ d, d) 20 "ORCL" 0 None (db_of log3 20 2)
          (mkPoller unit 10 None [] tt) = Some p' ∧
    po_sent _ p' = log3_events ∧ ∀ log' batch', emp_row 13 3 ∉ take batch' (changes_after (po_scn _ p') log').
Proof.
  destruct (poll_skips_beyond_batch no_floats no_format (λ _ d, d) (λ _ d, d) (λ _ d, d) 20 "ORCL" 0 log3 20 2 log3_events
              (mkPoller unit 10 None [] tt)) as (p' & Hp & Hs & _ & _ & Hl);
    [cbn; lia|vm_compute; reflexivity|].
  exists p'. split; [exact Hp|]. split; [exact Hs|]. apply Hl; [vm_compute; left|cbn; lia].
Defined.

(** A value that LogMiner splits into concatenated strings keeps the operator. *)
Example concatenation_kept :
  parseValue no_floats (readValue "'ab' || 'cd')").1 = VString "ab' || 'cd".
Proof. vm_compute. reflexivity. Qed.
End LogMinerRuns.
