(* ===== verification/Offsets.v ===== *)
(** Offset storage (internal/offset/storage.go): where connectors keep the position of a
    task, in memory, in a file or in etcd.

    The file system is a map from paths to contents, of which a write may leave a
    part and a rename happens whole; etcd is an interface with what its documentation
    promises.  The encoding of positions is [JSONCodec]'s. *)
From Stdlib Require Import ZArith Lia.
From Stdlib Require Ascii String Strings.Byte.
From stdpp Require Import prelude countable gmap strings list fin_maps.
From S2P Require Import Prelude Events Strings.
Local Open Scope Z_scope.

(** ** The interface

    A [*event.Position] that may be nil is an [option]; cloning nil panics. *)
Class Storage (S : Type) := {
  storage_Save : string → option Position → ST S unit;
  storage_Load : string → ST S (option Position);
  storage_Delete : string → ST S unit
}.

(** What the connectors rely on: the storage behaves like a map from tasks to positions
    for the calls that succeed. *)
Class StorageLaws (S : Type) `{!Storage S} := {
  storage_view : S → gmap string Position;
  storage_save_ok t p s s' : storage_Save t (Some p) s = (s', Ok tt) → storage_view s' = <[t := p]> (storage_view s);
  storage_load_ok t s s' p : storage_Load t s = (s', Ok p) → p = storage_view s !! t ∧ storage_view s' = storage_view s;
  storage_delete_ok t s s' : storage_Delete t s = (s', Ok tt) → storage_view s' = delete t (storage_view s)
}.

(** Storages whose saves and loads succeed, and go on succeeding. *)
Class StorageAnswers (S : Type) `{!Storage S} := {
  storage_answers : S → Prop;
  storage_answers_save t p s : storage_answers s → ∃ s', storage_Save t (Some p) s = (s', Ok tt) ∧ storage_answers s';
  storage_answers_load t s : storage_answers s → ∃ s' p, storage_Load t s = (s', Ok p) ∧ storage_answers s'
}.

Definition nil_clone {A} : result A := Err (Panic "nil pointer dereference").

Lemma Position_Clone_id p : Position_Clone p = p.
Proof. destruct p as [? ? ? ? ? ? [] ? ? ? ? ? ?]; done. Qed.

(** ** MemoryStorage *)

Definition MemoryStorage : Type := gmap string Position.
Definition NewMemoryStorage : MemoryStorage := ∅.

Definition Memory_Save (taskID : string) (pos : option Position) : ST MemoryStorage unit := λ m,
  match pos with
  | None => (m, nil_clone)
  | Some pos => (<[taskID := Position_Clone pos]> m, Ok tt)
  end.

Definition Memory_Load (taskID : string) : ST MemoryStorage (option Position) := λ m,
  (m, Ok (Position_Clone <$> m !! taskID)).

Definition Memory_Delete (taskID : string) : ST MemoryStorage unit := λ m, (delete taskID m, Ok tt).

#[export] Instance memory_storage : Storage MemoryStorage := {|
  storage_Save := Memory_Save; storage_Load := Memory_Load; storage_Delete := Memory_Delete |}.

Lemma clone_lookup (m : gmap string Position) t : Position_Clone <$> m !! t = m !! t.
Proof. destruct (m !! t); cbn; [by rewrite Position_Clone_id|done]. Qed.

#[export] Program Instance memory_storage_laws : StorageLaws MemoryStorage := {| storage_view m := m |}.
Next Obligation. intros t p s s'. cbn. intros [= <-]. by rewrite Position_Clone_id. Qed.
Next Obligation. intros t s s' p. cbn. intros [= <- <-]. by rewrite clone_lookup. Qed.
Next Obligation. intros t s s'. cbn. by intros [= <-]. Qed.

#[export] Program Instance memory_answers : StorageAnswers MemoryStorage := {| storage_answers _ := True |}.
Next Obligation. intros t p s _. by eexists. Qed.
Next Obligation. intros t s _. by do 2 eexists. Qed.

(** ** FileStorage *)

(** [offset] is nil when the file holds the JSON [null].  [fs_disk] is the part of the
    file system at hand. *)
Notation offsets := (option (gmap string Position)).

Record FileStorage := mkFileStorage {
  fs_path : string;
  fs_offset : offsets;
  fs_disk : gmap string (list Byte.byte);
  fs_stopped : bool
}.

Definition fs_lookup (s : FileStorage) (t : string) : option Position := fs_offset s ≫= lookup t.

Definition File_Save (taskID : string) (pos : option Position) : ST FileStorage unit := λ s,
  match pos with
  | None => (s, nil_clone)
  | Some pos =>
      match fs_offset s with
      | None => (s, Err (Panic "assignment to entry in nil map"))
      | Some m => (mkFileStorage (fs_path s) (Some (<[taskID := Position_Clone pos]> m)) (fs_disk s) (fs_stopped s), Ok tt)
      end
  end.

Definition File_Load (taskID : string) : ST FileStorage (option Position) := λ s,
  (s, Ok (Position_Clone <$> fs_lookup s taskID)).

Definition File_Delete (taskID : string) : ST FileStorage unit := λ s,
  (mkFileStorage (fs_path s) (delete taskID <$> fs_offset s) (fs_disk s) (fs_stopped s), Ok tt).

Section Files.
Context `{JC : !JSONCodec offsets}.

(** [load] over what [os.ReadFile] answers: an error that is not "does not exist", no
    file, or its contents. *)
Inductive read_result := ReadError (e : goerror) | ReadNotExist | ReadData (data : list Byte.byte).

Definition load_file (r : read_result) (old : offsets) : offsets * result unit :=
  match r with
  | ReadNotExist => (old, Ok tt)
  | ReadError e => (old, Err (ErrWrapf "failed to read offset file" e))
  | ReadData [] => (old, Ok tt)
  | ReadData data =>
      match json_Unmarshal data with
      | Ok m => (m, Ok tt)
      | Err e => (old, Err (ErrWrapf "failed to unmarshal offsets" e))
      end
  end.

Definition read_disk (disk : gmap string (list Byte.byte)) (path : string) : read_result :=
  match disk !! path with Some data => ReadData data | None => ReadNotExist end.

(** An unreadable file is reported and the storage starts empty. *)
Definition NewFileStorage (path : string) (mkdir : result unit) (disk : gmap string (list Byte.byte)) : result FileStorage :=
  if bool_decide (path = "") then Err (ErrNew "path is required")
  else match mkdir with
       | Err e => Err (ErrWrapf "failed to create directory" e)
       | Ok _ => Ok (mkFileStorage path (load_file (read_disk disk path) (Some ∅)).1 disk false)
       end.

(** How a flush ends: a failed write leaves the first [k] bytes in the temporary file,
    a failed rename leaves all of them.  A crash leaves the same. *)
Inductive flush_end := FlushDone | WriteFails (k : nat) (e : goerror) | RenameFails (e : goerror).

Definition with_disk (disk : gmap string (list Byte.byte)) (s : FileStorage) : FileStorage :=
  mkFileStorage (fs_path s) (fs_offset s) disk (fs_stopped s).

Definition flush (how : flush_end) : ST FileStorage unit := λ s,
  match json_Marshal (fs_offset s) with
  | Err e => (s, Err (ErrWrapf "failed to marshal offsets" e))
  | Ok data =>
      let tmpPath := fs_path s +:+ ".tmp" in
      match how with
      | WriteFails k e => (with_disk (<[tmpPath := take k data]> (fs_disk s)) s, Err (ErrWrapf "failed to write offset file" e))
      | RenameFails e => (with_disk (<[tmpPath := data]> (fs_disk s)) s, Err (ErrWrapf "failed to rename offset file" e))
      | FlushDone => (with_disk (<[fs_path s := data]> (delete tmpPath (fs_disk s))) s, Ok tt)
      end
  end.

(** [Close]: a second one closes a closed channel. *)
Definition File_Close (how : flush_end) : ST FileStorage unit := λ s,
  if fs_stopped s then (s, Err (Panic "close of closed channel"))
  else flush how (mkFileStorage (fs_path s) (fs_offset s) (fs_disk s) true).

(** ** A specification of durability *)

(** The calls on a storage, the ticks of its flusher, and a restart of the process, which
    opens the file again. *)
Inductive file_op := OpSave (t : string) (p : Position) | OpDelete (t : string) | OpFlush (how : flush_end) | OpRestart.

Definition file_run1 (s : FileStorage) (o : file_op) : FileStorage :=
  match o with
  | OpSave t p => (File_Save t (Some p) s).1
  | OpDelete t => (File_Delete t s).1
  | OpFlush how => (flush how s).1
  | OpRestart => match NewFileStorage (fs_path s) (Ok tt) (fs_disk s) with Ok s' => s' | Err _ => s end
  end.

(** The abstract storage: what is in memory, and what the last complete flush wrote. *)
Definition spec_run1 (s : gmap string Position * gmap string Position) (o : file_op) :=
  match o with
  | OpSave t p => (<[t := p]> s.1, s.2)
  | OpDelete t => (delete t s.1, s.2)
  | OpFlush FlushDone => (s.1, s.1)
  | OpFlush _ => s
  | OpRestart => (s.2, s.2)
  end.

Context `{JL : !JSONLaws offsets}.
(** What is known of the encoding: the maps of these tasks and positions survive it, and
    no JSON text is empty. *)
Context (ok : string → Position → Prop).
Hypothesis ok_wf : ∀ m, map_Forall ok m → json_wf (Some m).
Hypothesis json_nonempty : ∀ m data, json_Marshal m = Ok data → data ≠ [].

Definition op_ok (o : file_op) : Prop := match o with OpSave t p => ok t p | _ => True end.

(** The storage holds the memory of the specification, and its file what was flushed. *)
Definition file_refines (s : FileStorage) (a : gmap string Position * gmap string Position) : Prop :=
  fs_path s ≠ "" ∧ fs_offset s = Some a.1 ∧ map_Forall ok a.1 ∧ map_Forall ok a.2 ∧
  match fs_disk s !! fs_path s with
  | None => a.2 = ∅
  | Some data => data ≠ [] ∧ json_Unmarshal data = Ok (Some a.2)
  end.

Lemma tmp_ne (path : string) : path +:+ ".tmp" ≠ path.
Proof.
  intros E. assert (slen (path +:+ ".tmp") = slen path) as H by by rewrite E.
  unfold slen in H. rewrite string_length_app in H. cbn in H. lia.
Qed.

Lemma file_refines_step s a o : file_refines s a → op_ok o → file_refines (file_run1 s o) (spec_run1 a o).
Proof.
  destruct a as [mem dur]. intros (Hp & Hm & Hok & Hok2 & Hd) Ho. cbn [fst snd] in *.
  destruct o as [t p|t|how|]; cbn [file_run1 spec_run1 fst snd].
  - unfold File_Save. rewrite Hm, Position_Clone_id. unfold file_refines. cbn. split_and!; try done.
    by apply map_Forall_insert_2.
  - unfold File_Delete, file_refines. cbn. rewrite Hm. split_and!; try done. by apply map_Forall_delete.
  - unfold flush. rewrite Hm. destruct (json_roundtrip (Some mem) (ok_wf mem Hok)) as (data & Hj & Hu). rewrite Hj.
    destruct how as [|k e|e]; unfold file_refines, with_disk; cbn.
    + rewrite lookup_insert_eq. eauto 10.
    + rewrite lookup_insert_ne by apply tmp_ne. done.
    + rewrite lookup_insert_ne by apply tmp_ne. done.
  - unfold NewFileStorage. rewrite bool_decide_eq_false_2 by done. unfold file_refines, read_disk. cbn.
    destruct (fs_disk s !! fs_path s) as [data|] eqn:E; cbn.
    + destruct Hd as [Hne Hu]. destruct data; [done|]. cbn. by rewrite Hu.
    + by subst dur.
Qed.

Lemma file_refines_run ops s a :
  file_refines s a → Forall op_ok ops → file_refines (foldl file_run1 s ops) (foldl spec_run1 a ops).
Proof.
  intros H Hops. revert s a H. induction Hops as [|o ops Ho _ IH]; intros s a H; cbn; [done|].
  apply IH. by apply file_refines_step.
Qed.

(** C24. The file storage is a map with a durable copy: under any sequence of calls,
    flushes that complete or stop half way, and restarts, it answers like a storage
    that keeps a map in memory and, at a restart, falls back to the map of the last
    complete flush.  A flush that stops half way never damages the file. *)
Theorem file_storage_durable ops path disk s t :
  disk !! path = None → NewFileStorage path (Ok tt) disk = Ok s → Forall op_ok ops →
  (File_Load t (foldl file_run1 s ops)).2 = Ok ((foldl spec_run1 (∅, ∅) ops).1 !! t).
Proof.
  intros Hd Hnew Hops. unfold NewFileStorage in Hnew. case_bool_decide as Hp; [done|]. injection Hnew as <-.
  unfold read_disk. rewrite Hd. cbn [load_file fst].
  destruct (file_refines_run ops (mkFileStorage path (Some ∅) disk false) (∅, ∅)) as (_ & Hm & _); [|done|].
  - unfold file_refines. cbn. rewrite Hd. split_and!; try done; apply map_Forall_empty.
  - unfold File_Load, fs_lookup. rewrite Hm. cbn. by rewrite clone_lookup.
Qed.
End Files.

#[export] Instance file_storage : Storage FileStorage := {|
  storage_Save := File_Save; storage_Load := File_Load; storage_Delete := File_Delete |}.

#[export] Program Instance file_storage_laws : StorageLaws FileStorage := {| storage_view s := default ∅ (fs_offset s) |}.
Next Obligation.
  intros t p s s'. cbn. unfold File_Save. destruct (fs_offset s); [|done]. intros [= <-]. cbn. by rewrite Position_Clone_id.
Qed.
Next Obligation.
  intros t s s' p. cbn. unfold File_Load, fs_lookup. intros [= <- <-]. split; [|done].
  destruct (fs_offset s) as [m|]; cbn; [apply clone_lookup|by rewrite lookup_empty].
Qed.
Next Obligation.
  intros t s s'. cbn. intros [= <-]. cbn. destruct (fs_offset s); cbn; [done|by rewrite delete_empty].
Qed.

(** A file that did not hold the JSON [null]. *)
#[export] Program Instance file_answers : StorageAnswers FileStorage := {| storage_answers s := is_Some (fs_offset s) |}.
Next Obligation. intros t p s [m Hm]. cbn. unfold File_Save. rewrite Hm. by eexists. Qed.
Next Obligation. intros t s Hs. by do 2 eexists. Qed.

(** ** etcd *)

Class EtcdClient (E : Type) := {
  etcd_Put : string → list Byte.byte → ST E unit;
  etcd_Get : string → E → result (option (list Byte.byte));
  etcd_GetPrefix : string → E → result (list (string * list Byte.byte));
  etcd_Delete : string → ST E unit
}.

(** The key space of etcd is a map; calls that succeed read and write it. *)
Class EtcdLaws (E : Type) `{!EtcdClient E} := {
  etcd_keys : E → gmap string (list Byte.byte);
  etcd_put_ok k v e e' : etcd_Put k v e = (e', Ok tt) → etcd_keys e' = <[k := v]> (etcd_keys e);
  etcd_get_ok k e r : etcd_Get k e = Ok r → r = etcd_keys e !! k;
  etcd_prefix_ok p e kvs : etcd_GetPrefix p e = Ok kvs →
    NoDup kvs.*1 ∧ ∀ k v, (k, v) ∈ kvs ↔ etcd_keys e !! k = Some v ∧ has_prefix p k = true;
  etcd_delete_ok k e e' : etcd_Delete k e = (e', Ok tt) → etcd_keys e' = delete k (etcd_keys e)
}.

Section Etcd.
Context {E : Type} `{EC : !EtcdClient E} `{PC : !JSONCodec Position} (prefix : string).

(** The client, shared by all nodes, and the node's own map. *)
Definition EtcdStorage : Type := E * gmap string Position.

Definition offset_key (taskID : string) : string := prefix +:+ "/" +:+ taskID.

Definition Etcd_Save (taskID : string) (pos : option Position) : ST EtcdStorage unit := λ '(e, m),
  match pos with
  | None => ((e, m), nil_clone)
  | Some pos =>
      let m := <[taskID := Position_Clone pos]> m in
      match json_Marshal pos with
      | Err err => ((e, m), Err (ErrWrapf "failed to marshal position" err))
      | Ok data =>
          match etcd_Put (offset_key taskID) data e with
          | (e, Err err) => ((e, m), Err (ErrWrapf "failed to save position to etcd" err))
          | (e, Ok _) => ((e, m), Ok tt)
          end
      end
  end.

Definition Etcd_Load (taskID : string) : ST EtcdStorage (option Position) := λ '(e, m),
  match m !! taskID with
  | Some pos => ((e, m), Ok (Some (Position_Clone pos)))
  | None =>
      match etcd_Get (offset_key taskID) e with
      | Err err => ((e, m), Err (ErrWrapf "failed to get position from etcd" err))
      | Ok None => ((e, m), Ok None)
      | Ok (Some data) =>
          match json_Unmarshal data with
          | Err err => ((e, m), Err (ErrWrapf "failed to unmarshal position" err))
          | Ok pos => ((e, <[taskID := pos]> m), Ok (Some pos))
          end
      end
  end.

Definition Etcd_Delete (taskID : string) : ST EtcdStorage unit := λ '(e, m),
  let m := delete taskID m in
  match etcd_Delete (offset_key taskID) e with
  | (e, Err err) => ((e, m), Err (ErrWrapf "failed to delete position from etcd" err))
  | (e, Ok _) => ((e, m), Ok tt)
  end.

(** The loop of [loadAll]: values that do not decode are passed over, and the task is
    what follows one byte behind the prefix. *)
Fixpoint load_kvs (kvs : list (string * list Byte.byte)) (m : gmap string Position) : gmap string Position * result unit :=
  match kvs with
  | [] => (m, Ok tt)
  | (key, data) :: kvs =>
      match json_Unmarshal data with
      | Err _ => load_kvs kvs m
      | Ok pos =>
          if (String.length key <? String.length prefix + 1)%nat then (m, Err (Panic "slice bounds out of range"))
          else load_kvs kvs (<[drop_prefix (prefix +:+ "/") key := pos]> m)
      end
  end.

Definition loadAll : ST EtcdStorage unit := λ '(e, m),
  match etcd_GetPrefix prefix e with
  | Err err => ((e, m), Err (ErrWrapf "failed to get offsets from etcd" err))
  | Ok kvs => let '(m, r) := load_kvs kvs m in ((e, m), r)
  end.

(** A tick of the flusher writes every entry of the node's map; errors are logged. *)
Fixpoint flush_entries (l : list (string * Position)) (e : E) : E :=
  match l with
  | [] => e
  | (taskID, pos) :: l =>
      match json_Marshal pos with
      | Err _ => flush_entries l e
      | Ok data => flush_entries l (etcd_Put (offset_key taskID) data e).1
      end
  end.

Definition flushAll `{!GoRange string Position} : ST EtcdStorage unit := λ '(e, m),
  ((flush_entries (go_range m) e, m), Ok tt).

(** The client is what [clientv3.New] answers; an error of [loadAll] is reported only. *)
Definition NewEtcdStorage (endpoints : list string) (client : result E) : result EtcdStorage :=
  match endpoints with
  | [] => Err (ErrNew "etcd endpoints are required")
  | _ =>
      match client with
      | Err e => Err (ErrWrapf "failed to create etcd client" e)
      | Ok e =>
          match loadAll (e, ∅) with
          | (_, Err (Panic msg)) => Err (Panic msg)
          | (s, _) => Ok s
          end
      end
  end.

(** ** Nodes and restarts *)

Context `{EL : !EtcdLaws E} `{PL : !JSONLaws Position} `{GR : !GoRange string Position}.

Lemma offset_key_inj t t' : offset_key t = offset_key t' → t = t'.
Proof. unfold offset_key. by intros ?%string_app_cancel_l%string_app_cancel_l. Qed.

Lemma offset_key_long t : (String.length prefix + 1 <= String.length (offset_key t))%nat.
Proof. unfold offset_key. rewrite !string_length_app. cbn. lia. Qed.

Lemma offset_key_task t : drop_prefix (prefix +:+ "/") (offset_key t) = t.
Proof. unfold offset_key. rewrite <- string_app_assoc. apply drop_prefix_app. Qed.

(** Every key under the prefix is that of a task. *)
Definition clean (e : E) : Prop :=
  ∀ k v, etcd_keys e !! k = Some v → has_prefix prefix k = true → ∃ t, k = offset_key t.

Lemma load_kvs_spec kvs m :
  NoDup kvs.*1 → (∀ k v, (k, v) ∈ kvs → ∃ t, k = offset_key t) →
  ∃ m', load_kvs kvs m = (m', Ok tt) ∧
    ∀ t, m' !! t = match list_find (λ kv, kv.1 = offset_key t ∧ is_ok (json_Unmarshal (A := Position) kv.2) = true) kvs with
                   | Some (_, kv) => ok_or_none (json_Unmarshal kv.2)
                   | None => m !! t
                   end.
Proof.
  revert m. induction kvs as [|[k v] kvs IH]; intros m Hnd Hk; [by exists m|].
  cbn [fmap list_fmap fst] in Hnd. apply NoDup_cons in Hnd as [Hn Hnd]. destruct (Hk k v ltac:(left)) as [t0 ->].
  assert (Hfresh : ∀ t, list_find (λ kv, kv.1 = offset_key t ∧ is_ok (json_Unmarshal (A := Position) kv.2) = true) kvs ≠ None → t ≠ t0).
  { intros t Hf ->. destruct (list_find _ kvs) as [[i kv]|] eqn:El; [|done].
    apply list_find_Some in El as (Hi & [Hkv _] & _). apply Hn. rewrite <- Hkv. apply list_elem_of_fmap.
    eexists. split; [done|]. by eapply list_elem_of_lookup_2. }
  cbn [load_kvs]. destruct (json_Unmarshal v) as [pos|err] eqn:Eu.
  - rewrite (proj2 (Nat.ltb_ge _ _)) by apply offset_key_long. rewrite offset_key_task.
    destruct (IH (<[t0 := pos]> m)) as (m' & Hm & Hl); [done|intros k' v' H'; apply (Hk k' v'); by right|].
    exists m'. split; [done|]. intros t. rewrite Hl. cbn [list_find fst snd]. case_decide as Hd.
    + destruct Hd as [<-%offset_key_inj _]. cbn. rewrite Eu.
      destruct (list_find _ kvs) as [[]|] eqn:El; [by destruct (Hfresh t0); rewrite ?El|]. by rewrite lookup_insert_eq.
    + destruct (list_find _ kvs) as [[]|]; [done|]. cbn. rewrite lookup_insert_ne; [done|]. intros ->. apply Hd. by rewrite Eu.
  - destruct (IH m) as (m' & Hm & Hl); [done|intros k' v' H'; apply (Hk k' v'); by right|].
    exists m'. split; [done|]. intros t. rewrite Hl. cbn [list_find fst snd]. rewrite decide_False by (rewrite Eu; by intros []).
    by destruct (list_find _ kvs) as [[]|].
Qed.

(** A node that starts finds the positions that were saved: after a successful
    [loadAll] with an empty map, the node has a position for a task exactly when etcd
    has a value under the task's key that decodes to it. *)
Theorem etcd_restart e s r t p :
  clean e → loadAll (e, ∅) = (s, r) → r = Ok tt →
  s.2 !! t = Some p ↔ ∃ data, etcd_keys e !! offset_key t = Some data ∧ json_Unmarshal data = Ok p.
Proof.
  intros Hc Hl ->. unfold loadAll in Hl. destruct (etcd_GetPrefix prefix e) as [kvs|] eqn:Eg; [|done].
  destruct (etcd_prefix_ok _ _ _ Eg) as [Hnd Hkvs].
  destruct (load_kvs_spec kvs ∅ Hnd) as (m' & Hm & Hlook).
  { intros k v [Hk Hp]%Hkvs. by eapply Hc. }
  rewrite Hm in Hl. injection Hl as <-. cbn [snd]. rewrite Hlook.
  assert (Hpre : has_prefix prefix (offset_key t) = true) by apply has_prefix_app.
  destruct (list_find _ kvs) as [[i [k v]]|] eqn:El.
  - apply list_find_Some in El as (Hi & [Hk Hok] & _). cbn in *. subst k. apply list_elem_of_lookup_2, Hkvs in Hi as [Hv _].
    rewrite Hv. destruct (json_Unmarshal v) as [p'|] eqn:Eu; [|done]. cbn. split; [intros [= ->]; eauto|].
    intros (data & [= <-] & Hd). congruence.
  - rewrite lookup_empty. split; [done|]. intros (data & Hd & Hu). apply list_find_None in El. rewrite Forall_forall in El.
    destruct (El (offset_key t, data)); [by apply Hkvs|]. cbn. by rewrite Hu.
Qed.

Lemma flush_entries_keys l e t :
  (∀ k v e, ∃ e', etcd_Put k v e = (e', Ok tt)) → NoDup l.*1 → (∀ t p, (t, p) ∈ l → json_wf p) →
  etcd_keys (flush_entries l e) !! offset_key t =
    match list_find (λ tp, tp.1 = t) l with
    | Some (_, tp) => ok_or_none (json_Marshal tp.2)
    | None => etcd_keys e !! offset_key t
    end.
Proof.
  intros Hput. revert e. induction l as [|[t0 p0] l IH]; intros e Hnd Hwf; [done|].
  cbn [fmap list_fmap fst] in Hnd. apply NoDup_cons in Hnd as [Hn Hnd]. cbn [flush_entries list_find fst].
  destruct (json_roundtrip p0) as (data & Hj & _); [eapply Hwf; by left|]. rewrite Hj.
  destruct (Hput (offset_key t0) data e) as [e' He]. rewrite He. cbn [fst].
  rewrite IH; [|done|intros t' p' H'; eapply Hwf; by right]. pose proof (etcd_put_ok _ _ _ _ He) as Hk.
  destruct (decide (t0 = t)) as [->|Hne].
  - cbn. rewrite Hj.
    assert (list_find (λ tp, tp.1 = t) l = None) as ->.
    { apply list_find_None, Forall_forall. intros tp Htp E'. apply Hn. rewrite <- E'. by apply list_elem_of_fmap_2. }
    by rewrite Hk, lookup_insert_eq.
  - destruct (list_find _ l) as [[]|]; [done|]. cbn. rewrite Hk, lookup_insert_ne; [done|]. by intros ?%offset_key_inj.
Qed.

(** What a node with an empty map reads of a task. *)
Lemma fresh_load e t p s : Etcd_Load t (e, ∅) = (s, Ok p) →
  p = (etcd_keys e !! offset_key t) ≫= λ data, ok_or_none (json_Unmarshal data).
Proof.
  unfold Etcd_Load. rewrite lookup_empty. destruct (etcd_Get _ _) as [r|] eqn:Eg; [|done].
  apply etcd_get_ok in Eg as ->. destruct (etcd_keys e !! offset_key t) as [data|]; [|by intros [= _ <-]].
  cbn. by destruct (json_Unmarshal data) as [pos|]; [intros [= _ <-]|].
Qed.

(** A node that has a task's position in its map writes it back at every tick.  A
    newer position that another node saved is what a starting node reads, until the
    flush of the first node: from then on a starting node reads the old position. *)
Theorem stale_flush_regresses e mA mB t old new e1 mB' e2 mA' :
  (∀ k v e, ∃ e', etcd_Put k v e = (e', Ok tt)) → map_Forall (λ _ p, json_wf p) mA → json_wf new →
  mA !! t = Some old →
  Etcd_Save t (Some new) (e, mB) = ((e1, mB'), Ok tt) → flushAll (e1, mA) = ((e2, mA'), Ok tt) →
  (∀ s p, Etcd_Load t (e1, ∅) = (s, Ok p) → p = Some new) ∧
  (∀ s p, Etcd_Load t (e2, ∅) = (s, Ok p) → p = Some old).
Proof.
  intros Hput Hwf Hnew HA Hs Hf. split; intros s p Hl; apply fresh_load in Hl as ->.
  - unfold Etcd_Save in Hs. destruct (json_roundtrip new Hnew) as (data & Hj & Hu). rewrite Hj in Hs.
    destruct (etcd_Put (offset_key t) data e) as [e' [[]|]] eqn:Ep; [|done]. injection Hs as <- _.
    rewrite (etcd_put_ok _ _ _ _ Ep), lookup_insert_eq. cbn. by rewrite Hu.
  - unfold flushAll in Hf. injection Hf as <- _.
    rewrite flush_entries_keys; [|done|apply go_range_NoDup|intros t' p' H'%go_range_lookup; by eapply Hwf].
    destruct (list_find (λ tp, tp.1 = t) (go_range mA)) as [[i [t' p']]|] eqn:El.
    + apply list_find_Some in El as (Hi & Ht & _). cbn in Ht. subst t'.
      apply list_elem_of_lookup_2, go_range_lookup in Hi. assert (p' = old) as -> by congruence.
      destruct (json_roundtrip old) as (data & Hj & Hu); [by eapply Hwf|]. cbn. rewrite Hj. cbn. by rewrite Hu.
    + apply list_find_None in El. rewrite Forall_forall in El. by destruct (El (t, old)); [apply go_range_lookup|].
Qed.

(** A key that is the prefix itself, without a task, makes a starting node panic. *)
Theorem bare_prefix_panics e kvs data pos :
  etcd_GetPrefix prefix e = Ok ((prefix, data) :: kvs) → json_Unmarshal data = Ok pos →
  loadAll (e, ∅) = ((e, ∅), Err (Panic "slice bounds out of range")).
Proof.
  intros Hg Hu. unfold loadAll. rewrite Hg. cbn [load_kvs]. rewrite Hu.
  by rewrite (proj2 (Nat.ltb_lt _ _)) by lia.
Qed.
End Etcd.

(** ** NewStorage *)

Record OffsetConfig := mkOffsetConfig {
  oc_Backend : string;
  oc_Path : string;
  oc_EtcdEndpoints : list string;
  oc_FlushInterval : Z
}.

Inductive AnyStorage (E : Type) :=
  | IsMemory (m : MemoryStorage)
  | IsFile (s : FileStorage) (flushInterval : duration)
  | IsEtcd (s : EtcdStorage (E := E)) (flushInterval : duration).
Arguments IsMemory {_} _.
Arguments IsFile {_} _ _.
Arguments IsEtcd {_} _ _.

(** Milliseconds; zero stands for a second. *)
Definition flush_interval (cfg : OffsetConfig) : duration :=
  let d := i64 (oc_FlushInterval cfg * 1000000) in if d =? 0 then 1000000000 else d.

Definition NewStorage `{!JSONCodec offsets} {E : Type} `{!EtcdClient E} `{!JSONCodec Position} (cfg : OffsetConfig)
    (mkdir : result unit) (disk : gmap string (list Byte.byte)) (client : result E) : result (AnyStorage E) :=
  if bool_decide (oc_Backend cfg = "memory") || bool_decide (oc_Backend cfg = "") then Ok (IsMemory NewMemoryStorage)
  else if bool_decide (oc_Backend cfg = "file") then
    s ← NewFileStorage (oc_Path cfg) mkdir disk; Ok (IsFile s (flush_interval cfg))
  else if bool_decide (oc_Backend cfg = "etcd") then
    s ← NewEtcdStorage "/datastream/offsets" (oc_EtcdEndpoints cfg) client; Ok (IsEtcd s (flush_interval cfg))
  else Err (ErrNew ("unsupported backend: " +:+ oc_Backend cfg)).

(** ** Concrete runs *)

Module OffsetRuns.

#[local] Instance offsets_json : JSONCodec offsets := countable_codec offsets.
#[local] Instance offsets_json_laws : JSONLaws offsets := countable_codec_laws offsets.
#[local] Instance position_json : JSONCodec Position := countable_codec Position.
#[local] Instance position_json_laws : JSONLaws Position := countable_codec_laws Position.
#[local] Instance positions_range : GoRange string Position := sorted_range string Position.

Definition at_scn (n : Z) : Position := mkPosition "" 0 0 n 0 0 None "" "" 0 "" 0 0.

Lemma pos_bytes_nonempty p : pos_bytes p ≠ [].
Proof. by destruct p. Defined.

Definition crash_ops : list file_op :=
  [OpSave "t" (at_scn 1); OpFlush FlushDone; OpSave "t" (at_scn 2); OpFlush (WriteFails 1 IoEOF); OpRestart].

Lemma file_storage_durable_witness :
  ∃ s, NewFileStorage "offsets.json" (Ok tt) ∅ = Ok s ∧
    (File_Load "t" (foldl file_run1 s crash_ops)).2 = Ok (Some (at_scn 1)).
Proof.
  eexists. split; [reflexivity|].
  rewrite (file_storage_durable (λ _ _, True) ltac:(intros m _; exact I)
             ltac:(intros m data; cbn; intros [= <-]; apply pos_bytes_nonempty) crash_ops "offsets.json" ∅ _ "t");
    [vm_compute; reflexivity|reflexivity|reflexivity|]. repeat constructor.
Defined.

Lemma NoDup_fst_filter {A B} (P : A * B → Prop) `{∀ x, Decision (P x)} (l : list (A * B)) :
  NoDup l.*1 → NoDup (filter P l).*1.
Proof.
  induction l as [|x l IH]; intros Hnd; [done|]. cbn in Hnd. apply NoDup_cons in Hnd as [Hx Hnd]. rewrite filter_cons.
  destruct (decide (P x)); [|by apply IH]. cbn. constructor; [|by apply IH].
  intros (y & Hy & [_ Hin]%list_elem_of_filter)%list_elem_of_fmap. apply Hx. rewrite Hy. by apply list_elem_of_fmap_2.
Qed.

(** etcd as a map whose calls all succeed. *)
Definition map_etcd : EtcdClient (gmap string (list Byte.byte)) := {|
  etcd_Put k v e := (<[k := v]> e, Ok tt);
  etcd_Get k e := Ok (e !! k);
  etcd_GetPrefix p e := Ok (filter (λ kv, has_prefix p kv.1 = true) (map_to_list e));
  etcd_Delete k e := (delete k e, Ok tt)
|}.
#[local] Existing Instance map_etcd.

#[local] Program Instance map_etcd_laws : EtcdLaws (gmap string (list Byte.byte)) := {| etcd_keys e := e |}.
Next Obligation. by intros k v e e' [= <-]. Qed.
Next Obligation. by intros k e r [= <-]. Qed.
Next Obligation.
  intros p e kvs [= <-]. split.
  - apply NoDup_fst_filter, NoDup_fst_map_to_list.
  - intros k v. rewrite list_elem_of_filter, elem_of_map_to_list. cbn. tauto.
Qed.
Next Obligation. by intros k e e' [= <-]. Qed.

Definition saved : gmap string (list Byte.byte) := (Etcd_Save "/o" "t" (Some (at_scn 9)) (∅, ∅)).1.1.

Lemma etcd_restart_witness :
  (loadAll "/o" (saved, ∅)).1.2 !! "t" = Some (at_scn 9).
Proof.
  destruct (loadAll "/o" (saved, ∅)) as [s r] eqn:El.
  assert (Hr : r = Ok tt) by (vm_compute in El; by injection El as _ <-).
  apply (etcd_restart "/o" saved s r "t" (at_scn 9)); [|exact El|exact Hr|eexists; split; vm_compute; reflexivity].
  intros k v Hk _. exists "t". unfold saved in Hk. cbn in Hk. rewrite lookup_insert_Some, lookup_empty in Hk.
  destruct Hk as [[<- _]|[_ Hk]]; [reflexivity|discriminate Hk].
Defined.

Lemma stale_flush_regresses_witness :
  let e1 := (Etcd_Save "/o" "t" (Some (at_scn 9)) (∅ : gmap string (list Byte.byte), ∅)).1.1 in
  let e2 := (flushAll "/o" (e1, {["t" := at_scn 5]})).1.1 in
  (Etcd_Load "/o" "t" (e1, ∅)).2 = Ok (Some (at_scn 9)) ∧ (Etcd_Load "/o" "t" (e2, ∅)).2 = Ok (Some (at_scn 5)).
Proof.
  intros e1 e2.
  destruct (stale_flush_regresses "/o" (∅ : gmap string (list Byte.byte)) {["t" := at_scn 5]} ∅ "t" (at_scn 5) (at_scn 9)
              e1 {["t" := at_scn 9]} e2 {["t" := at_scn 5]}) as [H1 H2];
    [intros k v e; eexists; reflexivity|apply map_Forall_singleton; exact I|exact I|reflexivity|reflexivity|reflexivity|].
  destruct (Etcd_Load "/o" "t" (e1, ∅)) as [s1 [p1|]] eqn:E1; [|vm_compute in E1; discriminate E1].
  destruct (Etcd_Load "/o" "t" (e2, ∅)) as [s2 [p2|]] eqn:E2; [|vm_compute in E2; discriminate E2].
  split; cbn; [by rewrite (H1 _ _ eq_refl)|by rewrite (H2 _ _ eq_refl)].
Defined.

Lemma bare_prefix_panics_witness :
  loadAll "/o" ({["/o" := pos_bytes (encode (at_scn 1))]} : gmap string (list Byte.byte), ∅)
  = (({["/o" := pos_bytes (encode (at_scn 1))]}, ∅), Err (Panic "slice bounds out of range")).
Proof.
  apply (bare_prefix_panics "/o" _ [] (pos_bytes (encode (at_scn 1))) (at_scn 1)); vm_compute; reflexivity.
Defined.
End OffsetRuns.
