(* ===== verification/Cluster.v ===== *)
(** Cluster scheduling (internal/pipeline/cluster.go): registering nodes, heartbeats, the
    leader's rebalancing of tasks over the nodes that are alive, and stopping.

    The coordinator the nodes share is an interface, with what a leadership key promises
    as its laws; [MemoryCoordinator] implements it.  Wall-clock times are nanoseconds of
    the Unix epoch.  Loops over Go maps visit them in any order. *)
From Stdlib Require Import ZArith Lia.
From Stdlib Require Ascii String.
From stdpp Require Import prelude countable gmap strings list fin_maps.
From S2P Require Import Prelude Events Tasks.
Local Open Scope Z_scope.

Definition NodeHeartbeatInterval : duration := 10000000000.
Definition NodeExpiryThreshold : duration := 30000000000.
Definition RebalanceInterval : duration := 30000000000.
Definition MaxTasksPerNode : Z := 10.
Definition clusterLeadershipKey : string := "_cluster_leader".

(** ** The coordinator *)

(** A task as the manager sees it: its identifier and status. *)
Definition cluster_task : Type := string * TaskStatus.

Class ClusterCoordinator (C : Type) := {
  cc_AcquireLeadership : string → ST C bool;
  cc_ReleaseLeadership : string → ST C unit;
  cc_IsLeader : string → C → result bool;
  cc_RegisterNode : string → NodeInfo → ST C unit;
  cc_UnregisterNode : string → ST C unit;
  cc_Heartbeat : Z → string → ST C unit;      (* the current time in nanoseconds *)
  cc_ListNodes : C → result (list NodeInfo);
  cc_ListTasks : C → result (list cluster_task)
}.

(** Leadership is a map from keys to nodes: the own node can take a key that is free and
    gives up what it releases; calls that fail change nothing, and the calls on nodes do
    not touch it. *)
Class ClusterLaws (C : Type) `{!ClusterCoordinator C} := {
  cc_leaders : C → gmap string string;
  cc_self : C → string;
  cc_is_leader k c b : cc_IsLeader k c = Ok b → b = bool_decide (cc_leaders c !! k = Some (cc_self c));
  cc_acquire k c c' b : cc_AcquireLeadership k c = (c', Ok b) →
    cc_self c' = cc_self c ∧
    if b : bool then (cc_leaders c !! k = None ∨ cc_leaders c !! k = Some (cc_self c)) ∧
                     cc_leaders c' = <[k := cc_self c]> (cc_leaders c)
    else cc_leaders c' = cc_leaders c;
  cc_acquire_err k c c' e : cc_AcquireLeadership k c = (c', Err e) → cc_self c' = cc_self c ∧ cc_leaders c' = cc_leaders c;
  cc_release k c c' : cc_ReleaseLeadership k c = (c', Ok tt) → cc_self c' = cc_self c ∧ cc_leaders c' = delete k (cc_leaders c);
  cc_unregister n c c' r : cc_UnregisterNode n c = (c', r) → cc_leaders c' = cc_leaders c
}.

(** ** The manager *)

Record ClusterManager := mkClusterManager {
  cm_nodeID : string;
  cm_nodeInfo : NodeInfo;
  cm_localTasks : gmap string cluster_task;
  cm_started : bool;
  cm_isLeader : bool;
  cm_assigned : list string;         (* history: tasks the callback was given *)
  cm_lost : list string              (* history: tasks reported as lost *)
}.

Definition NewClusterManager (now : Z) (nodeID address hostname : string) : ClusterManager :=
  mkClusterManager nodeID (mkNodeInfo nodeID address hostname now now ∅ []) ∅ false false [] [].

Section Cluster.
Context {C : Type} `{CC : !ClusterCoordinator C} `{GB : !GoRange string bool} `{GT : !GoRange string cluster_task}.

(** The manager and the coordinator it holds. *)
Definition node : Type := ClusterManager * C.

Definition with_started (b : bool) (m : ClusterManager) : ClusterManager :=
  mkClusterManager (cm_nodeID m) (cm_nodeInfo m) (cm_localTasks m) b (cm_isLeader m) (cm_assigned m) (cm_lost m).
Definition with_leader (b : bool) (m : ClusterManager) : ClusterManager :=
  mkClusterManager (cm_nodeID m) (cm_nodeInfo m) (cm_localTasks m) (cm_started m) b (cm_assigned m) (cm_lost m).
Definition with_local (ts : gmap string cluster_task) (m : ClusterManager) : ClusterManager :=
  mkClusterManager (cm_nodeID m) (cm_nodeInfo m) ts (cm_started m) (cm_isLeader m) (cm_assigned m) (cm_lost m).

(** [Start]; the loops it starts are the operations below. *)
Definition Cluster_Start : ST node unit := λ '(m, c),
  let m := with_started true m in
  match cc_RegisterNode (cm_nodeID m) (cm_nodeInfo m) c with
  | (c, Err e) => ((m, c), Err (ErrWrapf "register node" e))
  | (c, Ok _) => ((m, c), Ok tt)
  end.

(** A tick of [heartbeatLoop]: errors are logged. *)
Definition heartbeat_tick (now : Z) : node → node := λ '(m, c),
  let c := (cc_Heartbeat now (cm_nodeID m) c).1 in
  let i := cm_nodeInfo m in
  let info := mkNodeInfo (ni_ID i) (ni_Address i) (ni_Hostname i) (ni_StartedAt i) now (ni_Labels i) (ni_Tasks i) in
  (m, (cc_RegisterNode (cm_nodeID m) info c).1).

(** A round of [leaderLoop] up to the point where the node leads: [true] when it does. *)
Definition leader_round : node → node * bool := λ '(m, c),
  match cc_IsLeader clusterLeadershipKey c with
  | Err _ => ((m, c), false)
  | Ok true => ((m, c), true)
  | Ok false =>
      match cc_AcquireLeadership clusterLeadershipKey c with
      | (c, Ok true) => ((with_leader true m, c), true)
      | (c, _) => ((m, c), false)
      end
  end.

(** [acquireTask]; the callback's error is logged. *)
Definition acquireTask (task : cluster_task) : node → node := λ '(m, c),
  match cc_AcquireLeadership task.1 c with
  | (c, Ok true) =>
      (mkClusterManager (cm_nodeID m) (cm_nodeInfo m) (<[task.1 := task]> (cm_localTasks m)) (cm_started m)
         (cm_isLeader m) (cm_assigned m ++ [task.1]) (cm_lost m), c)
  | (c, _) => (m, c)
  end.

(** [taskCount[nodeID]]: zero for an absent key. *)
Definition load (counts : gmap string Z) (nodeID : string) : Z := default 0 (counts !! nodeID).

Definition pick_step (counts : gmap string Z) (acc : string * Z) (nb : string * bool) : string * Z :=
  let count := load counts nb.1 in
  if count <? acc.2 then (nb.1, count) else acc.

Definition pickLeastLoaded (aliveNodes : gmap string bool) (counts : gmap string Z) : string :=
  (foldl (pick_step counts) ("", MaxTasksPerNode + 1) (go_range aliveNodes)).1.

(** [now.Sub(time.Unix(0, node.LastSeen)) > NodeExpiryThreshold] *)
Definition node_dead (now : Z) (info : NodeInfo) : bool := NodeExpiryThreshold <? time_Sub now (ni_LastSeen info).

Definition alive_nodes (now : Z) (nodes : list NodeInfo) : gmap string bool :=
  foldl (λ m info, if node_dead now info then m else <[ni_ID info := true]> m) ∅ nodes.

Definition schedulable (s : TaskStatus) : bool :=
  match s with TaskStatusRunning | TaskStatusCreated => true | _ => false end.

(** The tasks the code collects: those this node leads. *)
Definition unassigned (c : C) (tasks : list cluster_task) : list cluster_task :=
  filter (λ t, schedulable t.2 = true ∧ cc_IsLeader t.1 c = Ok true) tasks.

(** The loop that assigns tasks to nodes. *)
Fixpoint assign_loop (alive : gmap string bool) (tasks : list cluster_task) (counts : gmap string Z) (n : node) :
  gmap string Z * node :=
  match tasks with
  | [] => (counts, n)
  | task :: tasks =>
      let target := pickLeastLoaded alive counts in
      if bool_decide (target = "") then (counts, n)
      else
        let counts := <[target := load counts target + 1]> counts in
        assign_loop alive tasks counts (if bool_decide (target = cm_nodeID n.1) then acquireTask task n else n)
  end.

Definition rebalanceCluster (now : Z) : node → node := λ '(m, c),
  match cc_ListNodes c with
  | Err _ => (m, c)
  | Ok nodes =>
      match cc_ListTasks c with
      | Err _ => (m, c)
      | Ok tasks =>
          let alive := alive_nodes now nodes in
          if bool_decide (alive = ∅) then (m, c)
          else (assign_loop alive (unassigned c tasks) ∅ (m, c)).2
      end
  end.

(** A tick of [leaderTasks]: [false] when the loop returns. *)
Definition leader_tick (now : Z) : node → node * bool := λ '(m, c),
  match cc_IsLeader clusterLeadershipKey c with
  | Ok true => (rebalanceCluster now (m, c), true)
  | _ => ((m, c), false)
  end.

(** An event of [WatchLeadership] for a task; [callback] is whether one is set. *)
Definition leadership_event (callback isLeader : bool) (leaderID taskID : string) : node → node := λ '(m, c),
  if negb isLeader && negb (bool_decide (leaderID = cm_nodeID m)) && callback then
    (mkClusterManager (cm_nodeID m) (cm_nodeInfo m) (delete taskID (cm_localTasks m)) (cm_started m) (cm_isLeader m)
       (cm_assigned m) (cm_lost m ++ [taskID]), c)
  else (m, c).

Fixpoint release_all (ids : list string) (c : C) : C :=
  match ids with [] => c | id :: ids => release_all ids (cc_ReleaseLeadership id c).1 end.

(** [Stop] after the loops have ended; the cancel functions are nil before [Start]. *)
Definition Cluster_Stop : ST node unit := λ '(m, c),
  if negb (cm_started m) then ((m, c), Err (Panic "nil pointer dereference"))
  else
    let c := release_all (go_range (cm_localTasks m)).*1 c in
    ((m, (cc_UnregisterNode (cm_nodeID m) c).1), Ok tt).

Definition LocalTaskCount (m : ClusterManager) : Z := Z.of_nat (size (cm_localTasks m)).

(** ** Placement *)

Lemma foldl_pick counts l acc :
  let r := foldl (pick_step counts) acc l in
  r.2 <= acc.2 ∧ (∀ nb, nb ∈ l → r.2 <= load counts nb.1) ∧
  (r = acc ∨ ∃ nb, nb ∈ l ∧ r = (nb.1, load counts nb.1) ∧ load counts nb.1 < acc.2).
Proof.
  cbn zeta. revert acc. induction l as [|nb l IH]; intros acc; cbn [foldl].
  - split_and!; [lia|by intros nb ?%not_elem_of_nil|by left].
  - assert (Hp : (load counts nb.1 < acc.2 ∧ pick_step counts acc nb = (nb.1, load counts nb.1)) ∨
                (acc.2 <= load counts nb.1 ∧ pick_step counts acc nb = acc)).
    { unfold pick_step. destruct (Z.ltb_spec (load counts nb.1) acc.2); auto. }
    destruct (IH (pick_step counts acc nb)) as (Hle & Hall & Hr).
    destruct Hp as [[Hlt Ep]|[Hge Ep]]; rewrite Ep in *; cbn [snd] in *.
    + split_and!; [lia|intros nb' [->|Hin]%elem_of_cons; [lia|by apply Hall]|].
      right. destruct Hr as [->|(nb' & Hin & -> & Hl)]; [exists nb|exists nb']; split; try set_solver; split; (done || lia).
    + split_and!; [lia|intros nb' [->|Hin]%elem_of_cons; [lia|by apply Hall]|].
      destruct Hr as [->|(nb' & Hin & -> & Hl)]; [by left|right; exists nb'; split; [set_solver|done]].
Qed.

(** The node that is picked has the least load, unless all are over the limit. *)
Lemma pickLeastLoaded_spec alive counts :
  alive !! "" = None →
  let best := pickLeastLoaded alive counts in
  (best = "" ∧ ∀ n, is_Some (alive !! n) → MaxTasksPerNode < load counts n) ∨
  (best ≠ "" ∧ is_Some (alive !! best) ∧ load counts best <= MaxTasksPerNode ∧
   ∀ n, is_Some (alive !! n) → load counts best <= load counts n).
Proof.
  intros Hne. cbn zeta. unfold pickLeastLoaded.
  destruct (foldl_pick counts (go_range alive) ("", MaxTasksPerNode + 1)) as (_ & Hall & Hr). cbn [snd] in *.
  destruct Hr as [Hr|([n b] & Hin & Hr & Hlt)]; rewrite Hr in *; cbn [fst snd] in *.
  - left. split; [done|]. intros n [b Hb]. specialize (Hall (n, b)). rewrite go_range_lookup in Hall. cbn in Hall.
    specialize (Hall Hb). lia.
  - right. apply go_range_lookup in Hin. split_and!; [by intros ->; congruence|eauto|lia|].
    intros n' [b' Hb']. specialize (Hall (n', b')). rewrite go_range_lookup in Hall. by apply Hall.
Qed.

(** Loads that differ by at most one, and do not exceed the limit by more than one. *)
Definition balanced (alive : gmap string bool) (counts : gmap string Z) : Prop :=
  ∀ n n', is_Some (alive !! n) → is_Some (alive !! n') →
    0 <= load counts n <= MaxTasksPerNode + 1 ∧ load counts n <= load counts n' + 1.

Lemma load_insert counts n v n' : load (<[n := v]> counts) n' = if decide (n = n') then v else load counts n'.
Proof. unfold load. case_decide; subst; by rewrite ?lookup_insert_eq, ?lookup_insert_ne. Qed.

Lemma balanced_step alive counts best :
  balanced alive counts → is_Some (alive !! best) → load counts best <= MaxTasksPerNode →
  (∀ n, is_Some (alive !! n) → load counts best <= load counts n) →
  balanced alive (<[best := load counts best + 1]> counts).
Proof.
  intros Hb Hbest Hmax Hmin n n' Hn Hn'. rewrite !load_insert.
  pose proof (Hb n n' Hn Hn'). pose proof (Hb n best Hn Hbest). pose proof (Hb best n' Hbest Hn').
  pose proof (Hmin n Hn). pose proof (Hmin n' Hn'). repeat case_decide; subst; lia.
Qed.

Lemma assign_loop_balanced alive tasks counts (n : node) :
  alive !! "" = None → balanced alive counts → balanced alive (assign_loop alive tasks counts n).1.
Proof.
  intros Hne. revert counts n. induction tasks as [|t tasks IH]; intros counts n Hb; cbn [assign_loop]; [done|].
  destruct (pickLeastLoaded_spec alive counts Hne) as [[-> _]|(Hbest & Ha & Hm & Hmin)]; [done|].
  rewrite bool_decide_eq_false_2 by done. apply IH. by apply balanced_step.
Qed.

(** A round counts the tasks it places: whatever order it visits the nodes in, the counts
    of two nodes that are alive differ by at most one, and the count of a node reaches at
    most one more than the limit (see [eleven_tasks]). *)
Theorem assignment_balanced alive tasks (n : node) a b :
  alive !! "" = None → is_Some (alive !! a) → is_Some (alive !! b) →
  let counts := (assign_loop alive tasks ∅ n).1 in
  Z.abs (load counts a - load counts b) <= 1 ∧ 0 <= load counts a <= MaxTasksPerNode + 1.
Proof.
  intros Hne Ha Hb. cbn zeta. assert (H : balanced alive (assign_loop alive tasks ∅ n).1).
  { apply assign_loop_balanced; [done|]. intros x y _ _. unfold load. rewrite !lookup_empty. cbn.
    unfold MaxTasksPerNode. lia. }
  pose proof (H a b Ha Hb). pose proof (H b a Hb Ha). lia.
Qed.

(** ** Leadership *)

Context `{CL : !ClusterLaws C}.

Lemma acquireTask_led task m c m' c' :
  cc_leaders c !! task.1 = Some (cc_self c) → acquireTask task (m, c) = (m', c') →
  cc_leaders c' = cc_leaders c ∧ cc_self c' = cc_self c ∧
  ∀ t x, cm_localTasks m' !! t = Some x → cm_localTasks m !! t = Some x ∨ t = task.1.
Proof.
  intros Hl. unfold acquireTask. destruct (cc_AcquireLeadership task.1 c) as [c1 [[]|]] eqn:E.
  - destruct (cc_acquire _ _ _ _ E) as (Hs & _ & Hlead). intros [= <- <-]. split_and!; [|done|].
    + rewrite Hlead. by apply insert_id.
    + intros t x. cbn. rewrite lookup_insert_Some. naive_solver.
  - destruct (cc_acquire _ _ _ _ E) as (Hs & Hlead). intros [= <- <-]. eauto.
  - destruct (cc_acquire_err _ _ _ _ E) as [Hs Hlead]. intros [= <- <-]. eauto.
Qed.

Lemma assign_loop_led alive tasks counts m c :
  Forall (λ t, cc_leaders c !! t.1 = Some (cc_self c)) tasks →
  let n' := (assign_loop alive tasks counts (m, c)).2 in
  cc_leaders n'.2 = cc_leaders c ∧
  ∀ t x, cm_localTasks n'.1 !! t = Some x → cm_localTasks m !! t = Some x ∨ cc_leaders c !! t = Some (cc_self c).
Proof.
  cbn zeta. revert counts m c. induction tasks as [|task tasks IH]; intros counts m c Hled; cbn [assign_loop].
  - cbn. auto.
  - inversion Hled as [|? ? Ht Hts]; subst. destruct (bool_decide (pickLeastLoaded alive counts = "")); [cbn; auto|].
    destruct (bool_decide (_ = cm_nodeID _)); [|by apply IH].
    destruct (acquireTask task (m, c)) as [m1 c1] eqn:Ea.
    destruct (acquireTask_led _ _ _ _ _ Ht Ea) as (Hl & Hs & Hloc).
    destruct (IH (<[pickLeastLoaded alive counts := load counts (pickLeastLoaded alive counts) + 1]> counts) m1 c1) as [Hl' Hloc'].
    { rewrite Hl, Hs. done. }
    split; [by rewrite Hl'|]. intros t x Hx. destruct (Hloc' t x Hx) as [Hx1|Hx1]; [|rewrite Hl, Hs in Hx1; by right].
    destruct (Hloc t x Hx1) as [?| ->]; [by left|by right].
Qed.

(** Rebalancing never moves a task: the leader only goes through the tasks it leads
    itself, so that no leadership changes, and it takes on no task that it did not lead
    already.  The tasks of a node that has died, which nobody leads, stay unassigned. *)
Theorem rebalance_never_takes_over now m c :
  let n' := rebalanceCluster now (m, c) in
  cc_leaders n'.2 = cc_leaders c ∧
  ∀ t x, cm_localTasks n'.1 !! t = Some x → cm_localTasks m !! t = Some x ∨ cc_leaders c !! t = Some (cc_self c).
Proof.
  cbn zeta. unfold rebalanceCluster. destruct (cc_ListNodes c) as [nodes|]; [|cbn; auto].
  destruct (cc_ListTasks c) as [tasks|]; [|cbn; auto]. cbn zeta. destruct (bool_decide _); [cbn; auto|].
  apply assign_loop_led. apply Forall_forall. intros t [[_ Hl] _]%list_elem_of_filter.
  apply cc_is_leader in Hl. by apply symmetry, bool_decide_eq_true_1 in Hl.
Qed.

Lemma release_all_leaders ids c :
  (∀ k c, ∃ c', cc_ReleaseLeadership k c = (c', Ok tt)) →
  cc_leaders (release_all ids c) = foldl (λ l k, delete k l) (cc_leaders c) ids.
Proof.
  intros Hok. revert c. induction ids as [|id ids IH]; intros c; cbn; [done|].
  destruct (Hok id c) as [c' Hc]. rewrite Hc. cbn [fst]. destruct (cc_release _ _ _ Hc) as [_ <-]. apply IH.
Qed.

Lemma foldl_delete_lookup (ids : list string) (l : gmap string string) k :
  foldl (λ l k, delete k l) l ids !! k = if decide (k ∈ ids) then None else l !! k.
Proof.
  revert l. induction ids as [|id ids IH]; intros l; cbn [foldl].
  - rewrite decide_False; [done|by apply not_elem_of_nil].
  - rewrite IH. repeat case_decide; try set_solver.
    + rewrite lookup_delete_None. left. set_solver.
    + rewrite lookup_delete_ne; [done|]. set_solver.
Qed.

(** A node that stops gives up the leadership of its tasks and of nothing else (when
    the coordinator answers). *)
Theorem stop_releases m c :
  cm_started m = true → (∀ k c, ∃ c', cc_ReleaseLeadership k c = (c', Ok tt)) →
  ∃ c', Cluster_Stop (m, c) = ((m, c'), Ok tt) ∧
    ∀ k, cc_leaders c' !! k = if decide (is_Some (cm_localTasks m !! k)) then None else cc_leaders c !! k.
Proof.
  intros Hst Hok. unfold Cluster_Stop. rewrite Hst. cbn [negb].
  destruct (cc_UnregisterNode _ _) as [c' r] eqn:Eu. exists c'. split; [done|]. intros k.
  rewrite (cc_unregister _ _ _ _ Eu), release_all_leaders, foldl_delete_lookup by done.
  assert (Hk : k ∈ (go_range (cm_localTasks m)).*1 ↔ is_Some (cm_localTasks m !! k)).
  { rewrite list_elem_of_fmap. split.
    - intros ([k' x] & -> & Hin%go_range_lookup). by exists x.
    - intros [x Hx]. exists (k, x). split; [done|]. by apply go_range_lookup. }
  repeat case_decide; tauto.
Qed.
End Cluster.

(** ** The in-memory coordinator *)

Section Memory.
Context (status_of : nat → TaskStatus) `{GN : !GoRange string NodeInfo} `{GL : !GoRange string nat}.

(** [ListTasks] returns the tasks, whose status is read through their pointers. *)
Definition memory_cluster : ClusterCoordinator MemoryCoordinator := {|
  cc_AcquireLeadership k c := let '(c, b) := mc_AcquireLeadership k c in (c, Ok b);
  cc_ReleaseLeadership k c := (mc_ReleaseLeadership k c, Ok tt);
  cc_IsLeader k c := Ok (mc_IsLeader k c);
  cc_RegisterNode n i c := (mc_RegisterNode n i c, Ok tt);
  cc_UnregisterNode n c := (mc_UnregisterNode n c, Ok tt);
  cc_Heartbeat now n c := (mc_Heartbeat (now / 1000000) n c, Ok tt);
  cc_ListNodes c := Ok (go_range (mc_nodes c)).*2;
  cc_ListTasks c := Ok (prod_map id status_of <$> go_range (mc_tasks c))
|}.
#[local] Existing Instance memory_cluster.

#[local] Program Instance memory_cluster_laws : ClusterLaws MemoryCoordinator := {|
  cc_leaders := mc_leaders; cc_self := mc_thisNode |}.
Next Obligation.
  intros k c b [= <-]. unfold mc_IsLeader. destruct (mc_leaders c !! k) as [l|]; [|by rewrite bool_decide_eq_false_2].
  apply bool_decide_ext. split; congruence.
Qed.
Next Obligation.
  intros k c c' b. cbn. unfold mc_AcquireLeadership. destruct (mc_leaders c !! k) as [l|] eqn:E.
  - intros [= <- <-]. split; [done|]. case_bool_decide; [|done]. subst. split; [by right|]. by rewrite insert_id.
  - intros [= <- <-]. cbn. auto.
Qed.
Next Obligation.
  intros k c c' e. cbn. by destruct (mc_AcquireLeadership k c).
Qed.
Next Obligation. intros k c c'. cbn. by intros [= <-]. Qed.
Next Obligation. intros n c c' r. cbn. by intros [= <- _]. Qed.

(** [Heartbeat] writes milliseconds where the leader reads nanoseconds: a node whose
    heartbeat was just recorded counts as dead until its next registration. *)
Theorem heartbeat_looks_dead now now' n c info :
  31000000000 <= now <= now' → now' <= max_int64 → mc_nodes c !! n = Some info →
  ∃ info', mc_nodes (cc_Heartbeat now n c).1 !! n = Some info' ∧ node_dead now' info' = true.
Proof.
  intros Hnow Hmax Hn. cbn. unfold mc_Heartbeat. rewrite Hn. cbn. rewrite lookup_insert_eq. eexists. split; [done|].
  unfold node_dead, time_Sub, NodeExpiryThreshold. cbn [ni_LastSeen]. apply Z.ltb_lt.
  assert (0 <= now / 1000000 <= now / 1000) by (split; [apply Z.div_pos; lia|apply Z.div_le_compat_l; lia]).
  pose proof (Z.mul_div_le now 1000). unfold min_int64, max_int64 in *. lia.
Qed.
End Memory.

(** ** Concrete runs *)

Module ClusterRuns.
#[local] Instance nodes_range : GoRange string NodeInfo := sorted_range string NodeInfo.
#[local] Instance locs_range : GoRange string nat := sorted_range string nat.
#[local] Instance bools_range : GoRange string bool := sorted_range string bool.
#[local] Instance tasks_range : GoRange string cluster_task := sorted_range string cluster_task.
#[local] Instance cluster : ClusterCoordinator MemoryCoordinator := memory_cluster (λ _, TaskStatusRunning).
#[local] Instance cluster_laws : ClusterLaws MemoryCoordinator := memory_cluster_laws (λ _, TaskStatusRunning).

Definition minute : Z := 60000000000.
Definition three_nodes : gmap string bool := {["n1" := true; "n2" := true; "n3" := true]}.

(** Node [n1] leads the cluster; [n2] was last seen a minute ago and led task [a], whose
    leadership has expired. *)
Definition after_death : MemoryCoordinator :=
  mkMemoryCoordinator {["a" := 0%nat]} ∅
    {["n1" := mkNodeInfo "n1" "" "" 0 (2 * minute) ∅ []; "n2" := mkNodeInfo "n2" "" "" 0 minute ∅ []]}
    {[clusterLeadershipKey := "n1"]} "n1" ∅.

Definition manager : ClusterManager := with_started true (NewClusterManager 0 "n1" "" "").

Definition twenty : list cluster_task := (λ i : nat, (String (Ascii.ascii_of_nat (97 + i)) "", TaskStatusRunning)) <$> seq 0 20.

Lemma assignment_balanced_witness :
  let counts := (assign_loop three_nodes twenty ∅ (manager, after_death)).1 in
  Z.abs (load counts "n1" - load counts "n3") <= 1 ∧ 0 <= load counts "n1" <= 11.
Proof.
  apply (assignment_balanced three_nodes twenty (manager, after_death) "n1" "n3"); [reflexivity|eexists; reflexivity..].
Defined.

Lemma rebalance_never_takes_over_witness :
  cc_leaders (rebalanceCluster (2 * minute) (manager, after_death)).2 !! "a" = None.
Proof.
  destruct (rebalance_never_takes_over (2 * minute) manager after_death) as [-> _]. reflexivity.
Defined.

(** The limit of ten tasks is exceeded: one node is given eleven. *)
Example eleven_tasks : load (assign_loop {["n1" := true]} twenty ∅ (manager, after_death)).1 "n1" = 11.
Proof. vm_compute. reflexivity. Qed.

Definition holding : ClusterManager := with_local {["t" := ("t", TaskStatusRunning)]} manager.
Definition leading : MemoryCoordinator := (mc_AcquireLeadership "t" after_death).1.

Lemma stop_releases_witness :
  ∃ c', Cluster_Stop (holding, leading) = ((holding, c'), Ok tt) ∧ cc_leaders c' !! "t" = None ∧
    cc_leaders c' !! clusterLeadershipKey = Some "n1".
Proof.
  destruct (stop_releases holding leading) as (c' & Hs & Hl); [reflexivity|intros k c; eexists; reflexivity|].
  exists c'. split; [exact Hs|]. rewrite !Hl. split; vm_compute; reflexivity.
Defined.

Lemma heartbeat_looks_dead_witness :
  ∃ info', mc_nodes (cc_Heartbeat (2 * minute) "n1" after_death).1 !! "n1" = Some info' ∧ node_dead (2 * minute) info' = true.
Proof.
  eapply (heartbeat_looks_dead (λ _, TaskStatusRunning) (2 * minute) (2 * minute) "n1" after_death);
    [vm_compute; split; congruence|vm_compute; congruence|reflexivity].
Defined.
End ClusterRuns.
