(* ===== verification/SQLSink.v ===== *)
(** The relational sinks (internal/sink/mysql, postgres, oracle and sqlserver,
    connector.go): the statement each builds for an event, and [Write], which runs a batch
    of events in one transaction.

    The databases are a parameter: [SQLConn] is the part of database/sql the sinks call
    and [SQLLaws] what transactions promise.  The connectors are initialised here;
    SQLSinkSetup.v has their set-up. *)
From Stdlib Require Import ZArith Lia Ascii.
From Stdlib Require String.
From stdpp Require Import prelude countable gmap strings list fin_maps pretty.
From S2P Require Import Prelude Events Chunks.
Local Open Scope Z_scope.

(** ** Statements *)

(** The text of a query and its arguments. *)
Definition statement_call : Type := string * list value.

Record SinkConfig := mkSinkConfig {
  sk_InsertStrategy : string;
  sk_UseTransaction : bool;
  sk_DDLPolicy : string;
  sk_DefaultSchema : string;      (* not MySQL *)
  sk_UseCopy : bool               (* PostgreSQL *)
}.

Section Statements.
Context `{!GoRange string Field}.

(** [ColumnNames]: the keys of the map, in the order of its iteration. *)
Definition column_names (r : RowData) : list string := (go_range (default ∅ (rd_Fields r))).*1.

(** [field, _ := row.GetField(col)] and its value: the zero field when it is absent. *)
Definition field_value (r : RowData) (col : string) : value :=
  from_option f_Value VNil (RowData_GetField (Some r) col).

Definition row_args (r : RowData) (cols : list string) : list value := field_value r <$> cols.

(** How a dialect writes identifiers and the [i]-th parameter. *)
Record syntax := mkSyntax { ident : string → string; param : Z → string }.

Definition mysql_syntax : syntax := mkSyntax (quote_with bq bq) (λ _, "?").
Definition pg_syntax : syntax := mkSyntax (quote_with dq dq) (λ i, "$" +:+ pretty i).
Definition oracle_syntax : syntax := mkSyntax (quote_with dq dq) (λ i, ":" +:+ pretty i).
Definition sqlserver_syntax : syntax := mkSyntax (quote_with "[" "]") (λ i, "@p" +:+ pretty i).

(** [col = param], for columns numbered from [i]. *)
Fixpoint equalities (sx : syntax) (i : Z) (cols : list string) : list string :=
  match cols with
  | [] => []
  | c :: cols => (ident sx c +:+ " = " +:+ param sx i) :: equalities sx (i + 1) cols
  end.

Fixpoint placeholders (sx : syntax) (i : Z) (cols : list string) : list string :=
  match cols with
  | [] => []
  | _ :: cols => param sx i :: placeholders sx (i + 1) cols
  end.

(** The values of the key columns in the image before the change. *)
Fixpoint key_args (before : RowData) (keys : list string) : result (list value) :=
  match keys with
  | [] => Ok []
  | k :: keys =>
      match RowData_GetField (Some before) k with
      | None => Err (ErrNew ("primary key column " +:+ k +:+ " not found in before image"))
      | Some f => vs ← key_args before keys; Ok (f_Value f :: vs)
      end
  end.

Definition update_query (sx : syntax) (table : string) (cols keys : list string) : string :=
  "UPDATE " +:+ table +:+ " SET " +:+ join ", " (equalities sx 1 cols) +:+
  " WHERE " +:+ join " AND " (equalities sx (1 + zlen cols) keys).

Definition delete_query (sx : syntax) (table : string) (keys : list string) : string :=
  "DELETE FROM " +:+ table +:+ " WHERE " +:+ join " AND " (equalities sx 1 keys).

(** The statement of an update; [None] when there is nothing to set. *)
Definition build_update (sx : syntax) (table : string) (e : ChangeEvent) : result (option statement_call) :=
  match column_names (ev_After e) with
  | [] => Ok None
  | cols =>
      match GetKeyColumns (ev_Table e) with
      | [] => Err (ErrNew "no primary key columns for update")
      | keys =>
          vs ← key_args (ev_Before e) keys;
          Ok (Some (update_query sx table cols keys, row_args (ev_After e) cols ++ vs))
      end
  end.

Definition build_delete (sx : syntax) (table : string) (e : ChangeEvent) : result (option statement_call) :=
  match GetKeyColumns (ev_Table e) with
  | [] => Err (ErrNew "no primary key columns for delete")
  | keys =>
      vs ← key_args (ev_Before e) keys;
      Ok (Some (delete_query sx table keys, vs))
  end.

(** *** MySQL *)

Definition mysql_table (e : ChangeEvent) : string :=
  quote_with bq bq (ti_Database (ev_Table e)) +:+ "." +:+ quote_with bq bq (ti_Table (ev_Table e)).

Definition mysql_insert_query (strategy table : string) (columns : list string) : string :=
  let into := table +:+ " (`" +:+ join "`, `" columns +:+ "`) VALUES (" +:+
              join ", " (placeholders mysql_syntax 1 columns) +:+ ")" in
  if bool_decide (strategy = "replace") then "REPLACE INTO " +:+ into
  else if bool_decide (strategy = "upsert") then
    "INSERT INTO " +:+ into +:+ " ON DUPLICATE KEY UPDATE " +:+
    join ", " ((λ col, quote_with bq bq col +:+ " = VALUES(" +:+ quote_with bq bq col +:+ ")") <$> columns)
  else "INSERT INTO " +:+ into.

Definition mysql_insert (cfg : SinkConfig) (e : ChangeEvent) : result (option statement_call) :=
  match column_names (ev_After e) with
  | [] => Err (ErrNew "no columns to insert")
  | columns => Ok (Some (mysql_insert_query (sk_InsertStrategy cfg) (mysql_table e) columns,
                         row_args (ev_After e) columns))
  end.

(** *** PostgreSQL *)

Definition pg_getSchemaTable (cfg : SinkConfig) (e : ChangeEvent) : string :=
  let schema := if bool_decide (ti_Schema (ev_Table e) ≠ "") then ti_Schema (ev_Table e) else sk_DefaultSchema cfg in
  quote_with dq dq schema +:+ "." +:+ quote_with dq dq (ti_Table (ev_Table e)).

Definition insert_into (sx : syntax) (table : string) (columns : list string) : string :=
  "INSERT INTO " +:+ table +:+ " (" +:+ join ", " (ident sx <$> columns) +:+ ") VALUES (" +:+
  join ", " (placeholders sx 1 columns) +:+ ")".

Definition pg_insert_query (strategy table : string) (pk columns : list string) : string :=
  let plain := insert_into pg_syntax table columns in
  if bool_decide (strategy = "upsert") then
    match pk with
    | [] => plain
    | _ =>
        let target := plain +:+ " ON CONFLICT (" +:+ join ", " (quote_with dq dq <$> pk) +:+ ") DO " in
        match filter (λ col, col ∉ pk) columns with
        | [] => target +:+ "NOTHING"
        | rest => target +:+ "UPDATE SET " +:+
                  join ", " ((λ col, quote_with dq dq col +:+ " = EXCLUDED." +:+ quote_with dq dq col) <$> rest)
        end
    end
  else plain.

(** [executeInsert] and [executeCopyInsert] call each other; [stack] bounds the depth of
    the calls, beyond which the runtime aborts the program. *)
Fixpoint pg_insert (stack : nat) (cfg : SinkConfig) (e : ChangeEvent) : result (option statement_call) :=
  match stack with
  | O => Err (Panic "stack overflow")
  | S stack =>
      match column_names (ev_After e) with
      | [] => Err (ErrNew "no columns to insert")
      | columns =>
          if sk_UseCopy cfg && (10 <? zlen columns) then pg_insert stack cfg e
          else Ok (Some (pg_insert_query (sk_InsertStrategy cfg) (pg_getSchemaTable cfg e)
                           (ti_PrimaryKeyColumns (ev_Table e)) columns, row_args (ev_After e) columns))
      end
  end.

(** *** Oracle and SQL Server *)

Definition getSchemaTable (sx : syntax) (cfg : SinkConfig) (schema table : string) : string :=
  let schema := if bool_decide (schema = "") then sk_DefaultSchema cfg else schema in
  if bool_decide (schema ≠ "") then ident sx schema +:+ "." +:+ ident sx table else ident sx table.

Definition getSchemaTableFromEvent (sx : syntax) (cfg : SinkConfig) (e : ChangeEvent) : string :=
  getSchemaTable sx cfg (ti_Schema (ev_Table e)) (ti_Table (ev_Table e)).

Definition plain_insert (sx : syntax) (cfg : SinkConfig) (e : ChangeEvent) : result (option statement_call) :=
  match column_names (ev_After e) with
  | [] => Err (ErrNew "no columns to insert")
  | columns => Ok (Some (insert_into sx (getSchemaTableFromEvent sx cfg e) columns, row_args (ev_After e) columns))
  end.

Definition oracle_insert : SinkConfig → ChangeEvent → result (option statement_call) := plain_insert oracle_syntax.
Definition sqlserver_insert : SinkConfig → ChangeEvent → result (option statement_call) := plain_insert sqlserver_syntax.

(** *** Updates and deletes of each sink *)

Definition mysql_update (e : ChangeEvent) : result (option statement_call) :=
  build_update mysql_syntax (mysql_table e) e.
Definition mysql_delete (e : ChangeEvent) : result (option statement_call) :=
  build_delete mysql_syntax (mysql_table e) e.
Definition pg_update (cfg : SinkConfig) (e : ChangeEvent) : result (option statement_call) :=
  build_update pg_syntax (pg_getSchemaTable cfg e) e.
Definition pg_delete (cfg : SinkConfig) (e : ChangeEvent) : result (option statement_call) :=
  build_delete pg_syntax (pg_getSchemaTable cfg e) e.
Definition oracle_update (cfg : SinkConfig) (e : ChangeEvent) : result (option statement_call) :=
  build_update oracle_syntax (getSchemaTableFromEvent oracle_syntax cfg e) e.
Definition oracle_delete (cfg : SinkConfig) (e : ChangeEvent) : result (option statement_call) :=
  build_delete oracle_syntax (getSchemaTableFromEvent oracle_syntax cfg e) e.
Definition sqlserver_update (cfg : SinkConfig) (e : ChangeEvent) : result (option statement_call) :=
  build_update sqlserver_syntax (getSchemaTableFromEvent sqlserver_syntax cfg e) e.
Definition sqlserver_delete (cfg : SinkConfig) (e : ChangeEvent) : result (option statement_call) :=
  build_delete sqlserver_syntax (getSchemaTableFromEvent sqlserver_syntax cfg e) e.

(** *** The statement of a data event *)

(** The sinks; PostgreSQL with the depth of its stack. *)
Inductive SinkType := SinkMySQL | SinkPostgres (stack : nat) | SinkOracle | SinkSQLServer.

Definition insert_call (s : SinkType) (cfg : SinkConfig) (e : ChangeEvent) : result (option statement_call) :=
  match s with
  | SinkMySQL => mysql_insert cfg e
  | SinkPostgres stack => pg_insert stack cfg e
  | SinkOracle => oracle_insert cfg e
  | SinkSQLServer => sqlserver_insert cfg e
  end.

Definition update_call (s : SinkType) (cfg : SinkConfig) (e : ChangeEvent) : result (option statement_call) :=
  match s with
  | SinkMySQL => mysql_update e
  | SinkPostgres _ => pg_update cfg e
  | SinkOracle => oracle_update cfg e
  | SinkSQLServer => sqlserver_update cfg e
  end.

Definition delete_call (s : SinkType) (cfg : SinkConfig) (e : ChangeEvent) : result (option statement_call) :=
  match s with
  | SinkMySQL => mysql_delete e
  | SinkPostgres _ => pg_delete cfg e
  | SinkOracle => oracle_delete cfg e
  | SinkSQLServer => sqlserver_delete cfg e
  end.

(** What a data event makes the sink execute, with the text its error is wrapped in. *)
Definition build (s : SinkType) (cfg : SinkConfig) (e : ChangeEvent) : string * result (option statement_call) :=
  match ev_Type e with
  | EventTypeInsert => ("failed to execute insert", insert_call s cfg e)
  | EventTypeUpdate => ("failed to execute update", update_call s cfg e)
  | EventTypeDelete => ("failed to execute delete", delete_call s cfg e)
  | _ => ("", Ok None)
  end.
End Statements.

(** ** The connection *)

(** A transaction is a number; statements run in a transaction or by themselves. *)
Class SQLConn (D : Type) := {
  db_Begin : D → D * result nat;
  db_Exec : option nat → string → list value → D → D * result unit;
  db_Commit : nat → D → D * result unit;
  db_Rollback : nat → D → D
}.

(** What the sinks rely on, for one connection pool that nobody else writes through:
    [content] is what is committed, [view] what an open transaction sees, [sem] the effect
    of a statement.  [tx_safe] are the statements that do not end a transaction by
    themselves (DDL does, in MySQL and Oracle). *)
Class SQLLaws (D X : Type) `{!SQLConn D} := {
  content : D → X;
  view : D → nat → option X;
  sem : string → list value → X → option X;
  tx_safe : string → Prop;
  begin_law d d' r : db_Begin d = (d', r) →
    content d' = content d ∧
    match r with Ok t => view d' t = Some (content d) | Err _ => True end;
  exec_tx_law d d' t q args x r : tx_safe q → view d t = Some x → db_Exec (Some t) q args d = (d', r) →
    content d' = content d ∧
    match r with
    | Ok _ => ∃ x', sem q args x = Some x' ∧ view d' t = Some x'
    | Err _ => is_Some (view d' t)
    end;
  exec_db_law d d' q args r : db_Exec None q args d = (d', r) →
    match r with
    | Ok _ => sem q args (content d) = Some (content d')
    | Err _ => content d' = content d
    end;
  commit_law d d' t x r : view d t = Some x → db_Commit t d = (d', r) →
    view d' t = None ∧
    match r with Ok _ => content d' = x | Err _ => content d' = content d ∨ content d' = x end;
  rollback_law d t : content (db_Rollback t d) = content d ∧ view (db_Rollback t d) t = None
}.

(** ** The connector *)

Inductive SinkState := StateUninitialized | StateReady | StateWriting | StateFlushing | StateError | StateStopped.

#[export] Instance SinkState_eq_dec : EqDecision SinkState.
Proof. solve_decision. Defined.

Record SQLConnector := mkSQLConnector {
  sc_State : SinkState;
  sc_EventsWritten : Z;
  sc_EventsFailed : Z;
  sc_position : option Position;
  sc_tx : option nat
}.

Section Connector.
Context {D : Type} `{!SQLConn D} `{!GoRange string Field}.

Definition sink : Type := SQLConnector * D.

Definition with_state (st : SinkState) (c : SQLConnector) : SQLConnector :=
  mkSQLConnector st (sc_EventsWritten c) (sc_EventsFailed c) (sc_position c) (sc_tx c).
Definition with_tx (tx : option nat) (c : SQLConnector) : SQLConnector :=
  mkSQLConnector (sc_State c) (sc_EventsWritten c) (sc_EventsFailed c) (sc_position c) tx.
Definition one_written (p : Position) (c : SQLConnector) : SQLConnector :=
  mkSQLConnector (sc_State c) (i64 (sc_EventsWritten c + 1)) (sc_EventsFailed c) (Some p) (sc_tx c).
Definition one_failed (c : SQLConnector) : SQLConnector :=
  mkSQLConnector (sc_State c) (sc_EventsWritten c) (i64 (sc_EventsFailed c + 1)) (sc_position c) (sc_tx c).

(** [exec := c.getExecutor()] and the call: in the open transaction, if there is one. *)
Definition execute (msg : string) (call : statement_call) : ST sink unit := st_wrap msg (λ '(c, d),
  let '(d', r) := db_Exec (sc_tx c) call.1 call.2 d in ((c, d'), r)).

Definition handleDDL (cfg : SinkConfig) (e : ChangeEvent) : ST sink unit :=
  if bool_decide (sk_DDLPolicy cfg = "ignore") then mret tt
  else if bool_decide (sk_DDLPolicy cfg = "error") then st_fail (ErrCode "DS:Sink:DDLNotSupported")
  else
    let ddlStatement := metadata_get e "ddl" in
    if bool_decide (ddlStatement = "") then mret tt
    else execute "failed to execute DDL" (ddlStatement, []).

Definition writeDataEvent (s : SinkType) (cfg : SinkConfig) (e : ChangeEvent) : ST sink unit :=
  let '(msg, r) := build s cfg e in
  call ← st_lift r;
  match call with None => mret tt | Some call => execute msg call end.

(** One round of the loop: an event that is neither DDL nor data counts as written. *)
Definition write_event (s : SinkType) (cfg : SinkConfig) (e : ChangeEvent) : ST sink unit :=
  if IsDDL e then handleDDL cfg e
  else if IsDataEvent e then writeDataEvent s cfg e
  else mret tt.

Fixpoint write_loop (s : SinkType) (cfg : SinkConfig) (events : list ChangeEvent) : ST sink unit :=
  match events with
  | [] => mret tt
  | e :: events => λ st,
      match write_event s cfg e st with
      | ((c, d), Err (Panic p)) => ((c, d), Err (Panic p))
      | ((c, d), Err err) => ((one_failed c, d), Err err)
      | ((c, d), Ok _) => write_loop s cfg events (one_written (ev_Position e) c, d)
      end
  end.

(** The end of [Write]: commit the transaction that is open. *)
Definition commit_tx : ST sink unit := st_wrap "failed to commit transaction" (λ '(c, d),
  match sc_tx c with
  | None => ((c, d), Ok tt)
  | Some t => let '(d', r) := db_Commit t d in ((c, d'), r)
  end).

(** Oracle and SQL Server roll the transaction back when [Write] returns, which does
    nothing after a commit; MySQL and PostgreSQL only forget it. *)
Definition rolls_back (s : SinkType) : bool :=
  match s with SinkOracle | SinkSQLServer => true | SinkMySQL | SinkPostgres _ => false end.

Definition end_tx (s : SinkType) : sink → sink := λ '(c, d),
  (with_tx None c, match sc_tx c with Some t => if rolls_back s then db_Rollback t d else d | None => d end).

Definition SQL_Write (s : SinkType) (cfg : SinkConfig) (events : list ChangeEvent) : ST sink unit := λ '(c, d),
  let c := with_state StateWriting c in
  let '((c', d'), r) :=
    if sk_UseTransaction cfg then
      match db_Begin d with
      | (d, Err e) => ((c, d), Err (ErrWrapf "failed to begin transaction" e))
      | (d, Ok t) =>
          let '(st, r) := (write_loop s cfg events ≫= λ _, commit_tx) (with_tx (Some t) c, d) in
          (end_tx s st, r)
      end
    else write_loop s cfg events (c, d) in
  ((with_state StateReady c', d'), r).

Definition mysql_Write : SinkConfig → list ChangeEvent → ST sink unit := SQL_Write SinkMySQL.
Definition pg_Write (stack : nat) : SinkConfig → list ChangeEvent → ST sink unit := SQL_Write (SinkPostgres stack).
Definition oracle_Write : SinkConfig → list ChangeEvent → ST sink unit := SQL_Write SinkOracle.
Definition sqlserver_Write : SinkConfig → list ChangeEvent → ST sink unit := SQL_Write SinkSQLServer.

Definition SQL_Start : ST sink unit := λ '(c, d),
  ((if bool_decide (sc_State c = StateWriting) then c else with_state StateReady c, d), Ok tt).

Definition SQL_Stop : ST sink unit := λ '(c, d),
  ((with_state StateStopped (with_tx None c),
    match sc_tx c with Some t => db_Rollback t d | None => d end), Ok tt).

(** [Flush] of MySQL and PostgreSQL; the others return nil. *)
Definition SQL_Flush (s : SinkType) : ST sink unit := λ '(c, d),
  if rolls_back s then ((c, d), Ok tt)
  else
    let '((c', d'), r) :=
      match sc_tx c with
      | None => ((c, d), Ok tt)
      | Some t =>
          match db_Commit t d with
          | (d, Err e) => ((c, d), Err (ErrWrapf "failed to flush transaction" e))
          | (d, Ok _) =>
              match db_Begin d with
              | (d, Err e) => ((c, d), Err (ErrWrapf "failed to begin new transaction" e))
              | (d, Ok t') => ((with_tx (Some t') c, d), Ok tt)
              end
          end
      end in
    ((with_state StateReady c', d'), r).

Definition GetPosition (c : SQLConnector) : option Position := Position_Clone <$> sc_position c.

(** [ApplyDDL]: another key of the metadata, never in the transaction. *)
Definition ApplyDDL (e : option ChangeEvent) : ST sink unit := λ '(c, d),
  match (e ≫= ev_Metadata) ≫= lookup "sql" with
  | None => ((c, d), Ok tt)
  | Some sql =>
      if bool_decide (sql = "") then ((c, d), Ok tt)
      else let '(d', r) := db_Exec None sql [] d in ((c, d'), r)
  end.
End Connector.

(** ** A batch is one transaction *)

Section Atomic.
Context {D X : Type} `{!SQLConn D} `{!SQLLaws D X} `{!GoRange string Field}.

(** What an event makes the sink execute, DDL included, and the text of its error. *)
Definition event_plan (s : SinkType) (cfg : SinkConfig) (e : ChangeEvent) : string * result (option statement_call) :=
  if IsDDL e then
    ("failed to execute DDL",
     if bool_decide (sk_DDLPolicy cfg = "ignore") then Ok None
     else if bool_decide (sk_DDLPolicy cfg = "error") then Err (ErrCode "DS:Sink:DDLNotSupported")
     else if bool_decide (metadata_get e "ddl" = "") then Ok None
     else Ok (Some (metadata_get e "ddl", [])))
  else if IsDataEvent e then build s cfg e
  else ("", Ok None).

Definition event_call (s : SinkType) (cfg : SinkConfig) (e : ChangeEvent) : result (option statement_call) :=
  (event_plan s cfg e).2.

(** The effect of the calls of a batch, in order. *)
Definition run_call (call : option statement_call) (x : X) : option X :=
  match call with None => Some x | Some (q, args) => sem q args x end.

Fixpoint run_calls (calls : list (option statement_call)) (x : X) : option X :=
  match calls with [] => Some x | c :: cs => run_call c x ≫= run_calls cs end.

Lemma write_event_plan s cfg e (st : SQLConnector * D) :
  write_event s cfg e st =
  match event_call s cfg e with
  | Err err => (st, Err err)
  | Ok None => (st, Ok tt)
  | Ok (Some call) => execute (event_plan s cfg e).1 call st
  end.
Proof.
  unfold write_event, event_call, event_plan. destruct (IsDDL e); [|destruct (IsDataEvent e); [|done]].
  - unfold handleDDL. by repeat case_bool_decide.
  - unfold writeDataEvent. destruct (build s cfg e) as [msg [[call|]|err]]; done.
Qed.

Definition safe_event (s : SinkType) (cfg : SinkConfig) (e : ChangeEvent) : Prop :=
  ∀ call, event_call s cfg e = Ok (Some call) → tx_safe call.1.

Lemma execute_tx msg call c d c' d' r t x :
  tx_safe call.1 → sc_tx c = Some t → view d t = Some x → execute msg call (c, d) = ((c', d'), r) →
  c' = c ∧ content d' = content d ∧
  match r with
  | Ok _ => ∃ x', run_call (Some call) x = Some x' ∧ view d' t = Some x'
  | Err _ => is_Some (view d' t)
  end.
Proof.
  intros Hsafe Ht Hx. destruct call as [q args]. unfold execute, st_wrap. rewrite Ht. cbn [fst snd] in *.
  destruct (db_Exec (Some t) q args d) as [d1 r1] eqn:E.
  destruct (exec_tx_law d d1 t q args x r1 Hsafe Hx E) as [Hc Hv].
  destruct r1 as [[]|[]]; intros [= <- <- <-]; done.
Qed.

Lemma write_event_tx s cfg e c d c' d' r t x :
  safe_event s cfg e → sc_tx c = Some t → view d t = Some x → write_event s cfg e (c, d) = ((c', d'), r) →
  c' = c ∧ content d' = content d ∧
  match r with
  | Ok _ => ∃ call x', event_call s cfg e = Ok call ∧ run_call call x = Some x' ∧ view d' t = Some x'
  | Err _ => is_Some (view d' t)
  end.
Proof.
  intros Hsafe Ht Hx. rewrite write_event_plan.
  destruct (event_call s cfg e) as [[call|]|err] eqn:E.
  - intros H. destruct (execute_tx _ call c d c' d' r t x (Hsafe _ E) Ht Hx H) as (-> & Hc & Hr).
    split_and!; [done..|]. destruct r; [|done]. destruct Hr as (x' & ? & ?). eauto 10.
  - intros [= <- <- <-]. split_and!; [done..|]. exists None, x. done.
  - intros [= <- <- <-]. eauto.
Qed.

(** The position the connector reports after the events it has processed. *)
Definition position_after (events : list ChangeEvent) (p : option Position) : option Position :=
  foldl (λ _ e, Some (ev_Position e)) p events.

Lemma write_loop_tx s cfg events c d c' d' r t x :
  Forall (safe_event s cfg) events → sc_tx c = Some t → view d t = Some x →
  write_loop s cfg events (c, d) = ((c', d'), r) →
  content d' = content d ∧ sc_tx c' = Some t ∧
  match r with
  | Ok _ => ∃ calls x', mapM (event_call s cfg) events = Ok calls ∧ run_calls calls x = Some x' ∧
                        view d' t = Some x' ∧ sc_position c' = position_after events (sc_position c)
  | Err _ => is_Some (view d' t) ∧
             ∃ done_ e rest, events = done_ ++ e :: rest ∧ sc_position c' = position_after done_ (sc_position c)
  end.
Proof.
  intros Hs. revert c d x. induction Hs as [|e events He _ IH]; intros c d x Ht Hx.
  { intros [= <- <- <-]. split_and!; [done..|]. by exists [], x. }
  cbn [write_loop]. destruct (write_event s cfg e (c, d)) as [[c1 d1] r1] eqn:E.
  destruct (write_event_tx s cfg e c d c1 d1 r1 t x He Ht Hx E) as (-> & Hc & Hr).
  destruct r1 as [u|err].
  - destruct Hr as (call & x1 & Hcall & Hrun & Hv). intros H.
    destruct (IH (one_written (ev_Position e) c) d1 x1 Ht Hv H) as (Hc2 & Ht2 & Hr2). split_and!; [congruence|done|].
    destruct r.
    + destruct Hr2 as (calls & x2 & Hm & Hrs & Hv2 & Hp). exists (call :: calls), x2.
      split_and!; [|cbn; by rewrite Hrun|done|done]. cbn. rewrite Hcall. cbn. by rewrite Hm.
    + destruct Hr2 as (? & dn & e' & rest & -> & Hp). split; [done|]. by exists (e :: dn), e', rest.
  - assert (Hpos : ∀ c2, sc_position c2 = sc_position c →
      ∃ done_ e' rest, e :: events = done_ ++ e' :: rest ∧ sc_position c2 = position_after done_ (sc_position c))
      by (intros c2 Hc2; by exists [], e, events).
    destruct err; intros [= <- <- <-]; split_and!; try done; by apply Hpos.
Qed.

(** The error of a commit, in its words or a panic. *)
Definition commit_failed (r : result unit) : Prop :=
  ∃ t (d d' : D) e, db_Commit t d = (d', Err e) ∧ (r = Err (ErrWrapf "failed to commit transaction" e) ∨ ∃ p, e = Panic p ∧ r = Err e).

Lemma SQL_Write_tx s cfg events c d c' d' r :
  sk_UseTransaction cfg = true → Forall (safe_event s cfg) events →
  SQL_Write s cfg events (c, d) = ((c', d'), r) →
  (is_ok (db_Begin d).2 = true → sc_tx c' = None) ∧
  match r with
  | Ok _ => ∃ calls, mapM (event_call s cfg) events = Ok calls ∧
                     run_calls calls (content d) = Some (content d') ∧
                     sc_position c' = position_after events (sc_position c)
  | Err _ => content d' = content d ∨
             commit_failed r ∧
             ∃ calls, mapM (event_call s cfg) events = Ok calls ∧
                      run_calls calls (content d) = Some (content d')
  end.
Proof.
  intros Htx Hs. unfold SQL_Write. rewrite Htx.
  destruct (db_Begin d) as [d1 [t|e]] eqn:EB; destruct (begin_law _ _ _ EB) as [Hc1 Hv1]; cbn [snd is_ok].
  2: { intros [= <- <- <-]. split; [done|by left]. }
  unfold mbind at 1, ST_bind at 1.
  destruct (write_loop s cfg events _) as [[c2 d2] r2] eqn:EW.
  destruct (write_loop_tx s cfg events (with_tx (Some t) (with_state StateWriting c)) d1 c2 d2 r2 t (content d)
    Hs eq_refl Hv1 EW) as (Hc2 & Ht2 & Hr2).
  assert (Hend : ∀ c3 d3, sc_tx c3 = Some t → content (end_tx s (c3, d3)).2 = content d3).
  { intros c3 d3 H3. cbn. rewrite H3. destruct (rolls_back s); [apply rollback_law|done]. }
  destruct r2 as [u|err].
  2: { intros [= <- <- <-]. split; [done|]. left. rewrite <- Hc1, <- Hc2. by apply (Hend c2). }
  destruct Hr2 as (calls & x' & Hm & Hrun & Hv2 & Hp).
  unfold commit_tx, st_wrap. rewrite Ht2. destruct (db_Commit t d2) as [d3 r3] eqn:EC.
  destruct (commit_law _ _ _ _ _ Hv2 EC) as [_ Hc3].
  pose proof (Hend c2 d3 Ht2) as Hd3.
  destruct r3 as [[]|[]]; intros [= <- <- <-]; split; try done; cbn [end_tx snd] in Hd3; rewrite Hd3.
  1: { exists calls. split_and!; [done|congruence|done]. }
  all: destruct Hc3 as [->| ->]; [left; congruence|right; split; [|by eauto]].
  all: eexists t, d2, d3, _; split; [exact EC|]; eauto.
Qed.

(** C8. Writing a batch in a transaction is all or nothing, for each of the relational
    sinks and a batch whose statements do not end a transaction by themselves (DDL does, in
    MySQL and Oracle): when [Write] returns nil, the committed content is the old one
    changed by the statements of the events, every one of them, in their order, and the
    reported position is that of the last event; when it returns an error the content is
    unchanged, unless the error is that of the commit, whose outcome a client cannot know:
    then it is unchanged or changed by all of them. *)
Theorem sql_write_atomic s cfg events c d c' d' r :
  sk_UseTransaction cfg = true → Forall (safe_event s cfg) events →
  SQL_Write s cfg events (c, d) = ((c', d'), r) →
  (is_ok (db_Begin d).2 = true → sc_tx c' = None) ∧
  match r with
  | Ok _ => ∃ calls, mapM (event_call s cfg) events = Ok calls ∧
                     run_calls calls (content d) = Some (content d') ∧
                     sc_position c' = position_after events (sc_position c)
  | Err _ => content d' = content d ∨
             commit_failed r ∧
             ∃ calls, mapM (event_call s cfg) events = Ok calls ∧
                      run_calls calls (content d) = Some (content d')
  end.
Proof. apply SQL_Write_tx. Qed.

Lemma mapM_result_elem {A B} (f : A → result B) l k a :
  mapM f l = Ok k → a ∈ l → ∃ b, f a = Ok b.
Proof.
  revert k. induction l as [|x l IH]; intros k H Ha; [by apply elem_of_nil in Ha|].
  cbn in H. destruct (f x) as [b|] eqn:Ef; cbn in H; [|done].
  destruct (mapM f l) as [k'|] eqn:El; cbn in H; [|done].
  apply elem_of_cons in Ha as [->|Ha]; eauto.
Qed.

(** When a batch holds an event no statement can be built for (an update without a
    key, say), [Write] fails and nothing of the batch is committed; but the position it
    reports is that of the events before the failed one, which are not committed either,
    and MySQL and PostgreSQL leave the transaction open with no way to end it, where
    Oracle and SQL Server roll it back. *)
Theorem failed_write_leaks s cfg events e err c d d1 t c' d' r :
  sk_UseTransaction cfg = true → Forall (safe_event s cfg) events →
  e ∈ events → event_call s cfg e = Err err → db_Begin d = (d1, Ok t) →
  SQL_Write s cfg events (c, d) = ((c', d'), r) →
  is_ok r = false ∧ content d' = content d ∧ sc_tx c' = None ∧
  (if rolls_back s then view d' t = None else is_Some (view d' t)) ∧
  ∃ before e' after, events = before ++ e' :: after ∧ sc_position c' = position_after before (sc_position c).
Proof.
  intros Htx Hs He Herr EB. destruct (begin_law _ _ _ EB) as [Hc1 Hv1].
  unfold SQL_Write. rewrite Htx, EB. unfold mbind at 1, ST_bind at 1.
  destruct (write_loop s cfg events _) as [[c2 d2] r2] eqn:EW.
  destruct (write_loop_tx s cfg events (with_tx (Some t) (with_state StateWriting c)) d1 c2 d2 r2 t (content d)
    Hs eq_refl Hv1 EW) as (Hc2 & Ht2 & Hr2).
  destruct r2 as [u|err'].
  { destruct Hr2 as (calls & x' & Hm & _). apply (mapM_result_elem _ _ _ e) in Hm as [b Hb]; [|done]. congruence. }
  destruct Hr2 as (Hopen & before & e' & after & Hev & Hp).
  intros [= <- <- <-]. cbn. rewrite Ht2.
  split_and!; [done| |done| |by exists before, e', after].
  - destruct (rolls_back s); [rewrite (proj1 (rollback_law d2 t))|]; congruence.
  - destruct (rolls_back s); [apply rollback_law|done].
Qed.

(** The COPY path of PostgreSQL calls the insert that called it: with [UseCopy], the
    default, an insert of more than ten columns never becomes a statement, however deep
    the stack. *)
Theorem pg_copy_recursion stack cfg e :
  sk_UseCopy cfg = true → (10 < length (column_names (ev_After e)))%nat →
  pg_insert stack cfg e = Err (Panic "stack overflow").
Proof.
  intros Hcopy Hlen. induction stack as [|stack IH]; [done|]. cbn.
  destruct (column_names (ev_After e)) as [|c cs] eqn:E; [cbn in Hlen; lia|].
  rewrite Hcopy. replace (10 <? zlen (c :: cs)) with true; [done|].
  symmetry. apply Z.ltb_lt. unfold zlen. lia.
Qed.
End Atomic.

(** ** The sink mirrors the source *)

(** A row of a table by its columns; a table by the values of its key. *)
Notation row := (gmap string value).
Definition table_rows : Type := list value → option row.

Definition key_of (keys : list string) (r : row) : option (list value) := mapM (r !!.) keys.

(** *** The statements of MySQL *)

(** The statements on one table that write rows, with a placeholder for every value:
    INSERT, REPLACE, INSERT ... ON DUPLICATE KEY UPDATE of the columns with their new
    values, UPDATE and DELETE by columns that are equal to values. *)
Inductive mysql_stmt :=
  | MInsert (cols : list string)
  | MReplace (cols : list string)
  | MUpsert (cols : list string)
  | MUpdate (sets wh : list string)
  | MDelete (wh : list string).

(** Their texts by the grammar of MySQL's manual; in a quoted identifier a backquote is
    written twice. *)
Fixpoint double_bq (s : string) : string :=
  match s with
  | EmptyString => EmptyString
  | String a s => if bool_decide (a = "`"%char) then String a (String a (double_bq s)) else String a (double_bq s)
  end.
Definition mysql_name (s : string) : string := "`" +:+ double_bq s +:+ "`".

Definition values_text (db tbl : string) (cols : list string) : string :=
  "INTO " +:+ mysql_name db +:+ "." +:+ mysql_name tbl +:+ " (" +:+ join ", " (mysql_name <$> cols) +:+ ") VALUES (" +:+
  join ", " (replicate (length cols) "?") +:+ ")".
Definition equals_text (sep : string) (cols : list string) : string := join sep ((λ c, mysql_name c +:+ " = ?") <$> cols).

Definition stmt_text (db tbl : string) (st : mysql_stmt) : string :=
  match st with
  | MInsert cols => "INSERT " +:+ values_text db tbl cols
  | MReplace cols => "REPLACE " +:+ values_text db tbl cols
  | MUpsert cols => "INSERT " +:+ values_text db tbl cols +:+ " ON DUPLICATE KEY UPDATE " +:+
      join ", " ((λ c, mysql_name c +:+ " = VALUES(" +:+ mysql_name c +:+ ")") <$> cols)
  | MUpdate sets wh => "UPDATE " +:+ mysql_name db +:+ "." +:+ mysql_name tbl +:+ " SET " +:+ equals_text ", " sets +:+
      " WHERE " +:+ equals_text " AND " wh
  | MDelete wh => "DELETE FROM " +:+ mysql_name db +:+ "." +:+ mysql_name tbl +:+ " WHERE " +:+ equals_text " AND " wh
  end.

(** The columns the placeholders stand for, in the order of the text. *)
Definition stmt_params (st : mysql_stmt) : list string :=
  match st with
  | MInsert cols | MReplace cols | MUpsert cols => cols
  | MUpdate sets wh => sets ++ wh
  | MDelete wh => wh
  end.

(** Their effect on the rows of a table whose only unique key is [keys], [None] when MySQL
    rejects the statement: a row that is inserted or moved onto another one is a duplicate. *)
Definition put_row (k : list value) (r : row) (T : table_rows) : table_rows := λ k', if decide (k' = k) then Some r else T k'.
Definition drop_row (k : list value) (T : table_rows) : table_rows := λ k', if decide (k' = k) then None else T k'.

Definition change_row (keys : list string) (k : list value) (new : row) (T : table_rows) : option table_rows :=
  k' ← key_of keys new;
  if bool_decide (k' ≠ k ∧ is_Some (T k')) then None else Some (put_row k' new (drop_row k T)).

Definition mysql_effect (keys : list string) (st : mysql_stmt) (args : list value) (T : table_rows) : option table_rows :=
  match st with
  | MInsert cols =>
      let r := list_to_map (zip cols args) in
      k ← key_of keys r;
      match T k with Some _ => None | None => Some (put_row k r T) end
  | MReplace cols =>
      let r := list_to_map (zip cols args) in
      k ← key_of keys r; Some (put_row k r T)
  | MUpsert cols =>
      let r := list_to_map (zip cols args) in
      k ← key_of keys r;
      match T k with Some old => change_row keys k (r ∪ old) T | None => Some (put_row k r T) end
  | MUpdate sets wh =>
      let k := drop (length sets) args in
      match T k with
      | Some old => change_row keys k (list_to_map (zip sets args) ∪ old) T
      | None => Some T
      end
  | MDelete wh => Some (drop_row args T)
  end.

(** The statements with all the columns of the table, in any order, and the key of one row. *)
Definition stmt_on (keys : list string) (columns : gset string) (st : mysql_stmt) : Prop :=
  match st with
  | MInsert cols | MReplace cols | MUpsert cols => cols ≡ₚ elements columns
  | MUpdate sets wh => sets ≡ₚ elements columns ∧ wh = keys
  | MDelete wh => wh = keys
  end.

(** What the manual promises for the table [db].[tbl] with the columns [columns] whose only
    unique key is [keys]: a statement that is executed had arguments that fit the columns,
    and has its effect; it is executed when the arguments fit and it is not rejected; none
    of them ends a transaction. *)
Class MySQLTable (D X : Type) `{!SQLConn D} `{!SQLLaws D X} (db tbl : string) (keys : list string)
    (columns : gset string) := {
  rows : X → table_rows;
  fits : string → value → Prop;
  exec_law st args x x' : stmt_on keys columns st → length args = length (stmt_params st) →
    sem (stmt_text db tbl st) args x = Some x' →
    Forall2 fits (stmt_params st) args ∧
    ∃ T, mysql_effect keys st args (rows x) = Some T ∧ ∀ k, rows x' k = T k;
  accept_law st args x : stmt_on keys columns st → Forall2 fits (stmt_params st) args →
    is_Some (mysql_effect keys st args (rows x)) → is_Some (sem (stmt_text db tbl st) args x);
  safe_law st : stmt_on keys columns st → tx_safe (stmt_text db tbl st)
}.

(** *** The changes of a table *)

(** A change of the source, with full rows. *)
Inductive change := CInsert (r : row) | CUpdate (k : list value) (r : row) | CDelete (k : list value).

Definition apply_change (keys : list string) (ch : change) (T : table_rows) : table_rows := λ k',
  match ch with
  | CInsert r => if decide (key_of keys r = Some k') then Some r else T k'
  | CUpdate k r =>
      match T k with
      | None => T k'
      | Some _ => if decide (key_of keys r = Some k') then Some r else if decide (k' = k) then None else T k'
      end
  | CDelete k => if decide (k' = k) then None else T k'
  end.

Definition apply_changes (keys : list string) (chs : list change) (T : table_rows) : table_rows :=
  foldl (λ T ch, apply_change keys ch T) T chs.

(** The values of a row image. *)
Definition row_values (r : RowData) : row := f_Value <$> default ∅ (rd_Fields r).

Definition change_of (keys : list string) (e : ChangeEvent) : option change :=
  match ev_Type e with
  | EventTypeInsert => Some (CInsert (row_values (ev_After e)))
  | EventTypeUpdate => k ← key_of keys (row_values (ev_Before e)); Some (CUpdate k (row_values (ev_After e)))
  | EventTypeDelete => k ← key_of keys (row_values (ev_Before e)); Some (CDelete k)
  | _ => None
  end.

(** An event of the table with complete row images: [columns] are the columns of the
    table, the key among them. *)
Record good_event (db tbl : string) (keys : list string) (columns : gset string) (e : ChangeEvent) : Prop := {
  good_data : IsDataEvent e = true;
  good_db : ti_Database (ev_Table e) = db;
  good_table : ti_Table (ev_Table e) = tbl;
  good_keys : GetKeyColumns (ev_Table e) = keys;
  good_after : ev_Type e ≠ EventTypeDelete → dom (row_values (ev_After e)) = columns;
  good_before : ev_Type e ≠ EventTypeInsert → dom (row_values (ev_Before e)) = columns
}.

#[export] Instance apply_change_proper keys ch :
  Proper (pointwise_relation _ eq ==> pointwise_relation _ eq) (apply_change keys ch).
Proof. intros T T' HT k. unfold apply_change. destruct ch; rewrite ?HT; done. Qed.

#[export] Instance apply_changes_proper keys chs :
  Proper (pointwise_relation _ eq ==> pointwise_relation _ eq) (apply_changes keys chs).
Proof.
  unfold apply_changes. induction chs as [|ch chs IH]; intros T T' HT; cbn; [done|].
  apply IH. by rewrite HT.
Qed.

Section Rows.
Context `{!GoRange string Field}.

Lemma column_names_NoDup r : NoDup (column_names r).
Proof. apply go_range_NoDup. Qed.

Lemma elem_of_column_names r c : c ∈ column_names r ↔ c ∈ dom (row_values r).
Proof.
  unfold column_names, row_values. rewrite go_range_perm, dom_fmap_L. rewrite elem_of_dom.
  rewrite list_elem_of_fmap. split.
  - intros ([c' f] & -> & H). apply elem_of_map_to_list in H. eauto.
  - intros [f H]. exists (c, f). split; [done|]. by apply elem_of_map_to_list.
Qed.

Lemma column_names_perm r columns : dom (row_values r) = columns → column_names r ≡ₚ elements columns.
Proof.
  intros Hd. apply NoDup_Permutation; [apply column_names_NoDup|apply NoDup_elements|].
  intros c. by rewrite elem_of_column_names, Hd, elem_of_elements.
Qed.

Lemma row_values_lookup r c : row_values r !! c = f_Value <$> RowData_GetField (Some r) c.
Proof.
  unfold row_values, RowData_GetField, rd_lookup. rewrite lookup_fmap.
  destruct r as [[m|]]; [reflexivity|]. change (f_Value <$> (∅ : gmap string Field) !! c = None). by rewrite lookup_empty.
Qed.

Lemma row_args_length r cols : length (row_args r cols) = length cols.
Proof. apply length_fmap. Qed.

Lemma zip_with_values {A} (f : string → A) l : zip l (f <$> l) = (λ c, (c, f c)) <$> l.
Proof. induction l as [|x l IH]; [done|]. cbn. by rewrite IH. Qed.

(** The columns and arguments of a statement are the row they come from. *)
Lemma row_args_row r : list_to_map (zip (column_names r) (row_args r (column_names r))) = row_values r.
Proof.
  unfold row_args. rewrite zip_with_values. apply map_eq. intros c. apply option_eq. intros v.
  rewrite <- elem_of_list_to_map.
  2: { rewrite <- list_fmap_compose. rewrite (list_fmap_ext _ id) by done. rewrite list_fmap_id. apply column_names_NoDup. }
  rewrite list_elem_of_fmap. split.
  - intros (c' & [= -> ->] & Hc). apply elem_of_column_names in Hc. apply elem_of_dom in Hc as [v' Hv].
    rewrite Hv. f_equal. unfold field_value. rewrite row_values_lookup in Hv.
    destruct (RowData_GetField (Some r) c'); by simplify_eq/=.
  - intros Hv. exists c. split; [|apply elem_of_column_names, elem_of_dom; eauto].
    f_equal. unfold field_value. rewrite row_values_lookup in Hv.
    destruct (RowData_GetField (Some r) c); by simplify_eq/=.
Qed.

Lemma key_args_key_of before keys :
  key_of keys (row_values before) = ok_or_none (key_args before keys).
Proof.
  unfold key_of. induction keys as [|k keys IH]; [done|]. cbn [mapM key_args].
  rewrite row_values_lookup. destruct (RowData_GetField (Some before) k) as [f|]; [|done].
  change (mapM (row_values before !!.) keys ≫= (λ vs, Some (f_Value f :: vs)) =
          ok_or_none (vs ← key_args before keys; Ok (f_Value f :: vs))).
  rewrite IH. by destruct (key_args before keys).
Qed.

Lemma key_args_length before keys vs : key_args before keys = Ok vs → length vs = length keys.
Proof.
  revert vs. induction keys as [|k keys IH]; cbn [key_args]; intros vs; [by intros [= <-]|].
  destruct (RowData_GetField (Some before) k); [|done].
  destruct (key_args before keys) as [vs'|]; cbn; [|done]. intros [= <-]. cbn. by rewrite (IH vs').
Qed.

Lemma build_update_eq sx table e keys vs :
  column_names (ev_After e) ≠ [] → GetKeyColumns (ev_Table e) = keys → keys ≠ [] → key_args (ev_Before e) keys = Ok vs →
  build_update sx table e = Ok (Some (update_query sx table (column_names (ev_After e)) keys,
                                      row_args (ev_After e) (column_names (ev_After e)) ++ vs)).
Proof.
  unfold build_update. intros Hc <- Hk Hvs.
  destruct (column_names (ev_After e)); [done|]. destruct (GetKeyColumns (ev_Table e)); [done|]. by rewrite Hvs.
Qed.

Lemma build_delete_eq sx table e keys vs :
  GetKeyColumns (ev_Table e) = keys → keys ≠ [] → key_args (ev_Before e) keys = Ok vs →
  build_delete sx table e = Ok (Some (delete_query sx table keys, vs)).
Proof. unfold build_delete. intros <- Hk Hvs. destruct (GetKeyColumns (ev_Table e)); [done|]. by rewrite Hvs. Qed.
End Rows.

Lemma union_same_dom (a b : row) : dom a = dom b → a ∪ b = a.
Proof.
  intros Hd. apply map_eq. intros k. rewrite lookup_union.
  destruct (a !! k) eqn:Ea, (b !! k) eqn:Eb; try done.
  exfalso. apply not_elem_of_dom in Ea. apply elem_of_dom_2 in Eb. congruence.
Qed.

Lemma key_of_total keys (r : row) : list_to_set keys ⊆ dom r → is_Some (key_of keys r).
Proof.
  intros H. apply mapM_is_Some, Forall_forall. intros k Hk.
  apply elem_of_dom, H. by apply elem_of_list_to_set.
Qed.

(** *** The texts of the code *)

(** Names without a backquote. *)
Definition clean (s : string) : Prop := double_bq s = s.

Lemma clean_name s : clean s → mysql_name s = quote_with bq bq s.
Proof. intros H. unfold mysql_name, quote_with. by rewrite H. Qed.

Lemma clean_names l : Forall clean l → mysql_name <$> l = quote_with bq bq <$> l.
Proof. induction 1 as [|s l Hs _ IH]; [done|]. cbn. by rewrite clean_name, IH. Qed.

Lemma placeholders_marks i cols : placeholders mysql_syntax i cols = replicate (length cols) "?".
Proof. revert i. induction cols as [|c cols IH]; intros i; [done|]. cbn. by rewrite IH. Qed.

Lemma equalities_marks i cols : Forall clean cols → equalities mysql_syntax i cols = (λ c, mysql_name c +:+ " = ?") <$> cols.
Proof.
  intros H. revert i. induction H as [|c cols Hc _ IH]; intros i; [done|]. cbn [equalities fmap list_fmap].
  rewrite IH, clean_name by done. done.
Qed.

(** The columns of an insert are joined inside the quotes. *)
Lemma join_quoted cols : cols ≠ [] → "`" +:+ join "`, `" cols +:+ "`" = join ", " (quote_with bq bq <$> cols).
Proof.
  induction cols as [|c [|c' cols] IH]; [done|done|]. intros _.
  change (join "`, `" (c :: c' :: cols)) with (c +:+ "`, `" +:+ join "`, `" (c' :: cols)).
  change (join ", " (quote_with bq bq <$> c :: c' :: cols)) with (quote_with bq bq c +:+ ", " +:+ join ", " (quote_with bq bq <$> c' :: cols)).
  rewrite <- IH by done. unfold quote_with, bq. rewrite !string_app_assoc. done.
Qed.

Section Texts.
Context (db tbl : string) (Hdb : clean db) (Htbl : clean tbl).
Let table : string := quote_with bq bq db +:+ "." +:+ quote_with bq bq tbl.

Lemma insert_text strategy cols : cols ≠ [] → Forall clean cols →
  mysql_insert_query strategy table cols =
  stmt_text db tbl (if bool_decide (strategy = "replace") then MReplace cols
                    else if bool_decide (strategy = "upsert") then MUpsert cols else MInsert cols).
Proof.
  intros Hne Hc. unfold mysql_insert_query, table. rewrite placeholders_marks.
  assert (E : ∀ a b, a +:+ " (`" +:+ join "`, `" cols +:+ "`) VALUES (" +:+ b = a +:+ " (" +:+ join ", " (mysql_name <$> cols) +:+ ") VALUES (" +:+ b).
  { intros a b. rewrite clean_names, <- join_quoted by done. by rewrite !string_app_assoc. }
  rewrite E, <- !clean_name by done.
  assert (Ev : (λ col, quote_with bq bq col +:+ " = VALUES(" +:+ quote_with bq bq col +:+ ")") <$> cols =
               (λ c, mysql_name c +:+ " = VALUES(" +:+ mysql_name c +:+ ")") <$> cols).
  { clear -Hc. induction Hc as [|c cols Hc _ IH]; [done|]. cbn. by rewrite IH, clean_name. }
  rewrite Ev. case_bool_decide; [|case_bool_decide]; cbn [stmt_text]; unfold values_text; by rewrite !string_app_assoc.
Qed.

Lemma update_text sets wh : Forall clean sets → Forall clean wh →
  update_query mysql_syntax table sets wh = stmt_text db tbl (MUpdate sets wh).
Proof. intros Hs Hw. unfold update_query, table. rewrite !equalities_marks, <- !clean_name by done. cbn [stmt_text]. unfold equals_text. by rewrite !string_app_assoc. Qed.

Lemma delete_text wh : Forall clean wh → delete_query mysql_syntax table wh = stmt_text db tbl (MDelete wh).
Proof. intros Hw. unfold delete_query, table. rewrite equalities_marks, <- !clean_name by done. cbn [stmt_text]. unfold equals_text. by rewrite !string_app_assoc. Qed.
End Texts.

Lemma zip_app_drop {A B} (l : list A) (k k' : list B) : length l = length k → zip l (k ++ k') = zip l k ∧ drop (length l) (k ++ k') = k'.
Proof. revert k. induction l as [|a l IH]; intros [|b k] H; try done. cbn. injection H as H. destruct (IH k H) as [-> ->]. done. Qed.

Section Mirror.
Context {D X : Type} `{!SQLConn D} `{!SQLLaws D X} `{!GoRange string Field}.
Context (db tbl : string) (keys : list string) (columns : gset string) `{!MySQLTable D X db tbl keys columns}.
Context (Hkeys : keys ≠ []) (Hcols : list_to_set keys ⊆ columns).
Context (Hdb : clean db) (Htbl : clean tbl) (Hclean : set_Forall clean columns).
Context (cfg : SinkConfig).

(** The rows of the table have all its columns. *)
Definition full (T : table_rows) : Prop := ∀ k r, T k = Some r → dom r = columns.

Definition full_change (ch : change) : Prop :=
  match ch with CInsert r | CUpdate _ r => dom r = columns | CDelete _ => True end.

Lemma apply_change_full ch T : full_change ch → full T → full (apply_change keys ch T).
Proof.
  clear Hkeys Hcols. intros Hch HT k r. unfold apply_change.
  destruct ch as [r'|k' r'|k']; cbn in Hch; repeat case_match; intros; simplify_eq; eauto.
Qed.

Lemma columns_nonempty r : dom (row_values r) = columns → column_names r ≠ [].
Proof.
  intros Hd Hnil. destruct keys as [|k ks]; [done|].
  assert (k ∈ column_names r) as Hk by (apply elem_of_column_names; rewrite Hd; set_solver).
  rewrite Hnil in Hk. by apply elem_of_nil in Hk.
Qed.

Lemma key_args_good r : dom (row_values r) = columns →
  ∃ vs, key_args r keys = Ok vs ∧ key_of keys (row_values r) = Some vs.
Proof.
  intros Hd. destruct (key_of_total keys (row_values r)) as [vs Hvs]; [by rewrite Hd|].
  exists vs. split; [|done]. rewrite key_args_key_of in Hvs. by destruct (key_args r keys); simplify_eq/=.
Qed.

Lemma clean_columns r : dom (row_values r) = columns → Forall clean (column_names r).
Proof. intros Hd. apply Forall_forall. intros c Hc. apply Hclean. by rewrite <- Hd, <- elem_of_column_names. Qed.
Lemma clean_keys : Forall clean keys.
Proof. apply Forall_forall. intros k Hk. apply Hclean, Hcols. by apply elem_of_list_to_set. Qed.

(** The statement an event of the table becomes, and its arguments. *)
Definition insert_stmt (cols : list string) : mysql_stmt :=
  if bool_decide (sk_InsertStrategy cfg = "replace") then MReplace cols
  else if bool_decide (sk_InsertStrategy cfg = "upsert") then MUpsert cols else MInsert cols.

Definition stmt_of (e : ChangeEvent) : mysql_stmt :=
  match ev_Type e with
  | EventTypeInsert => insert_stmt (column_names (ev_After e))
  | EventTypeUpdate => MUpdate (column_names (ev_After e)) keys
  | _ => MDelete keys
  end.

Lemma good_event_call e :
  good_event db tbl keys columns e →
  ∃ args, event_call SinkMySQL cfg e = Ok (Some (stmt_text db tbl (stmt_of e), args)) ∧
    stmt_on keys columns (stmt_of e) ∧ length args = length (stmt_params (stmt_of e)) ∧
    match ev_Type e with
    | EventTypeInsert => args = row_args (ev_After e) (column_names (ev_After e))
    | EventTypeUpdate => ∃ k, key_of keys (row_values (ev_Before e)) = Some k ∧ length k = length keys ∧
                         args = row_args (ev_After e) (column_names (ev_After e)) ++ k
    | _ => key_of keys (row_values (ev_Before e)) = Some args
    end.
Proof.
  intros [Hdata Hd Ht Hk Hafter Hbefore]. unfold event_call, event_plan, build, stmt_of, mysql_insert, mysql_update, mysql_delete. rewrite Hdata.
  unfold IsDDL, IsDataEvent in *. destruct (ev_Type e) eqn:Etype; try done; cbn [snd insert_call update_call delete_call].
  - specialize (Hafter ltac:(done)). unfold mysql_insert, mysql_table. rewrite Hd, Ht.
    pose proof (columns_nonempty _ Hafter) as Hne. pose proof (clean_columns _ Hafter) as Hc.
    pose proof (column_names_perm _ _ Hafter) as Hp. set (cols := column_names (ev_After e)) in *.
    exists (row_args (ev_After e) cols). split_and!; [|unfold insert_stmt; by repeat case_bool_decide| |done].
    + destruct cols as [|c cs] eqn:Ecols; [done|]. rewrite <- Ecols in *. by rewrite insert_text.
    + rewrite row_args_length. unfold insert_stmt. by repeat case_bool_decide.
  - specialize (Hafter ltac:(done)). specialize (Hbefore ltac:(done)). destruct (key_args_good _ Hbefore) as (vs & Hvs & Hkey).
    unfold mysql_update. rewrite (build_update_eq _ _ e keys vs) by auto using columns_nonempty. unfold mysql_table. rewrite Hd, Ht.
    rewrite update_text by auto using clean_columns, clean_keys. eexists. split; [done|]. cbn.
    rewrite !length_app, row_args_length, (key_args_length _ _ _ Hvs). split_and!; [by apply column_names_perm|done|done|].
    exists vs. eauto using key_args_length.
  - specialize (Hbefore ltac:(done)). destruct (key_args_good _ Hbefore) as (vs & Hvs & Hkey).
    unfold mysql_delete. rewrite (build_delete_eq _ _ e keys vs) by done. unfold mysql_table. rewrite Hd, Ht.
    rewrite delete_text by auto using clean_keys. exists vs. cbn. eauto using key_args_length.
Qed.

Lemma good_events_safe events : Forall (good_event db tbl keys columns) events → Forall (safe_event SinkMySQL cfg) events.
Proof.
  intros H. eapply Forall_impl; [exact H|]. intros e He call Hcall. destruct (good_event_call e He) as (args & Hc & Hon & _).
  rewrite Hcall in Hc. injection Hc as ->. by apply safe_law.
Qed.

(** The effect of the statement of an event is its change. *)
Lemma change_row_put k new T T' : change_row keys k new T = Some T' →
  ∃ k', key_of keys new = Some k' ∧ ∀ k0, T' k0 = if decide (Some k' = Some k0) then Some new else if decide (k0 = k) then None else T k0.
Proof.
  unfold change_row. destruct (key_of keys new) as [k'|]; [|done]. cbn. case_bool_decide; [done|]. intros [= <-].
  exists k'. split; [done|]. intros k0. unfold put_row, drop_row. destruct (decide (k0 = k')) as [->|]; [by rewrite decide_True|].
  by rewrite (decide_False (P := Some k' = Some k0)) by congruence.
Qed.

Lemma effect_change e args T T' :
  good_event db tbl keys columns e → event_call SinkMySQL cfg e = Ok (Some (stmt_text db tbl (stmt_of e), args)) → full T →
  mysql_effect keys (stmt_of e) args T = Some T' →
  ∃ ch, change_of keys e = Some ch ∧ full_change ch ∧ pointwise_relation _ eq T' (apply_change keys ch T).
Proof.
  intros He Hcall Hfull. destruct (good_event_call e He) as (args' & Hc & _ & _ & Hargs).
  assert (args' = args) as -> by congruence. clear Hc Hcall. destruct He as [Hdata _ _ _ Hafter Hbefore].
  unfold change_of, stmt_of, IsDataEvent in *. destruct (ev_Type e) eqn:Etype; try done.
  - subst args. specialize (Hafter ltac:(done)). destruct (key_of_total keys (row_values (ev_After e))) as [k Hkey]; [by rewrite Hafter|].
    intros Heff. eexists. split_and!; [done..|].
    assert (Hput : ∀ k', T' k' = if decide (Some k = Some k') then Some (row_values (ev_After e)) else T k').
    { assert (Hp : ∀ k', put_row k (row_values (ev_After e)) T k' = if decide (Some k = Some k') then Some (row_values (ev_After e)) else T k').
      { intros k'. unfold put_row. destruct (decide (k' = k)) as [->|]; [by rewrite decide_True|by rewrite decide_False by congruence]. }
      unfold insert_stmt in Heff. case_bool_decide; [|case_bool_decide]; cbn [mysql_effect] in Heff; rewrite row_args_row in Heff; rewrite Hkey in Heff; cbn in Heff.
      - by injection Heff as <-.
      - destruct (T k) as [old|] eqn:Eold; [|by injection Heff as <-]. intros k'.
        rewrite union_same_dom in Heff by (by rewrite Hafter, (Hfull _ _ Eold)).
        apply change_row_put in Heff as (k1 & Hk1 & HT). rewrite Hkey in Hk1. injection Hk1 as <-. rewrite HT.
        destruct (decide (Some k = Some k')); [done|]. by rewrite decide_False by congruence.
      - destruct (T k); [done|]. by injection Heff as <-. }
    intros k'. unfold apply_change. rewrite Hkey. apply Hput.
  - specialize (Hafter ltac:(done)). destruct Hargs as (k & Hkey & Hlen & ->). rewrite Hkey.
    cbn [mysql_effect]. destruct (zip_app_drop (column_names (ev_After e)) (row_args (ev_After e) (column_names (ev_After e))) k) as [-> ->];
      [by rewrite row_args_length|]. rewrite row_args_row.
    intros Heff. eexists. split_and!; [done..|]. intros k'. unfold apply_change.
    destruct (T k) as [old|] eqn:Eold; [|by injection Heff as <-].
    rewrite union_same_dom in Heff by (by rewrite Hafter, (Hfull _ _ Eold)).
    apply change_row_put in Heff as (k1 & -> & HT). by rewrite HT.
  - rewrite Hargs. cbn [mysql_effect]. intros [= <-]. eexists. by split_and!.
Qed.

Lemma mirror_event e call x x' :
  good_event db tbl keys columns e → full (rows x) →
  event_call SinkMySQL cfg e = Ok call → run_call call x = Some x' →
  ∃ ch, change_of keys e = Some ch ∧ full_change ch ∧
        pointwise_relation _ eq (rows x') (apply_change keys ch (rows x)).
Proof.
  intros He Hfull Hcall Hrun. destruct (good_event_call e He) as (args & Hc & Hon & Hlen & _).
  rewrite Hcall in Hc. injection Hc as ->. cbn in Hrun.
  destruct (exec_law _ _ _ _ Hon Hlen Hrun) as (_ & T & Heff & HT).
  destruct (effect_change e args (rows x) T He Hcall Hfull Heff) as (ch & ? & ? & Hch).
  exists ch. split_and!; [done..|]. intros k. by rewrite HT, Hch.
Qed.

Lemma mirror_calls events calls x x' :
  Forall (good_event db tbl keys columns) events → full (rows x) →
  mapM (event_call SinkMySQL cfg) events = Ok calls → run_calls calls x = Some x' →
  ∃ chs, mapM (change_of keys) events = Some chs ∧ full (rows x') ∧
         pointwise_relation _ eq (rows x') (apply_changes keys chs (rows x)).
Proof.
  intros Hg. revert calls x. induction Hg as [|e events He _ IH]; intros calls x Hfull Hm Hrun.
  { cbn in Hm, Hrun. injection Hm as <-. cbn in Hrun. injection Hrun as <-. exists []. by split_and!. }
  cbn in Hm. destruct (event_call SinkMySQL cfg e) as [call|] eqn:Ecall; cbn in Hm; [|done].
  destruct (mapM (event_call SinkMySQL cfg) events) as [calls'|] eqn:Ecalls; cbn in Hm; [|done].
  injection Hm as <-. cbn [run_calls] in Hrun. destruct (run_call call x) as [x1|] eqn:E1; cbn in Hrun; [|done].
  destruct (mirror_event e call x x1 He Hfull Ecall E1) as (ch & Hch & Hfch & Hrows).
  assert (full (rows x1)) as Hfull1.
  { intros k r. rewrite (Hrows k). by apply apply_change_full. }
  destruct (IH calls' x1 Hfull1 eq_refl Hrun) as (chs & Hchs & Hfull' & Hrows').
  exists (ch :: chs). split_and!; [cbn; rewrite Hch; cbn; by rewrite Hchs|done|].
  intros k. rewrite (Hrows' k). cbn. by apply apply_changes_proper.
Qed.

Lemma write_mirrors events c d c' d' :
  sk_UseTransaction cfg = true → Forall (good_event db tbl keys columns) events → full (rows (content d)) →
  SQL_Write SinkMySQL cfg events (c, d) = ((c', d'), Ok tt) →
  ∃ calls chs, mapM (event_call SinkMySQL cfg) events = Ok calls ∧ run_calls calls (content d) = Some (content d') ∧
         mapM (change_of keys) events = Some chs ∧ full (rows (content d')) ∧
         pointwise_relation _ eq (rows (content d')) (apply_changes keys chs (rows (content d))).
Proof.
  intros Htx Hg Hfull Hw.
  destruct (SQL_Write_tx _ _ _ _ _ _ _ _ Htx (good_events_safe _ Hg) Hw) as (_ & calls & Hm & Hrun & _).
  destruct (mirror_calls events calls (content d) (content d') Hg Hfull Hm Hrun) as (chs & ? & ? & ?). by exists calls, chs.
Qed.

(** C6. The MySQL sink mirrors its source: a batch of inserts, updates and deletes with
    complete row images, once written in a transaction, leaves in the target table exactly
    the rows that applying the changes in order leaves, for every insert strategy and
    whatever order the columns are listed in; an update may move a row to another key.  The
    table has the columns of the events and their key as its only unique one, no name has a
    backquote, and MySQL executes the texts of its grammar as its manual says. *)
Theorem mysql_sink_mirrors events c d c' d' :
  sk_UseTransaction cfg = true → Forall (good_event db tbl keys columns) events → full (rows (content d)) →
  SQL_Write SinkMySQL cfg events (c, d) = ((c', d'), Ok tt) →
  ∃ chs, mapM (change_of keys) events = Some chs ∧
         ∀ k, rows (content d') k = apply_changes keys chs (rows (content d)) k.
Proof.
  intros Htx Hg Hfull Hw. destruct (write_mirrors _ _ _ _ _ Htx Hg Hfull Hw) as (calls & chs & _ & _ & ? & _ & Hr). by exists chs.
Qed.

(** *** Replays *)

(** The change does not move its row. *)
Definition keeps_key (ch : change) : Prop :=
  match ch with CUpdate k r => key_of keys r = Some k | _ => True end.

(** What a sequence of such changes can do to the row of one key: fix it, keep it, or
    replace it if it is there. *)
Definition row_effect (F : option row → option row) : Prop :=
  (∃ o, ∀ o', F o' = o) ∨ (∀ o', F o' = o') ∨ (∃ r, ∀ o', F o' = (λ _, r) <$> o').

Lemma apply_changes_row chs k :
  Forall keeps_key chs → ∃ F, row_effect F ∧ ∀ T, apply_changes keys chs T k = F (T k).
Proof.
  induction chs as [|ch chs IH] using rev_ind; intros Hk.
  { exists id. split; [right; by left|done]. }
  apply Forall_app in Hk as [Hk1 Hk2]. rewrite Forall_singleton in Hk2.
  destruct (IH Hk1) as (F & HF & HT).
  assert (∀ G, row_effect (G ∘ F) → (∀ T, apply_change keys ch T k = G (T k)) →
    ∃ F', row_effect F' ∧ ∀ T, apply_changes keys (chs ++ [ch]) T k = F' (T k)) as Hcomp.
  { intros G HG HGT. exists (G ∘ F). split; [done|]. intros T. unfold apply_changes. rewrite foldl_app.
    cbn [foldl]. fold (apply_changes keys chs T). by rewrite HGT, HT. }
  destruct ch as [r|k0 r|k0]; cbn [keeps_key] in Hk2.
  - destruct (decide (key_of keys r = Some k)) as [Hkr|Hkr].
    + apply (Hcomp (λ _, Some r)); [left; by exists (Some r)|]. intros T. unfold apply_change. by rewrite decide_True.
    + apply (Hcomp id); [done|]. intros T. unfold apply_change. by rewrite decide_False.
  - destruct (decide (k = k0)) as [->|Hne].
    + apply (Hcomp (λ o, (λ _, r) <$> o)).
      * unfold compose. destruct HF as [[o Ho]|[Ho|[r' Ho]]].
        -- left. exists ((λ _, r) <$> o). intros o'. by rewrite Ho.
        -- right. right. exists r. intros o'. by rewrite Ho.
        -- right. right. exists r. intros o'. rewrite Ho. by destruct o'.
      * intros T. unfold apply_change. destruct (T k0) eqn:ET; [by rewrite (decide_True _ _ Hk2)|done].
    + apply (Hcomp id); [done|]. intros T. unfold apply_change. destruct (T k0); [|done].
      rewrite !decide_False by congruence. done.
  - destruct (decide (k = k0)) as [->|Hne].
    + apply (Hcomp (λ _, None)); [left; by exists None|]. intros T. unfold apply_change. by rewrite decide_True.
    + apply (Hcomp id); [done|]. intros T. unfold apply_change. by rewrite decide_False.
Qed.

(** A change that keeps its key is not rejected, with arguments that fitted before, unless a
    row is inserted that may be there. *)
Lemma replay_accepted e call x x' y :
  sk_InsertStrategy cfg ∈ ["upsert"; "replace"] →
  good_event db tbl keys columns e → full (rows y) → (∀ ch, change_of keys e = Some ch → keeps_key ch) →
  event_call SinkMySQL cfg e = Ok call → run_call call x = Some x' → is_Some (run_call call y).
Proof.
  intros Hst He Hfull Hkeep Hcall Hrun. destruct (good_event_call e He) as (args & Hc & Hon & Hlen & Hargs).
  rewrite Hcall in Hc. injection Hc as ->. cbn in Hrun |- *. destruct (exec_law _ _ _ _ Hon Hlen Hrun) as [Hfit _].
  apply accept_law; [done..|]. destruct He as [Hdata _ _ _ Hafter Hbefore].
  unfold change_of, stmt_of, IsDataEvent in *. destruct (ev_Type e) eqn:Etype; try done.
  - subst args. specialize (Hafter ltac:(done)). destruct (key_of_total keys (row_values (ev_After e))) as [k Hkey]; [by rewrite Hafter|].
    unfold insert_stmt. rewrite !elem_of_cons, elem_of_nil in Hst. destruct Hst as [->|[->|[]]].
    2: { rewrite (bool_decide_eq_true_2 ("replace" = "replace")) by done. cbn [mysql_effect]. rewrite row_args_row, Hkey. by eexists. }
    rewrite (bool_decide_eq_false_2 ("upsert" = "replace")), (bool_decide_eq_true_2 ("upsert" = "upsert")) by done.
    cbn [mysql_effect]. rewrite row_args_row, Hkey. cbn. destruct (rows y k) as [old|] eqn:Eold; [|by eexists]. rewrite union_same_dom by (by rewrite Hafter, (Hfull _ _ Eold)).
    unfold change_row. rewrite Hkey. cbn. rewrite bool_decide_eq_false_2 by tauto. by eexists.
  - specialize (Hafter ltac:(done)). destruct Hargs as (k & Hkey & Hl & ->). rewrite Hkey in Hkeep. specialize (Hkeep _ eq_refl). cbn in Hkeep.
    cbn [mysql_effect]. destruct (zip_app_drop (column_names (ev_After e)) (row_args (ev_After e) (column_names (ev_After e))) k) as [-> ->];
      [by rewrite row_args_length|]. rewrite row_args_row. destruct (rows y k) as [old|] eqn:Eold; [|by eexists].
    rewrite union_same_dom by (by rewrite Hafter, (Hfull _ _ Eold)). unfold change_row. rewrite Hkeep. cbn.
    rewrite bool_decide_eq_false_2 by tauto. by eexists.
Qed.

Lemma replay_calls_accepted events calls chs x x' y :
  sk_InsertStrategy cfg ∈ ["upsert"; "replace"] → Forall (good_event db tbl keys columns) events → full (rows y) →
  mapM (change_of keys) events = Some chs → Forall keeps_key chs →
  mapM (event_call SinkMySQL cfg) events = Ok calls → run_calls calls x = Some x' → is_Some (run_calls calls y).
Proof.
  intros Hst Hg. revert calls chs x y. induction Hg as [|e events He _ IH]; intros calls chs x y Hfull Hchs Hkeep Hm Hrun.
  { cbn in Hm. injection Hm as <-. by eexists. }
  cbn in Hm. destruct (event_call SinkMySQL cfg e) as [call|] eqn:Ecall; cbn in Hm; [|done].
  destruct (mapM (event_call SinkMySQL cfg) events) as [calls'|] eqn:Ecalls; cbn in Hm; [|done].
  injection Hm as <-. cbn [run_calls] in *. destruct (run_call call x) as [x1|] eqn:E1; cbn in Hrun; [|done].
  cbn in Hchs. destruct (change_of keys e) as [ch|] eqn:Ech; [|done]. cbn in Hchs.
  destruct (mapM (change_of keys) events) as [chs'|]; cbn in Hchs; [|done]. injection Hchs as <-.
  apply Forall_cons in Hkeep as [Hk Hks].
  destruct (replay_accepted e call x x1 y) as [y1 Hy1]; try done; [intros ch' Hch'; congruence|]. rewrite Hy1. cbn.
  destruct (mirror_event e call y y1 He Hfull Ecall Hy1) as (ch' & Hch' & Hfch & Hrows).
  apply (IH calls' chs' x1 y1); try done. intros k r. rewrite (Hrows k). by apply apply_change_full.
Qed.

(** C7. A batch can be written again, and then changes nothing: after a restart the events
    since the last saved position are written once more, and with the upsert or the replace
    strategy, as long as no update moves a row to another key, MySQL accepts every statement
    of the batch again, and the table is left as it was.  The conditions on the table are
    those of its mirror. *)
Theorem mysql_replay_idempotent events chs c d c1 d1 :
  sk_InsertStrategy cfg ∈ ["upsert"; "replace"] →
  sk_UseTransaction cfg = true → Forall (good_event db tbl keys columns) events → full (rows (content d)) →
  mapM (change_of keys) events = Some chs → Forall keeps_key chs →
  SQL_Write SinkMySQL cfg events (c, d) = ((c1, d1), Ok tt) →
  (∃ calls, mapM (event_call SinkMySQL cfg) events = Ok calls ∧ is_Some (run_calls calls (content d1))) ∧
  ∀ c2 d2, SQL_Write SinkMySQL cfg events (c1, d1) = ((c2, d2), Ok tt) → ∀ k, rows (content d2) k = rows (content d1) k.
Proof.
  intros Hst Htx Hg Hfull Hchs Hkeep Hw1.
  destruct (write_mirrors _ _ _ _ _ Htx Hg Hfull Hw1) as (calls & chs1 & Hm & Hrun & H1 & Hfull1 & Hr1).
  assert (chs1 = chs) as -> by congruence.
  split; [exists calls; split; [done|by apply (replay_calls_accepted events calls chs (content d) (content d1))]|].
  intros c2 d2 Hw2 k.
  destruct (write_mirrors _ _ _ _ _ Htx Hg Hfull1 Hw2) as (_ & chs2 & _ & _ & H2 & _ & Hr2).
  simplify_eq. rewrite (Hr2 k), (apply_changes_proper keys chs _ _ Hr1 k), (Hr1 k).
  destruct (apply_changes_row chs k Hkeep) as (F & HF & HT). rewrite !HT.
  destruct HF as [[o Ho]|[Ho|[r Ho]]]; rewrite !Ho; [done..|]. by destruct (rows (content d) k).
Qed.
End Mirror.

(** ** Placeholders and arguments *)

(** How often a byte occurs in a text. *)
Fixpoint count (c : ascii) (s : string) : nat :=
  match s with
  | EmptyString => 0
  | String a s => (if bool_decide (a = c) then 1 else 0) + count c s
  end.

Lemma count_app c a b : count c (a +:+ b) = (count c a + count c b)%nat.
Proof. induction a as [|x a IH]; [done|]. rewrite string_app_cons. cbn [count]. rewrite IH. lia. Qed.

Lemma count_join c sep l : count c sep = 0%nat → count c (join sep l) = sum_list (count c <$> l).
Proof.
  intros Hs. induction l as [|x [|y l] IH]; [done|cbn; lia|].
  change (join sep (x :: y :: l)) with (x +:+ sep +:+ join sep (y :: l)).
  rewrite !count_app, Hs, IH. cbn. lia.
Qed.

Definition mark : ascii := "?".

(** No identifier of the event has a question mark. *)
Definition no_marks (l : list string) : Prop := Forall (λ s, count mark s = 0%nat) l.

(** Counts the marks of the constant texts of a goal. *)
Ltac count_texts :=
  repeat match goal with
  | |- context [count mark ?s] => let v := eval vm_compute in (count mark s) in change (count mark s) with v
  end.

Lemma count_equalities i cols : no_marks cols → sum_list (count mark <$> equalities mysql_syntax i cols) = length cols.
Proof.
  intros H. revert i. induction H as [|c cols Hc _ IH]; intros i; [done|]. cbn [equalities fmap list_fmap sum_list length].
  cbn [ident param mysql_syntax]. unfold quote_with. rewrite !count_app, Hc, IH. count_texts. unfold id. lia.
Qed.

Lemma count_placeholders i cols : sum_list (count mark <$> placeholders mysql_syntax i cols) = length cols.
Proof. revert i. induction cols as [|c cols IH]; intros i; [done|]. cbn. by rewrite IH. Qed.

Lemma count_clean l : no_marks l → sum_list (count mark <$> l) = 0%nat.
Proof. induction 1 as [|s l Hs _ IH]; [done|]. cbn. by rewrite Hs, IH. Qed.

Lemma count_insert_query strategy table cols :
  count mark table = 0%nat → no_marks cols → count mark (mysql_insert_query strategy table cols) = length cols.
Proof.
  intros Ht Hc. unfold mysql_insert_query.
  assert (Hv : ∀ l, no_marks l → no_marks ((λ col, quote_with bq bq col +:+ " = VALUES(" +:+ quote_with bq bq col +:+ ")") <$> l)).
  { intros l Hl. apply Forall_fmap. eapply Forall_impl; [exact Hl|]. intros col H. cbn. unfold quote_with.
    rewrite !count_app, H. done. }
  case_bool_decide; [|case_bool_decide]; rewrite !count_app, ?Ht, ?count_join, ?count_placeholders by done;
    rewrite ?(count_clean _ (Hv cols Hc)), ?(count_clean cols Hc); count_texts; lia.
Qed.

Section Typed.
Context `{!GoRange string Field}.

(** C26. The statements of the MySQL sink are well formed: each has as many placeholders as
    arguments, for every strategy, whatever columns and keys the event has, as long as no
    identifier contains a question mark. *)
Theorem mysql_statements_typed cfg e q args :
  IsDataEvent e = true → event_call SinkMySQL cfg e = Ok (Some (q, args)) →
  count mark (mysql_table e) = 0%nat → no_marks (column_names (ev_After e)) → no_marks (GetKeyColumns (ev_Table e)) →
  count mark q = length args.
Proof.
  intros Hd He Ht Hc Hk. unfold event_call, event_plan in He. rewrite Hd in He.
  destruct (IsDDL e) eqn:EDDL.
  { unfold IsDDL, IsDataEvent in *. apply bool_decide_eq_true_1 in EDDL. by rewrite EDDL in Hd. }
  unfold build in He. destruct (ev_Type e); cbn [snd insert_call update_call delete_call] in He; try done.
  - unfold mysql_insert in He. destruct (column_names (ev_After e)) as [|c cs] eqn:Ec; [done|]. rewrite <- Ec in *.
    injection He as <- <-. by rewrite count_insert_query, row_args_length.
  - unfold mysql_update, build_update in He. destruct (column_names (ev_After e)) as [|c cs] eqn:Ec; [done|]. rewrite <- Ec in *.
    destruct (GetKeyColumns (ev_Table e)) as [|k ks] eqn:Ek; [done|]. rewrite <- Ek in *.
    destruct (key_args (ev_Before e) (GetKeyColumns (ev_Table e))) as [vs|] eqn:Ev; [|done].
    injection He as <- <-. unfold update_query. rewrite !count_app, !count_join, !count_equalities, Ht by done.
    rewrite length_app, row_args_length, (key_args_length _ _ _ Ev). count_texts. lia.
  - unfold mysql_delete, build_delete in He. destruct (GetKeyColumns (ev_Table e)) as [|k ks] eqn:Ek; [done|]. rewrite <- Ek in *.
    destruct (key_args (ev_Before e) (GetKeyColumns (ev_Table e))) as [vs|] eqn:Ev; [|done].
    injection He as <- <-. unfold delete_query. rewrite !count_app, !count_join, !count_equalities, Ht by done.
    rewrite (key_args_length _ _ _ Ev). count_texts. lia.
Qed.
End Typed.

(** ** Runs: a database with one table *)

Module SinkRuns.
#[local] Instance fields_range : GoRange string Field := sorted_range string Field.

Definition user_columns : gset string := {["id"; "name"]}.
(** The statements on the table, and the one that a text is of. *)
Definition statements : list mysql_stmt :=
  ([["id"; "name"]; ["name"; "id"]] ≫= λ cols, [MInsert cols; MReplace cols; MUpsert cols; MUpdate cols ["id"]]) ++ [MDelete ["id"]].
Definition read_stmt (q : string) : option mysql_stmt := find (λ st, bool_decide (stmt_text "shop" "users" st = q)) statements.

Definition table_sem (q : string) (args : list value) (x : table_rows) : option table_rows :=
  st ← read_stmt q; if bool_decide (length args = length (stmt_params st)) then mysql_effect ["id"] st args x else None.

#[local] Arguments table_sem : simpl never.

Record mem_db := mkMemDB { md_content : table_rows; md_open : gmap nat table_rows; md_next : nat }.

#[local] Instance mem_conn : SQLConn mem_db := {|
  db_Begin d := (mkMemDB (md_content d) (<[md_next d := md_content d]> (md_open d)) (S (md_next d)), Ok (md_next d));
  db_Exec tx q args d :=
    match tx with
    | None =>
        match table_sem q args (md_content d) with
        | Some x => (mkMemDB x (md_open d) (md_next d), Ok tt)
        | None => (d, Err (ErrNew "syntax error"))
        end
    | Some t =>
        match md_open d !! t with
        | None => (d, Err (ErrNew "sql: transaction has already been committed or rolled back"))
        | Some x =>
            match table_sem q args x with
            | Some x => (mkMemDB (md_content d) (<[t := x]> (md_open d)) (md_next d), Ok tt)
            | None => (d, Err (ErrNew "syntax error"))
            end
        end
    end;
  db_Commit t d :=
    match md_open d !! t with
    | None => (d, Err (ErrNew "sql: transaction has already been committed or rolled back"))
    | Some x => (mkMemDB x (delete t (md_open d)) (md_next d), Ok tt)
    end;
  db_Rollback t d := mkMemDB (md_content d) (delete t (md_open d)) (md_next d)
|}.

#[local] Program Instance mem_laws : SQLLaws mem_db table_rows := {|
  content := md_content; view d t := md_open d !! t; sem := table_sem; tx_safe _ := True
|}.
Next Obligation. intros d d' r H. cbn in H. simplify_eq. cbn. by rewrite lookup_insert_eq. Qed.
Next Obligation.
  intros d d' t q args x r _ Hx. cbn in *. rewrite Hx.
  destruct (table_sem q args x) as [x'|]; intros [= <- <-]; cbn; [|by eauto].
  split; [done|]. exists x'. by rewrite lookup_insert_eq.
Qed.
Next Obligation.
  intros d d' q args r. cbn. by destruct (table_sem q args (md_content d)) eqn:E; intros [= <- <-].
Qed.
Next Obligation.
  intros d d' t x r Hx. cbn in *. rewrite Hx. intros [= <- <-]. cbn. by rewrite lookup_delete_eq.
Qed.
Next Obligation. intros d t. cbn. by rewrite lookup_delete_eq. Qed.

Lemma user_orders cols : cols ≡ₚ elements user_columns → cols = ["id"; "name"] ∨ cols = ["name"; "id"].
Proof.
  assert (elements user_columns = ["id"; "name"] ∨ elements user_columns = ["name"; "id"]) as HE
    by (first [left; vm_compute; reflexivity|right; vm_compute; reflexivity]).
  intros H. assert (cols ≡ₚ ["id"; "name"]) as Hp.
  { rewrite H. destruct HE as [->| ->]; [done|]. apply Permutation_swap. }
  apply Permutation_sym, Permutation_length_2_inv in Hp. done.
Qed.

Lemma read_users st : stmt_on ["id"] user_columns st → read_stmt (stmt_text "shop" "users" st) = Some st.
Proof.
  destruct st as [cols|cols|cols|sets wh|wh]; cbn.
  1-3: intros H; apply user_orders in H as [->| ->]; vm_compute; reflexivity.
  - intros [H ->]. apply user_orders in H as [->| ->]; vm_compute; reflexivity.
  - intros ->. vm_compute. reflexivity.
Qed.

#[local] Program Instance users_table : MySQLTable mem_db table_rows "shop" "users" ["id"] user_columns :=
  {| rows x := x; fits _ _ := True |}.
Next Obligation.
  intros st args x x' Hon Hl H. cbn [sem mem_laws] in H. unfold table_sem in H. rewrite read_users in H by done. cbn in H.
  rewrite bool_decide_eq_true_2 in H by done. split; [by apply Forall2_same_length_lookup_2; [done|]|]. by exists x'.
Qed.
Next Obligation.
  intros st args x Hon Hf H. cbn [sem mem_laws]. unfold table_sem. rewrite read_users by done. cbn.
  by rewrite bool_decide_eq_true_2 by (by rewrite (Forall2_length _ _ _ Hf)).
Qed.
Next Obligation. done. Qed.

Definition cfg : SinkConfig := mkSinkConfig "upsert" true "apply" "" false.
Definition idle : SQLConnector := mkSQLConnector StateReady 0 0 None None.
Definition empty_db : mem_db := mkMemDB (λ _, None) ∅ 0.

Definition user_row (id : Z) (name : string) : RowData :=
  mkRowData (Some {["id" := mkField "id" (VInt64 id) "" false; "name" := mkField "name" (VString name) "" false]}).

Definition user_info : TableInfo := mkTableInfo "shop" "" "users" ["id"] [] [].

Definition user_change (typ : EventType) (before after : RowData) : ChangeEvent :=
  mkChangeEvent "" SourceInfo_zero typ Position_zero user_info before after 0 None None None.

Definition batch : list ChangeEvent :=
  [user_change EventTypeInsert RowData_zero (user_row 1 "Ann");
   user_change EventTypeInsert RowData_zero (user_row 2 "Bob");
   user_change EventTypeUpdate (user_row 1 "Ann") (user_row 1 "Eve");
   user_change EventTypeDelete (user_row 2 "Bob") RowData_zero].

Definition written : (SQLConnector * mem_db) * result unit := SQL_Write SinkMySQL cfg batch (idle, empty_db).
Definition rewritten : (SQLConnector * mem_db) * result unit := SQL_Write SinkMySQL cfg batch (written.1.1, written.1.2).

Lemma eta_ok {A B C} (st : (A * B) * C) r : st.2 = r → st = ((st.1.1, st.1.2), r).
Proof. destruct st as [[??] ?]. by intros <-. Qed.

Lemma id_column : list_to_set ["id"] ⊆ user_columns.
Proof. unfold user_columns. set_solver. Qed.

Lemma batch_good : Forall (good_event "shop" "users" ["id"] user_columns) batch.
Proof. repeat constructor; try done; intros _; vm_compute; reflexivity. Qed.

Lemma batch_safe s c : Forall (safe_event s c) batch.
Proof. by repeat constructor. Qed.

Lemma columns_clean : set_Forall clean user_columns.
Proof. intros c Hc. unfold user_columns in Hc. rewrite elem_of_union, !elem_of_singleton in Hc. by destruct Hc as [->| ->]. Qed.

Lemma mysql_sink_mirrors_witness :
  written.2 = Ok tt ∧
  ∃ chs, mapM (change_of ["id"]) batch = Some chs ∧
         ∀ k, rows (content written.1.2) k = apply_changes ["id"] chs (rows (content empty_db)) k.
Proof.
  split; [vm_compute; reflexivity|].
  apply (mysql_sink_mirrors "shop" "users" ["id"] user_columns) with (cfg := cfg) (c := idle) (c' := written.1.1) (d := empty_db).
  - done.
  - apply id_column.
  - reflexivity.
  - reflexivity.
  - apply columns_clean.
  - done.
  - apply batch_good.
  - done.
  - exact (eta_ok written (Ok tt) ltac:(vm_compute; reflexivity)).
Defined.

Example written_rows :
  content written.1.2 [VInt64 1] = Some {["id" := VInt64 1; "name" := VString "Eve"]} ∧
  content written.1.2 [VInt64 2] = None.
Proof. split; vm_compute; reflexivity. Qed.

Lemma mysql_replay_idempotent_witness :
  (∃ calls, mapM (event_call SinkMySQL cfg) batch = Ok calls ∧ is_Some (run_calls calls (content written.1.2))) ∧
  rewritten.2 = Ok tt ∧ ∀ k, rows (content rewritten.1.2) k = rows (content written.1.2) k.
Proof.
  destruct (mysql_replay_idempotent "shop" "users" ["id"] user_columns) with
    (cfg := cfg) (events := batch) (chs := [CInsert {["id" := VInt64 1; "name" := VString "Ann"]};
      CInsert {["id" := VInt64 2; "name" := VString "Bob"]};
      CUpdate [VInt64 1] {["id" := VInt64 1; "name" := VString "Eve"]}; CDelete [VInt64 2]])
    (c := idle) (d := empty_db) (c1 := written.1.1) (d1 := written.1.2) as [H1 H2].
  - done.
  - apply id_column.
  - reflexivity.
  - reflexivity.
  - apply columns_clean.
  - left.
  - done.
  - apply batch_good.
  - done.
  - vm_compute. reflexivity.
  - repeat constructor.
  - exact (eta_ok written (Ok tt) ltac:(vm_compute; reflexivity)).
  - split; [exact H1|]. split; [vm_compute; reflexivity|]. apply (H2 rewritten.1.1).
    exact (eta_ok rewritten (Ok tt) ltac:(vm_compute; reflexivity)).
Defined.

Lemma sql_write_atomic_witness :
  written.2 = Ok tt ∧
  ∃ calls, mapM (event_call SinkMySQL cfg) batch = Ok calls ∧
           run_calls calls (content empty_db) = Some (content written.1.2).
Proof.
  split; [vm_compute; reflexivity|].
  destruct (sql_write_atomic SinkMySQL cfg batch idle empty_db written.1.1 written.1.2 (Ok tt)) as (_ & calls & Hm & Hr & _).
  - done.
  - apply batch_safe.
  - exact (eta_ok written (Ok tt) ltac:(vm_compute; reflexivity)).
  - exact (ex_intro _ calls (conj Hm Hr)).
Defined.

(** An update whose image before the change has no key. *)
Definition keyless : ChangeEvent := user_change EventTypeUpdate RowData_zero (user_row 1 "Eve").
Definition failing : list ChangeEvent := [user_change EventTypeInsert RowData_zero (user_row 1 "Ann"); keyless].
Definition failed : (SQLConnector * mem_db) * result unit := SQL_Write SinkMySQL cfg failing (idle, empty_db).

Lemma failed_write_leaks_witness :
  is_ok failed.2 = false ∧ content failed.1.2 = content empty_db ∧ is_Some (view failed.1.2 0%nat).
Proof.
  destruct (failed_write_leaks SinkMySQL cfg failing keyless
    (ErrNew "primary key column id not found in before image") idle empty_db
    (mkMemDB (λ _, None) {[0%nat := λ _, None]} 1) 0 failed.1.1 failed.1.2 failed.2) as (H1 & H2 & _ & H3 & _).
  - done.
  - by repeat constructor.
  - apply list_elem_of_further, list_elem_of_here.
  - vm_compute. reflexivity.
  - reflexivity.
  - exact (eta_ok failed failed.2 eq_refl).
  - exact (conj H1 (conj H2 H3)).
Defined.

Definition wide_row : RowData :=
  mkRowData (Some (list_to_map ((λ i, let n := pretty (Z.of_nat i) in (n, mkField n (VInt64 0) "" false)) <$> seq 0 11))).

Lemma pg_copy_recursion_witness :
  pg_insert 1000 (mkSinkConfig "upsert" true "apply" "public" true) (user_change EventTypeInsert RowData_zero wide_row) =
  Err (Panic "stack overflow").
Proof. apply pg_copy_recursion; [done|]. vm_compute. lia. Defined.

(** The text of the statements. *)
Example statement_texts :
  ((λ e, (default ("", []) (default None (ok_or_none (event_call SinkMySQL cfg e)))).1) <$> batch) =
  ["INSERT INTO `shop`.`users` (`id`, `name`) VALUES (?, ?) ON DUPLICATE KEY UPDATE `id` = VALUES(`id`), `name` = VALUES(`name`)";
   "INSERT INTO `shop`.`users` (`id`, `name`) VALUES (?, ?) ON DUPLICATE KEY UPDATE `id` = VALUES(`id`), `name` = VALUES(`name`)";
   "UPDATE `shop`.`users` SET `id` = ?, `name` = ? WHERE `id` = ?"; "DELETE FROM `shop`.`users` WHERE `id` = ?"].
Proof. vm_compute. reflexivity. Qed.

Lemma mysql_statements_typed_witness :
  count mark "DELETE FROM `shop`.`users` WHERE `id` = ?" = length [VInt64 2].
Proof.
  apply (mysql_statements_typed cfg (user_change EventTypeDelete (user_row 2 "Bob") RowData_zero));
    try (vm_compute; reflexivity); repeat constructor.
Defined.
End SinkRuns.
