(* ===== verification/PgOutput.v ===== *)
(** The PostgreSQL source: pgoutput messages become change events
    (internal/source/postgres/pgoutput_handler.go), and the part of connector.go that
    receives them and confirms positions to the server.

    The wire format is decoded by pglogrepl: its message types are the input.  The DDL
    parser is a parameter; history, store and event channel are the lists of what they
    were given. *)
From Stdlib Require Import ZArith Lia Ascii SpecFloat.
From Stdlib Require String Strings.Byte.
From stdpp Require Import prelude countable gmap strings list fin_maps pretty.
From S2P Require Import Prelude Events CacheLog SchemaHistory BinlogConsumer Chunks LogMiner SQLSink.
Local Open Scope Z_scope.

(** ** Messages (pglogrepl) *)

Record RelationColumn := mkRelationColumn {
  rc_Flags : Z;                 (* uint8: 1 marks a column of the replica identity key *)
  rc_Name : string;
  rc_DataType : Z               (* uint32: the OID of the type *)
}.

Record RelationMessage := mkRelationMessage {
  rm_RelationID : Z;
  rm_Namespace : string;
  rm_RelationName : string;
  rm_Columns : list RelationColumn
}.

Record TupleColumn := mkTupleColumn { tc_DataType : ascii; tc_Data : list Byte.byte }.
Notation TupleData := (list TupleColumn) (only parsing).

Definition TupleDataTypeNull : ascii := "n".
Definition TupleDataTypeToast : ascii := "u".
Definition TupleDataTypeText : ascii := "t".
Definition TupleDataTypeBinary : ascii := "b".

Inductive Message :=
  | BeginMessage (xid finalLSN : Z)
  | CommitMessage (commitLSN : Z) (commitTime : time)
  | RelationMsg (m : RelationMessage)
  | InsertMessage (id : Z) (tuple : TupleData)
  | UpdateMessage (id : Z) (old new : option TupleData)
  | DeleteMessage (id : Z) (old : option TupleData)
  | TruncateMessage (ids : list Z)
  | OtherMessage.

(** ** Values *)

Definition i16 (z : Z) : Z := (z + 2 ^ 15) mod 2 ^ 16 - 2 ^ 15.
Definition i32 (z : Z) : Z := (z + 2 ^ 31) mod 2 ^ 32 - 2 ^ 31.

(** [binary.BigEndian.Uint16], [Uint32] and [Uint64]: the first [n] bytes. *)
Definition big_endian (n : nat) (data : list Byte.byte) : Z :=
  foldl (λ acc b, 256 * acc + byte_to_Z b) 0 (take n data).

(** The code converts the number the bits spell, not the bits. *)
Definition float32FromBits (b : Z) : spec_float := binary_normalize 24 128 b 0 false.
Definition float64FromBits (b : Z) : spec_float := float64_of_int b.

Definition decodeBinaryValue (data : list Byte.byte) (dataType : Z) : value :=
  let raw := VBytes data in
  if dataType =? 16 then match data with b :: _ => VBool (negb (byte_to_Z b =? 0)) | [] => raw end
  else if dataType =? 21 then
    if (2 <=? length data)%nat then VOther "int16" (pretty (i16 (big_endian 2 data))) else raw
  else if dataType =? 23 then if (4 <=? length data)%nat then VInt32 (i32 (big_endian 4 data)) else raw
  else if dataType =? 20 then if (8 <=? length data)%nat then VInt64 (i64 (big_endian 8 data)) else raw
  else if dataType =? 700 then if (4 <=? length data)%nat then VFloat32 (float32FromBits (big_endian 4 data)) else raw
  else if dataType =? 701 then if (8 <=? length data)%nat then VFloat64 (float64FromBits (big_endian 8 data)) else raw
  else raw.

Definition postgres_types : list (Z * string) :=
  [(16, "bool"); (17, "bytea"); (18, "char"); (19, "name"); (20, "int8"); (21, "int2"); (22, "int2vector");
   (23, "int4"); (24, "regproc"); (25, "text"); (26, "oid"); (700, "float4"); (701, "float8"); (702, "abstime");
   (703, "reltime"); (704, "tinterval"); (790, "money"); (1042, "bpchar"); (1043, "varchar"); (1082, "date");
   (1083, "time"); (1114, "timestamp"); (1184, "timestamptz"); (1186, "interval"); (1700, "numeric");
   (2950, "uuid"); (3802, "jsonb"); (114, "json"); (142, "xml")].

Definition mapPostgresType (oid : Z) : string :=
  from_option (λ p, p.2.2) "unknown" (list_find (λ p, p.1 = oid) postgres_types).

(** The value of a tuple column; an unchanged TOAST value and any other kind is nil. *)
Definition tuple_value (c : RelationColumn) (t : TupleColumn) : value :=
  if bool_decide (tc_DataType t = TupleDataTypeText) then VString (String.string_of_list_byte (tc_Data t))
  else if bool_decide (tc_DataType t = TupleDataTypeBinary) then decodeBinaryValue (tc_Data t) (i32 (rc_DataType c))
  else VNil.

Fixpoint build_fields (cols : list RelationColumn) (tuple : TupleData) (m : gmap string Field) : gmap string Field :=
  match cols, tuple with
  | c :: cols, t :: tuple =>
      build_fields cols tuple
        (<[rc_Name c := mkField (rc_Name c) (tuple_value c t) (mapPostgresType (i32 (rc_DataType c))) false]> m)
  | _, _ => m
  end.

Definition buildRowData (relation : RelationMessage) (tuple : TupleData) : RowData :=
  mkRowData (Some (build_fields (rm_Columns relation) tuple ∅)).

(** ** Table definitions *)

Definition column_info (c : RelationColumn) : ColumnInfo :=
  mkColumnInfo (rc_Name c) (mapPostgresType (i32 (rc_DataType c))) (Z.land (rc_Flags c) 1 =? 0) 0 0.

Definition key_columns (cols : list RelationColumn) : list string :=
  rc_Name <$> filter (λ c, Z.land (rc_Flags c) 2 ≠ 0) cols.

Definition buildTableInfo (database : string) (r : RelationMessage) : TableInfo :=
  mkTableInfo database (rm_Namespace r) (rm_RelationName r) (key_columns (rm_Columns r)) []
    (column_info <$> rm_Columns r).

Definition column_same (a b : ColumnInfo) : bool :=
  bool_decide (ci_Name a = ci_Name b) && bool_decide (ci_Type a = ci_Type b) &&
  Bool.eqb (ci_Nullable a) (ci_Nullable b).

Definition tableSchemasEqual (a b : TableInfo) : bool :=
  (length (ti_Columns a) =? length (ti_Columns b))%nat &&
  (length (ti_PrimaryKeyColumns a) =? length (ti_PrimaryKeyColumns b))%nat &&
  forallb (λ p, column_same p.1 p.2) (zip (ti_Columns a) (ti_Columns b)) &&
  forallb (λ p, bool_decide (p.1 = p.2)) (zip (ti_PrimaryKeyColumns a) (ti_PrimaryKeyColumns b)).

(** ** The connector *)

Record PgConfig := mkPgConfig {
  pgc_Database : string;
  pgc_Schemas : list string;
  pgc_Tables : gmap string string
}.

(** How a select on the event channel ends. *)
Inductive send_outcome := Sent | ContextDone (e : goerror) | ConnectorStopped.

(** A history or a store that is written to: the calls with their answers, and how the next
    calls end (they succeed once the list is used up). *)
Record call_log (A : Type) := mkCallLog { cl_calls : list (A * result unit); cl_next : list (result unit) }.
Arguments mkCallLog {A}.
Arguments cl_calls {A}.
Arguments cl_next {A}.

Definition log_call {A} (x : A) (l : call_log A) : call_log A :=
  mkCallLog (cl_calls l ++ [(x, default (Ok tt) (head (cl_next l)))]) (tail (cl_next l)).

(** What the calls that succeeded have written. *)
Definition kept {A} (l : call_log A) : list A := (filter (λ c, is_ok c.2 = true) (cl_calls l)).*1.

(** Handler and connector; the optional parts are nil when [None]. *)
Record PgSource := mkPgSource {
  pg_ctxSet : bool;                                    (* handler.ctx is not nil *)
  pg_relations : gmap Z RelationMessage;
  pg_txInProgress : option (Z * Z);
  pg_position : option Position;
  pg_currentLSN : Z;
  pg_schemaCache : gmap string TableInfo;
  pg_tables : option Tables;
  pg_history : option (call_log SchemaHistoryRecord);  (* the calls of Record *)
  pg_store : option (call_log Position);               (* the calls of SaveCurrentPosition *)
  pg_selects : list send_outcome;                      (* how the next sends end *)
  pg_events : list ChangeEvent                         (* what was sent *)
}.

Section Handler.
Context (cfg : PgConfig) (ddlParser : option DDLParser) (format_ts : time → string) (now : time).

Definition with_relations r (s : PgSource) := mkPgSource (pg_ctxSet s) r (pg_txInProgress s) (pg_position s)
  (pg_currentLSN s) (pg_schemaCache s) (pg_tables s) (pg_history s) (pg_store s) (pg_selects s) (pg_events s).
Definition with_tx_in_progress t (s : PgSource) := mkPgSource (pg_ctxSet s) (pg_relations s) t (pg_position s)
  (pg_currentLSN s) (pg_schemaCache s) (pg_tables s) (pg_history s) (pg_store s) (pg_selects s) (pg_events s).
Definition with_position p (s : PgSource) := mkPgSource (pg_ctxSet s) (pg_relations s) (pg_txInProgress s) p
  (pg_currentLSN s) (pg_schemaCache s) (pg_tables s) (pg_history s) (pg_store s) (pg_selects s) (pg_events s).
Definition with_lsn l (s : PgSource) := mkPgSource (pg_ctxSet s) (pg_relations s) (pg_txInProgress s) (pg_position s)
  l (pg_schemaCache s) (pg_tables s) (pg_history s) (pg_store s) (pg_selects s) (pg_events s).
Definition with_schemaCache c (s : PgSource) := mkPgSource (pg_ctxSet s) (pg_relations s) (pg_txInProgress s)
  (pg_position s) (pg_currentLSN s) c (pg_tables s) (pg_history s) (pg_store s) (pg_selects s) (pg_events s).
Definition with_schema t h (s : PgSource) := mkPgSource (pg_ctxSet s) (pg_relations s) (pg_txInProgress s)
  (pg_position s) (pg_currentLSN s) (pg_schemaCache s) t h (pg_store s) (pg_selects s) (pg_events s).
Definition with_store st (s : PgSource) := mkPgSource (pg_ctxSet s) (pg_relations s) (pg_txInProgress s)
  (pg_position s) (pg_currentLSN s) (pg_schemaCache s) (pg_tables s) (pg_history s) st (pg_selects s) (pg_events s).
Definition with_channel q evs (s : PgSource) := mkPgSource (pg_ctxSet s) (pg_relations s) (pg_txInProgress s)
  (pg_position s) (pg_currentLSN s) (pg_schemaCache s) (pg_tables s) (pg_history s) (pg_store s) q evs.

Definition NewPGOutputHandler (s : PgSource) : PgSource :=
  mkPgSource false ∅ None (pg_position s) (pg_currentLSN s) (pg_schemaCache s) (pg_tables s) (pg_history s)
    (pg_store s) (pg_selects s) (pg_events s).

(** A position at an LSN. *)
Definition at_lsn (lsn : Z) (t : time) : Position := mkPosition "" 0 lsn 0 0 0 None "" "" t "" 0 0.

(** [SaveCurrentPosition] where there is a store; its error is logged. *)
Definition save_position (p : Position) (s : PgSource) : PgSource :=
  match pg_store s with Some l => with_store (Some (log_call p l)) s | None => s end.

(** The select of [sendEvent]: its cases are evaluated first, and the context is called. *)
Definition sendEvent (e : ChangeEvent) : ST PgSource unit := λ s,
  if negb (pg_ctxSet s) then (s, Err (Panic "nil pointer dereference"))
  else
    let q := pg_selects s in
    match head q with
    | Some (ContextDone err) => (with_channel (tail q) (pg_events s) s, Err err)
    | Some ConnectorStopped => (with_channel (tail q) (pg_events s) s, Err (ErrNew "connector stopped"))
    | Some Sent | None => (with_channel (tail q) (pg_events s ++ [e]) s, Ok tt)
    end.

Definition pg_matchPattern (pattern s : string) : bool := bool_decide (pattern = "*") || bool_decide (pattern = s).

Definition shouldCapture (schema table : string) : bool :=
  match pgc_Schemas cfg with
  | [] => true
  | schemas =>
      existsb (λ s, bool_decide (s = schema) || bool_decide (s = "*")) schemas ||
      existsb (λ '(s, pattern), (bool_decide (s = schema) || bool_decide (s = "*")) &&
                 (bool_decide (pattern = "*") || bool_decide (pattern = "") || pg_matchPattern pattern table))
        (map_to_list (pgc_Tables cfg))
  end.

Definition handleBegin (xid finalLSN : Z) : PgSource → PgSource := with_tx_in_progress (Some (xid, finalLSN)).

Definition handleCommit (commitLSN : Z) (commitTime : time) (s : PgSource) : PgSource :=
  let pos := at_lsn commitLSN commitTime in
  with_tx_in_progress None (save_position pos (with_position (Some pos) s)).

Definition source_info : SourceInfo := mkSourceInfo "postgres" "" 0 (pgc_Database cfg) "" "" false.
Definition event_id (id : Z) : string :=
  GenerateEventID format_ts (mkSourceInfo "postgres" "" 0 "" "" "" false) now id.

Definition ddl_metadata (ddlText changeType table : string) : gmap string string :=
  <["ddl" := ddlText]> (<["ddlType" := changeType]> (<["ddlDatabase" := pgc_Database cfg]>
    (<["ddlTable" := table]> {["ddlStatement" := ddlText]}))).

(** What the change makes of the table: the parser's definition, if it has one. *)
Definition result_table (oldTable : option TableInfo) (newTable : TableInfo) (ddlText : string) : TableInfo :=
  match ddlParser with
  | Some p =>
      match BinlogConsumer.ApplyDDL (DDLParser := p) oldTable ddlText with
      | Ok (mkDDLResult (Some info)) => info
      | _ => newTable
      end
  | None => newTable
  end.

Definition BuildSchemaHistoryRecord (pos : Position) (database schema table ddl : string)
    (newTableInfo : option TableInfo) (changeType : string) : SchemaHistoryRecord :=
  mkSchemaHistoryRecord pos database schema table ddl newTableInfo changeType DDLStatusCompleted now.

(** The errors of [Record] and of [SaveCurrentPosition] are logged. *)
Definition applySchemaChange (tables : Tables) (oldTable : option TableInfo) (newTable : TableInfo)
    (msg : RelationMessage) : ST PgSource unit := λ s,
  let dbName := pgc_Database cfg in
  let pos := at_lsn (pg_currentLSN s) now in
  let changeType := match oldTable with None => "CREATE" | Some _ => "ALTER" end in
  let ddlText := "-- " +:+ changeType +:+ " TABLE detected via relation message: " +:+
                 rm_Namespace msg +:+ "." +:+ rm_RelationName msg in
  let info := result_table oldTable newTable ddlText in
  let rec := BuildSchemaHistoryRecord pos dbName (rm_Namespace msg) (rm_RelationName msg) ddlText (Some info) changeType in
  let s := with_schema (Some (Tables_Put info tables)) (log_call rec <$> pg_history s) s in
  let s := save_position pos s in
  st_ignore (sendEvent
    (mkChangeEvent (event_id (rm_RelationID msg)) source_info EventTypeDDL pos
       (mkTableInfo dbName (rm_Namespace msg) (rm_RelationName msg) [] [] []) RowData_zero RowData_zero now None None
       (Some (ddl_metadata ddlText changeType (rm_RelationName msg))))) s.

Definition handleRelation (msg : RelationMessage) : ST PgSource unit := λ s,
  let tableInfo := buildTableInfo (pgc_Database cfg) msg in
  let s := with_relations (<[rm_RelationID msg := msg]> (pg_relations s)) s in
  let s := with_schemaCache (<[rm_Namespace msg +:+ "." +:+ rm_RelationName msg := tableInfo]> (pg_schemaCache s)) s in
  match pg_tables s with
  | None => (s, Ok tt)
  | Some tables =>
      match Tables_Get tables (pgc_Database cfg) (rm_RelationName msg) with
      | Some oldTable =>
          if tableSchemasEqual oldTable tableInfo then (s, Ok tt)
          else applySchemaChange tables (Some oldTable) tableInfo msg s
      | None => applySchemaChange tables None tableInfo msg s
      end
  end.

Definition getTableInfo (s : PgSource) (relation : RelationMessage) : TableInfo :=
  match pg_tables s ≫= (λ t, Tables_Get t (pgc_Database cfg) (rm_RelationName relation)) with
  | Some info => info
  | None => buildTableInfo (pgc_Database cfg) relation
  end.

Definition row_message (typ : EventType) (id : Z) (before after : option TupleData) : ST PgSource unit := λ s,
  match pg_relations s !! id with
  | None => (s, Err (ErrNew ("unknown relation ID: " +:+ pretty id)))
  | Some relation =>
      if negb (shouldCapture (rm_Namespace relation) (rm_RelationName relation)) then (s, Ok tt)
      else
        let data := from_option (buildRowData relation) RowData_zero in
        sendEvent (mkChangeEvent (event_id id) source_info typ (at_lsn (pg_currentLSN s) now) (getTableInfo s relation)
                     (data before) (data after) now None None None) s
  end.

Definition handleInsert (id : Z) (tuple : TupleData) : ST PgSource unit := row_message EventTypeInsert id None (Some tuple).
Definition handleUpdate (id : Z) (old new : option TupleData) : ST PgSource unit := row_message EventTypeUpdate id old new.
Definition handleDelete (id : Z) (old : option TupleData) : ST PgSource unit := row_message EventTypeDelete id old None.

Fixpoint handleTruncate (ids : list Z) : ST PgSource unit :=
  match ids with
  | [] => mret tt
  | id :: ids => λ s,
      match pg_relations s !! id with
      | None => handleTruncate ids s
      | Some relation =>
          if negb (shouldCapture (rm_Namespace relation) (rm_RelationName relation)) then handleTruncate ids s
          else (sendEvent (mkChangeEvent (event_id id) source_info EventTypeTruncate (at_lsn (pg_currentLSN s) now)
                  (buildTableInfo (pgc_Database cfg) relation) RowData_zero RowData_zero now None None None) ≫=
                λ _, handleTruncate ids) s
      end
  end.

Definition HandleMessage (msg : Message) : ST PgSource unit :=
  match msg with
  | BeginMessage xid lsn => st_modify (handleBegin xid lsn)
  | CommitMessage lsn t => st_modify (handleCommit lsn t)
  | RelationMsg m => handleRelation m
  | InsertMessage id tuple => handleInsert id tuple
  | UpdateMessage id old new => handleUpdate id old new
  | DeleteMessage id old => handleDelete id old
  | TruncateMessage ids => handleTruncate ids
  | OtherMessage => mret tt
  end.

(** ** Receiving *)

(** A copy-data message: WAL data with the message it carries, if it parses, or a
    keepalive. *)
Inductive CopyData :=
  | XLogData (walStart walLen : Z) (parsed : result Message)
  | Keepalive (serverWALEnd : Z).

Definition receiveMessage (d : CopyData) : ST PgSource (option Message) := λ s,
  match d with
  | XLogData start len parsed =>
      (with_lsn (u64 (start + len)) s, m ← parsed; Ok (Some m))
  | Keepalive walEnd =>
      (if pg_currentLSN s <? walEnd then with_lsn walEnd s else s, Ok None)
  end.

(** The position the server is told is written, flushed and applied. *)
Definition sendStandbyStatus (s : PgSource) : Z := pg_currentLSN s.

(** One round of [run]: errors are reported and the loop goes on. *)
Definition run_round (d : CopyData) : ST PgSource unit := λ s,
  match receiveMessage d s with
  | (s, Err _) => (s, Ok tt)
  | (s, Ok None) => (s, Ok tt)
  | (s, Ok (Some msg)) => st_ignore (HandleMessage msg) s
  end.

Fixpoint run_rounds (ds : list CopyData) : ST PgSource unit :=
  match ds with [] => mret tt | d :: ds => run_round d ≫= λ _, run_rounds ds end.
End Handler.

(** ** Rows *)

Lemma build_fields_other cols tuple m k :
  k ∉ rc_Name <$> cols → build_fields cols tuple m !! k = m !! k.
Proof.
  revert tuple m. induction cols as [|c cols IH]; intros [|t tuple] m Hk; cbn [build_fields]; try done.
  rewrite fmap_cons in Hk. apply not_elem_of_cons in Hk as [Hne Hk].
  rewrite IH by done. by rewrite lookup_insert_ne.
Qed.

Lemma build_fields_lookup cols tuple m i c t :
  NoDup (rc_Name <$> cols) → cols !! i = Some c → tuple !! i = Some t →
  build_fields cols tuple m !! rc_Name c =
  Some (mkField (rc_Name c) (tuple_value c t) (mapPostgresType (i32 (rc_DataType c))) false).
Proof.
  revert tuple m i. induction cols as [|c0 cols IH]; intros [|t0 tuple] m [|i] Hnd Hc Ht; cbn in Hc, Ht; try done.
  - rewrite fmap_cons in Hnd. apply NoDup_cons in Hnd as [Hn _]. simplify_eq. cbn [build_fields].
    rewrite build_fields_other by done. by rewrite lookup_insert_eq.
  - rewrite fmap_cons in Hnd. apply NoDup_cons in Hnd as [_ Hnd]. cbn [build_fields]. by apply IH with i.
Qed.

(** The row an event carries for a tuple: one field per column, with its value. *)
Definition row_matches (relation : RelationMessage) (tuple : option TupleData) (r : RowData) : Prop :=
  match tuple with
  | None => r = RowData_zero
  | Some tuple => ∀ i c t, rm_Columns relation !! i = Some c → tuple !! i = Some t →
      rd_lookup r (rc_Name c) = Some (mkField (rc_Name c) (tuple_value c t) (mapPostgresType (i32 (rc_DataType c))) false)
  end.

Lemma build_row_matches relation tuple :
  NoDup (rc_Name <$> rm_Columns relation) →
  row_matches relation tuple (from_option (buildRowData relation) RowData_zero tuple).
Proof.
  intros Hnd. destruct tuple as [tuple|]; [|done]. intros i c t Hc Ht.
  unfold buildRowData, rd_lookup. cbn [from_option rd_Fields mbind option_bind].
  by apply build_fields_lookup with i.
Qed.

Lemma build_fields_keep cols tuple m k : is_Some (m !! k) → is_Some (build_fields cols tuple m !! k).
Proof.
  revert tuple m. induction cols as [|c cols IH]; intros [|t tuple] m Hk; cbn [build_fields]; try done.
  apply IH. destruct (decide (rc_Name c = k)) as [->|]; [rewrite lookup_insert_eq; eauto|by rewrite lookup_insert_ne].
Qed.

Lemma buildRowData_columns `{!GoRange string Field} relation t tuple :
  rm_Columns relation ≠ [] → column_names (buildRowData relation (t :: tuple)) ≠ [].
Proof.
  intros Hcols Hnil. destruct (rm_Columns relation) as [|c cols] eqn:Hc; [done|].
  assert (rc_Name c ∈ column_names (buildRowData relation (t :: tuple))) as Hin.
  { apply elem_of_column_names, elem_of_dom. rewrite row_values_lookup, fmap_is_Some.
    change (is_Some (build_fields (rm_Columns relation) (t :: tuple) ∅ !! rc_Name c)). rewrite Hc.
    cbn [build_fields]. apply build_fields_keep. rewrite lookup_insert_eq. eauto. }
  rewrite Hnil in Hin. by apply elem_of_nil in Hin.
Qed.

Section HandlerProofs.
Context (cfg : PgConfig) (ddlParser : option DDLParser) (format_ts : time → string).

(** The tuples and the type of a row message. *)
Definition row_parts (msg : Message) : option (EventType * Z * option TupleData * option TupleData) :=
  match msg with
  | InsertMessage id tuple => Some (EventTypeInsert, id, None, Some tuple)
  | UpdateMessage id old new => Some (EventTypeUpdate, id, old, new)
  | DeleteMessage id old => Some (EventTypeDelete, id, old, None)
  | _ => None
  end.

Lemma HandleMessage_row now msg typ id before after :
  row_parts msg = Some (typ, id, before, after) →
  HandleMessage cfg ddlParser format_ts now msg = row_message cfg format_ts now typ id before after.
Proof. destruct msg; intros [= <- <- <- <-]; done. Qed.

(** A row message of a captured relation becomes one event: the images hold, for every
    column of the relation, the value of the tuple, and a nil image is an empty row; the
    table is the one of the definitions in force and the position the one received.  A
    relation that is unknown is an error, one outside the configuration is skipped, and
    neither sends anything. *)
Theorem pg_row_message now msg typ id before after s :
  row_parts msg = Some (typ, id, before, after) → pg_ctxSet s = true → pg_selects s = [] →
  let '(s', r) := HandleMessage cfg ddlParser format_ts now msg s in
  match pg_relations s !! id with
  | None => s' = s ∧ is_ok r = false
  | Some relation =>
      if shouldCapture cfg (rm_Namespace relation) (rm_RelationName relation) then
        NoDup (rc_Name <$> rm_Columns relation) →
        ∃ e, r = Ok tt ∧ pg_events s' = pg_events s ++ [e] ∧ pg_relations s' = pg_relations s ∧
             ev_Type e = typ ∧ ev_Table e = getTableInfo cfg s relation ∧ pos_LSN (ev_Position e) = pg_currentLSN s ∧
             row_matches relation before (ev_Before e) ∧ row_matches relation after (ev_After e)
      else s' = s ∧ r = Ok tt
  end.
Proof.
  intros Hmsg Hctx Hsel. rewrite (HandleMessage_row _ _ _ _ _ _ Hmsg). unfold row_message.
  destruct (pg_relations s !! id) as [relation|]; [|done].
  destruct (shouldCapture cfg (rm_Namespace relation) (rm_RelationName relation)); [|done]. cbn [negb].
  unfold sendEvent. rewrite Hctx, Hsel. cbn [negb head]. intros Hnd. eexists. split_and!; [done..| |].
  all: by apply build_row_matches.
Qed.

(** The handler that the connector creates has no context: the first row message of a
    captured table makes it panic. *)
Theorem pg_handler_without_context now msg typ id before after relation s :
  row_parts msg = Some (typ, id, before, after) → pg_ctxSet s = pg_ctxSet (NewPGOutputHandler s) →
  pg_relations s !! id = Some relation → shouldCapture cfg (rm_Namespace relation) (rm_RelationName relation) = true →
  HandleMessage cfg ddlParser format_ts now msg s = (s, Err (Panic "nil pointer dereference")).
Proof.
  intros Hmsg Hctx Hrel Hcap. rewrite (HandleMessage_row _ _ _ _ _ _ Hmsg). unfold row_message.
  rewrite Hrel, Hcap. cbn [negb]. unfold sendEvent. by rewrite Hctx.
Qed.
End HandlerProofs.

(** ** Binary values *)

(** The big-endian bytes of a number, as PostgreSQL sends them. *)
Fixpoint be_bytes (n : nat) (z : Z) : list Byte.byte :=
  match n with O => [] | S n => be_bytes n (z / 256) ++ [byte_of_Z z] end.

Lemma be_bytes_length n z : length (be_bytes n z) = n.
Proof. revert z. induction n as [|n IH]; intros z; [done|]. cbn. rewrite length_app, IH. cbn. lia. Qed.

Lemma big_endian_be_bytes n z rest : big_endian n (be_bytes n z ++ rest) = z mod 256 ^ Z.of_nat n.
Proof.
  unfold big_endian. rewrite take_length_app_eq by (by rewrite be_bytes_length). clear rest.
  revert z. induction n as [|n IH]; intros z; [by rewrite Z.mod_1_r|].
  cbn [be_bytes]. rewrite foldl_app, IH. cbn [foldl]. rewrite byte_to_of_Z.
  rewrite Nat2Z.inj_succ, Z.pow_succ_r by lia. rewrite Z.rem_mul_r by lia. lia.
Qed.

Lemma signed_mod z k : 0 < k → - k <= z < k → (z mod (2 * k) + k) mod (2 * k) - k = z.
Proof. intros Hk Hz. rewrite Zplus_mod_idemp_l, Z.mod_small; lia. Qed.

(** Integers sent in the binary format are read back, at every width the code knows,
    whatever follows them. *)
Theorem pg_binary_integers z rest :
  (- 2 ^ 15 <= z < 2 ^ 15 → decodeBinaryValue (be_bytes 2 z ++ rest) 21 = VOther "int16" (pretty z)) ∧
  (- 2 ^ 31 <= z < 2 ^ 31 → decodeBinaryValue (be_bytes 4 z ++ rest) 23 = VInt32 z) ∧
  (- 2 ^ 63 <= z < 2 ^ 63 → decodeBinaryValue (be_bytes 8 z ++ rest) 20 = VInt64 z).
Proof.
  unfold decodeBinaryValue. cbn [Z.eqb Pos.eqb].
  split_and!; intros Hz; rewrite big_endian_be_bytes, length_app, be_bytes_length; cbn [Nat.add Nat.leb]; do 2 f_equal.
  - apply (signed_mod z (2 ^ 15)); lia.
  - apply (signed_mod z (2 ^ 31)); lia.
  - apply (signed_mod z (2 ^ 63)); lia.
Qed.

(** ** Definitions and history *)

Section SchemaProofs.
Context (cfg : PgConfig) (ddlParser : option DDLParser) (format_ts : time → string).

(** The definition of a table that a record holds. *)
Definition record_defines (rec : SchemaHistoryRecord) (key : string) : Prop :=
  ∃ info, shr_TableInfo rec = Some info ∧ tableKey (ti_Database info) (ti_Table info) = key.
#[local] Instance record_defines_dec rec key : Decision (record_defines rec key).
Proof.
  destruct (shr_TableInfo rec) as [info|] eqn:E; [|right; intros (? & ? & _); congruence].
  destruct (decide (tableKey (ti_Database info) (ti_Table info) = key)); [left; by exists info|].
  right. intros (info' & ? & ?). congruence.
Defined.

(** The last record of a table was written. *)
Definition last_kept (calls : list (SchemaHistoryRecord * result unit)) (key : string) : Prop :=
  ∀ rec r, last (filter (λ c, record_defines c.1 key) calls) = Some (rec, r) → is_ok r = true.

(** The calls of [Record] explain the definitions, and each puts one definition. *)
Definition puts (rec : SchemaHistoryRecord) : Prop :=
  ∃ info, shr_TableInfo rec = Some info ∧ ∀ t, apply_history t rec = Tables_Put info t.

Definition history_ok (s : PgSource) : Prop :=
  match pg_tables s, pg_history s with
  | Some tables, Some h => replay None (cl_calls h).*1 NewTables = tables ∧ Forall (λ c, puts c.1) (cl_calls h)
  | _, _ => True
  end.

Lemma replay_snoc recs rec t : replay None (recs ++ [rec]) t = apply_history (replay None recs t) rec.
Proof. revert t. induction recs as [|r recs IH]; intros t; [done|]. apply IH. Qed.

(** Sending and saving leave the schema and the received position alone. *)
Definition same_schema (s s' : PgSource) : Prop :=
  pg_tables s' = pg_tables s ∧ pg_history s' = pg_history s ∧ pg_currentLSN s' = pg_currentLSN s.

Lemma same_schema_history s s' : same_schema s s' → history_ok s → history_ok s'.
Proof. intros (Ht & Hh & _). unfold history_ok. by rewrite Ht, Hh. Qed.

Lemma sendEvent_schema e s : same_schema s (sendEvent e s).1.
Proof. unfold sendEvent. destruct (pg_ctxSet s); [|done]. by destruct (head (pg_selects s)) as [[]|]. Qed.

Lemma save_position_schema p s : same_schema s (save_position p s).
Proof. unfold save_position. by destruct (pg_store s). Qed.

Lemma st_ignore_fst {S A} (m : ST S A) s : (st_ignore m s).1 = (m s).1.
Proof. unfold st_ignore. by destruct (m s) as [s' [a|[]]]. Qed.

Lemma same_schema_trans s1 s2 s3 : same_schema s1 s2 → same_schema s2 s3 → same_schema s1 s3.
Proof. intros (?&?&?) (?&?&?). split_and!; congruence. Qed.

Lemma applySchemaChange_history now tables old new msg s :
  pg_tables s = Some tables → history_ok s →
  history_ok (applySchemaChange cfg ddlParser format_ts now tables old new msg s).1.
Proof.
  intros Ht Hok. unfold applySchemaChange. rewrite st_ignore_fst.
  eapply same_schema_history.
  { eapply same_schema_trans; [apply save_position_schema|apply sendEvent_schema]. }
  unfold history_ok in *. cbn. rewrite Ht in Hok. destruct (pg_history s) as [h|]; cbn; [|done]. destruct Hok as [Hr Hp].
  rewrite fmap_app. cbn. rewrite replay_snoc, Hr. split; [by destruct old|].
  apply Forall_app. split; [done|]. constructor; [|constructor]. eexists. split; [done|]. by destruct old.
Qed.

(** A table whose last record was written is recovered. *)
Lemma replay_kept calls next key :
  Forall (λ c, puts c.1) calls → last_kept calls key →
  replay None (kept (mkCallLog calls next)) NewTables !! key = replay None calls.*1 NewTables !! key.
Proof.
  unfold kept. cbn [cl_calls]. induction calls as [|[rec r] calls IH] using rev_ind; intros Hp Hl; [done|].
  apply Forall_app in Hp as [Hp Hc]. apply Forall_singleton in Hc as (info & Hi & Ha). cbn [fst] in *.
  rewrite filter_app, !fmap_app. cbn [fmap list_fmap]. rewrite replay_snoc, Ha. unfold Tables_Put.
  unfold last_kept in Hl. rewrite filter_app in Hl.
  destruct (decide (tableKey (ti_Database info) (ti_Table info) = key)) as [Hk|Hk].
  - rewrite Hk, lookup_insert_eq. rewrite (filter_cons_True _ (rec, r) []) in Hl by (by exists info).
    assert (Hok : is_ok r = true) by (apply (Hl rec r); by rewrite last_app). rewrite filter_cons_True by done.
    cbn. rewrite replay_snoc, Ha. unfold Tables_Put. by rewrite Hk, lookup_insert_eq.
  - rewrite lookup_insert_ne by done. rewrite (filter_cons_False _ (rec, r) []) in Hl by (intros (? & ? & ?); cbn in *; congruence).
    rewrite app_nil_r in Hl. specialize (IH Hp Hl). destruct (decide (is_ok r = true)) as [Hr|Hr].
    + rewrite filter_cons_True by done. cbn. rewrite replay_snoc, Ha. unfold Tables_Put. by rewrite lookup_insert_ne.
    + rewrite filter_cons_False by done. cbn. by rewrite app_nil_r.
Qed.

Lemma handleRelation_history now msg s : history_ok s → history_ok (handleRelation cfg ddlParser format_ts now msg s).1.
Proof.
  intros Hok. unfold handleRelation. cbn [pg_tables with_schemaCache with_relations].
  destruct (pg_tables s) as [tables|] eqn:Ht; [|exact Hok].
  destruct (Tables_Get tables (pgc_Database cfg) (rm_RelationName msg)) as [old|].
  1: destruct (tableSchemasEqual old _); [exact Hok|].
  all: apply applySchemaChange_history; [exact Ht|exact Hok].
Qed.

Lemma row_message_schema now typ id before after s :
  same_schema s (row_message cfg format_ts now typ id before after s).1.
Proof.
  unfold row_message. destruct (pg_relations s !! id) as [r|]; [|done].
  destruct (negb _); [done|apply sendEvent_schema].
Qed.

Lemma handleTruncate_schema now ids s : same_schema s (handleTruncate cfg format_ts now ids s).1.
Proof.
  revert s. induction ids as [|id ids IH]; intros s; [done|]. cbn [handleTruncate].
  destruct (pg_relations s !! id) as [r|]; [|apply IH]. destruct (negb _); [apply IH|].
  unfold mbind, ST_bind. match goal with |- context [sendEvent ?e s] => pose proof (sendEvent_schema e s) as Hs end.
  destruct (sendEvent _ s) as [s' [u|err]]; [|done]. eapply same_schema_trans; [apply Hs|apply IH].
Qed.

Lemma HandleMessage_history now msg s :
  history_ok s → history_ok (HandleMessage cfg ddlParser format_ts now msg s).1.
Proof.
  intros Hok. destruct msg; cbn [HandleMessage];
    try (by eapply same_schema_history; [apply row_message_schema|]); try done.
  - cbn. unfold handleCommit, save_position. cbn. by destruct (pg_store s).
  - by apply handleRelation_history.
  - eapply same_schema_history; [apply handleTruncate_schema|done].
Qed.

Lemma run_round_history now d s : history_ok s → history_ok (run_round cfg ddlParser format_ts now d s).1.
Proof.
  intros Hok. unfold run_round. destruct d as [start len [msg|e]|walEnd]; cbn.
  - rewrite st_ignore_fst. by apply HandleMessage_history.
  - done.
  - by case_match.
Qed.

Lemma run_rounds_history now ds s : history_ok s → history_ok (run_rounds cfg ddlParser format_ts now ds s).1.
Proof.
  revert s. induction ds as [|d ds IH]; intros s Hok; [done|].
  cbn [run_rounds]. unfold mbind, ST_bind. pose proof (run_round_history now d s Hok) as Hr.
  destruct (run_round cfg ddlParser format_ts now d s) as [s1 [u|err]]; [by apply IH|done].
Qed.

(** C25. The recorded history recovers the table definitions: after receiving any copy
    data, malformed messages, unknown relations and failed sends included, and whatever the
    DDL parser answers and however the calls of [Record] end, replaying the records that
    were written into empty tables gives, for every table whose last record was written,
    the definition the source works with; and exactly the tables the source has when no
    call of [Record] failed.  (A failed call is logged only: [unrecorded_definition].) *)
Theorem pg_history_recovers now ds s tables next h :
  pg_tables s = Some NewTables → pg_history s = Some (mkCallLog [] next) →
  let s' := (run_rounds cfg ddlParser format_ts now ds s).1 in
  pg_tables s' = Some tables → pg_history s' = Some h →
  (∀ key, last_kept (cl_calls h) key → replay None (kept h) NewTables !! key = tables !! key) ∧
  (Forall (λ c, is_ok c.2 = true) (cl_calls h) → replay None (kept h) NewTables = tables).
Proof.
  intros Ht Hh. assert (Hok : history_ok s) by (unfold history_ok; rewrite Ht, Hh; by split).
  cbn. intros Ht' Hh'. pose proof (run_rounds_history now ds s Hok) as Hr. unfold history_ok in Hr.
  rewrite Ht', Hh' in Hr. destruct Hr as [<- Hp]. destruct h as [calls rest]. cbn [cl_calls] in *.
  assert (Hkey : ∀ key, last_kept calls key →
    replay None (kept (mkCallLog calls rest)) NewTables !! key = replay None calls.*1 NewTables !! key)
    by (intros key; by apply replay_kept).
  split; [done|]. intros Hall. apply map_eq. intros key. apply Hkey. intros rec r Hlast.
  apply last_Some_elem_of, list_elem_of_filter in Hlast as [_ Hin]. rewrite Forall_forall in Hall. by apply (Hall (rec, r)).
Qed.

Lemma HandleMessage_lsn now msg s :
  pg_currentLSN (HandleMessage cfg ddlParser format_ts now msg s).1 = pg_currentLSN s.
Proof.
  destruct msg; cbn [HandleMessage]; try (by apply row_message_schema); try done.
  - cbn. unfold handleCommit, save_position. cbn. by destruct (pg_store s).
  - unfold handleRelation. cbn [pg_tables with_schemaCache with_relations].
    assert (Happly : ∀ tables old new s1,
      pg_currentLSN (applySchemaChange cfg ddlParser format_ts now tables old new m s1).1 = pg_currentLSN s1).
    { intros tables old new s1. unfold applySchemaChange. rewrite st_ignore_fst.
      match goal with |- pg_currentLSN (sendEvent ?e (save_position ?p ?s2)).1 = _ =>
        rewrite (proj2 (proj2 (sendEvent_schema e (save_position p s2)))), (proj2 (proj2 (save_position_schema p s2)))
      end. done. }
    repeat case_match; try done; by rewrite Happly.
  - apply handleTruncate_schema.
Qed.

(** The server is told that WAL data is flushed as soon as it is received: a standby
    status sent after a round confirms the data of that round, also when the handler
    failed to send its event or the message did not parse, and the server may then
    discard it. *)
Theorem pg_confirms_unsent now start len parsed s :
  pg_ctxSet s = true → head (pg_selects s) = Some ConnectorStopped ∨ is_ok parsed = false →
  (∀ msg, parsed = Ok msg → is_Some (row_parts msg)) →
  let s' := (run_round cfg ddlParser format_ts now (XLogData start len parsed) s).1 in
  sendStandbyStatus s' = u64 (start + len) ∧ pg_events s' = pg_events s.
Proof.
  intros Hctx Hstop Hrow. cbn. unfold run_round. destruct parsed as [msg|e]; cbn; [|done].
  rewrite st_ignore_fst. unfold sendStandbyStatus. rewrite HandleMessage_lsn. split; [done|].
  destruct Hstop as [Hstop|?]; [|done]. destruct (Hrow msg eq_refl) as [[[[typ id] before] after] Hmsg].
  rewrite (HandleMessage_row _ _ _ _ _ _ _ _ _ Hmsg). unfold row_message. cbn [pg_relations with_lsn].
  destruct (pg_relations s !! id) as [r|]; [|done]. destruct (negb _); [done|].
  unfold sendEvent. cbn [pg_ctxSet with_lsn pg_selects]. by rewrite Hctx, Hstop.
Qed.

(** ** Keys *)

(** The protocol marks the columns of the key with flag 1, and knows no other flag;
    the code looks for flag 2.  A table defined by its relation message has no key, and
    every relational sink refuses its updates and deletes. *)
Theorem pg_changes_have_no_key now msg typ id before after relation s sink_type sink_cfg `{!GoRange string Field} :
  row_parts msg = Some (typ, id, before, after) → typ ≠ EventTypeInsert → pg_ctxSet s = true → pg_selects s = [] →
  pg_tables s = None → pg_relations s !! id = Some relation →
  shouldCapture cfg (rm_Namespace relation) (rm_RelationName relation) = true →
  Forall (λ c, rc_Flags c = 0 ∨ rc_Flags c = 1) (rm_Columns relation) →
  rm_Columns relation ≠ [] → (typ = EventTypeUpdate → ∃ t tuple, after = Some (t :: tuple)) →
  ∃ e, pg_events (HandleMessage cfg ddlParser format_ts now msg s).1 = pg_events s ++ [e] ∧
       is_ok (event_call sink_type sink_cfg e) = false.
Proof.
  intros Hmsg Hins Hctx Hsel Htab Hrel Hcap Hflags Hcols Hafter.
  rewrite (HandleMessage_row _ _ _ _ _ _ _ _ _ Hmsg). unfold row_message. rewrite Hrel, Hcap. cbn [negb].
  unfold sendEvent. rewrite Hctx, Hsel. cbn [negb head fst with_channel pg_events]. eexists. split; [done|].
  assert (Hkey : key_columns (rm_Columns relation) = []).
  { clear Hcols Hrel Hcap. unfold key_columns. induction Hflags as [|c cols Hc _ IH]; [done|]. rewrite filter_cons_False; [apply IH|].
    intros H. apply H. by destruct Hc as [->| ->]. }
  assert (Hinfo : GetKeyColumns (getTableInfo cfg s relation) = []).
  { unfold getTableInfo. rewrite Htab. cbn. unfold GetKeyColumns. cbn. by rewrite Hkey. }
  unfold event_call, event_plan, IsDDL, IsDataEvent. cbn [ev_Type].
  destruct msg; cbn in Hmsg; simplify_eq; cbn [bool_decide_eq_false_2].
  - match goal with |- context [build _ _ ?e] =>
      change (is_ok (update_call sink_type sink_cfg e) = false);
      assert (Hno : ∀ sx table, is_ok (build_update sx table e) = false); [|by destruct sink_type; apply Hno] end.
    intros sx table. unfold build_update. cbn [ev_Table ev_After from_option].
    destruct (Hafter eq_refl) as (t & tuple & ->). cbn [from_option]. rewrite Hinfo.
    destruct (column_names (buildRowData relation (t :: tuple))) as [|x l] eqn:E; [|done].
    by apply buildRowData_columns in E.
  - match goal with |- context [build _ _ ?e] =>
      change (is_ok (delete_call sink_type sink_cfg e) = false);
      assert (Hno : ∀ sx table, is_ok (build_delete sx table e) = false); [|by destruct sink_type; apply Hno] end.
    intros sx table. unfold build_delete. cbn [ev_Table]. by rewrite Hinfo.
Qed.
End SchemaProofs.

(** ** Runs *)

Module PgRuns.
#[local] Instance fields_range : GoRange string Field := sorted_range string Field.

Definition config : PgConfig := mkPgConfig "shop" ["public"] ∅.
Definition no_format (t : time) : string := "".

Definition users : RelationMessage :=
  mkRelationMessage 7 "public" "users" [mkRelationColumn 1 "id" 23; mkRelationColumn 0 "name" 25].

Definition text (s : string) : TupleColumn := mkTupleColumn TupleDataTypeText (String.list_byte_of_string s).
Definition int4 (z : Z) : TupleColumn := mkTupleColumn TupleDataTypeBinary (be_bytes 4 z).
Definition toast : TupleColumn := mkTupleColumn TupleDataTypeToast [].

(** A source whose handler has a context. *)
Definition with_context : PgSource :=
  mkPgSource true {[7 := users]} None None 100 ∅ None None None [] [].
Definition as_created : PgSource :=
  mkPgSource false {[7 := users]} None None 100 ∅ None None None [] [].
Definition empty_schema : PgSource :=
  mkPgSource true ∅ None None 100 ∅ (Some NewTables) (Some (mkCallLog [] [])) (Some (mkCallLog [] [])) [] [].

Definition insert1 : Message := InsertMessage 7 [int4 1; text "Ann"].
Definition update1 : Message := UpdateMessage 7 None (Some [int4 1; text "Eve"]).

Definition inserted : PgSource * result unit := HandleMessage config None no_format 0 insert1 with_context.

Lemma pg_row_message_witness :
  ∃ e, inserted.2 = Ok tt ∧ pg_events inserted.1 = [e] ∧ ev_Type e = EventTypeInsert ∧
       rd_lookup (ev_After e) "name" = Some (mkField "name" (VString "Ann") "text" false).
Proof.
  pose proof (pg_row_message config None no_format 0 insert1 EventTypeInsert 7 None (Some [int4 1; text "Ann"])
    with_context eq_refl eq_refl eq_refl) as H. fold inserted in H.
  destruct inserted as [s' r]. cbv beta iota in H. change (pg_relations with_context !! 7) with (Some users) in H.
  cbv beta iota in H. change (shouldCapture config _ _) with true in H. cbv beta iota in H.
  destruct H as (e & -> & He & _ & Ht & _ & _ & _ & Hafter); [apply (bool_decide_unpack _); vm_compute; exact I|].
  exists e. split_and!; [done|exact He|exact Ht|].
  exact (Hafter 1%nat (mkRelationColumn 0 "name" 25) (text "Ann") eq_refl eq_refl).
Defined.

Lemma pg_handler_without_context_witness :
  HandleMessage config None no_format 0 insert1 as_created = (as_created, Err (Panic "nil pointer dereference")).
Proof.
  apply (pg_handler_without_context config None no_format 0 insert1 EventTypeInsert 7 None (Some [int4 1; text "Ann"]) users);
    reflexivity.
Defined.

Lemma pg_binary_integers_witness : decodeBinaryValue (be_bytes 4 (-5)) 23 = VInt32 (-5).
Proof. apply (proj1 (proj2 (pg_binary_integers (-5) []))). lia. Defined.

(** Two relations of one name, a malformed message, and an insert. *)
Definition users2 : RelationMessage := mkRelationMessage 8 "archive" "users" [mkRelationColumn 1 "key" 20].
Definition stream : list CopyData :=
  [XLogData 100 10 (Ok (RelationMsg users)); XLogData 110 5 (Err (ErrNew "unknown message type"));
   XLogData 115 5 (Ok (RelationMsg users2)); XLogData 120 5 (Ok insert1)].
Definition streamed : PgSource := (run_rounds config None no_format 0 stream empty_schema).1.

Definition streamed_tables : Tables := default ∅ (pg_tables streamed).
Definition streamed_history : call_log SchemaHistoryRecord := default (mkCallLog [] []) (pg_history streamed).

Lemma pg_history_recovers_witness :
  length (kept streamed_history) = 2%nat ∧ replay None (kept streamed_history) NewTables = streamed_tables.
Proof.
  split; [vm_compute; reflexivity|].
  apply (pg_history_recovers config None no_format 0 stream empty_schema streamed_tables [] streamed_history);
    [vm_compute; reflexivity..|]. repeat constructor.
Defined.

(** A definition whose record failed is used and is not in the history. *)
Definition full_history : PgSource :=
  mkPgSource true ∅ None None 100 ∅ (Some NewTables) (Some (mkCallLog [] [Err (ErrNew "disk full")])) None [] [].

Example unrecorded_definition :
  let s' := (run_rounds config None no_format 0 [XLogData 100 10 (Ok (RelationMsg users))] full_history).1 in
  (size <$> pg_tables s', kept <$> pg_history s') = (Some 1%nat, Some []).
Proof. vm_compute. reflexivity. Qed.

(** Definitions are kept by database and table name: the rows of public.users are
    announced with the definition of archive.users, which came later. *)
Example same_name_shares_definition :
  ti_Schema ∘ ev_Table <$> last (pg_events streamed) = Some "archive".
Proof. vm_compute. reflexivity. Qed.

(** A TOAST value that an update leaves unchanged is sent as nil, and the sink sets the
    column to NULL. *)
Example unchanged_toast_is_nulled :
  snd <$> default None (ok_or_none (event_call SinkMySQL (mkSinkConfig "upsert" true "apply" "" false)
    (mkChangeEvent "" SourceInfo_zero EventTypeUpdate Position_zero (mkTableInfo "shop" "public" "users" ["id"] [] [])
       (buildRowData users [int4 1; text "long"]) (buildRowData users [int4 1; toast]) 0 None None None))) =
  Some [VInt32 1; VNil; VInt32 1].
Proof. vm_compute. reflexivity. Qed.

Definition stopping : PgSource :=
  mkPgSource true {[7 := users]} None None 100 ∅ None None None [ConnectorStopped] [].

Lemma pg_confirms_unsent_witness :
  let s' := (run_round config None no_format 0 (XLogData 200 50 (Ok insert1)) stopping).1 in
  sendStandbyStatus s' = 250 ∧ pg_events s' = [].
Proof.
  apply (pg_confirms_unsent config None no_format 0 200 50 (Ok insert1) stopping);
    [done|by left|]. intros msg [= <-]. by eexists.
Defined.

Lemma pg_changes_have_no_key_witness :
  ∃ e, pg_events (HandleMessage config None no_format 0 update1 with_context).1 = [e] ∧
       is_ok (event_call SinkMySQL (mkSinkConfig "upsert" true "apply" "" false) e) = false.
Proof.
  apply (pg_changes_have_no_key config None no_format 0 update1 EventTypeUpdate 7 None (Some [int4 1; text "Eve"]) users
    with_context SinkMySQL (mkSinkConfig "upsert" true "apply" "" false)); try done.
  - by constructor; [right|constructor; [left|constructor]].
  - intros _. by eexists _, _.
Defined.
End PgRuns.
