(* ===== verification/EtcdCoordinator.v ===== *)
(** The coordinator on etcd (internal/coordinator/etcd.go): tasks, positions and nodes as
    JSON values under keys of their own, leadership through etcd's elections.

    The client is a parameter: [EtcdClient] with [EtcdLaws] (the key space), and
    [EtcdElection] for leases and elections.  A task is stored without its pipeline;
    [T] stands for what is stored. *)
From Stdlib Require Import ZArith Lia.
From Stdlib Require String Strings.Byte.
From stdpp Require Import prelude countable gmap strings list fin_maps.
From S2P Require Import Prelude Events Strings Tasks Offsets.
Local Open Scope Z_scope.

(** A deletion that fails may have happened or not, and touches no other key. *)
Class EtcdFaults (E : Type) `{!EtcdClient E} `{!EtcdLaws E} := {
  etcd_delete_any k e : etcd_keys (etcd_Delete k e).1 = etcd_keys e ∨
                        etcd_keys (etcd_Delete k e).1 = delete k (etcd_keys e)
}.

(** Leases and the elections of client/v3/concurrency.  A session is its number; it
    campaigns under a key with a value, the name of its node.  [el_Campaign] is the call
    from its beginning to its return: it blocks, and other nodes act meanwhile. *)
Class EtcdElection (E : Type) := {
  etcd_Grant : ST E Z;
  etcd_PutLease : string → list Byte.byte → Z → ST E unit;
  etcd_KeepAliveOnce : Z → ST E unit;
  el_Campaign : string → Z → string → ST E unit;
  el_Resign : string → Z → ST E unit;
  el_Leader : string → E → result (option string)      (* [None]: ErrElectionNoLeader *)
}.

(** What the package documents: the candidates of a key wait in a queue, in the order in
    which they came, a session once, and the first of them is the leader.  A campaign that
    returns without an error is the first; resigning takes the session out of the queue,
    which lets the next one lead; [Leader] answers the value of the first. *)
Class ElectionLaws (E : Type) `{!EtcdElection E} := {
  el_queue : E → string → list (Z * string);
  el_queue_nodup e k : NoDup (el_queue e k).*1;
  el_campaign_ok k s v e e' : el_Campaign k s v e = (e', Ok tt) → head (el_queue e' k) = Some (s, v);
  el_resign_ok k s e e' : el_Resign k s e = (e', Ok tt) →
    ∀ k', el_queue e' k' = if decide (k' = k) then filter (λ c, c.1 ≠ s) (el_queue e k') else el_queue e k';
  el_leader_ok k e r : el_Leader k e = Ok r → r = snd <$> head (el_queue e k)
}.

Section Etcd.
Context {E T : Type} `{EC : !EtcdClient E} `{EE : !EtcdElection E}
  `{TC : !JSONCodec T} `{PC : !JSONCodec Position} `{NC : !JSONCodec NodeInfo} (task_id : T → string).

Record EtcdCoordinator := mkEtcdCoordinator {
  ec_client : E;
  ec_session : option Z;
  ec_prefix : string;
  ec_nodeID : string;
  ec_leases : gmap string Z;
  ec_elections : gset string          (* the tasks with a cached election *)
}.

Record EtcdConfig := mkEtcdConfig { etc_Prefix : string; etc_NodeID : string; etc_TTL : Z }.

(** [NewEtcdCoordinator]; the client is what [clientv3.New] answers. *)
Definition NewEtcdCoordinator (cfg : EtcdConfig) (client : result E) : result EtcdCoordinator :=
  let prefix := if bool_decide (etc_Prefix cfg = "") then "/datastream" else etc_Prefix cfg in
  match client with
  | Err e => Err (ErrWrapf "failed to create etcd client" e)
  | Ok e => Ok (mkEtcdCoordinator e None prefix (etc_NodeID cfg) ∅ ∅)
  end.

Definition with_client (e : E) (c : EtcdCoordinator) : EtcdCoordinator :=
  mkEtcdCoordinator e (ec_session c) (ec_prefix c) (ec_nodeID c) (ec_leases c) (ec_elections c).
Definition with_elections (s : gset string) (c : EtcdCoordinator) : EtcdCoordinator :=
  mkEtcdCoordinator (ec_client c) (ec_session c) (ec_prefix c) (ec_nodeID c) (ec_leases c) s.
Definition with_leases (l : gmap string Z) (c : EtcdCoordinator) : EtcdCoordinator :=
  mkEtcdCoordinator (ec_client c) (ec_session c) (ec_prefix c) (ec_nodeID c) l (ec_elections c).

(** [Initialize]: the session is what [concurrency.NewSession] answers. *)
Definition Etcd_Initialize (session : result Z) : ST EtcdCoordinator unit := λ c,
  match session with
  | Err e => (c, Err (ErrWrapf "failed to create session" e))
  | Ok s => (mkEtcdCoordinator (ec_client c) (Some s) (ec_prefix c) (ec_nodeID c) (ec_leases c) (ec_elections c), Ok tt)
  end.

Definition taskKey (prefix id : string) : string := prefix +:+ "/tasks/" +:+ id.
Definition positionKey (prefix id : string) : string := prefix +:+ "/positions/" +:+ id.
Definition leadershipKey (prefix id : string) : string := prefix +:+ "/leadership/" +:+ id.
Definition nodeKey (prefix id : string) : string := prefix +:+ "/nodes/" +:+ id.

(** A call of the client. *)
Definition on_client {A} (f : ST E A) : ST EtcdCoordinator A := λ c,
  let '(e, r) := f (ec_client c) in (with_client e c, r).

Definition wrap_err {A} (msg : string) (r : result A) : result A :=
  match r with Err (Panic p) => Err (Panic p) | Err e => Err (ErrWrapf msg e) | _ => r end.

Definition ec_SaveTask (t : T) : ST EtcdCoordinator unit := λ c,
  (data ← st_lift (wrap_err "failed to marshal task" (json_Marshal t));
   st_wrap "failed to save task" (on_client (etcd_Put (taskKey (ec_prefix c) (task_id t)) data))) c.

Definition ec_GetTask (id : string) (c : EtcdCoordinator) : result T :=
  match etcd_Get (taskKey (ec_prefix c) id) (ec_client c) with
  | Err e => Err (ErrWrapf "failed to get task" e)
  | Ok None => Err ErrTaskNotFound
  | Ok (Some data) => wrap_err "failed to unmarshal task" (json_Unmarshal data)
  end.

(** The deletions of position and leadership are not checked. *)
Definition ec_DeleteTask (id : string) : ST EtcdCoordinator unit := λ c,
  match st_wrap "failed to delete task" (on_client (etcd_Delete (taskKey (ec_prefix c) id))) c with
  | (c, Err e) => (c, Err e)
  | (c, Ok _) =>
      let e := (etcd_Delete (positionKey (ec_prefix c) id) (ec_client c)).1 in
      let e := (etcd_Delete (leadershipKey (ec_prefix c) id) e).1 in
      (with_client e c, Ok tt)
  end.

(** Values that do not decode are left out. *)
Definition decode_all {A} `{!JSONCodec A} (kvs : list (string * list Byte.byte)) : list A :=
  omap (λ kv, ok_or_none (json_Unmarshal kv.2)) kvs.

Definition ec_ListTasks (c : EtcdCoordinator) : result (list T) :=
  kvs ← wrap_err "failed to list tasks" (etcd_GetPrefix (taskKey (ec_prefix c) "") (ec_client c));
  Ok (decode_all kvs).

Definition ec_SavePosition (taskID : string) (pos : Position) : ST EtcdCoordinator unit := λ c,
  (data ← st_lift (wrap_err "failed to marshal position" (json_Marshal pos));
   st_wrap "failed to save position" (on_client (etcd_Put (positionKey (ec_prefix c) taskID) data))) c.

Definition ec_GetPosition (taskID : string) (c : EtcdCoordinator) : result (option Position) :=
  match etcd_Get (positionKey (ec_prefix c) taskID) (ec_client c) with
  | Err e => Err (ErrWrapf "failed to get position" e)
  | Ok None => Ok None
  | Ok (Some data) => p ← wrap_err "failed to unmarshal position" (json_Unmarshal data); Ok (Some p)
  end.

Definition ec_AcquireLeadership (taskID : string) : ST EtcdCoordinator bool := λ c,
  match ec_session c with
  | None => (c, Err (ErrNew "session not initialized"))
  | Some session =>
      match on_client (el_Campaign (leadershipKey (ec_prefix c) taskID) session (ec_nodeID c)) c with
      | (c, Err err) =>
          if bool_decide (err = CtxDeadlineExceeded) || bool_decide (err = CtxCanceled) then (c, Ok false)
          else (c, Err (ErrWrapf "campaign failed" err))
      | (c, Ok _) => (with_elections ({[taskID]} ∪ ec_elections c) c, Ok true)
      end
  end.

Definition ec_ReleaseLeadership (taskID : string) : ST EtcdCoordinator unit := λ c,
  match ec_session c with
  | None => (c, Ok tt)
  | Some session =>
      if negb (bool_decide (taskID ∈ ec_elections c)) then (c, Ok tt)
      else
        let c := with_elections (ec_elections c ∖ {[taskID]}) c in
        st_wrap "resign failed" (on_client (el_Resign (leadershipKey (ec_prefix c) taskID) session)) c
  end.

Definition ec_IsLeader (taskID : string) (c : EtcdCoordinator) : result bool :=
  match ec_session c with
  | None => Ok false
  | Some _ =>
      leader ← el_Leader (leadershipKey (ec_prefix c) taskID) (ec_client c);
      Ok (bool_decide (leader = Some (ec_nodeID c)))
  end.

Definition ec_RegisterNode (nodeID : string) (info : NodeInfo) : ST EtcdCoordinator unit := λ c,
  (data ← st_lift (wrap_err "failed to marshal node info" (json_Marshal info));
   lease ← st_wrap "failed to create lease" (on_client etcd_Grant);
   _ ← st_wrap "failed to register node" (on_client (etcd_PutLease (nodeKey (ec_prefix c) nodeID) data lease));
   st_modify (λ c, with_leases (<[nodeID := lease]> (ec_leases c)) c)) c.

Definition ec_UnregisterNode (nodeID : string) : ST EtcdCoordinator unit := λ c,
  (_ ← st_wrap "failed to unregister node" (on_client (etcd_Delete (nodeKey (ec_prefix c) nodeID)));
   st_modify (λ c, with_leases (delete nodeID (ec_leases c)) c)) c.

Definition ec_ListNodes (c : EtcdCoordinator) : result (list NodeInfo) :=
  kvs ← wrap_err "failed to list nodes" (etcd_GetPrefix (nodeKey (ec_prefix c) "") (ec_client c));
  Ok (decode_all kvs).

Definition ec_Heartbeat (nodeID : string) : ST EtcdCoordinator unit := λ c,
  match ec_leases c !! nodeID with
  | None => (c, Err (ErrNew ("no lease for node " +:+ nodeID)))
  | Some lease => st_wrap "heartbeat failed" (on_client (etcd_KeepAliveOnce lease)) c
  end.
End Etcd.
Arguments EtcdCoordinator : clear implicits.

(** ** Keys *)

Lemma taskKey_inj p a b : taskKey p a = taskKey p b → a = b.
Proof. unfold taskKey. by intros ?%string_app_cancel_l%string_app_cancel_l. Qed.

Lemma positionKey_inj p a b : positionKey p a = positionKey p b → a = b.
Proof. unfold positionKey. by intros ?%string_app_cancel_l%string_app_cancel_l. Qed.

Lemma task_position_ne p a b : taskKey p a ≠ positionKey p b.
Proof. unfold taskKey, positionKey. intros H%string_app_cancel_l. discriminate H. Qed.

Lemma task_leadership_ne p a b : taskKey p a ≠ leadershipKey p b.
Proof. unfold taskKey, leadershipKey. intros H%string_app_cancel_l. discriminate H. Qed.

Lemma position_leadership_ne p a b : positionKey p a ≠ leadershipKey p b.
Proof. unfold positionKey, leadershipKey. intros H%string_app_cancel_l. discriminate H. Qed.

Lemma taskKey_of_prefix p k : has_prefix (taskKey p "") k = true → ∃ id, k = taskKey p id.
Proof.
  intros H%has_prefix_inv. rewrite H. unfold taskKey. exists (drop_prefix (p +:+ "/tasks/" +:+ "") k).
  by rewrite string_app_nil_r, <- string_app_assoc, string_app_assoc.
Qed.

(** ** Tasks and positions *)

Section Refinement.
Context {E T : Type} `{EC : !EtcdClient E} `{EL : !EtcdLaws E} `{EF : !EtcdFaults E}
  `{TC : !JSONCodec T} `{TL : !JSONLaws T} `{PC : !JSONCodec Position} `{PL : !JSONLaws Position} (task_id : T → string).

(** What the coordinator promises: a map of tasks and one of positions. *)
Record coord_spec := mkCoordSpec { cs_tasks : gmap string T; cs_positions : gmap string Position }.

Inductive coord_op := OpSaveTask (t : T) | OpDeleteTask (id : string) | OpSavePosition (id : string) (p : Position).

Definition op_wf (o : coord_op) : Prop :=
  match o with OpSaveTask t => json_wf t | OpSavePosition _ p => json_wf p | OpDeleteTask _ => True end.

Definition spec_op (s : coord_spec) (o : coord_op) : coord_spec :=
  match o with
  | OpSaveTask t => mkCoordSpec (<[task_id t := t]> (cs_tasks s)) (cs_positions s)
  | OpDeleteTask id => mkCoordSpec (delete id (cs_tasks s)) (delete id (cs_positions s))
  | OpSavePosition id p => mkCoordSpec (cs_tasks s) (<[id := p]> (cs_positions s))
  end.

(** Whether the deletion of the position, which comes after that of the task, succeeds. *)
Definition position_deleted (id : string) (c : EtcdCoordinator E) : bool :=
  is_ok (etcd_Delete (positionKey (ec_prefix c) id) (etcd_Delete (taskKey (ec_prefix c) id) (ec_client c)).1).2.

(** The calls succeed; a deletion comes with the outcome of deleting the position, which is
    not reported. *)
Inductive op_ok : EtcdCoordinator E → coord_op * bool → EtcdCoordinator E → Prop :=
  | ok_save t c c' : ec_SaveTask task_id t c = (c', Ok tt) → op_ok c (OpSaveTask t, true) c'
  | ok_position id p c c' : ec_SavePosition id p c = (c', Ok tt) → op_ok c (OpSavePosition id p, true) c'
  | ok_delete id c c' : ec_DeleteTask id c = (c', Ok tt) → op_ok c (OpDeleteTask id, position_deleted id c) c'.

(** The same on the maps: a position whose deletion failed may stay. *)
Inductive spec_step : coord_spec → coord_op * bool → coord_spec → Prop :=
  | spec_done s o b : spec_step s (o, b) (spec_op s o)
  | spec_position_stays s id : spec_step s (OpDeleteTask id, false) (mkCoordSpec (delete id (cs_tasks s)) (cs_positions s)).

Definition stored {A} `{!JSONCodec A} (m : gmap string A) (id : string) : option (list Byte.byte) :=
  a ← m !! id; ok_or_none (json_Marshal a).

Record implements (p : string) (c : EtcdCoordinator E) (s : coord_spec) : Prop := {
  im_prefix : ec_prefix c = p;
  im_tasks id : etcd_keys (ec_client c) !! taskKey p id = stored (cs_tasks s) id;
  im_positions id : etcd_keys (ec_client c) !! positionKey p id = stored (cs_positions s) id;
  im_tasks_wf id t : cs_tasks s !! id = Some t → json_wf t;
  im_positions_wf id q : cs_positions s !! id = Some q → json_wf q
}.

Lemma marshal_wf {A} `{!JSONCodec A} `{!JSONLaws A} (a : A) data :
  json_wf a → json_Marshal a = Ok data → json_Unmarshal data = Ok a.
Proof. intros Hw Hm. destruct (json_roundtrip a Hw) as (d & Hd & Hu). congruence. Qed.

Lemma put_call msg1 msg2 {A} `{!JSONCodec A} (a : A) k (c c' : EtcdCoordinator E) :
  (data ← st_lift (wrap_err msg1 (json_Marshal a)); st_wrap msg2 (on_client (etcd_Put k data))) c = (c', Ok tt) →
  ∃ data, json_Marshal a = Ok data ∧ ec_prefix c' = ec_prefix c ∧
          etcd_keys (ec_client c') = <[k := data]> (etcd_keys (ec_client c)).
Proof.
  unfold mbind, ST_bind, st_lift, wrap_err. destruct (json_Marshal a) as [data|[]] eqn:Em; try done.
  unfold st_wrap, on_client. destruct (etcd_Put k data (ec_client c)) as [e [[]|[]]] eqn:Ep; intros [= <-].
  exists data. split_and!; [done..|]. cbn. by apply etcd_put_ok.
Qed.

Lemma stored_insert {A} `{!JSONCodec A} (m : gmap string A) id a data :
  json_Marshal a = Ok data → ∀ id', stored (<[id := a]> m) id' = if decide (id' = id) then Some data else stored m id'.
Proof.
  intros Hm id'. unfold stored. case_decide as Hd; [subst; rewrite lookup_insert_eq; cbn; by rewrite Hm|].
  by rewrite lookup_insert_ne by congruence.
Qed.

Lemma stored_delete {A} `{!JSONCodec A} (m : gmap string A) id id' :
  stored (delete id m) id' = if decide (id' = id) then None else stored m id'.
Proof.
  unfold stored. case_decide as Hd; [subst; by rewrite lookup_delete_eq|]. by rewrite lookup_delete_ne by congruence.
Qed.

Lemma lookup_insert_if {A} (m : gmap string A) k k' a :
  <[k := a]> m !! k' = if decide (k' = k) then Some a else m !! k'.
Proof. case_decide as H; [subst; apply lookup_insert_eq|by rewrite lookup_insert_ne by congruence]. Qed.

Lemma implements_insert_wf {A} `{!JSONCodec A} `{!JSONLaws A} (m : gmap string A) id a :
  json_wf a → (∀ i b, m !! i = Some b → json_wf b) → ∀ i b, <[id := a]> m !! i = Some b → json_wf b.
Proof. intros Ha Hm i b. rewrite lookup_insert_Some. intros [[_ <-]|[_ ?]]; eauto. Qed.

Lemma ec_DeleteTask_keys id c c' :
  ec_DeleteTask id c = (c', Ok tt) →
  ec_prefix c' = ec_prefix c ∧
  (∀ k, k ≠ positionKey (ec_prefix c) id → k ≠ leadershipKey (ec_prefix c) id →
       etcd_keys (ec_client c') !! k =
       if decide (k = taskKey (ec_prefix c) id) then None else etcd_keys (ec_client c) !! k) ∧
  (etcd_keys (ec_client c') !! positionKey (ec_prefix c) id = None ∨
   position_deleted id c = false ∧
   etcd_keys (ec_client c') !! positionKey (ec_prefix c) id = etcd_keys (ec_client c) !! positionKey (ec_prefix c) id).
Proof.
  unfold ec_DeleteTask, position_deleted, st_wrap, on_client.
  destruct (etcd_Delete (taskKey (ec_prefix c) id) (ec_client c)) as [e [[]|[]]] eqn:Ed; intros [= <-].
  split; [done|]. cbn [ec_client with_client ec_prefix fst].
  apply etcd_delete_ok in Ed.
  set (e1 := (etcd_Delete (positionKey (ec_prefix c) id) e).1).
  assert (Hlast : ∀ k, k ≠ leadershipKey (ec_prefix c) id →
    etcd_keys (etcd_Delete (leadershipKey (ec_prefix c) id) e1).1 !! k = etcd_keys e1 !! k).
  { intros k Hl. destruct (etcd_delete_any (leadershipKey (ec_prefix c) id) e1) as [->| ->]; [done|by rewrite lookup_delete_ne]. }
  split.
  - intros k Hp Hl. rewrite Hlast by done.
    assert (etcd_keys e1 !! k = etcd_keys e !! k) as ->.
    { unfold e1. destruct (etcd_delete_any (positionKey (ec_prefix c) id) e) as [->| ->]; [done|by rewrite lookup_delete_ne]. }
    rewrite Ed. case_decide as Hk; [subst k; apply lookup_delete_eq|by rewrite lookup_delete_ne by congruence].
  - rewrite Hlast by apply position_leadership_ne. unfold e1.
    destruct (etcd_Delete (positionKey (ec_prefix c) id) e) as [e2 r] eqn:Ep. cbn [fst snd]. destruct r as [[]|err].
    + left. rewrite (etcd_delete_ok _ _ _ Ep). apply lookup_delete_eq.
    + pose proof (etcd_delete_any (positionKey (ec_prefix c) id) e) as Hany. rewrite Ep in Hany. cbn in Hany.
      destruct Hany as [->| ->]; [right|left; apply lookup_delete_eq]. split; [done|].
      rewrite Ed, lookup_delete_ne by apply task_position_ne. done.
Qed.

Lemma op_refines p c s o c' :
  implements p c s → op_wf o.1 → op_ok c o c' → ∃ s', spec_step s o s' ∧ implements p c' s'.
Proof.
  intros [Hp Ht Hq Htw Hqw] Hw Hok. subst p. destruct Hok as [t c c' H|id q c c' H|id c c' H]; cbn [fst spec_op op_wf] in *.
  - exists (spec_op s (OpSaveTask t)). split; [constructor|]. cbn [spec_op].
    destruct (put_call _ _ t _ c c' H) as (data & Hm & Hpre & Hk). split; cbn [cs_tasks cs_positions]; [done| | |eauto using implements_insert_wf|done].
    + intros id. rewrite (stored_insert _ _ _ data Hm), Hk, lookup_insert_if, Ht.
      destruct (decide (id = task_id t)) as [->|Hne]; [by rewrite decide_True|].
      by rewrite decide_False by (by intros ?%taskKey_inj).
    + intros id. rewrite Hk, lookup_insert_ne by apply task_position_ne. apply Hq.
  - exists (spec_op s (OpSavePosition id q)). split; [constructor|]. cbn [spec_op].
    destruct (put_call _ _ q _ c c' H) as (data & Hm & Hpre & Hk). split; cbn [cs_tasks cs_positions]; [done| | |done|eauto using implements_insert_wf].
    + intros id'. rewrite Hk, lookup_insert_ne by (apply not_eq_sym, task_position_ne). apply Ht.
    + intros id'. rewrite (stored_insert _ _ _ data Hm), Hk, lookup_insert_if, Hq.
      destruct (decide (id' = id)) as [->|Hne]; [by rewrite decide_True|].
      by rewrite decide_False by (by intros ?%positionKey_inj).
  - destruct (ec_DeleteTask_keys id c c' H) as (Hpre & Hk & Hpos).
    assert (Htasks : ∀ id', etcd_keys (ec_client c') !! taskKey (ec_prefix c) id' = stored (delete id (cs_tasks s)) id').
    { intros id'. rewrite Hk by (apply task_position_ne || apply task_leadership_ne). rewrite stored_delete, Ht.
      destruct (decide (id' = id)) as [->|Hne]; [by rewrite decide_True|].
      by rewrite decide_False by (by intros ?%taskKey_inj). }
    assert (Htasks_wf : ∀ i t, delete id (cs_tasks s) !! i = Some t → json_wf t).
    { intros i t Hi. apply lookup_delete_Some in Hi as [_ ?]. eauto. }
    assert (Hothers : ∀ id', id' ≠ id → etcd_keys (ec_client c') !! positionKey (ec_prefix c) id' = stored (cs_positions s) id').
    { intros id' Hne. rewrite Hk by (apply position_leadership_ne || by intros ?%positionKey_inj).
      by rewrite decide_False by (apply not_eq_sym, task_position_ne). }
    destruct Hpos as [Hgone|[-> Hsame]].
    + exists (spec_op s (OpDeleteTask id)). split; [constructor|]. split; cbn [spec_op cs_tasks cs_positions]; [done..| |done|].
      * intros id'. rewrite stored_delete. destruct (decide (id' = id)) as [->|Hne]; [done|by apply Hothers].
      * intros i q Hi. apply lookup_delete_Some in Hi as [_ ?]. eauto.
    + exists (mkCoordSpec (delete id (cs_tasks s)) (cs_positions s)). split; [constructor|]. split; cbn [cs_tasks cs_positions]; try done.
      intros id'. destruct (decide (id' = id)) as [->|Hne]; [by rewrite Hsame|by apply Hothers].
Qed.

Lemma ops_refine p c s ops c' :
  implements p c s → Forall (λ o, op_wf o.1) ops → runs op_ok c ops c' → ∃ s', runs spec_step s ops s' ∧ implements p c' s'.
Proof.
  intros Hi Hw Hr. revert s Hi. induction Hr as [c|c o c1 ops c2 Ho _ IH]; intros s Hi; [exists s; split; [constructor|done]|].
  apply Forall_cons in Hw as [Hw1 Hw2]. destruct (op_refines _ _ _ _ _ Hi Hw1 Ho) as (s1 & Hs1 & Hi1).
  destruct (IH Hw2 s1 Hi1) as (s' & Hs' & Hi'). exists s'. split; [by eapply runs_cons|done].
Qed.

Lemma implements_get_task p c s id :
  implements p c s → is_ok (etcd_Get (taskKey p id) (ec_client c)) = true →
  ec_GetTask id c = match cs_tasks s !! id with Some t => Ok t | None => Err ErrTaskNotFound end.
Proof.
  intros [Hp Ht _ Hw _] Hok. unfold ec_GetTask. rewrite Hp.
  destruct (etcd_Get (taskKey p id) (ec_client c)) as [r|] eqn:Eg; [|done].
  apply etcd_get_ok in Eg. rewrite Ht in Eg. subst r. unfold stored.
  destruct (cs_tasks s !! id) as [t|] eqn:Et; [|done]. cbn.
  destruct (json_roundtrip t (Hw _ _ Et)) as (data & Hm & Hu). rewrite Hm. cbn. by rewrite Hu.
Qed.

Lemma implements_get_position p c s id :
  implements p c s → is_ok (etcd_Get (positionKey p id) (ec_client c)) = true →
  ec_GetPosition id c = Ok (cs_positions s !! id).
Proof.
  intros [Hp _ Hq _ Hw] Hok. unfold ec_GetPosition. rewrite Hp.
  destruct (etcd_Get (positionKey p id) (ec_client c)) as [r|] eqn:Eg; [|done].
  apply etcd_get_ok in Eg. rewrite Hq in Eg. subst r. unfold stored.
  destruct (cs_positions s !! id) as [q|] eqn:Et; [|done]. cbn.
  destruct (json_roundtrip q (Hw _ _ Et)) as (data & Hm & Hu). rewrite Hm. cbn. by rewrite Hu.
Qed.

(** The key and value of a task. *)
Definition task_kv (p : string) (it : string * T) : string * list Byte.byte :=
  (taskKey p it.1, match json_Marshal it.2 with Ok d => d | Err _ => [] end).

Lemma implements_kvs p c s kvs :
  implements p c s → etcd_GetPrefix (taskKey p "") (ec_client c) = Ok kvs →
  kvs ≡ₚ task_kv p <$> map_to_list (cs_tasks s).
Proof.
  intros [_ Ht _ Hw _] [Hnd Hkvs]%etcd_prefix_ok. apply NoDup_Permutation.
  - by apply NoDup_fmap_1 in Hnd.
  - apply NoDup_fmap_2_strong; [|apply NoDup_map_to_list].
    intros [i t] [j u] Hi%elem_of_map_to_list Hj%elem_of_map_to_list [= ->%taskKey_inj _]. congruence.
  - intros [k v]. rewrite Hkvs, list_elem_of_fmap. split.
    + intros [Hk [id ->]%taskKey_of_prefix]. rewrite Ht in Hk. unfold stored in Hk.
      destruct (cs_tasks s !! id) as [t|] eqn:Et; [|done]. cbn in Hk.
      exists (id, t). split; [|by apply elem_of_map_to_list]. unfold task_kv. cbn. by destruct (json_Marshal t); simplify_eq/=.
    + intros ([id t] & [= -> ->] & Hi%elem_of_map_to_list). cbn. rewrite Ht. unfold stored. rewrite Hi. cbn.
      destruct (json_roundtrip t (Hw _ _ Hi)) as (data & Hm & _). rewrite Hm. split; [done|].
      unfold taskKey. rewrite string_app_nil_r, <- string_app_assoc. apply has_prefix_app.
Qed.

Lemma implements_list p c s l :
  implements p c s → ec_ListTasks c = Ok l → l ≡ₚ (map_to_list (cs_tasks s)).*2.
Proof.
  intros Hi. pose proof Hi as [Hp _ _ Hw _]. unfold ec_ListTasks. rewrite Hp.
  destruct (etcd_GetPrefix (taskKey p "") (ec_client c)) as [kvs|[]] eqn:Eg; try done. intros [= <-].
  unfold decode_all. rewrite (implements_kvs p c s kvs Hi Eg).
  assert (Hall : Forall (λ it : string * T, json_wf it.2) (map_to_list (cs_tasks s))).
  { apply Forall_forall. intros [id t] H%elem_of_map_to_list. by eapply Hw. }
  clear -Hall. induction Hall as [|[id t] l' Hit _ IH]; [done|]. cbn in Hit.
  destruct (json_roundtrip t Hit) as (data & Hm & Hu). cbn. rewrite Hm. cbn. rewrite Hu. cbn. by rewrite IH.
Qed.

(** C22. The etcd coordinator is a map of tasks and a map of positions: after any sequence
    of calls that succeeded, on tasks and positions that JSON gives back, a task read back
    is the one last saved, a deleted or unknown one is not found, a position read back is
    the last one saved, and listing gives every task once, whatever other keys etcd holds.
    The position of a deleted task is gone when etcd deleted it; when that call failed,
    which is not reported, the position may be there still. *)
Theorem etcd_coordinator_refines p c s ops c' :
  implements p c s → Forall (λ o, op_wf o.1) ops → runs op_ok c ops c' →
  ∃ s', runs spec_step s ops s' ∧
  (∀ id, is_ok (etcd_Get (taskKey p id) (ec_client c')) = true →
     ec_GetTask id c' = match cs_tasks s' !! id with Some t => Ok t | None => Err ErrTaskNotFound end) ∧
  (∀ id, is_ok (etcd_Get (positionKey p id) (ec_client c')) = true →
     ec_GetPosition id c' = Ok (cs_positions s' !! id)) ∧
  (∀ l, ec_ListTasks c' = Ok l → l ≡ₚ (map_to_list (cs_tasks s')).*2).
Proof.
  intros Hi Hw Hr. destruct (ops_refine _ _ _ _ _ Hi Hw Hr) as (s' & Hs' & Hi'). exists s'. split; [done|].
  split_and!; eauto using implements_get_task, implements_get_position, implements_list.
Qed.
End Refinement.

(** ** Leadership *)

Section Leadership.
Context {E : Type} `{EE : !EtcdElection E} `{EL : !ElectionLaws E}.

(** The candidates for a task, and who leads it. *)
Definition candidates (c : EtcdCoordinator E) (taskID : string) : list (Z * string) :=
  el_queue (ec_client c) (leadershipKey (ec_prefix c) taskID).
Definition leader_of (c : EtcdCoordinator E) (taskID : string) : option string := snd <$> head (candidates c taskID).

(** Coordinators of several nodes on one etcd. *)
Definition shares (c d : EtcdCoordinator E) : Prop := ec_client d = ec_client c ∧ ec_prefix d = ec_prefix c.

Lemma leadershipKey_inj p a b : leadershipKey p a = leadershipKey p b → a = b.
Proof. unfold leadershipKey. by intros ?%string_app_cancel_l%string_app_cancel_l. Qed.

Lemma acquire_leader t c c1 :
  ec_AcquireLeadership t c = (c1, Ok true) →
  ∃ session, ec_session c1 = Some session ∧ ec_session c = Some session ∧ ec_nodeID c1 = ec_nodeID c ∧ t ∈ ec_elections c1 ∧
    head (candidates c1 t) = Some (session, ec_nodeID c).
Proof.
  unfold ec_AcquireLeadership, on_client. destruct (ec_session c) as [session|] eqn:Es; [|done].
  destruct (el_Campaign _ session (ec_nodeID c) (ec_client c)) as [e [[]|err]] eqn:Ec; [|by case_match].
  intros [= <-]. exists session. apply el_campaign_ok in Ec. unfold candidates. cbn. split_and!; [done..|set_solver|done].
Qed.

Lemma is_leader_spec t c b : ec_IsLeader t c = Ok b → b = true ↔ is_Some (ec_session c) ∧ leader_of c t = Some (ec_nodeID c).
Proof.
  unfold ec_IsLeader. destruct (ec_session c) as [session|]; [|intros [= <-]; split; [done|by intros [[] _]]].
  destruct (el_Leader _ (ec_client c)) as [r|] eqn:El; [|done]. intros [= <-]. apply el_leader_ok in El. subst r.
  rewrite bool_decide_eq_true. split; [intros H; by split; [eexists|]|by intros [_ ?]].
Qed.

(** C23. Leadership through etcd is exclusive: of the nodes on one etcd at most one is told
    that it leads a task.  When [AcquireLeadership] answers true, the node leads, whoever
    led before.  When it then releases the task, it is no longer a candidate, the next one
    in the queue leads, and it is told that it does not lead, unless another session
    campaigns under its name; the candidates of other tasks stay as they are. *)
Theorem etcd_leadership t c c1 c2 :
  ec_AcquireLeadership t c = (c1, Ok true) → ec_ReleaseLeadership t c1 = (c2, Ok tt) →
  (∀ d d', shares d d' → ec_IsLeader t d = Ok true → ec_IsLeader t d' = Ok true → ec_nodeID d' = ec_nodeID d) ∧
  (∀ b, ec_IsLeader t c1 = Ok b → b = true) ∧
  (∃ session, ec_session c = Some session ∧ candidates c1 t = (session, ec_nodeID c) :: candidates c2 t ∧ session ∉ (candidates c2 t).*1) ∧
  (ec_nodeID c ∉ (candidates c2 t).*2 → ∀ b, ec_IsLeader t c2 = Ok b → b = false) ∧
  ∀ u, u ≠ t → candidates c2 u = candidates c1 u.
Proof.
  intros Ha Hr. destruct (acquire_leader t c c1 Ha) as (session & Hs1 & Hs & Hn & Hin & Hhead).
  assert (H2 : ec_nodeID c2 = ec_nodeID c ∧
               ∀ u, candidates c2 u = if decide (u = t) then filter (λ x, x.1 ≠ session) (candidates c1 u) else candidates c1 u).
  { unfold ec_ReleaseLeadership in Hr. rewrite Hs1, bool_decide_eq_true_2 in Hr by done. cbn [negb] in Hr.
    unfold st_wrap, on_client in Hr. cbn [ec_client ec_prefix with_elections] in Hr.
    destruct (el_Resign _ session (ec_client c1)) as [e [[]|[]]] eqn:Er; try done. injection Hr as <-.
    split; [done|]. intros u. unfold candidates. cbn. rewrite (el_resign_ok _ _ _ _ Er).
    destruct (decide (u = t)) as [->|Hu]; [by rewrite decide_True|]. by rewrite decide_False by (by intros ?%leadershipKey_inj). }
  destruct H2 as (Hn2 & Hq).
  assert (Hrest : candidates c1 t = (session, ec_nodeID c) :: candidates c2 t ∧ session ∉ (candidates c2 t).*1).
  { rewrite Hq, decide_True by done. pose proof (el_queue_nodup (ec_client c1) (leadershipKey (ec_prefix c1) t)) as Hnd.
    fold (candidates c1 t) in Hnd. destruct (candidates c1 t) as [|x rest]; [done|]. cbn in Hhead. injection Hhead as ->.
    cbn in Hnd. apply NoDup_cons in Hnd as [Hnot _]. rewrite filter_cons_False by (cbn; tauto).
    assert (filter (λ x, x.1 ≠ session) rest = rest) as ->; [|done].
    clear -Hnot. induction rest as [|x rest IH]; [done|]. cbn in Hnot. apply not_elem_of_cons in Hnot as [H1 H2].
    rewrite filter_cons_True by congruence. by rewrite IH. }
  split_and!.
  - intros d d' [Hc Hp] H1%is_leader_spec H2%is_leader_spec. destruct H1 as [[_ H1] _], H2 as [[_ H2] _]; try done.
    unfold leader_of, candidates in *. rewrite Hc, Hp in H2. congruence.
  - intros b Hb. apply (is_leader_spec t c1 b) in Hb. apply Hb. split; [by eexists|]. unfold leader_of. rewrite Hhead. by rewrite Hn.
  - by exists session.
  - intros Hnot b Hb. destruct b; [|done]. apply is_leader_spec in Hb. destruct Hb as [[_ Hb] _]; [done|]. exfalso.
    unfold leader_of in Hb. rewrite Hn2 in Hb. destruct (candidates c2 t) as [|x rest]; [done|]. cbn in *. injection Hb as Hb.
    apply Hnot. rewrite Hb. by left.
  - intros u Hu. by rewrite Hq, decide_False.
Qed.
End Leadership.

(** ** Runs: an etcd that never fails *)

Module EtcdRuns.
(** The keys, and the leader of every election: a campaign gives up when another session leads. *)
Definition store : Type := gmap string (list Byte.byte) * gmap string (Z * string).

#[local] Instance store_client : EtcdClient store := {|
  etcd_Put k v e := ((<[k := v]> e.1, e.2), Ok tt);
  etcd_Get k e := Ok (e.1 !! k);
  etcd_GetPrefix p e := Ok (filter (λ kv, has_prefix p kv.1 = true) (map_to_list e.1));
  etcd_Delete k e := ((delete k e.1, e.2), Ok tt)
|}.

#[local] Program Instance store_laws : EtcdLaws store := {| etcd_keys e := e.1 |}.
Next Obligation. by intros k v e e' [= <-]. Qed.
Next Obligation. by intros k e r [= <-]. Qed.
Next Obligation.
  intros p e kvs [= <-]. split.
  - apply OffsetRuns.NoDup_fst_filter, NoDup_fst_map_to_list.
  - intros k v. rewrite list_elem_of_filter, elem_of_map_to_list. cbn. tauto.
Qed.
Next Obligation. by intros k e e' [= <-]. Qed.

#[local] Program Instance store_faults : EtcdFaults store := {| etcd_delete_any := _ |}.
Next Obligation. intros k e. by right. Qed.

#[local] Instance store_election : EtcdElection store := {|
  etcd_Grant e := (e, Ok 1);
  etcd_PutLease k v _ e := ((<[k := v]> e.1, e.2), Ok tt);
  etcd_KeepAliveOnce _ e := (e, Ok tt);
  el_Campaign k s v e :=
    match e.2 !! k with
    | Some (s', v') => if bool_decide ((s', v') = (s, v)) then (e, Ok tt) else (e, Err CtxDeadlineExceeded)
    | None => ((e.1, <[k := (s, v)]> e.2), Ok tt)
    end;
  el_Resign k s e := ((e.1, match e.2 !! k with Some (s', _) => if bool_decide (s' = s) then delete k e.2 else e.2 | None => e.2 end), Ok tt);
  el_Leader k e := Ok (snd <$> e.2 !! k)
|}.

#[local] Program Instance store_election_laws : ElectionLaws store := {| el_queue e k := option_list (e.2 !! k) |}.
Next Obligation. intros e k. cbn. destruct (e.2 !! k); cbn; [apply NoDup_singleton|constructor]. Qed.
Next Obligation.
  intros k s v e e'. cbn. destruct (e.2 !! k) as [[s' v']|] eqn:El; [case_bool_decide; [simplify_eq|done]|]; intros [= <-]; cbn.
  - by rewrite El.
  - by rewrite lookup_insert_eq.
Qed.
Next Obligation.
  intros k s e e' [= <-] k'. cbn [fst snd]. destruct (decide (k' = k)) as [->|Hne].
  - destruct (e.2 !! k) as [[s' v]|] eqn:El; [|by rewrite El]. case_bool_decide as Hs; cbn [option_list].
    + rewrite lookup_delete_eq. subst s'. cbn. rewrite decide_False by (cbn; tauto). done.
    + rewrite El. cbn. rewrite decide_True by done. done.
  - destruct (e.2 !! k) as [[s' v]|]; [|done]. case_bool_decide; [by rewrite lookup_delete_ne|done].
Qed.
Next Obligation. intros k e r [= <-]. cbn. by destruct (e.2 !! k). Qed.

(** A stored task: its identifier and name. *)
Definition task : Type := string * string.
#[local] Instance task_json : JSONCodec task := countable_codec task.
#[local] Instance task_json_laws : JSONLaws task := countable_codec_laws task.
#[local] Instance position_json : JSONCodec Position := countable_codec Position.
#[local] Instance position_json_laws : JSONLaws Position := countable_codec_laws Position.

Definition start : EtcdCoordinator store := mkEtcdCoordinator (∅, ∅) (Some 7) "/datastream" "n1" ∅ ∅.

Definition ops : list (coord_op (T := task) * bool) :=
  [(OpSaveTask ("t1", "orders"), true); (OpSaveTask ("t2", "users"), true); (OpSavePosition "t1" Position_zero, true); (OpDeleteTask "t1", true)].

Definition s1 : EtcdCoordinator store := (ec_SaveTask fst ("t1", "orders") start).1.
Definition s2 : EtcdCoordinator store := (ec_SaveTask fst ("t2", "users") s1).1.
Definition s3 : EtcdCoordinator store := (ec_SavePosition "t1" Position_zero s2).1.
Definition s4 : EtcdCoordinator store := (ec_DeleteTask "t1" s3).1.

Lemma etcd_coordinator_refines_witness :
  ∃ s', runs (spec_step fst) (mkCoordSpec (T := task) ∅ ∅) ops s' ∧
    ec_GetTask (T := task) "t2" s4 = match cs_tasks s' !! "t2" with Some t => Ok t | None => Err ErrTaskNotFound end ∧
    ec_GetPosition "t1" s4 = Ok (cs_positions s' !! "t1").
Proof.
  destruct (etcd_coordinator_refines fst "/datastream" start (mkCoordSpec (T := task) ∅ ∅) ops s4) as (s' & H0 & H1 & H2 & _).
  - split; done.
  - repeat constructor.
  - eapply runs_cons; [by apply (ok_save fst _ _ s1)|]. eapply runs_cons; [by apply (ok_save fst _ _ s2)|].
    eapply runs_cons; [by apply (ok_position fst _ _ _ s3)|].
    assert (Hd : op_ok fst s3 (OpDeleteTask "t1", position_deleted "t1" s3) s4) by (apply ok_delete; vm_compute; reflexivity).
    assert (Hb : position_deleted "t1" s3 = true) by (vm_compute; reflexivity). rewrite Hb in Hd.
    eapply runs_cons; [exact Hd|]. constructor.
  - exists s'. split; [exact H0|]. split; [exact (H1 "t2" eq_refl)|exact (H2 "t1" eq_refl)].
Defined.

Definition led : EtcdCoordinator store := (ec_AcquireLeadership "t1" start).1.

Lemma etcd_leadership_witness :
  ec_IsLeader "t1" led = Ok true ∧ ec_IsLeader "t1" (ec_ReleaseLeadership "t1" led).1 = Ok false.
Proof.
  destruct (etcd_leadership "t1" start led (ec_ReleaseLeadership "t1" led).1) as (_ & H1 & _ & H2 & _);
    [vm_compute; reflexivity|vm_compute; reflexivity|].
  split.
  - destruct (ec_IsLeader "t1" led) as [b|] eqn:Eb; [by rewrite (H1 b eq_refl)|vm_compute in Eb; discriminate Eb].
  - destruct (ec_IsLeader "t1" (ec_ReleaseLeadership "t1" led).1) as [b|] eqn:Eb;
      [|vm_compute in Eb; discriminate Eb]. rewrite (H2 ltac:(vm_compute; apply not_elem_of_nil) b eq_refl). reflexivity.
Defined.
End EtcdRuns.
