(* ===== verification/Errors.v ===== *)
(** Error codes and what follows from them (pkg/errors): classification, retryability,
    HTTP status codes, and the alerters; and the rate limiter (internal/ratelimit).

    [errors.Cause] and [Error.Equal] of pingcap/errors, the type tests on errors of the
    network and golang.org/x/time/rate are parameters. *)
From Stdlib Require Import ZArith Lia Ascii.
From Stdlib Require String.
From stdpp Require Import prelude countable gmap strings list fin_maps pretty.
From S2P Require Import Prelude Events Strings.
Local Open Scope Z_scope.

(** ** classification.go *)

Inductive ErrorSeverity := SeverityWarning | SeverityRecoverable | SeverityIntervention | SeverityFatal.
Inductive ErrorCategory :=
  | CategoryConnection | CategoryNetwork | CategoryPermission | CategorySchema
  | CategoryData | CategoryConfig | CategoryInternal | CategoryResource.

#[export] Instance ErrorSeverity_eq_dec : EqDecision ErrorSeverity.
Proof. solve_decision. Defined.
#[export] Instance ErrorCategory_eq_dec : EqDecision ErrorCategory.
Proof. solve_decision. Defined.

Record DataStreamError := mkDataStreamError {
  dse_Code : string;
  dse_Severity : ErrorSeverity;
  dse_Category : ErrorCategory;
  dse_Message : string;
  dse_Cause : option goerror
}.

Definition DataStreamError_Error (e : DataStreamError) : string :=
  match dse_Cause e with
  | Some c => dse_Message e +:+ ": " +:+ error_string c
  | None => dse_Message e
  end.

Definition IsRecoverable (e : DataStreamError) : bool := bool_decide (dse_Severity e = SeverityRecoverable).
Definition IsFatal (e : DataStreamError) : bool := bool_decide (dse_Severity e = SeverityFatal).
Definition NeedsIntervention (e : DataStreamError) : bool := bool_decide (dse_Severity e = SeverityIntervention).

Definition NewDataStreamError (code : string) (severity : ErrorSeverity) (category : ErrorCategory) (message : string) :
    DataStreamError := mkDataStreamError code severity category message None.

Section Classification.
(** [errors.As(err, *net.OpError)]. *)
Context (is_OpError : goerror → bool).

Definition ClassifyError (err : option goerror) : option DataStreamError :=
  match err with
  | None => None
  | Some err =>
      let classified code sev cat := Some (mkDataStreamError code sev cat (error_string err) (Some err)) in
      if bool_decide (err = CtxDeadlineExceeded) || bool_decide (err = CtxCanceled)
      then classified "DS:ErrConnectionFailed" SeverityRecoverable CategoryNetwork
      else if bool_decide (err = IoEOF) || bool_decide (err = IoUnexpectedEOF)
      then classified "DS:ErrConnectionFailed" SeverityRecoverable CategoryConnection
      else if is_OpError err
      then classified "DS:ErrConnectionFailed" SeverityRecoverable CategoryNetwork
      else
        let msg := error_string err in
        if strings_Contains msg "connection refused" || strings_Contains msg "timeout"
        then classified "DS:ErrConnectionFailed" SeverityRecoverable CategoryNetwork
        else classified "DS:ErrUnknown" SeverityIntervention CategoryInternal
  end.
End Classification.

(** ** helper.go *)

(** [errors.Unwrap]. *)
Definition errors_Unwrap (e : goerror) : option goerror :=
  match e with ErrWrapf _ c => Some c | _ => None end.

(** The test for an [RFCCode] method, and its answer. *)
Definition rfc_coder (e : goerror) : option string :=
  match e with ErrCode c | ErrCodeArgs c _ => Some c | _ => None end.

(** [RFCCode]: the loop over the chain is the recursion on the error. *)
Fixpoint RFCCode_of (err : goerror) : option string :=
  match rfc_coder err with
  | Some c => Some c
  | None => match err with ErrWrapf _ c => RFCCode_of c | _ => None end
  end.

Definition RFCCode (err : option goerror) : option string := err ≫= RFCCode_of.

Definition unretryableErrors : list string :=
  ["DS:ErrInvalidArgument"; "DS:ErrNotImplemented"; "DS:ErrInvalidConfig"; "DS:ErrConfigNotFound";
   "DS:ErrTaskNotExists"; "DS:ErrTaskAlreadyExists"; "DS:ErrSourceNotExists"; "DS:ErrSinkNotExists";
   "DS:ErrSchemaNotExists"; "DS:ErrSchemaIncompatible"; "DS:ErrSourcePositionLost"; "DS:ErrSourceGCTTLExceeded";
   "DS:ErrTableNotExists"; "DS:ErrTableAlreadyExists"].

Section Helper.
(** [errors.Cause], and [Error.Equal] of the sentinel with a code. *)
Context (errors_Cause : goerror → goerror) (Equal : string → goerror → bool).

Definition IsRetryableError (err : option goerror) : bool :=
  match err with
  | None => false
  | Some err =>
      let cause := errors_Cause err in
      if bool_decide (cause = CtxCanceled) || bool_decide (cause = CtxDeadlineExceeded) then false
      else forallb (λ code, negb (Equal code err)) unretryableErrors
  end.
End Helper.

Definition httpStatusCodeMapping : gmap string Z := list_to_map
  [("DS:ErrUnknown", 500); ("DS:ErrInvalidArgument", 400); ("DS:ErrInternal", 500); ("DS:ErrNotImplemented", 501);
   ("DS:ErrInvalidConfig", 400); ("DS:ErrConfigNotFound", 404); ("DS:ErrTaskNotExists", 404);
   ("DS:ErrTaskAlreadyExists", 409); ("DS:ErrTaskRunning", 409); ("DS:ErrTaskNotRunning", 409);
   ("DS:ErrTaskPaused", 409); ("DS:ErrTaskFailed", 500); ("DS:ErrSourceNotExists", 404); ("DS:ErrSinkNotExists", 404);
   ("DS:ErrSchemaNotExists", 404); ("DS:ErrSchemaIncompatible", 422); ("DS:ErrTableNotExists", 404);
   ("DS:ErrTableAlreadyExists", 409); ("DS:ErrNotLeader", 503); ("DS:ErrCoordinatorTimeout", 503);
   ("DS:ErrCoordinatorUnreachable", 503); ("DS:ErrPipelineStopped", 503); ("DS:ErrPipelineTimeout", 504)].

Definition HTTPStatusCode (err : option goerror) : Z :=
  match err with
  | None => 200
  | Some _ =>
      match RFCCode err with
      | None => 500
      | Some code => default 500 (httpStatusCodeMapping !! code)
      end
  end.

(** ** Proofs *)

(** The status of an error is that of its code however often it is wrapped, is never a
    success, and is 200 exactly for nil. *)
Theorem HTTPStatusCode_wrapped err msgs :
  HTTPStatusCode (Some (foldr ErrWrapf err msgs)) = HTTPStatusCode (Some err) ∧
  400 <= HTTPStatusCode (Some err) < 600.
Proof.
  split.
  - unfold HTTPStatusCode. assert (RFCCode (Some (foldr ErrWrapf err msgs)) = RFCCode (Some err)) as ->; [|done].
    cbn. induction msgs as [|m msgs IH]; [done|]. exact IH.
  - unfold HTTPStatusCode. destruct (RFCCode (Some err)) as [code|]; [|lia].
    assert (Hall : map_Forall (λ _ n, 400 <= n < 600) httpStatusCodeMapping)
      by (apply (bool_decide_unpack _); vm_compute; exact I).
    destruct (httpStatusCodeMapping !! code) as [n|] eqn:En; cbn; [by apply (Hall code)|lia].
Qed.

(** The two judgements of an error disagree on a cancelled or expired context: it is
    classified as recoverable, which means that it can be retried automatically, and is
    never retryable; and no error at all is classified as fatal or as a warning. *)
Theorem classification_disagrees is_OpError errors_Cause Equal err :
  (err = CtxCanceled ∨ err = CtxDeadlineExceeded → errors_Cause err = err →
   from_option IsRecoverable false (ClassifyError is_OpError (Some err)) = true ∧
   IsRetryableError errors_Cause Equal (Some err) = false) ∧
  from_option (λ e, IsRecoverable e || NeedsIntervention e) false (ClassifyError is_OpError (Some err)) = true.
Proof.
  split.
  - intros Herr Hc. unfold ClassifyError, IsRetryableError. rewrite Hc.
    destruct Herr as [->| ->]; by rewrite ?bool_decide_eq_true_2, ?orb_true_r by done.
  - unfold ClassifyError. by repeat case_match.
Qed.

(** ** alerter.go *)

Record Alert := mkAlert {
  al_Level : string;
  al_Title : string;
  al_Message : string;
  al_TaskID : string;
  al_Timestamp : time
}.

Section Alerters.
Context (format_RFC3339 : time → string) (ToUpper : string → string) {W : Type} (write : string → ST W unit).

(** The line a log alerter writes. *)
Definition alert_line (now : time) (a : Alert) : string :=
  let ts := if time_IsZero (al_Timestamp a) then now else al_Timestamp a in
  "[" +:+ ToUpper (al_Level a) +:+ "] [" +:+ format_RFC3339 ts +:+ "] " +:+ al_Title a +:+ ": " +:+ al_Message a +:+
  (if bool_decide (al_TaskID a ≠ "") then " (task: " +:+ al_TaskID a +:+ ")" else "") +:+ String "010"%char "".

Definition LogAlerter_Alert (now : time) (a : Alert) : ST W unit := write (alert_line now a).

(** A webhook: the answer of the server is a status code or an error of the call. *)
Definition WebhookAlerter_Alert (marshalled : result unit) (created : result unit) (sent : result Z) : result unit :=
  match marshalled with
  | Err e => Err (ErrWrapf "marshal alert" e)
  | Ok _ =>
      match created with
      | Err e => Err (ErrWrapf "create request" e)
      | Ok _ =>
          match sent with
          | Err e => Err (ErrWrapf "send webhook" e)
          | Ok status => if 400 <=? status then Err (ErrNew ("webhook returned status " +:+ pretty status)) else Ok tt
          end
      end
  end.
End Alerters.

(** [MultiAlerter]: every alerter is called, errors are printed. *)
Fixpoint MultiAlerter_Alert {W} (alerters : list (Alert → ST W unit)) (a : Alert) : ST W unit :=
  match alerters with
  | [] => mret tt
  | f :: alerters => st_ignore (f a) ≫= λ _, MultiAlerter_Alert alerters a
  end.

(** A multi-alerter hands the alert to each of its alerters, in order, whether or not
    the ones before it failed, and returns nil. *)
Theorem multi_alerter_reaches_all {W} (alerters : list (Alert → ST W unit)) a w :
  (∀ f w, f ∈ alerters → ∀ p, (f a w).2 ≠ Err (Panic p)) →
  MultiAlerter_Alert alerters a w = (foldl (λ w f, (f a w).1) w alerters, Ok tt).
Proof.
  revert w. induction alerters as [|f alerters IH]; intros w Hp; [done|]. cbn.
  pose proof (Hp f w ltac:(left)) as Hf. unfold mbind, ST_bind, st_ignore.
  destruct (f a w) as [w' [u|err]] eqn:Ef; cbn in *.
  - apply IH. intros g w0 Hg. apply Hp. by right.
  - destruct err; try (by apply IH; intros g w0 Hg; apply Hp; right). by destruct (Hf msg).
Qed.

(** ** internal/ratelimit *)

(** golang.org/x/time/rate. *)
Class rate_Limiter (L : Type) := {
  rate_New : Z → Z → L;                 (* limit, burst *)
  rate_AllowN : time → Z → L → L * bool;
  rate_WaitN : Z → ST L unit;
  rate_SetLimit : Z → L → L;
  rate_SetBurst : Z → L → L
}.

Record RateConfig := mkRateConfig {
  rlc_SourceRowsPerSecond : Z;
  rlc_SourceBytesPerSecond : Z;
  rlc_BurstSize : Z
}.

Record Limiter (L : Type) := mkLimiter { rl_rows : option L; rl_bytes : option L }.
Arguments mkLimiter {L}.
Arguments rl_rows {L}.
Arguments rl_bytes {L}.

Section RateLimit.
Context {L : Type} `{!rate_Limiter L}.

Definition NewLimiter (cfg : RateConfig) : Limiter L :=
  mkLimiter
    (if 0 <? rlc_SourceRowsPerSecond cfg then Some (rate_New (rlc_SourceRowsPerSecond cfg) (rlc_BurstSize cfg)) else None)
    (if 0 <? rlc_SourceBytesPerSecond cfg
     then Some (rate_New (rlc_SourceBytesPerSecond cfg) (i64 (rlc_BurstSize cfg * 1000))) else None).

(** A limiter that is nil, or asked for nothing, lets everything pass. *)
Definition allow_part (now : time) (n : Z) (l : option L) : option L * bool :=
  match l with
  | Some l => if 0 <? n then let '(l, ok) := rate_AllowN now n l in (Some l, ok) else (Some l, true)
  | None => (None, true)
  end.

Definition wait_part (n : Z) (l : option L) : option L * result unit :=
  match l with
  | Some l => if 0 <? n then let '(l, r) := rate_WaitN n l in (Some l, r) else (Some l, Ok tt)
  | None => (None, Ok tt)
  end.

Definition WaitRowsAndBytes (rows bytes : Z) : ST (Limiter L) unit := λ rl,
  match wait_part rows (rl_rows rl) with
  | (rl_r, Err e) => (mkLimiter rl_r (rl_bytes rl), Err e)
  | (rl_r, Ok _) => let '(rl_b, r) := wait_part bytes (rl_bytes rl) in (mkLimiter rl_r rl_b, r)
  end.

Definition WaitN (n : Z) : ST (Limiter L) unit := WaitRowsAndBytes n 0.

(** [AllowN] asks the limiter of the rows also for nothing. *)
Definition AllowN (now : time) (n : Z) (rl : Limiter L) : Limiter L * bool :=
  match rl_rows rl with
  | Some l => let '(l, ok) := rate_AllowN now n l in (mkLimiter (Some l) (rl_bytes rl), ok)
  | None => (rl, true)
  end.

Definition AllowRowsAndBytes (now : time) (rows bytes : Z) (rl : Limiter L) : Limiter L * bool :=
  match allow_part now rows (rl_rows rl) with
  | (rl_r, false) => (mkLimiter rl_r (rl_bytes rl), false)
  | (rl_r, true) => let '(rl_b, ok) := allow_part now bytes (rl_bytes rl) in (mkLimiter rl_r rl_b, ok)
  end.

Definition Limiter_SetLimit (limit : Z) (rl : Limiter L) : Limiter L :=
  mkLimiter (rate_SetLimit limit <$> rl_rows rl) (rl_bytes rl).
Definition Limiter_SetBurst (burst : Z) (rl : Limiter L) : Limiter L :=
  mkLimiter (rate_SetBurst burst <$> rl_rows rl) (rl_bytes rl).
Definition SetBytesLimit (limit : Z) (rl : Limiter L) : Limiter L :=
  mkLimiter (rl_rows rl) (rate_SetLimit limit <$> rl_bytes rl).

(** An operation passes exactly when its rows and its bytes do; one that is refused for
    its bytes has used up its rows all the same, one refused for its rows has used no
    bytes. *)
Theorem rate_limits_both now rows bytes rl :
  let '(rl', ok) := AllowRowsAndBytes now rows bytes rl in
  let '(r', ok_r) := allow_part now rows (rl_rows rl) in
  let '(b', ok_b) := allow_part now bytes (rl_bytes rl) in
  ok = ok_r && ok_b ∧ rl_rows rl' = r' ∧ rl_bytes rl' = if ok_r then b' else rl_bytes rl.
Proof.
  unfold AllowRowsAndBytes. destruct (allow_part now rows (rl_rows rl)) as [r' [|]];
    by destruct (allow_part now bytes (rl_bytes rl)) as [b' ok_b].
Qed.
End RateLimit.

(** ** Runs *)

Module ErrorRuns.
(** A bucket of tokens that is never refilled. *)
#[local] Instance bucket : rate_Limiter Z := {|
  rate_New _ burst := burst;
  rate_AllowN _ n l := if n <=? l then (l - n, true) else (l, false);
  rate_WaitN n l := if n <=? l then (l - n, Ok tt) else (l, Err (ErrNew "rate: Wait(n) exceeds limiter's burst"));
  rate_SetLimit _ l := l;
  rate_SetBurst b _ := b
|}.

Example refused_bytes_cost_rows :
  AllowRowsAndBytes 0 5 4000 (NewLimiter (L := Z) (mkRateConfig 10 10 3)) = (mkLimiter (Some 3) (Some 3000), false) ∧
  AllowRowsAndBytes 0 2 4000 (NewLimiter (L := Z) (mkRateConfig 10 10 3)) = (mkLimiter (Some 1) (Some 3000), false).
Proof. split; vm_compute; reflexivity. Qed.

Definition note (ok : bool) (a : Alert) : ST (list string) unit := λ w,
  (w ++ [al_Title a], if ok then Ok tt else Err (ErrNew "unreachable")).

Lemma multi_alerter_reaches_all_witness :
  MultiAlerter_Alert [note false; note true] (mkAlert "fatal" "disk" "full" "" 0) [] = (["disk"; "disk"], Ok tt).
Proof.
  apply (multi_alerter_reaches_all [note false; note true] (mkAlert "fatal" "disk" "full" "" 0) []).
  intros f w Hf p. rewrite !elem_of_cons, elem_of_nil in Hf. by destruct Hf as [->|[->|[]]].
Defined.

Lemma classification_disagrees_witness :
  from_option IsRecoverable false (ClassifyError (λ _, false) (Some CtxCanceled)) = true ∧
  IsRetryableError id (λ _ _, false) (Some CtxCanceled) = false.
Proof. apply (classification_disagrees (λ _, false) id (λ _ _, false) CtxCanceled); [by left|done]. Defined.
End ErrorRuns.
