(* ===== verification/MySQLRows.v ===== *)
(** What the MySQL source knows of tables and rows (internal/source/mysql): the cache of
    table definitions (schema_cache.go) and, of binlog_syncer.go, wildcard patterns, the
    recognition of DDL, column types and the conversion of rows.

    The answers of INFORMATION_SCHEMA are a parameter.  Types and statements are folded
    to one case by their ASCII letters. *)
From Stdlib Require Import ZArith Lia Ascii.
From Stdlib Require String.
From stdpp Require Import prelude countable gmap strings list fin_maps.
From S2P Require Import Prelude Events Strings SchemaHistory.
Local Open Scope Z_scope.

(** ** Wildcards *)

Definition star : ascii := "*".
Definition question : ascii := "?".

(** A cell of the table from its neighbours. *)
Definition dp_cell (c x : ascii) (diag up left : bool) : bool :=
  if bool_decide (c = star) then up || left
  else if bool_decide (c = question) then diag
  else diag && bool_decide (c = x).

(** The rest of a row of the table after the cell [left]: [prev] holds the row above from
    the column of [left] on. *)
Fixpoint fill_row (c : ascii) (prev : list bool) (left : bool) (s : list ascii) : list bool :=
  match prev, s with
  | diag :: ((up :: _) as prev), x :: s => dp_cell c x diag up left :: fill_row c prev (dp_cell c x diag up left) s
  | _, _ => []
  end.

(** A row from the one above. *)
Definition next_row (s : list ascii) (prev : list bool) (c : ascii) : list bool :=
  let first := if bool_decide (c = star) then default false (head prev) else false in
  first :: fill_row c prev first s.

Definition wildcardMatch (pattern s : string) : bool :=
  let text := String.list_ascii_of_string s in
  let row0 := true :: replicate (length text) false in
  default false (last (foldl (next_row text) row0 (String.list_ascii_of_string pattern))).

Definition matchPattern (pattern s : string) : bool :=
  if bool_decide (pattern = "*") then true else wildcardMatch pattern s.

(** *** What a pattern means *)

(** The texts one character of a pattern stands for. *)
Definition stands_for (c : ascii) (s : list ascii) : Prop :=
  if decide (c = star) then True
  else if decide (c = question) then length s = 1%nat
  else s = [c].

Definition glob (p s : list ascii) : Prop := ∃ parts, s = concat parts ∧ Forall2 stands_for p parts.

Lemma glob_snoc p c s : glob (p ++ [c]) s ↔ ∃ a b, s = a ++ b ∧ glob p a ∧ stands_for c b.
Proof.
  split.
  - intros (parts & -> & (xs & ys & Hp & Hc & ->)%Forall2_app_inv_l).
    apply Forall2_cons_inv_l in Hc as (b & l & Hb & ->%Forall2_nil_inv_l & ->).
    exists (concat xs), b. rewrite concat_app. cbn. rewrite app_nil_r. split; [done|]. split; [by exists xs|done].
  - intros (a & b & -> & (xs & -> & Hp) & Hb). exists (xs ++ [b]). rewrite concat_app. cbn. rewrite app_nil_r.
    split; [done|]. apply Forall2_app; [done|]. by repeat constructor.
Qed.

Lemma glob_nil s : glob [] s ↔ s = [].
Proof.
  split; [by intros (parts & -> & ->%Forall2_nil_inv_l)|]. intros ->. exists []. by split; [|constructor].
Qed.

Lemma glob_star_nil p : glob (p ++ [star]) [] ↔ glob p [].
Proof.
  rewrite glob_snoc. split; [|intros Hp; by exists [], []].
  by intros (a & b & [-> ->]%eq_sym%app_eq_nil & Hp & _).
Qed.

Lemma glob_star_snoc p t x : glob (p ++ [star]) (t ++ [x]) ↔ glob p (t ++ [x]) ∨ glob (p ++ [star]) t.
Proof.
  rewrite !glob_snoc. split.
  - intros (a & b & E & Hp & _). destruct b as [|y b _] using rev_ind; [left; by rewrite app_nil_r in E; rewrite E|].
    rewrite app_assoc in E. apply app_inj_tail in E as [-> ->]. right. by exists a, b.
  - intros [Hp|(a & b & -> & Hp & _)]; [exists (t ++ [x]), []|exists a, (b ++ [x])].
    + by rewrite app_nil_r.
    + by rewrite app_assoc.
Qed.

Lemma stands_for_one c b : c ≠ star → stands_for c b ↔ ∃ x, b = [x] ∧ (c = question ∨ c = x).
Proof.
  intros Hc. unfold stands_for. rewrite decide_False by done. destruct (decide (c = question)) as [->|Hq].
  - split; [|by intros (x & -> & _)]. intros Hb. destruct b as [|x [|]]; try done. exists x. auto.
  - split; [intros ->; exists c; auto|]. by intros (x & -> & [?| ->]).
Qed.

Lemma glob_char_nil p c : c ≠ star → ¬ glob (p ++ [c]) [].
Proof.
  intros Hc. rewrite glob_snoc. intros (a & b & [-> ->]%eq_sym%app_eq_nil & _ & Hb).
  apply stands_for_one in Hb as (x & Hb & _); done.
Qed.

Lemma glob_char_snoc p c t x :
  c ≠ star → glob (p ++ [c]) (t ++ [x]) ↔ glob p t ∧ (c = question ∨ c = x).
Proof.
  intros Hc. rewrite glob_snoc. split.
  - intros (a & b & E & Hp & (y & -> & Hy)%stands_for_one); [|done]. apply app_inj_tail in E as [-> ->]. auto.
  - intros [Hp Hx]. exists t, [x]. split_and!; [done|done|]. apply stands_for_one; [done|]. by exists x.
Qed.

(** The prefixes of a text, from a given one on; a row of the table is right when its
    cells decide them. *)
Fixpoint prefixes (pre s : list ascii) : list (list ascii) :=
  match s with [] => [pre] | x :: s => pre :: prefixes (pre ++ [x]) s end.

Definition row_decides (p pre s : list ascii) (row : list bool) : Prop :=
  Forall2 (λ b t, b = true ↔ glob p t) row (prefixes pre s).

Lemma fill_row_decides p c s : ∀ pre prev left,
  row_decides p pre s prev → (left = true ↔ glob (p ++ [c]) pre) →
  row_decides (p ++ [c]) pre s (left :: fill_row c prev left s).
Proof.
  unfold row_decides. induction s as [|x s IH]; intros pre prev left Hprev Hleft; cbn [prefixes] in *.
  - constructor; [done|]. destruct prev as [|? [|]]; constructor.
  - apply Forall2_cons_inv_r in Hprev as (diag & prev' & Hdiag & Hprev & ->).
    destruct prev' as [|up prev']; [destruct s; inversion Hprev|].
    change (fill_row c (diag :: up :: prev') left (x :: s))
      with (dp_cell c x diag up left :: fill_row c (up :: prev') (dp_cell c x diag up left) s).
    constructor; [done|]. apply IH; [done|]. assert (Hup : up = true ↔ glob p (pre ++ [x])) by (destruct s; by inversion Hprev).
    unfold dp_cell. case_bool_decide as Es; [subst c; by rewrite orb_true_iff, glob_star_snoc, Hup, Hleft|].
    rewrite glob_char_snoc by done. case_bool_decide as Eq; [rewrite Hdiag; tauto|].
    rewrite andb_true_iff, bool_decide_eq_true, Hdiag. tauto.
Qed.

Lemma next_row_decides p s row c : row_decides p [] s row → row_decides (p ++ [c]) [] s (next_row s row c).
Proof.
  intros Hrow. apply fill_row_decides; [done|].
  assert (Hhd : default false (head row) = true ↔ glob p []).
  { destruct s; cbn [prefixes] in Hrow; unfold row_decides in Hrow; inversion Hrow; subst; done. }
  case_bool_decide as Es; [subst c; by rewrite glob_star_nil|].
  split; [done|]. intros []%glob_char_nil; done.
Qed.

Lemma last_prefix s : ∀ pre, last (prefixes pre s) = Some (pre ++ s).
Proof.
  induction s as [|x s IH]; intros pre; cbn [prefixes]; [by rewrite app_nil_r|].
  rewrite last_cons, IH, <- app_assoc. done.
Qed.

Lemma first_row_decides s : row_decides [] [] s (true :: replicate (length s) false).
Proof.
  unfold row_decides. assert (H : ∀ s pre, pre ≠ [] →
    Forall2 (λ b t, b = true ↔ glob [] t) (replicate (S (length s)) false) (prefixes pre s)).
  { clear. induction s as [|x s IH]; intros pre Hne; cbn; (constructor; [rewrite glob_nil; by split|]).
    - constructor.
    - apply IH. by destruct pre. }
  destruct s as [|x s]; cbn; (constructor; [rewrite glob_nil; done|]); [constructor|]. by apply H.
Qed.

(** The table of [wildcardMatch] decides the meaning of patterns: a star stands for
    any text, a question mark for one byte, every other byte for itself. *)
Theorem wildcard_equivalence pattern s :
  matchPattern pattern s = true ↔ glob (String.list_ascii_of_string pattern) (String.list_ascii_of_string s).
Proof.
  unfold matchPattern. case_bool_decide as E.
  - subst pattern. split; [|done]. intros _. exists [String.list_ascii_of_string s]. cbn. rewrite app_nil_r.
    split; [done|]. by repeat constructor.
  - unfold wildcardMatch. set (t := String.list_ascii_of_string s).
    assert (H : ∀ q p row, row_decides p [] t row → row_decides (p ++ q) [] t (foldl (next_row t) row q)).
    { induction q as [|c q IH]; intros p row Hrow; cbn [foldl]; [by rewrite app_nil_r|].
      replace (p ++ c :: q) with ((p ++ [c]) ++ q) by (by rewrite <- app_assoc). by apply IH, next_row_decides. }
    specialize (H (String.list_ascii_of_string pattern) [] _ (first_row_decides t)). cbn [app] in H.
    apply Forall2_last in H. rewrite last_prefix in H. by inversion H as [b ? Hb E1|]; subst.
Qed.

(** ** Statements and types *)

Definition ddl_words : list string := ["CREATE "; "ALTER "; "DROP "; "TRUNCATE "; "RENAME "].

Definition isDDL (query : string) : bool :=
  let upper := strings_ToUpper (strings_TrimSpace query) in
  existsb (λ w, String.prefix w upper) ddl_words.

Definition mapColumnType (rawType : string) : string :=
  let rawType := strings_ToLower rawType in
  let has (words : list string) := existsb (strings_Contains rawType) words in
  if has ["int"; "float"; "double"; "decimal"; "numeric"] then "number"
  else if has ["date"; "time"; "timestamp"; "year"] then "datetime"
  else if has ["char"; "varchar"; "text"; "blob"; "binary"; "enum"; "set"; "json"] then "string"
  else if has ["bit"] then "bit"
  else if has ["geometry"; "point"; "linestring"; "polygon"] then "geometry"
  else "unknown".

(** ** Rows *)

Definition row_field (col : ColumnInfo) (v : value) : Field :=
  mkField (ci_Name col) v (if bool_decide (ci_Type col ≠ "") then mapColumnType (ci_Type col) else "unknown") false.

(** The loop of [buildRowData]: it stops where the row does. *)
Fixpoint row_fields (columns : list ColumnInfo) (values : list value) (m : gmap string Field) : gmap string Field :=
  match columns, values with
  | col :: columns, v :: values => row_fields columns values (<[ci_Name col := row_field col v]> m)
  | _, _ => m
  end.

Definition buildRowData (columns : list ColumnInfo) (values : list value) : RowData :=
  mkRowData (Some (row_fields columns values ∅)).

Lemma row_fields_other columns : ∀ values m k,
  k ∉ ci_Name <$> columns → row_fields columns values m !! k = m !! k.
Proof.
  induction columns as [|c columns IH]; intros [|v values] m k Hk; cbn [row_fields]; try done.
  rewrite fmap_cons in Hk. apply not_elem_of_cons in Hk as [Hne Hk].
  rewrite IH by done. by rewrite lookup_insert_ne.
Qed.

Lemma row_fields_lookup columns : ∀ values m i c v,
  NoDup (ci_Name <$> columns) → columns !! i = Some c → values !! i = Some v →
  row_fields columns values m !! ci_Name c = Some (row_field c v).
Proof.
  induction columns as [|c0 columns IH]; intros [|v0 values] m [|i] c v Hnd Hc Hv; cbn in Hc, Hv; try done;
    rewrite fmap_cons in Hnd; apply NoDup_cons in Hnd as [Hn Hnd]; simplify_eq; cbn [row_fields].
  - rewrite row_fields_other by done. by rewrite lookup_insert_eq.
  - by apply IH with i.
Qed.

Lemma row_fields_missing columns : ∀ values m k,
  m !! k = None → (∀ i c, columns !! i = Some c → ci_Name c = k → (length values <= i)%nat) →
  row_fields columns values m !! k = None.
Proof.
  induction columns as [|c columns IH]; intros [|v values] m k Hm Hi; cbn [row_fields]; try done.
  apply IH.
  - rewrite lookup_insert_ne; [done|]. intros Hn. specialize (Hi 0%nat c eq_refl Hn). cbn in Hi. lia.
  - intros i c' Hc Hn. specialize (Hi (S i) c' Hc Hn). cbn in Hi. lia.
Qed.

(** The row an event carries: one field per column that has a value, and no other. *)
Definition holds_row (columns : list ColumnInfo) (values : list value) (r : RowData) : Prop :=
  ∀ name f, rd_lookup r name = Some f ↔
    ∃ i c v, columns !! i = Some c ∧ values !! i = Some v ∧ ci_Name c = name ∧ f = row_field c v.

Lemma buildRowData_holds columns values :
  NoDup (ci_Name <$> columns) → holds_row columns values (buildRowData columns values).
Proof.
  intros Hnd name f. unfold rd_lookup, buildRowData. cbn [rd_Fields mbind option_bind]. split.
  - intros Hf. assert (Hex : ∃ i c v, columns !! i = Some c ∧ values !! i = Some v ∧ ci_Name c = name).
    { destruct (list_find (λ c, ci_Name c = name) columns) as [[i c]|] eqn:E.
      - apply list_find_Some in E as (Hc & Hn & _). destruct (values !! i) as [v|] eqn:Ev; [by exists i, c, v|].
        exfalso. erewrite row_fields_missing in Hf; [done|done|]. intros j c' Hc' Hn'.
        assert (j = i) as ->; [|by apply lookup_ge_None_1].
        apply (NoDup_lookup (ci_Name <$> columns) j i name); [done| |].
        + by rewrite list_lookup_fmap, Hc'; cbn; rewrite Hn'.
        + by rewrite list_lookup_fmap, Hc; cbn; rewrite Hn.
      - exfalso. apply list_find_None in E. erewrite row_fields_other in Hf; [done|].
        intros (c & -> & Hc)%list_elem_of_fmap. rewrite Forall_forall in E. by apply (E c). }
    destruct Hex as (i & c & v & Hc & Hv & Hn). exists i, c, v. split_and!; [done..|]. subst name.
    erewrite row_fields_lookup in Hf by done. by simplify_eq.
  - intros (i & c & v & Hc & Hv & <- & ->). by apply row_fields_lookup with i.
Qed.

(** The images of the rows of a log event: updates come in pairs, and one without its
    second half is dropped. *)
Fixpoint update_pairs (rows : list (list value)) : list (list value * list value) :=
  match rows with b :: a :: rows => (b, a) :: update_pairs rows | _ => [] end.

(** ** The cache of table definitions *)

(** A row of INFORMATION_SCHEMA.COLUMNS. *)
Record column_row := mkColumnRow {
  cr_name : string; cr_dataType : string; cr_isNullable : string; cr_columnKey : string; cr_columnType : string }.

(** The answer to the query of a table: the rows that came, each of which scans or not,
    and the error that cut them off, if one did. *)
Definition columns_answer : Type := result (list (result column_row) * option goerror).

Fixpoint scan_columns (rows : list (result column_row)) (cols : list ColumnInfo) (keys : list string) :
    result (list ColumnInfo * list string) :=
  match rows with
  | [] => Ok (cols, keys)
  | Err e :: _ => Err (ErrWrapf "failed to scan column" e)
  | Ok r :: rows =>
      scan_columns rows
        (cols ++ [mkColumnInfo (cr_name r) (cr_columnType r) (bool_decide (cr_isNullable r = "YES")) 0 0])
        (if bool_decide (cr_columnKey r = "PRI") then keys ++ [cr_name r] else keys)
  end.

(** [rows.Err] is not asked. *)
Definition querySchema (answer : columns_answer) (database table : string) : result TableInfo :=
  match answer with
  | Err e => Err (ErrWrapf "failed to query columns" e)
  | Ok (rows, _) =>
      '(cols, keys) ← scan_columns rows [] [];
      match cols with
      | [] => Err (ErrNew ("table " +:+ database +:+ "." +:+ table +:+ " not found"))
      | _ => Ok (mkTableInfo database "" table keys [] cols)
      end
  end.

Notation TableSchemaCache := (gmap string TableInfo) (only parsing).

Section Cache.
Context (db : string → string → columns_answer).

Definition cache_Get (database table : string) : ST TableSchemaCache TableInfo := λ c,
  match c !! tableKey database table with
  | Some info => (c, Ok info)
  | None =>
      match querySchema (db database table) database table with
      | Ok info => (<[tableKey database table := info]> c, Ok info)
      | Err e => (c, Err e)
      end
  end.

Definition cache_Update (database table : string) (info : TableInfo) (c : TableSchemaCache) : TableSchemaCache :=
  <[tableKey database table := info]> c.

Definition cache_Invalidate (database table : string) (c : TableSchemaCache) : TableSchemaCache :=
  delete (tableKey database table) c.

Definition cache_InvalidateAll (c : TableSchemaCache) : TableSchemaCache := ∅.

Definition cache_All (c : option TableSchemaCache) : TableSchemaCache := default ∅ c.

Definition cache_Refresh (database table : string) : ST TableSchemaCache unit := λ c,
  match querySchema (db database table) database table with
  | Ok info => (cache_Update database table info c, Ok tt)
  | Err e => (c, Err e)
  end.
End Cache.
