(* ===== verification/DDLApply.v ===== *)
(** What a DDL statement makes of a table definition: the results of the parsers
    (pkg/parser/parser.go), [ApplyDDL] of the four dialects (mysql_parser.go,
    postgres_parser.go, oracle_parser.go, sqlserver_parser.go) and the no-op parser, and
    the registry.

    Parsing itself is done by parsers generated from grammars: it is a parameter. *)
From Stdlib Require Import ZArith Lia Ascii.
From Stdlib Require String.
From stdpp Require Import prelude countable gmap strings list fin_maps pretty.
From S2P Require Import Prelude Events Strings TableLifecycle Scope Filters BinlogConsumer.
Local Open Scope Z_scope.

(** ** parser.go *)

Record parser_ColumnInfo := mkParserColumn {
  pc_Name : string;
  pc_Type : string;
  pc_Nullable : bool;
  pc_DefaultValue : option string;                (* nil or a text *)
  pc_AutoIncrement : bool
}.

(** A column of which only these are set. *)
Definition parser_column (name typ : string) (nullable : bool) : parser_ColumnInfo := mkParserColumn name typ nullable None false.

Record ColumnModification := mkColumnModification { cm_Old : parser_ColumnInfo; cm_New : parser_ColumnInfo }.

Record parser_TableInfo := mkParserTable {
  pt_Database : string;
  pt_Name : string;
  pt_Columns : list parser_ColumnInfo;
  pt_PrimaryKey : list string
}.

Record TableChanges := mkTableChanges {
  tc_Operation : string;
  tc_Table : option parser_TableInfo;
  tc_AddedColumns : list parser_ColumnInfo;
  tc_DroppedColumns : list string;
  tc_ModifiedColumns : list ColumnModification;
  tc_PrimaryKeyChange : option (list string)      (* NewColumns *)
}.

Record IndexChanges := mkIndexChanges {
  ic_IndexName : string;
  ic_TableName : string;
  ic_DatabaseName : string;
  ic_Operation : string
}.

Record ParsedDDL := mkParsedDDL {
  pd_Type : string;
  pd_Database : string;
  pd_Table : string;
  pd_Statement : string;
  pd_TableChanges : option TableChanges;
  pd_IndexChanges : option IndexChanges;
  pd_NewTableInfo : option TableInfo
}.

Definition DDLTypeAlterDatabase : string := "alter_database".
Definition DDLTypeTruncate : string := "truncate_table".
Definition DDLTypeCreateIndex : string := "create_index".
Definition DDLTypeDropIndex : string := "drop_index".
Definition DDLTypeCreateView : string := "create_view".
Definition DDLTypeDropView : string := "drop_view".
Definition DDLTypeUnknown : string := "unknown".

Definition TableOpCreate : string := "create".
Definition TableOpAlter : string := "alter".

(** [DDLResults.Add] *)
Definition DDLResults_Add (r : option ParsedDDL) (rs : list ParsedDDL) : list ParsedDDL :=
  match r with Some r => rs ++ [r] | None => rs end.

(** A parser: the texts it splits a statement into, and what it makes of a table.  A nil
    result is [None]. *)
Record SQLParser := mkSQLParser {
  ps_Parse : string → result (list ParsedDDL);
  ps_ApplyDDL : option TableInfo → string → result (option ParsedDDL)
}.

(** ** Types *)

Definition strings_TrimSuffix (s suffix : string) : string :=
  if has_prefix (string_rev suffix) (string_rev s)
  then string_rev (drop_prefix (string_rev suffix) (string_rev s)) else s.

Definition all_digits (s : string) : bool := forallb is_digit (String.list_ascii_of_string s).

(** The number [strconv.Atoi] returns, whatever its error: nothing it cannot read is 0,
    and a number out of range is cut to the range. *)
Definition Atoi_value (s : string) : Z :=
  let '(neg, body) := split_sign s in
  if bool_decide (body = "") || negb (all_digits body) then 0
  else
    let v := (scan_digits body 0 0).1 in
    Z.max min_int64 (Z.min max_int64 (if neg then - v else v)).

Inductive dialect := MySQLDialect | PostgresDialect | OracleDialect | SQLServerDialect.

(** The first parameter of a type. *)
Definition type_length (d : dialect) (p : string) : Z :=
  let p := strings_TrimSpace p in
  match d with
  | SQLServerDialect => if bool_decide (p = "MAX") then -1 else default 0 (Sscanf_d p)
  | _ => Atoi_value p
  end.

Definition type_scale (d : dialect) (p : string) : Z :=
  let p := strings_TrimSpace p in
  match d with SQLServerDialect => default 0 (Sscanf_d p) | _ => Atoi_value p end.

Definition parseTypeString (d : dialect) (typeStr : string) : string * Z * Z :=
  match split_first "("%char typeStr with
  | None => (strings_ToUpper typeStr, 0, 0)
  | Some (base, rest) =>
      let params := strings_TrimSuffix rest ")" in
      match split_first ","%char params with
      | None => (strings_ToUpper base, type_length d params, 0)
      | Some (p, q) => (strings_ToUpper base, type_length d p, type_scale d q)
      end
  end.

Definition convertToEventColumn (d : dialect) (col : parser_ColumnInfo) : ColumnInfo :=
  let '(t, len, scale) := parseTypeString d (pc_Type col) in
  mkColumnInfo (pc_Name col) t (pc_Nullable col) len scale.

Definition buildEventTableInfo (d : dialect) (ti : parser_TableInfo) : TableInfo :=
  mkTableInfo (pt_Database ti) "" (pt_Name ti) (pt_PrimaryKey ti) []
    (convertToEventColumn d <$> pt_Columns ti).

(** ** ALTER TABLE *)

(** [mergeEventColumn] of PostgreSQL. *)
Definition mergeEventColumn (existing : ColumnInfo) (change : parser_ColumnInfo) : ColumnInfo :=
  let name := if bool_decide (pc_Name change ≠ "") then pc_Name change else ci_Name existing in
  let '(t, len, scale) :=
    if bool_decide (pc_Type change ≠ "") then parseTypeString PostgresDialect (pc_Type change)
    else (ci_Type existing, ci_Length existing, ci_Scale existing) in
  mkColumnInfo name t (pc_Nullable change) len scale.

(** What replaces a column that is modified. *)
Definition modified_column (d : dialect) (col : ColumnInfo) (new : parser_ColumnInfo) : ColumnInfo :=
  match d with
  | MySQLDialect | SQLServerDialect => convertToEventColumn d new
  | PostgresDialect => mergeEventColumn col new
  | OracleDialect =>
      if bool_decide (pc_Type new ≠ "") then convertToEventColumn d new
      else mkColumnInfo (pc_Name new) (ci_Type col) (ci_Nullable col) (ci_Length col) (ci_Scale col)
  end.

(** The first column of a name is dropped or replaced. *)
Fixpoint drop_column (name : string) (cols : list ColumnInfo) : list ColumnInfo :=
  match cols with
  | [] => []
  | c :: cols => if bool_decide (ci_Name c = name) then cols else c :: drop_column name cols
  end.

Fixpoint modify_column (d : dialect) (chg : ColumnModification) (cols : list ColumnInfo) : list ColumnInfo :=
  match cols with
  | [] => []
  | c :: cols =>
      if bool_decide (ci_Name c = pc_Name (cm_Old chg)) then modified_column d c (cm_New chg) :: cols
      else c :: modify_column d chg cols
  end.

Definition alter_columns (d : dialect) (ch : TableChanges) (cols : list ColumnInfo) : list ColumnInfo :=
  foldl (λ cols m, modify_column d m cols)
    (foldl (λ cols n, drop_column n cols) (cols ++ (convertToEventColumn d <$> tc_AddedColumns ch)) (tc_DroppedColumns ch))
    (tc_ModifiedColumns ch).

Definition applyAlterChanges (d : dialect) (table : TableInfo) (changes : option TableChanges) : TableInfo :=
  match changes with
  | None => table
  | Some ch =>
      mkTableInfo (ti_Database table) (ti_Schema table) (ti_Table table)
        (default (ti_PrimaryKeyColumns table) (tc_PrimaryKeyChange ch)) (ti_UniqueKeyColumns table)
        (alter_columns d ch (ti_Columns table))
  end.

(** ** ApplyDDL *)

Definition with_new_table (info : option TableInfo) (r : ParsedDDL) : ParsedDDL :=
  mkParsedDDL (pd_Type r) (pd_Database r) (pd_Table r) (pd_Statement r) (pd_TableChanges r) (pd_IndexChanges r) info.

Definition ApplyDDL_of (d : dialect) (parse : string → result (list ParsedDDL)) (oldTable : option TableInfo) (ddl : string) :
    result (option ParsedDDL) :=
  match parse ddl with
  | Err e => Err (ErrWrapf "parse DDL" e)
  | Ok [] => Err (ErrNew "no DDL result parsed")
  | Ok (r :: _) =>
      if bool_decide (pd_Type r = DDLTypeCreateTable) then
        Ok (Some (match pd_TableChanges r ≫= tc_Table with
                  | Some t => with_new_table (Some (buildEventTableInfo d t)) r
                  | None => r
                  end))
      else if bool_decide (pd_Type r = DDLTypeAlterTable) then
        match oldTable with
        | None => Err (ErrNew "oldTable is required for ALTER TABLE")
        | Some old => Ok (Some (with_new_table (Some (applyAlterChanges d old (pd_TableChanges r))) r))
        end
      else if bool_decide (pd_Type r = DDLTypeDropTable) then Ok (Some (with_new_table None r))
      else
        Ok (Some (match oldTable with Some old => with_new_table (Some old) r | None => r end))
  end.

Definition dialect_parser (d : dialect) (parse : string → result (list ParsedDDL)) : SQLParser :=
  mkSQLParser parse (ApplyDDL_of d parse).

(** The packages of the other dialects have these functions each, with the differences above. *)
Definition oracle_parseTypeString (typeStr : string) : string * Z * Z := parseTypeString OracleDialect typeStr.
Definition oracle_convertToEventColumn (col : parser_ColumnInfo) : ColumnInfo := convertToEventColumn OracleDialect col.
Definition oracle_buildEventTableInfo (ti : parser_TableInfo) : TableInfo := buildEventTableInfo OracleDialect ti.
Definition oracle_applyAlterChanges (table : TableInfo) (changes : option TableChanges) : TableInfo := applyAlterChanges OracleDialect table changes.
Definition oracle_ApplyDDL (parse : string → result (list ParsedDDL)) (oldTable : option TableInfo) (ddl : string) : result (option ParsedDDL) :=
  ApplyDDL_of OracleDialect parse oldTable ddl.
Definition pg_parseTypeString (typeStr : string) : string * Z * Z := parseTypeString PostgresDialect typeStr.
Definition pg_convertToEventColumn (col : parser_ColumnInfo) : ColumnInfo := convertToEventColumn PostgresDialect col.
Definition pg_buildEventTableInfo (ti : parser_TableInfo) : TableInfo := buildEventTableInfo PostgresDialect ti.
Definition pg_applyAlterChanges (table : TableInfo) (changes : option TableChanges) : TableInfo := applyAlterChanges PostgresDialect table changes.
Definition pg_ApplyDDL (parse : string → result (list ParsedDDL)) (oldTable : option TableInfo) (ddl : string) : result (option ParsedDDL) :=
  ApplyDDL_of PostgresDialect parse oldTable ddl.
Definition mssql_convertToEventColumn (col : parser_ColumnInfo) : ColumnInfo := convertToEventColumn SQLServerDialect col.
Definition mssql_buildEventTableInfo (ti : parser_TableInfo) : TableInfo := buildEventTableInfo SQLServerDialect ti.
Definition mssql_applyAlterChanges (table : TableInfo) (changes : option TableChanges) : TableInfo := applyAlterChanges SQLServerDialect table changes.
Definition mssql_ApplyDDL (parse : string → result (list ParsedDDL)) (oldTable : option TableInfo) (ddl : string) : result (option ParsedDDL) :=
  ApplyDDL_of SQLServerDialect parse oldTable ddl.

(** *** noop_parser.go *)

Definition noop_Parse (ddl : string) : result (list ParsedDDL) :=
  Ok [mkParsedDDL DDLTypeUnknown "" "" ddl None None None].

Definition noop_parser : SQLParser := mkSQLParser noop_Parse (λ _ _, Ok None).

(** ** registry.go *)

Notation Registry := (gmap string SQLParser) (only parsing).

Definition parsers_New : Registry := ∅.
Definition parsers_Register (connectorType : string) (p : SQLParser) (r : Registry) : Registry := <[connectorType := p]> r.
Definition parsers_Get (r : Registry) (connectorType : string) : option SQLParser := r !! connectorType.
Definition parsers_Unregister (connectorType : string) (r : Registry) : Registry := delete connectorType r.

(** ** Properties *)

(** *** Column types are given back *)

(** A type as a statement writes it. *)
Definition print_type (base : string) (params : list Z) : string :=
  match params with
  | [] => base
  | _ => base +:+ String "(" (join "," (pretty <$> params) +:+ ")")
  end.

Lemma TrimSuffix_app s suffix : strings_TrimSuffix (s +:+ suffix) suffix = s.
Proof.
  unfold strings_TrimSuffix. rewrite string_rev_app, has_prefix_app, drop_prefix_app. apply string_rev_involutive.
Qed.

Lemma all_digits_pretty (x : N) : all_digits (pretty x) = true.
Proof.
  unfold all_digits. apply forallb_forall. intros c Hc. apply (pretty_digits x).
  revert Hc. generalize (pretty x). induction s as [|a s IH]; cbn; [done|].
  intros [->|Hc]; [by rewrite bool_decide_eq_true_2|]. by rewrite IH, orb_true_r.
Qed.

Lemma Atoi_pretty (z : Z) : min_int64 <= z <= max_int64 → Atoi_value (pretty z) = z.
Proof.
  intros Hz. unfold Atoi_value. destruct (pretty_Z_sign z) as (neg & x & Hx & Hp).
  assert (Hs : split_sign (pretty z) = (neg, pretty x)).
  { rewrite Hp. destruct neg; [done|]. destruct (pretty_head x) as (c & s & -> & Hc). by apply split_sign_digit. }
  rewrite Hs, all_digits_pretty, bool_decide_eq_false_2.
  2: { destruct (pretty_head x) as (c & s & -> & _). done. }
  cbn [orb negb]. destruct (scan_pretty x) as [k ->]. cbn [fst]. rewrite <- Hx. lia.
Qed.

Lemma Sscanf_pretty (z : Z) : min_int64 <= z <= max_int64 → Sscanf_d (pretty z) = Some z.
Proof.
  intros Hz. unfold Sscanf_d. destruct (scan_pretty_Z z) as (neg & body & k & v & -> & -> & _ & Hv).
  rewrite <- Hv. by rewrite !(proj2 (Z.leb_le _ _)) by lia.
Qed.

Lemma type_params_pretty d (z : Z) :
  min_int64 <= z <= max_int64 → type_length d (pretty z) = z ∧ type_scale d (pretty z) = z.
Proof.
  intros Hz. unfold type_length, type_scale. rewrite (TrimSpace_neat _ (neat_pretty_Z z)).
  assert (Hmax : pretty z ≠ "MAX").
  { intros E. destruct (pretty_Z_head z) as (c & s & Hp & Hc). rewrite E in Hp. injection Hp as <- _. by destruct Hc. }
  destruct d; rewrite ?Atoi_pretty, ?bool_decide_eq_false_2, ?Sscanf_pretty by done; done.
Qed.

Lemma pretty_Z_no_comma (z : Z) : has_char "," (pretty z) = false.
Proof.
  destruct (has_char "," (pretty z)) eqn:E; [|done]. apply pretty_Z_chars in E as [E|E]; done.
Qed.

(** A type printed with its parameters is parsed back, in every dialect: the base in
    upper case, the length and the scale; missing parameters are 0. *)
Theorem type_roundtrip d base params :
  has_char "(" base = false → (length params <= 2)%nat → Forall (λ z, min_int64 <= z <= max_int64) params →
  parseTypeString d (print_type base params) =
  (strings_ToUpper base, default 0 (params !! 0%nat), default 0 (params !! 1%nat)).
Proof.
  intros Hb Hlen Hz. unfold parseTypeString, print_type.
  assert (Hnone : split_first "(" base = None).
  { destruct (split_first "(" base) as [[l r]|] eqn:E; [|done]. apply split_first_inv in E as [-> _].
    rewrite has_char_app in Hb. apply orb_false_iff in Hb as [_ Hb]. cbn in Hb. by rewrite bool_decide_eq_true_2 in Hb. }
  destruct params as [|a [|b [|]]]; cbn [length] in Hlen; [by rewrite Hnone| | |lia].
  - apply Forall_cons in Hz as [Ha _]. destruct (type_params_pretty d a Ha) as [Hl _].
    rewrite split_first_app, TrimSuffix_app by done. cbn [fmap list_fmap join].
    destruct (split_first "," (pretty a)) as [[l r]|] eqn:E; [|by rewrite Hl].
    exfalso. apply split_first_inv in E as [E _]. pose proof (pretty_Z_no_comma a) as Hn.
    rewrite E, has_char_app in Hn. apply orb_false_iff in Hn as [_ Hn]. cbn in Hn. by rewrite bool_decide_eq_true_2 in Hn.
  - apply Forall_cons in Hz as [Ha [Hb' _]%Forall_cons].
    destruct (type_params_pretty d a Ha) as [Hl _]. destruct (type_params_pretty d b Hb') as [_ Hs].
    rewrite split_first_app, TrimSuffix_app by done. cbn [fmap list_fmap].
    change (join "," [pretty a; pretty b]) with (pretty a +:+ String "," (pretty b)).
    rewrite split_first_app by apply pretty_Z_no_comma. by rewrite Hl, Hs.
Qed.

(** *** The order of the parts of an ALTER TABLE *)

(** One part of the statement, in the order it is written. *)
Inductive alter_spec :=
  | SpecAdd (col : parser_ColumnInfo)
  | SpecDrop (name : string)
  | SpecModify (chg : ColumnModification).

(** What the visitor collects from the parts. *)
Definition alter_changes (specs : list alter_spec) : TableChanges :=
  mkTableChanges TableOpAlter None
    (omap (λ s, match s with SpecAdd c => Some c | _ => None end) specs)
    (omap (λ s, match s with SpecDrop n => Some n | _ => None end) specs)
    (omap (λ s, match s with SpecModify m => Some m | _ => None end) specs) None.

Section Alter.
Context (d : dialect).

(** The statement as it reads: one part after the other. *)
Definition apply_spec (cols : list ColumnInfo) (s : alter_spec) : list ColumnInfo :=
  match s with
  | SpecAdd c => cols ++ [convertToEventColumn d c]
  | SpecDrop n => drop_column n cols
  | SpecModify m => modify_column d m cols
  end.

Definition modified_name (chg : ColumnModification) : string :=
  match d with
  | PostgresDialect =>
      if bool_decide (pc_Name (cm_New chg) ≠ "") then pc_Name (cm_New chg) else pc_Name (cm_Old chg)
  | _ => pc_Name (cm_New chg)
  end.

Definition spec_names (s : alter_spec) : gset string :=
  match s with
  | SpecAdd c => {[pc_Name c]}
  | SpecDrop n => {[n]}
  | SpecModify m => {[pc_Name (cm_Old m); modified_name m]}
  end.

(** No column is named by two parts. *)
Fixpoint independent (specs : list alter_spec) : Prop :=
  match specs with
  | [] => True
  | s :: specs => Forall (λ s', spec_names s ## spec_names s') specs ∧ independent specs
  end.

Lemma convert_name c : ci_Name (convertToEventColumn d c) = pc_Name c.
Proof. unfold convertToEventColumn. by destruct (parseTypeString d (pc_Type c)) as [[]]. Qed.

Lemma modified_column_name c chg :
  ci_Name c = pc_Name (cm_Old chg) → ci_Name (modified_column d c (cm_New chg)) = modified_name chg.
Proof.
  intros Hc. pose proof (convert_name (cm_New chg)) as Hn. unfold modified_column, modified_name. destruct d; try done.
  - unfold mergeEventColumn. rewrite Hc. by destruct (if bool_decide (pc_Type _ ≠ "") then _ else _) as [[]].
  - by case_bool_decide.
Qed.

Lemma drop_column_app n l k : n ∉ ci_Name <$> k → drop_column n (l ++ k) = drop_column n l ++ k.
Proof.
  intros Hk. induction l as [|c l IH]; cbn.
  - induction k as [|c k IH]; cbn; [done|]. rewrite fmap_cons in Hk. apply not_elem_of_cons in Hk as [Hne Hk].
    rewrite bool_decide_eq_false_2 by done. by rewrite IH.
  - case_bool_decide; [done|]. by rewrite IH.
Qed.

Lemma modify_column_app m l k :
  pc_Name (cm_Old m) ∉ ci_Name <$> k → modify_column d m (l ++ k) = modify_column d m l ++ k.
Proof.
  intros Hk. induction l as [|c l IH]; cbn.
  - induction k as [|c k IH]; cbn; [done|]. rewrite fmap_cons in Hk. apply not_elem_of_cons in Hk as [Hne Hk].
    rewrite bool_decide_eq_false_2 by done. by rewrite IH.
  - case_bool_decide; [done|]. by rewrite IH.
Qed.

Lemma drop_modify_column n m l :
  n ≠ pc_Name (cm_Old m) → n ≠ modified_name m →
  drop_column n (modify_column d m l) = modify_column d m (drop_column n l).
Proof.
  intros H1 H2. induction l as [|c l IH]; cbn; [done|].
  destruct (decide (ci_Name c = pc_Name (cm_Old m))) as [E|E].
  - rewrite (bool_decide_eq_true_2 _ E). cbn. rewrite (modified_column_name _ _ E).
    rewrite !bool_decide_eq_false_2 by congruence. cbn. by rewrite (bool_decide_eq_true_2 _ E).
  - rewrite (bool_decide_eq_false_2 _ E). cbn. case_bool_decide; [done|]. cbn.
    by rewrite (bool_decide_eq_false_2 _ E), IH.
Qed.

Lemma drops_modify_column ns m : ∀ l,
  Forall (λ n, n ≠ pc_Name (cm_Old m) ∧ n ≠ modified_name m) ns →
  foldl (λ cols n, drop_column n cols) (modify_column d m l) ns =
  modify_column d m (foldl (λ cols n, drop_column n cols) l ns).
Proof.
  induction ns as [|n ns IH]; intros l Hns; cbn; [done|]. apply Forall_cons in Hns as [[H1 H2] Hns].
  rewrite drop_modify_column by done. by apply IH.
Qed.

Lemma added_names specs x :
  x ∈ ci_Name <$> (convertToEventColumn d <$> tc_AddedColumns (alter_changes specs)) → ∃ s, s ∈ specs ∧ x ∈ spec_names s.
Proof.
  rewrite <- list_fmap_compose. intros (c & -> & (s & Hs & Hc)%list_elem_of_omap)%list_elem_of_fmap.
  exists s. split; [done|]. destruct s; simplify_eq. cbn. rewrite convert_name. set_solver.
Qed.

Lemma alter_columns_in_order specs cols :
  independent specs → alter_columns d (alter_changes specs) cols = foldl apply_spec cols specs.
Proof.
  revert cols. induction specs as [|s specs IH]; intros cols; [unfold alter_columns; cbn; by rewrite app_nil_r|].
  intros [Hs Hind]. cbn [foldl]. rewrite <- IH by done. rewrite Forall_forall in Hs.
  assert (Hadd : ∀ x, x ∈ spec_names s →
    x ∉ ci_Name <$> (convertToEventColumn d <$> tc_AddedColumns (alter_changes specs))).
  { intros x Hx (s' & Hs' & Hx')%added_names. specialize (Hs s' Hs'). set_solver. }
  unfold alter_columns. destruct s as [c|n|m]; cbn [apply_spec spec_names] in *.
  - cbn. by rewrite <- app_assoc.
  - rewrite <- drop_column_app by (apply Hadd; set_solver). done.
  - rewrite <- modify_column_app by (apply Hadd; set_solver). rewrite drops_modify_column; [done|].
    apply Forall_forall. intros n (s' & Hs' & Hn)%list_elem_of_omap. specialize (Hs s' Hs'). destruct s'; simplify_eq.
    cbn in Hs. set_solver.
Qed.

(** The parts of an ALTER TABLE that name different columns may be collected by kind:
    adding, dropping and modifying in that order gives the columns that applying the
    parts in the order of the statement gives. *)
Theorem alter_order_irrelevant specs old :
  independent specs →
  ti_Columns (applyAlterChanges d old (Some (alter_changes specs))) = foldl apply_spec (ti_Columns old) specs.
Proof. apply alter_columns_in_order. Qed.

(** The names a part brings in are new to the table. *)
Definition fresh_in (cols : list ColumnInfo) (s : alter_spec) : Prop :=
  match s with
  | SpecAdd c => pc_Name c ∉ ci_Name <$> cols
  | SpecDrop _ => True
  | SpecModify m => modified_name m = pc_Name (cm_Old m) ∨ modified_name m ∉ ci_Name <$> cols
  end.

Lemma drop_column_sublist n l : ci_Name <$> drop_column n l `sublist_of` ci_Name <$> l.
Proof.
  induction l as [|c l IH]; cbn; [constructor|]. case_bool_decide; cbn; [by constructor|]. by constructor.
Qed.

Lemma modify_column_names m l x :
  x ∈ ci_Name <$> modify_column d m l → x ∈ ci_Name <$> l ∨ x = modified_name m ∧ pc_Name (cm_Old m) ∈ ci_Name <$> l.
Proof.
  induction l as [|c l IH]; cbn; [by left|]. case_bool_decide as E; cbn; rewrite ?fmap_cons, !elem_of_cons.
  - rewrite (modified_column_name _ _ E). intros [->|Hx]; [right; by rewrite E; auto|by auto].
  - intros [->|Hx]; [auto|]. destruct (IH Hx) as [|[]]; auto.
Qed.

Lemma modify_column_nodup m l :
  fresh_in l (SpecModify m) → NoDup (ci_Name <$> l) → NoDup (ci_Name <$> modify_column d m l).
Proof.
  cbn [fresh_in]. induction l as [|c l IH]; cbn; [done|]. rewrite NoDup_cons. intros Hf [Hc Hl].
  case_bool_decide as E; cbn; apply NoDup_cons; (split; [|]).
  - rewrite (modified_column_name _ _ E). destruct Hf as [->|Hf]; [by rewrite <- E|].
    intros Hin. apply Hf. by rewrite elem_of_cons; right.
  - done.
  - intros [Hx|[Hx Ho]]%modify_column_names; [done|]. destruct Hf as [Hf|Hf]; [congruence|].
    apply Hf. rewrite <- Hx, elem_of_cons. by left.
  - apply IH; [|done]. destruct Hf as [Hf|Hf]; [by left|right]. intros Hin. apply Hf. by rewrite elem_of_cons; right.
Qed.

Lemma apply_spec_names cols s x : x ∈ ci_Name <$> apply_spec cols s → x ∈ ci_Name <$> cols ∨ x ∈ spec_names s.
Proof.
  destruct s as [c|n|m]; cbn [apply_spec spec_names].
  - rewrite fmap_app, elem_of_app. cbn. rewrite convert_name. set_solver.
  - intros Hx. left. eapply elem_of_sublist; [done|apply drop_column_sublist].
  - intros [Hx|[-> _]]%modify_column_names; [by left|set_solver].
Qed.

Lemma apply_spec_nodup cols s :
  fresh_in cols s → NoDup (ci_Name <$> cols) → NoDup (ci_Name <$> apply_spec cols s).
Proof.
  destruct s as [c|n|m]; cbn [apply_spec]; intros Hf Hnd.
  - cbn in Hf. rewrite fmap_app. apply NoDup_app. split; [done|]. cbn. rewrite convert_name. split; [|apply NoDup_singleton].
    intros x Hx ->%list_elem_of_singleton. done.
  - eapply sublist_NoDup; [done|apply drop_column_sublist].
  - by apply modify_column_nodup.
Qed.

Lemma fresh_in_after cols s s' :
  spec_names s ## spec_names s' → fresh_in cols s' → fresh_in (apply_spec cols s) s'.
Proof.
  intros Hd. destruct s' as [c|n|m]; cbn [fresh_in spec_names] in *; [| done |].
  - intros Hf [Hx|Hx]%apply_spec_names; [done|set_solver].
  - intros [Hf|Hf]; [by left|right]. intros [Hx|Hx]%apply_spec_names; [done|set_solver].
Qed.

(** An ALTER TABLE whose parts name different columns and bring in new names only keeps
    the names of the columns distinct. *)
Theorem alter_keeps_names_unique specs cols :
  independent specs → Forall (fresh_in cols) specs → NoDup (ci_Name <$> cols) →
  NoDup (ci_Name <$> alter_columns d (alter_changes specs) cols).
Proof.
  intros Hind Hf Hnd. rewrite alter_columns_in_order by done. revert cols Hf Hnd.
  induction specs as [|s specs IH]; intros cols Hf Hnd; [done|]. destruct Hind as [Hs Hind].
  apply Forall_cons in Hf as [Hf Hfs]. cbn [foldl]. apply IH; [done| |by apply apply_spec_nodup].
  rewrite Forall_forall in Hs, Hfs. apply Forall_forall. intros s' Hs'. by apply fresh_in_after; auto.
Qed.
End Alter.

(** *** What the binlog consumer is given *)

(** The dialects never return a nil result without an error: the consumer may look into
    it. *)
Lemma ApplyDDL_not_nil d parse old ddl : ApplyDDL_of d parse old ddl ≠ Ok None.
Proof. unfold ApplyDDL_of. repeat case_match; done. Qed.

Definition consumer_parser (d : dialect) (parse : string → result (list ParsedDDL)) : DDLParser := {|
  BinlogConsumer.ApplyDDL old ddl :=
    match ApplyDDL_of d parse old ddl with
    | Ok (Some r) => Ok (mkDDLResult (pd_NewTableInfo r))
    | Ok None => Err (Panic "nil pointer dereference")
    | Err e => Err e
    end
|}.

(** [ApplyDDL] on every kind of statement: a CREATE TABLE defines the table it names
    with the columns it lists; an ALTER TABLE keeps the table's names and applies its
    parts, and needs the old definition; a DROP TABLE leaves none; anything else leaves
    the definition as it is; a statement that does not parse is an error. *)
Theorem ApplyDDL_by_type d parse old ddl :
  BinlogConsumer.ApplyDDL (DDLParser := consumer_parser d parse) old ddl =
  match parse ddl with
  | Err e => Err (ErrWrapf "parse DDL" e)
  | Ok [] => Err (ErrNew "no DDL result parsed")
  | Ok (r :: _) =>
      if bool_decide (pd_Type r = DDLTypeCreateTable) then
        Ok (mkDDLResult (match pd_TableChanges r ≫= tc_Table with
                         | Some t => Some (mkTableInfo (pt_Database t) "" (pt_Name t) (pt_PrimaryKey t) []
                                            (convertToEventColumn d <$> pt_Columns t))
                         | None => pd_NewTableInfo r
                         end))
      else if bool_decide (pd_Type r = DDLTypeAlterTable) then
        match old with
        | None => Err (ErrNew "oldTable is required for ALTER TABLE")
        | Some old =>
            Ok (mkDDLResult (Some (from_option (λ ch,
              mkTableInfo (ti_Database old) (ti_Schema old) (ti_Table old)
                (default (ti_PrimaryKeyColumns old) (tc_PrimaryKeyChange ch)) (ti_UniqueKeyColumns old)
                (alter_columns d ch (ti_Columns old))) old (pd_TableChanges r))))
        end
      else if bool_decide (pd_Type r = DDLTypeDropTable) then Ok (mkDDLResult None)
      else Ok (mkDDLResult (match old with Some t => Some t | None => pd_NewTableInfo r end))
  end.
Proof.
  cbn [BinlogConsumer.ApplyDDL consumer_parser]. unfold ApplyDDL_of, applyAlterChanges.
  destruct (parse ddl) as [[|r rs]|e]; [done| |done]. repeat case_bool_decide; [| | done |].
  - by destruct (pd_TableChanges r ≫= tc_Table).
  - destruct old as [old|]; [|done]. cbn. by destruct (pd_TableChanges r).
  - by destruct old.
Qed.

(** ** Runs *)

Module DDLRuns.
Definition users : TableInfo :=
  mkTableInfo "shop" "" "users" ["id"] [] [mkColumnInfo "id" "INT" false 0 0; mkColumnInfo "age" "INT" true 0 0].

Definition specs : list alter_spec :=
  [SpecDrop "age"; SpecAdd (parser_column "email" "varchar(40)" true);
   SpecModify (mkColumnModification (parser_column "id" "" false) (parser_column "id" "bigint" false))].

Lemma alter_order_irrelevant_witness :
  independent MySQLDialect specs ∧
  ti_Columns (applyAlterChanges MySQLDialect users (Some (alter_changes specs))) =
    [mkColumnInfo "id" "BIGINT" false 0 0; mkColumnInfo "email" "VARCHAR" true 40 0].
Proof.
  assert (Hi : independent MySQLDialect specs).
  { cbn. split_and!; repeat constructor; set_solver. }
  split; [exact Hi|].
  exact (eq_trans (alter_order_irrelevant MySQLDialect specs users Hi) ltac:(vm_compute; reflexivity)).
Defined.

Lemma type_roundtrip_witness :
  parseTypeString OracleDialect "number(10,-2)" = ("NUMBER", 10, -2).
Proof.
  exact (type_roundtrip OracleDialect "number" [10; -2] eq_refl ltac:(cbn; lia)
    ltac:(repeat constructor; unfold min_int64, max_int64; lia)).
Defined.
End DDLRuns.
