(* ===== verification/BinlogSyncer.v ===== *)
(** The MySQL source: binlog events become change events
    (internal/source/mysql/binlog_syncer.go).

    The wire format is decoded by go-mysql: its events are the input.  Change events are
    objects that the channel and the syncer share: the position of the syncer may be a
    pointer into the last event it built.  The DDL parser, the target store, the answers
    of INFORMATION_SCHEMA and the format of timestamps are parameters. *)
From Stdlib Require Import ZArith Lia Ascii.
From Stdlib Require String Strings.Byte.
From stdpp Require Import prelude countable gmap strings list fin_maps pretty.
From S2P Require Import Prelude Events Strings CacheLog SchemaHistory TargetStore TableLifecycle Scope BinlogConsumer LogMiner MySQLRows DDLApply.
Local Open Scope Z_scope.

(** ** Log events (go-mysql) *)

Inductive rows_kind :=
  | WRITE_ROWS_EVENTv1 | WRITE_ROWS_EVENTv2 | UPDATE_ROWS_EVENTv1 | UPDATE_ROWS_EVENTv2
  | DELETE_ROWS_EVENTv1 | DELETE_ROWS_EVENTv2 | OTHER_EVENT_TYPE.

Record EventHeader := mkEventHeader {
  eh_Timestamp : Z;            (* uint32, seconds *)
  eh_EventType : rows_kind;
  eh_LogPos : Z                (* uint32: where the event ends *)
}.

Record RowsEvent := mkRowsEvent {
  re_TableID : Z;
  re_Schema : string;
  re_Table : string;
  re_Rows : list (list value)
}.

Inductive log_event :=
  | RotateEvent (NextLogName : string) (Position : Z)
  | QueryEvent (Schema Query : string)
  | TableMapEvent (TableID : Z) (ColumnType : list Byte.byte) (ColumnMeta : list Z)
  | RowsEv (ev : RowsEvent)
  | XIDEvent
  | GTIDEvent (SID : list Byte.byte) (GNO : Z)
  | MariadbGTIDEvent (DomainID ServerID SequenceNumber : Z)
  | OtherEvent.

Record BinlogEvent := mkBinlogEvent { be_Header : EventHeader; be_Event : log_event }.

(** [time.Unix(sec, 0)] *)
Definition time_Unix (sec : Z) : time := unix_epoch + sec * 1000000000.

(** ** The syncer *)

(** How a select on the event channel ends. *)
Inductive send_outcome := Delivered | SendCancelled (e : goerror) | SendTimeout.

(** [s.position]: the position of an event, shared with it, or one of the syncer's own. *)
Inductive position_ptr := InEvent (i : nat) | OwnPosition (p : Position).

Record SyncConfig := mkSyncConfig { sc_Databases : list string; sc_Tables : gmap string string }.

Section Syncer.
Context {S : Type} `{!TargetStore S} `{RX : Regexp} `{!GoRange string string}.

(** The optional parts are nil when [None]. *)
Record BinlogSyncer := mkBinlogSyncer {
  bs_parser : option SQLParser;
  bs_schemaCache : gmap string TableInfo;
  bs_tables : option (gmap string TableInfo);
  bs_store : option S;
  bs_syncScope : option SyncScope;
  bs_position : option position_ptr;
  bs_currentFile : string;
  bs_tableColumnTypes : gmap Z (list Byte.byte);
  bs_tableColumnMetas : gmap Z (list Z);
  bs_objects : list ChangeEvent;        (* the events that were built *)
  bs_sent : list nat;                   (* those in the channel, in order *)
  bs_selects : list send_outcome;       (* how the next sends end; then they succeed *)
  bs_errors : list goerror
}.

Definition with_parser p (s : BinlogSyncer) := mkBinlogSyncer p (bs_schemaCache s) (bs_tables s) (bs_store s)
  (bs_syncScope s) (bs_position s) (bs_currentFile s) (bs_tableColumnTypes s) (bs_tableColumnMetas s) (bs_objects s)
  (bs_sent s) (bs_selects s) (bs_errors s).
Definition with_cache c (s : BinlogSyncer) := mkBinlogSyncer (bs_parser s) c (bs_tables s) (bs_store s)
  (bs_syncScope s) (bs_position s) (bs_currentFile s) (bs_tableColumnTypes s) (bs_tableColumnMetas s) (bs_objects s)
  (bs_sent s) (bs_selects s) (bs_errors s).
Definition with_defs t st (s : BinlogSyncer) := mkBinlogSyncer (bs_parser s) (bs_schemaCache s) t st
  (bs_syncScope s) (bs_position s) (bs_currentFile s) (bs_tableColumnTypes s) (bs_tableColumnMetas s) (bs_objects s)
  (bs_sent s) (bs_selects s) (bs_errors s).
Definition with_scope sc (s : BinlogSyncer) := mkBinlogSyncer (bs_parser s) (bs_schemaCache s) (bs_tables s) (bs_store s)
  sc (bs_position s) (bs_currentFile s) (bs_tableColumnTypes s) (bs_tableColumnMetas s) (bs_objects s)
  (bs_sent s) (bs_selects s) (bs_errors s).
Definition with_pos p f (s : BinlogSyncer) := mkBinlogSyncer (bs_parser s) (bs_schemaCache s) (bs_tables s) (bs_store s)
  (bs_syncScope s) p f (bs_tableColumnTypes s) (bs_tableColumnMetas s) (bs_objects s) (bs_sent s) (bs_selects s)
  (bs_errors s).
Definition with_column_types t m (s : BinlogSyncer) := mkBinlogSyncer (bs_parser s) (bs_schemaCache s) (bs_tables s)
  (bs_store s) (bs_syncScope s) (bs_position s) (bs_currentFile s) t m (bs_objects s) (bs_sent s) (bs_selects s)
  (bs_errors s).
Definition with_objects o (s : BinlogSyncer) := mkBinlogSyncer (bs_parser s) (bs_schemaCache s) (bs_tables s) (bs_store s)
  (bs_syncScope s) (bs_position s) (bs_currentFile s) (bs_tableColumnTypes s) (bs_tableColumnMetas s) o
  (bs_sent s) (bs_selects s) (bs_errors s).
Definition with_sent q sel (s : BinlogSyncer) := mkBinlogSyncer (bs_parser s) (bs_schemaCache s) (bs_tables s) (bs_store s)
  (bs_syncScope s) (bs_position s) (bs_currentFile s) (bs_tableColumnTypes s) (bs_tableColumnMetas s) (bs_objects s)
  q sel (bs_errors s).
Definition with_errors e (s : BinlogSyncer) := mkBinlogSyncer (bs_parser s) (bs_schemaCache s) (bs_tables s) (bs_store s)
  (bs_syncScope s) (bs_position s) (bs_currentFile s) (bs_tableColumnTypes s) (bs_tableColumnMetas s) (bs_objects s)
  (bs_sent s) (bs_selects s) e.

Definition NewBinlogSyncer (syncScope : option SyncScope) (schemaCache : gmap string TableInfo)
    (tables : option (gmap string TableInfo)) (store : option S) (objects : list ChangeEvent) (sent : list nat)
    (selects : list send_outcome) (errors : list goerror) : BinlogSyncer :=
  mkBinlogSyncer None schemaCache tables store (SyncScope_Clone <$> syncScope) None "" ∅ ∅ objects sent selects errors.

Definition UpdateSyncScope (newScope : option SyncScope) : BinlogSyncer → BinlogSyncer :=
  with_scope (SyncScope_Clone <$> newScope).

(** What the position points to. *)
Definition deref_position (s : BinlogSyncer) : option Position :=
  match bs_position s with
  | None => None
  | Some (OwnPosition p) => Some p
  | Some (InEvent i) => ev_Position <$> bs_objects s !! i
  end.

Definition syncer_GetPosition (s : BinlogSyncer) : option Position := Position_Clone <$> deref_position s.

(** [s.position.TxID = gtid], through the pointer. *)
Definition with_txid (gtid : string) (p : Position) : Position :=
  mkPosition (pos_BinlogFile p) (pos_BinlogPos p) (pos_LSN p) (pos_SCN p) (pos_Timestamp p) (pos_Order p)
    (pos_ResumeToken p) (pos_ChangeLsn p) (pos_SeqVal p) (pos_CommitTime p) gtid (pos_SeqNo p) (pos_Total p).

Definition event_with_position (p : Position) (e : ChangeEvent) : ChangeEvent :=
  mkChangeEvent (ev_ID e) (ev_Source e) (ev_Type e) p (ev_Table e) (ev_Before e) (ev_After e) (ev_Timestamp e)
    (ev_Transaction e) (ev_Schema e) (ev_Metadata e).

Definition set_txid (gtid : string) (s : BinlogSyncer) : BinlogSyncer :=
  match bs_position s with
  | None => with_pos (Some (OwnPosition (with_txid gtid Position_zero))) (bs_currentFile s) s
  | Some (OwnPosition p) => with_pos (Some (OwnPosition (with_txid gtid p))) (bs_currentFile s) s
  | Some (InEvent i) =>
      with_objects (alter (λ e, event_with_position (with_txid gtid (ev_Position e)) e) i (bs_objects s)) s
  end.

(** The select that sends an event. *)
Definition send (what : string) (i : nat) : ST BinlogSyncer unit := λ s,
  let q := bs_selects s in
  match head q with
  | Some (SendCancelled e) => (with_sent (bs_sent s) (tail q) s, Err e)
  | Some SendTimeout => (with_sent (bs_sent s) (tail q) s, Err (ErrNew ("timeout sending " +:+ what)))
  | Some Delivered | None => (with_sent (bs_sent s ++ [i]) (tail q) s, Ok tt)
  end.

(** A call on the store, when there is one; its error is logged. *)
Definition on_store_ignored (op : ST S unit) (s : BinlogSyncer) : BinlogSyncer :=
  match bs_store s with Some st => with_defs (bs_tables s) (Some (op st).1) s | None => s end.

(** ** Which tables *)

Context (cfg : SyncConfig).

Definition legacy_capture (database table : string) : bool :=
  match sc_Databases cfg with
  | [] => true
  | dbs =>
      existsb (λ db, bool_decide (db = database) || bool_decide (db = "*")) dbs ||
      existsb (λ '(db, pattern), (bool_decide (db = database) || bool_decide (db = "*")) &&
                 (bool_decide (pattern = "*") || bool_decide (pattern = "") || matchPattern pattern table))
        (go_range (sc_Tables cfg))
  end.

(** A database scope compiles its patterns at the first question. *)
Definition syncer_shouldCapture (database table : string) (s : BinlogSyncer) : BinlogSyncer * bool :=
  match bs_syncScope s with
  | Some scope =>
      match ss_Level scope with
      | SyncLevelDatabase =>
          let '(d, b) := ShouldSyncTable database table (ss_Databases scope) in
          (with_scope (Some (mkSyncScope (ss_Level scope) d (ss_Tables scope))) s, b)
      | SyncLevelTable => (s, TableScope_ShouldSyncTable (ss_Tables scope) database table)
      | SyncLevelOther _ => (s, legacy_capture database table)
      end
  | None => (s, legacy_capture database table)
  end.

(** ** Handlers *)

Context (format_ts : time → string).

(** What the handlers read outside the syncer: the clock, per reading, and the schema
    tables of the source. *)
Record sync_world := mkSyncWorld {
  sw_clock : nat → time;
  sw_db : string → string → columns_answer;
  sw_errRoom : bool                        (* an error finds room within five seconds *)
}.

Definition mysql_source (database : string) : SourceInfo := mkSourceInfo "mysql" "" 0 database "" "" false.

Definition mysql_event_id (now : time) (h : EventHeader) : string :=
  GenerateEventID format_ts (mysql_source "") now (eh_LogPos h).

Definition log_position (file : string) (h : EventHeader) : Position :=
  mkPosition file (eh_LogPos h) 0 0 0 0 None "" "" (time_Unix (eh_Timestamp h)) "" 0 0.

Definition handleRotateEvent (name : string) (s : BinlogSyncer) : BinlogSyncer := with_pos (bs_position s) name s.

Definition handleTableMapEvent (id : Z) (types : list Byte.byte) (metas : list Z) (s : BinlogSyncer) : BinlogSyncer :=
  with_column_types (<[id := types]> (bs_tableColumnTypes s)) (<[id := metas]> (bs_tableColumnMetas s)) s.

Definition handleXIDEvent (h : EventHeader) (s : BinlogSyncer) : BinlogSyncer :=
  with_pos (Some (OwnPosition (log_position (bs_currentFile s) h))) (bs_currentFile s) s.

(** [fmt.Sprintf("%x", bytes)] *)
Definition hex_digit (n : N) : ascii := ascii_of_N (if N.ltb n 10 then 48 + n else 87 + n).
Definition hex_byte (b : Byte.byte) : string :=
  let n := Byte.to_N b in String (hex_digit (N.div n 16)) (String (hex_digit (N.modulo n 16)) EmptyString).
Definition hex_bytes (bs : list Byte.byte) : string := join "" (hex_byte <$> bs).

Definition slice (i j : nat) (bs : list Byte.byte) : list Byte.byte := take (j - i) (drop i bs).

Definition format_gtid (sid : list Byte.byte) (gno : Z) : string :=
  join "-" [hex_bytes (slice 0 4 sid); hex_bytes (slice 4 6 sid); hex_bytes (slice 6 8 sid);
            hex_bytes (slice 8 10 sid); hex_bytes (slice 10 16 sid)] +:+ ":" +:+ pretty gno.

(** A server identifier has sixteen bytes; a shorter one is out of range. *)
Definition handleGTIDEvent (sid : list Byte.byte) (gno : Z) : ST BinlogSyncer unit := λ s,
  if (length sid <? 16)%nat then (s, Err (Panic "slice bounds out of range"))
  else (set_txid (format_gtid sid gno) s, Ok tt).

(** *** DDL *)

(** The first statement, if there is a parser and it parses. *)
Definition parse_ddl (s : BinlogSyncer) (query : string) : option ParsedDDL :=
  match bs_parser s with
  | None => None
  | Some p => match ps_Parse p query with Ok (r :: _) => Some r | _ => None end
  end.

Definition ddl_event (w : sync_world) (file database query : string) (h : EventHeader) (r : option ParsedDDL) : ChangeEvent :=
  mkChangeEvent (mysql_event_id (sw_clock w 0) h) (mysql_source database) EventTypeDDL (log_position file h)
    (match r with Some r => mkTableInfo (pd_Database r) "" (pd_Table r) [] [] [] | None => TableInfo_zero end)
    RowData_zero RowData_zero (time_Unix (eh_Timestamp h)) None None
    (Some (match r with
           | Some r => <["ddl" := query]> (<["ddlType" := pd_Type r]> (<["ddlDatabase" := pd_Database r]>
                         (<["ddlTable" := pd_Table r]> {["ddlStatement" := pd_Statement r]})))
           | None => {["ddl" := query]}
           end)).

Definition invalidate (r : option ParsedDDL) (s : BinlogSyncer) : BinlogSyncer :=
  match r with
  | Some r =>
      if bool_decide (pd_Table r ≠ "") then with_cache (cache_Invalidate (pd_Database r) (pd_Table r) (bs_schemaCache s)) s
      else with_cache (cache_InvalidateAll (bs_schemaCache s)) s
  | None => with_cache (cache_InvalidateAll (bs_schemaCache s)) s
  end.

(** The definitions after a statement the parser applied, and its row in the history. *)
Definition ddl_applied (r : ParsedDDL) (info : option TableInfo) (tables : gmap string TableInfo) : gmap string TableInfo :=
  match info with
  | Some info => Tables_Put info tables
  | None =>
      if bool_decide (pd_Type r = DDLTypeDropTable) then Tables_Remove (pd_Database r) (pd_Table r) tables else tables
  end.

Definition ddl_history_row (pos : Position) (r : ParsedDDL) (query : string) (info : option TableInfo) : SchemaHistoryRow :=
  mkSchemaHistoryRow 0 pos (pd_Database r) (pd_Table r) query info (pd_Type r).

Definition apply_ddl (pos : Position) (query : string) (r : option ParsedDDL) (s : BinlogSyncer) : BinlogSyncer :=
  match bs_parser s, bs_tables s, r with
  | Some p, Some tables, Some r =>
      if bool_decide (pd_Table r = "") then s
      else
        match ps_ApplyDDL p (Tables_Get tables (pd_Database r) (pd_Table r)) query with
        | Ok (Some a) =>
            on_store_ignored (SaveSchemaHistory (ddl_history_row pos r query (pd_NewTableInfo a)))
              (with_defs (Some (ddl_applied r (pd_NewTableInfo a) tables)) (bs_store s) s)
        | _ => s
        end
  | _, _, _ => s
  end.

Definition handleQueryEvent (w : sync_world) (h : EventHeader) (database query : string) : ST BinlogSyncer unit := λ s,
  if negb (isDDL query) then (s, Ok tt)
  else
    let r := parse_ddl s query in
    let e := ddl_event w (bs_currentFile s) database query h r in
    let i := length (bs_objects s) in
    let s := with_objects (bs_objects s ++ [e]) s in
    let s := apply_ddl (ev_Position e) query r (invalidate r s) in
    let s := with_pos (Some (InEvent i)) (bs_currentFile s) s in
    (send "DDL event" i ≫= λ _, st_modify (on_store_ignored (SaveCurrentPosition (Some (ev_Position e))))) s.

(** *** Rows *)

Definition event_type_of (k : rows_kind) : option EventType :=
  match k with
  | WRITE_ROWS_EVENTv1 | WRITE_ROWS_EVENTv2 => Some EventTypeInsert
  | UPDATE_ROWS_EVENTv1 | UPDATE_ROWS_EVENTv2 => Some EventTypeUpdate
  | DELETE_ROWS_EVENTv1 | DELETE_ROWS_EVENTv2 => Some EventTypeDelete
  | OTHER_EVENT_TYPE => None
  end.

Definition row_event_of (w : sync_world) (n : nat) (file : string) (typ : EventType) (h : EventHeader) (info : TableInfo)
    (before after : RowData) : ChangeEvent :=
  mkChangeEvent (mysql_event_id (sw_clock w n) h) (mysql_source (ti_Database info)) typ (log_position file h) info
    before after (time_Unix (eh_Timestamp h)) None None None.

(** The images of the rows of an event, by its type. *)
Definition row_images (typ : EventType) (rows : list (list value)) : list (option (list value) * option (list value)) :=
  match typ with
  | EventTypeInsert => (λ r, (None, Some r)) <$> rows
  | EventTypeUpdate => (λ p, (Some p.1, Some p.2)) <$> update_pairs rows
  | EventTypeDelete => (λ r, (Some r, None)) <$> rows
  | _ => []
  end.

Definition image (info : TableInfo) (r : option (list value)) : RowData :=
  match r with Some values => buildRowData (ti_Columns info) values | None => RowData_zero end.

(** The types and metas of the table map are handed in and not looked at. *)
Definition buildChangeEvents (w : sync_world) (file : string) (typ : EventType) (h : EventHeader) (info : TableInfo)
    (ev : RowsEvent) (colTypes : list Byte.byte) (colMetas : list Z) : list ChangeEvent :=
  imap (λ n p, row_event_of w n file typ h info (image info p.1) (image info p.2)) (row_images typ (re_Rows ev)).

(** The definition of a table: in memory, in the cache, or the names alone. *)
Definition table_definition (w : sync_world) (database table : string) (s : BinlogSyncer) : BinlogSyncer * TableInfo :=
  match bs_tables s ≫= (λ t, Tables_Get t database table) with
  | Some info => (s, info)
  | None =>
      let '(c, r) := cache_Get (sw_db w) database table (bs_schemaCache s) in
      (with_cache c s, match r with Ok info => info | Err _ => mkTableInfo database "" table [] [] [] end)
  end.

(** The loop that sends the events [i], [i+1], ... *)
Fixpoint send_all (i n : nat) : ST BinlogSyncer unit :=
  match n with
  | O => mret tt
  | Datatypes.S n => λ s,
      (send "change event" i ≫= λ _, send_all (Datatypes.S i) n) (with_pos (Some (InEvent i)) (bs_currentFile s) s)
  end.

(** The position of the last event is saved. *)
Definition save_last (events : list ChangeEvent) (s : BinlogSyncer) : BinlogSyncer :=
  match last events with
  | Some e => on_store_ignored (SaveCurrentPosition (Some (ev_Position e))) s
  | None => s
  end.

Definition handleRowsEvent (w : sync_world) (h : EventHeader) (ev : RowsEvent) : ST BinlogSyncer unit := λ s,
  let '(s, captured) := syncer_shouldCapture (re_Schema ev) (re_Table ev) s in
  if negb captured then (s, Ok tt)
  else
    let '(s, info) := table_definition w (re_Schema ev) (re_Table ev) s in
    match event_type_of (eh_EventType h) with
    | None => (s, Ok tt)
    | Some typ =>
        let events := buildChangeEvents w (bs_currentFile s) typ h info ev
          (default [] (bs_tableColumnTypes s !! re_TableID ev)) (default [] (bs_tableColumnMetas s !! re_TableID ev)) in
        let i := length (bs_objects s) in
        (send_all i (length events) ≫= λ _, st_modify (save_last events)) (with_objects (bs_objects s ++ events) s)
    end.

(** *** The loop *)

Definition processEvent (w : sync_world) (ev : BinlogEvent) : ST BinlogSyncer unit :=
  let h := be_Header ev in
  match be_Event ev with
  | RotateEvent name _ => st_modify (handleRotateEvent name)
  | QueryEvent schema query => handleQueryEvent w h schema query
  | TableMapEvent id types metas => st_modify (handleTableMapEvent id types metas)
  | RowsEv rows => handleRowsEvent w h rows
  | XIDEvent => st_modify (handleXIDEvent h)
  | GTIDEvent sid gno => handleGTIDEvent sid gno
  | MariadbGTIDEvent _ _ _ | OtherEvent => mret tt
  end.

Definition report (w : sync_world) (e : goerror) (s : BinlogSyncer) : BinlogSyncer :=
  if sw_errRoom w then with_errors (bs_errors s ++ [e]) s else s.

(** One round of [run], for the events the handler [process] knows; a panic is not
    recovered. *)
Definition syncer_round (process : sync_world → BinlogEvent → ST BinlogSyncer unit) (w : sync_world)
    (got : result BinlogEvent) : ST BinlogSyncer unit := λ s,
  match got with
  | Err e => (report w e s, Ok tt)
  | Ok ev =>
      match process w ev s with
      | (s, Ok _) => (s, Ok tt)
      | (s, Err (Panic m)) => (s, Err (Panic m))
      | (s, Err e) => (report w e s, Ok tt)
      end
  end.

Fixpoint syncer_run (process : sync_world → BinlogEvent → ST BinlogSyncer unit) (log : list (sync_world * result BinlogEvent)) :
    ST BinlogSyncer unit :=
  match log with
  | [] => mret tt
  | (w, got) :: log => syncer_round process w got ≫= λ _, syncer_run process log
  end.

(** [Start], up to the loop: where the stream begins, and the state it begins with. *)
Definition syncer_Start (registry : gmap string SQLParser) (startPos : option Position) (s : BinlogSyncer) :
    BinlogSyncer * option (string * Z) :=
  let s := with_parser (parsers_Get registry "mysql") s in
  match startPos with
  | Some p =>
      if bool_decide (pos_BinlogFile p ≠ "")
      then (with_pos (Some (OwnPosition (Position_Clone p))) (pos_BinlogFile p) s, Some (pos_BinlogFile p, pos_BinlogPos p))
      else (s, None)
  | None => (s, None)
  end.
End Syncer.

Arguments BinlogSyncer S {RX}.

(** ** Sending *)

Section SyncerProofs.
Context {S : Type} `{!TargetStore S} `{RX : Regexp} `{!GoRange string string} (cfg : SyncConfig) (format_ts : time → string).
Implicit Types s : BinlogSyncer S.

(** The file and the offset of an event. *)
Definition place (e : ChangeEvent) : string * Z := (pos_BinlogFile (ev_Position e), pos_BinlogPos (ev_Position e)).

(** What sending leaves alone. *)
Definition same_world s s' : Prop :=
  bs_objects s' = bs_objects s ∧ bs_currentFile s' = bs_currentFile s ∧ bs_store s' = bs_store s ∧
  bs_tables s' = bs_tables s ∧ bs_schemaCache s' = bs_schemaCache s ∧ bs_syncScope s' = bs_syncScope s ∧
  bs_parser s' = bs_parser s ∧ bs_errors s' = bs_errors s.

Lemma same_world_trans s1 s2 s3 : same_world s1 s2 → same_world s2 s3 → same_world s1 s3.
Proof. unfold same_world. intuition congruence. Qed.

Lemma send_spec what i s s' r :
  send what i s = (s', r) →
  same_world s s' ∧ bs_position s' = bs_position s ∧
  ((r = Ok tt ∧ bs_sent s' = bs_sent s ++ [i]) ∨ (is_ok r = false ∧ bs_sent s' = bs_sent s)).
Proof.
  unfold send. destruct (head (bs_selects s)) as [[|e|]|]; intros [= <- <-]; (split; [done|]); (split; [done|]); auto.
Qed.

Lemma send_all_spec n : ∀ i s s' r,
  send_all i n s = (s', r) →
  same_world s s' ∧
  ∃ k, (k <= n)%nat ∧ bs_sent s' = bs_sent s ++ seq i k ∧
    (r = Ok tt ∧ k = n ∧ bs_position s' = (if n is O then bs_position s else Some (InEvent (i + n - 1))) ∨
     is_ok r = false ∧ (k < n)%nat ∧ bs_position s' = Some (InEvent (i + k))).
Proof.
  induction n as [|n IH]; intros i s s' r; cbn [send_all].
  - intros [= <- <-]. split; [done|]. exists O. rewrite app_nil_r. split; [lia|]. split; [done|]. by left.
  - unfold mbind, ST_bind. destruct (send "change event" i _) as [s1 r1] eqn:E1.
    apply send_spec in E1 as (Hw & Hp & Hs). cbn [bs_sent with_pos bs_position] in Hs, Hp.
    destruct Hs as [[-> Hs]|[Hr Hs]].
    + intros E2. apply IH in E2 as (Hw2 & k & Hk & Hs2 & Hc).
      split; [eapply same_world_trans; [|done]; done|]. exists (Datatypes.S k). split; [lia|].
      split; [rewrite Hs2, Hs; cbn [seq]; by rewrite <- app_assoc|].
      destruct Hc as [(-> & -> & Hpos)|(Hr2 & Hlt & Hpos)].
      * left. split; [done|]. split; [done|]. rewrite Hpos. destruct n; [rewrite Hp; do 2 f_equal; lia|do 2 f_equal; lia].
      * right. split; [done|]. split; [lia|]. rewrite Hpos. do 2 f_equal. lia.
    + destruct r1 as [|e]; [done|]. intros [= <- <-]. split; [done|]. exists O. rewrite Hs, app_nil_r.
      split; [lia|]. split; [done|]. right. split; [done|]. split; [lia|]. rewrite Hp. do 2 f_equal. lia.
Qed.

(** Where every send succeeds, all events are sent. *)
Definition sends_succeed s : Prop := Forall (λ o, o = Delivered) (bs_selects s).

Lemma send_succeeds what i s :
  sends_succeed s → ∃ sel, send what i s = (with_sent (bs_sent s ++ [i]) sel s, Ok tt) ∧ Forall (λ o, o = Delivered) sel.
Proof.
  unfold sends_succeed, send. destruct (bs_selects s) as [|o q]; cbn; [eauto|].
  intros [-> Hq]%Forall_cons. eauto.
Qed.

Lemma send_all_succeeds n : ∀ i s, sends_succeed s → ∃ s', send_all i n s = (s', Ok tt) ∧ sends_succeed s'.
Proof.
  induction n as [|n IH]; intros i s Hs; cbn [send_all]; [eauto|].
  destruct (send_succeeds "change event" i (with_pos (Some (InEvent i)) (bs_currentFile s) s) Hs) as (sel & E & Hsel).
  unfold mbind, ST_bind. rewrite E. by apply IH.
Qed.

Lemma on_store_ignored_world op s :
  bs_objects (on_store_ignored op s) = bs_objects s ∧ bs_sent (on_store_ignored op s) = bs_sent s ∧
  bs_currentFile (on_store_ignored op s) = bs_currentFile s ∧ bs_position (on_store_ignored op s) = bs_position s ∧
  bs_selects (on_store_ignored op s) = bs_selects s ∧ bs_parser (on_store_ignored op s) = bs_parser s.
Proof. unfold on_store_ignored. by destruct (bs_store s). Qed.

Lemma save_last_world es s :
  bs_objects (save_last es s) = bs_objects s ∧ bs_sent (save_last es s) = bs_sent s ∧
  bs_currentFile (save_last es s) = bs_currentFile s ∧ bs_position (save_last es s) = bs_position s ∧
  bs_tables (save_last es s) = bs_tables s ∧ bs_parser (save_last es s) = bs_parser s.
Proof. unfold save_last, on_store_ignored. destruct (last es); [|done]. by destruct (bs_store s). Qed.

Lemma capture_world database table s s' b :
  syncer_shouldCapture cfg database table s = (s', b) →
  bs_objects s' = bs_objects s ∧ bs_sent s' = bs_sent s ∧ bs_currentFile s' = bs_currentFile s ∧
  bs_position s' = bs_position s ∧ bs_selects s' = bs_selects s ∧ bs_tables s' = bs_tables s ∧ bs_store s' = bs_store s ∧
  bs_parser s' = bs_parser s ∧ bs_schemaCache s' = bs_schemaCache s.
Proof.
  unfold syncer_shouldCapture. destruct (bs_syncScope s) as [sc|]; [|by intros [= <- <-]].
  destruct (ss_Level sc); [|by intros [= <- <-]..].
  destruct (ShouldSyncTable _ _ _) as [d c]. by intros [= <- <-].
Qed.

Lemma definition_world w database table s s' info :
  table_definition w database table s = (s', info) →
  bs_objects s' = bs_objects s ∧ bs_sent s' = bs_sent s ∧ bs_currentFile s' = bs_currentFile s ∧
  bs_position s' = bs_position s ∧ bs_selects s' = bs_selects s ∧ bs_tables s' = bs_tables s ∧ bs_store s' = bs_store s ∧
  bs_parser s' = bs_parser s.
Proof.
  unfold table_definition. destruct (bs_tables s ≫= _); [by intros [= <- <-]|].
  destruct (cache_Get _ _ _ _) as [c r]. by intros [= <- <-].
Qed.

Lemma build_places w file typ h info ev ct cm :
  place <$> buildChangeEvents format_ts w file typ h info ev ct cm =
  replicate (length (row_images typ (re_Rows ev))) (file, eh_LogPos h).
Proof.
  unfold buildChangeEvents. apply list_eq. intros n. rewrite list_lookup_fmap, list_lookup_imap.
  destruct (row_images typ (re_Rows ev) !! n) eqn:E; cbn.
  - symmetry. apply lookup_replicate_2. by eapply lookup_lt_Some.
  - symmetry. apply lookup_ge_None_2. rewrite length_replicate. by apply lookup_ge_None_1.
Qed.

Lemma build_length w file typ h info ev ct cm :
  length (buildChangeEvents format_ts w file typ h info ev ct cm) = length (row_images typ (re_Rows ev)).
Proof. apply length_imap. Qed.

(** ** Rows *)

(** Every column of the row is there under its name with its value, and nothing else. *)
Definition row_values (columns : list ColumnInfo) (values : list value) (r : RowData) : Prop :=
  ∀ name v, f_Value <$> rd_lookup r name = Some v ↔
    ∃ i c, columns !! i = Some c ∧ values !! i = Some v ∧ ci_Name c = name.

(** How many changes the rows of a log event are: an update has two rows. *)
Definition changes (k : rows_kind) (rows : list (list value)) : nat :=
  match k with
  | WRITE_ROWS_EVENTv1 | WRITE_ROWS_EVENTv2 | DELETE_ROWS_EVENTv1 | DELETE_ROWS_EVENTv2 => length rows
  | UPDATE_ROWS_EVENTv1 | UPDATE_ROWS_EVENTv2 => Nat.div2 (length rows)
  | OTHER_EVENT_TYPE => O
  end.

(** The [n]-th of them: the row that was written or deleted, or the row before and the row
    after an update. *)
Definition nth_change (k : rows_kind) (columns : list ColumnInfo) (rows : list (list value)) (n : nat) (e : ChangeEvent) : Prop :=
  match k with
  | WRITE_ROWS_EVENTv1 | WRITE_ROWS_EVENTv2 =>
      ev_Type e = EventTypeInsert ∧ ev_Before e = RowData_zero ∧
      ∃ row, rows !! n = Some row ∧ row_values columns row (ev_After e)
  | UPDATE_ROWS_EVENTv1 | UPDATE_ROWS_EVENTv2 =>
      ev_Type e = EventTypeUpdate ∧
      ∃ before after, rows !! (2 * n)%nat = Some before ∧ rows !! (2 * n + 1)%nat = Some after ∧
        row_values columns before (ev_Before e) ∧ row_values columns after (ev_After e)
  | DELETE_ROWS_EVENTv1 | DELETE_ROWS_EVENTv2 =>
      ev_Type e = EventTypeDelete ∧ ev_After e = RowData_zero ∧
      ∃ row, rows !! n = Some row ∧ row_values columns row (ev_Before e)
  | OTHER_EVENT_TYPE => False
  end.

Lemma buildRowData_values columns values :
  NoDup (ci_Name <$> columns) → row_values columns values (buildRowData columns values).
Proof.
  intros Hnd name v. pose proof (buildRowData_holds columns values Hnd name) as H.
  rewrite fmap_Some. split.
  - intros (f & Hf & ->). apply H in Hf as (i & c & v & Hc & Hv & Hn & ->). by exists i, c.
  - intros (i & c & Hc & Hv & Hn). exists (row_field c v). split; [|done]. apply H. by exists i, c, v.
Qed.

Lemma list_pair_ind {A} (P : list A → Prop) :
  P [] → (∀ a, P [a]) → (∀ a b l, P l → P (a :: b :: l)) → ∀ l, P l.
Proof.
  intros H0 H1 H2 l. enough (P l ∧ ∀ a, P (a :: l)) as []; [done|].
  induction l as [|x l [IH1 IH2]]; [by split|]. split; [apply IH2|]. intros a. by apply H2.
Qed.

Lemma update_pairs_spec rows :
  length (update_pairs rows) = Nat.div2 (length rows) ∧
  ∀ n p, update_pairs rows !! n = Some p → rows !! (2 * n)%nat = Some p.1 ∧ rows !! (2 * n + 1)%nat = Some p.2.
Proof.
  induction rows as [| |b a rows [IHl IH]] using list_pair_ind; [by split|by split|].
  split; [cbn; by rewrite IHl|]. intros [|n] p; cbn [update_pairs lookup list_lookup]; [by intros [= <-]|].
  intros [H1 H2]%IH. replace (2 * Datatypes.S n)%nat with (Datatypes.S (Datatypes.S (2 * n))) by lia. by split.
Qed.

Lemma row_images_length k typ rows : event_type_of k = Some typ → length (row_images typ rows) = changes k rows.
Proof. by destruct k; intros [= <-]; cbn; rewrite length_fmap, ?(proj1 (update_pairs_spec rows)). Qed.

(** What the code builds for a rows event. *)
Lemma build_changes w file k typ h info ev ct cm n e :
  event_type_of k = Some typ → NoDup (ci_Name <$> ti_Columns info) →
  buildChangeEvents format_ts w file typ h info ev ct cm !! n = Some e →
  ev_Table e = info ∧ place e = (file, eh_LogPos h) ∧ nth_change k (ti_Columns info) (re_Rows ev) n e.
Proof.
  intros Hk Hnd. unfold buildChangeEvents. rewrite list_lookup_imap, fmap_Some. intros (img & Hi & ->).
  split; [done|]. split; [done|].
  destruct k; cbn in Hk; simplify_eq; cbn [row_images nth_change] in *; apply list_lookup_fmap_Some in Hi as (x & -> & Hx);
    cbn [row_event_of ev_Type ev_Before ev_After image fst snd].
  1, 2, 5, 6: split_and!; [done..|]; exists x; eauto using buildRowData_values.
  all: destruct (proj2 (update_pairs_spec _) _ _ Hx) as [Hb Ha]; split; [done|]; exists x.1, x.2;
    split_and!; [done|done|by apply buildRowData_values|by apply buildRowData_values].
Qed.

(** C28. A rows event of a captured table whose columns have distinct names, where the
    sends succeed: as many events are sent as it has changes, in their order; the [n]-th is
    an insert with the [n]-th row after it, a delete with the [n]-th row before it, or an
    update with the rows [2n] and [2n+1] before and after it, every value under the name of
    its column; it has the definition of the table and the place of the log event, and the
    position of the syncer is that of the last one.  An update row without its second half
    is not sent. *)
Theorem rows_event_delivered w h ev s s1 s2 info :
  eh_EventType h ≠ OTHER_EVENT_TYPE → sends_succeed s →
  syncer_shouldCapture cfg (re_Schema ev) (re_Table ev) s = (s1, true) →
  table_definition w (re_Schema ev) (re_Table ev) s1 = (s2, info) → NoDup (ci_Name <$> ti_Columns info) →
  let n := changes (eh_EventType h) (re_Rows ev) in
  ∃ s' es, processEvent cfg format_ts w (mkBinlogEvent h (RowsEv ev)) s = (s', Ok tt) ∧
    bs_objects s' = bs_objects s ++ es ∧ length es = n ∧ bs_sent s' = bs_sent s ++ seq (length (bs_objects s)) n ∧
    (∀ i e, es !! i = Some e → ev_Table e = info ∧ place e = (bs_currentFile s, eh_LogPos h) ∧
       nth_change (eh_EventType h) (ti_Columns info) (re_Rows ev) i e) ∧
    (n ≠ O → ∃ p, deref_position s' = Some p ∧ pos_BinlogFile p = bs_currentFile s ∧ pos_BinlogPos p = eh_LogPos h).
Proof.
  intros Hk Hsend Hcap Hdef Hnd n. cbn [processEvent be_Header be_Event]. unfold handleRowsEvent.
  rewrite Hcap. cbn [negb]. rewrite Hdef.
  destruct (event_type_of (eh_EventType h)) as [typ|] eqn:Htyp; [|by destruct (eh_EventType h)].
  destruct (capture_world _ _ _ _ _ Hcap) as (Ho1 & Hs1 & Hf1 & _ & Hq1 & _).
  destruct (definition_world _ _ _ _ _ _ Hdef) as (Ho2 & Hs2 & Hf2 & _ & Hq2 & _).
  set (es := buildChangeEvents _ _ _ _ _ _ _ _ _). set (i := length (bs_objects s2)).
  destruct (send_all_succeeds (length es) i (with_objects (bs_objects s2 ++ es) s2)) as (s3 & E3 & _).
  { unfold sends_succeed. cbn. by rewrite Hq2, Hq1. }
  pose proof (send_all_spec _ _ _ _ _ E3) as ((Ho3 & Hf3 & _) & k & _ & Hs3 & Hpos).
  destruct Hpos as [(_ & -> & Hpos)|[? _]]; [|done]. cbn [with_objects bs_objects bs_sent bs_currentFile] in Ho3, Hf3, Hs3.
  assert (Hlen : length es = n) by (subst es n; by rewrite build_length, <- (row_images_length _ _ _ Htyp)).
  assert (Hes : ∀ j e, es !! j = Some e → ev_Table e = info ∧ place e = (bs_currentFile s, eh_LogPos h) ∧
                  nth_change (eh_EventType h) (ti_Columns info) (re_Rows ev) j e).
  { intros j e He. rewrite <- Hf1, <- Hf2. by eapply build_changes. }
  unfold mbind, ST_bind. rewrite E3. cbn [st_modify].
  destruct (save_last_world es s3) as (Ho4 & Hs4 & _ & Hp4 & _). exists (save_last es s3), es. split_and!; [done| |done| |done|].
  - by rewrite Ho4, Ho3, Ho2, Ho1.
  - rewrite Hs4, Hs3, Hs2, Hs1, Hlen. subst i. by rewrite Ho2, Ho1.
  - intros Hn. unfold deref_position. rewrite Hp4, Hpos, Hlen, Ho4, Ho3. clearbody n. destruct n as [|m]; [done|].
    rewrite lookup_app_r by (subst i; lia). replace (i + Datatypes.S m - 1 - length (bs_objects s2))%nat with m by (subst i; lia).
    destruct (lookup_lt_is_Some_2 es m) as [e He]; [lia|]. rewrite He. eexists. split; [done|].
    destruct (Hes m e He) as (_ & Hpl & _). by injection Hpl.
Qed.

(** ** The order of the log *)

(** What a log event adds: events at its own place, of which the first ones are sent. *)
Definition extends (file : string) (pos : Z) s s' : Prop :=
  ∃ n k, (k <= n)%nat ∧ place <$> bs_objects s' = (place <$> bs_objects s) ++ replicate n (file, pos) ∧
    bs_sent s' = bs_sent s ++ seq (length (bs_objects s)) k.

Lemma extends_none file pos s s' :
  place <$> bs_objects s' = place <$> bs_objects s → bs_sent s' = bs_sent s → extends file pos s s'.
Proof. intros Ho Hs. exists O, O. by rewrite Ho, Hs, !app_nil_r. Qed.

Lemma set_txid_world gtid s :
  place <$> bs_objects (set_txid gtid s) = place <$> bs_objects s ∧ bs_sent (set_txid gtid s) = bs_sent s ∧
  bs_currentFile (set_txid gtid s) = bs_currentFile s.
Proof.
  unfold set_txid. destruct (bs_position s) as [[i|p]|]; [|done..]. split; [|done].
  apply list_eq. intros j. cbn. rewrite !list_lookup_fmap.
  destruct (decide (i = j)) as [->|Hne]; [|by rewrite list_lookup_alter_ne].
  rewrite list_lookup_alter_eq. by destruct (bs_objects s !! j).
Qed.

Lemma handleRowsEvent_extends w h ev s s' r :
  handleRowsEvent cfg format_ts w h ev s = (s', r) →
  extends (bs_currentFile s) (eh_LogPos h) s s' ∧ bs_currentFile s' = bs_currentFile s.
Proof.
  unfold handleRowsEvent. destruct (syncer_shouldCapture _ _ _ s) as [s1 b] eqn:Hcap.
  destruct (capture_world _ _ _ _ _ Hcap) as (Ho1 & Hs1 & Hf1 & _).
  destruct b; cbn [negb]; [|intros [= <- <-]; split; [apply extends_none; congruence|done]].
  destruct (table_definition _ _ _ s1) as [s2 info] eqn:Hdef.
  destruct (definition_world _ _ _ _ _ _ Hdef) as (Ho2 & Hs2 & Hf2 & _).
  destruct (event_type_of _) as [typ|]; [|intros [= <- <-]; split; [apply extends_none; congruence|congruence]].
  set (es := buildChangeEvents _ _ _ _ _ _ _ _ _). unfold mbind, ST_bind.
  destruct (send_all _ _ _) as [s3 r3] eqn:E3.
  apply send_all_spec in E3 as ((Ho3 & Hf3 & _) & k & Hk & Hs3 & _). cbn [with_objects bs_objects bs_sent bs_currentFile] in *.
  assert (Hext : extends (bs_currentFile s) (eh_LogPos h) s s3).
  { exists (length es), k. split; [done|]. split; [|by rewrite Hs3, Hs2, Hs1, Ho2, Ho1].
    rewrite Ho3, fmap_app, Ho2, Ho1. subst es. by rewrite build_places, build_length, Hf2, Hf1. }
  assert (Hf : bs_currentFile s3 = bs_currentFile s) by congruence.
  destruct r3; [|by intros [= <- <-]]. cbn [st_modify]. intros [= <- <-].
  destruct (save_last_world es s3) as (Ho & Hs & Hf' & _).
  split; [|congruence]. unfold extends in *. by rewrite Ho, Hs.
Qed.

Lemma apply_ddl_world pos query r s :
  bs_objects (apply_ddl pos query r s) = bs_objects s ∧ bs_sent (apply_ddl pos query r s) = bs_sent s ∧
  bs_currentFile (apply_ddl pos query r s) = bs_currentFile s ∧ bs_selects (apply_ddl pos query r s) = bs_selects s ∧
  bs_parser (apply_ddl pos query r s) = bs_parser s.
Proof.
  unfold apply_ddl. destruct (bs_parser s) as [p|] eqn:Ep; [|done]. destruct (bs_tables s) as [t|]; [|done].
  destruct r as [r|]; [|done]. case_bool_decide; [done|].
  destruct (ps_ApplyDDL p _ _) as [[a|]|]; [|done..].
  destruct (on_store_ignored_world (SaveSchemaHistory (ddl_history_row pos r query (pd_NewTableInfo a)))
    (with_defs (Some (ddl_applied r (pd_NewTableInfo a) t)) (bs_store s) s)) as (-> & -> & -> & _ & -> & ->). done.
Qed.

Lemma invalidate_world r s :
  bs_objects (invalidate r s) = bs_objects s ∧ bs_sent (invalidate r s) = bs_sent s ∧
  bs_currentFile (invalidate r s) = bs_currentFile s ∧ bs_selects (invalidate r s) = bs_selects s ∧
  bs_parser (invalidate r s) = bs_parser s ∧ bs_tables (invalidate r s) = bs_tables s ∧
  bs_store (invalidate r s) = bs_store s.
Proof. unfold invalidate. destruct r; [case_bool_decide|]; done. Qed.

(** The state in which a DDL event is sent. *)
Definition ddl_ready w h database query s : BinlogSyncer S :=
  let r := parse_ddl s query in
  let e := ddl_event format_ts w (bs_currentFile s) database query h r in
  let s1 := apply_ddl (ev_Position e) query r (invalidate r (with_objects (bs_objects s ++ [e]) s)) in
  with_pos (Some (InEvent (length (bs_objects s)))) (bs_currentFile s1) s1.

Lemma ddl_ready_world w h database query s :
  bs_objects (ddl_ready w h database query s) =
    bs_objects s ++ [ddl_event format_ts w (bs_currentFile s) database query h (parse_ddl s query)] ∧
  bs_sent (ddl_ready w h database query s) = bs_sent s ∧
  bs_currentFile (ddl_ready w h database query s) = bs_currentFile s ∧
  bs_selects (ddl_ready w h database query s) = bs_selects s ∧
  bs_position (ddl_ready w h database query s) = Some (InEvent (length (bs_objects s))).
Proof.
  unfold ddl_ready. cbv zeta. set (e := ddl_event _ _ _ _ _ _ _). set (r := parse_ddl s query).
  destruct (apply_ddl_world (ev_Position e) query r (invalidate r (with_objects (bs_objects s ++ [e]) s))) as (Ho & Hs & Hf & Hq & _).
  destruct (invalidate_world r (with_objects (bs_objects s ++ [e]) s)) as (Ho2 & Hs2 & Hf2 & Hq2 & _).
  cbn [with_pos bs_objects bs_sent bs_currentFile bs_selects bs_position]. rewrite Ho, Hs, Hf, Hq, Ho2, Hs2, Hf2, Hq2. done.
Qed.

(** A DDL statement: it is recorded, and its event is sent. *)
Lemma handleQueryEvent_ready w h database query s :
  isDDL query = true →
  handleQueryEvent format_ts w h database query s =
  (send "DDL event" (length (bs_objects s)) ≫=
     λ _, st_modify (on_store_ignored (SaveCurrentPosition (Some (log_position (bs_currentFile s) h)))))
    (ddl_ready w h database query s).
Proof. intros H. unfold handleQueryEvent. by rewrite H. Qed.

Lemma handleQueryEvent_extends w h database query s s' r :
  handleQueryEvent format_ts w h database query s = (s', r) →
  extends (bs_currentFile s) (eh_LogPos h) s s' ∧ bs_currentFile s' = bs_currentFile s.
Proof.
  destruct (isDDL query) eqn:Eddl.
  2: { unfold handleQueryEvent. rewrite Eddl. intros [= <- <-]. split; [by apply extends_none|done]. }
  rewrite handleQueryEvent_ready by done. destruct (ddl_ready_world w h database query s) as (Ho & Hs & Hf & _).
  unfold mbind, ST_bind. destruct (send _ _ _) as [s2 r2] eqn:E2. apply send_spec in E2 as ((Ho2 & Hf2 & _) & _ & Hs2).
  assert (Hext : extends (bs_currentFile s) (eh_LogPos h) s s2).
  { rewrite Hs in Hs2. destruct Hs2 as [[_ Hs2]|[_ Hs2]]; [exists 1%nat, 1%nat|exists 1%nat, O];
      rewrite Hs2, Ho2, Ho, fmap_app; cbn; rewrite ?app_nil_r; (split; [lia|done]). }
  destruct r2; [|intros [= <- <-]; split; [done|congruence]]. unfold st_modify. intros [= <- <-].
  destruct (on_store_ignored_world (SaveCurrentPosition (Some (log_position (bs_currentFile s) h))) s2) as (Ho' & Hs' & Hf' & _).
  split; [|congruence]. unfold extends in *. by rewrite Ho', Hs'.
Qed.

(** The file of the events after a log event. *)
Definition next_file (file : string) (ev : BinlogEvent) : string :=
  match be_Event ev with RotateEvent name _ => name | _ => file end.

Lemma processEvent_extends w ev s s' r :
  processEvent cfg format_ts w ev s = (s', r) →
  extends (bs_currentFile s) (eh_LogPos (be_Header ev)) s s' ∧ bs_currentFile s' = next_file (bs_currentFile s) ev.
Proof.
  unfold processEvent, next_file. destruct (be_Event ev) as [name p|db q|id ts ms|rows| |sid gno|? ? ?|] eqn:E.
  - intros [= <- <-]. split; [by apply extends_none|done].
  - apply handleQueryEvent_extends.
  - intros [= <- <-]. split; [by apply extends_none|done].
  - apply handleRowsEvent_extends.
  - intros [= <- <-]. split; [by apply extends_none|done].
  - unfold handleGTIDEvent. destruct (_ <? _)%nat; intros [= <- <-]; [split; [by apply extends_none|done]|].
    destruct (set_txid_world (format_gtid sid gno) s) as (Ho & Hs & Hf). split; [by apply extends_none|done].
  - intros [= <- <-]. split; [by apply extends_none|done].
  - intros [= <- <-]. split; [by apply extends_none|done].
Qed.

(** The places of the sent events, in the order they were sent. *)
Definition sent_places s : list (option (string * Z)) := (λ i, place <$> bs_objects s !! i) <$> bs_sent s.

Definition sent_known s : Prop := Forall (λ i, (i < length (bs_objects s))%nat) (bs_sent s).

Lemma extends_places file pos s s' :
  sent_known s → extends file pos s s' →
  sent_known s' ∧ ∃ k, sent_places s' = sent_places s ++ replicate k (Some (file, pos)).
Proof.
  intros Hk (n & k & Hle & Ho & Hs).
  assert (Hlen : length (bs_objects s') = (length (bs_objects s) + n)%nat).
  { rewrite <- (length_fmap place), Ho, length_app, length_fmap, length_replicate. done. }
  assert (Hat : ∀ i, place <$> bs_objects s' !! i = ((place <$> bs_objects s) ++ replicate n (file, pos)) !! i).
  { intros i. by rewrite <- Ho, list_lookup_fmap. }
  split.
  - unfold sent_known. rewrite Hs. apply Forall_app. split.
    + eapply Forall_impl; [exact Hk|]. cbn. intros i Hi. lia.
    + apply Forall_forall. intros i Hi%elem_of_seq. lia.
  - exists k. unfold sent_places. rewrite Hs, fmap_app. f_equal.
    + apply list_fmap_ext. intros j i Hj. rewrite Hat. unfold sent_known in Hk. rewrite Forall_lookup in Hk.
      rewrite lookup_app_l by (rewrite length_fmap; by eapply Hk). by rewrite list_lookup_fmap.
    + apply list_eq. intros j. rewrite list_lookup_fmap.
      destruct (decide (j < k)%nat) as [Hj|Hj].
      * rewrite lookup_seq_lt by done. cbn. rewrite Hat, lookup_app_r by (rewrite length_fmap; lia).
        rewrite length_fmap, !lookup_replicate_2 by lia. done.
      * rewrite !lookup_ge_None_2; [done|rewrite length_replicate; lia|rewrite length_seq; lia].
Qed.

(** Where the events of a log are, from a file on. *)
Fixpoint log_places (file : string) (log : list (sync_world * result BinlogEvent)) : list (string * Z) :=
  match log with
  | [] => []
  | (_, Err _) :: log => (file, 0) :: log_places file log
  | (_, Ok ev) :: log => (file, eh_LogPos (be_Header ev)) :: log_places (next_file file ev) log
  end.

(** As many events at each place as given. *)
Definition at_places (ns : list nat) (places : list (string * Z)) : list (option (string * Z)) :=
  concat (zip_with (λ n p, replicate n (Some p)) ns places).

Lemma at_places_none places : at_places (replicate (length places) O) places = [].
Proof. induction places; cbn; [done|]. unfold at_places in *. cbn. done. Qed.

Lemma log_places_length log : ∀ file, length (log_places file log) = length log.
Proof. induction log as [|[w [ev|e]] log IH]; intros file; cbn; [done| |]; by rewrite IH. Qed.

Lemma report_places w e s :
  bs_objects (report w e s) = bs_objects s ∧ bs_sent (report w e s) = bs_sent s ∧
  bs_currentFile (report w e s) = bs_currentFile s.
Proof. unfold report. by destruct (sw_errRoom w). Qed.

(** What a handler promises the loop: it adds events at the place of its log event, and
    only a rotation changes the file. *)
Definition keeps_places (process : sync_world → BinlogEvent → ST (BinlogSyncer S) unit) : Prop :=
  ∀ w ev s s' r, process w ev s = (s', r) →
  extends (bs_currentFile s) (eh_LogPos (be_Header ev)) s s' ∧ bs_currentFile s' = next_file (bs_currentFile s) ev.

Lemma syncer_round_places process w got s s' r :
  keeps_places process → sent_known s → syncer_round process w got s = (s', r) →
  sent_known s' ∧
  match got with
  | Err _ => sent_places s' = sent_places s ∧ bs_currentFile s' = bs_currentFile s
  | Ok ev => (∃ k, sent_places s' = sent_places s ++ replicate k (Some (bs_currentFile s, eh_LogPos (be_Header ev)))) ∧
             bs_currentFile s' = next_file (bs_currentFile s) ev
  end.
Proof.
  intros Hproc Hk. unfold syncer_round. destruct got as [ev|e].
  2: { intros [= <- <-]. destruct (report_places w e s) as (Ho & Hs & Hf). unfold sent_known, sent_places.
       by rewrite Ho, Hs, Hf. }
  destruct (process w ev s) as [s1 r1] eqn:E. apply Hproc in E as [Hext Hf].
  destruct (extends_places _ _ _ _ Hk Hext) as [Hk1 Hp].
  intros Hrun. assert (H : s' = s1 ∨ ∃ e, s' = report w e s1) by (destruct r1 as [|[]]; simplify_eq; eauto).
  destruct H as [->|[e ->]]; [done|]. destruct (report_places w e s1) as (Ho & Hs & Hf').
  unfold sent_known, sent_places in *. by rewrite Ho, Hs, Hf'.
Qed.

Lemma run_in_log_order process log s s' r :
  keeps_places process → sent_known s → syncer_run process log s = (s', r) →
  ∃ ns, length ns = length log ∧
    sent_places s' = sent_places s ++ at_places ns (log_places (bs_currentFile s) log).
Proof.
  intros Hproc. revert s. induction log as [|[w got] log IH]; intros s Hk; cbn [syncer_run].
  { intros [= <- <-]. exists []. split; [done|]. cbn. by rewrite app_nil_r. }
  unfold mbind, ST_bind. destruct (syncer_round process w got s) as [s1 r1] eqn:E.
  destruct (syncer_round_places _ _ _ _ _ _ Hproc Hk E) as [Hk1 Hp].
  assert (Hfirst : ∃ k file, bs_currentFile s1 = file ∧
    sent_places s1 = sent_places s ++ at_places [k] (take 1 (log_places (bs_currentFile s) ((w, got) :: log))) ∧
    drop 1 (log_places (bs_currentFile s) ((w, got) :: log)) = log_places file log).
  { destruct got as [ev|e]; cbn [log_places take drop].
    - destruct Hp as [[k Hp] Hf]. exists k, (next_file (bs_currentFile s) ev). split; [done|]. split; [|done].
      rewrite Hp. unfold at_places. cbn. by rewrite app_nil_r.
    - destruct Hp as [Hp Hf]. exists O, (bs_currentFile s). split; [done|]. split; [|done].
      rewrite Hp. unfold at_places. cbn. by rewrite app_nil_r. }
  destruct Hfirst as (k & file & Hf & Hs1 & Hdrop).
  destruct (log_places (bs_currentFile s) ((w, got) :: log)) as [|p places] eqn:Epl; [by destruct got|].
  cbn [take drop] in Hs1, Hdrop. rewrite drop_0 in Hdrop. subst places.
  destruct r1 as [u|e].
  - intros Hrun. destruct (IH s1 Hk1 Hrun) as (ns & Hlen & Hs'). exists (k :: ns). split; [cbn; by rewrite Hlen|].
    rewrite Hs', Hs1, Hf, <- app_assoc. f_equal. unfold at_places. cbn. by rewrite app_nil_r.
  - intros [= <- <-]. exists (k :: replicate (length log) O). split; [cbn; by rewrite length_replicate|].
    rewrite Hs1. f_equal. unfold at_places. cbn. f_equal.
    pose proof (at_places_none (log_places file log)) as Hn. rewrite log_places_length in Hn. by rewrite <- Hn.
Qed.

(** C27. Change events are sent in the order of the log, and each carries the file and the
    offset of the log event it comes from: whatever the log, the sends and the store do,
    the events sent are those of the log's places, some number from each, in order. *)
Theorem events_in_log_order log s s' r :
  sent_known s → syncer_run (processEvent cfg format_ts) log s = (s', r) →
  ∃ ns, length ns = length log ∧
    sent_places s' = sent_places s ++ at_places ns (log_places (bs_currentFile s) log).
Proof. apply run_in_log_order. intros w ev s0 s1 r0. apply processEvent_extends. Qed.

(** ** Positions *)

(** The position is a pointer into the event that was sent: the identifier of the next
    transaction, which a GTID event announces, is written into the DDL event that is
    already in the channel.  The event was sent without any. *)
Theorem gtid_rewrites_sent_event w h database query w' h' sid gno s :
  isDDL query = true → sends_succeed s → (16 <= length sid)%nat →
  let i := length (bs_objects s) in
  ∃ s1 s2 e1 e2,
    processEvent cfg format_ts w (mkBinlogEvent h (QueryEvent database query)) s = (s1, Ok tt) ∧
    bs_sent s1 = bs_sent s ++ [i] ∧ bs_objects s1 !! i = Some e1 ∧ pos_TxID (ev_Position e1) = "" ∧
    processEvent cfg format_ts w' (mkBinlogEvent h' (GTIDEvent sid gno)) s1 = (s2, Ok tt) ∧
    bs_sent s2 = bs_sent s1 ∧ bs_objects s2 !! i = Some e2 ∧ pos_TxID (ev_Position e2) = format_gtid sid gno.
Proof.
  intros Hddl Hsend Hsid i. destruct (ddl_ready_world w h database query s) as (Ho & Hs & Hf & Hq & Hp).
  destruct (send_succeeds "DDL event" i (ddl_ready w h database query s)) as (sel & E & _).
  { unfold sends_succeed. by rewrite Hq. }
  set (s1 := on_store_ignored (SaveCurrentPosition (Some (log_position (bs_currentFile s) h)))
               (with_sent (bs_sent (ddl_ready w h database query s) ++ [i]) sel (ddl_ready w h database query s))).
  destruct (on_store_ignored_world (SaveCurrentPosition (Some (log_position (bs_currentFile s) h)))
    (with_sent (bs_sent (ddl_ready w h database query s) ++ [i]) sel (ddl_ready w h database query s)))
    as (Ho1 & Hs1 & _ & Hp1 & _). fold s1 in Ho1, Hs1, Hp1. cbn [with_sent bs_objects bs_sent bs_position] in Ho1, Hs1, Hp1.
  rewrite Hp in Hp1. rewrite Ho in Ho1. rewrite Hs in Hs1.
  set (e := ddl_event _ _ _ _ _ _ _) in Ho1.
  assert (He : bs_objects s1 !! i = Some e) by (rewrite Ho1; by apply list_lookup_middle).
  exists s1, (set_txid (format_gtid sid gno) s1), e,
    (event_with_position (with_txid (format_gtid sid gno) (ev_Position e)) e).
  split.
  { cbn [processEvent be_Event be_Header]. rewrite handleQueryEvent_ready by done. unfold mbind, ST_bind. fold i. by rewrite E. }
  split; [done|]. split; [done|]. split; [done|]. split.
  { cbn [processEvent be_Event be_Header]. unfold handleGTIDEvent. by rewrite (proj2 (Nat.ltb_ge _ _)) by lia. }
  unfold set_txid. rewrite Hp1. split; [done|]. split; [|done].
  cbn [with_objects bs_objects]. fold i. by rewrite list_lookup_alter_eq, He.
Qed.

(** The position moves before the send: when sending the rows of an event times out, the
    handler fails with nothing sent, and the position, which is where a restart begins,
    is behind the event. *)
Theorem timed_out_rows_are_passed_over w h ev typ s s1 s2 info q :
  event_type_of (eh_EventType h) = Some typ → bs_selects s = SendTimeout :: q → row_images typ (re_Rows ev) ≠ [] →
  syncer_shouldCapture cfg (re_Schema ev) (re_Table ev) s = (s1, true) →
  table_definition w (re_Schema ev) (re_Table ev) s1 = (s2, info) →
  ∃ s', processEvent cfg format_ts w (mkBinlogEvent h (RowsEv ev)) s =
          (s', Err (ErrNew "timeout sending change event")) ∧
    bs_sent s' = bs_sent s ∧ deref_position s' = Some (log_position (bs_currentFile s) h).
Proof.
  intros Htyp Hq Hne Hcap Hdef. cbn [processEvent be_Header be_Event]. unfold handleRowsEvent.
  rewrite Hcap. cbn [negb]. rewrite Hdef, Htyp.
  destruct (capture_world _ _ _ _ _ Hcap) as (Ho1 & Hs1 & Hf1 & _ & Hq1 & _).
  destruct (definition_world _ _ _ _ _ _ Hdef) as (Ho2 & Hs2 & Hf2 & _ & Hq2 & _).
  unfold buildChangeEvents at 2. destruct (row_images typ (re_Rows ev)) as [|img imgs] eqn:Ei; [done|].
  cbn [imap length]. rewrite length_imap. cbn [send_all]. unfold mbind, ST_bind, send.
  cbn [with_pos with_objects bs_selects]. rewrite Hq2, Hq1, Hq. cbn [head].
  eexists. split; [reflexivity|]. split; [cbn; congruence|].
  unfold deref_position. cbn [with_sent with_pos with_objects bs_position bs_objects].
  rewrite lookup_app_r, Nat.sub_diag by done. unfold buildChangeEvents. rewrite Ei. cbn. by rewrite Hf2, Hf1.
Qed.

(** ** Definitions and history *)

(** A row of the history as it is loaded: the identifier is the store's, and the JSON
    text of a missing definition is read back as the zero one. *)
Definition loaded_row (id : Z) (row : SchemaHistoryRow) : SchemaHistoryRow :=
  mkSchemaHistoryRow id (sr_Position row) (sr_DBName row) (sr_TableName row) (sr_DDL row)
    (Some (default TableInfo_zero (sr_TableInfo row))) (sr_ChangeType row).
End SyncerProofs.

(** What recovery relies on of the history of a store, calls that fail included: a row
    that was saved, and that JSON gives back, is loaded after those before it; other calls
    leave the history alone. *)
Class HistoryRowsLaws (S : Type) `{!TargetStore S} := {
  rows_view : S → list SchemaHistoryRow;
  row_storable : SchemaHistoryRow → Prop;
  rows_load st st' rows : LoadSchemaHistory st = (st', Ok rows) → rows = rows_view st;
  rows_save st st' row : row_storable row → SaveSchemaHistory row st = (st', Ok tt) →
    ∃ id, rows_view st' = rows_view st ++ [loaded_row id row];
  rows_current st p : rows_view (SaveCurrentPosition p st).1 = rows_view st;
  rows_positions st : rows_view (LoadPositions st).1 = rows_view st;
  rows_lifecycles st : rows_view (LoadTableLifecycles st).1 = rows_view st
}.

#[program]
Definition observed_rows_laws {S} `{!TargetStore S} `{!HistoryRowsLaws S} : @HistoryRowsLaws (observed S) observed_store := {|
  rows_view st := rows_view st.1;
  row_storable := row_storable
|}.
Next Obligation.
  intros S ? ? [st calls] st' rows. cbn. destruct (LoadSchemaHistory st) as [st1 r] eqn:E. intros [= _ ->]. by eapply rows_load.
Qed.
Next Obligation.
  intros S ? ? [st calls] st' row Hrow. cbn. destruct (SaveSchemaHistory row st) as [st1 r] eqn:E. intros [= <- ->]. by eapply rows_save.
Qed.
Next Obligation.
  intros S ? ? [st calls] p. cbn. pose proof (rows_current st p) as H. by destruct (SaveCurrentPosition p st).
Qed.
Next Obligation.
  intros S ? ? [st calls]. cbn. pose proof (rows_positions st) as H. by destruct (LoadPositions st).
Qed.
Next Obligation.
  intros S ? ? [st calls]. cbn. pose proof (rows_lifecycles st) as H. by destruct (LoadTableLifecycles st).
Qed.

(** The rows that were to be saved were saved, and JSON gives them back. *)
Definition rows_kept {S} `{!TargetStore S} `{!HistoryRowsLaws S} (calls : list (SchemaHistoryRow * result unit)) : Prop :=
  Forall (λ c, row_storable c.1 ∧ c.2 = Ok tt) calls.

Section History.
Context {S : Type} `{!TargetStore S} `{!HistoryRowsLaws S} `{RX : Regexp} `{!GoRange string string}
  (cfg : SyncConfig) (format_ts : time → string).
#[local] Existing Instance observed_store.
Implicit Types s : BinlogSyncer (observed S).

(** Every definition in force is in the tables that replaying the history gives. *)
Definition recoverable s : Prop :=
  ∀ t st calls, bs_tables s = Some t → bs_store s = Some (st, calls) → rows_kept calls →
  ∀ k info, k ≠ tableKey "" "" → t !! k = Some info → foldl apply_row NewTables (rows_view st) !! k = Some info.

Lemma recoverable_world s s' :
  bs_tables s' = bs_tables s →
  (bs_store s' = bs_store s ∨ ∃ st p, bs_store s = Some st ∧ bs_store s' = Some (SaveCurrentPosition p st).1) →
  recoverable s → recoverable s'.
Proof.
  intros Ht Hst Hr t st calls Et Est Hc k info Hk Hi. rewrite Ht in Et. destruct Hst as [Hst|([st0 calls0] & p & Hst0 & Hst)].
  - rewrite Hst in Est. eauto.
  - rewrite Hst in Est. cbn in Est. destruct (SaveCurrentPosition p st0) as [st1 r] eqn:E. cbn in Est. simplify_eq.
    pose proof (rows_current st0 p) as Hv. rewrite E in Hv. cbn in Hv. rewrite Hv. eauto.
Qed.

Lemma save_current_recoverable p s : recoverable s → recoverable (on_store_ignored (SaveCurrentPosition p) s).
Proof.
  intros Hr. unfold on_store_ignored. destruct (bs_store s) as [st|] eqn:E; [|done].
  eapply recoverable_world; [| |exact Hr]; [done|]. right. by exists st, p.
Qed.

Lemma apply_ddl_recoverable pos query r s : recoverable s → recoverable (apply_ddl pos query r s).
Proof.
  intros Hr. unfold apply_ddl. destruct (bs_parser s) as [p|]; [|done]. destruct (bs_tables s) as [t|] eqn:Et; [|done].
  destruct r as [r|]; [|done]. case_bool_decide; [done|].
  destruct (ps_ApplyDDL p _ _) as [[a|]|]; [|done..]. unfold on_store_ignored. cbn [with_defs bs_store bs_tables].
  destruct (bs_store s) as [[st calls]|] eqn:Est; [|by intros ? ? ? ? [=]].
  intros t' st' calls' [= <-] Est' Hc k info Hk Hi. cbn in Est'.
  destruct (SaveSchemaHistory (ddl_history_row pos r query (pd_NewTableInfo a)) st) as [st1 res] eqn:Es.
  cbn in Est'. injection Est' as <- <-. apply Forall_app in Hc as [Hc [[Hrow Hok] _]%Forall_cons]. cbn in Hrow, Hok. subst res.
  destruct (rows_save st st1 _ Hrow Es) as [id ->].
  rewrite foldl_app. cbn [foldl]. unfold apply_row at 1, apply_record. cbn [loaded_row sr_TableInfo ddl_history_row].
  unfold ddl_applied in Hi. unfold Tables_Put in *. destruct (pd_NewTableInfo a) as [new|]; cbn [default].
  - destruct (decide (tableKey (ti_Database new) (ti_Table new) = k)) as [<-|Hne].
    + by rewrite lookup_insert_eq in Hi |- *.
    + rewrite lookup_insert_ne in Hi |- * by done. eauto.
  - rewrite lookup_insert_ne by done. case_bool_decide; [|eauto].
    unfold Tables_Remove in Hi. apply lookup_delete_Some in Hi as [_ Hi]. eauto.
Qed.

Lemma recoverable_same s s' : bs_tables s' = bs_tables s → bs_store s' = bs_store s → recoverable s → recoverable s'.
Proof. intros Ht Hs. apply recoverable_world; [done|by left]. Qed.

Lemma set_txid_recoverable gtid s : recoverable s → recoverable (set_txid gtid s).
Proof. apply recoverable_same; unfold set_txid; by destruct (bs_position s) as [[]|]. Qed.

Lemma handleRowsEvent_recoverable w h ev s s' r :
  recoverable s → handleRowsEvent cfg format_ts w h ev s = (s', r) → recoverable s'.
Proof.
  intros Hr. unfold handleRowsEvent. destruct (syncer_shouldCapture _ _ _ s) as [s1 b] eqn:Hcap.
  destruct (capture_world _ _ _ _ _ _ Hcap) as (_ & _ & _ & _ & _ & Ht1 & Hst1 & _).
  apply (recoverable_same _ _ Ht1 Hst1) in Hr. destruct b; cbn [negb]; [|by intros [= <- <-]].
  destruct (table_definition _ _ _ s1) as [s2 info] eqn:Hdef.
  destruct (definition_world _ _ _ _ _ _ Hdef) as (_ & _ & _ & _ & _ & Ht2 & Hst2 & _).
  apply (recoverable_same _ _ Ht2 Hst2) in Hr. destruct (event_type_of _) as [typ|]; [|by intros [= <- <-]].
  unfold mbind, ST_bind. destruct (send_all _ _ _) as [s3 r3] eqn:E3.
  apply send_all_spec in E3 as ((_ & _ & Hst3 & Ht3 & _) & _).
  apply (recoverable_same _ _ Ht3 Hst3) in Hr. destruct r3; [|by intros [= <- <-]].
  unfold st_modify. intros [= <- <-]. unfold save_last. destruct (last _); [by apply save_current_recoverable|done].
Qed.

Lemma handleQueryEvent_recoverable w h database query s s' r :
  recoverable s → handleQueryEvent format_ts w h database query s = (s', r) → recoverable s'.
Proof.
  intros Hr. destruct (isDDL query) eqn:Eddl; [|unfold handleQueryEvent; rewrite Eddl; by intros [= <- <-]].
  rewrite handleQueryEvent_ready by done.
  assert (Hready : recoverable (ddl_ready format_ts w h database query s)).
  { unfold ddl_ready. cbv zeta. eapply recoverable_same; [done|done|]. apply apply_ddl_recoverable.
    destruct (invalidate_world (parse_ddl s query) (with_objects (bs_objects s ++
      [ddl_event format_ts w (bs_currentFile s) database query h (parse_ddl s query)]) s)) as (_ & _ & _ & _ & _ & Ht & Hst).
    by apply (recoverable_same _ _ Ht Hst). }
  unfold mbind, ST_bind. destruct (send _ _ _) as [s2 r2] eqn:E2. apply send_spec in E2 as ((_ & _ & Hst2 & Ht2 & _) & _).
  apply (recoverable_same _ _ Ht2 Hst2) in Hready. destruct r2; [|by intros [= <- <-]].
  unfold st_modify. intros [= <- <-]. by apply save_current_recoverable.
Qed.

Lemma processEvent_recoverable w ev s s' r :
  recoverable s → processEvent cfg format_ts w ev s = (s', r) → recoverable s'.
Proof.
  intros Hr. unfold processEvent. destruct (be_Event ev) as [name p|db q|id ts ms|rows| |sid gno|? ? ?|].
  - by intros [= <- <-].
  - by apply handleQueryEvent_recoverable.
  - by intros [= <- <-].
  - by apply handleRowsEvent_recoverable.
  - by intros [= <- <-].
  - unfold handleGTIDEvent. destruct (_ <? _)%nat; intros [= <- <-]; [done|by apply set_txid_recoverable].
  - by intros [= <- <-].
  - by intros [= <- <-].
Qed.

(** Whatever the log, replaying the saved history gives every definition in force: rows
    read after a restart are decoded by the definitions they were written under. *)
Lemma syncer_run_recoverable log s s' r :
  recoverable s → syncer_run (processEvent cfg format_ts) log s = (s', r) → recoverable s'.
Proof.
  revert s. induction log as [|[w got] log IH]; intros s Hr; cbn [syncer_run]; [by intros [= <- <-]|].
  unfold mbind, ST_bind. destruct (syncer_round _ w got s) as [s1 r1] eqn:E.
  assert (Hr1 : recoverable s1).
  { unfold syncer_round in E. destruct got as [ev|e].
    - destruct (processEvent _ _ w ev s) as [s2 r2] eqn:E2. apply processEvent_recoverable in E2; [|done].
      assert (H : s1 = s2 ∨ ∃ e, s1 = report w e s2) by (destruct r2 as [|[]]; simplify_eq; eauto).
      destruct H as [->|[e ->]]; [done|]. unfold report. by destruct (sw_errRoom w).
    - simplify_eq. unfold report. by destruct (sw_errRoom w). }
  destruct r1; [by apply IH|by intros [= <- <-]].
Qed.
End History.

(** ** What is done to the store *)

Section StoreSteps.
Context {S : Type} `{!TargetStore S} `{RX : Regexp} `{!GoRange string string} (cfg : SyncConfig) (format_ts : time → string).
Implicit Types s : BinlogSyncer S.

(** The syncer only adds to the history and saves current positions. *)
Inductive store_step : option S → option S → Prop :=
  | step_history row st : store_step (Some st) (Some (SaveSchemaHistory row st).1)
  | step_current p st : store_step (Some st) (Some (SaveCurrentPosition p st).1).

Lemma on_store_step op s :
  (∀ st, store_step (Some st) (Some (op st).1)) → rtc store_step (bs_store s) (bs_store (on_store_ignored op s)).
Proof. intros Hop. unfold on_store_ignored. destruct (bs_store s) as [st|] eqn:E; cbn; rewrite ?E; [by apply rtc_once|done]. Qed.

Lemma apply_ddl_steps pos query r s : rtc store_step (bs_store s) (bs_store (apply_ddl pos query r s)).
Proof.
  unfold apply_ddl. destruct (bs_parser s) as [p|]; [|done]. destruct (bs_tables s) as [t|]; [|done].
  destruct r as [r|]; [|done]. case_bool_decide; [done|]. destruct (ps_ApplyDDL p _ _) as [[a|]|]; [|done..].
  pose proof (on_store_step (SaveSchemaHistory (ddl_history_row pos r query (pd_NewTableInfo a)))
    (with_defs (Some (ddl_applied r (pd_NewTableInfo a) t)) (bs_store s) s) (step_history _)) as Hs. exact Hs.
Qed.

Lemma handleQueryEvent_steps w h database query s s' r :
  handleQueryEvent format_ts w h database query s = (s', r) → rtc store_step (bs_store s) (bs_store s').
Proof.
  destruct (isDDL query) eqn:Eddl; [|unfold handleQueryEvent; rewrite Eddl; by intros [= <- <-]].
  rewrite handleQueryEvent_ready by done.
  assert (Hready : rtc store_step (bs_store s) (bs_store (ddl_ready format_ts w h database query s))).
  { unfold ddl_ready. cbv zeta. set (s0 := invalidate _ _).
    assert (E : bs_store s = bs_store s0).
    { subst s0. by destruct (invalidate_world (parse_ddl s query) (with_objects (bs_objects s ++
        [ddl_event format_ts w (bs_currentFile s) database query h (parse_ddl s query)]) s)) as (_ & _ & _ & _ & _ & _ & ->). }
    rewrite E. apply apply_ddl_steps. }
  unfold mbind, ST_bind. destruct (send _ _ _) as [s2 r2] eqn:E2. apply send_spec in E2 as ((_ & _ & Hst2 & _) & _).
  rewrite <- Hst2 in Hready. destruct r2; [|by intros [= <- <-]].
  unfold st_modify. intros [= <- <-]. etrans; [exact Hready|]. apply on_store_step, step_current.
Qed.

Lemma handleRowsEvent_steps w h ev s s' r :
  handleRowsEvent cfg format_ts w h ev s = (s', r) → rtc store_step (bs_store s) (bs_store s').
Proof.
  unfold handleRowsEvent. destruct (syncer_shouldCapture _ _ _ s) as [s1 b] eqn:Hcap.
  destruct (capture_world _ _ _ _ _ _ Hcap) as (_ & _ & _ & _ & _ & _ & Hst1 & _). rewrite <- Hst1.
  destruct b; cbn [negb]; [|by intros [= <- <-]]. destruct (table_definition _ _ _ s1) as [s2 info] eqn:Hdef.
  destruct (definition_world _ _ _ _ _ _ Hdef) as (_ & _ & _ & _ & _ & _ & Hst2 & _). rewrite <- Hst2.
  destruct (event_type_of _) as [typ|]; [|by intros [= <- <-]].
  unfold mbind, ST_bind. destruct (send_all _ _ _) as [s3 r3] eqn:E3.
  apply send_all_spec in E3 as ((_ & _ & Hst3 & _) & _). cbn [with_objects bs_store] in Hst3. rewrite <- Hst3.
  destruct r3; [|by intros [= <- <-]]. unfold st_modify. intros [= <- <-]. unfold save_last.
  destruct (last _); [|done]. apply on_store_step, step_current.
Qed.

Lemma processEvent_steps w ev s s' r :
  processEvent cfg format_ts w ev s = (s', r) → rtc store_step (bs_store s) (bs_store s').
Proof.
  unfold processEvent. destruct (be_Event ev) as [name p|db q|id ts ms|rows| |sid gno|? ? ?|].
  1, 3, 5, 7, 8: by intros [= <- <-].
  - apply handleQueryEvent_steps.
  - apply handleRowsEvent_steps.
  - unfold handleGTIDEvent, set_txid. destruct (_ <? _)%nat; intros [= <- <-]; [done|].
    by destruct (bs_position s) as [[]|].
Qed.

Lemma syncer_run_steps log s s' r :
  syncer_run (processEvent cfg format_ts) log s = (s', r) → rtc store_step (bs_store s) (bs_store s').
Proof.
  revert s. induction log as [|[w got] log IH]; intros s; cbn [syncer_run]; [by intros [= <- <-]|].
  unfold mbind, ST_bind. destruct (syncer_round _ w got s) as [s1 r1] eqn:E.
  assert (H1 : rtc store_step (bs_store s) (bs_store s1)).
  { unfold syncer_round in E. destruct got as [ev|e].
    - destruct (processEvent _ _ w ev s) as [s2 r2] eqn:E2. apply processEvent_steps in E2.
      assert (H : s1 = s2 ∨ ∃ e, s1 = report w e s2) by (destruct r2 as [|[]]; simplify_eq; eauto).
      destruct H as [->|[e ->]]; [done|]. unfold report. by destruct (sw_errRoom w).
    - simplify_eq. unfold report. by destruct (sw_errRoom w). }
  destruct r1; [|by intros [= <- <-]]. intros Hrun. etrans; [exact H1|by apply IH].
Qed.
End StoreSteps.
