(* ===== verification/MySQLConnector.v ===== *)
(** The MySQL source connector (internal/source/mysql/connector.go): starting and stopping,
    recovery from the target store, the position saver and the tables that are
    synchronised.

    The connector is initialised here; BinlogSetup.v has its set-up.  The
    syncer shares the cache, the definitions, the store and the event channel with the
    connector: while there is a syncer, they are the syncer's. *)
From Stdlib Require Import ZArith Lia.
From Stdlib Require String.
From stdpp Require Import prelude countable gmap strings list fin_maps.
From S2P Require Import Prelude Events SchemaHistory TargetStore TableLifecycle Scope BinlogConsumer MySQLRows DDLApply Offsets BinlogSyncer.
Local Open Scope Z_scope.

Definition src_ErrAlreadyRunning : goerror := ErrCode "DS:Source:AlreadyRunning".

(** ** internal/source/connector.go *)

Inductive SourceState :=
  | SourceUninitialized | SourceInitializing | SourceRunning | SourcePaused | SourceStopped | SourceError.

#[export] Instance SourceState_eq_dec : EqDecision SourceState.
Proof. solve_decision. Defined.

Section Connector.
Context {S O : Type} `{!TargetStore S} `{!Storage O} `{RX : Regexp}.

Record MySQLConnector := mkMySQLConnector {
  mc_state : SourceState;
  mc_message : string;
  mc_position : option Position;
  mc_currentBinlog : string;
  mc_stopClosed : bool;                     (* stopCh has been closed *)
  mc_syncer : option (BinlogSyncer S);
  mc_schemaCache : gmap string TableInfo;   (* until there is a syncer *)
  mc_tables : gmap string TableInfo;
  mc_store : option S;
  mc_offsetStorage : option O;
  mc_taskID : string;
  mc_syncScope : option SyncScope
}.

Definition mc_set_state st msg (c : MySQLConnector) := mkMySQLConnector st msg (mc_position c) (mc_currentBinlog c)
  (mc_stopClosed c) (mc_syncer c) (mc_schemaCache c) (mc_tables c) (mc_store c) (mc_offsetStorage c) (mc_taskID c)
  (mc_syncScope c).
Definition mc_set_position p file (c : MySQLConnector) := mkMySQLConnector (mc_state c) (mc_message c) p file
  (mc_stopClosed c) (mc_syncer c) (mc_schemaCache c) (mc_tables c) (mc_store c) (mc_offsetStorage c) (mc_taskID c)
  (mc_syncScope c).
Definition mc_set_stopClosed b (c : MySQLConnector) := mkMySQLConnector (mc_state c) (mc_message c) (mc_position c)
  (mc_currentBinlog c) b (mc_syncer c) (mc_schemaCache c) (mc_tables c) (mc_store c) (mc_offsetStorage c) (mc_taskID c)
  (mc_syncScope c).
Definition mc_set_syncer y (c : MySQLConnector) := mkMySQLConnector (mc_state c) (mc_message c) (mc_position c)
  (mc_currentBinlog c) (mc_stopClosed c) y (mc_schemaCache c) (mc_tables c) (mc_store c) (mc_offsetStorage c) (mc_taskID c)
  (mc_syncScope c).
Definition mc_set_defs t st (c : MySQLConnector) := mkMySQLConnector (mc_state c) (mc_message c) (mc_position c)
  (mc_currentBinlog c) (mc_stopClosed c) (mc_syncer c) (mc_schemaCache c) t st (mc_offsetStorage c) (mc_taskID c)
  (mc_syncScope c).
Definition mc_set_offset o (c : MySQLConnector) := mkMySQLConnector (mc_state c) (mc_message c) (mc_position c)
  (mc_currentBinlog c) (mc_stopClosed c) (mc_syncer c) (mc_schemaCache c) (mc_tables c) (mc_store c) o (mc_taskID c)
  (mc_syncScope c).
Definition mc_set_scope sc (c : MySQLConnector) := mkMySQLConnector (mc_state c) (mc_message c) (mc_position c)
  (mc_currentBinlog c) (mc_stopClosed c) (mc_syncer c) (mc_schemaCache c) (mc_tables c) (mc_store c) (mc_offsetStorage c)
  (mc_taskID c) sc.

(** The parts shared with the syncer. *)
Definition shared_cache (c : MySQLConnector) : gmap string TableInfo := from_option bs_schemaCache (mc_schemaCache c) (mc_syncer c).
Definition shared_tables (c : MySQLConnector) : gmap string TableInfo :=
  from_option (λ y, default ∅ (bs_tables y)) (mc_tables c) (mc_syncer c).
Definition shared_store (c : MySQLConnector) : option S := from_option bs_store (mc_store c) (mc_syncer c).

(** ** Recovery *)

Definition interrupted (ddl : DDLStateRow) : DDLStateRow :=
  mkDDLStateRow (ds_DBName ddl) (ds_TableName ddl) (ds_DDL ddl) (ds_LastSuccessInfo ddl) "failed" "interrupted by restart"
    (i64 (ds_RetryCount ddl + 1)).

(** The loop over the pending DDL states: errors are discarded. *)
Definition fail_pending (ddls : list DDLStateRow) (st : S) : S :=
  foldl (λ st ddl, (SaveDDLState (interrupted ddl) st).1) st ddls.

(** What [recoverFromStore] makes of the position, the definitions and the store; an
    error of a load is logged and its step left out. *)
Definition recover_from (st : S) (pos : option Position) (file : string) (tables : gmap string TableInfo) :
    option Position * string * gmap string TableInfo * S :=
  let '(st, r) := LoadPositions st in
  let '(pos, file) :=
    match r with Ok (Some flushed, _) => (Some flushed, pos_BinlogFile flushed) | _ => (pos, file) end in
  let st := (LoadTableLifecycles st).1 in
  let '(st, h) := LoadSchemaHistory st in
  let tables := match h with Ok rows => foldl apply_row tables rows | Err _ => tables end in
  let '(st, p) := LoadPendingDDLStates st in
  (pos, file, tables, match p with Ok ddls => fail_pending ddls st | Err _ => st end).

Definition recoverFromStore (st : S) (c : MySQLConnector) : MySQLConnector :=
  let '(pos, file, tables, st) := recover_from st (mc_position c) (mc_currentBinlog c) (shared_tables c) in
  mc_set_defs tables (Some st) (mc_set_position pos file c).

(** ** Starting and stopping *)

(** [StartSync] may fail.  The channel of the connector is kept over restarts. *)
Definition conn_Start (registry : gmap string SQLParser) (startSync : option goerror) : ST MySQLConnector unit := λ c,
  if bool_decide (mc_state c = SourceRunning) then (c, Err src_ErrAlreadyRunning)
  else
    let cache := shared_cache c in
    let c := mc_set_state SourceRunning (mc_message c) c in
    let c := match shared_store c with Some st => recoverFromStore st c | None => mc_set_defs (shared_tables c) None c end in
    let chan {A} (f : BinlogSyncer S → list A) : list A := from_option f [] (mc_syncer c) in
    let y := NewBinlogSyncer (mc_syncScope c) cache (Some (mc_tables c)) (mc_store c) (chan bs_objects) (chan bs_sent)
               (chan bs_selects) (chan bs_errors) in
    let y := (syncer_Start registry (mc_position c) y).1 in
    match startSync with
    | Some e =>
        let e := ErrWrapf "failed to start binlog syncer" e in
        (mc_set_state SourceError (error_string e) (mc_set_syncer (Some y) c), Err (ErrWrapf "failed to start binlog syncer" e))
    | None => (mc_set_syncer (Some y) c, Ok tt)
    end.

(** Closing the connections is left out; closing the channel twice panics. *)
Definition conn_Stop : ST MySQLConnector unit := λ c,
  if negb (bool_decide (mc_state c = SourceRunning)) then (c, Ok tt)
  else
    let c := mc_set_state SourceStopped (mc_message c) c in
    if mc_stopClosed c then (c, Err (Panic "close of closed channel"))
    else
      let c := mc_set_stopClosed true c in
      (match mc_offsetStorage c, mc_position c with
       | Some o, Some p => mc_set_offset (Some (storage_Save (mc_taskID c) (Some p) o).1) c
       | _, _ => c
       end, Ok tt).

(** A tick of the position saver. *)
Definition save_tick (c : MySQLConnector) : MySQLConnector :=
  match mc_syncer c with
  | None => c
  | Some y =>
      match syncer_GetPosition y with
      | None => c
      | Some pos =>
          let c := mc_set_position (Some pos) (mc_currentBinlog c) c in
          let c := match mc_offsetStorage c with
                   | Some o => mc_set_offset (Some (storage_Save (mc_taskID c) (Some pos) o).1) c
                   | None => c
                   end in
          mc_set_syncer (Some (on_store_ignored (SaveCurrentPosition (Some pos)) y)) c
      end
  end.

Definition conn_GetPosition (c : MySQLConnector) : option Position := Position_Clone <$> mc_position c.

(** Cloning nil panics. *)
Definition conn_SetPosition (pos : option Position) : ST MySQLConnector unit := λ c,
  match pos with
  | None => (c, Err (Panic "nil pointer dereference"))
  | Some pos =>
      let c := mc_set_position (Some (Position_Clone pos)) (mc_currentBinlog c) c in
      (match mc_offsetStorage c with
       | Some o => mc_set_offset (Some (storage_Save (mc_taskID c) (mc_position c) o).1) c
       | None => c
       end, Ok tt)
  end.

(** ** Tables *)

(** The scope with other table names, handed on to the syncer. *)
Definition with_names (names : list string) (sc : SyncScope) : SyncScope :=
  mkSyncScope (ss_Level sc) (ss_Databases sc) (mkTableScope names (ts_EnableDDL (ss_Tables sc))).

Definition propagate (sc : SyncScope) (c : MySQLConnector) : MySQLConnector :=
  mc_set_syncer (UpdateSyncScope (Some sc) <$> mc_syncer c) (mc_set_scope (Some sc) c).

Definition table_level (sc : option SyncScope) : option SyncScope :=
  match sc with
  | Some sc => match ss_Level sc with SyncLevelTable => Some sc | _ => None end
  | None => None
  end.

Definition AddTables (tables : list string) : ST MySQLConnector unit := λ c,
  match table_level (mc_syncScope c) with
  | None => (c, Err ErrInvalidSyncScope)
  | Some sc => (propagate (with_names (ts_Names (ss_Tables sc) ++ tables) sc) c, Ok tt)
  end.

Definition RemoveTables (tables : list string) : ST MySQLConnector unit := λ c,
  match table_level (mc_syncScope c) with
  | None => (c, Err ErrInvalidSyncScope)
  | Some sc => (propagate (with_names (filter (λ n, n ∉ tables) (ts_Names (ss_Tables sc))) sc) c, Ok tt)
  end.

Definition conn_ListTables (c : MySQLConnector) : list string :=
  match table_level (mc_syncScope c) with Some sc => ts_Names (ss_Tables sc) | None => [] end.
End Connector.

Arguments MySQLConnector S O {RX}.

(** ** Restarting *)

Section Restart.
Context {S O : Type} `{!TargetStore S} `{!HistoryRowsLaws S} `{!Storage O} `{RX : Regexp} `{!GoRange string string}
  (cfg : SyncConfig) (format_ts : time → string).
#[local] Existing Instance observed_store.

(** Whether recovery can load the history, which it does after the positions and the
    life-cycle rows. *)
Definition history_loads (st : S) : Prop :=
  is_ok (LoadSchemaHistory (LoadTableLifecycles (LoadPositions st).1).1).2 = true.

Lemma recover_from_tables st pos file tables :
  history_loads st → (recover_from st pos file tables).1.2 = foldl apply_row tables (rows_view st).
Proof.
  unfold history_loads, recover_from. destruct (LoadPositions st) as [st1 r] eqn:E1. pose proof (rows_positions st) as H1.
  rewrite E1 in H1. cbn [fst] in *. pose proof (rows_lifecycles st1) as H2.
  destruct (LoadSchemaHistory _) as [st3 [rows|]] eqn:El; [intros _|done].
  rewrite (rows_load _ _ _ El), H2, H1.
  destruct r as [[[f|] c]|e]; by destruct (LoadPendingDDLStates _) as [st2 p].
Qed.

Lemma tableKey_empty database table : tableKey database table = tableKey "" "" → database = "" ∧ table = "".
Proof.
  unfold tableKey. destruct database as [|x d].
  - intros E. by apply string_app_cancel_l, string_app_cancel_l in E.
  - rewrite string_app_cons. intros [= _ E]. by destruct d.
Qed.

(** C29. A restart keeps the table definitions: whatever the syncer has read since the
    definitions were empty, if the history rows it saved were saved and JSON gives them
    back, a connector that recovers from the store, and can load the history, decodes every
    table that is known with the definition it had.  (A table without a name is left out: a
    failed save, which is only logged, loses a definition: [unsaved_definition_lost].) *)
Theorem restart_keeps_definitions log (s s' : BinlogSyncer (observed S)) r t st calls pos file :
  bs_tables s = Some NewTables → syncer_run (processEvent cfg format_ts) log s = (s', r) →
  bs_tables s' = Some t → bs_store s' = Some (st, calls) → rows_kept calls → history_loads st →
  ∀ database table info, (database, table) ≠ ("", "") → Tables_Get t database table = Some info →
  Tables_Get (recover_from st pos file NewTables).1.2 database table = Some info.
Proof.
  intros Hs Hrun Ht Hst Hc Hl database table info Hne Hi. rewrite recover_from_tables by done.
  assert (Hr : recoverable s).
  { intros t0 st0 c0 E. rewrite Hs in E. injection E as <-. intros _ _ k i _ H. unfold NewTables in H. by rewrite lookup_empty in H. }
  pose proof (syncer_run_recoverable cfg format_ts log s s' r Hr Hrun t st calls Ht Hst Hc) as H.
  apply H; [|done]. intros [-> ->]%tableKey_empty. done.
Qed.
End Restart.

(** ** Interrupted statements *)

Definition ddl_key (row : DDLStateRow) : string * string := (ds_DBName row, ds_TableName row).

(** What recovery relies on of the DDL states: those that are being applied are listed
    once each, and the other loads leave them alone. *)
Class PendingLaws (S : Type) `{!TargetStore S} `{!DDLStateLaws S} := {
  ddl_view_key st k row : ddl_view st !! k = Some row → ddl_key row = k;
  pending_load st : ∃ rows, LoadPendingDDLStates st = (st, Ok rows) ∧ NoDup (ddl_key <$> rows) ∧
    ∀ row, row ∈ rows ↔ ddl_view st !! ddl_key row = Some row ∧ ds_Status row = "applying";
  pending_positions st : ddl_view (LoadPositions st).1 = ddl_view st;
  pending_lifecycles st : ddl_view (LoadTableLifecycles st).1 = ddl_view st;
  pending_history st : ddl_view (LoadSchemaHistory st).1 = ddl_view st
}.

Section Interrupted.
Context {S : Type} `{!TargetStore S} `{!DDLStateLaws S} `{!PendingLaws S}.

Lemma fail_pending_view ddls : ∀ st : S,
  NoDup (ddl_key <$> ddls) → Forall (λ row, ddl_storable (interrupted row)) ddls →
  ∀ k, ddl_view (fail_pending ddls st) !! k =
    match list_find (λ row, ddl_key row = k) ddls with Some (_, row) => Some (interrupted row) | None => ddl_view st !! k end.
Proof.
  induction ddls as [|row ddls IH]; intros st Hnd Hst k; [done|].
  rewrite fmap_cons in Hnd. apply NoDup_cons in Hnd as [Hn Hnd]. apply Forall_cons in Hst as [Hrow Hst].
  cbn [fail_pending foldl]. destruct (Save_law st _ Hrow) as (st1 & E & Hv). rewrite E. cbn [fst].
  fold (fail_pending ddls st1). rewrite IH by done. cbn [list_find].
  destruct (decide (ddl_key row = k)) as [Hk|Hk].
  - destruct (list_find _ ddls) as [[j row']|] eqn:Ef.
    + apply list_find_Some in Ef as (Hj & Hk' & _). exfalso. apply Hn. rewrite Hk, <- Hk'.
      apply list_elem_of_fmap_2. by eapply list_elem_of_lookup_2.
    + rewrite Hv. cbn. unfold ddl_key in Hk. by rewrite Hk, lookup_insert_eq.
  - destruct (list_find _ ddls) as [[j row']|] eqn:Ef; cbn; [done|].
    rewrite Hv, lookup_insert_ne; [done|]. by intros <-.
Qed.

(** What is to become of a statement that was being applied. *)
Record failed_by_restart (row row' : DDLStateRow) : Prop := {
  fbr_key : ds_DBName row' = ds_DBName row ∧ ds_TableName row' = ds_TableName row;
  fbr_ddl : ds_DDL row' = ds_DDL row;
  fbr_last : ds_LastSuccessInfo row' = ds_LastSuccessInfo row;
  fbr_status : ds_Status row' = "failed";
  fbr_error : ds_ErrorMsg row' = "interrupted by restart";
  fbr_retries : ds_RetryCount row' = i64 (ds_RetryCount row + 1)
}.

Lemma recover_from_ddl (st : S) pos file tables :
  (∀ k row, ddl_view st !! k = Some row → ds_Status row = "applying" → ddl_storable (interrupted row)) →
  ∀ k, ddl_view (recover_from st pos file tables).2 !! k =
    (λ row, if bool_decide (ds_Status row = "applying") then interrupted row else row) <$> ddl_view st !! k.
Proof.
  intros Hst k. unfold recover_from. destruct (LoadPositions st) as [st1 r] eqn:E1.
  pose proof (pending_positions st) as H1. rewrite E1 in H1. cbn [fst] in H1.
  pose proof (pending_lifecycles st1) as H2. set (st2 := (LoadTableLifecycles st1).1) in *.
  destruct (LoadSchemaHistory st2) as [st3 h] eqn:E3. pose proof (pending_history st2) as H3. rewrite E3 in H3. cbn [fst] in H3.
  destruct (pending_load st3) as (rows & E & Hnd & Hin). rewrite E.
  assert (Hview : ddl_view st3 = ddl_view st) by congruence. rewrite Hview in Hin.
  assert (Hrows : ddl_view (fail_pending rows st3) !! k =
    (λ row, if bool_decide (ds_Status row = "applying") then interrupted row else row) <$> ddl_view st !! k).
  { rewrite fail_pending_view; [|done|].
    - destruct (list_find _ rows) as [[j row]|] eqn:Ef.
      + apply list_find_Some in Ef as (Hj & Hk & _). apply list_elem_of_lookup_2, Hin in Hj as [Hj Ha].
        rewrite Hk in Hj. rewrite Hj. cbn. by rewrite bool_decide_eq_true_2.
      + rewrite Hview. destruct (ddl_view st !! k) as [row|] eqn:Ek; [|done]. cbn.
        rewrite bool_decide_eq_false_2; [done|]. intros Ha. apply list_find_None in Ef. rewrite Forall_forall in Ef.
        pose proof (ddl_view_key _ _ _ Ek) as Hkey. apply (Ef row); [|done]. apply Hin. by rewrite Hkey.
    - apply Forall_forall. intros row [Hrow Ha]%Hin. by eapply Hst. }
  destruct r as [[[f|] c]|e]; exact Hrows.
Qed.

(** C31. After recovery from a store that answers its calls no statement is taken for being
    applied: every DDL state whose status was "applying", and whose new row JSON can keep,
    has the status "failed" and the message "interrupted by restart", with one more retry
    and the rest as it was; all others are as they were, and none comes or goes. *)
Theorem interrupted_ddl_fails (st : S) pos file tables :
  (∀ k row row', ddl_view st !! k = Some row → ds_Status row = "applying" → failed_by_restart row row' → ddl_storable row') →
  ∀ k, match ddl_view st !! k, ddl_view (recover_from st pos file tables).2 !! k with
       | Some row, Some row' => (ds_Status row = "applying" → failed_by_restart row row') ∧ (ds_Status row ≠ "applying" → row' = row)
       | None, None => True
       | _, _ => False
       end.
Proof.
  intros Hst k. rewrite recover_from_ddl.
  - destruct (ddl_view st !! k) as [row|]; [|done]. cbn. case_bool_decide; [|done]. by split.
  - intros k' row Hk Ha. by eapply (Hst k' row).
Qed.
End Interrupted.

(** ** Which tables are captured *)

Section Tables.
Context {S O : Type} `{!TargetStore S} `{!Storage O} `{RX : Regexp} `{!GoRange string string} (cfg : SyncConfig).

Inductive tables_op := OpAdd (tables : list string) | OpRemove (tables : list string).

Definition run_tables_op (op : tables_op) : ST (MySQLConnector S O) unit :=
  match op with OpAdd l => AddTables l | OpRemove l => RemoveTables l end.

Fixpoint run_tables_ops (ops : list tables_op) : ST (MySQLConnector S O) unit :=
  match ops with [] => mret tt | op :: ops => run_tables_op op ≫= λ _, run_tables_ops ops end.

(** The set of names the operations stand for. *)
Definition tables_op_set (names : gset string) (op : tables_op) : gset string :=
  match op with OpAdd l => names ∪ list_to_set l | OpRemove l => names ∖ list_to_set l end.

(** The connector and its syncer capture the tables of a set. *)
Definition captures (c : MySQLConnector S O) (y : BinlogSyncer S) (names : gset string) : Prop :=
  mc_syncer c = Some y ∧ ∃ sc, mc_syncScope c = Some sc ∧ ss_Level sc = SyncLevelTable ∧
  bs_syncScope y = Some (SyncScope_Clone sc) ∧ ∀ n, n ∈ ts_Names (ss_Tables sc) ↔ n ∈ names.

Lemma run_tables_op_captures op c y names :
  captures c y names →
  ∃ c' y', run_tables_op op c = (c', Ok tt) ∧ captures c' y' (tables_op_set names op).
Proof.
  intros (Hy & sc & Hsc & Hlvl & Hscope & Hn).
  destruct op as [l|l]; cbn [run_tables_op]; unfold AddTables, RemoveTables, table_level; rewrite Hsc, Hlvl;
    do 2 eexists; (split; [reflexivity|]); unfold captures, propagate; cbn; rewrite Hy; (split; [reflexivity|]);
    eexists; (split_and!; [reflexivity|done|reflexivity|]); intros n; cbn.
  - rewrite elem_of_app, Hn. set_solver.
  - rewrite list_elem_of_filter, Hn. set_solver.
Qed.

(** C32. Adding and removing tables on a running connector: the syncer captures exactly
    the tables of the resulting set of names, whatever their order and however often a
    name was added. *)
Theorem capture_follows_tables ops c y names :
  captures c y names →
  ∃ c' y', run_tables_ops ops c = (c', Ok tt) ∧ mc_syncer c' = Some y' ∧
    ∀ database table, (syncer_shouldCapture cfg database table y').2 =
      bool_decide (database +:+ "." +:+ table ∈ foldl tables_op_set names ops).
Proof.
  revert c y names. induction ops as [|op ops IH]; intros c y names Hc.
  - exists c, y. destruct Hc as (Hy & sc & Hsc & Hlvl & Hscope & Hn). split; [done|]. split; [done|].
    intros database table. unfold syncer_shouldCapture. rewrite Hscope. cbn [ss_Level SyncScope_Clone]. rewrite Hlvl.
    cbn [snd foldl]. unfold TableScope_ShouldSyncTable. cbn [ss_Tables].
    apply eq_true_iff_eq. by rewrite existsb_bool_decide, bool_decide_eq_true, Hn.
  - destruct (run_tables_op_captures op c y names Hc) as (c1 & y1 & E & Hc1).
    destruct (IH c1 y1 _ Hc1) as (c' & y' & E' & H). exists c', y'. split; [|done].
    cbn [run_tables_ops]. unfold mbind, ST_bind. by rewrite E.
Qed.

Lemma conn_Start_running registry (c c' : MySQLConnector S O) :
  conn_Start registry None c = (c', Ok tt) → mc_state c' = SourceRunning ∧ mc_stopClosed c' = mc_stopClosed c.
Proof.
  unfold conn_Start. case_bool_decide; [done|]. intros [= <-]. cbn [mc_set_syncer mc_state mc_stopClosed].
  unfold recoverFromStore. destruct (shared_store _) as [st|]; [|done].
  by destruct (recover_from _ _ _ _) as [[[]]].
Qed.

(** A connector that was stopped, started and is stopped again closes its stop channel a
    second time. *)
Theorem second_stop_panics registry (c c1 c2 : MySQLConnector S O) :
  mc_state c = SourceRunning → conn_Stop c = (c1, Ok tt) → conn_Start registry None c1 = (c2, Ok tt) →
  ∃ c3, conn_Stop c2 = (c3, Err (Panic "close of closed channel")).
Proof.
  intros Hrun. unfold conn_Stop at 1. rewrite bool_decide_eq_true_2 by done. cbn [negb mc_set_state mc_stopClosed].
  destruct (mc_stopClosed c); [done|].
  intros Hstop. assert (Hc1 : mc_stopClosed c1 = true) by (repeat case_match; by simplify_eq).
  intros [Hs Hc]%conn_Start_running. unfold conn_Stop. rewrite Hs, bool_decide_eq_true_2 by done.
  cbn [negb mc_set_state mc_stopClosed]. rewrite Hc, Hc1. eauto.
Qed.
End Tables.

(** ** The MySQL store keeps its promises *)

Section MySQLStoreLaws.
Context `{!JSONCodec Position} `{!JSONCodec TableInfo} `{!JSONLaws Position} `{!JSONLaws TableInfo}
  (json_column : list Byte.byte → list Byte.byte) `{!JSONColumn json_column}
  `{!GoRange (string * string) lifecycle_cols} `{!GoRange (string * string) ddl_cols}
  (null_info : json_Unmarshal (json_column null_json) = Ok TableInfo_zero).

#[local] Instance my_store_ok : TargetStore MySQLDB := MySQLStore json_column sql_ok.

Lemma my_row_saved w (row : SchemaHistoryRow) d d' :
  json_wf (sr_Position row) → (∀ t, sr_TableInfo row = Some t → json_wf t) →
  my_SaveSchemaHistory json_column w row d = (d', Ok tt) →
  ∃ id, history_row <$> my_schema_history d' = (history_row <$> my_schema_history d) ++ [loaded_row id row].
Proof.
  intros Hp Ht. destruct (json_roundtrip _ Hp) as (pd & Hpm & Hpu).
  assert (Hinfo : ∃ td, marshalJSON (sr_TableInfo row) = Ok td ∧
    unmarshalTableInfo (json_column td) = Ok (Some (default TableInfo_zero (sr_TableInfo row)))).
  { destruct (sr_TableInfo row) as [t|]; cbn [marshalJSON default].
    - destruct (json_roundtrip _ (Ht t eq_refl)) as (td & Htm & Htu). exists td. split; [done|]. by apply load_info.
    - exists null_json. split; [done|]. unfold unmarshalTableInfo.
      destruct (json_column null_json) as [|b l] eqn:E; [by destruct (column_nonempty null_json)|]. by rewrite null_info. }
  destruct Hinfo as (td & Htm & Htu).
  unfold my_SaveSchemaHistory, mbind, ST_bind, useDB, st_lift, exec. destruct (sql_use w); [done|]. rewrite Hpm, Htm.
  destruct (sql_exec w); [done|]. intros [= <-]. exists (zlen (my_schema_history d) + 1).
  cbn [my_schema_history]. rewrite fmap_app. f_equal. cbn. unfold history_row. cbn.
  by rewrite (load_position _ _ _ Hpm Hpu), Htu.
Qed.

Definition my_row_storable (row : SchemaHistoryRow) : Prop :=
  json_wf (sr_Position row) ∧ ∀ t, sr_TableInfo row = Some t → json_wf t.

Lemma my_history_loaded w d d' rows :
  my_LoadSchemaHistory w d = (d', Ok rows) → rows = history_row <$> my_schema_history d.
Proof.
  unfold my_LoadSchemaHistory, mbind, ST_bind, useDB, st_lift, query.
  destruct (sql_use w); [done|]. destruct (sql_exec w); [done|]. by intros [= _ <-].
Qed.

Lemma my_current_history w p d : my_schema_history (my_SaveCurrentPosition json_column w p d).1 = my_schema_history d.
Proof.
  unfold my_SaveCurrentPosition, mbind, ST_bind, useDB, st_lift, exec.
  destruct (sql_use w); [done|]. destruct (marshalJSON p); [|done]. by destruct (sql_exec w).
Qed.

Lemma my_loads_history w d :
  my_schema_history (my_LoadPositions w d).1 = my_schema_history d ∧
  my_schema_history (my_LoadTableLifecycles w d).1 = my_schema_history d.
Proof.
  unfold my_LoadPositions, my_LoadTableLifecycles, mbind, ST_bind, useDB, st_lift, query.
  destruct (sql_use w); [done|]. by destruct (sql_exec w).
Qed.

#[program]
Definition my_rows_laws : HistoryRowsLaws MySQLDB := {|
  rows_view d := history_row <$> my_schema_history d;
  row_storable := my_row_storable
|}.
Next Obligation. intros d d' rows. apply my_history_loaded. Qed.
Next Obligation. intros d d' row [Hp Ht]. by apply my_row_saved. Qed.
Next Obligation. intros d p. cbn. by rewrite my_current_history. Qed.
Next Obligation. intros d. cbn. by rewrite (proj1 (my_loads_history _ d)). Qed.
Next Obligation. intros d. cbn. by rewrite (proj2 (my_loads_history _ d)). Qed.

(** A database whose statements fail keeps the same promises. *)
#[program]
Definition failing_rows_laws : @HistoryRowsLaws (MySQLDB * list sqlio) (FailingStore json_column) := {|
  rows_view d := history_row <$> my_schema_history d.1;
  row_storable := my_row_storable
|}.
Next Obligation.
  intros [d ws] st' rows. cbn. destruct (my_LoadSchemaHistory _ d) as [d' r] eqn:E. intros [= _ ->]. by eapply my_history_loaded.
Qed.
Next Obligation.
  intros [d ws] st' row [Hp Ht]. cbn. destruct (my_SaveSchemaHistory _ _ _ d) as [d' r] eqn:E. intros [= <- ->]. by eapply my_row_saved.
Qed.
Next Obligation.
  intros [d ws] p. cbn. pose proof (my_current_history (default sql_ok (head ws)) p d) as H.
  destruct (my_SaveCurrentPosition _ _ _ d). cbn in *. by rewrite H.
Qed.
Next Obligation.
  intros [d ws]. cbn. pose proof (proj1 (my_loads_history (default sql_ok (head ws)) d)) as H.
  destruct (my_LoadPositions _ d). cbn in *. by rewrite H.
Qed.
Next Obligation.
  intros [d ws]. cbn. pose proof (proj2 (my_loads_history (default sql_ok (head ws)) d)) as H.
  destruct (my_LoadTableLifecycles _ d). cbn in *. by rewrite H.
Qed.

(** No store step of the syncer creates the row of the task's position. *)
Lemma store_steps_no_position (o o' : option MySQLDB) :
  rtc store_step o o' → (∀ d, o = Some d → my_task_position d = None) → ∀ d, o' = Some d → my_task_position d = None.
Proof.
  induction 1 as [o|o1 o2 o3 Hstep _ IH]; intros Ho; [done|]. apply IH. clear IH.
  destruct Hstep as [row st|p st]; specialize (Ho st eq_refl); intros d [= <-]; cbn.
  - unfold my_SaveSchemaHistory, mbind, ST_bind, useDB, st_lift, exec. cbn [sql_use sql_exec sql_ok].
    destruct (json_Marshal _); [|done]. by destruct (marshalJSON _).
  - unfold my_SaveCurrentPosition, mbind, ST_bind, useDB, st_lift, exec. cbn [sql_use sql_exec sql_ok].
    destruct (marshalJSON p); [|done]. cbn. by rewrite Ho.
Qed.

(** A current position is stored only beside a flushed one, and nothing saves a flushed
    one: whatever the syncer reads, the store has no position for a restart, which then
    begins where it would have begun without the store. *)
Theorem positions_not_kept `{RX : Regexp} `{!GoRange string string} cfg format_ts log (s s' : BinlogSyncer MySQLDB) r d d' pos file tables :
  bs_store s = Some d → my_task_position d = None →
  syncer_run (processEvent cfg format_ts) log s = (s', r) → bs_store s' = Some d' →
  (recover_from d' pos file tables).1.1 = (pos, file).
Proof.
  intros Hs Hd Hrun Hs'. apply syncer_run_steps in Hrun. rewrite Hs, Hs' in Hrun.
  pose proof (store_steps_no_position _ _ Hrun ltac:(congruence) d' eq_refl) as Hd'.
  unfold recover_from.
  assert (El : LoadPositions d' = (d', Ok (None, None))).
  { cbn. unfold my_LoadPositions, mbind, ST_bind, useDB, st_lift, query. cbn [sql_use sql_exec sql_ok]. by rewrite Hd'. }
  rewrite El. destruct (LoadSchemaHistory _) as [d1 h]. by destruct (LoadPendingDDLStates d1) as [d2 p].
Qed.

#[local] Instance my_ddl_states : DDLStateLaws MySQLDB := my_ddl_laws json_column.

Lemma ddl_row_key k c : ddl_key (ddl_row k c) = k.
Proof. by destruct k. Qed.

#[program]
Definition my_pending_laws : PendingLaws MySQLDB := {| ddl_view_key := _ |}.
Next Obligation.
  intros d k row. cbn. rewrite my_ddl_view_lookup. intros (c & _ & ->)%fmap_Some. apply ddl_row_key.
Qed.
Next Obligation.
  intros d. eexists. split; [reflexivity|]. set (live := List.filter _ _).
  assert (Hlive : ∀ k c, (k, c) ∈ live ↔ my_ddl_state d !! k = Some c ∧ dcol_status c = "applying").
  { intros k c. subst live. rewrite list_elem_of_In, filter_In, <- list_elem_of_In, go_range_lookup. cbn.
    by rewrite bool_decide_eq_true. }
  split.
  - assert (E : ddl_key <$> ((λ '(k, c), ddl_row k c) <$> live) = live.*1).
    { rewrite <- list_fmap_compose. apply list_fmap_ext. intros ? [k c] _. apply ddl_row_key. }
    rewrite E. subst live. pose proof (go_range_NoDup (my_ddl_state d)) as Hnd. revert Hnd.
    generalize (go_range (my_ddl_state d)). induction l as [|[k c] l IH]; cbn; [done|].
    intros [Hn Hnd]%NoDup_cons. case_bool_decide; cbn; [|by apply IH]. apply NoDup_cons. split; [|by apply IH].
    intros ([k' c'] & -> & Hin)%list_elem_of_fmap. apply Hn. rewrite list_elem_of_In, filter_In, <- list_elem_of_In in Hin.
    destruct Hin as [Hin _]. by apply (list_elem_of_fmap_2 fst) in Hin.
  - intros row. change (ddl_view d) with (my_ddl_view d). rewrite my_ddl_view_lookup, list_elem_of_fmap. split.
    + intros ([k c] & -> & [Hc Ha]%Hlive). cbv beta iota. rewrite ddl_row_key, Hc. done.
    + intros [Hrow Ha]. apply fmap_Some in Hrow as (c & Hc & Hrow). exists (ddl_key row, c). split; [done|].
      apply Hlive. split; [done|]. rewrite Hrow in Ha. done.
Qed.
Next Obligation. done. Qed.
Next Obligation. done. Qed.
Next Obligation. done. Qed.
End MySQLStoreLaws.

(** ** Concrete runs *)

Module MySQLRuns.
Import StoreRuns.

#[local] Instance plain_regexp : Regexp := {|
  regexp := string; regexp_Compile p := Ok p; MatchString p s := Strings.strings_Contains s p |}.
#[local] Instance strings_range : GoRange string string := sorted_range string string.
#[local] Instance rows_laws : HistoryRowsLaws MySQLDB := my_rows_laws (λ d, d) eq_refl.
#[local] Instance ddl_laws : DDLStateLaws MySQLDB := my_ddl_laws (λ d, d).
#[local] Instance pending_laws : PendingLaws MySQLDB := my_pending_laws (λ d, d).

Definition cfg : SyncConfig := mkSyncConfig [] ∅.
Definition no_format (t : time) : string := "".
Definition world : sync_world := mkSyncWorld (λ _, 0) (λ _ _, Err (ErrNew "no connection")) true.

Definition users_columns : list parser_ColumnInfo := [parser_column "id" "bigint" false; parser_column "name" "varchar(20)" true].
Definition create_text : string := "CREATE TABLE shop.users (id bigint NOT NULL, name varchar(20))".
Definition drop_text : string := "DROP TABLE shop.users".

(** A parser that knows two statements. *)
Definition parse (ddl : string) : result (list ParsedDDL) :=
  if bool_decide (ddl = create_text) then
    Ok [mkParsedDDL DDLTypeCreateTable "shop" "users" ddl
          (Some (mkTableChanges TableOpCreate (Some (mkParserTable "shop" "users" users_columns ["id"])) [] [] [] None)) None None]
  else if bool_decide (ddl = drop_text) then Ok [mkParsedDDL DDLTypeDropTable "shop" "users" ddl None None None]
  else Err (ErrNew "syntax error").

Definition registry : gmap string SQLParser := parsers_Register "mysql" (dialect_parser MySQLDialect parse) parsers_New.

Definition users_def : TableInfo :=
  mkTableInfo "shop" "" "users" ["id"] [] [mkColumnInfo "id" "BIGINT" false 0 0; mkColumnInfo "name" "VARCHAR" true 20 0].

Definition syncer0 : BinlogSyncer MySQLDB :=
  (syncer_Start registry None (NewBinlogSyncer (Some DefaultSyncScope) ∅ (Some NewTables) (Some InitDatabase) [] [] [] [])).1.

Definition header (k : rows_kind) (pos : Z) : EventHeader := mkEventHeader 1700000000 k pos.
Definition ann : list value := [VInt64 1; VString "Ann"].
Definition eve : list value := [VInt64 1; VString "Eve"].
Definition at_log (k : rows_kind) (pos : Z) (e : log_event) : sync_world * result BinlogEvent :=
  (world, Ok (mkBinlogEvent (header k pos) e)).

Definition log : list (sync_world * result BinlogEvent) :=
  [at_log OTHER_EVENT_TYPE 4 (RotateEvent "bin.000001" 4);
   at_log OTHER_EVENT_TYPE 200 (QueryEvent "shop" create_text);
   at_log OTHER_EVENT_TYPE 265 (GTIDEvent (replicate 16 Byte.xab) 7);
   at_log WRITE_ROWS_EVENTv2 320 (RowsEv (mkRowsEvent 9 "shop" "users" [ann; eve]));
   at_log UPDATE_ROWS_EVENTv2 400 (RowsEv (mkRowsEvent 9 "shop" "users" [ann; eve; ann]));
   at_log OTHER_EVENT_TYPE 431 XIDEvent].

Definition synced : BinlogSyncer MySQLDB := (syncer_run (processEvent cfg no_format) log syncer0).1.

Example synced_places :
  sent_places synced =
  [Some ("bin.000001", 200); Some ("bin.000001", 320); Some ("bin.000001", 320); Some ("bin.000001", 400)].
Proof. vm_compute. reflexivity. Qed.

(** The DDL event carries the identifier of the transaction after it; the rows of that
    transaction carry none, and share an identifier. *)
Example synced_identifiers :
  (λ e, (ev_ID e, pos_TxID (ev_Position e))) <$> bs_objects synced =
  [("mysql:::200", "abababab-abab-abab-abab-abababababab:7"); ("mysql:::320", ""); ("mysql:::320", ""); ("mysql:::400", "")].
Proof. vm_compute. reflexivity. Qed.

Lemma events_in_log_order_witness :
  ∃ ns, length ns = 6%nat ∧ sent_places synced = at_places ns (log_places "" log).
Proof.
  destruct (events_in_log_order cfg no_format log syncer0 synced (Ok tt)) as (ns & Hlen & Hns).
  - constructor.
  - exact (eta_pair (syncer_run (processEvent cfg no_format) log syncer0) (Ok tt) ltac:(vm_compute; reflexivity)).
  - exists ns. split; [done|]. rewrite Hns. reflexivity.
Defined.

Definition created : BinlogSyncer MySQLDB := (syncer_run (processEvent cfg no_format) (take 2 log) syncer0).1.

Lemma rows_event_delivered_witness :
  ∃ s' e, processEvent cfg no_format world (mkBinlogEvent (header UPDATE_ROWS_EVENTv2 400)
             (RowsEv (mkRowsEvent 9 "shop" "users" [ann; eve; ann]))) created = (s', Ok tt) ∧
    bs_objects s' = bs_objects created ++ [e] ∧ bs_sent s' = [0%nat; 1%nat] ∧ ev_Type e = EventTypeUpdate ∧
    row_values (ti_Columns users_def) ann (ev_Before e) ∧ row_values (ti_Columns users_def) eve (ev_After e).
Proof.
  set (ev := mkRowsEvent 9 "shop" "users" [ann; eve; ann]).
  set (s1 := (syncer_shouldCapture cfg "shop" "users" created).1).
  destruct (rows_event_delivered cfg no_format world (header UPDATE_ROWS_EVENTv2 400) ev created
    s1 (table_definition world "shop" "users" s1).1 users_def) as (s' & es & E & Ho & Hl & Hs & Hes & _).
  - discriminate.
  - assert (E : bs_selects created = []) by (vm_compute; reflexivity). unfold sends_succeed. rewrite E. constructor.
  - exact (eta_pair (syncer_shouldCapture cfg "shop" "users" created) true ltac:(vm_compute; reflexivity)).
  - exact (eta_pair (table_definition world "shop" "users" s1) users_def ltac:(vm_compute; reflexivity)).
  - apply (bool_decide_unpack (NoDup _)). vm_compute. exact I.
  - destruct es as [|e [|]]; cbn in Hl; [discriminate| |discriminate]. exists s', e.
    destruct (Hes 0%nat e eq_refl) as (_ & _ & Ht & b & a & Hb & Ha & Hvb & Hva).
    cbn in Hb, Ha. injection Hb as <-. injection Ha as <-.
    split_and!; [exact E|exact Ho|rewrite Hs; vm_compute; reflexivity|exact Ht|exact Hvb|exact Hva].
Defined.

(** Over a database whose statements may fail, with the history rows observed. *)
#[local] Instance failing : TargetStore (MySQLDB * list sqlio) := FailingStore (λ d, d).
#[local] Instance failing_laws : HistoryRowsLaws (MySQLDB * list sqlio) := failing_rows_laws (λ d, d) eq_refl.
#[local] Existing Instance observed_store.

Definition observed0 (answers : list sqlio) : BinlogSyncer (observed (MySQLDB * list sqlio)) :=
  (syncer_Start registry None (NewBinlogSyncer (Some DefaultSyncScope) ∅ (Some NewTables)
     (Some (InitDatabase, answers, [])) [] [] [] [])).1.
Definition observe (answers : list sqlio) : BinlogSyncer (observed (MySQLDB * list sqlio)) :=
  (syncer_run (processEvent cfg no_format) log (observed0 answers)).1.
Definition store_left (answers : list sqlio) : observed (MySQLDB * list sqlio) :=
  default ((InitDatabase, []), []) (bs_store (observe answers)).
Definition definition_after (answers : list sqlio) : option TableInfo :=
  Tables_Get (recover_from (store_left answers).1 None "" NewTables).1.2 "shop" "users".

(** The second statement, which saves a position, fails. *)
Definition late_failure : list sqlio := [sql_ok; mkSQLIO None (Some (ErrNew "connection lost"))].

Lemma restart_keeps_definitions_witness : definition_after late_failure = Some users_def.
Proof.
  apply (restart_keeps_definitions cfg no_format log (observed0 late_failure) (observe late_failure) (Ok tt)
    (default ∅ (bs_tables (observe late_failure))) (store_left late_failure).1 (store_left late_failure).2).
  - reflexivity.
  - exact (eta_pair (syncer_run (processEvent cfg no_format) log (observed0 late_failure)) (Ok tt) ltac:(vm_compute; reflexivity)).
  - vm_compute. reflexivity.
  - vm_compute. reflexivity.
  - assert (E : (store_left late_failure).2.*2 = [Ok tt]) by (vm_compute; reflexivity).
    destruct (store_left late_failure).2 as [|[row r] [|]]; [discriminate E| |discriminate E]. injection E as ->.
    constructor; [|constructor]. split; [|reflexivity]. split; [constructor|]. intros. constructor.
  - vm_compute. reflexivity.
  - discriminate.
  - vm_compute. reflexivity.
Defined.

(** A history row that could not be saved: the failure is logged, and the definition is not
    there after a restart. *)
Example unsaved_definition_lost :
  Tables_Get (default ∅ (bs_tables (observe [mkSQLIO None (Some (ErrNew "disk full"))]))) "shop" "users" = Some users_def ∧
  definition_after [mkSQLIO None (Some (ErrNew "disk full"))] = None.
Proof. vm_compute. done. Qed.

(** A table that was dropped is known again after a restart, and the history has given
    back a table without a name. *)
Definition dropped : BinlogSyncer MySQLDB :=
  (syncer_run (processEvent cfg no_format) (take 2 log ++ [at_log OTHER_EVENT_TYPE 500 (QueryEvent "shop" drop_text)]) syncer0).1.

Example dropped_table_returns :
  Tables_Get (default ∅ (bs_tables dropped)) "shop" "users" = None ∧
  Tables_Get (recover_from (default InitDatabase (bs_store dropped)) None "" NewTables).1.2 "shop" "users" = Some users_def ∧
  Tables_Get (recover_from (default InitDatabase (bs_store dropped)) None "" NewTables).1.2 "" "" = Some TableInfo_zero.
Proof. vm_compute. done. Qed.

(** Without a parser in the registry, a DDL statement leaves the definitions alone. *)
Example unregistered_parser :
  bs_tables (syncer_run (processEvent cfg no_format) (take 2 log)
    (syncer_Start parsers_New None (NewBinlogSyncer (Some DefaultSyncScope) ∅ (Some NewTables) (Some InitDatabase) [] [] [] [])).1).1
  = Some NewTables.
Proof. vm_compute. reflexivity. Qed.

Definition pending_row : DDLStateRow := mkDDLStateRow "shop" "users" drop_text None "applying" "" 1.
Definition with_pending : MySQLDB := (SaveDDLState pending_row InitDatabase).1.

Lemma interrupted_ddl_fails_witness :
  ∃ row, ddl_view (recover_from with_pending None "" NewTables).2 !! ("shop", "users") = Some row ∧
    ds_Status row = "failed" ∧ ds_RetryCount row = 2.
Proof.
  assert (Hst : ∀ k row row', ddl_view with_pending !! k = Some row → ds_Status row = "applying" →
    failed_by_restart row row' → ddl_storable row').
  { intros k row row' _ _ _. cbn. unfold my_ddl_storable. by destruct (ds_LastSuccessInfo row'). }
  pose proof (interrupted_ddl_fails with_pending None "" NewTables Hst ("shop", "users")) as H.
  assert (E : ddl_view with_pending !! ("shop", "users") = Some pending_row) by (vm_compute; reflexivity).
  rewrite E in H. destruct (ddl_view _ !! _) as [row|]; [|destruct H]. exists row. split; [reflexivity|].
  destruct (proj1 H eq_refl) as [_ _ _ Hs _ Hr]. split; [exact Hs|]. rewrite Hr. vm_compute. reflexivity.
Defined.

Definition table_scope : SyncScope :=
  mkSyncScope SyncLevelTable (ss_Databases DefaultSyncScope) (mkTableScope ["shop.users"] true).
Definition connector0 : MySQLConnector MySQLDB MemoryStorage :=
  (conn_Start parsers_New None (mkMySQLConnector SourceStopped "" None "" false None ∅ ∅ (Some InitDatabase) None "mysql"
     (Some table_scope))).1.

Lemma capture_follows_tables_witness :
  ∃ c' y', run_tables_ops [OpAdd ["shop.orders"; "shop.users"]; OpRemove ["shop.users"]] connector0 = (c', Ok tt) ∧
    mc_syncer c' = Some y' ∧ (syncer_shouldCapture cfg "shop" "users" y').2 = false ∧
    (syncer_shouldCapture cfg "shop" "orders" y').2 = true.
Proof.
  destruct (mc_syncer connector0) as [y|] eqn:Ey; [|vm_compute in Ey; discriminate].
  destruct (capture_follows_tables cfg [OpAdd ["shop.orders"; "shop.users"]; OpRemove ["shop.users"]] connector0 y
    {["shop.users"]}) as (c' & y' & E & Hy & Hc).
  - split; [done|]. exists table_scope. split; [reflexivity|]. split; [reflexivity|]. split.
    + assert (E : y = default syncer0 (mc_syncer connector0)) by (by rewrite Ey). rewrite E. vm_compute. reflexivity.
    + intros n. cbn. set_solver.
  - exists c', y'. split; [done|]. split; [done|]. rewrite !Hc. vm_compute. done.
Defined.

(** A point is a number, and so is an enumeration with a suitable value. *)
Example column_types :
  mapColumnType <$> ["point"; "enum('mint','blue')"; "timestamp"; "bit(1)"; "polygon"] =
  ["number"; "number"; "datetime"; "bit"; "geometry"].
Proof. reflexivity. Qed.

(** A question mark stands for one byte of a longer character. *)
Example pattern_bytes : matchPattern "caf?" "café" = false ∧ matchPattern "caf??" "café" = true ∧ matchPattern "o*s" "orders" = true.
Proof. vm_compute. done. Qed.
End MySQLRuns.
