(* ===== verification/MariaDBSyncer.v ===== *)
(** The MariaDB source (internal/source/mariadb/connector.go): its binlog syncer, on the
    state and the loop of the MySQL one.  It differs in the clock that dates positions,
    in the identifiers of transactions, in the history it writes and in the types of
    fields; positions are not saved in the target store. *)
From Stdlib Require Import ZArith Lia Ascii.
From Stdlib Require String Strings.Byte.
From stdpp Require Import prelude countable gmap strings list fin_maps pretty.
From S2P Require Import Prelude Events Strings CacheLog SchemaHistory TargetStore TableLifecycle Scope BinlogConsumer LogMiner MySQLRows DDLApply Offsets BinlogSyncer MySQLConnector.
Local Open Scope Z_scope.

Section MariaDB.
Context {S : Type} `{!TargetStore S} `{RX : Regexp} `{!GoRange string string} (cfg : SyncConfig) (format_ts : time → string).
Implicit Types s : BinlogSyncer S.

Definition maria_matchPattern (pattern s : string) : bool := bool_decide (pattern = "*") || bool_decide (pattern = s).

Definition maria_legacy_capture (database table : string) : bool :=
  match sc_Databases cfg with
  | [] => true
  | dbs =>
      existsb (λ db, bool_decide (db = database) || bool_decide (db = "*")) dbs ||
      existsb (λ '(db, pattern), (bool_decide (db = database) || bool_decide (db = "*")) &&
                 (bool_decide (pattern = "*") || bool_decide (pattern = "") || maria_matchPattern pattern table))
        (go_range (sc_Tables cfg))
  end.

Definition maria_shouldCapture (database table : string) s : BinlogSyncer S * bool :=
  match bs_syncScope s with
  | Some scope =>
      match ss_Level scope with
      | SyncLevelDatabase =>
          let '(d, b) := ShouldSyncTable database table (ss_Databases scope) in
          (with_scope (Some (mkSyncScope (ss_Level scope) d (ss_Tables scope))) s, b)
      | SyncLevelTable => (s, TableScope_ShouldSyncTable (ss_Tables scope) database table)
      | SyncLevelOther _ => (s, maria_legacy_capture database table)
      end
  | None => (s, maria_legacy_capture database table)
  end.

Definition maria_source (database : string) : SourceInfo := mkSourceInfo "mariadb" "" 0 database "" "" false.

Definition maria_event_id (now : time) (h : EventHeader) : string :=
  GenerateEventID format_ts (maria_source "") now (eh_LogPos h).

(** A position is dated by the clock, not by the log. *)
Definition maria_position (file : string) (h : EventHeader) (now : time) : Position :=
  mkPosition file (eh_LogPos h) 0 0 0 0 None "" "" now "" 0 0.

(** *** DDL *)

Definition maria_ddl_event (w : sync_world) (file database query : string) (h : EventHeader) (r : option ParsedDDL) : ChangeEvent :=
  mkChangeEvent (maria_event_id (sw_clock w 0) h) (maria_source database) EventTypeDDL (maria_position file h (sw_clock w 1))
    (match r with Some r => mkTableInfo (pd_Database r) "" (pd_Table r) [] [] [] | None => TableInfo_zero end)
    RowData_zero RowData_zero (time_Unix (eh_Timestamp h)) None None
    (Some (match r with
           | Some r => <["ddl" := query]> (<["ddlType" := pd_Type r]> (<["ddlDatabase" := pd_Database r]>
                         (<["ddlTable" := pd_Table r]> {["ddlStatement" := pd_Statement r]})))
           | None => {["ddl" := query]}
           end)).

(** The definition in force, if there are any. *)
Definition known_table (r : ParsedDDL) s : option TableInfo :=
  bs_tables s ≫= λ t, Tables_Get t (pd_Database r) (pd_Table r).

(** The definitions after the statement. *)
Definition maria_apply (query : string) (r : ParsedDDL) s : BinlogSyncer S :=
  match bs_parser s, bs_tables s with
  | Some p, Some tables =>
      match ps_ApplyDDL p (known_table r s) query with
      | Ok (Some a) => with_defs (Some (ddl_applied r (pd_NewTableInfo a) tables)) (bs_store s) s
      | _ => s
      end
  | _, _ => s
  end.

Definition maria_change_type (old new : option TableInfo) : string :=
  match new, old with None, _ => "DROP" | Some _, None => "CREATE" | Some _, Some _ => "ALTER" end.

(** The history is written whether or not the statement could be applied. *)
Definition maria_record (pos : Position) (query : string) (r : option ParsedDDL) s : BinlogSyncer S :=
  match r with
  | Some r =>
      if bool_decide (pd_Table r = "") then s
      else
        let old := known_table r s in
        let s := maria_apply query r s in
        let new := known_table r s in
        on_store_ignored (SaveSchemaHistory
          (mkSchemaHistoryRow 0 pos (pd_Database r) (pd_Table r) query new (maria_change_type old new))) s
  | None => s
  end.

Definition maria_ready w h database query s : BinlogSyncer S :=
  let r := parse_ddl s query in
  let e := maria_ddl_event w (bs_currentFile s) database query h r in
  let i := length (bs_objects s) in
  let s := maria_record (ev_Position e) query r (invalidate r (with_objects (bs_objects s ++ [e]) s)) in
  with_pos (Some (InEvent i)) (bs_currentFile s) s.

Definition maria_handleQueryEvent (w : sync_world) (h : EventHeader) (database query : string) : ST (BinlogSyncer S) unit := λ s,
  if negb (isDDL query) then (s, Ok tt)
  else send "DDL event" (length (bs_objects s)) (maria_ready w h database query s).

(** *** Rows *)

Definition maria_row_field (col : ColumnInfo) (v : value) : Field := mkField (ci_Name col) v (ci_Type col) false.

Fixpoint maria_row_fields (columns : list ColumnInfo) (values : list value) (m : gmap string Field) : gmap string Field :=
  match columns, values with
  | col :: columns, v :: values => maria_row_fields columns values (<[ci_Name col := maria_row_field col v]> m)
  | _, _ => m
  end.

Definition maria_buildRowData (columns : list ColumnInfo) (values : list value) : RowData :=
  mkRowData (Some (maria_row_fields columns values ∅)).

Definition maria_image (info : TableInfo) (r : option (list value)) : RowData :=
  match r with Some values => maria_buildRowData (ti_Columns info) values | None => RowData_zero end.

Definition maria_buildChangeEvents (w : sync_world) (file : string) (typ : EventType) (h : EventHeader) (info : TableInfo)
    (ev : RowsEvent) : list ChangeEvent :=
  imap (λ n p, mkChangeEvent (maria_event_id (sw_clock w (2 * n)) h) (maria_source (ti_Database info)) typ
                 (maria_position file h (sw_clock w (2 * n + 1))) info (maria_image info p.1) (maria_image info p.2)
                 (time_Unix (eh_Timestamp h)) None None None)
    (row_images typ (re_Rows ev)).

Definition maria_handleRowsEvent (w : sync_world) (h : EventHeader) (ev : RowsEvent) : ST (BinlogSyncer S) unit := λ s,
  let '(s, captured) := maria_shouldCapture (re_Schema ev) (re_Table ev) s in
  if negb captured then (s, Ok tt)
  else
    let '(s, info) := table_definition w (re_Schema ev) (re_Table ev) s in
    match event_type_of (eh_EventType h) with
    | None => (s, Ok tt)
    | Some typ =>
        let events := maria_buildChangeEvents w (bs_currentFile s) typ h info ev in
        send_all (length (bs_objects s)) (length events) (with_objects (bs_objects s ++ events) s)
    end.

(** *** Transactions *)

Definition maria_handleXIDEvent (w : sync_world) (h : EventHeader) s : BinlogSyncer S :=
  with_pos (Some (OwnPosition (maria_position (bs_currentFile s) h (sw_clock w 0)))) (bs_currentFile s) s.

Definition handleMariaDBGTIDEvent (domain server seqNo : Z) (s : BinlogSyncer S) : BinlogSyncer S :=
  set_txid (pretty domain +:+ ":" +:+ pretty server +:+ ":" +:+ pretty seqNo) s.

Definition maria_processEvent (w : sync_world) (ev : BinlogEvent) : ST (BinlogSyncer S) unit :=
  let h := be_Header ev in
  match be_Event ev with
  | RotateEvent name _ => st_modify (handleRotateEvent name)
  | QueryEvent schema query => maria_handleQueryEvent w h schema query
  | TableMapEvent id types metas => st_modify (handleTableMapEvent id types metas)
  | RowsEv rows => maria_handleRowsEvent w h rows
  | XIDEvent => st_modify (maria_handleXIDEvent w h)
  | MariadbGTIDEvent d v n => st_modify (handleMariaDBGTIDEvent d v n)
  | GTIDEvent _ _ | OtherEvent => mret tt
  end.

(** The definitions a connector starts with: those of the history. *)
Definition maria_recover (st : S) : gmap string TableInfo :=
  match (LoadSchemaHistory st).2 with Ok rows => foldl apply_row NewTables rows | Err _ => NewTables end.

(** A tick of the position saver: without an offset storage nothing is kept. *)
Definition maria_save_tick {O} `{!Storage O} (c : MySQLConnector S O) : MySQLConnector S O :=
  match mc_offsetStorage c, mc_syncer c with
  | Some o, Some y =>
      match syncer_GetPosition y with
      | Some pos => mc_set_offset (Some (storage_Save (mc_taskID c) (Some pos) o).1) (mc_set_position (Some pos) (mc_currentBinlog c) c)
      | None => c
      end
  | _, _ => c
  end.

(** ** Order *)

Lemma maria_capture_world database table s s' b :
  maria_shouldCapture database table s = (s', b) →
  bs_objects s' = bs_objects s ∧ bs_sent s' = bs_sent s ∧ bs_currentFile s' = bs_currentFile s.
Proof.
  unfold maria_shouldCapture. destruct (bs_syncScope s) as [sc|]; [|by intros [= <- <-]].
  destruct (ss_Level sc); [|by intros [= <- <-]..].
  destruct (ShouldSyncTable _ _ _) as [d c]. by intros [= <- <-].
Qed.

Lemma maria_record_world pos query r s :
  bs_objects (maria_record pos query r s) = bs_objects s ∧ bs_sent (maria_record pos query r s) = bs_sent s ∧
  bs_currentFile (maria_record pos query r s) = bs_currentFile s.
Proof.
  destruct r as [r|]; [|done]. cbn [maria_record]. case_bool_decide; [done|]. cbv zeta.
  set (row := mkSchemaHistoryRow _ _ _ _ _ _ _). set (s1 := maria_apply query r s).
  destruct (on_store_ignored_world (SaveSchemaHistory row) s1) as (-> & -> & -> & _).
  subst s1. unfold maria_apply. destruct (bs_parser s); [|done]. destruct (bs_tables s); [|done].
  by destruct (ps_ApplyDDL _ _ _) as [[]|].
Qed.

Lemma maria_ready_world w h database query s :
  bs_objects (maria_ready w h database query s) =
    bs_objects s ++ [maria_ddl_event w (bs_currentFile s) database query h (parse_ddl s query)] ∧
  bs_sent (maria_ready w h database query s) = bs_sent s ∧
  bs_currentFile (maria_ready w h database query s) = bs_currentFile s.
Proof.
  unfold maria_ready. cbv zeta. set (e := maria_ddl_event _ _ _ _ _ _). set (r := parse_ddl s query).
  destruct (maria_record_world (ev_Position e) query r (invalidate r (with_objects (bs_objects s ++ [e]) s))) as (Ho & Hs & Hf).
  destruct (invalidate_world r (with_objects (bs_objects s ++ [e]) s)) as (Ho2 & Hs2 & Hf2 & _).
  cbn [with_pos bs_objects bs_sent bs_currentFile]. rewrite Ho, Hs, Hf, Ho2, Hs2, Hf2. done.
Qed.

Lemma maria_build_places w file typ h info ev :
  place <$> maria_buildChangeEvents w file typ h info ev =
  replicate (length (maria_buildChangeEvents w file typ h info ev)) (file, eh_LogPos h).
Proof.
  unfold maria_buildChangeEvents. rewrite length_imap. apply list_eq. intros n. rewrite list_lookup_fmap, list_lookup_imap.
  destruct (row_images typ (re_Rows ev) !! n) eqn:E; cbn.
  - symmetry. apply lookup_replicate_2. by eapply lookup_lt_Some.
  - symmetry. apply lookup_ge_None_2. rewrite length_replicate. by apply lookup_ge_None_1.
Qed.

Lemma maria_handleRowsEvent_extends w h ev s s' r :
  maria_handleRowsEvent w h ev s = (s', r) →
  extends (bs_currentFile s) (eh_LogPos h) s s' ∧ bs_currentFile s' = bs_currentFile s.
Proof.
  unfold maria_handleRowsEvent. destruct (maria_shouldCapture _ _ s) as [s1 b] eqn:Hcap.
  destruct (maria_capture_world _ _ _ _ _ Hcap) as (Ho1 & Hs1 & Hf1).
  destruct b; cbn [negb]; [|intros [= <- <-]; split; [apply extends_none; congruence|done]].
  destruct (table_definition _ _ _ s1) as [s2 info] eqn:Hdef.
  destruct (definition_world _ _ _ _ _ _ Hdef) as (Ho2 & Hs2 & Hf2 & _).
  destruct (event_type_of _) as [typ|]; [|intros [= <- <-]; split; [apply extends_none; congruence|congruence]].
  intros E3. apply send_all_spec in E3 as ((Ho3 & Hf3 & _) & k & Hk & Hs3 & _). cbn [with_objects bs_objects bs_sent bs_currentFile] in *.
  split; [|congruence]. exists (length (maria_buildChangeEvents w (bs_currentFile s2) typ h info ev)), k.
  split; [done|]. split; [|by rewrite Hs3, Hs2, Hs1, Ho2, Ho1].
  rewrite Ho3, fmap_app, Ho2, Ho1, maria_build_places. by rewrite Hf2, Hf1.
Qed.

Lemma maria_keeps_places : keeps_places maria_processEvent.
Proof.
  intros w ev s s' r. unfold maria_processEvent, next_file.
  destruct (be_Event ev) as [name p|db q|id ts ms|rows| |sid gno|d v n|] eqn:E.
  - intros [= <- <-]. split; [by apply extends_none|done].
  - unfold maria_handleQueryEvent. destruct (isDDL q); cbn [negb]; [|intros [= <- <-]; split; [by apply extends_none|done]].
    destruct (maria_ready_world w (be_Header ev) db q s) as (Ho & Hs & Hf).
    intros E2. apply send_spec in E2 as ((Ho2 & Hf2 & _) & _ & Hs2). split; [|congruence]. rewrite Hs in Hs2.
    destruct Hs2 as [[_ Hs2]|[_ Hs2]]; [exists 1%nat, 1%nat|exists 1%nat, O];
      rewrite Hs2, Ho2, Ho, fmap_app; cbn; rewrite ?app_nil_r; (split; [lia|done]).
  - intros [= <- <-]. split; [by apply extends_none|done].
  - apply maria_handleRowsEvent_extends.
  - intros [= <- <-]. split; [by apply extends_none|done].
  - intros [= <- <-]. split; [by apply extends_none|done].
  - intros [= <- <-]. unfold handleMariaDBGTIDEvent.
    destruct (set_txid_world (pretty d +:+ ":" +:+ pretty v +:+ ":" +:+ pretty n) s) as (Ho & Hs & Hf).
    split; [by apply extends_none|done].
  - intros [= <- <-]. split; [by apply extends_none|done].
Qed.

(** The MariaDB source sends in the order of its log too. *)
Theorem maria_events_in_log_order log s s' r :
  sent_known s → syncer_run maria_processEvent log s = (s', r) →
  ∃ ns, length ns = length log ∧
    sent_places s' = sent_places s ++ at_places ns (log_places (bs_currentFile s) log).
Proof. apply run_in_log_order, maria_keeps_places. Qed.

(** A statement the parser cannot apply, on a table that is not known, goes into the
    history as a DROP. *)
Theorem maria_unapplied_is_drop pos query r s st :
  pd_Table r ≠ "" → known_table r s = None → bs_store s = Some st →
  (∀ p, bs_parser s = Some p → ∃ e, ps_ApplyDDL p None query = Err e) →
  bs_store (maria_record pos query (Some r) s) =
    Some (SaveSchemaHistory (mkSchemaHistoryRow 0 pos (pd_Database r) (pd_Table r) query None "DROP") st).1.
Proof.
  intros Ht Hk Hst Hp. cbn [maria_record]. rewrite bool_decide_eq_false_2 by done. cbv zeta.
  assert (E : maria_apply query r s = s).
  { unfold maria_apply. destruct (bs_parser s) as [p|]; [|done]. destruct (bs_tables s); [|done].
    destruct (Hp p eq_refl) as [e He]. by rewrite Hk, He. }
  rewrite E, Hk. cbn [maria_change_type]. unfold on_store_ignored. by rewrite Hst.
Qed.
End MariaDB.
