(* ===== verification/DocumentSinks.v ===== *)
(** What the sinks for Redis, Elasticsearch, MongoDB and Kafka share: the configuration
    of a sink (internal/sink/connector.go), the state of a connector, and documents kept
    by key.

    The second half relates documents to the tables of the source: a change becomes an
    operation on one document ([doc_op]), and [keyed_mirror] says when running the
    operations leaves the documents of the changed tables.  The theorems of the sinks are
    instances of it. *)
From Stdlib Require Import ZArith Lia SpecFloat.
From Stdlib Require String.
From stdpp Require Import prelude countable gmap strings list fin_maps pretty.
From S2P Require Import Prelude Events Strings SQLSink.
Local Open Scope Z_scope.

(** ** connector.go: the configuration *)

(** A property of the configuration: a value or a list of values. *)
Inductive property := PValue (v : value) | PList (l : list value).

(** The fields that the sinks for documents and messages read. *)
Record ConnectionConfig := mkConnectionConfig {
  cc_Host : string;
  cc_Port : Z;
  cc_User : string;
  cc_Password : string;
  cc_Database : string;
  cc_Brokers : list string;
  cc_Topic : string;
  cc_Addr : string;
  cc_RedisPassword : string;
  cc_RedisDB : Z;
  cc_URLs : list string
}.

Record BatchConfig := mkBatchConfig { bc_Size : Z; bc_Timeout : Z; bc_Retries : Z; bc_RetryWait : Z }.

Record RetryConfig := mkRetryConfig { rt_MaxRetries : Z; rt_InitialWait : Z; rt_MaxWait : Z; rt_Multiplier : spec_float }.

Record sink_Config := mkSinkConfigFile {
  sf_Type : string;
  sf_Connection : ConnectionConfig;
  sf_Properties : gmap string property;
  sf_Batch : BatchConfig;
  sf_Retry : RetryConfig
}.

(** [config.Properties[name].(T)]: the property, if it is there with that type. *)
Definition prop_string (c : sink_Config) (name : string) : option string :=
  match sf_Properties c !! name with Some (PValue (VString s)) => Some s | _ => None end.
Definition prop_bool (c : sink_Config) (name : string) : option bool :=
  match sf_Properties c !! name with Some (PValue (VBool b)) => Some b | _ => None end.
Definition prop_int (c : sink_Config) (name : string) : option Z :=
  match sf_Properties c !! name with Some (PValue (VInt z)) => Some z | _ => None end.
(** A float64, converted to an integer. *)
Definition prop_number (c : sink_Config) (name : string) : option Z :=
  match sf_Properties c !! name with Some (PValue (VFloat64 f)) => Some (int_of_float64 f) | _ => None end.
(** A float64 as a number of milliseconds. *)
Definition prop_millis (c : sink_Config) (name : string) : option duration :=
  (λ z, i64 (z * 1000000)) <$> prop_number c name.
(** The strings of a list; its other elements are passed over. *)
Definition prop_strings (c : sink_Config) (name : string) : option (list string) :=
  match sf_Properties c !! name with
  | Some (PList l) => Some (omap (λ v, match v with VString s => Some s | _ => None end) l)
  | _ => None
  end.

(** ** The state of a connector *)

Record SinkStatus := mkSinkStatus {
  ss_State : SinkState;
  ss_EventsWritten : Z;
  ss_EventsFailed : Z;
  ss_BytesWritten : Z
}.

(** A connector with its configuration and its client, nil until it is initialised; the
    time of the status is left out. *)
Record DocSink (C R : Type) := mkDocSink {
  ds_config : option C;
  ds_client : option R;
  ds_status : SinkStatus;
  ds_position : option Position
}.
Arguments mkDocSink {_ _} _ _ _ _.
Arguments ds_config {_ _} _.
Arguments ds_client {_ _} _.
Arguments ds_status {_ _} _.
Arguments ds_position {_ _} _.

Definition ErrNotInitialized : goerror := ErrCode "DS:Sink:NotInitialized".
Definition ErrInvalidConfig : goerror := ErrCode "DS:Sink:InvalidConfig".
Definition ErrDDLNotSupported : goerror := ErrCode "DS:Sink:DDLNotSupported".

Section Connector.
Context {C R : Type}.
Implicit Types s : DocSink C R.

Definition New_sink : DocSink C R := mkDocSink None None (mkSinkStatus StateUninitialized 0 0 0) None.

Definition set_state (st : SinkState) s : DocSink C R :=
  let u := ds_status s in
  mkDocSink (ds_config s) (ds_client s) (mkSinkStatus st (ss_EventsWritten u) (ss_EventsFailed u) (ss_BytesWritten u))
    (ds_position s).

Definition set_client (r : option R) s : DocSink C R := mkDocSink (ds_config s) r (ds_status s) (ds_position s).

Definition add_failed (n : Z) s : DocSink C R :=
  let u := ds_status s in
  mkDocSink (ds_config s) (ds_client s)
    (mkSinkStatus (ss_State u) (ss_EventsWritten u) (i64 (ss_EventsFailed u + n)) (ss_BytesWritten u)) (ds_position s).

Definition add_written (n bytes : Z) s : DocSink C R :=
  let u := ds_status s in
  mkDocSink (ds_config s) (ds_client s)
    (mkSinkStatus (ss_State u) (i64 (ss_EventsWritten u + n)) (ss_EventsFailed u) (i64 (ss_BytesWritten u + bytes)))
    (ds_position s).

(** [if len(events) > 0 { c.position = the position of the last event }] *)
Definition set_last_position (events : list ChangeEvent) s : DocSink C R :=
  mkDocSink (ds_config s) (ds_client s) (ds_status s)
    (match last events with Some e => Some (ev_Position e) | None => ds_position s end).

Definition sink_GetPosition s : option Position := Position_Clone <$> ds_position s.

(** [isConnected] of stats.go, the same in every sink. *)
Definition isConnected (st : SinkState) : bool :=
  match st with StateReady | StateWriting | StateFlushing => true | _ => false end.
End Connector.

(** The parts of a row's key that the row has, printed. *)
Definition key_parts (fmt : value → string) (row : RowData) (columns : list string) : list string :=
  omap (λ col, (λ f, fmt (f_Value f)) <$> rd_lookup row col) columns.

(** The columns of a row with their values, as the document that is written. *)
Definition row_document (row : RowData) : gmap string value := f_Value <$> default ∅ (rd_Fields row).

(** [strings.ReplaceAll] for a pattern that is not empty. *)
Definition strings_ReplaceAll (s old new : string) : string := join new (strings_Split s old).

(** ** Documents by key *)

Section Keyed.
Context {I V : Type} `{!EqDecision I}.

(** The documents of the target, by their identifiers. *)
Definition documents : Type := I → option V.

(** A change of one document: an insert or update with the row that is written, or its
    removal. *)
Inductive doc_op := Put (insert : bool) (i : I) (r : row) | Remove (i : I).

Definition op_id (op : doc_op) : I := match op with Put _ i _ | Remove i => i end.

(** How the target writes a row over what it has. *)
Context (put : bool → row → option V → option V).

Definition run_op (m : documents) (op : doc_op) : documents := λ i,
  if decide (i = op_id op) then match op with Put b _ r => put b r (m i) | Remove _ => None end else m i.

Definition run_ops (ops : list doc_op) (m : documents) : documents := foldl run_op m ops.

#[export] Instance run_op_proper : Proper (pointwise_relation _ eq ==> eq ==> pointwise_relation _ eq) run_op.
Proof. intros m m' Hm op _ <- i. unfold run_op. case_decide; [|done]. destruct op; by rewrite ?Hm. Qed.

#[export] Instance run_ops_proper : Proper (eq ==> pointwise_relation _ eq ==> pointwise_relation _ eq) run_ops.
Proof.
  intros ops _ <-. induction ops as [|op ops IH]; intros m m' Hm; cbn; [done|]. apply IH. by rewrite Hm.
Qed.

Lemma run_ops_app ops1 ops2 m : run_ops (ops1 ++ ops2) m = run_ops ops2 (run_ops ops1 m).
Proof. apply foldl_app. Qed.

(** *** What is left of the operations *)

(** The last operation on a document. *)
Fixpoint last_on (i : I) (ops : list doc_op) : option doc_op :=
  match ops with
  | [] => None
  | op :: ops =>
      match last_on i ops with
      | Some op' => Some op'
      | None => if decide (i = op_id op) then Some op else None
      end
  end.

Context (enc : row → V) (columns : gset string).

(** A document that is a complete row. *)
Definition full_doc (v : V) : Prop := ∃ r, v = enc r ∧ dom r = columns.

(** The identifiers of the documents in question. *)
Context (P : I → Prop).

Definition full_docs (m : documents) : Prop := ∀ i v, P i → m i = Some v → full_doc v.
Definition full_op (op : doc_op) : Prop :=
  P (op_id op) ∧ match op with Put _ _ r => dom r = columns | Remove _ => True end.

(** Complete rows replace complete documents, and are inserted where there is none. *)
Context (put_full : ∀ b r o, dom r = columns → (∀ v, o = Some v → full_doc v) → put b r o = Some (enc r)).

Definition op_result (op : doc_op) : option V := match op with Put _ _ r => Some (enc r) | Remove _ => None end.

Lemma run_op_full m op : full_docs m → full_op op →
  full_docs (run_op m op) ∧ ∀ i, run_op m op i = if decide (i = op_id op) then op_result op else m i.
Proof.
  intros Hm [HP Hop].
  assert (E : ∀ i, run_op m op i = if decide (i = op_id op) then op_result op else m i).
  { intros i. unfold run_op. case_decide; [|done]. subst. destruct op as [b j r|j]; [|done]. cbn. apply put_full; eauto. }
  split; [|done]. intros i v Hi. rewrite E. case_decide; [|by apply Hm].
  destruct op as [b j r|j]; cbn; [|done]. intros [= <-]. by exists r.
Qed.

(** Each document is what the last operation on it made of it. *)
Lemma run_ops_last ops m :
  full_docs m → Forall full_op ops →
  full_docs (run_ops ops m) ∧ ∀ i, run_ops ops m i = from_option op_result (m i) (last_on i ops).
Proof.
  intros Hm Hops. revert m Hm. induction Hops as [|op ops Hop _ IH]; intros m Hm; [done|].
  destruct (run_op_full m op Hm Hop) as [Hm1 E]. destruct (IH _ Hm1) as [Hm2 E2]. split; [done|].
  intros i. cbn. fold (run_ops ops (run_op m op)). rewrite E2, E. destruct (last_on i ops); [done|]. by case_decide.
Qed.

Lemma last_on_sublist ops' ops i : ops' `sublist_of` ops → last_on i ops = None → last_on i ops' = None.
Proof.
  induction 1 as [|op l1 l2 _ IH|op l1 l2 _ IH]; cbn; [done| |].
  - destruct (last_on i l2); [done|]. rewrite IH by done. done.
  - destruct (last_on i l2); [done|]. case_decide; [done|]. auto.
Qed.

(** Running the operations after some of them were already run, as a repeated request
    does, leaves what running them once leaves. *)
Lemma run_ops_again ops ops' m :
  ops' `sublist_of` ops → full_docs m → Forall full_op ops →
  full_docs (run_ops ops' m) ∧ ∀ i, run_ops ops (run_ops ops' m) i = run_ops ops m i.
Proof.
  intros Hsub Hm Hops.
  assert (Hops' : Forall full_op ops').
  { rewrite Forall_forall in *. eauto using elem_of_sublist. }
  destruct (run_ops_last ops' m Hm Hops') as [Hm' E']. split; [done|]. intros i.
  rewrite (proj2 (run_ops_last ops _ Hm' Hops)).
  rewrite (proj2 (run_ops_last ops m Hm Hops)). destruct (last_on i ops) as [op|] eqn:El; [done|]. cbn.
  by rewrite E', (last_on_sublist _ _ _ Hsub El).
Qed.
End Keyed.

(** ** Documents mirror a table *)

(** The change touches the row of a key. *)
Definition change_key (keys : list string) (ch : change) : option (list value) :=
  match ch with CInsert r => key_of keys r | CUpdate k _ | CDelete k => Some k end.

(** A change as the log of a table has it: an update finds its row and keeps its key. *)
Definition change_applies (keys : list string) (ch : change) (T : table_rows) : Prop :=
  match ch with CUpdate k r => key_of keys r = Some k ∧ is_Some (T k) | _ => True end.

Fixpoint changes_apply (keys : list string) (chs : list change) (T : table_rows) : Prop :=
  match chs with
  | [] => True
  | ch :: chs => change_applies keys ch T ∧ changes_apply keys chs (apply_change keys ch T)
  end.

Section Mirror.
Context {I V : Type} `{!EqDecision I} (put : bool → row → option V → option V).
Context (keys : list string) (columns : gset string) (ident : list value → I) (enc : row → V).

(** The operation of a change, on the document of its key. *)
Definition change_op (ch : change) : option (doc_op (I := I)) :=
  match ch with
  | CInsert r => (λ k, Put true (ident k) r) <$> key_of keys r
  | CUpdate _ r => (λ k, Put false (ident k) r) <$> key_of keys r
  | CDelete k => Some (Remove (ident k))
  end.

Context (K : list value → Prop) (ident_inj : ∀ k k', K k → K k' → ident k = ident k' → k = k').
Context (put_insert : ∀ r o, dom r = columns → (∀ v, o = Some v → full_doc enc columns v) → put true r o = Some (enc r)).
Context (put_update : ∀ r r0, dom r = columns → dom r0 = columns → put false r (Some (enc r0)) = Some (enc r)).

(** The documents are the rows of the table, for the keys of [K]. *)
Definition mirrors (T : table_rows) (m : documents (I := I) (V := V)) : Prop := ∀ k, K k → m (ident k) = enc <$> T k.

Lemma mirror_step ch T m :
  full columns T → full_change columns ch → change_applies keys ch T →
  (∃ k, change_key keys ch = Some k ∧ K k) → mirrors T m →
  ∃ op, change_op ch = Some op ∧ mirrors (apply_change keys ch T) (run_op put m op).
Proof.
  intros HT Hch Ha (k & Hk & HK) Hm.
  assert (Hfull : ∀ r, T k = Some r → full_doc enc columns (enc r)) by (intros r Hr; exists r; eauto).
  destruct ch as [r|k0 r|k0]; cbn in Hk, Hch, Ha; cbn [change_op].
  - rewrite Hk. eexists. split; [done|]. intros k' HK'. unfold run_op, apply_change. cbn [op_id].
    destruct (decide (k' = k)) as [->|Hne].
    + rewrite decide_True, decide_True by done. rewrite put_insert; [done..|]. rewrite (Hm k HK).
      intros v (r0 & Hr0 & ->)%fmap_Some. eauto.
    + rewrite decide_False by (intros E; by apply ident_inj in E). rewrite decide_False by congruence. by apply Hm.
  - destruct Ha as [Hr [r0 Hr0]]. injection Hk as <-. rewrite Hr. eexists. split; [done|]. intros k' HK'.
    unfold run_op, apply_change. cbn [op_id]. rewrite Hr0. destruct (decide (k' = k0)) as [->|Hne].
    + rewrite decide_True, decide_True by done. rewrite (Hm k0 HK), Hr0. cbn. apply put_update; eauto.
    + rewrite decide_False by (intros E; by apply ident_inj in E). rewrite !decide_False by congruence. by apply Hm.
  - injection Hk as <-. eexists. split; [done|]. intros k' HK'. unfold run_op, apply_change. cbn [op_id].
    destruct (decide (k' = k0)) as [->|Hne]; [by rewrite decide_True|].
    rewrite decide_False by (intros E; by apply ident_inj in E). by apply Hm.
Qed.

(** Running the operations of a table's changes leaves the documents of the changed
    table. *)
Lemma keyed_mirror chs T m :
  full columns T → Forall (full_change columns) chs → changes_apply keys chs T →
  Forall (λ ch, ∃ k, change_key keys ch = Some k ∧ K k) chs → mirrors T m →
  ∃ ops, mapM change_op chs = Some ops ∧ mirrors (apply_changes keys chs T) (run_ops put ops m).
Proof.
  intros HT Hch. revert T m HT. induction Hch as [|ch chs Hch _ IH]; intros T m HT Ha HK Hm; [by exists []|].
  destruct Ha as [Ha Hrest]. apply Forall_cons in HK as [HK HKs].
  destruct (mirror_step ch T m HT Hch Ha HK Hm) as (op & Hop & Hm1).
  destruct (IH _ _ (apply_change_full _ _ _ _ Hch HT) Hrest HKs Hm1) as (ops & Hops & Hm2).
  exists (op :: ops). split; [|done]. cbn. by rewrite Hop, Hops.
Qed.

(** The operations write complete rows, to documents of keys of [K]. *)
Lemma change_ops_full chs ops T :
  Forall (full_change columns) chs → changes_apply keys chs T →
  Forall (λ ch, ∃ k, change_key keys ch = Some k ∧ K k) chs → mapM change_op chs = Some ops →
  Forall (full_op columns (λ i, ∃ k, K k ∧ i = ident k)) ops.
Proof.
  intros Hch. revert ops T. induction Hch as [|ch chs Hch _ IH]; intros ops T Ha HK Hm; [by injection Hm as <-|].
  destruct Ha as [Ha Hrest]. apply Forall_cons in HK as [(k & Hk & HKk) HKs]. cbn [mapM] in Hm.
  apply bind_Some in Hm as (op & Hop & (ops' & Hops & [= <-])%bind_Some).
  constructor; [|by eapply IH]. destruct ch as [r|k0 r|k0]; cbn in Hk, Hch, Ha, Hop.
  - rewrite Hk in Hop. injection Hop as <-. split; [cbn; eauto|done].
  - destruct Ha as [Hr _]. rewrite Hr in Hop. injection Hop as <-. injection Hk as <-. split; [cbn; eauto|done].
  - injection Hop as <-. injection Hk as <-. split; [cbn; eauto|done].
Qed.
End Mirror.

(** *** The events of a table *)

(** An event of the table with complete row images. *)
Record table_event (t : TableInfo) (columns : gset string) (e : ChangeEvent) : Prop := {
  te_data : IsDataEvent e = true;
  te_table : ev_Table e = t;
  te_after : ev_Type e ≠ EventTypeDelete → dom (row_values (ev_After e)) = columns;
  te_before : ev_Type e ≠ EventTypeInsert → dom (row_values (ev_Before e)) = columns
}.

Lemma table_event_change t columns keys e ch :
  table_event t columns e → change_of keys e = Some ch → full_change columns ch.
Proof.
  intros [Hd _ Ha _]. unfold change_of, IsDataEvent in *. destruct (ev_Type e); try done.
  - intros [= <-]. by apply Ha.
  - intros (k & _ & [= <-])%bind_Some. by apply Ha.
  - by intros (k & _ & [= <-])%bind_Some.
Qed.

Lemma table_events_changes t columns keys events chs :
  Forall (table_event t columns) events → mapM (change_of keys) events = Some chs → Forall (full_change columns) chs.
Proof.
  intros He. rewrite mapM_Some. induction 1 as [|e ch events chs Hch _ IH]; [done|].
  apply Forall_cons in He as [He Hes]. constructor; [by eapply table_event_change|by apply IH].
Qed.

(** A row that has its key prints all of it. *)
Lemma key_parts_key fmt r keys k : key_of keys (row_values r) = Some k → key_parts fmt r keys = fmt <$> k.
Proof.
  unfold key_of. revert k. induction keys as [|c keys IH]; intros k; [by intros [= <-]|]. cbn [mapM].
  intros (v & Hv & (k' & Hk' & [= <-])%bind_Some)%bind_Some. rewrite row_values_lookup in Hv.
  apply fmap_Some in Hv as (f & Hf & ->). change (rd_lookup r c = Some f) in Hf. cbn. unfold key_parts in *. cbn. rewrite Hf. cbn. by rewrite (IH k').
Qed.

Lemma row_document_values r : row_document r = row_values r.
Proof. done. Qed.

(** ** A batch of events *)

Module DocRuns.
Definition print (v : value) : string :=
  match v with VInt64 z => pretty z | VString s => s | _ => "" end.
Definition users : TableInfo := mkTableInfo "shop" "" "users" ["id"] [] [].
Definition user (id : Z) (name : string) : RowData :=
  mkRowData (Some {["id" := mkField "id" (VInt64 id) "" false; "name" := mkField "name" (VString name) "" false]}).
Definition event (typ : EventType) (before after : RowData) : ChangeEvent :=
  mkChangeEvent "" SourceInfo_zero typ Position_zero users before after 0 None None None.

Definition events : list ChangeEvent :=
  [event EventTypeInsert RowData_zero (user 1 "Ann"); event EventTypeInsert RowData_zero (user 2 "Bob");
   event EventTypeUpdate (user 1 "Ann") (user 1 "Eve"); event EventTypeDelete (user 2 "Bob") RowData_zero].

Definition columns : gset string := {["id"; "name"]}.
Definition ids (k : list value) : Prop := k = [VInt64 1] ∨ k = [VInt64 2].

Lemma key_in_columns : list_to_set (ti_PrimaryKeyColumns users) ⊆ columns.
Proof. apply (bool_decide_unpack _). vm_compute. exact I. Qed.

Lemma user_columns n name : dom (row_values (user n name)) = columns.
Proof.
  unfold row_values. rewrite dom_fmap_L. unfold user, columns. cbn [rd_Fields from_option id].
  by rewrite dom_insert_L, dom_singleton_L.
Qed.

Lemma events_good : Forall (table_event users columns) events.
Proof. repeat apply Forall_cons_2; [..|apply Forall_nil_2]; split; try done; intros ?; try done; apply user_columns. Qed.

(** The changes of the events. *)
Definition chs : list change :=
  [CInsert (row_values (user 1 "Ann")); CInsert (row_values (user 2 "Bob"));
   CUpdate [VInt64 1] (row_values (user 1 "Eve")); CDelete [VInt64 2]].

Lemma changes_apply_users : changes_apply (ti_PrimaryKeyColumns users) chs (λ _, None).
Proof.
  unfold chs. cbn [changes_apply change_applies]. split_and!; try exact I; vm_compute; [reflexivity|eexists; reflexivity].
Qed.

Lemma changes_ids : Forall (λ ch, ∃ k, change_key (ti_PrimaryKeyColumns users) ch = Some k ∧ ids k) chs.
Proof.
  unfold chs. repeat apply Forall_cons_2; [..|apply Forall_nil_2]; eexists; (split; [vm_compute; reflexivity|]);
    first [left; reflexivity|right; reflexivity].
Qed.
End DocRuns.
