(* ===== verification/RedisSink.v ===== *)
(** The Redis sink (internal/sink/redis): its configuration, the command of an event, and
    [Write], which sends the commands of a batch in one pipeline.

    The client is a parameter: [RedisClient] is the part of go-redis the sink calls, and
    [RedisLaws] what Redis documents of the commands. *)
From Stdlib Require Import ZArith Lia.
From Stdlib Require String Strings.Byte SpecFloat.
From stdpp Require Import prelude countable gmap strings list fin_maps pretty.
From S2P Require Import Prelude Events Strings SQLSink DocumentSinks.
Local Open Scope Z_scope.

(** ** config.go *)

Record RedisConfig := mkRedisConfig {
  rc_Addr : string;
  rc_Password : string;
  rc_DB : Z;
  rc_KeyPattern : string;
  rc_TTL : duration;
  rc_BatchSize : Z;
  rc_FlushInterval : duration;
  rc_Format : string
}.

Definition redis_DefaultConfig : RedisConfig :=
  mkRedisConfig "localhost:6379" "" 0 "{database}:{table}:{pk}" 0 1000 1000000000 "hash".

Definition redis_formats : list string := ["hash"; "json"; "string"].

Definition redis_Validate (quote : string → string) (c : RedisConfig) : result unit :=
  if bool_decide (rc_Addr c = "") then Err (ErrNew "redis addr is required")
  else if negb (bool_decide (rc_Format c ∈ redis_formats))
  then Err (ErrNew ("invalid format: " +:+ quote (rc_Format c) +:+ ", must be one of: hash, json, string"))
  else if rc_BatchSize c <=? 0 then Err (ErrNew "batch_size must be positive")
  else Ok tt.

Definition redis_parseConfig (config : sink_Config) : RedisConfig :=
  let cfg := redis_DefaultConfig in
  let conn := sf_Connection config in
  mkRedisConfig
    (if bool_decide (cc_Addr conn ≠ "") then cc_Addr conn else rc_Addr cfg)
    (if bool_decide (cc_RedisPassword conn ≠ "") then cc_RedisPassword conn else rc_Password cfg)
    (if bool_decide (cc_RedisDB conn ≠ 0) then cc_RedisDB conn else rc_DB cfg)
    (default (rc_KeyPattern cfg) (prop_string config "keyPattern"))
    (default (rc_TTL cfg) (prop_millis config "ttl"))
    (default (rc_BatchSize cfg) (prop_number config "batchSize"))
    (default (rc_FlushInterval cfg) (prop_millis config "flushInterval"))
    (default (rc_Format cfg) (prop_string config "format")).

(** ** Commands *)

Record RedisCommand := mkRedisCommand {
  cmd_Op : string;
  cmd_Key : string;
  cmd_Fields : gmap string value;
  cmd_Value : string;
  cmd_TTL : duration
}.

(** What the client is told, in the order of the pipeline. *)
Inductive redis_call :=
  | CallDel (key : string)
  | CallHSet (key : string) (args : list (string * value))
  | CallExpire (key : string) (ttl : duration)
  | CallSet (key text : string) (ttl : duration).

Class RedisClient (R : Type) := {
  redis_Dial : RedisConfig → result R;            (* NewClient and Ping *)
  redis_Exec : list redis_call → R → R * result unit;
  redis_Close : R → R
}.

Section Commands.
Context (fmt_v : value → string) `{!JSONCodec (gmap string value)} `{!GoRange string value}.
Context (cfg : RedisConfig).

(** The key pattern with the table and a printed key put in. *)
Definition render_key (table : TableInfo) (pk : string) : string :=
  let key := strings_ReplaceAll (rc_KeyPattern cfg) "{database}" (ti_Database table) in
  let key := strings_ReplaceAll key "{table}" (ti_Table table) in
  strings_ReplaceAll key "{pk}" pk.

Definition generateKey (table : TableInfo) (row : RowData) (pkColumns : list string) : string :=
  render_key table (join "_" (key_parts fmt_v row pkColumns)).

(** [b, _ := json.Marshal(data)] and [string(b)]: nothing when marshalling fails. *)
Definition json_text (doc : gmap string value) : string :=
  match json_Marshal doc with Ok b => String.string_of_list_byte b | Err _ => "" end.

Definition buildCommand (e : ChangeEvent) : option RedisCommand :=
  let pkColumns := ti_PrimaryKeyColumns (ev_Table e) in
  match ev_Type e with
  | EventTypeDelete => Some (mkRedisCommand "del" (generateKey (ev_Table e) (ev_Before e) pkColumns) ∅ "" 0)
  | EventTypeInsert | EventTypeUpdate =>
      let key := generateKey (ev_Table e) (ev_After e) pkColumns in
      let doc := row_document (ev_After e) in
      if bool_decide (rc_Format cfg = "hash") then Some (mkRedisCommand "hset" key doc "" (rc_TTL cfg))
      else if bool_decide (rc_Format cfg = "json" ∨ rc_Format cfg = "string")
      then Some (mkRedisCommand "set" key ∅ (json_text doc) (rc_TTL cfg))
      else None
  | _ => None
  end.

Definition command_calls (c : RedisCommand) : list redis_call :=
  if bool_decide (cmd_Op c = "del") then [CallDel (cmd_Key c)]
  else if bool_decide (cmd_Op c = "hset") then
    CallHSet (cmd_Key c) (go_range (cmd_Fields c)) ::
    (if 0 <? cmd_TTL c then [CallExpire (cmd_Key c) (cmd_TTL c)] else [])
  else if bool_decide (cmd_Op c = "set") then
    [CallSet (cmd_Key c) (cmd_Value c) (if 0 <? cmd_TTL c then cmd_TTL c else 0)]
  else [].
End Commands.

(** ** The connector *)

Section Connector.
Context (fmt_v : value → string) `{!JSONCodec (gmap string value)} `{!GoRange string value}.
Context {R : Type} `{!RedisClient R}.

Definition RedisSink : Type := DocSink RedisConfig R.

Definition redis_Initialize (quote : string → string) (config : sink_Config) : ST RedisSink unit := λ s,
  let cfg := redis_parseConfig config in
  match redis_Validate quote cfg with
  | Err e => (s, Err e)
  | Ok _ =>
      match redis_Dial cfg with
      | Err e => (s, Err (ErrWrapf ("failed to connect to Redis at " +:+ rc_Addr cfg) e))
      | Ok r => (set_state StateReady (mkDocSink (Some cfg) (Some r) (ds_status s) (ds_position s)), Ok tt)
      end
  end.

Definition redis_Start : ST RedisSink unit := λ s,
  match ds_client s with
  | None => (s, Err ErrNotInitialized)
  | Some _ => (set_state StateReady s, Ok tt)
  end.

Definition redis_Stop : ST RedisSink unit := λ s,
  (set_state StateStopped (set_client (redis_Close <$> ds_client s) s), Ok tt).

(** The commands of the events.  A connector that is not initialised has no writer: the
    first data event dereferences nil. *)
Fixpoint redis_commands (cfg : option RedisConfig) (events : list ChangeEvent) : result (list RedisCommand) :=
  match events with
  | [] => Ok []
  | e :: events =>
      match cfg with
      | None =>
          if IsDataEvent e then Err (Panic "nil pointer dereference") else redis_commands cfg events
      | Some c =>
          cmds ← redis_commands cfg events;
          Ok (match buildCommand fmt_v c e with Some cmd => cmd :: cmds | None => cmds end)
      end
  end.

Definition executePipeline (cmds : list RedisCommand) : ST RedisSink unit := λ s,
  match ds_client s with
  | None => (s, Err (Panic "nil pointer dereference"))
  | Some r => let '(r', res) := redis_Exec (cmds ≫= command_calls) r in (set_client (Some r') s, res)
  end.

Definition redis_Write (events : list ChangeEvent) : ST RedisSink unit := λ s,
  let s := set_state StateWriting s in
  let '(s', res) :=
    match redis_commands (ds_config s) events with
    | Err p => (s, Err p)
    | Ok cmds =>
        match (match cmds with [] => (s, Ok tt) | _ => executePipeline cmds s end) with
        | (s, Err (Panic p)) => (s, Err (Panic p))
        | (s, Err e) => (add_failed (zlen cmds) s, Err e)
        | (s, Ok _) => (set_last_position events (add_written (zlen events) 0 s), Ok tt)
        end
    end in
  (set_state StateReady s', res).
End Connector.

(** ** What Redis does *)

Inductive redis_object := RString (text : string) | RHash (fields : gmap string string).

(** The commands on the objects of the database; [arg_text] is how the client writes a
    value, if it can.  HSET sets fields of a hash and makes one where there is nothing,
    SET replaces anything.  Keys expire later, not by the command. *)
Definition run_call (arg_text : value → option string) (ks : gmap string redis_object) (c : redis_call) :
    option (gmap string redis_object) :=
  match c with
  | CallDel key => Some (delete key ks)
  | CallHSet key args =>
      fields ← mapM (λ '(n, v), pair n <$> arg_text v) args;
      match args, ks !! key with
      | [], _ | _, Some (RString _) => None
      | _, Some (RHash h) => Some (<[key := RHash (list_to_map fields ∪ h)]> ks)
      | _, None => Some (<[key := RHash (list_to_map fields)]> ks)
      end
  | CallExpire _ _ => Some ks
  | CallSet key text _ => Some (<[key := RString text]> ks)
  end.

Fixpoint run_redis (arg_text : value → option string) (calls : list redis_call) (ks : gmap string redis_object) :
    option (gmap string redis_object) :=
  match calls with [] => Some ks | c :: calls => run_call arg_text ks c ≫= run_redis arg_text calls end.

(** A pipeline without an error has run all its commands in order, on a database that
    nobody else writes to. *)
Class RedisLaws (R : Type) `{!RedisClient R} := {
  keyspace : R → gmap string redis_object;
  arg_text : value → option string;
  exec_law calls r r' : redis_Exec calls r = (r', Ok tt) → run_redis arg_text calls (keyspace r) = Some (keyspace r')
}.

Lemma run_redis_app arg l1 l2 ks : run_redis arg (l1 ++ l2) ks = run_redis arg l1 ks ≫= run_redis arg l2.
Proof.
  revert ks. induction l1 as [|c l1 IH]; intros ks; cbn; [done|]. destruct (run_call arg ks c); cbn; [apply IH|done].
Qed.

(** ** The sink mirrors a table *)

Section Mirror.
Context (fmt_v : value → string) `{!JSONCodec (gmap string value)} `{!GoRange string value}.
Context {R : Type} `{!RedisClient R} `{!RedisLaws R}.
Context (cfg : RedisConfig) (t : TableInfo) (columns : gset string).
Notation keys := (ti_PrimaryKeyColumns t).
Context (Hkeys : list_to_set keys ⊆ columns).

(** The fields of a row as Redis keeps them. *)
Definition row_texts (r : row) : gmap string string := (λ v, default "" (arg_text v)) <$> r.

(** The object a row becomes. *)
Definition redis_enc (r : row) : redis_object :=
  if bool_decide (rc_Format cfg = "hash") then RHash (row_texts r) else RString (json_text r).

Definition redis_put (insert : bool) (r : row) (o : option redis_object) : option redis_object :=
  if bool_decide (rc_Format cfg = "hash") then
    Some (RHash (row_texts r ∪ match o with Some (RHash h) => h | _ => ∅ end))
  else Some (RString (json_text r)).

Definition redis_key (k : list value) : string := render_key cfg t (join "_" (fmt_v <$> k)).

Lemma row_texts_args (doc : row) fields :
  mapM (λ '(n, v), pair n <$> arg_text v) (go_range doc) = Some fields → list_to_map fields = row_texts doc.
Proof.
  rewrite mapM_Some. intros H.
  assert (E : fields = (λ '(n, v), (n, default "" (arg_text v))) <$> go_range doc).
  { clear -H. induction H as [|[n v] f l fs Hf _ IH]; [done|]. cbn. rewrite <- IH. f_equal.
    apply fmap_Some in Hf as (x & Hx & ->). by rewrite Hx. }
  subst fields. apply map_eq. intros c. apply option_eq. intros x.
  rewrite <- elem_of_list_to_map.
  2: { rewrite <- list_fmap_compose. rewrite (list_fmap_ext _ fst); [apply go_range_NoDup|]. by intros _ [] _. }
  unfold row_texts. rewrite lookup_fmap, list_elem_of_fmap. split.
  - intros ([n v] & [= -> ->] & Hin%go_range_lookup). by rewrite Hin.
  - intros (v & Hv & ->)%fmap_Some. exists (c, v). split; [done|]. by apply go_range_lookup.
Qed.

Lemma row_texts_union r r0 : dom r = dom r0 → row_texts r ∪ row_texts r0 = row_texts r.
Proof.
  intros Hd. apply map_eq. intros c. rewrite lookup_union. unfold row_texts. rewrite !lookup_fmap.
  destruct (r !! c) eqn:Er, (r0 !! c) eqn:Er0; try done.
  exfalso. apply not_elem_of_dom in Er. apply elem_of_dom_2 in Er0. congruence.
Qed.

Lemma redis_put_full b r o :
  dom r = columns → (∀ v, o = Some v → full_doc redis_enc columns v) → redis_put b r o = Some (redis_enc r).
Proof.
  intros Hr Ho. unfold redis_put, redis_enc in *. destruct (bool_decide (rc_Format cfg = "hash")); [|done].
  do 2 f_equal. destruct o as [v|]; [|apply map_union_empty].
  destruct (Ho v eq_refl) as (r0 & -> & Hr0). apply row_texts_union. congruence.
Qed.

(** The calls of a row that is written put its object. *)
Lemma put_calls b key (r : row) ks ks' :
  run_redis arg_text (command_calls (if bool_decide (rc_Format cfg = "hash") then mkRedisCommand "hset" key r "" (rc_TTL cfg)
                       else mkRedisCommand "set" key ∅ (json_text r) (rc_TTL cfg))) ks = Some ks' →
  ∀ i, ks' !! i = run_op redis_put (λ i, ks !! i) (Put b key r) i.
Proof.
  unfold run_op, redis_put. cbn [op_id]. destruct (bool_decide (rc_Format cfg = "hash")).
  - change (command_calls _) with (CallHSet key (go_range r) :: (if 0 <? rc_TTL cfg then [CallExpire key (rc_TTL cfg)] else [])).
    cbn [run_redis run_call]. destruct (mapM _ (go_range r)) as [fields|] eqn:Ef; [|done].
    apply row_texts_args in Ef. cbn [mbind option_bind]. rewrite Ef.
    assert (Hrest : ∀ ks1, run_redis arg_text (if 0 <? rc_TTL cfg then [CallExpire key (rc_TTL cfg)] else []) ks1 = Some ks1)
      by (intros; by destruct (0 <? rc_TTL cfg)).
    destruct (go_range r); [done|]. destruct (ks !! key) as [[text|h]|] eqn:Eks; [done| |];
      cbn [mbind option_bind]; rewrite Hrest; intros [= <-] i; rewrite lookup_insert; case_decide; case_decide; try congruence;
      subst; by rewrite Eks, ?map_union_empty.
  - intros [= <-] i. rewrite lookup_insert. case_decide; case_decide; congruence.
Qed.

(** The command of an event has the effect of its change. *)
Lemma event_calls e ch :
  rc_Format cfg ∈ redis_formats → table_event t columns e → change_of keys e = Some ch →
  ∃ cmd op, buildCommand fmt_v cfg e = Some cmd ∧ change_op keys redis_key ch = Some op ∧
    ∀ ks ks', run_redis arg_text (command_calls cmd) ks = Some ks' →
      ∀ i, ks' !! i = run_op redis_put (λ i, ks !! i) op i.
Proof.
  intros Hfmt [Hd Ht Ha Hb] Hch.
  assert (Hput : ∀ b k, key_of keys (row_values (ev_After e)) = Some k →
    ∃ cmd, (let key := generateKey fmt_v cfg (ev_Table e) (ev_After e) (ti_PrimaryKeyColumns (ev_Table e)) in
            let doc := row_document (ev_After e) in
            if bool_decide (rc_Format cfg = "hash") then Some (mkRedisCommand "hset" key doc "" (rc_TTL cfg))
            else if bool_decide (rc_Format cfg = "json" ∨ rc_Format cfg = "string")
            then Some (mkRedisCommand "set" key ∅ (json_text doc) (rc_TTL cfg)) else None) = Some cmd ∧
      ∀ ks ks', run_redis arg_text (command_calls cmd) ks = Some ks' →
        ∀ i, ks' !! i = run_op redis_put (λ i, ks !! i) (Put b (redis_key k) (row_values (ev_After e))) i).
  { intros b k Hk. rewrite Ht. unfold generateKey. rewrite (key_parts_key fmt_v _ _ _ Hk). fold (redis_key k). cbv zeta.
    exists (if bool_decide (rc_Format cfg = "hash") then mkRedisCommand "hset" (redis_key k) (row_document (ev_After e)) "" (rc_TTL cfg)
            else mkRedisCommand "set" (redis_key k) ∅ (json_text (row_document (ev_After e))) (rc_TTL cfg)).
    split; [|intros ks ks' Hrun; by apply put_calls].
    case_bool_decide; [done|]. rewrite bool_decide_eq_true_2; [done|]. unfold redis_formats in Hfmt. set_solver. }
  unfold buildCommand, change_of, IsDataEvent in *. destruct (ev_Type e); try done.
  - injection Hch as <-. destruct (key_of_total keys (row_values (ev_After e))) as [k Hk]; [by rewrite Ha|].
    destruct (Hput true k Hk) as (cmd & Hcmd & Hrun). exists cmd. cbn [change_op]. rewrite Hk. cbn. eauto.
  - apply bind_Some in Hch as (k0 & Hk0 & [= <-]).
    destruct (key_of_total keys (row_values (ev_After e))) as [k Hk]; [by rewrite Ha|].
    destruct (Hput false k Hk) as (cmd & Hcmd & Hrun). exists cmd. cbn [change_op]. rewrite Hk. cbn. eauto.
  - apply bind_Some in Hch as (k0 & Hk0 & [= <-]). do 2 eexists. split; [done|]. split; [done|].
    intros ks ks' [= <-] i. rewrite Ht. unfold generateKey. rewrite (key_parts_key fmt_v _ _ _ Hk0). fold (redis_key k0).
    unfold run_op. cbn [op_id cmd_Key]. rewrite lookup_delete. repeat case_decide; congruence.
Qed.

Lemma batch_calls events chs :
  rc_Format cfg ∈ redis_formats → Forall (table_event t columns) events → mapM (change_of keys) events = Some chs →
  ∃ cmds ops, redis_commands fmt_v (Some cfg) events = Ok cmds ∧ length cmds = length events ∧
    mapM (change_op keys redis_key) chs = Some ops ∧
    ∀ ks ks', run_redis arg_text (cmds ≫= command_calls) ks = Some ks' →
      ∀ i, ks' !! i = run_ops redis_put ops (λ i, ks !! i) i.
Proof.
  intros Hfmt He. revert chs. induction He as [|e events He _ IH]; intros chs Hm.
  { injection Hm as <-. exists [], []. split_and!; [done..|]. by intros ks ks' [= <-]. }
  cbn [mapM] in Hm. apply bind_Some in Hm as (ch & Hch & (chs' & Hchs & [= <-])%bind_Some).
  destruct (event_calls e ch Hfmt He Hch) as (cmd & op & Hcmd & Hop & Hrun).
  destruct (IH chs' Hchs) as (cmds & ops & Hcmds & Hlen & Hops & Hruns).
  exists (cmd :: cmds), (op :: ops). cbn. rewrite Hcmds. cbn. rewrite Hcmd, Hop. cbn. rewrite Hops.
  split_and!; [done|congruence|done|]. intros ks ks'. rewrite run_redis_app.
  destruct (run_redis arg_text (command_calls cmd) ks) as [ks1|] eqn:E1; cbn; [|done]. intros E2 i.
  rewrite (Hruns ks1 ks' E2). apply run_ops_proper; [done|]. intros j. by apply Hrun.
Qed.

Context (K : list value → Prop) (key_inj : ∀ k k', K k → K k' → redis_key k = redis_key k' → k = k').

(** The Redis sink mirrors a table: when a batch of inserts, deletes and updates in
    place with complete row images has been written, the object at the key of every row
    is that row, as a hash or as JSON, and the keys of deleted rows hold nothing, as long
    as different rows have different keys. *)
Theorem redis_sink_mirrors events chs T s s' r r' :
  ds_config s = Some cfg → rc_Format cfg ∈ redis_formats → ds_client s = Some r →
  Forall (table_event t columns) events → mapM (change_of keys) events = Some chs → full columns T →
  changes_apply keys chs T → Forall (λ ch, ∃ k, change_key keys ch = Some k ∧ K k) chs →
  (∀ k, K k → keyspace r !! redis_key k = redis_enc <$> T k) →
  redis_Write fmt_v events s = (s', Ok tt) → ds_client s' = Some r' →
  (∀ k, K k → keyspace r' !! redis_key k = redis_enc <$> apply_changes keys chs T k) ∧
  ds_position s' = match last events with Some e => Some (ev_Position e) | None => ds_position s end.
Proof.
  intros Hcfg Hfmt Hr He Hchs HT Happ HK Hm Hw Hr'.
  destruct (batch_calls events chs Hfmt He Hchs) as (cmds & ops & Hcmds & Hlen & Hops & Hruns).
  destruct (keyed_mirror redis_put keys columns redis_key redis_enc K key_inj) with (chs := chs) (T := T)
    (m := λ i, keyspace r !! i) as (ops' & Hops' & Hmir); [| |done|by eapply table_events_changes|done..|].
  { intros. by apply redis_put_full. }
  { intros r1 r0 H1 H0. apply redis_put_full; [done|]. intros v [= <-]. by exists r0. }
  rewrite Hops in Hops'. injection Hops' as <-.
  unfold redis_Write in Hw. cbn [set_state ds_config] in Hw. rewrite Hcfg, Hcmds in Hw.
  assert (Hks : ∀ i, keyspace r' !! i = run_ops redis_put ops (λ i, keyspace r !! i) i ∧
                ds_position s' = match last events with Some e => Some (ev_Position e) | None => ds_position s end).
  { destruct cmds as [|cmd cmds].
    - injection Hw as <-. cbn in Hr'. rewrite Hr in Hr'. injection Hr' as <-. split; [by apply Hruns|done].
    - unfold executePipeline in Hw. cbn [set_state ds_client] in Hw. rewrite Hr in Hw.
      destruct (redis_Exec _ r) as [r1 res] eqn:Ex. destruct res as [[]|[]]; try done.
      injection Hw as <-. cbn in Hr'. injection Hr' as <-. apply exec_law in Ex. split; [by apply Hruns|done]. }
  split; [|by destruct (Hks "")]. intros k Hk. rewrite (proj1 (Hks _)). by apply Hmir.
Qed.
End Mirror.

(** ** Other behaviour *)

Section Behaviour.
Context (fmt_v : value → string) `{!JSONCodec (gmap string value)} `{!GoRange string value}.
Context {R : Type} `{!RedisClient R} `{!RedisLaws R}.

Lemma redis_commands_length cfg events :
  rc_Format cfg ∈ redis_formats →
  ∃ cmds, redis_commands fmt_v (Some cfg) events = Ok cmds ∧ length cmds = length (filter (λ e, IsDataEvent e = true) events).
Proof.
  intros Hfmt. induction events as [|e events (cmds & Hcmds & Hlen)]; [by exists []|]. cbn [redis_commands].
  rewrite Hcmds. cbn [mbind result_bind].
  assert (Hc : is_Some (buildCommand fmt_v cfg e) ↔ IsDataEvent e = true).
  { unfold buildCommand, IsDataEvent. destruct (ev_Type e); cbn; try (split; [by intros [? ?]|done]).
    1, 2: split; [done|intros _]; case_bool_decide; [by eexists|]; rewrite bool_decide_eq_true_2 by
      (unfold redis_formats in Hfmt; set_solver); by eexists. }
  rewrite filter_cons. destruct (buildCommand fmt_v cfg e) as [cmd|]; case_decide as Hd; eexists; (split; [done|]).
  - cbn. congruence.
  - exfalso. apply Hd, Hc. by eexists.
  - exfalso. destruct (proj2 Hc Hd). done.
  - done.
Qed.

(** A connector that [Initialize] accepts turns every data event into one command: no
    format passes the validation that [buildCommand] does not know. *)
Theorem redis_initialized quote config (s s' : RedisSink) :
  redis_Initialize quote config s = (s', Ok tt) →
  ss_State (ds_status s') = StateReady ∧ is_Some (ds_client s') ∧
  ∃ cfg, ds_config s' = Some cfg ∧ 0 < rc_BatchSize cfg ∧ rc_Format cfg ∈ redis_formats ∧
    ∀ events, ∃ cmds, redis_commands fmt_v (Some cfg) events = Ok cmds ∧
      length cmds = length (filter (λ e, IsDataEvent e = true) events).
Proof.
  unfold redis_Initialize, redis_Validate. set (cfg := redis_parseConfig config).
  case_bool_decide; [done|]. case_bool_decide as Hf; [|done]. cbn [negb].
  destruct (rc_BatchSize cfg <=? 0) eqn:Eb; [done|]. destruct (redis_Dial cfg) as [r|e]; [|done].
  intros [= <-]. cbn. split; [done|]. split; [by eexists|]. exists cfg. split; [done|].
  split; [by apply Z.leb_gt|]. split; [done|]. intros events. by apply redis_commands_length.
Qed.

(** A failed pipeline moves no position and counts the commands as failed; before
    [Initialize] the first data event panics. *)
Theorem redis_write_fails events (s s' : RedisSink) e :
  redis_Write fmt_v events s = (s', Err e) →
  ds_position s' = ds_position s ∧ ss_EventsWritten (ds_status s') = ss_EventsWritten (ds_status s) ∧
  ss_State (ds_status s') = StateReady.
Proof.
  unfold redis_Write. cbn [set_state ds_config]. destruct (redis_commands _ _ _) as [[|cmd cmds]|p]; [done| |by intros [= <- <-]].
  unfold executePipeline. cbn [set_state ds_client]. destruct (ds_client s) as [r|]; [|by intros [= <- <-]].
  destruct (redis_Exec _ r) as [r1 [[]|[]]]; try done; by intros [= <- <-].
Qed.

(** An update that changes the key of a row writes the new key and leaves the object of
    the old one. *)
Theorem key_change_leaves_row cfg e cmd (r r' : R) :
  ev_Type e = EventTypeUpdate → buildCommand fmt_v cfg e = Some cmd →
  redis_Exec (command_calls cmd) r = (r', Ok tt) →
  let old := generateKey fmt_v cfg (ev_Table e) (ev_Before e) (ti_PrimaryKeyColumns (ev_Table e)) in
  old ≠ cmd_Key cmd → keyspace r' !! old = keyspace r !! old.
Proof.
  intros Ht Hc Hx%exec_law old Hne. unfold buildCommand in Hc. rewrite Ht in Hc. revert Hx.
  case_bool_decide; [|case_bool_decide; [|done]]; injection Hc as <-; cbn [cmd_Key] in Hne.
  - set (calls := command_calls _). change calls with (CallHSet (generateKey fmt_v cfg (ev_Table e) (ev_After e)
      (ti_PrimaryKeyColumns (ev_Table e))) (go_range (row_document (ev_After e))) :: (if 0 <? rc_TTL cfg then
      [CallExpire (generateKey fmt_v cfg (ev_Table e) (ev_After e) (ti_PrimaryKeyColumns (ev_Table e))) (rc_TTL cfg)] else [])).
    cbn [run_redis run_call]. destruct (mapM _ _) as [fields|]; [|done]. cbn [mbind option_bind].
    destruct (go_range _); [done|]. destruct (_ !! _) as [[]|]; [done| |]; cbn [mbind option_bind];
      destruct (0 <? rc_TTL cfg); intros [= <-]; by rewrite lookup_insert_ne by done.
  - intros [= <-]. by rewrite lookup_insert_ne by done.
Qed.
End Behaviour.

(** ** Runs *)

Module RedisRuns.
Import DocRuns.

#[local] Instance no_json : JSONCodec (gmap string value) := {|
  json_Marshal doc :=
    match doc !! "score" with Some (VFloat64 SpecFloat.S754_nan) => Err (ErrNew "json: unsupported value: NaN") | _ => Ok [Byte.x7b; Byte.x7d] end;
  json_Unmarshal _ := Ok ∅
|}.
#[local] Instance values_range : GoRange string value := sorted_range string value.

Definition written (v : value) : option string :=
  match v with VOther _ _ => None | _ => Some (print v) end.

#[local] Program Instance db : RedisClient (gmap string redis_object) := {
  redis_Dial _ := Ok ∅;
  redis_Exec calls r := match run_redis written calls r with Some r' => (r', Ok tt) | None => (r, Err (ErrNew "WRONGTYPE")) end;
  redis_Close r := r
}.

#[local] Program Instance db_laws : RedisLaws (gmap string redis_object) := { keyspace r := r; arg_text := written }.
Next Obligation. intros calls r r'. cbn. by destruct (run_redis written calls r); intros [= <-]. Qed.

Definition config : sink_Config :=
  mkSinkConfigFile "redis" (mkConnectionConfig "" 0 "" "" "" [] "" "db:6379" "" 0 []) ∅ (mkBatchConfig 0 0 0 0)
    (mkRetryConfig 0 0 0 (SpecFloat.S754_zero false)).
Definition sink : RedisSink (R := gmap string redis_object) := (redis_Initialize id config New_sink).1.

Definition cfg : RedisConfig := mkRedisConfig "db:6379" "" 0 "{database}:{table}:{pk}" 0 1000 1000000000 "hash".

Lemma redis_ids_distinct k k' : ids k → ids k' → redis_key print cfg users k = redis_key print cfg users k' → k = k'.
Proof. intros [->| ->] [->| ->] H; try done; vm_compute in H; discriminate. Qed.

Lemma redis_sink_mirrors_witness :
  ∃ s' r', redis_Write print events sink = (s', Ok tt) ∧ ds_client s' = Some r' ∧
    r' !! "shop:users:1" = Some (RHash {["id" := "1"; "name" := "Eve"]}) ∧ r' !! "shop:users:2" = None.
Proof.
  set (res := redis_Write print events sink). assert (Er : res.2 = Ok tt) by (vm_compute; reflexivity).
  destruct (ds_client res.1) as [r'|] eqn:Ec; [|vm_compute in Ec; discriminate].
  exists res.1, r'. split; [by rewrite <- Er; destruct res|]. split; [done|].
  opose proof* (redis_sink_mirrors print cfg users columns key_in_columns ids redis_ids_distinct events chs (λ _, None) sink res.1 ∅ r')
    as [H _].
  - vm_compute; reflexivity.
  - vm_compute. by constructor.
  - vm_compute; reflexivity.
  - exact events_good.
  - vm_compute; reflexivity.
  - by intros k r.
  - exact changes_apply_users.
  - exact changes_ids.
  - intros k _. exact (lookup_empty (M := gmap string) (A := redis_object) _).
  - rewrite <- Er. exact (surjective_pairing res).
  - done.
  - split; [exact (H [VInt64 1] (or_introl eq_refl))|exact (H [VInt64 2] (or_intror eq_refl))].
Defined.

(** Columns of a key are joined with an underscore, so that two rows can share a key. *)
Example joined_keys_collide :
  redis_key print cfg users [VString "a_b"; VString "c"] = redis_key print cfg users [VString "a"; VString "b_c"].
Proof. vm_compute. reflexivity. Qed.

(** A name that contains a placeholder is expanded again. *)
Example placeholder_in_name :
  render_key cfg (mkTableInfo "{table}" "" "users" [] [] []) "7" = "users:users:7".
Proof. vm_compute. reflexivity. Qed.

(** A row JSON cannot express is written as an empty text. *)
Example unmarshalled_row_is_blank :
  cmd_Value <$> buildCommand print (mkRedisConfig "" "" 0 "{pk}" 0 1 0 "json")
    (event EventTypeInsert RowData_zero (mkRowData (Some {["score" := mkField "score" (VFloat64 SpecFloat.S754_nan) "" false]}))) = Some "".
Proof. vm_compute. reflexivity. Qed.

Lemma redis_initialized_witness :
  ss_State (ds_status sink) = StateReady ∧ ∃ cfg, ds_config sink = Some cfg ∧ rc_Format cfg ∈ redis_formats.
Proof.
  assert (E : redis_Initialize id config New_sink = (sink, Ok tt)) by (vm_compute; reflexivity).
  destruct (redis_initialized print id config New_sink sink E) as (H & _ & c & Hc & _ & Hf & _).
  split; [exact H|]. exists c. split; [exact Hc|exact Hf].
Defined.
End RedisRuns.
