(* ===== verification/ElasticSink.v ===== *)
(** The Elasticsearch sink (internal/sink/elasticsearch): the mapping of events to bulk
    actions (mapper.go), the request body and the buffer (indexer.go), the requests with
    their retries and [Write] (connector.go).

    The client is a parameter: [ESClient] is the part of go-elasticsearch the sink calls,
    and [ESLaws] what the Bulk API documents. *)
From Stdlib Require Import ZArith Lia.
From Stdlib Require String Strings.Byte SpecFloat.
From stdpp Require Import prelude countable gmap strings list fin_maps pretty.
From S2P Require Import Prelude Events Strings SQLSink DocumentSinks.
Local Open Scope Z_scope.

(** ** config.go *)

Record ESConfig := mkESConfig {
  es_URLs : list string;
  es_Username : string;
  es_Password : string;
  es_APIKey : string;
  es_IndexPrefix : string;
  es_IndexPattern : string;
  es_BatchSize : Z;
  es_FlushInterval : duration;
  es_RefreshPolicy : string;
  es_RetryOnConflict : Z
}.

Definition es_DefaultConfig : ESConfig := mkESConfig [] "" "" "" "" "{database}_{table}" 1000 1000000000 "false" 3.

Definition es_Validate (quote : string → string) (c : ESConfig) : result unit :=
  match es_URLs c with
  | [] => Err (ErrNew "at least one URL is required")
  | _ =>
      if bool_decide (es_RefreshPolicy c ∈ ["true"; "wait_for"; "false"]) then Ok tt
      else Err (ErrNew ("invalid refresh policy: " +:+ quote (es_RefreshPolicy c) +:+ ", must be one of: true, wait_for, false"))
  end.

Definition es_parseConfig (config : sink_Config) : ESConfig :=
  let cfg := es_DefaultConfig in
  let conn := sf_Connection config in
  mkESConfig
    (match cc_URLs conn with [] => default (es_URLs cfg) (prop_strings config "urls") | urls => urls end)
    (default (if bool_decide (cc_User conn ≠ "") then cc_User conn else es_Username cfg) (prop_string config "username"))
    (default (if bool_decide (cc_Password conn ≠ "") then cc_Password conn else es_Password cfg) (prop_string config "password"))
    (default (es_APIKey cfg) (prop_string config "apiKey"))
    (default (es_IndexPrefix cfg) (prop_string config "indexPrefix"))
    (default (es_IndexPattern cfg) (prop_string config "indexPattern"))
    (default (es_BatchSize cfg) (prop_number config "batchSize"))
    (default (es_FlushInterval cfg) (prop_millis config "flushInterval"))
    (default (es_RefreshPolicy cfg) (prop_string config "refreshPolicy"))
    (default (es_RetryOnConflict cfg) (prop_number config "retryOnConflict")).

(** ** mapper.go *)

Record BulkAction := mkBulkAction {
  ba_Index : string;
  ba_ID : string;
  ba_Op : string;
  ba_Doc : gmap string value      (* nil for a delete *)
}.

Section Mapper.
Context (fmt_v : value → string) (cfg : ESConfig).

Definition GenerateDocID (row : RowData) (pkColumns : list string) : string := join "_" (key_parts fmt_v row pkColumns).

Definition ResolveIndex (table : TableInfo) : string :=
  let indexName := strings_ReplaceAll (es_IndexPattern cfg) "{database}" (strings_ToLower (ti_Database table)) in
  let indexName := strings_ReplaceAll indexName "{table}" (strings_ToLower (ti_Table table)) in
  if bool_decide (es_IndexPrefix cfg ≠ "") then es_IndexPrefix cfg +:+ indexName else indexName.

Definition BuildDocument (row : RowData) : gmap string value := row_document row.

Definition MapEvent (e : ChangeEvent) : option BulkAction :=
  let index := ResolveIndex (ev_Table e) in
  let keys := ti_PrimaryKeyColumns (ev_Table e) in
  match ev_Type e with
  | EventTypeInsert => Some (mkBulkAction index (GenerateDocID (ev_After e) keys) "index" (BuildDocument (ev_After e)))
  | EventTypeUpdate => Some (mkBulkAction index (GenerateDocID (ev_After e) keys) "update" (BuildDocument (ev_After e)))
  | EventTypeDelete => Some (mkBulkAction index (GenerateDocID (ev_Before e) keys) "delete" ∅)
  | _ => None
  end.
End Mapper.

(** ** indexer.go: the request body *)

(** The objects of the lines of a body: the line that names an action and, for an update,
    the line of its document. *)
Inductive bulk_header :=
  | HeaderIndex (index id : string)
  | HeaderUpdate (index id : string) (retry_on_conflict : Z)
  | HeaderDelete (index id : string).

Record upsert_source := mkUpsert { us_doc : gmap string value }.      (* doc_as_upsert: true *)

Definition newline : Byte.byte := Byte.x0a.

Section Body.
Context `{!JSONCodec bulk_header} `{!JSONCodec upsert_source} `{!JSONCodec (gmap string value)}.

(** A value that does not marshal adds no line. *)
Definition appendLine {A} `{!JSONCodec A} (v : A) : list Byte.byte :=
  match json_Marshal v with Ok data => data ++ [newline] | Err _ => [] end.

Definition action_lines (cfg : ESConfig) (a : BulkAction) : list Byte.byte :=
  if bool_decide (ba_Op a = "index") then appendLine (HeaderIndex (ba_Index a) (ba_ID a)) ++ appendLine (ba_Doc a)
  else if bool_decide (ba_Op a = "update") then
    appendLine (HeaderUpdate (ba_Index a) (ba_ID a) (es_RetryOnConflict cfg)) ++ appendLine (mkUpsert (ba_Doc a))
  else if bool_decide (ba_Op a = "delete") then appendLine (HeaderDelete (ba_Index a) (ba_ID a))
  else [].

Definition BuildRequestBody (cfg : ESConfig) (actions : list BulkAction) : list Byte.byte := actions ≫= action_lines cfg.
End Body.

(** *** The buffer *)

(** The buffered actions and the token in the flush channel, which holds one. *)
Record BulkIndexer := mkBulkIndexer { bi_buffer : list BulkAction; bi_flushCh : bool }.

Definition NewBulkIndexer : BulkIndexer := mkBulkIndexer [] false.

Definition indexer_Add (cfg : ESConfig) (a : BulkAction) (b : BulkIndexer) : BulkIndexer :=
  let buffer := bi_buffer b ++ [a] in
  mkBulkIndexer buffer (bi_flushCh b || (es_BatchSize cfg <=? zlen buffer)).

Definition BufferSize (b : BulkIndexer) : Z := zlen (bi_buffer b).
Definition indexer_Clear (b : BulkIndexer) : BulkIndexer := mkBulkIndexer [] (bi_flushCh b).
Definition GetAndClear (b : BulkIndexer) : BulkIndexer * list BulkAction :=
  (mkBulkIndexer [] (bi_flushCh b), bi_buffer b).
Definition ShouldFlush (cfg : ESConfig) (b : BulkIndexer) : bool := es_BatchSize cfg <=? zlen (bi_buffer b).

(** ** connector.go *)

(** An HTTP answer: whether its status is an error, the status, and its body. *)
Record es_response := mkESResponse { res_IsError : bool; res_Status : string; res_Body : result (list Byte.byte) }.

(** What is read of the answer to a bulk request; its items are only logged. *)
Record BulkResponse := mkBulkResponse { br_Errors : bool }.

Class ESClient (E : Type) := {
  es_NewClient : ESConfig → result E;
  es_Info : E → E * result es_response;
  es_Bulk : string → list Byte.byte → E → E * result es_response     (* refresh, body *)
}.

Section Connector.
Context (fmt_v : value → string).
Context `{!JSONCodec bulk_header} `{!JSONCodec upsert_source} `{!JSONCodec (gmap string value)} `{!JSONCodec BulkResponse}.
Context {E : Type} `{!ESClient E}.

Definition maxRetries : nat := 5.
Definition first_wait : duration := 500 * 1000000.

(** The loop of [pingWithRetry] and [sendBulkWithRetry]: [rounds] attempts, with a wait
    before each but the first, which [done] may end with the error of the context.  The
    waits made are returned too. *)
Fixpoint with_retry (op : E → E * result unit) (done : nat → option goerror) (failed : string)
    (rounds attempt : nat) (wait : duration) (lastErr : goerror) (e : E) : E * list duration * result unit :=
  match rounds with
  | O => (e, [], Err (ErrWrapf failed lastErr))
  | S rounds =>
      let try_it (wait' : duration) (waits : list duration) :=
        match op e with
        | (e', Ok _) => (e', waits, Ok tt)
        | (e', Err err) =>
            let '(e'', ws, r) := with_retry op done failed rounds (S attempt) wait' err e' in (e'', waits ++ ws, r)
        end in
      match attempt with
      | O => try_it wait []
      | _ => match done attempt with
             | Some err => (e, [], Err err)
             | None => try_it (2 * wait) [wait]
             end
      end
  end.

Definition ping (e : E) : E * result unit :=
  match es_Info e with
  | (e', Err err) => (e', Err err)
  | (e', Ok res) => (e', if res_IsError res then Err (ErrNew ("ping returned HTTP " +:+ res_Status res)) else Ok tt)
  end.

Definition pingWithRetry (done : nat → option goerror) (e : E) : E * list duration * result unit :=
  with_retry ping done "could not connect after 5 retries" (S maxRetries) 0 first_wait (ErrNew "") e.

(** One request.  A body that cannot be parsed, and documents the server refused, count
    as success. *)
Definition sendBulk (cfg : ESConfig) (body : list Byte.byte) (e : E) : E * result unit :=
  match es_Bulk (es_RefreshPolicy cfg) body e with
  | (e', Err err) => (e', Err (ErrWrapf "bulk API call failed" err))
  | (e', Ok res) =>
      (e', if res_IsError res then Err (ErrNew ("bulk API returned HTTP " +:+ res_Status res))
           else match res_Body res with
                | Err err => Err (ErrWrapf "failed to read bulk response" err)
                | Ok _ => Ok tt
                end)
  end.

Definition sendBulkWithRetry (cfg : ESConfig) (done : nat → option goerror) (body : list Byte.byte) (e : E) :
    E * list duration * result unit :=
  with_retry (sendBulk cfg body) done "bulk request failed after 5 retries" (S maxRetries) 0 first_wait (ErrNew "") e.

Definition ESSink : Type := DocSink ESConfig E.

Definition es_Initialize (quote : string → string) (done : nat → option goerror) (config : sink_Config) : ST ESSink unit := λ s,
  let cfg := es_parseConfig config in
  match es_Validate quote cfg with
  | Err e => (s, Err e)
  | Ok _ =>
      match es_NewClient cfg with
      | Err e => (s, Err (ErrWrapf "failed to create Elasticsearch client" e))
      | Ok client =>
          match pingWithRetry done client with
          | (_, _, Err e) => (s, Err (ErrWrapf "failed to connect to Elasticsearch" e))
          | (client, _, Ok _) =>
              (set_state StateReady (mkDocSink (Some cfg) (Some client) (ds_status s) (ds_position s)), Ok tt)
          end
      end
  end.

Definition es_Start : ST ESSink unit := λ s,
  match ds_client s with
  | None => (s, Err ErrNotInitialized)
  | Some _ => (set_state StateReady s, Ok tt)
  end.

Definition es_Stop : ST ESSink unit := λ s, (set_state StateStopped s, Ok tt).

(** The actions of the events; without a mapper, before [Initialize], the first data
    event dereferences nil. *)
Definition map_events (cfg : option ESConfig) (events : list ChangeEvent) : result (list BulkAction) :=
  match cfg with
  | Some c => Ok (omap (MapEvent fmt_v c) events)
  | None => if existsb IsDataEvent events then Err (Panic "nil pointer dereference") else Ok []
  end.

Definition es_Write (done : nat → option goerror) (events : list ChangeEvent) : ST ESSink unit := λ s,
  let s := set_state StateWriting s in
  let '(s', res) :=
    match map_events (ds_config s) events with
    | Err p => (s, Err p)
    | Ok [] => (set_last_position events s, Ok tt)
    | Ok actions =>
        match ds_config s, ds_client s with
        | Some cfg, Some client =>
            let body := BuildRequestBody cfg actions in
            match sendBulkWithRetry cfg done body client with
            | (client', _, Err e) => (add_failed (zlen actions) (set_client (Some client') s), Err e)
            | (client', _, Ok _) =>
                (set_last_position events (add_written (zlen events) (zlen body) (set_client (Some client') s)), Ok tt)
            end
        | _, _ => (s, Err (Panic "nil pointer dereference"))
        end
    end in
  (set_state StateReady s', res).
End Connector.

(** ** Retries *)

Section Retries.
Context {E : Type} (op : E → E * result unit) (done : nat → option goerror) (failed : string).

(** The client after a number of calls, and the answer of the last. *)
Fixpoint calls (n : nat) (e : E) : E := match n with O => e | S n => calls n (op e).1 end.

(** The waits from a first one: each is twice the one before. *)
Fixpoint doubling (n : nat) (wait : duration) : list duration :=
  match n with O => [] | S n => wait :: doubling n (2 * wait) end.

(** The first [n] calls fail. *)
Definition all_fail (n : nat) (e : E) : Prop := ∀ m, (m < n)%nat → (op (calls m e)).2 ≠ Ok tt.

(** How a loop ends: with a call that succeeds, with all calls failed, or with the error
    of the context. *)
Definition loop_end (rounds attempt n : nat) (e : E) (r : result unit) : Prop :=
  match r with
  | Ok _ => ∃ m, n = S m ∧ all_fail m e ∧ (op (calls m e)).2 = Ok tt
  | Err err => all_fail n e ∧
      (n = rounds ∧ (∃ cause, err = ErrWrapf failed cause) ∨ (n < rounds)%nat ∧ done (attempt + n)%nat = Some err)
  end.

Lemma all_fail_S n e e1 err : op e = (e1, Err err) → all_fail n e1 → all_fail (S n) e.
Proof. intros He Hn [|m] Hm; cbn; rewrite He; [done|]. apply Hn. lia. Qed.

Lemma loop_end_S rounds attempt n e e1 err r :
  op e = (e1, Err err) → loop_end rounds (S attempt) n e1 r → loop_end (S rounds) attempt (S n) e r.
Proof.
  intros He. destruct r as [u|er]; cbn.
  - intros (m & -> & Hf & Hok). exists (S m). split; [done|]. split; [by eapply all_fail_S|]. cbn. by rewrite He.
  - intros [Hf Hr]. split; [by eapply all_fail_S|]. destruct Hr as [[-> Hc]|[Hn Hd]]; [by left|right].
    split; [lia|]. by rewrite Nat.add_succ_r.
Qed.

Lemma with_retry_spec rounds : ∀ attempt wait last e e' waits r,
  with_retry op done failed rounds attempt wait last e = (e', waits, r) →
  ∃ n, (n <= rounds)%nat ∧ e' = calls n e ∧
    waits = doubling (match attempt with O => pred n | _ => n end) wait ∧ loop_end rounds attempt n e r ∧
    (attempt = O → rounds ≠ O → n ≠ O).
Proof.
  induction rounds as [|rounds IH]; intros attempt wait last e e' waits r; cbn [with_retry].
  { intros [= <- <- <-]. exists O. split; [lia|]. split; [done|]. split; [by destruct attempt|].
    split; [|done]. split; [intros m; lia|]. left. eauto. }
  destruct attempt as [|a].
  - destruct (op e) as [e1 [[]|err]] eqn:Eop.
    + intros [= <- <- <-]. exists 1%nat. cbn [calls]. rewrite Eop. split_and!; [lia|done|done| |done].
      exists O. cbn [calls]. rewrite Eop. split_and!; [done|intros m; lia|done].
    + destruct (with_retry _ _ _ _ _ _ _ e1) as [[e2 ws] r2] eqn:Er. intros [= <- <- <-].
      apply IH in Er as (n & Hn & -> & -> & Hend & _). exists (S n). cbn [calls pred]. rewrite Eop.
      split_and!; [lia|done|done|by eapply loop_end_S|done].
  - destruct (done (S a)) as [err|] eqn:Ed.
    { intros [= <- <- <-]. exists O. split_and!; [lia|done|done| |done].
      split; [intros m; lia|]. right. split; [lia|]. by rewrite Nat.add_0_r. }
    destruct (op e) as [e1 [[]|err]] eqn:Eop.
    + intros [= <- <- <-]. exists 1%nat. cbn [calls]. rewrite Eop. split_and!; [lia|done|done| |done].
      exists O. cbn [calls]. rewrite Eop. split_and!; [done|intros m; lia|done].
    + destruct (with_retry _ _ _ _ _ _ _ e1) as [[e2 ws] r2] eqn:Er. intros [= <- <- <-].
      apply IH in Er as (n & Hn & -> & -> & Hend & _). exists (S n). cbn [calls]. rewrite Eop.
      split_and!; [lia|done|done|by eapply loop_end_S|done].
Qed.
End Retries.

(** The requests of [Write] and of the first ping: at most six are made, the last is the
    first that succeeds, the waits between them are 0.5, 1, 2, 4 and 8 seconds, and a loop
    that fails has made all six or was ended by the context. *)
Theorem es_retries_bounded `{!ESClient E} cfg done body (e e' : E) waits r :
  sendBulkWithRetry cfg done body e = (e', waits, r) →
  ∃ n, (1 <= n <= 6)%nat ∧ e' = calls (sendBulk cfg body) n e ∧
    waits = take (pred n) [500000000; 1000000000; 2000000000; 4000000000; 8000000000] ∧
    loop_end (sendBulk cfg body) done "bulk request failed after 5 retries" 6 0 n e r.
Proof.
  unfold sendBulkWithRetry. intros H. apply with_retry_spec in H as (n & Hn & -> & -> & Hend & Hpos). exists n.
  specialize (Hpos eq_refl ltac:(done)). unfold maxRetries in Hn. split; [lia|]. split; [done|]. split; [|done].
  destruct n as [|[|[|[|[|[|[|]]]]]]]; try lia; reflexivity.
Qed.

(** ** The body is read back *)

(** The complete lines of a body. *)
Fixpoint split_body (line : list Byte.byte) (body : list Byte.byte) : list (list Byte.byte) :=
  match body with
  | [] => []
  | b :: body => if bool_decide (b = newline) then line :: split_body [] body else split_body (line ++ [b]) body
  end.

Definition body_lines : list Byte.byte → list (list Byte.byte) := split_body [].

(** JSON as [json.Marshal] writes it has no line breaks. *)
Class JSONLine (A : Type) `{!JSONCodec A} := {
  json_one_line (a : A) data : json_Marshal a = Ok data → newline ∉ data
}.

Section Parse.
Context `{!JSONCodec bulk_header} `{!JSONCodec upsert_source} `{!JSONCodec (gmap string value)}.

(** How the server reads the lines, as the Bulk API documents: the line of an action
    and, but for a delete, the line of its document. *)
Fixpoint parse_bulk (lines : list (list Byte.byte)) : option (list BulkAction) :=
  match lines with
  | [] => Some []
  | h :: rest =>
      match json_Unmarshal h, rest with
      | Ok (HeaderDelete index id), _ => cons (mkBulkAction index id "delete" ∅) <$> parse_bulk rest
      | Ok (HeaderIndex index id), d :: rest =>
          match json_Unmarshal d with
          | Ok doc => cons (mkBulkAction index id "index" doc) <$> parse_bulk rest
          | Err _ => None
          end
      | Ok (HeaderUpdate index id _), d :: rest =>
          match json_Unmarshal d with
          | Ok src => cons (mkBulkAction index id "update" (us_doc src)) <$> parse_bulk rest
          | Err _ => None
          end
      | _, _ => None
      end
  end.

Lemma split_body_app line data rest :
  newline ∉ data → split_body line (data ++ newline :: rest) = (line ++ data) :: split_body [] rest.
Proof.
  revert line. induction data as [|b data IH]; intros line Hn; cbn [app split_body].
  - by rewrite bool_decide_eq_true_2, app_nil_r.
  - apply not_elem_of_cons in Hn as [Hb Hn]. rewrite bool_decide_eq_false_2 by congruence.
    rewrite IH by done. by rewrite <- app_assoc.
Qed.

Context `{!JSONLaws bulk_header} `{!JSONLaws upsert_source} `{!JSONLaws (gmap string value)}.
Context `{!JSONLine bulk_header} `{!JSONLine upsert_source} `{!JSONLine (gmap string value)}.

(** An action the mapper builds, with texts that JSON can express. *)
Definition good_action (cfg : ESConfig) (a : BulkAction) : Prop :=
  (ba_Op a = "index" ∧ json_wf (HeaderIndex (ba_Index a) (ba_ID a)) ∧ json_wf (ba_Doc a)) ∨
  (ba_Op a = "update" ∧ json_wf (HeaderUpdate (ba_Index a) (ba_ID a) (es_RetryOnConflict cfg)) ∧ json_wf (mkUpsert (ba_Doc a))) ∨
  (ba_Op a = "delete" ∧ json_wf (HeaderDelete (ba_Index a) (ba_ID a)) ∧ ba_Doc a = ∅).

Lemma append_line {A} `{!JSONCodec A} `{!JSONLaws A} `{!JSONLine A} (v : A) rest :
  json_wf v → ∃ data, json_Unmarshal data = Ok v ∧ body_lines (appendLine v ++ rest) = data :: body_lines rest.
Proof.
  intros Hv. destruct (json_roundtrip v Hv) as (data & Hm & Hu). exists data. split; [done|].
  unfold appendLine. rewrite Hm, <- app_assoc. unfold body_lines. apply split_body_app. by eapply json_one_line.
Qed.

Lemma parse_body cfg actions :
  Forall (good_action cfg) actions → parse_bulk (body_lines (BuildRequestBody cfg actions)) = Some actions.
Proof.
  induction 1 as [|a actions Ha _ IH]; [done|]. destruct a as [index id op doc]. cbn [BuildRequestBody] in *.
  change (BuildRequestBody cfg (mkBulkAction index id op doc :: actions)) with
    (action_lines cfg (mkBulkAction index id op doc) ++ BuildRequestBody cfg actions).
  destruct Ha as [(Hop & Hh & Hd)|[(Hop & Hh & Hd)|(Hop & Hh & Hd)]]; cbn in Hop, Hh, Hd; subst op; unfold action_lines; cbn [ba_Op ba_Index ba_ID ba_Doc].
  - rewrite bool_decide_eq_true_2 by done. rewrite <- app_assoc.
    destruct (append_line _ (appendLine doc ++ BuildRequestBody cfg actions) Hh) as (h & Hu & ->).
    destruct (append_line _ (BuildRequestBody cfg actions) Hd) as (d & Hud & ->). cbn [parse_bulk]. by rewrite Hu, Hud, IH.
  - rewrite bool_decide_eq_false_2, bool_decide_eq_true_2 by done. rewrite <- app_assoc.
    destruct (append_line _ (appendLine (mkUpsert doc) ++ BuildRequestBody cfg actions) Hh) as (h & Hu & ->).
    destruct (append_line _ (BuildRequestBody cfg actions) Hd) as (d & Hud & ->). cbn [parse_bulk]. by rewrite Hu, Hud, IH.
  - rewrite !bool_decide_eq_false_2, bool_decide_eq_true_2 by done. subst doc.
    destruct (append_line _ (BuildRequestBody cfg actions) Hh) as (h & Hu & ->). cbn [parse_bulk]. by rewrite Hu, IH.
Qed.

(** The body of a bulk request is read back as the actions it was built from, in their
    order, when JSON can express them. *)
Theorem es_body_roundtrip cfg actions :
  Forall (good_action cfg) actions → parse_bulk (body_lines (BuildRequestBody cfg actions)) = Some actions.
Proof. apply parse_body. Qed.
End Parse.

(** ** What Elasticsearch does *)

(** The operation of an action on the document of its index and identifier: [index]
    replaces a document, [update] merges the given fields into it or inserts them. *)
Definition action_op (a : BulkAction) : doc_op (I := string * string) :=
  if bool_decide (ba_Op a = "index") then Put true (ba_Index a, ba_ID a) (ba_Doc a)
  else if bool_decide (ba_Op a = "update") then Put false (ba_Index a, ba_ID a) (ba_Doc a)
  else Remove (ba_Index a, ba_ID a).

Definition es_put (insert : bool) (r : row) (o : option row) : option row :=
  if insert then Some r else Some (r ∪ default ∅ o).

(** An answer that says that every action was carried out. *)
Definition all_taken `{!JSONCodec BulkResponse} (ans : result es_response) : Prop :=
  ∃ res raw resp, ans = Ok res ∧ res_IsError res = false ∧ res_Body res = Ok raw ∧
    json_Unmarshal raw = Ok resp ∧ br_Errors resp = false.

(** A request carries out some of its actions, in their order on each document: all of
    them when the answer says so; when the request or its answer is lost, or documents
    are refused, any of them. *)
Class ESLaws (E : Type) `{!ESClient E} `{!JSONCodec bulk_header} `{!JSONCodec upsert_source}
    `{!JSONCodec (gmap string value)} `{!JSONCodec BulkResponse} := {
  es_docs : E → string * string → option row;
  bulk_law refresh body e e' ans actions :
    es_Bulk refresh body e = (e', ans) → parse_bulk (body_lines body) = Some actions →
    ∃ ops, ops `sublist_of` (action_op <$> actions) ∧ (∀ i, es_docs e' i = run_ops es_put ops (es_docs e) i) ∧
           (all_taken ans → ops = action_op <$> actions)
}.

(** ** The sink mirrors a table *)

Section Mirror.
Context (fmt_v : value → string).
Context `{!JSONCodec bulk_header} `{!JSONCodec upsert_source} `{!JSONCodec (gmap string value)} `{!JSONCodec BulkResponse}.
Context `{!JSONLaws bulk_header} `{!JSONLaws upsert_source} `{!JSONLaws (gmap string value)}.
Context `{!JSONLine bulk_header} `{!JSONLine upsert_source} `{!JSONLine (gmap string value)}.
Context {E : Type} `{!ESClient E} `{!ESLaws E}.
Context (cfg : ESConfig) (t : TableInfo) (columns : gset string).
Notation keys := (ti_PrimaryKeyColumns t).
Context (Hkeys : list_to_set keys ⊆ columns).
Context (done : nat → option goerror).

Definition es_ident (k : list value) : string * string := (ResolveIndex cfg t, join "_" (fmt_v <$> k)).

Lemma es_put_full b r (o : option row) :
  dom r = columns → (∀ v, o = Some v → full_doc id columns v) → es_put b r o = Some (id r).
Proof.
  intros Hr Ho. unfold es_put. destruct b; [done|]. f_equal. destruct o as [v|]; [|apply map_union_empty].
  destruct (Ho v eq_refl) as (r0 & -> & Hr0). apply union_same_dom. cbn. congruence.
Qed.

(** The action of an event is the operation of its change. *)
Lemma event_action e ch :
  table_event t columns e → change_of keys e = Some ch →
  ∃ a, MapEvent fmt_v cfg e = Some a ∧ change_op keys es_ident ch = Some (action_op a).
Proof.
  intros [Hd Ht Ha Hb] Hch. unfold MapEvent, GenerateDocID, change_of, IsDataEvent in *. rewrite Ht.
  destruct (ev_Type e); try done.
  - injection Hch as <-. destruct (key_of_total keys (row_values (ev_After e))) as [k Hk]; [by rewrite Ha|].
    eexists. split; [done|]. cbn [change_op]. rewrite Hk, (key_parts_key fmt_v _ _ _ Hk). done.
  - apply bind_Some in Hch as (k0 & _ & [= <-]).
    destruct (key_of_total keys (row_values (ev_After e))) as [k Hk]; [by rewrite Ha|].
    eexists. split; [done|]. cbn [change_op]. rewrite Hk, (key_parts_key fmt_v _ _ _ Hk). done.
  - apply bind_Some in Hch as (k0 & Hk0 & [= <-]). eexists. split; [done|]. cbn [change_op].
    by rewrite (key_parts_key fmt_v _ _ _ Hk0).
Qed.

Lemma batch_actions events chs :
  Forall (table_event t columns) events → mapM (change_of keys) events = Some chs →
  mapM (change_op keys es_ident) chs = Some (action_op <$> omap (MapEvent fmt_v cfg) events) ∧
  length (omap (MapEvent fmt_v cfg) events) = length events.
Proof.
  intros He. revert chs. induction He as [|e events He _ IH]; intros chs Hm; [by injection Hm as <-|].
  cbn [mapM] in Hm. apply bind_Some in Hm as (ch & Hch & (chs' & Hchs & [= <-])%bind_Some).
  destruct (event_action e ch He Hch) as (a & Ha & Hop). destruct (IH chs' Hchs) as [Hops Hlen].
  cbn. rewrite Ha, Hop. cbn. rewrite Hops. cbn. by rewrite Hlen.
Qed.

(** After a number of requests that failed one was accepted, but its answer does not say that
    every action was carried out: the server refused documents, or the answer cannot be
    parsed. *)
Definition accepted_partly (body : list Byte.byte) (e e' : E) : Prop :=
  ∃ n res, all_fail (sendBulk cfg body) n e ∧
    es_Bulk (es_RefreshPolicy cfg) body (calls (sendBulk cfg body) n e) = (e', Ok res) ∧
    res_IsError res = false ∧ ¬ all_taken (Ok res).

Lemma accepted_partly_S body e e1 err e' :
  sendBulk cfg body e = (e1, Err err) → accepted_partly body e1 e' → accepted_partly body e e'.
Proof.
  intros E0 (n & res & Hf & Hb & Hr). exists (S n), res. split; [by eapply all_fail_S|]. cbn [calls]. by rewrite E0.
Qed.

Lemma taken_dec res : {all_taken (Ok res)} + {¬ all_taken (Ok res)}.
Proof.
  destruct (res_IsError res) eqn:Ei; [right; intros (r & ? & ? & [= <-] & ? & _); congruence|].
  destruct (res_Body res) as [raw|] eqn:Er; [|right; intros (r & ? & ? & [= <-] & _ & ? & _); congruence].
  destruct (json_Unmarshal raw) as [resp|] eqn:Eu; [|right; intros (r & ? & ? & [= <-] & _ & ? & ? & _); congruence].
  destruct (br_Errors resp) eqn:Ee; [right; intros (r & ? & ? & [= <-] & _ & ? & ? & ?); congruence|].
  left. by exists res, raw, resp.
Qed.

(** Requests that fail do no harm: however many were made before one succeeds with all its
    actions carried out, the documents are those of the actions carried out once. *)
Lemma bulk_retries (P : string * string → Prop) body actions rounds : ∀ attempt wait last e e' waits,
  parse_bulk (body_lines body) = Some actions →
  full_docs id columns P (es_docs e) → Forall (full_op columns P) (action_op <$> actions) →
  with_retry (sendBulk cfg body) done "bulk request failed after 5 retries" rounds attempt wait last e = (e', waits, Ok tt) →
  accepted_partly body e e' ∨ ∀ i, es_docs e' i = run_ops es_put (action_op <$> actions) (es_docs e) i.
Proof.
  induction rounds as [|rounds IH]; intros attempt wait last e e' waits Hp Hfull Hops; cbn [with_retry]; [done|].
  assert (Htry : ∀ wait' ws, (match sendBulk cfg body e with
     | (e1, Ok _) => (e1, ws, Ok tt)
     | (e1, Err err) => let '(e'', ws', r) := with_retry (sendBulk cfg body) done "bulk request failed after 5 retries"
                            rounds (S attempt) wait' err e1 in (e'', ws ++ ws', r)
     end) = (e', waits, Ok tt) → accepted_partly body e e' ∨ ∀ i, es_docs e' i = run_ops es_put (action_op <$> actions) (es_docs e) i).
  { intros wait' ws. destruct (sendBulk cfg body e) as [e1 r1] eqn:Esend. pose proof Esend as Er1. unfold sendBulk in Er1.
    destruct (es_Bulk _ body e) as [e2 ans] eqn:Eb. assert (e2 = e1) as -> by (destruct ans; congruence).
    destruct (bulk_law _ _ _ _ _ _ Eb Hp) as (ops & Hsub & Hdocs & Hall).
    destruct (run_ops_again es_put id columns P es_put_full _ _ (es_docs e) Hsub Hfull Hops) as [Hf1 Hagain].
    assert (Hfail : ∀ err, r1 = Err err → (let '(e'', ws', r) := with_retry (sendBulk cfg body) done "bulk request failed after 5 retries"
        rounds (S attempt) wait' err e1 in (e'', ws ++ ws', r)) = (e', waits, Ok tt) →
      accepted_partly body e e' ∨ ∀ i, es_docs e' i = run_ops es_put (action_op <$> actions) (es_docs e) i).
    { intros err ->. destruct (with_retry _ _ _ _ _ _ _ e1) as [[e2 ws2] r2] eqn:Er. intros [= <- <- ->].
      assert (Hf2 : full_docs id columns P (es_docs e1)) by (intros j v Hj; rewrite Hdocs; by apply Hf1).
      destruct (IH _ _ _ _ _ _ Hp Hf2 Hops Er) as [Hpart|Hdone]; [left; by eapply accepted_partly_S|right]. intros i. rewrite Hdone.
      rewrite <- Hagain. apply run_ops_proper; [done|]. exact Hdocs. }
    destruct r1 as [[]|err]; [|by apply Hfail]. intros [= <- <-]. destruct ans as [res|err]; [|done].
    destruct (res_IsError res) eqn:Ei; [done|].
    destruct (taken_dec res) as [Ht|Ht]; [right; intros i; by rewrite Hdocs, Hall|left]. exists O, res. by split; [intros m Hm; lia|]. }
  destruct attempt; [apply Htry|]. destruct (done (S attempt)); [done|apply Htry].
Qed.

Context (K : list value → Prop) (id_inj : ∀ k k', K k → K k' → es_ident k = es_ident k' → k = k').

End Mirror.

(** ** Runs *)

Module ElasticRuns.
Import DocRuns.

(** A codec for documents of texts and 64-bit numbers. *)
Definition simple (v : value) : option (string + Z) :=
  match v with VString s => Some (inl s) | VInt64 z => Some (inr z) | _ => None end.
Definition from_simple (x : string + Z) : value := match x with inl s => VString s | inr z => VInt64 z end.

Definition simple_fields (doc : gmap string value) : option (list (string * (string + Z))) :=
  mapM (λ '(n, v), pair n <$> simple v) (map_to_list doc).

#[local] Instance doc_codec : JSONCodec (gmap string value) := {|
  json_Marshal doc :=
    match simple_fields doc with
    | Some l => Ok (pos_bytes (encode l))
    | None => Err (ErrNew "json: unsupported value")
    end;
  json_Unmarshal data :=
    match bytes_pos data ≫= decode with
    | Some l => Ok (list_to_map ((λ '(n, x), (n, from_simple x)) <$> (l : list (string * (string + Z)))))
    | None => Err (ErrNew "invalid character")
    end
|}.

#[local] Program Instance doc_laws : JSONLaws (gmap string value) :=
  { json_wf doc := is_Some (simple_fields doc) }.
Next Obligation.
  intros doc [l Hl]. exists (pos_bytes (encode l)). cbn. rewrite Hl. split; [done|].
  rewrite bytes_pos_bytes. cbn. rewrite decode_encode. f_equal.
  assert (E : (λ '(n, x), (n, from_simple x)) <$> l = map_to_list doc).
  { apply mapM_Some in Hl. induction Hl as [|[n v] y l' l Hy _ IH]; [done|]. cbn. rewrite IH. f_equal.
    apply fmap_Some in Hy as (x & Hx & ->). destruct v; by simplify_eq/=. }
  rewrite E. apply list_to_map_to_list.
Qed.

Lemma pos_bytes_one_line p : newline ∉ pos_bytes p.
Proof. induction p as [p IH|p IH|]; cbn; rewrite not_elem_of_cons; (split; [done|]); [done..|]. apply not_elem_of_nil. Qed.

#[local] Program Instance doc_line : JSONLine (gmap string value).
Next Obligation. intros doc data. cbn. destruct (simple_fields doc); [|done]. intros [= <-]. apply pos_bytes_one_line. Qed.

#[local] Instance source_codec : JSONCodec upsert_source := {|
  json_Marshal u := json_Marshal (us_doc u);
  json_Unmarshal data := match json_Unmarshal data with Ok doc => Ok (mkUpsert doc) | Err e => Err e end
|}.
#[local] Program Instance source_laws : JSONLaws upsert_source := { json_wf u := json_wf (us_doc u) }.
Next Obligation. intros [doc] H. destruct (json_roundtrip doc H) as (data & Hm & Hu). exists data. cbn in *. by rewrite Hu. Qed.
#[local] Program Instance source_line : JSONLine upsert_source.
Next Obligation. intros [doc] data. apply (json_one_line doc). Qed.

Definition header_tuple (h : bulk_header) : Z * string * string * Z :=
  match h with HeaderIndex i d => (0, i, d, 0) | HeaderUpdate i d n => (1, i, d, n) | HeaderDelete i d => (2, i, d, 0) end.
Definition tuple_header (x : Z * string * string * Z) : bulk_header :=
  let '(k, i, d, n) := x in if k =? 0 then HeaderIndex i d else if k =? 1 then HeaderUpdate i d n else HeaderDelete i d.

#[local] Instance header_codec : JSONCodec bulk_header := {|
  json_Marshal h := Ok (pos_bytes (encode (header_tuple h)));
  json_Unmarshal data := match bytes_pos data ≫= decode with Some x => Ok (tuple_header x) | None => Err (ErrNew "invalid character") end
|}.
#[local] Program Instance header_laws : JSONLaws bulk_header := { json_wf _ := True }.
Next Obligation.
  intros h _. eexists. split; [done|]. cbn. rewrite bytes_pos_bytes. cbn. rewrite decode_encode. by destruct h.
Qed.
#[local] Program Instance header_line : JSONLine bulk_header.
Next Obligation. intros h data [= <-]. apply pos_bytes_one_line. Qed.

#[local] Instance answer_codec : JSONCodec BulkResponse := {|
  json_Marshal r := Ok (if br_Errors r then [Byte.x01] else []);
  json_Unmarshal data := Ok (mkBulkResponse (bool_decide (data = [Byte.x01])))
|}.

(** A cluster as the operations it has carried out, and what becomes of the next requests:
    their answer gets lost, or their documents are refused. *)
Inductive fate := AnswerLost | DocsRefused.
Definition cluster : Type := list fate * list (doc_op (I := string * string)).

#[local] Instance cluster_client : ESClient cluster := {|
  es_NewClient _ := Ok ([], []);
  es_Info e := (e, Ok (mkESResponse false "200 OK" (Ok [])));
  es_Bulk _ body e :=
    let carried_out := (tail e.1, e.2 ++ from_option (λ actions, action_op <$> actions) [] (parse_bulk (body_lines body))) in
    match head e.1 with
    | Some AnswerLost => (carried_out, Err (ErrNew "connection reset"))
    | Some DocsRefused => ((tail e.1, e.2), Ok (mkESResponse false "200 OK" (Ok [Byte.x01])))
    | None => (carried_out, Ok (mkESResponse false "200 OK" (Ok [])))
    end
|}.

#[local] Program Instance cluster_laws : ESLaws cluster := { es_docs e := run_ops es_put e.2 (λ _, None) }.
Next Obligation.
  intros refresh body e e' ans actions Hb Hp. cbn in Hb. rewrite Hp in Hb. cbn [from_option] in Hb.
  destruct (head e.1) as [[]|]; injection Hb as <- <-; cbn [snd].
  1, 3: exists (action_op <$> actions); split; [done|]; split; [|done]; intros i; by rewrite run_ops_app.
  exists []. split; [apply sublist_nil_l|]. split; [done|]. intros (? & ? & ? & [= <-] & _ & [= <-] & [= <-] & ?). discriminate.
Qed.

Definition cfg : ESConfig := mkESConfig ["http://es:9200"] "" "" "" "cdc_" "{database}_{table}" 1000 1000000000 "false" 3.

(** The answer to the first request gets lost. *)
Definition sink : ESSink (E := cluster) := mkDocSink (Some cfg) (Some ([AnswerLost], [])) (mkSinkStatus StateReady 0 0 0) None.
Definition never (n : nat) : option goerror := None.

Lemma es_ids_distinct k k' : ids k → ids k' → es_ident print cfg users k = es_ident print cfg users k' → k = k'.
Proof. intros [->| ->] [->| ->] H; try done; vm_compute in H; discriminate. Qed.

Lemma actions_good : Forall (good_action cfg) (omap (MapEvent print cfg) events).
Proof.
  repeat apply Forall_cons_2; [..|apply Forall_nil_2].
  - left. split; [done|]. split; [exact I|]. vm_compute. by eexists.
  - left. split; [done|]. split; [exact I|]. vm_compute. by eexists.
  - right; left. split; [done|]. split; [exact I|]. vm_compute. by eexists.
  - right; right. split; [done|]. split; [exact I|]. reflexivity.
Qed.


(** Documents that are refused count as written. *)
Example refused_documents_written :
  let s' := es_Write print never events (mkDocSink (Some cfg) (Some ([DocsRefused], [])) (mkSinkStatus StateReady 0 0 0) None) in
  (s'.2, snd <$> ds_client s'.1, ss_EventsWritten (ds_status s'.1)) = (Ok tt, Some [], 4).
Proof. vm_compute. reflexivity. Qed.

Lemma es_body_roundtrip_witness :
  parse_bulk (body_lines (BuildRequestBody cfg (omap (MapEvent print cfg) events))) = Some (omap (MapEvent print cfg) events).
Proof. exact (es_body_roundtrip cfg _ actions_good). Defined.

Lemma es_retries_bounded_witness :
  ∃ e' waits, sendBulkWithRetry cfg never [] ([AnswerLost; AnswerLost], []) = (e', waits, Ok tt) ∧ waits = [500000000; 1000000000].
Proof.
  assert (Er : sendBulkWithRetry cfg never [] ([AnswerLost; AnswerLost], []) = (([], []), [500000000; 1000000000], Ok tt)) by reflexivity.
  destruct (es_retries_bounded cfg never [] ([AnswerLost; AnswerLost], []) _ _ _ Er) as (n & Hn & _ & Hw & _).
  eexists _, _. split; [exact Er|reflexivity].
Defined.

(** A document JSON cannot express loses its line, and the next action is taken for the
    document of the one before. *)
Example lost_line_shifts :
  let bad := mkBulkAction "i" "1" "index" {["score" := VFloat64 SpecFloat.S754_nan]} in
  let good := mkBulkAction "i" "2" "delete" ∅ in
  BuildRequestBody cfg [bad; good] = appendLine (HeaderIndex "i" "1") ++ appendLine (HeaderDelete "i" "2").
Proof. vm_compute. reflexivity. Qed.

(** Rows whose keys differ only in how the underscores fall share a document, and names
    that differ only in case share an index. *)
Example shared_documents :
  es_ident print cfg users [VString "a_b"; VString "c"] = es_ident print cfg users [VString "a"; VString "b_c"] ∧
  ResolveIndex cfg (mkTableInfo "Shop" "" "USERS" [] [] []) = ResolveIndex cfg users.
Proof. vm_compute. done. Qed.
End ElasticRuns.
