(* ===== verification/MongoSink.v ===== *)
(** The MongoDB sink (internal/sink/mongodb): its configuration, the write model of an
    event, and [Write], which groups a batch by collection and sends one bulk write for
    each.

    The driver is a parameter: [MongoClient] is the part of it the sink calls, and
    [MongoLaws] what MongoDB documents of bulk writes. *)
From Stdlib Require Import ZArith Lia Ascii.
From Stdlib Require String Strings.Byte SpecFloat.
From stdpp Require Import prelude countable gmap strings list fin_maps pretty.
From S2P Require Import Prelude Events Strings TableLifecycle BinlogConsumer SQLSink DocumentSinks.
Local Open Scope Z_scope.

(** ** config.go *)

(** The settings that are read; certificates, retries and the name of the identifier
    are not. *)
Record MongoConfig := mkMongoConfig {
  mo_Hosts : list string;
  mo_User : string;
  mo_Password : string;
  mo_Database : string;
  mo_ReplicaSet : string;
  mo_AuthSource : string;
  mo_AuthMechanism : string;
  mo_SSLMode : bool;
  mo_MaxConnections : Z;
  mo_MaxIdle : Z;
  mo_ConnectTimeout : Z;
  mo_SocketTimeout : Z;
  mo_ServerSelection : Z;
  mo_WriteStrategy : string;
  mo_WriteConcern : string;
  mo_Ordered : bool;
  mo_BatchSize : Z;
  mo_DDLPolicy : string;
  mo_Batch : BatchConfig
}.

Definition mongo_DefaultConfig : MongoConfig :=
  mkMongoConfig ["localhost:27017"] "" "" "" "" "admin" "SCRAM-SHA-256" false 10 2 30 0 0
    "upsert" "majority" false 1000 "ignore" (mkBatchConfig 1000 5000 3 0).

Definition mongo_Validate (c : MongoConfig) : result unit :=
  match mo_Hosts c with
  | [] => Err (ErrNew "at least one host is required")
  | _ =>
      if bool_decide (mo_Database c = "") then Err (ErrNew "database name is required")
      else if negb (bool_decide (mo_WriteStrategy c ∈ ["insert"; "replace"; "update"; "upsert"]))
      then Err (ErrNew ("invalid write strategy: " +:+ mo_WriteStrategy c))
      else if negb (bool_decide (mo_DDLPolicy c ∈ ["ignore"; "error"]))
      then Err (ErrNew ("invalid DDL policy: " +:+ mo_DDLPolicy c))
      else Ok tt
  end.

(** [fmt.Sprintf("name=%d", z)] when the setting is positive. *)
Definition positive_option (name : string) (z shown : Z) : list string :=
  if 0 <? z then [name +:+ "=" +:+ pretty (i64 shown)] else [].
Definition text_option (name s : string) : list string :=
  if bool_decide (s ≠ "") then [name +:+ "=" +:+ s] else [].

Definition mongo_options (c : MongoConfig) : list string :=
  text_option "replicaSet" (mo_ReplicaSet c) ++ text_option "authSource" (mo_AuthSource c) ++
  text_option "authMechanism" (mo_AuthMechanism c) ++ (if mo_SSLMode c then ["tls=true"] else []) ++
  positive_option "connectTimeoutMS" (mo_ConnectTimeout c) (mo_ConnectTimeout c * 1000) ++
  positive_option "serverSelectionTimeoutMS" (mo_ServerSelection c) (mo_ServerSelection c * 1000) ++
  positive_option "socketTimeoutMS" (mo_SocketTimeout c) (mo_SocketTimeout c * 1000) ++
  positive_option "maxPoolSize" (mo_MaxConnections c) (mo_MaxConnections c) ++
  positive_option "minPoolSize" (mo_MaxIdle c) (mo_MaxIdle c).

Definition ConnectionString (c : MongoConfig) : string :=
  (if bool_decide (mo_User c ≠ "") && bool_decide (mo_Password c ≠ "")
   then "mongodb://" +:+ mo_User c +:+ ":" +:+ mo_Password c +:+ "@" else "mongodb://") +:+
  join "," (mo_Hosts c) +:+ "/" +:+ mo_Database c +:+
  match mongo_options c with [] => "" | options => "?" +:+ join "&" options end.

(** [net.JoinHostPort] *)
Definition JoinHostPort (host port : string) : string :=
  if has_char ":" host then "[" +:+ host +:+ "]:" +:+ port else host +:+ ":" +:+ port.

Definition mongo_parseConfig (config : sink_Config) : MongoConfig :=
  let cfg := mongo_DefaultConfig in
  let conn := sf_Connection config in
  let hosts := if bool_decide (cc_Host conn ≠ "") then [cc_Host conn] else mo_Hosts cfg in
  let hosts := if 0 <? cc_Port conn then
                 match hosts with [] => [] | _ :: rest => JoinHostPort (cc_Host conn) (pretty (cc_Port conn)) :: rest end
               else hosts in
  mkMongoConfig
    (default hosts (prop_strings config "hosts"))
    (cc_User conn) (cc_Password conn) (cc_Database conn)
    (default (mo_ReplicaSet cfg) (prop_string config "replicaSet"))
    (default (mo_AuthSource cfg) (prop_string config "authSource"))
    (mo_AuthMechanism cfg)
    (default (mo_SSLMode cfg) (prop_bool config "sslMode"))
    (mo_MaxConnections cfg) (mo_MaxIdle cfg) (mo_ConnectTimeout cfg) (mo_SocketTimeout cfg) (mo_ServerSelection cfg)
    (default (mo_WriteStrategy cfg) (prop_string config "writeStrategy"))
    (default (mo_WriteConcern cfg) (prop_string config "writeConcern"))
    (default (mo_Ordered cfg) (prop_bool config "ordered"))
    (default (mo_BatchSize cfg) (prop_number config "batchSize"))
    (default (mo_DDLPolicy cfg) (prop_string config "ddlPolicy"))
    (sf_Batch config).

(** ** Documents *)

(** A value of a document. *)
Inductive bson :=
  | BNil
  | BPlain (v : value)
  | BBinary (b : list Byte.byte)
  | BDateTime (ms : Z)
  | BObjectID (hex : string).

#[export] Instance bson_eq_dec : EqDecision bson.
Proof. solve_decision. Defined.

Definition convertFieldToBSON (v : value) : bson :=
  match v with
  | VNil => BNil
  | VBytes b => BBinary b
  | VTime t => BDateTime (UnixMilli t)
  | _ => BPlain v
  end.

Definition buildDocument (row : RowData) : gmap string bson := convertFieldToBSON <$> row_document row.

Definition is_hex (c : ascii) : bool :=
  is_digit c || bool_decide (97 <= Z.of_N (N_of_ascii (lower_char c)) <= 102).

(** [primitive.ObjectIDFromHex]: 24 hexadecimal digits. *)
Definition ObjectIDFromHex (s : string) : option bson :=
  if bool_decide (String.length s = 24%nat) && forallb is_hex (String.list_ascii_of_string s)
  then Some (BObjectID (strings_ToLower s)) else None.

(** The identifier of an event's document; [fresh] is what [primitive.NewObjectID] would
    return. *)
Definition getDocumentID (fresh : string) (e : ChangeEvent) : bson :=
  match ev_Metadata e ≫= lookup "_id" with
  | Some idStr => default (BPlain (VString idStr)) (ObjectIDFromHex idStr)
  | None =>
      match RowData_GetField (Some (ev_After e)) "_id" with
      | Some f => convertFieldToBSON (f_Value f)
      | None =>
          match head (ti_PrimaryKeyColumns (ev_Table e)) ≫= RowData_GetField (Some (ev_After e)) with
          | Some f => convertFieldToBSON (f_Value f)
          | None => BObjectID fresh
          end
      end
  end.

Inductive WriteModel :=
  | InsertOne (doc : gmap string bson)
  | ReplaceOne (id : bson) (doc : gmap string bson)            (* upsert *)
  | UpdateOne (id : bson) (set : gmap string bson) (upsert : bool)
  | DeleteOne (id : bson).

Definition buildInsertModel (cfg : MongoConfig) (fresh : string) (e : ChangeEvent) : WriteModel :=
  let doc := buildDocument (ev_After e) in
  if bool_decide (mo_WriteStrategy cfg = "insert") then InsertOne doc
  else if bool_decide (mo_WriteStrategy cfg = "replace") then ReplaceOne (getDocumentID fresh e) doc
  else if bool_decide (mo_WriteStrategy cfg = "upsert") then UpdateOne (getDocumentID fresh e) doc true
  else InsertOne doc.

Definition buildUpdateModel (fresh : string) (e : ChangeEvent) : WriteModel :=
  UpdateOne (getDocumentID fresh e) (buildDocument (ev_After e)) false.

Definition buildDeleteModel (fresh : string) (e : ChangeEvent) : WriteModel := DeleteOne (getDocumentID fresh e).

Definition buildWriteModel (cfg : MongoConfig) (fresh : string) (e : ChangeEvent) : option WriteModel :=
  match ev_Type e with
  | EventTypeInsert => Some (buildInsertModel cfg fresh e)
  | EventTypeUpdate => Some (buildUpdateModel fresh e)
  | EventTypeDelete => Some (buildDeleteModel fresh e)
  | _ => None
  end.

(** ** The connector *)

Class MongoClient (D : Type) := {
  mongo_Connect : string → result D;                 (* Connect and Ping *)
  mongo_Disconnect : D → D;
  mongo_BulkWrite : string → list WriteModel → bool → D → D * result unit     (* collection, models, ordered *)
}.

(** [collectionEvents[coll] = append(collectionEvents[coll], e)] *)
Definition group_event (m : gmap string (list ChangeEvent)) (e : ChangeEvent) : gmap string (list ChangeEvent) :=
  let coll := ti_Table (ev_Table e) in <[coll := default [] (m !! coll) ++ [e]]> m.

Definition collectionEvents (events : list ChangeEvent) : gmap string (list ChangeEvent) := foldl group_event ∅ events.

Section Connector.
Context {D : Type} `{!MongoClient D} `{!GoRange string (list ChangeEvent)}.

(** The identifiers [primitive.NewObjectID] returns, by the event that asks for one. *)
Context (fresh : ChangeEvent → string).

Definition MongoSink : Type := DocSink MongoConfig D.

Definition mongo_Initialize (config : sink_Config) : ST MongoSink unit := λ s,
  let cfg := mongo_parseConfig config in
  match mongo_Validate cfg with
  | Err e => (s, Err e)
  | Ok _ =>
      let s := mkDocSink (Some cfg) (ds_client s) (ds_status s) (ds_position s) in
      match mongo_Connect (ConnectionString cfg) with
      | Err e => (s, Err (ErrWrapf "failed to connect to MongoDB" e))
      | Ok d => (set_state StateReady (set_client (Some d) s), Ok tt)
      end
  end.

Definition mongo_Start : ST MongoSink unit := λ s,
  if bool_decide (ss_State (ds_status s) = StateWriting) then (s, Ok tt)
  else match ds_client s with
       | None => (s, Err ErrNotInitialized)
       | Some _ => (set_state StateReady s, Ok tt)
       end.

Definition mongo_Stop : ST MongoSink unit := λ s,
  (set_client (mongo_Disconnect <$> ds_client s) (set_state StateStopped s), Ok tt).

Definition mongo_handleDDL (cfg : MongoConfig) : result unit :=
  if bool_decide (mo_DDLPolicy cfg = "error") then Err ErrDDLNotSupported else Ok tt.

(** The models of a collection's events. *)
Fixpoint write_models (cfg : MongoConfig) (events : list ChangeEvent) : result (list WriteModel) :=
  match events with
  | [] => Ok []
  | e :: events =>
      if IsDDL e then _ ← mongo_handleDDL cfg; write_models cfg events
      else models ← write_models cfg events;
           Ok (match buildWriteModel cfg (fresh e) e with Some m => m :: models | None => models end)
  end.

Definition writeToCollection (collection : string) (events : list ChangeEvent) : ST MongoSink unit := λ s,
  match ds_config s, ds_client s with
  | Some cfg, Some d =>
      match write_models cfg events with
      | Err e => (s, Err e)
      | Ok [] => (s, Ok tt)
      | Ok models =>
          match mongo_BulkWrite collection models (mo_Ordered cfg) d with
          | (d', Err e) => (set_client (Some d') s, Err (ErrWrapf ("failed to write to collection " +:+ collection) e))
          | (d', Ok _) => (set_client (Some d') s, Ok tt)
          end
      end
  | _, _ => (s, Err (Panic "nil pointer dereference"))
  end.

(** The loop over the collections, in the order of the map. *)
Fixpoint write_collections (groups : list (string * list ChangeEvent)) : ST MongoSink unit := λ s,
  match groups with
  | [] => (s, Ok tt)
  | (coll, events) :: groups =>
      match writeToCollection coll events s with
      | (s, Err (Panic p)) => (s, Err (Panic p))
      | (s, Err e) => (add_failed (zlen events) s, Err e)
      | (s, Ok _) => write_collections groups (add_written (zlen events) 0 s)
      end
  end.

Definition mongo_Write (events : list ChangeEvent) : ST MongoSink unit := λ s,
  let '(s', r) := write_collections (go_range (collectionEvents events)) (set_state StateWriting s) in
  (set_state StateReady (match r with Ok _ => set_last_position events s' | Err _ => s' end), r).
End Connector.

(** ** What MongoDB does *)

(** The documents of a collection by identifier, without the identifier. *)
Notation collection := (documents (I := bson) (V := gmap string bson)).

(** A model on the documents of its collection; an insert chooses its own identifier and
    is left out. *)
Definition run_model (m : collection) (w : WriteModel) : option collection :=
  match w with
  | InsertOne _ => None
  | ReplaceOne id doc => Some (λ i, if decide (i = id) then Some doc else m i)
  | UpdateOne id set upsert => Some (λ i,
      if decide (i = id) then
        match m i with Some d => Some (set ∪ d) | None => if upsert then Some set else None end
      else m i)
  | DeleteOne id => Some (λ i, if decide (i = id) then None else m i)
  end.

Fixpoint run_models (ws : list WriteModel) (m : collection) : option collection :=
  match ws with [] => Some m | w :: ws => run_model m w ≫= run_models ws end.

(** An ordered bulk write without an error has run its models in order, an unordered one
    in some order, on a database that nobody else writes to. *)
Class MongoLaws (D : Type) `{!MongoClient D} := {
  docs_of : D → string → collection;
  ordered_law coll ws d d' m : mongo_BulkWrite coll ws true d = (d', Ok tt) →
    run_models ws (docs_of d coll) = Some m → ∀ i, docs_of d' coll i = m i;
  unordered_law coll ws d d' m : mongo_BulkWrite coll ws false d = (d', Ok tt) →
    run_models ws (docs_of d coll) = Some m →
    ∃ ws' m', ws' ≡ₚ ws ∧ run_models ws' (docs_of d coll) = Some m' ∧ ∀ i, docs_of d' coll i = m' i;
  other_law coll ws ordered d d' r : mongo_BulkWrite coll ws ordered d = (d', r) →
    ∀ coll', coll' ≠ coll → docs_of d' coll' = docs_of d coll'
}.

(** *** Grouping *)

Section Groups.
Context `{!GoRange string (list ChangeEvent)}.

Lemma group_lookup events coll :
  default [] (collectionEvents events !! coll) = filter (λ e, ti_Table (ev_Table e) = coll) events.
Proof.
  unfold collectionEvents. induction events as [|e events IH] using rev_ind; [cbn [foldl]; by rewrite lookup_empty|].
  rewrite foldl_app, filter_app. cbn [foldl]. unfold group_event at 1. rewrite <- IH.
  rewrite filter_cons, filter_nil. destruct (decide (ti_Table (ev_Table e) = coll)) as [<-|Hne].
  - by rewrite lookup_insert_eq.
  - by rewrite lookup_insert_ne, app_nil_r.
Qed.

Lemma group_nonempty events coll l : collectionEvents events !! coll = Some l → l ≠ [].
Proof.
  unfold collectionEvents. induction events as [|e events IH] using rev_ind; [cbn [foldl]; by rewrite lookup_empty|].
  rewrite foldl_app. cbn [foldl]. unfold group_event at 1. destruct (decide (ti_Table (ev_Table e) = coll)) as [<-|Hne].
  - rewrite lookup_insert_eq. intros [= <-]. by destruct (default [] _).
  - by rewrite lookup_insert_ne.
Qed.

(** A batch is split into one group for each collection, with the events of the
    collection in their order. *)
Lemma groups_spec events coll l :
  (coll, l) ∈ go_range (collectionEvents events) ↔
  l = filter (λ e, ti_Table (ev_Table e) = coll) events ∧ l ≠ [].
Proof.
  rewrite go_range_lookup, <- group_lookup. split.
  - intros H. rewrite H. split; [done|by eapply group_nonempty].
  - intros [-> H]. by destruct (collectionEvents events !! coll).
Qed.
End Groups.

(** ** The sink mirrors a table *)

Section Mirror.
Context {D : Type} `{!MongoClient D} `{!MongoLaws D} `{!GoRange string (list ChangeEvent)}.
Context (fresh : ChangeEvent → string).
Context (cfg : MongoConfig) (t : TableInfo) (columns : gset string).
Notation keys := (ti_PrimaryKeyColumns t).
Context (Hkeys : list_to_set keys ⊆ columns) (Hne : keys ≠ []) (Hid : "_id" ∉ columns).
Context (Hordered : mo_Ordered cfg = true) (Hstrategy : mo_WriteStrategy cfg ∈ ["replace"; "upsert"]).

Definition mongo_enc (r : row) : gmap string bson := convertFieldToBSON <$> r.

(** The identifier of a row: the first column of its key. *)
Definition mongo_ident (k : list value) : bson := from_option convertFieldToBSON BNil (head k).

Definition mongo_put (insert : bool) (r : row) (o : option (gmap string bson)) : option (gmap string bson) :=
  if insert then
    if bool_decide (mo_WriteStrategy cfg = "replace") then Some (mongo_enc r)
    else match o with Some d => Some (mongo_enc r ∪ d) | None => Some (mongo_enc r) end
  else (λ d, mongo_enc r ∪ d) <$> o.

(** An insert or update of the table, from a source that names no document. *)
Record mongo_event (e : ChangeEvent) : Prop := {
  me_event : table_event t columns e;
  me_type : ev_Type e ≠ EventTypeDelete;
  me_metadata : ev_Metadata e ≫= lookup "_id" = None
}.

Lemma mongo_enc_union r r0 : dom r = dom r0 → mongo_enc r ∪ mongo_enc r0 = mongo_enc r.
Proof.
  intros Hd. apply map_eq. intros c. rewrite lookup_union. unfold mongo_enc. rewrite !lookup_fmap.
  destruct (r !! c) eqn:Er, (r0 !! c) eqn:Er0; try done.
  exfalso. apply not_elem_of_dom in Er. apply elem_of_dom_2 in Er0. congruence.
Qed.

Lemma document_id f e k :
  mongo_event e → key_of keys (row_values (ev_After e)) = Some k → getDocumentID f e = mongo_ident k.
Proof.
  intros [[_ Ht Ha _] Hdel Hmeta] Hk. unfold getDocumentID. rewrite Hmeta.
  assert (Hnone : RowData_GetField (Some (ev_After e)) "_id" = None).
  { apply (fmap_None f_Value). rewrite <- row_values_lookup. apply not_elem_of_dom. by rewrite Ha. }
  rewrite Hnone, Ht. destruct keys as [|c cs] eqn:Ek; [done|]. cbn [head mbind option_bind].
  unfold key_of in Hk. cbn [mapM] in Hk. apply bind_Some in Hk as (v & Hv & (vs & _ & [= <-])%bind_Some).
  rewrite row_values_lookup in Hv. apply fmap_Some in Hv as (fl & Hf & ->). by rewrite Hf.
Qed.

(** The model of an event has the effect of its change. *)
Lemma event_model e ch :
  mongo_event e → change_of keys e = Some ch →
  ∃ w op, buildWriteModel cfg (fresh e) e = Some w ∧ change_op keys mongo_ident ch = Some op ∧
    ∀ m, ∃ m', run_model m w = Some m' ∧ ∀ i, m' i = run_op mongo_put m op i.
Proof.
  intros He Hch. pose proof He as [[Hd Ht Ha Hb] Hdel _].
  destruct (key_of_total keys (row_values (ev_After e))) as [k Hk]; [by rewrite Ha|].
  pose proof (document_id (fresh e) e k He Hk) as Hdoc.
  unfold buildWriteModel, change_of, IsDataEvent in *. destruct (ev_Type e); try done.
  - injection Hch as <-. do 2 eexists. split; [done|]. cbn [change_op]. rewrite Hk. split; [done|]. intros m.
    unfold buildInsertModel. rewrite bool_decide_eq_false_2 by (intros E; rewrite E in Hstrategy; set_solver).
    unfold run_op, mongo_put. clear Hd. case_bool_decide as Er; [|rewrite bool_decide_eq_true_2 by set_solver];
      rewrite Hdoc; eexists; (split; [reflexivity|]); intros i; cbn [op_id]; case_decide; done.
  - apply bind_Some in Hch as (k0 & _ & [= <-]). do 2 eexists. split; [done|]. cbn [change_op]. rewrite Hk. split; [done|].
    intros m. unfold buildUpdateModel. rewrite Hdoc. eexists. split; [reflexivity|]. intros i. unfold run_op, mongo_put.
    cbn [op_id]. case_decide; [|done]. by destruct (m i).
Qed.

Lemma batch_models events chs :
  Forall mongo_event events → mapM (change_of keys) events = Some chs →
  ∃ ws ops, write_models fresh cfg events = Ok ws ∧ length ws = length events ∧
    mapM (change_op keys mongo_ident) chs = Some ops ∧
    ∀ m, ∃ m', run_models ws m = Some m' ∧ ∀ i, m' i = run_ops mongo_put ops m i.
Proof.
  intros He. revert chs. induction He as [|e events He _ IH]; intros chs Hm.
  { injection Hm as <-. exists [], []. split_and!; [done..|]. intros m. by exists m. }
  cbn [mapM] in Hm. apply bind_Some in Hm as (ch & Hch & (chs' & Hchs & [= <-])%bind_Some).
  destruct (event_model e ch He Hch) as (w & op & Hw & Hop & Hrun).
  destruct (IH chs' Hchs) as (ws & ops & Hws & Hlen & Hops & Hruns).
  assert (Hddl : IsDDL e = false).
  { destruct He as [[Hd _ _ _] _ _]. unfold IsDDL, IsDataEvent in *. by destruct (ev_Type e). }
  exists (w :: ws), (op :: ops). cbn [write_models]. rewrite Hddl, Hws. cbn. rewrite Hw, Hop. cbn. rewrite Hops.
  split_and!; [done|congruence|done|]. intros m. destruct (Hrun m) as (m1 & E1 & H1). destruct (Hruns m1) as (m2 & E2 & H2).
  exists m2. rewrite E1. cbn. split; [done|]. intros i. rewrite H2. by apply run_ops_proper.
Qed.

Lemma writeToCollection_client coll events (s s' : MongoSink) r :
  writeToCollection fresh coll events s = (s', r) →
  ds_config s' = ds_config s ∧ ∀ d, ds_client s = Some d →
    ∃ d', ds_client s' = Some d' ∧ ∀ coll', coll' ≠ coll → docs_of d' coll' = docs_of d coll'.
Proof.
  unfold writeToCollection. destruct (ds_config s) as [c|] eqn:Ec; [|intros [= <- <-]; split; [done|eauto]].
  destruct (ds_client s) as [d|] eqn:Ed; [|intros [= <- <-]; by split].
  assert (Hsame : ds_config s = Some c ∧ ∀ d0, Some d = Some d0 →
    ∃ d', ds_client s = Some d' ∧ ∀ coll', coll' ≠ coll → docs_of d' coll' = docs_of d0 coll')
    by (split; [done|intros d0 [= <-]; eauto]).
  destruct (write_models fresh c events) as [[|w ws]|e]; [by intros [= <- <-]| |by intros [= <- <-]].
  destruct (mongo_BulkWrite coll (w :: ws) (mo_Ordered c) d) as [d1 r1] eqn:Eb. pose proof (other_law _ _ _ _ _ _ Eb) as Ho.
  destruct r1; intros [= <- <-]; (split; [done|]); intros d0 [= <-]; eauto.
Qed.

(** The write of the table's own group. *)
Lemma writeToCollection_docs events ws s s' d d' m :
  ds_config s = Some cfg → ds_client s = Some d → write_models fresh cfg events = Ok ws →
  run_models ws (docs_of d (ti_Table t)) = Some m →
  writeToCollection fresh (ti_Table t) events s = (s', Ok tt) → ds_client s' = Some d' →
  ∀ i, docs_of d' (ti_Table t) i = m i.
Proof.
  intros Hcfg Hd Hws Hm. unfold writeToCollection. rewrite Hcfg, Hd, Hws. destruct ws as [|w ws].
  - intros [= <-]. rewrite Hd. intros [= <-]. cbn in Hm. by injection Hm as <-.
  - destruct (mongo_BulkWrite _ _ _ d) as [d1 [[]|e]] eqn:Eb; [|done]. intros [= <-]. cbn. intros [= <-].
    rewrite Hordered in Eb. by eapply ordered_law.
Qed.

Lemma write_collections_other groups : ∀ (s s' : MongoSink) d d',
  ti_Table t ∉ groups.*1 → ds_client s = Some d → write_collections fresh groups s = (s', Ok tt) → ds_client s' = Some d' →
  docs_of d' (ti_Table t) = docs_of d (ti_Table t).
Proof.
  induction groups as [|[c l] groups IH]; intros s s' d d' Hn Hd; cbn [write_collections].
  { intros [= <-]. rewrite Hd. by intros [= <-]. }
  destruct (writeToCollection fresh c l s) as [s1 [[]|[]]] eqn:Ew; [|done..]. intros Hr Hd'.
  destruct (writeToCollection_client _ _ _ _ _ Ew) as [_ H1]. destruct (H1 d Hd) as (d1 & Hd1 & Ho).
  cbn in Hn. apply not_elem_of_cons in Hn as [Hc Hn]. rewrite (IH (add_written (zlen l) 0 s1) s' d1 d' Hn Hd1 Hr Hd'). by apply Ho.
Qed.

(** What the loop over the groups does to the table's collection: the models of its
    group, if there is one. *)
Lemma write_collections_docs groups events ws m : ∀ s s' d d',
  NoDup groups.*1 → (∀ l, (ti_Table t, l) ∈ groups → l = events) →
  write_models fresh cfg events = Ok ws → ds_config s = Some cfg → ds_client s = Some d →
  run_models ws (docs_of d (ti_Table t)) = Some m →
  write_collections fresh groups s = (s', Ok tt) → ds_client s' = Some d' →
  ∀ i, docs_of d' (ti_Table t) i = if decide (ti_Table t ∈ groups.*1) then m i else docs_of d (ti_Table t) i.
Proof.
  induction groups as [|[coll l] groups IH]; intros s s' d d' Hnd Hl Hws Hcfg Hd Hm; cbn [write_collections].
  { intros [= <-]. rewrite Hd. intros [= <-] i. by rewrite decide_False by set_solver. }
  apply NoDup_cons in Hnd as [Hn Hnd]. destruct (writeToCollection fresh coll l s) as [s1 r1] eqn:Ew.
  destruct r1 as [[]|[]]; [|done..]. intros Hrest Hd' i.
  destruct (writeToCollection_client _ _ _ _ _ Ew) as [Hc1 H1]. destruct (H1 d Hd) as (d1 & Hd1 & Ho).
  destruct (decide (coll = ti_Table t)) as [->|Hcoll].
  - assert (l = events) as -> by (apply Hl; left).
    pose proof (writeToCollection_docs _ _ _ _ _ _ _ Hcfg Hd Hws Hm Ew Hd1) as Hdocs.
    rewrite decide_True by set_solver. rewrite <- Hdocs.
    by rewrite (write_collections_other groups (add_written (zlen events) 0 s1) s' d1 d' Hn Hd1 Hrest Hd').
  - rewrite (IH _ _ d1 d' Hnd) with (6 := Hrest); [|set_solver|done|by rewrite <- Hcfg|done|by rewrite Ho by done|done].
    rewrite Ho by done. cbn [fmap list_fmap fst]. destruct (decide (ti_Table t ∈ groups.*1)).
    + by rewrite decide_True by set_solver.
    + by rewrite decide_False by set_solver.
Qed.

Lemma mongo_put_insert r o :
  dom r = columns → (∀ v, o = Some v → full_doc mongo_enc columns v) → mongo_put true r o = Some (mongo_enc r).
Proof.
  intros Hr Ho. unfold mongo_put. case_bool_decide; [done|]. destruct o as [v|]; [|done].
  destruct (Ho v eq_refl) as (r0 & -> & Hr0). by rewrite mongo_enc_union by congruence.
Qed.

Context (K : list value → Prop) (id_inj : ∀ k k', K k → K k' → mongo_ident k = mongo_ident k' → k = k').

(** The MongoDB sink mirrors the inserts and updates of a table: when a batch with
    events of any tables has been written in order, by upserts or replacements, the
    document of every row of the table is that row, as long as the first columns of the
    keys tell the rows apart. *)
Theorem mongo_sink_mirrors events chs T s s' d d' :
  ds_config s = Some cfg → ds_client s = Some d →
  let mine := filter (λ e, ti_Table (ev_Table e) = ti_Table t) events in
  Forall mongo_event mine → mapM (change_of keys) mine = Some chs → full columns T → changes_apply keys chs T →
  Forall (λ ch, ∃ k, change_key keys ch = Some k ∧ K k) chs →
  (∀ k, K k → docs_of d (ti_Table t) (mongo_ident k) = mongo_enc <$> T k) →
  mongo_Write fresh events s = (s', Ok tt) → ds_client s' = Some d' →
  ∀ k, K k → docs_of d' (ti_Table t) (mongo_ident k) = mongo_enc <$> apply_changes keys chs T k.
Proof.
  intros Hcfg Hd mine Hev Hchs HT Happ HK Hm Hw Hd' k Hk.
  destruct (batch_models mine chs Hev Hchs) as (ws & ops & Hws & Hlen & Hops & Hruns).
  destruct (keyed_mirror mongo_put keys columns mongo_ident mongo_enc K id_inj) with (chs := chs) (T := T)
    (m := docs_of d (ti_Table t)) as (ops' & Hops' & Hmir); [by apply mongo_put_insert| |done| |done..|].
  { intros r r0 Hr Hr0. cbn. by rewrite mongo_enc_union by congruence. }
  { eapply table_events_changes; [|done]. eapply Forall_impl; [done|]. by intros e []. }
  rewrite Hops in Hops'. injection Hops' as <-.
  destruct (Hruns (docs_of d (ti_Table t))) as (m & Erun & Hrun). rewrite <- (Hmir k Hk), <- Hrun.
  unfold mongo_Write in Hw. destruct (write_collections _ _ _) as [s1 r1] eqn:Ec. injection Hw as <- ->. cbn in Hd'.
  rewrite (write_collections_docs _ mine ws m (set_state StateWriting s) s1 d d' (go_range_NoDup _)) by
    (try done; by intros l [-> _]%groups_spec).
  case_decide as Hin; [done|]. assert (mine = []) as Hnil.
  { destruct mine as [|e es] eqn:Em; [done|]. exfalso. apply Hin. apply list_elem_of_fmap. exists (ti_Table t, e :: es).
    split; [done|]. apply groups_spec. done. }
  rewrite Hnil in Hws. injection Hws as <-. cbn in Erun. by injection Erun as <-.
Qed.
End Mirror.

(** ** Other behaviour *)

(** A delete looks for the identifier of its document in the new row, which a delete does
    not have: the document it removes is that of an identifier nobody has used. *)
Theorem mongo_delete_misses cfg fresh e :
  ev_Type e = EventTypeDelete → ev_After e = RowData_zero → ev_Metadata e ≫= lookup "_id" = None →
  buildWriteModel cfg fresh e = Some (DeleteOne (BObjectID fresh)).
Proof.
  intros Ht Ha Hm. unfold buildWriteModel, buildDeleteModel, getDocumentID. rewrite Ht, Hm, Ha. cbn.
  by destruct (ti_PrimaryKeyColumns (ev_Table e)).
Qed.

(** With the strategies [insert] and [update] the documents get identifiers of their
    own, and a later update of a row finds none. *)
Theorem mongo_insert_loses_key cfg fresh e :
  mo_WriteStrategy cfg = "insert" ∨ mo_WriteStrategy cfg = "update" →
  ev_Type e = EventTypeInsert → buildWriteModel cfg fresh e = Some (InsertOne (buildDocument (ev_After e))).
Proof.
  intros Hs Ht. unfold buildWriteModel, buildInsertModel. rewrite Ht.
  by destruct Hs as [-> | ->].
Qed.

(** ** Runs *)

Module MongoRuns.
Import DocRuns.

Notation mongod := (gmap string collection).
Definition stored (d : mongod) (coll : string) : collection := default (λ _, None) (d !! coll).

(** A server that runs unordered writes backwards. *)
#[local] Instance client : MongoClient mongod := {|
  mongo_Connect _ := Ok ∅;
  mongo_Disconnect d := d;
  mongo_BulkWrite coll ws ordered d :=
    match run_models (if ordered then ws else rev ws) (stored d coll) with
    | Some m => (<[coll := m]> d, Ok tt)
    | None => (d, Err (ErrNew "insert"))
    end
|}.

#[local] Program Instance client_laws : MongoLaws mongod := { docs_of := stored }.
Next Obligation.
  intros coll ws d d' m. cbn. intros Hb Hm i. rewrite Hm in Hb. injection Hb as <-. unfold stored. by rewrite lookup_insert_eq.
Qed.
Next Obligation.
  intros coll ws d d' m. cbn. destruct (run_models (rev ws) (stored d coll)) as [m'|] eqn:Er; [|done]. intros [= <-] _.
  exists (rev ws), m'. split; [apply Permutation_sym, Permutation_rev|]. split; [done|]. intros i. unfold stored. by rewrite lookup_insert_eq.
Qed.
Next Obligation.
  intros coll ws ordered d d' r. cbn. destruct (run_models _ _) as [m'|]; intros [= <- <-] coll' Hne; [|done].
  unfold stored. by rewrite lookup_insert_ne by congruence.
Qed.

#[local] Instance groups_range : GoRange string (list ChangeEvent) := sorted_range string (list ChangeEvent).

Definition cfg (ordered : bool) : MongoConfig :=
  mkMongoConfig ["db:27017"] "" "" "copy" "" "admin" "" false 0 0 0 0 0 "upsert" "majority" ordered 1000 "ignore" (mkBatchConfig 0 0 0 0).
Definition sink (ordered : bool) : MongoSink (D := mongod) :=
  mkDocSink (Some (cfg ordered)) (Some ∅) (mkSinkStatus StateReady 0 0 0) None.
Definition new_id (e : ChangeEvent) : string := "0123456789abcdef01234567".

(** Two inserts and an update of the first row. *)
Definition writes : list ChangeEvent := take 3 events.
Definition write_changes : list change := take 3 chs.

Lemma mongo_ids_distinct k k' : ids k → ids k' → mongo_ident k = mongo_ident k' → k = k'.
Proof. intros [->| ->] [->| ->] H; try done; vm_compute in H; discriminate. Qed.

Lemma no_id_column : "_id" ∉ columns.
Proof. apply (bool_decide_unpack _). vm_compute. exact I. Qed.

Lemma writes_good : Forall (mongo_event users columns) (filter (λ e, ti_Table (ev_Table e) = ti_Table users) writes).
Proof.
  assert (E : filter (λ e, ti_Table (ev_Table e) = ti_Table users) writes = writes) by reflexivity. rewrite E.
  pose proof events_good as H. rewrite Forall_forall in H. apply Forall_forall. intros e He.
  split; [apply H; exact (subseteq_take 3 events e He)|..].
  all: repeat (apply elem_of_cons in He as [->|He]; [done|]); by apply elem_of_nil in He.
Qed.

Lemma mongo_sink_mirrors_witness :
  ∃ s' d', mongo_Write new_id writes (sink true) = (s', Ok tt) ∧ ds_client s' = Some d' ∧
    stored d' "users" (BPlain (VInt64 1)) = Some (mongo_enc (row_values (user 1 "Eve"))).
Proof.
  set (res := mongo_Write new_id writes (sink true)). assert (Er : res.2 = Ok tt) by (vm_compute; reflexivity).
  assert (Es : match ds_client res.1 with Some _ => true | None => false end = true) by (vm_compute; reflexivity).
  destruct (ds_client res.1) as [d'|] eqn:Ec; [|discriminate Es].
  exists res.1, d'. split; [rewrite <- Er; exact (surjective_pairing res)|]. split; [done|].
  opose proof* (mongo_sink_mirrors new_id (cfg true) users columns key_in_columns ltac:(done) no_id_column eq_refl
    ltac:(apply (bool_decide_unpack _); exact I) ids mongo_ids_distinct writes write_changes (λ _, None) (sink true) res.1 ∅ d') as H.
  - reflexivity.
  - reflexivity.
  - exact writes_good.
  - vm_compute; reflexivity.
  - by intros k r.
  - pose proof changes_apply_users as (H1 & H2 & H3 & _). exact (conj H1 (conj H2 (conj H3 I))).
  - apply Forall_take, changes_ids.
  - done.
  - rewrite <- Er. exact (surjective_pairing res).
  - exact Ec.
  - exact (or_introl eq_refl).
  - exact H.
Defined.

(** Unordered, which is the default, the same batch can leave the row as it was
    inserted. *)
Example unordered_loses_update :
  mo_Ordered mongo_DefaultConfig = false ∧
  ((λ d, stored d "users" (BPlain (VInt64 1))) <$> ds_client (mongo_Write new_id writes (sink false)).1) =
    Some (Some (mongo_enc (row_values (user 1 "Ann")))).
Proof. split; [done|]. vm_compute. reflexivity. Qed.

(** A password is not escaped in the connection string. *)
Example password_in_url :
  ConnectionString (mkMongoConfig ["db"] "cdc" "p@ss" "copy" "" "" "" false 0 0 0 0 0 "upsert" "" false 0 "ignore" (mkBatchConfig 0 0 0 0)) =
  "mongodb://cdc:p@ss@db/copy".
Proof. vm_compute. reflexivity. Qed.
End MongoRuns.
