(* ===== verification/KafkaSink.v ===== *)
(** The Kafka sink (internal/sink/kafka): its configuration, the message of an event, and
    [Write], which hands the messages of a batch to the writer of kafka-go.

    The writer is a parameter: [KafkaWriter] is what the sink calls, and [KafkaLaws] what
    kafka-go documents of it. *)
From Stdlib Require Import ZArith Lia.
From Stdlib Require String Strings.Byte SpecFloat.
From stdpp Require Import prelude countable gmap strings list fin_maps pretty.
From S2P Require Import Prelude Events Strings TableLifecycle Scope Filters SQLSink DocumentSinks.
Local Open Scope Z_scope.

(** ** config.go *)

Record KafkaConfig := mkKafkaConfig {
  kc_Brokers : list string;
  kc_Topic : string;
  kc_TopicNamingStrategy : string;
  kc_Acks : string;
  kc_Compression : string;
  kc_MaxMessageBytes : Z;
  kc_QueueBuffer : Z;
  kc_BatchSize : Z;
  kc_BatchTimeout : Z;
  kc_Retries : Z;
  kc_RetryBackoff : Z;
  kc_FlushTimeout : Z;
  kc_KeyFormat : string;
  kc_ValueFormat : string;
  kc_PartitionKey : string;
  kc_SchemaRegistryURL : string;
  kc_SecurityProtocol : string;
  kc_Batch : BatchConfig
}.

Definition kafka_DefaultConfig : KafkaConfig :=
  mkKafkaConfig [] "" "default" "all" "snappy" (1024 * 1024) 1000 100 10 3 100 30000 "json" "json" "id" "" "PLAINTEXT"
    (mkBatchConfig 100 1000 3 0).

Definition kafka_Validate (c : KafkaConfig) : result unit :=
  if bool_decide (kc_Brokers c = []) then Err ErrInvalidConfig
  else if bool_decide (kc_Topic c = "") then Err ErrInvalidConfig
  else Ok tt.

Definition kafka_parseConfig (config : sink_Config) : KafkaConfig :=
  let cfg := kafka_DefaultConfig in
  mkKafkaConfig
    (cc_Brokers (sf_Connection config)) (cc_Topic (sf_Connection config)) (kc_TopicNamingStrategy cfg)
    (default (kc_Acks cfg) (prop_string config "acks"))
    (default (kc_Compression cfg) (prop_string config "compression"))
    (default (kc_MaxMessageBytes cfg) (prop_int config "maxMessageBytes"))
    (kc_QueueBuffer cfg)
    (default (kc_BatchSize cfg) (prop_int config "batchSize"))
    (default (kc_BatchTimeout cfg) (prop_int config "batchTimeout"))
    (rt_MaxRetries (sf_Retry config)) (rt_InitialWait (sf_Retry config)) (kc_FlushTimeout cfg)
    (default (kc_KeyFormat cfg) (prop_string config "keyFormat"))
    (default (kc_ValueFormat cfg) (prop_string config "valueFormat"))
    (default (kc_PartitionKey cfg) (prop_string config "partitionKey"))
    (default (kc_SchemaRegistryURL cfg) (prop_string config "schemaRegistryUrl"))
    (default (kc_SecurityProtocol cfg) (prop_string config "securityProtocol"))
    (sf_Batch config).

Inductive compression := NoCompression | Gzip | Snappy | Lz4 | Zstd.
Inductive RequiredAcks := RequireNone | RequireOne | RequireAll.

Definition getCompression (s : string) : compression :=
  if bool_decide (s = "gzip") then Gzip
  else if bool_decide (s = "snappy") then Snappy
  else if bool_decide (s = "lz4") then Lz4
  else if bool_decide (s = "zstd") then Zstd
  else NoCompression.

Definition getRequiredAcks (s : string) : RequiredAcks :=
  if bool_decide (s = "none") then RequireNone
  else if bool_decide (s = "leader") then RequireOne
  else RequireAll.

(** ** Messages *)

Record Message := mkMessage {
  msg_Topic : string;
  msg_Key : list Byte.byte;
  msg_Value : list Byte.byte;
  msg_Headers : list (string * string);
  msg_Time : time
}.

(** The fields of the writer that [Initialize] sets; the balancer is always LeastBytes. *)
Record WriterConfig := mkWriterConfig {
  wr_Addr : list string;
  wr_Topic : string;
  wr_MaxAttempts : Z;
  wr_BatchSize : Z;
  wr_BatchTimeout : duration;
  wr_Compression : compression;
  wr_RequiredAcks : RequiredAcks
}.

Class KafkaWriter (W : Type) := {
  kafka_NewWriter : WriterConfig → W;
  kafka_WriteMessages : list Message → W → W * result unit;
  kafka_Close : W → W * result unit
}.

(** The object of a key in the format [json]. *)
Record kafka_key := mkKafkaKey { kk_database : string; kk_table : string; kk_key : string }.

Section Messages.
Context (fmt_v : value → string) (format_nano : time → string).
Context `{!JSONCodec ChangeEvent} `{!JSONCodec kafka_key}.
Context (cfg : KafkaConfig).

Definition getTopic (e : ChangeEvent) : string :=
  if bool_decide (kc_TopicNamingStrategy cfg = "table") then kc_Topic cfg +:+ "." +:+ ti_Table (ev_Table e)
  else if bool_decide (kc_TopicNamingStrategy cfg = "database") then kc_Topic cfg +:+ "." +:+ ti_Database (ev_Table e)
  else kc_Topic cfg.

(** The value of the partition column, in the new row or else in the old one. *)
Definition partition_value (e : ChangeEvent) : string :=
  if bool_decide (kc_PartitionKey cfg ≠ "") then
    match RowData_Get (Some (ev_After e)) (kc_PartitionKey cfg), RowData_Get (Some (ev_Before e)) (kc_PartitionKey cfg) with
    | Some v, _ | None, Some v => fmt_v v
    | None, None => ""
    end
  else "".

Definition buildKey (e : ChangeEvent) : result (list Byte.byte) :=
  let keyValue := partition_value e in
  let keyValue := if bool_decide (keyValue = "")
                  then ti_Database (ev_Table e) +:+ "." +:+ ti_Table (ev_Table e) else keyValue in
  if bool_decide (kc_KeyFormat cfg = "json")
  then json_Marshal (mkKafkaKey (ti_Database (ev_Table e)) (ti_Table (ev_Table e)) keyValue)
  else Ok (String.list_byte_of_string keyValue).

Definition buildValue (e : ChangeEvent) : result (list Byte.byte) := json_Marshal e.

Definition buildMessage (e : ChangeEvent) : result Message :=
  key ← buildKey e;
  val ← buildValue e;
  Ok (mkMessage (getTopic e) key val
        ([("event_type", EventType_string (ev_Type e)); ("source", si_Connector (ev_Source e));
          ("database", ti_Database (ev_Table e)); ("table", ti_Table (ev_Table e));
          ("timestamp", format_nano (ev_Timestamp e))] ++
         (if bool_decide (pos_BinlogFile (ev_Position e) ≠ "") then [("binlog_file", pos_BinlogFile (ev_Position e))] else []))
        (ev_Timestamp e)).
End Messages.

(** ** The connector *)

Section Connector.
Context (fmt_v : value → string) (format_nano : time → string).
Context `{!JSONCodec ChangeEvent} `{!JSONCodec kafka_key}.
Context {W : Type} `{!KafkaWriter W}.

Definition KafkaSink : Type := DocSink KafkaConfig W.

Definition kafka_Initialize (config : sink_Config) : ST KafkaSink unit := λ s,
  let cfg := kafka_parseConfig config in
  match kafka_Validate cfg with
  | Err e => (s, Err e)
  | Ok _ =>
      let w := kafka_NewWriter (mkWriterConfig (kc_Brokers cfg) (kc_Topic cfg) (i64 (kc_Retries cfg + 1)) (kc_BatchSize cfg)
                 (i64 (kc_BatchTimeout cfg * 1000000)) (getCompression (kc_Compression cfg)) (getRequiredAcks (kc_Acks cfg))) in
      (set_state StateReady (mkDocSink (Some cfg) (Some w) (ds_status s) (ds_position s)), Ok tt)
  end.

Definition kafka_Start : ST KafkaSink unit := λ s,
  if bool_decide (ss_State (ds_status s) = StateWriting) then (s, Ok tt)
  else match ds_client s with
       | None => (s, Err ErrNotInitialized)
       | Some _ => (set_state StateReady s, Ok tt)
       end.

Definition kafka_Stop : ST KafkaSink unit := λ s, (set_state StateStopped s, Ok tt).

Definition kafka_CloseSink : ST KafkaSink unit := λ s,
  match ds_client s with
  | None => (s, Ok tt)
  | Some w => let '(w', r) := kafka_Close w in (set_client (Some w') s, r)
  end.

(** The messages of the events, up to the first that cannot be built. *)
Fixpoint build_messages (cfg : option KafkaConfig) (events : list ChangeEvent) : result (list Message) :=
  match events with
  | [] => Ok []
  | e :: events =>
      match cfg with
      | None => Err (Panic "nil pointer dereference")
      | Some c => msg ← buildMessage fmt_v format_nano c e; msgs ← build_messages cfg events; Ok (msg :: msgs)
      end
  end.

Definition kafka_Write (events : list ChangeEvent) : ST KafkaSink unit := λ s,
  let s := set_state StateWriting s in
  let '(s', r) :=
    match build_messages (ds_config s) events with
    | Err (Panic p) => (s, Err (Panic p))
    | Err e => (add_failed 1 s, Err e)
    | Ok messages =>
        match ds_client s with
        | None => (s, Err ErrNotInitialized)
        | Some w =>
            match kafka_WriteMessages messages w with
            | (w', Err e) => (set_client (Some w') s, Err (ErrWrapf "failed to write messages to Kafka" e))
            | (w', Ok _) => (set_last_position events (add_written (zlen events) 0 (set_client (Some w') s)), Ok tt)
            end
        end
    end in
  (set_state StateReady s', r).

(** [Flush] has nothing to flush: it passes through the state of flushing. *)
Definition kafka_Flush : ST KafkaSink unit := λ s, (set_state StateReady (set_state StateFlushing s), Ok tt).
End Connector.

(** ** What kafka-go documents *)

(** A topic is set on the writer or on the messages, never on both: a batch that breaks
    the rule is refused.  What is written is written once and in full. *)
Class KafkaLaws (W : Type) `{!KafkaWriter W} := {
  writer_topic : W → string;
  delivered : W → list Message;
  new_law c : writer_topic (kafka_NewWriter c) = wr_Topic c ∧ delivered (kafka_NewWriter c) = [];
  topic_law msgs w : writer_topic w ≠ "" → Exists (λ m, msg_Topic m ≠ "") msgs →
    ∃ e, kafka_WriteMessages msgs w = (w, Err e);
  write_law msgs w w' : kafka_WriteMessages msgs w = (w', Ok tt) →
    writer_topic w' = writer_topic w ∧ delivered w' ≡ₚ delivered w ++ msgs
}.

Section Behaviour.
Context (fmt_v : value → string) (format_nano : time → string).
Context `{!JSONCodec ChangeEvent} `{!JSONCodec kafka_key}.
Context {W : Type} `{!KafkaWriter W} `{!KafkaLaws W}.

Lemma getTopic_nonempty cfg e : kc_Topic cfg ≠ "" → getTopic cfg e ≠ "".
Proof. intros H. unfold getTopic. repeat case_bool_decide; by destruct (kc_Topic cfg). Qed.

Lemma build_messages_topics cfg events msgs :
  kc_Topic cfg ≠ "" → build_messages fmt_v format_nano (Some cfg) events = Ok msgs →
  length msgs = length events ∧ Forall (λ m, msg_Topic m ≠ "") msgs.
Proof.
  intros Ht. revert msgs. induction events as [|e events IH]; cbn [build_messages]; intros msgs; [by intros [= <-]|].
  unfold buildMessage. destruct (buildKey fmt_v cfg e) as [key|]; [|done]. cbn [mbind result_bind].
  destruct (buildValue e) as [val|]; [|done]. cbn [mbind result_bind].
  destruct (build_messages fmt_v format_nano (Some cfg) events) as [msgs'|]; [|done]. intros [= <-].
  destruct (IH msgs' eq_refl) as [Hlen Hall]. split; [cbn; by rewrite Hlen|]. constructor; [by apply getTopic_nonempty|done].
Qed.

(** The writer is given the topic of the configuration and so is every message, which
    kafka-go refuses: a connector that [Initialize] accepts fails every batch that is not
    empty, and delivers nothing. *)
Theorem kafka_every_write_fails config (s0 s s' : KafkaSink) e events w r :
  kafka_Initialize config s0 = (s, Ok tt) → ds_client s = Some w →
  kafka_Write fmt_v format_nano (e :: events) s = (s', r) →
  is_ok r = false ∧ ds_client s' = Some w ∧ ds_position s' = ds_position s0 ∧
  ss_EventsWritten (ds_status s') = ss_EventsWritten (ds_status s0).
Proof.
  unfold kafka_Initialize, kafka_Validate. set (cfg := kafka_parseConfig config).
  case_bool_decide; [done|]. case_bool_decide as Htopic; [done|]. intros [= <-]. cbn [set_state ds_client].
  intros [= <-]. set (w := kafka_NewWriter _). unfold kafka_Write. cbn [set_state ds_config ds_client].
  destruct (build_messages fmt_v format_nano (Some cfg) (e :: events)) as [msgs|err] eqn:Eb.
  - destruct (build_messages_topics _ _ _ Htopic Eb) as [Hlen Hall].
    destruct (topic_law msgs w) as [err Hw].
    { unfold w. by rewrite (proj1 (new_law _)). }
    { destruct msgs as [|m msgs]; [done|]. apply Forall_cons in Hall as [Hm _]. by left. }
    rewrite Hw. by intros [= <- <-].
  - destruct err; by intros [= <- <-].
Qed.
End Behaviour.

(** ** Runs *)

Module KafkaRuns.
#[local] Instance event_codec : JSONCodec ChangeEvent := {|
  json_Marshal e := Ok (String.list_byte_of_string (ev_ID e)); json_Unmarshal _ := Err (ErrNew "not read")
|}.
#[local] Instance key_codec : JSONCodec kafka_key := {|
  json_Marshal k := Ok (String.list_byte_of_string (kk_key k)); json_Unmarshal _ := Err (ErrNew "not read")
|}.

(** A writer as its topic and what it has delivered. *)
Definition broker : Type := string * list Message.

Definition topic_clash (msgs : list Message) (w : broker) : bool :=
  negb (bool_decide (w.1 = "")) && existsb (λ m, negb (bool_decide (msg_Topic m = ""))) msgs.

#[local] Instance writer : KafkaWriter broker := {|
  kafka_NewWriter c := (wr_Topic c, []);
  kafka_WriteMessages msgs w :=
    if topic_clash msgs w
    then (w, Err (ErrNew "kafka.(*Writer): Topic must not be specified for both Writer and Message"))
    else ((w.1, w.2 ++ msgs), Ok tt);
  kafka_Close w := (w, Ok tt)
|}.

#[local] Program Instance writer_laws : KafkaLaws broker := { writer_topic := fst; delivered := snd }.
Next Obligation. done. Qed.
Next Obligation.
  intros msgs w Hw He. exists (ErrNew "kafka.(*Writer): Topic must not be specified for both Writer and Message").
  assert (topic_clash msgs w = true) as E.
  { unfold topic_clash. rewrite bool_decide_eq_false_2 by done. cbn. apply existsb_exists.
    apply Exists_exists in He as (m & Hm & Ht). exists m. rewrite <- list_elem_of_In, bool_decide_eq_false_2; done. }
  cbn. by rewrite E.
Qed.
Next Obligation. intros msgs w w'. cbn. destruct (topic_clash msgs w); [done|]. by intros [= <-]. Qed.

Definition config : sink_Config :=
  mkSinkConfigFile "kafka" (mkConnectionConfig "" 0 "" "" "" ["broker:9092"] "cdc" "" "" 0 []) ∅ (mkBatchConfig 0 0 0 0)
    (mkRetryConfig 3 100 0 (SpecFloat.S754_zero false)).
Definition sink : KafkaSink (W := broker) := (kafka_Initialize config New_sink).1.

Lemma kafka_every_write_fails_witness :
  ∃ s' r, kafka_Write DocRuns.print (λ _, "") DocRuns.events sink = (s', r) ∧ is_ok r = false ∧ ds_client s' = Some ("cdc", []).
Proof.
  assert (Ei : kafka_Initialize config New_sink = (sink, Ok tt)) by (vm_compute; reflexivity).
  destruct (kafka_Write DocRuns.print (λ _, "") DocRuns.events sink) as [s' r] eqn:Ew.
  destruct (kafka_every_write_fails DocRuns.print (λ _, "") config New_sink sink s' _ _ ("cdc", []) r Ei eq_refl Ew) as (H1 & H2 & _).
  exists s', r. split; [reflexivity|]. split; [exact H1|exact H2].
Defined.

(** A number decoded from JSON is a float64; the batch size is looked for as an int. *)
Example batch_size_ignored :
  kc_BatchSize (kafka_parseConfig (mkSinkConfigFile "kafka" (sf_Connection config)
    {["batchSize" := PValue (VFloat64 (float64_of_int 500))]} (sf_Batch config) (sf_Retry config))) = 100.
Proof. vm_compute. reflexivity. Qed.
End KafkaRuns.
