(* ===== verification/SinkMetrics.v ===== *)
(** The metrics decorator of sinks (internal/sink/decorator/sink.go), the classification
    of errors it uses (pkg/metrics/classify.go) and the registry of sink factories
    (internal/sink/connector.go).

    The wrapped sink is an interface, [SinkConnector], with the two optional interfaces as
    operations it may have.  Counters are natural numbers: they lose precision as float64
    only beyond 2^53. *)
From Stdlib Require Import ZArith Lia.
From Stdlib Require String.
From stdpp Require Import prelude countable gmap strings list fin_maps.
From S2P Require Import Prelude Events TableLifecycle Scope Filters Dispatch Pipeline Errors DocumentSinks.
Local Open Scope Z_scope.

(** ** classify.go *)

Inductive ErrorType := ErrorTypeRetriable | ErrorTypeNonRetriable.

#[export] Instance ErrorType_eq_dec : EqDecision ErrorType.
Proof. solve_decision. Defined.

Section Decorator.
(** [errors.Cause] and [Equal] of pingcap/errors, as in Errors.v. *)
Context (errors_Cause : goerror → goerror) (Equal : string → goerror → bool).

Definition metrics_ClassifyError (err : option goerror) : ErrorType :=
  match err with
  | None => ErrorTypeRetriable
  | Some _ => if Errors.IsRetryableError errors_Cause Equal err then ErrorTypeRetriable else ErrorTypeNonRetriable
  end.

(** ** sink.go *)

(** The types that have counters. *)
Definition counted_types : list EventType :=
  [EventTypeInsert; EventTypeUpdate; EventTypeDelete; EventTypeTruncate; EventTypeDDL; EventTypeHeartbeat; EventTypeTombstone].

(** The metrics of one sink. *)
Record sink_metrics := mkSinkMetrics {
  sm_success : gmap string Z;
  sm_failed : gmap string Z;
  sm_bytes : Z;
  sm_latencies : Z;            (* how often a latency was observed *)
  sm_retriable : Z;
  sm_nonRetriable : Z
}.

Definition zero_counters : gmap string Z := list_to_map ((λ t, (EventType_string t, 0)) <$> counted_types).
Definition precacheLabels : sink_metrics := mkSinkMetrics zero_counters zero_counters 0 0 0 0.

(** [if c, ok := counters[e.Type]; ok { c.Inc() }] *)
Definition inc_type (m : gmap string Z) (e : ChangeEvent) : gmap string Z := alter (λ n, n + 1) (EventType_string (ev_Type e)) m.

Definition recordResult (events : list ChangeEvent) (err : option goerror) (m : sink_metrics) : sink_metrics :=
  match err with
  | Some _ =>
      let retriable := bool_decide (metrics_ClassifyError err = ErrorTypeRetriable) in
      mkSinkMetrics (sm_success m) (foldl inc_type (sm_failed m) events) (sm_bytes m) (sm_latencies m)
        (if retriable then sm_retriable m + 1 else sm_retriable m)
        (if retriable then sm_nonRetriable m else sm_nonRetriable m + 1)
  | None =>
      mkSinkMetrics (foldl inc_type (sm_success m) events) (sm_failed m)
        (sm_bytes m + foldl (λ n e, n + Size (Some e)) 0 events) (sm_latencies m) (sm_retriable m) (sm_nonRetriable m)
  end.

Definition observe (m : sink_metrics) : sink_metrics :=
  mkSinkMetrics (sm_success m) (sm_failed m) (sm_bytes m) (sm_latencies m + 1) (sm_retriable m) (sm_nonRetriable m).

(** A sink with its optional interfaces. *)
Record optional_ops (K : Type) := mkOptionalOps {
  oo_WriteBatch : option (list ChangeEvent → Z → ST K unit);
  oo_WriteAsync : option (list ChangeEvent → ST K unit)
}.
Arguments oo_WriteBatch {_} _.
Arguments oo_WriteAsync {_} _.

Context {K : Type} `{SK : !SinkConnector K} (ops : optional_ops K).

Definition MetricsSink : Type := K * sink_metrics.

Definition WrapSink (s : K) : MetricsSink := (s, precacheLabels).

(** The error of a call; a panic passes through, and nothing after the call runs. *)
Definition call_error (r : result unit) : option goerror := match r with Ok _ => None | Err e => Some e end.

Definition instrumented (call : ST K unit) (record_success : bool) (events : list ChangeEvent) : ST MetricsSink unit := λ '(k, m),
  match call k with
  | (k', Err (Panic p)) => ((k', m), Err (Panic p))
  | (k', r) =>
      ((k', if record_success || negb (is_ok r) then recordResult events (call_error r) (observe m) else observe m), r)
  end.

Definition ms_Write (events : list ChangeEvent) : ST MetricsSink unit := instrumented (snk_Write events) true events.

Definition ms_WriteBatch (events : list ChangeEvent) (batchSize : Z) : ST MetricsSink unit :=
  match oo_WriteBatch ops with
  | None => ms_Write events
  | Some write => instrumented (write events batchSize) true events
  end.

Definition ms_WriteAsync (events : list ChangeEvent) : ST MetricsSink unit :=
  match oo_WriteAsync ops with
  | None => ms_Write events
  | Some write => instrumented (write events) false events
  end.

(** The other methods are those of the wrapped sink. *)
Definition forward (call : ST K unit) : ST MetricsSink unit := λ '(k, m), let '(k', r) := call k in ((k', m), r).
Definition ms_Start : ST MetricsSink unit := forward snk_Start.
Definition ms_Stop : ST MetricsSink unit := forward snk_Stop.

(** *** The wrapped sink is the sink *)

Inductive sink_call :=
  | CallWrite (events : list ChangeEvent)
  | CallWriteBatch (events : list ChangeEvent) (batchSize : Z)
  | CallWriteAsync (events : list ChangeEvent)
  | CallStart
  | CallStop.

Definition wrapped_call (c : sink_call) : ST MetricsSink unit :=
  match c with
  | CallWrite events => ms_Write events
  | CallWriteBatch events n => ms_WriteBatch events n
  | CallWriteAsync events => ms_WriteAsync events
  | CallStart => ms_Start
  | CallStop => ms_Stop
  end.

(** The same call without the decorator; a sink that lacks an optional interface is
    written to. *)
Definition plain_call (c : sink_call) : ST K unit :=
  match c with
  | CallWrite events => snk_Write events
  | CallWriteBatch events n => from_option (λ w, w events n) (snk_Write events) (oo_WriteBatch ops)
  | CallWriteAsync events => from_option (λ w, w events) (snk_Write events) (oo_WriteAsync ops)
  | CallStart => snk_Start
  | CallStop => snk_Stop
  end.

(** Calls one after the other, with their results. *)
Fixpoint run_calls {S} (call : sink_call → ST S unit) (cs : list sink_call) (s : S) : S * list (result unit) :=
  match cs with
  | [] => (s, [])
  | c :: cs => let '(s', r) := call c s in let '(s'', rs) := run_calls call cs s' in (s'', r :: rs)
  end.

Lemma instrumented_spec call b events k m :
  ∃ m', instrumented call b events (k, m) = (((call k).1, m'), (call k).2).
Proof. unfold instrumented. destruct (call k) as [k' [[]|[]]]; eauto. Qed.

Lemma wrapped_call_spec c k m : ∃ m', wrapped_call c (k, m) = (((plain_call c k).1, m'), (plain_call c k).2).
Proof.
  destruct c as [events|events n|events| |]; cbn [wrapped_call plain_call].
  - apply instrumented_spec.
  - unfold ms_WriteBatch, ms_Write. destruct (oo_WriteBatch ops); apply instrumented_spec.
  - unfold ms_WriteAsync, ms_Write. destruct (oo_WriteAsync ops); apply instrumented_spec.
  - unfold ms_Start, forward. destruct (snk_Start k) as [k' r]. eauto.
  - unfold ms_Stop, forward. destruct (snk_Stop k) as [k' r]. eauto.
Qed.

(** The decorator changes nothing but the metrics: under any sequence of calls the
    wrapped sink goes through the states of the sink and gives its results. *)
Theorem metrics_sink_transparent cs k m :
  ∃ m', run_calls wrapped_call cs (k, m) = (((run_calls plain_call cs k).1, m'), (run_calls plain_call cs k).2).
Proof.
  revert k m. induction cs as [|c cs IH]; intros k m; cbn; [eauto|].
  destruct (wrapped_call_spec c k m) as [m1 ->]. destruct (plain_call c k) as [k1 r1]. cbn.
  destruct (IH k1 m1) as [m2 ->]. destruct (run_calls plain_call cs k1) as [k2 rs]. cbn. eauto.
Qed.

(** *** What is counted *)

Definition of_type (t : string) (e : ChangeEvent) : Prop := EventType_string (ev_Type e) = t.
#[local] Instance of_type_dec t e : Decision (of_type t e).
Proof. unfold of_type. apply _. Defined.

Lemma foldl_inc_lookup events (m : gmap string Z) t :
  foldl inc_type m events !! t = (λ n, n + zlen (filter (of_type t) events)) <$> m !! t.
Proof.
  revert m. induction events as [|e events IH]; intros m; cbn [foldl].
  { destruct (m !! t); [|done]. cbn. f_equal. unfold zlen. cbn. lia. }
  rewrite IH. unfold inc_type at 1. rewrite filter_cons. unfold of_type at 2.
  destruct (decide (EventType_string (ev_Type e) = t)) as [Et|Et].
  - rewrite <- Et at 1. rewrite lookup_alter_eq. rewrite Et. destruct (m !! t); [|done]. cbn. f_equal. unfold zlen. cbn. lia.
  - by rewrite lookup_alter_ne.
Qed.

(** Writes one after the other, with the events of those that succeeded. *)
Fixpoint run_writes (batches : list (list ChangeEvent)) (s : MetricsSink) : MetricsSink * list ChangeEvent * list ChangeEvent :=
  match batches with
  | [] => (s, [], [])
  | b :: batches =>
      let '(s', r) := ms_Write b s in
      let '(s'', written, failed) := run_writes batches s' in
      (s'', (if is_ok r then b else []) ++ written, (if is_ok r then [] else b) ++ failed)
  end.

(** No write panics. *)
Definition no_panics : Prop := ∀ events k p, (snk_Write events k).2 ≠ Err (Panic p).

Lemma ms_Write_counts events k m k' m' r :
  no_panics → ms_Write events (k, m) = ((k', m'), r) → m' = recordResult events (call_error r) (observe m).
Proof.
  intros Hp. unfold ms_Write, instrumented. pose proof (Hp events k) as H.
  destruct (snk_Write events k) as [k1 r1]. cbn in H. destruct r1 as [u|e]; [by intros [= <- <- <-]|].
  destruct e; try by intros [= <- <- <-]. by destruct (H msg).
Qed.

(** After any writes the counter of a type has grown by the events of that type that
    were written, the failure counter by those that were not, one latency is observed for
    each write, and every failed write is counted in one of the two error counters. *)
Theorem metrics_count_writes batches k m k' m' written failed :
  no_panics → run_writes batches (k, m) = ((k', m'), written, failed) →
  (∀ t, sm_success m' !! t = (λ n, n + zlen (filter (of_type t) written)) <$> sm_success m !! t) ∧
  (∀ t, sm_failed m' !! t = (λ n, n + zlen (filter (of_type t) failed)) <$> sm_failed m !! t) ∧
  sm_latencies m' = sm_latencies m + zlen batches.
Proof.
  intros Hp. revert k m written failed. induction batches as [|b batches IH]; intros k m written failed; cbn [run_writes].
  { intros [= <- <- <- <-]. split_and!; [intros t; destruct (_ !! t); [|done]; cbn; f_equal; unfold zlen; cbn; lia..|unfold zlen; cbn; lia]. }
  destruct (ms_Write b (k, m)) as [[k1 m1] r] eqn:Ew. destruct (run_writes batches (k1, m1)) as [[[k2 m2] wr] fl] eqn:Er.
  intros [= <- <- <- <-]. destruct (IH _ _ _ _ Er) as (Hs & Hf & Hl). apply ms_Write_counts in Ew; [|done]. subst m1.
  unfold recordResult in Hs, Hf, Hl. destruct r as [u|e]; cbn in *; split_and!.
  - intros t. rewrite Hs, foldl_inc_lookup, filter_app. destruct (sm_success m !! t); [|done]. cbn. f_equal. unfold zlen. rewrite length_app. lia.
  - intros t. by rewrite Hf.
  - rewrite Hl. unfold zlen. cbn. lia.
  - intros t. by rewrite Hs.
  - intros t. rewrite Hf, foldl_inc_lookup, filter_app. destruct (sm_failed m !! t); [|done]. cbn. f_equal. unfold zlen. rewrite length_app. lia.
  - rewrite Hl. unfold zlen. cbn. lia.
Qed.
End Decorator.

(** ** The registry of factories *)

Section Registry.
Context {Factory Connector : Type} (Factory_Create : Factory → sink_Config → result Connector).

Definition sink_Register (name : string) (f : Factory) (registry : gmap string Factory) : gmap string Factory :=
  <[name := f]> registry.

Definition sink_Create (registry : gmap string Factory) (name : string) (config : sink_Config) : result Connector :=
  match registry !! name with
  | None => Err (ErrCode "DS:Sink:Unsupported")
  | Some f => Factory_Create f config
  end.
End Registry.
