(* ===== verification/SQLServerReader.v ===== *)
(** Reading the change tables of SQL Server (internal/source/sqlserver/cdc_reader.go):
    log sequence numbers as hexadecimal text, the rows of a change table, and the polls of
    one reader.

    The database is a parameter: [cdc_world] holds what it answers to the queries of one
    poll. *)
From Stdlib Require Import ZArith Lia Ascii.
From Stdlib Require String Strings.Byte.
From stdpp Require Import prelude countable gmap strings list fin_maps pretty sorting.
From S2P Require Import Prelude Events Strings CacheLog SchemaHistory TargetStore TableLifecycle Scope BinlogConsumer BinlogSyncer.
Local Open Scope Z_scope.

(** ** Hexadecimal text *)

(** [hex.EncodeToString] *)
Fixpoint hex_EncodeToString (data : list Byte.byte) : string :=
  match data with [] => "" | b :: data => hex_byte b +:+ hex_EncodeToString data end.

Definition hex_value (c : ascii) : option N :=
  let n := N_of_ascii c in
  if (48 <=? n)%N && (n <=? 57)%N then Some (n - 48)%N
  else if (97 <=? n)%N && (n <=? 102)%N then Some (n - 87)%N
  else if (65 <=? n)%N && (n <=? 70)%N then Some (n - 55)%N
  else None.

(** [hex.DecodeString]: the bytes before the first error, and whether there is one. *)
Fixpoint hex_DecodeString (s : string) : list Byte.byte * option goerror :=
  match s with
  | EmptyString => ([], None)
  | String a EmptyString =>
      ([], Some (if hex_value a then ErrNew "encoding/hex: odd length hex string" else ErrNew "encoding/hex: invalid byte"))
  | String a (String b s) =>
      match hex_value a, hex_value b with
      | Some x, Some y =>
          let '(data, err) := hex_DecodeString s in (byte_of_Z (Z.of_N (x * 16 + y)) :: data, err)
      | _, _ => ([], Some (ErrNew "encoding/hex: invalid byte"))
      end
  end.

(** ** Log sequence numbers *)

(** The loop of [incrementLSN], from the last byte on; a byte that wraps to 0 carries. *)
Fixpoint increment_bytes (data : list Byte.byte) : list Byte.byte * bool :=
  match data with
  | [] => ([], true)
  | b :: data =>
      let '(data', carry) := increment_bytes data in
      if carry then
        let b' := byte_of_Z ((byte_to_Z b + 1) mod 256) in (b' :: data', bool_decide (b' = Byte.x00))
      else (b :: data', false)
  end.

Definition incrementLSN (lsn : string) : string := hex_EncodeToString (increment_bytes (hex_DecodeString lsn).1).1.

Definition lsnToBytes (lsn : string) : result (list Byte.byte) :=
  match hex_DecodeString lsn with (data, None) => Ok data | (_, Some e) => Err e end.

(** ** The reader *)

Record lsn_Position := mkLSNPosition { lp_StartLSN : string; lp_CommitTime : time }.

Record CDCReader := mkCDCReader { cr_captureInstance : string; cr_position : option lsn_Position }.

(** The rows of a query: the names of the columns, the rows as they are scanned, and the
    error at the end of the iteration. *)
Record cdc_rows := mkCDCRows {
  rw_columns : result (list string);
  rw_rows : list (result (list value));
  rw_err : option goerror
}.

(** What the database answers during a poll, and the clock. *)
Record cdc_world := mkCDCWorld {
  cw_max : result (list Byte.byte);                              (* sys.fn_cdc_get_max_lsn() *)
  cw_min : string → result (list Byte.byte);                     (* sys.fn_cdc_get_min_lsn(instance) *)
  cw_changes : string → list Byte.byte → list Byte.byte → result cdc_rows;
  cw_now : nat → time                                            (* readings of the clock; 0 when the position is updated *)
}.

Section Reader.
Context (quote : string → string) (database : string).

Definition cdc_source : SourceInfo := mkSourceInfo "sqlserver" "" 0 database "" "" false.
Definition cdc_table (instance : string) : TableInfo := mkTableInfo database "" instance [] [] [].

(** The data columns of a row: those after the first three. *)
Definition cdc_row_data (columns : list string) (values : list value) : RowData :=
  mkRowData (Some (foldl (λ m '(c, v), <[c := mkField c v "" false]> m) ∅ (zip columns values))).

Definition lsn_position (lsn : string) (now : time) : Position := mkPosition "" 0 0 0 0 0 None lsn "" now "" 0 0.

(** The loop of [parseRows]: the events so far, the image before an update and its LSN. *)
Record parse_state := mkParseState { ps_events : list ChangeEvent; ps_before : RowData; ps_lsn : string }.

Definition cdc_event (instance : string) (typ : EventType) (lsn : string) (n : nat) (w : cdc_world) (before after : RowData) :
    ChangeEvent :=
  mkChangeEvent "" cdc_source typ (lsn_position lsn (cw_now w (2 * n + 1))) (cdc_table instance) before after
    (cw_now w (2 * n + 2)) None None None.

Definition parse_row (instance : string) (w : cdc_world) (columns : list string) (n : nat) (values : list value) (s : parse_state) :
    parse_state :=
  let lsn := match values !! 0%nat with Some (VBytes b) => hex_EncodeToString b | _ => "" end in
  let opCode := match values !! 1%nat with Some (VInt64 z) => z | _ => 0 end in
  let rowData := cdc_row_data columns (drop 3 values) in
  if opCode =? 1 then
    mkParseState (ps_events s ++ [cdc_event instance EventTypeDelete lsn n w rowData RowData_zero]) (ps_before s) (ps_lsn s)
  else if opCode =? 2 then
    mkParseState (ps_events s ++ [cdc_event instance EventTypeInsert lsn n w RowData_zero rowData]) (ps_before s) (ps_lsn s)
  else if opCode =? 3 then mkParseState (ps_events s) rowData lsn
  else if opCode =? 4 then
    let before := if bool_decide (ps_lsn s = lsn) && (0 <? rd_len (ps_before s))%nat then ps_before s else RowData_zero in
    mkParseState (ps_events s ++ [cdc_event instance EventTypeUpdate lsn n w before rowData]) RowData_zero ""
  else s.

Fixpoint parse_rows (instance : string) (w : cdc_world) (columns : list string) (n : nat) (rows : list (result (list value)))
    (s : parse_state) : result parse_state :=
  match rows with
  | [] => Ok s
  | Err e :: _ => Err (ErrWrapf "failed to scan row" e)
  | Ok values :: rows => parse_rows instance w columns (S n) rows (parse_row instance w columns n values s)
  end.

Definition cdc_parseRows (instance : string) (w : cdc_world) (rows : cdc_rows) : result (list ChangeEvent) :=
  match rw_columns rows with
  | Err e => Err (ErrWrapf "failed to get columns" e)
  | Ok cols =>
      if (length cols <? 3)%nat then Err (ErrNew ("unexpected column count: " +:+ pretty (zlen cols)))
      else
        s ← parse_rows instance w (drop 3 cols) 0 (rw_rows rows) (mkParseState [] RowData_zero "");
        match rw_err rows with
        | Some e => Err (ErrWrapf "CDC row iteration error" e)
        | None => Ok (ps_events s)
        end
  end.

Definition cdc_queryChanges (instance : string) (w : cdc_world) (fromLSN toLSN : string) : result (list ChangeEvent) :=
  match lsnToBytes fromLSN with
  | Err e => Err (ErrWrapf ("invalid fromLSN " +:+ quote fromLSN) e)
  | Ok from =>
      match lsnToBytes toLSN with
      | Err e => Err (ErrWrapf ("invalid toLSN " +:+ quote toLSN) e)
      | Ok to =>
          match cw_changes w instance from to with
          | Err e => Err (ErrWrapf ("failed to query CDC changes for " +:+ instance) e)
          | Ok rows => cdc_parseRows instance w rows
          end
      end
  end.

Definition getCurrentLSN (w : cdc_world) : result string :=
  match cw_max w with Err e => Err (ErrWrapf "failed to get current LSN" e) | Ok b => Ok (hex_EncodeToString b) end.

Definition getMinLSN (w : cdc_world) (instance : string) : result string :=
  match cw_min w instance with Err e => Err (ErrWrapf "failed to get min LSN" e) | Ok b => Ok (hex_EncodeToString b) end.

Definition cdc_ReadChanges (w : cdc_world) (r : CDCReader) : result (list ChangeEvent * string) :=
  toLSN ← getCurrentLSN w;
  let fromLSN := from_option lp_StartLSN "" (cr_position r) in
  fromLSN ← (if bool_decide (fromLSN = "") then getMinLSN w (cr_captureInstance r) else Ok fromLSN);
  if bool_decide (fromLSN = toLSN) then Ok ([], toLSN)
  else
    changes ← cdc_queryChanges (cr_captureInstance r) w fromLSN toLSN;
    Ok (changes, toLSN).

Definition cdc_SetPosition (pos : option lsn_Position) (r : CDCReader) : CDCReader := mkCDCReader (cr_captureInstance r) pos.

Definition cdc_UpdatePosition (lsn : string) (now : time) (r : CDCReader) : CDCReader :=
  cdc_SetPosition (Some (mkLSNPosition (incrementLSN lsn) now)) r.
End Reader.

(** ** Numbers *)

(** The number a byte string spells, the first byte counting most. *)
Fixpoint be_value (l : list Byte.byte) : Z :=
  match l with [] => 0 | b :: l => byte_to_Z b * 256 ^ zlen l + be_value l end.

Lemma zlen_cons {A} (x : A) l : zlen (x :: l) = 1 + zlen l.
Proof. unfold zlen. cbn. lia. Qed.

Lemma pow256_pos {A} (l : list A) : 0 < 256 ^ zlen l.
Proof. apply Z.pow_pos_nonneg; [lia|]. unfold zlen. lia. Qed.

Lemma pow256_cons {A} (x : A) l : 256 ^ zlen (x :: l) = 256 * 256 ^ zlen l.
Proof. rewrite zlen_cons, Z.pow_add_r by (unfold zlen; lia). lia. Qed.

Lemma be_value_range l : 0 <= be_value l < 256 ^ zlen l.
Proof.
  induction l as [|b l IH]; cbn [be_value]; [unfold zlen; cbn; lia|]. rewrite pow256_cons.
  pose proof (byte_to_Z_range b). pose proof (pow256_pos l). nia.
Qed.

Lemma be_value_inj l k : length l = length k → be_value l = be_value k → l = k.
Proof.
  revert k. induction l as [|b l IH]; intros [|c k] Hlen; [done..|]. cbn in Hlen. injection Hlen as Hlen. cbn [be_value].
  assert (Hz : zlen k = zlen l) by (unfold zlen; lia). rewrite Hz.
  pose proof (be_value_range l). pose proof (be_value_range k) as Hk. rewrite Hz in Hk. pose proof (pow256_pos l).
  intros E. assert (byte_to_Z b = byte_to_Z c) as Hb by nia. assert (be_value l = be_value k) as Hl by nia.
  f_equal; [|by apply IH]. rewrite <- (byte_of_to_Z b), <- (byte_of_to_Z c). by rewrite Hb.
Qed.

Lemma increment_spec l :
  let '(l', carry) := increment_bytes l in
  length l' = length l ∧ be_value l' + (if carry then 256 ^ zlen l else 0) = be_value l + 1.
Proof.
  induction l as [|b l IH]; [by split|]. cbn [increment_bytes]. destruct (increment_bytes l) as [l' carry].
  destruct IH as [Hlen IH]. assert (Hz : zlen l' = zlen l) by (unfold zlen; lia).
  pose proof (byte_to_Z_range b) as Hb. pose proof (pow256_pos l) as Hp. destruct carry.
  - split; [cbn; lia|]. cbn [be_value]. rewrite pow256_cons, Hz.
    pose proof (Z.mod_pos_bound (byte_to_Z b + 1) 256 ltac:(lia)) as Hm.
    rewrite (byte_to_of_Z ((byte_to_Z b + 1) mod 256)), Z.mod_mod by lia.
    destruct (decide (byte_to_Z b = 255)) as [E|E].
    + rewrite E. change ((255 + 1) mod 256) with 0. rewrite bool_decide_eq_true_2 by reflexivity. cbv iota in *. lia.
    + rewrite Z.mod_small by lia. rewrite bool_decide_eq_false_2; [cbv iota in *; lia|]. intros E0.
      assert (byte_to_Z (byte_of_Z (byte_to_Z b + 1)) = 0) as E1 by (by rewrite E0).
      rewrite byte_to_of_Z, Z.mod_small in E1 by lia. lia.
  - split; [cbn; lia|]. cbn [be_value]. rewrite Hz. lia.
Qed.

Lemma hex_digit_value n : (n < 16)%N → hex_value (hex_digit n) = Some n.
Proof.
  intros H. rewrite <- (N2Nat.id n) in *. generalize dependent (N.to_nat n). intros m Hm.
  do 16 (destruct m as [|m]; [reflexivity|]). lia.
Qed.

Lemma hex_DecodeString_cons b s :
  hex_DecodeString (hex_byte b +:+ s) = (b :: (hex_DecodeString s).1, (hex_DecodeString s).2).
Proof.
  unfold hex_byte. pose proof (Byte.to_N_bounded b) as Hb. rewrite !string_app_cons, string_app_nil_l. cbn [hex_DecodeString].
  rewrite hex_digit_value by (apply N.Div0.div_lt_upper_bound; lia).
  rewrite hex_digit_value by (apply N.mod_lt; lia). destruct (hex_DecodeString s) as [data err]. cbn. f_equal. f_equal.
  rewrite N.mul_comm, <- N.div_mod by lia. apply byte_of_to_Z.
Qed.

(** Decoding encoded bytes gives them back. *)
Lemma hex_roundtrip l : hex_DecodeString (hex_EncodeToString l) = (l, None).
Proof. induction l as [|b l IH]; [done|]. cbn [hex_EncodeToString]. by rewrite hex_DecodeString_cons, IH. Qed.

Lemma hex_inj l k : hex_EncodeToString l = hex_EncodeToString k → l = k.
Proof. intros H. pose proof (hex_roundtrip l) as Hl. rewrite H, hex_roundtrip in Hl. by simplify_eq. Qed.

Lemma incrementLSN_spec l :
  ∃ l', incrementLSN (hex_EncodeToString l) = hex_EncodeToString l' ∧ length l' = length l ∧
        be_value l' = (be_value l + 1) mod 256 ^ zlen l.
Proof.
  unfold incrementLSN. rewrite hex_roundtrip. pose proof (increment_spec l) as H. cbn [fst].
  destruct (increment_bytes l) as [l' carry]. destruct H as [Hlen Hv]. exists l'. cbn. split; [done|]. split; [done|].
  pose proof (be_value_range l). pose proof (be_value_range l') as Hl'.
  assert (Hz : zlen l' = zlen l) by (unfold zlen; lia). rewrite Hz in Hl'.
  destruct carry; [|rewrite Z.mod_small; lia].
  assert (be_value l' = 0) as -> by lia. assert (be_value l + 1 = 256 ^ zlen l) as -> by lia. by rewrite Z.mod_same by lia.
Qed.

(** ** The rows of a change table *)

(** A change as the table has it; whether updates come with the old image depends on the
    query. *)
Inductive cdc_change :=
  | CdcInsert (after : list value)
  | CdcDelete (before : list value)
  | CdcUpdate (before : option (list value)) (after : list value).

Notation logged := (list Byte.byte * cdc_change)%type.

Definition cdc_row (lsn : list Byte.byte) (op : Z) (values : list value) : list value := [VBytes lsn; VInt64 op; VNil] ++ values.

Definition change_rows (c : logged) : list (list value) :=
  match c.2 with
  | CdcInsert after => [cdc_row c.1 2 after]
  | CdcDelete before => [cdc_row c.1 1 before]
  | CdcUpdate before after => from_option (λ b, [cdc_row c.1 3 b]) [] before ++ [cdc_row c.1 4 after]
  end.

Section Contents.
Context (columns : list string).

Definition content : Type := EventType * RowData * RowData * string.

Definition event_content (e : ChangeEvent) : content := (ev_Type e, ev_Before e, ev_After e, pos_ChangeLsn (ev_Position e)).

Definition change_content (c : logged) : content :=
  let data := cdc_row_data columns in
  let lsn := hex_EncodeToString c.1 in
  match c.2 with
  | CdcInsert after => (EventTypeInsert, RowData_zero, data after, lsn)
  | CdcDelete before => (EventTypeDelete, data before, RowData_zero, lsn)
  | CdcUpdate before after => (EventTypeUpdate, from_option data RowData_zero before, data after, lsn)
  end.

(** A change with an LSN, whose images have a column at least. *)
Definition good_logged (c : logged) : Prop :=
  c.1 ≠ [] ∧ match c.2 with CdcUpdate (Some before) _ => zip columns before ≠ [] | _ => True end.

Lemma foldl_insert_nonempty (l : list (string * value)) (m : gmap string Field) :
  l ≠ [] ∨ m ≠ ∅ → foldl (λ m '(c, v), <[c := mkField c v "" false]> m) m l ≠ ∅.
Proof.
  revert m. induction l as [|[c v] l IH]; intros m [H|H]; cbn; [done|done| |].
  all: apply IH; right; apply insert_non_empty.
Qed.

Lemma row_data_nonempty values : zip columns values ≠ [] → (0 <? rd_len (cdc_row_data columns values))%nat = true.
Proof.
  intros H. apply Nat.ltb_lt. unfold rd_len, cdc_row_data. cbn [rd_Fields from_option].
  apply Nat.neq_0_lt_0. intros E. apply map_size_empty_iff in E. revert E. apply foldl_insert_nonempty. by left.
Qed.

Lemma hex_nonempty l : l ≠ [] → hex_EncodeToString l ≠ "".
Proof. by destruct l. Qed.
End Contents.

Section Parse.
Context (database instance : string) (w : cdc_world) (columns : list string).

Definition of_instance (e : ChangeEvent) : Prop := ev_Table e = cdc_table database instance ∧ ev_Source e = cdc_source database.

(** The rows of an update, with and without its old image. *)
Lemma update_pair n lsn before after s :
  zip columns before ≠ [] →
  parse_row database instance w columns (S n) (cdc_row lsn 4 after) (parse_row database instance w columns n (cdc_row lsn 3 before) s) =
  mkParseState (ps_events s ++ [cdc_event database instance EventTypeUpdate (hex_EncodeToString lsn) (S n) w
    (cdc_row_data columns before) (cdc_row_data columns after)]) RowData_zero "".
Proof.
  intros Hb. unfold parse_row. cbn [lookup list_lookup cdc_row app drop ps_lsn ps_before ps_events Z.eqb Pos.eqb].
  rewrite bool_decide_eq_true_2 by done. rewrite !drop_0. by rewrite (row_data_nonempty columns before Hb).
Qed.

Lemma update_alone n lsn after s :
  lsn ≠ [] → ps_lsn s = "" →
  parse_row database instance w columns n (cdc_row lsn 4 after) s =
  mkParseState (ps_events s ++ [cdc_event database instance EventTypeUpdate (hex_EncodeToString lsn) n w
    RowData_zero (cdc_row_data columns after)]) RowData_zero "".
Proof.
  intros Hlsn Hs. unfold parse_row. cbn [lookup list_lookup cdc_row app drop Z.eqb Pos.eqb].
  rewrite Hs, bool_decide_eq_false_2; [by rewrite drop_0|]. intros E. symmetry in E. by apply hex_nonempty in E.
Qed.

(** One change, from a state between changes: one more event, with its content. *)
Lemma parse_change c n s rest :
  good_logged columns c → ps_lsn s = "" →
  ∃ e s', parse_rows database instance w columns n ((Ok <$> change_rows c) ++ rest) s =
            parse_rows database instance w columns (n + length (change_rows c)) rest s' ∧
    ps_events s' = ps_events s ++ [e] ∧ ps_lsn s' = "" ∧ event_content e = change_content columns c ∧ of_instance e.
Proof.
  intros [Hlsn Hb] Hs. destruct c as [lsn [after|before|[before|] after]]; cbn in Hlsn, Hb; unfold change_rows; cbn [fst snd fmap list_fmap app from_option parse_rows length].
  - do 2 eexists. split; [rewrite Nat.add_1_r; reflexivity|]. by split_and!.
  - do 2 eexists. split; [rewrite Nat.add_1_r; reflexivity|]. by split_and!.
  - rewrite update_pair by done. do 2 eexists. split; [rewrite Nat.add_succ_r, Nat.add_1_r; reflexivity|]. by split_and!.
  - rewrite update_alone by done. do 2 eexists. split; [rewrite Nat.add_1_r; reflexivity|]. by split_and!.
Qed.

(** The rows of the changes are parsed into their contents, one event for each change. *)
Lemma parse_changes log : ∀ n s,
  Forall (good_logged columns) log → ps_lsn s = "" →
  ∃ es s', parse_rows database instance w columns n (Ok <$> (log ≫= change_rows)) s = Ok s' ∧
    ps_events s' = ps_events s ++ es ∧ event_content <$> es = change_content columns <$> log ∧ Forall of_instance es.
Proof.
  induction log as [|c log IH]; intros n s Hg Hs.
  { exists [], s. rewrite app_nil_r. by split_and!. }
  apply Forall_cons in Hg as [Hc Hg]. rewrite bind_cons, fmap_app.
  destruct (parse_change c n s (Ok <$> (log ≫= change_rows)) Hc Hs) as (e & s1 & -> & He & Hs1 & Hcont & Hinst).
  destruct (IH (n + length (change_rows c))%nat s1 Hg Hs1) as (es & s' & -> & Hes & Hconts & Hinsts).
  exists (e :: es), s'. split; [done|]. split; [rewrite Hes, He, <- app_assoc; done|].
  split; [cbn; by rewrite Hcont, Hconts|by constructor].
Qed.
End Parse.

(** A query that returns the rows of some changes: one event for each change, in the
    order of the rows, inserts with the new image, deletes with the old one, updates with
    the new one and the old one if the query returns it, at the LSN of the change. *)
Theorem cdc_rows_parsed database instance w columns meta log :
  length meta = 3%nat → Forall (good_logged columns) log →
  ∃ es, cdc_parseRows database instance w (mkCDCRows (Ok (meta ++ columns)) (Ok <$> (log ≫= change_rows)) None) = Ok es ∧
    event_content <$> es = change_content columns <$> log ∧ Forall (of_instance database instance) es.
Proof.
  intros Hm Hg. unfold cdc_parseRows. cbn [rw_columns rw_rows rw_err]. rewrite length_app, Hm.
  rewrite (proj2 (Nat.ltb_ge _ _)) by lia. rewrite <- Hm, drop_app_length.
  destruct (parse_changes database instance w columns log 0 (mkParseState [] RowData_zero "") Hg eq_refl) as (es & s' & -> & Hes & H).
  cbn. rewrite Hes. by exists es.
Qed.

(** ** Polling *)

(** One poll of one reader, as [pollAll] does it: the events, and the new position unless
    the read failed. *)
Definition reader_poll (quote : string → string) (database : string) (w : cdc_world) (now : time) (r : CDCReader) :
    CDCReader * result (list ChangeEvent * string) :=
  match cdc_ReadChanges quote database w r with
  | Err e => (r, Err e)
  | Ok (changes, lastLSN) =>
      (if bool_decide (lastLSN ≠ "") then cdc_UpdatePosition lastLSN now r else r, Ok (changes, lastLSN))
  end.

Fixpoint run_polls (quote : string → string) (database : string) (ws : list cdc_world) (r : CDCReader) : CDCReader * list ChangeEvent :=
  match ws with
  | [] => (r, [])
  | w :: ws =>
      let '(r1, res) := reader_poll quote database w (cw_now w 0) r in
      let '(r2, es) := run_polls quote database ws r1 in
      (r2, match res with Ok (changes, _) => changes ++ es | Err _ => es end)
  end.

Section Polls.
Context (quote : string → string) (database instance : string) (columns meta : list string) (log : list logged) (width : nat).
Context (Hmeta : length meta = 3%nat) (Hgood : Forall (good_logged columns) log).
Context (Hsorted : StronglySorted (λ a b, be_value a.1 <= be_value b.1) log).

(** The changes with an LSN in a range. *)
Definition in_range (from to : Z) : list logged := filter (λ c, from <= be_value c.1 <= to) log.

(** A world with this log: the query between two LSNs returns the changes of the range,
    and refuses a range whose ends are in the wrong order. *)
Definition answers (max : list Byte.byte) (w : cdc_world) : Prop :=
  cw_max w = Ok max ∧ length max = width ∧ be_value max + 1 < 256 ^ Z.of_nat width ∧
  ∀ from to, cw_changes w instance from to =
    if bool_decide (be_value from <= be_value to)
    then Ok (mkCDCRows (Ok (meta ++ columns)) (Ok <$> (in_range (be_value from) (be_value to) ≫= change_rows)) None)
    else Err (ErrNew "An insufficient number of arguments were supplied").

(** The reader stands at an LSN. *)
Definition stands_at (p : Z) (r : CDCReader) : Prop :=
  cr_captureInstance r = instance ∧
  ∃ b pos, cr_position r = Some pos ∧ lp_StartLSN pos = hex_EncodeToString b ∧ length b = width ∧ b ≠ [] ∧ be_value b = p.

Lemma lsnToBytes_hex b : lsnToBytes (hex_EncodeToString b) = Ok b.
Proof. unfold lsnToBytes. by rewrite hex_roundtrip. Qed.

Lemma update_stands m now r :
  cr_captureInstance r = instance → length m = width → m ≠ [] → be_value m + 1 < 256 ^ Z.of_nat width →
  stands_at (be_value m + 1) (cdc_UpdatePosition (hex_EncodeToString m) now r).
Proof.
  clear Hmeta Hgood Hsorted. intros Hi Hlen Hne Hmax. split; [done|]. destruct (incrementLSN_spec m) as (m' & Hinc & Hl & Hv).
  exists m', (mkLSNPosition (incrementLSN (hex_EncodeToString m)) now). split; [done|]. split; [done|].
  split; [lia|]. split; [by destruct m, m'|]. pose proof (be_value_range m). unfold zlen in *. rewrite Hlen in *.
  rewrite Hv, Z.mod_small by lia. done.
Qed.

(** A poll from an LSN: nothing new is an error, more than one number on reads the range
    and moves on. *)
Lemma poll_step p m w now r :
  stands_at p r → answers m w → m ≠ [] →
  (be_value m + 1 = p → ∃ e, reader_poll quote database w now r = (r, Err e)) ∧
  (p < be_value m → ∃ r' es, reader_poll quote database w now r = (r', Ok (es, hex_EncodeToString m)) ∧
     stands_at (be_value m + 1) r' ∧ event_content <$> es = change_content columns <$> in_range p (be_value m)).
Proof.
  intros (Hi & b & pos & Hpos & Hstart & Hlen & Hb & Hp) (Hmax & Hlm & Hbound & Hq) Hm.
  assert (Hread : b ≠ m → cdc_ReadChanges quote database w r =
    changes ← cdc_queryChanges quote database instance w (hex_EncodeToString b) (hex_EncodeToString m); Ok (changes, hex_EncodeToString m)).
  { intros Hne. unfold cdc_ReadChanges, getCurrentLSN. rewrite Hmax, Hpos, Hi. cbn [mbind result_bind from_option].
    rewrite Hstart, bool_decide_eq_false_2 by (by apply hex_nonempty). cbn [mbind result_bind].
    rewrite bool_decide_eq_false_2; [done|]. intros E. by apply hex_inj in E. }
  unfold reader_poll. split.
  - intros Hidle. rewrite Hread by (intros ->; lia). unfold cdc_queryChanges. rewrite !lsnToBytes_hex, Hq.
    rewrite bool_decide_eq_false_2 by lia. cbn. eauto.
  - intros Hlt. rewrite Hread by (intros ->; lia). unfold cdc_queryChanges. rewrite !lsnToBytes_hex, Hq.
    rewrite bool_decide_eq_true_2 by lia. rewrite Hp.
    destruct (cdc_rows_parsed database instance w columns meta (in_range p (be_value m)) Hmeta) as (es & -> & Hes & _).
    { apply Forall_forall. intros c [_ Hc]%list_elem_of_filter. rewrite Forall_forall in Hgood. auto. }
    cbn [mbind result_bind]. rewrite bool_decide_eq_true_2 by (by apply hex_nonempty).
    do 2 eexists. split; [done|]. split; [|done]. by apply update_stands.
Qed.

Lemma in_range_app p q r : p <= q + 1 → q <= r → in_range p r = in_range p q ++ in_range (q + 1) r.
Proof.
  clear Hgood. intros H1 H2. unfold in_range. induction Hsorted as [|c l Hs IH Hall]; [done|]. specialize (IH Hs).
  rewrite !filter_cons. destruct (decide (p <= be_value c.1 <= q)).
  - rewrite decide_True by lia. rewrite decide_False by lia. by rewrite IH.
  - destruct (decide (q + 1 <= be_value c.1 <= r)); [|rewrite decide_False by lia; done].
    rewrite decide_True by lia. rewrite IH.
    destruct (filter (λ c, p <= be_value c.1 <= q) l) as [|x k] eqn:E; [done|]. exfalso.
    assert (x ∈ filter (λ c, p <= be_value c.1 <= q) l) as Hx by (rewrite E; left).
    apply list_elem_of_filter in Hx as [Hx Hin]. rewrite Forall_forall in Hall. specialize (Hall x Hin). lia.
Qed.

(** The largest LSNs of the polls: each is the one before or more than one beyond it. *)
Fixpoint steady (p : Z) (maxima : list (list Byte.byte)) : Prop :=
  match maxima with
  | [] => True
  | m :: maxima => m ≠ [] ∧ (be_value m + 1 = p ∨ p < be_value m) ∧ steady (be_value m + 1) maxima
  end.

(** The last of the LSNs, or the one before [p] if there is none. *)
Fixpoint last_max (p : Z) (maxima : list (list Byte.byte)) : Z :=
  match maxima with [] => p - 1 | m :: maxima => last_max (be_value m + 1) maxima end.

Lemma steady_last p maxima : steady p maxima → p <= last_max p maxima + 1.
Proof.
  revert p. induction maxima as [|m maxima IH]; intros p; cbn; [lia|]. intros (_ & Hm & Hs). specialize (IH _ Hs). lia.
Qed.

(** Polling reads every change once and in order: from the LSN the reader stands at up
    to the largest LSN of the last poll, as long as no poll finds the largest LSN exactly
    one beyond the one before. *)
Theorem cdc_polls_read_once maxima ws p r r' es :
  stands_at p r → steady p maxima → Forall2 answers maxima ws →
  run_polls quote database ws r = (r', es) →
  event_content <$> es = change_content columns <$> in_range p (last_max p maxima).
Proof.
  intros Hr Hs Hw. revert p r r' es Hr Hs. induction Hw as [|m w maxima ws Hm _ IH]; intros p r r' es Hr Hs; cbn [run_polls].
  { intros [= <- <-]. cbn [last_max]. unfold in_range.
    destruct (filter _ log) as [|x k] eqn:E; [done|]. exfalso.
    assert (x ∈ x :: k) as Hx by left. rewrite <- E in Hx. apply list_elem_of_filter in Hx as [Hx _]. lia. }
  destruct Hs as (Hne & Hstep & Hs). destruct (poll_step p m w (cw_now w 0) r Hr Hm Hne) as [Hidle Hread].
  pose proof (steady_last _ _ Hs) as Hlast.
  destruct Hstep as [Hp|Hp].
  - destruct (Hidle Hp) as [e ->]. destruct (run_polls quote database ws r) as [r2 es2] eqn:E2. intros [= <- <-].
    cbn [last_max]. rewrite <- Hp in *. by eapply IH.
  - destruct (Hread Hp) as (r1 & es1 & -> & Hr1 & Hes1). destruct (run_polls quote database ws r1) as [r2 es2] eqn:E2.
    intros [= <- <-]. rewrite fmap_app, Hes1, (IH _ _ _ _ Hr1 Hs E2), <- fmap_app. cbn [last_max].
    by rewrite <- in_range_app by lia.
Qed.

Lemma poll_at_max p m w now r :
  stands_at p r → cw_max w = Ok m → length m = width → be_value m + 1 < 256 ^ Z.of_nat width → be_value m = p →
  ∃ r', reader_poll quote database w now r = (r', Ok ([], hex_EncodeToString m)) ∧ stands_at (p + 1) r'.
Proof.
  clear Hmeta Hgood Hsorted. intros (Hi & b & pos & Hpos & Hstart & Hlen & Hb & Hp) Hm Hlm Hbound Hpm.
  assert (b = m) as -> by (apply be_value_inj; congruence).
  unfold reader_poll, cdc_ReadChanges, getCurrentLSN. rewrite Hm, Hpos. cbn [mbind result_bind from_option].
  rewrite Hstart, bool_decide_eq_false_2 by (by apply hex_nonempty). cbn [mbind result_bind].
  rewrite bool_decide_eq_true_2 by done. cbn. rewrite bool_decide_eq_true_2 by (by apply hex_nonempty).
  eexists. split; [done|]. rewrite <- Hpm. by apply update_stands.
Qed.

(** When the largest LSN is the one the reader stands at, it is taken for having been
    read: the changes with that LSN are passed over, and the reader moves beyond them. *)
Theorem cdc_next_lsn_skipped m w now r :
  stands_at (be_value m) r → answers m w → m ≠ [] →
  ∃ r', reader_poll quote database w now r = (r', Ok ([], hex_EncodeToString m)) ∧ stands_at (be_value m + 1) r'.
Proof. clear Hmeta Hgood Hsorted. intros Hr (Hmax & Hlm & Hbound & _) _. by apply poll_at_max. Qed.

(** A query that is refused is an error of the poll, and the reader stays. *)
Lemma poll_refused p m w now r :
  stands_at p r → cw_max w = Ok m → be_value m ≠ p →
  (∀ b, be_value b = p → ∃ e, cw_changes w instance b m = Err e) → ∃ e, reader_poll quote database w now r = (r, Err e).
Proof.
  clear Hmeta Hgood Hsorted. intros (Hi & b & pos & Hpos & Hstart & Hlen & Hb & Hp) Hmax Hne Hq.
  unfold reader_poll, cdc_ReadChanges, getCurrentLSN. rewrite Hmax, Hpos, Hi. cbn [mbind result_bind from_option].
  rewrite Hstart, bool_decide_eq_false_2 by (by apply hex_nonempty). cbn [mbind result_bind].
  rewrite bool_decide_eq_false_2 by (intros E; apply hex_inj in E; congruence).
  unfold cdc_queryChanges. rewrite !lsnToBytes_hex. destruct (Hq b Hp) as [e ->]. cbn. eauto.
Qed.

(** *** Any polls *)

(** How a poll is answered: the changes up to the largest LSN, only the largest LSN, or an
    error. *)
Inductive poll_answer := Reads (max : list Byte.byte) | OnlyMax (max : list Byte.byte) | NoMax.

Definition poll_answered (a : poll_answer) (w : cdc_world) : Prop :=
  match a with
  | Reads m => answers m w
  | OnlyMax m => cw_max w = Ok m ∧ length m = width ∧ be_value m + 1 < 256 ^ Z.of_nat width ∧
                 ∀ from to, ∃ e, cw_changes w instance from to = Err e
  | NoMax => ∃ e, cw_max w = Err e
  end.

(** Where a reader that stands at [p] stands after a poll, and the LSN it passed over: the
    largest one, when it is the one the reader stands at. *)
Definition next_stand (p : Z) (a : poll_answer) : Z :=
  match a with
  | Reads m => if p <=? be_value m then be_value m + 1 else p
  | OnlyMax m => if p =? be_value m then p + 1 else p
  | NoMax => p
  end.
Definition passed_over (p : Z) (a : poll_answer) : list Z :=
  match a with Reads m | OnlyMax m => if p =? be_value m then [p] else [] | NoMax => [] end.

Fixpoint stands_after (p : Z) (l : list poll_answer) : Z :=
  match l with [] => p | a :: l => stands_after (next_stand p a) l end.
Fixpoint all_passed_over (p : Z) (l : list poll_answer) : list Z :=
  match l with [] => [] | a :: l => passed_over p a ++ all_passed_over (next_stand p a) l end.

Lemma next_stand_le p a : p <= next_stand p a.
Proof. destruct a as [m|m|]; cbn; [destruct (Z.leb_spec p (be_value m)); lia|destruct (Z.eqb_spec p (be_value m)); lia|lia]. Qed.

Lemma stands_after_le l : ∀ p, p <= stands_after p l.
Proof. induction l as [|a l IH]; intros p; cbn; [lia|]. pose proof (next_stand_le p a). specialize (IH (next_stand p a)). lia. Qed.

Lemma passed_over_range p a x : x ∈ passed_over p a → x = p ∧ next_stand p a = p + 1.
Proof.
  destruct a as [m|m|]; cbn; [| |by intros ?%not_elem_of_nil]; destruct (Z.eqb_spec p (be_value m)) as [Hm|Hm];
    try (by intros ?%not_elem_of_nil); intros ->%list_elem_of_singleton; split; try done.
  destruct (Z.leb_spec p (be_value m)); lia.
Qed.

Lemma all_passed_over_ge l : ∀ p x, x ∈ all_passed_over p l → p <= x.
Proof.
  induction l as [|a l IH]; intros p x; cbn; [by intros ?%not_elem_of_nil|]. intros [[-> _]%passed_over_range|Hx]%elem_of_app; [lia|].
  pose proof (next_stand_le p a). specialize (IH _ _ Hx). lia.
Qed.

(** What a poll of a reader that stands at [p] reads. *)
Definition poll_range (p : Z) (a : poll_answer) : list logged :=
  filter (λ c : logged, p <= be_value c.1 < next_stand p a ∧ be_value c.1 ∉ passed_over p a) log.

Lemma poll_range_empty p a : next_stand p a = p ∨ passed_over p a = [p] → poll_range p a = [].
Proof.
  intros Hq. unfold poll_range. destruct (filter _ log) as [|x k] eqn:E; [done|]. exfalso.
  assert (x ∈ x :: k) as Hx by left. rewrite <- E in Hx. apply list_elem_of_filter in Hx as [[Hx Hn] _].
  destruct Hq as [Hq|Hq]; [lia|]. destruct (passed_over_range p a p) as [_ Hs]; [rewrite Hq; left|].
  apply Hn. rewrite Hq. apply list_elem_of_singleton. lia.
Qed.

Lemma poll_any p a w now r :
  stands_at p r → poll_answered a w →
  ∃ r' res, reader_poll quote database w now r = (r', res) ∧ stands_at (next_stand p a) r' ∧
    event_content <$> (match res with Ok (es, _) => es | Err _ => [] end) = change_content columns <$> poll_range p a.
Proof.
  intros Hr Ha.
  assert (Hstay : (∃ e, reader_poll quote database w now r = (r, Err e)) → next_stand p a = p →
    ∃ r' res, reader_poll quote database w now r = (r', res) ∧ stands_at (next_stand p a) r' ∧
      event_content <$> (match res with Ok (es, _) => es | Err _ => [] end) = change_content columns <$> poll_range p a).
  { intros [e ->] Hp. do 2 eexists. split; [done|]. rewrite poll_range_empty by (by left). by rewrite Hp. }
  destruct a as [m|m|]; cbn [poll_answered] in Ha.
  - pose proof Ha as (Hmax & Hlm & Hbound & Hq). destruct (Z.lt_trichotomy (be_value m) p) as [Hm|[Hm|Hm]].
    + apply Hstay; [|cbn; destruct (Z.leb_spec p (be_value m)); lia]. apply poll_refused with p m; [done..|lia|].
      intros b Hb. rewrite Hq, bool_decide_eq_false_2 by lia. eauto.
    + destruct (poll_at_max p m w now r Hr Hmax Hlm Hbound Hm) as (r' & -> & Hs). do 2 eexists. split; [done|].
      rewrite poll_range_empty by (right; cbn; by rewrite Hm, Z.eqb_refl). cbn. by rewrite Hm, Z.leb_refl.
    + assert (Hne : m ≠ []) by (destruct Hr as (_ & b & _ & _ & _ & Hlen & Hb & _); intros ->; destruct b; [done|cbn in *; lia]).
      destruct (poll_step p m w now r Hr Ha Hne) as [_ Hread]. destruct (Hread Hm) as (r' & es & -> & Hs & Hes).
      do 2 eexists. split; [done|]. cbn [next_stand]. rewrite (proj2 (Z.leb_le p (be_value m))) by lia. split; [done|].
      rewrite Hes. f_equal. unfold in_range, poll_range. apply list_filter_iff. intros c. cbn [next_stand passed_over].
      rewrite (proj2 (Z.leb_le p (be_value m))), (proj2 (Z.eqb_neq p (be_value m))) by lia.
      split; [intros ?; split; [lia|apply not_elem_of_nil]|intros [? _]; lia].
  - destruct Ha as (Hmax & Hlm & Hbound & Hq). destruct (decide (be_value m = p)) as [Hm|Hm].
    + destruct (poll_at_max p m w now r Hr Hmax Hlm Hbound Hm) as (r' & -> & Hs). do 2 eexists. split; [done|].
      rewrite poll_range_empty by (right; cbn; by rewrite Hm, Z.eqb_refl). cbn. by rewrite Hm, Z.eqb_refl.
    + apply Hstay; [|cbn; by rewrite (proj2 (Z.eqb_neq p (be_value m)))]. apply poll_refused with p m; eauto.
  - apply Hstay; [|done]. destruct Ha as [e Hmax]. unfold reader_poll, cdc_ReadChanges, getCurrentLSN. rewrite Hmax. cbn. eauto.
Qed.

(** The changes below an LSN come before those from it on. *)
Lemma filter_split (P Q R : logged → Prop) `{∀ c, Decision (P c)} `{∀ c, Decision (Q c)} `{∀ c, Decision (R c)} mid :
  (∀ c, P c → be_value c.1 < mid) → (∀ c, Q c → mid <= be_value c.1) → (∀ c, R c ↔ P c ∨ Q c) →
  filter P log ++ filter Q log = filter R log.
Proof.
  clear Hgood. intros HP HQ HR. induction Hsorted as [|c l Hs IH Hall]; [done|]. specialize (IH Hs). rewrite !filter_cons.
  destruct (decide (P c)) as [Hp|Hp].
  - rewrite decide_False by (intros Hq; specialize (HP c Hp); specialize (HQ c Hq); lia).
    rewrite decide_True by (apply HR; by left). by rewrite <- IH.
  - destruct (decide (Q c)) as [Hq|Hq]; [|rewrite decide_False by (rewrite HR; tauto); done].
    rewrite decide_True by (apply HR; by right). rewrite <- IH.
    destruct (filter P l) as [|x k] eqn:E; [done|]. exfalso. assert (x ∈ filter P l) as Hx by (rewrite E; left).
    apply list_elem_of_filter in Hx as [Hx Hin]. rewrite Forall_forall in Hall. specialize (Hall x Hin).
    specialize (HP x Hx). specialize (HQ c Hq). lia.
Qed.

Lemma polls_content l ws p r r' es :
  stands_at p r → Forall2 poll_answered l ws → run_polls quote database ws r = (r', es) →
  stands_at (stands_after p l) r' ∧
  event_content <$> es =
  change_content columns <$>
    filter (λ c : logged, p <= be_value c.1 < stands_after p l ∧ be_value c.1 ∉ all_passed_over p l) log.
Proof.
  intros Hr Hw. revert p r r' es Hr. induction Hw as [|a w l ws Ha _ IH]; intros p r r' es Hr; cbn [run_polls stands_after all_passed_over].
  { intros [= <- <-]. split; [done|]. symmetry. destruct (filter _ log) as [|x k] eqn:E; [done|]. exfalso.
    assert (x ∈ x :: k) as Hx by left. rewrite <- E in Hx. apply list_elem_of_filter in Hx as [Hx _]. lia. }
  destruct (poll_any p a w (cw_now w 0) r Hr Ha) as (r1 & res & -> & Hr1 & Hes1).
  destruct (run_polls quote database ws r1) as [r2 es2] eqn:E2. destruct (IH _ _ _ _ Hr1 E2) as [Hr2 Hes2].
  intros [= <- <-]. split; [done|].
  assert (Hes : event_content <$> (match res with Ok (changes, _) => changes ++ es2 | Err _ => es2 end) =
    (event_content <$> (match res with Ok (es, _) => es | Err _ => [] end)) ++ (event_content <$> es2)).
  { destruct res as [[es1 ?]|]; [apply fmap_app|done]. }
  rewrite Hes, Hes1, Hes2, <- fmap_app. f_equal. apply filter_split with (next_stand p a).
  - intros c [Hc _]. lia.
  - intros c [Hc _]. lia.
  - intros c. rewrite not_elem_of_app. pose proof (next_stand_le p a). pose proof (stands_after_le l (next_stand p a)).
    pose proof (all_passed_over_ge l (next_stand p a) (be_value c.1)) as Hge. pose proof (passed_over_range p a (be_value c.1)) as Hpo.
    split.
    + intros [Hc [Hn1 Hn2]]. destruct (decide (be_value c.1 < next_stand p a)); [left|right]; (split; [lia|done]).
    + intros [[Hc Hn]|[Hc Hn]]; (split; [lia|]); (split; [|]); try done.
      * intros Hin. specialize (Hge Hin). lia.
      * intros Hin. destruct (Hpo Hin). lia.
Qed.
(** The values of a row under the names of their columns, and nothing else. *)
Definition named_values (values : list value) (r : RowData) : Prop :=
  ∀ name v, f_Value <$> rd_lookup r name = Some v ↔ ∃ i, columns !! i = Some name ∧ values !! i = Some v.

(** The event of a change in the change table. *)
Definition shows (c : logged) (e : ChangeEvent) : Prop :=
  pos_ChangeLsn (ev_Position e) = hex_EncodeToString c.1 ∧
  match c.2 with
  | CdcInsert after => ev_Type e = EventTypeInsert ∧ ev_Before e = RowData_zero ∧ named_values after (ev_After e)
  | CdcDelete before => ev_Type e = EventTypeDelete ∧ named_values before (ev_Before e) ∧ ev_After e = RowData_zero
  | CdcUpdate before after =>
      ev_Type e = EventTypeUpdate ∧ named_values after (ev_After e) ∧
      match before with Some before => named_values before (ev_Before e) | None => ev_Before e = RowData_zero end
  end.

Lemma foldl_insert_values (l : list (string * value)) : ∀ m : gmap string Field,
  NoDup l.*1 → ∀ name v,
  f_Value <$> foldl (λ m '(c, v), <[c := mkField c v "" false]> m) m l !! name = Some v ↔
  (name, v) ∈ l ∨ name ∉ l.*1 ∧ f_Value <$> m !! name = Some v.
Proof.
  clear. induction l as [|[c w] l IH]; intros m Hnd name v; cbn [foldl].
  { split; [intros H; right; split; [apply not_elem_of_nil|done]|by intros [?%not_elem_of_nil|[_ ?]]]. }
  rewrite fmap_cons in Hnd |- *. apply NoDup_cons in Hnd as [Hc Hnd]. rewrite IH by done. cbn [fst] in *.
  assert (Hin : ∀ x, (c, x) ∈ l → False) by (intros x Hx; apply Hc; by apply (list_elem_of_fmap_2 fst) in Hx).
  rewrite elem_of_cons, not_elem_of_cons. destruct (decide (name = c)) as [->|Hne].
  - rewrite lookup_insert_eq. cbn. naive_solver.
  - rewrite lookup_insert_ne by done. naive_solver.
Qed.

Lemma row_data_named values : NoDup columns → named_values values (cdc_row_data columns values).
Proof.
  clear. intros Hnd name v. unfold rd_lookup, cdc_row_data. cbn [rd_Fields mbind option_bind].
  assert (Hfst : NoDup (zip columns values).*1).
  { revert values. induction Hnd as [|c cs Hc _ IH]; intros [|w values]; cbn; try constructor; [|apply IH].
    intros ([c' x] & -> & Hx)%list_elem_of_fmap. apply elem_of_zip_l in Hx. done. }
  rewrite foldl_insert_values by done. rewrite lookup_empty. cbn. rewrite list_elem_of_lookup. split.
  - intros [[i Hi]|[_ ?]]; [|done]. apply lookup_zip_Some in Hi as [Hc Hv]. eauto.
  - intros (i & Hc & Hv). left. exists i. by apply lookup_zip_Some.
Qed.

Lemma content_shows c e : NoDup columns → event_content e = change_content columns c → shows c e.
Proof.
  clear. intros Hnd. unfold shows. destruct c as [lsn [after|before|[before|] after]]; cbn; intros [= Ht Hb Ha Hl];
    rewrite ?Ht, ?Hb, ?Ha; split_and!; eauto using row_data_named.
Qed.

End Polls.

(** ** Runs *)

Module CdcRuns.
Definition columns : list string := ["id"; "name"].
Definition meta : list string := ["__$start_lsn"; "__$operation"; "__$update_mask"].

Definition log : list logged := [
  ([Byte.x00; Byte.x05], CdcInsert [VInt64 1; VString "a"]);
  ([Byte.x00; Byte.x05], CdcInsert [VInt64 2; VString "b"]);
  ([Byte.x00; Byte.xff], CdcUpdate (Some [VInt64 1; VString "a"]) [VInt64 1; VString "c"]);
  ([Byte.x01; Byte.x02], CdcDelete [VInt64 2; VString "b"])].

(** The database when its largest LSN is [max]. *)
Definition world (max : list Byte.byte) : cdc_world :=
  mkCDCWorld (Ok max) (λ _, Ok [Byte.x00; Byte.x01])
    (λ _ from to,
       if bool_decide (be_value from <= be_value to)
       then Ok (mkCDCRows (Ok (meta ++ columns)) (Ok <$> (in_range log (be_value from) (be_value to) ≫= change_rows)) None)
       else Err (ErrNew "An insufficient number of arguments were supplied")) (λ _, 0).

Definition reader (lsn : list Byte.byte) : CDCReader :=
  mkCDCReader "dbo_users" (Some (mkLSNPosition (hex_EncodeToString lsn) 0)).

Lemma log_good : Forall (good_logged columns) log.
Proof. repeat (apply Forall_cons_2; [by split|]). apply Forall_nil_2. Qed.

Lemma log_sorted : StronglySorted (λ a b : logged, be_value a.1 <= be_value b.1) log.
Proof. repeat (apply SSorted_cons || apply SSorted_nil || apply Forall_cons_2 || apply Forall_nil_2); vm_compute; discriminate. Qed.

Lemma world_answers max :
  length max = 2%nat → be_value max + 1 < 256 ^ Z.of_nat 2 → answers "dbo_users" columns meta log 2 max (world max).
Proof. intros Hl Hb. split; [done|]. by split. Qed.

Lemma reader_stands b p : length b = 2%nat → be_value b = p → stands_at "dbo_users" 2 p (reader b).
Proof. intros Hl Hp. split; [done|]. exists b, (mkLSNPosition (hex_EncodeToString b) 0).
  split; [done|]. split; [done|]. split; [done|]. split; [by destruct b|done]. Qed.

(** Three polls, the second of which finds nothing new. *)
Definition maxima : list (list Byte.byte) := [[Byte.x00; Byte.x05]; [Byte.x00; Byte.x05]; [Byte.x01; Byte.x02]].

Lemma cdc_polls_read_once_witness :
  event_content <$> (run_polls (λ s, s) "shop" (world <$> maxima) (reader [Byte.x00; Byte.x01])).2 =
  change_content columns <$> log.
Proof.
  destruct (run_polls (λ s, s) "shop" (world <$> maxima) (reader [Byte.x00; Byte.x01])) as [r' es] eqn:E.
  opose proof* (cdc_polls_read_once (λ s, s) "shop" "dbo_users" columns meta log 2 eq_refl log_good log_sorted
    maxima (world <$> maxima) 1 (reader [Byte.x00; Byte.x01]) r' es) as H.
  - by apply reader_stands.
  - cbn. split_and!; done || (vm_compute; tauto).
  - repeat (apply Forall2_cons_2; [by apply world_answers|]). apply Forall2_nil_2.
  - exact E.
  - cbn [snd]. rewrite H. reflexivity.
Defined.

(** Four polls: one of them fails, and one finds the largest LSN where the reader stands. *)
Definition polls_answers : list poll_answer := [Reads [Byte.x00; Byte.x04]; NoMax; Reads [Byte.x00; Byte.x05]; Reads [Byte.x01; Byte.x02]].
Definition poll_worlds : list cdc_world :=
  [world [Byte.x00; Byte.x04]; mkCDCWorld (Err IoEOF) (λ _, Err IoEOF) (λ _ _ _, Err IoEOF) (λ _, 0); world [Byte.x00; Byte.x05]; world [Byte.x01; Byte.x02]].


(** The largest LSN is the next one: the change at it is not read. *)
Lemma cdc_next_lsn_skipped_witness :
  reader_poll (λ s, s) "shop" (world [Byte.x00; Byte.x05]) 0 (reader [Byte.x00; Byte.x05]) =
    (reader [Byte.x00; Byte.x06], Ok ([], "0005")) ∧ in_range log 5 5 ≠ [].
Proof.
  split; [|done].
  opose proof* (cdc_next_lsn_skipped (λ s, s) "shop" "dbo_users" columns meta log 2
    [Byte.x00; Byte.x05] (world [Byte.x00; Byte.x05]) 0 (reader [Byte.x00; Byte.x05])) as H.
  - by apply reader_stands.
  - by apply world_answers.
  - done.
  - destruct H as (r' & E & _). rewrite E. f_equal. vm_compute in E. by simplify_eq.
Defined.
End CdcRuns.
