(* ===== verification/SQLServerConnector.v ===== *)
(** The SQL Server source connector (internal/source/sqlserver): configuration
    (config.go), definitions of tables (schema_cache.go), and connector.go: the capture
    instances, the detection of DDL and the polls over all readers.

    The database is a parameter ([poll_world], [init_world]), and so are the schema
    history and the offset storage, by their interfaces. *)
From Stdlib Require Import ZArith Lia Ascii.
From Stdlib Require String Strings.Byte.
From stdpp Require Import prelude countable gmap strings list fin_maps pretty sorting.
From S2P Require Import Prelude Events Strings SchemaHistory TargetStore TableLifecycle Scope BinlogConsumer Buffers LogMiner MySQLRows Offsets BinlogSyncer MySQLConnector DocumentSinks MongoSink SQLServerReader.
Local Open Scope Z_scope.

Definition src_ErrInvalidConfig : goerror := ErrCode "DS:Source:InvalidConfig".

(** ** config.go *)

Record MSConfig := mkMSConfig {
  mq_Host : string;
  mq_Port : Z;
  mq_User : string;
  mq_Password : string;
  mq_Database : string;
  mq_PollInterval : duration;
  mq_BatchSize : Z;
  mq_Schemas : list string;
  mq_Tables : gmap string string;
  mq_DataDir : string
}.

Definition mssql_DefaultConfig : MSConfig := mkMSConfig "" 1433 "" "" "" 1000000000 1000 ["dbo"] ∅ "".

Definition mssql_Validate (c : MSConfig) : result unit :=
  if bool_decide (mq_Host c = "") then Err src_ErrInvalidConfig
  else if bool_decide (mq_User c = "") then Err src_ErrInvalidConfig
  else if bool_decide (mq_Password c = "") then Err src_ErrInvalidConfig
  else if bool_decide (mq_Database c = "") then Err src_ErrInvalidConfig
  else Ok tt.

(** The configuration of a source (internal/source/connector.go), as far as the
    connectors read it. *)
Record TableFilter := mkTableFilter { tf_Database : string; tf_Schema : string; tf_Tables : list string }.

Section Source.
Context `{RX : Regexp}.

Record source_Config := mkSourceConfig {
  so_Type : string;
  so_Connection : ConnectionConfig;
  so_Properties : gmap string property;
  so_Tables : list TableFilter;
  so_OffsetBackend : string;
  so_OffsetPath : string;
  so_OffsetFlush : Z;
  so_SyncScope : option SyncScope
}.

Definition so_number (c : source_Config) (name : string) : option Z :=
  match so_Properties c !! name with Some (PValue (VFloat64 f)) => Some (int_of_float64 f) | _ => None end.
Definition so_string (c : source_Config) (name : string) : option string :=
  match so_Properties c !! name with Some (PValue (VString s)) => Some s | _ => None end.

(** The schemas of the filters, each once; they are added to the default's. *)
Definition collect_schemas (schemas : list string) (tf : TableFilter) : list string :=
  let schema := if bool_decide (tf_Schema tf = "") then tf_Database tf else tf_Schema tf in
  if bool_decide (schema = "") then schemas
  else if bool_decide (schema ∈ schemas) then schemas
  else schemas ++ [schema].

Definition mssql_parseConfig (config : source_Config) : MSConfig :=
  let d := mssql_DefaultConfig in
  let conn := so_Connection config in
  mkMSConfig (cc_Host conn) (cc_Port conn) (cc_User conn) (cc_Password conn) (cc_Database conn)
    (from_option (λ z, i64 (z * 1000000)) (mq_PollInterval d) (so_number config "pollInterval"))
    (default (mq_BatchSize d) (so_number config "batchSize"))
    (foldl collect_schemas (mq_Schemas d) (so_Tables config))
    (mq_Tables d)
    (default (mq_DataDir d) (so_string config "dataDir")).
End Source.

(** ** Which tables *)

(** [s[len(s)-n:]] and [s[:n]] for [n] at most the length. *)
Definition str_suffix (n : nat) (s : string) : string := String.substring (String.length s - n) n s.
Definition str_prefix (n : nat) (s : string) : string := String.substring 0 n s.

Definition last_char (s : string) : option ascii := last (String.list_ascii_of_string s).

Definition mssql_matchPattern (pattern name : string) : bool :=
  if bool_decide (pattern = "*") || bool_decide (pattern = "") then true
  else if bool_decide (head (String.list_ascii_of_string pattern) = Some star) then
    let suffix := str_suffix (String.length pattern - 1) pattern in
    (String.length suffix <=? String.length name)%nat && bool_decide (str_suffix (String.length suffix) name = suffix)
  else if bool_decide (last_char pattern = Some star) then
    let prefix := str_prefix (String.length pattern - 1) pattern in
    (String.length prefix <=? String.length name)%nat && bool_decide (str_prefix (String.length prefix) name = prefix)
  else bool_decide (pattern = name).

(** The first schema that fits decides. *)
Definition mssql_shouldCapture (c : MSConfig) (schema table : string) : bool :=
  match mq_Schemas c with
  | [] => true
  | schemas =>
      match list_find (λ s, s = schema ∨ s = "*") schemas with
      | Some _ =>
          match mq_Tables c !! schema with
          | Some pattern => bool_decide (pattern = "*") || bool_decide (pattern = "") || mssql_matchPattern pattern table
          | None => true
          end
      | None => false
      end
  end.

(** ** schema_cache.go *)

Record column_def := mkColumnDef { cd_name : string; cd_type : string; cd_nullable : string }.

(** The two queries of a definition: the columns and the columns of the primary key; the
    rows as they are scanned and the error at the end of the iteration. *)
Record schema_answer := mkSchemaAnswer {
  sa_columns : result (list (result column_def) * option goerror);
  sa_keys : result (list (result string) * option goerror)
}.

Fixpoint scan_all {A B} (what : string) (f : A → B) (rows : list (result A)) : result (list B) :=
  match rows with
  | [] => Ok []
  | Err e :: _ => Err (ErrWrapf what e)
  | Ok a :: rows => l ← scan_all what f rows; Ok (f a :: l)
  end.

Definition rows_err (what : string) (e : option goerror) : result unit :=
  match e with Some e => Err (ErrWrapf what e) | None => Ok tt end.

Definition mssql_querySchema (a : schema_answer) (schema table : string) : result TableInfo :=
  match sa_columns a with
  | Err e => Err (ErrWrapf "failed to query columns" e)
  | Ok (rows, iterErr) =>
      columns ← scan_all "failed to scan column"
                  (λ c, mkColumnInfo (cd_name c) (cd_type c) (bool_decide (cd_nullable c = "YES")) 0 0) rows;
      rows_err "failed to iterate columns" iterErr ≫= λ _,
      match columns with
      | [] => Err (ErrNew ("table " +:+ schema +:+ "." +:+ table +:+ " not found"))
      | _ =>
          match sa_keys a with
          | Err e => Err (ErrWrapf "failed to query primary keys" e)
          | Ok (rows, iterErr) =>
              keys ← scan_all "failed to scan primary key column" id rows;
              rows_err "failed to iterate primary keys" iterErr ≫= λ _,
              Ok (mkTableInfo schema "" table keys [] columns)
          end
      end
  end.

Notation schema_cache := (gmap string TableInfo) (only parsing).

Section SchemaCache.
Context (db : string → string → schema_answer).

Definition mssql_Get (schema table : string) : ST schema_cache TableInfo := λ c,
  match c !! (schema +:+ "." +:+ table) with
  | Some info => (c, Ok info)
  | None =>
      match mssql_querySchema (db schema table) schema table with
      | Ok info => (<[schema +:+ "." +:+ table := info]> c, Ok info)
      | Err e => (c, Err e)
      end
  end.

Definition mssql_Update (schema table : string) (info : TableInfo) (c : schema_cache) : schema_cache :=
  <[schema +:+ "." +:+ table := info]> c.

Definition mssql_Invalidate (schema table : string) (c : schema_cache) : schema_cache :=
  delete (schema +:+ "." +:+ table) c.

Definition mssql_InvalidateAll (c : schema_cache) : schema_cache := ∅.

Definition mssql_Refresh (schema table : string) : ST schema_cache unit := λ c,
  match mssql_querySchema (db schema table) schema table with
  | Ok info => (mssql_Update schema table info c, Ok tt)
  | Err e => (c, Err e)
  end.
End SchemaCache.

(** ** connector.go *)

Record ddl_object := mkDDLObject { do_schema : string; do_table : string; do_modified : time }.

(** What a poll reads outside the connector: the modified objects since a time, the
    definitions, the change tables (each reader asks for itself) and the clock. *)
Record poll_world := mkPollWorld {
  pw_objects : time → result (list (result ddl_object));
  pw_schemas : string → string → schema_answer;
  pw_cdc : string → cdc_world;
  pw_now : time;
  pw_record : string → nat → time;             (* the readings of a DDL record *)
  pw_committed : time                          (* when the position is updated *)
}.

Record init_world (H O : Type) := mkInitWorld {
  iw_open : result unit;
  iw_ping : result unit;
  iw_history : string → result H;
  iw_storage : string → result O;
  iw_instances : result (list (result (string * string * string)) * option goerror)
}.
Arguments mkInitWorld {_ _} _ _ _ _ _.
Arguments iw_open {_ _} _.
Arguments iw_ping {_ _} _.
Arguments iw_history {_ _} _ _.
Arguments iw_storage {_ _} _ _.
Arguments iw_instances {_ _} _.

Definition with_table (info : TableInfo) (e : ChangeEvent) : ChangeEvent :=
  mkChangeEvent (ev_ID e) (ev_Source e) (ev_Type e) (ev_Position e) info (ev_Before e) (ev_After e) (ev_Timestamp e)
    (ev_Transaction e) (ev_Schema e) (ev_Metadata e).

Definition UnixNano (t : time) : Z := i64 (t - unix_epoch).

Section Connector.
Context {H O : Type} `{!SchemaHistory H} `{!Storage O} `{RX : Regexp} `{!GoRange string CDCReader}.
Context (quote : string → string) (format_ts : time → string).

(** The definitions of the history are shared with the manager of DDL records: while
    there is one, they are the manager's.  The connections are left out. *)
Record MSConnector := mkMSConnector {
  mss_config : option MSConfig;
  mss_state : SourceState;
  mss_position : option Position;
  mss_events : list ChangeEvent;               (* sent *)
  mss_selects : list bool;                     (* how the next sends end; then they succeed *)
  mss_errors : list goerror;                   (* waiting in the channel *)
  mss_stopClosed : bool;
  mss_readers : gmap string CDCReader;
  mss_cache : gmap string TableInfo;
  mss_tables : gmap string TableInfo;
  mss_manager : option (DDLRecordManager H);
  mss_offset : option O;
  mss_taskID : string;
  mss_scope : option SyncScope;
  mss_lastDDLCheck : time
}.
Implicit Types c : MSConnector.

Definition mss_New : MSConnector :=
  mkMSConnector None SourceUninitialized None [] [] [] false ∅ ∅ ∅ None None "" None 0.

Definition mss_set_state st c := mkMSConnector (mss_config c) st (mss_position c) (mss_events c) (mss_selects c) (mss_errors c)
  (mss_stopClosed c) (mss_readers c) (mss_cache c) (mss_tables c) (mss_manager c) (mss_offset c) (mss_taskID c) (mss_scope c)
  (mss_lastDDLCheck c).
Definition mss_set_config cfg sc c := mkMSConnector (Some cfg) (mss_state c) (mss_position c) (mss_events c) (mss_selects c)
  (mss_errors c) (mss_stopClosed c) (mss_readers c) (mss_cache c) (mss_tables c) (mss_manager c) (mss_offset c) (mss_taskID c)
  sc (mss_lastDDLCheck c).
Definition mss_set_position p c := mkMSConnector (mss_config c) (mss_state c) p (mss_events c) (mss_selects c) (mss_errors c)
  (mss_stopClosed c) (mss_readers c) (mss_cache c) (mss_tables c) (mss_manager c) (mss_offset c) (mss_taskID c) (mss_scope c)
  (mss_lastDDLCheck c).
Definition mss_set_chans evs sel errs c := mkMSConnector (mss_config c) (mss_state c) (mss_position c) evs sel errs
  (mss_stopClosed c) (mss_readers c) (mss_cache c) (mss_tables c) (mss_manager c) (mss_offset c) (mss_taskID c) (mss_scope c)
  (mss_lastDDLCheck c).
Definition mss_set_stopClosed b c := mkMSConnector (mss_config c) (mss_state c) (mss_position c) (mss_events c) (mss_selects c)
  (mss_errors c) b (mss_readers c) (mss_cache c) (mss_tables c) (mss_manager c) (mss_offset c) (mss_taskID c) (mss_scope c)
  (mss_lastDDLCheck c).
Definition mss_set_readers rs c := mkMSConnector (mss_config c) (mss_state c) (mss_position c) (mss_events c) (mss_selects c)
  (mss_errors c) (mss_stopClosed c) rs (mss_cache c) (mss_tables c) (mss_manager c) (mss_offset c) (mss_taskID c) (mss_scope c)
  (mss_lastDDLCheck c).
Definition mss_set_defs ca t m c := mkMSConnector (mss_config c) (mss_state c) (mss_position c) (mss_events c) (mss_selects c)
  (mss_errors c) (mss_stopClosed c) (mss_readers c) ca t m (mss_offset c) (mss_taskID c) (mss_scope c) (mss_lastDDLCheck c).
Definition mss_set_offset o id c := mkMSConnector (mss_config c) (mss_state c) (mss_position c) (mss_events c) (mss_selects c)
  (mss_errors c) (mss_stopClosed c) (mss_readers c) (mss_cache c) (mss_tables c) (mss_manager c) o id (mss_scope c)
  (mss_lastDDLCheck c).
Definition mss_set_scope sc c := mkMSConnector (mss_config c) (mss_state c) (mss_position c) (mss_events c) (mss_selects c)
  (mss_errors c) (mss_stopClosed c) (mss_readers c) (mss_cache c) (mss_tables c) (mss_manager c) (mss_offset c) (mss_taskID c)
  sc (mss_lastDDLCheck c).
Definition mss_set_lastDDLCheck t c := mkMSConnector (mss_config c) (mss_state c) (mss_position c) (mss_events c) (mss_selects c)
  (mss_errors c) (mss_stopClosed c) (mss_readers c) (mss_cache c) (mss_tables c) (mss_manager c) (mss_offset c) (mss_taskID c)
  (mss_scope c) t.

(** [c.tables], and [c.tables.Put] *)
Definition mss_known c : gmap string TableInfo := from_option dm_tables (mss_tables c) (mss_manager c).

Definition mss_put (info : TableInfo) c : MSConnector :=
  match mss_manager c with
  | Some m => mss_set_defs (mss_cache c) (mss_tables c) (Some (set_tables (Tables_Put info (dm_tables m)) m)) c
  | None => mss_set_defs (mss_cache c) (Tables_Put info (mss_tables c)) None c
  end.

(** *** Channels *)

(** The select that sends an event: whether it was sent before the connector stopped. *)
Definition mss_send (e : ChangeEvent) c : MSConnector * bool :=
  match mss_selects c with
  | false :: q => (mss_set_chans (mss_events c) q (mss_errors c) c, false)
  | q => (mss_set_chans (mss_events c ++ [e]) (tail q) (mss_errors c) c, true)
  end.

(** An error is dropped when a hundred are waiting. *)
Definition mss_report (e : goerror) c : MSConnector :=
  if (length (mss_errors c) <? 100)%nat then mss_set_chans (mss_events c) (mss_selects c) (mss_errors c ++ [e]) c else c.

(** *** Definitions of tables *)

Definition enrichDMLTableInfo (w : poll_world) (e : ChangeEvent) c : MSConnector * ChangeEvent :=
  let db := ti_Database (ev_Table e) in
  let tbl := ti_Table (ev_Table e) in
  match Tables_Get (mss_known c) db tbl with
  | Some info => (c, with_table info e)
  | None =>
      let '(ca, r) := mssql_Get (pw_schemas w) db tbl (mss_cache c) in
      (mss_set_defs ca (mss_tables c) (mss_manager c) c, match r with Ok info => with_table info e | Err _ => e end)
  end.

Definition with_lsn (lsn : string) (t : time) : Position := mkPosition "" 0 0 0 0 0 None lsn "" t "" 0 0.

(** The record of a detected change: an error of a step is not looked at. *)
Definition record_ddl (now : nat → time) (rec : DDLRecord) (m : DDLRecordManager H) : DDLRecordManager H :=
  match Create (now 0%nat) rec m with
  | (m, Ok _) => (MarkCompleted (now 2%nat) (dr_ID rec) (MarkApplying (now 1%nat) (dr_ID rec) m).1).1
  | (m, Err _) => m
  end.

Definition detected_position c (reader : CDCReader) (modified : time) : Position :=
  let lsn := from_option pos_ChangeLsn "" (mss_position c) in
  let lsn := from_option lp_StartLSN lsn (cr_position reader) in
  with_lsn lsn modified.

Definition detected_event (database instance : string) (info : TableInfo) (pos : Position) (modified : time) : ChangeEvent :=
  mkChangeEvent (GenerateEventID format_ts (mkSourceInfo "sqlserver" "" 0 "" "" "" false) modified 0)
    (mkSourceInfo "sqlserver" "" 0 database "" "" false) EventTypeDDL pos info RowData_zero RowData_zero modified None None
    (Some (<["ddl" := "-- " +:+ instance +:+ " detected via sys.objects"]> {["ddlType" := "alter_table"]})).

(** The change of a definition: the table is put, and recorded if there is a manager. *)
Definition put_detected (w : poll_world) (database table : string) (info : TableInfo) (pos : Position) (modified : time) c : MSConnector :=
  let changeType := if Tables_Get (mss_known c) database table then "ALTER" else "CREATE" in
  let c := mss_put info c in
  let id := "ddl_" +:+ database +:+ "_" +:+ table +:+ "_" +:+ pretty (UnixNano modified) in
  let rec := mkDDLRecord id (Some pos) database table ("-- " +:+ changeType +:+ " detected via sys.objects") (Some info)
               DDLStatusPending None None "" 0 0 in           (* the status is set by [Create] *)
  mss_set_defs (mss_cache c) (mss_tables c) (record_ddl (pw_record w id) rec <$> mss_manager c) c.

(** A row of the detection; [false] when the event could not be sent. *)
Definition detect_row (cfg : MSConfig) (w : poll_world) (row : result ddl_object) c : MSConnector * bool :=
  match row with
  | Err _ => (c, true)
  | Ok o =>
      let instance := do_schema o +:+ "_" +:+ do_table o in
      match mss_readers c !! instance with
      | None => (c, true)
      | Some reader =>
          let '(ca, r) := mssql_Get (pw_schemas w) (mq_Database cfg) (do_table o) (mss_cache c) in
          let c := mss_set_defs ca (mss_tables c) (mss_manager c) c in
          match r with
          | Err _ => (c, true)
          | Ok info =>
              let c := mss_set_defs (mssql_Invalidate (mq_Database cfg) (do_table o) (mss_cache c)) (mss_tables c) (mss_manager c) c in
              let pos := detected_position c reader (do_modified o) in
              let c := put_detected w (mq_Database cfg) (do_table o) info pos (do_modified o) c in
              mss_send (detected_event (mq_Database cfg) instance info pos (do_modified o)) c
          end
      end
  end.

Fixpoint detect_rows (cfg : MSConfig) (w : poll_world) (rows : list (result ddl_object)) c : MSConnector * bool :=
  match rows with
  | [] => (c, true)
  | row :: rows =>
      let '(c, go) := detect_row cfg w row c in
      if go then detect_rows cfg w rows c else (c, false)
  end.

Definition detectDDLChanges (cfg : MSConfig) (w : poll_world) c : MSConnector :=
  let now := pw_now w in
  let checkTime := if time_IsZero (mss_lastDDLCheck c) then now - 300000000000 else mss_lastDDLCheck c in
  match pw_objects w checkTime with
  | Err _ => mss_set_lastDDLCheck now c
  | Ok rows =>
      let '(c, done) := detect_rows cfg w rows c in
      if done then mss_set_lastDDLCheck now c else c
  end.

(** *** Polling *)

(** The events of a reader, each with its definition; [false] when one could not be sent. *)
Fixpoint send_changes (w : poll_world) (changes : list ChangeEvent) c : MSConnector * bool :=
  match changes with
  | [] => (c, true)
  | e :: changes =>
      let '(c, e) := enrichDMLTableInfo w e c in
      let '(c, sent) := mss_send e c in
      if sent then send_changes w changes c else (c, false)
  end.

(** [a > b] on strings *)
Definition str_gt (a b : string) : bool := 0 <? strings_Compare a b.

(** The readers in turn, with the largest LSN so far; [false] when the poll is given up. *)
Fixpoint poll_readers (cfg : MSConfig) (w : poll_world) (readers : list (string * CDCReader)) (latest : string) c :
    MSConnector * string * bool :=
  match readers with
  | [] => (c, latest, true)
  | (instance, reader) :: readers =>
      let cw := pw_cdc w instance in
      match cdc_ReadChanges quote (mq_Database cfg) cw reader with
      | Err e => poll_readers cfg w readers latest (mss_report e c)
      | Ok (changes, lastLSN) =>
          let '(c, sent) := send_changes w changes c in
          if sent then
            if bool_decide (lastLSN ≠ "") then
              let c := mss_set_readers (<[instance := cdc_UpdatePosition lastLSN (cw_now cw 0) reader]> (mss_readers c)) c in
              poll_readers cfg w readers (if bool_decide (latest = "") || str_gt lastLSN latest then lastLSN else latest) c
            else poll_readers cfg w readers latest c
          else (c, latest, false)
      end
  end.

(** Saving to the offset storage, if there is one; an error is logged. *)
Definition mss_save (pos : Position) c : MSConnector :=
  mss_set_offset ((λ o, (storage_Save (mss_taskID c) (Some pos) o).1) <$> mss_offset c) (mss_taskID c) c.

Definition pollAll (cfg : MSConfig) (w : poll_world) c : MSConnector :=
  let c := detectDDLChanges cfg w c in
  let '(c, latest, done) := poll_readers cfg w (go_range (mss_readers c)) "" c in
  if done && bool_decide (latest ≠ "") then
    let pos := with_lsn latest (pw_committed w) in
    mss_save pos (mss_set_position (Some pos) c)
  else c.

(** A tick of the loop; a connector without configuration panics when its loop starts. *)
Definition poll_tick (w : poll_world) : ST MSConnector unit := λ c,
  match mss_config c with
  | Some cfg => (pollAll cfg w c, Ok tt)
  | None => (c, Err (Panic "nil pointer dereference"))
  end.

(** *** Initialising *)

Definition new_reader c (instance : string) : CDCReader :=
  match mss_position c with
  | Some p =>
      if bool_decide (pos_ChangeLsn p ≠ "") then mkCDCReader instance (Some (mkLSNPosition (pos_ChangeLsn p) (pos_CommitTime p)))
      else mkCDCReader instance None
  | None => mkCDCReader instance None
  end.

Fixpoint register_readers (cfg : MSConfig) (rows : list (result (string * string * string))) : ST MSConnector unit := λ c,
  match rows with
  | [] => (c, Ok tt)
  | Err e :: _ => (c, Err (ErrWrapf "failed to scan CDC table row" e))
  | Ok (instance, schema, name) :: rows =>
      register_readers cfg rows
        (if mssql_shouldCapture cfg schema name
         then mss_set_readers (<[instance := new_reader c instance]> (mss_readers c)) c else c)
  end.

Definition initCDCReaders (cfg : MSConfig) (w : init_world H O) : ST MSConnector unit :=
  match iw_instances w with
  | Err e => st_lift (Err (ErrWrapf "failed to query CDC change tables" e))
  | Ok (rows, iterErr) =>
      register_readers cfg rows ≫= λ _,
      st_lift (rows_err "failed to iterate CDC change tables" iterErr)
  end.

(** The history of the data directory, if it can be made, with the definitions that it
    brings back; an error is logged. *)
Definition init_history (cfg : MSConfig) (w : init_world H O) c : MSConnector :=
  let m := if bool_decide (mq_DataDir cfg ≠ "") then
             match iw_history w (mq_DataDir cfg) with
             | Ok h => Some (mkDDLRecordManager ∅ NewTables h)
             | Err _ => None
             end
           else None in
  let m := match m with
           | Some m => Some (set_tables (hist_Recover (mss_position c) (dm_history m) (dm_tables m)).1 m)
           | None => None
           end in
  mss_set_defs ∅ NewTables m c.

(** The offset storage, and the position it holds. *)
Definition init_offset (config : source_Config) (w : init_world H O) : ST MSConnector unit := λ c,
  if bool_decide (so_OffsetBackend config ≠ "") then
    match iw_storage w (so_OffsetBackend config) with
    | Err e => (c, Err (ErrWrapf "failed to create offset storage" e))
    | Ok o =>
        let '(o, r) := storage_Load (so_Type config) o in
        let c := mss_set_offset (Some o) (so_Type config) c in
        (match r with Ok (Some p) => mss_set_position (Some p) c | _ => c end, Ok tt)
    end
  else (c, Ok tt).

Definition mss_Initialize (config : source_Config) (w : init_world H O) : ST MSConnector unit :=
  let cfg := mssql_parseConfig config in
  st_lift (mssql_Validate cfg) ≫= λ _,
  st_modify (λ c, mss_set_state SourceInitializing (mss_set_config cfg (so_SyncScope config) c)) ≫= λ _,
  st_lift (match iw_open w with Err e => Err (ErrWrapf "failed to open database" e) | Ok _ => Ok tt end) ≫= λ _,
  st_lift (match iw_ping w with Err e => Err (ErrWrapf "failed to connect to database" e) | Ok _ => Ok tt end) ≫= λ _,
  st_modify (init_history cfg w) ≫= λ _,
  init_offset config w ≫= λ _,
  (λ c, let '(c, r) := initCDCReaders cfg w c in
        (c, match r with Err e => Err (ErrWrapf "failed to initialize CDC readers" e) | Ok _ => Ok tt end)) ≫= λ _,
  st_modify (mss_set_state SourceStopped).

(** *** Starting, stopping and the position *)

Definition mss_Start : ST MSConnector unit := λ c,
  if bool_decide (mss_state c = SourceRunning) then (c, Err src_ErrAlreadyRunning)
  else (mss_set_state SourceRunning c, Ok tt).

(** Closing a channel twice panics. *)
Definition mss_Stop : ST MSConnector unit := λ c,
  if negb (bool_decide (mss_state c = SourceRunning)) then (c, Ok tt)
  else
    let c := mss_set_state SourceStopped c in
    if mss_stopClosed c then (c, Err (Panic "close of closed channel"))
    else
      let c := mss_set_stopClosed true c in
      (match mss_position c with Some p => mss_save p c | None => c end, Ok tt).

Definition mss_GetPosition c : option Position := Position_Clone <$> mss_position c.

Definition mss_SetPosition (pos : option Position) : ST MSConnector unit := λ c,
  match pos with
  | None => (c, Err (Panic "nil pointer dereference"))
  | Some p =>
      let c := mss_set_position (Some (Position_Clone p)) c in
      let lsn := mkLSNPosition (pos_ChangeLsn p) (pos_CommitTime p) in
      let c := mss_set_readers (cdc_SetPosition (Some lsn) <$> mss_readers c) c in
      (mss_save (Position_Clone p) c, Ok tt)
  end.

Definition mss_GetSchema (w : poll_world) (database table : string) : ST MSConnector TableInfo := λ c,
  let '(ca, r) := mssql_Get (pw_schemas w) database table (mss_cache c) in
  (mss_set_defs ca (mss_tables c) (mss_manager c) c, r).

Definition mss_Schemas c : gmap string TableInfo := Tables_All (mss_known c).

(** *** Tables: the scope changes, the readers do not *)

Definition mss_AddTables (tables : list string) : ST MSConnector unit := λ c,
  match table_level (mss_scope c) with
  | None => (c, Err ErrInvalidSyncScope)
  | Some sc => (mss_set_scope (Some (with_names (ts_Names (ss_Tables sc) ++ tables) sc)) c, Ok tt)
  end.

Definition mss_RemoveTables (tables : list string) : ST MSConnector unit := λ c,
  match table_level (mss_scope c) with
  | None => (c, Err ErrInvalidSyncScope)
  | Some sc => (mss_set_scope (Some (with_names (filter (λ n, n ∉ tables) (ts_Names (ss_Tables sc))) sc)) c, Ok tt)
  end.

Definition mss_ListTables c : list string :=
  match table_level (mss_scope c) with Some sc => ts_Names (ss_Tables sc) | None => [] end.
End Connector.

Arguments MSConnector H O {RX}.

(** ** The order of LSNs *)

Lemma hex_digit_compare x y : (x < 16)%N → (y < 16)%N → Ascii.compare (hex_digit x) (hex_digit y) = (x ?= y)%N.
Proof.
  intros Hx Hy. unfold hex_digit, Ascii.compare.
  destruct (N.ltb_spec x 10), (N.ltb_spec y 10); rewrite !N_ascii_embedding by lia; destruct (N.compare_spec x y);
    first [apply N.compare_eq_iff|apply N.compare_lt_iff|apply N.compare_gt_iff]; lia.
Qed.

Lemma hex_byte_compare a b s t :
  String.compare (hex_byte a +:+ s) (hex_byte b +:+ t) =
  match byte_to_Z a ?= byte_to_Z b with Eq => String.compare s t | o => o end.
Proof.
  unfold hex_byte. rewrite !string_app_cons, !string_app_nil_l. cbn [String.compare].
  pose proof (Byte.to_N_bounded a) as Ha. pose proof (Byte.to_N_bounded b) as Hb. unfold byte_to_Z. rewrite N2Z.inj_compare.
  rewrite !hex_digit_compare by first [by apply N.mod_lt|apply N.Div0.div_lt_upper_bound; lia].
  pose proof (N.div_mod (Byte.to_N a) 16 ltac:(lia)) as Ea. pose proof (N.div_mod (Byte.to_N b) 16 ltac:(lia)) as Eb.
  pose proof (N.mod_lt (Byte.to_N a) 16 ltac:(lia)). pose proof (N.mod_lt (Byte.to_N b) 16 ltac:(lia)).
  destruct (N.compare_spec (Byte.to_N a / 16) (Byte.to_N b / 16)) as [E|E|E].
  - rewrite E in Ea. destruct (N.compare_spec (Byte.to_N a mod 16) (Byte.to_N b mod 16)) as [E'|E'|E'].
    + by rewrite (proj2 (N.compare_eq_iff _ _)) by lia.
    + by rewrite (proj2 (N.compare_lt_iff _ _)) by lia.
    + by rewrite (proj2 (N.compare_gt_iff _ _)) by lia.
  - assert (Byte.to_N a < Byte.to_N b)%N as Hlt
      by (apply N.nle_gt; intros Hle; apply (N.Div0.div_le_mono _ _ 16) in Hle; by apply N.le_ngt in Hle).
    by rewrite (proj2 (N.compare_lt_iff _ _) Hlt).
  - assert (Byte.to_N b < Byte.to_N a)%N as Hlt
      by (apply N.nle_gt; intros Hle; apply (N.Div0.div_le_mono _ _ 16) in Hle; by apply N.le_ngt in Hle).
    by rewrite (proj2 (N.compare_gt_iff _ _) Hlt).
Qed.

(** On LSNs of one width the order of the texts is the order of the numbers. *)
Lemma hex_compare l : ∀ k, length l = length k →
  String.compare (hex_EncodeToString l) (hex_EncodeToString k) = (be_value l ?= be_value k).
Proof.
  induction l as [|a l IH]; intros [|b k] Hlen; [done..|]. cbn in Hlen. injection Hlen as Hlen.
  cbn [hex_EncodeToString be_value]. rewrite hex_byte_compare, IH by done.
  assert (Hz : zlen k = zlen l) by (unfold zlen; lia). rewrite Hz.
  pose proof (be_value_range l). pose proof (be_value_range k) as Hk. rewrite Hz in Hk. pose proof (pow256_pos l).
  destruct (Z.compare_spec (byte_to_Z a) (byte_to_Z b)) as [E|E|E].
  - rewrite E. symmetry. apply Z.add_compare_mono_l.
  - symmetry. apply Z.compare_lt_iff. nia.
  - symmetry. apply Z.compare_gt_iff. nia.
Qed.

Lemma str_gt_hex l k : length l = length k → str_gt (hex_EncodeToString l) (hex_EncodeToString k) = (be_value k <? be_value l).
Proof.
  intros Hlen. unfold str_gt, strings_Compare. rewrite hex_compare by done.
  destruct (Z.compare_spec (be_value l) (be_value k)); lia.
Qed.

(** ** What polling delivers *)

(** The events of a channel in blocks, each of one reader or ([None]) of the detection. *)
Notation block := (option string * list ChangeEvent)%type.

Definition block_of (k : option string) (bs : list block) : list ChangeEvent := filter (λ b, b.1 = k) bs ≫= snd.

Lemma block_of_app k bs bs' : block_of k (bs ++ bs') = block_of k bs ++ block_of k bs'.
Proof. unfold block_of. by rewrite filter_app, bind_app. Qed.

Lemma block_of_cons k j es bs : block_of k ((j, es) :: bs) = (if decide (j = k) then es else []) ++ block_of k bs.
Proof. unfold block_of. rewrite filter_cons. cbn [fst]. destruct (decide (j = k)); done. Qed.

Lemma block_of_notin k bs : k ∉ bs.*1 → block_of k bs = [].
Proof.
  induction bs as [|[j es] bs IH]; [done|]. intros [Hj Hk]%not_elem_of_cons.
  rewrite block_of_cons, decide_False by done. by apply IH.
Qed.

Section Delivery.
Context {H O : Type} `{!SchemaHistory H} `{!Storage O} `{RX : Regexp} `{!GoRange string CDCReader}.
Context (quote : string → string) (format_ts : time → string) (cfg : MSConfig).
Implicit Types c : MSConnector H O.

Local Notation poll_of w i r := (reader_poll quote (mq_Database cfg) (pw_cdc w i) (cw_now (pw_cdc w i) 0) r).

Definition res_events (r : result (list ChangeEvent * string)) : list ChangeEvent :=
  match r with Ok (es, _) => es | Err _ => [] end.

(** What a step of a poll leaves alone, with the events it adds. *)
Definition extends c c' (es : list ChangeEvent) : Prop :=
  mss_selects c' = [] ∧ mss_events c' = mss_events c ++ es.

Lemma enrich_keeps w e c c' e' :
  enrichDMLTableInfo w e c = (c', e') →
  mss_selects c' = mss_selects c ∧ mss_events c' = mss_events c ∧ mss_readers c' = mss_readers c ∧ event_content e' = event_content e.
Proof.
  unfold enrichDMLTableInfo. destruct (Tables_Get _ _ _); [by intros [= <- <-]|].
  destruct (mssql_Get _ _ _ _) as [ca [info|err]]; by intros [= <- <-].
Qed.

Lemma send_changes_all w changes : ∀ c,
  mss_selects c = [] →
  ∃ c' es, send_changes w changes c = (c', true) ∧ extends c c' es ∧ mss_readers c' = mss_readers c ∧
    event_content <$> es = event_content <$> changes.
Proof.
  induction changes as [|e changes IH]; intros c Hc; cbn [send_changes].
  { exists c, []. unfold extends. by rewrite app_nil_r. }
  destruct (enrichDMLTableInfo w e c) as [c1 e1] eqn:E1. apply enrich_keeps in E1 as (Hs1 & He1 & Hr1 & Hc1).
  unfold mss_send. rewrite Hs1, Hc. set (c2 := mss_set_chans _ _ _ c1).
  destruct (IH c2) as (c' & es & E & [Hs' He'] & Hr' & Hcont); [done|]. rewrite E.
  exists c', (e1 :: es). split; [done|]. split; [split; [done|]|].
  - rewrite He'. cbn. by rewrite He1, <- app_assoc.
  - split; [by rewrite Hr'|]. cbn. by rewrite Hc1, Hcont.
Qed.

(** One reader after the other: each is polled as if it were alone. *)
Lemma poll_readers_blocks w rs : ∀ latest c,
  NoDup rs.*1 → mss_selects c = [] → (∀ i r, (i, r) ∈ rs → mss_readers c !! i = Some r) →
  ∃ c' latest' bs, poll_readers quote cfg w rs latest c = (c', latest', true) ∧ extends c c' (bs ≫= snd) ∧
    bs.*1 = Some <$> rs.*1 ∧
    (∀ i r, (i, r) ∈ rs → mss_readers c' !! i = Some (poll_of w i r).1 ∧
       event_content <$> block_of (Some i) bs = event_content <$> res_events (poll_of w i r).2) ∧
    (∀ i, i ∉ rs.*1 → mss_readers c' !! i = mss_readers c !! i).
Proof.
  induction rs as [|[i r] rs IH]; intros latest c Hnd Hsel Hrs.
  { exists c, latest, []. unfold extends. cbn. rewrite app_nil_r. split_and!; [done..| |done]. by intros i r ?%elem_of_nil. }
  cbn [fmap list_fmap fst] in Hnd. apply NoDup_cons in Hnd as [Hi Hnd].
  (* the connector after the head, its events and its reader *)
  assert (∃ c1 latest1 es, poll_readers quote cfg w ((i, r) :: rs) latest c = poll_readers quote cfg w rs latest1 c1 ∧
    extends c c1 es ∧ event_content <$> es = event_content <$> res_events (poll_of w i r).2 ∧
    mss_readers c1 = <[i := (poll_of w i r).1]> (mss_readers c)) as (c1 & latest1 & es & -> & [Hs1 He1] & Hes & Hr1).
  { cbn [poll_readers]. unfold reader_poll.
    assert (Hri : mss_readers c !! i = Some r) by (apply Hrs; left).
    destruct (cdc_ReadChanges _ _ _ r) as [[changes lastLSN]|err].
    - destruct (send_changes_all w changes c Hsel) as (c1 & es & -> & Hext & Hr1 & Hes). cbn [fst snd res_events].
      case_bool_decide as Hl.
      + do 3 eexists. split; [reflexivity|]. split; [exact Hext|]. split; [done|]. cbn. by rewrite Hr1.
      + do 3 eexists. split; [reflexivity|]. split; [exact Hext|]. split; [done|]. by rewrite Hr1, insert_id.
    - exists (mss_report err c), latest, []. split; [done|]. unfold mss_report, extends. cbn [fst snd res_events].
      rewrite app_nil_r, insert_id by done. by destruct (_ <? 100)%nat. }
  destruct (IH latest1 c1 Hnd Hs1) as (c' & latest' & bs & E & [Hs' He'] & Hbs & Hin & Hout).
  { intros j rj Hj. rewrite Hr1, lookup_insert_ne; [apply Hrs; by right|]. intros ->. apply Hi.
    by apply (list_elem_of_fmap_2 fst) in Hj. }
  exists c', latest', ((Some i, es) :: bs). split; [done|].
  assert (Hni : Some i ∉ bs.*1).
  { rewrite Hbs. intros (j & [= <-] & Hj)%list_elem_of_fmap. done. }
  split; [split; [done|]; rewrite He', He1, bind_cons, app_assoc; done|].
  split; [cbn; by rewrite Hbs|]. split.
  - intros j rj [Hj|Hj]%elem_of_cons.
    + simplify_eq. rewrite Hout, Hr1, lookup_insert_eq by done. split; [done|].
      rewrite block_of_cons, decide_True, (block_of_notin _ bs), app_nil_r by done. done.
    + destruct (Hin j rj Hj) as [Hr Hb]. split; [done|]. rewrite block_of_cons, decide_False; [done|].
      intros [= ->]. apply Hi. by apply (list_elem_of_fmap_2 fst) in Hj.
  - intros j Hj. apply not_elem_of_cons in Hj as [Hne Hj]. rewrite Hout, Hr1 by done. by rewrite lookup_insert_ne.
Qed.

Lemma put_detected_keeps w db t info pos m c :
  let c' := put_detected w db t info pos m c in
  mss_selects c' = mss_selects c ∧ mss_events c' = mss_events c ∧ mss_readers c' = mss_readers c.
Proof. unfold put_detected, mss_put. by destruct (mss_manager c). Qed.

Lemma detect_row_keeps w row c :
  mss_selects c = [] →
  ∃ c' es, detect_row format_ts cfg w row c = (c', true) ∧ extends c c' es ∧ mss_readers c' = mss_readers c.
Proof.
  intros Hc. unfold detect_row. unfold extends.
  destruct row as [o|e]; [|exists c, []; by rewrite app_nil_r].
  destruct (mss_readers c !! _) as [reader|]; [|exists c, []; by rewrite app_nil_r].
  destruct (mssql_Get _ _ _ _) as [ca [info|e]]; [|by eexists _, []; rewrite app_nil_r].
  unfold mss_send. rewrite (proj1 (put_detected_keeps _ _ _ _ _ _ _)).
  cbn [mss_selects mss_set_defs]. rewrite Hc. do 2 eexists. split; [reflexivity|].
  cbn [mss_selects mss_events mss_readers mss_set_chans tail].
  by rewrite (proj1 (proj2 (put_detected_keeps _ _ _ _ _ _ _))), (proj2 (proj2 (put_detected_keeps _ _ _ _ _ _ _))).
Qed.

Lemma detect_rows_keeps w rows : ∀ c,
  mss_selects c = [] →
  ∃ c' es, detect_rows format_ts cfg w rows c = (c', true) ∧ extends c c' es ∧ mss_readers c' = mss_readers c.
Proof.
  induction rows as [|row rows IH]; intros c Hc; cbn [detect_rows].
  { exists c, []. unfold extends. by rewrite app_nil_r. }
  destruct (detect_row_keeps w row c Hc) as (c1 & es1 & -> & [Hs1 He1] & Hr1).
  destruct (IH c1 Hs1) as (c' & es & -> & [Hs' He'] & Hr').
  exists c', (es1 ++ es). split; [done|]. split; [|congruence]. split; [done|]. by rewrite He', He1, app_assoc.
Qed.

Lemma detect_keeps w c :
  mss_selects c = [] →
  ∃ es, extends c (detectDDLChanges format_ts cfg w c) es ∧ mss_readers (detectDDLChanges format_ts cfg w c) = mss_readers c.
Proof.
  intros Hc. unfold detectDDLChanges. destruct (pw_objects _ _) as [rows|e].
  - destruct (detect_rows_keeps w rows c Hc) as (c' & es & -> & Hext & Hr). by exists es.
  - exists []. unfold extends. cbn. by rewrite app_nil_r.
Qed.

(** A poll: every reader is polled as if it were alone. *)
Lemma pollAll_blocks w c :
  mss_selects c = [] →
  ∃ bs, extends c (pollAll quote format_ts cfg w c) (bs ≫= snd) ∧
    ∀ i r, mss_readers c !! i = Some r →
      mss_readers (pollAll quote format_ts cfg w c) !! i = Some (poll_of w i r).1 ∧
      event_content <$> block_of (Some i) bs = event_content <$> res_events (poll_of w i r).2.
Proof.
  intros Hc. unfold pollAll. destruct (detect_keeps w c Hc) as (es & [Hs1 He1] & Hr1).
  set (c1 := detectDDLChanges format_ts cfg w c) in *.
  destruct (poll_readers_blocks w (go_range (mss_readers c1)) "" c1) as (c' & latest & bs & -> & [Hs He] & _ & Hin & _).
  { rewrite go_range_perm. apply NoDup_fst_map_to_list. }
  { done. }
  { intros i r. by rewrite go_range_lookup. }
  exists ((None, es) :: bs).
  assert (Hall : extends c c' (((None, es) :: bs) ≫= snd) ∧ ∀ i r, mss_readers c !! i = Some r →
    mss_readers c' !! i = Some (poll_of w i r).1 ∧
    event_content <$> block_of (Some i) ((None, es) :: bs) = event_content <$> res_events (poll_of w i r).2).
  { split; [split; [done|]; by rewrite He, He1, bind_cons, app_assoc|]. intros i r Hi. rewrite <- Hr1 in Hi.
    rewrite block_of_cons, decide_False by done. apply Hin. by apply go_range_lookup. }
  by destruct (_ && _).
Qed.

(** Any number of polls: what a reader delivers is what it reads. *)
Lemma polls_blocks ws : ∀ c,
  mss_selects c = [] →
  ∃ bs, extends c (foldl (λ c w, pollAll quote format_ts cfg w c) c ws) (bs ≫= snd) ∧
    ∀ i r, mss_readers c !! i = Some r →
      event_content <$> block_of (Some i) bs =
      event_content <$> (run_polls quote (mq_Database cfg) ((λ w, pw_cdc w i) <$> ws) r).2.
Proof.
  induction ws as [|w ws IH]; intros c Hc; cbn [foldl].
  { exists []. unfold extends. cbn. by rewrite app_nil_r. }
  destruct (pollAll_blocks w c Hc) as (bs1 & [Hs1 He1] & Hin1). destruct (IH _ Hs1) as (bs & [Hs He] & Hin).
  exists (bs1 ++ bs). split; [split; [done|]; by rewrite He, He1, bind_app, app_assoc|].
  intros i r Hi. destruct (Hin1 i r Hi) as [Hr1 Hb1]. specialize (Hin i _ Hr1).
  rewrite block_of_app, fmap_app, Hb1, Hin. cbn [fmap list_fmap run_polls].
  destruct (poll_of w i r) as [r1 res] eqn:E. cbn [fst snd].
  destruct (run_polls _ _ _ r1) as [r2 es2]. cbn [snd]. rewrite <- fmap_app. by destruct res as [[]|].
Qed.

(** All readers together, when no send fails and no poll finds the largest LSN where the
    reader stands ([steady]): the channel is a sequence of blocks, and those of a reader hold
    the changes of its table from where the reader stood to the largest LSN it saw last,
    whatever the other tables do and in whatever order the readers are visited. *)
Theorem mssql_changes_delivered ws c i r columns meta log width maxima p :
  mss_selects c = [] → mss_readers c !! i = Some r →
  length meta = 3%nat → Forall (good_logged columns) log → StronglySorted (λ a b, be_value a.1 <= be_value b.1) log →
  stands_at i width p r → steady p maxima → Forall2 (answers i columns meta log width) maxima ((λ w, pw_cdc w i) <$> ws) →
  ∃ bs, mss_events (foldl (λ c w, pollAll quote format_ts cfg w c) c ws) = mss_events c ++ (bs ≫= snd) ∧
    event_content <$> block_of (Some i) bs = change_content columns <$> in_range log p (last_max p maxima).
Proof.
  intros Hsel Hi Hm Hg Hsort Hp Hst Hw. destruct (polls_blocks ws c Hsel) as (bs & [_ He] & Hin).
  exists bs. split; [done|]. rewrite (Hin i r Hi).
  destruct (run_polls quote (mq_Database cfg) ((λ w, pw_cdc w i) <$> ws) r) as [r' es] eqn:E.
  exact (cdc_polls_read_once quote (mq_Database cfg) i columns meta log width Hm Hg Hsort maxima
    ((λ w, pw_cdc w i) <$> ws) p r r' es Hp Hst Hw E).
Qed.

(** *** The position *)

(** The LSNs up to which the readers of a poll have read. *)
Definition lsns_read (w : poll_world) (rs : list (string * CDCReader)) : list string :=
  omap (λ '(i, r), match cdc_ReadChanges quote (mq_Database cfg) (pw_cdc w i) r with Ok (_, l) => Some l | Err _ => None end) rs.

Definition larger (a b : string) : string := if bool_decide (a = "") || str_gt b a then b else a.

Lemma poll_readers_latest w rs : ∀ latest c c' latest',
  Forall (λ l, l ≠ "") (lsns_read w rs) →
  poll_readers quote cfg w rs latest c = (c', latest', true) → latest' = foldl larger latest (lsns_read w rs).
Proof.
  induction rs as [|[i r] rs IH]; intros latest c c' latest' Hne; cbn [poll_readers lsns_read omap list_omap] in *.
  { by intros [= _ <-]. }
  destruct (cdc_ReadChanges _ _ _ r) as [[changes l]|e]; [|by apply IH].
  apply Forall_cons in Hne as [Hl Hne]. destruct (send_changes w changes c) as [c1 [|]]; [|done].
  rewrite bool_decide_eq_true_2 by done. cbn [foldl]. by apply IH.
Qed.

Lemma larger_hex a b :
  length a = length b → a ≠ [] →
  larger (hex_EncodeToString a) (hex_EncodeToString b) = hex_EncodeToString (if be_value a <? be_value b then b else a).
Proof.
  intros Hlen Ha. unfold larger. rewrite bool_decide_eq_false_2 by (by apply hex_nonempty). rewrite str_gt_hex by done.
  cbn [orb]. by destruct (be_value a <? be_value b).
Qed.

Lemma largest_hex width ls : ∀ a,
  length a = width → a ≠ [] → Forall (λ l, length l = width) ls →
  ∃ m, foldl larger (hex_EncodeToString a) (hex_EncodeToString <$> ls) = hex_EncodeToString m ∧
    m ∈ a :: ls ∧ Forall (λ l, be_value l <= be_value m) (a :: ls).
Proof.
  induction ls as [|b ls IH]; intros a Ha Hne Hls; cbn [fmap list_fmap foldl].
  { exists a. split; [done|]. split; [left|]. by repeat constructor. }
  apply Forall_cons in Hls as [Hb Hls]. rewrite larger_hex by congruence.
  destruct (Z.ltb_spec (be_value a) (be_value b)) as [Hlt|Hle].
  - destruct (IH b) as (m & -> & Hm & Hall); [done| |done|].
    { intros ->. cbn in Hb. rewrite <- Hb in Ha. by apply nil_length_inv in Ha. }
    exists m. split; [done|].
    split; [by right|]. apply Forall_cons_2; [|done]. apply Forall_cons in Hall as [? _]. lia.
  - destruct (IH a) as (m & -> & Hm & Hall); [done..|]. exists m. split; [done|].
    apply Forall_cons in Hall as [? ?]. split; [|repeat (apply Forall_cons_2; [lia|]); done].
    apply elem_of_cons in Hm as [->|Hm]; [left|by right; right].
Qed.

(** The position after a poll is the largest of the LSNs up to which its readers have
    read, as numbers, whichever readers failed. *)
Theorem mssql_position_is_maximum w c width lsns :
  mss_selects c = [] → (0 < width)%nat → Forall (λ l, length l = width) lsns → lsns ≠ [] →
  lsns_read w (go_range (mss_readers c)) = hex_EncodeToString <$> lsns →
  ∃ m, m ∈ lsns ∧ Forall (λ l, be_value l <= be_value m) lsns ∧
    mss_position (pollAll quote format_ts cfg w c) = Some (with_lsn (hex_EncodeToString m) (pw_committed w)).
Proof.
  intros Hc Hw Hlen Hne Hread. unfold pollAll. destruct (detect_keeps w c Hc) as (es & [Hs1 _] & Hr1).
  set (c1 := detectDDLChanges format_ts cfg w c) in *. rewrite <- Hr1 in Hread.
  destruct (poll_readers_blocks w (go_range (mss_readers c1)) "" c1) as (c' & latest & bs & E & _).
  { rewrite go_range_perm. apply NoDup_fst_map_to_list. }
  { done. }
  { intros i r. by rewrite go_range_lookup. }
  destruct lsns as [|a ls]; [done|]. apply Forall_cons in Hlen as [Ha Hls].
  assert (Hnil : ∀ l : list Byte.byte, length l = width → l ≠ []) by (intros [|] Hl; [cbn in Hl; lia|done]).
  pose proof (poll_readers_latest w _ _ _ _ _ ltac:(rewrite Hread; apply Forall_fmap, Forall_cons_2;
    [by apply hex_nonempty, Hnil|apply (Forall_impl _ _ _ Hls); intros l Hl; by apply hex_nonempty, Hnil]) E) as Hlatest.
  rewrite Hread in Hlatest. cbn [fmap list_fmap foldl] in Hlatest.
  assert (Hfirst : larger "" (hex_EncodeToString a) = hex_EncodeToString a) by (unfold larger; by rewrite bool_decide_eq_true_2).
  rewrite Hfirst in Hlatest. destruct (largest_hex width ls a Ha (Hnil a Ha) Hls) as (m & Hm & Hin & Hall).
  exists m. split; [done|]. split; [done|]. rewrite E, Hlatest, Hm.
  assert (m ≠ []) as Hmne.
  { apply Hnil. apply elem_of_cons in Hin as [->|Hin]; [done|]. rewrite Forall_forall in Hls. by apply Hls. }
  rewrite bool_decide_eq_true_2 by (by apply hex_nonempty). done.
Qed.
End Delivery.

(** ** Definitions that are detected *)

Section Detection.
Context {H O : Type} `{!SchemaHistory H} `{!Storage O} `{RX : Regexp} `{!GoRange string CDCReader}.
Context (quote : string → string) (format_ts : time → string) (cfg : MSConfig).
Implicit Types c : MSConnector H O.

Lemma record_ddl_tables now rec pos info (m : DDLRecordManager H) :
  dr_Position rec = Some pos → dr_NewTableInfo rec = Some info →
  dm_tables (record_ddl now rec m) = Tables_Put info (dm_tables m).
Proof.
  intros Hp Hi. unfold record_ddl, Create, st_modify. set (m1 := set_record _ m).
  assert (∃ rec1, dm_records m1 !! dr_ID rec = Some rec1 ∧ dr_Position rec1 = Some pos ∧ dr_NewTableInfo rec1 = Some info)
    as (rec1 & E1 & Hp1 & Hi1) by (eexists; split; [apply lookup_insert_eq|done]).
  unfold MarkApplying. rewrite (bind_ok _ _ m1 m1 rec1) by (unfold find_record; by rewrite E1).
  unfold put_record at 1, st_modify. cbn [fst]. set (m2 := mkDDLRecordManager _ (dm_tables m1) _).
  assert (∃ rec2, dm_records m2 !! dr_ID rec = Some rec2 ∧ dr_Position rec2 = Some pos ∧ dr_NewTableInfo rec2 = Some info)
    as (rec2 & E2 & Hp2 & Hi2) by (eexists; split; [apply lookup_insert_eq|done]).
  assert (∃ hr, completion_of m2 (now 2%nat) rec2 = Ok hr ∧ apply_history (dm_tables m2) hr = Tables_Put info (dm_tables m)) as (hr & Eh & Hh).
  { unfold completion_of, history_record. rewrite Hp2. eexists. split; [done|]. unfold apply_history, apply_record. cbn. by rewrite Hi2. }
  destruct (MarkCompleted_spec (now 2%nat) (dr_ID rec) m2 rec2 hr E2 Eh) as [recs ->]. done.
Qed.

Lemma put_detected_known w db t info pos m c :
  ti_Database info = db → ti_Table info = t →
  Tables_Get (mss_known (put_detected w db t info pos m c)) db t = Some info.
Proof.
  intros Hd Ht. unfold put_detected, mss_put, Tables_Get, mss_known. destruct (mss_manager c) as [mg|];
    cbn [mss_manager mss_set_defs mss_tables fmap option_fmap option_map from_option].
  - rewrite (record_ddl_tables _ _ pos info) by done. unfold Tables_Put. by rewrite Hd, Ht, lookup_insert_eq.
  - unfold Tables_Put. by rewrite Hd, Ht, lookup_insert_eq.
Qed.

Lemma querySchema_names a schema table info : mssql_querySchema a schema table = Ok info → ti_Database info = schema ∧ ti_Table info = table.
Proof.
  unfold mssql_querySchema. destruct (sa_columns a) as [[rows e]|]; [|done].
  destruct (scan_all _ _ rows) as [cols|]; [|done]. cbn. destruct (rows_err _ e); [|done]. cbn. destruct cols; [done|].
  destruct (sa_keys a) as [[keys e']|]; [|done]. destruct (scan_all _ _ keys); [|done]. cbn.
  destruct (rows_err _ e'); [|done]. by intros [= <-].
Qed.

(** A change of a table is told with the definition the database has, and the definition
    is known from then on, provided that none was cached. *)
Theorem mssql_ddl_detected w o reader info c :
  mss_selects c = [] → mss_readers c !! (do_schema o +:+ "_" +:+ do_table o) = Some reader →
  mss_cache c !! (mq_Database cfg +:+ "." +:+ do_table o) = None →
  mssql_querySchema (pw_schemas w (mq_Database cfg) (do_table o)) (mq_Database cfg) (do_table o) = Ok info →
  ∃ c' e, detect_row format_ts cfg w (Ok o) c = (c', true) ∧ mss_events c' = mss_events c ++ [e] ∧
    ev_Type e = EventTypeDDL ∧ ev_Table e = info ∧
    Tables_Get (mss_known c') (mq_Database cfg) (do_table o) = Some info ∧
    mss_cache c' !! (mq_Database cfg +:+ "." +:+ do_table o) = None.
Proof.
  intros Hs Hr Hca Hq. unfold detect_row. rewrite Hr. unfold mssql_Get. rewrite Hca, Hq.
  destruct (querySchema_names _ _ _ _ Hq) as [Hd Ht].
  set (c1 := mss_set_defs (mssql_Invalidate _ _ _) _ _ _). set (pos := detected_position c1 reader _).
  pose proof (put_detected_keeps w (mq_Database cfg) (do_table o) info pos (do_modified o) c1) as (Hsel & Hev & _).
  unfold mss_send. rewrite Hsel. change (mss_selects c1) with (mss_selects c). rewrite Hs.
  do 2 eexists. split; [reflexivity|]. cbn [mss_events mss_set_chans]. rewrite Hev.
  split; [reflexivity|]. split; [done|]. split; [done|]. split.
  - rewrite <- (put_detected_known w (mq_Database cfg) (do_table o) info pos (do_modified o) c1) by done. done.
  - cbn [mss_cache mss_set_chans]. unfold put_detected, mss_put.
    destruct (mss_manager c1); cbn; unfold mssql_Invalidate; by rewrite lookup_delete_eq.
Qed.

(** A definition that is cached is told instead, however old it is. *)
Theorem mssql_ddl_stale w o reader old c :
  mss_selects c = [] → mss_readers c !! (do_schema o +:+ "_" +:+ do_table o) = Some reader →
  mss_cache c !! (mq_Database cfg +:+ "." +:+ do_table o) = Some old →
  ∃ c' e, detect_row format_ts cfg w (Ok o) c = (c', true) ∧ mss_events c' = mss_events c ++ [e] ∧ ev_Table e = old.
Proof.
  intros Hs Hr Hca. unfold detect_row. rewrite Hr. unfold mssql_Get. rewrite Hca.
  set (c1 := mss_set_defs (mssql_Invalidate _ _ _) _ _ _). set (pos := detected_position c1 reader _).
  pose proof (put_detected_keeps w (mq_Database cfg) (do_table o) old pos (do_modified o) c1) as (Hsel & Hev & _).
  unfold mss_send. rewrite Hsel. change (mss_selects c1) with (mss_selects c). rewrite Hs.
  do 2 eexists. split; [reflexivity|]. cbn [mss_events mss_set_chans]. by rewrite Hev.
Qed.

(** A table whose schema has not the name of the database is not found: its changes of
    definition are passed over. *)
Theorem mssql_ddl_missed w o c e :
  mss_cache c !! (mq_Database cfg +:+ "." +:+ do_table o) = None →
  mssql_querySchema (pw_schemas w (mq_Database cfg) (do_table o)) (mq_Database cfg) (do_table o) = Err e →
  ∃ c', detect_row format_ts cfg w (Ok o) c = (c', true) ∧ mss_events c' = mss_events c ∧ mss_known c' = mss_known c.
Proof.
  intros Hca Hq. unfold detect_row. destruct (mss_readers c !! _) as [reader|]; [|by exists c].
  unfold mssql_Get. rewrite Hca, Hq. by eexists.
Qed.

(** Adding or removing tables leaves the readers, and so what is captured, as it was. *)
Theorem mssql_tables_not_followed tables c :
  mss_readers (mss_AddTables tables c).1 = mss_readers c ∧ mss_readers (mss_RemoveTables tables c).1 = mss_readers c.
Proof. unfold mss_AddTables, mss_RemoveTables. by destruct (table_level (mss_scope c)). Qed.

(** *** Restarting *)

Lemma register_readers_stand cfg0 rows : ∀ c c' r i reader,
  register_readers cfg0 rows c = (c', r) → mss_readers c' !! i = Some reader →
  mss_position c' = mss_position c ∧ (mss_readers c !! i = Some reader ∨ reader = new_reader c i).
Proof.
  induction rows as [|[[[inst sch] name]|e] rows IH]; intros c c' r i reader; cbn [register_readers].
  - intros [= <- _]. auto.
  - intros E Hi. destruct (IH _ _ _ _ _ E Hi) as [Hp Hr]. destruct (mssql_shouldCapture cfg0 sch name); [|auto].
    split; [done|]. cbn in Hr. destruct Hr as [Hr|Hr]; [|auto]. apply lookup_insert_Some in Hr as [[-> <-]|[_ Hr]]; auto.
  - intros [= <- _]. auto.
Qed.

Lemma bind_Ok_inv {S A B} (m : ST S A) (f : A → ST S B) s s' b :
  (m ≫= f) s = (s', Ok b) → ∃ a s1, m s = (s1, Ok a) ∧ f a s1 = (s', Ok b).
Proof. unfold mbind, ST_bind. destruct (m s) as [s1 [a|e]]; [|done]. eauto. Qed.

(** A connector that is initialised again starts every reader at the saved position,
    whatever the reader had read itself. *)
Theorem mssql_restart_stands config (w : init_world H O) c c' p :
  mss_readers c = ∅ → mss_Initialize config w c = (c', Ok tt) → mss_position c' = Some p → pos_ChangeLsn p ≠ "" →
  ∀ i r, mss_readers c' !! i = Some r → r = mkCDCReader i (Some (mkLSNPosition (pos_ChangeLsn p) (pos_CommitTime p))).
Proof.
  intros Hr0 Hinit Hp Hne i r Hi. unfold mss_Initialize in Hinit.
  apply bind_Ok_inv in Hinit as ([] & c1 & E1 & Hinit). apply bind_Ok_inv in Hinit as ([] & c2 & E2 & Hinit).
  apply bind_Ok_inv in Hinit as ([] & c3 & E3 & Hinit). apply bind_Ok_inv in Hinit as ([] & c4 & E4 & Hinit).
  apply bind_Ok_inv in Hinit as ([] & c5 & E5 & Hinit). apply bind_Ok_inv in Hinit as ([] & c6 & E6 & Hinit).
  apply bind_Ok_inv in Hinit as ([] & c7 & E7 & Hinit). injection Hinit as <-. cbn [mss_position mss_readers mss_set_state] in *.
  apply (f_equal fst) in E1, E2, E3, E4, E5. cbn [fst st_lift st_modify] in E1, E2, E3, E4, E5. subst c1 c2 c3 c4 c5.
  assert (Hr6 : mss_readers c6 = ∅).
  { revert E6. unfold init_offset. case_bool_decide; [|by intros [= <-]]. destruct (iw_storage w _) as [o|]; [|done].
    destruct (storage_Load _ o) as [o' [[q|]|]]; by intros [= <-]. }
  destruct (initCDCReaders (mssql_parseConfig config) w c6) as [c8 r8] eqn:E8. destruct r8; [|done]. injection E7 as ->.
  unfold initCDCReaders in E8. destruct (iw_instances w) as [[rows e]|]; [|done].
  apply bind_Ok_inv in E8 as ([] & c9 & E8 & E9). apply (f_equal fst) in E9. cbn [fst st_lift] in E9. subst c9.
  destruct (register_readers_stand _ _ _ _ _ _ _ E8 Hi) as [Hpos [Hr|Hr]].
  - by rewrite Hr6, lookup_empty in Hr.
  - rewrite Hr. unfold new_reader. rewrite <- Hpos, Hp. by rewrite bool_decide_eq_true_2.
Qed.
End Detection.

(** ** Runs *)

Module MSRuns.
Import CdcRuns.

#[local] Instance plain_regexp : Regexp := {|
  regexp := string; regexp_Compile p := Ok p; MatchString p s := strings_Contains s p |}.
#[local] Instance readers_range : GoRange string CDCReader := sorted_range string CDCReader.

(** A history that forgets. *)
#[local] Instance no_history : SchemaHistory unit := {| hist_Record _ h := (h, Ok tt); hist_Recover _ _ t := (t, Ok tt) |}.

Notation Conn := (MSConnector unit MemoryStorage).

Definition cfg : MSConfig := mkMSConfig "db" 1433 "u" "p" "shop" 1000000000 1000 ["dbo"] ∅ "".
Definition quote (s : string) : string := s.
Definition format (t : time) : string := "".

Definition no_schemas (schema table : string) : schema_answer := mkSchemaAnswer (Ok ([], None)) (Ok ([], None)).

(** The users see a largest LSN; the query of the items fails or not. *)
Definition broken : cdc_world := mkCDCWorld (Err (ErrNew "timeout")) (λ _, Err (ErrNew "timeout")) (λ _ _ _, Err (ErrNew "timeout")) (λ _, 0).

Definition poll (users items : cdc_world) : poll_world :=
  mkPollWorld (λ _, Ok []) no_schemas (λ i, if bool_decide (i = "dbo_users") then users else items) 0 (λ _ _, 0) 0.

Definition items_reader : CDCReader := mkCDCReader "dbo_items" (Some (mkLSNPosition (hex_EncodeToString [Byte.x00; Byte.x01]) 0)).

Definition start : Conn :=
  mss_set_readers (<["dbo_users" := CdcRuns.reader [Byte.x00; Byte.x01]]> {["dbo_items" := items_reader]})
    (mss_set_config cfg None mss_New).

(** Three polls in which the items are never read. *)
Lemma mssql_changes_delivered_witness :
  ∃ bs, mss_events (foldl (λ c w, pollAll quote format cfg w c) start ((λ m, poll (world m) broken) <$> maxima)) = (bs ≫= snd) ∧
    event_content <$> block_of (Some "dbo_users") bs = change_content columns <$> log.
Proof.
  opose proof* (mssql_changes_delivered quote format cfg ((λ m, poll (world m) broken) <$> maxima) start "dbo_users"
    (CdcRuns.reader [Byte.x00; Byte.x01]) columns meta log 2 maxima 1) as Hd.
  - done.
  - reflexivity.
  - done.
  - apply log_good.
  - apply log_sorted.
  - by apply reader_stands.
  - cbn. split; [done|]. split; [right; by vm_compute|]. split; [done|]. split; [left; by vm_compute|].
    split; [done|]. split; [right; by vm_compute|done].
  - repeat (apply Forall2_cons_2; [by apply world_answers|]). apply Forall2_nil_2.
  - destruct Hd as (bs & He & Hb). exists bs. split; [exact He|]. rewrite Hb. reflexivity.
Defined.

(** The users are read up to LSN 5 and then the items up to LSN 258. *)
Definition uneven : poll_world := poll (world [Byte.x00; Byte.x05]) (world [Byte.x01; Byte.x02]).

Lemma mssql_position_is_maximum_witness :
  mss_position (pollAll quote format cfg uneven start) = Some (with_lsn "0102" 0).
Proof.
  opose proof* (mssql_position_is_maximum quote format cfg uneven start 2 [[Byte.x00; Byte.x05]; [Byte.x01; Byte.x02]]) as Hm.
  - done.
  - lia.
  - by repeat constructor.
  - done.
  - by vm_compute.
  - destruct Hm as (m & Hin & Hall & E). rewrite E. clear E. do 2 f_equal.
    apply Forall_cons in Hall as [_ Hall]. apply Forall_cons in Hall as [Hall _].
    apply elem_of_cons in Hin as [->|Hin].
    + exfalso. vm_compute in Hall. by apply Hall.
    + apply list_elem_of_singleton in Hin as ->. reflexivity.
Defined.

(** The change of the users at LSN 255 lies between the two: after a restart from the
    saved position it is not read. *)
Definition restarted : Conn :=
  mss_set_readers ((λ r, new_reader (pollAll quote format cfg uneven start) (cr_captureInstance r)) <$> mss_readers start)
    (mss_set_config cfg None mss_New).

Example restart_passes_changes :
  let later := pollAll quote format cfg (poll (world [Byte.x02; Byte.x00]) broken) restarted in
  (255 ∈ (λ c : logged, be_value c.1) <$> log) ∧
  ("dbo_users", "00ff") ∉ (λ e, (ti_Table (ev_Table e), pos_ChangeLsn (ev_Position e))) <$>
    (mss_events (pollAll quote format cfg uneven start) ++ mss_events later).
Proof. split; [apply (bool_decide_unpack _); by vm_compute|]. apply (bool_decide_unpack _). by vm_compute. Qed.

(** Patterns: a star inside and a question mark stand for themselves. *)
Example pattern_inner_star : mssql_matchPattern "ord*s" "orders" = false ∧ mssql_matchPattern "user?" "users" = false ∧
  mssql_matchPattern "*log*" "syslogs" = false ∧ mssql_matchPattern "ord*" "orders" = true ∧ mssql_matchPattern "*s" "orders" = true.
Proof. done. Qed.

Definition described : TableInfo := mkTableInfo "shop" "" "users" ["id"] [] [mkColumnInfo "id" "bigint" false 0 0].

Definition describe (schema table : string) : schema_answer :=
  if bool_decide (schema = "shop") then mkSchemaAnswer (Ok ([Ok (mkColumnDef "id" "bigint" "NO")], None)) (Ok ([Ok "id"], None))
  else no_schemas schema table.

Definition altered : ddl_object := mkDDLObject "dbo" "users" 7.
Definition ddl_world : poll_world := mkPollWorld (λ _, Ok [Ok altered]) describe (λ _, broken) 0 (λ _ _, 0) 0.

Lemma mssql_ddl_detected_witness :
  ∃ e, mss_events (detect_row format cfg ddl_world (Ok altered) start).1 = [e] ∧ ev_Table e = described.
Proof.
  opose proof* (mssql_ddl_detected format cfg ddl_world altered (CdcRuns.reader [Byte.x00; Byte.x01]) described start) as Hd.
  - done.
  - reflexivity.
  - reflexivity.
  - reflexivity.
  - destruct Hd as (c' & e & E & He & _ & Ht & _). exists e. by rewrite E.
Defined.
End MSRuns.
