(* ===== verification/MongoSource.v ===== *)
(** The MongoDB source connector (internal/source/mongodb): configuration (config.go), the
    documents of a change stream (change_stream.go) and connector.go: conversion, the
    event loop, starting, stopping and restarting.

    The driver is a parameter: what it makes of BSON bytes ([bson_doc], [bson_id]), whether
    it connects and watches, and what the stream yields ([stream_outcome]). *)
From Stdlib Require Import ZArith Lia.
From Stdlib Require String Strings.Byte.
From stdpp Require Import prelude countable gmap strings list fin_maps pretty.
From S2P Require Import Prelude Events PgOutput Strings SchemaHistory TargetStore TableLifecycle Scope BinlogConsumer Offsets BinlogSyncer MySQLConnector DocumentSinks MongoSink SQLServerReader SQLServerConnector.
Local Open Scope Z_scope.

(** ** config.go *)

Record MongoSrcConfig := mkMongoSrcConfig {
  mg_Hosts : list string;
  mg_User : string;
  mg_Password : string;
  mg_Database : string;
  mg_ReplicaSet : string;
  mg_AuthSource : string;
  mg_AuthMechanism : string;
  mg_SSLMode : bool;
  mg_MaxConnections : Z;
  mg_MaxIdle : Z;
  mg_ConnectTimeout : Z;
  mg_SocketTimeout : Z;
  mg_ServerSelection : Z;
  mg_ResumeToken : string;
  mg_FullDocument : string;
  mg_FullDocumentBefore : string;
  mg_MaxAwaitTime : Z;
  mg_BatchSize : Z;
  mg_SnapshotMode : string;
  mg_Databases : list string;
  mg_Collections : gmap string string
}.

Definition msrc_DefaultConfig : MongoSrcConfig :=
  mkMongoSrcConfig ["localhost:27017"] "" "" "" "" "admin" "SCRAM-SHA-256" false 10 2 30 0 30 "" "updateLookup" "" 1000 100
    "initial" [] ∅.

(** Two settings are given their defaults on the way. *)
Definition msrc_Validate (c : MongoSrcConfig) : MongoSrcConfig * result unit :=
  match mg_Hosts c with
  | [] => (c, Err (ErrNew "at least one host is required"))
  | _ =>
      let positive (z : Z) := if z <=? 0 then 30 else z in
      let c := mkMongoSrcConfig (mg_Hosts c) (mg_User c) (mg_Password c) (mg_Database c) (mg_ReplicaSet c) (mg_AuthSource c)
        (mg_AuthMechanism c) (mg_SSLMode c) (mg_MaxConnections c) (mg_MaxIdle c) (positive (mg_ConnectTimeout c))
        (mg_SocketTimeout c) (positive (mg_ServerSelection c)) (mg_ResumeToken c) (mg_FullDocument c) (mg_FullDocumentBefore c)
        (mg_MaxAwaitTime c) (mg_BatchSize c) (mg_SnapshotMode c) (mg_Databases c) (mg_Collections c) in
      (c,
       if negb (bool_decide (mg_FullDocument c ∈ [""; "default"; "updateLookup"; "whenAvailable"; "required"]))
       then Err (ErrNew ("invalid fullDocument mode: " +:+ mg_FullDocument c))
       else if negb (bool_decide (mg_FullDocumentBefore c ∈ [""; "default"; "whenAvailable"; "required"]))
       then Err (ErrNew ("invalid fullDocumentBefore mode: " +:+ mg_FullDocumentBefore c))
       else Ok tt)
  end.

Definition msrc_options (c : MongoSrcConfig) : list string :=
  let text (name v : string) := if bool_decide (v ≠ "") then [name +:+ "=" +:+ v] else [] in
  let number (name : string) (unit v : Z) := if 0 <? v then [name +:+ "=" +:+ pretty (v * unit)] else [] in
  text "replicaSet" (mg_ReplicaSet c) ++ text "authSource" (mg_AuthSource c) ++ text "authMechanism" (mg_AuthMechanism c) ++
  (if mg_SSLMode c then ["tls=true"] else []) ++
  number "connectTimeoutMS" 1000 (mg_ConnectTimeout c) ++ number "serverSelectionTimeoutMS" 1000 (mg_ServerSelection c) ++
  number "socketTimeoutMS" 1000 (mg_SocketTimeout c) ++
  number "maxPoolSize" 1 (mg_MaxConnections c) ++ number "minPoolSize" 1 (mg_MaxIdle c).

Definition msrc_ConnectionString (c : MongoSrcConfig) : string :=
  (if bool_decide (mg_User c ≠ "") && bool_decide (mg_Password c ≠ "")
   then "mongodb://" +:+ mg_User c +:+ ":" +:+ mg_Password c +:+ "@" else "mongodb://") +:+
  join "," (mg_Hosts c) +:+ "/" +:+ mg_Database c +:+
  match msrc_options c with [] => "" | options => "?" +:+ join "&" options end.

Definition MaxAwaitTimeDuration (c : MongoSrcConfig) : duration :=
  if mg_MaxAwaitTime c <=? 0 then 1000000000 else i64 (mg_MaxAwaitTime c * 1000000).

Section Config.
Context `{RX : Regexp}.

Definition so_strings (c : source_Config) (name : string) : option (list string) :=
  match so_Properties c !! name with
  | Some (PList l) => Some (omap (λ v, match v with VString s => Some s | _ => None end) l)
  | _ => None
  end.
Definition so_bool (c : source_Config) (name : string) : option bool :=
  match so_Properties c !! name with Some (PValue (VBool b)) => Some b | _ => None end.

(** Of the tables of a filter the last one is kept as the database's pattern. *)
Definition collect_collections (m : gmap string string) (tf : TableFilter) : gmap string string :=
  foldl (λ m tbl, <[tf_Database tf := tbl]> m) m (tf_Tables tf).

Definition msrc_parseConfig (config : source_Config) : MongoSrcConfig :=
  let d := msrc_DefaultConfig in
  let conn := so_Connection config in
  let hosts := if bool_decide (cc_Host conn ≠ "") then [cc_Host conn] else mg_Hosts d in
  let hosts := if 0 <? cc_Port conn then
                 match hosts with [] => [] | _ :: rest => JoinHostPort (cc_Host conn) (pretty (cc_Port conn)) :: rest end
               else hosts in
  mkMongoSrcConfig
    (default hosts (so_strings config "hosts"))
    (cc_User conn) (cc_Password conn) (cc_Database conn)
    (default (mg_ReplicaSet d) (so_string config "replicaSet"))
    (default (mg_AuthSource d) (so_string config "authSource"))
    (default (mg_AuthMechanism d) (so_string config "authMechanism"))
    (default (mg_SSLMode d) (so_bool config "sslMode"))
    (mg_MaxConnections d) (mg_MaxIdle d) (mg_ConnectTimeout d) (mg_SocketTimeout d) (mg_ServerSelection d)
    (default (mg_ResumeToken d) (so_string config "resumeToken"))
    (default (mg_FullDocument d) (so_string config "fullDocument"))
    (default (mg_FullDocumentBefore d) (so_string config "fullDocumentBefore"))
    (default (mg_MaxAwaitTime d) (so_number config "maxAwaitTime"))
    (from_option i32 (mg_BatchSize d) (so_number config "batchSize"))
    (default (mg_SnapshotMode d) (so_string config "snapshotMode"))
    (mg_Databases d ++ (tf_Database <$> so_Tables config))
    (foldl collect_collections (mg_Collections d) (so_Tables config)).
End Config.

(** [SnapshotConfig.ShouldSnapshot] of internal/source/connector.go *)
Definition ShouldSnapshot (mode : string) (savedPos : option Position) : bool :=
  if bool_decide (mode = "never") then false
  else if bool_decide (mode = "always") then true
  else if bool_decide (mode = "initial") || bool_decide (mode = "when_needed")
       then match savedPos with None => true | Some _ => false end
  else false.

(** ** change_stream.go *)

(** The fields that the connector reads; a nil document is [None]. *)
Record ChangeEventDocument := mkChangeDoc {
  cd_OperationType : string;
  cd_FullDocument : option (list Byte.byte);
  cd_FullDocumentBefore : option (list Byte.byte);
  cd_DB : string;
  cd_Coll : string;
  cd_DocumentKey : option (list Byte.byte);
  cd_T : Z;                                    (* uint32 *)
  cd_I : Z
}.

Definition IsDDL (d : ChangeEventDocument) : bool :=
  bool_decide (cd_OperationType d ∈ ["create"; "drop"; "dropDatabase"; "rename"; "createIndexes"; "dropIndexes"; "modify";
    "shardCollection"; "refineCollectionShardKey"; "reshardCollection"]).

Definition IsData (d : ChangeEventDocument) : bool :=
  bool_decide (cd_OperationType d ∈ ["insert"; "update"; "replace"; "delete"]).

Section Convert.
(** [bson.Unmarshal] into a map and of the [_id] of a key, and [fmt.Sprintf("%v")]. *)
Context (bson_doc : list Byte.byte → result (gmap string value)) (bson_id : list Byte.byte → result value) (fmt : value → string).

Definition GetDocumentID (d : ChangeEventDocument) : value :=
  match cd_DocumentKey d with
  | None => VNil
  | Some key => match bson_id key with Ok id => id | Err _ => VNil end
  end.

(** ** connector.go: conversion *)

Definition getFieldType (v : value) : string :=
  match v with
  | VNil => "null"
  | VString _ => "string"
  | VInt _ | VInt32 _ | VInt64 _ => "int"
  | VFloat32 _ | VFloat64 _ => "double"
  | VBool _ => "bool"
  | VTime _ => "date"
  | VOther typ _ =>
      if bool_decide (typ = "primitive.Binary") then "binary"
      else if bool_decide (typ = "primitive.ObjectID") then "objectId"
      else if bool_decide (typ = "primitive.DateTime") then "date"
      else "object"
  | VBytes _ => "object"
  end.

Definition convertBSONToMap (doc : option (list Byte.byte)) : option (gmap string value) :=
  match doc with
  | None => None
  | Some b => match bson_doc b with Ok m => Some m | Err _ => None end
  end.

(** The fields are distinct keys, so that their order does not matter. *)
Definition convertBSONToFields (doc : option (list Byte.byte)) : option (gmap string Field) :=
  match doc with
  | None => None
  | Some b =>
      match bson_doc b with
      | Ok m => Some (map_imap (λ k v, Some (mkField k v (getFieldType v) (bool_decide (v = VNil)))) m)
      | Err _ => None
      end
  end.

Definition msrc_eventType (op : string) : EventType :=
  if bool_decide (op = "insert") then EventTypeInsert
  else if bool_decide (op = "update") || bool_decide (op = "replace") then EventTypeUpdate
  else if bool_decide (op = "delete") then EventTypeDelete
  else if bool_decide (op = "drop") then EventTypeDDL
  else if bool_decide (op = "dropDatabase") then EventTypeDDL
  else if bool_decide (op = "create") then EventTypeDDL
  else if bool_decide (op = "createIndexes") then EventTypeDDL
  else EventTypeInsert.

Definition msrc_table (database table : string) : TableInfo :=
  mkTableInfo database "" table ["_id"] [] [mkColumnInfo "_id" "ObjectId" false 0 0].

Definition convertChangeEvent (d : ChangeEventDocument) : ChangeEvent :=
  mkChangeEvent
    ("mongodb:" +:+ cd_DB d +:+ ":" +:+ pretty (cd_T d) +:+ ":" +:+ pretty (cd_I d))
    (mkSourceInfo "mongodb" "" 0 (cd_DB d) "" "" false)
    (msrc_eventType (cd_OperationType d))
    (mkPosition "" 0 0 0 (cd_T d) (cd_I d) None "" "" (time_Unix (cd_T d)) "" 0 0)
    (msrc_table (cd_DB d) (cd_Coll d))
    (mkRowData (convertBSONToFields (cd_FullDocumentBefore d)))
    (mkRowData (convertBSONToFields (cd_FullDocument d)))
    (time_Unix (cd_T d)) None None
    (match cd_DocumentKey d with
     | None => None
     | Some key => Some (match bson_id key with Ok id => {["_id" := fmt id]} | Err _ => ∅ end)
     end).
End Convert.

(** ** Which collections

    [shouldCapture] is not used by the connector: the stream is filtered by the stage
    that [msrc_Start] builds. *)
Definition msrc_matchPattern (pattern s : string) : bool := bool_decide (pattern = "*") || bool_decide (pattern = s).

Definition msrc_shouldCapture `{!GoRange string string} (c : MongoSrcConfig) (database collection : string) : bool :=
  if (bool_decide (mg_Databases c = []) && bool_decide (mg_Collections c = ∅)) then true
  else
    existsb (λ db, bool_decide (db = database) || bool_decide (db = "*")) (mg_Databases c) ||
    existsb (λ '(db, pattern), (bool_decide (db = database) || bool_decide (db = "*")) &&
               (bool_decide (pattern = "*") || bool_decide (pattern = "") || msrc_matchPattern pattern collection))
      (go_range (mg_Collections c)).

(** ** connector.go: the connector *)

(** What the connector asks of the server: the databases of the match stage, if there is
    one, and the token to resume after. *)
Record watch_request := mkWatchRequest {
  wr_databases : option (list string);
  wr_fullDocument : string;
  wr_batchSize : Z;
  wr_maxAwait : duration;
  wr_resumeAfter : option (list Byte.byte)
}.

Definition watch_pipeline (c : MongoSrcConfig) : option (list string) := match mg_Databases c with [] => None | dbs => Some dbs end.

(** What one turn of the loop finds: a document with its token, decoded or not; the error
    of the stream; or nothing.  [room] is whether the channel takes what is sent to it
    within five seconds. *)
Inductive stream_outcome :=
  | StreamDoc (token : list Byte.byte) (doc : result ChangeEventDocument) (room : bool)
  | StreamErr (e : goerror) (room : bool)
  | StreamIdle.

Definition with_token (token : list Byte.byte) (p : Position) : Position :=
  mkPosition (pos_BinlogFile p) (pos_BinlogPos p) (pos_LSN p) (pos_SCN p) (pos_Timestamp p) (pos_Order p) (Some token)
    (pos_ChangeLsn p) (pos_SeqVal p) (pos_CommitTime p) (pos_TxID p) (pos_SeqNo p) (pos_Total p).

Record mongo_init (S O : Type) := mkMongoInit {
  mi_connect : result unit;
  mi_ping : result unit;
  mi_store : option S;                         (* config.TargetStore *)
  mi_initDatabase : result unit;
  mi_storage : string → result O
}.
Arguments mkMongoInit {_ _} _ _ _ _ _.
Arguments mi_connect {_ _} _.
Arguments mi_ping {_ _} _.
Arguments mi_store {_ _} _.
Arguments mi_initDatabase {_ _} _.
Arguments mi_storage {_ _} _ _.

Section Connector.
Context {S O : Type} `{!TargetStore S} `{!Storage O} `{RX : Regexp}.
Context (bson_doc : list Byte.byte → result (gmap string value)) (bson_id : list Byte.byte → result value) (fmt : value → string).

Record MongoSource := mkMongoSource {
  mc_config : option MongoSrcConfig;
  mc_state : SourceState;
  mc_message : string;
  mc_position : option Position;
  mc_events : list ChangeEvent;                (* sent *)
  mc_errors : list goerror;
  mc_stopClosed : bool;
  mc_schemas : gmap string TableInfo;
  mc_client : bool;                            (* there is a client *)
  mc_stream : option watch_request;
  mc_resumeToken : option (list Byte.byte);
  mc_offset : option O;
  mc_taskID : string;
  mc_store : option S;
  mc_scope : option SyncScope
}.
Implicit Types c : MongoSource.

Definition msrc_New : MongoSource :=
  mkMongoSource None SourceUninitialized "" None [] [] false ∅ false None None None "" None None.

Definition mset_state st msg c := mkMongoSource (mc_config c) st msg (mc_position c) (mc_events c) (mc_errors c)
  (mc_stopClosed c) (mc_schemas c) (mc_client c) (mc_stream c) (mc_resumeToken c) (mc_offset c) (mc_taskID c) (mc_store c) (mc_scope c).
Definition mset_config cfg sc c := mkMongoSource (Some cfg) (mc_state c) (mc_message c) (mc_position c) (mc_events c) (mc_errors c)
  (mc_stopClosed c) (mc_schemas c) (mc_client c) (mc_stream c) (mc_resumeToken c) (mc_offset c) (mc_taskID c) (mc_store c) sc.
Definition mset_position p c := mkMongoSource (mc_config c) (mc_state c) (mc_message c) p (mc_events c) (mc_errors c)
  (mc_stopClosed c) (mc_schemas c) (mc_client c) (mc_stream c) (mc_resumeToken c) (mc_offset c) (mc_taskID c) (mc_store c) (mc_scope c).
Definition mset_chans evs errs c := mkMongoSource (mc_config c) (mc_state c) (mc_message c) (mc_position c) evs errs
  (mc_stopClosed c) (mc_schemas c) (mc_client c) (mc_stream c) (mc_resumeToken c) (mc_offset c) (mc_taskID c) (mc_store c) (mc_scope c).
Definition mset_stopClosed b c := mkMongoSource (mc_config c) (mc_state c) (mc_message c) (mc_position c) (mc_events c) (mc_errors c)
  b (mc_schemas c) (mc_client c) (mc_stream c) (mc_resumeToken c) (mc_offset c) (mc_taskID c) (mc_store c) (mc_scope c).
Definition mset_schemas m c := mkMongoSource (mc_config c) (mc_state c) (mc_message c) (mc_position c) (mc_events c) (mc_errors c)
  (mc_stopClosed c) m (mc_client c) (mc_stream c) (mc_resumeToken c) (mc_offset c) (mc_taskID c) (mc_store c) (mc_scope c).
Definition mset_client b s c := mkMongoSource (mc_config c) (mc_state c) (mc_message c) (mc_position c) (mc_events c) (mc_errors c)
  (mc_stopClosed c) (mc_schemas c) b s (mc_resumeToken c) (mc_offset c) (mc_taskID c) (mc_store c) (mc_scope c).
Definition mset_token t c := mkMongoSource (mc_config c) (mc_state c) (mc_message c) (mc_position c) (mc_events c) (mc_errors c)
  (mc_stopClosed c) (mc_schemas c) (mc_client c) (mc_stream c) t (mc_offset c) (mc_taskID c) (mc_store c) (mc_scope c).
Definition mset_stores st o id c := mkMongoSource (mc_config c) (mc_state c) (mc_message c) (mc_position c) (mc_events c) (mc_errors c)
  (mc_stopClosed c) (mc_schemas c) (mc_client c) (mc_stream c) (mc_resumeToken c) o id st (mc_scope c).
Definition mset_scope sc c := mkMongoSource (mc_config c) (mc_state c) (mc_message c) (mc_position c) (mc_events c) (mc_errors c)
  (mc_stopClosed c) (mc_schemas c) (mc_client c) (mc_stream c) (mc_resumeToken c) (mc_offset c) (mc_taskID c) (mc_store c) sc.

(** Saving a position where there is a store, or an offset storage; errors are logged. *)
Definition save_store (p : Position) c : MongoSource :=
  mset_stores ((λ st, (SaveCurrentPosition (Some p) st).1) <$> mc_store c) (mc_offset c) (mc_taskID c) c.

Definition save_offset (p : Position) c : MongoSource :=
  mset_stores (mc_store c) ((λ o, (storage_Save (mc_taskID c) (Some p) o).1) <$> mc_offset c) (mc_taskID c) c.

(** *** Initialising *)

(** The store, and the position it holds if that has a token. *)
Definition recover_store (w : mongo_init S O) (st : S) : ST MongoSource unit := λ c,
  let c := mset_stores (Some st) (mc_offset c) (mc_taskID c) c in
  match mi_initDatabase w with
  | Err e => (c, Err (ErrWrapf "failed to init target store" e))
  | Ok _ =>
      let '(st, r) := LoadPositions st in
      let c := mset_stores (Some st) (mc_offset c) (mc_taskID c) c in
      (match r with
       | Ok (_, Some current) =>
           match pos_ResumeToken current with
           | Some ((_ :: _) as token) => mset_token (Some token) (mset_position (Some current) c)
           | _ => c
           end
       | _ => c
       end, Ok tt)
  end.

(** The offset storage otherwise: the token is not restored. *)
Definition recover_offset (config : source_Config) (w : mongo_init S O) : ST MongoSource unit := λ c,
  if bool_decide (so_OffsetBackend config ≠ "") then
    match mi_storage w (so_OffsetBackend config) with
    | Err e => (c, Err (ErrWrapf "failed to create offset storage" e))
    | Ok o =>
        let '(o, r) := storage_Load (so_Type config) o in
        let c := mset_stores (mc_store c) (Some o) (so_Type config) c in
        (match r with
         | Ok (Some p) => if 0 <? pos_Timestamp p then mset_position (Some p) c else c
         | _ => c
         end, Ok tt)
    end
  else (c, Ok tt).

Definition token_bytes (s : string) : list Byte.byte := String.list_byte_of_string s.

Definition msrc_Initialize (config : source_Config) (w : mongo_init S O) : ST MongoSource unit :=
  let '(cfg, valid) := msrc_Validate (msrc_parseConfig config) in
  st_lift valid ≫= λ _,
  st_modify (λ c, mset_state SourceInitializing (mc_message c) (mset_config cfg (so_SyncScope config) c)) ≫= λ _,
  st_lift (match mi_connect w with Err e => Err (ErrWrapf "failed to connect to MongoDB" e) | Ok _ => Ok tt end) ≫= λ _,
  st_lift (match mi_ping w with Err e => Err (ErrWrapf "failed to ping MongoDB" e) | Ok _ => Ok tt end) ≫= λ _,
  st_modify (λ c, mset_client true (mc_stream c) c) ≫= λ _,
  (match mi_store w with Some st => recover_store w st | None => recover_offset config w end) ≫= λ _,
  st_modify (λ c,
    let c := if bool_decide (mg_ResumeToken cfg ≠ "") then mset_token (Some (token_bytes (mg_ResumeToken cfg))) c else c in
    mset_state SourceStopped (mc_message c) c).

(** *** Starting and stopping *)

Definition msrc_Start (watch : watch_request → result unit) : ST MongoSource unit := λ c,
  if bool_decide (mc_state c = SourceRunning) then (c, Err src_ErrAlreadyRunning)
  else
    let c := mset_state SourceRunning (mc_message c) c in
    match mc_config c with
    | None => (c, Err (Panic "nil pointer dereference"))
    | Some cfg =>
        if negb (mc_client c)
        then (mset_state SourceError "client not initialized" c, Err (ErrNew "client not initialized"))
        else
          let req := mkWatchRequest (watch_pipeline cfg) (mg_FullDocument cfg) (mg_BatchSize cfg) (MaxAwaitTimeDuration cfg)
                       (mc_resumeToken c) in
          match watch req with
          | Err e => (mset_state SourceError (error_string e) c, Err (ErrWrapf "failed to start change stream" e))
          | Ok _ => (mset_client (mc_client c) (Some req) c, Ok tt)
          end
    end.

(** Closing the connections is left out; closing the channel twice panics. *)
Definition msrc_Stop : ST MongoSource unit := λ c,
  if negb (bool_decide (mc_state c = SourceRunning)) then (c, Ok tt)
  else
    let c := mset_state SourceStopped (mc_message c) c in
    if mc_stopClosed c then (c, Err (Panic "close of closed channel"))
    else
      let c := mset_stopClosed true c in
      (match mc_position c with Some p => save_offset p (save_store p c) | None => c end, Ok tt).

Definition msrc_GetPosition c : option Position := Position_Clone <$> mc_position c.

(** The position is set and saved; the token of the stream is not. *)
Definition msrc_SetPosition (pos : option Position) : ST MongoSource unit := λ c,
  match pos with
  | None => (c, Err (Panic "nil pointer dereference"))
  | Some p => (save_offset (Position_Clone p) (save_store (Position_Clone p) (mset_position (Some (Position_Clone p)) c)), Ok tt)
  end.

Definition msrc_GetSchema (database table : string) c : MongoSource * TableInfo :=
  match mc_schemas c !! (database +:+ "." +:+ table) with
  | Some info => (c, info)
  | None =>
      (mset_schemas (<[database +:+ "." +:+ table := msrc_table database table]> (mc_schemas c)) c, msrc_table database table)
  end.

Definition msrc_AddTables (tables : list string) : ST MongoSource unit := λ c,
  match table_level (mc_scope c) with
  | None => (c, Err ErrInvalidSyncScope)
  | Some sc => (mset_scope (Some (with_names (ts_Names (ss_Tables sc) ++ tables) sc)) c, Ok tt)
  end.

Definition msrc_RemoveTables (tables : list string) : ST MongoSource unit := λ c,
  match table_level (mc_scope c) with
  | None => (c, Err ErrInvalidSyncScope)
  | Some sc => (mset_scope (Some (with_names (filter (λ n, n ∉ tables) (ts_Names (ss_Tables sc))) sc)) c, Ok tt)
  end.

Definition msrc_ListTables c : list string :=
  match table_level (mc_scope c) with Some sc => ts_Names (ss_Tables sc) | None => [] end.

(** *** The loop *)

Definition sendError (e : goerror) (room : bool) c : MongoSource :=
  if room then mset_chans (mc_events c) (mc_errors c ++ [e]) c else c.

Definition run_step (o : stream_outcome) c : MongoSource :=
  match o with
  | StreamIdle => c
  | StreamErr e room => sendError e room c
  | StreamDoc token doc room =>
      let c := mset_token (Some token) c in
      match doc with
      | Err e => sendError e room c
      | Ok d =>
          let evt := convertChangeEvent bson_doc bson_id fmt d in
          let pos := with_token token (ev_Position evt) in
          let evt := event_with_position pos evt in
          let c := save_store pos (mset_position (Some pos) c) in
          if room then mset_chans (mc_events c ++ [evt]) (mc_errors c) c else c
      end
  end.

Definition run_stream (os : list stream_outcome) c : MongoSource := foldl (λ c o, run_step o c) c os.
End Connector.

Arguments MongoSource S O {RX}.

(** ** Restarting *)

(** What a restart relies on of the store: a current position that is saved is the one
    that is loaded, once the task has a row of positions. *)
Class CurrentPositionLaws (S : Type) `{!TargetStore S} := {
  cp_kept : S → Prop;
  cp_current : S → option Position;
  cp_storable : Position → Prop;
  cp_save st p : cp_kept st → cp_storable p →
    ∃ st', SaveCurrentPosition (Some p) st = (st', Ok tt) ∧ cp_kept st' ∧ cp_current st' = Some p;
  cp_load st : cp_kept st → ∃ st' f, LoadPositions st = (st', Ok (f, cp_current st)) ∧ cp_kept st' ∧ cp_current st' = cp_current st
}.

(** The changes of the server, each with its token, and those a stream serves: the ones
    after the token that its stage admits. *)
Notation change := (list Byte.byte * ChangeEventDocument)%type.

Fixpoint after_token (token : list Byte.byte) (log : list change) : list change :=
  match log with
  | [] => []
  | (t, d) :: log => if decide (t = token) then log else after_token token log
  end.

Definition admits (dbs : option (list string)) (x : change) : Prop :=
  match dbs with None => True | Some l => cd_DB x.2 ∈ l end.

#[export] Instance admits_dec dbs x : Decision (admits dbs x).
Proof. unfold admits. destruct dbs; apply _. Defined.

Definition serves (req : watch_request) (log : list change) : list change :=
  filter (admits (wr_databases req)) (match wr_resumeAfter req with None => log | Some t => after_token t log end).

Lemma after_token_app pre t d rest : t ∉ pre.*1 → after_token t (pre ++ (t, d) :: rest) = rest.
Proof.
  induction pre as [|[t' d'] pre IH]; cbn; [by rewrite decide_True|].
  intros [Hne Hin]%not_elem_of_cons. rewrite decide_False by done. by apply IH.
Qed.

(** Resuming after the last change that was served: exactly the later ones are served. *)
Lemma serves_rest dbs log1 log2 t d ys :
  NoDup (log1 ++ log2).*1 → filter (admits dbs) log1 = ys ++ [(t, d)] →
  filter (admits dbs) (after_token t (log1 ++ log2)) = filter (admits dbs) log2.
Proof.
  intros Hnd Hf. assert (Hin : (t, d) ∈ log1).
  { assert (H : (t, d) ∈ filter (admits dbs) log1) by (rewrite Hf; apply elem_of_app; right; by left).
    by apply list_elem_of_filter in H as [_ H]. }
  apply list_elem_of_split in Hin as (pre & post & ->).
  rewrite <- app_assoc, <- app_comm_cons in *. rewrite fmap_app, fmap_cons in Hnd. apply NoDup_app in Hnd as (_ & Hpre & Hpost).
  assert (Ht : t ∉ pre.*1) by (intros Ht; apply (Hpre _ Ht); left).
  rewrite after_token_app, filter_app by done.
  (* nothing after the change was served before *)
  rewrite filter_app, filter_cons in Hf.
  destruct (decide (admits dbs (t, d))).
  - destruct (filter (admits dbs) post) as [|x l _] eqn:E using rev_ind; [done|]. exfalso.
    rewrite app_comm_cons, app_assoc in Hf. apply app_inj_tail in Hf as [_ ->].
    cbn [fmap] in Hpost. apply NoDup_cons in Hpost as [Hpost _]. apply Hpost. rewrite fmap_app. apply elem_of_app. left.
    assert ((t, d) ∈ filter (admits dbs) post) as Hx by (rewrite E; apply elem_of_app; right; by left).
    apply list_elem_of_filter in Hx as [_ Hx]. by apply (list_elem_of_fmap_2 fst) in Hx.
  - exfalso. assert (H : (t, d) ∈ filter (admits dbs) pre ++ filter (admits dbs) post)
      by (rewrite Hf; apply elem_of_app; right; by left).
    apply elem_of_app in H as [H|H]; by apply list_elem_of_filter in H as [H _].
Qed.

Section Restart.
Context {S O : Type} `{!TargetStore S} `{!Storage O} `{RX : Regexp} `{!CurrentPositionLaws S}.
Context (bson_doc : list Byte.byte → result (gmap string value)) (bson_id : list Byte.byte → result value) (fmt : value → string).
Implicit Types c : MongoSource S O.

(** The event of a change, with the token in its position. *)
Definition delivered (x : change) : ChangeEvent :=
  let e := convertChangeEvent bson_doc bson_id fmt x.2 in event_with_position (with_token x.1 (ev_Position e)) e.

Definition doc_outcome (y : change * bool) : stream_outcome := StreamDoc y.1.1 (Ok y.1.2) y.2.

(** What is sent: the changes that found room. *)
Definition sent (ys : list (change * bool)) : list ChangeEvent := delivered ∘ fst <$> filter (λ y, y.2 = true) ys.

Local Notation run ys c := (run_stream bson_doc bson_id fmt (doc_outcome <$> ys) c).

Lemma run_docs ys : ∀ c st,
  mc_store c = Some st → cp_kept st → Forall (λ y, cp_storable (ev_Position (delivered y.1))) ys →
  ∃ st', mc_store (run ys c) = Some st' ∧ cp_kept st' ∧ mc_events (run ys c) = mc_events c ++ sent ys ∧
    mc_state (run ys c) = mc_state c ∧ mc_stopClosed (run ys c) = mc_stopClosed c ∧
    match last ys with
    | Some y => mc_position (run ys c) = Some (ev_Position (delivered y.1)) ∧ cp_current st' = Some (ev_Position (delivered y.1))
    | None => True
    end.
Proof.
  induction ys as [|[[t d] room] ys IH]; intros c st Hst Hk Hall.
  { exists st. cbn. by rewrite app_nil_r. }
  apply Forall_cons in Hall as [Hp Hall]. destruct (cp_save st _ Hk Hp) as (st1 & E1 & Hk1 & Hc1).
  set (c1 := run_step bson_doc bson_id fmt (doc_outcome (t, d, room)) c).
  change (run ((t, d, room) :: ys) c) with (run ys c1).
  assert (H1 : mc_store c1 = Some st1 ∧ mc_events c1 = mc_events c ++ sent [(t, d, room)] ∧ mc_state c1 = mc_state c ∧
    mc_stopClosed c1 = mc_stopClosed c ∧ mc_position c1 = Some (ev_Position (delivered (t, d)))).
  { subst c1. unfold doc_outcome, run_step. cbn [fst snd]. unfold sent. rewrite filter_cons, filter_nil.
    destruct room; cbn; rewrite Hst; cbn; cbn in E1; rewrite E1; [done|]. by rewrite app_nil_r. }
  destruct H1 as (Hs1 & He1 & Hst1 & Hcl1 & Hp1). destruct (IH c1 st1 Hs1 Hk1 Hall) as (st' & Hs & Hk' & He & Hst' & Hcl & Hlast).
  exists st'. split; [done|]. split; [done|].
  split. { rewrite He, He1, <- app_assoc. f_equal. unfold sent. rewrite <- fmap_app, <- filter_app. done. }
  split; [congruence|]. split; [congruence|]. destruct ys as [|y ys]; [|exact Hlast].
  change (mc_store c1 = Some st') in Hs. rewrite Hs1 in Hs. injection Hs as <-. by split.
Qed.

(** Stopping saves the position once more. *)
Lemma stop_keeps c c' st p :
  mc_store c = Some st → cp_kept st → mc_position c = Some p → cp_storable p → mc_state c = SourceRunning →
  msrc_Stop c = (c', Ok tt) → ∃ st', mc_store c' = Some st' ∧ cp_kept st' ∧ cp_current st' = Some p ∧ mc_events c' = mc_events c.
Proof.
  intros Hst Hk Hp Hs Hrun. unfold msrc_Stop. rewrite bool_decide_eq_true_2 by done. cbn [negb mset_state mc_stopClosed].
  destruct (mc_stopClosed c); [done|]. cbn [mc_position mset_stopClosed mset_state]. rewrite Hp. intros [= <-].
  destruct (cp_save st p Hk Hs) as (st1 & E & Hk1 & Hc1). cbn. rewrite Hst. cbn. rewrite E. by exists st1.
Qed.

(** A new connector on the store of the old one. *)
Lemma init_resumes config (w : mongo_init S O) c st p t0 token :
  mi_store w = Some st → cp_kept st → cp_current st = Some p → pos_ResumeToken p = Some (t0 :: token) →
  mg_ResumeToken (msrc_parseConfig config) = "" → msrc_Initialize config w msrc_New = (c, Ok tt) →
  mc_resumeToken c = Some (t0 :: token) ∧ mc_config c = Some (msrc_Validate (msrc_parseConfig config)).1 ∧
  mc_client c = true ∧ mc_events c = [] ∧ (∃ st', mc_store c = Some st' ∧ cp_kept st') ∧ mc_state c = SourceStopped.
Proof.
  intros Hw Hk Hcur Htok Hcfg. unfold msrc_Initialize.
  assert (Hv : mg_ResumeToken (msrc_Validate (msrc_parseConfig config)).1 = "").
  { unfold msrc_Validate. by destruct (mg_Hosts _). }
  destruct (msrc_Validate (msrc_parseConfig config)) as [cfg valid]. cbn [fst] in *.
  destruct (cp_load st Hk) as (st1 & f & Hload & Hk1 & _).
  unfold mbind, ST_bind, st_lift, st_modify. destruct valid as [[]|]; [|done]. destruct (mi_connect w); [|done]. destruct (mi_ping w); [|done].
  rewrite Hw. unfold recover_store. destruct (mi_initDatabase w); [|done]. rewrite Hload, Hcur, Htok, Hv.
  rewrite bool_decide_eq_false_2 by (intros H; by apply H). intros [= <-]. cbn. split_and!; eauto.
Qed.

Definition config_of (config : source_Config) : MongoSrcConfig := (msrc_Validate (msrc_parseConfig config)).1.

(** Where the store keeps current positions (which needs a row that the program does not
    create), a restart resumes where the connector was stopped: of the server's changes, the
    first run sends those that it was served and that found room, and the second run is
    served exactly those that came later. *)
Theorem mongo_restart_resumes config w watch c1 c1' c2 c2' st log1 log2 ys req :
  (* the first run, on a store that keeps positions, up to the end of [log1] *)
  mc_store c1 = Some st → cp_kept st → mc_state c1 = SourceRunning → wr_databases req = watch_pipeline (config_of config) →
  ys.*1 = filter (admits (wr_databases req)) log1 → ys ≠ [] →
  Forall (λ y, cp_storable (ev_Position (delivered y.1)) ∧ y.1.1 ≠ []) ys → NoDup (log1 ++ log2).*1 →
  msrc_Stop (run ys c1) = (c1', Ok tt) →
  (* the second, on the same store *)
  mi_store w = mc_store c1' → mg_ResumeToken (msrc_parseConfig config) = "" →
  msrc_Initialize config w msrc_New = (c2, Ok tt) → msrc_Start watch c2 = (c2', Ok tt) →
  mc_events c1' = mc_events c1 ++ sent ys ∧
  ∃ req', mc_stream c2' = Some req' ∧ serves req' (log1 ++ log2) = filter (admits (wr_databases req)) log2 ∧
    ∀ zs, zs.*1 = serves req' (log1 ++ log2) → Forall (λ y, cp_storable (ev_Position (delivered y.1))) zs →
      mc_events (run zs c2') = sent zs.
Proof.
  intros Hst Hk Hrun Hreq Hys Hne Hall Hnd Hstop Hw Hcfg Hinit Hstart.
  apply Forall_and in Hall as [Hstor Htok]. destruct (run_docs ys c1 st Hst Hk Hstor) as (st1 & Hs1 & Hk1 & He1 & Hrun1 & _ & Hlast).
  destruct ys as [|[[t d] room] ys _] using rev_ind; [done|]. rewrite last_snoc in Hlast. destruct Hlast as [Hp Hcur].
  apply Forall_app in Htok as [_ Htok]. apply Forall_cons in Htok as [Htok _]. cbn [fst] in Htok.
  apply Forall_app in Hstor as [_ Hstor]. apply Forall_cons in Hstor as [Hstor _].
  rewrite Hrun in Hrun1. destruct (stop_keeps _ _ _ _ Hs1 Hk1 Hp Hstor Hrun1 Hstop) as (st2 & Hs2 & Hk2 & Hcur2 & He2).
  split; [by rewrite He2, He1|]. rewrite Hs2 in Hw. destruct t as [|t0 t]; [done|].
  destruct (init_resumes config w c2 st2 _ t0 t Hw Hk2 Hcur2 eq_refl Hcfg Hinit) as (Htk & Hc & Hcl & Hev & (st3 & Hs3 & Hk3) & Hsto).
  unfold msrc_Start in Hstart. rewrite Hsto, bool_decide_eq_false_2 in Hstart by done.
  cbn [mc_config mset_state mc_client mc_resumeToken] in Hstart. rewrite Hc, Hcl, Htk in Hstart. cbn [negb] in Hstart.
  destruct (watch _) as [|e]; [|done]. injection Hstart as <-. eexists. split; [reflexivity|]. split.
  - unfold serves. cbn [wr_databases wr_resumeAfter]. fold (config_of config). rewrite <- Hreq.
    rewrite fmap_app in Hys. cbn in Hys. by apply (serves_rest _ log1 log2 _ d ys.*1).
  - intros zs _ Hz. set (c3 := mset_client true _ _).
    destruct (run_docs zs c3 st3 Hs3 Hk3 Hz) as (_ & _ & _ & He & _). rewrite He. cbn. by rewrite Hev.
Qed.

(** Without a target store the position of the offset storage is loaded, but the stream
    starts anew: it is not told where to resume. *)
Theorem mongo_offset_not_resumed config (w : mongo_init S O) watch c c' :
  mi_store w = None → mg_ResumeToken (msrc_parseConfig config) = "" →
  msrc_Initialize config w msrc_New = (c, Ok tt) → msrc_Start watch c = (c', Ok tt) →
  ∃ req, mc_stream c' = Some req ∧ wr_resumeAfter req = None.
Proof.
  intros Hw Hcfg Hinit Hstart. unfold msrc_Initialize in Hinit.
  assert (Hv : mg_ResumeToken (msrc_Validate (msrc_parseConfig config)).1 = "").
  { unfold msrc_Validate. by destruct (mg_Hosts _). }
  destruct (msrc_Validate (msrc_parseConfig config)) as [cfg valid]. cbn [fst] in *.
  assert (Htok : mc_resumeToken c = None).
  { revert Hinit. unfold mbind, ST_bind, st_lift, st_modify. destruct valid as [[]|]; [|done]. destruct (mi_connect w); [|done].
    destruct (mi_ping w); [|done]. rewrite Hw. unfold recover_offset. rewrite Hv, (bool_decide_eq_false_2 (("" : string) ≠ "")) by (intros H; by apply H).
    case_bool_decide; [|by intros [= <-]]. destruct (mi_storage w _) as [o|]; [|done].
    destruct (storage_Load _ o) as [o' [[p|]|]]; [destruct (0 <? _)| |]; by intros [= <-]. }
  unfold msrc_Start in Hstart. case_bool_decide; [done|]. cbn [mset_state mc_config mc_client mc_resumeToken] in Hstart.
  destruct (mc_config c); [|done]. destruct (mc_client c); [|done]. destruct (watch _); [|done].
  injection Hstart as <-. eexists. split; [reflexivity|]. done.
Qed.

(** A position that is set is not where the stream starts either. *)
Theorem mongo_position_not_used pos c : mc_resumeToken (msrc_SetPosition pos c).1 = mc_resumeToken c.
Proof. by destruct pos. Qed.
End Restart.

(** ** The MySQL store keeps current positions *)

Section MySQLPositions.
Context `{!JSONCodec Position} `{!JSONCodec TableInfo} `{!JSONLaws Position} `{!JSONLaws TableInfo}
  (json_column : list Byte.byte → list Byte.byte) `{!JSONColumn json_column}
  `{!GoRange (string * string) lifecycle_cols} `{!GoRange (string * string) ddl_cols}.

#[local] Instance my_store_kept : TargetStore MySQLDB := MySQLStore json_column sql_ok.

Definition my_current (d : MySQLDB) : option Position :=
  match my_task_position d with Some (_, cur) => match unmarshalPosition cur with Ok p => p | Err _ => None end | None => None end.

Lemma positions_are_current d p q : positions_are d (Some (p, q)) → my_current d = Some q.
Proof. unfold positions_are, my_current. destruct (my_task_position d) as [[]|]; [|done]. by intros [_ ->]. Qed.

#[program]
Definition my_current_laws : CurrentPositionLaws MySQLDB := {|
  cp_kept d := ∃ p q, positions_are d (Some (p, q));
  cp_current := my_current;
  cp_storable p := json_wf p
|}.
Next Obligation.
  intros d p (f & q & Hd) Hwf. destruct (save_position_spec json_column (false, p) d (Some (f, q)) Hwf Hd) as (d' & E & Hd').
  exists d'. split; [exact E|]. split; [by exists f, p|]. by eapply positions_are_current.
Qed.
Next Obligation.
  intros d (f & q & Hd). exists d, (Some f). rewrite (positions_are_current d f q Hd). split; [|split; [by exists f, q|done]].
  cbn. unfold my_LoadPositions, mbind, ST_bind, useDB, st_lift, query. cbn [sql_use sql_exec sql_ok].
  unfold positions_are in Hd. destruct (my_task_position d) as [[a b]|]; [|done]. by destruct Hd as [-> ->].
Qed.
End MySQLPositions.

(** ** Runs *)

Module MongoSourceRuns.
Import StoreRuns.

#[local] Instance plain_regexp : Regexp := {|
  regexp := string; regexp_Compile p := Ok p; MatchString p s := strings_Contains s p |}.
#[local] Instance laws : CurrentPositionLaws MySQLDB := my_current_laws (λ d, d).

(** Documents of one byte, the value of their identifier. *)
Definition doc (b : list Byte.byte) : result (gmap string value) :=
  match b with [x] => Ok {["_id" := VInt32 (byte_to_Z x)]} | _ => Err (ErrNew "invalid document") end.
Definition id_of (b : list Byte.byte) : result value :=
  match b with [x] => Ok (VInt32 (byte_to_Z x)) | _ => Err (ErrNew "invalid document") end.
Definition print (v : value) : string := match v with VInt32 z => pretty z | _ => "" end.

Definition insert (db : string) (b : Byte.byte) (i : Z) : change :=
  ([Byte.x01; b], mkChangeDoc "insert" (Some [b]) None db "users" (Some [b]) 100 i).

Definition log1 : list change := [insert "shop" Byte.x01 1; insert "other" Byte.x02 2; insert "shop" Byte.x03 3; insert "other" Byte.x04 4].
Definition log2 : list change := [insert "shop" Byte.x05 5; insert "other" Byte.x06 6; insert "shop" Byte.x07 7].

Definition config : source_Config :=
  mkSourceConfig "mongodb" (mkConnectionConfig "db" 0 "" "" "" [] "" "" "" 0 []) ∅ [mkTableFilter "shop" "" []] "" "" 0 None.

Definition kept : MySQLDB := (save_position (λ d, d) (true, Position_zero) InitDatabase).1.

Lemma kept_kept : cp_kept kept.
Proof.
  destruct (save_position_spec (λ d, d) (true, Position_zero) InitDatabase None) as (d & E & Hd); [done|done|].
  unfold kept. rewrite E. cbn. eauto.
Qed.

Definition request : watch_request := mkWatchRequest (Some ["shop"]) "updateLookup" 100 1000000000 None.

Definition first_run : MongoSource MySQLDB MemoryStorage :=
  mset_stores (Some kept) None "" (mset_client true (Some request) (mset_state SourceRunning "" msrc_New)).

(** The second event finds no room. *)
Definition served : list (change * bool) := [(insert "shop" Byte.x01 1, true); (insert "shop" Byte.x03 3, false)].

Definition stopped : MongoSource MySQLDB MemoryStorage := (msrc_Stop (run_stream doc id_of print (doc_outcome <$> served) first_run)).1.

Definition init : mongo_init MySQLDB MemoryStorage := mkMongoInit (Ok tt) (Ok tt) (mc_store stopped) (Ok tt) (λ _, Err (ErrNew "none")).

Definition second_run : MongoSource MySQLDB MemoryStorage := (msrc_Start (λ _, Ok tt) (msrc_Initialize config init msrc_New).1).1.

(** The event that found no room is in neither run. *)
Lemma mongo_restart_resumes_witness :
  mc_events stopped = [delivered doc id_of print (insert "shop" Byte.x01 1)] ∧
  ∃ req, mc_stream second_run = Some req ∧ serves req (log1 ++ log2) = [insert "shop" Byte.x05 5; insert "shop" Byte.x07 7].
Proof.
  opose proof* (mongo_restart_resumes doc id_of print config init (λ _, Ok tt) first_run stopped
    (msrc_Initialize config init msrc_New).1 second_run kept log1 log2 served request) as Hr.
  - reflexivity.
  - apply kept_kept.
  - reflexivity.
  - reflexivity.
  - reflexivity.
  - done.
  - repeat (apply Forall_cons_2; [split; [exact I|done]|]). apply Forall_nil_2.
  - apply (bool_decide_unpack _). reflexivity.
  - unfold stopped. apply eta_pair. reflexivity.
  - reflexivity.
  - reflexivity.
  - apply eta_pair. reflexivity.
  - unfold second_run. apply eta_pair. reflexivity.
  - destruct Hr as [He (req & Hreq & Hs & _)]. split; [exact He|]. exists req. split; [exact Hreq|]. rewrite Hs. reflexivity.
Defined.

Lemma mongo_offset_not_resumed_witness :
  let w := mkMongoInit (S := MySQLDB) (O := MemoryStorage) (Ok tt) (Ok tt) None (Ok tt) (λ _, Ok {["mongodb" := ev_Position (delivered doc id_of print (insert "shop" Byte.x01 1))]}) in
  ∃ req, mc_stream (msrc_Start (λ _, Ok tt) (msrc_Initialize config w msrc_New).1).1 = Some req ∧ wr_resumeAfter req = None.
Proof.
  intros w. apply (mongo_offset_not_resumed config w (λ _, Ok tt) (msrc_Initialize config w msrc_New).1).
  - reflexivity.
  - reflexivity.
  - apply eta_pair. reflexivity.
  - apply eta_pair. reflexivity.
Defined.

(** A collection that is renamed is told as an insertion of nothing. *)
Example rename_is_an_insert :
  let e := convertChangeEvent doc id_of print (mkChangeDoc "rename" None None "shop" "users" None 100 1) in
  IsDDL (mkChangeDoc "rename" None None "shop" "users" None 100 1) = true ∧ ev_Type e = EventTypeInsert ∧ ev_After e = RowData_zero.
Proof. done. Qed.

(** The deletion of a document has its identifier in the metadata only. *)
Example delete_has_no_key :
  let e := convertChangeEvent doc id_of print (mkChangeDoc "delete" None None "shop" "users" (Some [Byte.x05]) 100 1) in
  ev_Type e = EventTypeDelete ∧ rd_lookup (ev_Before e) "_id" = None ∧ ti_PrimaryKeyColumns (ev_Table e) = ["_id"] ∧
  ev_Metadata e = Some {["_id" := "5"]}.
Proof. done. Qed.

(** The filter for all databases admits none. *)
Example star_admits_nothing :
  let cfg := mkMongoSrcConfig ["h"] "" "" "" "" "" "" false 0 0 30 0 30 "" "" "" 0 0 "" ["*"] ∅ in
  msrc_shouldCapture (GoRange0 := sorted_range string string) cfg "shop" "users" = true ∧
  filter (admits (watch_pipeline cfg)) (log1 ++ log2) = [].
Proof. done. Qed.
End MongoSourceRuns.
