(* ===== verification/PgConnector.v ===== *)
(** The PostgreSQL source connector around its handler (internal/source/postgres): config.go
    and the rest of connector.go: initialising, starting, the loop that receives, stopping,
    positions and definitions of tables.

    The server is a parameter: what it answers to connections and replication commands
    ([pg_server], [pg_init]) and what it sends ([pg_received]).  What the connector asks of
    it is kept in order ([pg_request]). *)
From Stdlib Require Import ZArith Lia SpecFloat.
From Stdlib Require String Strings.Byte.
From stdpp Require Import prelude countable gmap strings list fin_maps pretty sorting.
From S2P Require Import Prelude Events SchemaHistory TargetStore TableLifecycle Scope BinlogConsumer LogMiner SQLSink PgOutput Offsets BinlogSyncer MySQLConnector DocumentSinks MongoSink SQLServerReader SQLServerConnector MongoSource.
Local Open Scope Z_scope.

Definition src_ErrNotInitialized : goerror := ErrCode "DS:Source:NotInitialized".

(** ** config.go *)

Record PgSrcConfig := mkPgSrcConfig {
  pq_Host : string;
  pq_Port : Z;
  pq_User : string;
  pq_Password : string;
  pq_Database : string;
  pq_PluginName : string;
  pq_SlotName : string;
  pq_CreateSlot : bool;
  pq_DropSlotOnStop : bool;
  pq_PublicationName : string;
  pq_CreatePublication : bool;
  pq_Schemas : list string;
  pq_Tables : gmap string string;
  pq_StartLSN : Z;                             (* uint64 *)
  pq_SnapshotMode : string;
  pq_SnapshotThreads : Z;
  pq_Timezone : string;
  pq_SSLMode : string;
  pq_SSLCert : string;
  pq_SSLKey : string;
  pq_SSLRootCert : string;
  pq_MaxConnections : Z;
  pq_MaxIdle : Z;
  pq_ConnectTimeout : Z;
  pq_ReplicationTimeout : Z;
  pq_HeartbeatInterval : Z;
  pq_StatusInterval : Z;
  pq_OffsetBackend : string;
  pq_OffsetPath : string;
  pq_OffsetFlushMs : Z;
  pq_OffsetEtcdAddrs : string
}.

Definition psrc_DefaultConfig : PgSrcConfig :=
  mkPgSrcConfig "" 5432 "" "" "" "pgoutput" "datastream_slot" true false "datastream_pub" true ["public"] ∅ 0 "initial" 1 "UTC"
    "" "" "" "" 10 5 30 30 30 10 "file" "" 1000 "".

Definition psrc_Validate (c : PgSrcConfig) : result unit :=
  if bool_decide (pq_Host c = "") then Err src_ErrInvalidConfig
  else if bool_decide (pq_User c = "") then Err src_ErrInvalidConfig
  else if bool_decide (pq_Database c = "") then Err src_ErrInvalidConfig
  else if bool_decide (pq_SlotName c = "") then Err src_ErrInvalidConfig
  else Ok tt.

(** [uint64(f)]: truncation; out of range the language leaves the value to the
    implementation. *)
Definition uint64_of_float64 (f : spec_float) : Z :=
  match f with
  | S754_finite false m e =>
      let a := if 0 <=? e then Z.pos m * 2 ^ e else Z.pos m / 2 ^ (- e) in
      if a <? 2 ^ 64 then a else 2 ^ 63
  | _ => u64 (int_of_float64 f)
  end.

Section Config.
Context `{RX : Regexp}.

Definition so_uint64 (c : source_Config) (name : string) : option Z :=
  match so_Properties c !! name with Some (PValue (VFloat64 f)) => Some (uint64_of_float64 f) | _ => None end.

(** The schemas of the filters are added to the default's, empty ones too. *)
Definition psrc_parseConfig (config : source_Config) : PgSrcConfig :=
  let d := psrc_DefaultConfig in
  let conn := so_Connection config in
  mkPgSrcConfig (cc_Host conn) (cc_Port conn) (cc_User conn) (cc_Password conn) (cc_Database conn)
    (default (pq_PluginName d) (so_string config "pluginName"))
    (default (pq_SlotName d) (so_string config "slotName"))
    (default (pq_CreateSlot d) (so_bool config "createSlot"))
    (default (pq_DropSlotOnStop d) (so_bool config "dropSlotOnStop"))
    (default (pq_PublicationName d) (so_string config "publicationName"))
    (pq_CreatePublication d)
    (pq_Schemas d ++ (tf_Schema <$> so_Tables config)) (pq_Tables d)
    (default (pq_StartLSN d) (so_uint64 config "startLsn"))
    (default (pq_SnapshotMode d) (so_string config "snapshotMode"))
    (pq_SnapshotThreads d)
    (default (pq_Timezone d) (so_string config "timezone"))
    (default (pq_SSLMode d) (so_string config "sslMode"))
    (pq_SSLCert d) (pq_SSLKey d) (pq_SSLRootCert d) (pq_MaxConnections d) (pq_MaxIdle d) (pq_ConnectTimeout d)
    (pq_ReplicationTimeout d) (pq_HeartbeatInterval d) (pq_StatusInterval d)
    (so_OffsetBackend config) (so_OffsetPath config) (so_OffsetFlush config) (pq_OffsetEtcdAddrs d).
End Config.

(** What the handler reads of it. *)
Definition handler_config (c : PgSrcConfig) : PgConfig := mkPgConfig (pq_Database c) (pq_Schemas c) (pq_Tables c).

(** The errors at the ends of the two iterations are not asked for. *)
Definition pg_querySchema (a : schema_answer) (database table : string) : result TableInfo :=
  match sa_columns a with
  | Err e => Err (ErrWrapf "failed to query columns" e)
  | Ok (rows, _) =>
      columns ← scan_all "failed to scan column"
                  (λ c, mkColumnInfo (cd_name c) (cd_type c) (bool_decide (cd_nullable c = "YES")) 0 0) rows;
      match sa_keys a with
      | Err e => Err (ErrWrapf "failed to query primary key" e)
      | Ok (rows, _) =>
          keys ← scan_all "failed to scan primary key column" id rows;
          Ok (mkTableInfo database "" table keys [] columns)
      end
  end.

(** ** The server *)

Inductive pg_request :=
  | ReqCreateSlot (slot plugin : string)
  | ReqStart (slot : string) (lsn : Z) (publication : string)
  | ReqStatus (lsn : Z)                        (* written, flushed and applied *)
  | ReqDropSlot (slot : string).

Record pg_server := mkPgServer {
  sv_connect : result unit;
  sv_identify : result Z;
  sv_start : Z → result unit
}.

Record pg_init (O : Type) := mkPgInit {
  pi_open : result unit;
  pi_ping : result unit;
  pi_parser : option DDLParser;                (* the registry's *)
  pi_storage : string → string → Z → result O
}.
Arguments mkPgInit {_} _ _ _ _.
Arguments pi_open {_} _.
Arguments pi_ping {_} _.
Arguments pi_parser {_} _.
Arguments pi_storage {_} _ _ _ _.

(** What [ReceiveMessage] gives: an error; copy data (with the flag of a keepalive that asks
    for a reply); copy data that does not parse, or without a byte; another message. *)
Inductive pg_received :=
  | RecvErr (e : goerror)
  | RecvData (d : CopyData) (replyRequested : bool)
  | RecvBad (e : goerror)
  | RecvEmpty
  | RecvOther.

(** One turn of the loop: the ticker, or a message; [room] is whether the error channel
    takes an error within five seconds. *)
Inductive pg_turn := Tick | Recv (now : time) (r : pg_received) (room : bool).

(** ** connector.go *)

Section Connector.
Context {O : Type} `{!Storage O} `{RX : Regexp}.
Context (format_ts : time → string).

(** The handler is part of [pn_src]; [pn_handler] is its parser, once it exists. *)
Record PgConnector := mkPgConnector {
  pn_config : option PgSrcConfig;
  pn_state : SourceState;
  pn_message : string;
  pn_src : PgSource;
  pn_handler : option (option DDLParser);
  pn_errors : list goerror;
  pn_stopClosed : bool;
  pn_conn : bool;
  pn_db : bool;
  pn_ddlParser : option DDLParser;
  pn_offset : option O;
  pn_taskID : string;
  pn_scope : option SyncScope;
  pn_requests : list pg_request
}.
Implicit Types c : PgConnector.

Definition psrc_New : PgConnector :=
  mkPgConnector None SourceUninitialized "" (mkPgSource false ∅ None None 0 ∅ None None None [] []) None [] false false false
    None None "" None [].

Definition pset_state st msg c := mkPgConnector (pn_config c) st msg (pn_src c) (pn_handler c) (pn_errors c) (pn_stopClosed c)
  (pn_conn c) (pn_db c) (pn_ddlParser c) (pn_offset c) (pn_taskID c) (pn_scope c) (pn_requests c).
Definition pset_config cfg sc c := mkPgConnector (Some cfg) (pn_state c) (pn_message c) (pn_src c) (pn_handler c) (pn_errors c)
  (pn_stopClosed c) (pn_conn c) (pn_db c) (pn_ddlParser c) (pn_offset c) (pn_taskID c) sc (pn_requests c).
Definition pset_src s c := mkPgConnector (pn_config c) (pn_state c) (pn_message c) s (pn_handler c) (pn_errors c) (pn_stopClosed c)
  (pn_conn c) (pn_db c) (pn_ddlParser c) (pn_offset c) (pn_taskID c) (pn_scope c) (pn_requests c).
Definition pset_handler h c := mkPgConnector (pn_config c) (pn_state c) (pn_message c) (pn_src c) h (pn_errors c) (pn_stopClosed c)
  (pn_conn c) (pn_db c) (pn_ddlParser c) (pn_offset c) (pn_taskID c) (pn_scope c) (pn_requests c).
Definition pset_errors errs c := mkPgConnector (pn_config c) (pn_state c) (pn_message c) (pn_src c) (pn_handler c) errs
  (pn_stopClosed c) (pn_conn c) (pn_db c) (pn_ddlParser c) (pn_offset c) (pn_taskID c) (pn_scope c) (pn_requests c).
Definition pset_stopClosed b c := mkPgConnector (pn_config c) (pn_state c) (pn_message c) (pn_src c) (pn_handler c) (pn_errors c)
  b (pn_conn c) (pn_db c) (pn_ddlParser c) (pn_offset c) (pn_taskID c) (pn_scope c) (pn_requests c).
Definition pset_conns conn db c := mkPgConnector (pn_config c) (pn_state c) (pn_message c) (pn_src c) (pn_handler c) (pn_errors c)
  (pn_stopClosed c) conn db (pn_ddlParser c) (pn_offset c) (pn_taskID c) (pn_scope c) (pn_requests c).
Definition pset_parser p c := mkPgConnector (pn_config c) (pn_state c) (pn_message c) (pn_src c) (pn_handler c) (pn_errors c)
  (pn_stopClosed c) (pn_conn c) (pn_db c) p (pn_offset c) (pn_taskID c) (pn_scope c) (pn_requests c).
Definition pset_offset o id c := mkPgConnector (pn_config c) (pn_state c) (pn_message c) (pn_src c) (pn_handler c) (pn_errors c)
  (pn_stopClosed c) (pn_conn c) (pn_db c) (pn_ddlParser c) o id (pn_scope c) (pn_requests c).
Definition pset_scope sc c := mkPgConnector (pn_config c) (pn_state c) (pn_message c) (pn_src c) (pn_handler c) (pn_errors c)
  (pn_stopClosed c) (pn_conn c) (pn_db c) (pn_ddlParser c) (pn_offset c) (pn_taskID c) sc (pn_requests c).
Definition ask (r : pg_request) c := mkPgConnector (pn_config c) (pn_state c) (pn_message c) (pn_src c) (pn_handler c) (pn_errors c)
  (pn_stopClosed c) (pn_conn c) (pn_db c) (pn_ddlParser c) (pn_offset c) (pn_taskID c) (pn_scope c) (pn_requests c ++ [r]).

Definition pn_position c : option Position := pg_position (pn_src c).
Definition pset_position p c := pset_src (with_position p (pn_src c)) c.
Definition pset_lsn l c := pset_src (PgOutput.with_lsn l (pn_src c)) c.

(** Saving a position where there is an offset storage; errors are logged. *)
Definition pg_save_offset (p : Position) c : PgConnector :=
  pset_offset ((λ o, (storage_Save (pn_taskID c) (Some p) o).1) <$> pn_offset c) (pn_taskID c) c.

(** *** Initialising *)

(** New tables, over a store that keeps nothing; the position is the one from before. *)
Definition pg_init_history (parser : option DDLParser) c : PgConnector :=
  let tables := (hist_Recover (SchemaHistory := @target_store_history unit NoopStore) (pn_position c) tt NewTables).1 in
  let c := pset_src (PgOutput.with_store (Some (mkCallLog [] [])) (with_schema (Some tables) (Some (mkCallLog [] [])) (pn_src c))) c in
  match parser with Some p => pset_parser (Some p) c | None => c end.

Definition pg_init_offset (config : source_Config) (w : pg_init O) : ST PgConnector unit := λ c,
  if bool_decide (so_OffsetBackend config ≠ "") then
    match pi_storage w (so_OffsetBackend config) (so_OffsetPath config) (so_OffsetFlush config) with
    | Err e => (c, Err (ErrWrapf "failed to create offset storage" e))
    | Ok o =>
        let '(o, r) := storage_Load (so_Type config) o in
        let c := pset_offset (Some o) (so_Type config) c in
        (match r with Ok (Some p) => pset_lsn (pos_LSN p) (pset_position (Some p) c) | _ => c end, Ok tt)
    end
  else (c, Ok tt).

(** A configured LSN replaces the position that was loaded. *)
Definition pg_init_lsn (cfg : PgSrcConfig) c : PgConnector :=
  if 0 <? pq_StartLSN cfg then pset_position (Some (at_lsn (pq_StartLSN cfg) 0)) (pset_lsn (pq_StartLSN cfg) c) else c.

Definition psrc_Initialize (config : source_Config) (w : pg_init O) : ST PgConnector unit :=
  let cfg := psrc_parseConfig config in
  st_lift (psrc_Validate cfg) ≫= λ _,
  st_modify (λ c, pset_state SourceInitializing (pn_message c) (pset_config cfg (so_SyncScope config) c)) ≫= λ _,
  st_lift (match pi_open w with Err e => Err (ErrWrapf "failed to open database" e) | Ok _ => Ok tt end) ≫= λ _,
  st_lift (match pi_ping w with Err e => Err (ErrWrapf "failed to connect to database" e) | Ok _ => Ok tt end) ≫= λ _,
  st_modify (λ c, pg_init_history (pi_parser w) (pset_conns (pn_conn c) true c)) ≫= λ _,
  pg_init_offset config w ≫= λ _,
  st_modify (λ c, let c := pg_init_lsn cfg c in pset_state SourceStopped (pn_message c) c).

(** *** Starting *)

(** The position comes first, then the LSN. *)
Definition start_lsn c : Z :=
  match pn_position c with
  | Some p => if 0 <? pos_LSN p then pos_LSN p else pg_currentLSN (pn_src c)
  | None => pg_currentLSN (pn_src c)
  end.

(** An error of the server here leaves the state running. *)
Definition identify (sv : pg_server) : ST PgConnector unit := λ c,
  if pg_currentLSN (pn_src c) =? 0 then
    match sv_identify sv with
    | Err e => (c, Err (ErrWrapf "failed to identify system" e))
    | Ok lsn => (pset_lsn lsn c, Ok tt)
    end
  else (c, Ok tt).

(** A slot that cannot be created is taken to exist. *)
Definition replicate_from (sv : pg_server) (cfg : PgSrcConfig) : ST PgConnector unit := λ c,
  let c := if pq_CreateSlot cfg then ask (ReqCreateSlot (pq_SlotName cfg) (pq_PluginName cfg)) c else c in
  let lsn := start_lsn c in
  let c := ask (ReqStart (pq_SlotName cfg) lsn (pq_PublicationName cfg)) c in
  match sv_start sv lsn with
  | Err e => (c, Err (ErrWrapf "failed to start replication" e))
  | Ok _ => (pset_handler (Some (pn_ddlParser c)) (pset_src (NewPGOutputHandler (pn_src c)) c), Ok tt)
  end.

Definition psrc_Start (sv : pg_server) : ST PgConnector unit := λ c,
  if bool_decide (pn_state c = SourceRunning) then (c, Err src_ErrAlreadyRunning)
  else
    let c := pset_state SourceRunning (pn_message c) c in
    match pn_config c with
    | None => (c, Err (Panic "nil pointer dereference"))
    | Some cfg =>
        match sv_connect sv with
        | Err e => (pset_state SourceError (error_string e) c, Err (ErrWrapf "failed to connect with replication mode" e))
        | Ok _ =>
            (identify sv ≫= λ _, replicate_from sv cfg) (pset_conns true (pn_db c) c)
        end
    end.

(** *** The loop *)

Definition pg_sendError (e : goerror) (room : bool) c : PgConnector :=
  if room then pset_errors (pn_errors c ++ [e]) c else c.

Definition send_status c : PgConnector :=
  if pn_conn c then ask (ReqStatus (sendStandbyStatus (pn_src c))) c else c.

Definition pg_receive (r : pg_received) : ST PgConnector (option Message) := λ c,
  if negb (pn_conn c) then (c, Err (ErrNew "not connected"))
  else
    match r with
    | RecvErr e | RecvBad e => (c, Err e)
    | RecvEmpty => (c, Err (Panic "index out of range"))
    | RecvOther => (c, Ok None)
    | RecvData d reply =>
        let '(s, m) := receiveMessage d (pn_src c) in
        let c := pset_src s c in
        (match d with Keepalive _ => if reply then send_status c else c | XLogData _ _ _ => c end, m)
    end.

Definition pg_turn_step (t : pg_turn) : ST PgConnector unit := λ c,
  match t with
  | Tick => (send_status c, Ok tt)
  | Recv now r room =>
      match pg_receive r c with
      | (c, Err (Panic p)) => (c, Err (Panic p))
      | (c, Err e) => (pg_sendError e room c, Ok tt)
      | (c, Ok None) => (c, Ok tt)
      | (c, Ok (Some msg)) =>
          match pn_config c, pn_handler c with
          | Some cfg, Some parser =>
              let '(s, h) := HandleMessage (handler_config cfg) parser format_ts now msg (pn_src c) in
              let c := pset_src s c in
              match h with
              | Ok _ => (c, Ok tt)
              | Err (Panic p) => (c, Err (Panic p))
              | Err e => (pg_sendError e room c, Ok tt)
              end
          | _, _ => (c, Err (Panic "nil pointer dereference"))
          end
      end
  end.

Fixpoint pg_run (ts : list pg_turn) : ST PgConnector unit :=
  match ts with [] => mret tt | t :: ts => pg_turn_step t ≫= λ _, pg_run ts end.

(** *** Stopping and the position *)

(** Closing the connections is left out; closing the channel twice panics. *)
Definition psrc_Stop : ST PgConnector unit := λ c,
  if negb (bool_decide (pn_state c = SourceRunning)) then (c, Ok tt)
  else
    let c := pset_state SourceStopped (pn_message c) c in
    if pn_stopClosed c then (c, Err (Panic "close of closed channel"))
    else
      let c := pset_stopClosed true c in
      let c := match pn_config c with
               | Some cfg => if pn_conn c && pq_DropSlotOnStop cfg then ask (ReqDropSlot (pq_SlotName cfg)) c else c
               | None => c
               end in
      (match pn_position c with Some p => pg_save_offset p c | None => c end, Ok tt).

Definition psrc_GetPosition c : option Position := Position_Clone <$> pn_position c.

Definition psrc_SetPosition (pos : option Position) : ST PgConnector unit := λ c,
  match pos with
  | None => (c, Err (Panic "nil pointer dereference"))
  | Some p =>
      let c := pset_position (Some (Position_Clone p)) c in
      let c := if 0 <? pos_LSN p then pset_lsn (pos_LSN p) c else c in
      (pg_save_offset (Position_Clone p) c, Ok tt)
  end.

(** *** Definitions of tables *)

Definition psrc_querySchema (db : string → schema_answer) (table : string) : ST PgConnector TableInfo := λ c,
  if negb (pn_db c) then (c, Err src_ErrNotInitialized)
  else
    match pn_config c with
    | None => (c, Err (Panic "nil pointer dereference"))
    | Some cfg =>
        match pg_querySchema (db table) (pq_Database cfg) table with
        | Err e => (c, Err e)
        | Ok info =>
            (pset_src (with_schemaCache (<["public." +:+ table := info]> (pg_schemaCache (pn_src c))) (pn_src c)) c, Ok info)
        end
    end.

Definition psrc_GetSchema (db : string → schema_answer) (database table : string) : ST PgConnector TableInfo := λ c,
  match pg_tables (pn_src c) ≫= λ t, Tables_Get t database table with
  | Some info => (c, Ok info)
  | None =>
      match pg_schemaCache (pn_src c) !! (database +:+ "." +:+ table) with
      | Some info => (c, Ok info)
      | None => psrc_querySchema db table c
      end
  end.

Definition psrc_Schemas c : gmap string TableInfo :=
  from_option Tables_All ∅ (pg_tables (pn_src c)) ∪ pg_schemaCache (pn_src c).

(** *** Tables *)

Definition psrc_AddTables (tables : list string) : ST PgConnector unit := λ c,
  match table_level (pn_scope c) with
  | None => (c, Err ErrInvalidSyncScope)
  | Some sc => (pset_scope (Some (with_names (ts_Names (ss_Tables sc) ++ tables) sc)) c, Ok tt)
  end.

Definition psrc_RemoveTables (tables : list string) : ST PgConnector unit := λ c,
  match table_level (pn_scope c) with
  | None => (c, Err ErrInvalidSyncScope)
  | Some sc => (pset_scope (Some (with_names (filter (λ n, n ∉ tables) (ts_Names (ss_Tables sc))) sc)) c, Ok tt)
  end.

Definition psrc_ListTables c : list string :=
  match table_level (pn_scope c) with Some sc => ts_Names (ss_Tables sc) | None => [] end.
End Connector.

Arguments PgConnector O {RX}.

(** ** Where replication starts *)

Section Starting.
Context {O : Type} `{!Storage O} `{RX : Regexp}.
Implicit Types c : PgConnector O.

(** What a run of [Initialize] on a new connector leaves. *)
Definition initialised (config : source_Config) (w : pg_init O) (loaded : option Position) (o : option O) c : Prop :=
  let cfg := psrc_parseConfig config in
  let p := if 0 <? pq_StartLSN cfg then Some (at_lsn (pq_StartLSN cfg) 0) else loaded in
  pn_config c = Some cfg ∧ pn_state c = SourceStopped ∧ pn_position c = p ∧ pg_currentLSN (pn_src c) = from_option pos_LSN 0 p ∧
  pg_tables (pn_src c) = Some NewTables ∧ pg_events (pn_src c) = [] ∧ pn_offset c = o ∧
  pn_stopClosed c = false ∧ pn_requests c = [] ∧ pn_taskID c = (if o then so_Type config else "").

(** The position of the storage that is opened, if one is configured and can be read. *)
Definition loaded_position (config : source_Config) (w : pg_init O) : option Position * option O :=
  if bool_decide (so_OffsetBackend config ≠ "") then
    match pi_storage w (so_OffsetBackend config) (so_OffsetPath config) (so_OffsetFlush config) with
    | Ok o => let '(o, r) := storage_Load (so_Type config) o in (match r with Ok p => p | Err _ => None end, Some o)
    | Err _ => (None, None)
    end
  else (None, None).

Lemma Initialize_new config w c :
  psrc_Initialize config w psrc_New = (c, Ok tt) →
  initialised config w (loaded_position config w).1 (loaded_position config w).2 c.
Proof.
  unfold psrc_Initialize, initialised. generalize (psrc_parseConfig config). intros cfg.
  unfold mbind, ST_bind, st_lift, st_modify, pg_init_offset, loaded_position, pg_init_lsn, pg_init_history.
  destruct (psrc_Validate cfg) as [[]|]; [|done]. destruct (pi_open w); [|done]. destruct (pi_ping w); [|done].
  case_bool_decide; [destruct (pi_storage w _ _ _) as [o|]; [|done]; destruct (storage_Load _ o) as [o' [[p|]|]]|];
    intros [= <-]; destruct (pi_parser w), (0 <? pq_StartLSN cfg); split_and!; done.
Qed.

Definition asked_start (slot publication : string) (lsn : Z) c : Prop :=
  last (pn_requests c) = Some (ReqStart slot lsn publication).

(** Starting a connector that stands still: the last request is for the LSN of the position,
    or else for the server's. *)
Lemma Start_asks sv cfg c c' :
  pn_config c = Some cfg → pn_state c ≠ SourceRunning → psrc_Start sv c = (c', Ok tt) →
  ∃ lsn, asked_start (pq_SlotName cfg) (pq_PublicationName cfg) lsn c' ∧ sv_start sv lsn = Ok tt ∧
    (lsn = start_lsn c ∧ pg_currentLSN (pn_src c) ≠ 0 ∨
     pg_currentLSN (pn_src c) = 0 ∧ sv_identify sv = Ok (pg_currentLSN (pn_src c')) ∧
     lsn = (if 0 <? from_option pos_LSN 0 (pn_position c) then from_option pos_LSN 0 (pn_position c) else pg_currentLSN (pn_src c'))) ∧
    pn_state c' = SourceRunning ∧ pn_config c' = Some cfg ∧ pn_conn c' = true ∧ pn_position c' = pn_position c ∧
    pn_handler c' = Some (pn_ddlParser c) ∧ pg_ctxSet (pn_src c') = false ∧ pg_relations (pn_src c') = ∅ ∧
    pg_tables (pn_src c') = pg_tables (pn_src c) ∧ pg_events (pn_src c') = pg_events (pn_src c) ∧
    pn_offset c' = pn_offset c ∧ pn_taskID c' = pn_taskID c ∧ pn_stopClosed c' = pn_stopClosed c.
Proof.
  intros Hc Hs. unfold psrc_Start. rewrite bool_decide_eq_false_2 by done. cbn [pset_state pn_config]. rewrite Hc.
  destruct (sv_connect sv); [|done]. unfold mbind, ST_bind, identify. cbn.
  destruct (pg_currentLSN (pn_src c) =? 0) eqn:Hl; [destruct (sv_identify sv) as [l|] eqn:Hi; [|done]|];
    unfold replicate_from; destruct (pq_CreateSlot cfg); cbn;
    (match goal with |- context [sv_start sv ?l] => destruct (sv_start sv l) as [[]|] eqn:Hst; [|done]; intros [= <-]; exists l end);
    unfold asked_start; cbn; rewrite ?last_snoc; split_and!; try done;
    first [left; split; [done|lia]|right; split; [lia|split; [done|]]].
  all: unfold start_lsn, pn_position; cbn; by destruct (pg_position (pn_src c)).
Qed.

(** Where replication starts, on every branch: the configured LSN if there is one, else the
    LSN of the position in the offset storage, else the server's current one. *)
Theorem pg_start_lsn config w sv c c' :
  psrc_Initialize config w psrc_New = (c, Ok tt) → psrc_Start sv c = (c', Ok tt) →
  let cfg := psrc_parseConfig config in
  let saved := from_option pos_LSN 0 (loaded_position config w).1 in
  ∃ lsn, asked_start (pq_SlotName cfg) (pq_PublicationName cfg) lsn c' ∧ sv_start sv lsn = Ok tt ∧
    if 0 <? pq_StartLSN cfg then lsn = pq_StartLSN cfg
    else if 0 <? saved then lsn = saved
    else 0 <= saved → sv_identify sv = Ok lsn.
Proof.
  intros Hi Hs. apply Initialize_new in Hi as (Hc & Hst & Hp & Hl & _).
  destruct (Start_asks sv _ _ _ Hc ltac:(by rewrite Hst) Hs) as (lsn & Ha & Hv & Hlsn & _). exists lsn. split; [done|]. split; [done|].
  unfold start_lsn in Hlsn. rewrite Hp, Hl in Hlsn. clear Hp Hl Hc.
  destruct (0 <? pq_StartLSN (psrc_parseConfig config)) eqn:Hq; [|destruct (loaded_position config w).1 as [p|]];
    cbn [from_option] in Hlsn |- *; change (pos_LSN (at_lsn ?l _)) with l in *; rewrite ?Hq in Hlsn.
  - destruct Hlsn as [[Hlsn _]|(_ & _ & Hlsn)]; exact Hlsn.
  - destruct (0 <? pos_LSN p) eqn:Hlp; destruct Hlsn as [[Hlsn Hne]|(_ & Hid & Hlsn)]; subst lsn; [done|done|lia|done].
  - destruct Hlsn as [[_ Hne]|(_ & Hid & ->)]; [lia|]. intros _. exact Hid.
Qed.

(** A position that is set is where replication starts. *)
Theorem pg_set_position_starts sv cfg p c c' :
  pn_config c = Some cfg → pn_state c ≠ SourceRunning → 0 < pos_LSN p →
  psrc_Start sv (psrc_SetPosition (Some p) c).1 = (c', Ok tt) →
  asked_start (pq_SlotName cfg) (pq_PublicationName cfg) (pos_LSN p) c'.
Proof.
  intros Hc Hs Hp Hstart. unfold psrc_SetPosition in Hstart.
  rewrite Position_Clone_id, (proj2 (Z.ltb_lt 0 _) Hp) in Hstart. cbn [fst] in Hstart.
  apply (Start_asks sv cfg) in Hstart as (lsn & Ha & _ & Hlsn & _); [|done..].
  unfold start_lsn, pn_position in Hlsn. cbn in Hlsn. rewrite (proj2 (Z.ltb_lt 0 _) Hp) in Hlsn.
  destruct Hlsn as [[-> _]|(H0 & _)]; [done|lia].
Qed.

(** A start that fails once connected leaves the connector running: it can not be started
    again. *)
Theorem pg_failed_start_stays_running sv sv' cfg c c' e :
  pn_config c = Some cfg → pn_state c ≠ SourceRunning → sv_connect sv = Ok tt → psrc_Start sv c = (c', Err e) →
  pn_state c' = SourceRunning ∧ pn_handler c' = pn_handler c ∧ psrc_Start sv' c' = (c', Err src_ErrAlreadyRunning).
Proof.
  intros Hc Hs Hconn. unfold psrc_Start. rewrite bool_decide_eq_false_2 by done. cbn [pset_state pn_config]. rewrite Hc, Hconn.
  unfold mbind, ST_bind, identify. cbn.
  destruct (pg_currentLSN (pn_src c) =? 0); [destruct (sv_identify sv)|];
    unfold replicate_from; destruct (pq_CreateSlot cfg); cbn; try (case_match; [done|]); by intros [= <- _].
Qed.
End Starting.

(** ** What a started connector does *)

(** The transactions that are committed in a run, as positions. *)
Definition turn_commit (t : pg_turn) : option Position :=
  match t with
  | Recv _ (RecvData (XLogData _ _ (Ok (CommitMessage lsn time))) _) _ => Some (at_lsn lsn time)
  | _ => None
  end.
Definition run_commits (ts : list pg_turn) : list Position := omap turn_commit ts.

Definition is_panic (e : goerror) : bool := match e with Panic _ => true | _ => false end.

(** A turn without a definition of a relation, and that is received without a panic. *)
Definition quiet (t : pg_turn) : bool :=
  match t with
  | Recv _ RecvEmpty _ => false
  | Recv _ (RecvErr e) _ | Recv _ (RecvBad e) _ => negb (is_panic e)
  | Recv _ (RecvData (XLogData _ _ (Err e)) _) _ => negb (is_panic e)
  | Recv _ (RecvData (XLogData _ _ (Ok (RelationMsg _))) _) _ => false
  | _ => true
  end.

Section Running.
Context {O : Type} `{!Storage O} `{RX : Regexp}.
Context (format_ts : time → string).
Implicit Types c : PgConnector O.

(** A connector that was started: no relation is known, no table defined, and the handler
    has no context. *)
Record fresh c : Prop := mkFresh {
  fr_config : is_Some (pn_config c);
  fr_handler : is_Some (pn_handler c);
  fr_conn : pn_conn c = true;
  fr_ctx : pg_ctxSet (pn_src c) = false;
  fr_relations : pg_relations (pn_src c) = ∅;
  fr_tables : pg_tables (pn_src c) = Some NewTables;
  fr_events : pg_events (pn_src c) = []
}.

(** The parts that only starting and stopping change. *)
Definition same_control c c' : Prop :=
  pn_state c' = pn_state c ∧ pn_stopClosed c' = pn_stopClosed c ∧ pn_offset c' = pn_offset c ∧ pn_taskID c' = pn_taskID c.

(** What the handler does to a source without relations and context. *)
Lemma HandleMessage_fresh cfg parser now msg s :
  pg_ctxSet s = false → pg_relations s = ∅ → pg_tables s = Some NewTables →
  let '(s', r) := HandleMessage cfg parser format_ts now msg s in
  pg_events s' = pg_events s ∧
  match msg with
  | RelationMsg _ => r = Err (Panic "nil pointer dereference")
  | _ =>
      (∀ p, r ≠ Err (Panic p)) ∧ pg_ctxSet s' = false ∧ pg_relations s' = ∅ ∧ pg_tables s' = Some NewTables ∧
      pg_position s' = match msg with CommitMessage lsn t => Some (at_lsn lsn t) | _ => pg_position s end
  end.
Proof.
  intros Hctx Hrel Htab. destruct msg as [xid lsn|lsn t|m|id tuple|id old new|id old|ids|]; cbn [HandleMessage].
  - done.
  - cbn. unfold handleCommit, PgOutput.save_position. cbn. by destruct (pg_store s).
  - unfold handleRelation. cbn [pg_tables with_schemaCache with_relations]. rewrite Htab.
    unfold Tables_Get, NewTables. rewrite lookup_empty. unfold applySchemaChange, st_ignore, sendEvent, PgOutput.save_position.
    cbn [pg_store with_schema with_schemaCache with_relations]. destruct (pg_store s); cbn; by rewrite Hctx.
  - unfold handleInsert, row_message. by rewrite Hrel, lookup_empty.
  - unfold handleUpdate, row_message. by rewrite Hrel, lookup_empty.
  - unfold handleDelete, row_message. by rewrite Hrel, lookup_empty.
  - assert (E : handleTruncate cfg format_ts now ids s = (s, Ok tt)) by
      (induction ids as [|id ids IH]; [done|]; cbn [handleTruncate]; rewrite Hrel, lookup_empty; apply IH).
    by rewrite E.
  - done.
Qed.

(** An error that is received, or that the handler returns, is reported. *)
Lemma sendError_fresh e room c :
  fresh c → fresh (pg_sendError e room c) ∧ same_control c (pg_sendError e room c) ∧ pn_position (pg_sendError e room c) = pn_position c.
Proof. intros []. unfold pg_sendError. destruct room; by split_and!. Qed.

Lemma turn_quiet t c :
  fresh c → quiet t = true →
  ∃ c', pg_turn_step format_ts t c = (c', Ok tt) ∧ fresh c' ∧ same_control c c' ∧
    pn_position c' = match turn_commit t with Some p => Some p | None => pn_position c end.
Proof.
  intros Hf Hq. pose proof Hf as [[cfg Hcfg] [parser Hh] Hconn Hctx Hrel Htab Hev].
  destruct t as [|now r room]; cbn [pg_turn_step].
  { unfold send_status. rewrite Hconn. eexists. split; [done|]. split; [by constructor|done]. }
  unfold pg_receive. rewrite Hconn. cbn [negb]. pose proof (λ e, sendError_fresh e room c Hf) as Herr.
  destruct r as [e|[start len [msg|e]|walEnd] reply|e| |]; cbn [quiet] in Hq; [| | | | |done|by exists c].
  - destruct e; try done; eexists; (split; [reflexivity|]); apply Herr.
  - cbn [receiveMessage mbind result_bind]. cbn [pset_src pn_config pn_handler pn_src]. rewrite Hcfg, Hh.
    set (s1 := PgOutput.with_lsn _ (pn_src c)).
    pose proof (HandleMessage_fresh (handler_config cfg) parser now msg s1 Hctx Hrel Htab) as Hm.
    destruct (HandleMessage _ _ _ _ msg s1) as [s2 r]. destruct Hm as [Hev2 Hm].
    assert (Hnr : (∀ p, r ≠ Err (Panic p)) ∧ pg_ctxSet s2 = false ∧ pg_relations s2 = ∅ ∧ pg_tables s2 = Some NewTables ∧
      pg_position s2 = match turn_commit (Recv now (RecvData (XLogData start len (Ok msg)) reply) room) with
                       | Some p => Some p | None => pg_position (pn_src c) end) by (by destruct msg).
    destruct Hnr as (Hnp & Hc2 & Hr2 & Ht2 & Hp2).
    set (c2 := pset_src s2 (pset_src s1 c)).
    assert (Hf2 : fresh c2) by (constructor; try done; cbn; by rewrite ?Hcfg, ?Hh, ?Hev2).
    destruct r as [[]|e].
    + exists c2. done.
    + pose proof (sendError_fresh e room c2 Hf2) as (Hf3 & Hs3 & Hp3). exists (pg_sendError e room c2).
      split; [destruct e; try done; by destruct (Hnp msg0)|]. split; [done|]. split; [exact Hs3|]. by rewrite Hp3.
  - cbn [receiveMessage mbind result_bind]. set (c1 := pset_src _ c). assert (Hf1 : fresh c1) by (by constructor).
    destruct (sendError_fresh e room c1 Hf1) as (Hf2 & Hs2 & Hp2). exists (pg_sendError e room c1).
    split; [by destruct e|]. split; [done|]. split; [exact Hs2|exact Hp2].
  - cbn [receiveMessage]. eexists. split; [reflexivity|].
    destruct (_ <? walEnd), reply; unfold send_status; cbn; rewrite ?Hconn; split_and!; try done; by constructor.
  - destruct e; try done; eexists; (split; [reflexivity|]); apply Herr.
Qed.

(** Any other turn ends in a panic, with nothing sent. *)
Lemma turn_not_quiet t c :
  fresh c → quiet t = false → ∃ c' p, pg_turn_step format_ts t c = (c', Err (Panic p)) ∧ pg_events (pn_src c') = [].
Proof.
  intros Hf Hq. pose proof Hf as [[cfg Hcfg] [parser Hh] Hconn Hctx Hrel Htab Hev].
  destruct t as [|now r room]; cbn [pg_turn_step]; [done|]. unfold pg_receive. rewrite Hconn. cbn [negb].
  destruct r as [e|[start len [msg|e]|walEnd] reply|e| |]; cbn [quiet] in Hq; try done.
  - destruct e; try done. by eexists _, _.
  - destruct msg as [| |m| | | | |]; try done. cbn [receiveMessage mbind result_bind].
    cbn [pset_src pn_config pn_handler pn_src]. rewrite Hcfg, Hh. set (s1 := PgOutput.with_lsn _ (pn_src c)).
    pose proof (HandleMessage_fresh (handler_config cfg) parser now (RelationMsg m) s1 Hctx Hrel Htab) as Hm.
    destruct (HandleMessage _ _ _ _ _ s1) as [s2 r]. destruct Hm as [Hev2 ->]. eexists _, _. split; [done|]. by cbn; rewrite Hev2.
  - destruct e; try done. by eexists _, _.
  - destruct e; try done. by eexists _, _.
  - by eexists _, _.
Qed.

Lemma run_quiet ts c :
  fresh c → forallb quiet ts = true →
  ∃ c', pg_run format_ts ts c = (c', Ok tt) ∧ fresh c' ∧ same_control c c' ∧
    pn_position c' = match last (run_commits ts) with Some p => Some p | None => pn_position c end.
Proof.
  revert c. induction ts as [|t ts IH]; intros c Hf Hq; [by exists c|].
  cbn [forallb] in Hq. apply andb_true_iff in Hq as [Hq Hqs].
  destruct (turn_quiet t c Hf Hq) as (c1 & E1 & Hf1 & (Ha & Hb & Hc & Hd) & Hp1).
  destruct (IH c1 Hf1 Hqs) as (c2 & E2 & Hf2 & (Ha' & Hb' & Hc' & Hd') & Hp2). exists c2.
  split; [cbn [pg_run]; unfold mbind, ST_bind; by rewrite E1|]. split; [done|]. split; [split_and!; congruence|].
  rewrite Hp2, Hp1. unfold run_commits. cbn [omap list_omap]. change (list_omap _ _ turn_commit ts) with (omap turn_commit ts).
  destruct (turn_commit t) as [p|]; [|done]. rewrite last_cons. by destruct (last _).
Qed.

Lemma run_events ts c : fresh c → pg_events (pn_src (pg_run format_ts ts c).1) = [].
Proof.
  revert c. induction ts as [|t ts IH]; intros c Hf; [apply Hf|]. cbn [pg_run]. unfold mbind, ST_bind.
  destruct (quiet t) eqn:Hq.
  - destruct (turn_quiet t c Hf Hq) as (c1 & -> & Hf1 & _). by apply IH.
  - by destruct (turn_not_quiet t c Hf Hq) as (c1 & p & -> & He).
Qed.

Lemma run_ok_quiet ts c : fresh c → is_ok (pg_run format_ts ts c).2 = forallb quiet ts.
Proof.
  revert c. induction ts as [|t ts IH]; intros c Hf; [done|]. cbn [pg_run forallb]. unfold mbind, ST_bind.
  destruct (quiet t) eqn:Hq.
  - destruct (turn_quiet t c Hf Hq) as (c1 & -> & Hf1 & _). by apply IH.
  - by destruct (turn_not_quiet t c Hf Hq) as (c1 & p & -> & He).
Qed.

Lemma started_fresh config w sv c c' :
  psrc_Initialize config w psrc_New = (c, Ok tt) → psrc_Start sv c = (c', Ok tt) → fresh c'.
Proof.
  intros Hi Hs. apply Initialize_new in Hi as (Hc & Hst & _ & _ & Ht & He & _).
  destruct (Start_asks sv _ _ _ Hc ltac:(by rewrite Hst) Hs) as
    (lsn & _ & _ & _ & _ & Hc' & Hconn & _ & Hh & Hctx & Hrel & Htab & Hev & _).
  constructor; [by rewrite Hc'|by rewrite Hh|done..|by rewrite Htab|by rewrite Hev].
Qed.

(** A connector that is initialised and started never sends an event, whatever it
    receives: the loop goes on exactly as long as the server describes no relation, and the
    first description of one makes it panic. *)
Theorem pg_started_sends_nothing config w sv c c' ts :
  psrc_Initialize config w psrc_New = (c, Ok tt) → psrc_Start sv c = (c', Ok tt) →
  pg_events (pn_src (pg_run format_ts ts c').1) = [] ∧ is_ok (pg_run format_ts ts c').2 = forallb quiet ts.
Proof. intros Hi Hs. pose proof (started_fresh _ _ _ _ _ Hi Hs) as Hf. split; [by apply run_events|by apply run_ok_quiet]. Qed.

(** *** Restarting *)

(** What PostgreSQL serves from its log of commits: nothing before the requested LSN, nor
    before what was confirmed to it. *)
Definition pg_serves (requested confirmed : Z) (log : list Z) : list Z := filter (λ l, requested <= l ∧ confirmed <= l) log.

Lemma serves_from_last log1 l log2 confirmed :
  StronglySorted Z.lt (log1 ++ l :: log2) → Forall (Z.le confirmed) log2 →
  pg_serves l confirmed (log1 ++ l :: log2) = (if confirmed <=? l then [l] else []) ++ log2.
Proof.
  intros Hs Hc. unfold pg_serves. rewrite filter_app. apply StronglySorted_app in Hs as (H12 & _ & Hs).
  apply StronglySorted_inv in Hs as [_ Hs].
  assert (Hno : ∀ x, x ∈ log1 → x < l) by (intros x Hx; apply H12; [done|left]). clear H12.
  assert (filter (λ x, l <= x ∧ confirmed <= x) log1 = []) as ->.
  { induction log1 as [|x log1 IH]; [done|]. rewrite filter_cons_False; [apply IH; intros; apply Hno; by right|].
    pose proof (Hno x ltac:(left)). lia. }
  assert (Hall : filter (λ x, l <= x ∧ confirmed <= x) log2 = log2).
  { clear Hno. induction Hs as [|x log2 Hx Hs IH]; [done|]. apply Forall_cons in Hc as [Hcx Hc].
    rewrite filter_cons_True by lia. by rewrite IH. }
  rewrite filter_cons, Hall. destruct (Z.leb_spec confirmed l), (decide (l <= l ∧ confirmed <= l)); try done; lia.
Qed.

(** Stopping saves the position. *)
Lemma Stop_saves `{!StorageLaws O} c c' o' p :
  (∀ t p s, is_ok (storage_Save (S := O) t (Some p) s).2 = true) →
  pn_state c = SourceRunning → pn_position c = Some p → psrc_Stop c = (c', Ok tt) → pn_offset c' = Some o' →
  is_Some (pn_offset c) ∧ storage_view o' !! pn_taskID c = Some p.
Proof.
  intros Hsave Hst Hp. unfold psrc_Stop. rewrite bool_decide_eq_true_2 by done. cbn [negb pset_state pn_stopClosed].
  destruct (pn_stopClosed c); [done|]. cbn zeta. set (c1 := pset_stopClosed true _).
  set (c2 := match pn_config c1 with Some _ => _ | None => _ end).
  assert (Hc2 : pn_position c2 = Some p ∧ pn_offset c2 = pn_offset c ∧ pn_taskID c2 = pn_taskID c).
  { subst c2. by destruct (pn_config c1) as [cfg|]; [destruct (pn_conn c1 && _)|]. }
  destruct Hc2 as (-> & Ho2 & Ht2). intros [= <-]. unfold pg_save_offset. cbn. rewrite Ho2, Ht2.
  destruct (pn_offset c) as [o|]; [|done]. cbn. intros [= <-]. split; [done|].
  specialize (Hsave (pn_taskID c) p o). destruct (storage_Save _ _ o) as [o1 [[]|]] eqn:E; [|done].
  cbn. by rewrite (storage_save_ok _ _ _ _ E), lookup_insert_eq.
Qed.

(** A restart resumes at the last commit: a connector that ran, while the server described
    no relation ([quiet]), was stopped and is initialised again on its offset storage asks
    for the LSN of the last commit that it received; a server whose later transactions lie
    beyond what was confirmed sends them, and of the earlier ones at most the last. *)
Theorem pg_restart_resumes `{!StorageLaws O} config w1 w2 sv1 sv2 c1 c1' c1'' c2 c2' ts o log1 l log2 confirmed :
  (∀ t p s, is_ok (storage_Save (S := O) t (Some p) s).2 = true) → (∀ t s, is_ok (storage_Load (S := O) t s).2 = true) →
  so_OffsetBackend config ≠ "" → pq_StartLSN (psrc_parseConfig config) = 0 →
  (* the first run *)
  psrc_Initialize config w1 psrc_New = (c1, Ok tt) → psrc_Start sv1 c1 = (c1', Ok tt) → forallb quiet ts = true →
  pos_LSN <$> run_commits ts = log1 ++ [l] → 0 < l → psrc_Stop (pg_run format_ts ts c1').1 = (c1'', Ok tt) →
  (* the second, on the same storage *)
  pn_offset c1'' = Some o → pi_storage w2 (so_OffsetBackend config) (so_OffsetPath config) (so_OffsetFlush config) = Ok o →
  psrc_Initialize config w2 psrc_New = (c2, Ok tt) → psrc_Start sv2 c2 = (c2', Ok tt) →
  (* what the server logged *)
  StronglySorted Z.lt (log1 ++ l :: log2) → Forall (Z.le confirmed) log2 →
  let cfg := psrc_parseConfig config in
  ∃ lsn, asked_start (pq_SlotName cfg) (pq_PublicationName cfg) lsn c2' ∧
    pg_serves lsn confirmed (log1 ++ l :: log2) = (if confirmed <=? l then [l] else []) ++ log2.
Proof.
  intros Hsave Hload Hb Hcfg Hi1 Hs1 Hq Hlog Hl Hstop Ho Hw Hi2 Hs2 Hsorted Hconf cfg.
  exists l. split; [|by apply serves_from_last].
  destruct (run_quiet ts c1' (started_fresh _ _ _ _ _ Hi1 Hs1) Hq) as (cr & Hrun & _ & (Hrs & Hrc & Hro & Hrt) & Hrp).
  rewrite Hrun in Hstop. cbn [fst] in Hstop.
  assert (Hlast : ∃ p, last (run_commits ts) = Some p ∧ pos_LSN p = l).
  { pose proof (f_equal last Hlog) as Hlast. rewrite last_snoc, fmap_last in Hlast.
    destruct (last (run_commits ts)) as [p|]; [|done]. injection Hlast as <-. by exists p. }
  destruct Hlast as (p & Hlast & <-). rewrite Hlast in Hrp.
  apply Initialize_new in Hi1 as (Hc1 & Hst1 & _ & _ & _ & _ & Ho1 & _ & _ & Ht1).
  destruct (Start_asks sv1 _ _ _ Hc1 ltac:(by rewrite Hst1) Hs1) as
    (_ & _ & _ & _ & Hrun1 & _ & _ & _ & _ & _ & _ & _ & _ & Ho1' & Ht1' & _).
  destruct (Stop_saves cr c1'' o p Hsave ltac:(congruence) Hrp Hstop Ho) as [Hsome Hview].
  assert (Htask : pn_taskID cr = so_Type config).
  { rewrite Hrt, Ht1', Ht1. rewrite Hro, Ho1', Ho1 in Hsome. destruct (loaded_position config w1).2; [done|]. by destruct Hsome. }
  assert (Hloaded : (loaded_position config w2).1 = Some p).
  { unfold loaded_position. rewrite bool_decide_eq_true_2, Hw by done. specialize (Hload (so_Type config) o).
    destruct (storage_Load _ o) as [o2 [p2|]] eqn:E; [|done]. cbn. apply storage_load_ok in E as [-> _]. by rewrite <- Htask. }
  destruct (pg_start_lsn config w2 sv2 c2 c2' Hi2 Hs2) as (lsn & Ha & _ & Hlsn). rewrite Hcfg, Hloaded in Hlsn.
  cbn [from_option Z.ltb Z.compare] in Hlsn. apply Z.ltb_lt in Hl. rewrite Hl in Hlsn. by subst lsn.
Qed.
End Running.

(** ** Definitions of tables *)

Section Definitions.
Context {O : Type} `{!Storage O} `{RX : Regexp}.
Implicit Types c : PgConnector O.

Lemma string_app_cancel_r s1 s2 t : s1 +:+ t = s2 +:+ t → s1 = s2.
Proof.
  intros H. apply (f_equal String.list_ascii_of_string) in H.
  assert (Happ : ∀ a b, String.list_ascii_of_string (a +:+ b) = String.list_ascii_of_string a ++ String.list_ascii_of_string b).
  { intros a b. induction a as [|x a IH]; [done|]. change (String x a +:+ b) with (String x (a +:+ b)). cbn. by rewrite IH. }
  rewrite !Happ in H. apply app_inv_tail in H. apply (f_equal String.string_of_list_ascii) in H.
  by rewrite !String.string_of_list_ascii_of_string in H.
Qed.

(** A definition that was queried is not found again: it is cached under the schema public,
    and looked up under the name of the database. *)
Theorem pg_schema_requeried db1 db2 database table info c c1 :
  database ≠ "public" → (pg_tables (pn_src c) ≫= λ t, Tables_Get t database table) = None →
  pg_schemaCache (pn_src c) !! (database +:+ "." +:+ table) = None → psrc_GetSchema db1 database table c = (c1, Ok info) →
  psrc_GetSchema db2 database table c1 = psrc_querySchema db2 table c1.
Proof.
  intros Hdb Ht Hc. unfold psrc_GetSchema at 1. rewrite Ht, Hc. unfold psrc_querySchema at 1.
  destruct (pn_db c); [|done]. cbn [negb]. destruct (pn_config c) as [cfg|]; [|done].
  destruct (pg_querySchema _ _ _); [|done]. intros [= <- _]. unfold psrc_GetSchema. cbn [pset_src pn_src with_schemaCache pg_tables pg_schemaCache].
  rewrite Ht, lookup_insert_ne; [by rewrite Hc|]. intros H. apply Hdb. symmetry.
  change ("public." +:+ table) with ("public" +:+ ("." +:+ table)) in H. by apply string_app_cancel_r in H.
Qed.

(** Definitions of the history come before those of the cache. *)
Theorem pg_schemas_merge c t k info :
  pg_tables (pn_src c) = Some t →
  psrc_Schemas c !! k = Some info ↔ t !! k = Some info ∨ t !! k = None ∧ pg_schemaCache (pn_src c) !! k = Some info.
Proof. intros Ht. unfold psrc_Schemas. rewrite Ht. cbn. unfold Tables_All. by rewrite lookup_union_Some_raw. Qed.
End Definitions.

(** ** Runs *)

Module PgConnectorRuns.
#[local] Instance plain_regexp : Regexp := {|
  regexp := string; regexp_Compile p := Ok p; MatchString p s := bool_decide (s = p) |}.

Definition config : source_Config :=
  mkSourceConfig "postgres" (mkConnectionConfig "db" 5432 "app" "secret" "shop" [] "" "" "" 0 []) ∅ [] "memory" "" 0 None.
Definition init (o : MemoryStorage) : pg_init MemoryStorage := mkPgInit (Ok tt) (Ok tt) None (λ _ _ _, Ok o).
Definition server : pg_server := mkPgServer (Ok tt) (Ok 100) (λ _, Ok tt).
Definition no_format (t : time) : string := "".

Definition created : PgConnector MemoryStorage := (psrc_Initialize config (init ∅) psrc_New).1.
Definition started : PgConnector MemoryStorage := (psrc_Start server created).1.

(** A new connector starts at the server's LSN. *)
Lemma pg_start_lsn_witness : asked_start "datastream_slot" "datastream_pub" 100 started.
Proof.
  destruct (pg_start_lsn config (init ∅) server created started) as (lsn & Ha & _ & Hl).
  - unfold created. apply eta_pair. reflexivity.
  - unfold started. apply eta_pair. reflexivity.
  - change (0 <= 0 → Ok 100 = Ok lsn) in Hl. injection (Hl ltac:(lia)) as <-. exact Ha.
Defined.

Definition commit (lsn : Z) (t : time) : pg_turn := Recv 0 (RecvData (XLogData lsn 8 (Ok (CommitMessage lsn t))) false) true.
Definition turns : list pg_turn :=
  [Recv 0 (RecvData (XLogData 110 8 (Ok (BeginMessage 1 120))) false) true; commit 120 1;
   Recv 0 (RecvData (Keepalive 130) true) true; Tick; commit 140 2;
   Recv 0 (RecvData (XLogData 150 8 (Ok (InsertMessage 7 []))) false) true].
Definition stopped : PgConnector MemoryStorage := (psrc_Stop (pg_run no_format turns started).1).1.
Definition storage : MemoryStorage := {["postgres" := at_lsn 140 2]}.
Definition created2 : PgConnector MemoryStorage := (psrc_Initialize config (init storage) psrc_New).1.
Definition started2 : PgConnector MemoryStorage := (psrc_Start server created2).1.

Lemma pg_restart_resumes_witness :
  ∃ lsn, asked_start "datastream_slot" "datastream_pub" lsn started2 ∧ pg_serves lsn 138 [120; 140; 160] = [140; 160].
Proof.
  opose proof* (pg_restart_resumes no_format config (init ∅) (init storage) server server created started stopped created2 started2
    turns storage [120] 140 [160] 138) as Hr; [..|exact Hr].
  - done.
  - done.
  - done.
  - reflexivity.
  - unfold created. apply eta_pair. reflexivity.
  - unfold started. apply eta_pair. reflexivity.
  - reflexivity.
  - reflexivity.
  - lia.
  - unfold stopped. apply eta_pair. reflexivity.
  - vm_compute. reflexivity.
  - reflexivity.
  - unfold created2. apply eta_pair. reflexivity.
  - unfold started2. apply eta_pair. reflexivity.
  - repeat constructor; lia.
  - repeat constructor; lia.
Defined.

Definition users : RelationMessage := mkRelationMessage 7 "public" "users" [mkRelationColumn 1 "id" 23].

(** The first transaction that changes a table. *)
Lemma pg_started_sends_nothing_witness :
  let ts := [Recv 0 (RecvData (XLogData 110 8 (Ok (RelationMsg users))) false) true;
             Recv 0 (RecvData (XLogData 120 8 (Ok (InsertMessage 7 []))) false) true] in
  pg_events (pn_src (pg_run no_format ts started).1) = [] ∧ is_ok (pg_run no_format ts started).2 = false.
Proof.
  intros ts. apply (pg_started_sends_nothing no_format config (init ∅) server created started ts).
  - unfold created. apply eta_pair. reflexivity.
  - unfold started. apply eta_pair. reflexivity.
Defined.

Lemma pg_set_position_starts_witness :
  asked_start "datastream_slot" "datastream_pub" 77 (psrc_Start server (psrc_SetPosition (Some (at_lsn 77 0)) created).1).1.
Proof.
  apply (pg_set_position_starts server (psrc_parseConfig config) (at_lsn 77 0) created).
  - reflexivity.
  - done.
  - cbn. lia.
  - apply eta_pair. reflexivity.
Defined.

(** The server refuses to start replication. *)
Lemma pg_failed_start_stays_running_witness :
  let sv := mkPgServer (Ok tt) (Ok 100) (λ _, Err (ErrNew "slot is active")) in
  let c := (psrc_Start sv created).1 in pn_state c = SourceRunning ∧ psrc_Start server c = (c, Err src_ErrAlreadyRunning).
Proof.
  intros sv c. destruct (pg_failed_start_stays_running sv server (psrc_parseConfig config) created c
    (ErrWrapf "failed to start replication" (ErrNew "slot is active"))) as (Hs & _ & Ha); [reflexivity|done|reflexivity| |by split].
  unfold c. apply eta_pair. reflexivity.
Defined.

Definition answer (columns : list string) : schema_answer :=
  mkSchemaAnswer (Ok ((λ n, Ok (mkColumnDef n "integer" "NO")) <$> columns, None)) (Ok ([Ok "id"], None)).

Lemma pg_schema_requeried_witness :
  let c := (psrc_GetSchema (λ _, answer ["id"]) "shop" "users" created).1 in
  psrc_GetSchema (λ _, answer ["id"; "name"]) "shop" "users" c = psrc_querySchema (λ _, answer ["id"; "name"]) "users" c.
Proof.
  intros c. apply (pg_schema_requeried (λ _, answer ["id"]) _ _ _
    (mkTableInfo "shop" "" "users" ["id"] [] [mkColumnInfo "id" "integer" false 0 0]) created); [done|reflexivity|reflexivity|].
  apply eta_pair. reflexivity.
Defined.

Lemma pg_schemas_merge_witness :
  let c := (psrc_GetSchema (λ _, answer ["id"]) "shop" "users" created).1 in
  ∃ info, psrc_Schemas c !! "public.users" = Some info ∧ ti_Database info = "shop".
Proof.
  intros c. exists (mkTableInfo "shop" "" "users" ["id"] [] [mkColumnInfo "id" "integer" false 0 0]). split; [|done].
  apply (pg_schemas_merge c NewTables "public.users"); [reflexivity|]. right. done.
Defined.

(** A connection that breaks within the columns gives a definition of what was read, and a
    table that does not exist one without columns. *)
Example pg_partial_schema :
  pg_querySchema (mkSchemaAnswer (Ok ([Ok (mkColumnDef "id" "integer" "NO")], Some IoUnexpectedEOF)) (Ok ([], None))) "shop" "users"
    = Ok (mkTableInfo "shop" "" "users" [] [] [mkColumnInfo "id" "integer" false 0 0]) ∧
  pg_querySchema (mkSchemaAnswer (Ok ([], None)) (Ok ([], None))) "shop" "nothing" = Ok (mkTableInfo "shop" "" "nothing" [] [] []).
Proof. done. Qed.

(** What is committed while the server confirms: the keepalive is answered with its LSN. *)
Example pg_statuses : pn_requests stopped =
  [ReqCreateSlot "datastream_slot" "pgoutput"; ReqStart "datastream_slot" 100 "datastream_pub"; ReqStatus 130; ReqStatus 130].
Proof. done. Qed.
End PgConnectorRuns.
