(* ===== verification/OracleConnector.v ===== *)
(** The Oracle source connector around its LogMiner reader (internal/source/oracle):
    config.go, schema_cache.go and the rest of connector.go: initialising and recovering the
    definitions of tables, DDL events, polling, stopping and positions.

    The database, the target store and the offset storage are parameters, by their
    interfaces; a poll is that of LogMiner.v, over the rest of the connector. *)
From Stdlib Require Import ZArith Lia SpecFloat Ascii.
From Stdlib Require String.
From stdpp Require Import prelude countable gmap strings list fin_maps pretty.
From S2P Require Import Prelude Events Strings SchemaHistory TargetStore TableLifecycle Scope BinlogConsumer LogMiner OracleDML Offsets DDLApply BinlogSyncer MySQLConnector DocumentSinks SQLServerReader SQLServerConnector.
Local Open Scope Z_scope.

(** ** config.go *)

Record OraConfig := mkOraConfig {
  ol_Host : string;
  ol_Port : Z;
  ol_User : string;
  ol_Password : string;
  ol_ServiceName : string;
  ol_MiningStrategy : string;
  ol_PollInterval : duration;
  ol_BatchSize : Z;
  ol_Schemas : list string;
  ol_Tables : gmap string string
}.

Definition ora_DefaultConfig : OraConfig := mkOraConfig "" 1521 "" "" "" "continuous" 1000000000 1000 [] ∅.

(** [quote] is the format [%q]. *)
Definition ora_Validate (quote : string → string) (c : OraConfig) : result unit :=
  if bool_decide (ol_Host c = "") then Err src_ErrInvalidConfig
  else if bool_decide (ol_User c = "") then Err src_ErrInvalidConfig
  else if bool_decide (ol_Password c = "") then Err src_ErrInvalidConfig
  else if bool_decide (ol_ServiceName c = "") then Err src_ErrInvalidConfig
  else if bool_decide (ol_MiningStrategy c ∈ ["continuous"; "online"]) then Ok tt
  else Err (ErrNew ("invalid mining_strategy " +:+ quote (ol_MiningStrategy c) +:+ ": must be " +:+
                    quote "continuous" +:+ " or " +:+ quote "online")).

Definition ora_parseConfig `{RX : Regexp} (config : source_Config) : OraConfig :=
  let d := ora_DefaultConfig in
  let conn := so_Connection config in
  mkOraConfig (cc_Host conn) (cc_Port conn) (cc_User conn) (cc_Password conn)
    (default (ol_ServiceName d) (so_string config "serviceName"))
    (default (ol_MiningStrategy d) (so_string config "miningStrategy"))
    (ol_PollInterval d)
    (default (ol_BatchSize d) (so_number config "batchSize"))
    (foldl collect_schemas (ol_Schemas d) (so_Tables config))
    (ol_Tables d).

(** ** schema_cache.go *)

Record ora_column := mkOraColumn {
  ac_name : string; ac_type : string; ac_nullable : string; ac_length : option Z; ac_scale : option Z }.

Record ora_answer := mkOraAnswer {
  oa_columns : result (list (result ora_column) * option goerror);
  oa_keys : result (list (result string) * option goerror)
}.

Definition ora_column_info (c : ora_column) : ColumnInfo :=
  mkColumnInfo (ac_name c) (ac_type c) (bool_decide (ac_nullable c = "Y")) (default 0 (ac_length c)) (default 0 (ac_scale c)).

Definition ora_querySchema (a : ora_answer) (owner table : string) : result TableInfo :=
  match oa_columns a with
  | Err e => Err (ErrWrapf "failed to query columns" e)
  | Ok (rows, iterErr) =>
      columns ← scan_all "failed to scan column" ora_column_info rows;
      rows_err "failed to iterate columns" iterErr ≫= λ _,
      match columns with
      | [] => Err (ErrNew ("table " +:+ owner +:+ "." +:+ table +:+ " not found or has no columns"))
      | _ =>
          match oa_keys a with
          | Err e => Err (ErrWrapf "failed to query primary keys" e)
          | Ok (rows, iterErr) =>
              keys ← scan_all "failed to scan primary key column" id rows;
              rows_err "failed to iterate primary key columns" iterErr ≫= λ _,
              Ok (mkTableInfo owner owner table keys [] columns)
          end
      end
  end.

Section SchemaCache.
Context (db : string → string → ora_answer).

Definition ora_Get (owner table : string) : ST (gmap string TableInfo) TableInfo := λ c,
  match c !! (owner +:+ "." +:+ table) with
  | Some info => (c, Ok info)
  | None =>
      match ora_querySchema (db owner table) owner table with
      | Ok info => (<[owner +:+ "." +:+ table := info]> c, Ok info)
      | Err e => (c, Err e)
      end
  end.

Definition ora_Update (owner table : string) (info : TableInfo) (c : gmap string TableInfo) : gmap string TableInfo :=
  <[owner +:+ "." +:+ table := info]> c.

Definition ora_Invalidate (owner table : string) (c : gmap string TableInfo) : gmap string TableInfo :=
  delete (owner +:+ "." +:+ table) c.

Definition ora_InvalidateAll (c : gmap string TableInfo) : gmap string TableInfo := ∅.

Definition ora_Refresh (owner table : string) : ST (gmap string TableInfo) unit := λ c,
  match ora_querySchema (db owner table) owner table with
  | Ok info => (ora_Update owner table info c, Ok tt)
  | Err e => (c, Err e)
  end.
End SchemaCache.

(** ** connector.go: DDL events *)

Definition isDDLStatement (sql : string) : bool :=
  let upper := strings_ToUpper (strings_TrimSpace sql) in
  has_prefix "CREATE " upper || has_prefix "ALTER " upper || has_prefix "DROP " upper || has_prefix "TRUNCATE " upper ||
  has_prefix "RENAME " upper.

(** The record of a DDL event: a result without a definition is recorded as a drop. *)
Definition ddl_record (ev : ChangeEvent) (ddl : string) (oldTable : option TableInfo) (r : ParsedDDL) : SchemaHistoryRecord :=
  let changeType := match pd_NewTableInfo r with
                    | Some _ => match oldTable with Some _ => "ALTER" | None => "CREATE" end
                    | None => "DROP"
                    end in
  mkSchemaHistoryRecord (ev_Position ev) (ti_Database (ev_Table ev)) (from_option ti_Schema "" (pd_NewTableInfo r))
    (ti_Table (ev_Table ev)) ddl (pd_NewTableInfo r) changeType DDLStatusCompleted (ev_Timestamp ev).

(** Definitions and stores: what DDL events and positions are kept in.  The history is over
    the store; both are there or none. *)
Record ora_rest (S O : Type) := mkOraRest {
  or_tables : option Tables;
  or_cache : option (gmap string TableInfo);
  or_store : option S;
  or_parser : option SQLParser;
  or_offset : option O;
  or_taskID : string
}.
Arguments mkOraRest {_ _} _ _ _ _ _ _.
Arguments or_tables {_ _} _.
Arguments or_cache {_ _} _.
Arguments or_store {_ _} _.
Arguments or_parser {_ _} _.
Arguments or_offset {_ _} _.
Arguments or_taskID {_ _} _.

Record ora_init (S O : Type) := mkOraInit {
  oi_open : result unit;
  oi_ping : result unit;
  oi_initDatabase : result unit;
  oi_store : S;                                (* what the store's database holds *)
  oi_parser : option SQLParser;                (* the registry's *)
  oi_storage : string → string → Z → result O
}.
Arguments mkOraInit {_ _} _ _ _ _ _ _.
Arguments oi_open {_ _} _.
Arguments oi_ping {_ _} _.
Arguments oi_initDatabase {_ _} _.
Arguments oi_store {_ _} _.
Arguments oi_parser {_ _} _.
Arguments oi_storage {_ _} _ _ _ _.

(** What one poll meets: the database, the clock, and whether the connector is found stopped
    before some event is sent. *)
Record ora_poll := mkOraPoll { op_db : LogMinerDB; op_now : time; op_stop : option nat }.

Section Connector.
Context {S O : Type} `{!TargetStore S} `{!Storage O} `{RX : Regexp}.
Context (quote : string → string) (ParseFloat : string → option spec_float) (format_ts : time → string).
Implicit Types d : ora_rest S O.

Definition update_tables (database table : string) (r : option ParsedDDL) d : ora_rest S O :=
  let t := match or_tables d, r with
           | Some t, Some r =>
               Some (match pd_NewTableInfo r with
                     | Some info => Tables_Put info t
                     | None => if bool_decide (pd_Type r = DDLTypeDropTable) then Tables_Remove database table t else t
                     end)
           | t, _ => t
           end in
  mkOraRest t (or_cache d) (or_store d) (or_parser d) (or_offset d) (or_taskID d).

Definition ora_invalidate (database table : string) d : ora_rest S O :=
  mkOraRest (or_tables d)
    ((λ c, if bool_decide (table ≠ "") then ora_Invalidate database table c else ora_InvalidateAll c) <$> or_cache d)
    (or_store d) (or_parser d) (or_offset d) (or_taskID d).

Definition set_store (st : option S) d : ora_rest S O :=
  mkOraRest (or_tables d) (or_cache d) st (or_parser d) (or_offset d) (or_taskID d).
Definition set_offset (o : option O) d : ora_rest S O :=
  mkOraRest (or_tables d) (or_cache d) (or_store d) (or_parser d) o (or_taskID d).

(** The errors of the parser and of the store are logged. *)
Definition ora_handleDDLEvent (ev : ChangeEvent) d : ora_rest S O :=
  match ev_Metadata ev ≫= λ m, m !! "sql" with
  | None => d
  | Some ddl =>
      if bool_decide (ddl = "") then d
      else if negb (isDDLStatement ddl) then d
      else
        match or_parser d with
        | None => d
        | Some p =>
            let database := ti_Database (ev_Table ev) in
            let table := ti_Table (ev_Table ev) in
            let oldTable := or_tables d ≫= λ t, Tables_Get t database table in
            match ps_ApplyDDL p oldTable ddl with
            | Err _ => d
            | Ok r =>
                let d := ora_invalidate database table (update_tables database table r d) in
                match r with
                | Some r => set_store ((λ st, (TargetStoreRecord (ddl_record ev ddl oldTable r) st).1) <$> or_store d) d
                | None => d
                end
            end
        end
  end.

Definition ora_SaveCurrent (p : Position) d : ora_rest S O :=
  set_store ((λ st, (SaveCurrentPosition (Some p) st).1) <$> or_store d) d.

Definition ora_Save (p : Position) d : ora_rest S O :=
  set_offset ((λ o, (storage_Save (or_taskID d) (Some p) o).1) <$> or_offset d) d.

(** ** connector.go: the connector *)

Record OraConnector := mkOraConnector {
  oc_config : option OraConfig;
  oc_state : SourceState;
  oc_reader : bool;                            (* there is a LogMiner reader *)
  oc_poller : poller (ora_rest S O);
  oc_errors : list goerror;                    (* waiting in the channel *)
  oc_stopClosed : bool;
  oc_scope : option SyncScope
}.
Implicit Types c : OraConnector.

Definition oset_config cfg sc c := mkOraConnector (Some cfg) (oc_state c) (oc_reader c) (oc_poller c) (oc_errors c) (oc_stopClosed c) sc.
Definition oset_state st c := mkOraConnector (oc_config c) st (oc_reader c) (oc_poller c) (oc_errors c) (oc_stopClosed c) (oc_scope c).
Definition oset_poller p c := mkOraConnector (oc_config c) (oc_state c) (oc_reader c) p (oc_errors c) (oc_stopClosed c) (oc_scope c).
Definition oset_reader b c := mkOraConnector (oc_config c) (oc_state c) b (oc_poller c) (oc_errors c) (oc_stopClosed c) (oc_scope c).
Definition oset_errors e c := mkOraConnector (oc_config c) (oc_state c) (oc_reader c) (oc_poller c) e (oc_stopClosed c) (oc_scope c).
Definition oset_stopClosed b c := mkOraConnector (oc_config c) (oc_state c) (oc_reader c) (oc_poller c) (oc_errors c) b (oc_scope c).
Definition oset_scope sc c := mkOraConnector (oc_config c) (oc_state c) (oc_reader c) (oc_poller c) (oc_errors c) (oc_stopClosed c) sc.

Definition oc_rest c : ora_rest S O := po_rest _ (oc_poller c).
Definition oc_scn c : Z := po_scn _ (oc_poller c).
Definition oc_position c : option Position := po_position _ (oc_poller c).
Definition oset_rest d c := oset_poller (mkPoller _ (oc_scn c) (oc_position c) (po_sent _ (oc_poller c)) d) c.
Definition oset_at scn p c := oset_poller (mkPoller _ scn p (po_sent _ (oc_poller c)) (oc_rest c)) c.

Definition ora_New : OraConnector :=
  mkOraConnector None SourceUninitialized false (mkPoller _ 0 None [] (mkOraRest None None None None None "")) [] false None.

(** *** Initialising *)

Definition ora_taskID (config : source_Config) : string := if bool_decide (so_Type config = "") then "oracle" else so_Type config.

(** The definitions of the store's history; without a store the connector goes on. *)
Definition ora_init_rest (config : source_Config) (w : ora_init S O) c : OraConnector :=
  let d := oc_rest c in
  let parser := match oi_parser w with Some p => Some p | None => or_parser d end in
  let '(tables, st) := match oi_initDatabase w with
                       | Err _ => (NewTables, or_store d)
                       | Ok _ => ((TargetStoreRecover (oc_position c) (oi_store w) NewTables).1, Some (oi_store w))
                       end in
  oset_rest (mkOraRest (Some tables) (Some ∅) st parser (or_offset d) (ora_taskID config)) c.

Definition ora_init_offset (config : source_Config) (w : ora_init S O) : ST OraConnector unit := λ c,
  if bool_decide (so_OffsetBackend config ≠ "") then
    match oi_storage w (so_OffsetBackend config) (so_OffsetPath config) (so_OffsetFlush config) with
    | Err e => (c, Err (ErrWrapf "failed to create offset storage" e))
    | Ok o =>
        let '(o, r) := storage_Load (or_taskID (oc_rest c)) o in
        let c := oset_rest (set_offset (Some o) (oc_rest c)) c in
        (match r with Ok (Some p) => oset_at (oc_scn c) (Some p) c | _ => c end, Ok tt)
    end
  else (c, Ok tt).

(** A new reader, at the position if that has a number. *)
Definition ora_init_reader c : OraConnector :=
  let scn := match oc_position c with Some p => if 0 <? pos_SCN p then pos_SCN p else 0 | None => 0 end in
  oset_reader true (oset_at scn (oc_position c) c).

Definition ora_Initialize (config : source_Config) (w : ora_init S O) : ST OraConnector unit :=
  let cfg := ora_parseConfig config in
  st_lift (ora_Validate quote cfg) ≫= λ _,
  st_modify (λ c, oset_state SourceInitializing (oset_config cfg (so_SyncScope config) c)) ≫= λ _,
  st_lift (match oi_open w with Err e => Err (ErrWrapf "failed to open database" e) | Ok _ => Ok tt end) ≫= λ _,
  st_lift (match oi_ping w with Err e => Err (ErrWrapf "failed to connect to database" e) | Ok _ => Ok tt end) ≫= λ _,
  st_modify (ora_init_rest config w) ≫= λ _,
  ora_init_offset config w ≫= λ _,
  st_modify (λ c, oset_state SourceStopped (ora_init_reader c)).

(** *** Starting, polling and stopping *)

Definition ora_Start : ST OraConnector unit := λ c,
  if bool_decide (oc_state c = SourceRunning) then (c, Err src_ErrAlreadyRunning) else (oset_state SourceRunning c, Ok tt).

(** An error of the reader is dropped when a hundred are waiting.  [None] when the parser of
    redo statements does not answer within [n] rounds. *)
Definition ora_pollChanges (n : nat) (service : string) (q : ora_poll) c : option (OraConnector * result unit) :=
  match ReadChanges ParseFloat format_ts n service (op_db q) (oc_scn c) with
  | None => None
  | Some (Err (Panic p)) => Some (c, Err (Panic p))
  | Some (Err e) => Some (if (length (oc_errors c) <? 100)%nat then oset_errors (oc_errors c ++ [e]) c else c, Ok tt)
  | Some (Ok _) =>
      p ← pollChanges ParseFloat format_ts ora_handleDDLEvent ora_SaveCurrent ora_Save n service (op_now q) (op_stop q) (op_db q)
            (oc_poller c);
      Some (oset_poller p c, Ok tt)
  end.

Fixpoint runPollingLoop (n : nat) (service : string) (qs : list ora_poll) c : option (OraConnector * result unit) :=
  match qs with
  | [] => Some (c, Ok tt)
  | q :: qs =>
      cr ← ora_pollChanges n service q c;
      match cr with
      | (c, Ok _) => runPollingLoop n service qs c
      | (c, Err e) => Some (c, Err e)
      end
  end.

(** Closing the connections is left out; closing the channel twice panics. *)
Definition ora_Stop : ST OraConnector unit := λ c,
  if negb (bool_decide (oc_state c = SourceRunning)) then (c, Ok tt)
  else
    let c := oset_state SourceStopped c in
    if oc_stopClosed c then (c, Err (Panic "close of closed channel"))
    else
      let c := oset_stopClosed true c in
      (match oc_position c with Some p => oset_rest (ora_Save p (oc_rest c)) c | None => c end, Ok tt).

Definition ora_GetPosition c : option Position := Position_Clone <$> oc_position c.

Definition ora_SetPosition (pos : option Position) : ST OraConnector unit := λ c,
  match pos with
  | None => (c, Err (Panic "nil pointer dereference"))
  | Some p =>
      let scn := if oc_reader c && (0 <? pos_SCN p) then pos_SCN p else oc_scn c in
      let c := oset_at scn (Some (Position_Clone p)) c in
      (oset_rest (ora_Save (Position_Clone p) (oc_rest c)) c, Ok tt)
  end.

(** *** Definitions and tables *)

Definition ora_GetSchema (db : string → string → ora_answer) (database table : string) : ST OraConnector TableInfo := λ c,
  match or_cache (oc_rest c) with
  | None => (c, Err (Panic "nil pointer dereference"))
  | Some ca =>
      let '(ca, r) := ora_Get db database table ca in
      let d := oc_rest c in
      (oset_rest (mkOraRest (or_tables d) (Some ca) (or_store d) (or_parser d) (or_offset d) (or_taskID d)) c, r)
  end.

(** None of the definitions is told. *)
Definition ora_Schemas c : gmap string TableInfo := ∅.

Definition ora_AddTables (tables : list string) : ST OraConnector unit := λ c,
  match table_level (oc_scope c) with
  | None => (c, Err ErrInvalidSyncScope)
  | Some sc => (oset_scope (Some (with_names (ts_Names (ss_Tables sc) ++ tables) sc)) c, Ok tt)
  end.

Definition ora_RemoveTables (tables : list string) : ST OraConnector unit := λ c,
  match table_level (oc_scope c) with
  | None => (c, Err ErrInvalidSyncScope)
  | Some sc => (oset_scope (Some (with_names (filter (λ n, n ∉ tables) (ts_Names (ss_Tables sc))) sc)) c, Ok tt)
  end.

Definition ora_ListTables c : list string :=
  match table_level (oc_scope c) with Some sc => ts_Names (ss_Tables sc) | None => [] end.
End Connector.

Arguments OraConnector S O {RX}.

(** ** Restarting *)

(** Definitions that are found in others, but for the table without a name. *)
Definition found_in (t t' : Tables) : Prop := ∀ k info, k ≠ tableKey "" "" → t !! k = Some info → t' !! k = Some info.

(** What a row of the history does to the tables that are recovered follows what its
    definition does to those in force. *)
Lemma found_in_row t t' id row :
  found_in t t' → found_in (match sr_TableInfo row with Some info => Tables_Put info t | None => t end) (apply_row t' (loaded_row id row)).
Proof.
  intros Hf k info Hk. unfold apply_row, apply_record. cbn [loaded_row sr_TableInfo]. unfold Tables_Put.
  destruct (sr_TableInfo row) as [new|]; cbn [default].
  - destruct (decide (tableKey (ti_Database new) (ti_Table new) = k)) as [<-|Hne]; [by rewrite !lookup_insert_eq|].
    rewrite !lookup_insert_ne by done. by apply Hf.
  - rewrite lookup_insert_ne by done. by apply Hf.
Qed.

Lemma replay_rows_all rows : ∀ t, replay_rows None rows t = foldl apply_row t rows.
Proof. induction rows as [|row rows IH]; intros t; [done|]. cbn. apply IH. Qed.

Section Restart.
Context {S O : Type} `{!TargetStore S} `{!HistoryRowsLaws S} `{!Storage O} `{!StorageLaws O} `{!StorageAnswers O} `{RX : Regexp}.
Context (quote : string → string) (ParseFloat : string → option spec_float) (format_ts : time → string).
#[local] Existing Instances observed_store observed_rows_laws.
Implicit Types (c : OraConnector (observed S) O) (d : ora_rest (observed S) O).

(** The definitions in force are those of the history, as long as its rows were saved. *)
Definition defs_kept d : Prop :=
  ∀ t st calls, or_tables d = Some t → or_store d = Some (st, calls) → rows_kept calls →
  found_in t (foldl apply_row NewTables (rows_view st)).

(** The offset storage goes on answering. *)
Definition same_task d d' : Prop :=
  or_taskID d' = or_taskID d ∧ (from_option storage_answers True (or_offset d) → from_option storage_answers True (or_offset d')).

Lemma handleDDLEvent_kept ev d : defs_kept d → defs_kept (ora_handleDDLEvent ev d) ∧ same_task d (ora_handleDDLEvent ev d).
Proof.
  intros Hk. unfold ora_handleDDLEvent. destruct (ev_Metadata ev ≫= _) as [ddl|]; [|done].
  case_bool_decide; [done|]. destruct (negb _); [done|]. destruct (or_parser d) as [p|]; [|done].
  destruct (ps_ApplyDDL p _ ddl) as [[r|]|]; [| |done].
  2: { split; [|done]. intros t st calls Ht Hst. cbn in Ht, Hst. apply (Hk t st); [by destruct (or_tables d)|done]. }
  split; [|done]. intros t st calls. unfold update_tables, ora_invalidate, set_store. cbn.
  destruct (or_tables d) as [t0|] eqn:Et; [|done]. intros [= <-].
  destruct (or_store d) as [[st0 calls0]|] eqn:Est; [|done]. cbn. unfold TargetStoreRecord. cbn.
  destruct (SaveSchemaHistory _ st0) as [st1 res] eqn:Es. intros [= <- <-] Hc.
  apply Forall_app in Hc as [Hc [[Hrow Hok] _]%Forall_cons]. cbn [fst snd] in Hrow, Hok. subst res.
  destruct (rows_save st0 st1 _ Hrow Es) as [id Hsave]. rewrite Hsave, foldl_app. cbn [foldl].
  pose proof (found_in_row t0 _ id (row_of (ddl_record ev ddl (Tables_Get t0 (ti_Database (ev_Table ev)) (ti_Table (ev_Table ev))) r))
    (Hk t0 st0 calls0 Et Est Hc)) as Hf. cbn [row_of ddl_record sr_TableInfo shr_TableInfo] in Hf.
  destruct (pd_NewTableInfo r) as [info|]; [exact Hf|]. case_bool_decide; [|exact Hf].
  intros k i Hne Hi. apply Hf; [done|]. unfold Tables_Remove in Hi. by apply lookup_delete_Some in Hi as [_ Hi].
Qed.

Lemma same_task_trans d1 d2 d3 : same_task d1 d2 → same_task d2 d3 → same_task d1 d3.
Proof. intros [H1 H2] [H3 H4]. split; [congruence|auto]. Qed.

Lemma SaveCurrent_kept p d : defs_kept d → defs_kept (ora_SaveCurrent p d) ∧ same_task d (ora_SaveCurrent p d).
Proof.
  intros Hk. split; [|done]. intros t st calls Ht. cbn in Ht |- *. destruct (or_store d) as [[st0 calls0]|] eqn:E; [|done]. cbn.
  pose proof (rows_current st0 (Some p)) as Hv. destruct (SaveCurrentPosition (Some p) st0) as [st1 r]. cbn in Hv |- *.
  intros [= <- <-] Hc. rewrite Hv. by eapply Hk.
Qed.

Lemma Save_kept p d : defs_kept d → defs_kept (ora_Save p d) ∧ same_task d (ora_Save p d).
Proof.
  intros Hk. split; [exact Hk|]. split; [done|]. cbn. destruct (or_offset d) as [o|]; [|done]. cbn. intros Ha.
  destruct (storage_answers_save (or_taskID d) p o Ha) as (o' & E & Ha'). by rewrite E.
Qed.

(** The number of the reader is that of the position, once there is one. *)
Definition scn_kept (p : poller (ora_rest (observed S) O)) : Prop :=
  0 < po_scn _ p → ∃ q, po_position _ p = Some q ∧ pos_SCN q = po_scn _ p.

Record kept (p p' : poller (ora_rest (observed S) O)) : Prop := mkKept {
  ke_defs : defs_kept (po_rest _ p');
  ke_scn : scn_kept p';
  ke_task : same_task (po_rest _ p) (po_rest _ p')
}.

Lemma kept_refl p : defs_kept (po_rest _ p) → scn_kept p → kept p p.
Proof. by constructor. Qed.

Lemma arrive_kept p p' e : kept p p' → kept p (arrive ora_handleDDLEvent ora_SaveCurrent p' e).
Proof.
  intros [Hd Hs Ht]. unfold arrive.
  set (d1 := if bool_decide _ then _ else _).
  assert (H1 : defs_kept d1 ∧ same_task (po_rest _ p') d1).
  { subst d1. case_bool_decide; [by apply handleDDLEvent_kept|done]. }
  destruct H1 as [Hd1 Ht1]. destruct (SaveCurrent_kept (ev_Position e) d1 Hd1) as [Hd2 Ht2].
  constructor; [exact Hd2|exact Hs|]. eapply same_task_trans; [exact Ht|]. by eapply same_task_trans.
Qed.

Lemma send_all_kept evs : ∀ p p', kept p p' → kept p (foldl (send_event ora_handleDDLEvent ora_SaveCurrent) p' evs).
Proof.
  induction evs as [|e evs IH]; intros p p' Hk; [done|]. apply IH.
  destruct (arrive_kept p p' e Hk) as [Hd Hs Ht]. by constructor.
Qed.

Lemma pollChanges_kept n service now stop db p0 p p' :
  kept p0 p → pollChanges ParseFloat format_ts ora_handleDDLEvent ora_SaveCurrent ora_Save n service now stop db p = Some p' →
  kept p0 p'.
Proof.
  intros Hk. unfold pollChanges. destruct (ReadChanges _ _ _ _ _ _) as [[[changes lastSCN]|e]|]; [|by intros [= <-]|done].
  destruct (stop ≫= _) as [[k e]|].
  { intros [= <-]. by apply arrive_kept, send_all_kept. }
  pose proof (send_all_kept changes p0 p Hk) as [Hd Hs Ht]. destruct (0 <? lastSCN); [|by intros [= <-]].
  intros [= <-]. set (pos := mkPosition _ _ _ _ _ _ _ _ _ _ _ _ _). destruct (Save_kept pos _ Hd) as [Hd' Ht'].
  constructor; [exact Hd'|by exists pos|by eapply same_task_trans].
Qed.

Lemma runPollingLoop_kept n service qs : ∀ p0 c c' r,
  kept p0 (oc_poller c) → runPollingLoop ParseFloat format_ts n service qs c = Some (c', r) →
  kept p0 (oc_poller c') ∧ oc_state c' = oc_state c.
Proof.
  induction qs as [|q qs IH]; intros p0 c c' r Hk; cbn [runPollingLoop]; [by intros [= <- _]|].
  destruct (ora_pollChanges ParseFloat format_ts n service q c) as [[c1 r1]|] eqn:E; [|done]. cbn [mbind option_bind].
  assert (H1 : kept p0 (oc_poller c1) ∧ oc_state c1 = oc_state c).
  { unfold ora_pollChanges in E. destruct (ReadChanges _ _ _ _ _ _) as [[[]|e]|]; [| |done].
    - destruct (pollChanges _ _ _ _ _ _ _ _ _ _ _) as [p'|] eqn:Ep; [|done]. injection E as <- _. split; [|done].
      by eapply pollChanges_kept.
    - destruct e; injection E as <- _; try done; by destruct (_ <? 100)%nat. }
  destruct H1 as [Hk1 Hs1]. destruct r1 as [[]|e]; [|by intros [= <- _]].
  intros Hrun. destruct (IH _ _ _ _ Hk1 Hrun) as [Hk2 ->]. done.
Qed.

(** The offset storage that initialising opens. *)
Definition ora_opened (config : source_Config) (w : ora_init (observed S) O) : result O :=
  oi_storage w (so_OffsetBackend config) (so_OffsetPath config) (so_OffsetFlush config).

(** What initialising a new connector on a store that can be opened leaves. *)
Lemma ora_Initialize_new config (w : ora_init (observed S) O) c o :
  oi_initDatabase w = Ok tt → so_OffsetBackend config ≠ "" → ora_opened config w = Ok o → storage_answers o →
  ora_Initialize quote config w ora_New = (c, Ok tt) →
  or_tables (oc_rest c) =
    Some (if is_ok (LoadSchemaHistory (oi_store w)).2 then foldl apply_row NewTables (rows_view (oi_store w)) else NewTables) ∧
  or_store (oc_rest c) = Some (oi_store w) ∧ or_taskID (oc_rest c) = ora_taskID config ∧ scn_kept (oc_poller c) ∧
  oc_state c = SourceStopped ∧ from_option storage_answers True (or_offset (oc_rest c)) ∧
  oc_position c = storage_view o !! ora_taskID config ∧
  oc_scn c = match oc_position c with Some p => if 0 <? pos_SCN p then pos_SCN p else 0 | None => 0 end.
Proof.
  intros Hdb Hb Hopen Ha. unfold ora_Initialize. generalize (ora_parseConfig config). intros cfg.
  unfold mbind, ST_bind, st_lift, st_modify. destruct (ora_Validate quote cfg) as [[]|]; [|done].
  destruct (oi_open w); [|done]. destruct (oi_ping w); [|done].
  assert (Hrec : (TargetStoreRecover None (oi_store w) NewTables).1 =
    if is_ok (LoadSchemaHistory (oi_store w)).2 then foldl apply_row NewTables (rows_view (oi_store w)) else NewTables).
  { unfold TargetStoreRecover. destruct (LoadSchemaHistory (oi_store w)) as [st1 [rows|]] eqn:El; [|done]. cbn [snd fst is_ok].
    by rewrite (rows_load _ _ _ El), replay_rows_all. }
  unfold ora_init_rest. rewrite Hdb. unfold ora_init_offset. rewrite bool_decide_eq_true_2 by done. unfold ora_opened in Hopen. rewrite Hopen.
  destruct (storage_answers_load (ora_taskID config) o Ha) as (o' & p & El & Ha').
  change (or_taskID (oc_rest (oset_rest ?d _))) with (or_taskID d). cbn [or_taskID]. rewrite El.
  destruct (storage_load_ok _ _ _ _ El) as [-> _].
  assert (Hscn : ∀ c0 : OraConnector (observed S) O, scn_kept (oc_poller (ora_init_reader c0))).
  { intros c0 H. unfold ora_init_reader in *. cbn in *. destruct (oc_position c0) as [q|]; [|lia].
    destruct (0 <? pos_SCN q); [by exists q|lia]. }
  intros [= <-]. destruct (storage_view o !! ora_taskID config); split_and!; try done; try apply Hscn; try exact (f_equal Some Hrec).
Qed.

Lemma ora_Stop_saves c c' p o' :
  from_option storage_answers True (or_offset (oc_rest c)) →
  oc_state c = SourceRunning → oc_position c = Some p → ora_Stop c = (c', Ok tt) → or_offset (oc_rest c') = Some o' →
  storage_view o' !! or_taskID (oc_rest c) = Some p ∧ or_store (oc_rest c') = or_store (oc_rest c).
Proof.
  intros Ha Hst Hp. unfold ora_Stop. rewrite bool_decide_eq_true_2 by done. cbn [negb oset_state oc_stopClosed].
  destruct (oc_stopClosed c); [done|]. cbn zeta. change (oc_position (oset_stopClosed _ _)) with (oc_position c). rewrite Hp.
  intros [= <-]. unfold oc_rest in *. cbn. destruct (or_offset (po_rest _ (oc_poller c))) as [o|]; [|done]. cbn in Ha |- *. intros [= <-]. split; [|done].
  set (t := or_taskID _) in *. destruct (storage_answers_save t p o Ha) as (o1 & E & _). rewrite E.
  cbn. by rewrite (storage_save_ok _ _ _ _ E), lookup_insert_eq.
Qed.

End Restart.

(** ** Runs *)

Module OracleRuns.
Import StoreRuns LogMinerRuns.

#[local] Instance plain_regexp : Regexp := {|
  regexp := string; regexp_Compile p := Ok p; MatchString p s := strings_Contains s p |}.
#[local] Instance rows_laws : HistoryRowsLaws MySQLDB := my_rows_laws (λ d, d) eq_refl.

Definition quote (s : string) : string := s.
Definition create_text : string := "CREATE TABLE HR.EMP (ID NUMBER(10), NAME VARCHAR2(20))".
Definition truncate_text : string := "TRUNCATE TABLE HR.DEPT".

(** The results of the parser for these two texts. *)
Definition parse (ddl : string) : result (list ParsedDDL) :=
  if bool_decide (ddl = create_text)
  then Ok [mkParsedDDL DDLTypeCreateTable "HR" "EMP" ddl
             (Some (mkTableChanges TableOpCreate (Some (mkParserTable "HR" "EMP"
               [parser_column "ID" "NUMBER(10)" true; parser_column "NAME" "VARCHAR2(20)" true] [])) [] [] [] None)) None None]
  else if bool_decide (ddl = truncate_text) then Ok [mkParsedDDL "truncate_table" "HR" "DEPT" ddl None None None]
  else Err (ErrNew "syntax error").

Definition config : source_Config :=
  mkSourceConfig "oracle" (mkConnectionConfig "db" 1521 "app" "secret" "" [] "" "" "" 0 []) {["serviceName" := PValue (VString "ORCL")]}
    [] "memory" "" 0 None.

#[local] Existing Instances observed_store observed_rows_laws.
Notation Left := (observed MySQLDB) (only parsing).

Definition init (d : Left) (o : MemoryStorage) : ora_init Left MemoryStorage :=
  mkOraInit (Ok tt) (Ok tt) (Ok tt) d (Some (dialect_parser OracleDialect parse)) (λ _ _ _, Ok o).

Definition ddl_row (scn : Z) (table text : string) : redo_row := mkRedoRow scn text 5 table "HR" 0.
Definition log : list redo_row := [ddl_row 11 "EMP" create_text; emp_row 12 1; ddl_row 13 "DEPT" truncate_text].
Definition polls : list ora_poll :=
  [mkOraPoll (db_of [] 10 10) 0 None; mkOraPoll (mkLogMinerDB (Err (ErrNew "ORA-03113")) (λ _, Ok tt) (λ _, Err IoEOF)) 0 None;
   mkOraPoll (db_of log 20 10) 0 None].

Definition created : OraConnector Left MemoryStorage := (ora_Initialize quote config (init (InitDatabase, []) ∅) ora_New).1.
Definition started : OraConnector Left MemoryStorage := (ora_Start created).1.
Definition polled : option (OraConnector Left MemoryStorage * result unit) :=
  runPollingLoop no_floats no_format 100 "ORCL" polls started.
Definition c2 : OraConnector Left MemoryStorage := from_option fst started polled.
Definition c3 : OraConnector Left MemoryStorage := (ora_Stop c2).1.
Definition left_store : Left := default (InitDatabase, []) (or_store (oc_rest c3)).
Definition left_storage : MemoryStorage := default ∅ (or_offset (oc_rest c3)).
Definition c4 : OraConnector Left MemoryStorage := (ora_Initialize quote config (init left_store left_storage) ora_New).1.

Definition emp_def : TableInfo :=
  mkTableInfo "HR" "" "EMP" [] [] [mkColumnInfo "ID" "NUMBER" true 10 0; mkColumnInfo "NAME" "VARCHAR2" true 20 0].


(** A statement that leaves no definition is recorded as a drop. *)
Example truncate_recorded_as_drop :
  (sr_ChangeType <$> rows_view left_store) = ["CREATE"; "DROP"] ∧ (sr_DDL <$> rows_view left_store) = [create_text; truncate_text].
Proof. split; vm_compute; reflexivity. Qed.

(** The error of the second poll waits in the channel. *)
Example poll_errors : oc_errors c2 = [ErrWrapf "failed to get current SCN" (ErrNew "ORA-03113")].
Proof. vm_compute. reflexivity. Qed.

(** The connector knows a table, but tells of none. *)
Example schemas_untold : ora_Schemas c2 = ∅ ∧ Tables_Get (default ∅ (or_tables (oc_rest c2))) "HR" "EMP" = Some emp_def.
Proof. split; vm_compute; reflexivity. Qed.

(** A statement whose keyword is followed by a line break is not taken for DDL. *)
Example ddl_by_blank :
  isDDLStatement ("create" +:+ String "010"%char "table T (ID number)") = false ∧ isDDLStatement "create table T (ID number)" = true.
Proof. split; vm_compute; reflexivity. Qed.
End OracleRuns.
