(* ===== verification/ParseTree.v ===== *)
(** Parse trees, as the parsers that are generated by ANTLR build them, and the string
    functions that the visitors of pkg/parser use on their texts.

    A node is a token or the application of a rule; an alternative of a rule may have a name
    of its own, and a child a label.  The generated accessors of a context look for the
    first child, the i-th child or all children of a rule, for a token by its kind, and for
    a child by its label.  White space is skipped by the lexers, so that it is in no tree. *)
From Stdlib Require Import ZArith Lia Ascii.
From Stdlib Require String.
From stdpp Require Import prelude countable gmap strings list pretty.
From S2P Require Import Prelude Events Strings TableLifecycle Scope DDLApply.
Local Open Scope Z_scope.

Inductive ptree :=
  | Token (label kind text : string)
  | Rule (label rule alt : string) (children : list ptree).

Definition tok (kind text : string) : ptree := Token "" kind text.
Definition node (rule : string) (children : list ptree) : ptree := Rule "" rule rule children.
Definition alternative (rule alt : string) (children : list ptree) : ptree := Rule "" rule alt children.

(** The token at the end of the input, which the root rules ask for. *)
Definition eof : ptree := tok "EOF" "<EOF>".

Fixpoint GetText (t : ptree) : string :=
  match t with
  | Token _ _ s => s
  | Rule _ _ _ cs => foldr (λ c acc, GetText c +:+ acc) "" cs
  end.

Definition texts (cs : list ptree) : string := foldr (λ c acc, GetText c +:+ acc) "" cs.

(** ** Accessors *)

Definition children_of (t : ptree) : list ptree := match t with Token _ _ _ => [] | Rule _ _ _ cs => cs end.
Definition label_of (t : ptree) : string := match t with Token l _ _ => l | Rule l _ _ _ => l end.
Definition is_rule (r : string) (t : ptree) : bool := match t with Rule _ r' _ _ => bool_decide (r' = r) | _ => false end.
Definition is_alt (a : string) (t : ptree) : bool := match t with Rule _ _ a' _ => bool_decide (a' = a) | _ => false end.
Definition is_token (k : string) (t : ptree) : bool := match t with Token _ k' _ => bool_decide (k' = k) | _ => false end.

Definition all_children (r : string) (t : ptree) : list ptree := filter (λ c, is_rule r c = true) (children_of t).
Definition child (r : string) (t : ptree) : option ptree := head (all_children r t).
Definition child_at (i : nat) (r : string) (t : ptree) : option ptree := all_children r t !! i.
Definition has_token (k : string) (t : ptree) : bool := existsb (is_token k) (children_of t).
Definition labelled (l : string) (t : ptree) : option ptree := head (filter (λ c, label_of c = l) (children_of t)).

(** The assertion that a context has the type of its rule: it fails for an alternative with a
    name of its own. *)
Definition as_context (r : string) (t : ptree) : result ptree :=
  if is_alt r t then Ok t else Err (Panic "interface conversion").

Definition typed_child (r : string) (t : ptree) : result (option ptree) :=
  match child r t with
  | None => Ok None
  | Some c => c ← as_context r c; Ok (Some c)
  end.

Fixpoint map_result {A B} (f : A → result B) (l : list A) : result (list B) :=
  match l with
  | [] => Ok []
  | a :: l => b ← f a; bs ← map_result f l; Ok (b :: bs)
  end.

(** The results that are not nil. *)
Definition found {A} (rs : list (option A)) : list A := omap id rs.

(** The first of a list of cases whose rule a node has a child of. *)
Fixpoint first_case {A} (cases : list (string * (ptree → result A))) (t : ptree) (otherwise : A) : result A :=
  match cases with
  | [] => Ok otherwise
  | (r, f) :: cases =>
      match child r t with
      | Some c => f c
      | None => first_case cases t otherwise
      end
  end.

(** A case whose context is asserted to have the type of its rule. *)
Definition asserted {A} (r : string) (f : ptree → A) : string * (ptree → result (option A)) :=
  (r, λ c, c ← as_context r c; Ok (Some (f c))).

(** The same for rules without named alternatives, of which the assertion holds. *)
Fixpoint first_rule {A} (cases : list (string * (ptree → A))) (t : ptree) (otherwise : A) : A :=
  match cases with
  | [] => otherwise
  | (r, f) :: cases =>
      match child r t with
      | Some c => f c
      | None => first_rule cases t otherwise
      end
  end.

(** ** strings *)

(** [strings.ReplaceAll] of a byte by nothing. *)
Fixpoint remove_char (c : ascii) (s : string) : string :=
  match s with
  | EmptyString => EmptyString
  | String a s => if bool_decide (a = c) then remove_char c s else String a (remove_char c s)
  end.

(** [strings.Trim] for a set of ASCII characters. *)
Fixpoint trim_left (cut : ascii → bool) (s : string) : string :=
  match s with
  | EmptyString => EmptyString
  | String a s' => if cut a then trim_left cut s' else s
  end.
Definition strings_Trim (cut : ascii → bool) (s : string) : string := string_rev (trim_left cut (string_rev (trim_left cut s))).

(** [strings.Fields]: the words between white space.  A round takes a character or the space
    before a word, so that a round for each byte is enough. *)
Fixpoint fields_rounds (n : nat) (word : string) (s : string) : list string :=
  let flush (l : list string) := if bool_decide (word = "") then l else string_rev word :: l in
  match n with
  | O => flush []
  | S n =>
      match strip_one space_runes s with
      | Some s' => flush (fields_rounds n "" s')
      | None =>
          match s with
          | EmptyString => flush []
          | String a s' => fields_rounds n (String a word) s'
          end
      end
  end.
Definition strings_Fields (s : string) : list string := fields_rounds (S (String.length s)) "" s.

(** [strings.Index], and the text after an occurrence that was found in another spelling. *)
Definition strings_Index (s sep : string) : option nat := (λ lr, String.length lr.1) <$> strings_Cut sep s.
Definition text_from (n : nat) (s : string) : string := String.substring n (String.length s - n) s.

(** The word after a keyword and the words that are skipped behind it. *)
Definition skip_word (rest skip : string) : string :=
  if has_prefix skip (strings_ToUpper rest) then strings_TrimSpace (text_from (String.length skip) rest) else rest.
Definition word_behind (cut : ascii → bool) (skips : list string) (text keyword : string) : string :=
  match strings_Index (strings_ToUpper text) keyword with
  | None => ""
  | Some idx =>
      let rest := strings_TrimSpace (text_from (idx + String.length keyword) text) in
      match strings_Fields (foldl skip_word rest skips) with
      | w :: _ => strings_Trim cut w
      | [] => ""
      end
  end.

(** ** Results *)

Definition ddl_result (typ statement : string) : ParsedDDL := mkParsedDDL typ "" "" statement None None None.

Definition with_database (db : string) (r : ParsedDDL) : ParsedDDL :=
  mkParsedDDL (pd_Type r) db (pd_Table r) (pd_Statement r) (pd_TableChanges r) (pd_IndexChanges r) (pd_NewTableInfo r).
Definition with_names (n : string * string) (r : ParsedDDL) : ParsedDDL :=
  mkParsedDDL (pd_Type r) n.1 n.2 (pd_Statement r) (pd_TableChanges r) (pd_IndexChanges r) (pd_NewTableInfo r).
Definition with_changes (ch : TableChanges) (r : ParsedDDL) : ParsedDDL :=
  mkParsedDDL (pd_Type r) (pd_Database r) (pd_Table r) (pd_Statement r) (Some ch) (pd_IndexChanges r) (pd_NewTableInfo r).
Definition with_index (ic : option IndexChanges) (r : ParsedDDL) : ParsedDDL :=
  mkParsedDDL (pd_Type r) (pd_Database r) (pd_Table r) (pd_Statement r) (pd_TableChanges r) ic (pd_NewTableInfo r).

(** Where there are changes of an index, they are given the names of its table. *)
Definition index_on (n : string * string) (r : ParsedDDL) : ParsedDDL :=
  with_index ((λ ic, mkIndexChanges (ic_IndexName ic) n.2 n.1 (ic_Operation ic)) <$> pd_IndexChanges r) (with_names n r).

Definition new_index (name operation : string) : IndexChanges := mkIndexChanges name "" "" operation.

Definition create_changes (db table : string) (columns : list parser_ColumnInfo) : TableChanges :=
  mkTableChanges TableOpCreate (Some (mkParserTable db table columns [])) [] [] [] None.
Definition no_changes : TableChanges := mkTableChanges TableOpAlter None [] [] [] None.
Definition changes_of (n : string * string) (ch : TableChanges) : TableChanges :=
  mkTableChanges (tc_Operation ch) (Some (mkParserTable n.1 n.2 [] [])) (tc_AddedColumns ch) (tc_DroppedColumns ch)
    (tc_ModifiedColumns ch) (tc_PrimaryKeyChange ch).

Definition add_column (c : parser_ColumnInfo) (ch : TableChanges) : TableChanges :=
  mkTableChanges (tc_Operation ch) (tc_Table ch) (tc_AddedColumns ch ++ [c]) (tc_DroppedColumns ch) (tc_ModifiedColumns ch)
    (tc_PrimaryKeyChange ch).
Definition drop_named (n : string) (ch : TableChanges) : TableChanges :=
  mkTableChanges (tc_Operation ch) (tc_Table ch) (tc_AddedColumns ch) (tc_DroppedColumns ch ++ [n]) (tc_ModifiedColumns ch)
    (tc_PrimaryKeyChange ch).
Definition modify_named (m : ColumnModification) (ch : TableChanges) : TableChanges :=
  mkTableChanges (tc_Operation ch) (tc_Table ch) (tc_AddedColumns ch) (tc_DroppedColumns ch) (tc_ModifiedColumns ch ++ [m])
    (tc_PrimaryKeyChange ch).

(** What [Parse] makes of the results of the visitor. *)
Definition parse_results (ddl : string) (rs : list ParsedDDL) : list ParsedDDL :=
  match rs with [] => [ddl_result DDLTypeUnknown ddl] | _ => rs end.

(** A name with a dot in it: what is before and after the first. *)
Definition split_name (s : string) : string * string :=
  match split_first "."%char s with Some (a, b) => (a, b) | None => ("", s) end.

(** ** Lemmas *)

Lemma texts_cons c cs : texts (c :: cs) = GetText c +:+ texts cs.
Proof. done. Qed.

Lemma GetText_rule l r a cs : GetText (Rule l r a cs) = texts cs.
Proof. done. Qed.

Lemma texts_app cs cs' : texts (cs ++ cs') = texts cs +:+ texts cs'.
Proof. induction cs as [|c cs IH]; [done|]. rewrite <- app_comm_cons, !texts_cons, IH. by rewrite string_app_assoc. Qed.

Lemma remove_char_app c a b : remove_char c (a +:+ b) = remove_char c a +:+ remove_char c b.
Proof.
  induction a as [|x a IH]; [done|]. rewrite string_app_cons. cbn. case_bool_decide; [done|]. by rewrite string_app_cons, IH.
Qed.

Lemma remove_char_none c s : has_char c s = false → remove_char c s = s.
Proof.
  induction s as [|x s IH]; [done|]. cbn. intros [Hx Hs]%orb_false_iff. rewrite Hx. by rewrite IH.
Qed.

Lemma split_name_none s : has_char "."%char s = false → split_name s = ("", s).
Proof.
  unfold split_name. intros H. assert (split_first "."%char s = None) as ->; [|done].
  induction s as [|x s IH]; [done|]. cbn in *. apply orb_false_iff in H as [-> H]. by rewrite IH.
Qed.

Lemma split_name_dot a b : has_char "."%char a = false → split_name (a +:+ "." +:+ b) = (a, b).
Proof.
  unfold split_name. intros H. assert (split_first "."%char (a +:+ "." +:+ b) = Some (a, b)) as ->; [|done].
  induction a as [|x a IH]; [done|]. cbn in H. apply orb_false_iff in H as [Hx H]. rewrite string_app_cons. cbn. rewrite Hx. by rewrite IH.
Qed.

(** All characters of a text satisfy a test. *)
Definition all_chars (f : ascii → bool) (s : string) : bool := forallb f (String.list_ascii_of_string s).

Lemma all_chars_app f a b : all_chars f (a +:+ b) = all_chars f a && all_chars f b.
Proof.
  unfold all_chars. induction a as [|x a IH]; [done|]. rewrite string_app_cons. cbn. by rewrite IH, andb_assoc.
Qed.

Lemma all_chars_rev f s : all_chars f (string_rev s) = all_chars f s.
Proof.
  induction s as [|x s IH]; [done|]. rewrite string_rev_cons, all_chars_app, IH. unfold all_chars. cbn. by rewrite andb_true_r, andb_comm.
Qed.

Lemma trim_left_all cut p s : all_chars cut p = true → trim_left cut (p +:+ s) = trim_left cut s.
Proof.
  induction p as [|x p IH]; [done|]. unfold all_chars. cbn. intros [Hx H]%andb_true_iff. rewrite string_app_cons. cbn. rewrite Hx. by apply IH.
Qed.

Lemma trim_left_none cut s : all_chars (λ c, negb (cut c)) s = true → trim_left cut s = s.
Proof. destruct s as [|x s]; [done|]. unfold all_chars. cbn. by destruct (cut x). Qed.

(** A text without characters to cut is given back, and what is cut around it is dropped. *)
Lemma strings_Trim_around cut p s q :
  all_chars cut p = true → all_chars cut q = true → all_chars (λ c, negb (cut c)) s = true → strings_Trim cut (p +:+ s +:+ q) = s.
Proof.
  intros Hp Hq Hs. unfold strings_Trim. rewrite trim_left_all by done. destruct s as [|x s].
  - rewrite <- (string_app_nil_r (_ +:+ q)), string_app_nil_l, string_app_nil_r.
    assert (trim_left cut q = "") as ->; [|done]. rewrite <- (string_app_nil_r q). by rewrite trim_left_all.
  - assert (trim_left cut (String x s +:+ q) = String x s +:+ q) as ->.
    { rewrite string_app_cons. cbn. unfold all_chars in Hs. cbn in Hs. by destruct (cut x). }
    rewrite string_rev_app, trim_left_all by (by rewrite all_chars_rev).
    rewrite trim_left_none by (by rewrite all_chars_rev). apply string_rev_involutive.
Qed.

Lemma strings_Trim_none cut s : all_chars (λ c, negb (cut c)) s = true → strings_Trim cut s = s.
Proof. intros Hs. by rewrite <- (strings_Trim_around cut "" s "" eq_refl eq_refl Hs) at 2; rewrite string_app_nil_l, string_app_nil_r. Qed.

Lemma map_result_ok {A B} (f : A → result B) (g : A → B) l : (∀ a, a ∈ l → f a = Ok (g a)) → map_result f l = Ok (g <$> l).
Proof.
  induction l as [|a l IH]; intros H; [done|]. cbn. rewrite H by left. cbn. rewrite IH; [done|]. intros b Hb. apply H. by right.
Qed.

(** Filtering children that are all of a rule, or of none. *)
Lemma filter_rule_all {A} r (f : A → ptree) (l : list A) : (∀ a, is_rule r (f a) = true) → filter (λ c, is_rule r c = true) (f <$> l) = f <$> l.
Proof. intros H. induction l as [|a l IH]; [done|]. cbn [fmap list_fmap]. rewrite filter_cons_True by apply H. f_equal. apply IH. Qed.

Lemma filter_rule_tokens r (l : list ptree) : (∀ c, c ∈ l → is_rule r c = false) → filter (λ c, is_rule r c = true) l = [].
Proof.
  intros H. induction l as [|a l IH]; [done|]. rewrite filter_cons_False; [apply IH; intros; apply H; by right|].
  rewrite (H a) by left. done.
Qed.

(** A list with a token between its elements. *)
Fixpoint separated (sep : ptree) (cs : list ptree) : list ptree :=
  match cs with
  | [] => []
  | [c] => [c]
  | c :: cs => c :: sep :: separated sep cs
  end.

Lemma filter_separated r sep cs : is_rule r sep = false → filter (λ c, is_rule r c = true) (separated sep cs) = filter (λ c, is_rule r c = true) cs.
Proof.
  intros Hs. induction cs as [|c [|c' cs] IH]; [done|done|]. change (separated sep (c :: c' :: cs)) with (c :: sep :: separated sep (c' :: cs)).
  rewrite (filter_cons _ c (sep :: _)), (filter_cons _ c (c' :: cs)), (filter_cons_False _ sep), IH by congruence. done.
Qed.

Lemma substring_whole s : String.substring 0 (String.length s) s = s.
Proof. induction s as [|x s IH]; [done|]. cbn. by rewrite IH. Qed.

Lemma text_from_app p s : text_from (String.length p) (p +:+ s) = s.
Proof.
  unfold text_from. rewrite string_length_app, Nat.add_comm, Nat.add_sub. induction p as [|x p IH]; [apply substring_whole|].
  rewrite string_app_cons. cbn. exact IH.
Qed.

(** ** Names as they are written *)

(** An identifier, in quotes or not. *)
Record ident := mkIdent { id_quoted : bool; id_name : string }.
Definition quoted_text (op cl : ascii) (i : ident) : string :=
  if id_quoted i then String op (id_name i +:+ String cl "") else id_name i.

(** A table, with its database or schema or without. *)
Record qname := mkQname { qn_database : option ident; qn_table : ident }.
Definition qname_names (n : qname) : string * string := (from_option id_name "" (qn_database n), id_name (qn_table n)).
Definition quoted_names (op cl : ascii) (n : qname) : string :=
  match qn_database n with
  | Some d => quoted_text op cl d +:+ "." +:+ quoted_text op cl (qn_table n)
  | None => quoted_text op cl (qn_table n)
  end.

Definition no_dot (i : ident) : Prop := has_char "."%char (id_name i) = false.

(** Names that contain nothing which is cut off. *)
Definition good_name (cut : ascii → bool) (i : ident) : Prop := all_chars (λ c, negb (cut c)) (id_name i) = true ∧ id_name i ≠ "".
Definition good_names (cut : ascii → bool) (n : qname) : Prop :=
  good_name cut (qn_table n) ∧ match qn_database n with Some d => good_name cut d ∧ no_dot d | None => no_dot (qn_table n) end.

Definition words_trees (ws : list string) : list ptree := tok "WORD" <$> ws.
Definition comma : ptree := tok "COMMA" ",".

Lemma words_text ws : texts (words_trees ws) = foldr (λ w acc, w +:+ acc) "" ws.
Proof. induction ws as [|w ws IH]; [done|]. unfold words_trees. cbn [fmap list_fmap]. rewrite texts_cons. cbn [GetText tok foldr]. f_equal. apply IH. Qed.

Lemma words_no_rule r ws : filter (λ c, is_rule r c = true) (words_trees ws) = [].
Proof. apply filter_rule_tokens. intros c (w & -> & _)%list_elem_of_fmap. done. Qed.

Lemma words_no_token k ws : k ≠ "WORD" → existsb (is_token k) (words_trees ws) = false.
Proof. intros Hk. induction ws as [|w ws IH]; [done|]. cbn. by rewrite bool_decide_eq_false_2 by congruence. Qed.

Section Idents.
Context (op cl : ascii) (cut : ascii → bool).
Hypotheses (Hop : cut op = true) (Hcl : cut cl = true).

Lemma cut_char i : good_name cut i → ∀ c, cut c = true → has_char c (id_name i) = false.
Proof.
  intros [Hi _] c Hc. revert Hi. induction (id_name i) as [|x s IH]; [done|]. unfold all_chars. cbn. intros [Hx Hs]%andb_true_iff.
  rewrite bool_decide_eq_false_2 by (intros ->; by rewrite Hc in Hx). by apply IH.
Qed.

Lemma trim_ident i : good_name cut i → strings_Trim cut (quoted_text op cl i) = id_name i.
Proof.
  intros [Hi _]. unfold quoted_text. destruct (id_quoted i); [|by apply strings_Trim_none].
  apply (strings_Trim_around cut (String op "") (id_name i) (String cl "")); [..|done]; unfold all_chars; cbn; by rewrite ?Hop, ?Hcl.
Qed.

(** Removing both quotes. *)
Lemma remove_quotes i : good_name cut i → remove_char cl (remove_char op (quoted_text op cl i)) = id_name i.
Proof.
  intros Hi. pose proof (remove_char_none _ _ (cut_char i Hi op Hop)) as Ho. pose proof (remove_char_none _ _ (cut_char i Hi cl Hcl)) as Hc.
  unfold quoted_text. destruct (id_quoted i); [|by rewrite Ho, Hc].
  change (String op (id_name i +:+ String cl "")) with (String op "" +:+ (id_name i +:+ String cl "")).
  rewrite !remove_char_app, Ho, Hc. cbn [remove_char]. rewrite (bool_decide_eq_true_2 (op = op)) by done.
  case_bool_decide; cbn [remove_char]; rewrite ?(bool_decide_eq_true_2 (cl = cl)) by done; by rewrite string_app_nil_l, string_app_nil_r.
Qed.

Lemma remove_quotes_names n :
  op ≠ "."%char → cl ≠ "."%char → good_names cut n →
  split_name (remove_char cl (remove_char op (quoted_names op cl n))) = qname_names n.
Proof.
  intros Ho Hc [Ht Hd]. unfold quoted_names, qname_names. destruct (qn_database n) as [d|]; cbn.
  - destruct Hd as [Hg Hn]. rewrite !remove_char_app, !remove_quotes by done.
    assert (remove_char cl (remove_char op ".") = ".") as ->
      by (cbn [remove_char]; rewrite bool_decide_eq_false_2 by congruence; cbn [remove_char]; by rewrite bool_decide_eq_false_2 by congruence).
    by apply split_name_dot.
  - rewrite remove_quotes by done. by apply split_name_none.
Qed.
End Idents.

Lemma remove_char_twice c s : remove_char c (remove_char c s) = remove_char c s.
Proof. induction s as [|x s IH]; [done|]. cbn. case_bool_decide as E; [done|]. cbn. by rewrite (bool_decide_eq_false_2 _ E), IH. Qed.

(** ** The parts of an ALTER TABLE *)

Definition add_spec (ch : TableChanges) (s : alter_spec) : TableChanges :=
  match s with SpecAdd c => add_column c ch | SpecDrop n => drop_named n ch | SpecModify m => modify_named m ch end.
Definition add_specs (ch : TableChanges) (specs : list alter_spec) : TableChanges := foldl add_spec ch specs.

Lemma add_specs_app ch l l' : add_specs ch (l ++ l') = add_specs (add_specs ch l) l'.
Proof. apply foldl_app. Qed.

(** The parts are collected by what they do. *)
Lemma add_specs_changes specs : ∀ ch,
  add_specs ch specs =
  mkTableChanges (tc_Operation ch) (tc_Table ch) (tc_AddedColumns ch ++ tc_AddedColumns (alter_changes specs))
    (tc_DroppedColumns ch ++ tc_DroppedColumns (alter_changes specs)) (tc_ModifiedColumns ch ++ tc_ModifiedColumns (alter_changes specs))
    (tc_PrimaryKeyChange ch).
Proof.
  induction specs as [|s specs IH]; intros ch; [cbn; rewrite !app_nil_r; by destruct ch|].
  change (add_specs ch (s :: specs)) with (add_specs (add_specs ch [s]) specs). rewrite IH. destruct s; cbn; by rewrite <- !app_assoc.
Qed.
