(* ===== verification/MySQLVisitor.v ===== *)
(** The visitor of MySQL parse trees (pkg/parser/mysql/visitor.go) and [Parse]
    (mysql_parser.go).  The lexer and the parser are generated: the tree of a text is a
    parameter, and the trees of statements follow the grammar (MySqlParser.g4). *)
From Stdlib Require Import ZArith Lia Ascii.
From Stdlib Require String.
From stdpp Require Import prelude countable gmap strings list fin_maps pretty.
From S2P Require Import Prelude Events Strings TableLifecycle Scope Filters BinlogConsumer DDLApply ParseTree.
Local Open Scope Z_scope.

Definition backquote : ascii := "`".
Definition is_backquote (c : ascii) : bool := bool_decide (c = backquote).

(** ** Names *)

Definition extractUidText (uid : ptree) : string := strings_Trim is_backquote (GetText uid).

Definition my_extractTableName (t : ptree) : string * string := split_name (remove_char backquote (GetText t)).

(** The names of the first child of a rule, set where there is one. *)
Definition set_names (c : option ptree) (r : ParsedDDL) : ParsedDDL :=
  match c with Some t => with_names (my_extractTableName t) r | None => r end.

Section Visitor.
Context (ddl : string).

(** ** Databases *)

Definition set_uid_database (ctx : ptree) (r : ParsedDDL) : ParsedDDL :=
  match child "uid" ctx with Some u => with_database (extractUidText u) r | None => r end.

Definition VisitCreateDatabase (ctx : ptree) : ParsedDDL := set_uid_database ctx (ddl_result DDLTypeCreateDatabase ddl).
Definition VisitDropDatabase (ctx : ptree) : ParsedDDL := set_uid_database ctx (ddl_result DDLTypeDropDatabase ddl).

(** The first word behind a keyword. *)
Definition word_after (text : string) (idx : nat) (keyword : string) (r : ParsedDDL) : ParsedDDL :=
  match strings_Fields (strings_TrimSpace (text_from (idx + String.length keyword) text)) with
  | p :: _ => with_database (strings_Trim is_backquote p) r
  | [] => r
  end.

Definition VisitAlterDatabase (ctx : ptree) : ParsedDDL :=
  let r := ddl_result DDLTypeAlterDatabase ddl in
  let text := GetText ctx in
  let upper := strings_ToUpper text in
  match strings_Index upper "DATABASE" with
  | Some idx => word_after text idx "DATABASE" r
  | None =>
      match strings_Index upper "SCHEMA" with
      | Some idx => word_after text idx "SCHEMA" r
      | None => r
      end
  end.

(** ** Columns *)

Definition processColumnConstraint (col : parser_ColumnInfo) (ctx : ptree) : parser_ColumnInfo :=
  if is_alt "nullColumnConstraint" ctx then
    match child "nullNotnull" ctx with
    | Some nn => mkParserColumn (pc_Name col) (pc_Type col) (negb (has_token "NOT" nn)) (pc_DefaultValue col) (pc_AutoIncrement col)
    | None => col
    end
  else if is_alt "primaryKeyColumnConstraint" ctx then
    mkParserColumn (pc_Name col) (pc_Type col) false (pc_DefaultValue col) (pc_AutoIncrement col)
  else if is_alt "autoIncrementColumnConstraint" ctx then
    mkParserColumn (pc_Name col) (pc_Type col) (pc_Nullable col) (pc_DefaultValue col) true
  else if is_alt "defaultColumnConstraint" ctx then
    if has_token "DEFAULT" ctx then
      let text := GetText ctx in
      if (7 <? String.length text)%nat
      then mkParserColumn (pc_Name col) (pc_Type col) (pc_Nullable col) (Some (text_from 7 text)) (pc_AutoIncrement col)
      else col
    else col
  else col.

Definition extractColumnInfo (ctx : ptree) (col : parser_ColumnInfo) : parser_ColumnInfo :=
  let col := match child "dataType" ctx with
             | Some t => mkParserColumn (pc_Name col) (GetText t) (pc_Nullable col) (pc_DefaultValue col) (pc_AutoIncrement col)
             | None => col
             end in
  foldl processColumnConstraint col (all_children "columnConstraint" ctx).

(** A column with its definition, where the node has one. *)
Definition column_of (name : string) (ctx : ptree) : parser_ColumnInfo :=
  match child "columnDefinition" ctx with
  | Some d => extractColumnInfo d (parser_column name "" true)
  | None => parser_column name "" true
  end.

Definition VisitColumnDeclaration (ctx : ptree) : parser_ColumnInfo :=
  column_of (match child "fullColumnName" ctx with Some n => strings_Trim is_backquote (GetText n) | None => "" end) ctx.

(** A definition that is no alternative of its own; the other alternatives are left to the
    generated visitor, which returns nil. *)
Definition VisitCreateDefinition (ctx : ptree) : parser_ColumnInfo :=
  let text := GetText ctx in
  let parts := strings_Fields text in
  let upper := strings_ToUpper text in
  mkParserColumn (from_option (strings_Trim is_backquote) "" (parts !! 0%nat)) (default "" (parts !! 1%nat))
    (negb (strings_Contains upper "NOTNULL" || strings_Contains upper "PRIMARY")) None (strings_Contains upper "AUTO_INCREMENT").

Definition accept_definition (ctx : ptree) : option parser_ColumnInfo :=
  if is_alt "columnDeclaration" ctx then Some (VisitColumnDeclaration ctx) else None.

Definition extractColumns (ctx : ptree) : list parser_ColumnInfo :=
  filter (λ c, pc_Name c ≠ "") (omap accept_definition (all_children "createDefinition" ctx)).

(** ** Tables *)

Definition VisitColumnCreateTable (ctx : ptree) : ParsedDDL :=
  let r := set_names (child "tableName" ctx) (ddl_result DDLTypeCreateTable ddl) in
  with_changes (create_changes (pd_Database r) (pd_Table r) (from_option extractColumns [] (child "createDefinitions" ctx))) r.

Definition VisitCopyCreateTable (ctx : ptree) : ParsedDDL := set_names (child_at 0 "tableName" ctx) (ddl_result DDLTypeCreateTable ddl).
Definition VisitQueryCreateTable (ctx : ptree) : ParsedDDL := set_names (child "tableName" ctx) (ddl_result DDLTypeCreateTable ddl).

Definition accept_createTable (ctx : ptree) : option ParsedDDL :=
  if is_alt "columnCreateTable" ctx then Some (VisitColumnCreateTable ctx)
  else if is_alt "copyCreateTable" ctx then Some (VisitCopyCreateTable ctx)
  else if is_alt "queryCreateTable" ctx then Some (VisitQueryCreateTable ctx)
  else None.

Definition VisitDropTable (ctx : ptree) : ParsedDDL :=
  set_names (child "tables" ctx ≫= child_at 0 "tableName") (ddl_result DDLTypeDropTable ddl).

(** What the visit of a part of an ALTER TABLE returns. *)
Record alterResult := mkAlterResult {
  ar_added : option parser_ColumnInfo;
  ar_dropped : string;
  ar_modified : option ColumnModification
}.
Definition alter_nothing : alterResult := mkAlterResult None "" None.

Definition VisitAlterByChangeColumn (ctx : ptree) : alterResult :=
  match all_children "uid" ctx with
  | old :: new :: _ =>
      mkAlterResult None "" (Some (mkColumnModification (parser_column (extractUidText old) "" false) (column_of (extractUidText new) ctx)))
  | _ => alter_nothing
  end.

Definition VisitAlterByAddColumn (ctx : ptree) : alterResult :=
  match child "uid" ctx with
  | Some u => mkAlterResult (Some (column_of (extractUidText u) ctx)) "" None
  | None => alter_nothing
  end.

(** Of several columns the first is added, its definition as the type. *)
Definition VisitAlterByAddColumns (ctx : ptree) : alterResult :=
  match child "uid" ctx with
  | Some u => mkAlterResult (Some (parser_column (extractUidText u) (from_option GetText "" (child "columnDefinition" ctx)) true)) "" None
  | None => alter_nothing
  end.

Definition VisitAlterByDropColumn (ctx : ptree) : alterResult :=
  mkAlterResult None (from_option extractUidText "" (child "uid" ctx)) None.

Definition VisitAlterByModifyColumn (ctx : ptree) : alterResult :=
  match child "uid" ctx with
  | Some u =>
      let col := column_of (extractUidText u) ctx in
      mkAlterResult None "" (Some (mkColumnModification (parser_column (pc_Name col) "" false) col))
  | None => alter_nothing
  end.

Definition accept_alter (ctx : ptree) : option alterResult :=
  if is_alt "alterByChangeColumn" ctx then Some (VisitAlterByChangeColumn ctx)
  else if is_alt "alterByAddColumn" ctx then Some (VisitAlterByAddColumn ctx)
  else if is_alt "alterByAddColumns" ctx then Some (VisitAlterByAddColumns ctx)
  else if is_alt "alterByDropColumn" ctx then Some (VisitAlterByDropColumn ctx)
  else if is_alt "alterByModifyColumn" ctx then Some (VisitAlterByModifyColumn ctx)
  else None.

Definition collect_alter (ch : TableChanges) (ctx : ptree) : TableChanges :=
  match accept_alter ctx with
  | None => ch
  | Some a =>
      let ch := match ar_added a with Some c => add_column c ch | None => ch end in
      let ch := if bool_decide (ar_dropped a ≠ "") then drop_named (ar_dropped a) ch else ch in
      match ar_modified a with Some m => modify_named m ch | None => ch end
  end.

Definition VisitAlterTable (ctx : ptree) : ParsedDDL :=
  let r := ddl_result DDLTypeAlterTable ddl in
  let '(r, ch) := match child "tableName" ctx with
                  | Some t => (with_names (my_extractTableName t) r, changes_of (my_extractTableName t) no_changes)
                  | None => (r, no_changes)
                  end in
  with_changes (foldl collect_alter ch (all_children "alterSpecification" ctx)) r.

Definition VisitTruncateTable (ctx : ptree) : ParsedDDL := set_names (child "tableName" ctx) (ddl_result DDLTypeTruncate ddl).

(** ** Indexes and views *)

Definition visit_index (typ operation : string) (ctx : ptree) : ParsedDDL :=
  let r := with_index ((λ u, new_index (extractUidText u) operation) <$> child "uid" ctx) (ddl_result typ ddl) in
  match child "tableName" ctx with Some t => index_on (my_extractTableName t) r | None => r end.

Definition VisitCreateIndex : ptree → ParsedDDL := visit_index DDLTypeCreateIndex "create".
Definition VisitDropIndex : ptree → ParsedDDL := visit_index DDLTypeDropIndex "drop".

Definition VisitCreateView (ctx : ptree) : ParsedDDL := set_names (child "fullId" ctx) (ddl_result DDLTypeCreateView ddl).
Definition VisitDropView (ctx : ptree) : ParsedDDL := set_names (child_at 0 "fullId" ctx) (ddl_result DDLTypeDropView ddl).

(** ** Statements *)

Definition visitDdlStatement (ctx : ptree) : result (option ParsedDDL) :=
  first_case
    [asserted "createDatabase" VisitCreateDatabase; asserted "dropDatabase" VisitDropDatabase;
     asserted "alterDatabase" VisitAlterDatabase; ("createTable", λ c, Ok (accept_createTable c));
     asserted "dropTable" VisitDropTable; asserted "alterTable" VisitAlterTable; asserted "createIndex" VisitCreateIndex;
     asserted "dropIndex" VisitDropIndex; asserted "createView" VisitCreateView; asserted "dropView" VisitDropView;
     asserted "truncateTable" VisitTruncateTable]
    ctx (Some (ddl_result DDLTypeUnknown ddl)).

Definition VisitSqlStatement (ctx : ptree) : result (option ParsedDDL) :=
  d ← typed_child "ddlStatement" ctx;
  match d with Some d => visitDdlStatement d | None => Ok None end.

Definition VisitSqlStatements (ctx : ptree) : result (list ParsedDDL) :=
  rs ← map_result (λ s, as_context "sqlStatement" s ≫= VisitSqlStatement) (all_children "sqlStatement" ctx);
  Ok (found rs).
End Visitor.

(** The statement of every result is the text of the root. *)
Definition VisitRoot (ctx : ptree) : result (list ParsedDDL) :=
  s ← typed_child "sqlStatements" ctx;
  match s with Some s => VisitSqlStatements (GetText ctx) s | None => Ok [] end.

Definition mysql_Parse (tree : string → ptree) (ddl : string) : result (list ParsedDDL) :=
  rs ← VisitRoot (tree ddl); Ok (parse_results ddl rs).

Definition mysql_SupportedTypes : list string :=
  [DDLTypeCreateDatabase; DDLTypeDropDatabase; DDLTypeAlterDatabase; DDLTypeCreateTable; DDLTypeDropTable; DDLTypeAlterTable;
   "rename_table"; DDLTypeTruncate; DDLTypeCreateIndex; DDLTypeDropIndex; DDLTypeCreateView; DDLTypeDropView].

(** ** Statements as they are written *)

(** An identifier, in back quotes or not. *)
Definition ident_text (i : ident) : string := if id_quoted i then "`" +:+ id_name i +:+ "`" else id_name i.
Definition good_ident : ident → Prop := good_name is_backquote.

Definition good_qname : qname → Prop := good_names is_backquote.

Inductive constraint :=
  | CNull (not : bool)
  | CPrimaryKey
  | CAutoIncrement
  | CDefault (value : string)
  | COther (alt : string) (words : list string).

(** A definition: the tokens of the type, and the constraints. *)
Record column_definition := mkColumnDefinition { cdf_type : list string; cdf_constraints : list constraint }.

Inductive alter_part :=
  | AddColumn (c : ident) (d : column_definition) (after : option ident)
  | AddColumns (c : ident) (d : column_definition) (rest : list (ident * column_definition))
  | DropColumn (c : ident)
  | ModifyColumn (c : ident) (d : column_definition)
  | ChangeColumn (old new : ident) (d : column_definition)
  | OtherPart (alt : string) (words : list string).

Inductive definition :=
  | DefColumn (c : ident) (d : column_definition)
  | DefConstraint (words : list string)
  | DefIndex (words : list string).

Inductive statement :=
  | CreateDatabase (db : ident)
  | DropDatabase (db : ident)
  | AlterDatabase (db : ident)
  | CreateTable (t : qname) (defs : list definition)
  | CreateTableLike (t like : qname)
  | CreateTableAs (t : qname) (query : list string)
  | DropTable (t : qname) (more : list qname)
  | AlterTable (t : qname) (parts : list alter_part)
  | CreateIndex (i : ident) (t : qname)
  | DropIndex (i : ident) (t : qname)
  | CreateView (v : qname) (query : list string)
  | DropView (v : qname) (more : list qname)
  | TruncateTable (t : qname)
  | OtherDDL (rule : string) (words : list string).

(** ** Their trees *)


Definition uid_tree (i : ident) : ptree := node "uid" [node "simpleId" [tok "ID" (ident_text i)]].
Definition fullId_tree (n : qname) : ptree :=
  node "fullId" (match qn_database n with
                 | Some d => [uid_tree d; tok "DOT" "."; uid_tree (qn_table n)]
                 | None => [uid_tree (qn_table n)]
                 end).
Definition tableName_tree (n : qname) : ptree := node "tableName" [fullId_tree n].

Definition constraint_tree (c : constraint) : ptree :=
  match c with
  | CNull true => alternative "columnConstraint" "nullColumnConstraint" [node "nullNotnull" [tok "NOT" "NOT"; tok "NULL_LITERAL" "NULL"]]
  | CNull false => alternative "columnConstraint" "nullColumnConstraint" [node "nullNotnull" [tok "NULL_LITERAL" "NULL"]]
  | CPrimaryKey => alternative "columnConstraint" "primaryKeyColumnConstraint" [tok "PRIMARY" "PRIMARY"; tok "KEY" "KEY"]
  | CAutoIncrement => alternative "columnConstraint" "autoIncrementColumnConstraint" [tok "AUTO_INCREMENT" "AUTO_INCREMENT"]
  | CDefault v => alternative "columnConstraint" "defaultColumnConstraint" [tok "DEFAULT" "DEFAULT"; node "defaultValue" [tok "WORD" v]]
  | COther alt ws => alternative "columnConstraint" alt (words_trees ws)
  end.

Definition definition_tree (d : column_definition) : ptree :=
  node "columnDefinition" (node "dataType" (words_trees (cdf_type d)) :: (constraint_tree <$> cdf_constraints d)).

Definition add_tree (cd : ident * column_definition) : list ptree := [uid_tree cd.1; definition_tree cd.2].

Definition part_tree (p : alter_part) : ptree :=
  match p with
  | AddColumn c d after =>
      alternative "alterSpecification" "alterByAddColumn"
        ([tok "ADD" "ADD"; tok "COLUMN" "COLUMN"; uid_tree c; definition_tree d] ++
         match after with Some a => [tok "AFTER" "AFTER"; uid_tree a] | None => [] end)
  | AddColumns c d rest =>
      alternative "alterSpecification" "alterByAddColumns"
        ([tok "ADD" "ADD"; tok "LR_BRACKET" "("; uid_tree c; definition_tree d] ++
         (rest ≫= λ cd, comma :: add_tree cd) ++ [tok "RR_BRACKET" ")"])
  | DropColumn c => alternative "alterSpecification" "alterByDropColumn" [tok "DROP" "DROP"; tok "COLUMN" "COLUMN"; uid_tree c]
  | ModifyColumn c d =>
      alternative "alterSpecification" "alterByModifyColumn" [tok "MODIFY" "MODIFY"; tok "COLUMN" "COLUMN"; uid_tree c; definition_tree d]
  | ChangeColumn old new d =>
      alternative "alterSpecification" "alterByChangeColumn" [tok "CHANGE" "CHANGE"; uid_tree old; uid_tree new; definition_tree d]
  | OtherPart alt ws => alternative "alterSpecification" alt (words_trees ws)
  end.

Definition define_tree (d : definition) : ptree :=
  match d with
  | DefColumn c cd =>
      alternative "createDefinition" "columnDeclaration" [node "fullColumnName" [uid_tree c]; definition_tree cd]
  | DefConstraint ws => alternative "createDefinition" "constraintDeclaration" [node "tableConstraint" (words_trees ws)]
  | DefIndex ws => alternative "createDefinition" "indexDeclaration" [node "indexColumnDefinition" (words_trees ws)]
  end.

Definition statement_tree (s : statement) : ptree :=
  match s with
  | CreateDatabase db => node "createDatabase" [tok "CREATE" "CREATE"; tok "DATABASE" "DATABASE"; uid_tree db]
  | DropDatabase db => node "dropDatabase" [tok "DROP" "DROP"; tok "DATABASE" "DATABASE"; uid_tree db]
  | AlterDatabase db =>
      alternative "alterDatabase" "alterSimpleDatabase"
        [tok "ALTER" "ALTER"; tok "DATABASE" "DATABASE"; uid_tree db; node "createDatabaseOption" (words_trees ["CHARSET"; "utf8"])]
  | CreateTable t defs =>
      alternative "createTable" "columnCreateTable"
        [tok "CREATE" "CREATE"; tok "TABLE" "TABLE"; tableName_tree t;
         node "createDefinitions" (tok "LR_BRACKET" "(" :: separated comma (define_tree <$> defs) ++ [tok "RR_BRACKET" ")"])]
  | CreateTableLike t like =>
      alternative "createTable" "copyCreateTable"
        [tok "CREATE" "CREATE"; tok "TABLE" "TABLE"; tableName_tree t; tok "LIKE" "LIKE"; tableName_tree like]
  | CreateTableAs t q =>
      alternative "createTable" "queryCreateTable"
        [tok "CREATE" "CREATE"; tok "TABLE" "TABLE"; tableName_tree t; tok "AS" "AS"; node "selectStatement" (words_trees q)]
  | DropTable t more =>
      node "dropTable" [tok "DROP" "DROP"; tok "TABLE" "TABLE"; node "tables" (separated comma (tableName_tree <$> t :: more))]
  | AlterTable t parts =>
      node "alterTable" ([tok "ALTER" "ALTER"; tok "TABLE" "TABLE"; tableName_tree t] ++ separated comma (part_tree <$> parts))
  | CreateIndex i t =>
      node "createIndex" [tok "CREATE" "CREATE"; tok "INDEX" "INDEX"; uid_tree i; tok "ON" "ON"; tableName_tree t;
                          node "indexColumnNames" (words_trees ["("; "c"; ")"])]
  | DropIndex i t => node "dropIndex" [tok "DROP" "DROP"; tok "INDEX" "INDEX"; uid_tree i; tok "ON" "ON"; tableName_tree t]
  | CreateView v q =>
      node "createView" [tok "CREATE" "CREATE"; tok "VIEW" "VIEW"; fullId_tree v; tok "AS" "AS"; node "selectStatement" (words_trees q)]
  | DropView v more => node "dropView" ([tok "DROP" "DROP"; tok "VIEW" "VIEW"] ++ separated comma (fullId_tree <$> v :: more))
  | TruncateTable t => node "truncateTable" [tok "TRUNCATE" "TRUNCATE"; tok "TABLE" "TABLE"; tableName_tree t]
  | OtherDDL r ws => node r (words_trees ws)
  end.

(** A script of statements. *)
Definition sqlStatement_tree (s : statement) : ptree := node "sqlStatement" [node "ddlStatement" [statement_tree s]].
Definition script_tree (ss : list statement) : ptree :=
  node "root" [node "sqlStatements" (ss ≫= λ s, [sqlStatement_tree s; tok "SEMI" ";"]); eof].

(** ** What they mean *)

Definition apply_constraint (col : parser_ColumnInfo) (c : constraint) : parser_ColumnInfo :=
  match c with
  | CNull not => mkParserColumn (pc_Name col) (pc_Type col) (negb not) (pc_DefaultValue col) (pc_AutoIncrement col)
  | CPrimaryKey => mkParserColumn (pc_Name col) (pc_Type col) false (pc_DefaultValue col) (pc_AutoIncrement col)
  | CAutoIncrement => mkParserColumn (pc_Name col) (pc_Type col) (pc_Nullable col) (pc_DefaultValue col) true
  | CDefault v => mkParserColumn (pc_Name col) (pc_Type col) (pc_Nullable col) (Some v) (pc_AutoIncrement col)
  | COther _ _ => col
  end.

Definition column_meaning (c : ident) (d : column_definition) : parser_ColumnInfo :=
  foldl apply_constraint (parser_column (id_name c) (foldr (λ w acc, w +:+ acc) "" (cdf_type d)) true) (cdf_constraints d).

(** The parts of an ALTER TABLE that change columns. *)
Definition part_meaning (p : alter_part) : list alter_spec :=
  match p with
  | AddColumn c d _ => [SpecAdd (column_meaning c d)]
  | AddColumns c d rest => (λ cd, SpecAdd (column_meaning cd.1 cd.2)) <$> (c, d) :: rest
  | DropColumn c => [SpecDrop (id_name c)]
  | ModifyColumn c d => [SpecModify (mkColumnModification (parser_column (id_name c) "" false) (column_meaning c d))]
  | ChangeColumn old new d => [SpecModify (mkColumnModification (parser_column (id_name old) "" false) (column_meaning new d))]
  | OtherPart _ _ => []
  end.

Definition definition_columns (d : definition) : option parser_ColumnInfo :=
  match d with DefColumn c cd => Some (column_meaning c cd) | _ => None end.

(** The result for a statement that the visitor knows; [None] for the one on which it
    panics. *)
Definition statement_meaning (ddl : string) (s : statement) : option ParsedDDL :=
  match s with
  | CreateDatabase db => Some (with_database (id_name db) (ddl_result DDLTypeCreateDatabase ddl))
  | DropDatabase db => Some (with_database (id_name db) (ddl_result DDLTypeDropDatabase ddl))
  | AlterDatabase _ => None
  | CreateTable t defs =>
      let '(db, table) := qname_names t in
      Some (with_changes (create_changes db table (omap definition_columns defs)) (with_names (db, table) (ddl_result DDLTypeCreateTable ddl)))
  | CreateTableLike t _ | CreateTableAs t _ => Some (with_names (qname_names t) (ddl_result DDLTypeCreateTable ddl))
  | DropTable t _ => Some (with_names (qname_names t) (ddl_result DDLTypeDropTable ddl))
  | AlterTable t parts =>
      let ch := alter_changes (parts ≫= part_meaning) in
      Some (with_changes (changes_of (qname_names t) ch) (with_names (qname_names t) (ddl_result DDLTypeAlterTable ddl)))
  | CreateIndex i t => Some (index_on (qname_names t) (with_index (Some (new_index (id_name i) "create")) (ddl_result DDLTypeCreateIndex ddl)))
  | DropIndex i t => Some (index_on (qname_names t) (with_index (Some (new_index (id_name i) "drop")) (ddl_result DDLTypeDropIndex ddl)))
  | CreateView v _ => Some (with_names (qname_names v) (ddl_result DDLTypeCreateView ddl))
  | DropView v _ => Some (with_names (qname_names v) (ddl_result DDLTypeDropView ddl))
  | TruncateTable t => Some (with_names (qname_names t) (ddl_result DDLTypeTruncate ddl))
  | OtherDDL _ _ => Some (ddl_result DDLTypeUnknown ddl)
  end.

Definition handled_constraints : list string :=
  ["nullColumnConstraint"; "primaryKeyColumnConstraint"; "autoIncrementColumnConstraint"; "defaultColumnConstraint"].
Definition handled_parts : list string :=
  ["alterByChangeColumn"; "alterByAddColumn"; "alterByAddColumns"; "alterByDropColumn"; "alterByModifyColumn"].
Definition handled_statements : list string :=
  ["createDatabase"; "dropDatabase"; "alterDatabase"; "createTable"; "dropTable"; "alterTable"; "createIndex"; "dropIndex";
   "createView"; "dropView"; "truncateTable"].

Definition good_constraint (c : constraint) : Prop :=
  match c with CDefault v => v ≠ "" | COther alt _ => alt ∉ handled_constraints | _ => True end.
Definition good_column (c : ident) (d : column_definition) : Prop := good_ident c ∧ Forall good_constraint (cdf_constraints d).

(** Several columns in one part are left out: see [mysql_add_columns]. *)
Definition good_part (p : alter_part) : Prop :=
  match p with
  | AddColumn c d _ | ModifyColumn c d => good_column c d
  | AddColumns _ _ _ => False
  | DropColumn c => good_ident c
  | ChangeColumn old new d => good_ident old ∧ good_column new d
  | OtherPart alt _ => alt ∉ handled_parts
  end.
Definition good_define (d : definition) : Prop := match d with DefColumn c cd => good_column c cd | _ => True end.

Definition good_statement (s : statement) : Prop :=
  match s with
  | CreateDatabase db | DropDatabase db | AlterDatabase db => good_ident db
  | CreateTable t defs => good_qname t ∧ Forall good_define defs
  | CreateTableLike t _ | CreateTableAs t _ | DropTable t _ | TruncateTable t | CreateView t _ | DropView t _ => good_qname t
  | AlterTable t parts => good_qname t ∧ Forall good_part parts
  | CreateIndex i t | DropIndex i t => good_ident i ∧ good_qname t
  | OtherDDL r _ => r ∉ handled_statements
  end.

(** *** Names *)

Lemma no_backquote_char s : all_chars (λ c, negb (is_backquote c)) s = true → has_char backquote s = false.
Proof.
  induction s as [|x s IH]; [done|]. unfold all_chars. cbn. intros [Hx Hs]%andb_true_iff. unfold is_backquote in Hx.
  apply negb_true_iff in Hx. rewrite Hx. by apply IH.
Qed.

Lemma uid_text i : GetText (uid_tree i) = ident_text i.
Proof. unfold uid_tree, node, tok. cbn. by rewrite !string_app_nil_r. Qed.

Lemma extractUidText_ok i : good_ident i → extractUidText (uid_tree i) = id_name i.
Proof.
  intros [Hi _]. unfold extractUidText. rewrite uid_text. unfold ident_text. destruct (id_quoted i).
  - by apply (strings_Trim_around is_backquote "`" (id_name i) "`").
  - by apply strings_Trim_none.
Qed.

Lemma remove_backquote i : good_ident i → remove_char backquote (ident_text i) = id_name i.
Proof.
  intros [Hi _]. pose proof (remove_char_none _ _ (no_backquote_char _ Hi)) as Hr. unfold ident_text. destruct (id_quoted i); [|done].
  rewrite !remove_char_app, Hr. change (remove_char backquote "`") with "". by rewrite string_app_nil_l, string_app_nil_r.
Qed.

Lemma fullId_text n :
  GetText (fullId_tree n) = match qn_database n with Some d => ident_text d +:+ "." +:+ ident_text (qn_table n) | None => ident_text (qn_table n) end.
Proof.
  unfold fullId_tree, node. rewrite GetText_rule. destruct (qn_database n); rewrite !texts_cons, !uid_text; cbn; by rewrite string_app_nil_r.
Qed.

Lemma fullId_ok n : good_qname n → my_extractTableName (fullId_tree n) = qname_names n.
Proof.
  intros [Ht Hd]. unfold my_extractTableName, qname_names. rewrite fullId_text. destruct (qn_database n) as [d|]; cbn.
  - destruct Hd as [Hg Hn]. rewrite !remove_char_app, !remove_backquote by done. change (remove_char backquote ".") with ".". by apply split_name_dot.
  - rewrite remove_backquote by done. by apply split_name_none.
Qed.

Lemma tableName_ok n : good_qname n → my_extractTableName (tableName_tree n) = qname_names n.
Proof.
  intros Hn. rewrite <- fullId_ok by done. unfold my_extractTableName, tableName_tree, node. rewrite GetText_rule, texts_cons. cbn [texts foldr].
  by rewrite string_app_nil_r.
Qed.

(** *** Columns *)

Lemma processColumnConstraint_ok col c : good_constraint c → processColumnConstraint col (constraint_tree c) = apply_constraint col c.
Proof.
  destruct c as [[]| | |v|alt ws]; intros Hg; try done.
  - unfold processColumnConstraint, constraint_tree, alternative, apply_constraint. rewrite GetText_rule.
    assert (texts [tok "DEFAULT" "DEFAULT"; node "defaultValue" [tok "WORD" v]] = "DEFAULT" +:+ v) as ->.
    { unfold node, tok. rewrite !texts_cons, GetText_rule, texts_cons. cbn [GetText texts foldr]. by rewrite !string_app_nil_r. }
    change 7%nat with (String.length "DEFAULT"). rewrite text_from_app, string_length_app.
    assert ((String.length "DEFAULT" <? String.length "DEFAULT" + String.length v)%nat = true) as ->; [|done].
    apply Nat.ltb_lt. destruct v; [done|]. cbn. lia.
  - unfold processColumnConstraint, constraint_tree, alternative. cbn [is_alt].
    rewrite !bool_decide_eq_false_2; [done|..]; intros ->; apply Hg; unfold handled_constraints; set_solver.
Qed.

Lemma constraints_ok cs : ∀ col, Forall good_constraint cs → foldl processColumnConstraint col (constraint_tree <$> cs) = foldl apply_constraint col cs.
Proof.
  induction cs as [|c cs IH]; intros col Hg; [done|]. apply Forall_cons in Hg as [Hc Hg]. cbn [fmap list_fmap foldl].
  rewrite processColumnConstraint_ok by done. by apply IH.
Qed.

Lemma definition_children d :
  child "dataType" (definition_tree d) = Some (node "dataType" (words_trees (cdf_type d))) ∧
  all_children "columnConstraint" (definition_tree d) = constraint_tree <$> cdf_constraints d.
Proof.
  unfold child, all_children, definition_tree. cbn [children_of node]. split; [done|].
  rewrite filter_cons_False by done. apply filter_rule_all. by intros [[]| | | |].
Qed.

(** A node whose first definition is that of a column. *)
Lemma column_of_ok c d ctx :
  good_column c d → child "columnDefinition" ctx = Some (definition_tree d) → column_of (id_name c) ctx = column_meaning c d.
Proof.
  intros [_ Hc] Hch. unfold column_of, extractColumnInfo, column_meaning. rewrite Hch.
  destruct (definition_children d) as [-> ->]. unfold node. rewrite GetText_rule, words_text. by apply constraints_ok.
Qed.

Lemma column_meaning_name c d : pc_Name (column_meaning c d) = id_name c.
Proof.
  unfold column_meaning. set (col := parser_column _ _ _). change (id_name c) with (pc_Name col). clearbody col.
  revert col. induction (cdf_constraints d) as [|x cs IH]; intros col; [done|]. cbn. rewrite IH. by destruct x.
Qed.

(** *** ALTER TABLE *)

Lemma collect_alter_ok p ch : good_part p → collect_alter ch (part_tree p) = add_specs ch (part_meaning p).
Proof.
  unfold collect_alter. destruct p as [c d after|c d rest|c|c d|old new d|alt ws]; intros Hg; [|done|..].
  - change (accept_alter (part_tree (AddColumn c d after))) with (Some (VisitAlterByAddColumn (part_tree (AddColumn c d after)))).
    unfold VisitAlterByAddColumn. change (child "uid" (part_tree (AddColumn c d after))) with (Some (uid_tree c)). cbv beta iota zeta.
    rewrite extractUidText_ok by apply Hg. by rewrite (column_of_ok c d).
  - change (accept_alter (part_tree (DropColumn c))) with (Some (mkAlterResult None (extractUidText (uid_tree c)) None)). cbv beta iota zeta.
    rewrite extractUidText_ok by done. cbn. rewrite bool_decide_eq_true_2 by apply Hg. done.
  - change (accept_alter (part_tree (ModifyColumn c d))) with (Some (VisitAlterByModifyColumn (part_tree (ModifyColumn c d)))).
    unfold VisitAlterByModifyColumn. change (child "uid" (part_tree (ModifyColumn c d))) with (Some (uid_tree c)). cbv beta iota zeta.
    rewrite extractUidText_ok by apply Hg. rewrite (column_of_ok c d) by done.
    by rewrite column_meaning_name.
  - change (accept_alter (part_tree (ChangeColumn old new d))) with (Some (VisitAlterByChangeColumn (part_tree (ChangeColumn old new d)))).
    unfold VisitAlterByChangeColumn. change (all_children "uid" (part_tree (ChangeColumn old new d))) with [uid_tree old; uid_tree new]. cbv beta iota zeta.
    destruct Hg as [Ho Hn]. rewrite !extractUidText_ok by (done || apply Hn). by rewrite (column_of_ok new d).
  - assert (accept_alter (part_tree (OtherPart alt ws)) = None) as ->; [|done]. unfold accept_alter, part_tree, alternative. cbn [is_alt].
    rewrite !bool_decide_eq_false_2; [done|..]; intros ->; apply Hg; unfold handled_parts; set_solver.
Qed.

Lemma collect_parts_ok parts : ∀ ch,
  Forall good_part parts → foldl collect_alter ch (part_tree <$> parts) = add_specs ch (parts ≫= part_meaning).
Proof.
  induction parts as [|p parts IH]; intros ch Hg; [done|]. apply Forall_cons in Hg as [Hp Hg]. cbn [fmap list_fmap foldl mbind list_bind].
  rewrite add_specs_app, collect_alter_ok by done. by apply IH.
Qed.

Lemma part_is_spec p : is_rule "alterSpecification" (part_tree p) = true.
Proof. by destruct p. Qed.
Lemma define_is_definition d : is_rule "createDefinition" (define_tree d) = true.
Proof. by destruct d. Qed.

Lemma alter_children t parts :
  child "tableName" (statement_tree (AlterTable t parts)) = Some (tableName_tree t) ∧
  all_children "alterSpecification" (statement_tree (AlterTable t parts)) = part_tree <$> parts.
Proof.
  unfold child, all_children, statement_tree. cbn [children_of node app]. split; [done|].
  rewrite !filter_cons_False by done. rewrite filter_separated by done. apply filter_rule_all, part_is_spec.
Qed.

Lemma extractColumns_ok defs ctx :
  Forall good_define defs → all_children "createDefinition" ctx = define_tree <$> defs →
  extractColumns ctx = omap definition_columns defs.
Proof.
  intros Hg Hc. unfold extractColumns. rewrite Hc. clear Hc. induction Hg as [|d defs Hd _ IH]; [done|].
  destruct d as [c cd|ws|ws]; [|exact IH..]. cbn [fmap list_fmap]. cbn [omap list_omap definition_columns].
  change (accept_definition (define_tree (DefColumn c cd))) with (Some (VisitColumnDeclaration (define_tree (DefColumn c cd)))). cbv beta iota.
  unfold VisitColumnDeclaration. change (child "fullColumnName" (define_tree (DefColumn c cd))) with (Some (node "fullColumnName" [uid_tree c])). cbv beta iota.
  assert (strings_Trim is_backquote (GetText (node "fullColumnName" [uid_tree c])) = id_name c) as ->.
  { rewrite <- extractUidText_ok by apply Hd. unfold extractUidText, node. rewrite GetText_rule, texts_cons. cbn [texts foldr]. by rewrite string_app_nil_r. }
  rewrite (column_of_ok c cd) by done.
  rewrite filter_cons_True; [f_equal; exact IH|]. rewrite column_meaning_name. apply Hd.
Qed.

(** *** Statements *)

(** The result for a statement. *)
Definition meant (ddl : string) (s : statement) : result (option ParsedDDL) :=
  match statement_meaning ddl s with Some r => Ok (Some r) | None => Err (Panic "interface conversion") end.

Lemma child_other r r' cs : r ≠ r' → child r (node "ddlStatement" [node r' cs]) = None.
Proof. intros Hne. unfold child, all_children. cbn [children_of node]. rewrite filter_cons_False; [done|]. cbn. by rewrite bool_decide_eq_false_2. Qed.

Lemma visitDdlStatement_ok ddl s :
  good_statement s → visitDdlStatement ddl (node "ddlStatement" [statement_tree s]) = meant ddl s.
Proof.
  destruct s as [db|db|db|t defs|t like|t q|t more|t parts|i t|i t|v q|v more|t|r ws]; cbn [good_statement]; intros Hg.
  - change (visitDdlStatement ddl _) with (Ok (Some (with_database (extractUidText (uid_tree db)) (ddl_result DDLTypeCreateDatabase ddl)))).
    by rewrite extractUidText_ok.
  - change (visitDdlStatement ddl _) with (Ok (Some (with_database (extractUidText (uid_tree db)) (ddl_result DDLTypeDropDatabase ddl)))).
    by rewrite extractUidText_ok.
  - done.
  - destruct Hg as [Ht Hd]. change (visitDdlStatement ddl _) with (Ok (Some (VisitColumnCreateTable ddl (statement_tree (CreateTable t defs))))).
    unfold VisitColumnCreateTable. change (child "tableName" (statement_tree (CreateTable t defs))) with (Some (tableName_tree t)).
    cbn [set_names]. rewrite tableName_ok by done. set (cds := child "createDefinitions" _).
    assert (Hc : from_option extractColumns [] cds = omap definition_columns defs).
    { subst cds. match goal with |- from_option _ _ (child _ ?t) = _ => change (child "createDefinitions" t) with
        (Some (node "createDefinitions" (tok "LR_BRACKET" "(" :: separated comma (define_tree <$> defs) ++ [tok "RR_BRACKET" ")"]))) end.
      apply extractColumns_ok; [done|]. unfold all_children. cbn [children_of node]. rewrite filter_cons_False by done.
      rewrite filter_app, filter_separated by done. rewrite (filter_cons_False _ (tok _ _)) by done. rewrite filter_nil, app_nil_r.
      apply filter_rule_all, define_is_definition. }
    rewrite Hc. unfold meant. cbn [statement_meaning]. by destruct (qname_names t).
  - change (visitDdlStatement ddl _) with (Ok (Some (with_names (my_extractTableName (tableName_tree t)) (ddl_result DDLTypeCreateTable ddl)))).
    by rewrite tableName_ok.
  - change (visitDdlStatement ddl _) with (Ok (Some (with_names (my_extractTableName (tableName_tree t)) (ddl_result DDLTypeCreateTable ddl)))).
    by rewrite tableName_ok.
  - assert (Hv : visitDdlStatement ddl (node "ddlStatement" [statement_tree (DropTable t more)]) =
      Ok (Some (with_names (my_extractTableName (tableName_tree t)) (ddl_result DDLTypeDropTable ddl)))) by (by destruct more).
    rewrite Hv. by rewrite tableName_ok.
  - destruct Hg as [Ht Hp]. change (visitDdlStatement ddl _) with (Ok (Some (VisitAlterTable ddl (statement_tree (AlterTable t parts))))).
    unfold VisitAlterTable. destruct (alter_children t parts) as [-> ->]. rewrite tableName_ok, collect_parts_ok by done.
    rewrite add_specs_changes. done.
  - destruct Hg as [Hi Ht].
    change (visitDdlStatement ddl _) with (Ok (Some (index_on (my_extractTableName (tableName_tree t))
      (with_index (Some (new_index (extractUidText (uid_tree i)) "create")) (ddl_result DDLTypeCreateIndex ddl))))).
    by rewrite tableName_ok, extractUidText_ok.
  - destruct Hg as [Hi Ht].
    change (visitDdlStatement ddl _) with (Ok (Some (index_on (my_extractTableName (tableName_tree t))
      (with_index (Some (new_index (extractUidText (uid_tree i)) "drop")) (ddl_result DDLTypeDropIndex ddl))))).
    by rewrite tableName_ok, extractUidText_ok.
  - change (visitDdlStatement ddl _) with (Ok (Some (with_names (my_extractTableName (fullId_tree v)) (ddl_result DDLTypeCreateView ddl)))).
    by rewrite fullId_ok.
  - assert (Hv : visitDdlStatement ddl (node "ddlStatement" [statement_tree (DropView v more)]) =
      Ok (Some (with_names (my_extractTableName (fullId_tree v)) (ddl_result DDLTypeDropView ddl)))) by (by destruct more).
    rewrite Hv. by rewrite fullId_ok.
  - change (visitDdlStatement ddl _) with (Ok (Some (with_names (my_extractTableName (tableName_tree t)) (ddl_result DDLTypeTruncate ddl)))).
    by rewrite tableName_ok.
  - unfold visitDdlStatement, asserted. cbn [first_case statement_tree].
    rewrite !child_other; [done|..]; intros <-; apply Hg; unfold handled_statements; set_solver.
Qed.

(** *** Scripts *)

Lemma script_children ss :
  all_children "sqlStatement" (node "sqlStatements" (ss ≫= λ s, [sqlStatement_tree s; tok "SEMI" ";"])) = sqlStatement_tree <$> ss.
Proof.
  unfold all_children. cbn [children_of node]. induction ss as [|s ss IH]; [done|]. cbn [mbind list_bind app].
  rewrite filter_cons_True by done. rewrite filter_cons_False by done. cbn [fmap list_fmap]. f_equal. exact IH.
Qed.

Lemma map_result_omap {A B} (f : A → result (option B)) (g : A → option B) l :
  (∀ a, a ∈ l → f a = match g a with Some b => Ok (Some b) | None => Err (Panic "interface conversion") end) →
  (rs ← map_result f l; Ok (found rs)) = match mapM g l with Some bs => Ok bs | None => Err (Panic "interface conversion") end.
Proof.
  induction l as [|a l IH]; intros H; [done|]. cbn [map_result mapM]. rewrite (H a) by left. destruct (g a) as [b|]; [|done].
  cbn [mbind result_bind option_bind]. assert (Hl : ∀ a, a ∈ l → f a = match g a with Some b => Ok (Some b) | None => Err (Panic "interface conversion") end)
    by (intros; apply H; by right). specialize (IH Hl). change (mapM_go _ _ _) with (mapM g l) || idtac.
  destruct (map_result f l) as [rs|e], (mapM g l) as [bs|]; cbn in *; simplify_eq; done.
Qed.

Lemma map_result_fmap {A B C} (f : B → result C) (g : A → B) l : map_result f (g <$> l) = map_result (λ a, f (g a)) l.
Proof. induction l as [|a l IH]; [done|]. cbn. destruct (f (g a)); [|done]. cbn. by rewrite <- IH. Qed.

Lemma parse_script tree ddl ss :
  tree ddl = script_tree ss → ss ≠ [] → Forall good_statement ss →
  mysql_Parse tree ddl =
    match mapM (statement_meaning (GetText (script_tree ss))) ss with
    | Some rs => Ok rs
    | None => Err (Panic "interface conversion")
    end.
Proof.
  intros Ht Hne Hg. unfold mysql_Parse, VisitRoot. rewrite Ht.
  set (block := node "sqlStatements" (ss ≫= λ s, [sqlStatement_tree s; tok "SEMI" ";"])).
  change (typed_child "sqlStatements" (script_tree ss)) with (Ok (Some block)). cbn [mbind result_bind].
  unfold VisitSqlStatements. subst block. rewrite script_children. set (text := GetText (script_tree ss)). clearbody text. clear Ht.
  assert (Hall : (rs ← map_result (λ s, as_context "sqlStatement" s ≫= VisitSqlStatement text) (sqlStatement_tree <$> ss); Ok (found rs)) =
    match mapM (statement_meaning text) ss with Some rs => Ok rs | None => Err (Panic "interface conversion") end).
  { rewrite map_result_fmap. apply map_result_omap. intros s Hs. rewrite Forall_forall in Hg.
    change (as_context "sqlStatement" (sqlStatement_tree s) ≫= VisitSqlStatement text) with
      (visitDdlStatement text (node "ddlStatement" [statement_tree s])). apply visitDdlStatement_ok. by apply Hg. }
  rewrite Hall. destruct (mapM (statement_meaning text) ss) as [rs|] eqn:E; [|done]. cbn.
  apply mapM_Some_1 in E. destruct E; done.
Qed.


(** *** What becomes of a table *)

(** An ALTER TABLE whose parts name different columns does to the columns what its parts do,
    one after the other, and leaves the primary key as it was. *)
Theorem mysql_alter_applied tree ddl t parts old :
  tree ddl = script_tree [AlterTable t parts] → good_qname t → Forall good_part parts →
  independent MySQLDialect (parts ≫= part_meaning) →
  ∃ r, ApplyDDL_of MySQLDialect (mysql_Parse tree) (Some old) ddl = Ok (Some r) ∧ (pd_Database r, pd_Table r) = qname_names t ∧
    pd_NewTableInfo r =
      Some (mkTableInfo (ti_Database old) (ti_Schema old) (ti_Table old) (ti_PrimaryKeyColumns old) (ti_UniqueKeyColumns old)
              (foldl (apply_spec MySQLDialect) (ti_Columns old) (parts ≫= part_meaning))).
Proof.
  intros Ht Hn Hp Hi. unfold ApplyDDL_of. rewrite (parse_script tree ddl [AlterTable t parts]); [|done|done|apply Forall_singleton; by split].
  cbn [mapM statement_meaning mbind option_bind mret option_ret]. rewrite <- alter_columns_in_order by done.
  eexists. split; [reflexivity|]. split; [by destruct (qname_names t)|reflexivity].
Qed.

(** A CREATE TABLE gives a definition with the columns as they are written, in their order,
    whatever stands between them; it has no primary key, although one may be written. *)
Theorem mysql_create_applied tree ddl t defs old :
  tree ddl = script_tree [CreateTable t defs] → good_qname t → Forall good_define defs →
  ∃ r, ApplyDDL_of MySQLDialect (mysql_Parse tree) old ddl = Ok (Some r) ∧
    pd_NewTableInfo r =
      Some (mkTableInfo (qname_names t).1 "" (qname_names t).2 [] [] (convertToEventColumn MySQLDialect <$> omap definition_columns defs)).
Proof.
  intros Ht Hn Hd. unfold ApplyDDL_of. rewrite (parse_script tree ddl [CreateTable t defs]); [|done|done|apply Forall_singleton; by split].
  eexists. split; reflexivity.
Qed.

(** Of several columns that one part adds the first is added, and its type is the text of
    its definition. *)
Theorem mysql_add_columns c d rest ch :
  good_ident c →
  collect_alter ch (part_tree (AddColumns c d rest)) = add_column (parser_column (id_name c) (GetText (definition_tree d)) true) ch.
Proof.
  intros Hc. unfold collect_alter.
  change (accept_alter (part_tree (AddColumns c d rest))) with
    (Some (mkAlterResult (Some (parser_column (extractUidText (uid_tree c)) (GetText (definition_tree d)) true)) "" None)).
  cbv beta iota zeta. by rewrite extractUidText_ok.
Qed.

Module MySQLVisitorRuns.
Definition plain (s : string) : ident := mkIdent false s.
Definition quoted (s : string) : ident := mkIdent true s.
Definition orders : qname := mkQname (Some (quoted "shop")) (quoted "orders").
Definition def (t : list string) (cs : list constraint) : column_definition := mkColumnDefinition t cs.
Definition id_column : definition := DefColumn (quoted "id") (def ["INT"] [CNull true; CAutoIncrement; CPrimaryKey]).
Definition name_column : definition :=
  DefColumn (plain "name") (def ["VARCHAR"; "("; "20"; ")"] [CDefault "'x'"; COther "commentColumnConstraint" ["COMMENT"; "'n'"]]).
Definition create : statement := CreateTable orders [id_column; name_column; DefConstraint ["PRIMARY"; "KEY"; "("; "id"; ")"]].
Definition alter : statement :=
  AlterTable (mkQname None (plain "orders"))
    [AddColumn (plain "total") (def ["DECIMAL"; "("; "10"; ","; "2"; ")"] [CNull true]) (Some (plain "id"));
     DropColumn (quoted "name"); OtherPart "alterByRenameColumn" ["RENAME"; "COLUMN"; "id"; "TO"; "key"]].
Definition script : list statement := [create; alter; DropTable orders []; AlterDatabase (plain "shop")].

Lemma good_script : Forall good_statement script.
Proof. repeat constructor; try done; unfold handled_constraints, handled_parts; set_solver. Qed.


Definition old_orders : TableInfo :=
  mkTableInfo "shop" "" "orders" ["id"] [] [mkColumnInfo "id" "INT" false 0 0; mkColumnInfo "name" "VARCHAR" true 20 0].

(** The column added takes its place at the end, not after the one named, and the
    renaming is not done. *)
Example alter_orders :
  (λ r, r ≫= pd_NewTableInfo) <$> (λ x, match x with Ok r => Some r | Err _ => None end)
     (ApplyDDL_of MySQLDialect (mysql_Parse (λ _, script_tree [alter])) (Some old_orders) "x") =
  Some (Some (mkTableInfo "shop" "" "orders" ["id"] [] [mkColumnInfo "id" "INT" false 0 0; mkColumnInfo "total" "DECIMAL" false 10 2])).
Proof. reflexivity. Qed.

Lemma mysql_alter_applied_witness :
  ∃ r, ApplyDDL_of MySQLDialect (mysql_Parse (λ _, script_tree [alter])) (Some old_orders) "x" = Ok (Some r) ∧
    pd_NewTableInfo r =
    Some (mkTableInfo "shop" "" "orders" ["id"] [] [mkColumnInfo "id" "INT" false 0 0; mkColumnInfo "total" "DECIMAL" false 10 2]).
Proof.
  destruct (mysql_alter_applied (λ _, script_tree [alter]) "x" (mkQname None (plain "orders"))
    [AddColumn (plain "total") (def ["DECIMAL"; "("; "10"; ","; "2"; ")"] [CNull true]) (Some (plain "id"));
     DropColumn (quoted "name"); OtherPart "alterByRenameColumn" ["RENAME"; "COLUMN"; "id"; "TO"; "key"]] old_orders) as (r & Hr & _ & Hi).
  - reflexivity.
  - done.
  - repeat constructor; try done; unfold handled_parts; set_solver.
  - repeat constructor; set_solver.
  - exists r. split; [exact Hr|exact Hi].
Defined.

(** The text of the statement that a result keeps has no blanks, and ends with the name
    of the end of the input. *)
Example statement_kept :
  mysql_Parse (λ _, script_tree [TruncateTable orders]) "TRUNCATE TABLE `shop`.`orders`;" =
  Ok [mkParsedDDL "truncate_table" "shop" "orders" "TRUNCATETABLE`shop`.`orders`;<EOF>" None None None].
Proof. reflexivity. Qed.

(** The length of a type is lost behind the name of its character set. *)
Example charset_hides_length :
  parseTypeString MySQLDialect (GetText (node "dataType" (words_trees ["VARCHAR"; "("; "20"; ")"; "CHARACTER"; "SET"; "utf8"]))) = ("VARCHAR", 0, 0).
Proof. reflexivity. Qed.
End MySQLVisitorRuns.
