(* ===== verification/OracleVisitor.v ===== *)
(** The visitor of Oracle parse trees (pkg/parser/oracle/visitor.go) and [Parse]
    (oracle_parser.go).  The rules of the grammar that it visits have no named alternatives,
    so that the assertions of their types hold. *)
From Stdlib Require Import ZArith Lia Ascii.
From Stdlib Require String.
From stdpp Require Import prelude countable gmap strings list fin_maps pretty.
From S2P Require Import Prelude Events Strings TableLifecycle Scope Filters BinlogConsumer DDLApply OracleDML ParseTree.
Local Open Scope Z_scope.

Definition is_dquote (c : ascii) : bool := bool_decide (c = dquote).

(** ** Names *)

Definition unquoted (t : ptree) : string := strings_Trim is_dquote (GetText t).
Definition extractTableviewName (t : ptree) : string * string := split_name (remove_char dquote (GetText t)).

(** The table of a rule, where it is named. *)
Definition set_tableview (c : option ptree) (r : ParsedDDL) : ParsedDDL :=
  match c with Some t => with_names (extractTableviewName t) r | None => r end.

Definition ora_extractColumnName (text keyword : string) : string :=
  word_behind is_dquote ["COLUMN"; "ADD"; "DROP"; "MODIFY"; "SET"; "TYPE"] text keyword.

(** ** ALTER TABLE *)

(** [extractColumnFromDefinition] and [extractColumnFromModifyProps]: neither reads the
    constraints. *)
Definition extractColumnFromDefinition (ctx : ptree) : option parser_ColumnInfo :=
  let name := from_option unquoted "" (child "column_name" ctx) in
  if bool_decide (name = "") then None
  else Some (parser_column name (from_option GetText "" (child "datatype" ctx)) true).
Definition extractColumnFromModifyProps (ctx : ptree) : option parser_ColumnInfo :=
  let name := from_option unquoted "" (child "column_name" ctx) in
  if bool_decide (name = "") then None
  else Some (parser_column name (from_option GetText "" (child "datatype" ctx)) true).

Definition processAddColumn (ch : TableChanges) (ctx : ptree) : TableChanges :=
  foldl (λ ch d, match extractColumnFromDefinition d with Some c => add_column c ch | None => ch end) ch (all_children "column_definition" ctx).

Definition processDropColumn (ch : TableChanges) (ctx : ptree) : TableChanges :=
  foldl (λ ch n, let name := unquoted n in if bool_decide (name = "") then ch else drop_named name ch) ch (all_children "column_name" ctx).

Definition processModifyColumn (ch : TableChanges) (ctx : ptree) : TableChanges :=
  foldl (λ ch p, match extractColumnFromModifyProps p with
                 | Some c => modify_named (mkColumnModification (parser_column (pc_Name c) "" false) c) ch
                 | None => ch
                 end) ch (all_children "modify_col_properties" ctx).

Definition process_rename (ctx : ptree) (ch : TableChanges) : TableChanges :=
  let oldName := from_option unquoted "" (child "old_column_name" ctx) in
  let newName := from_option unquoted "" (child "new_column_name" ctx) in
  if bool_decide (oldName ≠ "") && bool_decide (newName ≠ "")
  then modify_named (mkColumnModification (parser_column oldName "" false) (parser_column newName "" false)) ch else ch.

Definition processColumnClauses (ctx : ptree) (ch : TableChanges) : TableChanges :=
  let ch := match child "add_modify_drop_column_clauses" ctx with
            | Some amd =>
                let ch := foldl processAddColumn ch (all_children "add_column_clause" amd) in
                let ch := foldl processDropColumn ch (all_children "drop_column_clause" amd) in
                foldl processModifyColumn ch (all_children "modify_column_clauses" amd)
            | None => ch
            end in
  match child "rename_column_clause" ctx with Some r => process_rename r ch | None => ch end.

Definition processAlterProperties (ctx : ptree) (ch : TableChanges) : TableChanges :=
  let text := GetText ctx in
  let upper := strings_ToUpper text in
  let named (keyword : string) (f : string → TableChanges → TableChanges) (ch : TableChanges) :=
    let col := ora_extractColumnName text keyword in
    if bool_decide (col ≠ "") then f col ch else ch in
  let ch := if strings_Contains upper "ADD" then named "ADD" (λ c, add_column (parser_column c "" true)) ch else ch in
  let ch := if strings_Contains upper "DROPCOLUMN" || strings_Contains upper "DROP COLUMN" then named "COLUMN" drop_named ch else ch in
  if strings_Contains upper "MODIFY"
  then named "MODIFY" (λ c, modify_named (mkColumnModification (parser_column c "" false) (parser_column c "" false))) ch else ch.

Section Visitor.
Context (ddl : string).

Definition VisitAlter_table (ctx : ptree) : ParsedDDL :=
  let r := ddl_result DDLTypeAlterTable ddl in
  let '(r, ch) := match child "tableview_name" ctx with
                  | Some t => (with_names (extractTableviewName t) r, changes_of (extractTableviewName t) no_changes)
                  | None => (r, no_changes)
                  end in
  let ch := match child "alter_table_properties" ctx with Some p => processAlterProperties p ch | None => ch end in
  let ch := match child "column_clauses" ctx with Some c => processColumnClauses c ch | None => ch end in
  with_changes ch r.

(** ** The other statements *)

(** The columns of a table that is created are not read. *)
Definition VisitCreate_table (ctx : ptree) : ParsedDDL :=
  let r := ddl_result DDLTypeCreateTable ddl in
  let r := with_names (from_option unquoted "" (child "schema_name" ctx), from_option unquoted "" (child "table_name" ctx)) r in
  let r := if bool_decide (pd_Table r = "") then set_tableview (child "tableview_name" ctx) r else r in
  with_changes (create_changes (pd_Database r) (pd_Table r) []) r.

Definition VisitDrop_table (ctx : ptree) : ParsedDDL := set_tableview (child_at 0 "tableview_name" ctx) (ddl_result DDLTypeDropTable ddl).
Definition VisitDrop_view (ctx : ptree) : ParsedDDL := set_tableview (child "tableview_name" ctx) (ddl_result DDLTypeDropView ddl).
Definition VisitTruncate_table (ctx : ptree) : ParsedDDL := set_tableview (child "tableview_name" ctx) (ddl_result DDLTypeTruncate ddl).

(** An index, which may be named with its schema. *)
Definition index_result (typ operation : string) (ctx : ptree) : ParsedDDL :=
  let r := ddl_result typ ddl in
  match child "index_name" ctx with
  | None => r
  | Some n =>
      match split_first "."%char (remove_char dquote (GetText n)) with
      | Some (schema, index) => with_index (Some (mkIndexChanges index "" schema operation)) (with_database schema r)
      | None => with_index (Some (new_index (remove_char dquote (GetText n)) operation)) r
      end
  end.

Definition VisitDrop_index (ctx : ptree) : ParsedDDL := index_result DDLTypeDropIndex "drop" ctx.

Definition VisitCreate_index (ctx : ptree) : ParsedDDL :=
  let r := index_result DDLTypeCreateIndex "create" ctx in
  match child "table_index_clause" ctx ≫= child "tableview_name" with
  | Some t => index_on (extractTableviewName t) r
  | None => r
  end.

Definition VisitUnit_statement (ctx : ptree) : option ParsedDDL :=
  first_rule
    [("create_table", Some ∘ VisitCreate_table); ("alter_table", Some ∘ VisitAlter_table); ("drop_table", Some ∘ VisitDrop_table);
     ("drop_index", Some ∘ VisitDrop_index); ("drop_view", Some ∘ VisitDrop_view); ("truncate_table", Some ∘ VisitTruncate_table);
     ("create_index", Some ∘ VisitCreate_index)]
    ctx None.
End Visitor.

(** The statement of every result is the text of the script. *)
Definition VisitSql_script (ctx : ptree) : list ParsedDDL := omap (VisitUnit_statement (GetText ctx)) (all_children "unit_statement" ctx).

Definition oracle_Parse (tree : string → ptree) (ddl : string) : result (list ParsedDDL) :=
  Ok (parse_results ddl (VisitSql_script (tree ddl))).

(** ** ALTER TABLE as it is written *)

(** A column, its type where one is written, and whether it is NOT NULL. *)
Record ora_column := mkOraColumn { oc_name : ident; oc_type : option (list string); oc_not_null : bool }.

Inductive ora_clause :=
  | OAdd (cols : list ora_column)
  | ODrop (cols : list ident)
  | OModify (cols : list ora_column)
  | OConstraint (words : list string).

Definition ora_text (i : ident) : string := quoted_text dquote dquote i.
Definition ora_id (i : ident) : ptree := node "identifier" [node "id_expression" [tok "ID" (ora_text i)]].
Definition ora_column_name (i : ident) : ptree := node "column_name" [ora_id i].
Definition tableview_tree (n : qname) : ptree :=
  node "tableview_name"
    (match qn_database n with
     | Some d => [ora_id d; tok "PERIOD" "."; node "id_expression" [tok "ID" (ora_text (qn_table n))]]
     | None => [ora_id (qn_table n)]
     end).

(** A column of an ADD or of a MODIFY: the rules differ in their name. *)
Definition ora_column_tree (rule : string) (c : ora_column) : ptree :=
  node rule
    (ora_column_name (oc_name c) ::
     match oc_type c with Some ws => [node "datatype" (words_trees ws)] | None => [] end ++
     if oc_not_null c then [node "inline_constraint" [tok "NOT" "NOT"; tok "NULL_" "NULL"]] else []).

Definition bracketed (cs : list ptree) : list ptree := tok "LEFT_PAREN" "(" :: separated comma cs ++ [tok "RIGHT_PAREN" ")"].

Definition clause_tree (c : ora_clause) : ptree :=
  match c with
  | OAdd cols => node "add_column_clause" (tok "ADD" "ADD" :: bracketed (ora_column_tree "column_definition" <$> cols))
  | ODrop cols => node "drop_column_clause" (tok "DROP" "DROP" :: bracketed (ora_column_name <$> cols))
  | OModify cols => node "modify_column_clauses" (tok "MODIFY" "MODIFY" :: bracketed (ora_column_tree "modify_col_properties" <$> cols))
  | OConstraint ws => node "constraint_clauses" (words_trees ws)
  end.

Definition ora_script (t : qname) (rest : ptree) : ptree :=
  node "sql_script" [node "unit_statement" [node "alter_table" [tok "ALTER" "ALTER"; tok "TABLE" "TABLE"; tableview_tree t; rest]]; eof].
Definition alter_columns_tree (cs : list ora_clause) : ptree :=
  node "column_clauses" [node "add_modify_drop_column_clauses" (clause_tree <$> cs)].
Definition rename_tree (old new : ident) : ptree :=
  node "column_clauses"
    [node "rename_column_clause" [tok "RENAME" "RENAME"; tok "COLUMN" "COLUMN"; node "old_column_name" [ora_column_name old]; tok "TO" "TO";
                                  node "new_column_name" [ora_column_name new]]].

(** What the parts mean; that a column is NOT NULL is not read. *)
Definition ora_column_meaning (c : ora_column) : parser_ColumnInfo :=
  parser_column (id_name (oc_name c)) (from_option (foldr (λ w acc, w +:+ acc) "") "" (oc_type c)) true.
Definition ora_modify (c : ora_column) : ColumnModification :=
  mkColumnModification (parser_column (id_name (oc_name c)) "" false) (ora_column_meaning c).
Definition clause_meaning (c : ora_clause) : list alter_spec :=
  match c with
  | OAdd cols => (λ c, SpecAdd (ora_column_meaning c)) <$> cols
  | ODrop cols => (λ i, SpecDrop (id_name i)) <$> cols
  | OModify cols => (λ c, SpecModify (ora_modify c)) <$> cols
  | OConstraint _ => []
  end.

Definition ora_good (i : ident) : Prop := good_name is_dquote i.
Definition good_clause (c : ora_clause) : Prop :=
  match c with
  | OAdd cols | OModify cols => Forall (λ c, ora_good (oc_name c)) cols
  | ODrop cols => Forall ora_good cols
  | OConstraint _ => True
  end.

(** *** Names *)

Lemma unquoted_node r t : unquoted (node r [t]) = unquoted t.
Proof. unfold unquoted, node. rewrite GetText_rule, texts_cons. cbn [texts foldr]. by rewrite string_app_nil_r. Qed.

Lemma unquoted_ok i : ora_good i → unquoted (ora_column_name i) = id_name i.
Proof. intros Hi. unfold ora_column_name, ora_id. rewrite !unquoted_node. unfold unquoted. cbn. by apply trim_ident. Qed.

Lemma tableview_text n : GetText (tableview_tree n) = quoted_names dquote dquote n.
Proof.
  unfold tableview_tree, quoted_names, ora_id, ora_text. destruct (qn_database n) as [d|]; cbn; by rewrite !string_app_nil_r.
Qed.

Lemma extractTableviewName_ok n : good_names is_dquote n → extractTableviewName (tableview_tree n) = qname_names n.
Proof.
  intros Hn. unfold extractTableviewName. rewrite tableview_text, <- remove_char_twice. by eapply (remove_quotes_names _ _ is_dquote).
Qed.

(** *** Columns *)

Lemma ora_column_ok r c :
  ora_good (oc_name c) →
  extractColumnFromDefinition (ora_column_tree r c) = Some (ora_column_meaning c) ∧
  extractColumnFromModifyProps (ora_column_tree r c) = Some (ora_column_meaning c).
Proof.
  intros Hc. assert (H : extractColumnFromDefinition (ora_column_tree r c) = Some (ora_column_meaning c)); [|done].
  unfold extractColumnFromDefinition. change (child "column_name" (ora_column_tree r c)) with (Some (ora_column_name (oc_name c))).
  cbn [from_option]. rewrite unquoted_ok by done. cbv zeta. rewrite bool_decide_eq_false_2 by apply Hc. unfold ora_column_meaning. do 2 f_equal.
  destruct c as [i [ws|] nn]; [|by destruct nn].
  change (child "datatype" (ora_column_tree r (mkOraColumn i (Some ws) nn))) with (Some (node "datatype" (words_trees ws))). cbn [from_option oc_type].
  unfold node. by rewrite GetText_rule, words_text.
Qed.

Lemma bracketed_children r t cs :
  is_rule r t = false → Forall (λ c, is_rule r c = true) cs → filter (λ c, is_rule r c = true) (t :: bracketed cs) = cs.
Proof.
  intros Ht Hcs. rewrite filter_cons_False by congruence. unfold bracketed. rewrite filter_cons_False by done. rewrite filter_app, filter_separated by done.
  rewrite filter_cons_False, filter_nil, app_nil_r by done. induction Hcs as [|c cs Hc _ IH]; [done|]. rewrite filter_cons_True by done. by rewrite IH.
Qed.

(** What a clause adds to the changes, whichever of the functions reads it. *)
Definition process_clause (c : ora_clause) : TableChanges → ptree → TableChanges :=
  match c with OAdd _ => processAddColumn | ODrop _ => processDropColumn | OModify _ => processModifyColumn | OConstraint _ => λ ch _, ch end.

Lemma clause_children c :
  match c with
  | OAdd cols => all_children "column_definition" (clause_tree c) = ora_column_tree "column_definition" <$> cols
  | ODrop cols => all_children "column_name" (clause_tree c) = ora_column_name <$> cols
  | OModify cols => all_children "modify_col_properties" (clause_tree c) = ora_column_tree "modify_col_properties" <$> cols
  | OConstraint _ => True
  end.
Proof. destruct c; [..|done]; unfold all_children; cbn [children_of clause_tree node]; (apply bracketed_children; [done|]); by apply Forall_fmap, Forall_true. Qed.

Lemma process_clause_ok c ch : good_clause c → process_clause c ch (clause_tree c) = add_specs ch (clause_meaning c).
Proof.
  intros Hg. pose proof (clause_children c) as Hc. destruct c as [cols|cols|cols|ws]; cbn [process_clause clause_meaning good_clause] in *; [..|done].
  - unfold processAddColumn. rewrite Hc. revert ch. induction Hg as [|x cols Hx _ IH]; intros ch; [done|]. cbn [fmap list_fmap foldl].
    destruct (ora_column_ok "column_definition" x Hx) as [-> _]. apply IH. apply (clause_children (OAdd cols)).
  - unfold processDropColumn. rewrite Hc. revert ch. induction Hg as [|x cols Hx _ IH]; intros ch; [done|]. cbn [fmap list_fmap foldl].
    rewrite unquoted_ok by done. cbv zeta. rewrite bool_decide_eq_false_2 by apply Hx. apply IH. apply (clause_children (ODrop cols)).
  - unfold processModifyColumn. rewrite Hc. revert ch. induction Hg as [|x cols Hx _ IH]; intros ch; [done|]. cbn [fmap list_fmap foldl].
    destruct (ora_column_ok "modify_col_properties" x Hx) as [_ ->]. apply IH. apply (clause_children (OModify cols)).
Qed.

(** *** Clauses *)

Definition adds (c : ora_clause) : bool := match c with OAdd _ => true | _ => false end.
Definition drops (c : ora_clause) : bool := match c with ODrop _ => true | _ => false end.
Definition modifies (c : ora_clause) : bool := match c with OModify _ => true | _ => false end.

Lemma clauses_of r (sel : ora_clause → bool) (cs : list ora_clause) :
  (∀ c, is_rule r (clause_tree c) = sel c) → filter (λ c, is_rule r c = true) (clause_tree <$> cs) = clause_tree <$> filter (λ c, sel c = true) cs.
Proof.
  intros H. induction cs as [|c cs IH]; [done|]. cbn [fmap list_fmap]. rewrite !filter_cons. destruct (sel c) eqn:E.
  - rewrite !decide_True by (rewrite ?H; done). cbn [fmap list_fmap]. by rewrite IH.
  - rewrite !decide_False by (rewrite ?H; congruence). apply IH.
Qed.

Lemma process_clauses (sel : ora_clause → bool) (f : TableChanges → ptree → TableChanges) (cs : list ora_clause) : ∀ ch,
  (∀ c, sel c = true → process_clause c = f) → Forall good_clause cs →
  foldl f ch (clause_tree <$> filter (λ c, sel c = true) cs) = add_specs ch (filter (λ c, sel c = true) cs ≫= clause_meaning).
Proof.
  intros ch Hf Hg. revert ch. induction Hg as [|c cs Hc _ IH]; intros ch; [done|]. rewrite filter_cons. destruct (sel c) eqn:E.
  - rewrite decide_True by done. cbn [fmap list_fmap foldl mbind list_bind]. rewrite <- (Hf c E), process_clause_ok by done.
    rewrite add_specs_app. rewrite (Hf c E). apply IH.
  - rewrite decide_False by congruence. apply IH.
Qed.

Lemma omap_kept {B} (f : alter_spec → option B) (sel : ora_clause → bool) (cs : list ora_clause) :
  (∀ c, sel c = false → omap f (clause_meaning c) = []) →
  omap f (filter (λ c, sel c = true) cs ≫= clause_meaning) = omap f (cs ≫= clause_meaning).
Proof.
  intros H. induction cs as [|c cs IH]; [done|]. rewrite filter_cons. cbn [mbind list_bind]. rewrite omap_app. destruct (sel c) eqn:E.
  - rewrite decide_True by done. cbn [mbind list_bind]. rewrite omap_app. f_equal. exact IH.
  - rewrite decide_False by congruence. rewrite (H c E). exact IH.
Qed.

Lemma omap_left_out {B} (f : alter_spec → option B) (sel : ora_clause → bool) (cs : list ora_clause) :
  (∀ c, sel c = true → omap f (clause_meaning c) = []) → omap f (filter (λ c, sel c = true) cs ≫= clause_meaning) = [].
Proof.
  intros H. induction cs as [|c cs IH]; [done|]. rewrite filter_cons. destruct (sel c) eqn:E; [|by rewrite decide_False by congruence].
  rewrite decide_True by done. cbn [mbind list_bind]. rewrite omap_app, (H c E). exact IH.
Qed.

(** The clauses by kind, as they are visited, and as they are written. *)
Lemma by_kind cs :
  alter_changes ((filter (λ c, adds c = true) cs ≫= clause_meaning) ++ (filter (λ c, drops c = true) cs ≫= clause_meaning) ++
                 (filter (λ c, modifies c = true) cs ≫= clause_meaning)) = alter_changes (cs ≫= clause_meaning).
Proof.
  assert (Hn : ∀ {A B} (g : A → alter_spec) (f : alter_spec → option B) l, (∀ a, f (g a) = None) → omap f (g <$> l) = []).
  { intros A B g f l H. induction l as [|a l IH]; [done|]. cbn. by rewrite H. }
  unfold alter_changes. f_equal; rewrite !omap_app.
  - rewrite (omap_kept _ adds), (omap_left_out _ drops), (omap_left_out _ modifies), !app_nil_r; [done|..]; intros [] Hc; try done; by apply Hn.
  - rewrite (omap_left_out _ adds), (omap_kept _ drops), (omap_left_out _ modifies), !app_nil_r; [done|..]; intros [] Hc; try done; by apply Hn.
  - rewrite (omap_left_out _ adds), (omap_left_out _ drops), (omap_kept _ modifies); [done|..]; intros [] Hc; try done; by apply Hn.
Qed.

Lemma processColumnClauses_ok cs ch :
  Forall good_clause cs →
  processColumnClauses (alter_columns_tree cs) ch =
  add_specs ch ((filter (λ c, adds c = true) cs ≫= clause_meaning) ++ (filter (λ c, drops c = true) cs ≫= clause_meaning) ++
                (filter (λ c, modifies c = true) cs ≫= clause_meaning)).
Proof.
  intros Hg. unfold processColumnClauses.
  change (child "add_modify_drop_column_clauses" (alter_columns_tree cs)) with (Some (node "add_modify_drop_column_clauses" (clause_tree <$> cs))).
  change (child "rename_column_clause" (alter_columns_tree cs)) with (@None ptree). cbv beta iota zeta. unfold all_children. cbn [children_of node].
  rewrite (clauses_of "add_column_clause" adds), (clauses_of "drop_column_clause" drops), (clauses_of "modify_column_clauses" modifies) by (by intros []).
  rewrite (process_clauses adds), (process_clauses drops), (process_clauses modifies) by (done || by intros []).
  by rewrite !add_specs_app.
Qed.

(** An ALTER TABLE with any mix of columns that are added, dropped and modified does to the
    columns what its clauses do, one after the other, when no column is named twice: that
    the visitor reads them by kind makes no difference. *)
Theorem oracle_alter_applied tree ddl t cs old :
  tree ddl = ora_script t (alter_columns_tree cs) → good_names is_dquote t → Forall good_clause cs →
  independent OracleDialect (cs ≫= clause_meaning) →
  ∃ r, ApplyDDL_of OracleDialect (oracle_Parse tree) (Some old) ddl = Ok (Some r) ∧ (pd_Database r, pd_Table r) = qname_names t ∧
    pd_NewTableInfo r =
      Some (mkTableInfo (ti_Database old) (ti_Schema old) (ti_Table old) (ti_PrimaryKeyColumns old) (ti_UniqueKeyColumns old)
              (foldl (apply_spec OracleDialect) (ti_Columns old) (cs ≫= clause_meaning))).
Proof.
  intros Ht Hn Hg Hi. set (root := ora_script t (alter_columns_tree cs)) in *.
  assert (Hp : VisitSql_script root =
    [with_changes (processColumnClauses (alter_columns_tree cs) (changes_of (extractTableviewName (tableview_tree t)) no_changes))
       (with_names (extractTableviewName (tableview_tree t)) (ddl_result DDLTypeAlterTable (GetText root)))]) by done.
  unfold ApplyDDL_of, oracle_Parse. rewrite Ht, Hp, processColumnClauses_ok, extractTableviewName_ok, add_specs_changes, by_kind by done.
  rewrite <- alter_columns_in_order by done. eexists. split; [reflexivity|]. split; [by destruct (qname_names t)|reflexivity].
Qed.

(** A column that is renamed keeps its type, its length and that it may be null. *)
Theorem oracle_rename_applied tree ddl t old new info :
  tree ddl = ora_script t (rename_tree old new) → good_names is_dquote t → ora_good old → ora_good new →
  ∃ r, ApplyDDL_of OracleDialect (oracle_Parse tree) (Some info) ddl = Ok (Some r) ∧
    (ti_Columns <$> pd_NewTableInfo r) =
      Some (modify_column OracleDialect (mkColumnModification (parser_column (id_name old) "" false) (parser_column (id_name new) "" false))
              (ti_Columns info)).
Proof.
  intros Ht Hn Ho Hw. set (root := ora_script t (rename_tree old new)) in *.
  assert (Hr : ∀ ch, processColumnClauses (rename_tree old new) ch =
    modify_named (mkColumnModification (parser_column (id_name old) "" false) (parser_column (id_name new) "" false)) ch).
  { intros ch. change (processColumnClauses (rename_tree old new) ch) with
      (if bool_decide (unquoted (node "old_column_name" [ora_column_name old]) ≠ "") && bool_decide (unquoted (node "new_column_name" [ora_column_name new]) ≠ "")
       then modify_named (mkColumnModification (parser_column (unquoted (node "old_column_name" [ora_column_name old])) "" false)
         (parser_column (unquoted (node "new_column_name" [ora_column_name new])) "" false)) ch else ch).
    rewrite !unquoted_node, !unquoted_ok by done. by rewrite !bool_decide_eq_true_2 by (apply Ho || apply Hw). }
  assert (Hp : VisitSql_script root =
    [with_changes (processColumnClauses (rename_tree old new) (changes_of (extractTableviewName (tableview_tree t)) no_changes))
       (with_names (extractTableviewName (tableview_tree t)) (ddl_result DDLTypeAlterTable (GetText root)))]) by done.
  unfold ApplyDDL_of, oracle_Parse. rewrite Ht, Hp, Hr. eexists. split; [reflexivity|]. cbn. by rewrite app_nil_r.
Qed.

(** The definition made of a CREATE TABLE has no columns, whatever the statement is. *)
Theorem oracle_create_no_columns ddl ctx :
  ∃ db name, (pd_TableChanges (VisitCreate_table ddl ctx) ≫= tc_Table) = Some (mkParserTable db name [] []).
Proof. unfold VisitCreate_table. cbn. eauto. Qed.

Module OracleVisitorRuns.
Definition plain (s : string) : ident := mkIdent false s.
Definition people : qname := mkQname (Some (plain "HR")) (mkIdent true "People").
Definition clauses : list ora_clause :=
  [OModify [mkOraColumn (plain "NAME") (Some ["VARCHAR2"; "("; "50"; ")"]) true];
   OAdd [mkOraColumn (plain "AGE") (Some ["NUMBER"; "("; "3"; ")"]) true; mkOraColumn (mkIdent true "city") (Some ["CLOB"]) false];
   ODrop [plain "NOTE"]].
Definition old_people : TableInfo :=
  mkTableInfo "HR" "" "People" ["ID"] []
    [mkColumnInfo "ID" "NUMBER" false 0 0; mkColumnInfo "NAME" "VARCHAR2" true 20 0; mkColumnInfo "NOTE" "CLOB" true 0 0].

(** That AGE is NOT NULL is not in the new definition. *)
Lemma oracle_alter_applied_witness :
  ∃ r, ApplyDDL_of OracleDialect (oracle_Parse (λ _, ora_script people (alter_columns_tree clauses))) (Some old_people) "x" = Ok (Some r) ∧
    (ti_Columns <$> pd_NewTableInfo r) =
    Some [mkColumnInfo "ID" "NUMBER" false 0 0; mkColumnInfo "NAME" "VARCHAR2" true 50 0; mkColumnInfo "AGE" "NUMBER" true 3 0;
          mkColumnInfo "city" "CLOB" true 0 0].
Proof.
  destruct (oracle_alter_applied (λ _, ora_script people (alter_columns_tree clauses)) "x" people clauses old_people) as (r & Hr & _ & Hi).
  - reflexivity.
  - done.
  - by repeat constructor.
  - repeat constructor; set_solver.
  - exists r. split; [exact Hr|]. rewrite Hi. reflexivity.
Defined.

Definition alter_with (properties : list string) : ptree :=
  ora_script people (node "alter_table_properties" [node "alter_table_properties_1" (words_trees properties)]).
Definition names_added (r : result (list ParsedDDL)) : option (list (list string)) :=
  match r with Ok rs => Some ((λ d, match pd_TableChanges d with Some ch => pc_Name <$> tc_AddedColumns ch | None => [] end) <$> rs) | Err _ => None end.

(** Supplemental logging, which capturing the changes asks for, is taken for a column. *)
Example supplemental_logging :
  names_added (oracle_Parse (λ _, alter_with ["ADD"; "SUPPLEMENTAL"; "LOG"; "DATA"; "("; "ALL"; ")"; "COLUMNS"]) "x") =
  Some [["SUPPLEMENTALLOGDATA(ALL)COLUMNS"]].
Proof. reflexivity. Qed.

(** So is a part of the new name of a table. *)
Example rename_to_address : names_added (oracle_Parse (λ _, alter_with ["RENAME"; "TO"; "ADDRESSES"]) "x") = Some [["RESSES"]].
Proof. reflexivity. Qed.

Example create_view_unknown :
  oracle_Parse (λ _, node "sql_script" [node "unit_statement" [node "create_view" (words_trees ["CREATE"; "VIEW"; "V"])]; eof]) "CREATE VIEW V" =
  Ok [ddl_result DDLTypeUnknown "CREATE VIEW V"].
Proof. reflexivity. Qed.
End OracleVisitorRuns.
