(* ===== verification/SQLServerVisitor.v ===== *)
(** The visitor of SQL Server parse trees (pkg/parser/sqlserver/visitor.go) and [Parse]
    (sqlserver_parser.go).  The rules of the grammar that it visits have no named
    alternatives, so that the assertions of their types hold. *)
From Stdlib Require Import ZArith Lia Ascii.
From Stdlib Require String.
From stdpp Require Import prelude countable gmap strings list fin_maps pretty.
From S2P Require Import Prelude Events Strings TableLifecycle Scope Filters BinlogConsumer DDLApply OracleDML ParseTree.
Local Open Scope Z_scope.

(** The characters that are cut off names: brackets and double quotes. *)
Definition is_msquote (c : ascii) : bool := bool_decide (c = "["%char) || bool_decide (c = "]"%char) || bool_decide (c = dquote).

(** ** Names *)

Definition ms_name (t : ptree) : string := strings_Trim is_msquote (GetText t).
Definition unbracket (s : string) : string := remove_char "]" (remove_char "[" s).

Definition extractTableRef (t : ptree) : string * string :=
  let text := remove_char dquote (unbracket (GetText t)) in
  match strings_Split text "." with
  | _ :: schema :: table :: _ => (schema, table)
  | [schema; table] => (schema, table)
  | _ => ("", text)
  end.

(** [extractColName] and [extractColumnFromDef], which nothing calls. *)
Definition extractColName (text keyword : string) : string :=
  word_behind is_msquote ["COLUMN"; "ADD"; "DROP"; "ALTER"; "SET"; "TYPE"] text keyword.
Definition ms_extractColumnFromDef (text : string) : string := default "" (head (strings_Fields (unbracket (strings_TrimSpace text)))).

Definition set_table_ref (c : option ptree) (r : ParsedDDL) : ParsedDDL :=
  match c with Some t => with_names (extractTableRef t) r | None => r end.

(** ** Columns *)

(** The alternatives of the rule have labels for their parts. *)
Definition extractDataTypeString (ctx : ptree) : string :=
  let text l := GetText <$> labelled l ctx in
  let upper l := strings_ToUpper <$> text l in
  match upper "scaled", upper "ext_type", text "prec", text "scale" with
  | Some s, _, _, _ => s +:+ "(MAX)"
  | None, Some e, Some p, Some s => e +:+ "(" +:+ s +:+ "," +:+ p +:+ ")"
  | None, Some e, None, Some s => e +:+ "(" +:+ s +:+ ")"
  | None, ext, _, _ =>
      match ext, has_token "IDENTITY" ctx with
      | Some e, true =>
          e +:+ " IDENTITY" +:+
          match text "seed", text "inc" with Some s, Some i => "(" +:+ s +:+ "," +:+ i +:+ ")" | _, _ => "" end
      | _, _ =>
          match text "double_prec", upper "unscaled_type" with
          | Some _, _ => "DOUBLE PRECISION"
          | None, Some u => u
          | None, None => ""
          end
      end
  end.

(** The text up to a comma, a bracket or a word that ends the type, outside brackets. *)
Definition ms_type_ends : list string := ["NOT NULL"; "NULL"; "PRIMARY"; "DEFAULT"; "IDENTITY"; "CONSTRAINT"; "REFERENCES"].
Fixpoint ms_type_scan (parenDepth : nat) (s : string) : string :=
  match s with
  | EmptyString => EmptyString
  | String ch s' =>
      if bool_decide (ch = "("%char) then String ch (ms_type_scan (S parenDepth) s')
      else if bool_decide (ch = ")"%char) then
        match parenDepth with O => EmptyString | S d => String ch (ms_type_scan d s') end
      else
        match parenDepth with
        | O =>
            if bool_decide (ch = ","%char) || existsb (λ kw, has_prefix kw (strings_ToUpper s)) ms_type_ends then EmptyString
            else String ch (ms_type_scan O s')
        | S _ => String ch (ms_type_scan parenDepth s')
        end
  end.

Definition ms_extractColumnTypeFromDDL (ddl colName : string) : string :=
  let upperDDL := strings_ToUpper ddl in
  let upperCol := strings_ToUpper colName in
  let bracketed := "[" +:+ upperCol +:+ "]" in
  let type_at (search : string) (idx : nat) :=
    strings_ToUpper (strings_TrimSpace (ms_type_scan 0 (strings_TrimSpace (text_from (idx + String.length search) ddl)))) in
  match strings_Index upperDDL bracketed, strings_Index upperDDL upperCol with
  | Some idx, _ => type_at bracketed idx
  | None, Some idx => type_at upperCol idx
  | None, None => ""
  end.

Definition ms_constraint_nullable (nullable : bool) (elem : ptree) : bool :=
  match child "column_constraint" elem with
  | None => nullable
  | Some cc =>
      let nullable := match child "null_notnull" cc with Some nn => if has_token "NOT" nn then false else nullable | None => nullable end in
      if has_token "PRIMARY" cc && has_token "KEY" cc then false else nullable
  end.

Definition extractColumnInfoFromDef (ddl : string) (ctx : ptree) : option parser_ColumnInfo :=
  let name := from_option ms_name "" (child "id_" ctx) in
  let typ := from_option extractDataTypeString "" (child "data_type" ctx) in
  let typ := if bool_decide (typ = "") && bool_decide (name ≠ "") then ms_extractColumnTypeFromDDL ddl name else typ in
  let nullable := foldl ms_constraint_nullable true (all_children "column_definition_element" ctx) in
  if bool_decide (name = "") then None else Some (parser_column name typ nullable).

(** The columns among the elements of a list. *)
Definition defined_columns (ddl : string) (defs : ptree) : list parser_ColumnInfo :=
  omap (λ e, child "column_definition" e ≫= extractColumnInfoFromDef ddl) (all_children "column_def_table_constraint" defs).

Section Visitor.
Context (ddl : string).

(** ** Tables *)

Definition ms_VisitCreate_table (ctx : ptree) : ParsedDDL :=
  let r := set_table_ref (child "table_name" ctx) (ddl_result DDLTypeCreateTable ddl) in
  with_changes (create_changes (pd_Database r) (pd_Table r) (from_option (defined_columns ddl) [] (child "column_def_table_constraints" ctx))) r.

(** A list of definitions is looked for before a single one. *)
Definition ms_added (ctx : ptree) (ch : TableChanges) : TableChanges :=
  if has_token "ADD" ctx then
    match child "column_def_table_constraints" ctx with
    | Some defs => foldl (λ ch c, add_column c ch) ch (defined_columns ddl defs)
    | None =>
        match child "column_definition" ctx ≫= extractColumnInfoFromDef ddl with Some c => add_column c ch | None => ch end
    end
  else ch.

(** Of several columns the first is dropped. *)
Definition ms_dropped (ctx : ptree) (ch : TableChanges) : TableChanges :=
  if has_token "DROP" ctx && has_token "COLUMN" ctx then
    match child_at 0 "id_" ctx with Some i => drop_named (ms_name i) ch | None => ch end
  else ch.

Definition ms_modified (ctx : ptree) (ch : TableChanges) : TableChanges :=
  if negb (has_token "ADD" ctx) && negb (has_token "DROP" ctx) then
    match child "column_definition" ctx ≫= extractColumnInfoFromDef ddl with
    | Some c => modify_named (mkColumnModification (parser_column (pc_Name c) "" false) c) ch
    | None => ch
    end
  else ch.

Definition ms_VisitAlter_table (ctx : ptree) : ParsedDDL :=
  let r := ddl_result DDLTypeAlterTable ddl in
  let '(r, ch) := match child_at 0 "table_name" ctx with
                  | Some t => (with_names (extractTableRef t) r, changes_of (extractTableRef t) no_changes)
                  | None => (r, no_changes)
                  end in
  with_changes (ms_modified ctx (ms_dropped ctx (ms_added ctx ch))) r.

Definition ms_VisitDrop_table (ctx : ptree) : ParsedDDL := set_table_ref (child_at 0 "table_name" ctx) (ddl_result DDLTypeDropTable ddl).
Definition ms_VisitTruncate_table (ctx : ptree) : ParsedDDL := set_table_ref (child "table_name" ctx) (ddl_result DDLTypeTruncate ddl).

(** ** Indexes, views and databases *)

(** The first and the last part of a name. *)
Definition ends_of_name (text : string) : string * string :=
  match strings_Split text "." with
  | a :: b :: rest => (a, default b (last rest))
  | _ => ("", text)
  end.

(** An index of either syntax: its name, and the node that names its table. *)
Definition drop_index_of (table : option ptree) (ctx : ptree) (r : ParsedDDL) : ParsedDDL :=
  let r := match labelled "index_name" ctx with Some i => with_index (Some (new_index (ms_name i) "drop")) r | None => r end in
  match table with Some t => index_on (ends_of_name (unbracket (GetText t))) r | None => r end.

Definition ms_VisitDrop_index (ctx : ptree) : ParsedDDL :=
  let r := ddl_result DDLTypeDropIndex ddl in
  match child_at 0 "drop_relational_or_xml_or_spatial_index" ctx, child_at 0 "drop_backward_compatible_index" ctx with
  | Some d, _ => drop_index_of (child "full_table_name" d) d r
  | None, Some d => drop_index_of (labelled "table_or_view_name" d) d r
  | None, None => r
  end.

Definition ms_VisitDrop_view (ctx : ptree) : ParsedDDL :=
  let r := ddl_result DDLTypeDropView ddl in
  match child_at 0 "simple_name" ctx with
  | None => r
  | Some v =>
      let text := remove_char dquote (unbracket (GetText v)) in
      match strings_Split text "." with
      | schema :: view :: _ => with_names (schema, view) r
      | _ => with_names ("", text) r
      end
  end.

Definition ms_VisitCreate_index (ctx : ptree) : ParsedDDL :=
  let r := with_index ((λ i, new_index (ms_name i) "create") <$> child_at 0 "id_" ctx) (ddl_result DDLTypeCreateIndex ddl) in
  match child "table_name" ctx with Some t => index_on (extractTableRef t) r | None => r end.

Definition visitDropDatabase (ctx : ptree) : ParsedDDL :=
  let r := ddl_result DDLTypeDropDatabase ddl in
  match child_at 0 "id_" ctx with Some i => with_database (ms_name i) r | None => r end.

(** ** Statements *)

Definition VisitDdl_clause (ctx : ptree) : option ParsedDDL :=
  first_rule
    [("create_table", Some ∘ ms_VisitCreate_table); ("alter_table", Some ∘ ms_VisitAlter_table); ("drop_table", Some ∘ ms_VisitDrop_table);
     ("drop_index", Some ∘ ms_VisitDrop_index); ("drop_view", Some ∘ ms_VisitDrop_view); ("truncate_table", Some ∘ ms_VisitTruncate_table);
     ("create_index", Some ∘ ms_VisitCreate_index); ("drop_database", Some ∘ visitDropDatabase)]
    ctx None.

Definition VisitSql_clauses (ctx : ptree) : option ParsedDDL := child "ddl_clause" ctx ≫= VisitDdl_clause.
Definition VisitBatch (ctx : ptree) : list ParsedDDL := omap VisitSql_clauses (all_children "sql_clauses" ctx).
End Visitor.

(** The text that is searched for types is that of the tree: the one that [Parse] sets is
    replaced. *)
Definition VisitTsql_file (ctx : ptree) : list ParsedDDL := all_children "batch" ctx ≫= VisitBatch (GetText ctx).

Definition sqlserver_Parse (tree : string → ptree) (ddl : string) : result (list ParsedDDL) :=
  Ok (parse_results ddl (VisitTsql_file (tree ddl))).

(** ** Statements as they are written *)

Inductive ms_type :=
  | MsMax (base : string)                      (* VARCHAR(MAX) *)
  | MsSized (base : ident) (params : list Z)   (* one or two parameters *)
  | MsIdentity (base : ident)
  | MsDouble
  | MsPlain (base : ident).

Inductive ms_constraint := MsNull (not : bool) | MsPrimaryKey | MsOther (words : list string).
Record ms_column := mkMsColumn { mc_name : ident; mc_type : ms_type; mc_constraints : list ms_constraint }.

(** An element of a table: a column, or a constraint. *)
Definition ms_element : Type := ms_column + list string.

Inductive ms_alter :=
  | MsAdd (els : list ms_element)
  | MsDrop (c : ident) (more : list ident)
  | MsAlter (c : ms_column)
  | MsOtherAlter (words : list string).

Definition ms_text (i : ident) : string := quoted_text "[" "]" i.
Definition id_tree (i : ident) : ptree := node "id_" [tok "ID" (ms_text i)].
Definition with_label (l : string) (t : ptree) : ptree :=
  match t with Token _ k s => Token l k s | Rule _ r a cs => Rule l r a cs end.
Definition number (l : string) (z : Z) : ptree := Token l "DECIMAL" (pretty z).

Definition type_tree (t : ms_type) : ptree :=
  node "data_type"
    (match t with
     | MsMax base => [Token "scaled" "VARCHAR" base; tok "LR" "("; tok "MAX" "MAX"; tok "RR" ")"]
     | MsSized base [] => [with_label "unscaled_type" (id_tree base)]
     | MsSized base [a] => [with_label "ext_type" (id_tree base); tok "LR" "("; number "scale" a; tok "RR" ")"]
     | MsSized base (a :: b :: _) =>
         [with_label "ext_type" (id_tree base); tok "LR" "("; number "scale" a; comma; number "prec" b; tok "RR" ")"]
     | MsIdentity base => [with_label "ext_type" (id_tree base); tok "IDENTITY" "IDENTITY"]
     | MsDouble => [Token "double_prec" "DOUBLE" "DOUBLE"; tok "PRECISION" "PRECISION"]
     | MsPlain base => [with_label "unscaled_type" (id_tree base)]
     end).

Definition ms_constraint_tree (c : ms_constraint) : ptree :=
  node "column_definition_element"
    (match c with
     | MsNull true => [node "column_constraint" [node "null_notnull" [tok "NOT" "NOT"; tok "NULL_" "NULL"]]]
     | MsNull false => [node "column_constraint" [node "null_notnull" [tok "NULL_" "NULL"]]]
     | MsPrimaryKey => [node "column_constraint" [tok "PRIMARY" "PRIMARY"; tok "KEY" "KEY"; node "primary_key_options" []]]
     | MsOther ws => words_trees ws
     end).

Definition ms_column_tree (c : ms_column) : ptree :=
  node "column_definition" (id_tree (mc_name c) :: type_tree (mc_type c) :: (ms_constraint_tree <$> mc_constraints c)).
Definition element_tree (e : ms_element) : ptree :=
  node "column_def_table_constraint" [match e with inl c => ms_column_tree c | inr ws => node "table_constraint" (words_trees ws) end].
Definition elements_tree (els : list ms_element) : ptree := node "column_def_table_constraints" (separated comma (element_tree <$> els)).

Definition table_name_tree (n : qname) : ptree :=
  node "table_name" (match qn_database n with Some s => [id_tree s; tok "DOT" "."; id_tree (qn_table n)] | None => [id_tree (qn_table n)] end).

Definition alter_rest (a : ms_alter) : list ptree :=
  match a with
  | MsAdd els => [tok "ADD" "ADD"; elements_tree els]
  | MsDrop c more => [tok "DROP" "DROP"; tok "COLUMN" "COLUMN"] ++ separated comma (id_tree <$> c :: more)
  | MsAlter c => [tok "ALTER" "ALTER"; tok "COLUMN" "COLUMN"; ms_column_tree c]
  | MsOtherAlter ws => words_trees ws
  end.

Definition ms_file (ddl_clauses : list ptree) : ptree :=
  node "tsql_file" [node "batch" ((λ c, node "sql_clauses" [node "ddl_clause" [c]]) <$> ddl_clauses); eof].
Definition ms_alter_tree (t : qname) (a : ms_alter) : ptree :=
  node "alter_table" ([tok "ALTER" "ALTER"; tok "TABLE" "TABLE"; table_name_tree t] ++ alter_rest a).
Definition ms_create_tree (t : qname) (els : list ms_element) : ptree :=
  node "create_table" [tok "CREATE" "CREATE"; tok "TABLE" "TABLE"; table_name_tree t; tok "LR" "("; elements_tree els; tok "RR" ")"].

(** ** What they mean *)

Definition ms_type_text (t : ms_type) : string :=
  let base i := strings_ToUpper (ms_text i) in
  match t with
  | MsMax b => strings_ToUpper b +:+ "(MAX)"
  | MsSized i ps => print_type (base i) (take 2 ps)
  | MsIdentity i => base i +:+ " IDENTITY"
  | MsDouble => "DOUBLE PRECISION"
  | MsPlain i => base i
  end.

Definition ms_column_meaning (c : ms_column) : parser_ColumnInfo :=
  parser_column (id_name (mc_name c)) (ms_type_text (mc_type c))
    (forallb (λ x, match x with MsNull true | MsPrimaryKey => false | _ => true end) (mc_constraints c)).
Definition elements_meaning (els : list ms_element) : list parser_ColumnInfo :=
  omap (λ e, match e with inl c => Some (ms_column_meaning c) | inr _ => None end) els.

(** Of the columns that are dropped, the first. *)
Definition ms_alter_meaning (a : ms_alter) : list alter_spec :=
  match a with
  | MsAdd els => SpecAdd <$> elements_meaning els
  | MsDrop c _ => [SpecDrop (id_name c)]
  | MsAlter c => [SpecModify (mkColumnModification (parser_column (id_name (mc_name c)) "" false) (ms_column_meaning c))]
  | MsOtherAlter _ => []
  end.

Definition ms_good (i : ident) : Prop := good_name is_msquote i.
Definition good_ms_type (t : ms_type) : Prop :=
  match t with MsMax b => b ≠ "" | MsSized i _ | MsIdentity i | MsPlain i => ms_good i | MsDouble => True end.
Definition good_ms_column (c : ms_column) : Prop := ms_good (mc_name c) ∧ good_ms_type (mc_type c).
Definition good_element (e : ms_element) : Prop := match e with inl c => good_ms_column c | inr _ => True end.
Definition good_ms_alter (a : ms_alter) : Prop :=
  match a with
  | MsAdd els => Forall good_element els
  | MsDrop c _ => ms_good c
  | MsAlter c => good_ms_column c
  | MsOtherAlter _ => True
  end.
Definition good_ms_table (n : qname) : Prop :=
  good_names is_msquote n ∧ no_dot (qn_table n).

(** *** Names *)

Lemma id_text i : GetText (id_tree i) = ms_text i.
Proof. unfold id_tree, node, tok. cbn. apply string_app_nil_r. Qed.

Lemma ms_name_ok i : ms_good i → ms_name (id_tree i) = id_name i.
Proof. intros Hi. unfold ms_name. rewrite id_text. by apply trim_ident. Qed.

Lemma table_name_text n : GetText (table_name_tree n) = quoted_names "[" "]" n.
Proof.
  unfold table_name_tree, node. rewrite GetText_rule. unfold quoted_names. destruct (qn_database n) as [d|]; rewrite !texts_cons, !id_text; cbn;
  by rewrite string_app_nil_r.
Qed.

Lemma cut_none c s : has_char c s = false → strings_Cut (String c "") s = None.
Proof.
  induction s as [|x s IH]; cbn [has_char]; [done|]. intros [Hx Hs]%orb_false_iff. cbn [strings_Cut has_prefix].
  rewrite bool_decide_eq_false_2 by (apply bool_decide_eq_false in Hx; congruence). cbn [andb]. by rewrite IH.
Qed.

Lemma split_none c s : has_char c s = false → strings_Split s (String c "") = [s].
Proof. intros H. unfold strings_Split. destruct (String.length s); [done|]. cbn [split_rounds]. by rewrite cut_none. Qed.

Lemma cut_app c a b : has_char c a = false → strings_Cut (String c "") (a +:+ String c "" +:+ b) = Some (a, b).
Proof.
  induction a as [|x a IH].
  - intros _. rewrite !string_app_nil_l. change (String c "" +:+ b) with (String c b). cbn [strings_Cut has_prefix].
    rewrite bool_decide_eq_true_2 by done. cbn [andb]. by destruct b.
  - cbn [has_char]. intros [Hx Ha]%orb_false_iff. rewrite string_app_cons. cbn [strings_Cut has_prefix].
    rewrite bool_decide_eq_false_2 by (apply bool_decide_eq_false in Hx; congruence). cbn [andb]. by rewrite IH.
Qed.

Lemma split_two c a b : has_char c a = false → has_char c b = false → strings_Split (a +:+ String c "" +:+ b) (String c "") = [a; b].
Proof.
  intros Ha Hb. unfold strings_Split. rewrite !string_length_app. cbn [String.length]. rewrite Nat.add_comm. cbn [Nat.add split_rounds].
  rewrite cut_app by done. f_equal. destruct (String.length b + String.length a)%nat; [done|]. cbn [split_rounds]. by rewrite cut_none.
Qed.

Lemma unquote_ident i : ms_good i → remove_char dquote (unbracket (ms_text i)) = id_name i.
Proof.
  intros Hi. unfold unbracket, ms_text. rewrite (remove_quotes "[" "]" is_msquote) by done.
  by apply remove_char_none, (cut_char is_msquote).
Qed.

Lemma extractTableRef_ok n : good_ms_table n → extractTableRef (table_name_tree n) = qname_names n.
Proof.
  intros [[Ht Hd] Hdot]. unfold extractTableRef, qname_names. rewrite table_name_text. unfold quoted_names.
  destruct (qn_database n) as [d|]; cbn [from_option].
  - destruct Hd as [Hg Hn]. unfold unbracket. rewrite !remove_char_app.
    pose proof (unquote_ident d Hg) as Hd'. pose proof (unquote_ident _ Ht) as Ht'. unfold unbracket, ms_text in *. rewrite Hd', Ht'.
    cbv zeta. change (remove_char dquote (remove_char "]" (remove_char "[" "."))) with ".". by rewrite split_two.
  - fold (ms_text (qn_table n)). rewrite (unquote_ident _ Ht). cbv zeta. by rewrite split_none.
Qed.

(** *** Types *)

Lemma type_text_ok t : extractDataTypeString (type_tree t) = ms_type_text t.
Proof.
  assert (Hb : ∀ l i, GetText (with_label l (id_tree i)) = ms_text i) by (intros l i; apply (id_text i)).
  set (text l i := strings_ToUpper (GetText (with_label l (id_tree i)))).
  assert (Ht : ∀ l i, text l i = strings_ToUpper (ms_text i)) by (intros l i; subst text; cbv beta; by rewrite Hb).
  destruct t as [b|i [|a [|b ps]]|i| |i]; [done|..].
  - change (text "unscaled_type" i = strings_ToUpper (ms_text i)). apply Ht.
  - change (text "ext_type" i +:+ "(" +:+ pretty a +:+ ")" = print_type (strings_ToUpper (ms_text i)) [a]). by rewrite Ht.
  - change (text "ext_type" i +:+ "(" +:+ pretty a +:+ "," +:+ pretty b +:+ ")" = print_type (strings_ToUpper (ms_text i)) [a; b]). rewrite Ht.
    unfold print_type. cbn [fmap list_fmap join]. by rewrite !string_app_assoc.
  - change (text "ext_type" i +:+ " IDENTITY" = strings_ToUpper (ms_text i) +:+ " IDENTITY"). by rewrite Ht.
  - done.
  - change (text "unscaled_type" i = strings_ToUpper (ms_text i)). apply Ht.
Qed.

Lemma ms_text_nonempty i : ms_good i → strings_ToUpper (ms_text i) ≠ "".
Proof. intros [_ Hi]. unfold ms_text, quoted_text. destruct (id_quoted i); [done|]. by destruct (id_name i). Qed.

Lemma type_text_nonempty t : good_ms_type t → ms_type_text t ≠ "".
Proof.
  assert (Ha : ∀ a b : string, a ≠ "" → a +:+ b ≠ "") by (by intros [] []).
  destruct t as [b|i ps|i| |i]; cbn [good_ms_type ms_type_text]; intros Hg; [|..]; try done; try by apply ms_text_nonempty.
  - apply Ha. by destruct b.
  - unfold print_type. destruct (take 2 ps); [|apply Ha]; by apply ms_text_nonempty.
  - apply Ha. by apply ms_text_nonempty.
Qed.

(** *** Columns *)

Lemma nullable_ok cs : ∀ n,
  foldl ms_constraint_nullable n (ms_constraint_tree <$> cs) =
  n && forallb (λ x, match x with MsNull true | MsPrimaryKey => false | _ => true end) cs.
Proof.
  induction cs as [|c cs IH]; intros n; [cbn; by rewrite andb_true_r|]. cbn [fmap list_fmap foldl forallb]. rewrite IH, andb_assoc. f_equal.
  destruct c as [[]| |ws]; cbn; rewrite ?andb_true_r, ?andb_false_r; try done.
  unfold ms_constraint_nullable, ms_constraint_tree, child, all_children. cbn [children_of node]. by rewrite words_no_rule.
Qed.

Lemma ms_column_ok ddl c : good_ms_column c → extractColumnInfoFromDef ddl (ms_column_tree c) = Some (ms_column_meaning c).
Proof.
  intros [Hn Ht]. unfold extractColumnInfoFromDef.
  change (child "id_" (ms_column_tree c)) with (Some (id_tree (mc_name c))).
  change (child "data_type" (ms_column_tree c)) with (Some (type_tree (mc_type c))).
  cbn [from_option]. rewrite ms_name_ok, type_text_ok by done. cbv zeta.
  rewrite (bool_decide_eq_false_2 (ms_type_text _ = "")) by (by apply type_text_nonempty). cbn [andb].
  rewrite bool_decide_eq_false_2 by apply Hn. unfold ms_column_meaning. do 2 f_equal.
  assert (all_children "column_definition_element" (ms_column_tree c) = ms_constraint_tree <$> mc_constraints c) as ->.
  { unfold all_children, ms_column_tree. cbn [children_of node]. rewrite !filter_cons_False by done. apply filter_rule_all. by intros []. }
  by rewrite nullable_ok.
Qed.

Lemma defined_columns_ok ddl els : Forall good_element els → defined_columns ddl (elements_tree els) = elements_meaning els.
Proof.
  intros Hg. unfold defined_columns, all_children, elements_tree. cbn [children_of node]. rewrite filter_separated by done.
  rewrite filter_rule_all by done. induction Hg as [|e els He _ IH]; [done|]. cbn [fmap list_fmap]. unfold elements_meaning. cbn [omap list_omap].
  destruct e as [c|ws]; [|exact IH]. cbn [element_tree].
  change (child "column_definition" (element_tree (inl c))) with (Some (ms_column_tree c)). cbn [mbind option_bind].
  rewrite ms_column_ok by done. f_equal. exact IH.
Qed.

(** *** ALTER TABLE *)

Lemma add_columns_specs cols : ∀ ch, foldl (λ ch c, add_column c ch) ch cols = add_specs ch (SpecAdd <$> cols).
Proof. induction cols as [|c cols IH]; intros ch; [done|]. apply IH. Qed.

Lemma ids_no_token k l : k ≠ "COMMA" → existsb (is_token k) (separated comma (id_tree <$> l)) = false.
Proof.
  intros Hk. induction l as [|i [|j l] IH]; [done|done|].
  change (separated comma (id_tree <$> i :: j :: l)) with (id_tree i :: comma :: separated comma (id_tree <$> j :: l)).
  cbn [existsb is_token id_tree node comma tok orb]. rewrite bool_decide_eq_false_2 by congruence. exact IH.
Qed.

Lemma collect_alter_ms ddl t a ch :
  good_ms_alter a →
  ms_modified ddl (ms_alter_tree t a) (ms_dropped (ms_alter_tree t a) (ms_added ddl (ms_alter_tree t a) ch)) = add_specs ch (ms_alter_meaning a).
Proof.
  destruct a as [els|c more|c|ws]; cbn [good_ms_alter ms_alter_meaning]; intros Hg.
  - change (ms_modified ddl _ (ms_dropped _ (ms_added ddl (ms_alter_tree t (MsAdd els)) ch))) with
      (foldl (λ ch c, add_column c ch) ch (defined_columns ddl (elements_tree els))).
    by rewrite defined_columns_ok, add_columns_specs.
  - assert (HA : has_token "ADD" (ms_alter_tree t (MsDrop c more)) = false) by (apply (ids_no_token "ADD" (c :: more)); done).
    unfold ms_modified, ms_added. rewrite HA. change (has_token "DROP" (ms_alter_tree t (MsDrop c more))) with true. cbn [negb andb].
    unfold ms_dropped. change (has_token "DROP" (ms_alter_tree t (MsDrop c more))) with true.
    change (has_token "COLUMN" (ms_alter_tree t (MsDrop c more))) with true. cbn [andb].
    assert (child_at 0 "id_" (ms_alter_tree t (MsDrop c more)) = Some (id_tree c)) as -> by (by destruct more). by rewrite ms_name_ok.
  - change (ms_modified ddl _ (ms_dropped _ (ms_added ddl (ms_alter_tree t (MsAlter c)) ch))) with
      (match extractColumnInfoFromDef ddl (ms_column_tree c) with
       | Some c => modify_named (mkColumnModification (parser_column (pc_Name c) "" false) c) ch | None => ch end).
    by rewrite ms_column_ok.
  - unfold ms_modified, ms_dropped, ms_added.
    assert (HT : ∀ k, k ≠ "WORD" → k ≠ "ALTER" → k ≠ "TABLE" → has_token k (ms_alter_tree t (MsOtherAlter ws)) = false).
    { intros k H1 H2 H3. unfold has_token. cbn [ms_alter_tree node children_of alter_rest app existsb is_token tok table_name_tree].
      rewrite !bool_decide_eq_false_2 by congruence. by apply words_no_token. }
    rewrite !HT by done. cbn [andb negb].
    assert (child "column_definition" (ms_alter_tree t (MsOtherAlter ws)) = None) as ->; [|done].
    unfold child, all_children, ms_alter_tree. cbn [node children_of alter_rest app]. rewrite !filter_cons_False by done. by rewrite words_no_rule.
Qed.

(** An ALTER TABLE does to the columns what it says: all the columns it adds are added, the
    one it modifies takes the type and the constraints that are written, and the first it
    drops is dropped. *)
Theorem sqlserver_alter_applied tree ddl t a old :
  tree ddl = ms_file [ms_alter_tree t a] → good_ms_table t → good_ms_alter a → independent SQLServerDialect (ms_alter_meaning a) →
  ∃ r, ApplyDDL_of SQLServerDialect (sqlserver_Parse tree) (Some old) ddl = Ok (Some r) ∧ (pd_Database r, pd_Table r) = qname_names t ∧
    (ti_Columns <$> pd_NewTableInfo r) = Some (foldl (apply_spec SQLServerDialect) (ti_Columns old) (ms_alter_meaning a)).
Proof.
  intros Ht Hn Hg Hi. set (root := ms_file [ms_alter_tree t a]) in *. set (text := GetText root).
  assert (Hp : VisitTsql_file root =
    [with_changes (ms_modified text (ms_alter_tree t a) (ms_dropped (ms_alter_tree t a) (ms_added text (ms_alter_tree t a)
       (changes_of (extractTableRef (table_name_tree t)) no_changes)))) (with_names (extractTableRef (table_name_tree t)) (ddl_result DDLTypeAlterTable text))]) by done.
  unfold ApplyDDL_of, sqlserver_Parse. rewrite Ht, Hp, collect_alter_ms, extractTableRef_ok, add_specs_changes by done.
  rewrite <- alter_columns_in_order by done. eexists. split; [reflexivity|]. split; [by destruct (qname_names t)|reflexivity].
Qed.

(** A CREATE TABLE gives a definition with the columns as they are written: base types in
    upper case with their length and scale, NOT NULL where it is written or where the column
    is a primary key; the key itself is not in it. *)
Theorem sqlserver_create_applied tree ddl t els old :
  tree ddl = ms_file [ms_create_tree t els] → good_ms_table t → Forall good_element els →
  ∃ r, ApplyDDL_of SQLServerDialect (sqlserver_Parse tree) old ddl = Ok (Some r) ∧
    pd_NewTableInfo r =
      Some (mkTableInfo (qname_names t).1 "" (qname_names t).2 [] [] (convertToEventColumn SQLServerDialect <$> elements_meaning els)).
Proof.
  intros Ht Hn Hg. set (root := ms_file [ms_create_tree t els]) in *. set (text := GetText root).
  assert (Hp : VisitTsql_file root =
    [with_changes (create_changes (extractTableRef (table_name_tree t)).1 (extractTableRef (table_name_tree t)).2 (defined_columns text (elements_tree els)))
       (with_names (extractTableRef (table_name_tree t)) (ddl_result DDLTypeCreateTable text))]) by done.
  unfold ApplyDDL_of, sqlserver_Parse. rewrite Ht, Hp, extractTableRef_ok, defined_columns_ok by done. eexists. split; reflexivity.
Qed.

Module SQLServerVisitorRuns.
Definition plain (s : string) : ident := mkIdent false s.
Definition boxed (s : string) : ident := mkIdent true s.
Definition people : qname := mkQname (Some (plain "dbo")) (boxed "People").
Definition elements : list ms_element :=
  [inl (mkMsColumn (boxed "Id") (MsPlain (plain "int")) [MsPrimaryKey]);
   inl (mkMsColumn (plain "Name") (MsSized (plain "varchar") [50]) [MsNull true]);
   inl (mkMsColumn (plain "Pay") (MsSized (plain "decimal") [10; 2]) []); inl (mkMsColumn (plain "Doc") (MsMax "VARBINARY") []);
   inr ["CONSTRAINT"; "c"; "CHECK"; "("; "Pay"; ">"; "0"; ")"]].
Definition columns : list ColumnInfo :=
  [mkColumnInfo "Id" "INT" false 0 0; mkColumnInfo "Name" "VARCHAR" false 50 0; mkColumnInfo "Pay" "DECIMAL" true 10 2;
   mkColumnInfo "Doc" "VARBINARY" true (-1) 0].

Lemma sqlserver_create_applied_witness :
  ∃ r, ApplyDDL_of SQLServerDialect (sqlserver_Parse (λ _, ms_file [ms_create_tree people elements])) None "x" = Ok (Some r) ∧
    pd_NewTableInfo r = Some (mkTableInfo "dbo" "" "People" [] [] columns).
Proof.
  destruct (sqlserver_create_applied (λ _, ms_file [ms_create_tree people elements]) "x" people elements None) as (r & Hr & Hi).
  - reflexivity.
  - by repeat split.
  - by repeat constructor.
  - exists r. split; [exact Hr|]. rewrite Hi. vm_compute. reflexivity.
Defined.

Definition old_people : TableInfo := mkTableInfo "dbo" "" "People" ["Id"] [] columns.
Definition altered (a : ms_alter) : option (list ColumnInfo) :=
  match ApplyDDL_of SQLServerDialect (sqlserver_Parse (λ _, ms_file [ms_alter_tree people a])) (Some old_people) "x" with
  | Ok (Some r) => ti_Columns <$> pd_NewTableInfo r
  | _ => None
  end.

(** Of two columns that are dropped one stays. *)
Example drop_two : altered (MsDrop (plain "Pay") [plain "Doc"]) = Some (take 2 columns ++ drop 3 columns).
Proof. vm_compute. reflexivity. Qed.

(** The brackets around the name of a type stay in it. *)
Example type_in_brackets :
  altered (MsAlter (mkMsColumn (plain "Name") (MsSized (boxed "nvarchar") [80]) [])) =
  Some (take 1 columns ++ mkColumnInfo "Name" "[NVARCHAR]" true 80 0 :: drop 2 columns).
Proof. vm_compute. reflexivity. Qed.

(** The text that is searched for a type has no blanks: a word that ends the type with
    blanks in it is not found, and a name may be found inside another. *)
Example type_from_text :
  (ms_extractColumnTypeFromDDL "CREATETABLEt(idINTNOTNULL,nameNVARCHAR(255)NOTNULL)<EOF>" "name",
   ms_extractColumnTypeFromDDL "CREATETABLEt(idINTNOTNULL,nameNVARCHAR(255)NOTNULL)<EOF>" "id",
   ms_extractColumnTypeFromDDL "CREATETABLEnames(nameNVARCHAR(255))<EOF>" "name") = ("NVARCHAR(255)NOT", "INTNOT", "S(NAMENVARCHAR(255))<EOF>").
Proof. vm_compute. reflexivity. Qed.
Example type_from_text_parsed : parseTypeString SQLServerDialect "NVARCHAR(255)NOT" = ("NVARCHAR", 255, 0).
Proof. vm_compute. reflexivity. Qed.

Lemma sqlserver_alter_applied_witness :
  ∃ r, ApplyDDL_of SQLServerDialect (sqlserver_Parse (λ _, ms_file [ms_alter_tree people (MsAdd (drop 2 elements))]))
         (Some (mkTableInfo "dbo" "" "People" ["Id"] [] (take 2 columns))) "x" = Ok (Some r) ∧
    (ti_Columns <$> pd_NewTableInfo r) = Some columns.
Proof.
  destruct (sqlserver_alter_applied (λ _, ms_file [ms_alter_tree people (MsAdd (drop 2 elements))]) "x" people (MsAdd (drop 2 elements))
    (mkTableInfo "dbo" "" "People" ["Id"] [] (take 2 columns))) as (r & Hr & _ & Hi).
  - reflexivity.
  - by repeat split.
  - cbn. by repeat constructor.
  - cbn. repeat constructor; set_solver.
  - exists r. split; [exact Hr|]. rewrite Hi. vm_compute. reflexivity.
Defined.
End SQLServerVisitorRuns.
