(* ===== verification/PostgresVisitor.v ===== *)
(** The visitor of PostgreSQL parse trees (pkg/parser/postgres/visitor.go) and [Parse]
    (postgres_parser.go).  Names are read from the tree, the types of columns from the text
    of the statement.  The rules of the grammar that it visits have no named alternatives,
    so that the assertions of their types hold. *)
From Stdlib Require Import ZArith Lia Ascii.
From Stdlib Require String.
From stdpp Require Import prelude countable gmap strings list fin_maps pretty.
From S2P Require Import Prelude Events Strings TableLifecycle Scope Filters BinlogConsumer DDLApply OracleDML ParseTree OracleVisitor.
Local Open Scope Z_scope.

(** ** Names *)

Definition extractNameText (t : ptree) : string := strings_Trim is_dquote (GetText t).
Definition extractAnyName (t : ptree) : string := strings_Trim is_dquote (GetText t).
Definition extractQualifiedName (t : ptree) : string * string := split_name (remove_char dquote (GetText t)).
Definition extractRelationExpr (t : ptree) : string * string := split_name (remove_char dquote (GetText t)).

(** [extractColumnDefName] and [extractColumnName], which nothing calls. *)
Definition extractColumnDefName (text : string) : string :=
  default "" (head (strings_Fields (strings_Trim is_dquote (strings_TrimSpace text)))).
Definition pg_extractColumnName (text keyword : string) : string :=
  word_behind is_dquote ["ADD"; "DROP"; "ALTER"; "COLUMN"; "SET"; "TYPE"] text keyword.

(** ** Types, from the text *)

Definition pg_blank (c : ascii) : bool :=
  bool_decide (c = " "%char) || bool_decide (c = "009"%char) || bool_decide (c = "010"%char) || bool_decide (c = "013"%char).
Definition constraintKeywords : list string :=
  ["NOT"; "NULL"; "PRIMARY"; "UNIQUE"; "DEFAULT"; "CHECK"; "REFERENCES"; "CONSTRAINT"; "COLLATE"].
Definition type_words : list string := ["PRECISION"; "VARYING"; "WITHOUT"; "WITH"; "ZONE"; "TIME"].

(** Whether the type goes on behind a blank. *)
Definition type_goes_on (rest : string) : bool :=
  let remaining := strings_TrimSpace rest in
  negb (existsb (λ kw, has_prefix kw (strings_ToUpper remaining)) constraintKeywords) &&
  match strings_Fields remaining with w :: _ => bool_decide (strings_ToUpper w ∈ type_words) | [] => false end.

Fixpoint pg_type_scan (parenDepth : Z) (rest : string) : string :=
  match rest with
  | EmptyString => EmptyString
  | String ch rest' =>
      if bool_decide (ch = "("%char) then String ch (pg_type_scan (parenDepth + 1) rest')
      else if bool_decide (ch = ")"%char) then String ch (pg_type_scan (parenDepth - 1) rest')
      else if 0 <? parenDepth then String ch (pg_type_scan parenDepth rest')
      else if pg_blank ch then if type_goes_on rest then String ch (pg_type_scan parenDepth rest') else EmptyString
      else if bool_decide (ch = ","%char) then EmptyString
      else String ch (pg_type_scan parenDepth rest')
  end.

Fixpoint pg_new_type_scan (parenDepth : Z) (rest : string) : string :=
  match rest with
  | EmptyString => EmptyString
  | String ch rest' =>
      if bool_decide (ch = "("%char) then String ch (pg_new_type_scan (parenDepth + 1) rest')
      else if bool_decide (ch = ")"%char) then String ch (pg_new_type_scan (parenDepth - 1) rest')
      else if 0 <? parenDepth then String ch (pg_new_type_scan parenDepth rest')
      else if pg_blank ch || bool_decide (ch = ";"%char) then EmptyString
      else String ch (pg_new_type_scan parenDepth rest')
  end.

(** The type behind the first occurrence of a text. *)
Definition type_behind (scan : Z → string → string) (ddl search : string) : string :=
  match strings_Index (strings_ToUpper ddl) search with
  | None => ""
  | Some idx => strings_TrimSpace (scan 0 (strings_TrimSpace (text_from (idx + String.length search) ddl)))
  end.
Definition pg_extractColumnTypeFromDDL (ddl colName : string) : string := type_behind pg_type_scan ddl (strings_ToUpper colName +:+ " ").
Definition extractAlterColumnTypeFromDDL (ddl colName : string) : string :=
  type_behind pg_new_type_scan ddl (strings_ToUpper colName +:+ " TYPE ").

(** ** Columns *)

Definition applyColumnConstraints (ctx : ptree) (col : parser_ColumnInfo) : parser_ColumnInfo :=
  foldl (λ col c,
    match child "colconstraintelem" c with
    | None => col
    | Some e =>
        let not_null (b : bool) (col : parser_ColumnInfo) :=
          if b then mkParserColumn (pc_Name col) (pc_Type col) false (pc_DefaultValue col) (pc_AutoIncrement col) else col in
        not_null (has_token "PRIMARY" e && has_token "KEY" e) (not_null (has_token "NOT" e && has_token "NULL_P" e) col)
    end) col (all_children "colconstraint" ctx).

Section Visitor.
Context (ddl : string).

Definition pg_extractColumnFromDef (ctx : ptree) : parser_ColumnInfo :=
  let name := from_option extractNameText "" (child "colid" ctx) in
  let col := parser_column name (pg_extractColumnTypeFromDDL ddl name) true in
  match child "colquallist" ctx with Some q => applyColumnConstraints q col | None => col end.

Definition extractTableColumns (ctx : ptree) : list parser_ColumnInfo :=
  match child "tableelementlist" ctx with
  | None => []
  | Some l => omap (λ e, pg_extractColumnFromDef <$> child "columnDef" e) (all_children "tableelement" l)
  end.

(** ** Databases and tables *)

Definition set_name_database (c : option ptree) (r : ParsedDDL) : ParsedDDL :=
  match c with Some n => with_database (extractNameText n) r | None => r end.
Definition VisitCreatedbstmt (ctx : ptree) : ParsedDDL := set_name_database (child "name" ctx) (ddl_result DDLTypeCreateDatabase ddl).
Definition VisitDropdbstmt (ctx : ptree) : ParsedDDL := set_name_database (child "name" ctx) (ddl_result DDLTypeDropDatabase ddl).
Definition VisitAlterdatabasestmt (ctx : ptree) : ParsedDDL := set_name_database (child_at 0 "name" ctx) (ddl_result DDLTypeAlterDatabase ddl).
Definition VisitCreateschemastmt (ctx : ptree) : ParsedDDL := set_name_database (child "colid" ctx) (ddl_result DDLTypeCreateDatabase ddl).

Definition VisitCreatestmt (ctx : ptree) : ParsedDDL :=
  let r := ddl_result DDLTypeCreateTable ddl in
  let r := match child_at 0 "qualified_name" ctx with Some n => with_names (extractQualifiedName n) r | None => r end in
  with_changes (create_changes (pd_Database r) (pd_Table r) (from_option extractTableColumns [] (child "opttableelementlist" ctx))) r.

Definition VisitTruncatestmt (ctx : ptree) : ParsedDDL :=
  let r := ddl_result DDLTypeTruncate ddl in
  match child "relation_expr_list" ctx ≫= child_at 0 "relation_expr" with
  | Some t => with_names (extractRelationExpr t) r
  | None => r
  end.

(** ** DROP *)

(** The first of the names that are dropped. *)
Definition first_any_name (ctx : ptree) : option string :=
  extractAnyName <$> (child "any_name_list_" ctx ≫= λ l, head (all_children "any_name" l)).
Definition set_any_name (ctx : ptree) (r : ParsedDDL) : ParsedDDL :=
  match first_any_name ctx with
  | Some n => with_names (match split_first "."%char n with Some p => p | None => ("", n) end) r
  | None => r
  end.

Definition handleDropTable (ctx : ptree) : ParsedDDL := set_any_name ctx (ddl_result DDLTypeDropTable ddl).
Definition handleDropView (ctx : ptree) : ParsedDDL := set_any_name ctx (ddl_result DDLTypeDropView ddl).
Definition handleDropIndex (ctx : ptree) : ParsedDDL :=
  let r := ddl_result DDLTypeDropIndex ddl in
  match first_any_name ctx with
  | None => r
  | Some n =>
      match split_first "."%char n with
      | Some (db, index) => with_index (Some (mkIndexChanges index "" db "drop")) (with_database db r)
      | None => with_index (Some (new_index n "drop")) r
      end
  end.
Definition handleDropSchema (ctx : ptree) : ParsedDDL :=
  let r := ddl_result DDLTypeDropDatabase ddl in
  match child "name_list" ctx with
  | None => r
  | Some l => with_database (strings_Trim is_dquote (strings_TrimSpace (default "" (head (strings_Split (GetText l) ","))))) r
  end.

Definition VisitDropstmt (ctx : ptree) : ParsedDDL :=
  let of_type (k : string) := from_option (has_token k) false (child "object_type_any_name" ctx) in
  if of_type "TABLE" then handleDropTable ctx
  else if of_type "INDEX" then handleDropIndex ctx
  else if of_type "VIEW" then handleDropView ctx
  else
    match child "name_list" ctx with
    | Some _ => if strings_Contains (strings_ToUpper (GetText ctx)) "SCHEMA" then handleDropSchema ctx else ddl_result DDLTypeUnknown ddl
    | None => ddl_result DDLTypeUnknown ddl
    end.

(** ** ALTER TABLE *)

(** What a column becomes: only its name is set before the parts are looked at. *)
Definition processAlterColumn (ctx : ptree) (ch : TableChanges) : TableChanges :=
  match child_at 0 "colid" ctx with
  | None => ch
  | Some c =>
      let name := extractNameText c in
      let record (new : parser_ColumnInfo) := modify_named (mkColumnModification (parser_column name "" false) new) ch in
      if has_token "TYPE_P" ctx then record (parser_column name (extractAlterColumnTypeFromDDL ddl name) false)
      else if has_token "SET" ctx && has_token "NOT" ctx && has_token "NULL_P" ctx then record (parser_column name "" false)
      else if has_token "DROP" ctx && has_token "NOT" ctx && has_token "NULL_P" ctx then record (parser_column name "" true)
      else
        match child "alter_column_default" ctx with
        | Some d =>
            let value := if has_token "SET" d && has_token "DEFAULT" d then GetText <$> child "a_expr" d else None in
            record (mkParserColumn name "" false value false)
        | None => record (parser_column name "" false)
        end
  end.

Definition has_child (r : string) (ctx : ptree) : bool := match child r ctx with Some _ => true | None => false end.

Definition processAlterCommand (ch : TableChanges) (ctx : ptree) : TableChanges :=
  if has_token "ADD_P" ctx then
    match child "columnDef" ctx with Some d => add_column (pg_extractColumnFromDef d) ch | None => ch end
  else if has_token "ALTER" ctx && has_child "column_" ctx then processAlterColumn ctx ch
  else if has_token "DROP" ctx && has_child "column_" ctx && negb (has_token "ALTER" ctx) then
    match child_at 0 "colid" ctx with Some c => drop_named (extractNameText c) ch | None => ch end
  else ch.

Definition processAlterCommands (ctx : ptree) (ch : TableChanges) : TableChanges :=
  foldl processAlterCommand ch (all_children "alter_table_cmd" ctx).

(** The result and the changes of a table that may be named. *)
Definition alter_start (ctx : ptree) : ParsedDDL * TableChanges :=
  let r := ddl_result DDLTypeAlterTable ddl in
  match child "relation_expr" ctx with
  | Some t => (with_names (extractRelationExpr t) r, changes_of (extractRelationExpr t) no_changes)
  | None => (r, no_changes)
  end.

Definition VisitAltertablestmt (ctx : ptree) : ParsedDDL :=
  let '(r, ch) := alter_start ctx in
  with_changes (match child "alter_table_cmds" ctx with Some c => processAlterCommands c ch | None => ch end) r.

Definition VisitRenamestmt (ctx : ptree) : ParsedDDL :=
  if negb (has_token "TABLE" ctx) || negb (has_child "column_" ctx) then ddl_result DDLTypeUnknown ddl
  else
    let '(r, ch) := alter_start ctx in
    with_changes
      (match all_children "name" ctx with
       | old :: new :: _ =>
           modify_named (mkColumnModification (parser_column (extractNameText old) "" false) (parser_column (extractNameText new) "" false)) ch
       | _ => ch
       end) r.

(** ** Statements *)

Definition VisitStmt (ctx : ptree) : option ParsedDDL :=
  first_rule
    [("createdbstmt", Some ∘ VisitCreatedbstmt); ("dropdbstmt", Some ∘ VisitDropdbstmt); ("alterdatabasestmt", Some ∘ VisitAlterdatabasestmt);
     ("createschemastmt", Some ∘ VisitCreateschemastmt); ("createstmt", Some ∘ VisitCreatestmt); ("dropstmt", Some ∘ VisitDropstmt);
     ("altertablestmt", Some ∘ VisitAltertablestmt); ("renamestmt", Some ∘ VisitRenamestmt); ("truncatestmt", Some ∘ VisitTruncatestmt)]
    ctx None.

Definition VisitStmtmulti (ctx : ptree) : list ParsedDDL := omap VisitStmt (all_children "stmt" ctx).
Definition VisitStmtblock (ctx : ptree) : list ParsedDDL := from_option VisitStmtmulti [] (child "stmtmulti" ctx).
Definition pg_VisitRoot (ctx : ptree) : list ParsedDDL := from_option VisitStmtblock [] (child "stmtblock" ctx).
End Visitor.

(** The statement of every result is the text that is parsed. *)
Definition postgres_Parse (tree : string → ptree) (ddl : string) : result (list ParsedDDL) :=
  Ok (parse_results ddl (pg_VisitRoot ddl (tree ddl))).

(** ** Types are found in the text *)

(** A type as it is written: a word, and parameters. *)
Record pg_type := mkPgType { pt_base : string; pt_params : option string }.
Definition pg_type_text (t : pg_type) : string := pt_base t +:+ match pt_params t with Some p => "(" +:+ p +:+ ")" | None => "" end.

Definition plain_char (c : ascii) : bool :=
  negb (pg_blank c) && negb (bool_decide (c ∈ ["("%char; ")"%char; ","%char; ";"%char])).
Definition inside_char (c : ascii) : bool := negb (bool_decide (c ∈ ["("%char; ")"%char])).
Definition good_type (t : pg_type) : Prop :=
  all_chars plain_char (pt_base t) = true ∧ from_option (λ p, all_chars inside_char p) true (pt_params t) = true.

(** What may follow a type of a column: nothing, a comma, or a blank behind which the type
    does not go on. *)
Definition ends_type (tail : string) : Prop :=
  match tail with
  | EmptyString => True
  | String c _ => c = ","%char ∨ pg_blank c = true ∧ type_goes_on tail = false
  end.
(** What may follow the type that a column is given: nothing, a blank or a semicolon. *)
Definition ends_new_type (tail : string) : Prop :=
  match tail with EmptyString => True | String c _ => pg_blank c = true ∨ c = ";"%char end.

Lemma plain_char_cases c :
  plain_char c = true → pg_blank c = false ∧ c ≠ "("%char ∧ c ≠ ")"%char ∧ c ≠ ","%char ∧ c ≠ ";"%char.
Proof. unfold plain_char. intros [Hb H]%andb_true_iff. apply negb_true_iff in Hb, H. apply bool_decide_eq_false in H. set_solver. Qed.

Lemma pg_blank_cases c : pg_blank c = true → c ≠ "("%char ∧ c ≠ ")"%char ∧ c ≠ ","%char.
Proof. unfold pg_blank. intros H. split_and!; intros ->; done. Qed.

Lemma pg_scan_plain p s :
  all_chars plain_char p = true → pg_type_scan 0 (p +:+ s) = p +:+ pg_type_scan 0 s ∧ pg_new_type_scan 0 (p +:+ s) = p +:+ pg_new_type_scan 0 s.
Proof.
  induction p as [|c p IH]; [done|]. unfold all_chars. cbn. intros [Hc Hp]%andb_true_iff.
  apply plain_char_cases in Hc as (Hb & H1 & H2 & H3 & H4).
  destruct (IH Hp) as [E1 E2]. rewrite !string_app_cons. cbn [pg_type_scan pg_new_type_scan].
  rewrite !bool_decide_eq_false_2, Hb by done. cbn [orb Z.ltb Z.compare]. by rewrite E1, E2.
Qed.

Lemma scan_inside p s :
  all_chars inside_char p = true → pg_type_scan 1 (p +:+ s) = p +:+ pg_type_scan 1 s ∧ pg_new_type_scan 1 (p +:+ s) = p +:+ pg_new_type_scan 1 s.
Proof.
  induction p as [|c p IH]; [done|]. unfold all_chars. cbn. intros [Hc Hp]%andb_true_iff.
  unfold inside_char in Hc. apply negb_true_iff, bool_decide_eq_false in Hc.
  destruct (IH Hp) as [E1 E2]. rewrite !string_app_cons. cbn [pg_type_scan pg_new_type_scan].
  rewrite !bool_decide_eq_false_2 by set_solver. change (0 <? 1) with true. by rewrite E1, E2.
Qed.

Lemma scan_type t s :
  good_type t →
  pg_type_scan 0 (pg_type_text t +:+ s) = pg_type_text t +:+ pg_type_scan 0 s ∧
  pg_new_type_scan 0 (pg_type_text t +:+ s) = pg_type_text t +:+ pg_new_type_scan 0 s.
Proof.
  intros [Hb Hp]. unfold pg_type_text. rewrite !string_app_assoc. destruct (pg_scan_plain (pt_base t)
    (match pt_params t with Some p => "(" +:+ p +:+ ")" | None => "" end +:+ s) Hb) as [-> ->].
  destruct (pt_params t) as [p|]; [|by rewrite string_app_nil_l]. rewrite !string_app_assoc.
  change ("(" +:+ p +:+ ")" +:+ s) with (String "(" (p +:+ ")" +:+ s)). cbn [pg_type_scan pg_new_type_scan].
  rewrite !bool_decide_eq_true_2 by done. change (0 + 1) with 1. destruct (scan_inside p (")" +:+ s) Hp) as [-> ->].
  by change (")" +:+ s) with (String ")" s).
Qed.

Lemma scan_ends tail : ends_type tail → pg_type_scan 0 tail = "".
Proof.
  destruct tail as [|c tail]; [done|]. cbn [ends_type]. intros [->|[Hb Hg]]; [done|]. cbn [pg_type_scan].
  destruct (pg_blank_cases c Hb) as (H1 & H2 & _). rewrite !bool_decide_eq_false_2, Hb, Hg by done. done.
Qed.

Lemma scan_new_ends tail : ends_new_type tail → pg_new_type_scan 0 tail = "".
Proof.
  destruct tail as [|c tail]; [done|]. cbn [ends_new_type pg_new_type_scan]. intros H.
  assert (pg_blank c || bool_decide (c = ";"%char) = true) as -> by (destruct H as [Hb| ->]; [by rewrite Hb|by rewrite bool_decide_eq_true_2, orb_true_r]).
  rewrite !bool_decide_eq_false_2; [done|..]; intros ->; by destruct H.
Qed.

Lemma ToUpper_length s : String.length (strings_ToUpper s) = String.length s.
Proof. induction s as [|c s IH]; [done|]. cbn. by rewrite IH. Qed.

Lemma type_behind_at scan ddl pre written search rest :
  ddl = pre +:+ written +:+ rest → String.length written = String.length search →
  strings_Index (strings_ToUpper ddl) search = Some (String.length pre) → neat rest = true →
  type_behind scan ddl search = strings_TrimSpace (scan 0 rest).
Proof.
  intros -> Hl Hi Hn. unfold type_behind. rewrite Hi, <- Hl, <- string_length_app.
  assert (pre +:+ written +:+ rest = (pre +:+ written) +:+ rest) as -> by (by rewrite string_app_assoc).
  rewrite text_from_app. by rewrite (TrimSpace_neat rest).
Qed.

Section Found.
Context (ddl pre name : string) (t : pg_type) (tail : string).
Hypotheses (Ht : good_type t) (Hn : neat (pg_type_text t) = true) (Hr : neat (pg_type_text t +:+ tail) = true).

(** The type of a column is found behind its name, when the name and a blank are found
    nowhere before; what follows it is left out. *)
Theorem pg_type_found :
  ddl = pre +:+ (name +:+ " ") +:+ pg_type_text t +:+ tail →
  strings_Index (strings_ToUpper ddl) (strings_ToUpper name +:+ " ") = Some (String.length pre) → ends_type tail →
  pg_extractColumnTypeFromDDL ddl name = pg_type_text t.
Proof.
  intros Hd Hi He. unfold pg_extractColumnTypeFromDDL.
  rewrite (type_behind_at _ ddl pre (name +:+ " ") _ (pg_type_text t +:+ tail)) by (rewrite ?string_length_app, ?ToUpper_length; done).
  destruct (scan_type t tail Ht) as [-> _]. rewrite scan_ends, string_app_nil_r by done. by apply TrimSpace_neat.
Qed.

(** So is the type that a column is given. *)
Theorem pg_new_type_found :
  ddl = pre +:+ (name +:+ " TYPE ") +:+ pg_type_text t +:+ tail →
  strings_Index (strings_ToUpper ddl) (strings_ToUpper name +:+ " TYPE ") = Some (String.length pre) → ends_new_type tail →
  extractAlterColumnTypeFromDDL ddl name = pg_type_text t.
Proof.
  intros Hd Hi He. unfold extractAlterColumnTypeFromDDL.
  rewrite (type_behind_at _ ddl pre (name +:+ " TYPE ") _ (pg_type_text t +:+ tail)) by (rewrite ?string_length_app, ?ToUpper_length; done).
  destruct (scan_type t tail Ht) as [_ ->]. rewrite scan_new_ends, string_app_nil_r by done. by apply TrimSpace_neat.
Qed.
End Found.

(** The type of the last column of a CREATE TABLE, when nothing is written behind it, is
    taken with the bracket that ends the columns. *)
Theorem pg_last_column_type ddl pre name t :
  good_type t → neat (pg_type_text t +:+ ")") = true →
  ddl = pre +:+ (name +:+ " ") +:+ pg_type_text t +:+ ")" →
  strings_Index (strings_ToUpper ddl) (strings_ToUpper name +:+ " ") = Some (String.length pre) →
  pg_extractColumnTypeFromDDL ddl name = pg_type_text t +:+ ")".
Proof.
  intros Ht Hn Hd Hi. unfold pg_extractColumnTypeFromDDL.
  rewrite (type_behind_at _ ddl pre (name +:+ " ") _ (pg_type_text t +:+ ")")) by (rewrite ?string_length_app, ?ToUpper_length; done).
  destruct (scan_type t ")" Ht) as [-> _]. by apply TrimSpace_neat.
Qed.

(** ** ALTER TABLE as it is written *)

Inductive pg_constraint := PgNotNull | PgPrimaryKey | PgOtherConstraint (words : list string).
Inductive pg_command :=
  | PgAdd (c : ident) (typ : list string) (cs : list pg_constraint)
  | PgDrop (c : ident)
  | PgType (c : ident) (typ : list string)
  | PgSetNotNull (c : ident)
  | PgDropNotNull (c : ident)
  | PgSetDefault (c : ident) (value : string)
  | PgDropDefault (c : ident)
  | PgOtherCommand (words : list string).

Definition pg_text (i : ident) : string := quoted_text dquote dquote i.
Definition colid_tree (i : ident) : ptree := node "colid" [node "identifier" [tok "ID" (pg_text i)]].
Definition name_tree (i : ident) : ptree := node "name" [colid_tree i].
Definition relation_tree (n : qname) : ptree :=
  node "relation_expr" [node "qualified_name"
    (match qn_database n with
     | Some d => [colid_tree d; node "indirection" [tok "DOT" "."; node "attr_name" [tok "ID" (pg_text (qn_table n))]]]
     | None => [colid_tree (qn_table n)]
     end)].

Definition pg_constraint_tree (c : pg_constraint) : ptree :=
  node "colconstraint"
    [node "colconstraintelem"
       (match c with
        | PgNotNull => [tok "NOT" "NOT"; tok "NULL_P" "NULL"]
        | PgPrimaryKey => [tok "PRIMARY" "PRIMARY"; tok "KEY" "KEY"]
        | PgOtherConstraint ws => words_trees ws
        end)].
Definition columnDef_tree (c : ident) (typ : list string) (cs : list pg_constraint) : ptree :=
  node "columnDef" [colid_tree c; node "typename" (words_trees typ); node "colquallist" (pg_constraint_tree <$> cs)].

Definition column_word : ptree := node "column_" [tok "COLUMN" "COLUMN"].
Definition command_tree (c : pg_command) : ptree :=
  node "alter_table_cmd"
    (match c with
     | PgAdd c typ cs => [tok "ADD_P" "ADD"; tok "COLUMN" "COLUMN"; columnDef_tree c typ cs]
     | PgDrop c => [tok "DROP" "DROP"; column_word; colid_tree c]
     | PgType c typ => [tok "ALTER" "ALTER"; column_word; colid_tree c; tok "TYPE_P" "TYPE"; node "typename" (words_trees typ)]
     | PgSetNotNull c => [tok "ALTER" "ALTER"; column_word; colid_tree c; tok "SET" "SET"; tok "NOT" "NOT"; tok "NULL_P" "NULL"]
     | PgDropNotNull c => [tok "ALTER" "ALTER"; column_word; colid_tree c; tok "DROP" "DROP"; tok "NOT" "NOT"; tok "NULL_P" "NULL"]
     | PgSetDefault c v =>
         [tok "ALTER" "ALTER"; column_word; colid_tree c;
          node "alter_column_default" [tok "SET" "SET"; tok "DEFAULT" "DEFAULT"; node "a_expr" [tok "WORD" v]]]
     | PgDropDefault c =>
         [tok "ALTER" "ALTER"; column_word; colid_tree c; node "alter_column_default" [tok "DROP" "DROP"; tok "DEFAULT" "DEFAULT"]]
     | PgOtherCommand ws => words_trees ws
     end).

Definition pg_script (s : ptree) : ptree := node "root" [node "stmtblock" [node "stmtmulti" [node "stmt" [s]]]; eof].
Definition pg_alter_tree (t : qname) (cs : list pg_command) : ptree :=
  node "altertablestmt"
    [tok "ALTER" "ALTER"; tok "TABLE" "TABLE"; relation_tree t; node "alter_table_cmds" (separated comma (command_tree <$> cs))].

(** What the commands mean, with the types that are found in a text. *)
Definition pg_command_meaning (ddl : string) (c : pg_command) : option alter_spec :=
  let modify (c : ident) (new : parser_ColumnInfo) := Some (SpecModify (mkColumnModification (parser_column (id_name c) "" false) new)) in
  match c with
  | PgAdd c _ cs =>
      Some (SpecAdd (parser_column (id_name c) (pg_extractColumnTypeFromDDL ddl (id_name c))
                       (forallb (λ x, match x with PgOtherConstraint _ => true | _ => false end) cs)))
  | PgDrop c => Some (SpecDrop (id_name c))
  | PgType c _ => modify c (parser_column (id_name c) (extractAlterColumnTypeFromDDL ddl (id_name c)) false)
  | PgSetNotNull c => modify c (parser_column (id_name c) "" false)
  | PgDropNotNull c => modify c (parser_column (id_name c) "" true)
  | PgSetDefault c v => modify c (mkParserColumn (id_name c) "" false (Some v) false)
  | PgDropDefault c => modify c (parser_column (id_name c) "" false)
  | PgOtherCommand _ => None
  end.

Definition good_command (c : pg_command) : Prop :=
  match c with
  | PgAdd c _ _ | PgDrop c | PgType c _ | PgSetNotNull c | PgDropNotNull c | PgSetDefault c _ | PgDropDefault c => good_name is_dquote c
  | PgOtherCommand _ => True
  end.

Lemma colid_ok i : good_name is_dquote i → extractNameText (colid_tree i) = id_name i.
Proof.
  intros Hi. unfold extractNameText, colid_tree, node, tok. cbn. rewrite !string_app_nil_r. by apply trim_ident.
Qed.

Lemma relation_text n : GetText (relation_tree n) = quoted_names dquote dquote n.
Proof.
  unfold relation_tree, quoted_names, colid_tree, pg_text. destruct (qn_database n) as [d|]; cbn; by rewrite !string_app_nil_r.
Qed.

Lemma extractRelationExpr_ok n : good_names is_dquote n → extractRelationExpr (relation_tree n) = qname_names n.
Proof. intros Hn. unfold extractRelationExpr. rewrite relation_text, <- remove_char_twice. by eapply (remove_quotes_names _ _ is_dquote). Qed.

Lemma applyColumnConstraints_ok cs : ∀ name typ n,
  applyColumnConstraints (node "colquallist" (pg_constraint_tree <$> cs)) (parser_column name typ n) =
  parser_column name typ (n && forallb (λ x, match x with PgOtherConstraint _ => true | _ => false end) cs).
Proof.
  intros name typ. unfold applyColumnConstraints, all_children. cbn [children_of node]. rewrite filter_rule_all by done.
  induction cs as [|c cs IH]; intros n; [cbn; by rewrite andb_true_r|]. cbn [fmap list_fmap foldl forallb].
  destruct c as [| |ws]; cbn [pg_constraint_tree].
  - rewrite andb_false_r. apply (IH false).
  - rewrite andb_false_r. apply (IH false).
  - assert (HT : ∀ k, k ≠ "WORD" → has_token k (node "colconstraintelem" (words_trees ws)) = false) by (intros k; apply words_no_token).
    match goal with |- context [child "colconstraintelem" ?t] => change (child "colconstraintelem" t) with (Some (node "colconstraintelem" (words_trees ws))) end.
    cbv iota. rewrite !HT by done. cbn [andb]. apply IH.
Qed.

Lemma processAlterCommand_ok ddl c ch :
  good_command c → processAlterCommand ddl ch (command_tree c) = match pg_command_meaning ddl c with Some s => add_spec ch s | None => ch end.
Proof.
  destruct c as [c typ cs|c|c typ|c|c|c v|c|ws]; cbn [good_command]; intros Hc.
  - change (processAlterCommand ddl ch _) with (add_column (applyColumnConstraints (node "colquallist" (pg_constraint_tree <$> cs))
      (parser_column (extractNameText (colid_tree c)) (pg_extractColumnTypeFromDDL ddl (extractNameText (colid_tree c))) true)) ch).
    by rewrite applyColumnConstraints_ok, colid_ok.
  - change (processAlterCommand ddl ch _) with (drop_named (extractNameText (colid_tree c)) ch). by rewrite colid_ok.
  - change (processAlterCommand ddl ch _) with (modify_named (mkColumnModification (parser_column (extractNameText (colid_tree c)) "" false)
      (parser_column (extractNameText (colid_tree c)) (extractAlterColumnTypeFromDDL ddl (extractNameText (colid_tree c))) false)) ch). by rewrite colid_ok.
  - change (processAlterCommand ddl ch _) with (modify_named (mkColumnModification (parser_column (extractNameText (colid_tree c)) "" false)
      (parser_column (extractNameText (colid_tree c)) "" false)) ch). by rewrite colid_ok.
  - change (processAlterCommand ddl ch _) with (modify_named (mkColumnModification (parser_column (extractNameText (colid_tree c)) "" false)
      (parser_column (extractNameText (colid_tree c)) "" true)) ch). by rewrite colid_ok.
  - change (processAlterCommand ddl ch _) with (modify_named (mkColumnModification (parser_column (extractNameText (colid_tree c)) "" false)
      (mkParserColumn (extractNameText (colid_tree c)) "" false (Some (v +:+ "")) false)) ch). by rewrite colid_ok, string_app_nil_r.
  - change (processAlterCommand ddl ch _) with (modify_named (mkColumnModification (parser_column (extractNameText (colid_tree c)) "" false)
      (parser_column (extractNameText (colid_tree c)) "" false)) ch). by rewrite colid_ok.
  - unfold processAlterCommand.
    assert (HT : ∀ k, k ≠ "WORD" → has_token k (command_tree (PgOtherCommand ws)) = false) by (intros k; apply words_no_token).
    by rewrite !HT by done.
Qed.

Lemma processAlterCommands_ok ddl cs : ∀ ch,
  Forall good_command cs →
  processAlterCommands ddl (node "alter_table_cmds" (separated comma (command_tree <$> cs))) ch = add_specs ch (omap (pg_command_meaning ddl) cs).
Proof.
  intros ch Hg. unfold processAlterCommands, all_children. cbn [children_of node]. rewrite filter_separated, filter_rule_all by done.
  revert ch. induction Hg as [|c cs Hc _ IH]; intros ch; [done|]. cbn [fmap list_fmap foldl omap list_omap].
  rewrite processAlterCommand_ok by done. rewrite IH. by destruct (pg_command_meaning ddl c).
Qed.

(** An ALTER TABLE does to the columns what its commands do, one after the other, when no
    column is named twice, with the types that the text gives. *)
Theorem postgres_alter_applied tree ddl t cs old :
  tree ddl = pg_script (pg_alter_tree t cs) → good_names is_dquote t → Forall good_command cs →
  independent PostgresDialect (omap (pg_command_meaning ddl) cs) →
  ∃ r, ApplyDDL_of PostgresDialect (postgres_Parse tree) (Some old) ddl = Ok (Some r) ∧ (pd_Database r, pd_Table r) = qname_names t ∧
    pd_Statement r = ddl ∧
    (ti_Columns <$> pd_NewTableInfo r) = Some (foldl (apply_spec PostgresDialect) (ti_Columns old) (omap (pg_command_meaning ddl) cs)).
Proof.
  intros Ht Hn Hg Hi.
  assert (Hp : pg_VisitRoot ddl (pg_script (pg_alter_tree t cs)) =
    [with_changes (processAlterCommands ddl (node "alter_table_cmds" (separated comma (command_tree <$> cs)))
       (changes_of (extractRelationExpr (relation_tree t)) no_changes))
       (with_names (extractRelationExpr (relation_tree t)) (ddl_result DDLTypeAlterTable ddl))]) by done.
  unfold ApplyDDL_of, postgres_Parse. rewrite Ht, Hp, processAlterCommands_ok, extractRelationExpr_ok, add_specs_changes by done.
  rewrite <- alter_columns_in_order by done. eexists. split; [reflexivity|]. split; [by destruct (qname_names t)|]. split; reflexivity.
Qed.

Module PostgresVisitorRuns.
Definition plain (s : string) : ident := mkIdent false s.
Definition people : qname := mkQname (Some (plain "public")) (plain "people").
Definition text : string := "ALTER TABLE public.people ADD COLUMN pay NUMERIC(10,2) NOT NULL, DROP COLUMN note, ALTER COLUMN age TYPE BIGINT".
Definition commands : list pg_command :=
  [PgAdd (plain "pay") ["NUMERIC"; "("; "10"; ","; "2"; ")"] [PgNotNull]; PgDrop (plain "note"); PgType (plain "age") ["BIGINT"]].
Definition old_people : TableInfo :=
  mkTableInfo "" "public" "people" ["id"] []
    [mkColumnInfo "id" "INTEGER" false 0 0; mkColumnInfo "age" "SMALLINT" true 0 0; mkColumnInfo "note" "TEXT" true 0 0].

(** A column that is given another type may not be null any more. *)
Lemma postgres_alter_applied_witness :
  ∃ r, ApplyDDL_of PostgresDialect (postgres_Parse (λ _, pg_script (pg_alter_tree people commands))) (Some old_people) text = Ok (Some r) ∧
    (ti_Columns <$> pd_NewTableInfo r) =
    Some [mkColumnInfo "id" "INTEGER" false 0 0; mkColumnInfo "age" "BIGINT" false 0 0; mkColumnInfo "pay" "NUMERIC" false 10 2].
Proof.
  destruct (postgres_alter_applied (λ _, pg_script (pg_alter_tree people commands)) text people commands old_people) as (r & Hr & _ & _ & Hi).
  - reflexivity.
  - done.
  - by repeat constructor.
  - match goal with |- independent _ ?l => let l' := eval vm_compute in l in change (independent PostgresDialect l') end.
    repeat constructor; set_solver.
  - exists r. split; [exact Hr|]. rewrite Hi. vm_compute. reflexivity.
Defined.

Lemma pg_type_found_witness : pg_extractColumnTypeFromDDL text "pay" = "NUMERIC(10,2)".
Proof.
  apply (pg_type_found text "ALTER TABLE public.people ADD COLUMN " "pay" (mkPgType "NUMERIC" (Some "10,2"))
    " NOT NULL, DROP COLUMN note, ALTER COLUMN age TYPE BIGINT"); try (vm_compute; done). right. split; vm_compute; reflexivity.
Defined.

Definition create_text : string := "CREATE TABLE people (id INT NOT NULL, name VARCHAR(100))".
Lemma pg_last_column_type_witness : pg_extractColumnTypeFromDDL create_text "name" = "VARCHAR(100))".
Proof. apply (pg_last_column_type create_text "CREATE TABLE people (id INT NOT NULL, " "name" (mkPgType "VARCHAR" (Some "100"))); vm_compute; done. Defined.

(** The length of the last column is lost with it. *)
Example last_column_length : parseTypeString PostgresDialect "VARCHAR(100))" = ("VARCHAR", 0, 0).
Proof. reflexivity. Qed.

(** A name that is found earlier in the text gives another type. *)
Example name_found_earlier :
  (pg_extractColumnTypeFromDDL "CREATE TABLE paid (amount INT, id BIGINT)" "id", pg_extractColumnTypeFromDDL "CREATE TABLE t (paid BOOL, id BIGINT)" "id") =
  ("(amount INT, id BIGINT)", "BOOL").
Proof. reflexivity. Qed.

(** The word ONLY is taken for a part of the name of the table. *)
Example alter_only :
  extractRelationExpr (node "relation_expr" [tok "ONLY" "ONLY"; node "qualified_name" [colid_tree (plain "people")]]) = ("", "ONLYpeople").
Proof. reflexivity. Qed.

(** Quotes stay inside a name that is qualified. *)
Example drop_quoted :
  let q := mkIdent true "a" in
  let r := VisitDropstmt "x" (node "dropstmt" [tok "DROP" "DROP"; node "object_type_any_name" [tok "TABLE" "TABLE"];
    node "any_name_list_" [node "any_name" [colid_tree q; node "attrs" [tok "DOT" "."; node "attr_name" [tok "ID" (pg_text q)]]]]]) in
  (pd_Database r, pd_Table r) = (String "a" (String dquote ""), String dquote "a").
Proof. reflexivity. Qed.
End PostgresVisitorRuns.
