(* ===== verification/TaskApi.v ===== *)
(** The HTTP handlers for tasks, nodes and the cluster (internal/api/server.go), and how the
    application is put together and shut down (internal/app/app.go).

    A handler takes the variables of the path and the decoded body, [None] where the decoder
    fails; routing is gorilla/mux.  Requests are served one at a time.  The text of an error
    response is the error it is made of.  The coordinator of the server is another object
    than that of the task manager, which has none in the application. *)
From Stdlib Require Import ZArith Lia.
From Stdlib Require String.
From stdpp Require Import prelude countable gmap strings list fin_maps pretty.
From S2P Require Import Prelude Events Pipeline Tasks.
Local Open Scope Z_scope.

(** ** Responses *)

(** The envelope: a message is "success" where there is no error. *)
Record apiResponse (D : Type) := mkResponse {
  ar_status : Z;
  ar_code : Z;
  ar_message : option goerror;
  ar_data : option D
}.
Arguments mkResponse {D}.
Arguments ar_status {D}.
Arguments ar_code {D}.
Arguments ar_message {D}.
Arguments ar_data {D}.

Definition StatusOK : Z := 200.
Definition StatusCreated : Z := 201.
Definition StatusBadRequest : Z := 400.
Definition StatusNotFound : Z := 404.
Definition StatusConflict : Z := 409.
Definition StatusInternalServerError : Z := 500.
Definition StatusServiceUnavailable : Z := 503.

Definition writeJSON {D} (statusCode : Z) (data : D) : apiResponse D := mkResponse statusCode 0 None (Some data).
Definition writeError {D} (statusCode : Z) (msg : goerror) : apiResponse D := mkResponse statusCode statusCode (Some msg) None.

(** A response says in its envelope what its status says. *)
Definition consistent {D} (r : apiResponse D) : Prop :=
  ar_status r < 400 ∧ ar_code r = 0 ∧ ar_message r = None ∨ 400 <= ar_status r ∧ ar_code r = ar_status r ∧ ar_message r ≠ None.

(** ** The server *)

(** What the handlers ask of a pipeline and of the coordinator. *)
Record PipelineStatus := mkPipelineStatus { pst_State : State; pst_Statistics : Statistics; pst_CurrentLag : Z }.
Class PipelineView (P : Type) := pipe_Status : P → PipelineStatus.
Class NodeRegistry (N : Type) := {
  nodes_List : N → result (list NodeInfo);
  nodes_Unregister : string → ST N unit
}.

#[export] Instance memory_nodes `{!GoRange string NodeInfo} : NodeRegistry MemoryCoordinator := {|
  nodes_List c := Ok (go_range (mc_nodes c)).*2;
  nodes_Unregister id c := (mc_UnregisterNode id c, Ok tt)
|}.

Section Server.
Context {P Cfg C N : Type} `{PO : !PipelineOps P} `{PV : !PipelineView P} `{CO : !Coordinator (Task P Cfg) C} `{NR : !NodeRegistry N}.
Context `{GR : !GoRange string loc}.

Record Server := mkServer {
  sv_taskMgr : option (TaskManager P Cfg C);
  sv_coordinator : option N
}.

Definition NewServer : Server := mkServer None None.
Definition SetTaskManager (tm : TaskManager P Cfg C) (s : Server) : Server := mkServer (Some tm) (sv_coordinator s).
Definition SetCoordinator (c : N) (s : Server) : Server := mkServer (sv_taskMgr s) (Some c).

(** What responses carry. *)
Inductive api_data :=
  | DStatus (status : string)
  | DTasks (tasks : list (Task P Cfg)) (count : Z)
  | DTask (t : option (Task P Cfg))
  | DTaskStatus (id : string) (status : TaskStatus) (createdAt updatedAt : time) (pipeline : option (State * Statistics))
  | DProgress (id : string) (pos : option Position) (read written failed lag : Z)
  | DPosition (id : string) (pos : option Position)
  | DReady (ready : bool)
  | DNodes (nodes : list NodeInfo) (count : Z)
  | DDrained (tasksStopped : Z)
  | DCluster (nodes : list NodeInfo) (nodeCount : Z) (taskCount : option Z)
  | DLeader (leader : option NodeInfo)
  | DMessage (status message : string)
  | DHealth (status : string) (now : time)
  | DDiagnose (tasks : option Z).

Notation response := (apiResponse api_data) (only parsing).
Notation handler := (Server → Server * response) (only parsing).

Definition answer (r : response) : handler := λ s, (s, r).
Definition no_manager : response := writeError StatusServiceUnavailable (ErrNew "task manager not available").
Definition no_coordinator : response := writeError StatusServiceUnavailable (ErrNew "coordinator not available").
Definition bad_body : response := writeError StatusBadRequest (ErrNew "invalid request body").

(** A handler that needs the task manager, or the task of an identifier. *)
Definition on_manager (f : TaskManager P Cfg C → TaskManager P Cfg C * response) : handler := λ s,
  match sv_taskMgr s with
  | None => (s, no_manager)
  | Some m => let '(m', r) := f m in (mkServer (Some m') (sv_coordinator s), r)
  end.

Definition on_found (id : string) (f : loc → Task P Cfg → TaskManager P Cfg C → TaskManager P Cfg C * response) : handler :=
  on_manager (λ m,
    match find_task id m with
    | None => (m, writeError StatusNotFound ErrTaskNotFound)
    | Some (l, t) => f l t m
    end).

(** A method of the task that may fail, and what its success is answered with. *)
Definition task_call (f : ST (Task P Cfg) unit) (status : string) (l : loc) (t : Task P Cfg) (m : TaskManager P Cfg C) :
    TaskManager P Cfg C * response :=
  match f t with
  | (t', Ok _) => (set_task l t' m, writeJSON StatusOK (DStatus status))
  | (t', Err err) => (set_task l t' m, writeError StatusInternalServerError err)
  end.

(** *** Tasks *)

Definition handleHealth (now : time) : handler := answer (writeJSON StatusOK (DHealth "healthy" now)).

Definition manager_tasks (m : TaskManager P Cfg C) : list (Task P Cfg) := omap (λ l, tm_heap m !! l) (Manager_List m).

Definition listTasks : handler :=
  on_manager (λ m, (m, writeJSON StatusOK (DTasks (manager_tasks m) (zlen (Manager_List m))))).

Definition createTask (now : time) (body : option (string * string * option Cfg)) : handler :=
  on_manager (λ m,
    match body with
    | None => (m, bad_body)
    | Some (id, name, config) =>
        match Create now id name config m with
        | (m', Ok l) => (m', writeJSON StatusCreated (DTask (tm_heap m' !! l)))
        | (m', Err err) => (m', writeError StatusInternalServerError err)
        end
    end).

Definition getTask (id : string) : handler := on_found id (λ l t m, (m, writeJSON StatusOK (DTask (Some t)))).

(** A method of the manager. *)
Definition manager_call (f : ST (TaskManager P Cfg C) unit) (status : string) : handler :=
  on_manager (λ m,
    match f m with
    | (m', Ok _) => (m', writeJSON StatusOK (DStatus status))
    | (m', Err err) => (m', writeError StatusInternalServerError err)
    end).

Definition deleteTask (now : time) (id : string) : handler := manager_call (Delete now id) "deleted".
Definition startTask (now : time) (id : string) : handler := manager_call (Manager_Start now id) "started".
Definition stopTask (now : time) (id : string) : handler := manager_call (Manager_Stop now id) "stopped".
Definition pauseTask (now : time) (id : string) : handler := on_found id (task_call (Task_Pause now) "paused").
Definition resumeTask (now : time) (id : string) : handler := on_found id (task_call (Task_Resume now) "running").

(** An error of [Stop] is only logged. *)
Definition restartTask (now : time) (id : string) : handler :=
  on_found id (λ l t m, task_call (Task_Start now) "restarted" l (Task_Stop now t).1 m).

Definition updateTask (now : time) (id : string) (body : option (string * option Cfg)) : handler :=
  on_found id (λ l t m,
    match body with
    | None => (m, bad_body)
    | Some (name, config) =>
        let t' := Task_Update now name config t in
        (set_task l t' m, writeJSON StatusOK (DTask (Some t')))
    end).

Definition getTaskStatus (id : string) : handler :=
  on_found id (λ l t m,
    (m, writeJSON StatusOK (DTaskStatus id (t_Status t) (t_CreatedAt t) (t_UpdatedAt t)
          ((λ p, (pst_State (pipe_Status p), pst_Statistics (pipe_Status p))) <$> t_Pipeline t)))).

Definition getTaskProgress (id : string) : handler :=
  on_found id (λ l t m,
    (m, writeJSON StatusOK
          (match t_Pipeline t with
           | Some p =>
               let st := pst_Statistics (pipe_Status p) in
               DProgress id (Task_GetPosition t) (st_EventsRead st) (st_EventsWritten st) (st_EventsFailed st) (pst_CurrentLag (pipe_Status p))
           | None => DProgress id (Task_GetPosition t) 0 0 0 0
           end))).

Definition readyCheck : handler := λ s,
  let ready := match sv_taskMgr s with Some _ => true | None => false end in
  (s, writeJSON (if ready then StatusOK else StatusServiceUnavailable) (DReady ready)).

Definition getTaskPosition (id : string) : handler := on_found id (λ l t m, (m, writeJSON StatusOK (DPosition id (Task_GetPosition t)))).

(** The fields of a position that a request can set. *)
Record position_body := mkPositionBody { pb_file : string; pb_pos : Z; pb_lsn : Z; pb_tx : string; pb_seq : Z }.
Definition body_position (b : position_body) : Position :=
  mkPosition (pb_file b) (pb_pos b) (pb_lsn b) 0 0 0 None "" "" 0 (pb_tx b) (pb_seq b) 0.

Definition setTaskPosition (now : time) (id : string) (body : option position_body) : handler :=
  on_found id (λ l t m,
    match body with
    | None => (m, bad_body)
    | Some b => (set_task l (Task_SetPosition now (body_position b) t) m, writeJSON StatusOK (DStatus "updated"))
    end).

(** *** Nodes and the cluster *)

Definition on_nodes (f : list NodeInfo → Server → api_data) : handler := λ s,
  match sv_coordinator s with
  | None => (s, no_coordinator)
  | Some c =>
      match nodes_List c with
      | Err err => (s, writeError StatusInternalServerError err)
      | Ok nodes => (s, writeJSON StatusOK (f nodes s))
      end
  end.

Definition listNodes : handler := on_nodes (λ nodes _, DNodes nodes (zlen nodes)).

Definition deleteNode (id : string) : handler := λ s,
  match sv_coordinator s with
  | None => (s, no_coordinator)
  | Some c =>
      match nodes_Unregister id c with
      | (c', Ok _) => (mkServer (sv_taskMgr s) (Some c'), writeJSON StatusOK (DStatus "unregistered"))
      | (c', Err err) => (mkServer (sv_taskMgr s) (Some c'), writeError StatusInternalServerError err)
      end
  end.

(** The tasks that run are stopped one after the other. *)
Definition drain_step (now : time) (a : TaskManager P Cfg C * Z) (l : loc) : TaskManager P Cfg C * Z :=
  let '(m, stopped) := a in
  match tm_heap m !! l with
  | Some t =>
      if bool_decide (t_Status t = TaskStatusRunning) then
        match Task_Stop now t with
        | (t', Ok _) => (set_task l t' m, stopped + 1)
        | (t', Err _) => (set_task l t' m, stopped)
        end
      else a
  | None => a
  end.

Definition drainNode (now : time) : handler :=
  on_manager (λ m, let '(m', stopped) := foldl (drain_step now) (m, 0) (Manager_List m) in (m', writeJSON StatusOK (DDrained stopped))).

Definition getClusterStatus : handler :=
  on_nodes (λ nodes s, DCluster nodes (zlen nodes) ((λ m, zlen (Manager_List m)) <$> sv_taskMgr s)).

(** The first node that is listed. *)
Definition getClusterLeader : handler := on_nodes (λ nodes _, DLeader (head nodes)).

Definition api_rebalanceCluster : handler := λ s,
  match sv_coordinator s with
  | None => (s, no_coordinator)
  | Some _ => (s, writeJSON StatusOK (DMessage "rebalanced" "single-node mode, no rebalance needed"))
  end.

(** Of the diagnosis, the number of tasks; the rest is that of the Go runtime. *)
Definition diagnose : handler := λ s, (s, writeJSON StatusOK (DDiagnose ((λ m, zlen (Manager_List m)) <$> sv_taskMgr s))).

(** ** Requests *)

Inductive request :=
  | RHealth | RListTasks | RCreateTask (body : option (string * string * option Cfg)) | RGetTask (id : string) | RDeleteTask (id : string)
  | RStartTask (id : string) | RStopTask (id : string) | RPauseTask (id : string) | RResumeTask (id : string)
  | RUpdateTask (id : string) (body : option (string * option Cfg)) | RRestartTask (id : string) | RTaskStatus (id : string)
  | RTaskProgress (id : string) | RReady | RGetPosition (id : string) | RSetPosition (id : string) (body : option position_body)
  | RListNodes | RDeleteNode (id : string) | RDrainNode (id : string) | RClusterStatus | RClusterLeader | RRebalance | RDiagnose.

Definition serve (now : time) (r : request) : handler :=
  match r with
  | RHealth => handleHealth now
  | RListTasks => listTasks
  | RCreateTask b => createTask now b
  | RGetTask id => getTask id
  | RDeleteTask id => deleteTask now id
  | RStartTask id => startTask now id
  | RStopTask id => stopTask now id
  | RPauseTask id => pauseTask now id
  | RResumeTask id => resumeTask now id
  | RUpdateTask id b => updateTask now id b
  | RRestartTask id => restartTask now id
  | RTaskStatus id => getTaskStatus id
  | RTaskProgress id => getTaskProgress id
  | RReady => readyCheck
  | RGetPosition id => getTaskPosition id
  | RSetPosition id b => setTaskPosition now id b
  | RListNodes => listNodes
  | RDeleteNode id => deleteNode id
  | RDrainNode _ => drainNode now
  | RClusterStatus => getClusterStatus
  | RClusterLeader => getClusterLeader
  | RRebalance => api_rebalanceCluster
  | RDiagnose => diagnose
  end.

(** The server after a sequence of requests, each with the time of its arrival. *)
Definition serve_all (s : Server) (rs : list (time * request)) : Server := foldl (λ s r, (serve r.1 r.2 s).1) s rs.

(** ** The application *)

(** [New], with the coordinator it made: the manager has none, and no pipeline is made for a
    task anywhere. *)
Definition app_New (c : N) : Server := SetCoordinator c (SetTaskManager (NewTaskManager None) NewServer).

(** Of [doShutdown], the step between stopping the server and closing the coordinator: the
    tasks that run are stopped by the manager. *)
Definition shutdown_step (now : time) (m : TaskManager P Cfg C) (l : loc) : TaskManager P Cfg C :=
  match tm_heap m !! l with
  | Some t => if bool_decide (t_Status t = TaskStatusRunning) then (Manager_Stop now (t_ID t) m).1 else m
  | None => m
  end.
Definition shutdown_tasks (now : time) (s : Server) : Server :=
  match sv_taskMgr s with
  | Some m => mkServer (Some (foldl (shutdown_step now) m (Manager_List m))) (sv_coordinator s)
  | None => s
  end.
End Server.
Arguments Server : clear implicits.
Arguments request : clear implicits.
Arguments api_data : clear implicits.

(** ** Properties *)

Section Properties.
Context {P Cfg C N : Type} `{PO : !PipelineOps P} `{PV : !PipelineView P} `{CO : !Coordinator (Task P Cfg) C} `{CL : !CoordinatorLaws (Task P Cfg) C}.
Context `{NR : !NodeRegistry N} `{GR : !GoRange string loc}.
Implicit Types s : Server P Cfg C N.
Implicit Types m : TaskManager P Cfg C.
Implicit Types t : Task P Cfg.

(** *** The envelope *)

(** A response that is given. *)
Ltac api_ok := cbn; first [left; by repeat split|right; by repeat split].

Lemma on_manager_response (f : TaskManager P Cfg C → TaskManager P Cfg C * apiResponse (api_data P Cfg)) s :
  (∀ m, consistent (f m).2) → consistent (on_manager f s).2.
Proof.
  intros Hf. unfold on_manager, no_manager. destruct (sv_taskMgr s) as [m|]; [|api_ok].
  specialize (Hf m). by destruct (f m).
Qed.

Lemma on_found_response id (f : loc → Task P Cfg → TaskManager P Cfg C → TaskManager P Cfg C * apiResponse (api_data P Cfg)) s :
  (∀ l t m, consistent (f l t m).2) → consistent (on_found id f s).2.
Proof. intros Hf. apply on_manager_response. intros m. destruct (find_task id m) as [[l t]|]; [apply Hf|api_ok]. Qed.

Lemma task_call_response f st l t m : consistent (task_call (C := C) f st l t m).2.
Proof. unfold task_call. destruct (f t) as [t' [[]|]]; api_ok. Qed.

Lemma manager_call_response f st s : consistent (manager_call f st s).2.
Proof. apply on_manager_response. intros m. destruct (f m) as [m' [[]|]]; api_ok. Qed.

Lemma on_nodes_response f s : consistent (on_nodes f s).2.
Proof.
  unfold on_nodes, no_coordinator. destruct (sv_coordinator s) as [c|]; [|api_ok]. destruct (nodes_List c); api_ok.
Qed.

Lemma serve_consistent now (r : request Cfg) s : r ≠ RReady → consistent (serve now r s).2.
Proof.
  intros Hr. destruct r; cbn [serve]; try done.
  all: try (apply on_found_response; intros l t m; first [apply task_call_response|api_ok]).
  all: try (first [apply manager_call_response|apply on_nodes_response|unfold handleHealth, answer; api_ok|unfold diagnose; api_ok]).
  - apply on_manager_response. intros m. api_ok.
  - apply on_manager_response. intros m. destruct body as [[[id name] cfg]|]; [|api_ok].
    destruct (Create now id name cfg m) as [m' [l|]]; api_ok.
  - apply on_found_response. intros l t m. destruct body as [[name cfg]|]; api_ok.
  - apply on_found_response. intros l t m. destruct body; api_ok.
  - unfold deleteNode, no_coordinator. destruct (sv_coordinator s) as [c|]; [|api_ok].
    destruct (nodes_Unregister id c) as [c' [[]|]]; api_ok.
  - apply on_manager_response. intros m. destruct (foldl _ _ _). api_ok.
  - unfold api_rebalanceCluster, no_coordinator. destruct (sv_coordinator s); api_ok.
Qed.

(** Every response says in its envelope what its status says, but for the readiness probe of
    a server without a task manager, which says 503 and success. *)
Theorem api_envelope now (r : request Cfg) s : consistent (serve now r s).2 ↔ ¬ (r = RReady ∧ sv_taskMgr s = None).
Proof.
  assert (Hd : r = RReady ∨ r ≠ RReady) by (destruct r; auto). destruct Hd as [->|Hr].
  - cbn [serve]. unfold readyCheck. destruct (sv_taskMgr s); split.
    + by intros _ [_ [=]].
    + intros _. left. by repeat split.
    + unfold consistent. cbn. intros [[H _]|(_ & [=] & _)]; done.
    + intros H. by destruct H.
  - split; [by intros _ [? _]|]. intros _. by apply serve_consistent.
Qed.

(** *** Requests are operations of the manager *)

(** What a request asks of the manager. *)
Definition request_ops (now : time) (r : request Cfg) : list (tm_op (P := P) (Cfg := Cfg)) :=
  match r with
  | RCreateTask (Some (id, name, config)) => [OpCreate now id name config]
  | RDeleteTask id => [OpDelete now id]
  | RStartTask id => [OpStart now id]
  | RStopTask id => [OpStop now id]
  | RPauseTask id => [OpPause now id]
  | RResumeTask id => [OpResume now id]
  | RUpdateTask id (Some (name, config)) => [OpUpdate now id name config]
  | RRestartTask id => [OpStop now id; OpStart now id]
  | RSetPosition id (Some b) => [OpSetPosition now id (body_position b)]
  | RDrainNode _ => [OpStopAll now]
  | _ => []
  end.

Lemma Manager_List_nodup m : tm_inv m → NoDup (Manager_List m).
Proof.
  intros [_ Hh]. unfold Manager_List. pose proof (go_range_perm (tm_tasks m)) as Hp.
  apply NoDup_fmap_2_strong.
  - intros [id l] [id' l'] H1 H2 E. cbn in E. subst l'. rewrite Hp in H1, H2. apply elem_of_map_to_list in H1, H2.
    destruct (Hh _ _ H1) as (t & Ht & <-). destruct (Hh _ _ H2) as (t' & Ht' & <-). congruence.
  - rewrite Hp. apply NoDup_map_to_list.
Qed.

Lemma is_running_set_ne m l l' t : l ≠ l' → is_running (set_task l t m) l' = is_running m l'.
Proof. intros Hne. unfold is_running. cbn. by rewrite list_lookup_insert_ne. Qed.

Lemma drain_is_StopAll now ls : ∀ m k,
  NoDup ls → foldl (drain_step now) (m, k) ls =
    (foldl (stop_at now) m (List.filter (is_running m) ls), k + zlen (List.filter (is_running m) ls)).
Proof.
  induction ls as [|l ls IH]; intros m k Hnd; [cbn; unfold zlen; cbn; by rewrite Z.add_0_r|]. apply NoDup_cons in Hnd as [Hl Hnd]. cbn [foldl List.filter].
  assert (Hrun : is_running m l = match tm_heap m !! l with Some t => bool_decide (t_Status t = TaskStatusRunning) | None => false end) by done.
  unfold drain_step at 2. destruct (tm_heap m !! l) as [t|] eqn:E; [|rewrite Hrun; by apply IH].
  rewrite Hrun. destruct (bool_decide (t_Status t = TaskStatusRunning)) eqn:Er; [|by apply IH]. apply bool_decide_eq_true in Er.
  assert (Hs : Task_Stop now t = ((Task_Stop now t).1, Ok tt)) by (unfold Task_Stop; by case_bool_decide).
  rewrite Hs. rewrite IH by done. cbn [foldl]. unfold stop_at at 3. rewrite E.
  assert (Hf : List.filter (is_running (set_task l (Task_Stop now t).1 m)) ls = List.filter (is_running m) ls).
  { clear IH Hs. induction ls as [|x ls IHl]; [done|]. apply not_elem_of_cons in Hl as [Hx Hl]. apply NoDup_cons in Hnd as [_ Hnd]. cbn [List.filter].
    rewrite is_running_set_ne by done. by rewrite IHl. }
  rewrite Hf. f_equal. unfold zlen. cbn [length]. lia.
Qed.

Lemma manager_call_ops f st s m : sv_taskMgr s = Some m → sv_taskMgr (manager_call f st s).1 = Some (f m).1.
Proof. intros Hm. unfold manager_call, on_manager. rewrite Hm. by destruct (f m) as [m' [[]|]]. Qed.

Lemma task_call_ops id f st s m : sv_taskMgr s = Some m → sv_taskMgr (on_found id (task_call f st) s).1 = Some (on_task id f m).1.
Proof.
  intros Hm. unfold on_found, on_manager, on_task, task_call. rewrite Hm. destruct (find_task id m) as [[l t]|]; [|done].
  by destruct (f t) as [t' [[]|]].
Qed.

Lemma find_task_set id m l t t' :
  find_task id m = Some (l, t) → find_task id (set_task l t' m) = Some (l, t') ∧ ∀ t'', set_task l t'' (set_task l t' m) = set_task l t'' m.
Proof.
  intros [Hid Hl]%find_task_Some. split; [|intros t''; unfold set_task; cbn; by rewrite list_insert_insert_eq].
  apply find_task_Some. split; [done|]. cbn. apply list_lookup_insert_eq. by eapply lookup_lt_Some.
Qed.

Lemma on_nodes_server f s : (on_nodes f s).1 = s.
Proof. unfold on_nodes. destruct (sv_coordinator s) as [c|]; [|done]. by destruct (nodes_List c). Qed.

Lemma serve_ops now r s m :
  sv_taskMgr s = Some m → tm_inv m → sv_taskMgr (serve now r s).1 = Some (foldl tm_perform m (request_ops now r)).
Proof.
  intros Hm Hinv. destruct r; cbn [serve request_ops foldl tm_perform].
  all: try done.
  all: try (unfold listNodes, getClusterStatus, getClusterLeader; by rewrite on_nodes_server).
  all: try (by apply manager_call_ops).
  all: try (by apply task_call_ops).
  all: try (unfold getTask, getTaskStatus, getTaskProgress, getTaskPosition, on_found, on_manager; rewrite Hm; by destruct (find_task id m) as [[l t]|]).
  - unfold listTasks, on_manager. by rewrite Hm.
  - unfold createTask, on_manager. rewrite Hm. destruct body as [[[id name] cfg]|]; [|done]. cbn [foldl tm_perform]. by destruct (Create now id name cfg m) as [m' []].
  - unfold updateTask, on_found, on_manager. rewrite Hm. destruct body as [[name cfg]|]; cbn [foldl tm_perform]; [|by destruct (find_task id m) as [[l t]|]].
    unfold on_task. by destruct (find_task id m) as [[l t]|].
  - unfold restartTask, on_found, on_manager. rewrite Hm. unfold Manager_Start, Manager_Stop.
    destruct (find_task id m) as [[l t]|] eqn:E.
    + assert (Hs : (on_task id (Task_Stop now) m).1 = set_task l (Task_Stop now t).1 m) by (unfold on_task; rewrite E; by destruct (Task_Stop now t)).
      rewrite Hs. destruct (find_task_set id m l t (Task_Stop now t).1 E) as [Ef Hset]. unfold on_task, task_call. rewrite Ef.
      destruct (Task_Start now (Task_Stop now t).1) as [t'' [[]|]]; cbn; by rewrite Hset.
    + assert (Hs : (on_task id (Task_Stop now) m).1 = m) by (unfold on_task; by rewrite E).
      rewrite Hs. unfold on_task. by rewrite E.
  - unfold setTaskPosition, on_found, on_manager. rewrite Hm. destruct body as [b|]; cbn [foldl tm_perform]; [|by destruct (find_task id m) as [[l t]|]].
    unfold on_task. by destruct (find_task id m) as [[l t]|].
  - unfold deleteNode. destruct (sv_coordinator s) as [c|]; [destruct (nodes_Unregister id c) as [c' [[]|]]|]; done.
  - unfold drainNode, on_manager. rewrite Hm. rewrite drain_is_StopAll by (by apply Manager_List_nodup). done.
  - unfold api_rebalanceCluster. by destruct (sv_coordinator s).
Qed.
(** The operations of a sequence of requests. *)
Definition requests_ops (rs : list (time * request Cfg)) : list (tm_op (P := P) (Cfg := Cfg)) := rs ≫= λ r, request_ops r.1 r.2.

Lemma perform_all_inv m ops : tm_inv m → tm_inv (foldl tm_perform m ops).
Proof. revert m. induction ops as [|op ops IH]; intros m Hm; [done|]. apply IH. by apply tm_perform_inv. Qed.

Lemma serve_all_ops rs : ∀ s m,
  sv_taskMgr s = Some m → tm_inv m → sv_taskMgr (serve_all s rs) = Some (foldl tm_perform m (requests_ops rs)).
Proof.
  induction rs as [|[now r] rs IH]; intros s m Hm Hi; [done|]. cbn [serve_all foldl fst snd].
  unfold requests_ops. cbn [mbind list_bind fst snd]. rewrite foldl_app. apply IH; [by apply serve_ops|by apply perform_all_inv].
Qed.

Lemma new_manager_inv (c0 : option C) : (∀ c, c0 = Some c → coord_ids c = ∅) → tm_inv (NewTaskManager (P := P) (Cfg := Cfg) c0).
Proof. intros Hempty. split; cbn; [|done]. intros c Hc. by rewrite (Hempty c Hc), dom_empty_L. Qed.

(** C37. The requests of any clients, served one after another, are operations of the task
    manager: after them the manager is where its own operations take it, it and its
    coordinator know the same tasks (a coordinator call that fails changes nothing), and
    every identifier names the task that was created with it. *)
Theorem api_refines_manager (c0 : option C) (n : option N) rs :
  (∀ c, c0 = Some c → coord_ids c = ∅) →
  ∃ m, sv_taskMgr (serve_all (mkServer (Some (NewTaskManager c0)) n) rs) = Some m ∧
    m = foldl tm_perform (NewTaskManager c0) (requests_ops rs) ∧
    (∀ c, tm_coordinator m = Some c → coord_ids c = dom (tm_tasks m)) ∧
    (∀ id l t, find_task id m = Some (l, t) → t_ID t = id).
Proof.
  intros Hempty. pose proof (new_manager_inv c0 Hempty) as Hi. eexists. split; [by apply serve_all_ops|]. split; [done|].
  destruct (perform_all_inv _ (requests_ops rs) Hi) as [Hc Hh]. split; [exact Hc|].
  intros id l t [Hid Hl]%find_task_Some. destruct (Hh _ _ Hid) as (t' & Ht' & <-). congruence.
Qed.

(** *** Tasks without pipelines *)

(** No task has a pipeline, none runs and none is paused. *)
Definition inert (m : TaskManager P Cfg C) : Prop :=
  Forall (λ t, t_Pipeline t = None ∧ t_Status t ≠ TaskStatusRunning ∧ t_Status t ≠ TaskStatusPaused) (tm_heap m).

Lemma inert_task (f : ST (Task P Cfg) unit) id m :
  (∀ t, t_Pipeline t = None ∧ t_Status t ≠ TaskStatusRunning ∧ t_Status t ≠ TaskStatusPaused →
        t_Pipeline (f t).1 = None ∧ t_Status (f t).1 ≠ TaskStatusRunning ∧ t_Status (f t).1 ≠ TaskStatusPaused) →
  inert m → inert (on_task id f m).1.
Proof.
  intros Hf Hm. unfold on_task. destruct (find_task id m) as [[l t]|] eqn:E; [|done]. apply find_task_Some in E as [_ Hl].
  unfold inert in *. rewrite Forall_lookup in Hm. specialize (Hf t (Hm l t Hl)). destruct (f t) as [t' r]. cbn in *.
  apply Forall_insert; [by apply Forall_lookup|done].
Qed.

Definition no_pipeline_op (op : tm_op (P := P) (Cfg := Cfg)) : Prop := match op with OpSetPipeline _ _ => False | _ => True end.

Lemma stop_at_inert now m l : inert m → inert (stop_at now m l).
Proof.
  unfold inert, stop_at. intros Hm. destruct (tm_heap m !! l) as [t|] eqn:E; [|done]. cbn. apply Forall_insert; [done|].
  rewrite Forall_lookup in Hm. destruct (Hm l t E) as (Hp & H1 & H2). unfold Task_Stop. case_bool_decide; [done|]. cbn. by rewrite Hp.
Qed.

Lemma perform_inert m op : no_pipeline_op op → inert m → inert (tm_perform m op).
Proof.
  intros Hop Hm. destruct op; cbn [tm_perform]; [| | | | | | | | |done].
  - unfold Create. destruct (tm_tasks m !! id); [done|]. destruct (tm_coordinator m) as [c|].
    + destruct (coord_SaveTask _ _ _ c) as [c' [[]|]]; cbn; unfold inert; cbn; apply Forall_app; (split; [exact Hm|by repeat constructor]).
    + unfold inert. cbn. apply Forall_app. split; [exact Hm|by repeat constructor].
  - unfold Delete. destruct (find_task id m) as [[l t]|] eqn:E; [|done]. apply find_task_Some in E as [_ Hl].
    pose proof (proj1 (Forall_lookup _ _) Hm l t Hl) as (Hp & H1 & H2). rewrite (bool_decide_eq_false_2 _ H1).
    assert (Hs : inert (set_task l t m)) by (unfold inert; cbn; by apply Forall_insert).
    destruct (tm_coordinator (set_task l t m)) as [c|]; [|exact Hs]. by destruct (coord_DeleteTask id c) as [c' [[]|]].
  - apply inert_task; [|done]. intros t (Hp & H1 & H2). unfold Task_Start. rewrite (bool_decide_eq_false_2 _ H1), Hp. done.
  - apply inert_task; [|done]. intros t (Hp & H1 & H2). unfold Task_Stop. case_bool_decide; [done|]. cbn. by rewrite Hp.
  - unfold StopAll. revert Hm. generalize (List.filter (is_running m) (Manager_List m)). intros ls. revert m.
    induction ls as [|l ls IH]; intros m Hm; [done|]. apply IH. by apply stop_at_inert.
  - apply inert_task; [|done]. intros t (Hp & H1 & H2). unfold Task_Pause. by rewrite (bool_decide_eq_false_2 _ H1).
  - apply inert_task; [|done]. intros t (Hp & H1 & H2). unfold Task_Resume. by rewrite (bool_decide_eq_false_2 _ H2).
  - apply inert_task; [|done]. by intros t (Hp & H1 & H2).
  - apply inert_task; [|done]. by intros t (Hp & H1 & H2).
Qed.

Lemma request_ops_no_pipeline now r : Forall no_pipeline_op (request_ops now r).
Proof. destruct r; cbn; repeat case_match; by repeat constructor. Qed.

Lemma serve_all_inert rs s m : sv_taskMgr s = Some m → tm_inv m → inert m → ∃ m', sv_taskMgr (serve_all s rs) = Some m' ∧ inert m' ∧ tm_inv m'.
Proof.
  intros Hm Hi Hin. eexists. split; [by apply serve_all_ops|]. split; [|by apply perform_all_inv].
  assert (Hf : Forall no_pipeline_op (requests_ops rs)).
  { unfold requests_ops. induction rs as [|[now r] rs IH]; [constructor|]. cbn. apply Forall_app. split; [apply request_ops_no_pipeline|done]. }
  clear Hm Hi. revert m Hin. induction Hf as [|op ops Hop _ IH]; intros m Hm; [done|]. apply IH. by apply perform_inert.
Qed.

(** No request brings a task to run: whatever the clients of the application ask for, no
    task has a pipeline, none runs, and starting or restarting any task is answered with an
    error. *)
Theorem api_tasks_never_run (c : N) rs now id :
  let s := serve_all (app_New c) rs in
  (∃ m, sv_taskMgr s = Some m ∧ Forall (λ t, t_Pipeline t = None ∧ t_Status t ≠ TaskStatusRunning) (tm_heap m)) ∧
  400 <= ar_status (serve now (RStartTask id) s).2 ∧ 400 <= ar_status (serve now (RRestartTask id) s).2.
Proof.
  destruct (serve_all_inert rs (app_New c) (NewTaskManager None) eq_refl (new_manager_inv None ltac:(done)) ltac:(constructor)) as (m & Hs & Hm & _).
  cbn zeta. split; [|split].
  - exists m. split; [exact Hs|]. eapply Forall_impl; [exact Hm|]. by intros t (Hp & H1 & _).
  - cbn [serve]. unfold startTask, manager_call, on_manager, Manager_Start, on_task. rewrite Hs. destruct (find_task id m) as [[l t]|] eqn:E; [|by vm_compute].
    apply find_task_Some in E as [_ Hl]. destruct (proj1 (Forall_lookup _ _) Hm l t Hl) as (Hp & H1 & _).
    unfold Task_Start. rewrite (bool_decide_eq_false_2 _ H1), Hp. by vm_compute.
  - cbn [serve]. unfold restartTask, on_found, on_manager, task_call. rewrite Hs. destruct (find_task id m) as [[l t]|] eqn:E; [|by vm_compute].
    apply find_task_Some in E as [_ Hl]. destruct (proj1 (Forall_lookup _ _) Hm l t Hl) as (Hp & H1 & _).
    assert (Hst : t_Pipeline (Task_Stop now t).1 = None ∧ t_Status (Task_Stop now t).1 ≠ TaskStatusRunning)
      by (unfold Task_Stop; case_bool_decide; [done|]; cbn; by rewrite Hp).
    destruct (Task_Stop now t) as [t' r']. destruct Hst as [Hp' H1']. cbn [fst] in *. unfold Task_Start. rewrite (bool_decide_eq_false_2 _ H1'), Hp'. by vm_compute.
Qed.

(** *** Stopping everything *)

Lemma stop_at_running now ls : ∀ m l,
  is_running (foldl (stop_at now) m ls) l = is_running m l && negb (bool_decide (l ∈ ls)).
Proof.
  induction ls as [|x ls IH]; intros m l; [cbn; by rewrite andb_true_r|]. cbn [foldl]. rewrite IH.
  assert (Hs : is_running (stop_at now m x) l = is_running m l && negb (bool_decide (l = x))).
  { unfold stop_at. destruct (tm_heap m !! x) as [t|] eqn:E.
    - destruct (decide (l = x)) as [->|Hne].
      + rewrite bool_decide_eq_true_2 by done. rewrite andb_false_r. unfold is_running. cbn. rewrite list_lookup_insert_eq by (by eapply lookup_lt_Some).
        apply bool_decide_eq_false_2. unfold Task_Stop. case_bool_decide; cbn; congruence.
      + rewrite is_running_set_ne by done. rewrite bool_decide_eq_false_2 by done. by rewrite andb_true_r.
    - destruct (decide (l = x)) as [->|Hne]; [|rewrite bool_decide_eq_false_2 by done; by rewrite andb_true_r].
      rewrite bool_decide_eq_true_2 by done. unfold is_running. by rewrite E. }
  rewrite Hs, <- andb_assoc. f_equal. rewrite <- negb_orb. f_equal. rewrite <- bool_decide_or. apply bool_decide_ext. by rewrite elem_of_cons.
Qed.

(** After a drain no task that the manager knows runs, and the answer is the number of tasks
    that ran. *)
Theorem drain_stops_all now node s m :
  sv_taskMgr s = Some m → tm_inv m →
  ∃ m', (serve now (RDrainNode node) s).1 = mkServer (Some m') (sv_coordinator s) ∧
    (∀ id l, tm_tasks m' !! id = Some l → is_running m' l = false) ∧
    ar_data (serve now (RDrainNode node) s).2 = Some (DDrained (zlen (List.filter (is_running m) (Manager_List m)))).
Proof.
  intros Hm Hi. cbn [serve]. unfold drainNode, on_manager. rewrite Hm, drain_is_StopAll by (by apply Manager_List_nodup).
  eexists. split; [reflexivity|]. split; [|done]. cbn [fst]. intros id l Hid. rewrite stop_at_running.
  destruct (is_running m l) eqn:Er; [|done]. rewrite bool_decide_eq_true_2; [done|].
  apply list_elem_of_In, filter_In. split; [|done]. apply list_elem_of_In. unfold Manager_List.
  assert (Hid' : tm_tasks m !! id = Some l).
  { revert Hid. clear Er. generalize (List.filter (is_running m) (Manager_List m)). intros ls. clear -ls. revert m. induction ls as [|x ls IH]; intros m; [done|].
    cbn [foldl]. intros H. apply IH in H. unfold stop_at in H. by destruct (tm_heap m !! x). }
  apply list_elem_of_fmap. exists (id, l). split; [done|]. rewrite go_range_perm. by apply elem_of_map_to_list.
Qed.
Lemma shutdown_step_stop now m l :
  tm_inv m → (∃ id, tm_tasks m !! id = Some l) → shutdown_step now m l = if is_running m l then stop_at now m l else m.
Proof.
  intros [_ Hh] [id Hid]. destruct (Hh _ _ Hid) as (t & Ht & Htid). unfold shutdown_step, is_running, stop_at. rewrite Ht.
  destruct (bool_decide (t_Status t = TaskStatusRunning)); [|done]. unfold Manager_Stop, on_task.
  assert (Hf : find_task (t_ID t) m = Some (l, t)) by (apply find_task_Some; by rewrite Htid). rewrite Hf. by destruct (Task_Stop now t).
Qed.

Lemma stop_at_keeps now m l : tm_inv m → tm_inv (stop_at now m l) ∧ tm_tasks (stop_at now m l) = tm_tasks m.
Proof.
  intros Hm. unfold stop_at. destruct (tm_heap m !! l) as [t|] eqn:E; [|done]. split; [|done]. eapply set_task_inv; [done|done|apply Task_Stop_ID].
Qed.

Lemma shutdown_running now ls : ∀ m l,
  tm_inv m → Forall (λ l, ∃ id, tm_tasks m !! id = Some l) ls →
  let m' := foldl (shutdown_step now) m ls in tm_tasks m' = tm_tasks m ∧ (is_running m' l = true → is_running m l = true ∧ l ∉ ls).
Proof.
  induction ls as [|x ls IH]; intros m l Hm Hls; cbn zeta; cbn [foldl]; [split; [done|]; set_solver|].
  apply Forall_cons in Hls as [Hx Hls]. rewrite (shutdown_step_stop now m x Hm Hx).
  destruct (is_running m x) eqn:Ex.
  - destruct (stop_at_keeps now m x Hm) as [Hm' Ht']. destruct (IH (stop_at now m x) l Hm') as [Ht Hr]; [by rewrite Ht'|].
    split; [by rewrite Ht|]. intros H. destruct (Hr H) as [H1 H2]. pose proof (stop_at_running now [x] m l) as Hs. cbn [foldl] in Hs.
    rewrite Hs in H1. apply andb_true_iff in H1 as [H1 H3]. apply negb_true_iff, bool_decide_eq_false in H3. set_solver.
  - destruct (IH m l Hm Hls) as [Ht Hr]. split; [done|]. intros H. destruct (Hr H) as [H1 H2]. split; [done|].
    apply not_elem_of_cons. split; [|done]. intros ->. congruence.
Qed.

(** After a shutdown no task that the manager knows runs, and none is forgotten. *)
Theorem shutdown_stops_all now s m :
  sv_taskMgr s = Some m → tm_inv m →
  ∃ m', sv_taskMgr (shutdown_tasks now s) = Some m' ∧ tm_tasks m' = tm_tasks m ∧ ∀ id l, tm_tasks m !! id = Some l → is_running m' l = false.
Proof.
  intros Hm Hi. unfold shutdown_tasks. rewrite Hm. eexists. split; [reflexivity|].
  assert (Hin : ∀ l, l ∈ Manager_List m ↔ ∃ id, tm_tasks m !! id = Some l).
  { intros l. unfold Manager_List. rewrite list_elem_of_fmap. setoid_rewrite go_range_perm. split.
    - intros ([id l'] & -> & H%elem_of_map_to_list). by exists id.
    - intros [id H]. exists (id, l). split; [done|]. by apply elem_of_map_to_list. }
  assert (Hls : Forall (λ l, ∃ id, tm_tasks m !! id = Some l) (Manager_List m)) by (apply Forall_forall; intros l; apply Hin).
  split; [apply (shutdown_running now (Manager_List m) m 0%nat Hi Hls)|]. intros id l Hid.
  destruct (shutdown_running now (Manager_List m) m l Hi Hls) as [_ Hr]. apply not_true_iff_false. intros H.
  destruct (Hr H) as [_ Hn]. apply Hn, Hin. by exists id.
Qed.
End Properties.

Module TaskApiRuns.
Import PipelineRuns.
#[local] Instance task_range : GoRange string loc := sorted_range string loc.
#[local] Instance node_range : GoRange string NodeInfo := sorted_range string NodeInfo.
#[local] Instance no_view : PipelineView (Pipeline (list ChangeEvent) unit) := λ _, mkPipelineStatus StateStopped (mkStatistics 0 0 0 0) 0.
Notation S := (Server (Pipeline (list ChangeEvent) unit) unit MemoryCoordinator MemoryCoordinator) (only parsing).

Definition requests : list (time * request unit) :=
  [(1, RCreateTask (Some ("t1", "orders", None))); (2, RCreateTask (Some ("t1", "again", None))); (3, RCreateTask None); (4, RStartTask "t1"); (5, RDeleteTask "t2")].
Definition app : S := app_New (NewMemoryCoordinator "n1").

(** The statuses of the responses to a sequence of requests. *)
Fixpoint statuses (s : S) (rs : list (time * request unit)) : list Z :=
  match rs with [] => [] | (now, r) :: rs => let '(s', a) := serve now r s in ar_status a :: statuses s' rs end.

Example request_statuses : statuses app requests = [201; 500; 400; 500; 500].
Proof. vm_compute. reflexivity. Qed.

(** A name that exists, and one that does not, are answered with an internal error. *)
Example conflict_is_internal :
  ar_message (serve (P := Pipeline (list ChangeEvent) unit) 2 (RCreateTask (Some ("t1", "again", None))) (serve_all app (take 1 requests))).2 = Some ErrTaskExists.
Proof. vm_compute. reflexivity. Qed.

Example ready_without_manager :
  (serve 0 RReady (NewServer : S)).2 = mkResponse 503 0 None (Some (DReady false)).
Proof. vm_compute. reflexivity. Qed.

Lemma api_refines_manager_witness :
  ∃ m, sv_taskMgr (serve_all (mkServer (Some (NewTaskManager (Some (NewMemoryCoordinator "n1")))) None : S) requests) = Some m ∧
    (∀ c, tm_coordinator m = Some c → coord_ids (T := Task (Pipeline (list ChangeEvent) unit) unit) c = dom (tm_tasks m)).
Proof.
  destruct (api_refines_manager (P := Pipeline (list ChangeEvent) unit) (Cfg := unit) (N := MemoryCoordinator) (Some (NewMemoryCoordinator "n1")) None requests)
    as (m & Hm & _ & Hc & _).
  - intros c [= <-]. vm_compute. reflexivity.
  - exists m. split; [exact Hm|exact Hc].
Defined.
End TaskApiRuns.
