(* ===== verification/TableApi.v ===== *)
(** The HTTP handlers for tables (internal/api/tables.go) and for their life cycles
    (internal/api/lifecycle.go).

    A handler takes the variables of the path and the decoded body, [None] where the decoder
    fails or the body is too large.  The task in the path of a life-cycle request is not an
    argument: the handlers do not look at it.  A handler of the scheduler returns an error
    only where the code would panic. *)
From Stdlib Require Import ZArith Lia Ascii.
From Stdlib Require String.
From stdpp Require Import prelude countable gmap strings list fin_maps pretty.
From S2P Require Import Prelude Events CacheLog TableLifecycle LifecycleStore Pipeline Tasks Scope Scheduler TaskApi.
Local Open Scope Z_scope.

(** [errors.Is] against an error of the registry: the codes are compared. *)
Fixpoint is_code (e : goerror) (code : string) : bool :=
  match e with
  | ErrCode c | ErrCodeArgs c _ => bool_decide (c = code)
  | ErrWrapf _ e => is_code e code
  | _ => false
  end.

(** What responses carry. *)
Record Summary := mkSummary {
  sm_total : Z; sm_pending : Z; sm_snapshotting : Z; sm_catching_up : Z; sm_streaming : Z; sm_error : Z; sm_paused : Z
}.

Inductive table_data :=
  | TStatus (status : string)
  | TChanged (status : string) (tables : list string)
  | TTables (tables : list string) (count : Z)
  | TState (database table : string) (status : TableSyncStatus) (addedAt : time) (syncStarted pausedAt : option time)
  | TDetail (tables : list TableLifecycle) (summary : Summary) (globalMinPosition : option Position)
  | TErrors (tables : list TableLifecycle) (count : Z)
  | TRestarted (tables schemas : list string) (errors : list goerror)
  | TLifecycle (lc : TableLifecycle)
  | TSkipped (newState : TableState).

Notation tresponse := (apiResponse table_data) (only parsing).

(** ** tables.go *)

Section Tables.
Context (fetch : option (string → string → result TableInfo)) `{GR : !GoRange string TableSyncState}.

Definition on_tables (f : TableManager → TableManager * tresponse) (tm : option TableManager) : option TableManager * tresponse :=
  match tm with
  | None => (None, writeError StatusServiceUnavailable (ErrNew "table manager not available"))
  | Some tm => let '(tm', r) := f tm in (Some tm', r)
  end.

(** What an error of the table manager is answered with. *)
Definition table_error (cases : list (string * (Z * string))) (otherwise : string) (e : goerror) : tresponse :=
  match List.find (λ c, is_code e c.1) cases with
  | Some (_, (status, msg)) => writeError status (ErrNew msg)
  | None => writeError StatusInternalServerError (ErrNew otherwise)
  end.

(** A change of a list of tables. *)
Definition change_tables (f : list string → ST TableManager unit) (cases : list (string * (Z * string))) (otherwise status : string)
    (body : option (list string)) : option TableManager → option TableManager * tresponse :=
  on_tables (λ tm,
    match body with
    | None => (tm, writeError StatusBadRequest (ErrNew "invalid request body"))
    | Some [] => (tm, writeError StatusBadRequest (ErrNew "tables must not be empty"))
    | Some tables =>
        match f tables tm with
        | (tm', Ok _) => (tm', writeJSON StatusOK (TChanged status tables))
        | (tm', Err e) => (tm', table_error cases otherwise e)
        end
    end).

Definition addTables (now : time) (ctx : nat → option goerror) : option (list string) → option TableManager → option TableManager * tresponse :=
  change_tables (Scope.AddTables fetch now ctx)
    [("DS:Source:TableAlreadyExists", (StatusConflict, "table already exists")); ("DS:Source:InvalidConfig", (StatusBadRequest, "invalid table name format"))]
    "failed to add tables" "added".

Definition removeTables (now : time) (ctx : nat → option goerror) : option (list string) → option TableManager → option TableManager * tresponse :=
  change_tables (Scope.RemoveTables now ctx)
    [("DS:Source:TableNotFound", (StatusNotFound, "table not found")); ("DS:Source:InvalidConfig", (StatusBadRequest, "invalid table name format"))]
    "failed to remove tables" "removed".

Definition Scope_ListTables (tm : TableManager) : list string := (go_range (tm_syncTables tm)).*1.
Definition listTables : option TableManager → option TableManager * tresponse :=
  on_tables (λ tm, (tm, writeJSON StatusOK (TTables (Scope_ListTables tm) (zlen (Scope_ListTables tm))))).

Definition set_time (t : time) : option time := if time_IsZero t then None else Some t.
Definition getTableState (db table : string) : option TableManager → option TableManager * tresponse :=
  on_tables (λ tm,
    match GetTableState tm db table with
    | Err _ => (tm, writeError StatusNotFound (ErrNew "table not found"))
    | Ok st =>
        (tm, writeJSON StatusOK (TState (Database (tss_TableID st)) (Table (tss_TableID st)) (tss_Status st) (tss_AddedAt st)
               (set_time (tss_SyncStarted st)) (set_time (tss_PausedAt st))))
    end).

(** A change of one table. *)
Definition change_table (f : ST TableManager unit) (otherwise status : string) : option TableManager → option TableManager * tresponse :=
  on_tables (λ tm,
    match f tm with
    | (tm', Ok _) => (tm', writeJSON StatusOK (TStatus status))
    | (tm', Err e) => (tm', table_error [("DS:Source:TableNotFound", (StatusNotFound, "table not found"))] otherwise e)
    end).
Definition pauseTable (now : time) (ctx : nat → option goerror) (db table : string) :=
  change_table (Scope.PauseTable now ctx db table) "failed to pause table" "paused".
Definition resumeTable (now : time) (ctx : nat → option goerror) (db table : string) :=
  change_table (Scope.ResumeTable now ctx db table) "failed to resume table" "running".
End Tables.

(** ** lifecycle.go *)

(** [parseDBTable]: what is before and after the first dot. *)
Definition parseDBTable (s : string) : string * string := default ("", "") (split_first "."%char s).

Section Lifecycle.
Context {C : Type} `{!BinlogCacheBackend C} `{!GoRange TableID LifecycleStore.loc}.
Notation lhandler := (ST (SnapshotScheduler C) tresponse) (only parsing).

(** A server without a scheduler. *)
Definition on_scheduler (f : lhandler) (s : option (SnapshotScheduler C)) : option (SnapshotScheduler C) * result tresponse :=
  match s with
  | None => (None, Ok (writeError StatusServiceUnavailable (ErrNew "lifecycle scheduler not available")))
  | Some s => let '(s', r) := f s in (Some s', r)
  end.

Definition count_state (sm : Summary) (lc : TableLifecycle) : Summary :=
  let '(mkSummary n p sn c st e pa) := sm in
  match GetState lc with
  | TableStatePending => mkSummary n (p + 1) sn c st e pa
  | TableStateSnapshotting => mkSummary n p (sn + 1) c st e pa
  | TableStateCatchingUp => mkSummary n p sn (c + 1) st e pa
  | TableStateStreaming => mkSummary n p sn c (st + 1) e pa
  | TableStateError => mkSummary n p sn c st (e + 1) pa
  | TableStatePaused => mkSummary n p sn c st e (pa + 1)
  | _ => sm
  end.

(** The objects of a list of pointers. *)
Definition objects (ls : list LifecycleStore.loc) (s : SnapshotScheduler C) : list TableLifecycle := omap (λ l, ms_heap (ss_store s) !! l) ls.

Definition getTaskDetail : lhandler :=
  s ← st_get;
  r ← st_try (on_store (List_ (ss_taskID s)));
  match r with
  | Err err => mret (writeError StatusInternalServerError (ErrWrapf "failed to list tables" err))
  | Ok ls =>
      let tables := objects ls s in
      let summary := foldl count_state (mkSummary (zlen ls) 0 0 0 0 0 0) tables in
      pos ← GetGlobalMinPosition;
      mret (writeJSON StatusOK (TDetail tables summary pos))
  end.

Definition getTableErrors : lhandler :=
  r ← st_try ListErrors;
  s ← st_get;
  match r with
  | Err err => mret (writeError StatusInternalServerError (ErrWrapf "failed to list error tables" err))
  | Ok ls => mret (writeJSON StatusOK (TErrors (objects ls s) (zlen ls)))
  end.

(** The tables of a request to restart: those restarted, and the errors of the others. *)
Fixpoint restart_tables (now : time) (force : bool) (tables restarted : list string) (errors : list goerror) :
    ST (SnapshotScheduler C) (list string * list goerror) :=
  match tables with
  | [] => mret (restarted, errors)
  | t :: tables =>
      let '(db, table) := parseDBTable t in
      if bool_decide (db = "") || bool_decide (table = "")
      then restart_tables now force tables restarted (errors ++ [ErrNew ("invalid table format: " +:+ t)])
      else
        r ← st_try (Scheduler.RestartTable now (mkTableID db "" table) None force);
        match r with
        | Ok _ => restart_tables now force tables (restarted ++ [t]) errors
        | Err err => restart_tables now force tables restarted (errors ++ [ErrWrapf ("restart " +:+ t) err])
        end
  end.

(** The schemas: a schema is restarted when none of its tables fails; the tables restarted
    before one that fails are not reported. *)
Fixpoint restart_schemas (now : time) (force : bool) (schemas : list string) (acc : list string * list string * list goerror) :
    ST (SnapshotScheduler C) (list string * list string * list goerror) :=
  let '(restarted, done_, errors) := acc in
  match schemas with
  | [] => mret acc
  | schema :: schemas =>
      r ← st_try (RestartSchema now schema None force);
      match r with
      | Ok (ids, None) => restart_schemas now force schemas (restarted ++ (TableID_String <$> ids), done_ ++ [schema], errors)
      | Ok (_, Some err) | Err err => restart_schemas now force schemas (restarted, done_, errors ++ [ErrWrapf ("restart schema " +:+ schema) err])
      end
  end.

Definition restartTables (now : time) (body : option (list string * list string * bool)) : lhandler :=
  match body with
  | None => mret (writeError StatusBadRequest (ErrNew "invalid request body"))
  | Some (tables, schemas, force) =>
      te ← restart_tables now force tables [] [];
      let '(restarted, errors) := te in
      rse ← restart_schemas now force schemas (restarted, [], errors);
      let '(restarted, done_, errors) := rse in
      mret (writeJSON StatusOK (TRestarted restarted done_ errors))
  end.

Definition table_of (db table : string) : TableID := mkTableID db "" table.
Definition not_found (db table : string) (err : goerror) : tresponse :=
  writeError StatusNotFound (ErrWrapf ("table " +:+ db +:+ "." +:+ table +:+ " not found") err).

(** A handler of a table that is in the store. *)
Definition on_lifecycle (db table : string) (f : LifecycleStore.loc → TableLifecycle → lhandler) : lhandler :=
  s ← st_get;
  r ← st_try (on_store (LifecycleStore.Get (ss_taskID s) (table_of db table)));
  match r with
  | Err err => mret (not_found db table err)
  | Ok l => lc ← on_store (deref l); f l lc
  end.

Definition getTableLifecycleState (db table : string) : lhandler := on_lifecycle db table (λ _ lc, mret (writeJSON StatusOK (TLifecycle lc))).

(** A call of the scheduler. *)
Definition sched_call (m : ST (SnapshotScheduler C) unit) (failed status : string) : lhandler :=
  r ← st_try m;
  match r with
  | Ok _ => mret (writeJSON StatusOK (TStatus status))
  | Err err => mret (writeError StatusInternalServerError (ErrWrapf failed err))
  end.
Definition pauseTableLifecycle (now : time) (db table : string) : lhandler :=
  sched_call (Scheduler.PauseTable now (table_of db table)) "failed to pause table" "paused".
Definition resumeTableLifecycle (now : time) (db table : string) : lhandler :=
  sched_call (Scheduler.ResumeTable now (table_of db table)) "failed to resume table" "resumed".

Definition not_in_error (db table : string) : tresponse :=
  writeError StatusBadRequest (ErrNew ("table " +:+ db +:+ "." +:+ table +:+ " is not in error state")).

Definition retryTableLifecycle (now : time) (db table : string) : lhandler :=
  on_lifecycle db table (λ _ lc,
    if bool_decide (GetState lc ≠ TableStateError) then mret (not_in_error db table)
    else sched_call (Scheduler.RestartTable now (table_of db table) (tl_SnapshotPosition lc) true) "failed to retry table" "retrying").

(** Where a table goes on when its error is skipped, by the state it had before. *)
Definition skip_to (prev : TableState) : TableState :=
  match prev with
  | TableStatePending | TableStateSnapshotting => TableStateCatchingUp
  | _ => TableStateStreaming
  end.
Definition skip_lifecycle (lc : TableLifecycle) : TableLifecycle :=
  mkTableLifecycle (tl_TableID lc) (skip_to (tl_PreviousState lc)) (tl_State lc) (tl_SnapshotPosition lc) (tl_StreamPosition lc)
    (tl_CatchingUpProgress lc) (tl_RetryCount lc) (tl_MaxRetries lc) "" (tl_LastStateChange lc).

(** The fields are set without [TransitionTo]. *)
Definition skipTableError (db table : string) : lhandler :=
  on_lifecycle db table (λ l lc,
    if bool_decide (GetState lc ≠ TableStateError) then mret (not_in_error db table)
    else
      on_store (call l (st_modify skip_lifecycle)) ≫= λ _,
      r ← st_try (save_table l);
      match r with
      | Ok _ => mret (writeJSON StatusOK (TSkipped (skip_to (tl_PreviousState lc))))
      | Err err => mret (writeError StatusInternalServerError (ErrWrapf "failed to save table state" err))
      end).
End Lifecycle.

(** ** Properties *)

Section LifecycleProperties.
Context {C : Type} `{!BinlogCacheBackend C} `{!GoRange TableID LifecycleStore.loc}.
Implicit Types s : SnapshotScheduler C.

Lemma on_lifecycle_spec db table f s :
  store_wf (ss_store s) →
  match view s !! table_of db table with
  | Some lc => ∃ l, filed s (table_of db table) l lc ∧ on_lifecycle db table f s = f l lc s
  | None => ∃ e, on_lifecycle db table f s = (s, Ok (not_found db table e))
  end.
Proof.
  intros Hwf. pose proof (Get_spec _ (ss_taskID s) (table_of db table) Hwf) as Hg. unfold view.
  unfold on_lifecycle. rewrite (bind_ok _ _ s s s) by done.
  destruct (store_view (ss_store s) (ss_taskID s) !! table_of db table) as [lc|] eqn:E.
  - destruct Hg as (l & Hg & Hl & Hlc). exists l. assert (Hf : filed s (table_of db table) l lc) by done. split; [done|].
    rewrite (bind_ok _ _ s s (Ok l)) by (unfold st_try, on_store; rewrite Hg; by destruct s).
    by rewrite (bind_ok _ _ _ _ _ (deref_filed _ _ _ _ Hf)).
  - destruct Hg as (e & Hg). exists (ErrNew e). by rewrite (bind_ok _ _ s s (Err (ErrNew e))) by (unfold st_try, on_store; rewrite Hg; by destruct s).
Qed.

(** What a request to skip an error does to the tables. *)
Definition skip_spec (id : TableID) (m : gmap TableID TableLifecycle) : gmap TableID TableLifecycle * Z :=
  match m !! id with
  | None => (m, StatusNotFound)
  | Some lc => if bool_decide (GetState lc ≠ TableStateError) then (m, StatusBadRequest) else (<[id := skip_lifecycle lc]> m, StatusOK)
  end.

(** A request to skip an error changes the state of a table that is in error, whatever its
    state was before, and of no other; a table that is not found or not in error is left as
    it is. *)
Theorem skip_error_refines db table s :
  store_wf (ss_store s) →
  ∃ s' r, skipTableError db table s = (s', Ok r) ∧ store_wf (ss_store s') ∧ same_other_tasks s s' ∧ ss_cache s' = ss_cache s ∧
    (view s', ar_status r) = skip_spec (table_of db table) (view s).
Proof.
  intros Hwf. unfold skipTableError.
  match goal with |- context [on_lifecycle db table ?f s] => pose proof (on_lifecycle_spec db table f s Hwf) as H end.
  unfold skip_spec. destruct (view s !! table_of db table) as [lc|] eqn:E; [|destruct H as (e & ->); by eexists _, _].
  destruct H as (l & Hf & ->). destruct (bool_decide (GetState lc ≠ TableStateError)) eqn:Es; [by eexists _, _|].
  assert (Hid : tl_TableID (skip_lifecycle lc) = table_of db table).
  { destruct Hf as [Hl Hlc]. destruct (swf_filed _ Hwf _ _ _ Hl) as (lc1 & Hlc1 & ?). by simplify_eq. }
  destruct (upd_spec s _ l lc (skip_lifecycle lc) Hwf Hf Hid) as (Hwf' & Hv & Ho & Hf').
  assert (Hc : on_store (call l (st_modify skip_lifecycle)) s = (upd l (skip_lifecycle lc) s, Ok tt)) by (by eapply (call_ok s)).
  rewrite (bind_ok _ _ _ _ _ Hc).
  rewrite (bind_ok _ _ (upd l (skip_lifecycle lc) s) (upd l (skip_lifecycle lc) s) (Ok tt)) by (unfold st_try; by rewrite (save_filed _ _ _ _ Hwf' Hf')).
  eexists _, _. split; [reflexivity|]. split; [done|]. split; [done|]. split; [done|]. by rewrite Hv.
Qed.

(** A retry restarts a table that is in error from its snapshot position, and nothing else;
    the answer is an error where the cached events can not be deleted. *)
Theorem retry_refines now db table s :
  store_wf (ss_store s) → (∀ p, (cache_Delete (TableID_String (table_of db table)) (ss_cache s)).2 ≠ Err (Panic p)) →
  ∃ s' r, retryTableLifecycle now db table s = (s', Ok r) ∧ store_wf (ss_store s') ∧ same_other_tasks s s' ∧
    match view s !! table_of db table with
    | None => s' = s ∧ ar_status r = StatusNotFound
    | Some lc =>
        if bool_decide (GetState lc ≠ TableStateError) then s' = s ∧ ar_status r = StatusBadRequest
        else view s' = <[table_of db table := restarted_as now (tl_SnapshotPosition lc) lc]> (view s) ∧
             (ar_status r = StatusOK ↔ is_ok (cache_Delete (TableID_String (table_of db table)) (ss_cache s)).2 = true)
    end.
Proof.
  intros Hwf Hp. unfold retryTableLifecycle.
  match goal with |- context [on_lifecycle db table ?f s] => pose proof (on_lifecycle_spec db table f s Hwf) as H end.
  destruct (view s !! table_of db table) as [lc|] eqn:E; [|destruct H as (e & ->); by eexists _, _].
  destruct H as (l & Hf & ->). destruct (bool_decide (GetState lc ≠ TableStateError)) eqn:Es; [by eexists _, _|].
  destruct (RestartTable_implements now (table_of db table) (tl_SnapshotPosition lc) true s Hwf) as (s' & r & Hr & Hwf' & Ho & Himp).
  unfold spec_op in Himp. cbn [op_table spec_table drops_cache] in Himp. rewrite E in Himp. cbn [mbind option_bind negb andb] in Himp.
  destruct Himp as (Hv & _ & [Hok Hpan]).
  assert (Ht : st_try (RestartTable now (table_of db table) (tl_SnapshotPosition lc) true) s = (s', Ok r)).
  { unfold st_try. rewrite Hr. destruct r as [|e]; [done|]. destruct e as [| | | | | | | |p]; try done. by destruct (Hp p (Hpan p eq_refl)). }
  unfold sched_call. rewrite (bind_ok _ _ _ _ _ Ht). destruct r as [u|e]; eexists _, _; (split; [reflexivity|]); (split; [done|]); (split; [done|]); (split; [done|]).
  - by rewrite <- Hok.
  - rewrite <- Hok. done.
Qed.

(** *** The summary *)

Definition named (lc : TableLifecycle) : Prop := ∀ x, GetState lc ≠ TableStateRaw x.
Definition sm_sum (sm : Summary) : Z := sm_pending sm + sm_snapshotting sm + sm_catching_up sm + sm_streaming sm + sm_error sm + sm_paused sm.

Lemma count_states lcs : ∀ sm,
  Forall named lcs → sm_sum (foldl count_state sm lcs) = sm_sum sm + zlen lcs ∧ sm_total (foldl count_state sm lcs) = sm_total sm.
Proof.
  induction lcs as [|lc lcs IH]; intros sm Hn; [cbn; unfold zlen; cbn; lia|]. apply Forall_cons in Hn as [Hl Hn]. cbn [foldl].
  destruct (IH (count_state sm lc) Hn) as [-> ->]. unfold zlen. cbn [length].
  destruct sm as [n p sn c st e pa]. unfold count_state, sm_sum. destruct (GetState lc) eqn:E; cbn; [lia..|]. by destruct (Hl s).
Qed.

Lemma objects_of ls lcs s : Forall2 (λ l lc, ms_heap (ss_store s) !! l = Some lc) ls lcs → objects ls s = lcs.
Proof. unfold objects. induction 1 as [|l lc ls lcs Hl _ IH]; [done|]. cbn. rewrite Hl. f_equal. exact IH. Qed.

(** The details of a task are all its tables, and the numbers by state add up to the total
    when every state is a named one. *)
Theorem detail_adds_up s :
  store_wf (ss_store s) → (∀ id lc, view s !! id = Some lc → named lc) →
  ∃ lcs sm pos, getTaskDetail s = (s, Ok (writeJSON StatusOK (TDetail lcs sm pos))) ∧ lcs ≡ₚ (map_to_list (view s)).*2 ∧
    sm_total sm = zlen lcs ∧ sm_sum sm = sm_total sm.
Proof.
  intros Hwf Hn. destruct (List_spec (ss_store s) (ss_taskID s) Hwf) as (ls & lcs & Hl & Hh & Hp).
  destruct (GetGlobalMinPosition_spec s Hwf) as (lcs' & Hg & _). unfold getTaskDetail.
  rewrite (bind_ok _ _ s s s) by done.
  rewrite (bind_ok _ _ s s (Ok ls)) by (unfold st_try, on_store; rewrite Hl; by destruct s). cbv zeta.
  rewrite (bind_ok _ _ _ _ _ Hg). rewrite (objects_of ls lcs s Hh).
  assert (Hnamed : Forall named lcs).
  { rewrite Hp. apply Forall_fmap, Forall_forall. intros [id lc] Hin. apply elem_of_map_to_list in Hin. by eapply Hn. }
  destruct (count_states lcs (mkSummary (zlen ls) 0 0 0 0 0 0) Hnamed) as [Hsum Htot].
  eexists _, _, _. split; [reflexivity|]. split; [done|]. rewrite Htot, Hsum. cbn [sm_total]. unfold sm_sum, zlen. cbn.
  apply Forall2_length in Hh. split; lia.
Qed.

(** *** Restarting *)

(** Each table of a request is restarted or has an error. *)
Definition reported (t : string) (restarted : list string) (errors : list goerror) : Prop :=
  t ∈ restarted ∨ ErrNew ("invalid table format: " +:+ t) ∈ errors ∨ ∃ e, ErrWrapf ("restart " +:+ t) e ∈ errors.

Lemma reported_mono t r r' e e' : reported t r e → reported t (r ++ r') (e ++ e').
Proof. unfold reported. intros [H|[H|[x H]]]; [left|right; left|right; right; exists x]; apply elem_of_app; by left. Qed.

Lemma restart_tables_reports now force tables : ∀ restarted errors s s' r e,
  restart_tables now force tables restarted errors s = (s', Ok (r, e)) →
  Forall (λ t, reported t r e) tables ∧ (∃ r', r = restarted ++ r') ∧ (∃ e', e = errors ++ e').
Proof.
  induction tables as [|t tables IH]; intros restarted errors s s' r e; cbn [restart_tables].
  - intros [= _ <- <-]. split; [constructor|]. split; exists []; by rewrite app_nil_r.
  - destruct (parseDBTable t) as [db table].
    destruct (bool_decide (db = "") || bool_decide (table = "")).
    + intros H. destruct (IH _ _ _ _ _ _ H) as (Hall & [r' ->] & [e' ->]). split; [|split; [by exists r'|exists (ErrNew ("invalid table format: " +:+ t) :: e')]].
      * constructor; [|done]. right. left. apply elem_of_app. left. apply elem_of_app. right. by left.
      * by rewrite <- app_assoc.
    + unfold mbind, ST_bind. destruct (st_try _ s) as [s1 [[u|err]|p]]; [..|done].
      * intros H. destruct (IH _ _ _ _ _ _ H) as (Hall & [r' ->] & [e' ->]). split; [|split; [exists (t :: r'); by rewrite <- app_assoc|by exists e']].
        constructor; [|done]. left. apply elem_of_app. left. apply elem_of_app. right. by left.
      * intros H. destruct (IH _ _ _ _ _ _ H) as (Hall & [r' ->] & [e' ->]). split; [|split; [by exists r'|eexists; by rewrite <- app_assoc]].
        constructor; [|done]. right. right. exists err. apply elem_of_app. left. apply elem_of_app. right. by left.
Qed.

Lemma restart_schemas_grow now force schemas : ∀ r d e s s' r' d' e',
  restart_schemas now force schemas (r, d, e) s = (s', Ok (r', d', e')) → (∃ x, r' = r ++ x) ∧ (∃ x, e' = e ++ x).
Proof.
  induction schemas as [|sc schemas IH]; intros r d e s s' r' d' e'; cbn [restart_schemas].
  - intros [= _ <- _ <-]. split; exists []; by rewrite app_nil_r.
  - unfold mbind, ST_bind. destruct (st_try _ s) as [s1 [[[ids [err|]]|err]|p]]; [..|done]; intros H;
      destruct (IH _ _ _ _ _ _ _ _ H) as [[x ->] [y ->]]; (split; [|try by exists y]); try (by exists x); eexists; by rewrite <- app_assoc.
Qed.

(** A request to restart tables is answered for every table it names: it is restarted, or
    there is an error for it. *)
Theorem restart_reports_all now tables schemas force s s' r :
  restartTables now (Some (tables, schemas, force)) s = (s', Ok r) →
  ∃ restarted done_ errors, r = writeJSON StatusOK (TRestarted restarted done_ errors) ∧ Forall (λ t, reported t restarted errors) tables.
Proof.
  unfold restartTables. unfold mbind at 1, ST_bind at 1. destruct (restart_tables now force tables [] [] s) as [s1 [[r1 e1]|p]] eqn:E1; [|done].
  unfold mbind, ST_bind. destruct (restart_schemas now force schemas (r1, [], e1) s1) as [s2 [[[r2 d2] e2]|p]] eqn:E2; [|done].
  intros [= _ <-]. exists r2, d2, e2. split; [done|]. apply restart_tables_reports in E1 as (Hall & _ & _).
  apply restart_schemas_grow in E2 as [[x ->] [y ->]]. eapply Forall_impl; [exact Hall|]. intros t. apply reported_mono.
Qed.
End LifecycleProperties.

(** A table is named by its database and its name, when the database has no dot. *)
Theorem parseDBTable_name db table : has_char "."%char db = false → parseDBTable (db +:+ "." +:+ table) = (db, table).
Proof. intros H. unfold parseDBTable. change ("." +:+ table) with (String "."%char table). by rewrite split_first_app. Qed.

Module TableApiRuns.
Import SchedulerRuns.
#[local] Existing Instances demo_events demo_cache demo_range.

(** The responses to a sequence of handlers, and the scheduler after them. *)
Definition after {A} (m : ST (SnapshotScheduler LocalBackend) A) : SnapshotScheduler LocalBackend → SnapshotScheduler LocalBackend := λ s, (m s).1.

(** A table that failed before its snapshot streams when its error is skipped: no row that it
    had is in the target. *)
Example skip_error_streams_without_snapshot :
  let s := after (OnCaughtUp 4 users) (after (skipTableError "app" "users") (after (OnSnapshotError 3 users "no such table") two_added)) in
  tl_State <$> view s !! users = Some TableStateStreaming.
Proof. vm_compute. reflexivity. Qed.

Lemma two_added_in_error : store_wf (ss_store (after (OnSnapshotError 3 users "no such table") two_added)).
Proof.
  destruct (scheduler_refines_lemma (SSnapshotError 3 users "no such table") two_added two_added_wf) as (s' & r & Hr & Hwf & _).
  unfold after. cbn [run_sched] in Hr. by rewrite Hr.
Qed.

Lemma skip_error_refines_witness :
  ∃ s' r, skipTableError "app" "users" (after (OnSnapshotError 3 users "no such table") two_added) = (s', Ok r) ∧ ar_status r = 200.
Proof.
  destruct (skip_error_refines "app" "users" (after (OnSnapshotError 3 users "no such table") two_added) two_added_in_error) as (s' & r & Hr & _ & _ & _ & Hs).
  exists s', r. split; [exact Hr|]. apply (f_equal snd) in Hs. cbn [snd] in Hs. rewrite Hs. vm_compute. reflexivity.
Defined.

#[local] Instance table_range : GoRange string TableSyncState := sorted_range string TableSyncState.

(** The statuses of adding tables: a table that is there, and a name without a dot; the
    tables before the one that fails stay. *)
Definition tables : option TableManager := Some (NewTableManager 1 (Some (mkTableScope ["app.users"] false)) None).
Example add_statuses :
  (λ names, ar_status (addTables None 2 (λ _, None) (Some names) tables).2) <$> [["app.orders"]; ["app.users"]; ["users"]; []] = [200; 409; 400; 400].
Proof. vm_compute. reflexivity. Qed.
Example partly_added :
  ar_data (listTables (addTables None 2 (λ _, None) (Some ["app.orders"; "app.users"]) tables).1).2 = Some (TTables ["app.orders"; "app.users"] 2).
Proof. vm_compute. reflexivity. Qed.
End TableApiRuns.
