(* ===== verification/LifecyclePipeline.v ===== *)
(** The pipeline of the table life cycle (internal/lifecycle/pipeline_integration.go): source,
    binlog consumer and sinks.

    The routing goroutines, the source and a call of [Stop] are concurrent steps.  The first
    sink is the one inside the consumer, as in the code, where [SinkAdapter] shares it. *)
From Stdlib Require Import ZArith Lia.
From Stdlib Require String.
From stdpp Require Import prelude countable gmap strings list fin_maps.
From S2P Require Import Prelude Events CacheLog TableLifecycle LifecycleStore SchemaHistory TargetStore BinlogConsumer Pipeline.
Local Open Scope Z_scope.

(** ** Operations *)

(** [SinkAdapter]: a connector as the sink of the consumer. *)
#[export] Instance SinkAdapter `{!SinkConnector K} : EventSink K := {| sink_Write := snk_Write |}.

(** A routing goroutine: between two events, or with an event it has received. *)
Inductive router := RIdle | RHas (e : ChangeEvent).

(** How far a call of [Stop] is: the channel is closed; the source is stopped; it returned. *)
Inductive stop_pc := NotStopped | Signalled | Waiting | Returned (r : result unit).

Section LifecyclePipeline.
Context {R S C K : Type} `{!SourceConnector R} `{!SinkConnector K} `{!TargetStore S} `{!BinlogCacheBackend C} {parser : DDLParser}
  `{!JSONCodec ChangeEvent} `{!JSONCodec Position}.

Record LifecyclePipeline := mkLP {
  lp_cfg : ConsumerConfig;
  lp_source : R;
  lp_consumer : BinlogConsumer S C K;
  lp_otherSinks : list K;                (* the sinks after the first *)
  lp_events : list ChangeEvent;          (* the channel of the source *)
  lp_closed : bool;
  lp_stopCh : bool;                      (* stopCh is closed *)
  lp_routers : list router;              (* wg *)
  lp_stop : stop_pc
}.

(** The optional dependencies for DDL, each of which may be nil: of the parser, the DDL
    records and the history only whether they are there. *)
Record DDLDependencies := mkDDLDependencies {
  dd_Parser : bool;
  dd_Tables : option Tables;
  dd_DDLRecords : bool;
  dd_History : bool;
  dd_DDLStore : option S
}.

(** A nil dependency leaves the consumer without it; the tables and the store in its state
    are then not used (nor is the history ever).  A pipeline without sinks is a panic. *)
Definition NewLifecyclePipeline (src : R) (sinks : list K) (cache : C) (store : MemoryLifecycleStore) (taskID : string) (sourceType : Z)
    (ddlDeps : option DDLDependencies) (unused : S) : result LifecyclePipeline :=
  match sinks with
  | [] => Err (Panic "runtime error: index out of range [0] with length 0")
  | sink :: others =>
      let tables := ddlDeps ≫= dd_Tables in
      let ddlStore := ddlDeps ≫= dd_DDLStore in
      let deps := from_option (λ d, dd_Parser d && bool_decide (is_Some tables) && dd_DDLRecords d) false ddlDeps in
      Ok (mkLP (mkConsumerConfig taskID sourceType deps (bool_decide (is_Some ddlStore))) src
            (mkConsumer store cache sink (default NewTables tables) (default unused ddlStore) 0) others [] false false [] NotStopped)
  end.

Definition set_source (r : R) (p : LifecyclePipeline) : LifecyclePipeline :=
  mkLP (lp_cfg p) r (lp_consumer p) (lp_otherSinks p) (lp_events p) (lp_closed p) (lp_stopCh p) (lp_routers p) (lp_stop p).
Definition set_consumer (c : BinlogConsumer S C K) (p : LifecyclePipeline) : LifecyclePipeline :=
  mkLP (lp_cfg p) (lp_source p) c (lp_otherSinks p) (lp_events p) (lp_closed p) (lp_stopCh p) (lp_routers p) (lp_stop p).
Definition set_events (es : list ChangeEvent) (p : LifecyclePipeline) : LifecyclePipeline :=
  mkLP (lp_cfg p) (lp_source p) (lp_consumer p) (lp_otherSinks p) es (lp_closed p) (lp_stopCh p) (lp_routers p) (lp_stop p).
Definition set_routers (rs : list router) (p : LifecyclePipeline) : LifecyclePipeline :=
  mkLP (lp_cfg p) (lp_source p) (lp_consumer p) (lp_otherSinks p) (lp_events p) (lp_closed p) (lp_stopCh p) rs (lp_stop p).
Definition set_stop (pc : stop_pc) (p : LifecyclePipeline) : LifecyclePipeline :=
  mkLP (lp_cfg p) (lp_source p) (lp_consumer p) (lp_otherSinks p) (lp_events p) (lp_closed p) (lp_stopCh p) (lp_routers p) pc.
Definition close_events (p : LifecyclePipeline) : LifecyclePipeline :=
  mkLP (lp_cfg p) (lp_source p) (lp_consumer p) (lp_otherSinks p) (lp_events p) true (lp_stopCh p) (lp_routers p) (lp_stop p).

(** [Start]. *)
Definition lp_Start : ST LifecyclePipeline unit := λ p,
  match src_Start (lp_source p) with
  | (r, Err err) => (set_source r p, Err err)
  | (r, Ok _) => (set_routers (lp_routers p ++ [RIdle]) (set_source r p), Ok tt)
  end.

(** The parts of [Stop]: closing the channel, stopping the source, and stopping the sinks
    when no goroutine is left. *)
Definition Stop_close : ST LifecyclePipeline unit := λ p,
  if lp_stopCh p then (p, Err (Panic "close of closed channel"))
  else (mkLP (lp_cfg p) (lp_source p) (lp_consumer p) (lp_otherSinks p) (lp_events p) (lp_closed p) true (lp_routers p) Signalled, Ok tt).

Definition Stop_source (p : LifecyclePipeline) : LifecyclePipeline :=
  match src_Stop (lp_source p) with
  | (r, Err err) => set_stop (Returned (Err err)) (set_source r p)
  | (r, Ok _) => set_stop Waiting (set_source r p)
  end.

(** The sinks are stopped in order, up to the first that fails. *)
Fixpoint lp_stop_sinks (ks : list K) : list K * result unit :=
  match ks with
  | [] => ([], Ok tt)
  | k :: ks =>
      match snk_Stop k with
      | (k', Err err) => (k' :: ks, Err err)
      | (k', Ok _) => let '(ks', r) := lp_stop_sinks ks in (k' :: ks', r)
      end
  end.
Definition set_sinks (ks : list K) (p : LifecyclePipeline) : LifecyclePipeline :=
  match ks with
  | k :: others => mkLP (lp_cfg p) (lp_source p) (set_sink k (lp_consumer p)) others (lp_events p) (lp_closed p) (lp_stopCh p) (lp_routers p) (lp_stop p)
  | [] => p
  end.
Definition lp_sinks (p : LifecyclePipeline) : list K := bc_sink (lp_consumer p) :: lp_otherSinks p.
Definition Stop_sinks (p : LifecyclePipeline) : LifecyclePipeline :=
  let '(ks, r) := lp_stop_sinks (lp_sinks p) in set_stop (Returned r) (set_sinks ks p).

(** ** Steps *)

Inductive lplabel := LStart | LStartFails (err : goerror) | LEmit (e : ChangeEvent) | LCloseEvents | LRecv | LRoute (now : time) (e : ChangeEvent) | LQuit | LStop | LStopSource | LStopSinks.

(** The source sends and closes its channel; a goroutine receives an event, routes the event
    it has, or ends on the closed stop channel or the closed and empty channel of events; a
    call of [Stop] goes on. *)
Inductive lpstep : LifecyclePipeline → lplabel → LifecyclePipeline → Prop :=
  | lp_start p p' : lp_Start p = (p', Ok tt) → lpstep p LStart p'
  | lp_start_fails p p' err : lp_Start p = (p', Err err) → lpstep p (LStartFails err) p'
  | lp_emit p e : lp_closed p = false → lpstep p (LEmit e) (set_events (lp_events p ++ [e]) p)
  | lp_close p : lp_closed p = false → lpstep p LCloseEvents (close_events p)
  | lp_recv p i e es :
      lp_routers p !! i = Some RIdle → lp_events p = e :: es →
      lpstep p LRecv (set_routers (<[i := RHas e]> (lp_routers p)) (set_events es p))
  | lp_route p i now e c :
      lp_routers p !! i = Some (RHas e) → (Route (lp_cfg p) now e (lp_consumer p)).1 = c →
      (∀ m, (Route (lp_cfg p) now e (lp_consumer p)).2 ≠ Err (Panic m)) →
      lpstep p (LRoute now e) (set_routers (<[i := RIdle]> (lp_routers p)) (set_consumer c p))
  | lp_quit p i :
      lp_routers p !! i = Some RIdle → lp_stopCh p = true ∨ lp_closed p = true ∧ lp_events p = [] →
      lpstep p LQuit (set_routers (delete i (lp_routers p)) p)
  | lp_stop_close p p' : Stop_close p = (p', Ok tt) → lpstep p LStop p'
  | lp_stop_source p : lp_stop p = Signalled → lpstep p LStopSource (Stop_source p)
  | lp_step_stop_sinks p : lp_stop p = Waiting → lp_routers p = [] → lpstep p LStopSinks (Stop_sinks p).

(** ** Properties *)

(** The events the source sent, and the events that were routed with their times. *)
Definition emitted (ls : list lplabel) : list ChangeEvent := omap (λ l, match l with LEmit e => Some e | _ => None end) ls.
Definition routed (ls : list lplabel) : list (time * ChangeEvent) := omap (λ l, match l with LRoute now e => Some (now, e) | _ => None end) ls.
Definition starts (ls : list lplabel) : nat := length (List.filter (λ l, match l with LStart => true | _ => false end) ls).

(** The consumer after routing events. *)
Definition route_all (cfg : ConsumerConfig) (c : BinlogConsumer S C K) (es : list (time * ChangeEvent)) : BinlogConsumer S C K :=
  foldl (λ c te, (Route cfg te.1 te.2 c).1) c es.

Definition held (p : LifecyclePipeline) : list ChangeEvent := omap (λ r, match r with RIdle => None | RHas e => Some e end) (lp_routers p).

Lemma starts_snoc ls l : starts (ls ++ [l]) = (starts ls + match l with LStart => 1 | _ => 0 end)%nat.
Proof. unfold starts. rewrite List.filter_app, length_app. by destruct l. Qed.

(** The routers are at most as many as the successful starts. *)
Lemma routers_starts p0 ls p : lp_routers p0 = [] → runs lpstep p0 ls p → (length (lp_routers p) <= starts ls)%nat.
Proof.
  intros H0. revert p. induction ls as [|l ls IH] using rev_ind; intros p Hr; [inversion Hr; subst; by rewrite H0|].
  apply runs_snoc_inv in Hr as (q & Hq & Hs). specialize (IH q Hq). rewrite starts_snoc.
  inversion Hs; subst; cbn in *; rewrite ?length_insert; try lia.
  - unfold lp_Start in *. destruct (src_Start (lp_source q)) as [r [[]|]]; simplify_eq. cbn. rewrite length_app. cbn. lia.
  - unfold lp_Start in *. destruct (src_Start (lp_source q)) as [r [[]|]]; simplify_eq. cbn. lia.
  - match goal with H : lp_routers q !! ?i = _ |- _ => apply lookup_lt_Some in H end. rewrite length_delete by (by apply lookup_lt_is_Some). lia.
  - unfold Stop_close in *. destruct (lp_stopCh q); simplify_eq. cbn. lia.
  - unfold Stop_source. destruct (src_Stop (lp_source q)) as [r [[]|]]; cbn; lia.
  - unfold Stop_sinks. destruct (lp_stop_sinks (lp_sinks q)) as [[|k ks] r]; cbn; lia.
Qed.

(** One router, at most. *)
Lemma routers_one {A} (rs : list A) i r : (length rs <= 1)%nat → rs !! i = Some r → rs = [r] ∧ i = 0%nat.
Proof. destruct rs as [|x [|y rs]], i as [|i]; cbn; intros Hl H; simplify_eq; try done; lia. Qed.

Lemma emitted_snoc ls l : emitted (ls ++ [l]) = emitted ls ++ match l with LEmit e => [e] | _ => [] end.
Proof. unfold emitted. rewrite omap_app. by destruct l. Qed.
Lemma routed_snoc ls l : routed (ls ++ [l]) = routed ls ++ match l with LRoute now e => [(now, e)] | _ => [] end.
Proof. unfold routed. rewrite omap_app. by destruct l. Qed.

(** C12. Whatever the source, the router and a call of [Stop] do, and in whatever order, a pipeline
    that is started once has routed a prefix of the events the source sent, in order and each
    one once, the event it has and those in the channel are the rest, and the consumer is
    where routing that prefix takes it until the sinks are stopped. *)
Theorem lifecycle_routes_in_order p0 ls p :
  lp_routers p0 = [] → lp_events p0 = [] → (starts ls <= 1)%nat → runs lpstep p0 ls p →
  emitted ls = (routed ls).*2 ++ held p ++ lp_events p ∧
  (LStopSinks ∉ ls → lp_consumer p = route_all (lp_cfg p0) (lp_consumer p0) (routed ls)) ∧ lp_cfg p = lp_cfg p0.
Proof.
  intros H0 He. revert p. induction ls as [|l ls IH] using rev_ind; intros p Hst Hr.
  { inversion Hr; subst. unfold held. by rewrite H0, He. }
  apply runs_snoc_inv in Hr as (q & Hq & Hs). rewrite starts_snoc in Hst. pose proof (routers_starts p0 ls q H0 Hq) as Hlen.
  destruct (IH q ltac:(lia) Hq) as (Hem & Hc & Hcfg). rewrite emitted_snoc, routed_snoc, Hem. rewrite not_elem_of_app.
  assert (Hstep : ∀ p', held p' = held q → lp_events p' = lp_events q → lp_consumer p' = lp_consumer q → lp_cfg p' = lp_cfg q →
    ((routed ls).*2 ++ held q ++ lp_events q) ++ [] = (routed ls ++ []).*2 ++ held p' ++ lp_events p' ∧
    (LStopSinks ∉ ls ∧ LStopSinks ∉ [l] → lp_consumer p' = route_all (lp_cfg p0) (lp_consumer p0) (routed ls ++ [])) ∧ lp_cfg p' = lp_cfg p0).
  { intros p' -> -> -> ->. rewrite !app_nil_r. split; [done|]. split; [|done]. by intros [Hn _]; apply Hc. }
  inversion Hs; subst; clear Hs.
  - apply Hstep; unfold lp_Start in *; destruct (src_Start (lp_source q)) as [r [[]|]]; simplify_eq; try done.
    unfold held. cbn. rewrite omap_app. cbn. by rewrite app_nil_r.
  - apply Hstep; unfold lp_Start in *; destruct (src_Start (lp_source q)) as [r [[]|]]; by simplify_eq.
  - cbn. rewrite !app_nil_r, <- !app_assoc. split; [done|]. split; [|done]. by intros [Hn _]; apply Hc.
  - by apply Hstep.
  - destruct (routers_one (lp_routers q) i RIdle ltac:(lia) H) as [Hrs ->]. cbn. rewrite !app_nil_r.
    split; [|split; [by intros [Hn _]; apply Hc|done]]. unfold held. cbn. rewrite Hrs, H1. done.
  - destruct (routers_one (lp_routers q) i (RHas e) ltac:(lia) H) as [Hrs ->]. cbn. rewrite !app_nil_r.
    split; [|split; [|done]].
    + unfold held. cbn. rewrite Hrs. cbn. rewrite fmap_app. cbn. by rewrite <- app_assoc.
    + intros [Hn _]. unfold route_all. rewrite foldl_app. cbn. fold (route_all (lp_cfg p0) (lp_consumer p0) (routed ls)). by rewrite <- Hc, Hcfg.
  - destruct (routers_one (lp_routers q) i RIdle ltac:(lia) H) as [Hrs ->]. apply Hstep; try done. unfold held. cbn. by rewrite Hrs.
  - apply Hstep; unfold Stop_close in *; destruct (lp_stopCh q); by simplify_eq.
  - apply Hstep; unfold Stop_source; destruct (src_Stop (lp_source q)) as [r [[]|]]; by simplify_eq.
  - rewrite !app_nil_r. unfold Stop_sinks. destruct (lp_stop_sinks (lp_sinks q)) as [[|k ks] r]; cbn; (split; [done|]); (split; [|done]);
      intros [_ Hn]; exfalso; apply Hn; set_solver.
Qed.

Lemma stop_sinks_length ks : length (lp_stop_sinks ks).1 = length ks.
Proof. induction ks as [|k ks IH]; [done|]. cbn. destruct (snk_Stop k) as [k' [[]|]]; [|done]. destruct (lp_stop_sinks ks). cbn in *. by rewrite IH. Qed.

(** A call of [Stop] that has returned, with the sinks it left and no router. *)
Definition stopped (r : result unit) (ks : list K) (p : LifecyclePipeline) : Prop :=
  lp_stop p = Returned r ∧ lp_stopCh p = true ∧ lp_sinks p = ks ∧ lp_routers p = [].

Lemma stopped_step r ks p l p' : stopped r ks p → lpstep p l p' → l ≠ LStart → stopped r ks p' ∧ ∀ now e, l ≠ LRoute now e.
Proof.
  intros (H1 & H2 & H3 & H4) Hs Hl. inversion Hs; subst; try done; try (rewrite H4 in *; done); try congruence; (split; [|done]).
  - unfold lp_Start in *. destruct (src_Start (lp_source p)) as [s' [[]|]]; by simplify_eq.
  - unfold Stop_close in *. rewrite H2 in *. done.
Qed.

(** When the sinks have been stopped nothing is routed and no sink is written to or stopped
    again, unless the pipeline is started again; whatever is then in the channel is lost. *)
Theorem stop_quiesces p ls p' :
  lp_stop p = Waiting → lp_stopCh p = true → lp_routers p = [] → runs lpstep (Stop_sinks p) ls p' → starts ls = 0%nat →
  stopped (lp_stop_sinks (lp_sinks p)).2 (lp_stop_sinks (lp_sinks p)).1 p' ∧ routed ls = [].
Proof.
  intros Hw Hch Hrs Hr Hst.
  assert (H0 : stopped (lp_stop_sinks (lp_sinks p)).2 (lp_stop_sinks (lp_sinks p)).1 (Stop_sinks p)).
  { pose proof (stop_sinks_length (lp_sinks p)) as Hl. unfold stopped, Stop_sinks. destruct (lp_stop_sinks (lp_sinks p)) as [[|k ks] r]; [done|].
    cbn. by rewrite Hch, Hrs. }
  revert H0 Hst. induction Hr as [|q l q' ls q'' Hs _ IH]; [done|]. intros H0 Hst.
  destruct (stopped_step _ _ _ _ _ H0 Hs) as [H1 Hn]; [by intros ->|].
  destruct (IH H1) as [H2 H3]; [by destruct l|]. split; [exact H2|]. destruct l; try exact H3. by destruct (Hn now e).
Qed.

(** When the source fails to stop, the sinks are never stopped, whatever happens afterwards:
    the call has returned, and another one panics. *)
Theorem failed_stop_leaks p err ls p' :
  lp_stopCh p = true → (src_Stop (lp_source p)).2 = Err err → runs lpstep (Stop_source p) ls p' →
  lp_stop p' = Returned (Err err) ∧ LStopSinks ∉ ls ∧ (Stop_close p').2 = Err (Panic "close of closed channel").
Proof.
  intros Hch He Hr.
  assert (H0 : lp_stop (Stop_source p) = Returned (Err err) ∧ lp_stopCh (Stop_source p) = true).
  { unfold Stop_source. destruct (src_Stop (lp_source p)) as [s' r']. cbn in He. subst r'. done. }
  clear Hch He. induction Hr as [q|q l q' ls q'' Hs _ IH].
  - destruct H0 as [H1 H2]. split; [done|]. split; [set_solver|]. unfold Stop_close. by rewrite H2.
  - assert (H1 : (lp_stop q' = Returned (Err err) ∧ lp_stopCh q' = true) ∧ l ≠ LStopSinks).
    { destruct H0 as [H1 H2]. inversion Hs; subst; try done; try congruence.
      - unfold lp_Start in *. destruct (src_Start (lp_source q)) as [s' [[]|]]; by simplify_eq.
      - unfold lp_Start in *. destruct (src_Start (lp_source q)) as [s' [[]|]]; by simplify_eq.
      - unfold Stop_close in *. rewrite H2 in *. done. }
    destruct H1 as [H1 Hl]. destruct (IH H1) as (H2 & H3 & H4). split; [done|]. split; [set_solver|done].
Qed.
End LifecyclePipeline.
Arguments LifecyclePipeline : clear implicits.

(** ** Runs *)

Module LifecyclePipelineRuns.
Import ConsumerRuns.
Import StoreRuns.
#[local] Existing Instances demo_events demo_cache demo_change_json demo_parser.
#[local] Instance sink : SinkConnector (list ChangeEvent) := {| snk_Write evs k := (k ++ evs, Ok tt); snk_Start k := (k, Ok tt); snk_Stop k := (k, Ok tt) |}.
#[local] Instance src : SourceConnector bool := {| src_Start _ := (true, Ok tt); src_Stop _ := (false, Ok tt) |}.
Notation LP := (LifecyclePipeline bool MySQLDB LocalBackend (list ChangeEvent)) (only parsing).

Definition new : LP := mkLP cfg false (consumer streaming InitDatabase) [] [] false false [] NotStopped.
Example new_built :
  NewLifecyclePipeline false [[]] (NewLocalBackend SyncModeEvery) (store_with streaming) "task1" 1 (Some (mkDDLDependencies true (Some NewTables) true false (Some InitDatabase))) InitDatabase = Ok new.
Proof. reflexivity. Qed.

Definition e1 : ChangeEvent := row_event "app" "users".
Definition e2 : ChangeEvent := mkChangeEvent "e2" SourceInfo_zero EventTypeDelete Position_zero (mkTableInfo "app" "" "users" [] [] [])
  RowData_zero RowData_zero 0 None None None.
Definition labels : list lplabel := [LStart; LEmit e1; LEmit e2; LRecv; LRoute 1 e1; LStop].

(** Steps by computation. *)
Lemma step_start (p : LP) : (lp_Start p).2 = Ok tt → lpstep p LStart (lp_Start p).1.
Proof. intros H. apply lp_start. by apply eta_pair. Qed.
Lemma step_route (p : LP) i now e :
  lp_routers p !! i = Some (RHas e) → (Route (lp_cfg p) now e (lp_consumer p)).2 = Ok tt →
  lpstep p (LRoute now e) (set_routers (<[i := RIdle]> (lp_routers p)) (set_consumer (Route (lp_cfg p) now e (lp_consumer p)).1 p)).
Proof. intros H Hr. eapply lp_route; [exact H|done|]. by rewrite Hr. Qed.
Lemma step_stop (p : LP) : (Stop_close p).2 = Ok tt → lpstep p LStop (Stop_close p).1.
Proof. intros H. apply lp_stop_close. by apply eta_pair. Qed.
Tactic Notation "run_step" uconstr(l) := eapply runs_cons; [eapply l; vm_compute; reflexivity|].

Lemma labels_run : ∃ p, runs lpstep new labels p ∧ bc_sink (lp_consumer p) = [e1] ∧ lp_events p = [e2].
Proof.
  eexists. split.
  - unfold labels. run_step step_start. run_step lp_emit. run_step lp_emit. run_step (lp_recv _ 0).
    run_step (step_route _ 0). run_step step_stop. constructor.
  - vm_compute. by split.
Qed.

(** The events that are routed when [Stop] is called: the other one may be lost. *)
Lemma lifecycle_routes_in_order_witness :
  ∃ p, runs lpstep new labels p ∧ [e1; e2] = (routed labels).*2 ++ held p ++ lp_events p ∧ (routed labels).*2 = [e1] ∧
    lp_consumer p = route_all cfg (consumer streaming InitDatabase) [(1, e1)].
Proof.
  destruct labels_run as (p & Hp & Hs). exists p.
  destruct (lifecycle_routes_in_order new labels p) as (He & Hc & _); [reflexivity|reflexivity|vm_compute; lia|exact Hp|].
  split; [exact Hp|]. split; [exact He|]. split; [reflexivity|]. apply Hc. unfold labels. rewrite !not_elem_of_cons. repeat split; try discriminate. apply not_elem_of_nil.
Defined.

(** A pipeline that is started twice may route two events in the other order. *)
Example started_twice_reorders :
  ∃ p, runs lpstep new [LStart; LStart; LEmit e1; LEmit e2; LRecv; LRecv; LRoute 1 e2; LRoute 2 e1] p ∧ bc_sink (lp_consumer p) = [e2; e1].
Proof.
  eexists. split.
  - run_step step_start. run_step step_start. run_step lp_emit. run_step lp_emit. run_step (lp_recv _ 0). run_step (lp_recv _ 1).
    run_step (step_route _ 1). run_step (step_route _ 0). constructor.
  - vm_compute. reflexivity.
Qed.

Example no_sinks_panics :
  NewLifecyclePipeline (K := list ChangeEvent) false [] (NewLocalBackend SyncModeEvery) (store_with streaming) "task1" 1 None InitDatabase =
    Err (Panic "runtime error: index out of range [0] with length 0").
Proof. reflexivity. Qed.
End LifecyclePipelineRuns.
