(* ===== verification/BinlogSetup.v ===== *)
(** Setting up the MySQL and MariaDB sources: their configurations (config.go of
    internal/source/mysql and internal/source/mariadb), [New], [Initialize] and the rest of
    the MariaDB connector (connector.go), where it starts and where a restart resumes.

    The databases are parameters ([binlog_init]).  [Initialize] is that of a connector that has
    no syncer yet.  Sizes of connection pools and the closing of connections are left out. *)
From Stdlib Require Import ZArith Lia.
From Stdlib Require String.
From stdpp Require Import prelude countable gmap strings list fin_maps pretty.
From S2P Require Import Prelude Events Strings SchemaHistory TargetStore TableLifecycle Scope BinlogConsumer LogMiner MySQLRows DDLApply Offsets BinlogSyncer MySQLConnector MariaDBSyncer DocumentSinks MongoSink SQLServerReader SQLServerConnector.
Local Open Scope Z_scope.

(** ** mysql/config.go *)

Record MyConfig := mkMyConfig {
  my_Host : string; my_Port : Z; my_User : string; my_Password : string;
  my_ServerID : Z;
  my_Databases : list string; my_Tables : gmap string string;
  my_BinlogFile : string; my_BinlogPos : Z;
  my_SnapshotMode : string; my_SnapshotThreads : Z; my_SnapshotLock : bool; my_SnapshotHighWater : Z;
  my_Timezone : string;
  my_SSLMode : string; my_SSLCert : string; my_SSLKey : string; my_SSLCACert : string; my_SSLAllowNaN : bool;
  my_MaxConnections : Z; my_MaxIdle : Z; my_ConnectTimeout : Z; my_ReadTimeout : Z; my_WriteTimeout : Z;
  my_BinlogRowImage : string; my_BinlogBuffer : Z; my_HeartbeatInterval : Z; my_HeartbeatTimeout : Z; my_BinlogQueueSize : Z;
  my_IncludeSchemaEvents : bool;
  my_BigTXThreshold : Z; my_BigTXTimeout : Z;
  my_DecimalHandling : string;
  my_OffsetBackend : string; my_OffsetPath : string; my_OffsetFlushMs : Z; my_OffsetEtcdAddrs : string
}.

(** [Time.Unix] *)
Definition Unix (t : time) : Z := i64 ((t - unix_epoch) / 1000000000).

(** The server identifier is taken from the clock. *)
Definition my_DefaultConfig (now : time) : MyConfig :=
  mkMyConfig "" 3306 "" "" (u32 (Unix now)) [] ∅ "" 0 "initial" 1 true 0 "UTC" "" "" "" "" false 10 5 30 30 30
    "full" (1024 * 1024) 30 60 1000 false 0 0 "string" "file" "" 1000 "".

Definition my_Validate (c : MyConfig) : result unit :=
  if bool_decide (my_Host c = "") then Err src_ErrInvalidConfig
  else if bool_decide (my_User c = "") then Err src_ErrInvalidConfig
  else if my_ServerID c =? 0 then Err src_ErrInvalidConfig
  else Ok tt.

(** ** mariadb/config.go *)

Record MariaConfig := mkMariaConfig {
  ma_Host : string; ma_Port : Z; ma_User : string; ma_Password : string;
  ma_SSLMode : string;
  ma_MaxConnections : Z; ma_MaxIdle : Z; ma_ConnectTimeout : Z;
  ma_ServerID : Z; ma_BinlogFile : string; ma_BinlogPos : Z;
  ma_UseGTID : bool; ma_GTIDDomain : Z;
  ma_Databases : list string; ma_Tables : gmap string string;
  ma_SnapshotMode : string; ma_SnapshotThreads : Z; ma_SnapshotLockTimeout : Z;
  ma_Timezone : string; ma_IncludeSchemaEvents : bool;
  ma_OffsetBackend : string; ma_OffsetPath : string; ma_OffsetFlushMs : Z
}.

Definition maria_DefaultConfig : MariaConfig :=
  mkMariaConfig "localhost" 3306 "" "" "disabled" 10 2 30 1001 "" 0 false 0 [] ∅ "initial" 1 10 "UTC" true "" "" 1000.

Definition ma_set_Port (port : Z) (c : MariaConfig) : MariaConfig :=
  mkMariaConfig (ma_Host c) port (ma_User c) (ma_Password c) (ma_SSLMode c) (ma_MaxConnections c) (ma_MaxIdle c) (ma_ConnectTimeout c)
    (ma_ServerID c) (ma_BinlogFile c) (ma_BinlogPos c) (ma_UseGTID c) (ma_GTIDDomain c) (ma_Databases c) (ma_Tables c) (ma_SnapshotMode c)
    (ma_SnapshotThreads c) (ma_SnapshotLockTimeout c) (ma_Timezone c) (ma_IncludeSchemaEvents c) (ma_OffsetBackend c) (ma_OffsetPath c)
    (ma_OffsetFlushMs c).

Definition maria_ssl_modes : list string := ["disabled"; "preferred"; "required"; "verify_ca"; "verify_identity"; ""].

(** A port that is not positive is replaced, also when a later check fails. *)
Definition maria_Validate : ST MariaConfig unit := λ c,
  if bool_decide (ma_Host c = "") then (c, Err (ErrNew "host is required"))
  else
    let c := if ma_Port c <=? 0 then ma_set_Port 3306 c else c in
    if ma_ServerID c =? 0 then (c, Err (ErrNew "serverId is required for binlog replication"))
    else if bool_decide (ma_SSLMode c ∈ maria_ssl_modes) then (c, Ok tt)
    else (c, Err (ErrNew ("invalid SSL mode: " +:+ ma_SSLMode c))).

(** ** Parsing *)

Section Parse.
Context `{RX : Regexp}.
Implicit Types config : source_Config.

Definition so_flag config (name : string) : option bool :=
  match so_Properties config !! name with Some (PValue (VBool b)) => Some b | _ => None end.

(** [uint32(f)] of a float64. *)
Definition so_uint32 config (name : string) : option Z := u32 <$> so_number config name.

(** The tables of the filters are not read. *)
Definition my_parseConfig (now : time) config : MyConfig :=
  let d := my_DefaultConfig now in
  let conn := so_Connection config in
  mkMyConfig (cc_Host conn) (cc_Port conn) (cc_User conn) (cc_Password conn)
    (default (my_ServerID d) (so_uint32 config "serverId"))
    (my_Databases d ++ (tf_Database <$> so_Tables config)) (my_Tables d)
    (default (my_BinlogFile d) (so_string config "binlogFile"))
    (default (my_BinlogPos d) (so_uint32 config "binlogPos"))
    (default (my_SnapshotMode d) (so_string config "snapshotMode")) (my_SnapshotThreads d) (my_SnapshotLock d) (my_SnapshotHighWater d)
    (default (my_Timezone d) (so_string config "timezone"))
    (default (my_SSLMode d) (so_string config "sslMode")) (my_SSLCert d) (my_SSLKey d) (my_SSLCACert d) (my_SSLAllowNaN d)
    (my_MaxConnections d) (my_MaxIdle d) (my_ConnectTimeout d) (my_ReadTimeout d) (my_WriteTimeout d)
    (my_BinlogRowImage d) (my_BinlogBuffer d) (my_HeartbeatInterval d) (my_HeartbeatTimeout d) (my_BinlogQueueSize d)
    (default (my_IncludeSchemaEvents d) (so_flag config "includeSchemaEvents"))
    (my_BigTXThreshold d) (my_BigTXTimeout d) (my_DecimalHandling d)
    (so_OffsetBackend config) (so_OffsetPath config) (so_OffsetFlush config) (my_OffsetEtcdAddrs d).

Definition maria_parseConfig config : MariaConfig :=
  let d := maria_DefaultConfig in
  let conn := so_Connection config in
  mkMariaConfig (cc_Host conn) (cc_Port conn) (cc_User conn) (cc_Password conn)
    (default (ma_SSLMode d) (so_string config "sslMode"))
    (ma_MaxConnections d) (ma_MaxIdle d) (ma_ConnectTimeout d)
    (default (ma_ServerID d) (so_uint32 config "serverId"))
    (default (ma_BinlogFile d) (so_string config "binlogFile"))
    (default (ma_BinlogPos d) (so_uint32 config "binlogPos"))
    (default (ma_UseGTID d) (so_flag config "useGTID"))
    (default (ma_GTIDDomain d) (so_uint32 config "gtidDomain"))
    (ma_Databases d ++ (tf_Database <$> so_Tables config)) (ma_Tables d)
    (default (ma_SnapshotMode d) (so_string config "snapshotMode")) (ma_SnapshotThreads d) (ma_SnapshotLockTimeout d)
    (default (ma_Timezone d) (so_string config "timezone"))
    (default (ma_IncludeSchemaEvents d) (so_flag config "includeSchemaEvents"))
    (so_OffsetBackend config) (so_OffsetPath config) (so_OffsetFlush config).

(** What the syncers read of the configurations. *)
Definition my_sync (c : MyConfig) : SyncConfig := mkSyncConfig (my_Databases c) (my_Tables c).
Definition maria_sync (c : MariaConfig) : SyncConfig := mkSyncConfig (ma_Databases c) (ma_Tables c).

(** The data source names. *)
Definition binlog_dsn (user password host : string) (port timeout : Z) (tls : string) : string :=
  user +:+ ":" +:+ password +:+ "@tcp(" +:+ JoinHostPort host (pretty port) +:+ ")/?parseTime=true&timeout=" +:+ pretty timeout +:+ "s" +:+ tls.
Definition my_dsn (c : MyConfig) : string :=
  binlog_dsn (my_User c) (my_Password c) (my_Host c) (my_Port c) (my_ConnectTimeout c)
    (if bool_decide (my_SSLMode c ≠ "") then "&tls=" +:+ my_SSLMode c else "").
Definition maria_dsn (c : MariaConfig) : string :=
  binlog_dsn (ma_User c) (ma_Password c) (ma_Host c) (ma_Port c) (ma_ConnectTimeout c)
    (if bool_decide (ma_SSLMode c ≠ "") && bool_decide (ma_SSLMode c ≠ "disabled") then "&tls=" +:+ ma_SSLMode c else "").
End Parse.

(** ** Initialising *)

(** How opening and pinging the databases ends, by their names; the offset storage; and the
    stores of tasks in a database. *)
Record binlog_init (S O : Type) := mkBinlogInit {
  bi_open : string → result unit;
  bi_ping : string → result unit;
  bi_storage : string → string → Z → result O;
  bi_initDatabase : string → result unit;
  bi_store : string → string → S
}.
Arguments mkBinlogInit {_ _} _ _ _ _ _.
Arguments bi_open {_ _} _ _.
Arguments bi_ping {_ _} _ _.
Arguments bi_storage {_ _} _ _ _ _.
Arguments bi_initDatabase {_ _} _ _.
Arguments bi_store {_ _} _ _ _.

Definition wrapped {A} (msg : string) (r : result A) : result A := match r with Err e => Err (ErrWrapf msg e) | Ok x => Ok x end.

Section Setup.
Context {S O : Type} `{!TargetStore S} `{!Storage O} `{RX : Regexp}.
Notation conn := (MySQLConnector S O) (only parsing).
Implicit Types c : MySQLConnector S O.
Implicit Types config : source_Config.

(** [New] of both packages. *)
Definition conn_New : conn := mkMySQLConnector SourceUninitialized "" None "" false None ∅ ∅ None None "" None.

Definition mc_set_task (o : O) (task : string) c : conn :=
  mkMySQLConnector (mc_state c) (mc_message c) (mc_position c) (mc_currentBinlog c) (mc_stopClosed c) (mc_syncer c) (mc_schemaCache c)
    (mc_tables c) (mc_store c) (Some o) task (mc_syncScope c).
Definition mc_set_cache (cache : gmap string TableInfo) c : conn :=
  mkMySQLConnector (mc_state c) (mc_message c) (mc_position c) (mc_currentBinlog c) (mc_stopClosed c) (mc_syncer c) cache
    (mc_tables c) (mc_store c) (mc_offsetStorage c) (mc_taskID c) (mc_syncScope c).

(** The offset storage; an error of [Load] is logged. *)
Definition binlog_init_offset config (w : binlog_init S O) : ST conn unit := λ c,
  if bool_decide (so_OffsetBackend config ≠ "") then
    match bi_storage w (so_OffsetBackend config) (so_OffsetPath config) (so_OffsetFlush config) with
    | Err e => (c, Err (ErrWrapf "failed to create offset storage" e))
    | Ok o =>
        let '(o, r) := storage_Load (so_Type config) o in
        let c := mc_set_task o (so_Type config) c in
        (match r with Ok (Some p) => mc_set_position (Some p) (pos_BinlogFile p) c | _ => c end, Ok tt)
    end
  else (c, Ok tt).

(** A configured file replaces the position that was loaded. *)
Definition init_file (file : string) (pos : Z) c : conn :=
  if bool_decide (file ≠ "") then mc_set_position (Some (mkPosition file pos 0 0 0 0 None "" "" 0 "" 0 0)) file c else c.

(** *** MySQL *)

(** A store is made where there is a [targetDSN]. *)
Definition my_init_target config (w : binlog_init S O) : ST conn unit := λ c,
  match so_string config "targetDSN" with
  | None => (c, Ok tt)
  | Some dsn =>
      if bool_decide (dsn = "") then (c, Ok tt)
      else
        let taskID := match so_string config "taskId" with Some t => if bool_decide (t ≠ "") then t else mc_taskID c | None => mc_taskID c end in
        let taskID := if bool_decide (taskID = "") then "default" else taskID in
        match wrapped "failed to open target database" (bi_open w dsn) with
        | Err e => (c, Err e)
        | Ok _ =>
            match wrapped "failed to connect to target database" (bi_ping w dsn) with
            | Err e => (c, Err e)
            | Ok _ =>
                match wrapped "failed to init target store" (bi_initDatabase w dsn) with
                | Err e => (c, Err e)
                | Ok _ => (mc_set_defs (mc_tables c) (Some (bi_store w dsn taskID)) c, Ok tt)
                end
            end
        end
  end.

Definition my_Initialize (now : time) config (w : binlog_init S O) : ST conn unit :=
  let cfg := my_parseConfig now config in
  st_lift (my_Validate cfg) ≫= λ _,
  st_modify (λ c, mc_set_state SourceInitializing (mc_message c) (mc_set_scope (so_SyncScope config) c)) ≫= λ _,
  st_lift (wrapped "failed to open database" (bi_open w (my_dsn cfg))) ≫= λ _,
  st_lift (wrapped "failed to connect to database" (bi_ping w (my_dsn cfg))) ≫= λ _,
  st_modify (λ c, mc_set_defs NewTables (mc_store c) (mc_set_cache ∅ c)) ≫= λ _,
  binlog_init_offset config w ≫= λ _,
  my_init_target config w ≫= λ _,
  st_modify (λ c, let c := init_file (my_BinlogFile cfg) (my_BinlogPos cfg) c in mc_set_state SourceStopped (mc_message c) c).

(** [Schemas], [GetSchema]. *)
Definition my_Schemas c : gmap string TableInfo := cache_All (Some (shared_cache c)).

(** *** MariaDB *)

(** The store is in the database of the source; the definitions are those of its history. *)
Definition maria_init_store config (w : binlog_init S O) (dsn : string) c : conn :=
  match bi_initDatabase w dsn with
  | Err _ => mc_set_defs NewTables None (mc_set_cache ∅ c)
  | Ok _ =>
      let st := bi_store w dsn (if bool_decide (so_Type config = "") then "mariadb" else so_Type config) in
      mc_set_defs (maria_recover st) (Some (LoadSchemaHistory st).1) (mc_set_cache ∅ c)
  end.

Definition maria_Initialize config (w : binlog_init S O) : ST conn unit :=
  let '(cfg, valid) := maria_Validate (maria_parseConfig config) in
  st_lift valid ≫= λ _,
  st_modify (λ c, mc_set_state SourceInitializing (mc_message c) (mc_set_scope (so_SyncScope config) c)) ≫= λ _,
  st_lift (wrapped "failed to open database" (bi_open w (maria_dsn cfg))) ≫= λ _,
  st_lift (wrapped "failed to connect to database" (bi_ping w (maria_dsn cfg))) ≫= λ _,
  st_modify (maria_init_store config w (maria_dsn cfg)) ≫= λ _,
  binlog_init_offset config w ≫= λ _,
  st_modify (λ c, let c := init_file (ma_BinlogFile cfg) (ma_BinlogPos cfg) c in mc_set_state SourceStopped (mc_message c) c).

(** Nothing is recovered at a start. *)
Definition maria_Start (registry : gmap string SQLParser) (startSync : option goerror) : ST conn unit := λ c,
  if bool_decide (mc_state c = SourceRunning) then (c, Err src_ErrAlreadyRunning)
  else
    let cache := shared_cache c in
    let c := mc_set_defs (shared_tables c) (shared_store c) (mc_set_state SourceRunning (mc_message c) c) in
    let chan {A} (f : BinlogSyncer S → list A) : list A := from_option f [] (mc_syncer c) in
    let y := NewBinlogSyncer (mc_syncScope c) cache (Some (mc_tables c)) (mc_store c) (chan bs_objects) (chan bs_sent)
               (chan bs_selects) (chan bs_errors) in
    let y := (syncer_Start registry (mc_position c) y).1 in
    match startSync with
    | Some e =>
        let e := ErrWrapf "failed to start binlog syncer" e in
        (mc_set_state SourceError (error_string e) (mc_set_syncer (Some y) c), Err (ErrWrapf "failed to start binlog syncer" e))
    | None => (mc_set_syncer (Some y) c, Ok tt)
    end.

(** The definitions of the history before those of the cache. *)
Definition maria_Schemas c : gmap string TableInfo := shared_tables c ∪ shared_cache c.

(** These are the same text in both packages. *)
Definition maria_Stop : ST conn unit := conn_Stop.
Definition maria_GetPosition (c : conn) : option Position := conn_GetPosition c.
Definition maria_SetPosition (pos : option Position) : ST conn unit := conn_SetPosition pos.
Definition maria_AddTables (tables : list string) : ST conn unit := MySQLConnector.AddTables tables.
Definition maria_RemoveTables (tables : list string) : ST conn unit := MySQLConnector.RemoveTables tables.
Definition maria_ListTables (c : conn) : list string := conn_ListTables c.
Definition maria_NewBinlogSyncer := NewBinlogSyncer (S := S).
Definition maria_UpdateSyncScope (scope : option SyncScope) : BinlogSyncer S → BinlogSyncer S := UpdateSyncScope scope.
Definition maria_syncer_Start (registry : gmap string SQLParser) (startPos : option Position) (s : BinlogSyncer S) := syncer_Start registry startPos s.
Definition maria_syncer_GetPosition (s : BinlogSyncer S) : option Position := syncer_GetPosition s.
Definition maria_handleRotateEvent (name : string) (s : BinlogSyncer S) : BinlogSyncer S := handleRotateEvent name s.
Definition maria_handleTableMapEvent id types metas (s : BinlogSyncer S) : BinlogSyncer S := handleTableMapEvent id types metas s.
Definition maria_run (cfg : SyncConfig) `{!GoRange string string} (format_ts : time → string) := syncer_run (maria_processEvent (S := S) cfg format_ts).
End Setup.

(** The cache of definitions of MariaDB, the same text but for [All] of nil. *)
Definition maria_querySchema (answer : columns_answer) (database table : string) : result TableInfo := querySchema answer database table.
Definition maria_cache_Get (db : string → string → columns_answer) (database table : string) := cache_Get db database table.
Definition maria_cache_Update (database table : string) (info : TableInfo) (c : gmap string TableInfo) := cache_Update database table info c.
Definition maria_cache_Invalidate (database table : string) (c : gmap string TableInfo) := cache_Invalidate database table c.
Definition maria_cache_InvalidateAll (c : gmap string TableInfo) := cache_InvalidateAll c.

(** ** Where the stream begins *)

(** The file and the offset that [StartSync] is asked for; nothing is the end of the log. *)
Definition stream_place (p : option Position) : option (string * Z) :=
  match p with Some p => if bool_decide (pos_BinlogFile p ≠ "") then Some (pos_BinlogFile p, pos_BinlogPos p) else None | None => None end.

Section Begin.
Context {S O : Type} `{!TargetStore S} `{!Storage O} `{RX : Regexp}.
Implicit Types c : MySQLConnector S O.
Implicit Types config : source_Config.

Lemma syncer_Start_place registry p (s : BinlogSyncer S) :
  (syncer_Start registry p s).2 = stream_place p ∧
  (stream_place p ≠ None → syncer_GetPosition (syncer_Start registry p s).1 = p).
Proof.
  unfold syncer_Start, stream_place. destruct p as [p|]; [|done]. case_bool_decide; [|done]. split; [done|]. intros _.
  unfold syncer_GetPosition, deref_position. cbn. by rewrite !Position_Clone_id.
Qed.

(** The position that the offset storage holds. *)
Definition loaded_position config (w : binlog_init S O) : option Position :=
  if bool_decide (so_OffsetBackend config ≠ "") then
    match bi_storage w (so_OffsetBackend config) (so_OffsetPath config) (so_OffsetFlush config) with
    | Ok o => match (storage_Load (so_Type config) o).2 with Ok p => p | Err _ => None end
    | Err _ => None
    end
  else None.
Definition configured_position (file : string) (pos : Z) : option Position :=
  if bool_decide (file ≠ "") then Some (mkPosition file pos 0 0 0 0 None "" "" 0 "" 0 0) else None.
Definition first_of {A} (x y : option A) : option A := match x with Some _ => x | None => y end.

Lemma init_offset_position config w c c' :
  binlog_init_offset config w c = (c', Ok tt) →
  mc_position c' = first_of (loaded_position config w) (mc_position c) ∧ mc_store c' = mc_store c ∧ mc_syncer c' = mc_syncer c ∧
  mc_state c' = mc_state c ∧ mc_stopClosed c' = mc_stopClosed c ∧ mc_tables c' = mc_tables c ∧ mc_schemaCache c' = mc_schemaCache c.
Proof.
  unfold binlog_init_offset, loaded_position. case_bool_decide; [|by intros [= <-]].
  destruct (bi_storage _ _ _ _) as [o|e]; [|done]. destruct (storage_Load _ o) as [o' [[p|]|e]]; by intros [= <-].
Qed.

Lemma my_init_target_position config w c c' :
  my_init_target config w c = (c', Ok tt) →
  mc_position c' = mc_position c ∧ mc_syncer c' = mc_syncer c ∧ mc_stopClosed c' = mc_stopClosed c ∧ mc_offsetStorage c' = mc_offsetStorage c ∧
  mc_taskID c' = mc_taskID c ∧ (so_string config "targetDSN" = None → mc_store c' = mc_store c).
Proof.
  unfold my_init_target. destruct (so_string config "targetDSN") as [dsn|]; [|by intros [= <-]].
  case_bool_decide; [by intros [= <-]|]. cbv zeta.
  destruct (wrapped _ (bi_open _ _)); [|done]. destruct (wrapped _ (bi_ping _ _)); [|done]. destruct (wrapped _ (bi_initDatabase _ _)); [|done]. by intros [= <-].
Qed.

Lemma init_file_position file pos c :
  mc_position (init_file file pos c) = first_of (configured_position file pos) (mc_position c) ∧ mc_store (init_file file pos c) = mc_store c ∧
  mc_syncer (init_file file pos c) = mc_syncer c ∧ mc_offsetStorage (init_file file pos c) = mc_offsetStorage c ∧
  mc_taskID (init_file file pos c) = mc_taskID c ∧ mc_stopClosed (init_file file pos c) = mc_stopClosed c.
Proof. unfold init_file, configured_position. by case_bool_decide. Qed.

(** The offset storage of an initialised connector. *)
Definition storage_at config (w : binlog_init S O) c : Prop :=
  so_OffsetBackend config ≠ "" →
  ∃ o, bi_storage w (so_OffsetBackend config) (so_OffsetPath config) (so_OffsetFlush config) = Ok o ∧
    mc_offsetStorage c = Some (storage_Load (so_Type config) o).1 ∧ mc_taskID c = so_Type config.

Lemma init_offset_storage config w c c' : binlog_init_offset config w c = (c', Ok tt) → storage_at config w c'.
Proof.
  unfold binlog_init_offset, storage_at. intros H Hb. rewrite bool_decide_eq_true_2 in H by done.
  destruct (bi_storage _ _ _ _) as [o|e]; [|done]. exists o. split; [done|].
  destruct (storage_Load _ o) as [o' [[p|]|e]]; by simplify_eq.
Qed.

(** An initialised connector: where it will read from, and that nothing runs. *)
Definition initialised config (w : binlog_init S O) (file : string) (pos : Z) c : Prop :=
  mc_position c = first_of (configured_position file pos) (loaded_position config w) ∧ storage_at config w c ∧
  mc_syncer c = None ∧ mc_state c = SourceStopped ∧ mc_stopClosed c = false.

Lemma bind_ok_inv {T A B} (m : ST T A) (k : A → ST T B) s s' b : (m ≫= k) s = (s', Ok b) → ∃ s1 a, m s = (s1, Ok a) ∧ k a s1 = (s', Ok b).
Proof. unfold mbind, ST_bind. destruct (m s) as [s1 [a|e]]; [|done]. eauto. Qed.

Lemma first_of_None {A} (x : option A) : first_of x None = x.
Proof. by destruct x. Qed.

Lemma my_Initialize_spec now config w c :
  my_Initialize now config w conn_New = (c, Ok tt) →
  initialised config w (my_BinlogFile (my_parseConfig now config)) (my_BinlogPos (my_parseConfig now config)) c ∧
  (so_string config "targetDSN" = None → mc_store c = None).
Proof.
  unfold my_Initialize. cbv zeta. set (cfg := my_parseConfig now config).
  intros (c1 & [] & [= <- _] & H)%bind_ok_inv. apply bind_ok_inv in H as (c2 & [] & [= <-] & H).
  apply bind_ok_inv in H as (c3 & [] & [= <- _] & H). apply bind_ok_inv in H as (c4 & [] & [= <- _] & H).
  apply bind_ok_inv in H as (c5 & [] & [= <-] & H). apply bind_ok_inv in H as (c6 & [] & Ho & H).
  apply bind_ok_inv in H as (c7 & [] & Ht & [= <-]).
  pose proof (init_offset_storage _ _ _ _ Ho) as Hs. apply init_offset_position in Ho as (Hp & Hst & Hy & _ & Hc & _).
  apply my_init_target_position in Ht as (Hp2 & Hy2 & Hc2 & Ho2 & Ht2 & Hst2).
  destruct (init_file_position (my_BinlogFile cfg) (my_BinlogPos cfg) c7) as (Hp3 & Hst3 & Hy3 & Ho3 & Ht3 & Hc3).
  split; [|intros Hd; apply (eq_trans Hst3); by rewrite Hst2, Hst].
  split; [apply (eq_trans Hp3); rewrite Hp2, Hp; f_equal; apply first_of_None|].
  split; [|split; [apply (eq_trans Hy3); by rewrite Hy2, Hy|split; [done|apply (eq_trans Hc3); by rewrite Hc2, Hc]]].
  intros Hb. destruct (Hs Hb) as (o & E & H1 & H2). exists o. split; [done|].
  split; [apply (eq_trans Ho3); by rewrite Ho2|apply (eq_trans Ht3); by rewrite Ht2].
Qed.

Lemma maria_Initialize_spec config w c :
  maria_Initialize config w conn_New = (c, Ok tt) →
  initialised config w (ma_BinlogFile (maria_parseConfig config)) (ma_BinlogPos (maria_parseConfig config)) c.
Proof.
  unfold maria_Initialize. destruct (maria_Validate (maria_parseConfig config)) as [cfg valid] eqn:E.
  assert (Hcfg : ma_BinlogFile cfg = ma_BinlogFile (maria_parseConfig config) ∧ ma_BinlogPos cfg = ma_BinlogPos (maria_parseConfig config)).
  { unfold maria_Validate in E. repeat case_match; by simplify_eq. }
  destruct Hcfg as [<- <-]. clear E.
  intros (c1 & [] & [= <- _] & H)%bind_ok_inv. apply bind_ok_inv in H as (c2 & [] & [= <-] & H).
  apply bind_ok_inv in H as (c3 & [] & [= <- _] & H). apply bind_ok_inv in H as (c4 & [] & [= <- _] & H).
  apply bind_ok_inv in H as (c5 & [] & [= <-] & H). apply bind_ok_inv in H as (c6 & [] & Ho & [= <-]).
  pose proof (init_offset_storage _ _ _ _ Ho) as Hs. apply init_offset_position in Ho as (Hp & Hst & Hy & _ & Hc & _).
  destruct (init_file_position (ma_BinlogFile cfg) (ma_BinlogPos cfg) c6) as (Hp3 & Hst3 & Hy3 & Ho3 & Ht3 & Hc3).
  assert (Hi : ∀ c0 dsn, mc_position (maria_init_store config w dsn c0) = mc_position c0 ∧ mc_syncer (maria_init_store config w dsn c0) = mc_syncer c0 ∧
    mc_stopClosed (maria_init_store config w dsn c0) = mc_stopClosed c0) by (intros c0 dsn; unfold maria_init_store; by destruct (bi_initDatabase w dsn)).
  edestruct Hi as (Hp0 & Hy0 & Hc0).
  split; [apply (eq_trans Hp3); rewrite Hp, Hp0; f_equal; apply first_of_None|].
  split; [|split; [apply (eq_trans Hy3); by rewrite Hy, Hy0|split; [done|apply (eq_trans Hc3); by rewrite Hc, Hc0]]].
  intros Hb. destruct (Hs Hb) as (o & E & H1 & H2). exists o. split; [done|].
  split; [by apply (eq_trans Ho3)|by apply (eq_trans Ht3)].
Qed.

(** The flushed position of a store. *)
Definition flushed_position c : option Position :=
  mc_store c ≫= λ st, match (LoadPositions st).2 with Ok (f, _) => f | Err _ => None end.

(** Where a MySQL connector begins to read: at the flushed position of its store, else at the
    configured file, else at the position of its offset storage, else at the end of the log.
    The configured file wins over the position a previous run left. *)
Theorem mysql_begins_at now config w registry c c' :
  my_Initialize now config w conn_New = (c, Ok tt) → conn_Start registry None c = (c', Ok tt) →
  mc_position c' = first_of (flushed_position c)
    (first_of (configured_position (my_BinlogFile (my_parseConfig now config)) (my_BinlogPos (my_parseConfig now config))) (loaded_position config w)) ∧
  ∃ y, mc_syncer c' = Some y ∧ (stream_place (mc_position c') ≠ None → syncer_GetPosition y = mc_position c').
Proof.
  intros [(Hp & _ & Hy & Hs & _) _]%my_Initialize_spec. unfold conn_Start. rewrite Hs, bool_decide_eq_false_2 by done.
  rewrite <- Hp. set (c0 := mc_set_state SourceRunning (mc_message c) c).
  set (c1 := match shared_store c0 with Some st => recoverFromStore st c0 | None => mc_set_defs (shared_tables c0) None c0 end).
  assert (Hpos : mc_position c1 = first_of (flushed_position c) (mc_position c)).
  { subst c1 c0. unfold shared_store, flushed_position. cbn [mc_set_state mc_syncer mc_store]. rewrite Hy. cbn [from_option].
    destruct (mc_store c) as [st|]; [|done]. unfold recoverFromStore, recover_from. cbn [mbind option_bind].
    destruct (LoadPositions st) as [st1 [[[f|] cur]|e]]; destruct (LoadSchemaHistory _) as [st2 h]; by destruct (LoadPendingDDLStates st2) as [st3 pd]. }
  intros [= <-]. split; [exact Hpos|]. eexists. split; [reflexivity|]. apply syncer_Start_place.
Qed.

Theorem maria_begins_at config w registry c c' :
  maria_Initialize config w conn_New = (c, Ok tt) → maria_Start registry None c = (c', Ok tt) →
  mc_position c' =
    first_of (configured_position (ma_BinlogFile (maria_parseConfig config)) (ma_BinlogPos (maria_parseConfig config))) (loaded_position config w) ∧
  ∃ y, mc_syncer c' = Some y ∧ (stream_place (mc_position c') ≠ None → syncer_GetPosition y = mc_position c').
Proof.
  intros (Hp & _ & Hy & Hs & _)%maria_Initialize_spec. unfold maria_Start. rewrite Hs, bool_decide_eq_false_2 by done.
  intros [= <-]. split; [exact Hp|]. eexists. split; [reflexivity|]. apply syncer_Start_place.
Qed.
End Begin.

(** ** Restarting *)

(** What a running connector goes through: the syncer receives an event or an error, or the
    position saver ticks. *)
Inductive conn_op := CRead (w : sync_world) (got : result BinlogEvent) | CTick.

Section Resume.
Context {S O : Type} `{!TargetStore S} `{!Storage O} `{!StorageLaws O} `{!StorageAnswers O} `{RX : Regexp}.
Context (process : sync_world → BinlogEvent → ST (BinlogSyncer S) unit) (tick : MySQLConnector S O → MySQLConnector S O).
Implicit Types c : MySQLConnector S O.

(** What a tick does, for a connector with an offset storage. *)
Context (tick_ok : ∀ c o, mc_offsetStorage c = Some o →
  (tick c) = c ∧ (mc_syncer c ≫= syncer_GetPosition) = None ∨
  ∃ p, mc_syncer c ≫= syncer_GetPosition = Some p ∧ mc_position (tick c) = Some p ∧
    mc_offsetStorage (tick c) = Some (storage_Save (mc_taskID c) (Some p) o).1 ∧ mc_taskID (tick c) = mc_taskID c).

Definition run_op c (op : conn_op) : MySQLConnector S O :=
  match op with
  | CRead w got => mc_set_syncer ((λ y, (syncer_round process w got y).1) <$> mc_syncer c) c
  | CTick => tick c
  end.

(** The storage holds the position of the connector. *)
Definition stored (t : string) c : Prop := mc_taskID c = t ∧ ∃ o, mc_offsetStorage c = Some o ∧ storage_answers o ∧ storage_view o !! t = mc_position c.

Lemma save_view t p o :
  storage_answers o → storage_answers (storage_Save t (Some p) o).1 ∧ storage_view (storage_Save t (Some p) o).1 = <[t := p]> (storage_view o).
Proof. intros Ha. destruct (storage_answers_save t p o Ha) as (o' & E & Ha'). rewrite E. split; [done|]. by apply storage_save_ok. Qed.

Lemma load_view t o :
  storage_answers o → storage_answers (storage_Load t o).1 ∧ (storage_Load t o).2 = Ok (storage_view o !! t) ∧
              storage_view (storage_Load t o).1 = storage_view o.
Proof. intros Ha. destruct (storage_answers_load t o Ha) as (o' & p & E & Ha'). rewrite E. cbn [fst snd].
  destruct (storage_load_ok t o o' p E) as [-> Hv]. by split_and!. Qed.

Lemma stored_op t op c : stored t c → stored t (run_op c op).
Proof.
  intros (Ht & o & Ho & Ha & Hv). destruct op as [w got|]; [by split; [|exists o]|]. cbn [run_op].
  destruct (tick_ok c o Ho) as [[-> _]|(p & _ & Hp & Ho' & Ht')]; [by split; [|exists o]|].
  split; [congruence|]. eexists. split; [exact Ho'|]. destruct (save_view (mc_taskID c) p o Ha) as [Ha' ->].
  split; [done|]. by rewrite Ht, lookup_insert_eq, Hp.
Qed.

Lemma stored_ops t ops : ∀ c, stored t c → stored t (foldl run_op c ops).
Proof. induction ops as [|op ops IH]; intros c Hc; [done|]. apply IH. by apply stored_op. Qed.

Lemma reads_position ops : ∀ c, CTick ∉ ops → mc_position (foldl run_op c ops) = mc_position c ∧ mc_state (foldl run_op c ops) = mc_state c.
Proof.
  induction ops as [|op ops IH]; intros c Hn; [done|]. apply not_elem_of_cons in Hn as [Hop Hn]. cbn [foldl].
  destruct (IH (run_op c op) Hn) as [-> ->]. by destruct op.
Qed.

(** Stopping keeps what is stored. *)
Lemma stored_Stop t c c' : stored t c → conn_Stop c = (c', Ok tt) → stored t c' ∧ mc_position c' = mc_position c.
Proof.
  intros (Ht & o & Ho & Ha & Hv). unfold conn_Stop. destruct (negb _); [intros [= <-]; by repeat split; [|exists o]|].
  cbn [mc_set_state mc_stopClosed]. destruct (mc_stopClosed c); [done|]. cbn. rewrite Ho.
  destruct (mc_position c) as [p|] eqn:Ep; intros [= <-]; cbn; rewrite ?Ep; (split; [|done]); (split; [done|]); cbn.
  - eexists. split; [reflexivity|]. destruct (save_view (mc_taskID c) p o Ha) as [Ha' ->].
    split; [done|]. by rewrite Ht, lookup_insert_eq, Ep.
  - exists o. by rewrite Ep.
Qed.

(** A connector that was initialised without a configured file is at the stored position. *)
Definition opened (config : source_Config) (w : binlog_init S O) : result O :=
  bi_storage w (so_OffsetBackend config) (so_OffsetPath config) (so_OffsetFlush config).

Lemma initialised_stored config w pos c o :
  so_OffsetBackend config ≠ "" → opened config w = Ok o → storage_answers o → initialised config w "" pos c → stored (so_Type config) c.
Proof.
  intros Hb Hopen Ha (Hp & Hs & _). destruct (Hs Hb) as (o' & E & Ho & Ht). unfold opened in Hopen. rewrite Hopen in E. injection E as <-.
  destruct (load_view (so_Type config) o Ha) as (Ha' & Hl & Hv). split; [done|]. eexists. split; [exact Ho|]. split; [done|].
  rewrite Hp. unfold configured_position, loaded_position. rewrite (bool_decide_eq_true_2 _ Hb), Hopen. by rewrite Hv, Hl.
Qed.

Lemma initialised_from_storage config w pos c t c0 o o' :
  so_OffsetBackend config ≠ "" → so_Type config = t → stored t c0 → mc_offsetStorage c0 = Some o →
  opened config w = Ok o' → storage_answers o' → storage_view o' !! t = storage_view o !! t →
  initialised config w "" pos c → mc_position c = mc_position c0.
Proof.
  intros Hb <- (_ & o1 & Ho1 & _ & Hv) Ho E Ha Hsame (Hp & _). rewrite Ho in Ho1. injection Ho1 as <-. unfold opened in E.
  rewrite Hp. unfold configured_position, loaded_position. rewrite (bool_decide_eq_true_2 _ Hb), E.
  destruct (load_view (so_Type config) o' Ha) as (_ & -> & _). by rewrite Hsame, Hv.
Qed.

(** The position a connector leaves: that of its syncer at the last tick. *)
Lemma resume_position t c ops1 ops2 y p :
  stored t c → CTick ∉ ops2 → mc_syncer (foldl run_op c ops1) = Some y → syncer_GetPosition y = Some p →
  mc_position (foldl run_op c (ops1 ++ CTick :: ops2)) = Some p.
Proof.
  intros Hc Hn Hy Hp. rewrite foldl_app. cbn [foldl run_op]. destruct (reads_position ops2 (tick (foldl run_op c ops1)) Hn) as [-> _].
  destruct (stored_ops t ops1 c Hc) as (_ & o & Ho & _ & _).
  destruct (tick_ok _ o Ho) as [[_ H]|(p' & H & Hp' & _)]; rewrite Hy in H; cbn in H; congruence.
Qed.
End Resume.

Section Restarts.
Context {S O : Type} `{!TargetStore S} `{!Storage O} `{!StorageLaws O} `{!StorageAnswers O} `{RX : Regexp} `{!GoRange string string} (format_ts : time → string).
Implicit Types c : MySQLConnector S O.

Lemma my_tick_ok c o : mc_offsetStorage c = Some o →
  save_tick c = c ∧ (mc_syncer c ≫= syncer_GetPosition) = None ∨
  ∃ p, mc_syncer c ≫= syncer_GetPosition = Some p ∧ mc_position (save_tick c) = Some p ∧
    mc_offsetStorage (save_tick c) = Some (storage_Save (mc_taskID c) (Some p) o).1 ∧ mc_taskID (save_tick c) = mc_taskID c.
Proof.
  intros Ho. unfold save_tick. destruct (mc_syncer c) as [y|]; [|by left]. cbn.
  destruct (syncer_GetPosition y) as [p|]; [|by left]. right. exists p. cbn. by rewrite Ho.
Qed.

Lemma maria_tick_ok c o : mc_offsetStorage c = Some o →
  maria_save_tick c = c ∧ (mc_syncer c ≫= syncer_GetPosition) = None ∨
  ∃ p, mc_syncer c ≫= syncer_GetPosition = Some p ∧ mc_position (maria_save_tick c) = Some p ∧
    mc_offsetStorage (maria_save_tick c) = Some (storage_Save (mc_taskID c) (Some p) o).1 ∧ mc_taskID (maria_save_tick c) = mc_taskID c.
Proof.
  intros Ho. unfold maria_save_tick. rewrite Ho. destruct (mc_syncer c) as [y|]; [|by left]. cbn.
  destruct (syncer_GetPosition y) as [p|]; [|by left]. right. by exists p.
Qed.

Lemma my_Start_stored t registry c c' : mc_store c = None → mc_syncer c = None → stored t c → conn_Start registry None c = (c', Ok tt) → stored t c'.
Proof.
  intros Hst Hy (Ht & o & Ho & Ha & Hv). unfold conn_Start. case_bool_decide; [done|]. unfold shared_store. cbn [mc_set_state mc_syncer mc_store]. rewrite Hy. cbn [from_option].
  rewrite Hst. intros [= <-]. split; [exact Ht|]. by exists o.
Qed.

Lemma maria_Start_stored t registry c c' : stored t c → maria_Start registry None c = (c', Ok tt) → stored t c'.
Proof. intros (Ht & o & Ho & Ha & Hv). unfold maria_Start. case_bool_decide; [done|]. intros [= <-]. split; [exact Ht|]. by exists o. Qed.


(** A MariaDB connector without a configured file resumes in the same way. *)
Theorem maria_restart_resumes config w w' registry o0 c1 c2 ops1 ops2 y p c3 o o' c4 c5 :
  so_OffsetBackend config ≠ "" → so_string config "binlogFile" = None →
  opened config w = Ok o0 → storage_answers o0 →
  maria_Initialize config w conn_New = (c1, Ok tt) → maria_Start registry None c1 = (c2, Ok tt) →
  let run := run_op (maria_processEvent (maria_sync (maria_parseConfig config)) format_ts) maria_save_tick in
  mc_syncer (foldl run c2 ops1) = Some y → syncer_GetPosition y = Some p → CTick ∉ ops2 →
  c3 = foldl run c2 (ops1 ++ CTick :: ops2) ∨ maria_Stop (foldl run c2 (ops1 ++ CTick :: ops2)) = (c3, Ok tt) →
  mc_offsetStorage c3 = Some o →
  opened config w' = Ok o' → storage_answers o' → storage_view o' !! so_Type config = storage_view o !! so_Type config →
  maria_Initialize config w' conn_New = (c4, Ok tt) → maria_Start registry None c4 = (c5, Ok tt) →
  mc_position c5 = Some p ∧ ∃ y', mc_syncer c5 = Some y' ∧ (pos_BinlogFile p ≠ "" → syncer_GetPosition y' = Some p).
Proof.
  intros Hb Hf Hw0 Ha0 Hi Hs run Hy Hp Hn Hc3 Ho Hw Ha' Hsame Hi' Hs'.
  assert (Hfile : ma_BinlogFile (maria_parseConfig config) = "") by (cbn; by rewrite Hf).
  apply maria_Initialize_spec in Hi. rewrite Hfile in Hi.
  pose proof (maria_Start_stored _ _ _ _ (initialised_stored _ _ _ _ _ Hb Hw0 Ha0 Hi) Hs) as H2.
  pose proof (stored_ops (maria_processEvent (maria_sync (maria_parseConfig config)) format_ts) maria_save_tick maria_tick_ok _ (ops1 ++ CTick :: ops2) _ H2) as H3.
  pose proof (resume_position (maria_processEvent (maria_sync (maria_parseConfig config)) format_ts) maria_save_tick maria_tick_ok _ _ _ _ _ _ H2 Hn Hy Hp) as Hpos.
  assert (H4 : stored (so_Type config) c3 ∧ mc_position c3 = Some p).
  { destruct Hc3 as [->|Hc3]; [by split|]. destruct (stored_Stop _ _ _ H3 Hc3) as [Hs3 ->]. by split. }
  destruct H4 as [H4 H5].
  destruct (maria_begins_at _ _ _ _ _ Hi' Hs') as (Hbeg & y' & Hy' & Hg).
  apply maria_Initialize_spec in Hi'. rewrite Hfile in Hi', Hbeg.
  pose proof (initialised_from_storage _ _ _ _ _ _ _ _ Hb eq_refl H4 Ho Hw Ha' Hsame Hi') as Hpos4. destruct Hi' as (Hp4 & _).
  assert (E : mc_position c5 = Some p) by (rewrite Hbeg; transitivity (mc_position c4); [by rewrite Hp4|by rewrite Hpos4]).
  split; [exact E|]. exists y'. split; [done|]. intros Hne. rewrite Hg; [done|]. rewrite E. cbn. by rewrite bool_decide_eq_true_2.
Qed.
End Restarts.

(** ** Runs *)

Module SetupRuns.
Import MySQLRuns.
Import StoreRuns.
#[local] Existing Instances plain_regexp strings_range.
Notation C := (MySQLConnector MySQLDB MemoryStorage) (only parsing).

Definition config (props : gmap string property) : source_Config :=
  mkSourceConfig "t" (mkConnectionConfig "db" 3306 "u" "p" "" [] "" "" "" 0 []) props [] "memory" "" 0 (Some DefaultSyncScope).
Definition init (o : MemoryStorage) : binlog_init MySQLDB MemoryStorage :=
  mkBinlogInit (λ _, Ok tt) (λ _, Ok tt) (λ _ _ _, Ok o) (λ _, Ok tt) (λ _ _, InitDatabase).

Definition started : C := (conn_Start registry None (my_Initialize 1 (config ∅) (init ∅) conn_New).1).1.
Definition reads (l : list (sync_world * result BinlogEvent)) : list conn_op := (λ x, CRead x.1 x.2) <$> l.
Definition my_run := run_op (S := MySQLDB) (O := MemoryStorage) (processEvent (my_sync (my_parseConfig 1 (config ∅))) no_format) save_tick.
Definition ran : C := foldl my_run started (reads (take 4 log) ++ CTick :: reads (drop 4 log)).
Definition left_storage : MemoryStorage := default ∅ (mc_offsetStorage ran).
Definition again : C := (conn_Start registry None (my_Initialize 9 (config ∅) (init left_storage) conn_New).1).1.

Definition at_tick : option Position := mc_syncer (foldl my_run started (reads (take 4 log))) ≫= syncer_GetPosition.
Lemma at_tick_place : stream_place at_tick = Some ("bin.000001", 320).
Proof. vm_compute. reflexivity. Qed.

Lemma bind_Some_inv {A B} (x : option A) (f : A → option B) b : x ≫= f = Some b → ∃ a, x = Some a ∧ f a = Some b.
Proof. destruct x; [eauto|done]. Qed.

(** The same with positions in a file. *)
#[local] Instance offsets_json : JSONCodec (option (gmap string Position)) := countable_codec _.
Notation F := (MySQLConnector MySQLDB FileStorage) (only parsing).
Definition no_storage : FileStorage := mkFileStorage "offsets.json" (Some ∅) ∅ false.
Definition file_init (opens : result FileStorage) : binlog_init MySQLDB FileStorage :=
  mkBinlogInit (λ _, Ok tt) (λ _, Ok tt) (λ _ _ _, opens) (λ _, Ok tt) (λ _ _, InitDatabase).
Definition on_disk (disk : gmap string (list Byte.byte)) : binlog_init MySQLDB FileStorage :=
  file_init (NewFileStorage "offsets.json" (Ok tt) disk).

Definition set_up (now : Z) (w : binlog_init MySQLDB FileStorage) : F := (my_Initialize now (config ∅) w conn_New).1.
Definition start_on (now : Z) (w : binlog_init MySQLDB FileStorage) : F := (conn_Start registry None (set_up now w)).1.
Definition file_run := run_op (S := MySQLDB) (O := FileStorage) (processEvent (my_sync (my_parseConfig 1 (config ∅))) no_format) save_tick.
Definition file_ran : F := foldl file_run (start_on 1 (on_disk ∅)) (reads (take 4 log) ++ CTick :: reads (drop 4 log)).
Definition file_left : FileStorage := default no_storage (mc_offsetStorage file_ran).

(** What is on the disk when the flusher ran after the tick. *)
Definition flushed_disk : gmap string (list Byte.byte) := fs_disk (flush FlushDone file_left).1.
Definition file_at_tick : option Position :=
  mc_syncer (foldl file_run (start_on 1 (on_disk ∅)) (reads (take 4 log))) ≫= syncer_GetPosition.
Lemma file_at_tick_place : stream_place file_at_tick = Some ("bin.000001", 320).
Proof. vm_compute. reflexivity. Qed.

Definition reopened (disk : gmap string (list Byte.byte)) : FileStorage :=
  mkFileStorage "offsets.json" (fs_offset file_left) disk false.

Lemma reopen_flushed s path :
  fs_path s = path → path ≠ "" →
  NewFileStorage path (Ok tt) (fs_disk (flush FlushDone s).1) =
    Ok (mkFileStorage path (fs_offset s) (fs_disk (flush FlushDone s).1) false).
Proof.
  intros Hp Hne. unfold NewFileStorage. rewrite bool_decide_eq_false_2 by done. do 2 f_equal.
  assert (Hj : ∃ data, json_Marshal (fs_offset s) = Ok data ∧ json_Unmarshal data = Ok (fs_offset s))
    by exact (json_roundtrip (JSONLaws := countable_codec_laws (option (gmap string Position))) (fs_offset s) I).
  destruct Hj as (data & Hm & Hu).
  unfold flush, read_disk. rewrite Hm. cbn [with_disk fst fs_disk]. rewrite Hp, lookup_insert_eq. unfold load_file.
  destruct data as [|x data]; [|by rewrite Hu]. injection Hm as Hm. by destruct (OffsetRuns.pos_bytes_nonempty _ Hm).
Qed.


(** A crash before the flusher ran: the position of the tick is not on the disk, and the
    next start has none. *)
Example unflushed_tick_is_lost :
  stream_place (mc_position file_ran) = Some ("bin.000001", 320) ∧ mc_position (start_on 9 (on_disk (fs_disk file_left))) = None.
Proof. vm_compute. by split. Qed.

(** A configured file: every start begins there, whatever a previous run left. *)
Definition from_file : source_Config := config {["binlogFile" := PValue (VString "bin.000001")]}.
Example configured_file_wins :
  stream_place (mc_position (maria_Start registry None (maria_Initialize from_file (init left_storage) conn_New).1).1) = Some ("bin.000001", 0) ∧
  stream_place (mc_position (maria_Start registry None (maria_Initialize (config ∅) (init left_storage) conn_New).1).1) = Some ("bin.000001", 320).
Proof. vm_compute. by split. Qed.

(** Only the databases of the filters are read. *)
Example filter_tables_ignored :
  my_sync (my_parseConfig 1 (mkSourceConfig "t" (mkConnectionConfig "db" 3306 "u" "p" "" [] "" "" "" 0 []) ∅
    [mkTableFilter "shop" "" ["users"]] "" "" 0 None)) = mkSyncConfig ["shop"] ∅.
Proof. reflexivity. Qed.
End SetupRuns.
