(* ===== verification/SQLSinkSetup.v ===== *)
(** Setting up the relational sinks: config.go, [parseConfig], the data source names and
    [Initialize] of internal/sink/mysql, postgres, oracle and sqlserver, the operations of
    their connectors, and the COPY writer of PostgreSQL (postgres/copy_writer.go).

    Opening and pinging a database are parameters ([sink_open]).  Sizes of connection pools
    and the closing of connections are left out. *)
From Stdlib Require Import ZArith Lia.
From Stdlib Require String.
From stdpp Require Import prelude countable gmap strings list fin_maps pretty.
From S2P Require Import Prelude Events Strings Chunks SQLSink DocumentSinks MongoSink.
Local Open Scope Z_scope.

(** ** config.go *)

Record MySinkConfig := mkMySinkConfig {
  ms_Host : string; ms_Port : Z; ms_User : string; ms_Password : string; ms_Database : string;
  ms_SSLMode : string; ms_SSLCert : string; ms_SSLKey : string; ms_SSLCACert : string;
  ms_MaxConnections : Z; ms_MaxIdle : Z; ms_ConnectTimeout : Z;
  ms_BatchSize : Z; ms_InsertStrategy : string; ms_MaxRetries : Z; ms_RetryBackoff : Z;
  ms_UseTransaction : bool; ms_IsolationLevel : string;
  ms_AutoCreateTable : bool; ms_AutoAlterTable : bool; ms_DDLPolicy : string;
  ms_Batch : BatchConfig
}.
Definition default_batch : BatchConfig := mkBatchConfig 100 1000 3 0.
Definition mysink_DefaultConfig : MySinkConfig :=
  mkMySinkConfig "" 3306 "" "" "" "" "" "" "" 10 5 30 100 "upsert" 3 100 true "READ COMMITTED" true false "apply" default_batch.

Record PgSinkConfig := mkPgSinkConfig {
  pk_Host : string; pk_Port : Z; pk_User : string; pk_Password : string; pk_Database : string;
  pk_SSLMode : string; pk_SSLCert : string; pk_SSLKey : string; pk_SSLRootCert : string;
  pk_MaxConnections : Z; pk_MaxIdle : Z; pk_ConnectTimeout : Z;
  pk_BatchSize : Z; pk_InsertStrategy : string; pk_MaxRetries : Z; pk_RetryBackoff : Z;
  pk_UseTransaction : bool; pk_UseCopy : bool; pk_CopyBatchSize : Z;
  pk_AutoCreateTable : bool; pk_DDLPolicy : string; pk_DefaultSchema : string;
  pk_Batch : BatchConfig
}.
Definition pgsink_DefaultConfig : PgSinkConfig :=
  mkPgSinkConfig "" 5432 "" "" "" "" "" "" "" 10 5 30 100 "upsert" 3 100 true true 1000 false "apply" "public" default_batch.

Record OraSinkConfig := mkOraSinkConfig {
  os_Host : string; os_Port : Z; os_User : string; os_Password : string; os_ServiceName : string;
  os_SSLMode : string; os_SSLCert : string; os_SSLKey : string; os_SSLRootCert : string;
  os_MaxConnections : Z; os_MaxIdle : Z; os_ConnectTimeout : Z;
  os_BatchSize : Z; os_MaxRetries : Z;
  os_UseTransaction : bool; os_DDLPolicy : string; os_DefaultSchema : string;
  os_Batch : BatchConfig
}.
Definition orasink_DefaultConfig : OraSinkConfig :=
  mkOraSinkConfig "" 1521 "" "" "" "" "" "" "" 10 5 30 1000 3 true "apply" "" default_batch.

Record MSSinkConfig := mkMSSinkConfig {
  mn_Host : string; mn_Port : Z; mn_User : string; mn_Password : string; mn_Database : string;
  mn_Schema : string; mn_SSLMode : string;
  mn_MaxConnections : Z; mn_ConnectTimeout : Z;
  mn_BatchSize : Z; mn_MaxRetries : Z;
  mn_UseTransaction : bool; mn_DDLPolicy : string;
  mn_Batch : BatchConfig
}.
Definition mssink_DefaultConfig : MSSinkConfig :=
  mkMSSinkConfig "" 1433 "" "" "" "dbo" "" 10 30 1000 3 true "apply" default_batch.

(** The three texts that have to be there: the last is the database or the service. *)
Definition require_all (host user last : string) : result unit :=
  if bool_decide (host = "") then Err ErrInvalidConfig
  else if bool_decide (user = "") then Err ErrInvalidConfig
  else if bool_decide (last = "") then Err ErrInvalidConfig
  else Ok tt.
Definition mysink_Validate (c : MySinkConfig) : result unit := require_all (ms_Host c) (ms_User c) (ms_Database c).
Definition pgsink_Validate (c : PgSinkConfig) : result unit := require_all (pk_Host c) (pk_User c) (pk_Database c).
Definition orasink_Validate (c : OraSinkConfig) : result unit := require_all (os_Host c) (os_User c) (os_ServiceName c).
Definition mssink_Validate (c : MSSinkConfig) : result unit := require_all (mn_Host c) (mn_User c) (mn_Database c).

(** ** parseConfig *)

Definition mysink_parseConfig (config : sink_Config) : MySinkConfig :=
  let d := mysink_DefaultConfig in
  let conn := sf_Connection config in
  mkMySinkConfig (cc_Host conn) (cc_Port conn) (cc_User conn) (cc_Password conn) (cc_Database conn)
    (ms_SSLMode d) (ms_SSLCert d) (ms_SSLKey d) (ms_SSLCACert d)
    (default (ms_MaxConnections d) (prop_int config "maxConnections"))
    (default (ms_MaxIdle d) (prop_int config "maxIdle"))
    (default (ms_ConnectTimeout d) (prop_int config "connectTimeout"))
    (ms_BatchSize d)
    (default (ms_InsertStrategy d) (prop_string config "insertStrategy"))
    (rt_MaxRetries (sf_Retry config)) (rt_InitialWait (sf_Retry config))
    (default (ms_UseTransaction d) (prop_bool config "useTransaction")) (ms_IsolationLevel d)
    (default (ms_AutoCreateTable d) (prop_bool config "autoCreateTable")) (ms_AutoAlterTable d)
    (default (ms_DDLPolicy d) (prop_string config "ddlPolicy"))
    (sf_Batch config).

Definition pgsink_parseConfig (config : sink_Config) : PgSinkConfig :=
  let d := pgsink_DefaultConfig in
  let conn := sf_Connection config in
  mkPgSinkConfig (cc_Host conn) (cc_Port conn) (cc_User conn) (cc_Password conn) (cc_Database conn)
    (default (pk_SSLMode d) (prop_string config "sslMode")) (pk_SSLCert d) (pk_SSLKey d) (pk_SSLRootCert d)
    (default (pk_MaxConnections d) (prop_int config "maxConnections"))
    (default (pk_MaxIdle d) (prop_int config "maxIdle"))
    (default (pk_ConnectTimeout d) (prop_int config "connectTimeout"))
    (pk_BatchSize d)
    (default (pk_InsertStrategy d) (prop_string config "insertStrategy"))
    (rt_MaxRetries (sf_Retry config)) (rt_InitialWait (sf_Retry config))
    (default (pk_UseTransaction d) (prop_bool config "useTransaction"))
    (default (pk_UseCopy d) (prop_bool config "useCopy"))
    (default (pk_CopyBatchSize d) (prop_int config "copyBatchSize"))
    (default (pk_AutoCreateTable d) (prop_bool config "autoCreateTable"))
    (default (pk_DDLPolicy d) (prop_string config "ddlPolicy"))
    (default (pk_DefaultSchema d) (prop_string config "defaultSchema"))
    (sf_Batch config).

Definition orasink_parseConfig (config : sink_Config) : OraSinkConfig :=
  let d := orasink_DefaultConfig in
  let conn := sf_Connection config in
  mkOraSinkConfig (cc_Host conn) (cc_Port conn) (cc_User conn) (cc_Password conn)
    (default (os_ServiceName d) (prop_string config "serviceName"))
    (default (os_SSLMode d) (prop_string config "sslMode")) (os_SSLCert d) (os_SSLKey d) (os_SSLRootCert d)
    (default (os_MaxConnections d) (prop_int config "maxConnections"))
    (default (os_MaxIdle d) (prop_int config "maxIdle"))
    (default (os_ConnectTimeout d) (prop_int config "connectTimeout"))
    (default (os_BatchSize d) (prop_int config "batchSize"))
    (rt_MaxRetries (sf_Retry config))
    (default (os_UseTransaction d) (prop_bool config "useTransaction"))
    (default (os_DDLPolicy d) (prop_string config "ddlPolicy"))
    (default (os_DefaultSchema d) (prop_string config "defaultSchema"))
    (sf_Batch config).

Definition mssink_parseConfig (config : sink_Config) : MSSinkConfig :=
  let d := mssink_DefaultConfig in
  let conn := sf_Connection config in
  mkMSSinkConfig (cc_Host conn) (cc_Port conn) (cc_User conn) (cc_Password conn) (cc_Database conn)
    (default (mn_Schema d) (prop_string config "schema"))
    (default (mn_SSLMode d) (prop_string config "sslMode"))
    (default (mn_MaxConnections d) (prop_int config "maxConnections"))
    (default (mn_ConnectTimeout d) (prop_int config "connectTimeout"))
    (default (mn_BatchSize d) (prop_int config "batchSize"))
    (rt_MaxRetries (sf_Retry config))
    (default (mn_UseTransaction d) (prop_bool config "useTransaction"))
    (default (mn_DDLPolicy d) (prop_string config "ddlPolicy"))
    (sf_Batch config).

(** ** Data source names *)

Definition mysink_dsn (c : MySinkConfig) : string :=
  ms_User c +:+ ":" +:+ ms_Password c +:+ "@tcp(" +:+ JoinHostPort (ms_Host c) (pretty (ms_Port c)) +:+ ")/" +:+ ms_Database c +:+
  "?parseTime=true&timeout=" +:+ pretty (ms_ConnectTimeout c) +:+ "s" +:+
  (if bool_decide (ms_SSLMode c ≠ "") then "&tls=" +:+ ms_SSLMode c else "").

(** The certificates are appended the way of a URL to a list of keys and values. *)
Definition pgsink_dsn (c : PgSinkConfig) : string :=
  "host=" +:+ pk_Host c +:+ " port=" +:+ pretty (pk_Port c) +:+ " user=" +:+ pk_User c +:+ " password=" +:+ pk_Password c +:+
  " dbname=" +:+ pk_Database c +:+ " sslmode=" +:+ pk_SSLMode c +:+ " connect_timeout=" +:+ pretty (pk_ConnectTimeout c) +:+
  (if bool_decide (pk_SSLCert c ≠ "") then "&sslcert=" +:+ pk_SSLCert c else "") +:+
  (if bool_decide (pk_SSLKey c ≠ "") then "&sslkey=" +:+ pk_SSLKey c else "") +:+
  (if bool_decide (pk_SSLRootCert c ≠ "") then "&sslrootcert=" +:+ pk_SSLRootCert c else "").

Definition orasink_dsn (c : OraSinkConfig) : string :=
  "oracle://" +:+ os_User c +:+ ":" +:+ os_Password c +:+ "@" +:+ JoinHostPort (os_Host c) (pretty (os_Port c)) +:+ "/" +:+ os_ServiceName c.

Definition mssink_dsn (c : MSSinkConfig) : string :=
  "sqlserver://" +:+ mn_User c +:+ ":" +:+ mn_Password c +:+ "@" +:+ JoinHostPort (mn_Host c) (pretty (mn_Port c)) +:+ "?database=" +:+ mn_Database c.

(** ** The connectors *)

(** What the statements read of the configurations. *)
Definition mysink_settings (c : MySinkConfig) : SinkConfig := mkSinkConfig (ms_InsertStrategy c) (ms_UseTransaction c) (ms_DDLPolicy c) "" false.
Definition pgsink_settings (c : PgSinkConfig) : SinkConfig :=
  mkSinkConfig (pk_InsertStrategy c) (pk_UseTransaction c) (pk_DDLPolicy c) (pk_DefaultSchema c) (pk_UseCopy c).
Definition orasink_settings (c : OraSinkConfig) : SinkConfig := mkSinkConfig "" (os_UseTransaction c) (os_DDLPolicy c) (os_DefaultSchema c) false.
Definition mssink_settings (c : MSSinkConfig) : SinkConfig := mkSinkConfig "" (mn_UseTransaction c) (mn_DDLPolicy c) (mn_Schema c) false.

(** A connector with its configuration and its database, once it has them. *)
Record sink_conn (Cfg D : Type) := mkSinkConn { sn_config : option Cfg; sn_db : option D; sn_conn : SQLConnector }.
Arguments mkSinkConn {_ _} _ _ _.
Arguments sn_config {_ _} _.
Arguments sn_db {_ _} _.
Arguments sn_conn {_ _} _.

Record sink_open (D : Type) := mkSinkOpen { so_open : string → result D; so_ping : string → result unit }.
Arguments mkSinkOpen {_} _ _.
Arguments so_open {_} _ _.
Arguments so_ping {_} _ _.

Section Setup.
Context {D : Type} `{!SQLConn D} `{!GoRange string Field}.

(** [New]: Oracle and SQL Server begin with a default configuration. *)
Definition new_conn {Cfg} (cfg : option Cfg) : sink_conn Cfg D := mkSinkConn cfg None (mkSQLConnector StateUninitialized 0 0 None None).
Definition mysink_New : sink_conn MySinkConfig D := new_conn None.
Definition pgsink_New : sink_conn PgSinkConfig D := new_conn None.
Definition orasink_New : sink_conn OraSinkConfig D := new_conn (Some orasink_DefaultConfig).
Definition mssink_New : sink_conn MSSinkConfig D := new_conn (Some mssink_DefaultConfig).

(** [Initialize], the same text but for the configuration and the name of the database. *)
Definition sink_Initialize {Cfg} (parse : sink_Config → Cfg) (validate : Cfg → result unit) (dsn : Cfg → string) (config : sink_Config)
    (w : sink_open D) : ST (sink_conn Cfg D) unit := λ c,
  let cfg := parse config in
  match validate cfg with
  | Err e => (c, Err e)
  | Ok _ =>
      let c := mkSinkConn (Some cfg) (sn_db c) (sn_conn c) in
      match so_open w (dsn cfg) with
      | Err e => (c, Err (ErrWrapf "failed to open database" e))
      | Ok d =>
          match so_ping w (dsn cfg) with
          | Err e => (c, Err (ErrWrapf "failed to connect to database" e))
          | Ok _ => (mkSinkConn (sn_config c) (Some d) (with_state StateReady (sn_conn c)), Ok tt)
          end
      end
  end.
Definition mysink_Initialize := sink_Initialize mysink_parseConfig mysink_Validate mysink_dsn.
Definition pgsink_Initialize := sink_Initialize pgsink_parseConfig pgsink_Validate pgsink_dsn.
Definition orasink_Initialize := sink_Initialize orasink_parseConfig orasink_Validate orasink_dsn.
Definition mssink_Initialize := sink_Initialize mssink_parseConfig mssink_Validate mssink_dsn.

(** [Start]: without a database it fails; a connector that writes is left alone. *)
Definition sink_Start {Cfg} : ST (sink_conn Cfg D) unit := λ c,
  if bool_decide (sc_State (sn_conn c) = StateWriting) then (c, Ok tt)
  else
    match sn_db c with
    | None => (c, Err ErrNotInitialized)
    | Some _ => (mkSinkConn (sn_config c) (sn_db c) (with_state StateReady (sn_conn c)), Ok tt)
    end.
Definition pgsink_Start : ST (sink_conn PgSinkConfig D) unit := sink_Start.
Definition orasink_Start : ST (sink_conn OraSinkConfig D) unit := sink_Start.
Definition mssink_Start : ST (sink_conn MSSinkConfig D) unit := sink_Start.

(** The operations of an initialised connector, by the dialect. *)
Definition pgsink_Stop : ST (sink (D := D)) unit := SQL_Stop.
Definition orasink_Stop : ST (sink (D := D)) unit := SQL_Stop.
Definition mssink_Stop : ST (sink (D := D)) unit := SQL_Stop.
Definition pgsink_Flush (stack : nat) : ST (sink (D := D)) unit := SQL_Flush (SinkPostgres stack).
Definition orasink_Flush : ST (sink (D := D)) unit := SQL_Flush SinkOracle.
Definition mssink_Flush : ST (sink (D := D)) unit := SQL_Flush SinkSQLServer.
Definition pgsink_ApplyDDL (e : option ChangeEvent) : ST (sink (D := D)) unit := SQLSink.ApplyDDL e.
Definition orasink_ApplyDDL (e : option ChangeEvent) : ST (sink (D := D)) unit := SQLSink.ApplyDDL e.
Definition mssink_ApplyDDL (e : option ChangeEvent) : ST (sink (D := D)) unit := SQLSink.ApplyDDL e.
Definition pgsink_handleDDL (c : PgSinkConfig) (e : ChangeEvent) : ST (sink (D := D)) unit := SQLSink.handleDDL (pgsink_settings c) e.
Definition orasink_handleDDL (c : OraSinkConfig) (e : ChangeEvent) : ST (sink (D := D)) unit := SQLSink.handleDDL (orasink_settings c) e.
Definition mssink_handleDDL (c : MSSinkConfig) (e : ChangeEvent) : ST (sink (D := D)) unit := SQLSink.handleDDL (mssink_settings c) e.
Definition pgsink_writeDataEvent (stack : nat) (c : PgSinkConfig) (e : ChangeEvent) : ST (sink (D := D)) unit :=
  writeDataEvent (SinkPostgres stack) (pgsink_settings c) e.
Definition orasink_writeDataEvent (c : OraSinkConfig) (e : ChangeEvent) : ST (sink (D := D)) unit := writeDataEvent SinkOracle (orasink_settings c) e.
Definition mssink_writeDataEvent (c : MSSinkConfig) (e : ChangeEvent) : ST (sink (D := D)) unit := writeDataEvent SinkSQLServer (mssink_settings c) e.
Definition pgsink_GetPosition (c : SQLConnector) : option Position := SQLSink.GetPosition c.
Definition orasink_GetPosition (c : SQLConnector) : option Position := SQLSink.GetPosition c.
Definition mssink_GetPosition (c : SQLConnector) : option Position := SQLSink.GetPosition c.
Definition mssink_getSchemaTable (c : MSSinkConfig) (schema table : string) : string := getSchemaTable sqlserver_syntax (mssink_settings c) schema table.

(** ** copy_writer.go *)

(** The inserts of a batch by database and table, in order. *)
Definition group_inserts (events : list ChangeEvent) : gmap string (list ChangeEvent) :=
  foldl (λ m e,
    if bool_decide (ev_Type e = EventTypeInsert) then
      let key := ti_Database (ev_Table e) +:+ "." +:+ ti_Table (ev_Table e) in
      <[key := default [] (m !! key) ++ [e]]> m
    else m) ∅ events.

(** The rows are formatted, and then the copy fails. *)
Definition copyTable (conn : result unit) : result unit :=
  match conn with
  | Err e => Err (ErrWrapf "failed to get connection" e)
  | Ok _ => Err (ErrNew "COPY protocol requires pgx driver; falling back to batch insert")
  end.

Definition copy_table_name (schema : string) (e : ChangeEvent) : string :=
  let schema := if bool_decide (ti_Schema (ev_Table e) ≠ "") then ti_Schema (ev_Table e) else schema in
  quote_with dq dq schema +:+ "." +:+ quote_with dq dq (ti_Table (ev_Table e)).

Fixpoint copy_tables (conn : result unit) (schema : string) (groups : list (list ChangeEvent)) : result unit :=
  match groups with
  | [] => Ok tt
  | [] :: groups => copy_tables conn schema groups
  | (first :: _) :: groups =>
      match copyTable conn with
      | Err e => Err (ErrWrapf ("failed to copy table " +:+ copy_table_name schema first) e)
      | Ok _ => copy_tables conn schema groups
      end
  end.

Definition copy_WriteBatch `{!GoRange string (list ChangeEvent)} (conn : result unit) (schema : string) (events : list ChangeEvent) : result unit :=
  match events with
  | [] => Ok tt
  | _ => copy_tables conn schema (go_range (group_inserts events)).*2
  end.
End Setup.

(** ** Properties *)

(** Properties as a decoder of JSON leaves them: a number is a float64, never an int. *)
Definition decoded (config : sink_Config) : Prop := ∀ name z, sf_Properties config !! name ≠ Some (PValue (VInt z)).

Lemma decoded_int config name : decoded config → prop_int config name = None.
Proof.
  intros H. unfold prop_int. specialize (H name). destruct (sf_Properties config !! name) as [[v|l]|] eqn:E; [|done..].
  destruct v; try done. by destruct (H z).
Qed.

(** No number of a decoded configuration is read: pools, time-outs and batches are the
    default's, whatever the properties say, in each of the four sinks. *)
Theorem decoded_numbers_ignored config :
  decoded config →
  (ms_MaxConnections (mysink_parseConfig config), ms_MaxIdle (mysink_parseConfig config), ms_ConnectTimeout (mysink_parseConfig config)) = (10, 5, 30) ∧
  (pk_MaxConnections (pgsink_parseConfig config), pk_MaxIdle (pgsink_parseConfig config), pk_ConnectTimeout (pgsink_parseConfig config)) = (10, 5, 30) ∧
  pk_CopyBatchSize (pgsink_parseConfig config) = 1000 ∧
  (os_MaxConnections (orasink_parseConfig config), os_MaxIdle (orasink_parseConfig config), os_ConnectTimeout (orasink_parseConfig config)) = (10, 5, 30) ∧
  os_BatchSize (orasink_parseConfig config) = 1000 ∧
  (mn_MaxConnections (mssink_parseConfig config), mn_ConnectTimeout (mssink_parseConfig config)) = (10, 30) ∧ mn_BatchSize (mssink_parseConfig config) = 1000.
Proof. intros H. cbn. rewrite !(decoded_int config _ H). done. Qed.

Section Copy.
Context {D : Type} `{!SQLConn D} `{!GoRange string Field} `{GR : !GoRange string (list ChangeEvent)}.

(** With a configuration that does not say otherwise, a PostgreSQL sink that is set up ends
    the program at the first insert of more than ten columns. *)
Theorem pgsink_default_overflows config w (c : sink_conn PgSinkConfig D) stack e (d : D) s :
  pgsink_Initialize config w pgsink_New = (c, Ok tt) → prop_bool config "useCopy" = None →
  ev_Type e = EventTypeInsert → (10 < length (column_names (ev_After e)))%nat →
  ∃ cfg, sn_config c = Some cfg ∧ (pgsink_writeDataEvent stack cfg e (s, d)).2 = Err (Panic "stack overflow").
Proof.
  unfold pgsink_Initialize, sink_Initialize. intros Hi Hu Ht Hl.
  exists (pgsink_parseConfig config). split.
  - destruct (pgsink_Validate _); [|done]. destruct (so_open _ _); [|done]. destruct (so_ping _ _); by simplify_eq.
  - unfold pgsink_writeDataEvent, writeDataEvent, build. rewrite Ht. unfold insert_call.
    rewrite pg_copy_recursion; [done| |exact Hl]. cbn. by rewrite Hu.
Qed.

(** The group of an insert. *)
Lemma group_inserts_spec events e :
  e ∈ events → ev_Type e = EventTypeInsert → ∃ key es, group_inserts events !! key = Some es ∧ e ∈ es.
Proof.
  unfold group_inserts. intros He Ht. induction events as [|x events IH] using rev_ind; [by apply not_elem_of_nil in He|].
  rewrite foldl_app. cbn [foldl]. set (m := foldl _ ∅ events) in *. apply elem_of_app in He as [He|He%list_elem_of_singleton].
  - destruct (IH He) as (key & es & Hm & Hin). case_bool_decide; [|eauto].
    set (k := ti_Database (ev_Table x) +:+ "." +:+ ti_Table (ev_Table x)). destruct (decide (k = key)) as [<-|Hne].
    + exists k. eexists. rewrite lookup_insert_eq. split; [done|]. rewrite Hm. cbn. apply elem_of_app. by left.
    + exists key, es. by rewrite lookup_insert_ne.
  - subst x. rewrite bool_decide_eq_true_2 by done. eexists _, _. rewrite lookup_insert_eq. split; [done|]. apply elem_of_app. right. by apply list_elem_of_singleton.
Qed.

Lemma group_inserts_none events : Forall (λ e, ev_Type e ≠ EventTypeInsert) events → group_inserts events = ∅.
Proof.
  unfold group_inserts. induction events as [|x events IH] using rev_ind; intros H; [done|]. apply Forall_app in H as [H Hx].
  rewrite foldl_app. cbn [foldl]. rewrite (IH H). apply Forall_cons in Hx as [Hx _]. by rewrite bool_decide_eq_false_2.
Qed.

Lemma copy_tables_fails conn schema groups e es : es ∈ groups → e ∈ es → ∃ err, copy_tables conn schema groups = Err err.
Proof.
  intros Hes He. induction groups as [|[|x xs] groups IH]; [by apply not_elem_of_nil in Hes|..]; cbn.
  - apply elem_of_cons in Hes as [->|Hes]; [by apply not_elem_of_nil in He|by apply IH].
  - destruct conn; cbn; eauto.
Qed.

(** The COPY writer never writes: it succeeds on batches without an insert, which it passes
    over, and fails on every other. *)
Theorem copy_writer_fails conn schema events :
  copy_WriteBatch conn schema events = Ok tt ↔ Forall (λ e, ev_Type e ≠ EventTypeInsert) events.
Proof.
  split.
  - intros H. apply Forall_forall. intros e He Ht. destruct events as [|x events]; [by apply not_elem_of_nil in He|].
    destruct (group_inserts_spec _ _ He Ht) as (key & es & Hm & Hin). unfold copy_WriteBatch in H.
    destruct (copy_tables_fails conn schema (go_range (group_inserts (x :: events))).*2 e es) as [err Herr]; [|done|by rewrite Herr in H].
    apply list_elem_of_fmap. exists (key, es). split; [done|]. rewrite go_range_perm. by apply elem_of_map_to_list.
  - intros H. destruct events as [|x events]; [done|]. unfold copy_WriteBatch. rewrite (group_inserts_none _ H).
    pose proof (go_range_perm (∅ : gmap string (list ChangeEvent))) as Hp. rewrite map_to_list_empty in Hp. by apply Permutation_nil_r in Hp as ->.
Qed.
End Copy.

(** ** Examples *)

Module SinkSetupRuns.
(** The certificates run into the time-out. *)
Example certificate_in_timeout :
  pgsink_dsn (mkPgSinkConfig "db" 5432 "u" "p" "shop" "require" "c.pem" "" "" 10 5 30 100 "upsert" 3 100 true true 1000 false "apply" "public" default_batch) =
  "host=db port=5432 user=u password=p dbname=shop sslmode=require connect_timeout=30&sslcert=c.pem".
Proof. vm_compute. reflexivity. Qed.
End SinkSetupRuns.
