(* ===== verification/Config.v ===== *)
(** The configuration of the application (pkg/config/config.go), and the coordinator that
    internal/app/app.go chooses by it.

    Reading and decoding the file is a parameter: a configuration begins as the decoder of
    TOML leaves it.  The environment is a list of texts. *)
From Stdlib Require Import ZArith Lia Ascii.
From Stdlib Require String.
From stdpp Require Import prelude countable gmap strings list fin_maps pretty.
From S2P Require Import Prelude Events Strings Filters.
Local Open Scope Z_scope.

Record LogConfig := mkLogConfig { lg_Level : string; lg_File : string; lg_MaxSize : Z; lg_MaxDays : Z; lg_MaxBackups : Z }.
Record CacheConfig := mkCacheConfig { ca_MaxSize : string; ca_Sync : string }.
Record MetricsConfig := mkMetricsConfig { mt_Enabled : bool; mt_ScrapeInterval : duration; mt_StatsTimeout : duration }.
Record ServerConfig := mkServerConfig {
  sr_Addr : string; sr_APIAddr : string; sr_HTTPAddr : string; sr_AdvertiseAddr : string; sr_DataDir : string;
  sr_GCTTL : Z; sr_ReadTimeout : Z; sr_WriteTimeout : Z; sr_IdleTimeout : Z
}.
Record EtcdSettings := mkEtcdSettings {
  et_Endpoints : list string; et_DialTimeout : Z; et_Username : string; et_Password : string; et_TLSCA : string; et_TLSCert : string; et_TLSKey : string
}.
Record CoordinatorSettings := mkCoordinatorSettings {
  co_Type : string; co_Backend : string; co_Endpoints : list string; co_SessionTTL : Z; co_ElectionTimeout : Z; co_Etcd : EtcdSettings
}.
Record SecurityConfig := mkSecurityConfig { se_SSLCa : string; se_SSLCert : string; se_SSLKey : string; se_Insecure : bool }.

Record AppConfig := mkAppConfig {
  cf_Name : string; cf_Cluster : string; cf_Server : ServerConfig; cf_Log : LogConfig; cf_Coordinator : CoordinatorSettings;
  cf_Security : SecurityConfig; cf_Cache : CacheConfig; cf_Metrics : MetricsConfig
}.

(** ** Adjust *)

Definition or_text (s d : string) : string := if bool_decide (s = "") then d else s.
Definition or_number (n d : Z) : Z := if n =? 0 then d else n.

Definition adjust_server (s : ServerConfig) : ServerConfig :=
  mkServerConfig (or_text (sr_Addr s) ":8300") (or_text (sr_APIAddr s) ":8301") (or_text (sr_HTTPAddr s) ":8300") (sr_AdvertiseAddr s)
    (or_text (sr_DataDir s) "./data") (or_number (sr_GCTTL s) 86400) (or_number (sr_ReadTimeout s) 30) (or_number (sr_WriteTimeout s) 30)
    (or_number (sr_IdleTimeout s) 120).

Definition adjust_log (l : LogConfig) : LogConfig :=
  let level := or_text (lg_Level l) "info" in
  mkLogConfig (if bool_decide (level = "warning") then "warn" else level) (lg_File l) (or_number (lg_MaxSize l) 512) (or_number (lg_MaxDays l) 7)
    (or_number (lg_MaxBackups l) 3).

(** The endpoints of etcd are the coordinator's where it has none of its own. *)
Definition adjust_coordinator (c : CoordinatorSettings) : CoordinatorSettings :=
  let e := co_Etcd c in
  mkCoordinatorSettings (or_text (co_Type c) "etcd") (or_text (co_Backend c) "etcd") (co_Endpoints c) (or_number (co_SessionTTL c) 10)
    (or_number (co_ElectionTimeout c) 5000)
    (mkEtcdSettings (match et_Endpoints e with [] => co_Endpoints c | es => es end) (or_number (et_DialTimeout e) 5) (et_Username e) (et_Password e)
       (et_TLSCA e) (et_TLSCert e) (et_TLSKey e)).

Definition adjust_cache (c : CacheConfig) : CacheConfig := mkCacheConfig (or_text (ca_MaxSize c) "80%") (or_text (ca_Sync c) "batch").

(** Metrics with the default times are enabled. *)
Definition adjust_metrics (m : MetricsConfig) : MetricsConfig :=
  let interval := or_number (mt_ScrapeInterval m) 5000000000 in
  let timeout := or_number (mt_StatsTimeout m) 1000000000 in
  mkMetricsConfig (if negb (mt_Enabled m) && (interval =? 5000000000) && (timeout =? 1000000000) then true else mt_Enabled m) interval timeout.

Definition Adjust (c : AppConfig) : AppConfig :=
  mkAppConfig (cf_Name c) (or_text (cf_Cluster c) "default") (adjust_server (cf_Server c)) (adjust_log (cf_Log c))
    (adjust_coordinator (cf_Coordinator c)) (cf_Security c) (adjust_cache (cf_Cache c)) (adjust_metrics (cf_Metrics c)).

(** ** Validate *)

Definition config_Validate (c : AppConfig) : result unit :=
  if bool_decide (sr_Addr (cf_Server c) = "") then Err (ErrNew "server addr is required")
  else if bool_decide (sr_DataDir (cf_Server c) = "") then Err (ErrNew "data-dir is required")
  else if bool_decide (co_Backend (cf_Coordinator c) ≠ "memory") && bool_decide (co_Endpoints (cf_Coordinator c) = [])
  then Err (ErrNew "coordinator endpoints is required when backend is not memory")
  else Ok tt.

(** ** Loading *)

(** The file read and decoded, each of which may fail. *)
Definition LoadFromFile (read : result (list Byte.byte)) (unmarshal : list Byte.byte → result AppConfig) : result AppConfig :=
  match read with
  | Err e => Err (ErrWrapf "failed to read config file" e)
  | Ok data =>
      match unmarshal data with
      | Err e => Err (ErrWrapf "failed to parse config file" e)
      | Ok cfg =>
          let cfg := Adjust cfg in
          match config_Validate cfg with Err e => Err e | Ok _ => Ok cfg end
      end
  end.

Definition env_server (key val : string) (s : ServerConfig) : ServerConfig :=
  if bool_decide (key = "server_addr")
  then mkServerConfig val (sr_APIAddr s) (sr_HTTPAddr s) (sr_AdvertiseAddr s) (sr_DataDir s) (sr_GCTTL s) (sr_ReadTimeout s) (sr_WriteTimeout s) (sr_IdleTimeout s)
  else if bool_decide (key = "server_api_addr")
  then mkServerConfig (sr_Addr s) val (sr_HTTPAddr s) (sr_AdvertiseAddr s) (sr_DataDir s) (sr_GCTTL s) (sr_ReadTimeout s) (sr_WriteTimeout s) (sr_IdleTimeout s)
  else if bool_decide (key = "server_advertise_addr")
  then mkServerConfig (sr_Addr s) (sr_APIAddr s) (sr_HTTPAddr s) val (sr_DataDir s) (sr_GCTTL s) (sr_ReadTimeout s) (sr_WriteTimeout s) (sr_IdleTimeout s)
  else if bool_decide (key = "server_data_dir")
  then mkServerConfig (sr_Addr s) (sr_APIAddr s) (sr_HTTPAddr s) (sr_AdvertiseAddr s) val (sr_GCTTL s) (sr_ReadTimeout s) (sr_WriteTimeout s) (sr_IdleTimeout s)
  else if bool_decide (key = "server_gc_ttl")
  then mkServerConfig (sr_Addr s) (sr_APIAddr s) (sr_HTTPAddr s) (sr_AdvertiseAddr s) (sr_DataDir s) (default (sr_GCTTL s) (Sscanf_d val)) (sr_ReadTimeout s)
         (sr_WriteTimeout s) (sr_IdleTimeout s)
  else s.

Definition env_log (key val : string) (l : LogConfig) : LogConfig :=
  if bool_decide (key = "log_level") then mkLogConfig val (lg_File l) (lg_MaxSize l) (lg_MaxDays l) (lg_MaxBackups l)
  else if bool_decide (key = "log_file") then mkLogConfig (lg_Level l) val (lg_MaxSize l) (lg_MaxDays l) (lg_MaxBackups l)
  else l.

Definition env_coordinator (key val : string) (c : CoordinatorSettings) : CoordinatorSettings :=
  if bool_decide (key = "coordinator_backend")
  then mkCoordinatorSettings (co_Type c) val (co_Endpoints c) (co_SessionTTL c) (co_ElectionTimeout c) (co_Etcd c)
  else if bool_decide (key = "coordinator_endpoints")
  then mkCoordinatorSettings (co_Type c) (co_Backend c) (strings_Split val ",") (co_SessionTTL c) (co_ElectionTimeout c) (co_Etcd c)
  else c.

Definition env_cache (key val : string) (c : CacheConfig) : CacheConfig :=
  if bool_decide (key = "pipeline_cache_max_size") then mkCacheConfig val (ca_Sync c)
  else if bool_decide (key = "pipeline_cache_sync") then mkCacheConfig (ca_MaxSize c) val
  else c.

(** One variable of the environment, by the name after the prefix in lower case. *)
Definition env_set (key val : string) (c : AppConfig) : AppConfig :=
  mkAppConfig (if bool_decide (key = "name") then val else cf_Name c) (cf_Cluster c) (env_server key val (cf_Server c)) (env_log key val (cf_Log c))
    (env_coordinator key val (cf_Coordinator c)) (cf_Security c) (env_cache key val (cf_Cache c)) (cf_Metrics c).

Definition env_prefix : string := "DATASTREAM_".
Definition env_entry (c : AppConfig) (env : string) : AppConfig :=
  if has_prefix env_prefix env then
    match split_first "="%char env with
    | None => c
    | Some (name, val) => env_set (strings_ToLower (if has_prefix env_prefix name then drop_prefix env_prefix name else name)) val c
    end
  else c.

Definition LoadFromEnv (environ : list string) (c : AppConfig) : AppConfig := foldl env_entry c environ.

(** The environment is applied after the checks. *)
Definition config_Load (read : result (list Byte.byte)) (unmarshal : list Byte.byte → result AppConfig) (environ : list string) : result AppConfig :=
  match LoadFromFile read unmarshal with
  | Err e => Err e
  | Ok cfg => Ok (LoadFromEnv environ cfg)
  end.

(** ** The coordinator of the application *)

Inductive coordinator_choice := UseEtcd (endpoints : list string) (dialTimeout ttl : Z) | UseMemory.

Definition choose_coordinator (c : AppConfig) : coordinator_choice :=
  let co := cf_Coordinator c in
  if bool_decide (co_Type co = "etcd") || bool_decide (co_Backend co = "etcd")
  then UseEtcd (et_Endpoints (co_Etcd co)) (i64 (et_DialTimeout (co_Etcd co) * 1000000000)) (co_SessionTTL co)
  else UseMemory.

(** ** Properties *)

Lemma or_text_idem s d : or_text (or_text s d) d = or_text s d.
Proof. unfold or_text. by repeat case_bool_decide. Qed.

Lemma or_number_idem n d : or_number (or_number n d) d = or_number n d.
Proof. unfold or_number. destruct (n =? 0) eqn:E; [by destruct (d =? 0)|by rewrite E]. Qed.

(** Filling in defaults is done once: a configuration that was adjusted stays as it is. *)
Theorem Adjust_idempotent c : Adjust (Adjust c) = Adjust c.
Proof.
  unfold Adjust. cbn. rewrite or_text_idem. f_equal.
  - unfold adjust_server. cbn. by rewrite !or_text_idem, !or_number_idem.
  - unfold adjust_log. cbn. rewrite !or_number_idem. f_equal. unfold or_text. by repeat case_bool_decide.
  - unfold adjust_coordinator. cbn. rewrite !or_text_idem, !or_number_idem. do 2 f_equal. by destruct (et_Endpoints (co_Etcd (cf_Coordinator c))), (co_Endpoints (cf_Coordinator c)).
  - unfold adjust_cache. cbn. by rewrite !or_text_idem.
  - unfold adjust_metrics. cbn. rewrite !or_number_idem. f_equal. by repeat destruct (_ =? _); destruct (mt_Enabled (cf_Metrics c)).
Qed.

(** What a file that is accepted gives: an address, a directory, and endpoints unless the
    backend is the memory; etcd then has endpoints too. *)
Theorem loaded_config_usable read unmarshal c :
  LoadFromFile read unmarshal = Ok c →
  sr_Addr (cf_Server c) ≠ "" ∧ sr_DataDir (cf_Server c) ≠ "" ∧
  (co_Backend (cf_Coordinator c) ≠ "memory" → co_Endpoints (cf_Coordinator c) ≠ [] ∧ et_Endpoints (co_Etcd (cf_Coordinator c)) ≠ []).
Proof.
  unfold LoadFromFile. destruct read as [data|]; [|done]. destruct (unmarshal data) as [cfg|]; [|done].
  unfold config_Validate. case_bool_decide; [done|]. case_bool_decide; [done|]. destruct (bool_decide _ && bool_decide _) eqn:E; [done|]. intros [= <-].
  split; [done|]. split; [done|]. intros Hb. rewrite bool_decide_eq_true_2 in E by done. cbn in E. apply bool_decide_eq_false in E. split; [done|].
  cbn. by destruct (et_Endpoints (co_Etcd (cf_Coordinator cfg))).
Qed.

(** The memory coordinator is only used when the file says so twice: its type and its
    backend have to be there, and neither may be etcd. *)
Theorem memory_needs_both read unmarshal c cfg data :
  read = Ok data → unmarshal data = Ok cfg → LoadFromFile read unmarshal = Ok c →
  (choose_coordinator c = UseMemory ↔
   co_Type (cf_Coordinator cfg) ∉ ["etcd"; ""] ∧ co_Backend (cf_Coordinator cfg) ∉ ["etcd"; ""]).
Proof.
  intros -> Hu. unfold LoadFromFile. rewrite Hu. destruct (config_Validate _); [|done]. intros [= <-].
  assert (Ht : ∀ s, or_text s "etcd" = "etcd" ↔ s ∈ ["etcd"; ""]).
  { intros s. unfold or_text. rewrite !elem_of_cons, elem_of_nil. case_bool_decide; subst; [tauto|]. split; [tauto|]. intros [|[|[]]]; done. }
  unfold choose_coordinator. cbn. rewrite <- !Ht. repeat case_bool_decide; cbn; split; try done; intros []; done.
Qed.

(** A variable of the environment sets what its name says. *)
Theorem env_entry_named c key val :
  has_char "=" key = false → env_entry c (env_prefix +:+ key +:+ String "=" val) = env_set (strings_ToLower key) val c.
Proof.
  intros Hk. unfold env_entry. rewrite has_prefix_app, <- string_app_assoc. rewrite split_first_app.
  - by rewrite has_prefix_app, drop_prefix_app.
  - rewrite has_char_app, Hk. reflexivity.
Qed.

(** ** Runs *)

Module ConfigRuns.
Definition coordinator (type backend : string) : CoordinatorSettings :=
  mkCoordinatorSettings type backend [] 0 0 (mkEtcdSettings [] 0 "" "" "" "" "").
Definition file (co : CoordinatorSettings) (m : MetricsConfig) : AppConfig :=
  mkAppConfig "" "" (mkServerConfig "" "" "" "" "" 0 0 0 0) (mkLogConfig "" "" 0 0 0) co (mkSecurityConfig "" "" "" false) (mkCacheConfig "" "") m.
Definition no_metrics : MetricsConfig := mkMetricsConfig false 0 0.
Definition load (c : AppConfig) (env : list string) : result AppConfig := config_Load (Ok []) (λ _, Ok c) env.

(** A file that says nothing is not accepted. *)
Example empty_file_rejected : load (file (coordinator "" "") no_metrics) [] = Err (ErrNew "coordinator endpoints is required when backend is not memory").
Proof. vm_compute. reflexivity. Qed.

(** The backend alone is accepted, and the application then asks etcd, without endpoints. *)
Example backend_memory_uses_etcd : (c ← load (file (coordinator "" "memory") no_metrics) []; Ok (choose_coordinator c)) = Ok (UseEtcd [] 5000000000 10).
Proof. vm_compute. reflexivity. Qed.

(** Metrics that are turned off are on. *)
Example metrics_stay_enabled : (c ← load (file (coordinator "memory" "memory") no_metrics) []; Ok (mt_Enabled (cf_Metrics c))) = Ok true.
Proof. vm_compute. reflexivity. Qed.

(** The environment is not checked, and its endpoints do not reach etcd. *)
Example environment_unchecked :
  (c ← load (file (coordinator "memory" "memory") no_metrics) ["DATASTREAM_COORDINATOR_BACKEND=etcd"; "DATASTREAM_COORDINATOR_ENDPOINTS=a:1,b:2"; "DATASTREAM_SERVER_DATA_DIR="];
   Ok (choose_coordinator c, sr_DataDir (cf_Server c))) =
  Ok (UseEtcd [] 5000000000 10, "").
Proof. vm_compute. reflexivity. Qed.
End ConfigRuns.
