(* ===== verification/CacheSize.v ===== *)
(** The size of the binlog cache (internal/cache/cache_size.go): how it is written, and the
    level of its use.

    Floats are those of IEEE 754 in double precision, with the rounding of the code.
    [strconv.ParseFloat] and the size of the disk are parameters. *)
From Stdlib Require Import ZArith Lia Ascii SpecFloat.
From Stdlib Require String.
From stdpp Require Import prelude countable gmap strings list fin_maps pretty.
From S2P Require Import Prelude Events Strings SchemaHistory DDLApply.
Local Open Scope Z_scope.

Inductive CacheLevel := CacheLevelNormal | CacheLevelWarning | CacheLevelPauseScheduling | CacheLevelFull.

#[export] Instance CacheLevel_eq_dec : EqDecision CacheLevel.
Proof. solve_decision. Defined.

Definition CacheLevel_String (l : CacheLevel) : string :=
  match l with
  | CacheLevelNormal => "Normal"
  | CacheLevelWarning => "Warning"
  | CacheLevelPauseScheduling => "PauseScheduling"
  | CacheLevelFull => "Full"
  end.

(** [strings.HasSuffix] *)
Definition strings_HasSuffix (s suffix : string) : bool := has_prefix (string_rev suffix) (string_rev s).

(** The comparisons of floats: false where one is not a number. *)
Definition float64_le (x y : spec_float) : bool := SFleb x y.
Definition float64_lt (x y : spec_float) : bool := SFltb x y.

(** The constants 0.9 and 0.8, rounded. *)
Definition float_0_9 : spec_float := S754_finite false 8106479329266893 (-53).
Definition float_0_8 : spec_float := S754_finite false 7205759403792794 (-53).

Definition CheckCacheLevel (currentSize maxSize : Z) : CacheLevel :=
  if maxSize <=? 0 then CacheLevelFull
  else
    let ratio := float64_div (float64_of_int currentSize) (float64_of_int maxSize) in
    if float64_le (float64_of_int 1) ratio then CacheLevelFull
    else if float64_le float_0_9 ratio then CacheLevelPauseScheduling
    else if float64_le float_0_8 ratio then CacheLevelWarning
    else CacheLevelNormal.

Section Parse.
Context (ParseFloat : string → result spec_float) (show : spec_float → string) (diskTotal : string → result Z).

Definition units : list (string * Z) := [("TB", 1024 ^ 4); ("GB", 1024 ^ 3); ("MB", 1024 ^ 2); ("KB", 1024)].

Definition parseCacheSizeFixed (value : string) : result Z :=
  let upper := strings_ToUpper value in
  match List.find (λ u, strings_HasSuffix upper u.1) units with
  | None => Err (ErrNew ("invalid cache size " +:+ value +:+ ": must end with TB, GB, MB, or KB"))
  | Some (suffix, multiplier) =>
      match ParseFloat (strings_TrimSuffix upper suffix) with
      | Err e => Err (ErrWrapf ("invalid cache size " +:+ value) e)
      | Ok num =>
          if float64_le num (float64_of_int 0) then Err (ErrNew ("cache size must be positive, got " +:+ show num))
          else Ok (int_of_float64 (float64_mul num (float64_of_int multiplier)))
      end
  end.

Definition parseCacheSizePercent (value cacheDir : string) : result Z :=
  match ParseFloat (strings_TrimSuffix value "%") with
  | Err e => Err (ErrWrapf ("invalid percentage " +:+ value) e)
  | Ok pct =>
      if float64_le pct (float64_of_int 0) || float64_lt (float64_of_int 100) pct
      then Err (ErrNew ("percentage must be between 1 and 100, got " +:+ show pct))
      else
        match diskTotal cacheDir with
        | Err e => Err (ErrWrapf ("failed to get disk size for " +:+ cacheDir) e)
        | Ok totalBytes => Ok (int_of_float64 (float64_div (float64_mul (float64_of_int totalBytes) pct) (float64_of_int 100)))
        end
  end.

Definition ParseCacheSize (value cacheDir : string) : result Z :=
  let value := strings_TrimSpace value in
  if bool_decide (value = "") then Err (ErrNew "cache size cannot be empty")
  else if strings_HasSuffix value "%" then parseCacheSizePercent value cacheDir
  else parseCacheSizeFixed value.

(** ** Properties *)

Lemma HasSuffix_app s suffix : strings_HasSuffix (s +:+ suffix) suffix = true.
Proof. unfold strings_HasSuffix. rewrite string_rev_app. apply has_prefix_app. Qed.

Lemma ToUpper_app a b : strings_ToUpper (a +:+ b) = strings_ToUpper a +:+ strings_ToUpper b.
Proof. induction a as [|x a IH]; [done|]. rewrite !string_app_cons. cbn. by rewrite string_app_cons, IH. Qed.

(** A number and a unit, with whatever blanks around them, is that many units: the number is
    what [ParseFloat] reads of it in upper case, and the product is cut to an integer. *)
Theorem size_of_unit s u mult cacheDir i j f :
  (u, mult) ∈ units → neat (s +:+ u) = true → ParseFloat (strings_ToUpper s) = Ok f → float64_le f (float64_of_int 0) = false →
  ParseCacheSize (blanks i +:+ (s +:+ u) +:+ blanks j) cacheDir = Ok (int_of_float64 (float64_mul f (float64_of_int mult))).
Proof.
  intros Hu Hneat Hf Hpos. unfold ParseCacheSize. rewrite (TrimSpace_blanks i j _ Hneat).
  assert (Hne : s +:+ u ≠ "") by (intros E; by rewrite E in Hneat). rewrite bool_decide_eq_false_2 by done.
  assert (Hc : strings_ToUpper u = u ∧ strings_HasSuffix (s +:+ u) "%" = false ∧
    List.find (λ u', strings_HasSuffix (strings_ToUpper s +:+ u) u'.1) units = Some (u, mult)).
  { unfold strings_HasSuffix. rewrite !string_rev_app. unfold units in Hu. rewrite !elem_of_cons, elem_of_nil in Hu.
    destruct Hu as [[= -> ->]|[[= -> ->]|[[= -> ->]|[[= -> ->]|[]]]]]; repeat split; reflexivity. }
  destruct Hc as (Hup & -> & Hfind). unfold parseCacheSizeFixed. rewrite ToUpper_app, Hup, Hfind, TrimSuffix_app, Hf, Hpos. reflexivity.
Qed.

(** A text without a unit or a percent sign is not accepted. *)
Theorem size_needs_unit value cacheDir :
  strings_HasSuffix (strings_TrimSpace value) "%" = false →
  Forall (λ u, strings_HasSuffix (strings_ToUpper (strings_TrimSpace value)) u.1 = false) units →
  ∃ e, ParseCacheSize value cacheDir = Err e.
Proof.
  intros Hp Hu. unfold ParseCacheSize. case_bool_decide; [eauto|]. rewrite Hp. unfold parseCacheSizeFixed.
  rewrite Forall_forall in Hu. destruct (List.find _ units) as [[u m]|] eqn:E; [|eauto].
  apply List.find_some in E as [Hin E]. rewrite (Hu (u, m)) in E; [done|]. by apply list_elem_of_In.
Qed.

(** What is not a number passes the check of the bounds: the size is then the smallest
    integer, and the cache is full from the beginning. *)
Theorem not_a_number_is_full value cacheDir total :
  ParseFloat (strings_TrimSuffix value "%") = Ok S754_nan → diskTotal cacheDir = Ok total →
  parseCacheSizePercent value cacheDir = Ok min_int64 ∧ ∀ currentSize, CheckCacheLevel currentSize min_int64 = CacheLevelFull.
Proof.
  intros Hf Hd. split; [|done]. unfold parseCacheSizePercent. rewrite Hf, Hd. unfold float64_of_int, float64_mul. cbn [SFleb SFltb].
  by destruct (binary_normalize 53 1024 total 0 false).
Qed.
End Parse.

(** ** Levels *)

(** The levels by exact arithmetic. *)
Definition exact_level (currentSize maxSize : Z) : CacheLevel :=
  if maxSize <=? currentSize then CacheLevelFull
  else if 9 * maxSize <=? 10 * currentSize then CacheLevelPauseScheduling
  else if 8 * maxSize <=? 10 * currentSize then CacheLevelWarning
  else CacheLevelNormal.

Definition agrees (maxSize : Z) (n : nat) : bool :=
  bool_decide (CheckCacheLevel (Z.of_nat n) maxSize = exact_level (Z.of_nat n) maxSize).

Lemma agrees_up_to (maxSize : Z) (bound n : nat) : forallb (agrees maxSize) (seq 0 bound) = true → (n < bound)%nat → CheckCacheLevel (Z.of_nat n) maxSize = exact_level (Z.of_nat n) maxSize.
Proof.
  intros H Hn. rewrite forallb_forall in H. specialize (H n). rewrite in_seq in H. specialize (H ltac:(lia)). by apply bool_decide_eq_true in H.
Qed.

(** For a cache of a thousand units the rounding of the floats does not show: the level is
    that of exact arithmetic for every use up to twice the size. *)
Theorem levels_exact_per_mille n : (n <= 2000)%nat → CheckCacheLevel (Z.of_nat n) 1000 = exact_level (Z.of_nat n) 1000.
Proof. intros Hn. apply (agrees_up_to 1000 2001); [vm_compute; reflexivity|lia]. Qed.

Module CacheSizeRuns.
(** Sizes that differ by a byte beyond 2^53 are the same float: the cache is full a byte too
    early. *)
Example full_a_byte_early : CheckCacheLevel (2 ^ 53) (2 ^ 53 + 1) = CacheLevelFull ∧ exact_level (2 ^ 53) (2 ^ 53 + 1) = CacheLevelPauseScheduling.
Proof. vm_compute. by split. Qed.

Definition digits (s : string) : result spec_float :=
  if bool_decide (s = "50") then Ok (float64_of_int 50) else if bool_decide (s = "9000000") then Ok (float64_of_int 9000000) else Err (ErrNew "invalid syntax").

Example sizes :
  ParseCacheSize digits (λ _, "") (λ _, Ok 2000) " 50gb " "" = Ok (50 * 1024 ^ 3) ∧
  ParseCacheSize digits (λ _, "") (λ _, Ok 2000) "50%" "" = Ok 1000 ∧
  ParseCacheSize digits (λ _, "") (λ _, Ok 2000) "50" "" = Err (ErrNew "invalid cache size 50: must end with TB, GB, MB, or KB").
Proof. vm_compute. by repeat split. Qed.

(** Out of the range of int64, a size is negative. *)
Example size_overflows : ParseCacheSize digits (λ _, "") (λ _, Ok 2000) "9000000TB" "" = Ok min_int64.
Proof. vm_compute. reflexivity. Qed.
End CacheSizeRuns.
