(* ===== verification/StatsRegistry.v ===== *)
(** The collector of connector statistics (pkg/metrics/collector_runtime.go,
    internal/connector) and how tasks are registered with it (internal/pipeline/task.go).

    A gauge is a number by the name of its vector and its labels.  A tick asks every provider
    and sets its gauges; the goroutines of a tick end in any order, each with its gauges.  A
    provider that panics gives nothing. *)
From Stdlib Require Import ZArith Lia Ascii SpecFloat.
From Stdlib Require String.
From stdpp Require Import prelude countable gmap strings list fin_maps pretty.
From S2P Require Import Prelude Events BinlogConsumer BinlogSetup Tasks.
Local Open Scope Z_scope.

(** ** internal/connector *)

Record Stats := mkStats {
  sx_QueueSize : Z; sx_QueueCapacity : Z; sx_Position : string; sx_LagSeconds : spec_float; sx_LastEventTime : time;
  sx_SnapshotRunning : bool; sx_SnapshotProgress : spec_float; sx_SnapshotTotalTables : Z; sx_SnapshotRemainingTables : Z; sx_Connected : bool
}.

(** ** collector_runtime.go *)

Section Collector.
Context {P : Type} (provider_Stats : P → option Stats) `{GR : !GoRange string (P * string * string * string)}.

(** A provider with its role, its type and its task. *)
Notation providerEntry := (P * string * string * string)%type (only parsing).

Record StatsCollector := mkStatsCollector {
  sl_cluster : string; sl_interval : duration; sl_timeout : duration; sl_providers : gmap string providerEntry
}.

Definition NewStatsCollector (cluster : string) (interval timeout : duration) : StatsCollector :=
  mkStatsCollector cluster (if interval <=? 0 then 5000000000 else interval) (if timeout <=? 0 then 1000000000 else timeout) ∅.

Definition stats_Register (key role cType taskID : string) (p : option P) (c : StatsCollector) : StatsCollector :=
  match p with
  | None => c
  | Some p => mkStatsCollector (sl_cluster c) (sl_interval c) (sl_timeout c) (<[key := (p, role, cType, taskID)]> (sl_providers c))
  end.

Definition stats_Unregister (key : string) (c : StatsCollector) : StatsCollector :=
  mkStatsCollector (sl_cluster c) (sl_interval c) (sl_timeout c) (delete key (sl_providers c)).

Notation gauges := (gmap (string * list string) spec_float) (only parsing).
Definition set_gauge (name : string) (labels : list string) (v : spec_float) (g : gauges) : gauges := <[(name, labels) := v]> g.

Definition is_nan (f : spec_float) : bool := match f with S754_nan => true | _ => false end.

Definition stats_emit (cluster role cType taskID : string) (s : Stats) (g : gauges) : gauges :=
  let g := set_gauge "PipelineQueueSize" [cluster; taskID; role] (float64_of_int (sx_QueueSize s)) g in
  let g := set_gauge "PipelineQueueCapacity" [cluster; taskID; role] (float64_of_int (sx_QueueCapacity s)) g in
  let g :=
    if bool_decide (role = "source") then
      let g := if is_nan (sx_LagSeconds s) then g
               else set_gauge "SourceLagSeconds" [cluster; taskID; cType]
                      (if SFltb (sx_LagSeconds s) (float64_of_int 0) then float64_of_int 0 else sx_LagSeconds s) g in
      let g := if time_IsZero (sx_LastEventTime s) then g
               else set_gauge "SourceLastEventSeconds" [cluster; taskID; cType] (float64_of_int (Unix (sx_LastEventTime s))) g in
      let g := set_gauge "SourceSnapshotProgress" [cluster; taskID] (sx_SnapshotProgress s) g in
      let g := set_gauge "SnapshotTablesTotal" [cluster; taskID] (float64_of_int (sx_SnapshotTotalTables s)) g in
      set_gauge "SnapshotTablesRemaining" [cluster; taskID] (float64_of_int (sx_SnapshotRemainingTables s)) g
    else g in
  set_gauge "ConnectorConnected" [cluster; taskID; role; cType] (float64_of_int (if sx_Connected s then 1 else 0)) g.

Definition emit_entry (cluster : string) (g : gauges) (e : providerEntry) : gauges :=
  let '(p, role, cType, taskID) := e in
  match provider_Stats p with None => g | Some s => stats_emit cluster role cType taskID s g end.

Definition stats_tick (c : StatsCollector) (g : gauges) : gauges := foldl (emit_entry (sl_cluster c)) g (go_range (sl_providers c)).*2.

(** ** task.go *)

Definition source_key (taskID : string) : string := taskID +:+ ":source".
Definition sink_key (taskID slot : string) : string := taskID +:+ ":sink:" +:+ slot.

(** The methods of the manager, without effect where there is no collector; what is not a
    provider is not registered. *)
Definition RegisterSourceStats (taskID sourceType : string) (src : option P) (c : option StatsCollector) : option StatsCollector :=
  stats_Register (source_key taskID) "source" sourceType taskID src <$> c.

Definition RegisterSinkStats (taskID sinkType : string) (slot : Z) (snk : option P) : ST (option StatsCollector) unit := λ c,
  match c, snk with
  | Some sc, Some p =>
      match intToStr slot with
      | Ok s => (Some (stats_Register (sink_key taskID s) "sink" sinkType taskID (Some p) sc), Ok tt)
      | Err e => (c, Err e)
      end
  | _, _ => (c, Ok tt)
  end.

(** Sixteen slots. *)
Definition unregister_slot (taskID : string) (c : StatsCollector) (i : nat) : StatsCollector :=
  match intToStr (Z.of_nat i) with Ok s => stats_Unregister (sink_key taskID s) c | Err _ => c end.
Definition UnregisterTaskStats (taskID : string) (c : option StatsCollector) : option StatsCollector :=
  (λ c, foldl (unregister_slot taskID) (stats_Unregister (source_key taskID) c) (seq 0 16)) <$> c.

(** ** Properties *)

Lemma providers_unregistered taskID slots : ∀ c : StatsCollector, Forall (λ i, Z.of_nat i < 10000) slots →
  sl_providers (foldl (unregister_slot taskID) c slots) = foldl (λ m i, delete (sink_key taskID (pretty (Z.to_N (Z.of_nat i)))) m) (sl_providers c) slots.
Proof.
  induction slots as [|i slots IH]; intros c Hs; [done|]. apply Forall_cons in Hs as [Hi Hs]. cbn [foldl]. rewrite IH by done.
  unfold unregister_slot. by rewrite (proj1 (intToStr_spec _)) by lia.
Qed.

Lemma providers_deleted_lookup {A B} (f : A → string) (l : list A) : ∀ (m : gmap string B) k,
  foldl (λ m a, delete (f a) m) m l !! k = if decide (k ∈ f <$> l) then None else m !! k.
Proof.
  induction l as [|a l IH]; intros m k; [done|]. cbn [foldl]. rewrite IH, fmap_cons.
  destruct (decide (k ∈ f <$> l)) as [H|H]; [by rewrite decide_True by (by right)|].
  destruct (decide (k = f a)) as [->|Hne]; [rewrite decide_True by (by left); by rewrite lookup_delete_eq|].
  rewrite decide_False by (rewrite elem_of_cons; tauto). by rewrite lookup_delete_ne by done.
Qed.

(** Unregistering a task removes its source and its first sixteen sinks, and nothing else: a
    sink in a later slot stays, and goes on being asked. *)
Definition slot_keys (taskID : string) : list string := (λ i, sink_key taskID (pretty (Z.to_N (Z.of_nat i)))) <$> seq 0 16.

Theorem unregister_task taskID c key :
  (sl_providers <$> UnregisterTaskStats taskID (Some c)) ≫= lookup key =
  if decide (key = source_key taskID ∨ key ∈ slot_keys taskID) then None else sl_providers c !! key.
Proof.
  cbn [UnregisterTaskStats fmap option_fmap option_map mbind option_bind].
  rewrite (providers_unregistered taskID (seq 0 16)) by (cbn [seq]; repeat constructor; lia).
  rewrite (providers_deleted_lookup (λ i, sink_key taskID (pretty (Z.to_N (Z.of_nat i)))) (seq 0 16)). fold (slot_keys taskID).
  destruct (decide (key ∈ slot_keys taskID)) as [H|H]; [by rewrite decide_True by (by right)|].
  cbn [sl_providers stats_Unregister]. destruct (decide (key = source_key taskID)) as [->|Hne].
  - rewrite decide_True by (by left). by rewrite lookup_delete_eq.
  - rewrite decide_False by tauto. by rewrite lookup_delete_ne.
Qed.

(** The connection gauge of an entry. *)
Definition connected_gauge (cluster : string) (e : providerEntry) : string * list string :=
  let '(_, role, cType, taskID) := e in ("ConnectorConnected", [cluster; taskID; role; cType]).
Definition connected_value (s : Stats) : spec_float := float64_of_int (if sx_Connected s then 1 else 0).

Lemma stats_emit_connected cluster role cType taskID s g L :
  stats_emit cluster role cType taskID s g !! ("ConnectorConnected", L) =
  if decide (L = [cluster; taskID; role; cType]) then Some (connected_value s) else g !! ("ConnectorConnected", L).
Proof.
  unfold stats_emit, set_gauge. destruct (decide _) as [->|HL]; [by rewrite lookup_insert_eq|]. rewrite lookup_insert_ne by congruence.
  repeat case_match; rewrite ?lookup_insert_ne by discriminate; done.
Qed.

Lemma foldl_connected cluster L (l : list providerEntry) : ∀ g,
  let v := foldl (emit_entry cluster) g l !! ("ConnectorConnected", L) in
  (v = g !! ("ConnectorConnected", L) ∧ ∀ e, e ∈ l → connected_gauge cluster e = ("ConnectorConnected", L) → provider_Stats e.1.1.1 = None) ∨
  ∃ e s, e ∈ l ∧ connected_gauge cluster e = ("ConnectorConnected", L) ∧ provider_Stats e.1.1.1 = Some s ∧ v = Some (connected_value s).
Proof.
  induction l as [|[[[p role] cType] taskID] l IH]; intros g v; subst v; [left; split; [done|intros e He; by apply not_elem_of_nil in He]|]. cbn [foldl emit_entry].
  destruct (IH (emit_entry cluster g (p, role, cType, taskID))) as [[Hv Hn]|(e & s & He & Hg & Hs & Hv)]; cbn [emit_entry] in Hv.
  2:{ right. exists e, s. split_and!; [by right|done..]. }
  destruct (provider_Stats p) as [s|] eqn:Hp.
  - rewrite stats_emit_connected in Hv. destruct (decide _) as [->|HL].
    + right. exists (p, role, cType, taskID), s. split_and!; [by left|done..].
    + left. split; [done|]. intros e [->|He]%elem_of_cons Hg; [cbn in Hg; congruence|by apply Hn].
  - left. split; [done|]. intros e [->|He]%elem_of_cons Hg; [done|by apply Hn].
Qed.

(** After a tick the connection gauge of every provider that answers holds what a provider
    with the same task, role and type answered: itself where there is no other. *)
Theorem tick_connected c g key e s : sl_providers c !! key = Some e → provider_Stats e.1.1.1 = Some s →
  ∃ key' e' s', sl_providers c !! key' = Some e' ∧ connected_gauge (sl_cluster c) e' = connected_gauge (sl_cluster c) e ∧
    provider_Stats e'.1.1.1 = Some s' ∧ stats_tick c g !! connected_gauge (sl_cluster c) e = Some (connected_value s').
Proof.
  intros Hk Hs. assert (He : e ∈ (go_range (sl_providers c)).*2) by (apply list_elem_of_fmap; exists (key, e); by rewrite go_range_lookup).
  destruct e as [[[p role] cType] taskID]. unfold stats_tick. cbn [connected_gauge].
  destruct (foldl_connected (sl_cluster c) [sl_cluster c; taskID; role; cType] (go_range (sl_providers c)).*2 g) as [[_ Hn]|(e' & s' & He' & Hg & Hs' & Hv)].
  { specialize (Hn _ He eq_refl). cbn in *. congruence. }
  apply list_elem_of_fmap in He' as ([key' e''] & -> & Hl). apply go_range_lookup in Hl. by exists key', e'', s'.
Qed.
End Collector.

Module StatsRuns.
#[local] Instance range_entries : GoRange string (bool * string * string * string) := sorted_range _ _.
(** A provider that is a connection. *)
Definition connection (b : bool) : option Stats := Some (mkStats 0 0 "" (float64_of_int 0) 0 false (float64_of_int 0) 0 0 b).

Definition empty_collector : option (StatsCollector (P := bool)) := Some (NewStatsCollector "c" 0 0).
Definition two_sinks : option StatsCollector := (RegisterSinkStats "t" "mysql" 16 (Some false) (RegisterSinkStats "t" "mysql" 0 (Some true) empty_collector).1).1.

(** The sink of slot sixteen stays after its task was unregistered. *)
Example slot_sixteen_stays : map_to_list ∘ sl_providers <$> UnregisterTaskStats "t" two_sinks = Some [("t:sink:16", (false, "sink", "mysql", "t"))].
Proof. vm_compute. reflexivity. Qed.

(** Two sinks of one type share their gauges: one connection is shown for both. *)
Example sinks_share_gauge :
  (λ c, stats_tick connection c ∅ !! ("ConnectorConnected", ["c"; "t"; "sink"; "mysql"])) <$> two_sinks = Some (Some (float64_of_int 1)).
Proof. vm_compute. reflexivity. Qed.
End StatsRuns.
